(* ===== verification/_CoqProject ===== *)
-Q . S2P
Prelude.v
PyText.v
PyFloat.v
FloatFacts.v
PyJson.v
FloatMul.v
Decimal.v
BondLedger.v
Amounts.v
RuntimeSafety.v
AtomicLedger.v
Capacity.v
Voucher.v
ProfileCapacity.v
SettlementEngine.v
SettlementTransitions.v
BillingStates.v
BillingMachine.v
BillingScenarios.v
BillingBridge.v
BillingSync.v
ChallengeWindow.v
Attestation.v
VerifierRules.v
TrustLedger.v
SpendingGrant.v
GrantApproval.v
NonceLog.v
DailySpend.v
VerifierBond.v
Arbitration.v
IdentityCheck.v
IdentityProvider.v
RoleProfiles.v
UsageBilling.v
SettlementRoutes.v
SettlementFlow.v
EscrowContract.v
EscrowChain.v
EscrowNet.v
EscrowBills.v
EscrowChannel.v
EscrowTick.v
EscrowOrders.v
EscrowTruth.v
EscrowFlow.v
RespGraph.v
ScanQueue.v
IdentityStore.v
