(* ===== verification/Prelude.v ===== *)
(** * Karma: a verification development

    Karma is an escrow, evidence and billing service for trades between AI agents.
    The on-chain part (Solidity, under karma-core/) holds the money; the Python
    program keeps the off-chain ledgers, drives settlements, checks evidence and
    records an audit trail.  This development models the Python code that decides
    about money and state, and the escrow contract it drives, and proves what that code
    promises.

    ** The program's parts and how they interact

    - Billing (packages/karma_billing/): a task moves through billing states along
      scenario paths; every move needs a registered receipt and is appended to an
      audit log.  The bridge (bridge.py) and the synchronization service
      (sync_service.py) queue receipts and anchor them in batches under a Merkle root.
    - Spending on a buyer's behalf (services/spending_grant.py, grant_approval.py,
      identity_wallet_binding.py, runtime_wallet.py, runtime_daily_spend.py,
      runtime_nonce_log.py): a signed grant lets an agent draw up to a cap, an
      approval code opens a grant for one draw, day limits and replay nonces guard
      every runtime call; a lock of a bilateral trade passes through all of them.
    - Metered usage (services/usage_billing.py, skill_registry.py, seller_stake.py and the
      bill and binding look-ups of services/chain/, api/routes/skill_market.py): calls are
      charged on meters, meters are billed at a threshold, and the chain pays or refuses.
    - Settlement (core/settlement/engine.py, db/stores/settlement_store.py,
      services/settlement_transitions.py, api/routes/settlement.py with
      settlement_party_access.py, settlement_cycle_guard.py and
      settlement_receipt_release_guard.py): a settlement row moves through task
      statuses; a route checks who asks, applies a transition, asks the chain, reverts
      when the chain refuses, and then closes the books of capacity and vouchers.
    - Escrow channel (services/chain/allowance_escrow.py, escrow_settlement.py,
      funds_trace.py, escrow_autosettle.py and the contract
      karma-core/contracts/core/KarmaAllowanceEscrow.sol): wallets commit allowances as
      bills, a settlement binds a bill of each party, a verdict opens a window on the chain
      and a loop executes it, and the books follow what the chain says.
    - Capacity (services/atomic_ledger.py, capacity_ledger.py, capacity_resolution.py,
      profile_capacity.py, api/routes/capacity.py): a buyer's locked money and the
      credit buckets drawn on it, updated by guarded SQL statements; the runtime
      brake (services/runtime_safety.py) stops new business when the totals breach.
    - Vouchers (services/voucher_lifecycle.py, voucher_reaper.py,
      settlement_voucher.py, voucher_preauth.py): reserve and return credits.
    - Amounts (services/settlement_amounts.py, auto_arbitration_rules.py,
      progress_curve.py): how an escrow is divided.
    - Decentralized verification (decentralized_verifier/, sdk/verifier.py): nodes
      check evidence bundles and attest, an aggregator forms a quorum, a challenge
      window opens, and settlement is released.
    - Bonds (services/verifier_bond.py, bond_slash.py, settlement_reversal.py,
      api/routes/verifier_network.py): verifier nodes stake, attest and lose stake when
      a challenge is upheld; slashes pay the debts of overturned settlements.
    - Arbitration (services/arbitration_rules.py, api/routes/arbitration.py): staked
      panels vote on disputes; decisions are scheduled, appealed and paid out through
      the settlement, capacity and voucher tables.
    - Identity (services/identity_verification.py, face_activation.py,
      identity_provider/, governance_stake.py, compliance_revocation.py and the routes
      identity_verification.py, identity_role_profiles.py, identity_kyc.py): people are
      verified by reviewers, face checks or providers; role profiles are reviewed, hold
      governance roles against a stake and lose them again.
    - Identity gateway (services/identity_gateway/store.py, state_machine.py): identities
      with wallets, telegram accounts, sub-identities and credentials, whose states move
      through a table and are recorded in a hash-chained audit ledger.
    - Responsibility graph (services/responsibility_graph.py, api/routes/responsibility.py):
      accepted vouchers and links become edges between identities, edges that close a
      circle raise signals, and scans, queued for workers, score the identities.

    ** Files

    Foundations: [Prelude] (results, the state-and-exception monad, ordered
    dictionaries, tactics, the hint database karma), [PyFloat] (Python floats as
    IEEE binary64), [FloatFacts] and [FloatMul] (their order, rounding, sums,
    products and quotients), [PyJson] (JSON values), [PyText] (splitting, joining and
    sets of lines), [Decimal] (floats that are whole numbers of 10^-k, for k = 6 and 8, and their sums).

    - [Amounts]: to_minor_units, from_minor_units, normalize_amount,
      assert_token_precision, split_amounts; build_auto_arbitration_context and
      adjust_auto_split_for_rules; max_allowed_claimed_value_percent and
      validate_claimed_against_curve.  Theorems: minor units round trip, a split
      conserves every minor unit, auto-arbitration divides exactly the escrow.
    - [RuntimeSafety]: the brake's process state, its stored row, hydration and
      restart.  Theorems: a written brake survives a restart; the gate blocks exactly
      what the pauses say.
    - [AtomicLedger]: apply_delta and its companions over the class [LedgerModel]
      (what the ledger uses of an ORM model, with the laws [LedgerLaws]).  Theorems
      for every instance: the effect of one guarded update, and that in any order of
      updates none is lost and none is applied past its guards.
    - [Capacity] (instance [CapacityRow]): healing, dispute freeze, payout, release
      of a freeze, the lock and release routes, the anchor audit.  Theorems: the exact
      effect of each operation, with both conservation equations in what it writes, and
      that no request commits a row that fails the check.
    - [ProfileCapacity] (instance [ProfileRow]): quotas of role profiles, with the
      interference of other transactions between read and update.
    - [Voucher]: acceptance, rejection, expiry, leak restoration, cancellation, use
      and pre-authorization.  Theorems: statuses follow the lifecycle under any sequence
      of whole requests (overlapping ones can undo a rejection, shown by an example);
      acceptance reserves exactly the bill amount; auto-acceptance is
      exactly the policy.
    - [SettlementEngine]: the status table, the predicates, the in-memory store and
      PostgresSettlementStore on a table of rows.  Theorems: what [save] does on every
      branch, that accepted terms never change, that [get] returns what was saved.
    - [SettlementTransitions]: apply_settlement_transition, its audit, the snapshot
      and revert around the chain call, get_session.  Theorems: an accepted move is
      committed and audited once; a refusal by the chain restores the six columns of the
      snapshot, or, when the restore itself fails, leaves the step booked.
    - [SettlementRoutes]: creation, lock, delivery, cancellation, acceptance, splits,
      regret, dispute, rejection, confirmation after the window (route and tick) and
      automatic arbitration, over one session that holds the settlements, capacity,
      vouchers, quotas and payment intents.  [SettlementFlow] proves: the guard against
      payment cycles is exact; every route moves the settlements by the steps of a machine
      on the columns that say who pays whom ([flow]), so payments never go in a circle;
      only the parties act; nothing is paid without a receipt; and by evaluation where
      the books stay open.
    - [EscrowContract]: the contract, call by call, over the class [ERC20] of tokens.
      Theorem: every bill covers what its live bindings claim, and closed bindings never
      move.  Its counters are integers without a bound (the contract increments a uint256
      from zero) and its calls are atomic: a token that calls back is not modelled.  [EscrowChain]: the rows, the class [EscrowRpc] of what a node answers and
      [EscrowLaws] of what the answers mean (each binding follows a life cycle of [Fact]s),
      and the client functions of allowance_escrow.py.  [EscrowNet]: the contract behind a
      network that loses calls and receipts is an instance of both classes, the contract
      refines the life cycle, and a window cannot be turned while it is open (although the
      contract's comments say that a ruling may be changed inside the window).
    - [EscrowBills]: backing of bills by allowances, choice of a bill, parties and
      self-dealing, the trace of the funds.  [EscrowChannel]: bind, submit, slash, freeze,
      confirm, cancel, reconcile and what they write back.  [EscrowTick]: the passes of the
      settlement loop.  [EscrowOrders]: the writers of bindings and chain columns outside the
      channel, that is, the order routes of api/routes/escrow.py, the chain side of usage
      settlements, and the jobs of worker/tasks.py for the older bilateral contract.
      [EscrowTruth] proves, against the classes, that in any run of requests (one after
      another), ticks, failures and acts of others the books never claim what the chain does
      not confirm, and that the end of the money is written once.  The conditions: the
      settlement mode is neither testnet nor hybrid, since in those modes the bilateral worker
      writes the columns from another contract ([EscrowFlow.bilateral_breaks_books]); an order
      is finalized under a key without an underscore
      ([EscrowFlow.underscore_finalizes_another]); and requests of other components leave
      bindings and chain columns as they read them.  [EscrowFlow]: the gates
      (no window without a verdict, no binding with oneself, the chosen bill bears the
      amount, shortest legal paths) and runs against [EscrowNet] that end with the books and
      the money apart.
    - [BillingStates], [BillingMachine], [BillingScenarios]: the transition tables,
      ImmutableBillingStateMachine and the scenario registry.  Theorems: replaying
      the history gives the state, the machine takes exactly the steps of the lifecycle, there
      are no dead ends, history is append-only and SETTLED final.
    - [BillingBridge]: the anchoring policy, the in-memory receipt service and the
      bridge that anchors due batches, written against the class [SyncService] (with the
      laws [SyncLaws] its instance discharges).  Theorems: anchored and pending receipts
      together are the added ones, each once and in order; forced anchoring drains.
    - [BillingSync]: the three routes of a receipt (store, subscribers, Merkle
      accumulator), leaf hashes and the root.  Theorems: the root is computed for every
      non-empty tree and binds its leaves unless a digest collides; every receipt becomes
      a leaf in order.
    - [SpendingGrant]: grants, their status, reservation, release and the gate before
      a lock, with the routes that issue, pause and revoke.  Theorems: spent never
      exceeds the highest limit in any interleaving of the checked operations, and the
      exact effect of each operation.
    - [GrantApproval]: approval codes and wallet bindings.  Theorems: a code approves
      one grant once; what a signature check admits.
    - [NonceLog]: nonce claims as interleaved statements.  A claim reads, inserts (with
      purge and commit in the same step), or reads again and takes over.  Theorems: claims
      finish, an unseen nonce is given to at most one request, a completed one is replayed.
    - [DailySpend]: the day counters and limits of runtime keys.  Theorems: reserved
      spend stays within the limit whatever other transactions do; when a reservation
      is granted.
    - [BondLedger]: the slash ledger, reversal debts and the status route that credits
      them.  Theorems: one slash per subject and source, fixed terms of slashes and debts, a split that
      loses nothing, debts never overpaid, one credit per transaction.
    - [VerifierBond]: bond gates and the node, stake, exit, attestation and challenge
      routes.  Theorems: who may attest, what an upheld challenge takes, when an exit is
      paid.
    - [Arbitration]: pool, cases, panels, votes, appeals, scheduling, payout and the
      tick over due cases, on top of [SettlementEngine], [Capacity] and [Voucher].
      Theorems: the requests refine a case machine ([case_step]) whose invariant they
      therefore keep; the row a payout stores divides exactly the escrow; appointed arbitrators are
      qualified.
    - [IdentityCheck]: the plaintext gate, submissions, verification rows, face
      activation and the same-person check.  Theorems: what the gate lets through, the
      shape of an accepted submission, what a passed face check establishes.
    - [IdentityProvider]: the class [IdentityProvider] with [ProviderLaws], the mock
      provider as its instance, signed callbacks, sessions and the application of
      decisions.  Theorems, for every lawful provider: signed callbacks are accepted, and
      a verdict is applied only to the session it belongs to.
    - [RoleProfiles]: governance stakes, role profiles, reviews, revocations and the
      verification routes, on top of the two files above.  Theorems: the invariant of
      verifications under any requests, that nobody verifies a profile alone, that
      governance roles need an authority and revocations two persons.
    - [UsageBilling]: prices, meters, charges, settlements, reconciliation and the route
      that calls them.  Theorems: the requests are sequences of ledger steps ([ustep]) that
      keep every meter equal to the charges and settlements behind it; a request is charged
      once; a settlement the chain did not take stays.
    - [ChallengeWindow]: ChallengeWindowManager over a heap of shared window objects.
      Theorem: settlement is allowed exactly after the end of an unchallenged window;
      overruled challenges, after which the code and its documentation differ, are apart.
    - [Attestation]: the EIP-712 payload, signature verification with both back ends,
      AttestationAggregator, check_settlement_ready.  Theorem: who is counted,
      when the quorum is reached and how a majority decides.
    - [VerifierRules]: structural_verify, verify_evidence_integrity and the node.
      Theorems: when a bundle passes, and that an attested bundle determines its task
      and receipts.
    - [TrustLedger]: transitions, the hash chain with truncation, alerts, integrity
      check and reload.  Theorems: the chain always verifies; tampering without the
      key other than dropping the newest entries is reported at its first position.
    - [IdentityStore]: the identities and their indexes, the second factor, policies,
      points, credentials, persistence and restart, on [TrustLedger].  Theorems: the
      invariant of the indexes and of the identities under any calls, failed writes and
      restarts (seeds that create an identity, which do not look at its wallet, left out);
      what binding by the second factor does; the ledger's entries about a
      credential end in its status.
    - [RespGraph]: ingestion, signals, the cycle search, scores, path features and the
      reports of a task.  Theorems: the search is exact, the walks end, every self-edge and
      every circle of at most seven edges is signalled, a task is consistent exactly when its edges are in
      order.  [ScanQueue]: scan runs with leases, retries, dead letters and workers.
      Theorems: the events of a run replay to its row after any requests; a claim takes
      exactly the next claimable run and keeps it from the claims that come after it.

    ** Modelling conventions

    A Python function that may raise returns a [result]; one that mutates state is a
    statement of the monad [M], in which mutations made before an exception stay.
    [get_session] is modelled where a request is: commit on success, roll the tables
    back on an exception.  One SQL statement is atomic; concurrent requests are
    sequences of statements, given either as a step relation or as a function [env]
    that stands for what other transactions do between two statements; [DbSession]
    pairs the tables a session sees with the committed ones.  Amounts are binary64
    floats with every rounding, never reals.  Clocks, random ids and the outcomes of writes are arguments.  The texts of
    error messages are shortened where the code interpolates numbers into them, and
    log lines are left out.

    Code outside the repository is a parameter: the sum a database or Python computes
    ([sql_sum], [py_sum]), the chain call of a transition ([sync]), the
    responsibility graph behind a voucher ([ingest_edge], modelled in [RespGraph]), parsing of numeric text ([parse_float]),
    digests and signatures ([sha], [sha_text], [sha_pair], [sha256_hex],
    [payload_digest], [entry_digest], [recover], [CryptoLib]), parsing of times and
    JSON ([fromisoformat], [loads]), printing and reading of numbers and values as text
    ([float_str], [fmt4], [fmt6], [str_of], [int_of_text], [dec]), keyed digests ([hmac]), the order a
    query returns rows in ([newest_first]), the anchor of a batch ([append_batch]), the
    on-chain lock ([lock_direct]) and order ([open_order]), the readings of the bond vault and of slash
    transactions ([read_bond], [verify_slash_tx], [vault_covers], [no_payee_yet]) and
    number formatting ([fmt_g], [fmt2]).  [SettlementRoutes.Env] collects what a settlement
    request finds: the clock, the delivery gate, the owner's confirmation, the reputation
    tables, the attestation and the chain step.  [arbitration_invariant] and
    [no_payment_cycle] assume that the chain step leaves the tables they speak of alone
    ([quiet]).  In the escrow files a node is [EscrowRpc], a token [ERC20], keccak and the
    printing of amounts are functions, and [EscrowChain.EscrowEnv] holds the clocks, the
    identity store, the delivery gate and the receipts a request finds.

    ** Bounds

    [Amounts] assumes at most 15 decimals and 2^50 minor units (a billion USDC at 6
    decimals): within them every integer and every power of ten involved is exact in
    binary64.  [BondLedger] and [VerifierBond] state exact sums for amounts of at most
    2^50 units of 1e-8 ([Decimal]); [UsageBilling] for meters whose calls times their total
    stay below 2^49 millionths of a USDC ([in_range]), with any summation as accurate as
    adding one by one ([PySum]).  [BillingStates.reachable] closes the state graph in 13 rounds, enough
    because a shortest path visits no state twice and the closure is checked by
    evaluation.  [BillingSync] climbs a Merkle level with the number of leaves as
    fuel, enough because every level halves it.  The search for a payment cycle has one round
    more than there are edges, the search for a circle of responsibility one more than hops
    times edges, the walk of path features one more than its depth times the edges, and the search for a path between statuses one more than there
    are statuses, all proved enough.  A nonce claim is proved to finish
    in four of its own statements.  All other recursion is structural.

    ** Not modelled

    The contracts other than the allowance escrow; transport to nodes (gas, nonces, ABI
    decoding, explorer links), which the modelled code sees as [EscrowRpc]; the claiming of
    commitments from receipts and their capacity mirror; the bilateral contract behind the
    jobs of worker/tasks.py, whose answers are arguments; HTTP routing, authentication and
    serialisation, the console and the SDKs, which are clients of the routes; migrations,
    configuration and storage back ends, which have no logic of their own; the evidence
    runtime, which is deprecated in favour of the rules modelled in [VerifierRules]; payments, the overturn route of arbitration and the reports on the scan queue. *)
From Stdlib Require Export ZArith Lia.
From stdpp Require Export base decidable finite gmap list strings sets relations.

(** ** Results and the state-and-exception monad *)

Declare Scope karma_scope.
Delimit Scope karma_scope with karma.
Open Scope karma_scope.

(** A Python call either returns a value or raises an exception value. *)
Inductive result (E A : Type) : Type :=
| Ok (a : A)
| Err (e : E).
Arguments Ok {E A} a.
Arguments Err {E A} e.

Definition rbind {E A B} (c : result E A) (k : A -> result E B) : result E B :=
  match c with Ok a => k a | Err e => Err e end.

Notation "'let?' x := c 'in' k" := (rbind c (fun x => k))
  (at level 10, x pattern, c at level 100, k at level 200) : karma_scope.

Definition is_ok {E A} (c : result E A) : bool :=
  match c with Ok _ => true | Err _ => false end.

(** Statements that mutate an object and may raise.  As in Python, the
    mutations made before an exception is raised stay. *)
Definition M (S E A : Type) : Type := S -> result E A * S.

Definition m_ret {S E A} (a : A) : M S E A := fun s => (Ok a, s).
Definition m_raise {S E A} (e : E) : M S E A := fun s => (Err e, s).
Definition m_get {S E A} (f : S -> A) : M S E A := fun s => (Ok (f s), s).
Definition m_put {S E} (f : S -> S) : M S E unit := fun s => (Ok tt, f s).
Definition m_bind {S E A B} (c : M S E A) (k : A -> M S E B) : M S E B :=
  fun s => match c s with
           | (Ok a, s') => k a s'
           | (Err e, s') => (Err e, s')
           end.

Notation "'do!' x := c 'in' k" := (m_bind c (fun x => k))
  (at level 10, x pattern, c at level 100, k at level 200) : karma_scope.
Notation "'seq!' c 'in' k" := (m_bind c (fun _ => k))
  (at level 10, c at level 100, k at level 200) : karma_scope.

Definition exec {S E A} (c : M S E A) (s : S) : S := snd (c s).
Definition outcome {S E A} (c : M S E A) (s : S) : result E A := fst (c s).

Lemma m_bind_assoc {S E A B C} (c : M S E A) (k : A -> M S E B) (h : B -> M S E C) s :
  m_bind c (fun a => m_bind (k a) h) s = m_bind (m_bind c k) h s.
Proof. unfold m_bind. by destruct (c s) as [[a|e] s']. Qed.

Lemma m_bind_ok {S E A B} (c : M S E A) (k : A -> M S E B) s b s' :
  m_bind c k s = (Ok b, s') <-> exists a s1, c s = (Ok a, s1) /\ k a s1 = (Ok b, s').
Proof. unfold m_bind. destruct (c s) as [[a|e] s1]; naive_solver. Qed.

(** Run a statement on one component of a larger state. *)
Definition zoom {S T E A} (get : S -> T) (put : T -> S -> S) (c : M T E A) : M S E A :=
  fun s => let '(r, t) := c (get s) in (r, put t s).

(** A pure computation that may raise. *)
Definition lift {S E A} (c : result E A) : M S E A := fun s => (c, s).

Lemma lift_ok {S E A} (c : result E A) (s : S) a s' : lift c s = (Ok a, s') <-> c = Ok a /\ s' = s.
Proof. unfold lift. split; [intros [= -> <-]; done|intros [-> ->]; done]. Qed.

(** [try: c except e: handler]. *)
Definition m_catch {S E A} (c : M S E A) (h : E -> M S E A) : M S E A :=
  fun s => match c s with
           | (Ok a, s') => (Ok a, s')
           | (Err e, s') => h e s'
           end.

(** A database session: the committed tables and the working copy of the open
    transaction.  [in_session] is [db/session.get_session]: commit when the handler
    returns, roll back when it raises. *)
Record DbSession (T : Type) : Type := {
  db_committed : T;
  db_working : T
}.
Arguments Build_DbSession {T} _ _.
Arguments db_committed {T} _.
Arguments db_working {T} _.

Definition db_commit {T E} : M (DbSession T) E unit :=
  m_put (fun s => {| db_committed := db_working s; db_working := db_working s |}).
Definition db_rollback {T E} : M (DbSession T) E unit :=
  m_put (fun s => {| db_committed := db_committed s; db_working := db_committed s |}).
Definition on_db {T E A} (c : M T E A) : M (DbSession T) E A :=
  zoom db_working (fun t s => {| db_committed := db_committed s; db_working := t |}) c.
Definition in_session {T E A} (handler : M (DbSession T) E A) : M (DbSession T) E A :=
  m_catch (do! a := handler in seq! db_commit in m_ret a)
    (fun e => seq! db_rollback in m_raise e).

(** The exceptions the modelled code raises. *)
Inductive Exc :=
| HTTPException (status_code : Z) (detail : string)
| ValueError (detail : string)
| TypeError (detail : string)
| AttributeError (detail : string)
| KeyError (detail : string)
| OverflowError
| IndexError
| LedgerConflict (message : string)
| IntegrityError
| MultipleResultsFound.

#[export] Instance Exc_eq_dec : EqDecision Exc.
Proof. solve_decision. Defined.

(** ** Python dictionaries whose iteration order matters

    A [pydict] lists the items in insertion order; assigning to a present key
    keeps its position, as CPython does. *)
Section PyDict.
Context {K V : Type} `{EqDecision K}.

Fixpoint dict_get (k : K) (d : list (K * V)) : option V :=
  match d with
  | [] => None
  | (k', v) :: d' => if decide (k = k') then Some v else dict_get k d'
  end.

Fixpoint dict_set (k : K) (v : V) (d : list (K * V)) : list (K * V) :=
  match d with
  | [] => [(k, v)]
  | (k', v') :: d' =>
      if decide (k = k') then (k', v) :: d' else (k', v') :: dict_set k v d'
  end.

Definition dict_values (d : list (K * V)) : list V := snd <$> d.
Definition dict_keys (d : list (K * V)) : list K := fst <$> d.

Lemma dict_get_set_eq k v d : dict_get k (dict_set k v d) = Some v.
Proof.
  induction d as [|[k' v'] d IH]; simpl; [by rewrite decide_True|].
  case_decide as Hk; simpl; [by rewrite decide_True|by rewrite decide_False].
Qed.

Lemma dict_get_set_ne k k' v d : k <> k' -> dict_get k' (dict_set k v d) = dict_get k' d.
Proof.
  intros Hne. induction d as [|[j w] d IH]; simpl.
  - by rewrite decide_False.
  - case_decide as Hj; simpl; case_decide; congruence.
Qed.

Lemma dict_get_In k v d : dict_get k d = Some v -> (k, v) ∈ d.
Proof.
  induction d as [|[k' v'] d IH]; simpl; [done|].
  case_decide; intros; simplify_eq; [by left|right; auto].
Qed.

Lemma dict_get_None k d : dict_get k d = None <-> k ∉ dict_keys d.
Proof.
  induction d as [|[k' v'] d IH]; simpl; [set_solver|].
  rewrite not_elem_of_cons, <- IH. case_decide; naive_solver.
Qed.

Lemma dict_set_new k v d : dict_get k d = None -> dict_set k v d = d ++ [(k, v)].
Proof.
  induction d as [|[k' v'] d IH]; simpl; [done|].
  case_decide; intros; [done|]. by rewrite IH.
Qed.

Lemma dict_keys_set k v d :
  dict_keys (dict_set k v d) =
  match dict_get k d with Some _ => dict_keys d | None => dict_keys d ++ [k] end.
Proof.
  induction d as [|[k' v'] d IH]; simpl; [done|].
  case_decide; simpl; [done|]. rewrite IH. by destruct (dict_get k d).
Qed.

Lemma dict_set_NoDup k v d : NoDup (dict_keys d) -> NoDup (dict_keys (dict_set k v d)).
Proof.
  intros Hnd. rewrite dict_keys_set. destruct (dict_get k d) eqn:E; [done|].
  apply NoDup_app. split; [done|]. split; [|apply NoDup_singleton].
  intros x Hx ->%list_elem_of_singleton. by apply dict_get_None in E.
Qed.
End PyDict.

Create HintDb karma.
Create Rewrite HintDb karma.
#[export] Hint Rewrite @dict_get_set_eq : karma.
#[export] Hint Resolve dict_set_NoDup dict_get_In : karma.

(** ** Finite enumerations are checked by evaluation *)

Lemma finite_forallb {A} `{Finite A} (P : A -> bool) :
  forallb P (enum A) = true -> forall x, P x = true.
Proof.
  intros HP x. rewrite forallb_forall in HP. apply HP, list_elem_of_In, elem_of_enum.
Qed.

Lemma forallb_false {A} (P : A -> bool) l :
  forallb P l = false -> exists x, x ∈ l /\ P x = false.
Proof.
  induction l as [|x l IH]; simpl; [done|]. destruct (P x) eqn:Hx; simpl.
  - intros (y & Hy & Hp)%IH. exists y. split; [by right|done].
  - intros _. exists x. split; [by left|done].
Qed.

Lemma filter_none {A} (P : A -> Prop) `{forall x, Decision (P x)} (l : list A) :
  (forall x, x ∈ l -> ~ P x) -> filter P l = [].
Proof.
  induction l as [|x l IH]; intros Hl; [done|].
  rewrite filter_cons_False by (apply Hl; by left). apply IH. intros y Hy. apply Hl. by right.
Qed.

Lemma filter_all {A} (P : A -> Prop) `{forall x, Decision (P x)} (l : list A) :
  (forall x, x ∈ l -> P x) -> filter P l = l.
Proof.
  induction l as [|x l IH]; intros Hl; [done|].
  rewrite filter_cons_True by (apply Hl; by left). f_equal. apply IH. intros y Hy. apply Hl. by right.
Qed.

(** ** Small list functions of the Python library *)

(** [path.index(x)]: the first position, or [ValueError]. *)
Fixpoint list_index {A} `{EqDecision A} (x : A) (l : list A) : option nat :=
  match l with
  | [] => None
  | y :: l' => if decide (x = y) then Some 0%nat else S <$> list_index x l'
  end.

Lemma list_index_lookup {A} `{EqDecision A} (x : A) l i :
  list_index x l = Some i -> l !! i = Some x.
Proof.
  revert i. induction l as [|y l IH]; intros i; simpl; [done|].
  case_decide; [intros; by simplify_eq|].
  intros (j & Hj & ->)%fmap_Some. by apply IH.
Qed.

(** Membership test on a list used as a (frozen) set. *)
Definition mem {A} `{EqDecision A} (x : A) (l : list A) : bool := bool_decide (x ∈ l).

Lemma mem_true {A} `{EqDecision A} (x : A) l : mem x l = true <-> x ∈ l.
Proof. apply bool_decide_eq_true. Qed.
Lemma mem_false {A} `{EqDecision A} (x : A) l : mem x l = false <-> x ∉ l.
Proof. apply bool_decide_eq_false. Qed.

(** [a or b] on optional strings: [None] and the empty string are false. *)
Definition str_or (a : option string) (b : option string) : option string :=
  match a with
  | Some a => if decide (a = "")%string then b else Some a
  | None => b
  end.

(** [str.strip().lower()] on ASCII text. *)
Definition is_space (c : Ascii.ascii) : bool :=
  let n := Ascii.nat_of_ascii c in
  ((9 <=? n) && (n <=? 13) || (28 <=? n) && (n <=? 32))%nat.
Definition lower_ascii (c : Ascii.ascii) : Ascii.ascii :=
  let n := Ascii.nat_of_ascii c in
  if ((65 <=? n) && (n <=? 90))%nat then Ascii.ascii_of_nat (n + 32) else c.
Fixpoint py_lower (s : string) : string :=
  match s with
  | EmptyString => EmptyString
  | String c s => String (lower_ascii c) (py_lower s)
  end.
Fixpoint lstrip (s : string) : string :=
  match s with
  | EmptyString => EmptyString
  | String c s' => if is_space c then lstrip s' else s
  end.
Fixpoint rstrip (s : string) : string :=
  match s with
  | EmptyString => EmptyString
  | String c s' =>
      match rstrip s' with
      | EmptyString => if is_space c then EmptyString else String c EmptyString
      | t => String c t
      end
  end.
Definition py_strip (s : string) : string := rstrip (lstrip s).

Definition py_upper_ascii (c : Ascii.ascii) : Ascii.ascii :=
  let n := Ascii.nat_of_ascii c in
  if ((97 <=? n) && (n <=? 122))%nat then Ascii.ascii_of_nat (n - 32) else c.

(** [s.startswith(p)], [s.removeprefix(p)] and the characters of a string. *)
Definition starts_with (p s : string) : bool := String.prefix p s.
Definition drop_chars (n : nat) (s : string) : string := String.substring n (String.length s - n) s.
Definition take_chars (n : nat) (s : string) : string := String.substring 0 n s.
Definition has_char (c : Ascii.ascii) (s : string) : bool :=
  bool_decide (c ∈ String.list_ascii_of_string s).

(** [sep.join(l)]. *)
Fixpoint py_join (sep : string) (l : list string) : string :=
  match l with
  | [] => ""
  | [x] => x
  | x :: l' => x +:+ sep +:+ py_join sep l'
  end%string.

(** [a or b] on strings: the empty string is false. *)
Definition or_str (a b : string) : string := if decide (a = "")%string then b else a.

Lemma string_app_cancel_l (p a b : string) : (p +:+ a = p +:+ b)%string -> a = b.
Proof. induction p as [|c p IH]; simpl; [done|]. intros [= H]. by apply IH. Qed.

Lemma has_char_app c a b : has_char c (a +:+ b)%string = has_char c a || has_char c b.
Proof.
  apply eq_true_iff_eq. unfold has_char. rewrite orb_true_iff, !bool_decide_eq_true.
  assert (String.list_ascii_of_string (a +:+ b)%string = String.list_ascii_of_string a ++ String.list_ascii_of_string b) as ->.
  { induction a as [|x a IH]; simpl; [done|]. by rewrite IH. }
  apply elem_of_app.
Qed.

(** Two texts cut at their first separator agree in both parts. *)
Lemma cut_inj c (a b x y : string) :
  has_char c a = false -> has_char c b = false ->
  (a +:+ String c x = b +:+ String c y)%string -> a = b /\ x = y.
Proof.
  unfold has_char. rewrite !bool_decide_eq_false.
  revert b. induction a as [|u a IH]; intros [|v b] Ha Hb; simpl in *.
  - intros [= ->]. done.
  - intros [= <- _]. set_solver.
  - intros [= -> _]. set_solver.
  - intros [= -> H]. destruct (IH b) as [-> ->]; [set_solver..|done|done].
Qed.

(** Joining separator-free texts loses nothing but the difference between no text and
    one empty text. *)
Lemma py_join_inj c l l' :
  Forall (fun s => has_char c s = false) l -> Forall (fun s => has_char c s = false) l' ->
  (l = [] <-> l' = []) ->
  py_join (String c "") l = py_join (String c "") l' -> l = l'.
Proof.
  intros Hl. revert l'. induction Hl as [|x l Hx Hl IH]; intros l' Hl' Hnil.
  - by rewrite (proj1 Hnil eq_refl).
  - destruct Hl' as [|y l' Hy Hl']; [naive_solver|].
    destruct Hl as [|x2 l Hx2 Hl], Hl' as [|y2 l' Hy2 Hl']; cbn [py_join].
    + congruence.
    + intros ->. exfalso. rewrite has_char_app in Hx. apply orb_false_iff in Hx as [_ Hx].
      cbn in Hx. unfold has_char in Hx. rewrite bool_decide_eq_false in Hx. apply Hx. simpl. left.
    + intros <-. exfalso. rewrite has_char_app in Hy. apply orb_false_iff in Hy as [_ Hy].
      unfold has_char in Hy. rewrite bool_decide_eq_false in Hy. apply Hy. simpl. left.
    + intros H. cbn [String.append] in H. apply cut_inj in H as [-> H]; [|done..].
      f_equal. apply IH; [by constructor|done|exact H].
Qed.

(** ** Rows of tables *)

Lemma head_filter_elem {A : Type} (P : A -> Prop) `{forall x, Decision (P x)} (l : list A) x :
  head (filter P l) = Some x -> x ∈ l /\ P x.
Proof.
  destruct (filter P l) as [|y l'] eqn:E; [done|]. intros [= <-].
  assert (y ∈ filter P l) as Hy by (rewrite E; left). apply list_elem_of_filter in Hy. tauto.
Qed.

Lemma head_filter_fmap {A : Type} (P : A -> Prop) `{forall x, Decision (P x)} (f : A -> A) (l : list A) :
  (forall x, x ∈ l -> P (f x) <-> P x) -> head (filter P (f <$> l)) = f <$> head (filter P l).
Proof.
  induction l as [|x l IH]; intros Hf; [done|]. cbn [fmap list_fmap].
  pose proof (Hf x ltac:(left)) as Hx. rewrite !filter_cons.
  destruct (decide (P (f x))), (decide (P x)); [done|tauto|tauto|].
  apply IH. intros y Hy. apply Hf. by right.
Qed.

Lemma NoDup_fmap_inj {A B : Type} (g : A -> B) (l : list A) x y :
  NoDup (g <$> l) -> x ∈ l -> y ∈ l -> g x = g y -> x = y.
Proof.
  induction l as [|z l IH]; [set_solver|]. intros [Hz Hn]%NoDup_cons Hx Hy E.
  apply elem_of_cons in Hx as [->|Hx], Hy as [->|Hy]; [done| | |by apply IH];
    exfalso; apply Hz; apply list_elem_of_fmap; eauto.
Qed.

Lemma filter_fmap_same {A : Type} (P : A -> Prop) `{forall x, Decision (P x)} (f : A -> A) (l : list A) :
  (forall x, x ∈ l -> P (f x) <-> P x) -> filter P (f <$> l) = f <$> filter P l.
Proof.
  induction l as [|x l IH]; intros Hf; [done|]. cbn [fmap list_fmap].
  pose proof (Hf x ltac:(left)) as Hx. rewrite !filter_cons.
  destruct (decide (P (f x))), (decide (P x)); [|tauto|tauto|]; [cbn [fmap list_fmap]; f_equal|];
    apply IH; intros y Hy; apply Hf; by right.
Qed.

(** ** Tactics *)

(** Split the conditionals and matches of the goal and hypotheses. *)
Ltac split_matches := repeat (case_match; simplify_eq/=; try done).

(** Reduce a monadic run to its cases. *)
Ltac run_monad :=
  unfold m_bind, m_ret, m_raise, m_get, m_put, outcome, exec, rbind in *; simplify_eq/=.

(** Take a successful run apart: one equation for each check it passed. *)
Ltac run_ok H :=
  repeat match type of H with
  | m_bind (lift _) _ _ = (Ok _, _) =>
      let E := fresh "E" in apply m_bind_ok in H as (? & ? & E & H); apply lift_ok in E as [E ->]
  | m_bind (m_get _) _ _ = (Ok _, _) =>
      apply m_bind_ok in H as (? & ? & [= <- <-] & H)
  end.
