(* ===== verification/PyText.v ===== *)
(** * Texts and sets of texts

    [str.split] on a character, [strip().lower()], and a set of texts written as a sorted,
    separator-joined line, as the ledgers keep the transactions they have seen. *)
From S2P Require Import Prelude.

(** [text.split(c)]. *)
Fixpoint split_on (c : Ascii.ascii) (s : string) : list string :=
  match s with
  | EmptyString => [""%string]
  | String a s' =>
      if decide (a = c) then ""%string :: split_on c s'
      else match split_on c s' with
           | w :: ws => String a w :: ws
           | [] => [String a ""]
           end
  end.

Definition NL : Ascii.ascii := Ascii.ascii_of_nat 10.
Definition newline : string := String NL "".

(** A set of texts, kept as the sorted list it is written as. *)
Fixpoint insert_text (x : string) (l : list string) : list string :=
  match l with
  | [] => [x]
  | y :: l' => match String.compare x y with
               | Lt => x :: l
               | Eq => l
               | Gt => y :: insert_text x l'
               end
  end.

Definition lower_strip (s : string) : string := py_lower (py_strip s).

(** The set a text of lines holds: stripped, lower case, blanks dropped. *)
Definition text_set (s : string) : list string :=
  foldr insert_text [] (lower_strip <$> filter (fun p => py_strip p <> ""%string) (split_on NL s)).

(** ** Stripping *)

Lemma rstrip_idem s : rstrip (rstrip s) = rstrip s.
Proof.
  induction s as [|c s IH]; [done|]. cbn [rstrip]. destruct (rstrip s) as [|d t] eqn:E.
  - destruct (is_space c) eqn:Hc; [done|]. cbn. by rewrite Hc.
  - cbn [rstrip] in *. by rewrite IH.
Qed.

Lemma lstrip_rstrip s : lstrip s = s -> lstrip (rstrip s) = rstrip s.
Proof.
  destruct s as [|c s]; [done|]. cbn [lstrip]. intros H.
  assert (is_space c = false) as Hc.
  { destruct (is_space c); [|done]. exfalso. assert (Hl : forall t, (String.length (lstrip t) <= String.length t)%nat).
    { induction t as [|d t IH]; [done|]. cbn. destruct (is_space d); cbn; lia. }
    specialize (Hl s). rewrite H in Hl. cbn in Hl. lia. }
  cbn [rstrip]. rewrite Hc. destruct (rstrip s); cbn; by rewrite Hc.
Qed.

Lemma lstrip_idem s : lstrip (lstrip s) = lstrip s.
Proof.
  induction s as [|c s IH]; [done|]. cbn [lstrip]. destruct (is_space c) eqn:Hc; [done|].
  cbn [lstrip]. by rewrite Hc.
Qed.

Lemma py_strip_idem s : py_strip (py_strip s) = py_strip s.
Proof. unfold py_strip. by rewrite (lstrip_rstrip (lstrip s)), rstrip_idem by apply lstrip_idem. Qed.

(** Facts about all 256 characters. *)
Definition all_ascii : list Ascii.ascii := Ascii.ascii_of_nat <$> seq 0 256.

Lemma all_ascii_elem c : c ∈ all_ascii.
Proof.
  apply list_elem_of_fmap. exists (Ascii.nat_of_ascii c). rewrite Ascii.ascii_nat_embedding. split; [done|].
  apply elem_of_seq. pose proof (Ascii.nat_ascii_bounded c). lia.
Qed.

Lemma ascii_forall (P : Ascii.ascii -> bool) : forallb P all_ascii = true -> forall c, P c = true.
Proof. rewrite forallb_forall. intros H c. apply H. apply list_elem_of_In, all_ascii_elem. Qed.

Lemma lower_space c : is_space (lower_ascii c) = is_space c.
Proof.
  apply eqb_prop. revert c. apply ascii_forall. by vm_compute.
Qed.

Lemma lower_lower c : lower_ascii (lower_ascii c) = lower_ascii c.
Proof.
  apply Ascii.eqb_eq. revert c. apply ascii_forall. by vm_compute.
Qed.

Lemma lower_NL c : lower_ascii c = NL -> c = NL.
Proof.
  intros H. assert (implb (Ascii.eqb (lower_ascii c) NL) (Ascii.eqb c NL) = true) as Hi.
  { revert c H. intros c _. revert c. apply ascii_forall. by vm_compute. }
  rewrite (proj2 (Ascii.eqb_eq _ _) H) in Hi. by apply Ascii.eqb_eq.
Qed.

Lemma py_lower_idem s : py_lower (py_lower s) = py_lower s.
Proof. induction s as [|c s IH]; [done|]. cbn [py_lower]. by rewrite lower_lower, IH. Qed.

Lemma lstrip_lower s : lstrip (py_lower s) = py_lower (lstrip s).
Proof. induction s as [|c s IH]; [done|]. cbn [py_lower lstrip]. rewrite lower_space. by destruct (is_space c). Qed.

Lemma rstrip_lower s : rstrip (py_lower s) = py_lower (rstrip s).
Proof.
  induction s as [|c s IH]; [done|]. cbn [py_lower rstrip]. rewrite IH, lower_space.
  destruct (rstrip s); cbn; [by destruct (is_space c)|done].
Qed.

Lemma py_strip_lower s : py_strip (py_lower s) = py_lower (py_strip s).
Proof. unfold py_strip. by rewrite lstrip_lower, rstrip_lower. Qed.

Lemma lower_strip_idem s : lower_strip (lower_strip s) = lower_strip s.
Proof. unfold lower_strip. by rewrite py_strip_lower, py_lower_idem, py_strip_idem. Qed.

(** Characters that stripping and lower-casing cannot bring in. *)
Lemma has_char_cons c a s : has_char c (String a s) = bool_decide (c = a) || has_char c s.
Proof.
  unfold has_char. apply eq_true_iff_eq. rewrite orb_true_iff, !bool_decide_eq_true. cbn.
  by rewrite elem_of_cons.
Qed.

Lemma lstrip_char c s : has_char c s = false -> has_char c (lstrip s) = false.
Proof.
  induction s as [|a s IH]; [done|]. cbn [lstrip]. intros H. destruct (is_space a); [|done].
  rewrite has_char_cons in H. apply orb_false_iff in H as [_ H]. auto.
Qed.

Lemma rstrip_char c s : has_char c s = false -> has_char c (rstrip s) = false.
Proof.
  induction s as [|a s IH]; [done|]. rewrite has_char_cons. intros [Ha Hs]%orb_false_iff.
  cbn [rstrip]. specialize (IH Hs). destruct (rstrip s) eqn:E.
  - destruct (is_space a); [done|]. by rewrite has_char_cons, Ha.
  - rewrite has_char_cons, Ha. exact IH.
Qed.

Lemma lower_no_NL s : has_char NL s = false -> has_char NL (py_lower s) = false.
Proof.
  induction s as [|a s IH]; [done|]. cbn [py_lower]. rewrite !has_char_cons.
  intros [Ha Hs]%orb_false_iff. rewrite (IH Hs), orb_false_r. apply bool_decide_eq_false in Ha.
  apply bool_decide_eq_false. intros H. apply Ha. symmetry. by apply lower_NL.
Qed.

Lemma lower_strip_no_NL s : has_char NL s = false -> has_char NL (lower_strip s) = false.
Proof. intros H. apply lower_no_NL, rstrip_char, lstrip_char, H. Qed.

(** ** Splitting and joining *)

Lemma split_on_pieces c s : Forall (fun p => has_char c p = false) (split_on c s).
Proof.
  induction s as [|a s IH]; cbn [split_on]; [by repeat constructor|].
  destruct (decide (a = c)) as [->|Hne]; [by constructor|].
  destruct IH as [|w ws Hw Hws]; constructor; rewrite ?has_char_cons; try done.
  - by rewrite bool_decide_eq_false_2 by congruence.
  - by rewrite bool_decide_eq_false_2, Hw by congruence.
Qed.

Lemma split_on_single c s : has_char c s = false -> split_on c s = [s].
Proof.
  induction s as [|a s IH]; [done|]. rewrite has_char_cons. intros [Ha Hs]%orb_false_iff.
  apply bool_decide_eq_false in Ha. cbn [split_on]. by rewrite decide_False, (IH Hs) by congruence.
Qed.

Lemma split_on_app c a b : has_char c a = false -> split_on c (a +:+ String c b)%string = a :: split_on c b.
Proof.
  induction a as [|x a IH]; simpl; [intros _; by rewrite decide_True|].
  rewrite has_char_cons. intros [Ha Hs]%orb_false_iff. apply bool_decide_eq_false in Ha.
  by rewrite decide_False, (IH Hs) by congruence.
Qed.

Lemma split_join c l : l <> [] -> Forall (fun p => has_char c p = false) l ->
  split_on c (py_join (String c "") l) = l.
Proof.
  intros Hne Hl. induction Hl as [|x l Hx Hl IH]; [done|]. destruct l as [|y l].
  - by apply split_on_single.
  - change (py_join (String c "") (x :: y :: l)) with (x +:+ String c (py_join (String c "") (y :: l)))%string.
    by rewrite split_on_app, IH.
Qed.

(** ** Sets *)

Lemma insert_text_elem x y l : x ∈ insert_text y l <-> x = y \/ x ∈ l.
Proof.
  induction l as [|z l IH]; cbn [insert_text]; [set_solver|].
  destruct (String.compare y z) eqn:E; [|set_solver|set_solver].
  apply String.compare_eq_iff in E as ->. set_solver.
Qed.

Lemma text_set_elem x s : x ∈ text_set s <->
  exists p, p ∈ split_on NL s /\ py_strip p <> ""%string /\ x = lower_strip p.
Proof.
  unfold text_set. transitivity (x ∈ lower_strip <$> filter (fun p => py_strip p <> ""%string) (split_on NL s)).
  - generalize (lower_strip <$> filter (fun p => py_strip p <> ""%string) (split_on NL s)). intros l.
    induction l as [|y l IH]; cbn [foldr]; [done|]. rewrite insert_text_elem, IH. set_solver.
  - rewrite list_elem_of_fmap. setoid_rewrite list_elem_of_filter. naive_solver.
Qed.

(** What is written back is the set with the new text in it. *)
Lemma text_set_insert x s y : has_char NL x = false -> py_strip x <> ""%string ->
  y ∈ text_set (py_join newline (insert_text (lower_strip x) (text_set s))) <->
  y = lower_strip x \/ y ∈ text_set s.
Proof.
  intros Hnl Hx. set (l := insert_text (lower_strip x) (text_set s)).
  assert (Hl : forall p, p ∈ l -> has_char NL p = false /\ lower_strip p = p /\ py_strip p <> ""%string).
  { intros p [->|Hp]%insert_text_elem.
    - split_and!; [by apply lower_strip_no_NL|apply lower_strip_idem|].
      unfold lower_strip. rewrite py_strip_lower, py_strip_idem. by destruct (py_strip x).
    - apply text_set_elem in Hp as (q & Hq & Hne & ->). split_and!; [|apply lower_strip_idem|].
      + apply lower_strip_no_NL. by apply (proj1 (Forall_forall _ _) (split_on_pieces NL s)).
      + unfold lower_strip. rewrite py_strip_lower, py_strip_idem. by destruct (py_strip q). }
  rewrite text_set_elem. unfold newline. rewrite split_join; cycle 1.
  - intros E. assert (lower_strip x ∈ l) as Hin by (apply insert_text_elem; auto). rewrite E in Hin. set_solver.
  - apply Forall_forall. intros p Hp. by apply Hl.
  - rewrite <- insert_text_elem. fold l. split.
    + intros (p & Hp & _ & ->). destruct (Hl p Hp) as (_ & -> & _). done.
    + intros Hy. destruct (Hl y Hy) as (_ & E & Hne). exists y. by rewrite E.
Qed.

(** ** [services/path_param_safety.py] *)

Definition is_segment_char (c : Ascii.ascii) : bool :=
  let n := Ascii.nat_of_ascii c in
  ((65 <=? n) && (n <=? 90) || (97 <=? n) && (n <=? 122) || (48 <=? n) && (n <=? 57)
   || (n =? 95) || (n =? 46) || (n =? 45))%nat.
(** [^[A-Za-z0-9_.-]{1,256}$]: the end of the pattern also matches before a final newline. *)
Definition safe_segment (s : string) : bool :=
  let chars := String.list_ascii_of_string s in
  let body := if decide (last chars = Some NL) then take (length chars - 1) chars else chars in
  ((1 <=? length body) && (length body <=? 256))%nat && forallb is_segment_char body.
Definition validate_public_url_segment (s : string) : result Exc unit :=
  if safe_segment s then Ok tt else Err (HTTPException 400 "invalid path segment").
