(* ===== verification/FloatFacts.v ===== *)
(** * Rounding facts for binary64

    The theory behind [PyFloat]: the shift-and-round loop of the executable
    specification computes round-half-to-even ([rep_iter], [round_rep]); every finite
    float is an integer multiple [sval] of [2^-1074], comparison is the order of
    those integers ([SFcompare_sval]) and addition is the rounded integer sum
    ([fadd_spec]); rounding is monotone ([rnd_mono]) and the identity on
    representable values ([sval_exact]). *)
From S2P Require Import Prelude PyFloat.
Open Scope Z_scope.

(** ** The shift-and-round loop *)

(** The location of [r / d] between two integers. *)
Definition locof (r d : Z) : location :=
  if r =? 0 then loc_Exact else loc_Inexact (2 * r ?= d).

(** [rec] stands for the fraction [n / d]: its integer part and location. *)
Definition rep (rec : shr_record) (n d : Z) : Prop :=
  shr_m rec = n / d /\ loc_of_shr_record rec = locof (n mod d) d.

Lemma div2_cases n d : 0 < d ->
  n / (2 * d) = (n / d) / 2 /\ n mod (2 * d) = d * ((n / d) mod 2) + n mod d.
Proof.
  intros Hd. split.
  - rewrite (Z.mul_comm 2), <- Z.div_div; lia.
  - rewrite (Z.mul_comm 2), Z.rem_mul_r; lia.
Qed.

Lemma shr_1_nonneg m r s : 0 <= m ->
  shr_1 {| shr_m := m; shr_r := r; shr_s := s |}
  = {| shr_m := m / 2; shr_r := Z.odd m; shr_s := r || s |}.
Proof.
  intros Hm. rewrite <- Z.div2_div. destruct m as [|[p|p|]|]; simpl; done.
Qed.

Lemma locof_lt r d : 0 < r -> 2 * r < d -> locof r d = loc_Inexact Lt.
Proof.
  intros. unfold locof. destruct (Z.eqb_spec r 0); [lia|].
  f_equal. by apply Z.compare_lt_iff.
Qed.
Lemma locof_gt r d : 0 < r -> d < 2 * r -> locof r d = loc_Inexact Gt.
Proof.
  intros. unfold locof. destruct (Z.eqb_spec r 0); [lia|].
  f_equal. by apply Z.compare_gt_iff.
Qed.
Lemma locof_half r : 0 < r -> locof r (2 * r) = loc_Inexact Eq.
Proof.
  intros. unfold locof. destruct (Z.eqb_spec r 0); [lia|].
  f_equal. apply Z.compare_refl.
Qed.

(** Shifting the record right once halves the fraction it stands for. *)
Lemma rep_shr_1 rec n d : 0 <= n -> 0 < d -> rep rec n d -> rep (shr_1 rec) n (2 * d).
Proof.
  intros Hn Hd [Hm Hl]. destruct (div2_cases n d Hd) as [Hq Hr].
  pose proof (Z.mod_pos_bound n d Hd) as Hb. pose proof (Z.div_pos n d Hn Hd) as Hp.
  unfold rep. rewrite Hq, Hr, <- Hm. rewrite <- Hm in Hp.
  destruct rec as [m r s]; cbn [shr_m] in Hm, Hp |- *.
  rewrite shr_1_nonneg by done. cbn [shr_m].
  split; [done|]. rewrite Zmod_odd. simpl.
  destruct (Z.eqb_spec (n mod d) 0) as [E|E].
  - rewrite E in *. unfold locof in Hl; simpl in Hl.
    assert (r || s = false) as -> by (by destruct r, s). rewrite Z.add_0_r.
    destruct (Z.odd m); [|by rewrite Z.mul_0_r]. rewrite Z.mul_1_r.
    by rewrite locof_half.
  - assert (r || s = true) as ->.
    { unfold locof in Hl. destruct (Z.eqb_spec (n mod d) 0); [done|]. by destruct r, s. }
    destruct (Z.odd m); symmetry; [apply locof_gt|apply locof_lt]; lia.
Qed.

Lemma rep_iter p : forall rec n d,
  0 <= n -> 0 < d -> rep rec n d -> rep (iter_pos shr_1 p rec) n (2 ^ Zpos p * d).
Proof.
  induction p as [p IH|p IH|]; intros rec n d Hn Hd Hr; simpl iter_pos.
  - assert (0 < 2 ^ Zpos p) by (apply Z.pow_pos_nonneg; lia).
    assert (0 < 2 ^ Zpos p * (2 * d)) by nia.
    replace (2 ^ Zpos p~1 * d) with (2 ^ Zpos p * (2 ^ Zpos p * (2 * d))).
    + auto using rep_shr_1 with lia.
    + replace (Zpos p~1) with (1 + Zpos p + Zpos p) by lia.
      rewrite !Z.pow_add_r by lia. ring.
  - assert (0 < 2 ^ Zpos p) by (apply Z.pow_pos_nonneg; lia).
    assert (0 < 2 ^ Zpos p * d) by nia.
    replace (2 ^ Zpos p~0 * d) with (2 ^ Zpos p * (2 ^ Zpos p * d)); [auto|].
    replace (Zpos p~0) with (Zpos p + Zpos p) by lia.
    rewrite Z.pow_add_r by lia. ring.
  - apply rep_shr_1; auto.
Qed.

Lemma round_rep rec n d : rep rec n d -> 0 < d ->
  round_nearest_even (shr_m rec) (loc_of_shr_record rec) = rne n d.
Proof.
  intros [-> ->] Hd. unfold locof, rne, round_nearest_even.
  destruct (Z.eqb_spec (n mod d) 0) as [->|]; [|done].
  assert ((2 * 0 ?= d) = Lt) as -> by (apply Z.compare_lt_iff; lia). done.
Qed.

Lemma rep_exact m : rep (shr_record_of_loc m loc_Exact) m 1.
Proof. unfold rep. simpl. by rewrite Z.div_1_r, Z.mod_1_r. Qed.

(** ** Round half to even *)

Lemma rne_bounds n d : 0 <= n -> 0 < d -> n / d <= rne n d <= n / d + 1.
Proof. intros. unfold rne. destruct (2 * (n mod d) ?= d); [destruct (Z.even (n / d))|..]; lia. Qed.

Lemma rne_error n d : 0 <= n -> 0 < d -> Z.abs (2 * (rne n d * d - n)) <= d.
Proof.
  intros Hn Hd. pose proof (Z.div_mod n d ltac:(lia)) as E. pose proof (Z.mod_pos_bound n d Hd).
  assert (E0 : n / d * d - n = - (n mod d)) by lia.
  assert (E1 : (n / d + 1) * d - n = d - n mod d) by lia.
  unfold rne. destruct (2 * (n mod d) ?= d) eqn:C;
    rewrite ?Z.compare_eq_iff, ?Z.compare_lt_iff, ?Z.compare_gt_iff in C;
    [destruct (Z.even (n / d))|..]; rewrite ?E0, ?E1; lia.
Qed.

Lemma rne_exact q d : 0 < d -> rne (q * d) d = q.
Proof.
  intros. unfold rne. rewrite Z.div_mul, Z.mod_mul by lia.
  assert ((2 * 0 ?= d) = Lt) as -> by (apply Z.compare_lt_iff; lia). done.
Qed.

Lemma rne_scale n d c : 0 < d -> 0 < c -> rne (n * c) (d * c) = rne n d.
Proof.
  intros. unfold rne. rewrite Z.div_mul_cancel_r, Z.mul_mod_distr_r by lia.
  replace (2 * (n mod d * c)) with ((2 * (n mod d)) * c) by ring.
  by rewrite <- Zmult_compare_compat_r by lia.
Qed.

Lemma rne_mono n n' d : 0 <= n <= n' -> 0 < d -> rne n d <= rne n' d.
Proof.
  intros [Hn Hle] Hd. destruct (Z.eq_dec (n / d) (n' / d)) as [E|E].
  - pose proof (Z.div_mod n d ltac:(lia)). pose proof (Z.div_mod n' d ltac:(lia)).
    assert (n mod d <= n' mod d) by nia.
    unfold rne. rewrite <- E.
    destruct (2 * (n mod d) ?= d) eqn:C; destruct (2 * (n' mod d) ?= d) eqn:C';
      rewrite ?Z.compare_eq_iff, ?Z.compare_lt_iff, ?Z.compare_gt_iff in *;
      destruct (Z.even (n / d)); lia.
  - pose proof (Z.div_le_mono n n' d Hd Hle).
    pose proof (rne_bounds n d). pose proof (rne_bounds n' d). lia.
Qed.

(** *** Digits and alignment *)

Lemma digits2_log2 p : Zpos (digits2_pos p) = Z.log2 (Zpos p) + 1.
Proof.
  induction p as [p IH|p IH|]; simpl digits2_pos; [| |done].
  - rewrite Pos2Z.inj_succ, IH, Pos2Z.inj_xI, Z.log2_succ_double by lia. lia.
  - rewrite Pos2Z.inj_succ, IH, Pos2Z.inj_xO, Z.log2_double by lia. lia.
Qed.

Lemma Zdigits2_pos x : 0 < x -> Zdigits2 x = Z.log2 x + 1.
Proof. intros. destruct x; try lia. apply digits2_log2. Qed.

Lemma pow2_pos k : 0 <= k -> 0 < 2 ^ k.
Proof. intros. by apply Z.pow_pos_nonneg. Qed.

Lemma iter_xO d m : Zpos (Pos.iter xO m d) = Zpos m * 2 ^ Zpos d.
Proof.
  induction d as [|d IH] using Pos.peano_ind; [simpl; lia|].
  rewrite Pos.iter_succ, Pos2Z.inj_xO, IH, Pos2Z.inj_succ, Z.pow_succ_r by lia. ring.
Qed.

Lemma shl_align_spec m e e' mz ez : shl_align m e e' = (mz, ez) ->
  ez = Z.min e e' /\ Zpos mz = Zpos m * 2 ^ (e - ez).
Proof.
  unfold shl_align. destruct (e' - e) as [|d|d] eqn:E; intros; simplify_eq.
  - replace (ez - ez) with 0 by lia. lia.
  - replace (ez - ez) with 0 by lia. lia.
  - rewrite iter_xO. replace (e - ez) with (Zpos d) by lia. lia.
Qed.

(** *** Values and the rounding function

    Every finite binary64 value is a multiple of [2^-1074]; [sval] is that
    multiple, so sums of values are sums of integers. *)
Definition sval (x : float) : Z :=
  match x with
  | S754_finite s m e => cond_Zopp s (Zpos m * 2 ^ (e + 1074))
  | _ => 0
  end.

Definition rexp (x : Z) : Z := Z.max 0 (Zdigits2 x - 53).
Definition rnd_pos (x : Z) : Z := rne x (2 ^ rexp x) * 2 ^ rexp x.
Definition rnd (x : Z) : Z := if x <? 0 then - rnd_pos (- x) else rnd_pos x.

(** The result of an operation whose exact value rounds to [v]: the float of that
    value, or the infinity when it is out of range. *)
Definition rounds_to (r : float) (s : bool) (v : Z) : Prop :=
  if v <? 2 ^ 2098
  then is_finite r = true /\ valid r = true /\ sval r = cond_Zopp s v
  else r = S754_infinity s.

Lemma pow_step a b : 0 <= a <= b -> 2 ^ b = 2 ^ (b - a) * 2 ^ a.
Proof. intros. rewrite <- Z.pow_add_r by lia. f_equal. lia. Qed.

Lemma fexp_max d e : fexp 53 1024 (d + e) = Z.max (d + e - 53) (-1074).
Proof. done. Qed.

Lemma rounds_to_mk s q e : 0 < q < 2 ^ 53 -> -1074 <= e -> (e = -1074 \/ 2 ^ 52 <= q) ->
  rounds_to (if e <=? 1024 - 53 then S754_finite s (Z.to_pos q) e else S754_infinity s)
    s (q * 2 ^ (e + 1074)).
Proof.
  intros Hq He Hc. unfold rounds_to.
  assert (H0 : 0 < 2 ^ (e + 1074)) by (apply pow2_pos; lia).
  destruct (Z.leb_spec e (1024 - 53)) as [Hle|Hgt].
  - assert (2 ^ (e + 1074) <= 2 ^ 2045) by (apply Z.pow_le_mono_r; lia).
    assert (2 ^ 2098 = 2 ^ 53 * 2 ^ 2045) by (rewrite <- Z.pow_add_r; [done|lia..]).
    destruct (Z.ltb_spec (q * 2 ^ (e + 1074)) (2 ^ 2098)); [|nia].
    split; [done|]. split; [|by simpl; rewrite Z2Pos.id by lia].
    simpl. unfold bounded, canonical_mantissa. rewrite fexp_max, digits2_log2, Z2Pos.id by lia.
    assert (Hl : Z.log2 q < 53) by (apply Z.log2_lt_pow2; lia).
    assert (Hl' : e = -1074 \/ 52 <= Z.log2 q).
    { destruct Hc; [by left|right]. by apply Z.log2_le_pow2; lia. }
    apply andb_true_intro. split; [apply Z.eqb_eq|apply Z.leb_le]; lia.
  - assert (2 ^ 2046 <= 2 ^ (e + 1074)) by (apply Z.pow_le_mono_r; lia).
    assert (2 ^ 2098 = 2 ^ 52 * 2 ^ 2046) by (rewrite <- Z.pow_add_r; [done|lia..]).
    destruct (Z.ltb_spec (q * 2 ^ (e + 1074)) (2 ^ 2098)); [nia|done].
Qed.

Definition finish (s : bool) (q e : Z) : float :=
  let '(mrs, e') := shr_fexp 53 1024 q e loc_Exact in
  match shr_m mrs with
  | Z0 => S754_zero s
  | Zpos m => if e' <=? 1024 - 53 then S754_finite s m e' else S754_infinity s
  | _ => S754_nan
  end.

Lemma finish_spec s q e : 0 <= q <= 2 ^ 53 -> -1074 <= e -> (e = -1074 \/ 2 ^ 52 <= q) ->
  rounds_to (finish s q e) s (q * 2 ^ (e + 1074)).
Proof.
  intros Hq He Hc. unfold finish, shr_fexp. rewrite fexp_max.
  destruct (Z.eq_dec q 0) as [->|Hq0].
  { replace (Z.max _ _ - e) with 0 by (destruct Hc; simpl; lia). simpl.
    unfold rounds_to. rewrite Z.mul_0_l. by destruct s. }
  destruct (Z.eq_dec q (2 ^ 53)) as [->|Hq53].
  - assert (Zdigits2 (2 ^ 53) = 54) as -> by done.
    replace (Z.max (54 + e - 53) (-1074) - e) with 1 by lia. cbn [shr iter_pos].
    change (shr_1 _) with {| shr_m := 2 ^ 52; shr_r := false; shr_s := false |}.
    cbn [shr_m]. change (2 ^ 52) with (Zpos (Z.to_pos (2 ^ 52))) at 1. cbv iota beta.
    replace (2 ^ 53 * 2 ^ (e + 1074)) with (2 ^ 52 * 2 ^ (e + 1 + 1074)).
    + apply rounds_to_mk; [split; vm_compute; done|lia|right; vm_compute; done].
    + rewrite <- !Z.pow_add_r by lia. f_equal. lia.
  - rewrite Zdigits2_pos by lia.
    assert (Hl : Z.log2 q < 53) by (apply Z.log2_lt_pow2; lia).
    assert (Hl' : e = -1074 \/ 52 <= Z.log2 q).
    { destruct Hc; [by left|right]. by apply Z.log2_le_pow2; lia. }
    replace (Z.max _ _ - e) with 0 by lia. cbn [shr shr_m shr_record_of_loc].
    destruct q as [|p|p]; try lia. change p with (Z.to_pos (Zpos p)) at 1.
    apply rounds_to_mk; lia.
Qed.

Lemma shr_rep m e k : 0 <= m -> 0 <= k ->
  exists rec, shr (shr_record_of_loc m loc_Exact) e k = (rec, e + k) /\ rep rec m (2 ^ k).
Proof.
  intros Hm Hk. destruct k as [|p|p]; [| |lia].
  - eexists. rewrite Z.add_0_r. split; [done|]. apply rep_exact.
  - eexists. split; [done|].
    rewrite <- (Z.mul_1_r (2 ^ Zpos p)). apply rep_iter; [done|lia|apply rep_exact].
Qed.

Lemma rexp_scaled m e : 0 < m -> -1074 <= e ->
  rexp (m * 2 ^ (e + 1074)) = Z.max (Z.log2 m + 1 + e - 53) (-1074) + 1074.
Proof.
  intros Hm He. unfold rexp. rewrite Zdigits2_pos by (pose proof (pow2_pos (e + 1074)); nia).
  rewrite Z.log2_mul_pow2 by lia. lia.
Qed.

(** Rounding [m * 2^e] is rounding the integer it scales to. *)
Lemma binary_round_spec s m e : -1074 <= e ->
  rounds_to (binary_round 53 1024 s m e) s (rnd_pos (Zpos m * 2 ^ (e + 1074))).
Proof.
  intros He. unfold binary_round. rewrite digits2_log2, fexp_max.
  destruct (shl_align _ _ _) as [mz ez] eqn:Ea. apply shl_align_spec in Ea as [Hez Hmz].
  set (fx := Z.max _ _) in *. pose proof (Z.log2_nonneg (Zpos m)) as Hl0.
  assert (Hlz : Z.log2 (Zpos mz) = Z.log2 (Zpos m) + (e - ez)).
  { rewrite Hmz, Z.log2_mul_pow2 by lia. lia. }
  unfold binary_round_aux, shr_fexp at 1. rewrite Zdigits2_pos, fexp_max, Hlz by lia.
  replace (Z.max _ _ - ez) with (fx - ez) by (subst fx; lia).
  destruct (shr_rep (Zpos mz) ez (fx - ez)) as (rec & -> & Hrep); [lia..|].
  pose proof (pow2_pos (fx - ez)) as Hk.
  rewrite (round_rep _ _ _ Hrep) by lia. replace (ez + (fx - ez)) with fx by lia.
  change (rounds_to (finish s (rne (Zpos mz) (2 ^ (fx - ez))) fx) s
    (rnd_pos (Zpos m * 2 ^ (e + 1074)))).
  assert (Hlog : 2 ^ Z.log2 (Zpos mz) <= Zpos mz < 2 ^ (Z.log2 (Zpos mz) + 1)).
  { pose proof (Z.log2_spec (Zpos mz)). rewrite Z.add_1_r. lia. }
  pose proof (rne_bounds (Zpos mz) (2 ^ (fx - ez))) as Hb.
  replace (rnd_pos _) with (rne (Zpos mz) (2 ^ (fx - ez)) * 2 ^ (fx + 1074)).
  - apply finish_spec; [split| |].
    + pose proof (Z.div_pos (Zpos mz) (2 ^ (fx - ez))). lia.
    + enough (Zpos mz / 2 ^ (fx - ez) < 2 ^ 53) by lia.
      apply Z.div_lt_upper_bound; [lia|]. rewrite <- Z.pow_add_r by lia.
      eapply Z.lt_le_trans; [apply Hlog|]. apply Z.pow_le_mono_r; lia.
    + lia.
    + destruct (Z.eq_dec fx (-1074)); [by left|right].
      enough (2 ^ 52 <= Zpos mz / 2 ^ (fx - ez)) by lia.
      apply Z.div_le_lower_bound; [lia|]. rewrite <- Z.pow_add_r by lia.
      eapply Z.le_trans; [|apply Hlog]. apply Z.pow_le_mono_r; lia.
  - unfold rnd_pos. rewrite rexp_scaled by lia. fold fx.
    replace (Zpos m * 2 ^ (e + 1074)) with (Zpos mz * 2 ^ (ez + 1074)).
    + replace (2 ^ (fx + 1074)) with (2 ^ (fx - ez) * 2 ^ (ez + 1074)) at 2.
      * rewrite rne_scale; [done|lia|apply pow2_pos; lia].
      * rewrite <- Z.pow_add_r by lia. f_equal. lia.
    + rewrite Hmz, <- Z.mul_assoc, <- Z.pow_add_r by lia. do 2 f_equal. lia.
Qed.

(** *** The rounding function is monotone, odd and exact on representable values *)

Lemma rexp_nonneg x : 0 <= rexp x.
Proof. unfold rexp. lia. Qed.

Lemma rnd_pos_nonneg x : 0 <= x -> 0 <= rnd_pos x.
Proof.
  intros Hx. unfold rnd_pos. pose proof (pow2_pos _ (rexp_nonneg x)).
  pose proof (rne_bounds x (2 ^ rexp x)). pose proof (Z.div_pos x (2 ^ rexp x)). nia.
Qed.

Lemma rexp_mono x y : 0 <= x <= y -> rexp x <= rexp y.
Proof.
  intros. unfold rexp. destruct (Z.eq_dec x 0) as [->|]; [simpl; lia|].
  rewrite !Zdigits2_pos by lia. pose proof (Z.log2_le_mono x y). lia.
Qed.

Lemma rnd_pos_mono x y : 0 <= x <= y -> rnd_pos x <= rnd_pos y.
Proof.
  intros H. pose proof (rexp_mono x y H) as He. unfold rnd_pos.
  pose proof (rexp_nonneg x) as Hx0. pose proof (pow2_pos _ Hx0) as Hpx.
  destruct (Z.eq_dec (rexp x) (rexp y)) as [E|E].
  { rewrite <- E. apply Z.mul_le_mono_nonneg_r; [lia|]. apply rne_mono; lia. }
  assert (Hey : rexp y = Z.log2 y + 1 - 53 /\ 0 < y).
  { assert (0 < y).
    { destruct (Z.eq_dec y 0) as [->|]; [|lia]. unfold rexp in *. simpl in *. lia. }
    split; [|done]. unfold rexp in *. rewrite (Zdigits2_pos y) in * by lia. lia. }
  assert (Hex : x < 2 ^ (rexp x + 53)).
  { unfold rexp. destruct (Z.eq_dec x 0) as [->|]; [simpl; lia|].
    rewrite Zdigits2_pos by lia. apply Z.log2_lt_pow2; lia. }
  transitivity (2 ^ (rexp x + 53)).
  - rewrite Z.add_comm, Z.pow_add_r by lia. apply Z.mul_le_mono_nonneg_r; [lia|].
    pose proof (rne_bounds x (2 ^ rexp x)). enough (x / 2 ^ rexp x < 2 ^ 53) by lia.
    apply Z.div_lt_upper_bound; [lia|]. rewrite <- Z.pow_add_r by lia. done.
  - transitivity (2 ^ 52 * 2 ^ rexp y).
    + rewrite <- Z.pow_add_r by lia. apply Z.pow_le_mono_r; lia.
    + pose proof (pow2_pos (rexp y)). apply Z.mul_le_mono_nonneg_r; [lia|].
      pose proof (rne_bounds y (2 ^ rexp y)). enough (2 ^ 52 <= y / 2 ^ rexp y) by lia.
      apply Z.div_le_lower_bound; [lia|]. rewrite <- Z.pow_add_r by lia.
      etrans; [|apply Z.log2_spec; lia]. apply Z.pow_le_mono_r; lia.
Qed.

Lemma rnd_mono x y : x <= y -> rnd x <= rnd y.
Proof.
  intros H. unfold rnd. destruct (Z.ltb_spec x 0), (Z.ltb_spec y 0); try lia.
  - pose proof (rnd_pos_mono (- y) (- x)). lia.
  - pose proof (rnd_pos_nonneg (- x)). pose proof (rnd_pos_nonneg y). lia.
  - apply rnd_pos_mono. lia.
Qed.

Lemma rnd_pos_exact q k : 0 <= q < 2 ^ 53 -> 0 <= k -> rnd_pos (q * 2 ^ k) = q * 2 ^ k.
Proof.
  intros Hq Hk. unfold rnd_pos. set (x := q * 2 ^ k).
  pose proof (rexp_nonneg x) as He0. pose proof (pow2_pos _ He0) as Hp.
  assert (Hle : rexp x <= k).
  { unfold rexp, x. destruct (Z.eq_dec q 0) as [->|]; [simpl; lia|].
    pose proof (pow2_pos k Hk). rewrite Zdigits2_pos by nia.
    rewrite Z.log2_mul_pow2 by lia. pose proof (Z.log2_lt_pow2 q 53). lia. }
  replace x with (q * 2 ^ (k - rexp x) * 2 ^ rexp x) at 1 4.
  - by rewrite rne_exact.
  - rewrite <- Z.mul_assoc, <- Z.pow_add_r by lia. unfold x at 3. do 2 f_equal. lia.
Qed.

Lemma rnd_opp x : rnd (- x) = - rnd x.
Proof.
  unfold rnd. destruct (Z.ltb_spec x 0), (Z.ltb_spec (- x) 0); try lia;
    rewrite ?Z.opp_involutive; try done.
  assert (x = 0) as -> by lia. done.
Qed.

Lemma rnd_nonneg x : 0 <= x -> rnd x = rnd_pos x.
Proof. intros. unfold rnd. destruct (Z.ltb_spec x 0); [lia|done]. Qed.

Lemma rnd_cond_opp s x : 0 <= x -> rnd (cond_Zopp s x) = cond_Zopp s (rnd_pos x).
Proof.
  intros Hx. destruct s; simpl; rewrite ?rnd_opp; by rewrite rnd_nonneg.
Qed.

(** *** Comparison is the order of the values *)

Lemma valid_finite s m e : valid (S754_finite s m e) = true ->
  -1074 <= e <= 971 /\ Zpos m < 2 ^ 53 /\ (e = -1074 \/ 2 ^ 52 <= Zpos m).
Proof.
  unfold valid. simpl. unfold bounded, canonical_mantissa.
  rewrite fexp_max, digits2_log2, andb_true_iff, Z.eqb_eq, Z.leb_le. intros [Hc He].
  split; [lia|]. split.
  - apply Z.log2_lt_cancel. rewrite Z.log2_pow2 by lia. lia.
  - destruct (Z.eq_dec e (-1074)); [by left|right]. apply Z.log2_le_pow2; lia.
Qed.

Lemma lex_compare m1 e1 m2 e2 :
  -1074 <= e1 -> -1074 <= e2 -> Zpos m1 < 2 ^ 53 -> Zpos m2 < 2 ^ 53 ->
  (e1 = -1074 \/ 2 ^ 52 <= Zpos m1) -> (e2 = -1074 \/ 2 ^ 52 <= Zpos m2) ->
  (match e1 ?= e2 with Lt => Lt | Gt => Gt | Eq => Pos.compare_cont Eq m1 m2 end)
  = (Zpos m1 * 2 ^ (e1 + 1074) ?= Zpos m2 * 2 ^ (e2 + 1074)).
Proof.
  intros. pose proof (pow2_pos (e1 + 1074)). pose proof (pow2_pos (e2 + 1074)).
  destruct (Z.compare_spec e1 e2) as [<-|Hlt|Hgt]; symmetry.
  - rewrite <- Zmult_compare_compat_r by lia. done.
  - apply Z.compare_lt_iff. rewrite (pow_step (e1 + 1074) (e2 + 1074)) by lia.
    assert (2 ^ 1 <= 2 ^ (e2 + 1074 - (e1 + 1074))) by (apply Z.pow_le_mono_r; lia).
    assert (2 ^ 52 <= Zpos m2) by lia. rewrite Z.mul_assoc.
    apply Z.mul_lt_mono_pos_r; [lia|]. change (2 ^ 53) with (2 ^ 1 * 2 ^ 52) in *. nia.
  - apply Z.compare_gt_iff. rewrite (pow_step (e2 + 1074) (e1 + 1074)) by lia.
    assert (2 ^ 1 <= 2 ^ (e1 + 1074 - (e2 + 1074))) by (apply Z.pow_le_mono_r; lia).
    assert (2 ^ 52 <= Zpos m1) by lia. rewrite Z.mul_assoc.
    apply Z.mul_lt_mono_pos_r; [lia|]. change (2 ^ 53) with (2 ^ 1 * 2 ^ 52) in *. nia.
Qed.

Lemma sval_pos m e : -1074 <= e -> 0 < Zpos m * 2 ^ (e + 1074).
Proof. intros. pose proof (pow2_pos (e + 1074)). lia. Qed.

Lemma SFcompare_sval x y :
  is_finite x = true -> is_finite y = true -> valid x = true -> valid y = true ->
  SFcompare x y = Some (sval x ?= sval y).
Proof.
  intros Fx Fy Vx Vy. destruct x as [s1| | |s1 m1 e1], y as [s2| | |s2 m2 e2]; try done;
    cbn [SFcompare sval].
  - apply valid_finite in Vy as [He _]. pose proof (sval_pos m2 e2).
    f_equal. symmetry. destruct s2; cbn [cond_Zopp]; [apply Z.compare_gt_iff|apply Z.compare_lt_iff]; lia.
  - apply valid_finite in Vx as [He _]. pose proof (sval_pos m1 e1).
    f_equal. symmetry. destruct s1; cbn [cond_Zopp]; [apply Z.compare_lt_iff|apply Z.compare_gt_iff]; lia.
  - apply valid_finite in Vx as (? & ? & ?), Vy as (? & ? & ?). f_equal.
    pose proof (sval_pos m1 e1). pose proof (sval_pos m2 e2).
    pose proof (lex_compare m1 e1 m2 e2) as Hl.
    destruct s1, s2; cbn [cond_Zopp].
    + rewrite Z.compare_opp, (Z.compare_antisym (Zpos m1 * _)), <- Hl by lia. by destruct (e1 ?= e2).
    + symmetry. apply Z.compare_lt_iff. lia.
    + symmetry. apply Z.compare_gt_iff. lia.
    + apply Hl; lia.
Qed.

Lemma fleb_sval x y :
  is_finite x = true -> is_finite y = true -> valid x = true -> valid y = true ->
  fleb x y = (sval x <=? sval y).
Proof.
  intros. unfold fleb, SFleb. rewrite SFcompare_sval by done.
  unfold Z.leb. by destruct (sval x ?= sval y).
Qed.

Lemma fltb_sval x y :
  is_finite x = true -> is_finite y = true -> valid x = true -> valid y = true ->
  fltb x y = (sval x <? sval y).
Proof.
  intros. unfold fltb, SFltb. rewrite SFcompare_sval by done.
  unfold Z.ltb. by destruct (sval x ?= sval y).
Qed.

(** *** Addition is the rounded sum *)

Lemma sval_exact x : valid x = true -> rnd (sval x) = sval x.
Proof.
  intros V. destruct x as [| | |s m e]; try done. apply valid_finite in V as (? & ? & _).
  pose proof (sval_pos m e). simpl. rewrite rnd_cond_opp by lia.
  by rewrite rnd_pos_exact by lia.
Qed.

Lemma sval_bound x : valid x = true -> Z.abs (sval x) < 2 ^ 2098.
Proof.
  intros V. destruct x as [| | |s m e]; try done. apply valid_finite in V as (? & ? & _).
  assert (2 ^ (e + 1074) <= 2 ^ 2045) by (apply Z.pow_le_mono_r; lia).
  assert (2 ^ 2098 = 2 ^ 53 * 2 ^ 2045) by (rewrite <- Z.pow_add_r; [done|lia..]).
  pose proof (sval_pos m e). assert (Zpos m * 2 ^ (e + 1074) < 2 ^ 2098) by nia.
  simpl. destruct s; simpl; lia.
Qed.

Lemma normalize_spec m e :
  -1074 <= e -> let v := rnd (m * 2 ^ (e + 1074)) in
  let r := binary_normalize 53 1024 m e false in
  if Z.abs v <? 2 ^ 2098
  then is_finite r = true /\ valid r = true /\ sval r = v
  else r = S754_infinity (v <? 0).
Proof.
  intros He. cbv zeta. destruct m as [|p|p]; [done|..]; simpl binary_normalize.
  - pose proof (binary_round_spec false p e He) as H. unfold rounds_to in H. simpl in H.
    pose proof (sval_pos p e He) as Hp. pose proof (rnd_pos_nonneg _ (Z.lt_le_incl _ _ Hp)).
    rewrite rnd_nonneg, Z.abs_eq by lia.
    destruct (rnd_pos _ <? 2 ^ 2098); [done|]. rewrite H. f_equal.
    symmetry. apply Z.ltb_ge. lia.
  - pose proof (binary_round_spec true p e He) as H. unfold rounds_to in H.
    pose proof (sval_pos p e He) as Hp. pose proof (rnd_pos_nonneg _ (Z.lt_le_incl _ _ Hp)).
    change (Zneg p) with (- Zpos p). rewrite Z.mul_opp_l.
    cbn [cond_Zopp] in *. rewrite rnd_opp, rnd_nonneg, Z.abs_opp, Z.abs_eq by lia.
    destruct (Z.ltb_spec (rnd_pos (Zpos p * 2 ^ (e + 1074))) (2 ^ 2098)); [done|]. rewrite H.
    f_equal. symmetry. apply Z.ltb_lt. lia.
Qed.

Lemma align_sval s m e ez : -1074 <= ez <= e ->
  cond_Zopp s (Zpos (fst (shl_align m e ez))) * 2 ^ (ez + 1074) = sval (S754_finite s m e).
Proof.
  intros. destruct (shl_align m e ez) as [mz ez'] eqn:E.
  apply shl_align_spec in E as [Hez Hm]. replace ez' with ez in Hm by lia.
  assert (Zpos mz * 2 ^ (ez + 1074) = Zpos m * 2 ^ (e + 1074)) as Hv.
  { rewrite Hm, <- Z.mul_assoc, <- Z.pow_add_r by lia. do 2 f_equal. lia. }
  cbn [fst sval]. rewrite <- Hv. destruct s; cbn [cond_Zopp]; ring.
Qed.

(** The sum of two finite floats is the float nearest to the exact sum, or an
    infinity of its sign when that is out of range. *)
Lemma fadd_spec x y :
  is_finite x = true -> is_finite y = true -> valid x = true -> valid y = true ->
  let v := rnd (sval x + sval y) in
  if Z.abs v <? 2 ^ 2098
  then is_finite (x + y)%float = true /\ valid (x + y)%float = true /\ sval (x + y)%float = v
  else (x + y)%float = S754_infinity (v <? 0).
Proof.
  intros Fx Fy Vx Vy. cbv zeta.
  destruct x as [s1| | |s1 m1 e1], y as [s2| | |s2 m2 e2]; try done.
  - by destruct s1, s2.
  - rewrite Z.add_0_l, sval_exact by done.
    destruct (Z.ltb_spec (Z.abs (sval (S754_finite s2 m2 e2))) (2 ^ 2098)); [done|].
    pose proof (sval_bound _ Vy). lia.
  - rewrite Z.add_0_r, sval_exact by done.
    destruct (Z.ltb_spec (Z.abs (sval (S754_finite s1 m1 e1))) (2 ^ 2098)); [done|].
    pose proof (sval_bound _ Vx). lia.
  - apply valid_finite in Vx as [Hx _], Vy as [Hy _].
    assert (Hmin : -1074 <= Z.min e1 e2) by lia.
    pose proof (normalize_spec (cond_Zopp s1 (Zpos (fst (shl_align m1 e1 (Z.min e1 e2)))) +
      cond_Zopp s2 (Zpos (fst (shl_align m2 e2 (Z.min e1 e2))))) _ Hmin) as H.
    cbv zeta in H. rewrite Z.mul_add_distr_r, !align_sval in H by lia. apply H.
Qed.

(** *** What the ledgers use *)

Lemma fsub_self x : is_finite x = true -> fsub x x = S754_zero false.
Proof.
  destruct x as [[]| | |s m e]; try done. intros _. unfold fsub, SFsub.
  by rewrite Z.sub_diag.
Qed.

(** Adding a non-negative float never decreases the other operand. *)
Lemma fadd_ge_l x y :
  is_finite x = true -> is_finite y = true -> valid x = true -> valid y = true ->
  0 <= sval y -> fleb x (x + y)%float = true.
Proof.
  intros Fx Fy Vx Vy Hy. pose proof (fadd_spec x y Fx Fy Vx Vy) as H. cbv zeta in H.
  assert (Hge : sval x <= rnd (sval x + sval y)).
  { rewrite <- (sval_exact x Vx) at 1. apply rnd_mono. lia. }
  pose proof (sval_bound x Vx).
  destruct (Z.ltb_spec (Z.abs (rnd (sval x + sval y))) (2 ^ 2098)).
  - destruct H as (F & V & E). rewrite fleb_sval by done. rewrite E. by apply Z.leb_le.
  - rewrite H. assert ((rnd (sval x + sval y) <? 0) = false) as -> by (apply Z.ltb_ge; lia).
    by destruct x as [| | |[] m e].
Qed.

Lemma fadd_valid x y : valid x = true -> valid y = true -> valid (x + y)%float = true.
Proof.
  intros Vx Vy. destruct (is_finite x) eqn:Fx; [destruct (is_finite y) eqn:Fy|].
  - pose proof (fadd_spec x y Fx Fy Vx Vy) as H. cbv zeta in H.
    destruct (Z.abs _ <? _); [by destruct H as (_ & ? & _)|by rewrite H].
  - destruct x as [| | |[] m e], y as [| | |]; done.
  - destruct x as [|[]| |], y as [|[]| |]; done.
Qed.

Lemma fleb_refl x : is_finite x = true -> fleb x x = true.
Proof.
  destruct x as [| | |s m e]; try done. intros _. unfold fleb, SFleb. simpl.
  rewrite Z.compare_refl. change (Pos.compare_cont Eq m m) with (Pos.compare m m).
  rewrite Pos.compare_refl. by destruct s.
Qed.

Lemma fltb_fleb x y : fltb x y = true -> fleb x y = true.
Proof. unfold fltb, fleb, SFltb, SFleb. by destruct (SFcompare x y) as [[]|]. Qed.

Lemma fleb_trans x y z :
  is_finite x = true -> is_finite y = true -> is_finite z = true ->
  valid x = true -> valid y = true -> valid z = true ->
  fleb x y = true -> fleb y z = true -> fleb x z = true.
Proof. intros. rewrite fleb_sval in * by done. rewrite Z.leb_le in *. lia. Qed.


(** ** Equality *)

Lemma feqb_cases x y : feqb x y = true ->
  x = y \/ (exists s s', x = S754_zero s /\ y = S754_zero s').
Proof.
  unfold feqb, SFeqb, SFcompare. destruct x as [s| s| |s m e], y as [s'|s'| |s' m' e'];
    try destruct s; try destruct s'; try done; eauto 6.
  all: destruct (e ?= e') eqn:He; try done;
    apply Z.compare_eq in He; subst; intros H; left.
  all: match goal with
       | H : context [Pos.compare_cont _ ?a ?b] |- _ =>
           destruct (Pos.compare_cont Eq a b) eqn:Hm; try done
       end.
  all: change (Pos.compare_cont Eq m m') with (Pos.compare m m') in Hm;
    apply Pos.compare_eq in Hm; congruence.
Qed.

Lemma feqb_refl x : is_nan x = false -> feqb x x = true.
Proof.
  unfold feqb, SFeqb, SFcompare. destruct x as [s|s| |s m e]; try destruct s; try done;
  intros _; rewrite Z.compare_refl; change (Pos.compare_cont Eq m m) with (Pos.compare m m);
  by rewrite Pos.compare_refl.
Qed.

Lemma feqb_trans x y z : feqb x y = true -> feqb y z = true -> feqb x z = true.
Proof.
  intros H1 H2. destruct (feqb_cases x y H1) as [->|(s & s' & -> & ->)]; [done|].
  by destruct (feqb_cases _ z H2) as [<-|(? & ? & _ & ->)].
Qed.

(** ** Floats up to the sign of zero

    [x or 0.0] turns [-0.0] into [0.0], so the totals Python recomputes agree with the
    stored ones only up to the sign of zero. *)

Definition zeq (x y : float) : Prop :=
  x = y \/ (exists s s', x = S754_zero s /\ y = S754_zero s').

#[export] Instance zeq_equiv : Equivalence zeq.
Proof.
  split.
  - intros x. by left.
  - intros x y [->|(s & s' & -> & ->)]; [by left|right; eauto].
  - intros x y z [->|(s & s' & -> & ->)] H; [done|].
    destruct H as [<-|(? & ? & _ & ->)]; right; eauto.
Qed.

#[export] Instance fadd_zeq : Proper (zeq ==> zeq ==> zeq) fadd.
Proof.
  intros x x' [->|(s & s' & -> & ->)] y y' [->|(t & t' & -> & ->)]; [by left| | |].
  - destruct x' as [[]|[]| |[] m e], t, t'; try (by left); right; cbn; eauto.
  - destruct y' as [[]|[]| |[] m e], s, s'; try (by left); right; cbn; eauto.
  - destruct s, s', t, t'; right; cbn; eauto.
Qed.

#[export] Instance fleb_zeq : Proper (zeq ==> zeq ==> eq) fleb.
Proof.
  intros x x' [->|(s & s' & -> & ->)] y y' [->|(t & t' & -> & ->)]; [done| | |].
  - by destruct x' as [[]|[]| |[] m e].
  - by destruct y' as [[]|[]| |[] m e].
  - done.
Qed.

#[export] Instance fltb_zeq : Proper (zeq ==> zeq ==> eq) fltb.
Proof.
  intros x x' [->|(s & s' & -> & ->)] y y' [->|(t & t' & -> & ->)]; [done| | |].
  - by destruct x' as [[]|[]| |[] m e].
  - by destruct y' as [[]|[]| |[] m e].
  - done.
Qed.

#[export] Instance is_finite_zeq : Proper (zeq ==> eq) is_finite.
Proof. by intros x x' [->|(s & s' & -> & ->)]. Qed.

Lemma or_zero_zeq x : zeq (or_zero (Some x)) x.
Proof.
  unfold or_zero. destruct (feqb x fzero) eqn:E; [|by left].
  apply feqb_cases in E as [->|(s & s' & -> & ->)]; [by left|]. right. unfold fzero. eauto.
Qed.

Lemma fsub_zeq_self x y : zeq x y -> is_finite x = true -> fabs (fsub x y) = S754_zero false.
Proof.
  intros [->|(s & s' & -> & ->)] F; [by rewrite fsub_self|]. by destruct s, s'.
Qed.

Lemma SFcompare_antisym x y :
  SFcompare y x = match SFcompare x y with Some c => Some (CompOpp c) | None => None end.
Proof.
  destruct x as [|[]| |[] m e], y as [|[]| |[] m' e']; try done; cbn;
    rewrite (Z.compare_antisym e e'); destruct (e ?= e'); try done; cbn;
    change (Pos.compare_cont Eq m' m) with (Pos.compare m' m);
    change (Pos.compare_cont Eq m m') with (Pos.compare m m');
    rewrite (Pos.compare_antisym m m'); by destruct (Pos.compare m m').
Qed.

Lemma fleb_not_fltb x y : fleb x y = true -> fltb y x = false.
Proof.
  unfold fleb, fltb, SFleb, SFltb. rewrite (SFcompare_antisym x y).
  by destruct (SFcompare x y) as [[]|].
Qed.

#[export] Instance fsub_abs_zeq : Proper (zeq ==> zeq ==> zeq) (fun x y => fabs (fsub x y)).
Proof.
  intros x x' [->|(s & s' & -> & ->)] y y' [->|(t & t' & -> & ->)]; [by left| | |].
  - destruct x' as [[]|[]| |[] m e], t, t'; by left.
  - destruct y' as [[]|[]| |[] m e], s, s'; by left.
  - destruct s, s', t, t'; by left.
Qed.

Lemma fopp_facts x : is_finite (fopp x) = is_finite x /\ valid (fopp x) = valid x /\ sval (fopp x) = - sval x.
Proof. destruct x as [| | |[] m e]; split_and!; try done; cbn; ring. Qed.

(** Taking at most what is there leaves something non-negative. *)
Lemma fadd_fopp_nonneg x y :
  is_finite x = true -> is_finite y = true -> valid x = true -> valid y = true ->
  fleb y x = true -> fleb fzero (x + fopp y)%float = true.
Proof.
  intros Fx Fy Vx Vy Hle. destruct (fopp_facts y) as (Fo & Vo & So).
  assert (Fo' : is_finite (fopp y) = true) by congruence.
  assert (Vo' : valid (fopp y) = true) by congruence.
  pose proof (fadd_spec x (fopp y) Fx Fo' Vx Vo') as H. cbv zeta in H. rewrite So in H.
  rewrite fleb_sval in Hle by done. apply Z.leb_le in Hle.
  assert (Hge : 0 <= rnd (sval x + - sval y)).
  { change 0 with (rnd 0) at 1. apply rnd_mono. lia. }
  destruct (Z.abs _ <? _) eqn:Hb.
  - destruct H as (F & V & E). rewrite fleb_sval by done. apply Z.leb_le. rewrite E. exact Hge.
  - rewrite H. by rewrite (proj2 (Z.ltb_ge _ _) Hge).
Qed.

(** ** Values with infinities

    Every float that is not a nan has a place on the line: [xval] is [sval] with the
    infinities at the two ends of the range.  Comparisons become comparisons of
    integers, so that chains of float inequalities are arithmetic. *)
Definition RANGE : Z := 2 ^ 2098.
Definition xval (x : float) : Z :=
  match x with
  | S754_infinity s => cond_Zopp s RANGE
  | _ => sval x
  end.
Definition clamp (v : Z) : Z := Z.max (- RANGE) (Z.min RANGE v).
Definition number (x : float) : bool := valid x && negb (is_nan x).

Lemma RANGE_pos : 0 < RANGE.
Proof. by apply Z.pow_pos_nonneg. Qed.

Lemma number_finite x : is_finite x = true -> valid x = true -> number x = true.
Proof. unfold number. intros F ->. by destruct x. Qed.

Lemma xval_finite x : is_finite x = true -> xval x = sval x.
Proof. by destruct x. Qed.

Lemma xval_bound x : number x = true -> - RANGE <= xval x <= RANGE.
Proof.
  unfold number. rewrite andb_true_iff. intros [V N]. pose proof RANGE_pos.
  destruct x as [|[]| |s m e]; cbn [xval cond_Zopp]; [cbn; lia|lia|lia|done|].
  pose proof (sval_bound _ V). unfold RANGE. lia.
Qed.

Lemma fcompare_xval x y : number x = true -> number y = true ->
  SFcompare x y = Some (xval x ?= xval y).
Proof.
  unfold number. rewrite !andb_true_iff, !negb_true_iff. intros [Vx Nx] [Vy Ny].
  pose proof RANGE_pos as HR. pose proof (sval_bound x Vx) as Bx. pose proof (sval_bound y Vy) as By.
  assert (Hc : forall a b c, (a ?= b) = c -> Some c = Some (a ?= b)) by (intros; by subst).
  destruct (is_finite x) eqn:Fx, (is_finite y) eqn:Fy.
  - rewrite SFcompare_sval, !xval_finite by done. done.
  - rewrite (xval_finite x) by done. fold RANGE in Bx.
    destruct x as [|[]| |[] m e]; destruct y as [|[]| |[] m' e']; try done; cbn [xval cond_Zopp];
      apply Hc; first [by apply Z.compare_lt_iff; lia|by apply Z.compare_gt_iff; lia].
  - rewrite (xval_finite y) by done. fold RANGE in By.
    destruct x as [|[]| |[] m e]; destruct y as [|[]| |[] m' e']; try done; cbn [xval cond_Zopp];
      apply Hc; first [by apply Z.compare_lt_iff; lia|by apply Z.compare_gt_iff; lia].
  - destruct x as [|[]| |[] m e]; destruct y as [|[]| |[] m' e']; try done; cbn [xval cond_Zopp].
Qed.

Lemma fleb_xval x y : number x = true -> number y = true -> fleb x y = (xval x <=? xval y).
Proof.
  intros. unfold fleb, SFleb. rewrite fcompare_xval by done. unfold Z.leb. by destruct (_ ?= _).
Qed.
Lemma fltb_xval x y : number x = true -> number y = true -> fltb x y = (xval x <? xval y).
Proof.
  intros. unfold fltb, SFltb. rewrite fcompare_xval by done. unfold Z.ltb. by destruct (_ ?= _).
Qed.

Lemma fleb_number x y : valid x = true -> valid y = true -> fleb x y = true ->
  number x = true /\ number y = true.
Proof. unfold number. intros -> ->. destruct x, y; try destruct s; done. Qed.

Lemma clamp_mono a b : a <= b -> clamp a <= clamp b.
Proof. unfold clamp. lia. Qed.
Lemma clamp_id a : - RANGE <= a <= RANGE -> clamp a = a.
Proof. unfold clamp. lia. Qed.

Lemma fadd_xval x y :
  is_finite x = true -> is_finite y = true -> valid x = true -> valid y = true ->
  number (x + y)%float = true /\ xval (x + y)%float = clamp (rnd (sval x + sval y)).
Proof.
  intros Fx Fy Vx Vy. pose proof (fadd_spec x y Fx Fy Vx Vy) as H. cbv zeta in H.
  pose proof RANGE_pos. destruct (Z.ltb_spec (Z.abs (rnd (sval x + sval y))) (2 ^ 2098)) as [Hl|Hl].
  - destruct H as (F & V & E). split; [by apply number_finite|].
    rewrite xval_finite, E by done. rewrite clamp_id; [done|]. fold RANGE in Hl. lia.
  - rewrite H. fold RANGE in Hl. split; [done|]. cbn [xval]. unfold clamp.
    destruct (Z.ltb_spec (rnd (sval x + sval y)) 0); cbn [cond_Zopp]; lia.
Qed.

Lemma fsub_fadd x y : fsub x y = fadd x (fopp y).
Proof.
  destruct x as [[]|[]| |s m e], y as [[]|[]| |s' m' e']; try done.
  unfold fsub, fadd, SFsub, SFadd, fopp. cbn [SFopp].
  f_equal. rewrite <- Z.add_opp_r. f_equal. by destruct s'.
Qed.

Lemma fsub_xval x y :
  is_finite x = true -> is_finite y = true -> valid x = true -> valid y = true ->
  number (x - y)%float = true /\ xval (x - y)%float = clamp (rnd (sval x - sval y)).
Proof.
  intros Fx Fy Vx Vy. destruct (fopp_facts y) as (Fo & Vo & So). rewrite fsub_fadd.
  rewrite <- Z.add_opp_r, <- So. by apply fadd_xval; congruence.
Qed.

(** Adding the same finite amount keeps the order. *)
Lemma fadd_mono_l x y z :
  is_finite x = true -> is_finite y = true -> is_finite z = true ->
  valid x = true -> valid y = true -> valid z = true ->
  fleb x y = true -> fleb (x + z)%float (y + z)%float = true.
Proof.
  intros Fx Fy Fz Vx Vy Vz. rewrite fleb_sval by done. intros H%Z.leb_le.
  destruct (fadd_xval x z) as [N1 E1]; [done..|]. destruct (fadd_xval y z) as [N2 E2]; [done..|].
  rewrite fleb_xval, E1, E2 by done. apply Z.leb_le, clamp_mono, rnd_mono. lia.
Qed.

(** Order through any float that is a number. *)
Lemma fleb_trans_num x y z : number x = true -> number y = true -> number z = true ->
  fleb x y = true -> fleb y z = true -> fleb x z = true.
Proof. intros. rewrite fleb_xval in * by done. rewrite Z.leb_le in *. lia. Qed.

(** Taking a positive amount away never increases a float. *)
Lemma fsub_le x y : is_finite x = true -> is_finite y = true -> valid x = true -> valid y = true ->
  0 <= sval y -> fleb (x - y)%float x = true.
Proof.
  intros Fx Fy Vx Vy Hy. destruct (fsub_xval x y) as [N E]; [done..|].
  rewrite fleb_xval, E, (xval_finite x) by (done || by apply number_finite). apply Z.leb_le.
  pose proof (sval_bound x Vx) as B. fold RANGE in B.
  transitivity (clamp (sval x)); [|rewrite clamp_id; lia]. apply clamp_mono.
  rewrite <- (sval_exact x Vx) at 2. apply rnd_mono. lia.
Qed.

(** The same for every number, infinities included: adding a finite float gives a
    number, and taking a positive finite float away never increases one. *)
Lemma number_add u a : number u = true -> is_finite a = true -> valid a = true ->
  number (u + a)%float = true.
Proof.
  intros Nu Fa Va. destruct (is_finite u) eqn:Fu.
  - apply fadd_xval; try done. by apply andb_true_iff in Nu as [? _].
  - destruct u as [|[]| |], a as [| | |]; done.
Qed.

Lemma number_sub_le u a : number u = true -> is_finite a = true -> valid a = true -> fltb fzero a = true ->
  number (u - a)%float = true /\ fleb (u - a)%float u = true.
Proof.
  intros Nu Fa Va Pa. assert (Vu : valid u = true) by (by apply andb_true_iff in Nu as [? _]).
  destruct (is_finite u) eqn:Fu.
  - split; [by apply fsub_xval|]. apply fsub_le; try done.
    rewrite fltb_sval in Pa by done. apply Z.ltb_lt in Pa. change (sval fzero) with 0 in Pa. lia.
  - destruct u as [|[]| |], a as [[]| | |[]]; done.
Qed.
