(* ===== verification/PyJson.v ===== *)
(** * JSON values of the Python program

    The values [json.loads] produces and JSON columns hold.  An object lists its
    items in insertion order, as a Python [dict] does. *)
From S2P Require Import Prelude PyFloat.

Inductive json : Type :=
| JNull
| JBool (b : bool)
| JInt (n : Z)
| JFloat (x : float)
| JStr (s : string)
| JList (l : list json)
| JObj (d : list (string * json)).

#[export] Instance spec_float_eq_dec : EqDecision spec_float.
Proof. solve_decision. Defined.

Fixpoint json_eqb (a b : json) : bool :=
  match a, b with
  | JNull, JNull => true
  | JBool x, JBool y => bool_decide (x = y)
  | JInt x, JInt y => bool_decide (x = y)
  | JFloat x, JFloat y => bool_decide (x = y)
  | JStr x, JStr y => bool_decide (x = y)
  | JList l, JList k =>
      (fix go (l k : list json) : bool :=
         match l, k with
         | [], [] => true
         | x :: l, y :: k => json_eqb x y && go l k
         | _, _ => false
         end) l k
  | JObj l, JObj k =>
      (fix go (l k : list (string * json)) : bool :=
         match l, k with
         | [], [] => true
         | (i, x) :: l, (j, y) :: k => bool_decide (i = j) && json_eqb x y && go l k
         | _, _ => false
         end) l k
  | _, _ => false
  end.

(** Induction through the nested lists. *)
Section JsonInd.
Variable P : json -> Prop.
Hypothesis HNull : P JNull.
Hypothesis HBool : forall b, P (JBool b).
Hypothesis HInt : forall n, P (JInt n).
Hypothesis HFloat : forall x, P (JFloat x).
Hypothesis HStr : forall s, P (JStr s).
Hypothesis HList : forall l, Forall P l -> P (JList l).
Hypothesis HObj : forall d, Forall (fun kv => P (snd kv)) d -> P (JObj d).

Fixpoint json_induction (j : json) : P j :=
  match j with
  | JNull => HNull
  | JBool b => HBool b
  | JInt n => HInt n
  | JFloat x => HFloat x
  | JStr s => HStr s
  | JList l =>
      HList l ((fix go (l : list json) : Forall P l :=
        match l with
        | [] => Forall_nil_2 P
        | x :: l => Forall_cons_2 P x l (json_induction x) (go l)
        end) l)
  | JObj d =>
      HObj d ((fix go (d : list (string * json)) : Forall (fun kv => P (snd kv)) d :=
        match d with
        | [] => Forall_nil_2 _
        | kv :: d => Forall_cons_2 (fun kv => P (snd kv)) kv d (json_induction (snd kv)) (go d)
        end) d)
  end.
End JsonInd.

Lemma json_eqb_eq a b : json_eqb a b = true <-> a = b.
Proof.
  revert b. induction a using json_induction; intros [] ; simpl;
    rewrite ?bool_decide_eq_true; try (split; congruence).
  - assert (Hg : forall k, (fix go (l k : list json) : bool :=
         match l, k with
         | [], [] => true
         | x :: l, y :: k => json_eqb x y && go l k
         | _, _ => false
         end) l k = true <-> l = k).
    { induction H as [|x l Hx Hl IH]; intros [|y k]; try (split; congruence).
      rewrite andb_true_iff, Hx, IH. split; [intros [-> ->]|]; naive_solver. }
    rewrite Hg. naive_solver.
  - assert (Hg : forall k, (fix go (l k : list (string * json)) : bool :=
         match l, k with
         | [], [] => true
         | (i, x) :: l, (j, y) :: k => bool_decide (i = j) && json_eqb x y && go l k
         | _, _ => false
         end) d k = true <-> d = k).
    { induction H as [|[i x] d Hx Hd IH]; intros [|[j y] k]; try (split; congruence).
      rewrite !andb_true_iff, bool_decide_eq_true, IH. simpl in Hx. rewrite Hx. naive_solver. }
    rewrite Hg. naive_solver.
Qed.

#[export] Instance json_eq_dec : EqDecision json.
Proof.
  intros a b. destruct (json_eqb a b) eqn:E.
  - left. by apply json_eqb_eq.
  - right. intros He. apply json_eqb_eq in He. congruence.
Defined.
