(* ===== verification/FloatMul.v ===== *)
(** * Multiplication and division of binary64

    The relative error of [fmul] and [fdiv] on normal operands, used to show that
    converting an amount to its minor unit and back loses nothing. *)
From S2P Require Import Prelude PyFloat FloatFacts.
Open Scope Z_scope.

(** [2^1074]: the scale of [sval]. *)
Definition K : Z := 2 ^ 1074.

Lemma K_pos : 0 < K.
Proof. by apply Z.pow_pos_nonneg. Qed.

Lemma digits_bounds m : 0 < m -> 2 ^ (Zdigits2 m - 1) <= m < 2 ^ Zdigits2 m.
Proof.
  intros Hm. rewrite Zdigits2_pos by done. pose proof (Z.log2_spec m Hm) as H.
  replace (Z.log2 m + 1 - 1) with (Z.log2 m) by lia. by rewrite Z.add_1_r.
Qed.

(** Rounding a fraction [n / d] with integer part [m], in the normal range. *)
Lemma aux_spec s m e loc n d :
  0 < m -> 0 <= n -> 0 < d -> rep (shr_record_of_loc m loc) n d ->
  53 <= Zdigits2 m -> -1074 < Zdigits2 m + e - 53 -> Zdigits2 m + e <= 1000 ->
  let f := Zdigits2 m + e - 53 in
  let q := rne n (d * 2 ^ (f - e)) in
  let r := binary_round_aux 53 1024 s m e loc in
  2 ^ 52 <= q <= 2 ^ 53 /\ is_finite r = true /\ valid r = true /\
  sval r = cond_Zopp s (q * 2 ^ (f + 1074)).
Proof.
  intros Hm Hn Hd Hrep Hdig Hlo Hhi f q r.
  assert (Hfx : Z.max (Zdigits2 m + e - 53) (-1074) = f) by (subst f; lia).
  pose proof (pow2_pos (f - e) ltac:(subst f; lia)) as Hk.
  assert (Hr : r = finish s q f).
  { subst r. unfold binary_round_aux, shr_fexp at 1. rewrite fexp_max, Hfx.
    assert (Hsh : exists rec, shr (shr_record_of_loc m loc) e (f - e) = (rec, f) /\
      rep rec n (d * 2 ^ (f - e))).
    { destruct (f - e) as [|p|p] eqn:E; [| |subst f; lia].
      - eexists. rewrite Z.mul_1_r. split; [|done]. cbn. f_equal. lia.
      - eexists. split; [cbn; f_equal; lia|]. rewrite Z.mul_comm. by apply rep_iter. }
    destruct Hsh as (rec & -> & Hrec). rewrite (round_rep _ _ _ Hrec) by nia. done. }
  assert (Hmn : n / d = m).
  { destruct Hrep as [H1 _]. rewrite <- H1. by destruct loc as [|[]]. }
  pose proof (digits_bounds m Hm) as Hb.
  assert (Hq : 2 ^ 52 <= q <= 2 ^ 53).
  { pose proof (rne_bounds n (d * 2 ^ (f - e)) Hn ltac:(nia)) as Hqb. fold q in Hqb.
    rewrite <- Z.div_div, Hmn in Hqb by lia.
    assert (2 ^ 52 <= m / 2 ^ (f - e)).
    { apply Z.div_le_lower_bound; [done|]. rewrite <- Z.pow_add_r by (subst f; lia).
      replace (f - e + 52) with (Zdigits2 m - 1) by (subst f; lia). lia. }
    assert (m / 2 ^ (f - e) < 2 ^ 53).
    { apply Z.div_lt_upper_bound; [done|]. rewrite <- Z.pow_add_r by (subst f; lia).
      replace (f - e + 53) with (Zdigits2 m) by (subst f; lia). lia. }
    lia. }
  split; [done|]. rewrite Hr.
  pose proof (finish_spec s q f ltac:(lia) ltac:(subst f; lia) ltac:(right; lia)) as Hfin.
  unfold rounds_to in Hfin. destruct (Z.ltb_spec (q * 2 ^ (f + 1074)) (2 ^ 2098)) as [|Hov]; [done|].
  exfalso. assert (2 ^ (f + 1074) <= 2 ^ 2021) by (apply Z.pow_le_mono_r; subst f; lia).
  assert (2 ^ 53 * 2 ^ 2021 < 2 ^ 2098) by (rewrite <- Z.pow_add_r by lia; apply Z.pow_lt_mono_r; lia).
  pose proof (pow2_pos (f + 1074) ltac:(subst f; lia)). nia.
Qed.

(** A positive normal float: a 53-bit mantissa. *)
Definition normal (x : float) (m e : Z) : Prop :=
  x = S754_finite false (Z.to_pos m) e /\ 2 ^ 52 <= m < 2 ^ 53 /\ -1000 <= e <= 900.

Lemma normal_digits m : 2 ^ 52 <= m < 2 ^ 53 -> Zdigits2 m = 53.
Proof.
  intros H. rewrite Zdigits2_pos by lia.
  assert (Z.log2 m = 52); [|lia]. apply Z.log2_unique; lia.
Qed.

Lemma normal_sval x m e : normal x m e -> sval x = m * 2 ^ (e + 1074).
Proof. intros (-> & Hm & _). cbn. by rewrite Z2Pos.id by lia. Qed.

(** The product is within half an ulp of the exact value. *)
Lemma fmul_rel x y mx ex my ey :
  normal x mx ex -> normal y my ey -> -900 <= ex + ey <= 800 ->
  let z := fmul x y in
  is_finite z = true /\ valid z = true /\ 0 < sval z /\
  Z.abs (sval z * K - sval x * sval y) * 2 ^ 53 <= sval z * K.
Proof.
  intros Nx Ny He z. pose proof (normal_sval _ _ _ Nx) as Sx. pose proof (normal_sval _ _ _ Ny) as Sy.
  destruct Nx as (-> & Hmx & Hex), Ny as (-> & Hmy & Hey).
  set (m := mx * my). assert (Hm : 2 ^ 104 <= m < 2 ^ 106) by (subst m; nia).
  assert (Hz : z = binary_round_aux 53 1024 false m (ex + ey) loc_Exact).
  { subst z m. cbn. rewrite Pos2Z.inj_mul, !Z2Pos.id by lia. done. }
  assert (Hdig : 105 <= Zdigits2 m <= 106).
  { rewrite Zdigits2_pos by lia.
    assert (104 <= Z.log2 m) by (apply Z.log2_le_pow2; lia).
    assert (Z.log2 m < 106) by (apply Z.log2_lt_pow2; lia). lia. }
  destruct (aux_spec false m (ex + ey) loc_Exact m 1) as (Hq & Fz & Vz & Sz);
    [lia|lia|lia|apply rep_exact|lia..|].
  set (f := Zdigits2 m + (ex + ey) - 53) in *. set (q := rne _ _) in *.
  rewrite <- Hz in Fz, Vz, Sz. cbn [cond_Zopp] in Sz.
  pose proof (pow2_pos (f + 1074) ltac:(subst f; lia)) as Hf.
  split_and!; [done|done|rewrite Sz; nia|].
  pose proof (rne_error m (1 * 2 ^ (f - (ex + ey))) ltac:(lia)) as Herr. fold q in Herr.
  rewrite Z.mul_1_l in Herr. specialize (Herr (pow2_pos (f - (ex + ey)) ltac:(subst f; lia))).
  set (D := 2 ^ (f - (ex + ey))) in *. set (E := 2 ^ (ex + ey + 2148)).
  assert (HE : 0 < E) by (apply pow2_pos; lia).
  assert (H1 : sval z * K = q * D * E).
  { rewrite Sz. unfold K, D, E. rewrite <- !Z.mul_assoc, <- !Z.pow_add_r by (subst f; lia).
    do 2 f_equal. lia. }
  assert (H2 : sval (S754_finite false (Z.to_pos mx) ex) * sval (S754_finite false (Z.to_pos my) ey) = m * E).
  { rewrite Sx, Sy. unfold m, E. replace (ex + ey + 2148) with ((ex + 1074) + (ey + 1074)) by lia.
    rewrite (Z.pow_add_r 2 (ex + 1074) (ey + 1074)) by lia. ring. }
  rewrite H1, H2, <- Z.mul_sub_distr_r, Z.abs_mul, (Z.abs_eq E) by lia.
  assert (Z.abs (q * D - m) * 2 ^ 53 <= q * D) by (assert (0 < D) by (apply pow2_pos; subst f; lia); nia).
  nia.
Qed.

Lemma new_location_rep m2 n : 0 < m2 -> 0 <= n ->
  rep (shr_record_of_loc (n / m2) (new_location m2 (n mod m2))) n m2.
Proof.
  intros Hm Hn. unfold rep. split; [by destruct (new_location _ _) as [|[]]|].
  assert (Hloc : forall l, loc_of_shr_record (shr_record_of_loc (n / m2) l) = l) by (by intros [|[]]).
  rewrite Hloc. unfold new_location, locof. destruct (Z.even m2) eqn:He.
  - done.
  - unfold new_location_odd. destruct (n mod m2 =? 0); [done|]. f_equal.
    pose proof (Z.mod_pos_bound n m2 Hm) as Hb.
    assert (2 * (n mod m2) <> m2) as Hne.
    { intros Heq. rewrite <- Heq, Z.even_mul in He. done. }
    destruct (2 * (n mod m2) + 1 ?= m2) eqn:C; destruct (2 * (n mod m2) ?= m2) eqn:C'; try done;
      rewrite ?Z.compare_eq_iff, ?Z.compare_lt_iff, ?Z.compare_gt_iff in *; lia.
Qed.

(** The quotient is within half an ulp of the exact value. *)
Lemma fdiv_rel x y mx ex my ey :
  normal x mx ex -> normal y my ey -> -900 <= ex - ey <= 800 ->
  let z := fdiv x y in
  is_finite z = true /\ valid z = true /\ 0 < sval z /\
  Z.abs (sval z * sval y - sval x * K) * 2 ^ 53 <= sval z * sval y.
Proof.
  intros Nx Ny He z. pose proof (normal_sval _ _ _ Nx) as Sx. pose proof (normal_sval _ _ _ Ny) as Sy.
  destruct Nx as (-> & Hmx & Hex), Ny as (-> & Hmy & Hey).
  set (n := mx * 2 ^ 53). set (e := ex - ey - 53). set (m := n / my).
  assert (Hz : z = binary_round_aux 53 1024 false m e (new_location my (n mod my))).
  { subst z. unfold fdiv, SFdiv, SFdiv_core_binary. rewrite !Z2Pos.id, !normal_digits by lia.
    change (fexp 53 1024 (53 + ex - (53 + ey))) with (Z.max (53 + ex - (53 + ey) - 53) (-1074)).
    replace (Z.min _ _) with e by (subst e; lia).
    replace (ex - ey - e) with 53 by (subst e; lia). rewrite Z.shiftl_mul_pow2 by lia. fold n.
    pose proof (Z.div_eucl_eq n my ltac:(lia)). unfold m, Z.div, Z.modulo.
    destruct (Z.div_eucl n my) as [qq rr]. done. }
  assert (Hm : 2 ^ 52 <= m < 2 ^ 54).
  { subst m n. split; [apply Z.div_le_lower_bound; nia|].
    apply Z.div_lt_upper_bound; nia. }
  assert (Hdig : 53 <= Zdigits2 m <= 54).
  { rewrite Zdigits2_pos by lia.
    assert (52 <= Z.log2 m) by (apply Z.log2_le_pow2; lia).
    assert (Z.log2 m < 54) by (apply Z.log2_lt_pow2; lia). lia. }
  destruct (aux_spec false m e (new_location my (n mod my)) n my) as (Hq & Fz & Vz & Sz);
    [lia|subst n; lia|lia|apply new_location_rep; subst n; lia|lia|subst e; lia..|].
  set (f := Zdigits2 m + e - 53) in *. set (q := rne _ _) in *.
  rewrite <- Hz in Fz, Vz, Sz. cbn [cond_Zopp] in Sz.
  assert (Hfe : 0 <= f - e) by (subst f; lia).
  pose proof (pow2_pos (f + 1074) ltac:(subst f e; lia)) as Hf.
  split_and!; [done|done|rewrite Sz; nia|].
  pose proof (pow2_pos (f - e) Hfe) as HD.
  pose proof (rne_error n (my * 2 ^ (f - e)) ltac:(subst n; lia) ltac:(nia)) as Herr. fold q in Herr.
  set (D := 2 ^ (f - e)) in *. set (E := 2 ^ (e + ey + 2148)).
  assert (HE : 0 < E) by (apply pow2_pos; subst e; lia).
  assert (H1 : sval z * sval (S754_finite false (Z.to_pos my) ey) = q * (my * D) * E).
  { rewrite Sz, Sy. unfold D, E.
    transitivity (q * my * (2 ^ (f + 1074) * 2 ^ (ey + 1074))); [ring|].
    rewrite <- Z.pow_add_r by (subst f e; lia).
    transitivity (q * my * (2 ^ (f - e) * 2 ^ (e + ey + 2148))); [|ring].
    rewrite <- Z.pow_add_r by (subst f e; lia). do 2 f_equal. lia. }
  assert (H2 : sval (S754_finite false (Z.to_pos mx) ex) * K = n * E).
  { rewrite Sx. unfold n, E, K. rewrite <- !Z.mul_assoc, <- !Z.pow_add_r by (subst e; lia).
    do 2 f_equal. subst e. lia. }
  rewrite H1, H2, <- Z.mul_sub_distr_r, Z.abs_mul, (Z.abs_eq E) by lia.
  assert (Z.abs (q * (my * D) - n) * 2 ^ 53 <= q * (my * D)) by nia.
  nia.
Qed.

(** ** Integers and normal form *)

(** Powers of two with literal exponents stay folded. *)
Lemma pow_bounds m e : 2 ^ 52 <= m < 2 ^ 53 \/ 1 <= m < 2 ^ 53 -> -1074 <= e ->
  2 ^ 974 <= m * 2 ^ (e + 1074) -> m * 2 ^ (e + 1074) <= 2 ^ 1174 -> -160 <= e <= 100.
Proof.
  intros Hm He Hlo Hhi. assert (1 <= m < 2 ^ 53) by lia.
  pose proof (pow2_pos (e + 1074) ltac:(lia)). split.
  - destruct (Z.le_gt_cases (-160) e) as [|Hlt]; [done|exfalso].
    assert (2 ^ (e + 1074) <= 2 ^ 913) by (apply Z.pow_le_mono_r; lia).
    assert (2 ^ 53 * 2 ^ 913 < 2 ^ 974) by (rewrite <- Z.pow_add_r by lia; apply Z.pow_lt_mono_r; lia).
    nia.
  - destruct (Z.le_gt_cases e 100) as [|Hgt]; [done|exfalso].
    assert (2 ^ 1175 <= 2 ^ (e + 1074)) by (apply Z.pow_le_mono_r; lia).
    assert (2 ^ 1174 < 2 ^ 1175) by (apply Z.pow_lt_mono_r; lia). nia.
Qed.

Lemma normal_of x : valid x = true -> is_finite x = true -> 2 ^ 974 <= sval x <= 2 ^ 1174 ->
  exists m e, normal x m e /\ -160 <= e <= 100.
Proof.
  intros V F [Hlo Hhi]. assert (0 < 2 ^ 974) by (by apply Z.pow_pos_nonneg).
  destruct x as [| | |s m e]; try done; cbn [sval] in Hlo, Hhi; try lia.
  apply valid_finite in V as (He & Hd & Hc). pose proof (sval_pos m e ltac:(lia)) as Hp.
  destruct s; cbn [cond_Zopp] in Hlo, Hhi; [lia|].
  assert (-160 <= e <= 100) by (apply (pow_bounds (Zpos m) e); try lia; right; lia).
  exists (Zpos m), e. split; [|done]. split; [done|]. lia.
Qed.

Lemma float_of_Z_exact n : 1 <= n < 2 ^ 53 ->
  is_finite (float_of_Z n) = true /\ valid (float_of_Z n) = true /\ sval (float_of_Z n) = n * K.
Proof.
  intros Hn. unfold float_of_Z. pose proof (normalize_spec n 0 ltac:(lia)) as H. cbv zeta in H.
  change (0 + 1074) with 1074 in H. fold K in H. pose proof K_pos as HK.
  rewrite rnd_nonneg in H by nia. unfold K in H. rewrite rnd_pos_exact in H by lia. fold K in H.
  rewrite Z.abs_eq in H by nia.
  destruct (Z.ltb_spec (n * K) (2 ^ 2098)) as [|Hov]; [done|exfalso].
  assert (2 ^ 53 * K < 2 ^ 2098) by (unfold K; rewrite <- Z.pow_add_r by lia; apply Z.pow_lt_mono_r; lia).
  nia.
Qed.

Lemma K_scale a b : 0 <= a -> 0 <= b -> a + b = 1074 -> K = 2 ^ a * 2 ^ b.
Proof. intros. unfold K. rewrite <- Z.pow_add_r by lia. f_equal. lia. Qed.

Lemma normal_int n : 1 <= n < 2 ^ 53 -> exists m e, normal (float_of_Z n) m e /\ -160 <= e <= 100.
Proof.
  intros Hn. destruct (float_of_Z_exact n Hn) as (F & V & S). apply normal_of; [done..|]. rewrite S.
  assert (2 ^ 974 <= K) by (unfold K; apply Z.pow_le_mono_r; lia).
  assert (2 ^ 53 * K <= 2 ^ 1174) by (unfold K; rewrite <- Z.pow_add_r by lia; apply Z.pow_le_mono_r; lia).
  pose proof K_pos. nia.
Qed.

(** Rounding to an integer what is within half a unit of it. *)
Lemma rne_near m d n : 0 <= m -> 0 < d -> Z.abs (2 * (m - n * d)) < d -> rne m d = n.
Proof.
  intros Hm Hd Hn. pose proof (Z.div_mod m d ltac:(lia)) as E. pose proof (Z.mod_pos_bound m d Hd) as Hb.
  assert (m / d = n \/ m / d = n - 1) as [Hq|Hq] by nia; unfold rne; rewrite Hq in *.
  - assert ((2 * (m mod d) ?= d) = Lt) as -> by (apply Z.compare_lt_iff; nia). done.
  - assert ((2 * (m mod d) ?= d) = Gt) as -> by (apply Z.compare_gt_iff; nia). lia.
Qed.

Lemma py_round_near z n : valid z = true -> is_finite z = true -> 0 < sval z ->
  Z.abs (2 * (sval z - n * K)) < K -> py_round z = Some n.
Proof.
  intros V F Hp Hn. destruct z as [| | |s m e]; try done; cbn [sval] in *; try lia.
  apply valid_finite in V as (He & _). pose proof (sval_pos m e ltac:(lia)) as Hs.
  destruct s; cbn [cond_Zopp] in *; [lia|]. unfold py_round. f_equal.
  destruct (Z.leb_spec 0 e) as [Hge|Hlt].
  - rewrite Z.pow_add_r in Hn by lia. fold K in Hn. pose proof K_pos. pose proof (pow2_pos e Hge). nia.
  - pose proof (pow2_pos (e + 1074) ltac:(lia)) as H1. pose proof (pow2_pos (- e) ltac:(lia)) as H2.
    apply rne_near; [lia|done|]. rewrite (K_scale (- e) (e + 1074)) in Hn by lia. nia.
Qed.

(** [round((n / c) * c) = n]. *)
Lemma div_mul_round n c : 1 <= n <= 2 ^ 50 -> 1 <= c <= 2 ^ 50 ->
  py_round (fmul (fdiv (float_of_Z n) (float_of_Z c)) (float_of_Z c)) = Some n.
Proof.
  intros Hn Hc.
  destruct (float_of_Z_exact n ltac:(lia)) as (Fn & Vn & Sn), (float_of_Z_exact c ltac:(lia)) as (Fc & Vc & Sc).
  destruct (normal_int n ltac:(lia)) as (mn & en & Nn & Hen), (normal_int c ltac:(lia)) as (mc & ec & Nc & Hec).
  destruct (fdiv_rel _ _ _ _ _ _ Nn Nc ltac:(lia)) as (Fy & Vy & Py & Ey).
  set (y := fdiv (float_of_Z n) (float_of_Z c)) in *. pose proof K_pos as HK.
  rewrite Sn, Sc in Ey. replace (sval y * (c * K) - n * K * K) with ((sval y * c - n * K) * K) in Ey by ring.
  rewrite Z.abs_mul, (Z.abs_eq K) in Ey by lia.
  assert (E1 : Z.abs (sval y * c - n * K) * 2 ^ 53 <= sval y * c) by nia. clear Ey.
  assert (Hy : 2 ^ 974 <= sval y <= 2 ^ 1174).
  { assert (HK100 : K = 2 ^ 100 * 2 ^ 974) by (apply K_scale; lia).
    assert (H1174 : 2 ^ 1174 = 2 ^ 100 * K) by (unfold K; rewrite <- Z.pow_add_r by lia; done).
    assert (H974 : 0 < 2 ^ 974) by (by apply Z.pow_pos_nonneg). rewrite H1174. clear H1174.
    set (P := 2 ^ 974) in *. assert (n * K * 2 ^ 53 <= sval y * c * (2 ^ 53 + 1)) by lia.
    assert (sval y * c * (2 ^ 53 - 1) <= n * K * 2 ^ 53) by lia. split; nia. }
  destruct (normal_of y Vy Fy Hy) as (my & ey & Ny & Hey).
  destruct (fmul_rel _ _ _ _ _ _ Ny Nc ltac:(lia)) as (Fz & Vz & Pz & Ez).
  set (z := fmul y (float_of_Z c)) in *. rewrite Sc in Ez.
  replace (sval z * K - sval y * (c * K)) with ((sval z - sval y * c) * K) in Ez by ring.
  rewrite Z.abs_mul, (Z.abs_eq K) in Ez by lia.
  assert (E2 : Z.abs (sval z - sval y * c) * 2 ^ 53 <= sval z) by nia. clear Ez.
  apply py_round_near; [done..|]. assert (n * K <= 2 ^ 50 * K) by nia. lia.
Qed.

(** [round((n * c) / c) = n]. *)
Lemma mul_div_round n c : 1 <= n <= 2 ^ 50 -> 1 <= c <= 2 ^ 40 ->
  py_round (fdiv (fmul (float_of_Z n) (float_of_Z c)) (float_of_Z c)) = Some n.
Proof.
  intros Hn Hc.
  destruct (float_of_Z_exact n ltac:(lia)) as (Fn & Vn & Sn), (float_of_Z_exact c ltac:(lia)) as (Fc & Vc & Sc).
  destruct (normal_int n ltac:(lia)) as (mn & en & Nn & Hen), (normal_int c ltac:(lia)) as (mc & ec & Nc & Hec).
  destruct (fmul_rel _ _ _ _ _ _ Nn Nc ltac:(lia)) as (Fy & Vy & Py & Ey).
  set (y := fmul (float_of_Z n) (float_of_Z c)) in *. pose proof K_pos as HK.
  rewrite Sn, Sc in Ey. replace (sval y * K - n * K * (c * K)) with ((sval y - n * c * K) * K) in Ey by ring.
  rewrite Z.abs_mul, (Z.abs_eq K) in Ey by lia.
  assert (E1 : Z.abs (sval y - n * c * K) * 2 ^ 53 <= sval y) by nia. clear Ey.
  assert (Hnc : 1 <= n * c <= 2 ^ 90) by nia.
  assert (Hy : 2 ^ 974 <= sval y <= 2 ^ 1174).
  { assert (HK100 : K = 2 ^ 100 * 2 ^ 974) by (apply K_scale; lia).
    assert (H1174 : 2 ^ 1174 = 2 ^ 100 * K) by (unfold K; rewrite <- Z.pow_add_r by lia; done).
    assert (H974 : 0 < 2 ^ 974) by (by apply Z.pow_pos_nonneg). rewrite H1174. clear H1174.
    assert (n * c * K <= 2 ^ 90 * K) by nia. assert (K <= n * c * K) by nia.
    set (P := 2 ^ 974) in *. split; lia. }
  destruct (normal_of y Vy Fy Hy) as (my & ey & Ny & Hey).
  destruct (fdiv_rel _ _ _ _ _ _ Ny Nc ltac:(lia)) as (Fz & Vz & Pz & Ez).
  set (z := fdiv y (float_of_Z c)) in *. rewrite Sc in Ez.
  replace (sval z * (c * K) - sval y * K) with ((sval z * c - sval y) * K) in Ez by ring.
  rewrite Z.abs_mul, (Z.abs_eq K) in Ez by lia.
  assert (E2 : Z.abs (sval z * c - sval y) * 2 ^ 53 <= sval z * c) by nia. clear Ez.
  apply py_round_near; [done..|]. clear -E1 E2 Hn Hc HK Hnc.
  assert (HcK : 0 < c * K) by (apply Z.mul_pos_pos; lia).
  assert (n * c * K <= 2 ^ 50 * (c * K)).
  { rewrite <- Z.mul_assoc. apply Z.mul_le_mono_nonneg_r; lia. }
  assert (Z.abs (2 * (sval z * c - n * c * K)) < c * K) by lia.
  replace (sval z * c - n * c * K) with ((sval z - n * K) * c) in * by ring.
  rewrite Z.mul_assoc, Z.abs_mul, (Z.abs_eq c) in * by lia. nia.
Qed.

(** ** Results stay finite *)

Lemma rep_of_loc m loc : 0 <= m -> exists n d, 0 <= n /\ 0 < d /\ rep (shr_record_of_loc m loc) n d.
Proof.
  intros Hm.
  assert (Hgen : forall d r l, 0 < d -> 0 <= r < d -> locof r d = l ->
    l = loc -> exists n d, 0 <= n /\ 0 < d /\ rep (shr_record_of_loc m loc) n d).
  { intros d r l Hd Hr Hl <-. exists (m * d + r), d. split_and!; [nia|done|]. unfold rep.
    rewrite Z.div_add_l, Z.div_small, Z.add_0_r by lia.
    rewrite Z.add_comm, Z.mod_add, Z.mod_small by lia. rewrite Hl. by destruct l as [|[]]. }
  destruct loc as [|[]].
  - by apply (Hgen 1 0 loc_Exact); try lia.
  - by apply (Hgen 2 1 (loc_Inexact Eq)); try lia.
  - by apply (Hgen 4 1 (loc_Inexact Lt)); try lia.
  - by apply (Hgen 4 3 (loc_Inexact Gt)); try lia.
Qed.

Lemma digits_le m k : 0 <= m < 2 ^ k -> 0 <= k -> Zdigits2 m <= k.
Proof.
  intros Hm Hk. destruct (Z.eq_dec m 0) as [->|]; [done|].
  rewrite Zdigits2_pos by lia. assert (Z.log2 m < k) by (apply Z.log2_lt_pow2; lia). lia.
Qed.

(** The end of [binary_round_aux] on a mantissa of at most [2^53]. *)
Lemma finish_finite s q e : 0 <= q <= 2 ^ 53 -> e <= 970 -> is_finite (finish s q e) = true.
Proof.
  intros Hq He. unfold finish, shr_fexp. rewrite fexp_max.
  assert (Hd : Zdigits2 q <= 54) by (apply digits_le; lia).
  set (k := Z.max _ _ - e).
  destruct k as [|p|p] eqn:Ek.
  - cbn. destruct q; try done; [|lia]. by rewrite (proj2 (Z.leb_le e (1024 - 53))) by lia.
  - destruct (shr_rep q e (Zpos p)) as (rec & -> & Hrep); [lia..|]. destruct Hrep as [Hm _]. rewrite Hm.
    assert (Hle : e + Zpos p <= 1024 - 53) by (subst k; lia).
    pose proof (Z.div_pos q (2 ^ Zpos p) ltac:(lia) (pow2_pos (Zpos p) ltac:(lia))).
    destruct (q / 2 ^ Zpos p); try done; try lia. by rewrite (proj2 (Z.leb_le _ _) Hle).
  - cbn. destruct q; try done; [|lia]. by rewrite (proj2 (Z.leb_le e (1024 - 53))) by lia.
Qed.

Lemma aux_finite s m e loc : 0 <= m -> Zdigits2 m + e <= 1020 -> e <= 970 ->
  is_finite (binary_round_aux 53 1024 s m e loc) = true.
Proof.
  intros Hm Hd He. destruct (rep_of_loc m loc Hm) as (n & d & Hn & Hd' & Hrep).
  unfold binary_round_aux, shr_fexp at 1. rewrite fexp_max.
  assert (Hmlt : m < 2 ^ Zdigits2 m).
  { destruct (Z.eq_dec m 0) as [->|]; [done|]. apply digits_bounds. lia. }
  assert (Hnd : n / d = m) by (destruct Hrep as [H1 _]; rewrite <- H1; by destruct loc as [|[]]).
  assert (Hd0 : 0 <= Zdigits2 m) by (destruct m; cbn; lia).
  set (k := Z.max _ _ - e). destruct k as [|p|p] eqn:Ek; cbn [shr].
  - change (is_finite (finish s (round_nearest_even (shr_m (shr_record_of_loc m loc))
      (loc_of_shr_record (shr_record_of_loc m loc))) e) = true).
    rewrite (round_rep _ _ _ Hrep) by done. apply finish_finite; [|done].
    pose proof (rne_bounds n d Hn Hd') as Hb. rewrite Hnd in Hb.
    assert (2 ^ Zdigits2 m <= 2 ^ 53) by (apply Z.pow_le_mono_r; subst k; lia). lia.
  - pose proof (rep_iter p _ n d Hn Hd' Hrep) as Hr.
    change (is_finite (finish s (round_nearest_even (shr_m (iter_pos shr_1 p (shr_record_of_loc m loc)))
      (loc_of_shr_record (iter_pos shr_1 p (shr_record_of_loc m loc)))) (e + Zpos p)) = true).
    pose proof (pow2_pos (Zpos p) ltac:(lia)) as Hp.
    rewrite (round_rep _ _ _ Hr) by nia. apply finish_finite; [|subst k; lia].
    pose proof (rne_bounds n (2 ^ Zpos p * d) Hn ltac:(nia)) as Hb.
    rewrite (Z.mul_comm (2 ^ Zpos p)), <- Z.div_div, Hnd in Hb by lia.
    rewrite (Z.mul_comm d) in Hb.
    assert (m / 2 ^ Zpos p < 2 ^ 53).
    { apply Z.div_lt_upper_bound; [done|]. rewrite <- Z.pow_add_r by lia.
      eapply Z.lt_le_trans; [exact Hmlt|]. apply Z.pow_le_mono_r; subst k; lia. }
    pose proof (Z.div_pos m (2 ^ Zpos p) Hm Hp). lia.
  - change (is_finite (finish s (round_nearest_even (shr_m (shr_record_of_loc m loc))
      (loc_of_shr_record (shr_record_of_loc m loc))) e) = true).
    rewrite (round_rep _ _ _ Hrep) by done. apply finish_finite; [|done].
    pose proof (rne_bounds n d Hn Hd') as Hb. rewrite Hnd in Hb.
    assert (2 ^ Zdigits2 m <= 2 ^ 53) by (apply Z.pow_le_mono_r; subst k; lia). lia.
Qed.

(** A full mantissa rounds to a valid float, subnormal results included. *)
Lemma aux_valid s m e loc : 0 < m -> 53 <= Zdigits2 m -> Zdigits2 m + e <= 1000 ->
  is_finite (binary_round_aux 53 1024 s m e loc) = true /\
  valid (binary_round_aux 53 1024 s m e loc) = true.
Proof.
  intros Hm Hd He. destruct (rep_of_loc m loc ltac:(lia)) as (n & d & Hn & Hd' & Hrep).
  destruct (Z.lt_ge_cases (-1074) (Zdigits2 m + e - 53)) as [Hlo|Hsub].
  { destruct (aux_spec s m e loc n d Hm Hn Hd' Hrep Hd Hlo He) as (_ & F & V & _). done. }
  assert (Hnd : n / d = m) by (destruct Hrep as [H1 _]; rewrite <- H1; by destruct loc as [|[]]).
  pose proof (pow2_pos (-1074 - e) ltac:(lia)) as Hp.
  assert (Hsh : exists rec, shr (shr_record_of_loc m loc) e (-1074 - e) = (rec, -1074) /\
    rep rec n (d * 2 ^ (-1074 - e))).
  { destruct (-1074 - e) as [|p|p] eqn:E; [| |lia].
    - eexists. rewrite Z.mul_1_r. split; [|done]. cbn. f_equal. lia.
    - eexists. split; [cbn; f_equal; lia|]. rewrite Z.mul_comm. by apply rep_iter. }
  set (q := rne n (d * 2 ^ (-1074 - e))).
  assert (binary_round_aux 53 1024 s m e loc = finish s q (-1074)) as ->.
  { destruct Hsh as (rec & Hsh & Hrec). unfold binary_round_aux, shr_fexp at 1.
    rewrite fexp_max, Z.max_r, Hsh, (round_rep _ _ _ Hrec) by nia. done. }
  assert (Hq : 0 <= q <= 2 ^ 53).
  { pose proof (rne_bounds n (d * 2 ^ (-1074 - e)) Hn ltac:(nia)) as Hb. fold q in Hb.
    rewrite <- Z.div_div, Hnd in Hb by lia. pose proof (Z.div_pos m _ ltac:(lia) Hp).
    assert (m / 2 ^ (-1074 - e) < 2 ^ 53); [|lia].
    apply Z.div_lt_upper_bound; [done|]. rewrite <- Z.pow_add_r by lia.
    eapply Z.lt_le_trans; [apply digits_bounds; done|]. apply Z.pow_le_mono_r; lia. }
  pose proof (finish_spec s q (-1074) Hq ltac:(lia) ltac:(by left)) as Hf. unfold rounds_to in Hf.
  destruct (Z.ltb_spec (q * 2 ^ (-1074 + 1074)) (2 ^ 2098)) as [|Hov]; [tauto|exfalso].
  assert (2 ^ 53 < 2 ^ 2098) by (apply Z.pow_lt_mono_r; lia).
  change (2 ^ (-1074 + 1074)) with 1 in Hov. lia.
Qed.

(** A factor of at most 100 keeps a normal product finite. *)
Lemma fmul_finite x mx ex p :
  normal x mx ex -> -160 <= ex <= 100 -> is_finite p = true -> valid p = true ->
  0 <= sval p <= 100 * K -> is_finite (fmul x p) = true /\ valid (fmul x p) = true.
Proof.
  intros (-> & Hmx & _) Hex Fp Vp Hs. destruct p as [| | |s m e]; try done.
  apply valid_finite in Vp as (He & Hm & _). pose proof (sval_pos m e ltac:(lia)) as Hp.
  cbn [sval] in Hs. destruct s; cbn [cond_Zopp] in Hs; [lia|].
  unfold fmul. cbn [SFmul]. rewrite Pos2Z.inj_mul, Z2Pos.id by lia.
  assert (Hdig : Zdigits2 (mx * Zpos m) <= 106) by (apply digits_le; nia).
  assert (Hdig' : 53 <= Zdigits2 (mx * Zpos m)).
  { rewrite Zdigits2_pos by nia. assert (52 <= Z.log2 (mx * Zpos m)); [|lia].
    apply Z.log2_le_pow2; nia. }
  assert (He7 : e <= 7).
  { destruct (Z.le_gt_cases e 7) as [|Hgt]; [done|exfalso].
    assert (2 ^ (8 + 1074) <= 2 ^ (e + 1074)) by (apply Z.pow_le_mono_r; lia).
    rewrite (Z.pow_add_r 2 8 1074) in * by lia. fold K in *. pose proof K_pos. nia. }
  apply aux_valid; [nia|lia|lia].
Qed.

Lemma fdiv_100_finite x : is_finite x = true -> valid x = true -> is_finite (fdiv x f100) = true.
Proof.
  intros F V. destruct x as [s| | |s m e]; try done.
  apply valid_finite in V as (He & Hm & _). unfold fdiv, f100. cbn [SFdiv].
  unfold SFdiv_core_binary. set (m2 := 7036874417766400%positive) in *.
  change (Zdigits2 (Zpos m2)) with 53.
  assert (Hm2 : 2 ^ 52 <= Zpos m2) by (subst m2; lia).
  set (d1 := Zdigits2 (Zpos m)). assert (Hd1 : 0 <= d1 <= 53).
  { subst d1. split; [cbn; lia|]. apply digits_le; lia. }
  change (fexp 53 1024 (d1 + e - (53 + -46))) with (Z.max (d1 + e - (53 + -46) - 53) (-1074)).
  set (e' := Z.min _ _). set (s' := e - -46 - e').
  assert (Hs' : 0 <= s') by (subst s' e'; lia).
  set (m' := match s' with Zpos _ => _ | Z0 => _ | Zneg _ => _ end).
  assert (Hm' : m' = Zpos m * 2 ^ s').
  { subst m'. destruct s' as [|p|p]; [lia|by rewrite Z.shiftl_mul_pow2 by lia|lia]. }
  pose proof (Z.div_eucl_eq m' (Zpos m2) ltac:(lia)) as _.
  assert (Hq : Z.div_eucl m' (Zpos m2) = (m' / Zpos m2, m' mod Zpos m2))
    by (unfold Z.div, Z.modulo; by destruct (Z.div_eucl m' (Zpos m2))).
  rewrite Hq. pose proof (pow2_pos s' Hs') as Hp. apply aux_finite.
  - apply Z.div_pos; nia.
  - assert (Hlt : m' < 2 ^ (d1 + s')).
    { rewrite Hm', Z.pow_add_r by lia. assert (Zpos m < 2 ^ d1) by (apply digits_bounds; lia). nia. }
    destruct (Z.le_gt_cases 52 (d1 + s')) as [Hge|Hsmall].
    + assert (Zdigits2 (m' / Zpos m2) <= d1 + s' - 52); [|subst s' e'; lia].
      apply digits_le; [|lia]. split; [apply Z.div_pos; nia|].
      apply Z.div_lt_upper_bound; [lia|]. replace (d1 + s') with (52 + (d1 + s' - 52)) in Hlt by lia.
      rewrite Z.pow_add_r in Hlt by lia. pose proof (pow2_pos (d1 + s' - 52) ltac:(lia)). nia.
    + assert (2 ^ (d1 + s') <= 2 ^ 52) by (apply Z.pow_le_mono_r; lia).
      rewrite Z.div_small by nia. cbn. subst e'. lia.
  - subst e'. lia.
Qed.
