(* ===== verification/Decimal.v ===== *)
(** * Amounts with a fixed number of decimals

    The ledgers keep amounts as [round(x, k)]: slashes, reversals and bonds with eight
    decimals, metered usage with six.  [dec k n] is the float nearest to [n] units of
    [10^-k]; up to [2^50] units the units add, subtract and compare exactly, whatever the
    floats round. *)
From S2P Require Import Prelude PyFloat FloatFacts FloatMul.
Open Scope Z_scope.

(** The numbers of decimals in use. *)
Class Places (k : Z) : Prop := places : 1 <= k <= 8.
#[export] Instance places6 : Places 6.
Proof. split; lia. Qed.
#[export] Instance places8 : Places 8.
Proof. split; lia. Qed.

Definition scale (k : Z) : Z := 10 ^ k.
Definition dec (k n : Z) : float :=
  match n with Zpos p => float_of_ratio false p (Z.to_pos (10 ^ k)) | _ => fzero end.

Section Units.
Context (k : Z) {Hk : Places k}.
Local Abbreviation U := (scale k).
Local Abbreviation dc := (dec k).
Local Abbreviation rnd_at := (py_round_to k).

Lemma scale_bounds : 10 <= U <= 100000000.
Proof.
  destruct Hk. unfold scale. change 100000000 with (10 ^ 8). change 10 with (10 ^ 1) at 1.
  split; apply Z.pow_le_mono_r; lia.
Qed.

(** ** The value of [dc n] *)

Lemma dec_rel n : 1 <= n <= 2 ^ 52 ->
  is_finite (dc n) = true /\ valid (dc n) = true /\ 0 < sval (dc n) /\
  Z.abs (sval (dc n) * U - n * K) * 2 ^ 53 <= sval (dc n) * U.
Proof.
  intros Hn. destruct n as [|p|p]; [lia| |lia]. cbn [dec].
  set (n := Zpos p) in *. set (d := Zdigits2 n).
  assert (Hd : 1 <= d <= 53).
  { unfold d. rewrite Zdigits2_pos by lia. pose proof (Z.log2_nonneg n).
    assert (Z.log2 n < 53) by (apply Z.log2_lt_pow2; lia). lia. }
  pose proof (digits_bounds n ltac:(lia)) as Hb. fold d in Hb.
  pose proof scale_bounds as HU. set (du := Zdigits2 U).
  assert (Hdu : 1 <= du <= 27).
  { unfold du. rewrite Zdigits2_pos by lia. pose proof (Z.log2_nonneg U).
    assert (Z.log2 U < 27) by (apply Z.log2_lt_pow2; lia). lia. }
  pose proof (digits_bounds U ltac:(lia)) as HUb. fold du in HUb.
  set (e := d - du - 53). set (nn := n * 2 ^ (- e)). set (m := nn / U).
  assert (Hz : float_of_ratio false p (Z.to_pos (10 ^ k)) =
    binary_round_aux 53 1024 false m e (new_location U (nn mod U))).
  { unfold float_of_ratio, SFdiv_core_binary. fold n. fold d. fold U.
    rewrite Z2Pos.id by lia. fold du. rewrite !Z.add_0_r.
    change (fexp 53 1024 (d - du)) with (Z.max (d - du - 53) (-1074)).
    replace (Z.min _ _) with e by (subst e; lia). replace (0 - 0 - e) with (- e) by lia.
    rewrite Z.shiftl_mul_pow2 by (subst e; lia). fold nn.
    replace (match - e with 0 => n | Zpos _ => nn | Zneg _ => 0 end) with nn
      by (destruct (- e) eqn:E; subst e; lia).
    unfold m, Z.div, Z.modulo. by destruct (Z.div_eucl nn U). }
  assert (Hpe : nn = n * (2 ^ du * 2 ^ (53 - d))).
  { unfold nn. rewrite <- Z.pow_add_r by lia. do 2 f_equal. subst e. lia. }
  assert (Hs : 2 ^ du * 2 ^ 52 <= nn < 2 ^ du * 2 ^ 53).
  { rewrite Hpe. rewrite Z.mul_assoc, (Z.mul_comm n), <- Z.mul_assoc. pose proof (pow2_pos du ltac:(lia)).
    assert (2 ^ 52 = 2 ^ (d - 1) * 2 ^ (53 - d)) by (rewrite <- Z.pow_add_r by lia; f_equal; lia).
    assert (2 ^ 53 = 2 ^ d * 2 ^ (53 - d)) by (rewrite <- Z.pow_add_r by lia; f_equal; lia).
    pose proof (pow2_pos (53 - d) ltac:(lia)).
    split; [apply Z.mul_le_mono_nonneg_l|apply Z.mul_lt_mono_pos_l]; nia. }
  assert (Hnn : 0 <= nn) by (pose proof (pow2_pos du ltac:(lia)); lia).
  assert (Hm : 2 ^ 52 <= m < 2 ^ 54).
  { subst m. assert (2 ^ du = 2 * 2 ^ (du - 1)) by (rewrite <- Z.pow_succ_r by lia; f_equal; lia).
    split; [apply Z.div_le_lower_bound|apply Z.div_lt_upper_bound]; nia. }
  assert (Hdig : 53 <= Zdigits2 m <= 54).
  { rewrite Zdigits2_pos by lia.
    assert (52 <= Z.log2 m) by (apply Z.log2_le_pow2; lia).
    assert (Z.log2 m < 54) by (apply Z.log2_lt_pow2; lia). lia. }
  destruct (aux_spec false m e (new_location U (nn mod U)) nn U) as (Hq & Fz & Vz & Sz);
    [lia|done|lia|apply new_location_rep; [lia|done]|lia|subst e; lia..|].
  set (f := Zdigits2 m + e - 53) in *. set (q := rne _ _) in *.
  rewrite Hz. cbn [cond_Zopp] in Sz. split_and!; [done|done| |].
  { rewrite Sz. pose proof (pow2_pos (f + 1074) ltac:(subst f e; lia)). nia. }
  set (z := binary_round_aux _ _ _ _ _ _) in *.
  assert (Hfe : 0 <= f - e) by (subst f; lia). pose proof (pow2_pos (f - e) Hfe) as HD.
  pose proof (rne_error nn (U * 2 ^ (f - e)) Hnn ltac:(nia)) as Herr. fold q in Herr.
  set (D := 2 ^ (f - e)) in *. set (E := 2 ^ (e + 1074)).
  assert (HE : 0 < E) by (apply pow2_pos; subst e; lia).
  assert (H1 : sval z * U = q * (U * D) * E).
  { rewrite Sz. unfold D, E. replace (2 ^ (f + 1074)) with (2 ^ (f - e) * 2 ^ (e + 1074)); [ring|].
    rewrite <- Z.pow_add_r by (subst e; lia). f_equal. lia. }
  assert (H2 : n * K = nn * E).
  { unfold nn, E. rewrite (K_scale (- e) (e + 1074)) by (subst e; lia). ring. }
  rewrite H1, H2, <- Z.mul_sub_distr_r, Z.abs_mul, (Z.abs_eq E) by lia.
  assert (0 <= U * D) by nia. set (W := U * D) in *.
  assert (Z.abs (q * W - nn) * 2 ^ 53 <= q * W) by nia.
  nia.
Qed.

(** In units of [K]: the error is at most a seventh of a unit of [1e-8]. *)
Lemma dec_near n : 0 <= n <= 2 ^ 50 ->
  is_finite (dc n) = true /\ valid (dc n) = true /\ 0 <= sval (dc n) /\
  7 * Z.abs (sval (dc n) * U - n * K) <= K.
Proof.
  intros Hn. pose proof K_pos as HK. destruct (decide (n = 0)) as [->|Hne].
  { cbn [dec fzero is_finite valid valid_binary sval]. split_and!; [done..|lia]. }
  destruct (dec_rel n ltac:(lia)) as (F & V & P & E). split_and!; [done|done|lia|].
  assert (n * K <= 2 ^ 50 * K) by nia. lia.
Qed.

(** Rounding what is within half a unit. *)
Lemma round_near x n : valid x = true -> is_finite x = true -> 0 <= n -> 0 < sval x ->
  2 * Z.abs (sval x * U - n * K) < K -> rnd_at x = dc n.
Proof.
  intros V F Hn Hp Hx. destruct x as [| | |s m e]; try done; cbn [sval] in *; try lia.
  apply valid_finite in V as (He & _). pose proof (sval_pos m e ltac:(lia)) as Hs.
  destruct s; cbn [cond_Zopp] in *; [lia|]. unfold py_round_to. change (10 ^ k) with U.
  pose proof scale_bounds as HU.
  assert (Hr : (if 0 <=? e then Zpos m * U * 2 ^ e else rne (Zpos m * U) (2 ^ (- e))) = n).
  { destruct (Z.leb_spec 0 e) as [Hge|Hlt].
    - rewrite Z.pow_add_r in Hx by lia. fold K in Hx. pose proof K_pos. pose proof (pow2_pos e Hge).
      replace (Zpos m * (2 ^ e * K) * U - n * K) with ((Zpos m * U * 2 ^ e - n) * K) in Hx by ring.
      rewrite Z.abs_mul, (Z.abs_eq K) in Hx by lia. nia.
    - pose proof (pow2_pos (e + 1074) ltac:(lia)) as H1. pose proof (pow2_pos (- e) ltac:(lia)) as H2.
      apply rne_near; [lia|done|]. rewrite (K_scale (- e) (e + 1074)) in Hx by lia.
      replace (Zpos m * 2 ^ (e + 1074) * U - n * (2 ^ (- e) * 2 ^ (e + 1074)))
        with ((Zpos m * U - n * 2 ^ (- e)) * 2 ^ (e + 1074)) in Hx by ring.
      rewrite Z.abs_mul, (Z.abs_eq (2 ^ (e + 1074))) in Hx by lia. rewrite Z.abs_mul. nia. }
  rewrite Hr. by destruct n.
Qed.

Lemma rnd_rel x : 0 <= x -> 0 <= rnd x /\ Z.abs (rnd x - x) * 2 ^ 53 <= x.
Proof.
  intros Hx. rewrite rnd_nonneg by done. split; [by apply rnd_pos_nonneg|]. unfold rnd_pos.
  set (r := rexp x). assert (Hr : 0 <= r) by apply rexp_nonneg. pose proof (pow2_pos r Hr) as Hp.
  pose proof (rne_error x (2 ^ r) Hx Hp) as He.
  destruct (decide (r = 0)) as [E|E]; [rewrite E in *; change (2 ^ 0) with 1 in *; lia|].
  assert (0 < x) as Hx' by (destruct (decide (x = 0)) as [->|]; [by subst r|lia]).
  pose proof (digits_bounds x Hx') as [Hb _].
  replace (Zdigits2 x - 1) with (52 + r) in Hb by (subst r; unfold rexp in *; lia).
  rewrite Z.pow_add_r in Hb by lia. lia.
Qed.

(** ** Arithmetic in units *)

Lemma dec_lt a b : 0 <= a -> a < b -> b <= 2 ^ 50 -> sval (dc a) < sval (dc b).
Proof.
  intros Ha Hab Hb. destruct (dec_near a ltac:(lia)) as (_ & _ & _ & Ea), (dec_near b ltac:(lia)) as (_ & _ & _ & Eb).
  pose proof K_pos. assert (a * K + K <= b * K) by nia.
  pose proof scale_bounds. apply (Z.mul_lt_mono_pos_r U); lia.
Qed.

Lemma dec_leb a b : 0 <= a <= 2 ^ 50 -> 0 <= b <= 2 ^ 50 -> fleb (dc a) (dc b) = (a <=? b).
Proof.
  intros Ha Hb. destruct (dec_near a Ha) as (Fa & Va & _), (dec_near b Hb) as (Fb & Vb & _).
  rewrite fleb_sval by done. destruct (Z.leb_spec a b) as [Hle|Hlt].
  - apply Z.leb_le. destruct (decide (a = b)) as [->|]; [lia|]. pose proof (dec_lt a b). lia.
  - apply Z.leb_gt. apply dec_lt; lia.
Qed.

Lemma dec_ltb a b : 0 <= a <= 2 ^ 50 -> 0 <= b <= 2 ^ 50 -> fltb (dc a) (dc b) = (a <? b).
Proof.
  intros Ha Hb. destruct (dec_near a Ha) as (Fa & Va & _), (dec_near b Hb) as (Fb & Vb & _).
  rewrite fltb_sval by done. destruct (Z.ltb_spec a b) as [Hlt|Hle].
  - apply Z.ltb_lt. apply dec_lt; lia.
  - apply Z.ltb_ge. destruct (decide (a = b)) as [->|]; [lia|]. pose proof (dec_lt b a). lia.
Qed.

(** The sum of two amounts near [n] units is near [n] units. *)
Lemma fadd_near x y n : is_finite x = true -> is_finite y = true -> valid x = true -> valid y = true ->
  1 <= n <= 2 ^ 50 -> 7 * Z.abs ((sval x + sval y) * U - n * K) <= 2 * K ->
  is_finite (fadd x y) = true /\ valid (fadd x y) = true /\ 0 < sval (fadd x y) /\
  7 * Z.abs (sval (fadd x y) * U - n * K) <= 3 * K.
Proof.
  intros Fx Fy Vx Vy Hn He. pose proof K_pos as HK. pose proof (fadd_spec x y Fx Fy Vx Vy) as H. cbv zeta in H.
  set (v := sval x + sval y) in *. assert (n * K <= 2 ^ 50 * K) by nia. assert (K <= n * K) by nia.
  pose proof scale_bounds as HU. assert (0 < v * U) by lia. assert (Hv : 0 < v) by nia. destruct (rnd_rel v ltac:(lia)) as [Hr Hre].
  rewrite (Z.abs_eq (rnd v)) in H by done.
  assert (v <= 2 ^ 52 * K) by (assert (v <= v * U) by nia; lia).
  assert (Hbig : 2 ^ 60 * K < 2 ^ 2098) by (unfold K; rewrite <- Z.pow_add_r by lia; apply Z.pow_lt_mono_r; lia).
  destruct (Z.ltb_spec (rnd v) (2 ^ 2098)) as [_|Hov]; [|exfalso; lia].
  destruct H as (F & V & S). rewrite S. split_and!; [done|done|lia|].
  replace (rnd v * U - n * K) with ((rnd v - v) * U + (v * U - n * K)) by ring.
  assert (Z.abs ((rnd v - v) * U) * 2 ^ 53 <= v * U) by (rewrite Z.abs_mul, (Z.abs_eq U) by lia; nia).
  lia.
Qed.

(** A sum or difference of two ledger amounts rounds to the sum of the units. *)
Lemma round_fadd x y n : is_finite x = true -> is_finite y = true -> valid x = true -> valid y = true ->
  1 <= n <= 2 ^ 50 -> 7 * Z.abs ((sval x + sval y) * U - n * K) <= 2 * K ->
  rnd_at (fadd x y) = dc n.
Proof.
  intros Fx Fy Vx Vy Hn He. destruct (fadd_near x y n) as (F & V & P & E); [done..|].
  pose proof K_pos. apply round_near; [done|done|lia|done|lia].
Qed.

Lemma dec_round n : 0 <= n <= 2 ^ 50 -> rnd_at (dc n) = dc n.
Proof.
  intros Hn. destruct (decide (n = 0)) as [->|Hne]; [done|].
  destruct (dec_rel n ltac:(lia)) as (F & V & P & _). destruct (dec_near n Hn) as (_ & _ & _ & E).
  pose proof K_pos. apply round_near; [done|done|lia|done|lia].
Qed.

Lemma dec_add a b : 0 <= a -> 0 <= b -> a + b <= 2 ^ 50 ->
  rnd_at (dc a + dc b)%float = dc (a + b).
Proof.
  intros Ha Hb Hab. destruct (decide (a + b = 0)) as [E|Hne].
  { assert (a = 0) as -> by lia. assert (b = 0) as -> by lia. done. }
  destruct (dec_near a ltac:(lia)) as (Fa & Va & _ & Ea), (dec_near b ltac:(lia)) as (Fb & Vb & _ & Eb).
  apply round_fadd; [done..|lia|].
  replace ((sval (dc a) + sval (dc b)) * U - (a + b) * K)
    with ((sval (dc a) * U - a * K) + (sval (dc b) * U - b * K)) by ring. lia.
Qed.

Lemma dec_sub_near a b : 0 <= b < a -> a <= 2 ^ 50 ->
  let x := (dc a - dc b)%float in
  is_finite x = true /\ valid x = true /\ 0 < sval x /\
  7 * Z.abs (sval x * U - (a - b) * K) <= 3 * K.
Proof.
  intros Hb Ha. destruct (dec_near a ltac:(lia)) as (Fa & Va & _ & Ea), (dec_near b ltac:(lia)) as (Fb & Vb & _ & Eb).
  cbv zeta. change (dc a - dc b)%float with (fsub (dc a) (dc b)). rewrite fsub_fadd.
  destruct (fopp_facts (dc b)) as (Fo & Vo & So). rewrite Fb in Fo. rewrite Vb in Vo.
  apply fadd_near; [done..|lia|]. rewrite So.
  replace ((sval (dc a) + - sval (dc b)) * U - (a - b) * K)
    with ((sval (dc a) * U - a * K) - (sval (dc b) * U - b * K)) by ring. lia.
Qed.

Lemma dec_sub a b : 0 <= b <= a -> a <= 2 ^ 50 -> rnd_at (dc a - dc b)%float = dc (a - b).
Proof.
  intros Hb Ha. destruct (decide (a = b)) as [->|Hne].
  { change (rnd_at (fsub (dc b) (dc b)) = dc (b - b)).
    by rewrite fsub_self, Z.sub_diag by (apply dec_near; lia). }
  destruct (dec_sub_near a b) as (F & V & P & E); [lia..|]. pose proof K_pos.
  apply round_near; [done|done|lia|done|lia].
Qed.

(** ** Against the tolerance [1e-9] *)

Lemma eps_vals : is_finite f1em9 = true /\ valid f1em9 = true /\ 0 < sval f1em9 /\
  sval f1em9 < sval (dc 1) /\ 7 * (sval f1em9 * U) <= K.
Proof.
  assert (H8 : 0 < sval f1em9 /\ 7 * (sval f1em9 * 100000000) <= K) by (split; by vm_compute).
  destruct H8 as [H0 H8]. pose proof scale_bounds as HU. pose proof K_pos.
  assert (H7 : 7 * (sval f1em9 * U) <= K) by (generalize dependent (sval f1em9); intros; nia).
  split_and!; [done|done|done| |done].
  destruct (dec_near 1 ltac:(lia)) as (_ & _ & _ & E1). apply (Z.mul_lt_mono_pos_r U); lia.
Qed.

Lemma dec_gt_eps d : 0 <= d <= 2 ^ 50 -> fltb f1em9 (dc d) = (1 <=? d).
Proof.
  intros Hd. destruct eps_vals as (F & V & P & L & _), (dec_near d Hd) as (Fd & Vd & _).
  rewrite fltb_sval by done. destruct (Z.leb_spec 1 d) as [H|H].
  - apply Z.ltb_lt. destruct (decide (d = 1)) as [->|]; [done|]. pose proof (dec_lt 1 d). lia.
  - apply Z.ltb_ge. assert (d = 0) as -> by lia. cbn [dec fzero sval]. lia.
Qed.

Lemma dec_eps_ge a b : 0 <= a <= 2 ^ 50 -> 0 <= b <= 2 ^ 50 ->
  fleb (dc b) (dc a + f1em9)%float = (b <=? a).
Proof.
  intros Ha Hb. destruct eps_vals as (F & V & P & L & HL).
  destruct (dec_near a Ha) as (Fa & Va & Pa & Ea), (dec_near b Hb) as (Fb & Vb & Pb & Eb).
  destruct (decide (a = 0)) as [->|Hne].
  { change (dc 0 + f1em9)%float with f1em9. rewrite fleb_sval by done.
    destruct (Z.leb_spec b 0) as [H|H].
    - assert (b = 0) as -> by lia. cbn [dec fzero sval]. apply Z.leb_le. lia.
    - apply Z.leb_gt. destruct (decide (b = 1)) as [->|]; [done|]. pose proof (dec_lt 1 b). lia. }
  destruct (fadd_near (dc a) f1em9 a) as (F' & V' & P' & E'); [done..|lia| |].
  { replace ((sval (dc a) + sval f1em9) * U - a * K)
      with ((sval (dc a) * U - a * K) + sval f1em9 * U) by ring. pose proof scale_bounds. nia. }
  destruct (Z.leb_spec b a) as [Hle|Hlt].
  - apply (fleb_trans _ (dc a)); [done..| |apply fadd_ge_l; [done..|lia]].
    by rewrite dec_leb, (proj2 (Z.leb_le b a)) by lia.
  - change (dc a + f1em9)%float with (fadd (dc a) f1em9). rewrite fleb_sval by done. apply Z.leb_gt.
    pose proof K_pos. assert (a * K + K <= b * K) by nia.
    pose proof scale_bounds. apply (Z.mul_lt_mono_pos_r U); lia.
Qed.

(** Every positive amount rounds to some number of units. *)
Lemma round_units x : valid x = true -> is_finite x = true -> 0 < sval x ->
  rnd_at x = dc (rne (sval x * U) K).
Proof.
  intros V F Hp. destruct x as [| | |s m e]; try done; cbn [sval] in *; try lia.
  apply valid_finite in V as (He & _). pose proof (sval_pos m e ltac:(lia)) as Hs.
  destruct s; cbn [cond_Zopp] in *; [lia|]. unfold py_round_to. change (10 ^ k) with U.
  pose proof scale_bounds as HU.
  set (r := if 0 <=? e then _ else _). enough (Hr : r = rne (Zpos m * 2 ^ (e + 1074) * U) K).
  { rewrite <- Hr. by destruct r. }
  subst r. destruct (Z.leb_spec 0 e) as [Hge|Hlt].
  - rewrite Z.pow_add_r by lia. fold K.
    replace (Zpos m * (2 ^ e * K) * U) with (Zpos m * U * 2 ^ e * K) by ring.
    by rewrite rne_exact by apply K_pos.
  - rewrite (K_scale (- e) (e + 1074)) by lia.
    replace (Zpos m * 2 ^ (e + 1074) * U) with (Zpos m * U * 2 ^ (e + 1074)) by ring.
    by rewrite rne_scale by (apply pow2_pos; lia).
Qed.

Lemma error_scale a b t c u : 0 <= u -> Z.abs (a - b) * t <= c -> Z.abs (a * u - b * u) * t <= c * u.
Proof. intros Hu H. rewrite <- Z.mul_sub_distr_r, Z.abs_mul, (Z.abs_eq u) by done. nia. Qed.

(** [round(total * bps / 10_000.0, 8)] is within one unit of the exact share. *)
Lemma share_units n bps : 0 <= n <= 2 ^ 50 -> 0 <= bps <= 10000 ->
  exists v, 0 <= v /\ Z.abs (10000 * v - bps * n) < 10000 /\
    rnd_at (fdiv (fmul (dc n) (float_of_Z bps)) (float_of_Z 10000)) = dc v.
Proof.
  intros Hn Hb. destruct (decide (n = 0)) as [->|Hn0].
  { exists 0. split_and!; [lia|lia|]. destruct bps as [|p|p]; [done| |lia]. cbn [dec].
    destruct (float_of_Z_exact (Zpos p) ltac:(lia)) as (F & _ & S). pose proof K_pos.
    destruct (float_of_Z (Zpos p)) as [| | |[] m e]; try done; cbn [sval cond_Zopp] in S; lia. }
  destruct (decide (bps = 0)) as [->|Hb0].
  { exists 0. split_and!; [lia|lia|]. destruct (dec_rel n ltac:(lia)) as (F & _ & P & _).
    destruct (dc n) as [| | |[] m e]; try done. cbn [sval cond_Zopp] in P. lia. }
  pose proof K_pos as HK. destruct (dec_rel n ltac:(lia)) as (Fx & Vx & Px & Ex). set (x := dc n) in *.
  destruct (float_of_Z_exact bps ltac:(lia)) as (Fb & Vb & Sb), (normal_int bps ltac:(lia)) as (mb & eb & Nb & Heb).
  destruct (float_of_Z_exact 10000 ltac:(lia)) as (Fc & Vc & Sc), (normal_int 10000 ltac:(lia)) as (mc & ec & Nc & Hec).
  assert (H1 : K <= n * K <= 2 ^ 50 * K) by nia. pose proof scale_bounds as HU.
  assert (HK100 : K = 2 ^ 100 * 2 ^ 974) by (apply K_scale; lia).
  assert (H1174 : 2 ^ 1174 = 2 ^ 100 * K) by (unfold K; rewrite <- Z.pow_add_r by lia; done).
  assert (H974 : 0 < 2 ^ 974) by (by apply Z.pow_pos_nonneg).
  assert (HxU : sval x <= sval x * U <= sval x * 100000000) by nia.
  assert (Hx : 2 ^ 974 <= sval x <= 2 ^ 1174) by (rewrite H1174; lia).
  destruct (normal_of x Vx Fx Hx) as (mx & ex & Nx & Hex).
  destruct (fmul_rel _ _ _ _ _ _ Nx Nb ltac:(lia)) as (Fy & Vy & Py & Ey).
  set (y := fmul x (float_of_Z bps)) in *. rewrite Sb in Ey.
  replace (sval y * K - sval x * (bps * K)) with ((sval y - sval x * bps) * K) in Ey by ring.
  rewrite Z.abs_mul, (Z.abs_eq K) in Ey by lia.
  assert (E1 : Z.abs (sval y - sval x * bps) * 2 ^ 53 <= sval y) by nia. clear Ey.
  assert (Hxb : sval x <= sval x * bps <= sval x * 10000) by nia.
  assert (Hy : 2 ^ 974 <= sval y <= 2 ^ 1174) by (rewrite H1174; lia).
  destruct (normal_of y Vy Fy Hy) as (my & ey & Ny & Hey).
  destruct (fdiv_rel _ _ _ _ _ _ Ny Nc ltac:(lia)) as (Fz & Vz & Pz & Ez).
  set (z := fdiv y (float_of_Z 10000)) in *. rewrite Sc in Ez.
  replace (sval z * (10000 * K) - sval y * K) with ((sval z * 10000 - sval y) * K) in Ez by ring.
  rewrite Z.abs_mul, (Z.abs_eq K) in Ez by lia.
  assert (E2 : Z.abs (sval z * 10000 - sval y) * 2 ^ 53 <= sval z * 10000) by nia. clear Ez.
  exists (rne (sval z * U) K). pose proof (rne_error (sval z * U) K ltac:(nia) HK) as E3.
  pose proof (rne_bounds (sval z * U) K ltac:(nia) HK) as E4.
  assert (0 <= sval z * U / K) by (apply Z.div_pos; nia).
  split_and!; [lia| |by apply round_units]. set (v := rne _ _) in *.
  (* everything in multiples of [K] *)
  set (a := sval x * U) in *. set (b := sval y * U). set (c := sval z * U) in *.
  assert (F1 : Z.abs (b - a * bps) * 2 ^ 53 <= b).
  { subst a b. replace (sval x * U * bps) with (sval x * bps * U) by ring. apply error_scale; [lia|done]. }
  assert (F2 : Z.abs (c * 10000 - b) * 2 ^ 53 <= c * 10000).
  { subst b c. replace (sval z * U * 10000) with (sval z * 10000 * U) by ring. apply error_scale; [lia|done]. }
  assert (F3 : Z.abs (a * bps - n * K * bps) * 2 ^ 53 <= a * bps) by (apply error_scale; [lia|done]).
  assert (F4 : n * K * bps <= n * K * 10000) by (apply Z.mul_le_mono_nonneg_l; lia).
  clear - E3 F1 F2 F3 F4 H1 HK.
  assert (F5 : Z.abs (10000 * (v * K) - n * K * bps) < 10000 * K) by lia.
  replace (10000 * (v * K) - n * K * bps) with ((10000 * v - bps * n) * K) in F5 by ring.
  rewrite Z.abs_mul, (Z.abs_eq K) in F5 by lia. by apply Z.mul_lt_mono_pos_r in F5.
Qed.
(** ** Python's [or], [max] and [min] on amounts *)

Lemma dec_pos n : 1 <= n <= 2 ^ 50 -> fltb fzero (dc n) = true /\ feqb (dc n) fzero = false.
Proof.
  intros Hn. destruct (dec_rel n ltac:(lia)) as (F & V & P & _).
  destruct (dc n) as [| | |[] m e]; try done; cbn [sval cond_Zopp] in P; try lia.
Qed.

Lemma dec_or_zero n : 0 <= n <= 2 ^ 50 -> or_zero (Some (dc n)) = dc n.
Proof.
  intros Hn. unfold or_zero. destruct (decide (n = 0)) as [->|]; [done|].
  by rewrite (proj2 (dec_pos n ltac:(lia))).
Qed.

Lemma dec_max n : 0 <= n <= 2 ^ 50 -> py_max fzero (dc n) = dc n.
Proof.
  intros Hn. unfold py_max. destruct (decide (n = 0)) as [->|]; [done|].
  by rewrite (proj1 (dec_pos n ltac:(lia))).
Qed.

Lemma dec_min a b : 0 <= a <= 2 ^ 50 -> 0 <= b <= 2 ^ 50 -> py_min (dc a) (dc b) = dc (Z.min a b).
Proof.
  intros Ha Hb. unfold py_min. rewrite dec_ltb by done. destruct (Z.ltb_spec b a).
  - by rewrite Z.min_r by lia.
  - by rewrite Z.min_l by lia.
Qed.

Lemma dec_le_zero a : 0 <= a <= 2 ^ 50 -> fleb (dc a) fzero = (a <=? 0).
Proof. intros Ha. change fzero with (dc 0). by rewrite dec_leb by lia. Qed.
End Units.

(** ** Sums of many amounts

    Up to version 3.11 Python adds a list of floats from left to right, later versions
    compensate the error.  The ledgers rely on either being close to the exact sum. *)

Definition zsum (l : list Z) : Z := foldr Z.add 0 l.
Definition vsum (l : list float) : Z := zsum (sval <$> l).

Definition small_float (x : float) : Prop :=
  is_finite x = true /\ valid x = true /\ 0 <= sval x <= 2 ^ 60 * K.

Class PySum (py_sum : list float -> float) : Prop :=
  py_sum_near l : Forall small_float l -> Z.of_nat (length l) <= 2 ^ 40 ->
    is_finite (py_sum l) = true /\ valid (py_sum l) = true /\ 0 <= sval (py_sum l) /\
    Z.abs (sval (py_sum l) - vsum l) * 2 ^ 52 <= Z.of_nat (length l) * vsum l.

Definition sum_floats (l : list float) : float := fold_left fadd l fzero.

Lemma zsum_app l l' : zsum (l ++ l') = zsum l + zsum l'.
Proof. unfold zsum. induction l as [|x l IH]; cbn; lia. Qed.

Lemma vsum_bounds l c : Forall small_float l -> (forall x, x ∈ l -> sval x <= c) ->
  0 <= vsum l <= Z.of_nat (length l) * c.
Proof.
  unfold vsum, zsum. induction 1 as [|x l [_ [_ Hx]] Hl IH]; intros Hc; cbn [fmap list_fmap foldr length]; [lia|].
  pose proof (Hc x ltac:(left)). destruct IH; [intros y Hy; apply Hc; by right|]. lia.
Qed.

Lemma fadd_step x y : is_finite x = true -> valid x = true -> is_finite y = true -> valid y = true ->
  0 <= sval x <= 2 ^ 110 * K -> 0 <= sval y <= 2 ^ 60 * K ->
  is_finite (fadd x y) = true /\ valid (fadd x y) = true /\ 0 <= sval (fadd x y) /\
  Z.abs (sval (fadd x y) - (sval x + sval y)) * 2 ^ 53 <= sval x + sval y.
Proof.
  intros Fx Vx Fy Vy Hx Hy. pose proof (fadd_spec x y Fx Fy Vx Vy) as H. cbv zeta in H.
  set (v := sval x + sval y) in *. destruct (rnd_rel v ltac:(lia)) as [Hr Hre].
  rewrite (Z.abs_eq (rnd v)) in H by done. pose proof K_pos.
  assert (Hbig : 2 ^ 120 * K < 2 ^ 2098) by (unfold K; rewrite <- Z.pow_add_r by lia; apply Z.pow_lt_mono_r; lia).
  destruct (Z.ltb_spec (rnd v) (2 ^ 2098)) as [_|Hov]; [|exfalso; lia].
  destruct H as (F & V & S). by rewrite S.
Qed.

Lemma sum_right_near l : Forall small_float l -> Z.of_nat (length l) <= 2 ^ 40 ->
  let s := fold_right (fun y x => fadd x y) fzero l in
  is_finite s = true /\ valid s = true /\ 0 <= sval s /\
  Z.abs (sval s - vsum l) * 2 ^ 52 <= Z.of_nat (length l) * vsum l.
Proof.
  cbv zeta. induction 1 as [|x l Hx Hl IH]; intros Hlen; [done|].
  cbn [fold_right length] in *. destruct IH as (F & V & P & E); [lia|].
  set (s := fold_right _ _ l) in *. pose proof (vsum_bounds l (2 ^ 60 * K) Hl) as [H0 H1].
  { intros y Hy. rewrite Forall_forall in Hl. apply (Hl y Hy). }
  pose proof Hx as (Fx & Vx & Hx0). pose proof K_pos as HK. set (n := Z.of_nat (length l)) in *.
  assert (Hn : 0 <= n <= 2 ^ 40) by (unfold n; lia).
  assert (n * (2 ^ 60 * K) <= 2 ^ 40 * (2 ^ 60 * K)) by (apply Z.mul_le_mono_nonneg_r; lia).
  assert (n * vsum l <= 2 ^ 40 * vsum l) by (apply Z.mul_le_mono_nonneg_r; lia).
  assert (0 <= n * sval x) by (apply Z.mul_nonneg_nonneg; lia).
  assert (Hs : sval s <= 2 * vsum l) by lia.
  destruct (fadd_step s x F V Fx Vx) as (F' & V' & P' & E'); [lia|lia|].
  split_and!; [done..|]. change (vsum (x :: l)) with (sval x + vsum l).
  rewrite Nat2Z.inj_succ. fold n.
  replace (Z.succ n * (sval x + vsum l)) with (n * vsum l + n * sval x + sval x + vsum l) by ring. lia.
Qed.

Lemma vsum_rev l : vsum (rev l) = vsum l.
Proof.
  unfold vsum. induction l as [|x l IH]; [done|]. cbn [rev]. rewrite fmap_app, zsum_app, IH.
  unfold zsum. cbn [fmap list_fmap foldr]. lia.
Qed.

#[export] Instance sum_floats_near : PySum sum_floats.
Proof.
  intros l Hl Hlen. unfold sum_floats. rewrite <- fold_left_rev_right, <- length_rev, <- vsum_rev.
  apply sum_right_near; [by apply Forall_rev|by rewrite length_rev].
Qed.

Section SumOfUnits.
Context (k : Z) {Hk : Places k} (py_sum : list float -> float) `{!PySum py_sum}.

(** Amounts that are summed: each within range, and few enough for their total. *)
Definition summable (l : list Z) : Prop :=
  Forall (fun n => 0 <= n <= 2 ^ 50) l /\ Z.of_nat (length l) <= 2 ^ 40 /\
  (1 + Z.of_nat (length l)) * zsum l <= 2 ^ 49.

Lemma dec_small n : 0 <= n <= 2 ^ 50 -> small_float (dec k n).
Proof.
  intros Hn. destruct (dec_near k n Hn) as (F & V & P & E). pose proof (scale_bounds k). pose proof K_pos.
  split_and!; [done..|]. assert (n * K <= 2 ^ 50 * K) by nia. assert (sval (dec k n) <= sval (dec k n) * scale k) by nia. lia.
Qed.

Lemma vsum_units l : Forall (fun n => 0 <= n <= 2 ^ 50) l ->
  0 <= vsum (dec k <$> l) /\ 0 <= zsum l /\
  Z.abs (vsum (dec k <$> l) * scale k - zsum l * K) * 2 ^ 53 <= vsum (dec k <$> l) * scale k.
Proof.
  pose proof (scale_bounds k) as HU. unfold vsum. induction 1 as [|n l Hn Hl IH]; [cbn; lia|].
  destruct IH as (I1 & I2 & I3). unfold zsum in *. cbn [fmap list_fmap foldr] in *.
  set (v := foldr Z.add 0 _) in I1, I3 |- *. set (z := foldr Z.add 0 l) in *.
  assert (Hd : 0 <= sval (dec k n) /\ Z.abs (sval (dec k n) * scale k - n * K) * 2 ^ 53 <= sval (dec k n) * scale k).
  { destruct (decide (n = 0)) as [->|]; [cbn [dec fzero sval]; lia|].
    destruct (dec_rel k n ltac:(lia)) as (_ & _ & P & E). split; [lia|done]. }
  split_and!; [lia|lia|]. rewrite !Z.mul_add_distr_r. lia.
Qed.

Lemma py_sum_units l : summable l -> let s := py_sum (dec k <$> l) in
  is_finite s = true /\ valid s = true /\ 0 <= sval s /\ 2 * Z.abs (sval s * scale k - zsum l * K) < K.
Proof.
  intros (Hl & Hlen & Hb) s. destruct (vsum_units l Hl) as (V0 & Z0 & Ev). set (V := vsum (dec k <$> l)) in *.
  destruct (py_sum_near (py_sum := py_sum) (dec k <$> l)) as (F & Vs & P & E).
  { apply Forall_fmap. eapply Forall_impl; [exact Hl|]. apply dec_small. }
  { by rewrite length_fmap. }
  fold s V in F, Vs, P, E. rewrite length_fmap in E. set (n := Z.of_nat (length l)) in *.
  split_and!; [done..|]. pose proof (scale_bounds k) as HU. pose proof K_pos as HK.
  assert (Hn : 0 <= n) by (unfold n; lia). set (T := zsum l) in *. set (W := V * scale k) in *.
  assert (E1 : Z.abs (sval s * scale k - W) * 2 ^ 52 <= n * W).
  { unfold W. replace (n * (V * scale k)) with (n * V * scale k) by ring. apply error_scale; [lia|done]. }
  assert (HW : 0 <= W <= 2 * (T * K)) by (assert (0 <= T * K) by nia; lia).
  assert (Hp : n * W <= n * (2 * (T * K))) by (apply Z.mul_le_mono_nonneg_l; lia).
  assert (Hq : (1 + n) * T * K <= 2 ^ 49 * K) by (apply Z.mul_le_mono_nonneg_r; lia).
  replace (n * (2 * (T * K))) with (2 * (n * T * K)) in Hp by ring.
  replace ((1 + n) * T * K) with (T * K + n * T * K) in Hq by ring.
  assert (0 <= T * K) by nia. lia.
Qed.

(** The rounded sum of amounts is the amount of the sum of the units. *)
Lemma dec_sum l : summable l -> 1 <= zsum l -> py_round_to k (py_sum (dec k <$> l)) = dec k (zsum l).
Proof.
  intros Hl H1. destruct (py_sum_units l Hl) as (F & V & P & E). apply (round_near k); [done|done|lia| |done].
  pose proof (scale_bounds k). pose proof K_pos. assert (K <= zsum l * K) by nia.
  set (s := sval _) in *. assert (0 < s * scale k) by lia. nia.
Qed.

(** A sum of nothing is not positive. *)
Lemma dec_sum_zero l : summable l -> zsum l = 0 -> fleb (py_round_to k (py_sum (dec k <$> l))) fzero = true.
Proof.
  intros Hl H0. destruct Hl as (Hl & Hlen & _). destruct (vsum_units l Hl) as (V0 & _ & Ev). rewrite H0 in Ev.
  destruct (py_sum_near (py_sum := py_sum) (dec k <$> l)) as (F & Vs & P & E).
  { apply Forall_fmap. eapply Forall_impl; [exact Hl|]. apply dec_small. }
  { by rewrite length_fmap. }
  pose proof (scale_bounds k). assert (vsum (dec k <$> l) = 0) as HV by nia. rewrite HV in E.
  destruct (py_sum _) as [[]| | |s m e]; try done. apply valid_finite in Vs as (He & _).
  pose proof (sval_pos m e ltac:(lia)). destruct s; cbn [sval cond_Zopp] in P, E; lia.
Qed.
End SumOfUnits.

(** Eight decimals. *)
Abbreviation UNIT := (scale 8).
Abbreviation round8 := (py_round_to 8).
Abbreviation dec8 := (dec 8).
Abbreviation dec8_rel := (dec_rel 8).
Abbreviation dec8_near := (dec_near 8).
Abbreviation dec8_lt := (dec_lt 8).
Abbreviation dec8_leb := (dec_leb 8).
Abbreviation dec8_ltb := (dec_ltb 8).
Abbreviation dec8_add := (dec_add 8).
Abbreviation dec8_sub := (dec_sub 8).
Abbreviation dec8_sub_near := (dec_sub_near 8).
Abbreviation dec8_round := (dec_round 8).
Abbreviation dec8_gt_eps := (dec_gt_eps 8).
Abbreviation dec8_eps_ge := (dec_eps_ge 8).
Abbreviation dec8_max := (dec_max 8).
Abbreviation dec8_min := (dec_min 8).
Abbreviation dec8_le_zero := (dec_le_zero 8).
Abbreviation round8_near := (round_near 8).
