(* ===== verification/BondLedger.v ===== *)
(** * Slashed bonds and reversal debts

    [services/bond_slash.py], [services/settlement_reversal.py] and the route
    [set_bond_slash_status] of [api/routes/verifier_network.py].  The tables list their
    rows in insertion order with their uniqueness constraints; row ids and the clock are
    arguments, the shares of the split ([victim_bps], [pool_bps]) are settings.
    Parameters: the check of a transaction against the vault ([verify_slash_tx]), the sum
    the database computes ([sql_sum]), the order of a query ([newest_first]) and number
    formatting ([fmt_g]). *)
From S2P Require Import Prelude PyText PyFloat FloatFacts FloatMul Decimal.
Open Scope Z_scope.

(** [(x or "").strip() or None]. *)
Definition clean (s : option string) : option string :=
  let t := py_strip (default ""%string s) in
  if decide (t = ""%string) then None else Some t.

Definition float_or_zero (x : float) : float := or_zero (Some x).

(** ** Rows *)

Definition STATUS_PENDING : string := "pending".
Definition STATUS_SUBMITTED : string := "submitted".
Definition STATUS_SETTLED : string := "settled".
Definition STATUS_FAILED : string := "failed".
Definition SETTLEABLE_STATUSES : list string := [STATUS_SUBMITTED; STATUS_SETTLED; STATUS_FAILED].

Definition SUBJECT_VERIFIER_NODE : string := "verifier_node".
Definition SUBJECT_ARBITRATOR_ROLE : string := "arbitrator_role".
Definition SOURCE_CHALLENGE : string := "challenge".
Definition SOURCE_ARBITRATION_OVERTURN : string := "arbitration_overturn".
Definition BOND_EPSILON : float := f1em9.

Record BondSlash := {
  bs_id : string;
  subject_kind : string;
  subject_id : string;
  wallet_address : option string;
  victim_wallet_address : option string;
  victim_identity_id : option string;
  source_kind : string;
  source_id : string;
  bs_amount : float;
  victim_amount : float;
  pool_amount : float;
  victim_share_bps : Z;
  pool_share_bps : Z;
  bs_reason : option string;
  bs_status : string;
  bs_tx_hash : option string;
  bs_attempts : Z;
  bs_last_error : option string;
  bs_created_at : Z;
  bs_updated_at : Z;
  bs_settled_at : option Z
}.

Record SettlementReversal := {
  reversal_id : string;
  rv_case_id : string;
  rv_task_id : string;
  rv_binding_id : option string;
  rv_victim_identity_id : option string;
  rv_victim_wallet : option string;
  owed_amount : float;
  paid_amount : float;
  funding_source : string;
  rv_status : string;
  rv_tx_hash : option string;
  rv_attempts : Z;
  rv_last_error : option string;
  rv_note : option string;
  credited_txs : option string;
  rv_created_at : Z;
  rv_updated_at : Z;
  rv_settled_at : option Z
}.

Record BondDb := {
  slashes : list BondSlash;
  reversals : list SettlementReversal
}.
Abbreviation BM := (M BondDb Exc).

(** The unique key of a slash: the subject and the source. *)
Definition slash_key (r : BondSlash) : string * string * string * string :=
  (subject_kind r, subject_id r, source_kind r, source_id r).

(** [db.add(row); await db.flush()]. *)
Definition insert_slash (r : BondSlash) : BM unit :=
  do! bad := m_get (fun db => bool_decide (bs_id r ∈ bs_id <$> slashes db)
                              || bool_decide (slash_key r ∈ slash_key <$> slashes db)) in
  if bad then m_raise IntegrityError
  else m_put (fun db => {| slashes := slashes db ++ [r]; reversals := reversals db |}).

Definition write_slash (r : BondSlash) : BM unit :=
  m_put (fun db => {| slashes := (fun r' => if decide (bs_id r' = bs_id r) then r else r') <$> slashes db;
                      reversals := reversals db |}).

(** A null victim never conflicts, as in SQL. *)
Definition reversal_conflict (r r' : SettlementReversal) : bool :=
  bool_decide (reversal_id r' = reversal_id r)
  || bool_decide (rv_case_id r' = rv_case_id r)
     && bool_decide (rv_victim_identity_id r' = rv_victim_identity_id r)
     && bool_decide (rv_victim_identity_id r <> None).

Definition insert_reversal (r : SettlementReversal) : BM unit :=
  do! bad := m_get (fun db => existsb (reversal_conflict r) (reversals db)) in
  if bad then m_raise IntegrityError
  else m_put (fun db => {| slashes := slashes db; reversals := reversals db ++ [r] |}).

Definition write_reversal (r : SettlementReversal) : BM unit :=
  m_put (fun db => {| slashes := slashes db;
                      reversals := (fun r' => if decide (reversal_id r' = reversal_id r) then r else r')
                                     <$> reversals db |}).

(** ** [services/bond_slash.py] *)

Section Slashes.
Context (victim_bps pool_bps : Z) (sql_sum : list float -> float)
        (newest_first : list BondSlash -> list BondSlash) (vault_address : option string).

Definition split (amount : float) (has_victim : bool) : float * float * Z * Z :=
  let total := py_max fzero (float_or_zero amount) in
  if negb has_victim then (fzero, total, victim_bps, pool_bps)
  else
    let v := round8 (fdiv (fmul total (float_of_Z victim_bps)) (float_of_Z 10000)) in
    let v := if (v >? total)%float then total else v in
    (v, round8 (total - v)%float, victim_bps, pool_bps).

Definition find_slash (kind sid skind srcid : string) : BM (option BondSlash) :=
  m_get (fun db => head (filter (fun r => slash_key r = (kind, sid, skind, srcid)) (slashes db))).

Record SlashRequest := {
  q_subject_kind : string;
  q_subject_id : string;
  q_wallet : option string;
  q_victim_wallet : option string;
  q_victim_identity : option string;
  q_source_kind : string;
  q_source_id : string;
  q_amount : float;
  q_reason : option string
}.

Definition new_slash (new_id : string) (now : Z) (q : SlashRequest) : BondSlash :=
  let cleaned := clean (q_victim_wallet q) in
  let '(v, p, vb, pb) := split (q_amount q) (bool_decide (cleaned <> None)) in
  {| bs_id := new_id; subject_kind := q_subject_kind q; subject_id := q_subject_id q;
     wallet_address := clean (q_wallet q); victim_wallet_address := cleaned;
     victim_identity_id := clean (q_victim_identity q);
     source_kind := q_source_kind q; source_id := q_source_id q;
     bs_amount := round8 (py_max fzero (float_or_zero (q_amount q)));
     victim_amount := v; pool_amount := p; victim_share_bps := vb; pool_share_bps := pb;
     bs_reason := clean (q_reason q); bs_status := STATUS_PENDING; bs_tx_hash := None;
     bs_attempts := 0; bs_last_error := None; bs_created_at := now; bs_updated_at := now;
     bs_settled_at := None |}.

Definition record_slash (new_id : string) (now : Z) (q : SlashRequest) : BM (BondSlash * bool) :=
  do! existing := find_slash (q_subject_kind q) (q_subject_id q) (q_source_kind q) (q_source_id q) in
  match existing with
  | Some r => m_ret (r, false)
  | None =>
      let r := new_slash new_id now q in
      seq! insert_slash r in m_ret (r, true)
  end.

Definition slash_with_id (slash_id : string) : BM (option BondSlash) :=
  m_get (fun db => head (filter (fun r => bs_id r = slash_id) (slashes db))).

Definition settled_row (now : Z) (status : string) (tx_hash error : option string)
    (r : BondSlash) : BondSlash :=
  {| bs_id := bs_id r; subject_kind := subject_kind r; subject_id := subject_id r;
     wallet_address := wallet_address r; victim_wallet_address := victim_wallet_address r;
     victim_identity_id := victim_identity_id r; source_kind := source_kind r;
     source_id := source_id r; bs_amount := bs_amount r; victim_amount := victim_amount r;
     pool_amount := pool_amount r; victim_share_bps := victim_share_bps r;
     pool_share_bps := pool_share_bps r; bs_reason := bs_reason r; bs_status := status;
     bs_tx_hash := match clean tx_hash with Some t => Some t | None => bs_tx_hash r end;
     bs_attempts := bs_attempts r + 1; bs_last_error := clean error;
     bs_created_at := bs_created_at r; bs_updated_at := now;
     bs_settled_at := if decide (status = STATUS_SETTLED) then Some now else bs_settled_at r |}.

Definition settle_slash (now : Z) (slash_id status : string) (tx_hash error : option string) :
    BM BondSlash :=
  if negb (mem status SETTLEABLE_STATUSES)
  then m_raise (ValueError "unsupported bond slash status")
  else
    do! row := slash_with_id slash_id in
    match row with
    | None => m_raise (ValueError "bond slash not found")
    | Some row =>
        if decide (status = STATUS_SETTLED /\ clean tx_hash = None)
        then m_raise (ValueError "cannot mark a bond slash settled without a tx hash")
        else
          let row := settled_row now status tx_hash error row in
          seq! write_slash row in m_ret row
    end.

(** An empty filter is no filter. *)
Definition matches (f : option string) (v : string) : bool :=
  match str_or f None with None => true | Some x => bool_decide (v = x) end.

Definition clamp_limit (limit : Z) : nat := Z.to_nat (Z.max 1 (Z.min limit 500)).

Definition list_slashes (kind sid status : option string) (limit : Z) : BM (list BondSlash) :=
  m_get (fun db => take (clamp_limit limit) (newest_first
    (filter (fun r => matches kind (subject_kind r) && matches sid (subject_id r)
                      && matches status (bs_status r) = true) (slashes db)))).

Definition pool_total : BM float :=
  m_get (fun db => round8 (float_or_zero
    (sql_sum (pool_amount <$> filter (fun r => bs_status r <> STATUS_FAILED) (slashes db))))).

Record SlashInstruction := {
  si_slash_id : string;
  si_subject_kind : string;
  si_subject_id : string;
  si_verifier : option string;
  si_victim : option string;
  si_amount : float;
  si_victim_amount : float;
  si_pool_amount : float;
  si_reason : option string;
  si_source : string;
  si_vault : option string
}.

Definition instruction_of (r : BondSlash) : SlashInstruction :=
  {| si_slash_id := bs_id r; si_subject_kind := subject_kind r; si_subject_id := subject_id r;
     si_verifier := wallet_address r; si_victim := victim_wallet_address r;
     si_amount := bs_amount r; si_victim_amount := victim_amount r; si_pool_amount := pool_amount r;
     si_reason := bs_reason r; si_source := (source_kind r +:+ ":" +:+ source_id r)%string;
     si_vault := clean vault_address |}.

Definition slash_instructions (rows : list BondSlash) : list SlashInstruction :=
  instruction_of <$> filter (fun r => bs_status r ∈ [STATUS_PENDING; STATUS_FAILED]) rows.
End Slashes.

(** ** [services/settlement_reversal.py] *)

Definition FUNDING_BENCH_BOND : string := "bench_bond".
Definition FUNDING_SLASH_POOL : string := "slash_pool".
Definition FUNDING_PLATFORM_DEBT : string := "platform_debt".
Definition FUNDING_SOURCES : list string :=
  [FUNDING_BENCH_BOND; FUNDING_SLASH_POOL; FUNDING_PLATFORM_DEBT].

Definition CHAIN_ACTIVE : Z := 1.
Definition CHAIN_FINALIZING : Z := 2.
Definition CHAIN_SETTLED : Z := 3.
Definition CHAIN_SLASHED : Z := 4.
Definition CHAIN_DISPUTED : Z := 6.

Inductive Bucket := BUCKET_NOT_MOVED | BUCKET_IN_WINDOW | BUCKET_MOVED | BUCKET_UNKNOWN.
#[export] Instance Bucket_eq_dec : EqDecision Bucket.
Proof. solve_decision. Defined.

Definition OUTCOME_BUYER_WINS : string := "buyer_wins".
Definition OUTCOME_SELLER_WINS : string := "seller_wins".
Definition OUTCOME_PARTIAL : string := "partial".

(** The chain's state as an integer, or nothing when it could not be read as one. *)
Definition bucket_of_chain_state (state : option Z) : Bucket :=
  match state with
  | None => BUCKET_UNKNOWN
  | Some v =>
      if mem v [CHAIN_ACTIVE; CHAIN_DISPUTED] then BUCKET_NOT_MOVED
      else if decide (v = CHAIN_FINALIZING) then BUCKET_IN_WINDOW
      else if mem v [CHAIN_SETTLED; CHAIN_SLASHED] then BUCKET_MOVED
      else BUCKET_UNKNOWN
  end.

(** What the code reads of a chain binding row. *)
Record ChainBinding := {
  binding_id : option string;
  seller_identity_id : option string;
  buyer_identity_id : option string;
  amount_usdc : option float;
  stake_usdc : option float
}.

Record PresumedVictim := {
  pv_identity_id : option string;
  pv_owed_amount : float;
  pv_basis : string
}.

Definition presume_victim (fmt_g : float -> string) (decided_outcome : option string)
    (b : ChainBinding) (chain_state : option Z) : result Exc PresumedVictim :=
  let outcome := py_strip (default ""%string decided_outcome) in
  if decide (outcome = OUTCOME_PARTIAL)
  then Err (HTTPException 409 "partial decisions cannot be reversed yet")
  else if negb (mem outcome [OUTCOME_BUYER_WINS; OUTCOME_SELLER_WINS])
  then Err (HTTPException 409 "cannot presume a victim from this outcome")
  else
    let stakes_lost := bool_decide (outcome = OUTCOME_BUYER_WINS) in
    let victim := clean (if stakes_lost then seller_identity_id b else buyer_identity_id b) in
    let amount := py_max fzero (or_zero (amount_usdc b)) in
    let stake := py_max fzero (or_zero (stake_usdc b)) in
    let slashed := bool_decide (chain_state = Some CHAIN_SLASHED) in
    let owed := round8 (amount + (if stakes_lost && slashed then stake else fzero))%float in
    let parts := ["判决 " +:+ outcome +:+ " 被推翻"; "货物金额 " +:+ fmt_g amount]%string ++
      (if stakes_lost && slashed then ["加被误划的质押 " +:+ fmt_g stake +:+ "（链上已 slashed）"]%string
       else if stakes_lost then ["质押未被划走，不计入欠款"%string] else []) in
    Ok {| pv_identity_id := victim; pv_owed_amount := owed; pv_basis := py_join "；" parts |}.

Definition default_funding_source (bench_bonded : bool) : string :=
  if bench_bonded then FUNDING_BENCH_BOND else FUNDING_SLASH_POOL.

Definition credited_tx_set (r : SettlementReversal) : list string :=
  text_set (default ""%string (credited_txs r)).

Definition find_reversal (case_id : string) (victim : option string) : BM (option SettlementReversal) :=
  m_get (fun db => head (filter (fun r => rv_case_id r = case_id /\ rv_victim_identity_id r = victim)
                           (reversals db))).

Record ReversalRequest := {
  r_case_id : string;
  r_task_id : string;
  r_binding_id : option string;
  r_victim_identity : option string;
  r_victim_wallet : option string;
  r_owed : float;
  r_funding : string;
  r_note : option string
}.

Definition new_reversal (new_id : string) (now : Z) (q : ReversalRequest) : SettlementReversal :=
  {| reversal_id := new_id; rv_case_id := r_case_id q; rv_task_id := r_task_id q;
     rv_binding_id := clean (r_binding_id q); rv_victim_identity_id := clean (r_victim_identity q);
     rv_victim_wallet := clean (r_victim_wallet q);
     owed_amount := round8 (py_max fzero (float_or_zero (r_owed q))); paid_amount := fzero;
     funding_source := r_funding q; rv_status := STATUS_PENDING; rv_tx_hash := None;
     rv_attempts := 0; rv_last_error := None; rv_note := clean (r_note q); credited_txs := None;
     rv_created_at := now; rv_updated_at := now; rv_settled_at := None |}.

Definition record_reversal (new_id : string) (now : Z) (q : ReversalRequest) :
    BM (SettlementReversal * bool) :=
  if negb (mem (r_funding q) FUNDING_SOURCES)
  then m_raise (HTTPException 500 "unknown funding source")
  else
    do! existing := find_reversal (r_case_id q) (r_victim_identity q) in
    match existing with
    | Some r => m_ret (r, false)
    | None => let r := new_reversal new_id now q in seq! insert_reversal r in m_ret (r, true)
    end.

(** The columns a status change or a credit rewrites. *)
Definition update_reversal (paid : float) (status : string) (tx : option string) (error : option string)
    (txs : option string) (now : Z) (settled : option Z) (r : SettlementReversal) : SettlementReversal :=
  {| reversal_id := reversal_id r; rv_case_id := rv_case_id r; rv_task_id := rv_task_id r;
     rv_binding_id := rv_binding_id r; rv_victim_identity_id := rv_victim_identity_id r;
     rv_victim_wallet := rv_victim_wallet r; owed_amount := owed_amount r; paid_amount := paid;
     funding_source := funding_source r; rv_status := status; rv_tx_hash := tx;
     rv_attempts := rv_attempts r + 1; rv_last_error := error; rv_note := rv_note r;
     credited_txs := txs; rv_created_at := rv_created_at r; rv_updated_at := now;
     rv_settled_at := settled |}.

Definition settle_reversal (now : Z) (rid status : string) (tx_hash error : option string) :
    BM SettlementReversal :=
  if negb (mem status SETTLEABLE_STATUSES)
  then m_raise (HTTPException 400 "unsupported settlement reversal status")
  else
    do! row := m_get (fun db => head (filter (fun r => reversal_id r = rid) (reversals db))) in
    match row with
    | None => m_raise (HTTPException 404 "settlement reversal not found")
    | Some r =>
        if decide (status = STATUS_SETTLED /\ clean tx_hash = None)
        then m_raise (HTTPException 409 "cannot mark a settlement reversal settled without a tx hash")
        else
          let r := update_reversal (paid_amount r) status
                     (match clean tx_hash with Some t => Some t | None => rv_tx_hash r end)
                     (clean error) (credited_txs r) now
                     (if decide (status = STATUS_SETTLED) then Some now else rv_settled_at r) r in
          seq! write_reversal r in m_ret r
    end.

(** The proof [verify_slash_tx] returns. *)
Record ChainProof := {
  cp_tx_hash : option string;
  cp_victim : option string;
  cp_amount_usdc : option float
}.

Definition delta_of (owed paid share : float) : float :=
  round8 (py_max fzero (py_min (py_max fzero (float_or_zero share)) (owed - paid)%float)).

Definition credited_row (now : Z) (tx : string) (share : float) (r : SettlementReversal) :
    option SettlementReversal :=
  let owed := float_or_zero (owed_amount r) in
  let paid := float_or_zero (paid_amount r) in
  let delta := delta_of owed paid share in
  if (delta >? BOND_EPSILON)%float then
    let paid' := round8 (paid + delta)%float in
    let status := if (paid' + BOND_EPSILON >=? owed)%float then STATUS_SETTLED else STATUS_SUBMITTED in
    Some (update_reversal paid' status (Some tx) (rv_last_error r)
      (Some (py_join newline (insert_text (lower_strip tx) (credited_tx_set r)))) now
      (if decide (status = STATUS_SETTLED) then Some now else rv_settled_at r) r)
  else None.

(** The debt a slash pays: by the victim's identity, else by the victim's wallet. *)
Definition reversal_for (s : BondSlash) : BM (option SettlementReversal) :=
  do! r := find_reversal (source_id s) (victim_identity_id s) in
  match r, clean (victim_wallet_address s) with
  | Some r, _ => m_ret (Some r)
  | None, None => m_ret None
  | None, Some _ =>
      m_get (fun db => head (filter (fun r => rv_case_id r = source_id s /\
        py_lower <$> rv_victim_wallet r = py_lower <$> victim_wallet_address s) (reversals db)))
  end.

Definition or_lower (s : option string) : string := lower_strip (default ""%string s).

(** The proof must be for this transaction, this victim and this amount. *)
Definition proof_fits (p : ChainProof) (tx : string) (s : BondSlash) (r : SettlementReversal) : result Exc unit :=
  if bool_decide (or_lower (cp_tx_hash p) <> ""%string) && bool_decide (or_lower (cp_tx_hash p) <> py_lower tx)
  then Err (HTTPException 409 "on-chain proof is for another tx")
  else if bool_decide (or_lower (cp_victim p) <> ""%string)
          && bool_decide (or_lower (rv_victim_wallet r) <> ""%string)
          && bool_decide (or_lower (cp_victim p) <> or_lower (rv_victim_wallet r))
  then Err (HTTPException 409 "the on-chain tx paid another victim")
  else if (fabs (or_zero (cp_amount_usdc p) - float_or_zero (bs_amount s)) >? f1em6)%float
  then Err (HTTPException 409 "the on-chain tx slashed another amount")
  else Ok tt.

Definition credit_from_settled_slash (now : Z) (s : BondSlash) (proof : option ChainProof) :
    BM (option SettlementReversal) :=
  if decide (source_kind s <> SOURCE_ARBITRATION_OVERTURN) then m_ret None
  else if decide (bs_status s <> STATUS_SETTLED)
  then m_raise (HTTPException 409 "cannot credit a reversal from a bond slash that is not settled")
  else match clean (bs_tx_hash s), proof with
       | None, _ => m_raise (HTTPException 409 "cannot credit a reversal from a settled bond slash with no tx hash")
       | _, None => m_raise (HTTPException 409 "cannot credit a reversal without re-verifying the tx on-chain")
       | Some tx, Some p =>
           do! r := reversal_for s in
           match r with
           | None => m_ret None
           | Some r =>
               seq! lift (proof_fits p tx s r) in
               if mem (py_lower tx) (credited_tx_set r) then m_ret (Some r)
               else match credited_row now tx (victim_amount s) r with
                    | None => m_ret (Some r)
                    | Some r' => seq! write_reversal r' in m_ret (Some r')
                    end
           end
       end.

Section ReversalQueries.
Context (newest_first : list SettlementReversal -> list SettlementReversal).

Definition list_reversals (case_id status : option string) (limit : Z) : BM (list SettlementReversal) :=
  m_get (fun db => take (clamp_limit limit) (newest_first
    (filter (fun r => matches case_id (rv_case_id r) && matches status (rv_status r) = true)
       (reversals db)))).

Definition case_has_bench_slashes (case_id : string) : BM bool :=
  m_get (fun db => bool_decide (Exists (fun r => source_kind r = SOURCE_ARBITRATION_OVERTURN /\
                                                 source_id r = case_id) (slashes db))).

Definition outstanding_total : BM float :=
  do! rows := list_reversals None None 500 in
  m_ret (round8 (fold_left (fun total r =>
    if decide (rv_status r = STATUS_FAILED) then total
    else (total + py_max fzero (float_or_zero (owed_amount r) - float_or_zero (paid_amount r)))%float)
    rows fzero)).
End ReversalQueries.

(** ** [set_bond_slash_status] *)

Section StatusRoute.
Context (verify_slash_tx : string -> string -> option string -> float -> result string ChainProof).

Definition set_bond_slash_status (now : Z) (slash_id status : string) (tx_hash error : option string) :
    BM BondSlash :=
  do! row := slash_with_id slash_id in
  match row with
  | None => m_raise (HTTPException 404 "bond slash not found")
  | Some row =>
      let status := lower_strip status in
      let tx := clean tx_hash in
      do! proof :=
        if decide (status <> STATUS_SETTLED) then m_ret None
        else match tx, clean (wallet_address row) with
             | None, _ => m_raise (HTTPException 422 "a settled bond slash must carry the tx hash")
             | _, None => m_raise (HTTPException 409 "bond slash has no wallet on the ledger")
             | Some t, Some w =>
                 match verify_slash_tx t w (victim_wallet_address row) (bs_amount row) with
                 | Ok p => m_ret (Some p)
                 | Err _ => m_raise (HTTPException 409 "tx could not be verified against the bond vault")
                 end
             end in
      do! row := settle_slash now slash_id status tx error in
      seq! (if decide (status <> STATUS_SETTLED) then m_ret None
            else credit_from_settled_slash now row proof) in
      m_ret row
  end.
End StatusRoute.

(** ** The split of a slash *)

Lemma dec8_or_zero n : 0 <= n <= 2 ^ 50 -> float_or_zero (dec8 n) = dec8 n.
Proof.
  apply (dec_or_zero 8).
Qed.

(** Splitting a slash loses nothing: the victim's and the pool's parts are whole
    numbers of 1e-8 that add up to the slashed amount, the victim's part is within one
    unit of its share, and without a victim everything goes to the pool. *)
Theorem slash_split_conserves victim_bps pool_bps n has_victim :
  0 <= n <= 2 ^ 50 -> 0 <= victim_bps <= 10000 ->
  exists v, 0 <= v <= n /\
    split victim_bps pool_bps (dec8 n) has_victim = (dec8 v, dec8 (n - v), victim_bps, pool_bps) /\
    if has_victim then Z.abs (10000 * v - victim_bps * n) < 10000 else v = 0.
Proof.
  intros Hn Hb. unfold split. rewrite dec8_or_zero, dec8_max by done. destruct has_victim; cbn [negb].
  - destruct (share_units 8 n victim_bps Hn Hb) as (v & Hv & Hs & ->).
    assert (v <= n) by nia. exists v.
    rewrite dec8_ltb by lia. rewrite (proj2 (Z.ltb_ge n v)) by lia. by rewrite dec8_sub by lia.
  - exists 0. split_and!; [lia|lia| |done]. by rewrite Z.sub_0_r.
Qed.

(** ** Credits of a debt, in units *)

Lemma delta_units n k s : 0 <= k <= n -> n <= 2 ^ 50 -> 0 <= s <= 2 ^ 50 ->
  delta_of (dec8 n) (dec8 k) (dec8 s) = dec8 (Z.min s (n - k)).
Proof.
  intros Hk Hn Hs. unfold delta_of. rewrite dec8_or_zero, dec8_max by done.
  destruct (dec8_near s Hs) as (Fs & Vs & Ps & Es). unfold py_min. destruct (decide (n = k)) as [->|Hne].
  { change (dec8 k - dec8 k)%float with (fsub (dec8 k) (dec8 k)).
    rewrite fsub_self by (apply dec8_near; lia). rewrite Z.sub_diag, Z.min_r by lia.
    change (S754_zero false) with (dec8 0). rewrite dec8_ltb by lia.
    destruct (Z.ltb_spec 0 s); [done|]. by assert (s = 0) as -> by lia. }
  destruct (dec8_sub_near n k) as (F & V & P & E); [lia..|]. set (x := (dec8 n - dec8 k)%float) in *.
  pose proof K_pos as HK. rewrite fltb_sval by done. destruct (Z.ltb_spec (sval x) (sval (dec8 s))) as [Hlt|Hge].
  - assert (sval x * UNIT < sval (dec8 s) * UNIT) by (change UNIT with 100000000 in *; lia).
    assert (((n - k) - (s + 1)) * K < 0) by lia. rewrite Z.min_r by nia.
    unfold py_max. rewrite (fltb_sval fzero x) by done. rewrite (proj2 (Z.ltb_lt _ _)) by (cbn [fzero sval]; lia).
    apply round8_near; [done|done|lia|done|lia].
  - assert (sval (dec8 s) * UNIT <= sval x * UNIT) by (change UNIT with 100000000 in *; lia).
    assert ((s - (n - k)) * K <= 4 * K) by lia. assert (7 * ((s - (n - k)) * K) < 7 * K) by lia.
    rewrite Z.min_l by nia. by rewrite dec8_max, dec8_round.
Qed.

(** A debt on the grid: [n] units owed, [k] of them paid. *)
Definition debt (n k : Z) (r : SettlementReversal) : Prop :=
  0 <= k <= n /\ n <= 2 ^ 50 /\ owed_amount r = dec8 n /\ paid_amount r = dec8 k.

Lemma credited_units now tx s r n k : debt n k r -> 0 <= s <= 2 ^ 50 ->
  credited_row now tx (dec8 s) r =
    let d := Z.min s (n - k) in
    if d <? 1 then None
    else
      let st := if n <=? k + d then STATUS_SETTLED else STATUS_SUBMITTED in
      Some (update_reversal (dec8 (k + d)) st (Some tx) (rv_last_error r)
        (Some (py_join newline (insert_text (lower_strip tx) (credited_tx_set r)))) now
        (if n <=? k + d then Some now else rv_settled_at r) r).
Proof.
  intros (Hk & Hn & Ho & Hp) Hs. unfold credited_row. rewrite Ho, Hp, !dec8_or_zero, delta_units by lia.
  cbv zeta. set (d := Z.min s (n - k)). unfold BOND_EPSILON. rewrite dec8_gt_eps by lia.
  destruct (Z.leb_spec 1 d) as [E|E]; [|by rewrite (proj2 (Z.ltb_lt _ _)) by lia].
  rewrite (proj2 (Z.ltb_ge d 1)) by lia. rewrite dec8_add, dec8_eps_ge by lia.
  by destruct (n <=? k + d).
Qed.

(** Crediting a debt adds exactly the victim's share, or what is still owed when
    that is less, records the transaction once, keeps the earlier ones, and marks the debt
    settled exactly when nothing is owed any more. *)
Theorem reversal_credit_exact now tx s r n k :
  debt n k r -> 0 <= s <= 2 ^ 50 -> has_char NL tx = false -> py_strip tx <> ""%string ->
  let d := Z.min s (n - k) in
  if d <? 1 then credited_row now tx (dec8 s) r = None
  else exists r', credited_row now tx (dec8 s) r = Some r' /\ debt n (k + d) r' /\
    (rv_status r' = STATUS_SETTLED <-> k + d = n) /\
    forall t, t ∈ credited_tx_set r' <-> t = lower_strip tx \/ t ∈ credited_tx_set r.
Proof.
  intros Hd Hs Hnl Hne. cbv zeta. rewrite (credited_units _ _ _ _ n k) by done. cbv zeta.
  set (d := Z.min s (n - k)). destruct (Z.ltb_spec d 1) as [|H]; [done|].
  destruct Hd as (Hk & Hn & Ho & Hp). eexists. split; [done|]. split_and!.
  - split_and!; cbn; [lia|lia|lia|done|done].
  - cbn. destruct (Z.leb_spec n (k + d)); split; intros; try done; lia.
  - intros t. by apply text_set_insert.
Qed.

(** ** Sequences of ledger requests *)

(** A request is one transaction: an exception rolls it back. *)
Definition bond_request {A} (c : BM A) : BM A :=
  fun db => match c db with (Ok a, db') => (Ok a, db') | (Err e, _) => (Err e, db) end.

Inductive bond_op :=
| OpSlash (new_id : string) (now : Z) (q : SlashRequest)
| OpReversal (new_id : string) (now : Z) (q : ReversalRequest)
| OpStatus (verify : string -> string -> option string -> float -> result string ChainProof)
    (now : Z) (slash_id status : string) (tx_hash error : option string)
| OpReversalStatus (now : Z) (rid status : string) (tx_hash error : option string).

Section Ledger.
Context (victim_bps pool_bps : Z).

Definition run_bond_op (o : bond_op) : BM unit :=
  bond_request match o with
  | OpSlash i now q => do! _ := record_slash victim_bps pool_bps i now q in m_ret tt
  | OpReversal i now q => do! _ := record_reversal i now q in m_ret tt
  | OpStatus v now i st tx e => do! _ := set_bond_slash_status v now i st tx e in m_ret tt
  | OpReversalStatus now i st tx e => do! _ := settle_reversal now i st tx e in m_ret tt
  end.
Definition run_bond_ops (os : list bond_op) (db : BondDb) : BondDb :=
  fold_left (fun db o => exec (run_bond_op o) db) os db.

(** What never changes of a recorded slash. *)
Definition same_slash (r r' : BondSlash) : Prop :=
  bs_id r' = bs_id r /\ slash_key r' = slash_key r /\ wallet_address r' = wallet_address r /\
  victim_wallet_address r' = victim_wallet_address r /\ victim_identity_id r' = victim_identity_id r /\
  bs_amount r' = bs_amount r /\ victim_amount r' = victim_amount r /\ pool_amount r' = pool_amount r.

Definition slash_ok (r : BondSlash) : Prop :=
  bs_status r ∈ STATUS_PENDING :: SETTLEABLE_STATUSES /\
  (bs_status r = STATUS_SETTLED -> bs_tx_hash r <> None).

Definition slash_units (r : BondSlash) : Prop := exists v, 0 <= v <= 2 ^ 50 /\ victim_amount r = dec8 v.
Definition debt_ok (r : SettlementReversal) : Prop := exists n k, debt n k r.

(** What never changes of a recorded debt. *)
Definition same_debt (r r' : SettlementReversal) : Prop :=
  reversal_id r' = reversal_id r /\ rv_case_id r' = rv_case_id r /\ rv_task_id r' = rv_task_id r /\
  rv_binding_id r' = rv_binding_id r /\ rv_victim_identity_id r' = rv_victim_identity_id r /\
  rv_victim_wallet r' = rv_victim_wallet r /\ owed_amount r' = owed_amount r.

Record ledger_wf (db : BondDb) : Prop := {
  wf_ids : NoDup (bs_id <$> slashes db);
  wf_keys : NoDup (slash_key <$> slashes db);
  wf_slashes : Forall slash_ok (slashes db);
  wf_units : Forall slash_units (slashes db);
  wf_debts : Forall debt_ok (reversals db);
  wf_debt_ids : NoDup (reversal_id <$> reversals db)
}.

(** Amounts arrive with at most eight decimals and below 2^50 units. *)
Definition on_grid (x : float) : Prop := exists n, 0 <= n <= 2 ^ 50 /\ x = dec8 n.
Definition op_on_grid (o : bond_op) : Prop :=
  match o with
  | OpSlash _ _ q => on_grid (q_amount q)
  | OpReversal _ _ q => on_grid (r_owed q)
  | _ => True
  end.

(** One request on the slash table: nothing, a new row, or a status change of one row. *)
Inductive slash_step (l : list BondSlash) : list BondSlash -> Prop :=
| step_none : slash_step l l
| step_new r : bs_id r ∉ bs_id <$> l -> slash_key r ∉ slash_key <$> l ->
    slash_ok r -> slash_units r -> slash_step l (l ++ [r])
| step_status r r' : r ∈ l -> same_slash r r' -> slash_ok r' ->
    slash_step l ((fun x => if decide (bs_id x = bs_id r') then r' else x) <$> l).

Inductive debt_step (l : list SettlementReversal) : list SettlementReversal -> Prop :=
| debt_none : debt_step l l
| debt_new r n : reversal_id r ∉ reversal_id <$> l -> 0 <= n <= 2 ^ 50 -> owed_amount r = dec8 n -> paid_amount r = dec8 0 ->
    debt_step l (l ++ [r])
| debt_write r r' : r ∈ l -> same_debt r r' -> debt_ok r' -> debt_step l ((fun x => if decide (reversal_id x = reversal_id r') then r' else x) <$> l).

Lemma settle_slash_ok now i st tx e db r db' : settle_slash now i st tx e db = (Ok r, db') ->
  exists r0, r0 ∈ slashes db /\ bs_id r0 = i /\ r = settled_row now st tx e r0 /\ slash_ok r /\
    exec (write_slash r) db = db'.
Proof.
  unfold settle_slash. destruct (mem st SETTLEABLE_STATUSES) eqn:Hm; cbn [negb]; [|done].
  intros H. apply m_bind_ok in H as (o & db1 & H1 & H2). unfold slash_with_id in H1. run_monad.
  destruct (head _) as [r0|] eqn:E; [|done]. apply head_filter_elem in E as [Hin Hid].
  destruct (decide _) as [|Hne]; [done|]. simplify_eq/=. exists r0. split_and!; [done|done|done| |done].
  split; [right; by apply mem_true|]. cbn. intros ->. destruct (clean tx) as [t|]; [done|]. tauto.
Qed.

Lemma write_same_ids r r' (l : list BondSlash) : r ∈ l -> same_slash r r' -> NoDup (bs_id <$> l) ->
  let f := fun x => if decide (bs_id x = bs_id r') then r' else x in
  bs_id <$> (f <$> l) = bs_id <$> l /\ slash_key <$> (f <$> l) = slash_key <$> l /\
  Forall (fun x => same_slash x (f x)) l.
Proof.
  intros Hr Hs Hn f.
  assert (Hf : Forall (fun x => same_slash x (f x)) l).
  { apply Forall_forall. intros x Hx. unfold f. destruct (decide _) as [E|]; [|by repeat split].
    assert (x = r) as ->; [|done]. destruct Hs as (Hi & _). rewrite Hi in E.
    clear f. induction l as [|y l IH]; [set_solver|]. cbn in Hn. apply NoDup_cons in Hn as [Hy Hn].
    apply elem_of_cons in Hr as [->|Hr], Hx as [->|Hx]; [done| | |by apply IH];
      exfalso; apply Hy; apply list_elem_of_fmap; eauto. }
  split_and!; [| |done]; rewrite <- list_fmap_compose; apply list_fmap_ext; intros i x Hx;
    apply list_elem_of_lookup_2 in Hx; rewrite Forall_forall in Hf; by destruct (Hf x Hx) as (? & ? & _).
Qed.

Lemma slash_step_wf l l' : slash_step l l' -> NoDup (bs_id <$> l) -> NoDup (slash_key <$> l) ->
  Forall slash_ok l -> Forall slash_units l ->
  NoDup (bs_id <$> l') /\ NoDup (slash_key <$> l') /\ Forall slash_ok l' /\ Forall slash_units l' /\
  forall r, r ∈ l -> exists r', r' ∈ l' /\ same_slash r r'.
Proof.
  intros H Hi Hk Ho Hu. destruct H as [|r H1 H2 H3 H4|r r' Hr Hs Hok].
  - split_and!; [done..|]. intros r Hr. exists r. by repeat split.
  - rewrite !fmap_app, !Forall_app. split_and!; [| |done|by apply Forall_singleton|done|by apply Forall_singleton|].
    + apply NoDup_app. split_and!; [done|cbn; intros x Hx ->%list_elem_of_singleton; done|apply NoDup_singleton].
    + apply NoDup_app. split_and!; [done|cbn; intros x Hx ->%list_elem_of_singleton; done|apply NoDup_singleton].
    + intros r0 Hr. exists r0. split; [set_solver|by repeat split].
  - destruct (write_same_ids r r' l Hr Hs Hi) as (-> & -> & Hf). split_and!; [done|done| | |].
    + rewrite Forall_fmap. eapply Forall_impl; [exact Ho|]. intros x Hx. cbn. by destruct (decide _).
    + rewrite Forall_fmap. rewrite Forall_forall in Hf, Hu |- *. intros x Hx. cbn.
      destruct (Hf x Hx) as (_ & _ & _ & _ & _ & _ & E & _). destruct (Hu x Hx) as (v & Hv & Ev).
      exists v. by rewrite E.
    + intros x Hx. rewrite Forall_forall in Hf. eexists. split; [by apply list_elem_of_fmap_2|]. by apply Hf.
Qed.

Lemma credit_frame now s p db o db' : credit_from_settled_slash now s p db = (Ok o, db') ->
  slash_units s -> Forall debt_ok (reversals db) ->
  slashes db' = slashes db /\ debt_step (reversals db) (reversals db').
Proof.
  intros H (v & Hv & Ev) Hd. unfold credit_from_settled_slash in H.
  destruct (decide _) as [_|_]; [run_monad; split; [done|constructor]|].
  destruct (decide _) as [_|_]; [done|]. destruct (clean (bs_tx_hash s)) as [tx|]; [|done]. destruct p as [p|]; [|done].
  apply m_bind_ok in H as (r & db1 & H1 & H).
  assert (db1 = db /\ forall r0, r = Some r0 -> r0 ∈ reversals db) as [-> Hr].
  { unfold reversal_for, find_reversal in H1. run_monad. destruct (head (filter _ (reversals db))) eqn:E; simplify_eq/=.
    - split; [done|]. intros r0 [= <-]. by apply head_filter_elem in E as [? _].
    - destruct (clean _); simplify_eq/=; split; [done| |done|done]. intros r0 E'. by apply head_filter_elem in E' as [? _]. }
  destruct r as [r|]; [|run_monad; split; [done|constructor]].
  apply m_bind_ok in H as (u & db2 & H2 & H). unfold lift in H2. simplify_eq/=.
  destruct (mem _ _); [run_monad; split; [done|constructor]|].
  rewrite Forall_forall in Hd. destruct (Hd r (Hr r eq_refl)) as (n & k & Hdebt).
  rewrite Ev, (credited_units _ _ _ _ n k) in H by done. cbv zeta in H.
  destruct (Z.ltb_spec (Z.min v (n - k)) 1); [run_monad; split; [done|constructor]|].
  run_monad. split; [done|].
  match goal with |- debt_step _ ((fun x => if _ then ?R else x) <$> _) => apply (debt_write _ r R) end; [by apply Hr|done|].
  exists n, (k + Z.min v (n - k)).
  destruct Hdebt as (? & ? & ? & ?). split_and!; cbn; [lia|lia|lia|done|done].
Qed.

Lemma same_settled now st tx e r : same_slash r (settled_row now st tx e r).
Proof. by repeat split. Qed.

Lemma record_slash_step i now q db : 0 <= victim_bps <= 10000 -> on_grid (q_amount q) ->
  slash_step (slashes db) (slashes (exec (record_slash victim_bps pool_bps i now q) db)) /\
  reversals (exec (record_slash victim_bps pool_bps i now q) db) = reversals db.
Proof.
  intros Hb (n & Hn & Hq). unfold record_slash, find_slash, insert_slash. run_monad.
  destruct (head _) as [r|] eqn:E; simplify_eq/=; [split; [constructor|done]|].
  destruct (bool_decide _ || bool_decide _) eqn:Hbad; simplify_eq/=; [split; [constructor|done]|].
  apply orb_false_iff in Hbad as [H1%bool_decide_eq_false H2%bool_decide_eq_false].
  split; [|done]. apply step_new; [done|done| |].
  - unfold new_slash. destruct (split _ _ _ _) as [[[? ?] ?] ?]. split; cbn; [left|done].
  - unfold new_slash. rewrite Hq.
    destruct (slash_split_conserves victim_bps pool_bps n (bool_decide (clean (q_victim_wallet q) <> None)) Hn Hb)
      as (v & Hv & -> & _). exists v. cbn. split; [lia|done].
Qed.

Lemma record_reversal_step i now q db : on_grid (r_owed q) ->
  slashes (exec (record_reversal i now q) db) = slashes db /\
  debt_step (reversals db) (reversals (exec (record_reversal i now q) db)).
Proof.
  intros (n & Hn & Hq). unfold record_reversal, find_reversal, insert_reversal.
  destruct (negb _); [split; [done|constructor]|]. run_monad.
  destruct (head _); simplify_eq/=; [split; [done|constructor]|].
  destruct (existsb _ _) eqn:Hx; simplify_eq/=; [split; [done|constructor]|]. split; [done|].
  apply (debt_new _ _ n); [|done| |done].
  { cbn. intros (x & Hi & Hin)%list_elem_of_fmap. apply eq_true_false_abs in Hx; [done|]. apply existsb_exists.
    exists x. split; [by apply list_elem_of_In|]. unfold reversal_conflict. by rewrite bool_decide_eq_true_2. } cbn -[float_or_zero py_max round8 dec8]. by rewrite Hq, dec8_or_zero, dec8_max, dec8_round by done.
Qed.

Lemma status_step v now i st tx e db r db' : ledger_wf db ->
  set_bond_slash_status v now i st tx e db = (Ok r, db') ->
  slash_step (slashes db) (slashes db') /\ debt_step (reversals db) (reversals db').
Proof.
  intros Hwf H. unfold set_bond_slash_status in H.
  apply m_bind_ok in H as (row & db0 & H0 & H). unfold slash_with_id, m_get in H0. injection H0 as Hrow <-.
  destruct row as [row|]; [clear Hrow|done].
  apply m_bind_ok in H as (proof & db1 & H1 & H).
  assert (db1 = db) as -> by (unfold m_ret, m_raise in H1; split_matches).
  apply m_bind_ok in H as (row1 & db2 & H2 & H). apply settle_slash_ok in H2 as (r0 & Hin & _ & -> & Hok & <-).
  assert (Hst : slash_step (slashes db) (slashes (exec (write_slash (settled_row now (lower_strip st) (clean tx) e r0)) db))).
  { apply (step_status _ r0); [done|apply same_settled|done]. }
  apply m_bind_ok in H as (o & db3 & H3 & H). unfold m_ret in H. simplify_eq/=.
  destruct (decide _); [unfold m_ret in H3; simplify_eq/=; split; [done|constructor]|].
  apply credit_frame in H3 as [-> H3]; [by split| |apply Hwf].
  pose proof (wf_units _ Hwf) as Hu. rewrite Forall_forall in Hu.
  destruct (Hu r0 Hin) as (u & Hv & Ev). by exists u.
Qed.

Lemma debt_written r r' (l : list SettlementReversal) x : r ∈ l -> same_debt r r' -> NoDup (reversal_id <$> l) -> x ∈ l ->
  same_debt x (if decide (reversal_id x = reversal_id r') then r' else x).
Proof.
  intros Hr Hs Hn Hx. destruct (decide _) as [E|]; [|by repeat split].
  assert (x = r) as ->; [|done]. rewrite (proj1 Hs) in E. clear Hs.
  induction l as [|y l IH]; [set_solver|]. cbn in Hn. apply NoDup_cons in Hn as [Hy Hn].
  apply elem_of_cons in Hr as [->|Hr], Hx as [->|Hx]; [done| | |by apply IH]; exfalso; apply Hy; apply list_elem_of_fmap; eauto.
Qed.
Lemma debt_step_ok l l' : debt_step l l' -> Forall debt_ok l -> NoDup (reversal_id <$> l) ->
  Forall debt_ok l' /\ NoDup (reversal_id <$> l') /\ forall r, r ∈ l -> exists r', r' ∈ l' /\ same_debt r r'.
Proof.
  intros [|r n Hf Hn Ho Hp|r r' Hr Hs H] Hl Hi.
  - split_and!; [done|done|]. intros r Hr. exists r. by repeat split.
  - rewrite Forall_app, fmap_app. split_and!; [done| | |].
    + apply Forall_singleton. exists n, 0. split_and!; [lia|lia|lia|done|done].
    + apply NoDup_app. split_and!; [done|cbn; intros x Hx ->%list_elem_of_singleton; done|apply NoDup_singleton].
    + intros r0 Hr0. exists r0. split; [set_solver|by repeat split].
  - split_and!.
    + rewrite Forall_fmap. eapply Forall_impl; [exact Hl|]. intros x Hx. cbn. by destruct (decide _).
    + rewrite <- list_fmap_compose. erewrite list_fmap_ext; [exact Hi|]. intros i x Hx%list_elem_of_lookup_2. cbn.
      by destruct (debt_written r r' l x Hr Hs Hi Hx) as [? _].
    + intros x Hx. eexists. split; [by apply list_elem_of_fmap_2|]. by apply (debt_written r r' l).
Qed.

Lemma reversal_status_step now i st tx e db r db' : Forall debt_ok (reversals db) ->
  settle_reversal now i st tx e db = (Ok r, db') ->
  slashes db' = slashes db /\ debt_step (reversals db) (reversals db').
Proof.
  intros Hd H. unfold settle_reversal in H. destruct (negb _); [done|].
  apply m_bind_ok in H as (row & db0 & H0 & H). unfold m_get in H0. injection H0 as Hrow <-.
  destruct row as [row|]; [|done]. apply head_filter_elem in Hrow as [Hin _].
  destruct (decide _) as [_|_]; [done|]. unfold write_reversal in H. run_monad. split; [done|].
  match goal with |- debt_step _ ((fun x => if _ then ?R else x) <$> _) => apply (debt_write _ row R) end; [done|done|].
  rewrite Forall_forall in Hd. destruct (Hd row Hin) as (n & k & ? & ? & ? & ?). by exists n, k.
Qed.

Lemma bond_op_step o db : 0 <= victim_bps <= 10000 -> op_on_grid o -> ledger_wf db ->
  slash_step (slashes db) (slashes (exec (run_bond_op o) db)) /\
  debt_step (reversals db) (reversals (exec (run_bond_op o) db)).
Proof.
  intros Hb Hg Hwf. unfold run_bond_op, bond_request, exec.
  assert (Hsame : slash_step (slashes db) (slashes db) /\ debt_step (reversals db) (reversals db))
    by (split; constructor).
  destruct o as [i now q|i now q|v now i st tx e|now i st tx e];
    (match goal with |- context [m_bind ?c ?k db] =>
       destruct (m_bind c k db) as [[u|x] db'] eqn:E; [|exact Hsame] end);
    cbn [snd]; apply m_bind_ok in E as (a & db1 & E & Er); unfold m_ret in Er; injection Er as _ <-.
  - destruct (record_slash_step i now q db Hb Hg) as [H1 H2]. unfold exec in *. rewrite E in *.
    cbn [snd] in *. rewrite H2. split; [done|constructor].
  - destruct (record_reversal_step i now q db Hg) as [H1 H2]. unfold exec in *. rewrite E in *.
    cbn [snd] in *. rewrite H1. split; [constructor|done].
  - by eapply status_step.
  - apply reversal_status_step in E as [-> H2]; [|apply Hwf]. split; [constructor|done].
Qed.

Lemma bond_op_wf o db : 0 <= victim_bps <= 10000 -> op_on_grid o -> ledger_wf db ->
  ledger_wf (exec (run_bond_op o) db) /\
  (forall r, r ∈ slashes db -> exists r', r' ∈ slashes (exec (run_bond_op o) db) /\ same_slash r r') /\
  (forall r, r ∈ reversals db -> exists r', r' ∈ reversals (exec (run_bond_op o) db) /\ same_debt r r').
Proof.
  intros Hb Hg Hwf. destruct (bond_op_step o db Hb Hg Hwf) as [H1 H2]. destruct Hwf.
  apply slash_step_wf in H1 as (? & ? & ? & ? & ?); [|done..].
  apply debt_step_ok in H2 as (? & ? & ?); [|done..]. done.
Qed.
End Ledger.

Lemma same_slash_trans r1 r2 r3 : same_slash r1 r2 -> same_slash r2 r3 -> same_slash r1 r3.
Proof. intros (? & ? & ? & ? & ? & ? & ? & ?) (? & ? & ? & ? & ? & ? & ? & ?). split_and!; congruence. Qed.
Lemma same_debt_trans r1 r2 r3 : same_debt r1 r2 -> same_debt r2 r3 -> same_debt r1 r3.
Proof. intros (? & ? & ? & ? & ? & ? & ?) (? & ? & ? & ? & ? & ? & ?). split_and!; congruence. Qed.

(** C18. Whatever slashes, debts and status changes are requested, with amounts that are exact
    multiples of 1e-8 of at most 2^50 of them and a victim's share of 0 to 10000 basis points,
    with any failures and any answers of the chain: a subject is slashed at most once per
    source, the terms of a recorded slash (who, whom, how much and how it is split) and of a
    recorded debt (case, task, victim, amount owed) never change, a settled slash names a
    transaction, and no debt is ever paid beyond what is owed. *)
Theorem bond_ledger_invariant victim_bps pool_bps os db :
  0 <= victim_bps <= 10000 -> Forall op_on_grid os -> ledger_wf db ->
  let db' := run_bond_ops victim_bps pool_bps os db in
  ledger_wf db' /\
  (forall r, r ∈ slashes db -> exists r', r' ∈ slashes db' /\ same_slash r r') /\
  (forall r, r ∈ reversals db -> exists r', r' ∈ reversals db' /\ same_debt r r').
Proof.
  intros Hb Hos. revert db. induction Hos as [|o os Ho Hos IH]; intros db Hwf; cbn.
  { split_and!; [done| |]; intros r Hr; exists r; by repeat split. }
  destruct (bond_op_wf victim_bps pool_bps o db Hb Ho Hwf) as (Hwf1 & H1 & D1). destruct (IH _ Hwf1) as (Hwf2 & H2 & D2).
  split_and!; [done| |].
  - intros r Hr. destruct (H1 r Hr) as (r1 & Hr1 & E1), (H2 r1 Hr1) as (r2 & Hr2 & E2). eauto using same_slash_trans.
  - intros r Hr. destruct (D1 r Hr) as (r1 & Hr1 & E1), (D2 r1 Hr1) as (r2 & Hr2 & E2). eauto using same_debt_trans.
Qed.

(** ** Replays and reissues *)

Lemma clean_strip s t : clean s = Some t -> py_strip t = t /\ t <> ""%string.
Proof.
  unfold clean. destruct (decide _) as [|H]; [done|]. intros [= <-]. split; [apply py_strip_idem|done].
Qed.

Definition put_reversal (r' x : SettlementReversal) : SettlementReversal :=
  if decide (reversal_id x = reversal_id r') then r' else x.

(** Rewriting the row a slash pays does not change which row it pays. *)
Lemma reversal_for_written s db r r' : NoDup (reversal_id <$> reversals db) ->
  outcome (reversal_for s) db = Ok (Some r) -> reversal_id r' = reversal_id r ->
  rv_case_id r' = rv_case_id r -> rv_victim_identity_id r' = rv_victim_identity_id r ->
  rv_victim_wallet r' = rv_victim_wallet r ->
  reversal_for s (exec (write_reversal r') db) = (Ok (Some r'), exec (write_reversal r') db).
Proof.
  intros Hn H Hi Hc Hv Hw.
  assert (Hf : forall x, x ∈ reversals db -> r ∈ reversals db -> put_reversal r' x = x \/ x = r /\ put_reversal r' x = r').
  { intros x Hx Hr. unfold put_reversal. rewrite Hi. destruct (decide _) as [E|]; [|by left].
    right. split; [|done]. by apply (NoDup_fmap_inj reversal_id (reversals db)). }
  assert (Hput : put_reversal r' r = r') by (unfold put_reversal; by rewrite decide_True).
  unfold outcome, exec, write_reversal, reversal_for, find_reversal in *. run_monad.
  change (fun r'0 => if decide (reversal_id r'0 = reversal_id r') then r' else r'0) with (put_reversal r').
  destruct (head (filter (fun r0 => rv_case_id r0 = source_id s /\ rv_victim_identity_id r0 = victim_identity_id s)
    (reversals db))) as [x|] eqn:E.
  - simplify_eq/=. destruct (head_filter_elem _ _ _ E) as [Hin _]. rewrite head_filter_fmap, E; cbn [fmap option_fmap option_map].
    + by rewrite Hput.
    + intros x Hx. destruct (Hf x Hx Hin) as [->|[-> ->]]; [done|]. by rewrite Hc, Hv.
  - destruct (clean _) as [w|]; [|done]. cbn in H. injection H as E2.
    destruct (head_filter_elem _ _ _ E2) as [Hin _]. rewrite head_filter_fmap, E; cbn [fmap option_fmap option_map]; cycle 1.
    { intros x Hx. destruct (Hf x Hx Hin) as [->|[-> ->]]; [done|]. by rewrite Hc, Hv. }
    cbn [reversals]. rewrite head_filter_fmap, E2; cbn [fmap option_fmap option_map]; [by rewrite Hput|].
    intros x Hx. destruct (Hf x Hx Hin) as [->|[-> ->]]; [done|]. by rewrite Hc, Hw.
Qed.

(** Crediting the same settled slash with the same chain proof a second time changes
    nothing: one transaction pays a debt once, however often its status is posted. *)
Theorem reversal_credit_idempotent now now' s p db o db1 :
  NoDup (reversal_id <$> reversals db) -> has_char NL (default ""%string (bs_tx_hash s)) = false ->
  credit_from_settled_slash now s (Some p) db = (Ok o, db1) ->
  credit_from_settled_slash now' s (Some p) db1 = (Ok o, db1).
Proof.
  intros Hn Hnl H. unfold credit_from_settled_slash in *. destruct (decide _) as [_|_]; [by run_monad|].
  destruct (decide _) as [_|_]; [done|]. destruct (clean (bs_tx_hash s)) as [tx|] eqn:Htx; [|done].
  apply m_bind_ok in H as (r & db0 & H1 & H).
  assert (db0 = db) as -> by (unfold reversal_for, find_reversal in H1; run_monad; split_matches).
  destruct r as [r|]; [|unfold m_ret in H; simplify_eq/=; unfold m_bind; by rewrite H1].
  apply m_bind_ok in H as (u & db2 & H2 & H). unfold lift in H2. injection H2 as Hfit ->.
  assert (Hsame : m_bind (reversal_for s) (fun x => match x with
    | None => m_ret None
    | Some r => m_bind (lift (proof_fits p tx s r)) (fun _ => if mem (py_lower tx) (credited_tx_set r) then m_ret (Some r)
      else match credited_row now' tx (victim_amount s) r with
           | None => m_ret (Some r) | Some r' => m_bind (write_reversal r') (fun _ => m_ret (Some r')) end) end) db2 =
    (if mem (py_lower tx) (credited_tx_set r) then m_ret (Some r)
     else match credited_row now' tx (victim_amount s) r with
           | None => m_ret (Some r) | Some r' => m_bind (write_reversal r') (fun _ => m_ret (Some r')) end) db2).
  { unfold m_bind at 1. rewrite H1. unfold m_bind at 1, lift. by rewrite Hfit. }
  destruct (mem _ _) eqn:Hm; [unfold m_ret in H; simplify_eq/=; by rewrite Hsame|].
  destruct (credited_row now tx (victim_amount s) r) as [r'|] eqn:Hr'; cycle 1.
  { unfold m_ret in H. simplify_eq/=. rewrite Hsame. unfold credited_row in *. by destruct (_ >? _)%float. }
  apply m_bind_ok in H as (u' & db3 & H3 & H). clear Hsame.
  assert (db3 = exec (write_reversal r') db2) as -> by (unfold exec; by rewrite H3).
  unfold m_ret in H. injection H as <- <-.
  assert (Hkeep : exists paid st txs t, r' = update_reversal paid st (Some tx) (rv_last_error r) (Some txs) now t r /\
    txs = py_join newline (insert_text (lower_strip tx) (credited_tx_set r))).
  { unfold credited_row in Hr'. destruct (_ >? _)%float; [|done]. simplify_eq. by do 4 eexists. }
  destruct Hkeep as (paid & st & txs & t & -> & ->). set (r' := update_reversal _ _ _ _ _ _ _ _) in *.
  unfold m_bind at 1. rewrite (reversal_for_written s db2 r r') by (try done; unfold outcome; by rewrite H1).
  change (proof_fits p tx s r') with (proof_fits p tx s r). unfold m_bind at 1, lift. rewrite Hfit.
  assert (mem (py_lower tx) (credited_tx_set r') = true) as ->; [|done].
  destruct (clean_strip _ _ Htx) as [Hst Hne]. apply mem_true. unfold r', credited_tx_set at 1. cbn [credited_txs update_reversal default].
  apply text_set_insert; [|by rewrite Hst|left; unfold lower_strip; by rewrite Hst].
  unfold clean in Htx. destruct (decide _) as [|_]; [done|]. injection Htx as <-.
  by apply rstrip_char, lstrip_char.
Qed.

(** The status route takes a settled slash back to failed, without a transaction and
    whatever the chain says, and the payment instructions then list it again: the same
    bond would be paid out twice. *)
Theorem settled_slash_reissued verify vault now r db :
  NoDup (bs_id <$> slashes db) -> r ∈ slashes db -> bs_status r = STATUS_SETTLED ->
  let run := set_bond_slash_status verify now (bs_id r) "failed" None None in
  is_ok (outcome run db) = true /\
  (instruction_of vault r ∉ slash_instructions vault (slashes db)) /\
  instruction_of vault r ∈ slash_instructions vault (slashes (exec run db)).
Proof.
  intros Hn Hr Hs run.
  assert (Hhead : head (filter (fun x => bs_id x = bs_id r) (slashes db)) = Some r).
  { destruct (head _) as [x|] eqn:E.
    - apply head_filter_elem in E as [Hx E]. f_equal. by apply (NoDup_fmap_inj bs_id (slashes db)).
    - assert (r ∈ filter (fun x => bs_id x = bs_id r) (slashes db)) as H by (by apply list_elem_of_filter).
      destruct (filter _ _); [set_solver|done]. }
  assert (Hrun : run db = (Ok (settled_row now STATUS_FAILED None None r),
    exec (write_slash (settled_row now STATUS_FAILED None None r)) db)).
  { subst run. unfold set_bond_slash_status, slash_with_id. unfold m_bind at 1, m_get. rewrite Hhead.
    unfold m_bind at 1. rewrite decide_True by done. cbn [m_ret]. unfold settle_slash, slash_with_id.
    change (lower_strip "failed") with STATUS_FAILED. change (negb (mem STATUS_FAILED SETTLEABLE_STATUSES)) with false.
    unfold m_bind, m_get. cbv iota. rewrite Hhead. done. }
  unfold outcome, exec at 1. rewrite Hrun. split_and!; [done| |].
  - unfold slash_instructions. rewrite list_elem_of_fmap. intros (x & Ex & Hx).
    apply list_elem_of_filter in Hx as [Hst Hx]. assert (bs_id x = bs_id r) as Hid by (by injection Ex).
    apply (NoDup_fmap_inj bs_id (slashes db)) in Hid as ->; [|done..]. rewrite Hs in Hst. set_solver.
  - unfold slash_instructions. apply list_elem_of_fmap. exists (settled_row now STATUS_FAILED None None r).
    split; [done|]. apply list_elem_of_filter. split; [right; left|]. cbn. apply list_elem_of_fmap.
    exists r. split; [|done]. by rewrite decide_True.
Qed.

(** ** Witnesses *)

Definition demo_request : SlashRequest :=
  {| q_subject_kind := SUBJECT_ARBITRATOR_ROLE; q_subject_id := "arb"; q_wallet := Some "0xA"%string;
     q_victim_wallet := Some "0xB"%string; q_victim_identity := Some "seller"%string;
     q_source_kind := SOURCE_ARBITRATION_OVERTURN; q_source_id := "case"; q_amount := dec8 1000000001;
     q_reason := None |}.
Definition demo_debt : ReversalRequest :=
  {| r_case_id := "case"; r_task_id := "task"; r_binding_id := None;
     r_victim_identity := Some "seller"%string; r_victim_wallet := Some "0xb"%string;
     r_owed := dec8 3000000000; r_funding := FUNDING_BENCH_BOND; r_note := None |}.
Definition demo_verify (tx _ : string) (victim : option string) (amount : float) : result string ChainProof :=
  Ok {| cp_tx_hash := Some tx; cp_victim := victim; cp_amount_usdc := Some amount |}.
Definition demo_ops : list bond_op :=
  [OpSlash "s1" 1 demo_request; OpReversal "v1" 2 demo_debt; OpSlash "s2" 3 demo_request;
   OpStatus demo_verify 4 "s1" " Settled " (Some "0xTX"%string) None].
Definition demo_bonds : BondDb := Eval vm_compute in
  run_bond_ops 8000 2000 demo_ops {| slashes := []; reversals := [] |}.
Definition demo_slash : BondSlash := Eval vm_compute in
  default (new_slash 8000 2000 "x" 0 demo_request) (head (slashes demo_bonds)).
Definition demo_reversal : SettlementReversal := Eval vm_compute in new_reversal "v1" 2 demo_debt.

(** The repeated slash is not recorded twice, and the settled one paid its share. *)
Example demo_bonds_paid :
  length (slashes demo_bonds) = 1%nat /\
  (fun r => (paid_amount r, rv_status r)) <$> reversals demo_bonds = [(dec8 800000001, STATUS_SUBMITTED)].
Proof. split; by vm_compute. Qed.

Lemma slash_split_conserves_witness :
  exists v, 0 <= v <= 1000000001 /\
    split 8000 2000 (dec8 1000000001) true = (dec8 v, dec8 (1000000001 - v), 8000, 2000) /\
    Z.abs (10000 * v - 8000 * 1000000001) < 10000.
Proof. apply (slash_split_conserves 8000 2000 1000000001 true); lia. Defined.

Lemma reversal_credit_exact_witness :
  exists r', credited_row 9 "0xTX" (dec8 800000001) demo_reversal = Some r' /\ debt 3000000000 800000001 r' /\
    (rv_status r' = STATUS_SETTLED <-> 800000001 = 3000000000) /\
    forall t, t ∈ credited_tx_set r' <-> t = lower_strip "0xTX" \/ t ∈ credited_tx_set demo_reversal.
Proof.
  apply (reversal_credit_exact 9 "0xTX" 800000001 demo_reversal 3000000000 0);
    [split_and!; [lia|lia|lia|by vm_compute..]|lia|by vm_compute|by vm_compute].
Defined.

Lemma bond_ledger_invariant_witness :
  ledger_wf (run_bond_ops 8000 2000 demo_ops {| slashes := []; reversals := [] |}).
Proof.
  apply (bond_ledger_invariant 8000 2000 demo_ops {| slashes := []; reversals := [] |}); [lia| |].
  - repeat apply Forall_cons_2; cbn -[dec]; [eexists; split; [|reflexivity]; lia..|done|by apply Forall_nil].
  - split; cbn; by constructor.
Defined.

Lemma reversal_credit_idempotent_witness :
  let s := settled_row 4 STATUS_SETTLED (Some "0xTX"%string) None (new_slash 8000 2000 "s1" 1 demo_request) in
  let p := {| cp_tx_hash := Some "0xTX"%string; cp_victim := Some "0xB"%string; cp_amount_usdc := Some (bs_amount s) |} in
  let db := {| slashes := [s]; reversals := [demo_reversal] |} in
  let db1 := exec (credit_from_settled_slash 4 s (Some p)) db in
  db1 <> db /\ exec (credit_from_settled_slash 5 s (Some p)) db1 = db1.
Proof.
  cbv zeta. split; [intros H; apply (f_equal (fun d => paid_amount <$> reversals d)) in H; by vm_compute in H|].
  set (s := settled_row _ _ _ _ _). set (p := Build_ChainProof _ _ _).
  set (db := {| slashes := [s]; reversals := [demo_reversal] |}).
  destruct (credit_from_settled_slash 4 s (Some p) db) as [[o|e] db1] eqn:E.
  - unfold exec. rewrite E. cbn [snd].
    rewrite (reversal_credit_idempotent 4 5 s p db o db1); [done|apply NoDup_singleton|by vm_compute|exact E].
  - exfalso. assert (is_ok (outcome (credit_from_settled_slash 4 s (Some p)) db) = true) as H by (by vm_compute).
    unfold outcome in H. by rewrite E in H.
Defined.

Lemma settled_slash_reissued_witness :
  instruction_of None demo_slash ∈ slash_instructions None
    (slashes (exec (set_bond_slash_status demo_verify 9 (bs_id demo_slash) "failed" None None) demo_bonds)).
Proof.
  apply (settled_slash_reissued demo_verify None 9 demo_slash demo_bonds);
    [apply NoDup_singleton|left|reflexivity].
Defined.
