(* ===== verification/Amounts.v ===== *)
(** * Amounts: minor units, splits, auto-arbitration, progress curves

    [services/settlement_amounts.py], [services/auto_arbitration_rules.py] and
    [services/progress_curve.py].  The number of token decimals is a setting, a
    parameter here.  Messages that interpolate numbers keep their fixed part. *)
From S2P Require Import Prelude PyFloat FloatFacts FloatMul PyJson.

(** ** Minor units *)

Section Amounts.
(** [token_decimals()]. *)
Context (decimals : Z).

Definition scale : float := float_of_Z (10 ^ decimals).

(** [int(round(x))]. *)
Definition round_int (x : float) : result Exc Z :=
  match py_round x with
  | Some n => Ok n
  | None => Err (if is_nan x then ValueError "cannot convert float NaN to integer"
                 else OverflowError)
  end.

(** An int operand of a float operation. *)
Definition int_to_float (n : Z) : result Exc float :=
  let x := float_of_Z n in if is_finite x then Ok x else Err OverflowError.

Definition to_minor_units (amount_usdc : float) : result Exc Z :=
  round_int (amount_usdc * scale)%float.

Definition from_minor_units (amount_minor : Z) : result Exc float :=
  let? x := int_to_float amount_minor in Ok (x / scale)%float.

Definition normalize_amount (amount_usdc : float) : result Exc float :=
  let? n := to_minor_units amount_usdc in from_minor_units n.

Definition excess_decimals (amount_usdc : float) : result Exc bool :=
  let scaled := (amount_usdc * scale)%float in
  let? n := round_int scaled in
  let? x := int_to_float n in
  Ok (fabs (scaled - x) >=? f1em6)%float.

Definition assert_token_precision (amount_usdc : float) (field : string) : result Exc unit :=
  let? bad := excess_decimals amount_usdc in
  if bad then Err (HTTPException 400 (field ++
    " has more decimals than the settlement token can represent"))
  else Ok tt.

(** [max(0.0, min(100.0, pct))] once nan is read as 0. *)
Definition clamp_percent (p : float) : float :=
  let p := if is_nan p then fzero else p in py_max fzero (py_min f100 p).

(** The settled part in minor units. *)
Definition settled_minor (escrow_minor : Z) (settled_percent : float) : result Exc Z :=
  let? e := int_to_float escrow_minor in
  let? n := round_int (e * clamp_percent settled_percent / f100)%float in
  Ok (Z.max 0 (Z.min escrow_minor n)).

Definition split_amounts (escrow_amount settled_percent : float) : result Exc (float * float) :=
  let? escrow_minor := to_minor_units escrow_amount in
  let? settled := settled_minor escrow_minor settled_percent in
  let? a := from_minor_units settled in
  let? b := from_minor_units (escrow_minor - settled) in
  Ok (a, b).
End Amounts.

(** ** Auto-arbitration *)

Record AutoArbitrationContext := {
  delivery_overdue : bool;
  has_success_receipt : bool;
  bundle_receipt_ids_ok : option bool;
  bundle_step_counts_ok : option bool;
  bundle_receipt_hashes_match : option bool;
  notes : list string
}.

Definition is_hex_lower (c : Ascii.ascii) : bool :=
  let n := Ascii.nat_of_ascii c in ((48 <=? n) && (n <=? 57) || (97 <=? n) && (n <=? 102))%nat.

(** [_HEX64.fullmatch]. *)
Definition hex64 (s : string) : bool :=
  (String.length s =? 64)%nat && forallb is_hex_lower (String.list_ascii_of_string s).

Definition hashes_well_formed (hashes : list json) : bool :=
  negb (bool_decide (hashes = [])) &&
  forallb (fun h => match h with JStr s => hex64 (py_lower (py_strip s)) | _ => false end) hashes.

(** The rows the context is built from. *)
Record Receipt := { rc_id : string; rc_step_index : Z; rc_success : bool }.
Record Bundle := {
  b_receipt_ids : list string;
  b_total_steps : Z;
  b_successful_steps : Z;
  b_failed_steps : Z;
  b_receipt_hashes : list json
}.

(** [sorted(receipts, key=step_index)]: stable. *)
Fixpoint insert_receipt (r : Receipt) (l : list Receipt) : list Receipt :=
  match l with
  | [] => [r]
  | x :: l' => if rc_step_index r <? rc_step_index x then r :: l else x :: insert_receipt r l'
  end.
Definition sort_receipts (l : list Receipt) : list Receipt :=
  fold_left (fun acc r => insert_receipt r acc) l [].

Section Context_.
(** [execution_receipt_bundle_digest]. *)
Context (digest : Receipt -> string).

Definition note (b : bool) (s : string) : list string := if b then [s] else [].

(** [build_auto_arbitration_context]; [delivered] says whether the status is DELIVERED. *)
Definition build_auto_arbitration_context (now : Z) (delivered : bool)
    (delivery_deadline_at : option Z) (receipts : list Receipt) (bundle : option Bundle) :
    AutoArbitrationContext :=
  let overdue := match delivery_deadline_at with
                 | Some d => (d <? now) && negb delivered
                 | None => false
                 end in
  let success := existsb rc_success receipts in
  let n0 := note overdue "delivery_deadline passed without delivered status" ++
            note (negb success) "no execution receipt with status success" in
  match bundle, receipts with
  | Some b, _ :: _ =>
      let ordered := sort_receipts receipts in
      let ids_ok := bool_decide (b_receipt_ids b = rc_id <$> ordered) in
      let n := Z.of_nat (length ordered) in
      let counts_ok := (b_total_steps b =? n) && (b_successful_steps b + b_failed_steps b <=? n)
                       && (0 <=? b_successful_steps b) && (0 <=? b_failed_steps b) in
      let hashes := b_receipt_hashes b in
      let declared := (fun h => match h with JStr s => py_lower (py_strip s) | _ => "" end)%string <$> hashes in
      let hashes_ok := hashes_well_formed hashes && bool_decide (declared = digest <$> ordered) in
      {| delivery_overdue := overdue; has_success_receipt := success;
         bundle_receipt_ids_ok := Some ids_ok; bundle_step_counts_ok := Some counts_ok;
         bundle_receipt_hashes_match := Some hashes_ok;
         notes := n0 ++
           note (negb ids_ok) "evidence bundle receipt_ids order or membership mismatch vs stored receipts" ++
           note (negb counts_ok) "evidence bundle total_steps / success+fail counts inconsistent with stored receipts" ++
           (if hashes_well_formed hashes
            then note (negb hashes_ok) "evidence bundle receipt_hashes do not match recomputed digests of stored receipts"
            else ["evidence bundle receipt_hashes are not all 64-char lowercase hex"%string]) |}
  | Some _, [] =>
      {| delivery_overdue := overdue; has_success_receipt := success;
         bundle_receipt_ids_ok := Some false; bundle_step_counts_ok := Some false;
         bundle_receipt_hashes_match := Some false;
         notes := n0 ++ ["evidence bundle present but no execution receipts stored"%string] |}
  | None, _ =>
      {| delivery_overdue := overdue; has_success_receipt := success;
         bundle_receipt_ids_ok := None; bundle_step_counts_ok := None;
         bundle_receipt_hashes_match := None; notes := n0 |}
  end.
End Context_.

Definition is_false (b : option bool) : bool := match b with Some false => true | _ => false end.

Definition integrity_bad (ctx : AutoArbitrationContext) : bool :=
  is_false (bundle_receipt_ids_ok ctx) || is_false (bundle_receipt_hashes_match ctx).

Section Arbitration.
Context (decimals : Z).

Definition buyer_wins (escrow : float) (why : string) : result Exc (float * float * string) :=
  let? r := normalize_amount decimals escrow in Ok (fzero, r, why).

Definition partial_split (escrow p : float) (why : string) : result Exc (float * float * string) :=
  let? sr := split_amounts decimals escrow p in Ok (fst sr, snd sr, why).

Definition adjust_auto_split_for_rules (ctx : AutoArbitrationContext)
    (confirmed_percent escrow_amount : float) : result Exc (float * float * string) :=
  let none := (confirmed_percent <=? fzero)%float in
  if is_false (bundle_step_counts_ok ctx)
  then buyer_wins escrow_amount "rule: evidence bundle format error (step metadata vs receipts)"
  else if integrity_bad ctx && none
  then buyer_wins escrow_amount "rule: evidence bundle integrity failed with no confirmed progress - buyer wins"
  else if delivery_overdue ctx && none
  then buyer_wins escrow_amount "rule: overdue delivery with no confirmed progress"
  else if negb (has_success_receipt ctx) && none
  then buyer_wins escrow_amount "rule: no successful execution receipt and no confirmed progress"
  else if integrity_bad ctx && (confirmed_percent <? f50)%float
  then partial_split escrow_amount (py_max confirmed_percent fzero) "rule: evidence bundle integrity failed - conservative partial split"
  else if none
  then buyer_wins escrow_amount "auto arbitration: no confirmed progress, buyer wins"
  else if (confirmed_percent >=? f90)%float
  then let? s := normalize_amount decimals escrow_amount in
       Ok (s, fzero, "auto arbitration: near-complete confirmed progress, seller wins"%string)
  else partial_split escrow_amount confirmed_percent "auto arbitration: partial split by confirmed progress".
End Arbitration.

(** ** Facts *)

(** The range of the theorems: up to [2^50] minor units and 15 decimals. *)
Definition in_range (decimals n : Z) : Prop := 0 <= decimals <= 15 /\ 0 <= n <= 2 ^ 50.

Lemma pow10_bound d : 0 <= d <= 15 -> 1 <= 10 ^ d <= 2 ^ 50.
Proof.
  intros Hd. split.
  - assert (0 < 10 ^ d) by (apply Z.pow_pos_nonneg; lia). lia.
  - transitivity (10 ^ 15); [apply Z.pow_le_mono_r; lia|vm_compute; discriminate].
Qed.

Lemma scale_pos d : 0 <= d <= 15 -> exists m e, scale d = S754_finite false m e.
Proof.
  intros Hd. pose proof (pow10_bound d Hd).
  destruct (normal_int (10 ^ d) ltac:(lia)) as (m & e & (Hn & _) & _). eexists _, _. exact Hn.
Qed.

Lemma int_to_float_ok n : 0 <= n <= 2 ^ 50 -> int_to_float n = Ok (float_of_Z n).
Proof.
  intros Hn. unfold int_to_float. destruct (Z.eq_dec n 0) as [->|]; [done|].
  destruct (float_of_Z_exact n ltac:(lia)) as (F & _). by rewrite F.
Qed.

(** Minor units survive the trip through a float amount. *)
Lemma minor_roundtrip_ok d n : in_range d n ->
  exists a, from_minor_units d n = Ok a /\ to_minor_units d a = Ok n.
Proof.
  intros [Hd Hn]. unfold from_minor_units. rewrite int_to_float_ok by done. eexists. split; [done|].
  unfold to_minor_units, round_int. destruct (Z.eq_dec n 0) as [->|].
  - destruct (scale_pos d Hd) as (m & e & ->). done.
  - unfold scale. pose proof (pow10_bound d Hd). by rewrite div_mul_round by lia.
Qed.

Lemma f100_eq : f100 = float_of_Z 100.
Proof. vm_compute. reflexivity. Qed.

Lemma f100_sval : sval f100 = 100 * K.
Proof. rewrite f100_eq. by destruct (float_of_Z_exact 100 ltac:(lia)) as (_ & _ & ->). Qed.

(** The clamped percentage is a float between 0 and 100. *)
Lemma clamp_ok p : valid p = true ->
  is_finite (clamp_percent p) = true /\ valid (clamp_percent p) = true /\
  0 <= sval (clamp_percent p) <= 100 * K.
Proof.
  intros V. pose proof K_pos as HK. pose proof f100_sval as H100.
  assert (Hz : is_finite fzero = true /\ valid fzero = true /\ 0 <= sval fzero <= 100 * K)
    by (split_and!; [done|done|cbn; lia|cbn; lia]).
  assert (Hc : is_finite f100 = true /\ valid f100 = true /\ 0 <= sval f100 <= 100 * K)
    by (rewrite H100; split_and!; [done|done|lia|lia]).
  unfold clamp_percent. destruct (is_nan p) eqn:Hn.
  { exact Hz. }
  unfold py_max, py_min. destruct (fltb p f100) eqn:Hlt.
  - destruct (fltb fzero p) eqn:Hgt; [|done].
    assert (F : is_finite p = true) by (destruct p as [|[]| |]; done).
    rewrite fltb_sval in Hlt, Hgt by done. rewrite H100 in Hlt. cbn [sval fzero] in Hgt.
    apply Z.ltb_lt in Hlt, Hgt. split_and!; [done|done|lia|lia].
  - change (fltb fzero f100) with true. exact Hc.
Qed.

Lemma settled_minor_ok em p : 0 <= em <= 2 ^ 50 -> valid p = true ->
  exists sm, settled_minor em p = Ok sm /\ 0 <= sm <= em.
Proof.
  intros He V. unfold settled_minor. rewrite int_to_float_ok by done. cbn [rbind].
  destruct (clamp_ok p V) as (Fc & Vc & Sc).
  assert (Hfin : exists n, round_int (float_of_Z em * clamp_percent p / f100)%float = Ok n).
  { assert (Hmul : is_finite (float_of_Z em * clamp_percent p)%float = true /\
                   valid (float_of_Z em * clamp_percent p)%float = true).
    { destruct (Z.eq_dec em 0) as [->|]; [clear -Fc; by destruct (clamp_percent p) as [[]|[]| |[]]|].
      destruct (normal_int em ltac:(lia)) as (m & e & Hn & Hexp). by eapply fmul_finite. }
    pose proof (fdiv_100_finite _ (proj1 Hmul) (proj2 Hmul)) as Hd. unfold round_int.
    destruct (fdiv _ f100); try done; eexists; reflexivity. }
  destruct Hfin as [n ->]. cbn [rbind]. eexists. split; [done|]. lia.
Qed.

Lemma split_ok d e p em : to_minor_units d e = Ok em -> in_range d em -> valid p = true ->
  exists sm a b, settled_minor em p = Ok sm /\ 0 <= sm <= em /\ split_amounts d e p = Ok (a, b) /\
    to_minor_units d a = Ok sm /\ to_minor_units d b = Ok (em - sm).
Proof.
  intros He [Hd Hr] V. destruct (settled_minor_ok em p Hr V) as (sm & Hsm & Hb).
  destruct (minor_roundtrip_ok d sm) as (a & Ha & Ha'); [split; lia|].
  destruct (minor_roundtrip_ok d (em - sm)) as (b & Hb1 & Hb'); [split; lia|].
  exists sm, a, b. unfold split_amounts. rewrite He. cbn [rbind]. rewrite Hsm. cbn [rbind].
  rewrite Ha. cbn [rbind]. rewrite Hb1. split_and!; try done; lia.
Qed.

Lemma normalize_ok d e em : to_minor_units d e = Ok em -> in_range d em ->
  exists a, normalize_amount d e = Ok a /\ to_minor_units d a = Ok em.
Proof.
  intros He Hr. unfold normalize_amount. rewrite He. cbn [rbind]. by apply minor_roundtrip_ok.
Qed.

Lemma settled_all em p : 0 <= em <= 2 ^ 50 -> fleb f100 p = true -> settled_minor em p = Ok em.
Proof.
  intros He Hp. unfold settled_minor. rewrite int_to_float_ok by done. cbn [rbind].
  assert (Hc : clamp_percent p = f100).
  { unfold clamp_percent. destruct (is_nan p) eqn:Hn; [by destruct p|].
    unfold py_min. rewrite (fleb_not_fltb _ _ Hp). done. }
  rewrite Hc, f100_eq. unfold round_int. destruct (Z.eq_dec em 0) as [->|]; [done|].
  rewrite mul_div_round by lia. cbn [rbind]. f_equal. lia.
Qed.

Lemma settled_none em p : 0 <= em <= 2 ^ 50 -> is_nan p || fleb p fzero = true -> settled_minor em p = Ok 0.
Proof.
  intros He Hp. unfold settled_minor. rewrite int_to_float_ok by done. cbn [rbind].
  assert (Hc : clamp_percent p = fzero).
  { unfold clamp_percent. destruct (is_nan p) eqn:Hn; [done|]. cbn [orb] in Hp.
    unfold py_max, py_min. destruct (fltb p f100) eqn:H1; [by rewrite (fleb_not_fltb _ _ Hp)|].
    destruct p as [|[]| |[]]; done. }
  rewrite Hc. destruct (Z.eq_dec em 0) as [->|]; [done|].
  destruct (normal_int em ltac:(lia)) as (m & e & (-> & _) & _). cbn. f_equal. lia.
Qed.

(** ** Properties *)

(** Amounts and minor units round trip: up to [2^50] minor units (a billion USDC
    at 6 decimals) and 15 decimals, converting minor units to an amount and back is
    the identity, so normalising an amount is idempotent. *)
Theorem minor_units_roundtrip decimals n amount :
  in_range decimals n ->
  (exists a, from_minor_units decimals n = Ok a /\ to_minor_units decimals a = Ok n) /\
  (to_minor_units decimals amount = Ok n ->
     exists a, normalize_amount decimals amount = Ok a /\ normalize_amount decimals a = Ok a).
Proof.
  intros Hr. split; [by apply minor_roundtrip_ok|]. intros Hn.
  destruct (minor_roundtrip_ok _ _ Hr) as (a & Ha & Ha').
  exists a. unfold normalize_amount. rewrite Hn, Ha'. cbn [rbind]. done.
Qed.

(** C6. A split never creates or loses a minor unit: for an escrow of at most 2^50 minor units
    of at most 15 decimals and any percentage, the settled and the refunded amounts are whole
    minor units, both between 0 and the escrow, that
    add up to the escrow exactly; at 100% or more the seller gets everything, at 0%
    or less (or nan) nothing. *)
Theorem split_conserves_minor_units decimals escrow percent em :
  to_minor_units decimals escrow = Ok em -> in_range decimals em -> valid percent = true ->
  exists a b sm, split_amounts decimals escrow percent = Ok (a, b) /\
    to_minor_units decimals a = Ok sm /\ to_minor_units decimals b = Ok (em - sm) /\
    0 <= sm <= em /\
    (fleb f100 percent = true -> sm = em) /\ (is_nan percent || fleb percent fzero = true -> sm = 0).
Proof.
  intros He Hr V. destruct (split_ok decimals escrow percent em He Hr V) as (sm & a & b & Hsm & Hb & Hs & Ha & Hb').
  exists a, b, sm. destruct Hr as [_ Hr]. split_and!; try done; try lia.
  - intros Hp. rewrite (settled_all em percent Hr Hp) in Hsm. congruence.
  - intros Hp. rewrite (settled_none em percent Hr Hp) in Hsm. congruence.
Qed.

(** The two parts of a split do not add up to the escrow as floats: splitting 0.3 at
    one third gives 0.1 and 0.2, whose sum is not 0.3. *)
Theorem split_float_sum_not_exact :
  let escrow := float_of_ratio false 3 10 in
  let third := float_of_ratio false 100 3 in
  split_amounts 6 escrow third = Ok (float_of_ratio false 1 10, float_of_ratio false 2 10) /\
  normalize_amount 6 escrow = Ok escrow /\
  feqb (float_of_ratio false 1 10 + float_of_ratio false 2 10)%float escrow = false.
Proof. vm_compute. split_and!; reflexivity. Qed.

(** What a decision of the rules must satisfy, given the escrow in minor units. *)
Definition fair_decision (decimals em : Z) (no_pay full_pay : bool)
    (out : result Exc (float * float * string)) : Prop :=
  exists a b why sm, out = Ok (a, b, why) /\
    to_minor_units decimals a = Ok sm /\ to_minor_units decimals b = Ok (em - sm) /\
    0 <= sm <= em /\ (no_pay = true -> sm = 0) /\ (full_pay = true -> sm = em).

Lemma zero_minor decimals em : in_range decimals em -> to_minor_units decimals fzero = Ok 0.
Proof. intros [Hd _]. unfold to_minor_units. by destruct (scale_pos decimals Hd) as (m & e & ->). Qed.

Lemma buyer_wins_fair decimals escrow em why no_pay :
  to_minor_units decimals escrow = Ok em -> in_range decimals em ->
  fair_decision decimals em no_pay false (buyer_wins decimals escrow why).
Proof.
  intros He Hr. destruct (normalize_ok decimals escrow em He Hr) as (na & Hna & Hna').
  unfold buyer_wins. rewrite Hna. exists fzero, na, why, 0. rewrite Z.sub_0_r.
  pose proof (zero_minor _ _ Hr). destruct Hr as [_ Hr]. split_and!; try done; lia.
Qed.

Lemma partial_split_fair decimals escrow em p why :
  to_minor_units decimals escrow = Ok em -> in_range decimals em -> valid p = true ->
  fair_decision decimals em false false (partial_split decimals escrow p why).
Proof.
  intros He Hr Vp. destruct (split_ok decimals escrow p em He Hr Vp) as (sm & a & b & _ & Hb & Hs & Ha & Hb').
  unfold partial_split. rewrite Hs. exists a, b, why, sm. split_and!; try done; lia.
Qed.

Lemma seller_wins_fair decimals escrow em (why : string) :
  to_minor_units decimals escrow = Ok em -> in_range decimals em ->
  fair_decision decimals em false true
    (let? s := normalize_amount decimals escrow in Ok (s, fzero, why)).
Proof.
  intros He Hr. destruct (normalize_ok decimals escrow em He Hr) as (na & Hna & Hna').
  rewrite Hna. exists na, fzero, why, em. rewrite Z.sub_diag.
  pose proof (zero_minor _ _ Hr). destruct Hr as [_ Hr]. split_and!; try done; lia.
Qed.

(** At least 90 is neither at most 0 nor below 50. *)
Lemma ninety c : valid c = true -> fleb f90 c = true -> fleb c fzero = false /\ fltb c f50 = false.
Proof.
  intros V H. destruct c as [|[]| |[] m e]; try done.
  rewrite fleb_sval in H |- * by done. rewrite fltb_sval by done.
  rewrite Z.leb_le in H. rewrite Z.leb_gt, Z.ltb_ge.
  assert (sval fzero < sval f90 /\ sval f50 <= sval f90) by (vm_compute; split; [reflexivity|discriminate]).
  lia.
Qed.

(** Auto-arbitration divides exactly the escrow, whatever the evidence says: the two
    amounts are whole minor units that add up to the escrow; a bundle whose step
    metadata is wrong or a task without confirmed progress pays the seller nothing;
    and with valid step metadata and at least 90% confirmed the seller is paid in full. *)
Theorem auto_arbitration_spec decimals ctx confirmed escrow em :
  to_minor_units decimals escrow = Ok em -> in_range decimals em -> valid confirmed = true ->
  fair_decision decimals em
    (is_false (bundle_step_counts_ok ctx) || fleb confirmed fzero)
    (negb (is_false (bundle_step_counts_ok ctx)) && fleb f90 confirmed)
    (adjust_auto_split_for_rules decimals ctx confirmed escrow).
Proof.
  intros He Hr V. pose proof (ninety confirmed V) as H90. unfold adjust_auto_split_for_rules.
  destruct (is_false (bundle_step_counts_ok ctx)) eqn:Hcnt; cbn [orb negb andb].
  { by apply buyer_wins_fair. }
  destruct (fleb confirmed fzero) eqn:H0.
  - destruct (fleb f90 confirmed) eqn:H9; [by destruct (H90 eq_refl)|]. rewrite !andb_true_r.
    destruct (integrity_bad ctx) eqn:Hbad; [by apply buyer_wins_fair|].
    destruct (delivery_overdue ctx); [by apply buyer_wins_fair|].
    destruct (negb (has_success_receipt ctx)); by apply buyer_wins_fair.
  - rewrite !andb_false_r. destruct (integrity_bad ctx && fltb confirmed f50) eqn:H4.
    + apply andb_true_iff in H4 as [_ H4].
      destruct (fleb f90 confirmed) eqn:H9; [destruct (H90 eq_refl); congruence|].
      apply partial_split_fair; [done..|]. unfold py_max. by destruct (fltb confirmed fzero).
    + destruct (fleb f90 confirmed) eqn:H9; [by apply seller_wins_fair|by apply partial_split_fair].
Qed.

(** ** Progress curves *)

Section Curve.
(** [float(s)] of a string. *)
Context (parse_float : string -> option float).

Definition py_float (j : json) : result Exc float :=
  match j with
  | JInt n => int_to_float n
  | JFloat x => Ok x
  | JBool b => Ok (float_of_Z (if b then 1 else 0))
  | JStr s => match parse_float s with
              | Some x => Ok x
              | None => Err (ValueError "could not convert string to float")
              end
  | _ => Err (TypeError "float() argument must be a string or a real number")
  end.

Definition read_point (item : json) : result Exc (float * float) :=
  match item with
  | JList [a; b] => let? x := py_float a in let? y := py_float b in Ok (x, y)
  | _ => Err (ValueError "each piecewise point must be [progress_percent, value_percent]")
  end.

Fixpoint read_points (items : list json) : result Exc (list (float * float)) :=
  match items with
  | [] => Ok []
  | i :: items => let? p := read_point i in let? ps := read_points items in Ok (p :: ps)
  end.

(** [points.sort(key=...)]: stable. *)
Fixpoint insert_point (p : float * float) (l : list (float * float)) : list (float * float) :=
  match l with
  | [] => [p]
  | q :: l' => if (fst p <? fst q)%float then p :: l else q :: insert_point p l'
  end.
Definition sort_points (l : list (float * float)) : list (float * float) :=
  fold_left (fun acc p => insert_point p acc) l [].

(** The segment test of the loop; [final] is [i == len(points) - 2]. *)
Definition in_segment (pp p0 p1 : float) (final : bool) : bool :=
  ((p0 <=? pp) && (pp <=? p1) || final && (fabs (pp - p1) <? f1em9))%float.

Definition interpolate (pp p0 v0 p1 v1 : float) : float :=
  if (fabs (p1 - p0) <? f1em12)%float then py_max v0 v1
  else (v0 + (pp - p0) / (p1 - p0) * (v1 - v0))%float.

Fixpoint curve_at (pp : float) (points : list (float * float)) : option float :=
  match points with
  | (p0, v0) :: (((p1, v1) :: rest) as tl) =>
      if in_segment pp p0 p1 (bool_decide (rest = [])) then Some (interpolate pp p0 v0 p1 v1)
      else curve_at pp tl
  | _ => None
  end.

Definition obj_get (k : string) (j : list (string * json)) : json := default JNull (dict_get k j).

(** [None], [{}], and any other JSON value the column may hold is a dict here. *)
Definition max_allowed_claimed_value_percent (progress_percent : float)
    (spec : option (list (string * json))) : result Exc float :=
  let fields := default [] spec in
  if bool_decide (fields = []) then Ok progress_percent
  else if bool_decide (obj_get "type" fields = JNull) || bool_decide (obj_get "type" fields = JStr "linear")
  then Ok progress_percent
  else if negb (bool_decide (obj_get "type" fields = JStr "piecewise"))
  then Err (ValueError "unsupported progress_rule_spec.type")
  else
    match obj_get "points" fields with
    | JList raw_points =>
        if (length raw_points <? 2)%nat
        then Err (ValueError "piecewise progress_rule_spec requires points")
        else
          let? points := read_points raw_points in
          let sorted := sort_points points in
          match head sorted, last sorted with
          | Some (p_first, _), Some (p_last, v_last) =>
              if ((p_first >? f1em9) || (p_last <? f100 - f1em9))%float
              then Err (ValueError "piecewise points must cover 0..100 on progress axis")
              else
                let pp := py_max fzero (py_min f100 progress_percent) in
                Ok (default v_last (curve_at pp sorted))
          | _, _ => Err IndexError
          end
    | _ => Err (ValueError "piecewise progress_rule_spec requires points")
    end.

Definition validate_claimed_against_curve (progress_percent claimed_value_percent : float)
    (spec : option (list (string * json))) : result Exc unit :=
  let? ceiling := max_allowed_claimed_value_percent progress_percent spec in
  if (claimed_value_percent - f1em6 >? ceiling)%float
  then Err (ValueError "claimed_value_percent exceeds curve ceiling")
  else Ok tt.
End Curve.

Lemma total_fleb x y : is_nan x = false -> is_nan y = false -> fleb x y = false -> fleb y x = true.
Proof.
  unfold fleb, SFleb. intros Hx Hy. rewrite (SFcompare_antisym x y).
  destruct (SFcompare x y) as [[]|] eqn:E; try done. exfalso.
  destruct x as [|[]| |[] m e], y as [|[]| |[] m' e']; try done; cbn in E; by destruct (e ?= e').
Qed.

(** Consecutive points whose first starts at or below [pp] and whose last ends at or
    above it contain a segment around [pp]. *)
Lemma curve_at_found pp p0 v0 rest pl vl :
  Forall (fun q => is_nan (fst q) = false) ((p0, v0) :: rest) -> is_nan pp = false ->
  rest <> [] -> last ((p0, v0) :: rest) = Some (pl, vl) ->
  fleb p0 pp = true -> fleb pp pl = true -> exists v, curve_at pp ((p0, v0) :: rest) = Some v.
Proof.
  revert p0 v0. induction rest as [|[p1 v1] rest IH]; intros p0 v0 Hf Hpp Hne Hl H0 Hlast; [done|].
  cbn [curve_at]. destruct (in_segment pp p0 p1 _) eqn:Hseg; [by eexists|].
  unfold in_segment in Hseg. apply orb_false_iff in Hseg as [Hseg _]. rewrite H0 in Hseg. cbn in Hseg.
  apply Forall_cons in Hf as [_ Hf]. pose proof Hf as [Hp1 _]%Forall_cons.
  destruct rest as [|r rest]; [cbn in Hl; injection Hl as -> ->; congruence|].
  apply IH; try done. by apply total_fleb.
Qed.

(** A curve whose first point lies within the tolerance above 0 grants everything at
    0% progress: with the points (1e-10, 0) and (100, 100), which pass the coverage
    check, no segment contains 0 and the ceiling falls through to the last value. *)
Theorem curve_gap_at_zero parse_float :
  let spec := [("type", JStr "piecewise");
               ("points", JList [JList [JFloat (float_of_ratio false 1 10000000000); JInt 0];
                                 JList [JInt 100; JInt 100]])]%string in
  max_allowed_claimed_value_percent parse_float fzero (Some spec) = Ok f100 /\
  validate_claimed_against_curve parse_float fzero f100 (Some spec) = Ok tt.
Proof. vm_compute. split; reflexivity. Qed.

Lemma clamp_progress p : is_nan p = false ->
  is_nan (py_max fzero (py_min f100 p)) = false /\
  fleb fzero (py_max fzero (py_min f100 p)) = true /\
  fleb (py_max fzero (py_min f100 p)) f100 = true.
Proof.
  intros Hn. unfold py_max, py_min. destruct (fltb p f100) eqn:H1.
  - destruct (fltb fzero p) eqn:H2; [|done]. split_and!; auto using fltb_fleb.
  - done.
Qed.

(** With a first point at or below 0 and a last one at or above 100 (the case the
    coverage check is about), the loop always finds a segment: for every progress the
    ceiling is an interpolation between two consecutive points, never the
    fall-through value. *)
Theorem curve_covers_progress progress p0 v0 rest pl vl :
  Forall (fun q => is_nan (fst q) = false) ((p0, v0) :: rest) -> is_nan progress = false ->
  rest <> [] -> last ((p0, v0) :: rest) = Some (pl, vl) ->
  is_finite p0 = true -> is_finite pl = true -> valid p0 = true -> valid pl = true ->
  valid progress = true ->
  fleb p0 fzero = true -> fleb f100 pl = true ->
  exists v, curve_at (py_max fzero (py_min f100 progress)) ((p0, v0) :: rest) = Some v.
Proof.
  intros Hf Hn Hne Hl Fp Fl Vp Vl V H0 H100. destruct (clamp_progress progress Hn) as (Hn' & Hge & Hle).
  set (pp := py_max fzero (py_min f100 progress)) in *.
  assert (Fpp : is_finite pp = true) by (destruct pp as [|[]| |[]]; done).
  assert (Vpp : valid pp = true).
  { subst pp. unfold py_max, py_min. repeat case_match; done. }
  eapply curve_at_found; eauto.
  - eapply (fleb_trans p0 fzero pp); done.
  - eapply (fleb_trans pp f100 pl); done.
Qed.

Lemma curve_covers_progress_witness :
  exists v, curve_at (py_max fzero (py_min f100 f50)) [(fzero, fzero); (f100, f90)] = Some v.
Proof.
  apply (curve_covers_progress f50 fzero fzero [(f100, f90)] f100 f90);
    [repeat constructor|reflexivity|discriminate|reflexivity..].
Defined.

Lemma minor_units_roundtrip_witness :
  in_range 6 12345678 /\
  exists a, from_minor_units 6 12345678 = Ok a /\ to_minor_units 6 a = Ok 12345678.
Proof.
  assert (H : in_range 6 12345678) by (split; lia).
  split; [exact H|]. apply (proj1 (minor_units_roundtrip 6 12345678 fzero H)).
Defined.

Lemma split_conserves_minor_units_witness :
  exists a b sm, split_amounts 6 f100 f50 = Ok (a, b) /\
    to_minor_units 6 a = Ok sm /\ to_minor_units 6 b = Ok (100000000 - sm) /\ 0 <= sm <= 100000000.
Proof.
  destruct (split_conserves_minor_units 6 f100 f50 100000000) as (a & b & sm & H1 & H2 & H3 & H4 & _).
  - vm_compute. reflexivity.
  - split; lia.
  - reflexivity.
  - exists a, b, sm. split; [exact H1|]. split; [exact H2|]. split; [exact H3|exact H4].
Defined.

Definition demo_ctx : AutoArbitrationContext :=
  {| delivery_overdue := false; has_success_receipt := true; bundle_receipt_ids_ok := Some true;
     bundle_step_counts_ok := Some true; bundle_receipt_hashes_match := Some true; notes := [] |}.

Lemma auto_arbitration_spec_witness :
  fair_decision 6 100000000 false true (adjust_auto_split_for_rules 6 demo_ctx f90 f100).
Proof.
  apply (auto_arbitration_spec 6 demo_ctx f90 f100 100000000).
  - vm_compute. reflexivity.
  - split; lia.
  - reflexivity.
Defined.
