(* ===== verification/RuntimeSafety.v ===== *)
(** * Runtime safety mode

    [services/runtime_safety.py]: the in-memory brake [_STATE], the single-row table
    it is persisted to, and the gate every money-moving route asks.  A call that
    talks to the database takes the outcome of its session as an argument ([db_ok]),
    since the code swallows the failure. *)
From S2P Require Import Prelude PyFloat.

(** ** State *)

(** The fields of [_SWITCH_FIELDS]. *)
Record Switch := {
  enabled : bool;
  reason : option string;
  triggered_by : option string;
  triggered_at : option Z;
  manual_override_at : option Z;
  pause_new_lock : bool;
  pause_new_authorization : bool;
  pause_new_task : bool;
  pause_new_settlement : bool
}.

#[export] Instance Switch_eq_dec : EqDecision Switch.
Proof. solve_decision. Defined.

(** [RuntimeSafetyModeState]: the switch and the telemetry of the last audit. *)
Record RuntimeSafetyModeState := {
  switch : Switch;
  last_anchor_audit_at : option Z;
  total_locked_usdc : float;
  total_bill_credits : float
}.

Definition initial_state : RuntimeSafetyModeState :=
  {| switch := {| enabled := false; reason := None; triggered_by := None;
                  triggered_at := None; manual_override_at := None;
                  pause_new_lock := false; pause_new_authorization := false;
                  pause_new_task := false; pause_new_settlement := false |};
     last_anchor_audit_at := None; total_locked_usdc := fzero; total_bill_credits := fzero |}.

(** One process and the database row of its brake. *)
Record SafetyWorld := {
  memory : RuntimeSafetyModeState;
  stored : option (Switch * Z);
  persist_failures : list string
}.

Abbreviation SafetyM := (M SafetyWorld Exc).

Definition set_switch (sw : Switch) (st : RuntimeSafetyModeState) : RuntimeSafetyModeState :=
  {| switch := sw; last_anchor_audit_at := last_anchor_audit_at st;
     total_locked_usdc := total_locked_usdc st; total_bill_credits := total_bill_credits st |}.

Definition set_memory (st : RuntimeSafetyModeState) (w : SafetyWorld) : SafetyWorld :=
  {| memory := st; stored := stored w; persist_failures := persist_failures w |}.

(** ** Operations *)

Definition engaged_switch (now : Z) (why actor_id : option string) (sw : Switch) : Switch :=
  {| enabled := true;
     reason := str_or why (str_or (reason sw) (Some "manual safety mode enabled"%string));
     triggered_by := str_or actor_id (Some "system"%string);
     triggered_at := Some (default now (triggered_at sw));
     manual_override_at := manual_override_at sw;
     pause_new_lock := true; pause_new_authorization := true;
     pause_new_task := true; pause_new_settlement := true |}.

Definition released_switch (now : Z) (why actor_id : option string) (sw : Switch) : Switch :=
  {| enabled := false;
     reason := str_or why (Some "safety mode disabled"%string);
     triggered_by := str_or actor_id (Some "system"%string);
     triggered_at := Some now;
     manual_override_at := Some now;
     pause_new_lock := false; pause_new_authorization := false;
     pause_new_task := false; pause_new_settlement := false |}.

Definition set_runtime_safety_mode (now : Z) (on : bool) (why actor_id : option string) :
    SafetyM RuntimeSafetyModeState :=
  seq! m_put (fun w =>
    let st := memory w in
    set_memory (set_switch (if on then engaged_switch now why actor_id (switch st)
                            else released_switch now why actor_id (switch st)) st) w) in
  m_get memory.

Definition set_runtime_operational_pauses (now : Z) (p_lock p_auth p_task p_settle : bool)
    (why actor_id : option string) : SafetyM RuntimeSafetyModeState :=
  let on := p_lock || p_auth || p_task || p_settle in
  seq! m_put (fun w =>
    let st := memory w in
    set_memory (set_switch
      {| enabled := on;
         reason := str_or why (Some (if on then "manual operational pause update"
                                     else "operational pauses disabled"))%string;
         triggered_by := str_or actor_id (Some "system"%string);
         triggered_at := Some now;
         manual_override_at := if on then manual_override_at (switch st) else Some now;
         pause_new_lock := p_lock; pause_new_authorization := p_auth;
         pause_new_task := p_task; pause_new_settlement := p_settle |} st) w) in
  m_get memory.

(** Whether [_STATE] blocks the (normalised) operation. *)
Definition blocked (op : string) (sw : Switch) : bool :=
  if decide (op = "new_lock")%string then pause_new_lock sw
  else if decide (op = "new_authorization")%string then pause_new_authorization sw
  else if decide (op = "new_task")%string then pause_new_task sw
  else if decide (op = "new_settlement")%string then pause_new_settlement sw
  else if decide (op = "release_unused_capacity")%string then false
  else enabled sw.

Definition assert_runtime_operation_allowed (operation : string) : SafetyM unit :=
  do! b := m_get (fun w => blocked (py_lower (py_strip operation)) (switch (memory w))) in
  if (b : bool)
  then m_raise (HTTPException 503 ("safety mode active: blocked operation '" ++ operation ++ "'"))
  else m_ret tt.

(** [persist_runtime_safety_mode] (with [_record_persist_failure]); [db_ok] is the
    outcome of the session, an error text if it raised. *)
Definition persist_runtime_safety_mode (now : Z) (db_ok : result string unit) : SafetyM bool :=
  match db_ok with
  | Ok _ =>
      seq! m_put (fun w => {| memory := memory w; stored := Some (switch (memory w), now);
                              persist_failures := persist_failures w |}) in
      m_ret true
  | Err exc =>
      seq! m_put (fun w => {| memory := memory w; stored := stored w;
                              persist_failures := persist_failures w ++ [String.substring 0 300 exc] |}) in
      m_ret false
  end.

Definition set_runtime_safety_mode_persisted (now : Z) (db_ok : result string unit) (on : bool)
    (why actor_id : option string) : SafetyM RuntimeSafetyModeState :=
  do! st := set_runtime_safety_mode now on why actor_id in
  seq! persist_runtime_safety_mode now db_ok in
  m_ret st.

Definition set_runtime_operational_pauses_persisted (now : Z) (db_ok : result string unit)
    (p_lock p_auth p_task p_settle : bool) (why actor_id : option string) :
    SafetyM RuntimeSafetyModeState :=
  do! st := set_runtime_operational_pauses now p_lock p_auth p_task p_settle why actor_id in
  seq! persist_runtime_safety_mode now db_ok in
  m_ret st.

Definition hydrate_runtime_safety_mode (db_ok : result string unit) :
    SafetyM (option RuntimeSafetyModeState) :=
  match db_ok with
  | Err _ => m_ret None
  | Ok _ =>
      do! row := m_get stored in
      match row with
      | None => m_ret None
      | Some (sw, _) =>
          do! cur := m_get (fun w => switch (memory w)) in
          if decide (sw = cur) then m_ret None
          else seq! m_put (fun w => set_memory (set_switch sw (memory w)) w) in
               do! st := m_get memory in m_ret (Some st)
      end
  end.

Definition ANCHOR_EPSILON : float := f1em9.
Definition DEFAULT_ANCHOR_BREACH_REASON : string :=
  "capacity anchor breach: total bill credits exceed total locked usdc".

(** [audit_capacity_anchor_and_maybe_trip], given the two sums the query returns. *)
Definition audit_anchor (now : Z) (db_ok : result string unit) (actor_id : option string)
    (locked bill : float) : SafetyM RuntimeSafetyModeState :=
  seq! m_put (fun w => set_memory
    {| switch := switch (memory w); last_anchor_audit_at := Some now;
       total_locked_usdc := or_zero (Some locked);
       total_bill_credits := or_zero (Some bill) |} w) in
  do! breach := m_get (fun w =>
    (total_bill_credits (memory w) >? total_locked_usdc (memory w) + ANCHOR_EPSILON)%float) in
  if (breach : bool) then
    seq! set_runtime_safety_mode_persisted now db_ok true
           (Some DEFAULT_ANCHOR_BREACH_REASON) actor_id in
    m_raise (HTTPException 503 "safety mode enabled: capacity anchor breach detected")
  else m_get memory.

(** A restarted process: module state is fresh, the table is kept. *)
Definition restart (w : SafetyWorld) : SafetyWorld :=
  {| memory := initial_state; stored := stored w; persist_failures := [] |}.

(** ** Any history of calls *)

Inductive safety_op :=
| OpMode (now : Z) (db_ok : result string unit) (on : bool) (why actor_id : option string)
| OpPauses (now : Z) (db_ok : result string unit) (p1 p2 p3 p4 : bool) (why actor_id : option string)
| OpHydrate (db_ok : result string unit)
| OpAudit (now : Z) (db_ok : result string unit) (actor_id : option string) (locked bill : float)
| OpRestart.

Definition run_safety_op (o : safety_op) (w : SafetyWorld) : SafetyWorld :=
  match o with
  | OpMode now ok on why a => exec (set_runtime_safety_mode_persisted now ok on why a) w
  | OpPauses now ok p1 p2 p3 p4 why a =>
      exec (set_runtime_operational_pauses_persisted now ok p1 p2 p3 p4 why a) w
  | OpHydrate ok => exec (hydrate_runtime_safety_mode ok) w
  | OpAudit now ok a locked bill => exec (audit_anchor now ok a locked bill) w
  | OpRestart => restart w
  end.

Definition fresh_world : SafetyWorld :=
  {| memory := initial_state; stored := None; persist_failures := [] |}.

Definition run_safety (ops : list safety_op) (w : SafetyWorld) : SafetyWorld :=
  fold_left (fun w o => run_safety_op o w) ops w.

(** The main switch is on exactly when some pause is. *)
Definition switch_ok (sw : Switch) : Prop :=
  enabled sw = pause_new_lock sw || pause_new_authorization sw
               || pause_new_task sw || pause_new_settlement sw.

Definition safety_inv (w : SafetyWorld) : Prop :=
  switch_ok (switch (memory w)) /\ (forall sw t, stored w = Some (sw, t) -> switch_ok sw).

Lemma persist_inv now ok w : safety_inv w -> safety_inv (exec (persist_runtime_safety_mode now ok) w).
Proof. intros [H1 H2]. destruct ok; split; simpl; [done|naive_solver|done|naive_solver]. Qed.

Lemma mode_inv now on why a w :
  safety_inv w -> safety_inv (exec (set_runtime_safety_mode now on why a) w).
Proof. intros [H1 H2]. by destruct on. Qed.

Lemma exec_bind_ok {S E A B} (c : M S E A) (k : A -> M S E B) s a s' :
  c s = (Ok a, s') -> exec (m_bind c k) s = exec (k a) s'.
Proof. unfold exec, m_bind. by intros ->. Qed.

Lemma mode_persisted_exec now ok on why a w :
  exec (set_runtime_safety_mode_persisted now ok on why a) w =
  exec (persist_runtime_safety_mode now ok) (exec (set_runtime_safety_mode now on why a) w).
Proof. by destruct ok. Qed.

Lemma safety_op_inv o w : safety_inv w -> safety_inv (run_safety_op o w).
Proof.
  intros H. destruct o as [now ok on why a|now ok p1 p2 p3 p4 why a|ok|now ok a l b|]; simpl.
  - rewrite mode_persisted_exec. auto using persist_inv, mode_inv.
  - assert (exec (set_runtime_operational_pauses_persisted now ok p1 p2 p3 p4 why a) w =
      exec (persist_runtime_safety_mode now ok)
        (exec (set_runtime_operational_pauses now p1 p2 p3 p4 why a) w)) as -> by (by destruct ok).
    apply persist_inv. destruct H. by split.
  - destruct ok as [|e]; [|done]. destruct H as [H1 H2].
    unfold hydrate_runtime_safety_mode. run_monad.
    destruct (stored w) as [[sw t]|] eqn:Hs; [|by split; simpl; rewrite ?Hs].
    case_decide; simpl; [split; [done|rewrite Hs; exact H2]|]. split; simpl; [by eapply H2|].
    rewrite Hs. naive_solver.
  - unfold audit_anchor. run_monad. destruct (fltb _ _); [|by destruct H].
    destruct ok; (split; simpl; [done|]); destruct H; naive_solver.
  - destruct H. by split.
Qed.

Lemma run_safety_inv ops w : safety_inv w -> safety_inv (run_safety ops w).
Proof. revert w. induction ops; simpl; auto using safety_op_inv. Qed.

Lemma hydrate_after_restart w sw t ok :
  ok = Ok tt -> stored w = Some (sw, t) ->
  switch (memory (exec (hydrate_runtime_safety_mode ok) (restart w))) = sw.
Proof.
  intros -> Hs. unfold hydrate_runtime_safety_mode. run_monad. rewrite Hs.
  by case_decide.
Qed.

(** A brake that was written survives a restart: when the write succeeded, a new
    process that hydrates has exactly the switch that was set; when it failed, the
    running process still has it and the failure is recorded. *)
Theorem safety_brake_survives_restart now db_ok on why actor_id w :
  let w' := exec (set_runtime_safety_mode_persisted now db_ok on why actor_id) w in
  enabled (switch (memory w')) = on /\
  match db_ok with
  | Ok _ => switch (memory (exec (hydrate_runtime_safety_mode (Ok tt)) (restart w')))
            = switch (memory w')
  | Err e => persist_failures w' = persist_failures w ++ [String.substring 0 300 e] /\
             stored w' = stored w
  end.
Proof.
  intros w'. subst w'. rewrite mode_persisted_exec. split.
  - by destruct db_ok, on.
  - destruct db_ok as [[]|e]; [|by destruct on].
    by eapply hydrate_after_restart.
Qed.

(** The gate, after any history of mode changes, pauses, audits, hydrations and
    restarts: releasing unused capacity is never blocked; a known operation is
    blocked exactly by its own pause; any other operation exactly when some pause
    is on; and the state is not changed by asking. *)
Theorem safety_gate_spec ops operation :
  let w := run_safety ops fresh_world in
  let op := py_lower (py_strip operation) in
  let sw := switch (memory w) in
  assert_runtime_operation_allowed operation w =
    ((if (if decide (op = "release_unused_capacity") then false
          else if decide (op = "new_lock") then pause_new_lock sw
          else if decide (op = "new_authorization") then pause_new_authorization sw
          else if decide (op = "new_task") then pause_new_task sw
          else if decide (op = "new_settlement") then pause_new_settlement sw
          else pause_new_lock sw || pause_new_authorization sw
               || pause_new_task sw || pause_new_settlement sw)
      then Err (HTTPException 503 ("safety mode active: blocked operation '" ++ operation ++ "'"))
      else Ok tt), w)%string.
Proof.
  intros w op sw. assert (Hinv : switch_ok sw).
  { apply (run_safety_inv ops fresh_world). by split. }
  unfold assert_runtime_operation_allowed, m_bind, m_get. fold w op sw.
  unfold blocked, switch_ok in *. rewrite <- Hinv.
  repeat case_decide; try congruence; by repeat case_match.
Qed.

(** The anchor audit trips the brake exactly on a breach: it raises 503 with all
    four pauses on when the billed total exceeds the locked total by more than
    1e-9, and otherwise changes only its telemetry. *)
Theorem anchor_audit_spec now db_ok actor_id locked bill w :
  let '(out, w') := audit_anchor now db_ok actor_id locked bill w in
  if (or_zero (Some bill) >? or_zero (Some locked) + ANCHOR_EPSILON)%float
  then out = Err (HTTPException 503 "safety mode enabled: capacity anchor breach detected") /\
       (forall op, op <> "release_unused_capacity"%string -> blocked op (switch (memory w')) = true)
  else is_ok out = true /\ switch (memory w') = switch (memory w) /\ stored w' = stored w /\
       persist_failures w' = persist_failures w.
Proof.
  unfold audit_anchor. run_monad. destruct (fltb _ _) eqn:Hb; [|by split_and!].
  assert (Hbl : forall op sw, op <> "release_unused_capacity"%string ->
    blocked op (engaged_switch now (Some DEFAULT_ANCHOR_BREACH_REASON) actor_id sw) = true).
  { intros op sw Hop. unfold blocked. by repeat case_decide. }
  destruct db_ok; simpl; auto.
Qed.

Lemma anchor_audit_spec_witness :
  exists w', audit_anchor 5 (Ok tt) None fzero f100 fresh_world =
    (Err (HTTPException 503 "safety mode enabled: capacity anchor breach detected"), w') /\
    blocked "new_lock" (switch (memory w')) = true.
Proof.
  pose proof (anchor_audit_spec 5 (Ok tt) None fzero f100 fresh_world) as H.
  destruct (audit_anchor 5 (Ok tt) None fzero f100 fresh_world) as [out w'].
  change (_ >? _)%float with true in H. destruct H as [-> H].
  exists w'. split; [reflexivity|]. apply H. discriminate.
Defined.
