(* ===== verification/AtomicLedger.v ===== *)
(** * Atomic ledger updates

    [services/atomic_ledger.py]: relative updates of balance columns as one guarded
    [UPDATE].  The functions take the ORM model as an argument; the class
    [LedgerModel] says what they use of it, and the theorems are proved for every
    instance ([CapacityModel], [ProfileCapacityModel]).  A statement runs on the
    table atomically, so concurrent callers are sequences of such statements.
    Column arithmetic is binary64, as [Float] columns are. *)
From S2P Require Import Prelude PyFloat FloatFacts.

(** The whitelist [_BALANCE_FIELDS]. *)
Inductive BalanceField :=
| Total_locked_usdc
| Total_bill_credits
| Available_credits
| Reserved_credits
| In_progress_credits
| Confirmed_progress_credits
| Disputed_credits
| Pending_settlement_credits
| Burned_credits
| Released_credits
| Allocated_credits.

#[export] Instance BalanceField_eq_dec : EqDecision BalanceField.
Proof. solve_decision. Defined.

Definition BALANCE_FIELDS : list (string * BalanceField) :=
  [("total_locked_usdc", Total_locked_usdc); ("total_bill_credits", Total_bill_credits);
   ("available_credits", Available_credits); ("reserved_credits", Reserved_credits);
   ("in_progress_credits", In_progress_credits);
   ("confirmed_progress_credits", Confirmed_progress_credits);
   ("disputed_credits", Disputed_credits);
   ("pending_settlement_credits", Pending_settlement_credits);
   ("burned_credits", Burned_credits); ("released_credits", Released_credits);
   ("allocated_credits", Allocated_credits)]%string.

Lemma balance_name_inj k k' f :
  dict_get k BALANCE_FIELDS = Some f -> dict_get k' BALANCE_FIELDS = Some f -> k = k'.
Proof.
  intros H1%dict_get_In H2%dict_get_In.
  assert (Hinj : forallb (fun p => forallb (fun q => implb (bool_decide (snd p = snd q))
    (bool_decide (fst p = fst q))) BALANCE_FIELDS) BALANCE_FIELDS = true) by (vm_compute; reflexivity).
  rewrite forallb_forall in Hinj. apply list_elem_of_In in H1, H2.
  specialize (Hinj _ H1). rewrite forallb_forall in Hinj. specialize (Hinj _ H2). simpl in Hinj.
  rewrite bool_decide_eq_true_2 in Hinj by done. by apply bool_decide_eq_true in Hinj.
Qed.

(** What the ledger uses of an ORM model: its balance columns and [updated_at]. *)
Class LedgerModel (R : Type) := {
  has_col : BalanceField -> bool;
  col : BalanceField -> R -> float;
  set_col : BalanceField -> float -> R -> R;
  touch : Z -> R -> R
}.

Class LedgerLaws (R : Type) `{LedgerModel R} := {
  col_set_eq : forall f x r, has_col f = true -> col f (set_col f x r) = x;
  col_set_ne : forall f g x r, f <> g -> col g (set_col f x r) = col g r;
  col_touch : forall f t r, col f (touch t r) = col f r
}.

Section AtomicLedger.
Context {R : Type} `{LedgerLaws R}.

Abbreviation table := (gmap string R).
Abbreviation TableM := (M table Exc).

(** [_validate_fields]: names first, then values. *)
Definition validate_fields (deltas : list (string * float)) : result Exc unit :=
  match filter (fun kd => dict_get (fst kd) BALANCE_FIELDS = None) deltas with
  | _ :: _ => Err (ValueError "field not allowed")
  | [] =>
      match filter (fun kd => is_nan (snd kd) = true) deltas with
      | (field, _) :: _ => Err (ValueError (field ++ ": delta must be a finite number"))
      | [] => Ok tt
      end
  end.

(** [getattr(model, field)] for each delta. *)
Definition resolve_columns (deltas : list (string * float)) :
    result Exc (list (BalanceField * float)) :=
  foldr (fun kd acc =>
    match dict_get (fst kd) BALANCE_FIELDS with
    | Some f => if has_col f then let? l := acc in Ok ((f, snd kd) :: l)
                else Err (AttributeError (fst kd))
    | None => Err (AttributeError (fst kd))
    end) (Ok []) deltas.

(** The SET clause: every right-hand side reads the old row. *)
Definition set_from (old : R) (cols : list (BalanceField * float)) (r : R) : R :=
  fold_left (fun r fd => set_col (fst fd) (col (fst fd) old + snd fd)%float r) cols r.
Definition set_values (cols : list (BalanceField * float)) (old : R) : R := set_from old cols old.

(** [apply_delta]: the number of rows the guarded UPDATE hit.  [extra] is the
    assignment of the remaining [extra_values]. *)
Definition apply_delta (now : Z) (key : string) (deltas : list (string * float))
    (guards : list (R -> bool)) (extra : R -> R) : TableM nat :=
  seq! lift (validate_fields deltas) in
  do! cols := lift (resolve_columns deltas) in
  do! row := m_get (fun t => t !! key) in
  match row with
  | Some old =>
      if forallb (fun guard => guard old) guards
      then seq! m_put (fun t => <[key := touch now (extra (set_values cols old))]> t) in
           m_ret 1%nat
      else m_ret 0%nat
  | None => m_ret 0%nat
  end.

Definition apply_delta_or_raise (now : Z) (key : string) (deltas : list (string * float))
    (guards : list (R -> bool)) (extra : R -> R) (message : string) : TableM unit :=
  do! rows := apply_delta now key deltas guards extra in
  if decide (rows <> 1%nat) then m_raise (LedgerConflict message) else m_ret tt.

(** [ensure_row]: another writer inserting the same key first makes the flush
    fail inside its savepoint; either way the row exists afterwards. *)
Definition ensure_row (key : string) (fresh : R) : TableM unit :=
  do! existing := m_get (fun t => t !! key) in
  match existing with
  | Some _ => m_ret tt
  | None => m_put (fun t => <[key := fresh]> t)
  end.

(** [reload] reads the stored row. *)
Definition reload (key : string) : TableM (option R) := m_get (fun t => t !! key).

(** ** Facts *)

Lemma set_from_ne old cols r g : g ∉ cols.*1 -> col g (set_from old cols r) = col g r.
Proof.
  revert r. induction cols as [|[f d] cols IH]; intros r Hg; [done|].
  apply not_elem_of_cons in Hg as [Hf Hg]. unfold set_from in *. simpl in *.
  rewrite IH by done. by rewrite col_set_ne.
Qed.

Lemma set_from_eq old cols r f d :
  NoDup cols.*1 -> (f, d) ∈ cols -> has_col f = true ->
  col f (set_from old cols r) = (col f old + d)%float.
Proof.
  intros Hnd Hin Hc. revert r Hnd Hin. induction cols as [|[g e] cols IH]; intros r Hnd Hin.
  - set_solver.
  - apply NoDup_cons in Hnd as [Hg Hnd]. change (set_from old ((g, e) :: cols) r)
      with (set_from old cols (set_col g (col g old + e)%float r)).
    apply elem_of_cons in Hin as [Hin|Hin]; [simplify_eq|by apply IH].
    by rewrite set_from_ne, col_set_eq.
Qed.

Lemma resolve_columns_keys deltas cols :
  resolve_columns deltas = Ok cols ->
  Forall2 (fun kd fd => dict_get (fst kd) BALANCE_FIELDS = Some (fst fd) /\
                        has_col (fst fd) = true /\ snd kd = snd fd) deltas cols.
Proof.
  revert cols. induction deltas as [|[k d] deltas IH]; intros cols;
    unfold resolve_columns; cbn [foldr fst snd]; [|fold (resolve_columns deltas)].
  - intros [= <-]. constructor.
  - destruct (dict_get k BALANCE_FIELDS) as [f|] eqn:Hk; [|done].
    destruct (has_col f) eqn:Hf; [|done].
    destruct (resolve_columns deltas) as [l|e] eqn:Hr; [|done]. intros [= <-].
    constructor; [done|]. by apply IH.
Qed.

Lemma resolve_NoDup deltas cols :
  NoDup deltas.*1 -> resolve_columns deltas = Ok cols -> NoDup cols.*1.
Proof.
  intros Hnd Hr. pose proof (resolve_columns_keys _ _ Hr) as Hf2. clear Hr.
  induction Hf2 as [|[k d] [f e] deltas cols Hkf Hf2 IH]; [constructor|].
  apply NoDup_cons in Hnd as [Hk Hnd]. apply NoDup_cons. split; [|by apply IH].
  intros ([f' e'] & Heq & Hin)%list_elem_of_fmap. simpl in *. subst f'.
  apply list_elem_of_lookup_1 in Hin as [i Hi].
  destruct (Forall2_lookup_r _ _ _ _ _ Hf2 Hi) as ([k' d'] & Hd & Hk' & _).
  destruct Hkf as [Hkf _]. simpl in *. apply Hk.
  assert (k = k') as -> by (by eapply balance_name_inj).
  apply list_elem_of_fmap. exists (k', d'). split; [done|]. by eapply list_elem_of_lookup_2.
Qed.

Lemma validate_not_nan deltas k d :
  validate_fields deltas = Ok tt -> (k, d) ∈ deltas -> is_nan d = false.
Proof.
  unfold validate_fields. intros Hv Hin. case_match; [|done].
  case_match eqn:Hf; [|by case_match]. destruct (is_nan d) eqn:Hd; [|done].
  assert ((k, d) ∈ filter (fun kd : string * float => is_nan (snd kd) = true) deltas) as Hin'.
  { by apply list_elem_of_filter. }
  rewrite Hf in Hin'. set_solver.
Qed.

Lemma validate_fields_ok deltas :
  Forall (fun kd => is_Some (dict_get (fst kd) BALANCE_FIELDS) /\ is_nan (snd kd) = false) deltas ->
  validate_fields deltas = Ok tt.
Proof.
  intros Hf. rewrite Forall_forall in Hf. unfold validate_fields. rewrite filter_none.
  - rewrite filter_none; [done|]. intros x Hx. destruct (Hf x Hx) as [_ Hn]. by rewrite Hn.
  - intros x Hx Hn. destruct (Hf x Hx) as [[f Hs] _]. congruence.
Qed.

(** The update's effect as one equation. *)
Lemma apply_delta_eq now key deltas guards extra t :
  apply_delta now key deltas guards extra t =
  match validate_fields deltas with
  | Err e => (Err e, t)
  | Ok _ =>
      match resolve_columns deltas with
      | Err e => (Err e, t)
      | Ok cols =>
          match t !! key with
          | Some old =>
              if forallb (fun guard => guard old) guards
              then (Ok 1%nat, <[key := touch now (extra (set_values cols old))]> t)
              else (Ok 0%nat, t)
          | None => (Ok 0%nat, t)
          end
      end
  end.
Proof.
  unfold apply_delta, m_bind, lift, m_get, m_put, m_ret.
  destruct (validate_fields deltas); [|done]. destruct (resolve_columns deltas); [|done].
  destruct (t !! key); [|done]. by destruct (forallb _ _).
Qed.

Lemma apply_delta_or_raise_eq now key deltas guards extra message cols t :
  validate_fields deltas = Ok tt -> resolve_columns deltas = Ok cols ->
  apply_delta_or_raise now key deltas guards extra message t =
  match t !! key with
  | Some old =>
      if forallb (fun guard => guard old) guards
      then (Ok tt, <[key := touch now (extra (set_values cols old))]> t)
      else (Err (LedgerConflict message), t)
  | None => (Err (LedgerConflict message), t)
  end.
Proof.
  intros Hv Hr. unfold apply_delta_or_raise, m_bind. rewrite apply_delta_eq, Hv, Hr.
  destruct (t !! key); [|done]. by destruct (forallb _ _).
Qed.

(** ** Concurrent callers

    Each statement is atomic, so concurrent requests are some sequence of calls. *)
Record call := {
  c_now : Z;
  c_key : string;
  c_deltas : list (string * float);
  c_guards : list (R -> bool)
}.

Definition run_call (c : call) : TableM nat :=
  apply_delta (c_now c) (c_key c) (c_deltas c) (c_guards c) id.

Fixpoint run_calls (cs : list call) (t : table) : list (result Exc nat) * table :=
  match cs with
  | [] => ([], t)
  | c :: cs =>
      let '(r, t') := run_call c t in
      let '(rs, t'') := run_calls cs t' in
      (r :: rs, t'')
  end.

(** The deltas of column [f] in a call. *)
Definition deltas_for (f : BalanceField) (deltas : list (string * float)) : list float :=
  snd <$> filter (fun kd => dict_get (fst kd) BALANCE_FIELDS = Some f) deltas.

(** What the acknowledged calls on [key] asked for column [f], in order. *)
Definition acknowledged (key : string) (f : BalanceField)
    (co : call * result Exc nat) : list float :=
  match snd co with
  | Ok 1%nat => if decide (c_key (fst co) = key) then deltas_for f (c_deltas (fst co)) else []
  | _ => []
  end.

Lemma set_from_fold old cols r f :
  NoDup cols.*1 -> Forall (fun fd => has_col (fst fd) = true) cols ->
  col f r = col f old ->
  col f (set_from old cols r) =
    fold_left fadd (snd <$> filter (fun fd => fst fd = f) cols) (col f old).
Proof.
  intros Hnd Hc Hr. destruct (decide (f ∈ cols.*1)) as [Hin|Hin].
  - apply list_elem_of_fmap in Hin as ([g d] & Heq & Hin). simpl in Heq. subst g.
    rewrite (set_from_eq old cols r f d Hnd Hin);
      [|by rewrite Forall_forall in Hc; apply (Hc _ Hin)].
    assert (filter (fun fd => fst fd = f) cols = [(f, d)]) as ->; [|done].
    apply list_elem_of_split in Hin as (l1 & l2 & ->).
    rewrite fmap_app, fmap_cons in Hnd. simpl in Hnd.
    apply NoDup_app in Hnd as (_ & H1 & H2). apply NoDup_cons in H2 as [H2 _].
    rewrite filter_app, filter_cons_True by done.
    assert (Hno : forall l, f ∉ l.*1 -> filter (fun fd : BalanceField * float => fst fd = f) l = []).
    { intros l Hl. apply filter_none. intros x Hx <-.
      apply Hl. by apply list_elem_of_fmap_2. }
    rewrite !Hno; [done|done|]. intros Hf. apply (H1 f Hf). by left.
  - rewrite set_from_ne, Hr by done.
    assert (filter (fun fd => fst fd = f) cols = []) as ->; [|done].
    apply filter_none. intros x Hx <-. apply Hin. by apply list_elem_of_fmap_2.
Qed.

Lemma deltas_for_resolved deltas cols f :
  resolve_columns deltas = Ok cols ->
  deltas_for f deltas = snd <$> filter (fun fd => fst fd = f) cols.
Proof.
  intros Hr%resolve_columns_keys. unfold deltas_for.
  induction Hr as [|[k d] [g e] deltas cols (Hk & _ & Hd) _ IH]; [done|].
  cbn [fst snd] in Hk, Hd. subst e. rewrite !filter_cons. cbn [fst].
  repeat case_decide; simplify_eq; try congruence. cbn. by f_equal.
Qed.

Lemma run_call_row (c : call) (t : table) (key : string) (r : R) :
  NoDup (c_deltas c).*1 -> t !! key = Some r ->
  exists r', snd (run_call c t) !! key = Some r' /\
    forall f, col f r' = fold_left fadd (acknowledged key f (c, fst (run_call c t))) (col f r).
Proof.
  intros Hnd Hr. unfold run_call. rewrite apply_delta_eq. unfold acknowledged.
  destruct (validate_fields _) as [u|e] eqn:Hv; [|by exists r].
  destruct (resolve_columns _) as [cols|e] eqn:Hc; [|by exists r].
  destruct (t !! c_key c) as [old|] eqn:Hk; [|by exists r].
  destruct (forallb _ _); [|by exists r]. cbn [fst snd].
  case_decide as Heq; [subst key|exists r; by rewrite lookup_insert_ne].
  assert (old = r) as -> by congruence. eexists. rewrite lookup_insert_eq. split; [done|].
  intros f. rewrite col_touch. unfold id, set_values.
  rewrite (deltas_for_resolved _ _ f Hc). apply set_from_fold; [by eapply resolve_NoDup| |done].
  apply resolve_columns_keys in Hc. apply Forall_lookup. intros i fd Hi.
  destruct (Forall2_lookup_r _ _ _ _ _ Hc Hi) as (? & _ & _ & Hcol & _). exact Hcol.
Qed.

(** One guarded update, for every ledger model and every input: a name outside
    the whitelist, a column the model does not have or a nan raises and nothing is
    written; a missing row or a failed guard writes nothing and reports 0 rows;
    otherwise exactly the row [key] changes, each named column becomes old + delta,
    no other column changes, and every guard held on the row that was updated. *)
Theorem apply_delta_spec (now : Z) (key : string) deltas guards (t : table) :
  NoDup deltas.*1 ->
  match apply_delta now key deltas guards id t with
  | (Err _, t') => t' = t
  | (Ok rows, t') =>
      (rows = 0%nat /\ t' = t /\
         (forall old, t !! key = Some old -> exists g, g ∈ guards /\ g old = false)) \/
      (rows = 1%nat /\ exists old new, t !! key = Some old /\ t' = <[key := new]> t /\
         Forall (fun g => g old = true) guards /\
         (forall f, (forall k, dict_get k BALANCE_FIELDS = Some f -> k ∉ deltas.*1) ->
            col f new = col f old) /\
         (forall k d, (k, d) ∈ deltas -> is_nan d = false /\
            exists f, dict_get k BALANCE_FIELDS = Some f /\ col f new = (col f old + d)%float))
  end.
Proof.
  intros Hnd. rewrite apply_delta_eq.
  destruct (validate_fields deltas) as [[]|e] eqn:Hv; [|done].
  destruct (resolve_columns deltas) as [cols|e] eqn:Hr; [|done].
  destruct (t !! key) as [old|] eqn:Hk; [|by left].
  destruct (forallb _ guards) eqn:Hg.
  - right. split; [done|]. exists old, (touch now (set_values cols old)).
    pose proof (resolve_columns_keys _ _ Hr) as Hf2.
    split_and!; [done|done| | |].
    + apply Forall_forall. intros g Hin. rewrite forallb_forall in Hg.
      apply Hg. by apply list_elem_of_In.
    + intros f Hf. rewrite col_touch. apply set_from_ne.
      intros ([f' d] & Heq & Hin)%list_elem_of_fmap. simpl in Heq. subst f'.
      apply list_elem_of_lookup_1 in Hin as [i Hi].
      destruct (Forall2_lookup_r _ _ _ _ _ Hf2 Hi) as ([k d'] & Hd & Hkf & _).
      apply (Hf k); [done|]. apply list_elem_of_fmap. exists (k, d').
      split; [done|]. by eapply list_elem_of_lookup_2.
    + intros k d Hin. split; [by eapply validate_not_nan|].
      apply list_elem_of_lookup_1 in Hin as [i Hi].
      destruct (Forall2_lookup_l _ _ _ _ _ Hf2 Hi) as ([f d'] & Hd & Hkf & Hc & Heq).
      simpl in *. subst d'. exists f. split; [done|]. rewrite col_touch.
      apply set_from_eq; [|by eapply list_elem_of_lookup_2|done].
      by eapply resolve_NoDup.
  - left. split_and!; [done|done|]. intros old' [= <-].
    by apply forallb_false.
Qed.

(** The outcome a call is given within a sequence is that of the call on the table the earlier
    calls have left. *)
Lemma run_calls_at pre c post (t : table) :
  fst (run_calls (pre ++ c :: post) t) !! length pre = Some (fst (run_call c (snd (run_calls pre t)))).
Proof.
  revert t. induction pre as [|d pre IH]; intros t; simpl.
  - destruct (run_call c t) as [o t1]. by destruct (run_calls post t1).
  - destruct (run_call d t) as [o t1]. specialize (IH t1). destruct (run_calls pre t1). by destruct (run_calls (pre ++ _) t1).
Qed.
Lemma run_call_guards c (t : table) : fst (run_call c t) = Ok 1%nat ->
  exists old, t !! c_key c = Some old /\ Forall (fun g => g old = true) (c_guards c).
Proof.
  unfold run_call. rewrite apply_delta_eq. destruct (validate_fields _) as [[]|e]; [|done].
  destruct (resolve_columns _) as [cols|e]; [|done]. destruct (t !! c_key c) as [old|]; [|done].
  destruct (forallb _ (c_guards c)) eqn:Hg; [|done]. intros _. exists old. split; [done|].
  apply Forall_forall. intros g Hin. rewrite forallb_forall in Hg. apply Hg. by apply list_elem_of_In.
Qed.

(** C21. No update is lost and none is applied past its guards: after any sequence of guarded
    updates by any callers, each naming a column once, each column of a row is its initial
    value plus, in order, exactly the deltas of the calls that were told one row was hit, and
    refused calls contribute nothing; every guard of a call that was told one row was hit held
    on the row as the calls before it had left it. *)
Theorem ledger_no_lost_update (cs : list call) (t : table) (key : string) (r : R) :
  Forall (fun c => NoDup (c_deltas c).*1) cs -> t !! key = Some r ->
  (exists r' : R, (snd (run_calls cs t)) !! key = Some r' /\
    forall f, col f r' =
      fold_left fadd (mjoin (acknowledged key f <$> zip cs (fst (run_calls cs t)))) (col f r)) /\
  (forall pre c post, cs = pre ++ c :: post -> fst (run_calls cs t) !! length pre = Some (Ok 1%nat) ->
    exists old, snd (run_calls pre t) !! c_key c = Some old /\ Forall (fun g => g old = true) (c_guards c)).
Proof.
  intros Hnd Hr. split; cycle 1.
  { intros pre c post -> Ho. rewrite run_calls_at in Ho. injection Ho as Ho. by apply run_call_guards. }
  revert t r Hr. induction cs as [|c cs IH]; intros t r Hr; simpl; [by exists r|].
  inv Hnd. destruct (run_call_row c t key r) as (r1 & Hr1 & Hcol1); [done|done|].
  destruct (run_call c t) as [o t1]. simpl in *.
  destruct (IH ltac:(done) t1 r1) as (r2 & Hr2 & Hcol2); [done|].
  destruct (run_calls cs t1) as [os t2]. simpl in *. exists r2. split; [done|].
  intros f. by rewrite fold_left_app, <- Hcol1.
Qed.
End AtomicLedger.
