(* ===== verification/Capacity.v ===== *)
(** * Capacity: the buyer's credit ledger

    [services/capacity_ledger.py], [services/capacity_resolution.py] and the lock and
    release routes of [api/routes/capacity.py], on top of the atomic ledger and the
    runtime brake.  The world is the [capacity] table and the brake; a request runs
    in the session of [db/session.get_session], which rolls the tables back when the
    handler raises (the brake has its own session). *)
From S2P Require Import Prelude PyFloat FloatFacts RuntimeSafety AtomicLedger.

(** ** The table *)

Record CapacityRow := {
  identity_id : string;
  profile_id : option string;
  locked_usdc : float;
  bill_credits : float;
  available_credits : float;
  reserved_credits : float;
  in_progress_credits : float;
  confirmed_progress_credits : float;
  disputed_credits : float;
  pending_settlement_credits : float;
  burned_credits : float;
  released_credits : float;
  updated_at : Z
}.

Definition capacity_col (f : BalanceField) (r : CapacityRow) : float :=
  match f with
  | Total_locked_usdc => locked_usdc r
  | Total_bill_credits => bill_credits r
  | Available_credits => available_credits r
  | Reserved_credits => reserved_credits r
  | In_progress_credits => in_progress_credits r
  | Confirmed_progress_credits => confirmed_progress_credits r
  | Disputed_credits => disputed_credits r
  | Pending_settlement_credits => pending_settlement_credits r
  | Burned_credits => burned_credits r
  | Released_credits => released_credits r
  | Allocated_credits => fzero
  end.

Definition capacity_set (f : BalanceField) (x : float) (r : CapacityRow) : CapacityRow :=
  let pick g := if decide (f = g) then x else capacity_col g r in
  {| identity_id := identity_id r; profile_id := profile_id r;
     locked_usdc := pick Total_locked_usdc; bill_credits := pick Total_bill_credits;
     available_credits := pick Available_credits; reserved_credits := pick Reserved_credits;
     in_progress_credits := pick In_progress_credits;
     confirmed_progress_credits := pick Confirmed_progress_credits;
     disputed_credits := pick Disputed_credits;
     pending_settlement_credits := pick Pending_settlement_credits;
     burned_credits := pick Burned_credits; released_credits := pick Released_credits;
     updated_at := updated_at r |}.

Definition capacity_touch (now : Z) (r : CapacityRow) : CapacityRow :=
  {| identity_id := identity_id r; profile_id := profile_id r;
     locked_usdc := locked_usdc r; bill_credits := bill_credits r;
     available_credits := available_credits r; reserved_credits := reserved_credits r;
     in_progress_credits := in_progress_credits r;
     confirmed_progress_credits := confirmed_progress_credits r;
     disputed_credits := disputed_credits r;
     pending_settlement_credits := pending_settlement_credits r;
     burned_credits := burned_credits r; released_credits := released_credits r;
     updated_at := now |}.

#[export] Instance capacity_ledger_model : LedgerModel CapacityRow := {|
  has_col f := bool_decide (f <> Allocated_credits);
  col := capacity_col;
  set_col := capacity_set;
  touch := capacity_touch
|}.

#[export] Instance capacity_ledger_laws : LedgerLaws CapacityRow.
Proof.
  split.
  - by intros [] x r; intros Hc.
  - intros f g x r Hne. destruct g; cbn; rewrite ?decide_False by done; done.
  - by intros [] t r.
Qed.

(** [extra_values={"profile_id": ...}]. *)
Definition set_profile (p : option string) (r : CapacityRow) : CapacityRow :=
  match p with
  | None => r
  | Some p =>
      {| identity_id := identity_id r; profile_id := Some p;
         locked_usdc := locked_usdc r; bill_credits := bill_credits r;
         available_credits := available_credits r; reserved_credits := reserved_credits r;
         in_progress_credits := in_progress_credits r;
         confirmed_progress_credits := confirmed_progress_credits r;
         disputed_credits := disputed_credits r;
         pending_settlement_credits := pending_settlement_credits r;
         burned_credits := burned_credits r; released_credits := released_credits r;
         updated_at := updated_at r |}
  end.

(** ** [services/capacity_ledger.py] *)

Definition EPSILON : float := f1em9.

Definition active_credits (r : CapacityRow) : float :=
  (available_credits r + reserved_credits r + in_progress_credits r
   + confirmed_progress_credits r + disputed_credits r + pending_settlement_credits r)%float.

Definition responsibility_credits (r : CapacityRow) : float :=
  (reserved_credits r + in_progress_credits r + confirmed_progress_credits r
   + disputed_credits r + pending_settlement_credits r)%float.

Definition assert_can_release_locked_funds (r : CapacityRow) (amount : float) : result Exc unit :=
  if (amount <=? fzero)%float then Err (ValueError "release amount must be > 0")
  else if (available_credits r + f1em9 <? amount)%float
  then Err (ValueError "insufficient available credits")
  else if (responsibility_credits r >? EPSILON)%float
  then Err (ValueError "cannot release locked funds while bill credits hold active responsibility")
  else Ok tt.

Definition assert_capacity_invariants (r : CapacityRow) : result Exc unit :=
  let active := active_credits r in
  if (fabs (bill_credits r - active) >? EPSILON)%float
  then Err (ValueError "capacity invariant violated: total_bill_credits != active credit sum")
  else if (locked_usdc r + EPSILON <? active)%float
  then Err (ValueError "capacity invariant violated: locked usdc below active credits")
  else Ok tt.

Record Gap := { gap_active : float; gap_bill : float; gap_locked : float }.

(** [float(x or 0.0)] of a column. *)
Definition fl (x : float) : float := or_zero (Some x).

Definition capacity_conservation_gap (r : CapacityRow) : option Gap :=
  let active :=
    (fl (available_credits r) + fl (reserved_credits r) + fl (in_progress_credits r)
     + fl (confirmed_progress_credits r) + fl (disputed_credits r)
     + fl (pending_settlement_credits r))%float in
  let locked := fl (locked_usdc r) in
  let bill := fl (bill_credits r) in
  if ((fabs (bill - active) <=? EPSILON) && (locked + EPSILON >=? active))%float
  then None
  else Some {| gap_active := active; gap_bill := bill; gap_locked := locked |}.

(** The UPDATE of [heal_capacity_conservation], both columns computed on the old row. *)
Definition healed_row (now : Z) (r : CapacityRow) : CapacityRow :=
  let active := active_credits r in
  let locked := locked_usdc r in
  capacity_touch now
    (capacity_set Total_bill_credits active
       (capacity_set Total_locked_usdc (if (locked >? active)%float then locked else active) r)).

Abbreviation caps_table := (gmap string CapacityRow).

Definition heal_capacity_conservation (now : Z) (key : string) : M caps_table Exc (option Gap) :=
  do! row := reload key in
  match row with
  | None => m_ret None
  | Some r =>
      match capacity_conservation_gap r with
      | None => m_ret None
      | Some gap =>
          seq! m_put (fun t => <[key := healed_row now r]> t) in
          m_ret (Some gap)
      end
  end.

(** [responsibility_snapshot_guards] of [services/atomic_ledger.py]. *)
Definition RESPONSIBILITY_FIELDS : list BalanceField :=
  [Reserved_credits; In_progress_credits; Confirmed_progress_credits; Disputed_credits;
   Pending_settlement_credits].

Definition responsibility_snapshot_guards (snapshot : CapacityRow) : list (CapacityRow -> bool) :=
  (fun f r => (col f r =? fl (col f snapshot))%float) <$> RESPONSIBILITY_FIELDS.

(** ** The world of a request *)

Record CapWorld := {
  caps : caps_table;
  safety : SafetyWorld
}.

Abbreviation CapM := (M CapWorld Exc).

Definition on_caps {A} (c : M caps_table Exc A) : CapM A :=
  zoom caps (fun t w => {| caps := t; safety := safety w |}) c.
Definition on_safety {A} (c : M SafetyWorld Exc A) : CapM A :=
  zoom safety (fun s w => {| caps := caps w; safety := s |}) c.

(** [get_session]: commit on success, roll the tables back when the handler raises. *)
Definition request {A} (c : CapM A) : CapM A :=
  fun w => match c w with
           | (Ok a, w') => (Ok a, w')
           | (Err e, w') => (Err e, {| caps := caps w; safety := safety w' |})
           end.

(** [except LedgerConflict as exc: raise HTTPException(409, str(exc))]. *)
Definition conflict_409 {S A} (c : M S Exc A) : M S Exc A :=
  m_catch c (fun e => match e with
                      | LedgerConflict msg => m_raise (HTTPException 409 msg)
                      | _ => m_raise e
                      end).

(** [except ValueError as exc: raise HTTPException(code, ...)]. *)
Definition value_error_as (code : Z) (detail : option string) (c : result Exc unit) : result Exc unit :=
  match c with
  | Err (ValueError msg) => Err (HTTPException code (default msg detail))
  | _ => c
  end.

Definition covers (f : BalanceField) (need : float) (r : CapacityRow) : bool :=
  (col f r + f1em9 >=? need)%float.

(** [_assert_capacity]. *)
Definition assert_capacity (row : option CapacityRow) : result Exc unit :=
  match row with
  | None => Err (HTTPException 500 "capacity invariant check failed")
  | Some r => value_error_as 500 (Some "capacity invariant check failed"%string)
                (assert_capacity_invariants r)
  end.

(** [_assert_capacity_after_write]. *)
Definition assert_capacity_after_write (now : Z) (key : string) : M caps_table Exc unit :=
  do! cap := reload key in
  do! cap := match cap with
             | Some r =>
                 match capacity_conservation_gap r with
                 | Some _ => seq! heal_capacity_conservation now key in reload key
                 | None => m_ret cap
                 end
             | None => m_ret cap
             end in
  lift (assert_capacity cap).

Section Resolution.
(** The database's SUM over a column. *)
Context (sql_sum : list float -> float).

(** [func.coalesce(func.sum(column), 0.0)]. *)
Definition column_sum (f : BalanceField) (t : caps_table) : float :=
  match snd <$> map_to_list t with
  | [] => fzero
  | rows => sql_sum (col f <$> rows)
  end.

Definition audit_capacity_anchor_and_maybe_trip (now : Z) (db_ok : result string unit) : CapM unit :=
  do! locked := m_get (fun w => column_sum Total_locked_usdc (caps w)) in
  do! bill := m_get (fun w => column_sum Total_bill_credits (caps w)) in
  seq! on_safety (audit_anchor now db_ok (Some "system"%string) locked bill) in
  m_ret tt.

Definition move_reserved_to_disputed (now : Z) (db_ok : result string unit)
    (buyer_identity_id : string) (escrow_amount : float) : CapM unit :=
  do! cap := m_get (fun w => caps w !! buyer_identity_id) in
  match cap with
  | None => m_raise (HTTPException 409 "buyer has no capacity ledger; cannot open dispute")
  | Some cap =>
      if (reserved_credits cap + f1em9 <? escrow_amount)%float
      then m_raise (HTTPException 409 "insufficient reserved credits to freeze for dispute")
      else
        seq! conflict_409 (on_caps (apply_delta_or_raise now buyer_identity_id
               [("reserved_credits"%string, fopp escrow_amount);
                ("disputed_credits"%string, escrow_amount)]
               [covers Reserved_credits escrow_amount] id
               "insufficient reserved credits to freeze for dispute")) in
        seq! on_caps (assert_capacity_after_write now buyer_identity_id) in
        audit_capacity_anchor_and_maybe_trip now db_ok
  end.

Definition base_deltas (escrow settled refunded : float) : list (string * float) :=
  [("burned_credits", settled); ("released_credits", refunded);
   ("total_bill_credits", fopp escrow); ("total_locked_usdc", fopp escrow)]%string.

Definition common_guards (escrow : float) : list (CapacityRow -> bool) :=
  [covers Total_bill_credits escrow; covers Total_locked_usdc escrow].

Definition apply_capacity_resolution (now : Z) (db_ok : result string unit)
    (buyer_identity_id : string) (escrow settled refunded : float) : CapM unit :=
  do! cap := m_get (fun w => caps w !! buyer_identity_id) in
  match cap with
  | None => m_ret tt
  | Some cap =>
      if (bill_credits cap + f1em9 <? escrow)%float
      then m_raise (HTTPException 409 "capacity total_bill_credits lower than settlement escrow amount")
      else if (locked_usdc cap + f1em9 <? escrow)%float
      then m_raise (HTTPException 409 "capacity total_locked_usdc lower than settlement escrow amount")
      else
        do! rows := on_caps (apply_delta now buyer_identity_id
          (base_deltas escrow settled refunded ++ [("disputed_credits"%string, fopp escrow)])
          (common_guards escrow ++ [covers Disputed_credits escrow]) id) in
        do! rows := if decide (rows <> 1%nat)
                    then on_caps (apply_delta now buyer_identity_id
                      (base_deltas escrow settled refunded ++ [("reserved_credits"%string, fopp escrow)])
                      (common_guards escrow ++ [covers Reserved_credits escrow]) id)
                    else m_ret rows in
        if decide (rows <> 1%nat)
        then m_raise (HTTPException 409
               "capacity: neither disputed_credits nor reserved_credits cover escrow amount")
        else
          seq! on_caps (assert_capacity_after_write now buyer_identity_id) in
          audit_capacity_anchor_and_maybe_trip now db_ok
  end.
End Resolution.

Definition release_dispute_freeze (now : Z) (buyer_identity_id : string) (escrow : float)
    (settled : bool) : M caps_table Exc float :=
  do! cap := m_get (fun t => t !! buyer_identity_id) in
  match cap with
  | None => m_ret fzero
  | Some cap =>
      let held := py_min (py_max fzero (fl escrow)) (py_max fzero (fl (disputed_credits cap))) in
      if (held <=? f1em9)%float then m_ret fzero
      else
        seq! apply_delta_or_raise now buyer_identity_id
          [("disputed_credits", fopp held); ("total_bill_credits", fopp held);
           ("total_locked_usdc", fopp held);
           ("burned_credits", if settled then held else fzero);
           ("released_credits", if settled then fzero else held)]%string
          [covers Disputed_credits held; covers Total_bill_credits held;
           covers Total_locked_usdc held] id
          "disputed freeze changed concurrently; retry the release" in
        m_ret held
  end.

(** ** Routes *)

Section Routes.
Context (sql_sum : list float -> float) (escrow_min_amount escrow_max_amount : float).

Definition new_row (key : string) (now : Z) : CapacityRow :=
  {| identity_id := key; profile_id := None; locked_usdc := fzero; bill_credits := fzero;
     available_credits := fzero; reserved_credits := fzero; in_progress_credits := fzero;
     confirmed_progress_credits := fzero; disputed_credits := fzero;
     pending_settlement_credits := fzero; burned_credits := fzero;
     released_credits := fzero; updated_at := now |}.

(** [_to_schema] and [_validate] of the reloaded row. *)
Definition validated_row (key : string) : CapM CapacityRow :=
  do! row := on_caps (reload key) in
  match row with
  | None => m_raise (AttributeError "NoneType")
  | Some r =>
      seq! lift (value_error_as 500 (Some "capacity invariant check failed"%string)
             (assert_capacity_invariants r)) in
      m_ret r
  end.

(** [profile_id] when it is given and not empty. *)
Definition truthy (p : option string) : option string := str_or p None.

(** [POST /v1/capacity/{id}/lock], from the runtime gate on; the request body has
    been validated ([amount > 0]) and the caller authenticated. *)
Definition lock_usdc (now : Z) (db_ok : result string unit) (key : string)
    (amount : float) (profile : option string) : CapM CapacityRow :=
  seq! on_safety (assert_runtime_operation_allowed "new_lock") in
  if (amount <? escrow_min_amount)%float then m_raise (HTTPException 422 "amount below minimum")
  else if (amount >? escrow_max_amount)%float then m_raise (HTTPException 422 "amount exceeds maximum")
  else
    seq! audit_capacity_anchor_and_maybe_trip sql_sum now db_ok in
    seq! on_caps (ensure_row key (new_row key now)) in
    do! rows := on_caps (apply_delta now key
      [("total_locked_usdc", amount); ("total_bill_credits", amount);
       ("available_credits", amount)]%string [] (set_profile (truthy profile))) in
    if decide (rows <> 1%nat)
    then m_raise (HTTPException 409 "capacity row missing; lock was not credited")
    else
      do! row := validated_row key in
      seq! audit_capacity_anchor_and_maybe_trip sql_sum now db_ok in
      m_ret row.

(** [POST /v1/capacity/{id}/release]. *)
Definition release_unused (now : Z) (db_ok : result string unit) (key : string)
    (amount : float) (profile : option string) : CapM CapacityRow :=
  seq! on_safety (assert_runtime_operation_allowed "release_unused_capacity") in
  seq! audit_capacity_anchor_and_maybe_trip sql_sum now db_ok in
  do! row := m_get (fun w => caps w !! key) in
  match row with
  | None => m_raise (HTTPException 404 ("Capacity for " ++ key ++ " not found"))
  | Some before =>
      seq! lift (value_error_as 409 None (assert_can_release_locked_funds before amount)) in
      seq! conflict_409 (on_caps (apply_delta_or_raise now key
        [("available_credits", fopp amount); ("total_bill_credits", fopp amount);
         ("total_locked_usdc", fopp amount); ("released_credits", amount)]%string
        ([fun r => (available_credits r >=? amount)%float;
          fun r => (bill_credits r >=? amount)%float;
          fun r => (locked_usdc r >=? amount)%float] ++ responsibility_snapshot_guards before)
        (set_profile (truthy profile))
        "release rejected: insufficient balance or concurrent change")) in
      do! row := validated_row key in
      seq! audit_capacity_anchor_and_maybe_trip sql_sum now db_ok in
      m_ret row
  end.
End Routes.

(** ** Conservation *)

(** Stored columns are binary64 values; the locked and active totals are finite. *)
Definition row_wf (r : CapacityRow) : Prop :=
  Forall (fun x => valid x = true)
    [locked_usdc r; bill_credits r; available_credits r; reserved_credits r; in_progress_credits r;
     confirmed_progress_credits r; disputed_credits r; pending_settlement_credits r] /\
  is_finite (locked_usdc r) = true /\ is_finite (active_credits r) = true.

Lemma active_valid r : row_wf r -> valid (active_credits r) = true.
Proof.
  intros [Hv _]. repeat (apply Forall_cons in Hv as [? Hv]). unfold active_credits.
  auto 10 using fadd_valid.
Qed.

Lemma py_active_zeq r :
  zeq (fl (available_credits r) + fl (reserved_credits r) + fl (in_progress_credits r)
     + fl (confirmed_progress_credits r) + fl (disputed_credits r)
     + fl (pending_settlement_credits r))%float (active_credits r).
Proof. unfold active_credits, fl. repeat apply fadd_zeq; apply or_zero_zeq. Qed.

Lemma eps_facts : is_finite EPSILON = true /\ valid EPSILON = true /\ 0 <= sval EPSILON.
Proof. split_and!; [reflexivity|reflexivity|]. vm_compute. discriminate. Qed.

Lemma fadd_eps_ge x : is_finite x = true -> valid x = true -> fleb x (x + EPSILON)%float = true.
Proof. destruct eps_facts as (? & ? & ?). intros. by apply fadd_ge_l. Qed.

(** [a <= b] and [b] finite give [a <= b + eps]. *)
Lemma fleb_add_eps a b :
  is_finite a = true -> valid a = true -> is_finite b = true -> valid b = true ->
  fleb a b = true -> fleb a (b + EPSILON)%float = true.
Proof.
  intros Fa Va Fb Vb Hab. pose proof (fadd_eps_ge b Fb Vb) as Hb.
  destruct eps_facts as (Fe & Ve & He). destruct (is_finite (b + EPSILON)%float) eqn:Fs.
  - eapply (fleb_trans a b); eauto using fadd_valid.
  - pose proof (fadd_spec b EPSILON Fb Fe Vb Ve) as H. cbv zeta in H.
    destruct (Z.abs _ <? _); [destruct H as (H & _); congruence|]. rewrite H in Hb |- *.
    destruct (rnd _ <? 0); [by destruct b as [| | |[] ? ?]|by destruct a as [| | |[] ? ?]].
Qed.

Lemma healed_cols now r :
  active_credits (healed_row now r) = active_credits r /\
  bill_credits (healed_row now r) = active_credits r /\
  locked_usdc (healed_row now r) =
    (if (locked_usdc r >? active_credits r)%float then locked_usdc r else active_credits r).
Proof. by split_and!. Qed.

Lemma fltb_false_fleb x y : is_finite x = true -> is_finite y = true ->
  valid x = true -> valid y = true -> fltb x y = false -> fleb y x = true.
Proof.
  intros Fx Fy Vx Vy. rewrite fltb_sval, fleb_sval by done. rewrite Z.ltb_ge, Z.leb_le. done.
Qed.

Lemma fltb_eps_false a b : is_finite a = true -> is_finite b = true ->
  valid a = true -> valid b = true ->
  fltb (b + EPSILON)%float a = false -> fleb a (b + EPSILON)%float = true.
Proof.
  intros Fa Fb Va Vb Hlt. destruct eps_facts as (Fe & Ve & He).
  destruct (is_finite (b + EPSILON)%float) eqn:Fs.
  - apply fltb_false_fleb; auto using fadd_valid.
  - pose proof (fadd_eps_ge _ Fb Vb) as Hge.
    destruct (b + EPSILON)%float as [| [] | |]; try done;
      [by destruct b as [| | |[] ? ?]|by destruct a as [| | |[] ? ?]|by destruct b as [| | |[] ? ?]].
Qed.

(** The healed locked amount is finite, above the active sum and never lower than it was. *)
Lemma healed_locked now r : row_wf r ->
  is_finite (locked_usdc (healed_row now r)) = true /\
  valid (locked_usdc (healed_row now r)) = true /\
  fleb (active_credits r) (locked_usdc (healed_row now r)) = true /\
  fleb (locked_usdc r) (locked_usdc (healed_row now r)) = true.
Proof.
  intros Hwf. pose proof (active_valid r Hwf) as Va. destruct Hwf as (Hv & Fl & Fa).
  apply Forall_cons in Hv as [Vl _].
  destruct (healed_cols now r) as (_ & _ & ->).
  destruct (fltb (active_credits r) (locked_usdc r)) eqn:Hc.
  - split_and!; auto using fltb_fleb, fleb_refl.
  - split_and!; auto using fleb_refl. by apply fltb_false_fleb.
Qed.

Lemma healed_balanced now r : row_wf r ->
  capacity_conservation_gap (healed_row now r) = None /\
  assert_capacity_invariants (healed_row now r) = Ok tt.
Proof.
  intros Hwf. pose proof (active_valid r Hwf) as Va. pose proof Hwf as (Hv & Fl & Fa).
  destruct (healed_locked now r Hwf) as (Fl' & Vl' & Hle & _).
  destruct (healed_cols now r) as (Ha & Hb & _).
  pose proof (fleb_add_eps _ _ Fa Va Fl' Vl' Hle) as Hge. split.
  - unfold capacity_conservation_gap. pose proof (py_active_zeq (healed_row now r)) as Hz.
    rewrite Ha in Hz. set (active := (fl (available_credits (healed_row now r)) + _ + _ + _ + _ + _)%float) in *.
    rewrite fsub_zeq_self; [|etrans; [apply or_zero_zeq|rewrite Hb; by symmetry]|].
    + assert (fleb active (fl (locked_usdc (healed_row now r)) + EPSILON)%float = true) as ->; [|done].
      rewrite Hz. unfold fl. by rewrite (or_zero_zeq (locked_usdc (healed_row now r))).
    + unfold fl. rewrite or_zero_zeq. by rewrite Hb.
  - unfold assert_capacity_invariants. rewrite Ha, Hb, fsub_self by done. cbn [fabs SFabs].
    change (fltb EPSILON (S754_zero false)) with false. cbn iota.
    by rewrite (fleb_not_fltb _ _ Hge).
Qed.

(** The invariants hold of the row. *)
Definition balanced (r : CapacityRow) : Prop :=
  capacity_conservation_gap r = None /\ assert_capacity_invariants r = Ok tt.

(** Every column but the two derived totals is the same. *)
Definition same_buckets (r r' : CapacityRow) : Prop :=
  forall f, f <> Total_bill_credits -> f <> Total_locked_usdc -> col f r' = col f r.

Lemma no_gap_balanced r : capacity_conservation_gap r = None -> balanced r.
Proof.
  intros Hg. split; [done|]. unfold capacity_conservation_gap in Hg.
  pose proof (py_active_zeq r) as Hz.
  set (active := (fl (available_credits r) + _ + _ + _ + _ + _)%float) in *.
  destruct (_ && _) eqn:Hb; [|done]. apply andb_true_iff in Hb as [H1 H2].
  assert (Hd : zeq (fabs (fl (bill_credits r) - active)%float)
                   (fabs (bill_credits r - active_credits r)%float)).
  { apply fsub_abs_zeq; [apply or_zero_zeq|done]. }
  rewrite Hd in H1. rewrite Hz in H2. unfold fl in H2. rewrite (or_zero_zeq (locked_usdc r)) in H2.
  unfold assert_capacity_invariants. by rewrite (fleb_not_fltb _ _ H1), (fleb_not_fltb _ _ H2).
Qed.

Lemma same_buckets_refl r : same_buckets r r.
Proof. done. Qed.

Lemma healed_same_buckets now r : same_buckets r (healed_row now r).
Proof. intros [] H1 H2; done. Qed.

Lemma heal_eq now key (t : caps_table) r :
  t !! key = Some r ->
  heal_capacity_conservation now key t =
    (Ok (capacity_conservation_gap r),
     match capacity_conservation_gap r with
     | Some _ => <[key := healed_row now r]> t
     | None => t
     end).
Proof.
  intros Hr. unfold heal_capacity_conservation, reload, m_bind, m_get. rewrite Hr.
  by destruct (capacity_conservation_gap r).
Qed.

Lemma assert_after_write_eq now key (t : caps_table) r :
  t !! key = Some r -> row_wf r ->
  exists r', assert_capacity_after_write now key t = (Ok tt, <[key := r']> t) /\
    balanced r' /\ same_buckets r r' /\ fleb (locked_usdc r) (locked_usdc r') = true.
Proof.
  intros Hr Hwf. unfold assert_capacity_after_write, m_bind, reload at 1, m_get.
  rewrite Hr. destruct (capacity_conservation_gap r) as [g|] eqn:Hg.
  - pose proof (healed_balanced now r Hwf) as Hb. exists (healed_row now r).
    unfold m_bind. rewrite (heal_eq now key t r Hr), Hg. unfold reload, m_get, lift.
    rewrite lookup_insert_eq. unfold assert_capacity. rewrite (proj2 Hb).
    split_and!; [done|exact Hb|apply healed_same_buckets|]. by destruct (healed_locked now r Hwf) as (_ & _ & _ & ?).
  - destruct (no_gap_balanced r Hg) as [_ Hi]. exists r. unfold m_ret, lift, assert_capacity.
    rewrite Hi, insert_id by done.
    split_and!; [done|by apply no_gap_balanced|done|]. apply fleb_refl. by destruct Hwf as (_ & ? & _).
Qed.

(** Healing a row whose columns are finite: exactly the reported gap is closed (both
    conservation equations hold afterwards), no bucket changes, the locked total is
    never lowered, other rows are untouched, and healing again does nothing. *)
Theorem heal_restores_conservation now now' key (t : caps_table) r :
  t !! key = Some r -> row_wf r ->
  exists r', heal_capacity_conservation now key t =
      (Ok (capacity_conservation_gap r), <[key := r']> t) /\
    balanced r' /\ same_buckets r r' /\
    fleb (locked_usdc r) (locked_usdc r') = true /\
    fleb (active_credits r') (locked_usdc r' + EPSILON)%float = true /\
    heal_capacity_conservation now' key (<[key := r']> t) = (Ok None, <[key := r']> t).
Proof.
  intros Hr Hwf. rewrite (heal_eq now key t r Hr).
  assert (Hagain : forall r', balanced r' ->
    heal_capacity_conservation now' key (<[key := r']> t) = (Ok None, <[key := r']> t)).
  { intros r' [Hg _]. rewrite (heal_eq now' key _ r'), Hg; [done|]. by rewrite lookup_insert_eq. }
  pose proof (active_valid r Hwf) as Va. pose proof Hwf as (_ & Fl & Fa).
  destruct (capacity_conservation_gap r) as [g|] eqn:Hg.
  - destruct (healed_locked now r Hwf) as (F & V & Hle & Hge).
    pose proof (healed_balanced now r Hwf) as Hb. exists (healed_row now r).
    destruct (healed_cols now r) as (-> & _ & _).
    split_and!; auto using healed_same_buckets. by apply fleb_add_eps.
  - pose proof (no_gap_balanced r Hg) as Hb. exists r. rewrite insert_id at 1 by done.
    split_and!; auto using same_buckets_refl, fleb_refl.
    apply proj2 in Hb. unfold assert_capacity_invariants in Hb.
    destruct (fltb EPSILON _); [done|]. destruct (fltb _ (active_credits r)) eqn:Hlt; [done|].
    destruct Hwf as [Hv _]. apply Forall_cons in Hv as [Vl _]. by apply fltb_eps_false.
Qed.

(** ** Moving money *)

Lemma on_caps_eq {A} (c : M caps_table Exc A) w :
  on_caps c w = (fst (c (caps w)), {| caps := snd (c (caps w)); safety := safety w |}).
Proof. unfold on_caps, zoom. by destruct (c (caps w)). Qed.

(** What the brake looks like after an anchor breach. *)
Definition braked (w : CapWorld) : Prop :=
  forall op, op <> "release_unused_capacity"%string -> blocked op (switch (memory (safety w))) = true.

Lemma audit_eq sum now db_ok w :
  match audit_capacity_anchor_and_maybe_trip sum now db_ok w with
  | (Ok _, w') => caps w' = caps w /\ switch (memory (safety w')) = switch (memory (safety w))
  | (Err e, w') => e = HTTPException 503 "safety mode enabled: capacity anchor breach detected" /\
                   caps w' = caps w /\ braked w'
  end.
Proof.
  unfold audit_capacity_anchor_and_maybe_trip, m_bind, m_get, on_safety, zoom, audit_anchor, m_put, m_ret.
  cbn. destruct (fltb _ _); [|done].
  assert (Hb : forall op sw, op <> "release_unused_capacity"%string ->
    blocked op (engaged_switch now (Some DEFAULT_ANCHOR_BREACH_REASON) (Some "system"%string) sw) = true).
  { intros op sw Hop. unfold blocked. by repeat case_decide. }
  destruct db_ok; cbn; split_and!; try done; intros op Hop; by apply Hb.
Qed.

(** The end of every money movement: check, heal if needed, audit. *)
Lemma settle_tail sum now db_ok key w r :
  caps w !! key = Some r -> row_wf r ->
  match m_bind (on_caps (assert_capacity_after_write now key))
          (fun _ => audit_capacity_anchor_and_maybe_trip sum now db_ok) w with
  | (Ok _, w') => exists r', caps w' = <[key := r']> (caps w) /\ balanced r' /\ same_buckets r r'
  | (Err e, w') => e = HTTPException 503 "safety mode enabled: capacity anchor breach detected" /\
                   braked w'
  end.
Proof.
  intros Hr Hwf. destruct (assert_after_write_eq now key (caps w) r Hr Hwf) as (r' & Heq & Hb & Hs & _).
  unfold m_bind. rewrite on_caps_eq, Heq. cbn [fst snd].
  set (w1 := {| caps := _; safety := _ |}). pose proof (audit_eq sum now db_ok w1) as Ha.
  destruct (audit_capacity_anchor_and_maybe_trip sum now db_ok w1) as [[u|e] w'].
  - destruct Ha as [Ha _]. exists r'. by rewrite Ha.
  - tauto.
Qed.

Lemma is_nan_fopp x : is_nan (fopp x) = is_nan x.
Proof. by destruct x. Qed.

(** Literal delta lists are valid when their values are not nan. *)
Ltac valid_deltas :=
  apply validate_fields_ok; repeat (apply Forall_cons; split; [split; [eexists; reflexivity|]|]);
  try apply Forall_nil; cbn [snd]; rewrite ?is_nan_fopp; try done.

(** Equation of the guarded update on a present row. *)
Lemma delta_or_raise_row now key deltas guards msg (t : caps_table) r cols :
  t !! key = Some r -> validate_fields deltas = Ok tt -> resolve_columns deltas = Ok cols ->
  apply_delta_or_raise now key deltas guards id msg t =
  if forallb (fun g => g r) guards
  then (Ok tt, <[key := touch now (set_values cols r)]> t)
  else (Err (LedgerConflict msg), t).
Proof. intros Hr Hv Hc. by rewrite (apply_delta_or_raise_eq _ _ _ _ _ _ cols _ Hv Hc), Hr. Qed.

(** The buyer's row once [escrow] is frozen: reserved goes down, disputed goes up. *)
Definition frozen_row (now : Z) (escrow : float) (r : CapacityRow) : CapacityRow :=
  touch now (set_values [(Reserved_credits, fopp escrow); (Disputed_credits, escrow)] r).

(** C12. Opening a dispute, for a buyer whose row exists and a frozen row that does not
    overflow: it fails with 409 and no change exactly when the reserved credits do
    not cover the escrow (within 1e-9); otherwise the escrow moves from reserved to
    disputed, no other bucket moves, the conservation equations hold in what is
    written and other buyers are untouched; the only later failure is the anchor
    brake (503).  It never ends in the "invariant check failed" 500. *)
Theorem dispute_freeze_spec sum now db_ok key escrow w r :
  caps w !! key = Some r -> is_nan escrow = false -> row_wf (frozen_row now escrow r) ->
  match move_reserved_to_disputed sum now db_ok key escrow w with
  | (Ok _, w') =>
      covers Reserved_credits escrow r = true /\
      exists r', caps w' = <[key := r']> (caps w) /\ balanced r' /\
        reserved_credits r' = (reserved_credits r + fopp escrow)%float /\
        disputed_credits r' = (disputed_credits r + escrow)%float /\
        (forall f, f ∉ [Reserved_credits; Disputed_credits; Total_bill_credits; Total_locked_usdc] ->
           col f r' = col f r)
  | (Err e, w') =>
      (e = HTTPException 409 "insufficient reserved credits to freeze for dispute" /\
       covers Reserved_credits escrow r = false /\ w' = w) \/
      (covers Reserved_credits escrow r = true /\ e = HTTPException 503 "safety mode enabled: capacity anchor breach detected" /\ braked w')
  end.
Proof.
  intros Hr Hn Hwf. unfold move_reserved_to_disputed, m_bind at 1, m_get. rewrite Hr.
  destruct (fltb _ escrow) eqn:Hlt.
  { left. split_and!; try done. unfold covers. cbn [col capacity_ledger_model capacity_col].
    destruct (fleb _ _) eqn:Hle; [|done]. apply fleb_not_fltb in Hle. congruence. }
  unfold conflict_409, m_catch, m_bind at 1. rewrite on_caps_eq.
  rewrite (delta_or_raise_row _ _ _ _ _ _ r
    [(Reserved_credits, fopp escrow); (Disputed_credits, escrow)]); [|done|valid_deltas|done].
  cbn [forallb]. rewrite andb_true_r.
  destruct (covers Reserved_credits escrow r) eqn:Hc; cbn [fst snd].
  - set (w1 := {| caps := _; safety := _ |}).
    assert (Hw1 : caps w1 !! key = Some (frozen_row now escrow r)) by apply lookup_insert_eq.
    pose proof (settle_tail sum now db_ok key w1 _ Hw1 Hwf) as Ht.
    destruct (m_bind _ _ w1) as [[u|e] w']; [|right; split; [done|exact Ht]].
    split; [done|]. destruct Ht as (r' & Hr' & Hb & Hs). exists r'.
    split_and!; [by rewrite Hr'; simpl; rewrite insert_insert_eq|done| | |].
    + by apply (Hs Reserved_credits).
    + by apply (Hs Disputed_credits).
    + intros f Hf. rewrite Hs by set_solver. unfold frozen_row. rewrite col_touch.
      apply set_from_ne. set_solver.
  - left. split_and!; try done. by destruct w.
Qed.

(** The columns a resolution changes when it debits [bucket]. *)
Definition resolution_cols (bucket : BalanceField) (escrow settled refunded : float) :
    list (BalanceField * float) :=
  [(Burned_credits, settled); (Released_credits, refunded); (Total_bill_credits, fopp escrow);
   (Total_locked_usdc, fopp escrow); (bucket, fopp escrow)].

Definition resolved_row (now : Z) (bucket : BalanceField) (escrow settled refunded : float)
    (r : CapacityRow) : CapacityRow :=
  touch now (set_values (resolution_cols bucket escrow settled refunded) r).

(** The bucket the money is taken from: the dispute freeze if it covers, else the reservation. *)
Definition debit_bucket (escrow : float) (r : CapacityRow) : BalanceField :=
  if covers Disputed_credits escrow r then Disputed_credits else Reserved_credits.

Definition totals_cover (escrow : float) (r : CapacityRow) : bool :=
  covers Total_bill_credits escrow r && covers Total_locked_usdc escrow r.

Lemma lt_not_covers f need r : (col f r + f1em9 <? need)%float = true -> covers f need r = false.
Proof.
  intros Hlt. unfold covers. destruct (fleb _ _) eqn:Hle; [|done].
  apply fleb_not_fltb in Hle. congruence.
Qed.

Lemma resolution_attempt now key name bucket escrow settled refunded (t : caps_table) r :
  t !! key = Some r -> is_nan escrow = false -> is_nan settled = false -> is_nan refunded = false ->
  dict_get name BALANCE_FIELDS = Some bucket -> has_col bucket = true ->
  apply_delta now key (base_deltas escrow settled refunded ++ [(name, fopp escrow)])
    (common_guards escrow ++ [covers bucket escrow]) id t =
  if totals_cover escrow r && covers bucket escrow r
  then (Ok 1%nat, <[key := resolved_row now bucket escrow settled refunded r]> t)
  else (Ok 0%nat, t).
Proof.
  intros Hr He Hs Hf Hd Hh. rewrite apply_delta_eq, validate_fields_ok.
  - assert (resolve_columns (base_deltas escrow settled refunded ++ [(name, fopp escrow)])
      = Ok (resolution_cols bucket escrow settled refunded)) as ->.
    { unfold resolve_columns. cbn [base_deltas app foldr fst snd]. by rewrite Hd, Hh. }
    rewrite Hr. cbn [common_guards app forallb]. rewrite andb_true_r.
    unfold totals_cover. rewrite <- andb_assoc. by destruct (_ && _).
  - repeat (apply Forall_cons; split; [split; [eexists; reflexivity|cbn; rewrite ?is_nan_fopp; done]|]).
    apply Forall_cons. cbn [fst snd]. rewrite Hd, is_nan_fopp. by split; [eauto|].
Qed.

(** The two attempts, as one. *)
Lemma resolution_attempts now key escrow settled refunded w r :
  caps w !! key = Some r ->
  is_nan escrow = false -> is_nan settled = false -> is_nan refunded = false ->
  let ok := totals_cover escrow r && covers (debit_bucket escrow r) escrow r in
  m_bind (on_caps (apply_delta now key
      (base_deltas escrow settled refunded ++ [("disputed_credits"%string, fopp escrow)])
      (common_guards escrow ++ [covers Disputed_credits escrow]) id))
    (fun rows => if decide (rows <> 1%nat)
       then on_caps (apply_delta now key
              (base_deltas escrow settled refunded ++ [("reserved_credits"%string, fopp escrow)])
              (common_guards escrow ++ [covers Reserved_credits escrow]) id)
       else m_ret rows) w =
  if ok then (Ok 1%nat, {| caps := <[key := resolved_row now (debit_bucket escrow r)
                                        escrow settled refunded r]> (caps w); safety := safety w |})
  else (Ok 0%nat, w).
Proof.
  intros Hr He Hs Hf ok. subst ok. unfold m_bind, debit_bucket. rewrite on_caps_eq.
  rewrite (resolution_attempt now key "disputed_credits" Disputed_credits _ _ _ _ r Hr He Hs Hf)
    by reflexivity.
  destruct (covers Disputed_credits escrow r) eqn:Hd;
    [rewrite Hd, !andb_true_r|rewrite andb_false_r].
  all: cbn [fst snd].
  2:{ rewrite decide_True by done. rewrite on_caps_eq. cbn [caps].
    rewrite (resolution_attempt now key "reserved_credits" Reserved_credits _ _ _ _ r Hr He Hs Hf)
      by reflexivity.
    destruct (_ && _); cbn; [done|by destruct w]. }
  destruct (totals_cover escrow r) eqn:Ht; cbn [fst snd].
  - by rewrite decide_False by (intros H; by apply H).
  - rewrite decide_True by done. rewrite on_caps_eq. cbn [caps].
    rewrite (resolution_attempt now key "reserved_credits" Reserved_credits _ _ _ _ r Hr He Hs Hf)
      by reflexivity.
    rewrite Ht. cbn. by destruct w.
Qed.


(** ** Sequences of requests *)

(** All rows satisfy the invariants. *)
Definition all_balanced (t : caps_table) : Prop :=
  map_Forall (fun _ r => assert_capacity_invariants r = Ok tt) t.

(** [t'] differs from [t] at most at [key], and the row there satisfies the invariants
    unless the table is the same. *)
Definition checked_write (key : string) (t t' : caps_table) : Prop :=
  t' = t \/
  ((forall k, k <> key -> t' !! k = t !! k) /\
   exists r, t' !! key = Some r /\ assert_capacity_invariants r = Ok tt).

Lemma checked_write_balanced key t t' : checked_write key t t' -> all_balanced t -> all_balanced t'.
Proof.
  intros [->|[Hne (r & Hr & Hi)]] Hb; [done|]. intros k r' Hk.
  destruct (decide (k = key)) as [->|Hk']; [congruence|]. apply (Hb k). by rewrite <- Hne.
Qed.

(** Only the row [key] may differ. *)
Definition only (key : string) (t t' : caps_table) : Prop := forall k, k <> key -> t' !! k = t !! k.

Lemma only_trans key t1 t2 t3 : only key t1 t2 -> only key t2 t3 -> only key t1 t3.
Proof. intros H1 H2 k Hk. by rewrite H2, H1. Qed.

Lemma apply_delta_only now key deltas guards extra (t : caps_table) o t' :
  apply_delta now key deltas guards extra t = (o, t') -> only key t t'.
Proof.
  rewrite apply_delta_eq. intros H k Hk. repeat case_match; simplify_eq; try done.
  by rewrite lookup_insert_ne.
Qed.

Lemma ensure_row_only key fresh (t : caps_table) o t' :
  ensure_row key fresh t = (o, t') -> only key t t'.
Proof.
  unfold ensure_row, m_bind, m_get, m_ret, m_put. intros H k Hk.
  destruct (t !! key); simplify_eq; [done|]. by rewrite lookup_insert_ne.
Qed.

Lemma apply_delta_or_raise_only now key deltas guards extra msg (t : caps_table) o t' :
  apply_delta_or_raise now key deltas guards extra msg t = (o, t') -> only key t t'.
Proof.
  unfold apply_delta_or_raise, m_bind. intros H.
  destruct (apply_delta now key deltas guards extra t) as [[n|e] t1] eqn:Ha;
    apply apply_delta_only in Ha; [|by injection H as _ <-].
  case_decide; by injection H as _ <-.
Qed.

Lemma value_error_as_ok code d c : value_error_as code d c = Ok tt -> c = Ok tt.
Proof. unfold value_error_as. destruct c as [[]|[]]; done. Qed.

Lemma assert_after_write_checked now key (t t' : caps_table) :
  assert_capacity_after_write now key t = (Ok tt, t') ->
  only key t t' /\ exists r, t' !! key = Some r /\ assert_capacity_invariants r = Ok tt.
Proof.
  unfold assert_capacity_after_write, m_bind, reload at 1, m_get, lift.
  destruct (t !! key) as [r|] eqn:Hr; [|done].
  assert (Hfin : forall (r' : CapacityRow) (t'' : caps_table), t'' !! key = Some r' ->
    only key t t'' -> (assert_capacity (Some r'), t'') = (Ok tt, t') ->
    only key t t' /\ exists r, t' !! key = Some r /\ assert_capacity_invariants r = Ok tt).
  { intros r' t'' Hr' Ho [= Ha <-]. apply value_error_as_ok in Ha. eauto. }
  destruct (capacity_conservation_gap r) as [g|] eqn:Hg.
  - unfold m_bind. rewrite (heal_eq now key t r Hr), Hg. unfold reload, m_get.
    rewrite lookup_insert_eq. apply Hfin; [by rewrite lookup_insert_eq|].
    intros k Hk. by rewrite lookup_insert_ne.
  - unfold m_ret. by apply Hfin.
Qed.

(** A request of the ledger, with everything its handler receives. *)
Inductive cap_request :=
| ReqLock (amount : float) (profile : option string)
| ReqRelease (amount : float) (profile : option string)
| ReqDispute (escrow : float)
| ReqResolve (escrow settled refunded : float).

Section Requests.
Context (sql_sum : list float -> float) (min_amount max_amount : float).

Definition run_cap_request (now : Z) (db_ok : result string unit) (key : string)
    (q : cap_request) : CapM unit :=
  request
    match q with
    | ReqLock a p => seq! lock_usdc sql_sum min_amount max_amount now db_ok key a p in m_ret tt
    | ReqRelease a p => seq! release_unused sql_sum now db_ok key a p in m_ret tt
    | ReqDispute e => move_reserved_to_disputed sql_sum now db_ok key e
    | ReqResolve e s f => apply_capacity_resolution sql_sum now db_ok key e s f
    end.

Lemma tail_checked now db_ok key w w' u :
  m_bind (on_caps (assert_capacity_after_write now key))
    (fun _ => audit_capacity_anchor_and_maybe_trip sql_sum now db_ok) w = (Ok u, w') ->
  only key (caps w) (caps w') /\
  exists r, caps w' !! key = Some r /\ assert_capacity_invariants r = Ok tt.
Proof.
  unfold m_bind. rewrite on_caps_eq.
  destruct (assert_capacity_after_write now key (caps w)) as [[[]|e] t'] eqn:Ha; [|done].
  apply assert_after_write_checked in Ha. cbn [fst snd].
  set (w1 := {| caps := t'; safety := safety w |}). pose proof (audit_eq sql_sum now db_ok w1) as Hau.
  intros Heq. rewrite Heq in Hau. destruct Hau as [-> _]. exact Ha.
Qed.

Lemma validated_tail_checked now db_ok key w w' r :
  m_bind (validated_row key) (fun row =>
    m_bind (audit_capacity_anchor_and_maybe_trip sql_sum now db_ok) (fun _ => m_ret row)) w = (Ok r, w') ->
  caps w' = caps w /\ caps w !! key = Some r /\ assert_capacity_invariants r = Ok tt.
Proof.
  unfold m_bind at 1, validated_row, m_bind at 1. rewrite on_caps_eq. unfold reload, m_get.
  cbn [fst snd]. destruct (caps w !! key) as [r0|] eqn:Hr; [|done].
  unfold m_bind at 1, lift.
  destruct (value_error_as _ _ _) as [[]|e] eqn:Hv; [|done]. apply value_error_as_ok in Hv.
  unfold m_ret, m_bind. set (w1 := {| caps := caps w; safety := safety w |}).
  pose proof (audit_eq sql_sum now db_ok w1) as Hau.
  destruct (audit_capacity_anchor_and_maybe_trip _ _ _ w1) as [[u|e] w2]; [|done].
  intros [= <- <-]. destruct Hau as [-> _]. done.
Qed.

Lemma on_caps_ok {A} (c : M caps_table Exc A) w a w' :
  on_caps c w = (Ok a, w') -> c (caps w) = (Ok a, caps w').
Proof. rewrite on_caps_eq. destruct (c (caps w)). by intros [= -> <-]. Qed.

Lemma audit_ok now db_ok w u w' :
  audit_capacity_anchor_and_maybe_trip sql_sum now db_ok w = (Ok u, w') -> caps w' = caps w.
Proof. intros H. pose proof (audit_eq sql_sum now db_ok w) as Ha. rewrite H in Ha. tauto. Qed.

Lemma on_safety_ok {A} (c : M SafetyWorld Exc A) w a w' :
  on_safety c w = (Ok a, w') -> caps w' = caps w.
Proof. unfold on_safety, zoom. destruct (c (safety w)). by intros [= _ <-]. Qed.

Lemma conflict_409_ok {A} (c : CapM A) w a w' : conflict_409 c w = (Ok a, w') -> c w = (Ok a, w').
Proof. unfold conflict_409, m_catch. destruct (c w) as [[?|e] ?]; [done|]. by destruct e. Qed.

Lemma lock_checked now db_ok key a p w r w' :
  lock_usdc sql_sum min_amount max_amount now db_ok key a p w = (Ok r, w') ->
  only key (caps w) (caps w') /\ caps w' !! key = Some r /\ assert_capacity_invariants r = Ok tt.
Proof.
  unfold lock_usdc. rewrite m_bind_ok. intros (? & w1 & H1%on_safety_ok & H).
  destruct (fltb a _); [done|]. destruct (fltb _ a); [done|].
  rewrite m_bind_ok in H. destruct H as (? & w2 & H2%audit_ok & H).
  rewrite m_bind_ok in H. destruct H as (? & w3 & H3%on_caps_ok & H).
  rewrite m_bind_ok in H. destruct H as (rows & w4 & H4%on_caps_ok & H).
  case_decide; [done|]. apply validated_tail_checked in H as (H5 & H6 & H7).
  rewrite H5. split_and!; [|done|done]. rewrite <- H1, <- H2. eapply only_trans.
  - by eapply ensure_row_only.
  - by eapply apply_delta_only.
Qed.

Lemma release_checked now db_ok key a p w r w' :
  release_unused sql_sum now db_ok key a p w = (Ok r, w') ->
  exists before, caps w !! key = Some before /\
    assert_can_release_locked_funds before a = Ok tt /\
    caps w' = <[key := r]> (caps w) /\ assert_capacity_invariants r = Ok tt /\
    fleb a (available_credits before) = true /\
    available_credits r = (available_credits before + fopp a)%float /\
    released_credits r = (released_credits before + a)%float.
Proof.
  unfold release_unused. rewrite m_bind_ok. intros (? & w1 & H1%on_safety_ok & H).
  rewrite m_bind_ok in H. destruct H as (? & w2 & H2%audit_ok & H).
  rewrite m_bind_ok in H. destruct H as (row & w3 & [= <- <-] & H).
  rewrite H2, H1 in H. destruct (caps w !! key) as [before|] eqn:Hrow; [|done].
  rewrite m_bind_ok in H. destruct H as ([] & w4 & [= Hv <-] & H). apply value_error_as_ok in Hv.
  rewrite m_bind_ok in H. destruct H as ([] & w5 & H5%conflict_409_ok%on_caps_ok & H).
  apply validated_tail_checked in H as (H6 & H7 & H8). rewrite H6.
  unfold apply_delta_or_raise, m_bind in H5. rewrite apply_delta_eq in H5.
  destruct (validate_fields _) as [u|]; [|done].
  match type of H5 with context [resolve_columns ?d] =>
    change (resolve_columns d) with (Ok (E := Exc) [(Available_credits, fopp a);
      (Total_bill_credits, fopp a); (Total_locked_usdc, fopp a); (Released_credits, a)]) in H5 end.
  rewrite H2, H1, Hrow in H5. destruct (forallb _ _) eqn:Hg; [|done].
  cbn [forallb app] in Hg. apply andb_true_iff in Hg as [Hg _].
  rewrite decide_False in H5 by (intros Hx; by apply Hx). injection H5 as H5.
  rewrite <- H5, lookup_insert_eq in H7. injection H7 as H7.
  exists before. split_and!; try done; [by rewrite <- H5, H7|..];
    rewrite <- H7; by destruct (truthy p).
Qed.

Lemma request_ok {A} (c : CapM A) w :
  (forall a w', c w = (Ok a, w') -> all_balanced (caps w) -> all_balanced (caps w')) ->
  all_balanced (caps w) -> all_balanced (caps (exec (request c) w)).
Proof. intros H Hb. unfold exec, request. destruct (c w) as [[a|e] w']; simpl; eauto. Qed.

Lemma only_checked key t t' r : only key t t' -> t' !! key = Some r ->
  assert_capacity_invariants r = Ok tt -> checked_write key t t'.
Proof. intros. right. eauto. Qed.

Lemma dispute_checked now db_ok key e w u w' :
  move_reserved_to_disputed sql_sum now db_ok key e w = (Ok u, w') ->
  checked_write key (caps w) (caps w').
Proof.
  unfold move_reserved_to_disputed. rewrite m_bind_ok. intros (cap & w1 & [= <- <-] & H).
  destruct (caps w !! key) as [cap|]; [|done]. destruct (fltb _ _); [done|].
  rewrite m_bind_ok in H. destruct H as ([] & w2 & H2%conflict_409_ok%on_caps_ok & H).
  apply tail_checked in H as (Ho & r & Hr & Hi). eapply only_checked; [|done..].
  eapply only_trans; [|exact Ho].
  by eapply apply_delta_or_raise_only.
Qed.

Lemma delta_step_only now key deltas guards w n w' :
  on_caps (apply_delta now key deltas guards id) w = (Ok n, w') -> only key (caps w) (caps w').
Proof.
  intros H%on_caps_ok. by eapply apply_delta_only.
Qed.

Lemma resolve_checked now db_ok key e s f w u w' :
  apply_capacity_resolution sql_sum now db_ok key e s f w = (Ok u, w') ->
  checked_write key (caps w) (caps w').
Proof.
  unfold apply_capacity_resolution. rewrite m_bind_ok. intros (cap & w1 & [= <- <-] & H).
  destruct (caps w !! key) as [cap|]; [|injection H as _ <-; by left].
  destruct (fltb _ _); [done|]. destruct (fltb _ _); [done|].
  rewrite m_bind_ok in H. destruct H as (n & w2 & H2%delta_step_only & H).
  rewrite m_bind_ok in H. destruct H as (n' & w3 & H3 & H).
  case_decide; [done|]. apply tail_checked in H as (Ho & r & Hr & Hi).
  eapply only_checked; [|done..]. eapply only_trans; [exact H2|]. eapply only_trans; [|exact Ho].
  case_decide; [by apply delta_step_only in H3|by injection H3 as _ <-].
Qed.

Lemma run_cap_request_balanced now db_ok key q w :
  all_balanced (caps w) -> all_balanced (caps (exec (run_cap_request now db_ok key q) w)).
Proof.
  apply request_ok. intros a w' H Hb. apply (checked_write_balanced key (caps w)); [|done].
  destruct q as [x p|x p|e|e s f]; simpl in H.
  - rewrite m_bind_ok in H. destruct H as (r & w1 & H & [= _ <-]).
    apply lock_checked in H as (? & ? & ?). by eapply only_checked.
  - rewrite m_bind_ok in H. destruct H as (r & w1 & H & [= _ <-]).
    apply release_checked in H as (b & _ & _ & -> & Hi & _). eapply only_checked; [|by apply lookup_insert_eq|done].
    intros k Hk. by rewrite lookup_insert_ne.
  - by eapply dispute_checked.
  - by eapply resolve_checked.
Qed.
End Requests.

(** Whatever sequence of lock, release, dispute and payout requests arrives, for any
    identities, amounts, brake states and database failures, every stored row passes
    [assert_capacity_invariants] after each request (a request that raises leaves the
    table as it was): no path commits without the check.  What the operations write is
    the subject of the specifications above. *)
Theorem capacity_conservation_invariant sum min_amount max_amount
    (reqs : list (Z * result string unit * string * cap_request)) w :
  all_balanced (caps w) ->
  all_balanced (caps (fold_left (fun w '(now, db_ok, key, q) =>
    exec (run_cap_request sum min_amount max_amount now db_ok key q) w) reqs w)).
Proof.
  revert w. induction reqs as [|[[[now ok] key] q] reqs IH]; intros w Hb; [done|].
  apply IH. by apply run_cap_request_balanced.
Qed.

(** A release that succeeds took only unused money: the amount is positive, no
    credit holds responsibility, the available balance covered it exactly and stays
    non-negative, the amount is recorded as released, only that identity's row
    changed and it satisfies the conservation equations. *)
Theorem release_unused_spec sum now db_ok key amount p w r w' before :
  release_unused sum now db_ok key amount p w = (Ok r, w') ->
  caps w !! key = Some before ->
  is_finite amount = true -> valid amount = true ->
  is_finite (available_credits before) = true -> valid (available_credits before) = true ->
  fltb fzero amount = true /\
  fltb EPSILON (responsibility_credits before) = false /\
  available_credits r = (available_credits before + fopp amount)%float /\
  fleb fzero (available_credits r) = true /\
  released_credits r = (released_credits before + amount)%float /\
  caps w' = <[key := r]> (caps w) /\ assert_capacity_invariants r = Ok tt.
Proof.
  intros Hrel Hb Fa Va Fb Vb.
  destruct (release_checked sum now db_ok key amount p w r w' Hrel)
    as (b & Hb' & Hcan & Hcaps & Hinv & Hle & Hav & Hre).
  assert (b = before) as -> by congruence.
  unfold assert_can_release_locked_funds in Hcan.
  destruct (fleb amount fzero) eqn:H0; [done|]. destruct (fltb _ amount); [done|].
  destruct (fltb EPSILON _) eqn:Hresp; [done|].
  split_and!; try done.
  - rewrite fltb_sval by done. rewrite fleb_sval in H0 by done.
    apply Z.ltb_lt. by apply Z.leb_gt in H0.
  - rewrite Hav. by apply fadd_fopp_nonneg.
Qed.

(** ** Concrete rows *)

Definition demo_row (available reserved disputed bill locked : float) : CapacityRow :=
  {| identity_id := "buyer"; profile_id := None; locked_usdc := locked; bill_credits := bill;
     available_credits := available; reserved_credits := reserved; in_progress_credits := fzero;
     confirmed_progress_credits := fzero; disputed_credits := disputed;
     pending_settlement_credits := fzero; burned_credits := fzero;
     released_credits := fzero; updated_at := 0 |}.

Definition demo_world (r : CapacityRow) : CapWorld :=
  {| caps := {[ "buyer"%string := r ]}; safety := fresh_world |}.

Definition f200 : float := Eval vm_compute in float_of_Z 200.
Definition sum_left (l : list float) : float := fold_left fadd l fzero.

(** Well-formedness of a concrete row, by evaluation. *)
Ltac concrete_wf := split; [repeat constructor|split; reflexivity].

(** Releasing a dispute freeze is not idempotent: when two orders of the same buyer
    are frozen, releasing one order twice also releases the other order's freeze. *)
Theorem dispute_release_not_idempotent :
  let t0 : caps_table := {[ "buyer"%string := demo_row fzero fzero f200 f200 f200 ]} in
  let t1 := exec (release_dispute_freeze 1 "buyer" f100 false) t0 in
  outcome (release_dispute_freeze 1 "buyer" f100 false) t0 = Ok f100 /\
  outcome (release_dispute_freeze 2 "buyer" f100 false) t1 = Ok f100 /\
  (exec (release_dispute_freeze 2 "buyer" f100 false) t1 !! "buyer"%string)
    = Some (capacity_touch 2 (capacity_set Released_credits f200 (demo_row fzero fzero fzero fzero fzero))).
Proof. vm_compute. split_and!; reflexivity. Qed.

Definition demo_table (r : CapacityRow) : caps_table := {[ "buyer"%string := r ]}.

Lemma heal_restores_conservation_witness :
  exists r', heal_capacity_conservation 1 "buyer" (demo_table (demo_row f50 f50 fzero fzero fzero)) =
      (Ok (capacity_conservation_gap (demo_row f50 f50 fzero fzero fzero)),
       <["buyer"%string := r']> (demo_table (demo_row f50 f50 fzero fzero fzero))) /\
    balanced r' /\ capacity_conservation_gap (demo_row f50 f50 fzero fzero fzero) <> None.
Proof.
  destruct (heal_restores_conservation 1 2 "buyer" (demo_table (demo_row f50 f50 fzero fzero fzero))
    (demo_row f50 f50 fzero fzero fzero)) as (r' & H1 & H2 & _).
  - reflexivity.
  - concrete_wf.
  - exists r'. split; [exact H1|]. split; [exact H2|]. vm_compute. discriminate.
Defined.

Lemma dispute_freeze_spec_witness :
  outcome (move_reserved_to_disputed sum_left 1 (Ok tt) "buyer" f50)
    (demo_world (demo_row f50 f50 fzero f100 f100)) = Ok tt /\
  exists r', caps (exec (move_reserved_to_disputed sum_left 1 (Ok tt) "buyer" f50)
      (demo_world (demo_row f50 f50 fzero f100 f100))) !! "buyer"%string = Some r' /\
    disputed_credits r' = (fzero + f50)%float.
Proof.
  pose proof (dispute_freeze_spec sum_left 1 (Ok tt) "buyer" f50
    (demo_world (demo_row f50 f50 fzero f100 f100)) (demo_row f50 f50 fzero f100 f100)
    eq_refl eq_refl ltac:(concrete_wf)) as H.
  unfold outcome, exec. destruct (move_reserved_to_disputed _ _ _ _ _ _) as [[[]|e] w'] eqn:E.
  - destruct H as (_ & r' & Hr & _ & _ & Hd & _). split; [reflexivity|].
    exists r'. cbn [snd]. rewrite Hr. split; [apply lookup_insert_eq|exact Hd].
  - vm_compute in E. discriminate.
Defined.


Lemma capacity_conservation_invariant_witness :
  all_balanced ∅ /\
  all_balanced (caps (fold_left (fun w '(now, db_ok, key, q) =>
    exec (run_cap_request sum_left f50 f200 now db_ok key q) w)
    [(1, Ok tt, "buyer"%string, ReqLock f100 None)] {| caps := ∅; safety := fresh_world |})).
Proof.
  assert (H : all_balanced ∅) by apply map_Forall_empty.
  split; [exact H|].
  apply (capacity_conservation_invariant sum_left f50 f200
    [(1, Ok tt, "buyer"%string, ReqLock f100 None)] {| caps := ∅; safety := fresh_world |} H).
Defined.

Lemma release_unused_spec_witness :
  exists r, outcome (release_unused sum_left 1 (Ok tt) "buyer" f50 None)
      (demo_world (demo_row f100 fzero fzero f100 f100)) = Ok r /\
    fleb fzero (available_credits r) = true.
Proof.
  destruct (release_unused sum_left 1 (Ok tt) "buyer" f50 None
    (demo_world (demo_row f100 fzero fzero f100 f100))) as [[r|e] w'] eqn:E.
  - exists r. unfold outcome. rewrite E. split; [reflexivity|].
    apply (release_unused_spec sum_left 1 (Ok tt) "buyer" f50 None
      (demo_world (demo_row f100 fzero fzero f100 f100)) r w'
      (demo_row f100 fzero fzero f100 f100) E); reflexivity.
  - vm_compute in E. discriminate.
Defined.

Lemma apply_delta_spec_witness :
  NoDup [("reserved_credits", f50)]%string.*1 /\
  fst (apply_delta 1 "buyer" [("reserved_credits"%string, f50)] [] id
    (demo_table (demo_row f50 f50 fzero f100 f100))) = Ok 1%nat /\
  (exists old new, (demo_table (demo_row f50 f50 fzero f100 f100)) !! "buyer"%string = Some old /\
     col Available_credits new = col Available_credits old).
Proof.
  split; [apply NoDup_singleton|].
  pose proof (apply_delta_spec 1 "buyer" [("reserved_credits"%string, f50)] []
    (demo_table (demo_row f50 f50 fzero f100 f100)) (NoDup_singleton _)) as H.
  destruct (apply_delta _ _ _ _ _ _) as [[n|e] t'] eqn:E; [|vm_compute in E; discriminate].
  destruct H as [(-> & _ & _)|(-> & old & new & H1 & _ & _ & H2 & _)]; [vm_compute in E; discriminate|].
  split; [reflexivity|]. exists old, new. split; [exact H1|]. apply H2.
  intros k Hk Hin. apply list_elem_of_singleton in Hin. subst k. vm_compute in Hk. discriminate.
Defined.

Lemma ledger_no_lost_update_witness :
  exists r', snd (run_calls
      [{| c_now := 1; c_key := "buyer"; c_deltas := [("reserved_credits"%string, f50)]; c_guards := [] |}]
      (demo_table (demo_row f50 f50 fzero f100 f100))) !! "buyer"%string = Some r' /\
    col Reserved_credits r' = (f50 + f50)%float.
Proof.
  destruct (ledger_no_lost_update
    [{| c_now := 1; c_key := "buyer"; c_deltas := [("reserved_credits"%string, f50)]; c_guards := [] |}]
    (demo_table (demo_row f50 f50 fzero f100 f100)) "buyer" (demo_row f50 f50 fzero f100 f100))
    as [(r' & H1 & H2) _].
  - constructor; [apply NoDup_singleton|constructor].
  - reflexivity.
  - exists r'. split; [exact H1|]. rewrite H2. vm_compute. reflexivity.
Defined.
