(* ===== verification/Voucher.v ===== *)
(** * Vouchers: acceptance, rejection, expiry, pre-authorization

    [services/voucher_lifecycle.py], [services/voucher_reaper.py] (expiry and the
    restoration of leaked reservations), [services/settlement_voucher.py] and
    [services/voucher_preauth.py].  Rows carry the columns these functions use.  The
    responsibility graph ([ingest_edge]) is a parameter: any store, any outcome.  A request
    is one statement of the monad; what an overlap of two requests can do, since the code
    takes no row lock, is shown by an example.
    Webhook emissions are recorded in an outbox. *)
From S2P Require Import Prelude PyFloat FloatFacts PyJson RuntimeSafety AtomicLedger Capacity.

(** ** Rows *)

(** The string values of [VoucherStatus]. *)
Definition CREATED : string := "created".
Definition ACCEPTED : string := "accepted".
Definition USED : string := "used".
Definition EXPIRED : string := "expired".
Definition CANCELLED : string := "cancelled".
Definition REJECTED : string := "rejected".

Record VoucherRow := {
  voucher_id : string;
  buyer_identity_id : string;
  seller_identity_id : string;
  amount : float;
  bill_credit_amount : float;
  task_type : string;
  expiry_time : Z;
  status : string;
  seller_profile_id : option string;
  accepted_at : option Z;
  task_precision : option float;
  payment_mode : string;
  rejection_reason : option string;
  rejected_at : option Z;
  rejected_by_identity_id : option string;
  v_profile_id : option string;
  v_progress_rule_spec : option json
}.

Definition set_status (st : string) (v : VoucherRow) : VoucherRow :=
  {| voucher_id := voucher_id v; buyer_identity_id := buyer_identity_id v;
     seller_identity_id := seller_identity_id v; amount := amount v;
     bill_credit_amount := bill_credit_amount v; task_type := task_type v;
     expiry_time := expiry_time v; status := st; seller_profile_id := seller_profile_id v;
     accepted_at := accepted_at v; task_precision := task_precision v;
     payment_mode := payment_mode v; rejection_reason := rejection_reason v;
     rejected_at := rejected_at v; rejected_by_identity_id := rejected_by_identity_id v;
     v_profile_id := v_profile_id v; v_progress_rule_spec := v_progress_rule_spec v |}.

Definition set_accepted (now : Z) (v : VoucherRow) : VoucherRow :=
  {| voucher_id := voucher_id v; buyer_identity_id := buyer_identity_id v;
     seller_identity_id := seller_identity_id v; amount := amount v;
     bill_credit_amount := bill_credit_amount v; task_type := task_type v;
     expiry_time := expiry_time v; status := ACCEPTED; seller_profile_id := seller_profile_id v;
     accepted_at := Some now; task_precision := task_precision v;
     payment_mode := payment_mode v; rejection_reason := rejection_reason v;
     rejected_at := rejected_at v; rejected_by_identity_id := rejected_by_identity_id v;
     v_profile_id := v_profile_id v; v_progress_rule_spec := v_progress_rule_spec v |}.

Definition set_seller_profile (p : string) (v : VoucherRow) : VoucherRow :=
  {| voucher_id := voucher_id v; buyer_identity_id := buyer_identity_id v;
     seller_identity_id := seller_identity_id v; amount := amount v;
     bill_credit_amount := bill_credit_amount v; task_type := task_type v;
     expiry_time := expiry_time v; status := status v; seller_profile_id := Some p;
     accepted_at := accepted_at v; task_precision := task_precision v;
     payment_mode := payment_mode v; rejection_reason := rejection_reason v;
     rejected_at := rejected_at v; rejected_by_identity_id := rejected_by_identity_id v;
     v_profile_id := v_profile_id v; v_progress_rule_spec := v_progress_rule_spec v |}.

Definition set_rejected (now : Z) (reason by_ : string) (v : VoucherRow) : VoucherRow :=
  {| voucher_id := voucher_id v; buyer_identity_id := buyer_identity_id v;
     seller_identity_id := seller_identity_id v; amount := amount v;
     bill_credit_amount := bill_credit_amount v; task_type := task_type v;
     expiry_time := expiry_time v; status := REJECTED; seller_profile_id := seller_profile_id v;
     accepted_at := accepted_at v; task_precision := task_precision v;
     payment_mode := payment_mode v; rejection_reason := Some (String.substring 0 2000 reason);
     rejected_at := Some now; rejected_by_identity_id := Some by_;
     v_profile_id := v_profile_id v; v_progress_rule_spec := v_progress_rule_spec v |}.

Record VoucherEvent := {
  ev_voucher_id : string;
  ev_type : string;
  ev_actor : option string;
  ev_target : option string
}.

(** ** The world: ledger, vouchers, role profiles, events, outbox, graph *)

Section Vouchers.
Context {G : Type} (sql_sum : list float -> float)
        (ingest_edge : VoucherRow -> string -> G -> result Exc G).

Record VWorld := {
  ledger : CapWorld;
  vouchers : gmap string VoucherRow;
  profile_owner : gmap string string;
  v_events : list VoucherEvent;
  outbox : list (string * string);
  graph : G
}.

Abbreviation VM := (M VWorld Exc).

Definition on_ledger {A} (c : CapM A) : VM A :=
  zoom ledger (fun l w => {| ledger := l; vouchers := vouchers w; profile_owner := profile_owner w;
                             v_events := v_events w; outbox := outbox w; graph := graph w |}) c.

Definition write_voucher (v : VoucherRow) : VM unit :=
  m_put (fun w => {| ledger := ledger w; vouchers := <[voucher_id v := v]> (vouchers w);
                     profile_owner := profile_owner w; v_events := v_events w;
                     outbox := outbox w; graph := graph w |}).

Definition record_voucher_event (e : VoucherEvent) : VM unit :=
  m_put (fun w => {| ledger := ledger w; vouchers := vouchers w; profile_owner := profile_owner w;
                     v_events := v_events w ++ [e]; outbox := outbox w; graph := graph w |}).

Definition emit_openclaw_event (kind vid : string) : VM unit :=
  m_put (fun w => {| ledger := ledger w; vouchers := vouchers w; profile_owner := profile_owner w;
                     v_events := v_events w; outbox := outbox w ++ [(kind, vid)]; graph := graph w |}).

Definition ingest (v : VoucherRow) (actor : string) : VM unit :=
  fun w => match ingest_edge v actor (graph w) with
           | Ok g => (Ok tt, {| ledger := ledger w; vouchers := vouchers w;
                                profile_owner := profile_owner w; v_events := v_events w;
                                outbox := outbox w; graph := g |})
           | Err e => (Err e, w)
           end.

(** [get_session] on this world: tables roll back, the brake and the outbox stay. *)
Definition v_request {A} (c : VM A) : VM A :=
  fun w => match c w with
           | (Ok a, w') => (Ok a, w')
           | (Err e, w') =>
               (Err e, {| ledger := {| caps := caps (ledger w); safety := safety (ledger w') |};
                          vouchers := vouchers w; profile_owner := profile_owner w;
                          v_events := v_events w; outbox := outbox w'; graph := graph w |})
           end.

(** ** [services/voucher_lifecycle.py] *)

(** Reload, heal, [_validate_capacity_row]. *)
Definition validate_after_reserve (now : Z) (key : string) : M caps_table Exc unit :=
  do! cap := reload key in
  do! cap := match cap with
             | Some r => match capacity_conservation_gap r with
                         | Some _ => seq! heal_capacity_conservation now key in reload key
                         | None => m_ret cap
                         end
             | None => m_ret cap
             end in
  match cap with
  | Some r => lift (assert_capacity_invariants r)
  | None => m_raise (AttributeError "NoneType")
  end.

(** The profile the seller accepts under, when one is named. *)
Definition bind_seller_profile (seller : string) (profile : option string) (row : VoucherRow) :
    VM VoucherRow :=
  match truthy profile with
  | None => m_ret row
  | Some p =>
      do! owner := m_get (fun w => profile_owner w !! p) in
      if decide (owner = Some seller) then
        let row := set_seller_profile p row in
        seq! write_voucher row in m_ret row
      else m_raise (HTTPException 404 ("profile " ++ p ++ " not found for this seller"))
  end.

Definition accept_voucher_row (now : Z) (db_ok : result string unit) (row : VoucherRow)
    (seller actor : string) (profile : option string) : VM VoucherRow :=
  if decide (status row <> CREATED)
  then m_raise (HTTPException 409 ("voucher already processed: " ++ status row))
  else if expiry_time row <=? now
  then seq! write_voucher (set_status EXPIRED row) in
       m_raise (HTTPException 409 "voucher expired")
  else if decide (seller_identity_id row <> seller)
  then m_raise (HTTPException 403 "seller mismatch")
  else
    do! row := bind_seller_profile seller profile row in
    let buyer := buyer_identity_id row in
    let reserved_amount := bill_credit_amount row in
    do! cap := m_get (fun w => caps (ledger w) !! buyer) in
    match cap with
    | None => m_raise (HTTPException 409 "insufficient buyer available credits")
    | Some cap =>
        if (available_credits cap <? reserved_amount)%float
        then m_raise (HTTPException 409 "insufficient buyer available credits")
        else
          seq! on_ledger (conflict_409 (on_caps (apply_delta_or_raise now buyer
                 [("available_credits"%string, fopp reserved_amount);
                  ("reserved_credits"%string, reserved_amount)]
                 [covers Available_credits reserved_amount] id
                 "insufficient buyer available credits"))) in
          seq! on_ledger (on_caps (validate_after_reserve now buyer)) in
          seq! on_ledger (audit_capacity_anchor_and_maybe_trip sql_sum now db_ok) in
          let row := set_accepted now row in
          seq! write_voucher row in
          seq! ingest row actor in
          seq! record_voucher_event {| ev_voucher_id := voucher_id row; ev_type := "voucher.accepted";
                                       ev_actor := Some seller; ev_target := Some buyer |} in
          seq! emit_openclaw_event "voucher.accepted" (voucher_id row) in
          m_ret row
    end.

Definition reject_voucher_row (now : Z) (row : VoucherRow) (seller reason : string) : VM VoucherRow :=
  if decide (status row <> CREATED)
  then m_raise (HTTPException 409 ("voucher already processed: " ++ status row))
  else if decide (seller_identity_id row <> seller)
  then m_raise (HTTPException 403 "seller mismatch")
  else
    let row := set_rejected now reason seller row in
    seq! write_voucher row in
    seq! record_voucher_event {| ev_voucher_id := voucher_id row; ev_type := "voucher.rejected";
                                 ev_actor := Some seller; ev_target := Some (buyer_identity_id row) |} in
    seq! emit_openclaw_event "voucher.rejected" (voucher_id row) in
    m_ret row.

(** ** [services/voucher_reaper.py] *)

(** [_assert_capacity_healed]. *)
Definition assert_capacity_healed (now : Z) (key : string) : M caps_table Exc unit :=
  do! cap := reload key in
  do! cap := match cap with
             | Some r => match capacity_conservation_gap r with
                         | Some _ => seq! heal_capacity_conservation now key in reload key
                         | None => m_ret cap
                         end
             | None => m_ret cap
             end in
  match cap with
  | Some r => lift (assert_capacity_invariants r)
  | None => m_ret tt
  end.

Definition release_reservation (now : Z) (v : VoucherRow) : M caps_table Exc float :=
  let released := py_round_to 6 (fl (bill_credit_amount v)) in
  if (released <=? fzero)%float then m_ret fzero
  else
    do! hit := m_catch (seq! apply_delta_or_raise now (buyer_identity_id v)
                 [("reserved_credits"%string, fopp released); ("available_credits"%string, released)]
                 [covers Reserved_credits released] id
                 "reserved credits no longer cover this voucher" in m_ret true)
               (fun e => match e with LedgerConflict _ => m_ret false | _ => m_raise e end) in
    if (hit : bool) then
      seq! assert_capacity_healed now (buyer_identity_id v) in m_ret released
    else m_ret fzero.

Definition sweepable (st : string) : bool := mem st [CREATED; ACCEPTED].

(** [due_vouchers]: ordered by expiry, at most [limit]. *)
Fixpoint insert_by_expiry (v : VoucherRow) (l : list VoucherRow) : list VoucherRow :=
  match l with
  | [] => [v]
  | x :: l' => if expiry_time v <? expiry_time x then v :: l else x :: insert_by_expiry v l'
  end.
Definition due_vouchers (now : Z) (limit : nat) (t : gmap string VoucherRow) : list VoucherRow :=
  take limit (fold_left (fun acc v => insert_by_expiry v acc)
    (filter (fun v => sweepable (status v) = true /\ expiry_time v <= now) (snd <$> map_to_list t)) []).

(** One turn of the loop of [expire_due]. *)
Definition expire_one (now : Z) (v : VoucherRow) : VM (option (string * float)) :=
  do! released := if decide (status v = ACCEPTED)
                  then on_ledger (on_caps (release_reservation now v)) else m_ret fzero in
  seq! write_voucher (set_status EXPIRED v) in
  m_ret (if (released >? fzero)%float then Some (voucher_id v, released) else None).

Fixpoint expire_all (now : Z) (due : list VoucherRow) : VM (list (string * float)) :=
  match due with
  | [] => m_ret []
  | v :: due =>
      do! r := expire_one now v in
      do! rest := expire_all now due in
      m_ret (match r with Some r => r :: rest | None => rest end)
  end.

Definition expire_due (enabled : bool) (now : Z) (limit : nat) : VM (list (string * float)) :=
  if negb enabled then m_ret []
  else do! due := m_get (fun w => due_vouchers now limit (vouchers w)) in expire_all now due.

(** [cancel_voucher_reservation_for_task], given the settlement's voucher id. *)
Definition cancel_voucher_reservation (now : Z) (settlement_voucher : option string) :
    VM (option (string * float)) :=
  match settlement_voucher with
  | None => m_ret None
  | Some vid =>
      if decide (py_strip vid = ""%string) then m_ret None
      else
        do! v := m_get (fun w => vouchers w !! vid) in
        match v with
        | None => m_ret None
        | Some v =>
            if negb (mem (status v) [CREATED; ACCEPTED]) then m_ret None
            else
              do! released := if decide (status v = ACCEPTED)
                              then on_ledger (on_caps (release_reservation now v)) else m_ret fzero in
              seq! write_voucher (set_status CANCELLED v) in
              m_ret (Some (voucher_id v, released))
        end
  end.

(** [mark_voucher_used_if_linked], given the settlement's voucher id. *)
Definition mark_voucher_used (settlement_voucher : option string) : VM unit :=
  match settlement_voucher with
  | None => m_ret tt
  | Some vid =>
      if decide (vid = ""%string) then m_ret tt
      else
        do! v := m_get (fun w => vouchers w !! vid) in
        match v with
        | None => m_ret tt
        | Some v => if decide (status v = ACCEPTED) then write_voucher (set_status USED v)
                    else m_ret tt
        end
  end.

(** ** [restore_leaked_reservations] *)

(** The rows with something reserved, ordered by identity, at most [limit]. *)
Fixpoint insert_by_key (kr : string * CapacityRow) (l : list (string * CapacityRow)) :
    list (string * CapacityRow) :=
  match l with
  | [] => [kr]
  | x :: l' => if String.ltb (fst kr) (fst x) then kr :: l else x :: insert_by_key kr l'
  end.
Definition reserving_rows (limit : nat) (t : caps_table) : list (string * CapacityRow) :=
  take limit (fold_left (fun acc kr => insert_by_key kr acc)
    (filter (fun kr => fltb f1em9 (reserved_credits (snd kr)) = true) (map_to_list t)) []).

(** What the live vouchers of a buyer hold. *)
Definition held_credits (buyer : string) (t : gmap string VoucherRow) : float :=
  sql_sum (bill_credit_amount <$>
    filter (fun v => buyer_identity_id v = buyer /\ status v = ACCEPTED) (snd <$> map_to_list t)).

(** One turn of the loop; [inflight] says whether the identity has a settlement that
    is not terminal. *)
Definition restore_one (inflight : string -> bool) (now : Z) (key : string) (cap : CapacityRow) :
    VM (option (string * float)) :=
  if inflight key then m_ret None
  else
    do! held := m_get (fun w => held_credits key (vouchers w)) in
    let excess := py_round_to 6 (fl (reserved_credits cap) - fl held)%float in
    if (excess <=? f1em9)%float then m_ret None
    else
      do! hit := on_ledger (on_caps (m_catch (seq! apply_delta_or_raise now key
                   [("reserved_credits"%string, fopp excess); ("available_credits"%string, excess)]
                   [covers Reserved_credits excess] id
                   "reserved credits are not held by any live voucher" in m_ret true)
                 (fun e => match e with LedgerConflict _ => m_ret false | _ => m_raise e end))) in
      if (hit : bool) then
        seq! on_ledger (on_caps (assert_capacity_healed now key)) in m_ret (Some (key, excess))
      else m_ret None.

Fixpoint restore_all (inflight : string -> bool) (now : Z) (rows : list (string * CapacityRow)) :
    VM (list (string * float)) :=
  match rows with
  | [] => m_ret []
  | (key, cap) :: rows =>
      do! r := restore_one inflight now key cap in
      do! rest := restore_all inflight now rows in
      m_ret (match r with Some r => r :: rest | None => rest end)
  end.

Definition restore_leaked_reservations (inflight : string -> bool) (now : Z) (limit : nat) :
    VM (list (string * float)) :=
  do! rows := m_get (fun w => reserving_rows limit (caps (ledger w))) in
  restore_all inflight now rows.
End Vouchers.

(** ** [services/voucher_preauth.py] *)

(** The columns of [AgentAutomationPolicyModel] the rules read. *)
Record Policy := {
  preauth_enabled : bool;
  auto_accept_incoming : bool;
  responsibility_acknowledged : bool;
  allowed_task_types : list string;
  precision_min : option float;
  precision_max : option float;
  single_limit : float;
  trusted_counterparty_ids : list string;
  responsibility_boundary_id : option string
}.

Record PreauthEvaluation := { pe_accept : bool; pe_reason : string; pe_code : string }.

Definition deny (reason code : string) : PreauthEvaluation :=
  {| pe_accept := false; pe_reason := reason; pe_code := code |}.

Definition precision_in_range (value min_v max_v : option float) : bool :=
  match value with
  | None => bool_decide (min_v = None) && bool_decide (max_v = None)
  | Some v =>
      match min_v with Some m => negb (v + f1em9 <? m)%float | None => true end &&
      match max_v with Some m => negb (v >? m + f1em9)%float | None => true end
  end.

(** [x and value not in x]: an empty list allows everything. *)
Definition excluded (value : string) (allowed : list string) : bool :=
  negb (bool_decide (allowed = [])) && negb (mem value allowed).

Definition boundary_of (p : Policy) : string := py_strip (default ""%string (responsibility_boundary_id p)).

Definition boundary_conflict (policy : Policy) (buyer_policy : option Policy) (v : VoucherRow) : bool :=
  negb (bool_decide (boundary_of policy = ""%string)) && bool_decide (payment_mode v = "preauth"%string) &&
  let buyer_boundary := match buyer_policy with Some b => boundary_of b | None => ""%string end in
  negb (bool_decide (buyer_boundary = ""%string)) && negb (bool_decide (buyer_boundary = boundary_of policy)).

Definition evaluate_seller_preauth (now : Z) (policies : gmap string Policy) (seller : string)
    (v : VoucherRow) : PreauthEvaluation :=
  match policies !! seller with
  | None => deny "seller preauth auto-accept not enabled" "preauth_disabled"
  | Some policy =>
      if negb (preauth_enabled policy) || negb (auto_accept_incoming policy)
      then deny "seller preauth auto-accept not enabled" "preauth_disabled"
      else if negb (responsibility_acknowledged policy)
      then deny "seller responsibility boundary not acknowledged" "no_responsibility_ack"
      else if expiry_time v <=? now then deny "payment code expired" "expired"
      else if excluded (task_type v) (allowed_task_types policy)
      then deny "task_type not allowed" "task_type_mismatch"
      else if negb (precision_in_range (task_precision v) (precision_min policy) (precision_max policy))
      then deny "task_precision out of seller preauth range" "precision_mismatch"
      else if (amount v >? single_limit policy + f1em9)%float
      then deny "amount exceeds seller single_limit" "amount_over_limit"
      else if (bill_credit_amount v >? single_limit policy + f1em9)%float
      then deny "bill_credit exceeds seller single_limit" "bill_credit_over_limit"
      else if excluded (buyer_identity_id v) (trusted_counterparty_ids policy)
      then deny "buyer not in seller trusted list" "buyer_not_trusted"
      else if boundary_conflict policy (policies !! buyer_identity_id v) v
      then deny "responsibility_boundary_id mismatch" "boundary_mismatch"
      else {| pe_accept := true; pe_reason := "preauth rules satisfied"; pe_code := "accepted" |}
  end.

Definition evaluate_buyer_preauth_for_create (policy : option Policy) (seller : string) (amt : float)
    (ttype : string) (precision : option float) : PreauthEvaluation :=
  match policy with
  | None => {| pe_accept := true; pe_reason := "manual mode or buyer preauth off"; pe_code := "skipped" |}
  | Some policy =>
      if negb (preauth_enabled policy)
      then {| pe_accept := true; pe_reason := "manual mode or buyer preauth off"; pe_code := "skipped" |}
      else if negb (responsibility_acknowledged policy)
      then deny "buyer responsibility boundary not acknowledged" "no_responsibility_ack"
      else if excluded ttype (allowed_task_types policy)
      then deny "task_type not allowed for buyer" "task_type_mismatch"
      else if negb (precision_in_range precision (precision_min policy) (precision_max policy))
      then deny "task_precision out of buyer preauth range" "precision_mismatch"
      else if (amt >? single_limit policy + f1em9)%float
      then deny "amount exceeds buyer single_limit" "amount_over_limit"
      else if excluded seller (trusted_counterparty_ids policy)
      then deny "seller not in buyer trusted list" "seller_not_trusted"
      else {| pe_accept := true; pe_reason := "buyer preauth ok"; pe_code := "ok" |}
  end.

(** ** The voucher's lifecycle *)

Inductive status_step : string -> string -> Prop :=
| step_accept : status_step CREATED ACCEPTED
| step_reject : status_step CREATED REJECTED
| step_use : status_step ACCEPTED USED
| step_expire st : sweepable st = true -> status_step st EXPIRED
| step_cancel st : sweepable st = true -> status_step st CANCELLED.

(** The statuses no modelled operation leaves. *)
Definition final_status (st : string) : Prop := st ∈ [USED; EXPIRED; CANCELLED; REJECTED].

Lemma final_stable st st' : final_status st -> rtc status_step st st' -> st' = st.
Proof.
  intros Hf Hr. destruct Hr as [|x y z Hxy _]; [done|]. exfalso.
  assert (Hs : sweepable x = false).
  { unfold final_status in Hf.
    repeat (apply elem_of_cons in Hf as [->|Hf]; [reflexivity|]). set_solver. }
  assert (sweepable x = true) by (by inv Hxy). congruence.
Qed.

Section Lifecycle.
Context {G : Type} (sql_sum : list float -> float)
        (ingest_edge : VoucherRow -> string -> G -> result Exc G).

Abbreviation world := (VWorld (G := G)).

Inductive voucher_op :=
| VAccept (now : Z) (db_ok : result string unit) (vid seller actor : string) (profile : option string)
| VReject (now : Z) (vid seller reason : string)
| VExpire (enabled : bool) (now : Z) (limit : nat)
| VCancel (now : Z) (settlement_voucher : option string)
| VUse (settlement_voucher : option string)
| VRestore (inflight : string -> bool) (now : Z) (limit : nat).

(** One HTTP request or one turn of the reaper. *)
Definition run_voucher_op (o : voucher_op) : M world Exc unit :=
  v_request
    match o with
    | VAccept now ok vid seller actor p =>
        do! v := m_get (fun w => vouchers w !! vid) in
        match v with
        | Some v => seq! accept_voucher_row sql_sum ingest_edge now ok v seller actor p in m_ret tt
        | None => m_raise (HTTPException 404 "voucher")
        end
    | VReject now vid seller reason =>
        do! v := m_get (fun w => vouchers w !! vid) in
        match v with
        | Some v => seq! reject_voucher_row now v seller reason in m_ret tt
        | None => m_raise (HTTPException 404 "voucher")
        end
    | VExpire enabled now limit => seq! expire_due enabled now limit in m_ret tt
    | VCancel now sv => seq! cancel_voucher_reservation now sv in m_ret tt
    | VUse sv => mark_voucher_used sv
    | VRestore inflight now limit =>
        seq! restore_leaked_reservations sql_sum inflight now limit in m_ret tt
    end.

(** Rows are stored under their own id. *)
Definition keyed (t : gmap string VoucherRow) : Prop := map_Forall (fun k v => voucher_id v = k) t.

(** Every row of [t] is still in [t'], its status moved along the lifecycle. *)
Definition moved (t t' : gmap string VoucherRow) : Prop :=
  forall k v, t !! k = Some v ->
    exists v', t' !! k = Some v' /\ rtc status_step (status v) (status v').

Lemma moved_refl t : moved t t.
Proof. intros k v Hv. exists v. split; [done|apply rtc_refl]. Qed.

Lemma moved_trans t1 t2 t3 : moved t1 t2 -> moved t2 t3 -> moved t1 t3.
Proof.
  intros H1 H2 k v Hv. destruct (H1 k v Hv) as (v2 & Hv2 & Hs).
  destruct (H2 k v2 Hv2) as (v3 & Hv3 & Hs'). exists v3. split; [done|by etrans].
Qed.

Lemma moved_write t v v' : voucher_id v' = voucher_id v -> keyed t ->
  t !! voucher_id v = Some v -> rtc status_step (status v) (status v') ->
  moved t (<[voucher_id v' := v']> t) /\ keyed (<[voucher_id v' := v']> t).
Proof.
  intros Hid Hk Hv Hs. rewrite Hid. split.
  - intros k x Hx. destruct (decide (voucher_id v = k)) as [<-|Hne].
    + exists v'. rewrite lookup_insert_eq. split; [done|]. by assert (x = v) as -> by congruence.
    + exists x. rewrite lookup_insert_ne by done. split; [done|apply rtc_refl].
  - intros k x. rewrite lookup_insert_Some. intros [[<- <-]|[_ Hx]]; [done|by apply Hk].
Qed.

Lemma on_ledger_vouchers {A} (c : CapM A) (w w' : world) a :
  on_ledger c w = (Ok a, w') -> c (ledger w) = (Ok a, ledger w') /\
  vouchers w' = vouchers w /\ v_events w' = v_events w.
Proof. unfold on_ledger, zoom. destruct (c (ledger w)). by intros [= -> <-]. Qed.

Lemma ingest_vouchers v actor (w w' : world) u :
  ingest ingest_edge v actor w = (Ok u, w') ->
  vouchers w' = vouchers w /\ ledger w' = ledger w /\ v_events w' = v_events w.
Proof. unfold ingest. destruct (ingest_edge _ _ _); [|done]. by intros [= _ <-]. Qed.

Lemma bind_profile_ok seller p v (w w' : world) v' :
  bind_seller_profile seller p v w = (Ok v', w') ->
  ledger w' = ledger w /\ v_events w' = v_events w /\
  voucher_id v' = voucher_id v /\ buyer_identity_id v' = buyer_identity_id v /\
  bill_credit_amount v' = bill_credit_amount v /\ status v' = status v /\
  (vouchers w' = vouchers w /\ v' = v \/ vouchers w' = <[voucher_id v' := v']> (vouchers w)).
Proof.
  unfold bind_seller_profile. destruct (truthy p) as [pid|]; [|intros [= <- <-]; eauto 10].
  rewrite m_bind_ok. intros (o & w1 & [= <- <-] & H). case_decide; [|done].
  injection H as <- <-. cbn. eauto 10.
Qed.

Lemma validate_after_reserve_ok now key (t t' : caps_table) r :
  t !! key = Some r -> validate_after_reserve now key t = (Ok tt, t') ->
  exists r', t' = <[key := r']> t /\ same_buckets r r' /\ assert_capacity_invariants r' = Ok tt.
Proof.
  intros Hr. unfold validate_after_reserve, m_bind at 1, reload at 1, m_get. rewrite Hr.
  destruct (capacity_conservation_gap r) as [g|] eqn:Hg; unfold m_bind at 1.
  - unfold m_bind. rewrite (heal_eq now key t r Hr), Hg. unfold reload, m_get, lift.
    rewrite lookup_insert_eq. intros [= Hi <-]. exists (healed_row now r).
    eauto using healed_same_buckets.
  - unfold m_ret, lift. intros [= Hi <-]. exists r. rewrite insert_id by done.
    eauto using same_buckets_refl.
Qed.

(** What a successful reservation did to the ledger. *)
Lemma reserve_ok now buyer b msg (t t1 t2 : caps_table) :
  apply_delta_or_raise now buyer
    [("available_credits"%string, fopp b); ("reserved_credits"%string, b)]
    [covers Available_credits b] id msg t = (Ok tt, t1) ->
  validate_after_reserve now buyer t1 = (Ok tt, t2) ->
  exists r r', t !! buyer = Some r /\ t2 = <[buyer := r']> t /\
    covers Available_credits b r = true /\ assert_capacity_invariants r' = Ok tt /\
    available_credits r' = (available_credits r + fopp b)%float /\
    reserved_credits r' = (reserved_credits r + b)%float.
Proof.
  unfold apply_delta_or_raise, m_bind. rewrite apply_delta_eq.
  destruct (validate_fields _); [|done].
  match goal with |- context [resolve_columns ?d] =>
    change (resolve_columns d) with
      (Ok (E := Exc) [(Available_credits, fopp b); (Reserved_credits, b)]) end.
  destruct (t !! buyer) as [r|] eqn:Hr; [|done]. cbn [forallb]. rewrite andb_true_r.
  destruct (covers _ b r) eqn:Hc; [|done]. rewrite decide_False by (intros Hx; by apply Hx).
  intros [= <-] Hv. eapply validate_after_reserve_ok in Hv as (r' & -> & Hs & Hi); [|by apply lookup_insert_eq].
  exists r, r'. rewrite insert_insert_eq. split_and!; try done.
  - by apply (Hs Available_credits).
  - by apply (Hs Reserved_credits).
Qed.

Lemma accept_ok now ok (v : VoucherRow) seller actor p (w w' : world) v' :
  accept_voucher_row sql_sum ingest_edge now ok v seller actor p w = (Ok v', w') ->
  status v = CREATED /\ now < expiry_time v /\ seller_identity_id v = seller /\
  status v' = ACCEPTED /\ voucher_id v' = voucher_id v /\
  (vouchers w' = <[voucher_id v := v']> (vouchers w)) /\
  v_events w' = v_events w ++ [{| ev_voucher_id := voucher_id v; ev_type := "voucher.accepted";
                                  ev_actor := Some seller; ev_target := Some (buyer_identity_id v) |}] /\
  exists r r', caps (ledger w) !! buyer_identity_id v = Some r /\
    caps (ledger w') = <[buyer_identity_id v := r']> (caps (ledger w)) /\
    (available_credits r <? bill_credit_amount v)%float = false /\
    assert_capacity_invariants r' = Ok tt /\
    available_credits r' = (available_credits r + fopp (bill_credit_amount v))%float /\
    reserved_credits r' = (reserved_credits r + bill_credit_amount v)%float.
Proof.
  unfold accept_voucher_row. case_decide as Hst; [done|]. destruct (Z.leb_spec (expiry_time v) now) as [|Hexp]; [done|].
  case_decide as Hsel; [done|]. rewrite m_bind_ok.
  intros (v1 & w1 & Hb%bind_profile_ok & H).
  destruct Hb as (Hl1 & He1 & Hid & Hbuy & Hbill & Hst1 & Hv1). rewrite Hbuy, Hbill in H.
  rewrite m_bind_ok in H. destruct H as (cap & w2 & [= <- <-] & H). rewrite Hl1 in H.
  destruct (caps (ledger w) !! buyer_identity_id v) as [cap|] eqn:Hcap; [|done].
  destruct (fltb _ _) eqn:Hav; [done|].
  rewrite m_bind_ok in H. destruct H as ([] & w3 & H3 & H).
  rewrite m_bind_ok in H. destruct H as ([] & w4 & H4 & H).
  rewrite m_bind_ok in H. destruct H as ([] & w5 & H5 & H).
  rewrite m_bind_ok in H. destruct H as ([] & w6 & [= <-] & H).
  rewrite m_bind_ok in H. destruct H as ([] & w7 & (H7v & H7l & H7e)%ingest_vouchers & H).
  rewrite m_bind_ok in H. destruct H as ([] & w8 & [= <-] & H).
  rewrite m_bind_ok in H. destruct H as ([] & w9 & [= <-] & [= <- <-]). cbn [vouchers v_events ledger voucher_id status set_accepted] in *.
  apply on_ledger_vouchers in H3 as (H3 & H3v & H3e), H4 as (H4 & H4v & H4e), H5 as (H5 & H5v & H5e).
  split_and!; [by destruct (decide (status v = CREATED))|done|
    by destruct (decide (seller_identity_id v = seller))|done|done| | |].
  - rewrite H7v, H5v, H4v, H3v, Hid. destruct Hv1 as [[-> ->]| ->]; [done|].
    by rewrite Hid, insert_insert_eq.
  - by rewrite H7e, H5e, H4e, H3e, He1, Hid.
  - apply conflict_409_ok, on_caps_ok in H3. apply on_caps_ok in H4. apply audit_ok in H5.
    rewrite Hl1 in H3.
    destruct (reserve_ok _ _ _ _ _ _ _ H3 H4) as (r & r' & Hr & Ht & _ & Hi & Ha & Hre).
    exists r, r'. rewrite H7l, H5, Ht. assert (cap = r) as -> by congruence. done.
Qed.

(** Rows in the loop of [expire_due]: as they were, or expired. *)
Definition swept (t0 t : gmap string VoucherRow) : Prop :=
  keyed t /\ forall k v, t0 !! k = Some v -> exists v', t !! k = Some v' /\
    (v' = v \/ sweepable (status v) = true /\ status v' = EXPIRED).

Lemma swept_moved t0 t : swept t0 t -> moved t0 t.
Proof.
  intros [_ H] k v Hv. destruct (H k v Hv) as (v' & Hv' & [->|[Hs He]]); exists v' || exists v;
    (split; [done|]); [apply rtc_refl|]. rewrite He. by apply rtc_once, step_expire.
Qed.

Lemma expire_all_swept now due t0 (w w' : world) a :
  keyed t0 -> Forall (fun v => t0 !! voucher_id v = Some v /\ sweepable (status v) = true) due ->
  swept t0 (vouchers w) -> expire_all now due w = (Ok a, w') -> swept t0 (vouchers w').
Proof.
  intros Hk Hdue. revert w a. induction Hdue as [|v due [Hv Hsw] _ IH]; intros w a Hs H.
  - by injection H as _ <-.
  - cbn [expire_all] in H. rewrite m_bind_ok in H. destruct H as (r & w1 & H1 & H).
    rewrite m_bind_ok in H. destruct H as (rest & w2 & H2 & [= _ <-]).
    eapply IH; [|exact H2]. unfold expire_one in H1. rewrite m_bind_ok in H1.
    destruct H1 as (rel & w3 & H3 & H1). rewrite m_bind_ok in H1.
    destruct H1 as ([] & w4 & [= <-] & [= _ <-]). cbn [vouchers].
    assert (vouchers w3 = vouchers w) as ->.
    { case_decide; [by apply on_ledger_vouchers in H3 as (_ & ? & _)|by injection H3 as _ <-]. }
    destruct Hs as [Hkw Hs]. split.
    + intros k x. rewrite lookup_insert_Some. intros [[<- <-]|[_ Hx]]; [done|by apply Hkw].
    + intros k x Hx. destruct (decide (voucher_id (set_status EXPIRED v) = k)) as [<-|Hne].
      * exists (set_status EXPIRED v). rewrite lookup_insert_eq. split; [done|]. right.
        cbn in Hx. assert (x = v) as -> by congruence. done.
      * rewrite lookup_insert_ne by done. by apply Hs.
Qed.

Lemma insert_by_expiry_elem v x l : x ∈ insert_by_expiry v l -> x = v \/ x ∈ l.
Proof.
  induction l as [|y l IH]; simpl; [set_solver|]. case_match; set_solver.
Qed.

Lemma due_sound now limit t v : keyed t -> v ∈ due_vouchers now limit t ->
  t !! voucher_id v = Some v /\ sweepable (status v) = true.
Proof.
  intros Hk Hin. unfold due_vouchers in Hin. apply elem_of_take in Hin as (i & Hi & _).
  apply list_elem_of_lookup_2 in Hi.
  assert (Hfold : forall l acc x, x ∈ fold_left (fun acc v => insert_by_expiry v acc) l acc ->
    x ∈ acc \/ x ∈ l).
  { induction l as [|y l IH]; intros acc x Hx; [by left|]. simpl in Hx.
    apply IH in Hx as [Hx|Hx]; [|set_solver]. apply insert_by_expiry_elem in Hx. set_solver. }
  apply Hfold in Hi as [Hi|Hi]; [set_solver|].
  apply list_elem_of_filter in Hi as [[Hs _] Hi].
  apply list_elem_of_fmap in Hi as ([k x] & -> & Hkx). apply elem_of_map_to_list in Hkx.
  simpl in *. split; [|done]. by rewrite (Hk k x Hkx).
Qed.

Lemma request_moved {A} (c : M world Exc A) (w : world) :
  (forall a w', c w = (Ok a, w') -> moved (vouchers w) (vouchers w') /\ keyed (vouchers w')) ->
  keyed (vouchers w) ->
  moved (vouchers w) (vouchers (exec (v_request c) w)) /\ keyed (vouchers (exec (v_request c) w)).
Proof.
  intros H Hk. unfold exec, v_request. destruct (c w) as [[a|e] w']; [by eapply H|].
  split; [apply moved_refl|done].
Qed.

Lemma reject_moved now v seller why (w w' : world) v' :
  keyed (vouchers w) -> vouchers w !! voucher_id v = Some v ->
  reject_voucher_row now v seller why w = (Ok v', w') ->
  moved (vouchers w) (vouchers w') /\ keyed (vouchers w').
Proof.
  intros Hk Hv. unfold reject_voucher_row. case_decide as Hst; [done|]. case_decide; [done|].
  intros [= <- <-]. cbn [vouchers].
  apply (moved_write _ v (set_rejected now why seller v)); try done. cbn.
  rewrite Hst. apply rtc_once, step_reject.
Qed.

Lemma expire_moved en now limit (w w' : world) l :
  keyed (vouchers w) -> expire_due en now limit w = (Ok l, w') ->
  moved (vouchers w) (vouchers w') /\ keyed (vouchers w').
Proof.
  intros Hk H. unfold expire_due in H.
  destruct en; cbn [negb] in H; [|injection H as _ <-; split; [apply moved_refl|done]].
  rewrite m_bind_ok in H. destruct H as (due & w2 & [= <- <-] & H).
  assert (Hsw : swept (vouchers w) (vouchers w')).
  { eapply expire_all_swept; [exact Hk| | |exact H].
    - apply Forall_forall. intros v Hv. by eapply due_sound.
    - split; [done|]. eauto. }
  split; [by apply swept_moved|apply Hsw].
Qed.

Lemma cancel_moved now sv (w w' : world) l :
  keyed (vouchers w) -> cancel_voucher_reservation now sv w = (Ok l, w') ->
  moved (vouchers w) (vouchers w') /\ keyed (vouchers w').
Proof.
  intros Hk H.
  assert (Hnop : w' = w -> moved (vouchers w) (vouchers w') /\ keyed (vouchers w'))
    by (intros ->; split; [apply moved_refl|done]).
  unfold cancel_voucher_reservation in H. destruct sv as [vid|]; [|injection H as _ <-; auto].
  case_decide; [injection H as _ <-; auto|].
  rewrite m_bind_ok in H. destruct H as (v & w2 & [= <- <-] & H).
  destruct (vouchers w !! vid) as [v|] eqn:Hv; [|injection H as _ <-; auto].
  destruct (mem _ _) eqn:Hm; cbn [negb] in H; [|injection H as _ <-; auto].
  rewrite m_bind_ok in H. destruct H as (rel & w3 & H3 & H). rewrite m_bind_ok in H.
  destruct H as ([] & w4 & [= <-] & [= _ <-]). cbn [vouchers].
  assert (vouchers w3 = vouchers w) as ->.
  { case_decide; [by apply on_ledger_vouchers in H3 as (_ & ? & _)|by injection H3 as _ <-]. }
  pose proof (Hk _ _ Hv) as <-. apply (moved_write _ v (set_status CANCELLED v)); try done.
  cbn. by apply rtc_once, step_cancel.
Qed.

Lemma use_moved sv (w w' : world) u :
  keyed (vouchers w) -> mark_voucher_used sv w = (Ok u, w') ->
  moved (vouchers w) (vouchers w') /\ keyed (vouchers w').
Proof.
  intros Hk H.
  assert (Hnop : w' = w -> moved (vouchers w) (vouchers w') /\ keyed (vouchers w'))
    by (intros ->; split; [apply moved_refl|done]).
  unfold mark_voucher_used in H. destruct sv as [vid|]; [|injection H as _ <-; auto].
  case_decide; [injection H as _ <-; auto|].
  rewrite m_bind_ok in H. destruct H as (v & w2 & [= <- <-] & H).
  destruct (vouchers w !! vid) as [v|] eqn:Hv; [|injection H as _ <-; auto].
  case_decide as Hst; [|injection H as _ <-; auto]. injection H as _ <-. cbn [vouchers].
  pose proof (Hk _ _ Hv) as <-. apply (moved_write _ v (set_status USED v)); try done.
  cbn. rewrite Hst. apply rtc_once, step_use.
Qed.

Lemma healed_only now key (t t' : caps_table) o :
  assert_capacity_healed now key t = (o, t') -> only key t t'.
Proof.
  unfold assert_capacity_healed, m_bind at 1, reload at 1, m_get.
  destruct (t !! key) as [r|] eqn:Hr; [|by intros [= _ <-]].
  destruct (capacity_conservation_gap r) as [g|] eqn:Hg; unfold m_bind at 1.
  - unfold m_bind. rewrite (heal_eq now key t r Hr), Hg. unfold reload, m_get, lift.
    rewrite lookup_insert_eq. intros [= _ <-] k Hk. by rewrite lookup_insert_ne.
  - unfold m_ret, lift. by intros [= _ <-].
Qed.

(** [try: apply_delta_or_raise ... except LedgerConflict]. *)
Lemma try_delta_only now key deltas guards msg (t t' : caps_table) o :
  m_catch (seq! apply_delta_or_raise now key deltas guards id msg in m_ret true)
    (fun e => match e with LedgerConflict _ => m_ret false | _ => m_raise e end) t = (o, t') ->
  only key t t'.
Proof.
  unfold m_catch, m_bind. destruct (apply_delta_or_raise _ _ _ _ _ _ t) as [[u|e] t1] eqn:Ha;
    apply apply_delta_or_raise_only in Ha; [by intros [= _ <-]|].
  destruct e; by intros [= _ <-].
Qed.

(** A turn of the leak sweep touches no voucher and at most the row of its identity,
    and nothing when the identity has work in flight. *)
Lemma restore_one_frame inflight now key cap (w w' : world) r :
  restore_one sql_sum inflight now key cap w = (Ok r, w') ->
  vouchers w' = vouchers w /\ (inflight key = true -> w' = w) /\
  only key (caps (ledger w)) (caps (ledger w')).
Proof.
  unfold restore_one. destruct (inflight key); [by intros [= _ <-]|].
  rewrite m_bind_ok. intros (held & w1 & [= <- <-] & H).
  destruct (fleb _ f1em9); [by injection H as _ <-|].
  rewrite m_bind_ok in H. destruct H as (hit & w2 & H2 & H).
  apply on_ledger_vouchers in H2 as (H2%on_caps_ok%try_delta_only & Hv2 & _).
  destruct hit; [|injection H as _ <-; by split_and!].
  rewrite m_bind_ok in H. destruct H as ([] & w3 & H3 & [= _ <-]).
  apply on_ledger_vouchers in H3 as (H3%on_caps_ok%healed_only & Hv3 & _).
  split_and!; [congruence|done|by eapply only_trans].
Qed.

Lemma restore_all_frame inflight now rows (w w' : world) l :
  restore_all sql_sum inflight now rows w = (Ok l, w') ->
  vouchers w' = vouchers w /\
  forall k, inflight k = true \/ k ∉ rows.*1 -> caps (ledger w') !! k = caps (ledger w) !! k.
Proof.
  revert w l. induction rows as [|[key cap] rows IH]; intros w l H.
  - injection H as _ <-. done.
  - cbn [restore_all] in H. rewrite m_bind_ok in H. destruct H as (r & w1 & H1 & H).
    rewrite m_bind_ok in H. destruct H as (rest & w2 & H2 & [= _ <-]).
    apply restore_one_frame in H1 as (Hv1 & Hi & Ho). apply IH in H2 as [Hv2 H2].
    split; [congruence|]. intros k Hk. cbn [fmap list_fmap fst] in Hk. rewrite not_elem_of_cons in Hk.
    rewrite H2 by tauto. destruct (decide (k = key)) as [->|Hne]; [|by apply Ho].
    destruct Hk as [Hk|[Hk _]]; [by rewrite (Hi Hk)|done].
Qed.

Lemma voucher_op_moved o (w : world) : keyed (vouchers w) ->
  moved (vouchers w) (vouchers (exec (run_voucher_op o) w)) /\
  keyed (vouchers (exec (run_voucher_op o) w)).
Proof.
  intros Hk. apply request_moved; [|done]. intros [] w' H.
  destruct o as [now ok vid seller actor p|now vid seller why|en now limit|now sv|sv|inflight now limit];
    cbn beta iota in H.
  - rewrite m_bind_ok in H. destruct H as (v & w1 & [= <- <-] & H).
    destruct (vouchers w !! vid) as [v|] eqn:Hv; [|done].
    rewrite m_bind_ok in H. destruct H as (v' & w2 & H & [= <-]).
    apply accept_ok in H as (Hst & _ & _ & Hst' & Hid & -> & _).
    pose proof (Hk _ _ Hv) as <-. rewrite <- Hid. apply (moved_write _ v); try done.
    rewrite Hst, Hst'. apply rtc_once, step_accept.
  - rewrite m_bind_ok in H. destruct H as (v & w1 & [= <- <-] & H).
    destruct (vouchers w !! vid) as [v|] eqn:Hv; [|done].
    rewrite m_bind_ok in H. destruct H as (v' & w2 & H & [= <-]).
    pose proof (Hk _ _ Hv) as <-. by eapply reject_moved.
  - rewrite m_bind_ok in H. destruct H as (l & w1 & H & [= <-]). by eapply expire_moved.
  - rewrite m_bind_ok in H. destruct H as (l & w1 & H & [= <-]). by eapply cancel_moved.
  - by eapply use_moved.
  - rewrite m_bind_ok in H. destruct H as (l & w1 & H & [= <-]).
    unfold restore_leaked_reservations in H. rewrite m_bind_ok in H.
    destruct H as (rows & w2 & [= <- <-] & H). apply restore_all_frame in H as [-> _].
    split; [apply moved_refl|done].
Qed.

Lemma voucher_ops_moved (os : list voucher_op) (w : world) : keyed (vouchers w) ->
  moved (vouchers w) (vouchers (fold_left (fun w o => exec (run_voucher_op o) w) os w)).
Proof.
  revert w. induction os as [|o os IH]; intros w Hk; [apply moved_refl|].
  destruct (voucher_op_moved o w Hk) as [Hm Hk']. eapply moved_trans; [exact Hm|]. by apply IH.
Qed.
End Lifecycle.

(** ** Properties *)

(** Accepting a voucher, when it succeeds: the voucher was created, not expired and
    addressed to this seller; it is now accepted and nothing else in the voucher
    table changed; exactly its bill amount moved from the buyer's available to
    reserved credits, which covered it, and the buyer's row (the only one changed)
    satisfies the conservation equations; one acceptance event was recorded. *)
Theorem voucher_accept_spec {G} sql_sum (ingest_edge : VoucherRow -> string -> G -> result Exc G)
    now db_ok v seller actor profile (w w' : VWorld (G := G)) v' :
  accept_voucher_row sql_sum ingest_edge now db_ok v seller actor profile w = (Ok v', w') ->
  status v = CREATED /\ now < expiry_time v /\ seller_identity_id v = seller /\
  status v' = ACCEPTED /\ vouchers w' = <[voucher_id v := v']> (vouchers w) /\
  (exists e, v_events w' = v_events w ++ [e] /\ ev_type e = "voucher.accepted"%string) /\
  exists r r', caps (ledger w) !! buyer_identity_id v = Some r /\
    caps (ledger w') = <[buyer_identity_id v := r']> (caps (ledger w)) /\
    (available_credits r <? bill_credit_amount v)%float = false /\
    available_credits r' = (available_credits r + fopp (bill_credit_amount v))%float /\
    reserved_credits r' = (reserved_credits r + bill_credit_amount v)%float /\
    assert_capacity_invariants r' = Ok tt.
Proof.
  intros H. apply accept_ok in H as (H1 & H2 & H3 & H4 & _ & H6 & H7 & r & r' & H8 & H9 & H10 & H11 & H12 & H13).
  split_and!; try done; [|by exists r, r']. eexists. split; [exact H7|done].
Qed.

(** C22. Voucher statuses follow the lifecycle: under any sequence of whole accept, reject,
    expiry-sweep, cancel, use and leak-restore requests, one after another in any order and
    with any failures, no voucher disappears, its status only moves created -> accepted or
    rejected, created or accepted -> expired or cancelled and accepted -> used, and a final
    status never changes.  Requests on one voucher that overlap are not covered
    ([overlapping_accept_undoes_reject]). *)
Theorem voucher_lifecycle {G} sql_sum (ingest_edge : VoucherRow -> string -> G -> result Exc G)
    (os : list voucher_op) (w : VWorld (G := G)) k v :
  keyed (vouchers w) -> vouchers w !! k = Some v ->
  exists v', vouchers (fold_left (fun w o => exec (run_voucher_op sql_sum ingest_edge o) w) os w) !! k
      = Some v' /\
    rtc status_step (status v) (status v') /\
    (final_status (status v) -> status v' = status v).
Proof.
  intros Hk Hv. destruct (voucher_ops_moved sql_sum ingest_edge os w Hk k v Hv) as (v' & Hv' & Hr).
  exists v'. split_and!; [done|done|]. intros Hf. by apply final_stable.
Qed.

(** Accepting an expired voucher marks it expired and raises, so the request's rollback
    undoes the mark: the stored voucher is still "created". *)
Theorem expired_mark_rolled_back {G} sql_sum (ingest_edge : VoucherRow -> string -> G -> result Exc G)
    now db_ok v seller actor profile (w : VWorld (G := G)) :
  status v = CREATED -> expiry_time v <= now ->
  outcome (v_request (accept_voucher_row sql_sum ingest_edge now db_ok v seller actor profile)) w
    = Err (HTTPException 409 "voucher expired") /\
  vouchers (exec (v_request (accept_voucher_row sql_sum ingest_edge now db_ok v seller actor profile)) w)
    = vouchers w.
Proof.
  intros Hs He. unfold outcome, exec, v_request, accept_voucher_row.
  rewrite Hs, decide_False by (intros Hx; by apply Hx).
  by rewrite (proj2 (Z.leb_le _ _) He).
Qed.

Lemma not_excluded x l : excluded x l = false <-> l = [] \/ x ∈ l.
Proof.
  unfold excluded. by rewrite andb_false_iff, !negb_false_iff, bool_decide_eq_true, mem_true.
Qed.

(** Auto-acceptance is exactly the seller's policy: a voucher is accepted if and only
    if the seller has a policy with pre-authorization and auto-accept on and
    responsibility acknowledged, the voucher is not expired, its task type, precision
    and buyer are within the policy, both its amount and its bill credit are within
    the single limit (plus 1e-9), and no responsibility boundary conflicts. *)
Theorem seller_preauth_iff now policies seller v :
  pe_accept (evaluate_seller_preauth now policies seller v) = true <->
  exists p, policies !! seller = Some p /\
    preauth_enabled p = true /\ auto_accept_incoming p = true /\
    responsibility_acknowledged p = true /\ now < expiry_time v /\
    (allowed_task_types p = [] \/ task_type v ∈ allowed_task_types p) /\
    precision_in_range (task_precision v) (precision_min p) (precision_max p) = true /\
    (amount v >? single_limit p + f1em9)%float = false /\
    (bill_credit_amount v >? single_limit p + f1em9)%float = false /\
    (trusted_counterparty_ids p = [] \/ buyer_identity_id v ∈ trusted_counterparty_ids p) /\
    boundary_conflict p (policies !! buyer_identity_id v) v = false.
Proof.
  unfold evaluate_seller_preauth. destruct (policies !! seller) as [p|] eqn:Hp.
  2:{ split; [done|]. by intros (p & ? & _). }
  transitivity (preauth_enabled p && auto_accept_incoming p && responsibility_acknowledged p &&
    negb (expiry_time v <=? now) && negb (excluded (task_type v) (allowed_task_types p)) &&
    precision_in_range (task_precision v) (precision_min p) (precision_max p) &&
    negb (amount v >? single_limit p + f1em9)%float &&
    negb (bill_credit_amount v >? single_limit p + f1em9)%float &&
    negb (excluded (buyer_identity_id v) (trusted_counterparty_ids p)) &&
    negb (boundary_conflict p (policies !! buyer_identity_id v) v) = true).
  - destruct (preauth_enabled p), (auto_accept_incoming p); cbn [negb orb andb]; try done.
    destruct (responsibility_acknowledged p); [|done].
    destruct (expiry_time v <=? now); [done|]. destruct (excluded (task_type v) _); [done|].
    destruct (precision_in_range _ _ _); [|done]. destruct (fltb _ (amount v)); [done|].
    destruct (fltb _ (bill_credit_amount v)); [done|]. destruct (excluded (buyer_identity_id v) _); [done|].
    by destruct (boundary_conflict _ _ _).
  - rewrite !andb_true_iff, !negb_true_iff, !not_excluded, Z.leb_gt.
    split; [intros; exists p; tauto|]. intros (p' & [= <-] & ?). tauto.
Qed.

(** ** A concrete voucher *)

Definition demo_voucher (st : string) : VoucherRow :=
  {| voucher_id := "v1"; buyer_identity_id := "buyer"; seller_identity_id := "seller";
     amount := f50; bill_credit_amount := f50; task_type := "t"; expiry_time := 100;
     status := st; seller_profile_id := None; accepted_at := None; task_precision := None;
     payment_mode := "manual"; rejection_reason := None; rejected_at := None;
     rejected_by_identity_id := None; v_profile_id := None; v_progress_rule_spec := None |}.

Definition demo_vworld : VWorld (G := unit) :=
  {| ledger := demo_world (demo_row f100 fzero fzero f100 f100);
     vouchers := {[ "v1"%string := demo_voucher CREATED ]}; profile_owner := ∅;
     v_events := []; outbox := []; graph := tt |}.

Definition no_graph (_ : VoucherRow) (_ : string) (g : unit) : result Exc unit := Ok g.

Lemma voucher_accept_spec_witness :
  exists v' w', accept_voucher_row sum_left no_graph 7 (Ok tt) (demo_voucher CREATED) "seller" "console" None
      demo_vworld = (Ok v', w') /\ status v' = ACCEPTED.
Proof.
  destruct (accept_voucher_row sum_left no_graph 7 (Ok tt) (demo_voucher CREATED) "seller" "console" None
    demo_vworld) as [[v'|e] w'] eqn:E; [|vm_compute in E; discriminate].
  exists v', w'. split; [reflexivity|].
  apply (voucher_accept_spec sum_left no_graph 7 (Ok tt) (demo_voucher CREATED) "seller" "console" None
    demo_vworld w' v' E).
Defined.

Lemma voucher_lifecycle_witness :
  exists v', vouchers (fold_left (fun w o => exec (run_voucher_op sum_left no_graph o) w)
      [VAccept 7 (Ok tt) "v1" "seller" "console" None; VExpire true 200 10] demo_vworld) !! "v1"%string
      = Some v' /\ rtc status_step CREATED (status v').
Proof.
  destruct (voucher_lifecycle sum_left no_graph
    [VAccept 7 (Ok tt) "v1" "seller" "console" None; VExpire true 200 10] demo_vworld "v1"
    (demo_voucher CREATED)) as (v' & H1 & H2 & _).
  - intros k v Hk. cbn [vouchers demo_vworld] in Hk. apply lookup_singleton_Some in Hk as [<- <-]. reflexivity.
  - reflexivity.
  - exists v'. split; [exact H1|exact H2].
Defined.

(** The sweep returns the reserved credits of an accepted voucher. *)
Example expiry_returns_credits :
  (available_credits <$> (caps (ledger (fold_left (fun w o => exec (run_voucher_op sum_left no_graph o) w)
      [VAccept 7 (Ok tt) "v1" "seller" "console" None; VExpire true 200 10] demo_vworld)) !! "buyer"%string))
  = Some f100.
Proof. vm_compute. reflexivity. Qed.

(** Requests on one voucher that overlap: the row is read without a lock and written back
    unconditionally.  An accept that read the voucher before it was rejected makes it accepted
    and reserves the buyer's credits, and a reject that read it before it was accepted makes it
    rejected while the credits stay reserved. *)
Definition rejected_meanwhile : VWorld (G := unit) := exec (run_voucher_op sum_left no_graph (VReject 6 "v1" "seller" "no")) demo_vworld.
Definition accepted_meanwhile : VWorld (G := unit) :=
  exec (run_voucher_op sum_left no_graph (VAccept 6 (Ok tt) "v1" "seller" "console" None)) demo_vworld.
Lemma overlapping_accept_undoes_reject :
  (status <$> vouchers rejected_meanwhile !! "v1"%string) = Some REJECTED /\
  (let w := exec (v_request (accept_voucher_row sum_left no_graph 7 (Ok tt) (demo_voucher CREATED) "seller" "console" None)) rejected_meanwhile in
   (status <$> vouchers w !! "v1"%string) = Some ACCEPTED) /\
  (status <$> vouchers accepted_meanwhile !! "v1"%string) = Some ACCEPTED /\
  (let w := exec (v_request (reject_voucher_row 7 (demo_voucher CREATED) "seller" "no")) accepted_meanwhile in
   (status <$> vouchers w !! "v1"%string) = Some REJECTED /\
   (reserved_credits <$> caps (ledger w) !! "buyer"%string) = Some f50).
Proof. cbv zeta. split_and!; vm_compute; reflexivity. Qed.
