(* ===== verification/ProfileCapacity.v ===== *)
(** * Quotas of role profiles (services/profile_capacity.py)

    Each role profile of an identity has a row of [profile_capacity]: the second
    client of the atomic ledger, here as an instance of [LedgerModel].  Spending,
    releasing and allocating read the row, decide in Python and then issue one
    guarded UPDATE; between the two, other transactions may commit.  The model
    makes that explicit: [others] is what they do to the table in between, and the
    theorems hold for every [others].

    The identity's role profiles, its capacity row and its wallet commitments are
    only read; they are parameters. *)
From S2P Require Import Prelude PyFloat FloatFacts RuntimeSafety AtomicLedger Capacity.

Open Scope Z_scope.

(** ** The row *)

Record ProfileRow := {
  pc_profile_id : string;
  owner_identity_id : string;
  pc_allocated : float;
  pc_available : float;
  pc_in_progress : float;
  pc_pending_settlement : float;
  pc_disputed : float;
  pc_released : float;
  pc_updated_at : Z;
}.

Definition profile_col (f : BalanceField) (r : ProfileRow) : float :=
  match f with
  | Allocated_credits => pc_allocated r
  | Available_credits => pc_available r
  | In_progress_credits => pc_in_progress r
  | Pending_settlement_credits => pc_pending_settlement r
  | Disputed_credits => pc_disputed r
  | Released_credits => pc_released r
  | _ => fzero
  end.

Definition profile_set (f : BalanceField) (x : float) (r : ProfileRow) : ProfileRow :=
  let pick g := if decide (f = g) then x else profile_col g r in
  {| pc_profile_id := pc_profile_id r; owner_identity_id := owner_identity_id r;
     pc_allocated := pick Allocated_credits; pc_available := pick Available_credits;
     pc_in_progress := pick In_progress_credits;
     pc_pending_settlement := pick Pending_settlement_credits;
     pc_disputed := pick Disputed_credits; pc_released := pick Released_credits;
     pc_updated_at := pc_updated_at r |}.

Definition profile_touch (now : Z) (r : ProfileRow) : ProfileRow :=
  {| pc_profile_id := pc_profile_id r; owner_identity_id := owner_identity_id r;
     pc_allocated := pc_allocated r; pc_available := pc_available r;
     pc_in_progress := pc_in_progress r; pc_pending_settlement := pc_pending_settlement r;
     pc_disputed := pc_disputed r; pc_released := pc_released r; pc_updated_at := now |}.

Definition profile_columns : list BalanceField :=
  [Allocated_credits; Available_credits; In_progress_credits; Pending_settlement_credits;
   Disputed_credits; Released_credits].

#[export] Instance profile_ledger_model : LedgerModel ProfileRow := {|
  has_col f := mem f profile_columns;
  col := profile_col;
  set_col := profile_set;
  touch := profile_touch
|}.

#[export] Instance profile_ledger_laws : LedgerLaws ProfileRow.
Proof.
  split.
  - by intros [] x r; intros Hc.
  - intros f g x r Hne. destruct g; cbn; rewrite ?decide_False by done; done.
  - by intros [] t r.
Qed.

Abbreviation ptable := (gmap string ProfileRow).
Abbreviation PM := (M ptable Exc).

(** ** The ceiling of an identity *)

(** The state of a commitment that may be allocated: [allowance_escrow.IDLE]. *)
Definition IDLE : string := "open".

Record Commit := { amount_usdc : option float; commit_state : string }.

Record CeilingBreakdown := {
  ledger_locked_usdc : float;
  committed_usdc : float;
  ceiling_usdc : float;
}.

Section Ceiling.
(** Python's [sum] of floats (compensated or not, by version). *)
Context (py_sum : list float -> float).

Definition ceiling_breakdown (cap : option CapacityRow) (commits : list Commit) : CeilingBreakdown :=
  let ledger_locked := match cap with Some r => fl (locked_usdc r) | None => fzero end in
  let idle := filter (fun c => commit_state c = IDLE) commits in
  let committed := py_round_to 6 (py_sum ((fun c => or_zero (amount_usdc c)) <$> idle)) in
  {| ledger_locked_usdc := py_round_to 6 ledger_locked;
     committed_usdc := committed;
     ceiling_usdc := py_round_to 6 (py_max ledger_locked committed) |}.

Definition master_ceiling_usdc (cap : option CapacityRow) (commits : list Commit) : float :=
  ceiling_usdc (ceiling_breakdown cap commits).
End Ceiling.

(** ** Spending and releasing *)

Definition in_use (r : ProfileRow) : float :=
  (fl (pc_in_progress r) + fl (pc_pending_settlement r) + fl (pc_disputed r))%float.

Definition interfere (others : ptable -> ptable) : PM unit := m_put others.

Definition get_profile_capacity (profile_id : string) : PM (option ProfileRow) :=
  m_get (fun t => t !! profile_id).

Definition spend_profile_credits (others : ptable -> ptable) (now : Z) (profile_id : string)
    (amount : float) : PM (option ProfileRow) :=
  do! row := get_profile_capacity profile_id in
  match row with
  | None => m_raise (HTTPException 409 ("profile " +:+ profile_id +:+ " has no allocation"))
  | Some row =>
      if (amount >? fl (pc_available row) + f1em9)%float
      then m_raise (HTTPException 409 "insufficient profile credits")
      else
        seq! interfere others in
        seq! conflict_409 (apply_delta_or_raise now profile_id
               [("available_credits"%string, fopp amount); ("in_progress_credits"%string, amount)]
               [fun r => (pc_available r + f1em9 >=? amount)%float] id
               "insufficient profile credits") in
        reload profile_id
  end.

(** The settled and refunded parts and their total, clamped to what is in progress;
    [None] when nothing is in progress. *)
Definition release_parts (in_progress settled refunded : float) : option (float * float * float) :=
  let total := (settled + refunded)%float in
  if (total >? in_progress + f1em9)%float then
    if (in_progress <=? fzero)%float then None
    else
      let scale := if (settled + refunded >? fzero)%float
                   then (in_progress / (settled + refunded))%float else fzero in
      Some (in_progress, py_round_to 8 (settled * scale)%float, py_round_to 8 (refunded * scale)%float)
  else Some (total, settled, refunded).

Definition release_deltas (total settled refunded : float) : list (string * float) :=
  [("in_progress_credits"%string, fopp total); ("released_credits"%string, settled)] ++
  (if (refunded >? fzero)%float then [("available_credits"%string, refunded)] else []).

Definition release_profile_credits (others : ptable -> ptable) (now : Z) (profile_id : string)
    (settled_amount refunded_amount : float) : PM (option ProfileRow) :=
  do! row := get_profile_capacity profile_id in
  match row with
  | None => m_ret None
  | Some row =>
      let settled := py_max fzero settled_amount in
      let refunded := py_max fzero refunded_amount in
      let in_progress := fl (pc_in_progress row) in
      match release_parts in_progress settled refunded with
      | None => m_ret (Some row)
      | Some (total, settled, refunded) =>
          seq! interfere others in
          seq! conflict_409 (apply_delta_or_raise now profile_id
                 (release_deltas total settled refunded)
                 [fun r => (pc_in_progress r =? in_progress)%float] id
                 "profile credits changed concurrently; retry release") in
          reload profile_id
      end
  end.

(** ** Allocating *)

Section Allocate.
Context (py_sum : list float -> float).
(** The owner of each role profile, the capacity row and the commitments. *)
Context (role_profiles : gmap string string) (capacity : gmap string CapacityRow)
        (commitments : gmap string (list Commit)).

Fixpoint allocation_total (allocations : list (string * float)) (total : float) :
    result Exc float :=
  match allocations with
  | [] => Ok total
  | (profile_id, amount) :: rest =>
      if (amount <? fzero)%float
      then Err (HTTPException 400 ("negative allocation for " +:+ profile_id))
      else allocation_total rest (total + amount)%float
  end.

Definition fresh_profile_row (identity_id profile_id : string) (now : Z) : ProfileRow :=
  {| pc_profile_id := profile_id; owner_identity_id := identity_id; pc_allocated := fzero;
     pc_available := fzero; pc_in_progress := fzero; pc_pending_settlement := fzero;
     pc_disputed := fzero; pc_released := fzero; pc_updated_at := now |}.

(** The five snapshot guards. *)
Definition snapshot_guards (row : ProfileRow) : list (ProfileRow -> bool) :=
  (fun f r => (col f r =? fl (col f row))%float) <$>
  [Allocated_credits; Available_credits; In_progress_credits; Pending_settlement_credits;
   Disputed_credits].

(** One round of the loop. *)
Definition allocate_one (others : ptable -> ptable) (now : Z) (identity_id profile_id : string)
    (amount : float) : PM ProfileRow :=
  if decide (role_profiles !! profile_id <> Some identity_id)
  then m_raise (HTTPException 404 ("profile " +:+ profile_id +:+ " not found for this identity"))
  else
    seq! ensure_row profile_id (fresh_profile_row identity_id profile_id now) in
    do! row := reload profile_id in
    match row with
    | None => m_raise (AttributeError "in_progress_credits")
    | Some row =>
        let used := in_use row in
        if (amount + f1em9 <? used)%float
        then m_raise (HTTPException 409 ("cannot reduce " +:+ profile_id +:+ " below in-use credits"))
        else
          let cur_allocated := fl (pc_allocated row) in
          let cur_available := fl (pc_available row) in
          seq! interfere others in
          seq! conflict_409 (apply_delta_or_raise now profile_id
                 [("allocated_credits"%string, (amount - cur_allocated)%float);
                  ("available_credits"%string, ((amount - used) - cur_available)%float)]
                 (snapshot_guards row) id
                 "profile credits changed concurrently; retry allocation") in
          do! row := reload profile_id in
          match row with
          | None => m_raise (AttributeError "profile_id")
          | Some row => m_ret row
          end
    end.

Fixpoint allocate_all (others : string -> ptable -> ptable) (now : Z) (identity_id : string)
    (allocations : list (string * float)) : PM (list ProfileRow) :=
  match allocations with
  | [] => m_ret []
  | (profile_id, amount) :: rest =>
      do! row := allocate_one (others profile_id) now identity_id profile_id amount in
      do! rows := allocate_all others now identity_id rest in
      m_ret (row :: rows)
  end.

Definition allocate (others : string -> ptable -> ptable) (now : Z) (identity_id : string)
    (allocations : list (string * float)) : PM (list ProfileRow) :=
  do! total := lift (allocation_total allocations fzero) in
  let ceiling := master_ceiling_usdc py_sum (capacity !! identity_id)
                   (default [] (commitments !! identity_id)) in
  if (ceiling <=? fzero)%float then m_raise (HTTPException 409 "no locked USDC")
  else if (total >? ceiling + f1em9)%float
  then m_raise (HTTPException 409 "total allocation exceeds locked")
  else allocate_all others now identity_id allocations.
End Allocate.

(** ** Lemmas *)

(** A guarded update inside [try/except LedgerConflict]. *)
Lemma conflict_run now k deltas guards msg cols (t : ptable) :
  validate_fields deltas = Ok tt -> resolve_columns (R := ProfileRow) deltas = Ok cols ->
  conflict_409 (apply_delta_or_raise now k deltas guards id msg) t =
  match t !! k with
  | Some old =>
      if forallb (fun guard => guard old) guards
      then (Ok tt, <[k := profile_touch now (set_values cols old)]> t)
      else (Err (HTTPException 409 msg), t)
  | None => (Err (HTTPException 409 msg), t)
  end.
Proof.
  intros Hv Hr. unfold conflict_409, m_catch.
  rewrite (apply_delta_or_raise_eq _ _ _ _ _ _ cols) by done.
  destruct (t !! k); [|done]. by destruct (forallb _ _).
Qed.

(** Whatever the deltas are, the update changes nothing unless it succeeds. *)
Lemma conflict_cases now k deltas guards msg (t : ptable) :
  match conflict_409 (apply_delta_or_raise now k deltas guards id msg) t with
  | (Ok _, t') =>
      exists cols old, validate_fields deltas = Ok tt /\
        resolve_columns (R := ProfileRow) deltas = Ok cols /\ t !! k = Some old /\
        forallb (fun guard => guard old) guards = true /\
        t' = <[k := profile_touch now (set_values cols old)]> t
  | (Err _, t') => t' = t
  end.
Proof.
  unfold conflict_409, m_catch, apply_delta_or_raise, m_bind. rewrite apply_delta_eq.
  destruct (validate_fields deltas) as [[]|e]; [|by destruct e].
  destruct (resolve_columns deltas) as [cols|e]; [|by destruct e].
  destruct (t !! k) as [old|] eqn:Hk; [|done]. destruct (forallb _ _) eqn:Hg; [|done].
  simpl. exists cols, old. done.
Qed.

Lemma not_nan_fopp x : is_nan x = false -> is_nan (fopp x) = false.
Proof. by destruct x. Qed.

(** Fields a spend does not name. *)
Definition untouched (fs : list BalanceField) (old new : ProfileRow) : Prop :=
  (forall f, f ∉ fs -> col f new = col f old) /\
  pc_profile_id new = pc_profile_id old /\ owner_identity_id new = owner_identity_id old.

Lemma set_values_identity cols (r : ProfileRow) :
  pc_profile_id (set_values cols r) = pc_profile_id r /\
  owner_identity_id (set_values cols r) = owner_identity_id r.
Proof.
  enough (H : forall old r, pc_profile_id (set_from old cols r) = pc_profile_id r /\
                owner_identity_id (set_from old cols r) = owner_identity_id r) by apply H.
  clear r. intros old. induction cols as [|c cols IH]; intros r; [done|].
  destruct (IH (profile_set c.1 (profile_col c.1 old + c.2)%float r)) as [H1 H2].
  split; [exact H1|exact H2].
Qed.

Lemma profile_col_touch f now (r : ProfileRow) : col f (profile_touch now r) = col f r.
Proof. by destruct f. Qed.

(** The row after an update with distinct columns. *)
Lemma updated_row now cols (old : ProfileRow) :
  NoDup cols.*1 -> Forall (fun fd => has_col (R := ProfileRow) (fst fd) = true) cols ->
  let new := profile_touch now (set_values cols old) in
  (forall f d, (f, d) ∈ cols -> col f new = (col f old + d)%float) /\ untouched cols.*1 old new.
Proof.
  intros Hnd Hc new. rewrite Forall_forall in Hc. unfold new. split.
  - intros f d Hin. etransitivity; [apply profile_col_touch|].
    apply set_from_eq; [done|done|]. apply (Hc _ Hin).
  - split; [|apply set_values_identity].
    intros f Hf. etransitivity; [apply profile_col_touch|]. by apply set_from_ne.
Qed.

(** ** Theorems *)

(** Spending a profile's credits, whatever other transactions commit between the
    read and the update: it succeeds exactly when the row exists and covers the
    amount (within 1e-9) both when read and when updated; then exactly that amount
    moves from available to in progress, no other column and no other row changes.
    Otherwise it is a 409 and this request changed nothing. *)
Theorem profile_spend_spec others now k amount (t : ptable) :
  is_nan amount = false ->
  let covered (r : option ProfileRow) := match r with
    | Some r => negb (fltb (fl (pc_available r) + f1em9)%float amount) | None => false end in
  let stored (r : option ProfileRow) := match r with
    | Some r => fleb amount (pc_available r + f1em9)%float | None => false end in
  match spend_profile_credits others now k amount t with
  | (Ok res, t') =>
      covered (t !! k) && stored (others t !! k) = true /\
      exists old new, others t !! k = Some old /\ res = Some new /\ t' = <[k := new]> (others t) /\
        pc_available new = (pc_available old + fopp amount)%float /\
        pc_in_progress new = (pc_in_progress old + amount)%float /\
        untouched [Available_credits; In_progress_credits] old new
  | (Err e, t') =>
      (exists msg, e = HTTPException 409 msg) /\
      ((covered (t !! k) = false /\ t' = t) \/
       (covered (t !! k) = true /\ stored (others t !! k) = false /\ t' = others t))
  end.
Proof.
  intros Hn covered stored. unfold spend_profile_credits, get_profile_capacity, m_bind at 1, m_get.
  destruct (t !! k) as [row|]; simpl; [|by eauto].
  destruct (fltb (fl (pc_available row) + f1em9)%float amount) eqn:Hc; simpl; [by eauto|].
  unfold interfere, m_bind at 1, m_put. unfold m_bind.
  set (deltas := [("available_credits"%string, fopp amount); ("in_progress_credits"%string, amount)]).
  assert (Hv : validate_fields deltas = Ok tt).
  { apply validate_fields_ok. repeat constructor; simpl; auto using not_nan_fopp; done. }
  rewrite (conflict_run _ _ _ _ _ [(Available_credits, fopp amount); (In_progress_credits, amount)])
    by done.
  destruct (others t !! k) as [old|] eqn:Ho; [|simpl; split; [by eexists|by right]].
  simpl forallb.
  destruct (fleb amount (pc_available old + f1em9)%float) eqn:Hs; simpl;
    [|split; [by eexists|by right]].
  split; [done|]. set (cols := [(Available_credits, fopp amount); (In_progress_credits, amount)]).
  destruct (updated_row now cols old) as [Hset Hun].
  { unfold cols. simpl. repeat (apply NoDup_cons; split; [set_solver|]). apply NoDup_nil_2. }
  { by repeat constructor. }
  exists old. eexists. split_and!; [done|by rewrite lookup_insert_eq|done| | |exact Hun].
  - apply (Hset Available_credits). by left.
  - apply (Hset In_progress_credits). right. by left.
Qed.

Lemma release_parts_bound ip s r total s' r' :
  release_parts ip s r = Some (total, s', r') ->
  total = ip \/ (fltb (ip + f1em9)%float total = false /\ total = (s + r)%float /\ s' = s /\ r' = r).
Proof.
  unfold release_parts. destruct (fltb (ip + f1em9)%float (s + r)%float) eqn:Ht.
  - destruct (ip <=? fzero)%float; [done|]. intros [= <- _ _]. by left.
  - intros [= <- <- <-]. by right.
Qed.

(** Settling a profile's in-progress credits, whatever other transactions commit
    between the read and the update: without a row or with nothing in progress it
    does nothing; otherwise it succeeds only if the in-progress amount is still the
    one that was read, so that two settlements cannot both release it; it takes at
    most what is in progress (within 1e-9), books the settled part as released,
    gives the refunded part back to available and changes nothing else.  A failure
    changes nothing. *)
Theorem profile_release_spec others now k settled refunded (t : ptable) :
  match release_profile_credits others now k settled refunded t with
  | (Ok res, t') =>
      (t' = t /\ res = t !! k /\
       forall row, t !! k = Some row -> fleb (fl (pc_in_progress row)) fzero = true) \/
      (exists row old new total s r,
         t !! k = Some row /\ others t !! k = Some old /\
         feqb (pc_in_progress old) (fl (pc_in_progress row)) = true /\
         (total = fl (pc_in_progress row) \/
          fltb (fl (pc_in_progress row) + f1em9)%float total = false /\
          s = py_max fzero settled /\ r = py_max fzero refunded /\ total = (s + r)%float) /\
         res = Some new /\ t' = <[k := new]> (others t) /\
         pc_in_progress new = (pc_in_progress old + fopp total)%float /\
         pc_released new = (pc_released old + s)%float /\
         pc_available new = (if fltb fzero r then (pc_available old + r)%float
                             else pc_available old) /\
         untouched [In_progress_credits; Released_credits; Available_credits] old new)
  | (Err _, t') => t' = others t
  end.
Proof.
  unfold release_profile_credits, get_profile_capacity, m_bind at 1, m_get.
  destruct (t !! k) as [row|] eqn:Hk; [|left; by split_and!].
  destruct (release_parts _ _ _) as [[[total s] r]|] eqn:Hp; swap 1 2.
  { left. split_and!; [done|done|]. intros ? [= <-]. unfold release_parts in Hp.
    destruct (fltb _ _); [|done]. by destruct (fl (pc_in_progress row) <=? fzero)%float. }
  unfold interfere, m_bind at 1, m_put. unfold m_bind.
  pose proof (conflict_cases now k (release_deltas total s r)
    [fun r => (pc_in_progress r =? fl (pc_in_progress row))%float]
    "profile credits changed concurrently; retry release" (others t)) as Hc.
  destruct (conflict_409 _ _) as [[[]|e] t']; [|done].
  destruct Hc as (cols & old & _ & Hr & Ho & Hg & ->). right.
  simpl in Hg. rewrite andb_true_r in Hg.
  assert (Hcols : cols = [(In_progress_credits, fopp total); (Released_credits, s)] ++
                    (if fltb fzero r then [(Available_credits, r)] else [])).
  { revert Hr. unfold release_deltas. by destruct (fltb fzero r); intros [= <-]. }
  assert (Hnd : NoDup cols.*1).
  { rewrite Hcols. by destruct (fltb fzero r); apply (bool_decide_unpack _). }
  destruct (updated_row now cols old Hnd) as [Hset Hun].
  { rewrite Hcols. by destruct (fltb fzero r); repeat constructor. }
  exists row, old. eexists. exists total, s, r.
  split_and!; [done|done|done| |by rewrite lookup_insert_eq|done| | | |].
  - apply release_parts_bound in Hp. naive_solver.
  - apply (Hset In_progress_credits). rewrite Hcols. by left.
  - apply (Hset Released_credits). rewrite Hcols. right. by left.
  - destruct (fltb fzero r) eqn:Hr0.
    + apply (Hset Available_credits). rewrite Hcols. right. right. by left.
    + apply (proj1 Hun Available_credits). rewrite Hcols. set_solver.
  - split; [|apply Hun]. intros f Hf. apply (proj1 Hun). rewrite Hcols.
    destruct (fltb fzero r); set_solver.
Qed.

Section AllocateSpec.
Context (py_sum : list float -> float).
Context (role_profiles : gmap string string) (capacity : gmap string CapacityRow)
        (commitments : gmap string (list Commit)).

(** What one allocation did to a row. *)
Definition allocated_row (amount : float) (old new : ProfileRow) : Prop :=
  fltb (amount + f1em9)%float (in_use old) = false /\
  pc_allocated new = (pc_allocated old + (amount - fl (pc_allocated old)))%float /\
  pc_available new = (pc_available old + (amount - in_use old - fl (pc_available old)))%float /\
  untouched [Allocated_credits; Available_credits] old new.

Lemma allocate_one_ok now i k a (t : ptable) r t' :
  allocate_one role_profiles id now i k a t = (Ok r, t') ->
  role_profiles !! k = Some i /\ t' = <[k := r]> t /\
  allocated_row a (default (fresh_profile_row i k now) (t !! k)) r.
Proof.
  unfold allocate_one. case_decide as Hp; [done|].
  unfold ensure_row, reload, m_bind at 1 2 3, m_get, m_put.
  set (row := default (fresh_profile_row i k now) (t !! k)).
  set (t0 := match t !! k with Some _ => t | None => <[k := fresh_profile_row i k now]> t end).
  assert (Hrow : t0 !! k = Some row).
  { unfold t0, row. destruct (t !! k) eqn:E; [done|]. apply lookup_insert_eq. }
  assert (Hins : forall x, <[k := x]> t0 = <[k := x]> t).
  { intros x. unfold t0. destruct (t !! k); [done|]. apply insert_insert_eq. }
  replace (match t !! k with
           | Some _ => m_ret tt
           | None => fun s => (Ok tt, <[k := fresh_profile_row i k now]> s) end t)
    with (@Ok Exc unit tt, t0) by (unfold t0; by destruct (t !! k)).
  rewrite Hrow. destruct (fltb _ (in_use row)) eqn:Hu; [done|].
  unfold interfere, m_bind at 1, m_put. unfold m_bind. change (id t0) with t0.
  match goal with |- context [conflict_409 (apply_delta_or_raise ?n ?q ?ds ?gs id ?m)] =>
    pose proof (conflict_cases n q ds gs m t0) as Hc end.
  destruct (conflict_409 _ t0) as [[[]|e] t2]; [|done].
  destruct Hc as (cols & old & _ & Hr & Ho & _ & ->). rewrite Hrow in Ho. injection Ho as <-.
  cbn [fst snd]. rewrite lookup_insert_eq. intros [= <- <-].
  injection Hr as <-.
  destruct (updated_row now [(Allocated_credits, (a - fl (pc_allocated row))%float);
    (Available_credits, (a - in_use row - fl (pc_available row))%float)] row) as [Hset Hun].
  { by apply (bool_decide_unpack _). }
  { by repeat constructor. }
  split_and!; [done|apply Hins|]. split_and!; [done| | |exact Hun].
  - apply (Hset Allocated_credits). by left.
  - apply (Hset Available_credits). right. by left.
Qed.

Lemma allocate_all_ok now i allocations (t : ptable) rows t' :
  NoDup allocations.*1 ->
  allocate_all role_profiles (fun _ => id) now i allocations t = (Ok rows, t') ->
  (forall k a, (k, a) ∈ allocations -> role_profiles !! k = Some i /\
     exists new, t' !! k = Some new /\
       allocated_row a (default (fresh_profile_row i k now) (t !! k)) new) /\
  (forall k, k ∉ allocations.*1 -> t' !! k = t !! k).
Proof.
  revert t rows t'. induction allocations as [|[k a] rest IH]; intros t rows t' Hnd; simpl.
  { intros [= _ <-]. split; [|done]. intros k a ?%not_elem_of_nil. done. }
  apply NoDup_cons in Hnd as [Hk Hnd].
  intros (r & t1 & H1 & (rs & t2 & H2 & H3)%m_bind_ok)%m_bind_ok.
  injection H3 as <- <-. apply allocate_one_ok in H1 as (Hp & -> & Hr).
  destruct (IH _ _ _ Hnd H2) as [IHin IHout]. split.
  - intros k' a' [[= -> ->]|Hin]%elem_of_cons.
    + split; [done|]. exists r. split; [|done]. by rewrite IHout, lookup_insert_eq.
    + destruct (IHin _ _ Hin) as [Hp' (new & Hn & Ha)]. split; [done|]. exists new.
      split; [done|]. rewrite lookup_insert_ne in Ha; [done|].
      intros ->. apply Hk, list_elem_of_fmap. by exists (k', a').
  - intros k' [Hne Hk']%not_elem_of_cons. rewrite IHout by done. by rewrite lookup_insert_ne.
Qed.

(** An allocation request that succeeds stayed within the identity's ceiling with
    the total of the amounts it names, named only profiles of the identity, lowered
    no profile below what it has in use (within 1e-9), moved each named row's
    allocation and available credits by the difference to the requested amount, and
    changed no other row. *)
Theorem profile_allocate_spec now i allocations (t : ptable) rows t' :
  NoDup allocations.*1 ->
  allocate py_sum role_profiles capacity commitments (fun _ => id) now i allocations t
    = (Ok rows, t') ->
  (exists total, allocation_total allocations fzero = Ok total /\
     fltb (master_ceiling_usdc py_sum (capacity !! i) (default [] (commitments !! i)) + f1em9)%float
       total = false) /\
  (forall k a, (k, a) ∈ allocations -> role_profiles !! k = Some i /\
     exists new, t' !! k = Some new /\
       allocated_row a (default (fresh_profile_row i k now) (t !! k)) new) /\
  (forall k, k ∉ allocations.*1 -> t' !! k = t !! k).
Proof.
  intros Hnd. unfold allocate.
  intros (total & t1 & Ht & H)%m_bind_ok. unfold lift in Ht. injection Ht as Ht <-.
  destruct (_ <=? fzero)%float; [done|]. destruct (fltb _ total) eqn:Hc; [done|].
  split; [by exists total|]. by eapply allocate_all_ok.
Qed.
End AllocateSpec.

(** ** The ceiling does not bound the sum of the quotas *)

Definition demo_profiles : gmap string string :=
  {[ "personal"%string := "alice"%string; "shop"%string := "alice"%string ]}.
Definition demo_capacity : gmap string CapacityRow :=
  {[ "alice"%string := capacity_set Total_locked_usdc f100
                         (demo_row fzero fzero fzero fzero fzero) ]}.

Definition demo_allocate (allocations : list (string * float)) : PM (list ProfileRow) :=
  allocate sum_left demo_profiles demo_capacity ∅ (fun _ => id) 1 "alice" allocations.

(** With 100 USDC locked, allocating 100 to one profile and then 100 to another
    both succeed, although the quotas of an identity are documented never to exceed
    the ceiling together: each request checks only the amounts it names. *)
Theorem allocations_exceed_ceiling :
  let t1 := exec (demo_allocate [("personal"%string, f100)]) ∅ in
  let t2 := exec (demo_allocate [("shop"%string, f100)]) t1 in
  is_ok (outcome (demo_allocate [("personal"%string, f100)]) ∅) = true /\
  is_ok (outcome (demo_allocate [("shop"%string, f100)]) t1) = true /\
  is_ok (outcome (demo_allocate [("personal"%string, f100); ("shop"%string, f100)]) ∅) = false /\
  pc_available <$> t2 !! "personal"%string = Some f100 /\
  pc_available <$> t2 !! "shop"%string = Some f100 /\
  master_ceiling_usdc sum_left (demo_capacity !! "alice"%string) [] = f100.
Proof. vm_compute. split_and!; reflexivity. Qed.

Definition demo_table : ptable := exec (demo_allocate [("personal"%string, f100)]) ∅.

Lemma profile_spend_spec_witness :
  exists new, fst (spend_profile_credits id 2 "personal" f50 demo_table) = Ok (Some new) /\
    pc_available new = f50.
Proof.
  pose proof (profile_spend_spec id 2 "personal" f50 demo_table ltac:(reflexivity)) as H.
  destruct (spend_profile_credits id 2 "personal" f50 demo_table) as [[res|e] t'] eqn:E.
  - destruct H as (_ & old & new & Ho & -> & _ & Ha & _). exists new. split; [reflexivity|].
    rewrite Ha. vm_compute in Ho. injection Ho as <-. vm_compute. reflexivity.
  - vm_compute in E. discriminate.
Defined.

Lemma profile_allocate_spec_witness :
  exists new, demo_table !! "personal"%string = Some new /\
    allocated_row f100 (fresh_profile_row "alice" "personal" 1) new.
Proof.
  destruct (profile_allocate_spec sum_left demo_profiles demo_capacity ∅ 1 "alice"
              [("personal"%string, f100)] ∅
              (match outcome (demo_allocate [("personal"%string, f100)]) ∅ with
               | Ok rows => rows | Err _ => [] end) demo_table) as (_ & H & _).
  - by apply (bool_decide_unpack _).
  - vm_compute. reflexivity.
  - destruct (H "personal"%string f100) as [_ Hn]; [by left|exact Hn].
Defined.
