(* ===== verification/SettlementEngine.v ===== *)
(** * Settlement: the task lifecycle and its store

    [core/settlement/engine.py] (status canonicalisation, transition table),
    [TaskStatus] and [SettlementState] of [core/schemas.py], and
    [db/stores/settlement_store.py], the store that guards what may be persisted.

    The [settlements] table is a finite map from primary key to row, with the
    constraints the store relies on (unique [task_id], foreign key to
    [task_contracts]) checked when the session flushes.  Datetimes are integers
    (microseconds).  Column lengths are not modelled. *)
From S2P Require Import Prelude PyFloat FloatFacts PyJson.

(** ** Statuses *)

Inductive TaskStatus :=
| DRAFT
| PENDING
| ACCEPTED
| IN_PROGRESS
| PROGRESS_SUBMITTED
| PROGRESS_CONFIRMED
| DELIVERED
| DISPUTED
| ARBITRATED
| SETTLED
| REFUNDED
| CANCELLED
| CREATED
| LOCKED
| RUNNING
| SUBMITTED
| BUYER_REGRET
| VERIFYING
| VERIFIED
| RELEASED
| FAILED
| ARBITRATION
| BUYER_WINS
| SELLER_WINS
| PARTIAL
| AUTHORIZED
| AUTO_CONFIRMED
| PARTIALLY_SETTLED
| FROZEN.

#[export] Instance TaskStatus_eq_dec : EqDecision TaskStatus.
Proof. solve_decision. Defined.

Definition all_TaskStatus : list TaskStatus :=
  [DRAFT; PENDING; ACCEPTED; IN_PROGRESS; PROGRESS_SUBMITTED; PROGRESS_CONFIRMED; DELIVERED; DISPUTED; ARBITRATED; SETTLED; REFUNDED; CANCELLED; CREATED; LOCKED; RUNNING; SUBMITTED; BUYER_REGRET; VERIFYING; VERIFIED; RELEASED; FAILED; ARBITRATION; BUYER_WINS; SELLER_WINS; PARTIAL; AUTHORIZED; AUTO_CONFIRMED; PARTIALLY_SETTLED; FROZEN].

#[export] Program Instance TaskStatus_finite : Finite TaskStatus := {| enum := all_TaskStatus |}.
Next Obligation. apply (bool_decide_unpack _). vm_compute. exact I. Qed.
Next Obligation. intros []; apply (bool_decide_unpack _); vm_compute; exact I. Qed.

(** The enum member's string value. *)
Definition TaskStatus_value (s : TaskStatus) : string :=
  match s with
  | DRAFT => "draft"
  | PENDING => "pending"
  | ACCEPTED => "accepted"
  | IN_PROGRESS => "in_progress"
  | PROGRESS_SUBMITTED => "progress_submitted"
  | PROGRESS_CONFIRMED => "progress_confirmed"
  | DELIVERED => "delivered"
  | DISPUTED => "disputed"
  | ARBITRATED => "arbitrated"
  | SETTLED => "settled"
  | REFUNDED => "refunded"
  | CANCELLED => "cancelled"
  | CREATED => "created"
  | LOCKED => "locked"
  | RUNNING => "running"
  | SUBMITTED => "submitted"
  | BUYER_REGRET => "buyer_regret"
  | VERIFYING => "verifying"
  | VERIFIED => "verified"
  | RELEASED => "released"
  | FAILED => "failed"
  | ARBITRATION => "arbitration"
  | BUYER_WINS => "buyer_wins"
  | SELLER_WINS => "seller_wins"
  | PARTIAL => "partial"
  | AUTHORIZED => "authorized"
  | AUTO_CONFIRMED => "auto_confirmed"
  | PARTIALLY_SETTLED => "partially_settled"
  | FROZEN => "frozen"
  end.

(** [TaskStatus(value)]; [None] is Python's [ValueError]. *)
Definition TaskStatus_of_value (v : string) : option TaskStatus :=
  list_find (fun s => TaskStatus_value s = v) all_TaskStatus ≫= (fun p => Some (snd p)).

(** ** Transition table *)

Definition LEGACY_TO_CANONICAL_STATUS (s : TaskStatus) : option TaskStatus :=
  match s with
  | CREATED => Some DRAFT
  | LOCKED => Some ACCEPTED
  | RUNNING => Some IN_PROGRESS
  | SUBMITTED => Some DELIVERED
  | BUYER_REGRET => Some SETTLED
  | VERIFYING => Some DELIVERED
  | VERIFIED => Some DELIVERED
  | RELEASED => Some SETTLED
  | FAILED => Some CANCELLED
  | ARBITRATION => Some ARBITRATED
  | BUYER_WINS => Some REFUNDED
  | SELLER_WINS => Some SETTLED
  | PARTIAL => Some SETTLED
  | AUTHORIZED => Some AUTHORIZED
  | AUTO_CONFIRMED => Some AUTO_CONFIRMED
  | PARTIALLY_SETTLED => Some PARTIALLY_SETTLED
  | FROZEN => Some FROZEN
  | _ => None
  end.

Definition VALID_TRANSITIONS (s : TaskStatus) : option (list TaskStatus) :=
  match s with
  | DRAFT => Some [PENDING; ACCEPTED; CANCELLED]
  | PENDING => Some [ACCEPTED; CANCELLED]
  | ACCEPTED => Some [IN_PROGRESS; DISPUTED; CANCELLED]
  | IN_PROGRESS => Some [PROGRESS_SUBMITTED; DELIVERED; SETTLED; DISPUTED; CANCELLED]
  | PROGRESS_SUBMITTED => Some [PROGRESS_SUBMITTED; PROGRESS_CONFIRMED; DELIVERED; SETTLED; DISPUTED]
  | PROGRESS_CONFIRMED => Some [DELIVERED; DISPUTED; SETTLED; AUTO_CONFIRMED]
  | DELIVERED => Some [SETTLED; DISPUTED; REFUNDED; FROZEN; AUTO_CONFIRMED]
  | DISPUTED => Some [ARBITRATED; FROZEN]
  | ARBITRATED => Some [SETTLED; REFUNDED; PARTIALLY_SETTLED; FROZEN]
  | SETTLED => Some [FROZEN]
  | PARTIALLY_SETTLED => Some [SETTLED; FROZEN]
  | REFUNDED => Some [FROZEN]
  | CANCELLED => Some [FROZEN]
  | AUTO_CONFIRMED => Some [SETTLED; DISPUTED; FROZEN]
  | FROZEN => Some [DELIVERED; DISPUTED; SETTLED; REFUNDED; CANCELLED]
  | _ => None
  end.

Definition FREEZE_OVERRIDE : TaskStatus := FROZEN.

Definition STATUS_ORDER (s : TaskStatus) : option nat :=
  match s with
  | DRAFT => Some 1%nat
  | PENDING => Some 2%nat
  | ACCEPTED => Some 3%nat
  | IN_PROGRESS => Some 4%nat
  | PROGRESS_SUBMITTED => Some 5%nat
  | PROGRESS_CONFIRMED => Some 6%nat
  | DELIVERED => Some 7%nat
  | DISPUTED => Some 8%nat
  | ARBITRATED => Some 9%nat
  | AUTO_CONFIRMED => Some 10%nat
  | PARTIALLY_SETTLED => Some 11%nat
  | SETTLED => Some 12%nat
  | REFUNDED => Some 12%nat
  | CANCELLED => Some 12%nat
  | FROZEN => Some 13%nat
  | _ => None
  end.
Definition canonical_task_status (s : TaskStatus) : TaskStatus :=
  default s (LEGACY_TO_CANONICAL_STATUS s).

Definition is_terminal (s : TaskStatus) : bool :=
  forallb (fun edge => bool_decide (edge = FREEZE_OVERRIDE))
    (default [] (VALID_TRANSITIONS (canonical_task_status s))).

Definition can_transition (from_status to_status : TaskStatus) : bool :=
  mem (canonical_task_status to_status)
    (default [] (VALID_TRANSITIONS (canonical_task_status from_status))).

(** [STATUS_ORDER[TaskStatus.ACCEPTED]] is 3. *)
Definition is_post_accepted (s : TaskStatus) : bool :=
  (3 <=? default 0 (STATUS_ORDER (canonical_task_status s)))%nat.

(** ** Rows and states *)

(** [x or "internal"]. *)
Definition or_internal (s : string) : string :=
  if decide (s = "")%string then "internal"%string else s.

Record SettlementState := {
  ss_settlement_id : string;
  ss_task_id : string;
  ss_escrow_amount : float;
  ss_currency : string;
  ss_status : TaskStatus;
  ss_client_agent_id : string;
  ss_worker_agent_id : option string;
  ss_profile_id : option string;
  ss_worker_profile_id : option string;
  ss_released_amount : option float;
  ss_refunded_amount : option float;
  ss_dispute_reason : option string;
  ss_rejection_reason_code : option string;
  ss_arbitration_notes : option string;
  ss_created_at : Z;
  ss_updated_at : Z;
  ss_released_at : option Z;
  ss_settlement_mode : string;
  ss_chain_id : option Z;
  ss_contract_address : option string;
  ss_tx_hash : option string;
  ss_evidence_bundle_hash : option string;
  ss_onchain_status : option string;
  ss_onchain_binding_id : option Z;
  ss_onchain_buyer_bill_id : option Z;
  ss_onchain_agent_bill_id : option Z;
  ss_quote_id : option string;
  ss_voucher_id : option string;
  ss_delivery_deadline_at : option Z;
  ss_confirm_window_hours : option Z;
  ss_confirm_deadline_at : option Z;
  ss_progress_rule_spec : option json;
  ss_funding_source : string
}.

(** A row of the [settlements] table ([SettlementModel]); [rejection_reason_code]
    is not a column. *)
Record SettlementRow := {
  sr_settlement_id : string;
  sr_task_id : string;
  sr_escrow_amount : float;
  sr_currency : string;
  sr_status : string;
  sr_client_agent_id : string;
  sr_worker_agent_id : option string;
  sr_profile_id : option string;
  sr_worker_profile_id : option string;
  sr_released_amount : option float;
  sr_refunded_amount : option float;
  sr_dispute_reason : option string;
  sr_arbitration_notes : option string;
  sr_created_at : Z;
  sr_updated_at : Z;
  sr_released_at : option Z;
  sr_settlement_mode : string;
  sr_chain_id : option Z;
  sr_contract_address : option string;
  sr_tx_hash : option string;
  sr_evidence_bundle_hash : option string;
  sr_onchain_status : option string;
  sr_onchain_binding_id : option Z;
  sr_onchain_buyer_bill_id : option Z;
  sr_onchain_agent_bill_id : option Z;
  sr_quote_id : option string;
  sr_voucher_id : option string;
  sr_delivery_deadline_at : option Z;
  sr_confirm_window_hours : option Z;
  sr_confirm_deadline_at : option Z;
  sr_progress_rule_spec : option json;
  sr_funding_source : string
}.

Definition state_set_status (st : TaskStatus) (now : Z) (s : SettlementState) : SettlementState :=
  {| ss_settlement_id := ss_settlement_id s;
     ss_task_id := ss_task_id s;
     ss_escrow_amount := ss_escrow_amount s;
     ss_currency := ss_currency s;
     ss_status := st;
     ss_client_agent_id := ss_client_agent_id s;
     ss_worker_agent_id := ss_worker_agent_id s;
     ss_profile_id := ss_profile_id s;
     ss_worker_profile_id := ss_worker_profile_id s;
     ss_released_amount := ss_released_amount s;
     ss_refunded_amount := ss_refunded_amount s;
     ss_dispute_reason := ss_dispute_reason s;
     ss_rejection_reason_code := ss_rejection_reason_code s;
     ss_arbitration_notes := ss_arbitration_notes s;
     ss_created_at := ss_created_at s;
     ss_updated_at := now;
     ss_released_at := ss_released_at s;
     ss_settlement_mode := ss_settlement_mode s;
     ss_chain_id := ss_chain_id s;
     ss_contract_address := ss_contract_address s;
     ss_tx_hash := ss_tx_hash s;
     ss_evidence_bundle_hash := ss_evidence_bundle_hash s;
     ss_onchain_status := ss_onchain_status s;
     ss_onchain_binding_id := ss_onchain_binding_id s;
     ss_onchain_buyer_bill_id := ss_onchain_buyer_bill_id s;
     ss_onchain_agent_bill_id := ss_onchain_agent_bill_id s;
     ss_quote_id := ss_quote_id s;
     ss_voucher_id := ss_voucher_id s;
     ss_delivery_deadline_at := ss_delivery_deadline_at s;
     ss_confirm_window_hours := ss_confirm_window_hours s;
     ss_confirm_deadline_at := ss_confirm_deadline_at s;
     ss_progress_rule_spec := ss_progress_rule_spec s;
     ss_funding_source := ss_funding_source s |}.

Definition row_set_updated_at (now : Z) (s : SettlementRow) : SettlementRow :=
  {| sr_settlement_id := sr_settlement_id s;
     sr_task_id := sr_task_id s;
     sr_escrow_amount := sr_escrow_amount s;
     sr_currency := sr_currency s;
     sr_status := sr_status s;
     sr_client_agent_id := sr_client_agent_id s;
     sr_worker_agent_id := sr_worker_agent_id s;
     sr_profile_id := sr_profile_id s;
     sr_worker_profile_id := sr_worker_profile_id s;
     sr_released_amount := sr_released_amount s;
     sr_refunded_amount := sr_refunded_amount s;
     sr_dispute_reason := sr_dispute_reason s;
     sr_arbitration_notes := sr_arbitration_notes s;
     sr_created_at := sr_created_at s;
     sr_updated_at := now;
     sr_released_at := sr_released_at s;
     sr_settlement_mode := sr_settlement_mode s;
     sr_chain_id := sr_chain_id s;
     sr_contract_address := sr_contract_address s;
     sr_tx_hash := sr_tx_hash s;
     sr_evidence_bundle_hash := sr_evidence_bundle_hash s;
     sr_onchain_status := sr_onchain_status s;
     sr_onchain_binding_id := sr_onchain_binding_id s;
     sr_onchain_buyer_bill_id := sr_onchain_buyer_bill_id s;
     sr_onchain_agent_bill_id := sr_onchain_agent_bill_id s;
     sr_quote_id := sr_quote_id s;
     sr_voucher_id := sr_voucher_id s;
     sr_delivery_deadline_at := sr_delivery_deadline_at s;
     sr_confirm_window_hours := sr_confirm_window_hours s;
     sr_confirm_deadline_at := sr_confirm_deadline_at s;
     sr_progress_rule_spec := sr_progress_rule_spec s;
     sr_funding_source := sr_funding_source s |}.

(** [_to_row]. *)
Definition to_row (s : SettlementState) : SettlementRow :=
  {| sr_settlement_id := ss_settlement_id s;
     sr_task_id := ss_task_id s;
     sr_escrow_amount := ss_escrow_amount s;
     sr_currency := ss_currency s;
     sr_status := TaskStatus_value (canonical_task_status (ss_status s));
     sr_client_agent_id := ss_client_agent_id s;
     sr_worker_agent_id := ss_worker_agent_id s;
     sr_profile_id := ss_profile_id s;
     sr_worker_profile_id := ss_worker_profile_id s;
     sr_released_amount := ss_released_amount s;
     sr_refunded_amount := ss_refunded_amount s;
     sr_dispute_reason := ss_dispute_reason s;
     sr_arbitration_notes := ss_arbitration_notes s;
     sr_created_at := ss_created_at s;
     sr_updated_at := ss_updated_at s;
     sr_released_at := ss_released_at s;
     sr_settlement_mode := ss_settlement_mode s;
     sr_chain_id := ss_chain_id s;
     sr_contract_address := ss_contract_address s;
     sr_tx_hash := ss_tx_hash s;
     sr_evidence_bundle_hash := ss_evidence_bundle_hash s;
     sr_onchain_status := ss_onchain_status s;
     sr_onchain_binding_id := ss_onchain_binding_id s;
     sr_onchain_buyer_bill_id := ss_onchain_buyer_bill_id s;
     sr_onchain_agent_bill_id := ss_onchain_agent_bill_id s;
     sr_quote_id := ss_quote_id s;
     sr_voucher_id := ss_voucher_id s;
     sr_delivery_deadline_at := ss_delivery_deadline_at s;
     sr_confirm_window_hours := ss_confirm_window_hours s;
     sr_confirm_deadline_at := ss_confirm_deadline_at s;
     sr_progress_rule_spec := ss_progress_rule_spec s;
     sr_funding_source := or_internal (ss_funding_source s) |}.

(** The [SettlementState] built by [_from_row] once the status is parsed. *)
Definition state_of_row (st : TaskStatus) (s : SettlementRow) : SettlementState :=
  {| ss_settlement_id := sr_settlement_id s;
     ss_task_id := sr_task_id s;
     ss_escrow_amount := sr_escrow_amount s;
     ss_currency := sr_currency s;
     ss_status := st;
     ss_client_agent_id := sr_client_agent_id s;
     ss_worker_agent_id := sr_worker_agent_id s;
     ss_profile_id := sr_profile_id s;
     ss_worker_profile_id := sr_worker_profile_id s;
     ss_released_amount := sr_released_amount s;
     ss_refunded_amount := sr_refunded_amount s;
     ss_dispute_reason := sr_dispute_reason s;
     ss_rejection_reason_code := None;
     ss_arbitration_notes := sr_arbitration_notes s;
     ss_created_at := sr_created_at s;
     ss_updated_at := sr_updated_at s;
     ss_released_at := sr_released_at s;
     ss_settlement_mode := sr_settlement_mode s;
     ss_chain_id := sr_chain_id s;
     ss_contract_address := sr_contract_address s;
     ss_tx_hash := sr_tx_hash s;
     ss_evidence_bundle_hash := sr_evidence_bundle_hash s;
     ss_onchain_status := sr_onchain_status s;
     ss_onchain_binding_id := sr_onchain_binding_id s;
     ss_onchain_buyer_bill_id := sr_onchain_buyer_bill_id s;
     ss_onchain_agent_bill_id := sr_onchain_agent_bill_id s;
     ss_quote_id := sr_quote_id s;
     ss_voucher_id := sr_voucher_id s;
     ss_delivery_deadline_at := sr_delivery_deadline_at s;
     ss_confirm_window_hours := sr_confirm_window_hours s;
     ss_confirm_deadline_at := sr_confirm_deadline_at s;
     ss_progress_rule_spec := sr_progress_rule_spec s;
     ss_funding_source := or_internal (sr_funding_source s) |}.

#[export] Instance SettlementRow_eq_dec : EqDecision SettlementRow.
Proof. solve_decision. Defined.

(** ** The session's tables and their constraints *)

Record SettlementDB := {
  settlements : gmap string SettlementRow;
  task_contracts : gset string
}.

Abbreviation StoreM := (M SettlementDB Exc).

(** Rows other than [sid] that hold the task id [t]. *)
Definition task_id_taken (sid t : string) (db : SettlementDB) : bool :=
  bool_decide (map_Exists (fun k r => k <> sid /\ sr_task_id r = t) (settlements db)).

(** [session.flush()] of one new or modified row: the constraints are checked and
    the row is written under its primary key. *)
Definition flush_row (r : SettlementRow) : StoreM unit :=
  do! bad := m_get (fun db =>
    task_id_taken (sr_settlement_id r) (sr_task_id r) db
    || bool_decide (sr_task_id r ∉ task_contracts db)) in
  if bad then m_raise IntegrityError
  else m_put (fun db =>
    {| settlements := <[sr_settlement_id r := r]> (settlements db);
       task_contracts := task_contracts db |}).

(** The column's [onupdate=datetime.utcnow] fires when the statement changes the
    row and leaves [updated_at] alone. *)
Definition onupdate (now : Z) (existing row : SettlementRow) : SettlementRow :=
  if decide (existing <> row /\ sr_updated_at existing = sr_updated_at row)
  then row_set_updated_at now row else row.

(** [canonical_task_status] of a stored string. *)
Definition canonical_of_value (v : string) : result Exc TaskStatus :=
  match TaskStatus_of_value v with
  | Some s => Ok (canonical_task_status s)
  | None => Err (ValueError ("'" ++ v ++ "' is not a valid TaskStatus"))
  end.

(** The immutable columns that differ, in the order the loop visits them. *)
Definition changed_immutable (existing row : SettlementRow) : list string :=
  (if (sr_escrow_amount existing =? sr_escrow_amount row)%float then [] else ["escrow_amount"%string]) ++
  (if decide (sr_currency existing = sr_currency row) then [] else ["currency"%string]) ++
  (if decide (sr_client_agent_id existing = sr_client_agent_id row) then [] else ["client_agent_id"%string]) ++
  (if decide (sr_worker_agent_id existing = sr_worker_agent_id row) then [] else ["worker_agent_id"%string]).

Definition save (now : Z) (s : SettlementState) : StoreM unit :=
  do! existing := m_get (fun db => settlements db !! ss_settlement_id s) in
  let row_data := to_row s in
  match existing with
  | Some existing =>
      do! existing_status := lift (canonical_of_value (sr_status existing)) in
      let next_status := canonical_task_status (ss_status s) in
      if bool_decide (existing_status <> next_status)
         && negb (can_transition existing_status next_status)
      then m_raise (ValueError ("invalid status transition persistence guard: "
             ++ TaskStatus_value existing_status ++ " -> " ++ TaskStatus_value next_status))
      else
        match (if is_post_accepted existing_status
               then changed_immutable existing row_data else []) with
        | field_name :: _ =>
            m_raise (ValueError ("immutable field cannot be modified after accepted: " ++ field_name))
        | [] => flush_row (onupdate now existing row_data)
        end
  | None => flush_row row_data
  end.

(** [_from_row]: the stored status is parsed and the model's bound on
    [confirm_window_hours] is validated. *)
Definition from_row (r : SettlementRow) : result Exc SettlementState :=
  let? st := canonical_of_value (sr_status r) in
  match sr_confirm_window_hours r with
  | Some h => if (0 <=? h) && (h <=? 720) then Ok (state_of_row st r)
              else Err (ValueError "confirm_window_hours")
  | None => Ok (state_of_row st r)
  end.

Definition rows_of_task (t : string) (db : SettlementDB) : list SettlementRow :=
  snd <$> map_to_list (filter (fun kr => sr_task_id (snd kr) = t) (settlements db)).

Definition get (t : string) : StoreM (option SettlementState) :=
  do! rows := m_get (rows_of_task t) in
  match rows with
  | [] => m_ret None
  | [r] => do! s := lift (from_row r) in m_ret (Some s)
  | _ => m_raise MultipleResultsFound
  end.

Definition list_by_status (st : TaskStatus) : StoreM (list SettlementState) :=
  do! rows := m_get (fun db => snd <$> map_to_list
    (filter (fun kr => sr_status (snd kr) = TaskStatus_value st) (settlements db))) in
  lift (foldr (fun r acc => let? s := from_row r in let? l := acc in Ok (s :: l)) (Ok []) rows).

(** ** The development store

    [InMemorySettlementStore] keeps the objects themselves, without any guard. *)
Definition mem_save (s : SettlementState) (store : list (string * SettlementState)) :
    list (string * SettlementState) := dict_set (ss_task_id s) s store.
Definition mem_get (t : string) (store : list (string * SettlementState)) :
    option SettlementState := dict_get t store.
Definition mem_list_by_status (st : TaskStatus) (store : list (string * SettlementState)) :
    list SettlementState :=
  filter (fun s => ss_status s = st) (dict_values store).

(** ** Facts about the table *)

Lemma canonical_idem s : canonical_task_status (canonical_task_status s) = canonical_task_status s.
Proof. by destruct s. Qed.

Lemma can_transition_canonical a b :
  can_transition (canonical_task_status a) (canonical_task_status b) = can_transition a b.
Proof. unfold can_transition. by rewrite !canonical_idem. Qed.

Lemma post_accepted_canonical s : is_post_accepted (canonical_task_status s) = is_post_accepted s.
Proof. unfold is_post_accepted. by rewrite canonical_idem. Qed.

Lemma post_accepted_step a b :
  is_post_accepted a = true -> can_transition a b = true -> is_post_accepted b = true.
Proof.
  intros Ha Hab.
  assert (Hall : forallb (fun p => implb (is_post_accepted (fst p))
    (implb (can_transition (fst p) (snd p)) (is_post_accepted (snd p))))
    (enum (TaskStatus * TaskStatus)) = true) by (vm_compute; reflexivity).
  pose proof (finite_forallb _ Hall (a, b)) as H. cbn [fst snd] in H.
  by rewrite Ha, Hab in H.
Qed.

Lemma TaskStatus_of_value_value s : TaskStatus_of_value (TaskStatus_value s) = Some s.
Proof. destruct s; vm_compute; reflexivity. Qed.

Lemma TaskStatus_value_inj : Inj (=) (=) TaskStatus_value.
Proof.
  intros a b H. apply (f_equal TaskStatus_of_value) in H.
  rewrite !TaskStatus_of_value_value in H. congruence.
Qed.

Lemma canonical_of_value_value s :
  canonical_of_value (TaskStatus_value s) = Ok (canonical_task_status s).
Proof. unfold canonical_of_value. by rewrite TaskStatus_of_value_value. Qed.
#[export] Hint Rewrite canonical_idem post_accepted_canonical TaskStatus_of_value_value
  canonical_of_value_value : karma.

(** One move of the public transition table. *)
Definition table_step (a b : TaskStatus) : Prop := can_transition a b = true.

#[export] Instance table_step_dec a b : Decision (table_step a b).
Proof. unfold table_step. apply _. Defined.

(** A route through the table, as a list of statuses. *)
Fixpoint follows_table (s : TaskStatus) (path : list TaskStatus) : bool :=
  match path with
  | [] => true
  | t :: path => can_transition s t && follows_table t path
  end.

Lemma follows_table_rtc s path t :
  follows_table s path = true -> last (s :: path) = Some t -> rtc table_step s t.
Proof.
  revert s. induction path as [|u path IH]; intros s; simpl; [intros _ [= ->]; apply rtc_refl|].
  intros [H1 H2]%andb_true_iff Hl. eapply rtc_l; [exact H1|]. by apply IH.
Qed.

(** A short way out for every status with a row in the table. *)
Definition way_out (s : TaskStatus) : list TaskStatus :=
  match canonical_task_status s with
  | DRAFT => [CANCELLED]
  | PENDING => [CANCELLED]
  | ACCEPTED => [CANCELLED]
  | DISPUTED => [ARBITRATED; SETTLED]
  | SETTLED | REFUNDED | CANCELLED | AUTHORIZED => []
  | _ => [SETTLED]
  end.

(** The lifecycle table is coherent: canonicalisation is idempotent and
    transitions do not depend on whether a status is spelled with a legacy name;
    the terminal statuses are exactly those whose canonical form is SETTLED,
    REFUNDED, CANCELLED or AUTHORIZED; "post-accepted" is never lost along an
    edge; and from every status a terminal one can be reached. *)
Theorem lifecycle_table_coherent (a b : TaskStatus) :
  canonical_task_status (canonical_task_status a) = canonical_task_status a /\
  can_transition (canonical_task_status a) (canonical_task_status b) = can_transition a b /\
  (is_terminal a = true <->
     canonical_task_status a ∈ [SETTLED; REFUNDED; CANCELLED; AUTHORIZED]) /\
  (is_post_accepted a && can_transition a b = true -> is_post_accepted b = true) /\
  exists t, is_terminal t = true /\ rtc table_step a t.
Proof.
  split_and!; [apply canonical_idem|apply can_transition_canonical| | | ].
  - assert (H : forallb (fun a => bool_decide (is_terminal a =
        mem (canonical_task_status a) [SETTLED; REFUNDED; CANCELLED; AUTHORIZED]))
        (enum TaskStatus) = true) by (vm_compute; reflexivity).
    pose proof (finite_forallb _ H a) as Ha. cbn beta in Ha. apply bool_decide_eq_true in Ha.
    rewrite Ha. apply mem_true.
  - intros [? ?]%andb_true_iff. by eapply post_accepted_step.
  - exists (default a (last (way_out a))). split.
    + by destruct a.
    + eapply (follows_table_rtc a (way_out a)); by destruct a.
Qed.

Lemma lifecycle_table_coherent_witness :
  is_post_accepted LOCKED && can_transition LOCKED RUNNING = true /\ is_post_accepted RUNNING = true.
Proof.
  split; [reflexivity|]. destruct (lifecycle_table_coherent LOCKED RUNNING) as (_ & _ & _ & H & _).
  apply H. reflexivity.
Defined.

(** Leaving the lifecycle is not for good, and FROZEN is not post-accepted "by
    construction": a draft nobody accepted may be cancelled, frozen and then moved
    to SETTLED, and a settled task may end REFUNDED. *)
Theorem freeze_reopens_terminal :
  is_terminal CANCELLED = true /\ is_terminal SETTLED = true /\
  rtc table_step SETTLED REFUNDED /\
  (exists path, follows_table DRAFT path = true /\ last path = Some SETTLED /\ ACCEPTED ∉ path).
Proof.
  split_and!; [reflexivity..| |].
  - by apply (follows_table_rtc SETTLED [FROZEN; REFUNDED]).
  - exists [CANCELLED; FROZEN; SETTLED]. split_and!; [reflexivity..|set_solver].
Qed.

(** ** The store's invariant *)

Definition row_ok (db : SettlementDB) (sid : string) (r : SettlementRow) : Prop :=
  sr_settlement_id r = sid /\
  (exists st, sr_status r = TaskStatus_value st /\ canonical_task_status st = st) /\
  sr_task_id r ∈ task_contracts db.

Definition db_wf (db : SettlementDB) : Prop :=
  (forall sid r, settlements db !! sid = Some r -> row_ok db sid r) /\
  (forall i j r r', settlements db !! i = Some r -> settlements db !! j = Some r' ->
     sr_task_id r = sr_task_id r' -> i = j).

(** The columns a task's money and parties live in are the same: equal as Python
    compares them, or literally the same (which only matters for nan). *)
Definition same_terms (r r' : SettlementRow) : Prop :=
  sr_escrow_amount r = sr_escrow_amount r' \/
    feqb (sr_escrow_amount r) (sr_escrow_amount r') = true.

Definition same_parties (r r' : SettlementRow) : Prop :=
  sr_currency r = sr_currency r' /\ sr_client_agent_id r = sr_client_agent_id r' /\
  sr_worker_agent_id r = sr_worker_agent_id r'.

(** Equal up to [updated_at]. *)
Definition eq_but_updated (r r' : SettlementRow) : Prop :=
  row_set_updated_at 0 r = row_set_updated_at 0 r'.

Lemma same_terms_trans r1 r2 r3 : same_terms r1 r2 -> same_terms r2 r3 -> same_terms r1 r3.
Proof.
  unfold same_terms. intros [H1|H1] [H2|H2]; [left; congruence|right|right|right];
    [by rewrite H1|by rewrite <- H2|by eapply feqb_trans].
Qed.

Lemma same_parties_trans r1 r2 r3 :
  same_parties r1 r2 -> same_parties r2 r3 -> same_parties r1 r3.
Proof. unfold same_parties. intuition congruence. Qed.

Lemma changed_immutable_nil r r' :
  changed_immutable r r' = [] -> same_terms r r' /\ same_parties r r'.
Proof.
  unfold changed_immutable, same_terms, same_parties. intros H.
  repeat case_match; simplify_eq/=; eauto.
Qed.

Lemma onupdate_cases now r r' :
  onupdate now r r' = r' \/ onupdate now r r' = row_set_updated_at now r'.
Proof. unfold onupdate. case_decide; auto. Qed.

Lemma onupdate_eq now r r' : eq_but_updated (onupdate now r r') r'.
Proof. by destruct (onupdate_cases now r r') as [->| ->]. Qed.

Lemma eq_but_updated_fields r r' : eq_but_updated r r' ->
  sr_settlement_id r = sr_settlement_id r' /\ sr_task_id r = sr_task_id r' /\
  sr_status r = sr_status r' /\ sr_escrow_amount r = sr_escrow_amount r' /\
  sr_currency r = sr_currency r' /\ sr_client_agent_id r = sr_client_agent_id r' /\
  sr_worker_agent_id r = sr_worker_agent_id r'.
Proof. unfold eq_but_updated, row_set_updated_at. intros [= *]. by split_and!. Qed.

Lemma flush_row_spec r db :
  flush_row r db =
    if task_id_taken (sr_settlement_id r) (sr_task_id r) db
       || bool_decide (sr_task_id r ∉ task_contracts db)
    then (Err IntegrityError, db)
    else (Ok tt, {| settlements := <[sr_settlement_id r := r]> (settlements db);
                    task_contracts := task_contracts db |}).
Proof. unfold flush_row, m_bind, m_get. by case_match. Qed.

Lemma task_id_taken_false sid t db : task_id_taken sid t db = false ->
  forall k r, settlements db !! k = Some r -> sr_task_id r = t -> k = sid.
Proof.
  unfold task_id_taken. rewrite bool_decide_eq_false. intros H k r Hk Ht.
  destruct (decide (k = sid)) as [|Hne]; [done|]. exfalso. apply H. exists k, r. done.
Qed.

Lemma flush_row_wf r db db' :
  db_wf db -> (exists st, sr_status r = TaskStatus_value st /\ canonical_task_status st = st) ->
  flush_row r db = (Ok tt, db') -> db_wf db'.
Proof.
  intros [Hrow Huniq] Hst. rewrite flush_row_spec. case_match eqn:Hc; [done|].
  apply orb_false_iff in Hc as [Htk Hfk]. apply bool_decide_eq_false in Hfk.
  pose proof (task_id_taken_false _ _ _ Htk) as Hfree. intros [= <-]. split; simpl.
  - intros sid r0. rewrite lookup_insert_Some. intros [[<- <-]|[Hne Hl]].
    + split_and!; [done|done|]. simpl. by destruct (decide (sr_task_id r ∈ task_contracts db)).
    + by apply Hrow.
  - intros i j r1 r2. rewrite !lookup_insert_Some.
    intros [[<- <-]|[Hi Hl1]] [[<- <-]|[Hj Hl2]] Heq; [done| | |by eapply Huniq].
    + symmetry. eapply Hfree; [exact Hl2|congruence].
    + eapply Hfree; [exact Hl1|congruence].
Qed.

(** What a successful and a refused [save] mean. *)
Definition save_accepted (s : SettlementState) (db db' : SettlementDB) : Prop :=
  exists r', settlements db' = <[ss_settlement_id s := r']> (settlements db) /\
    task_contracts db' = task_contracts db /\ eq_but_updated r' (to_row s) /\
    forall r, settlements db !! ss_settlement_id s = Some r ->
      exists st, sr_status r = TaskStatus_value st /\
        (st = canonical_task_status (ss_status s) \/ table_step st (ss_status s)) /\
        (is_post_accepted st = true -> same_terms r r' /\ same_parties r r').

Definition save_refused (s : SettlementState) (db : SettlementDB) (e : Exc) : Prop :=
  match e with
  | ValueError _ =>
      exists r st, settlements db !! ss_settlement_id s = Some r /\
        sr_status r = TaskStatus_value st /\
        ((st <> canonical_task_status (ss_status s) /\ can_transition st (ss_status s) = false)
         \/ (is_post_accepted st = true /\ changed_immutable r (to_row s) <> []))
  | IntegrityError =>
      task_id_taken (ss_settlement_id s) (ss_task_id s) db = true \/
      ss_task_id s ∉ task_contracts db
  | _ => False
  end.

Lemma to_row_status s : exists st, sr_status (to_row s) = TaskStatus_value st /\
  canonical_task_status st = st.
Proof. exists (canonical_task_status (ss_status s)). split; [done|apply canonical_idem]. Qed.

Lemma flush_refused r db e db' :
  flush_row r db = (Err e, db') ->
  db' = db /\ e = IntegrityError /\
  (task_id_taken (sr_settlement_id r) (sr_task_id r) db = true \/ sr_task_id r ∉ task_contracts db).
Proof.
  rewrite flush_row_spec. case_match eqn:Hc; [|done]. intros [= <- <-].
  apply orb_true_iff in Hc as [Hc|Hc%bool_decide_eq_true]; auto.
Qed.

Lemma flush_accepted r db u db' :
  flush_row r db = (Ok u, db') ->
  settlements db' = <[sr_settlement_id r := r]> (settlements db) /\
  task_contracts db' = task_contracts db.
Proof. rewrite flush_row_spec. case_match; [done|]. by intros [= _ <-]. Qed.

Lemma save_new now s db : settlements db !! ss_settlement_id s = None ->
  save now s db = flush_row (to_row s) db.
Proof. intros H. unfold save. run_monad. by rewrite H. Qed.

Lemma save_existing now s db r st :
  settlements db !! ss_settlement_id s = Some r ->
  sr_status r = TaskStatus_value st -> canonical_task_status st = st ->
  save now s db =
    if bool_decide (st <> canonical_task_status (ss_status s))
       && negb (can_transition st (ss_status s))
    then (Err (ValueError ("invalid status transition persistence guard: "
             ++ TaskStatus_value st ++ " -> "
             ++ TaskStatus_value (canonical_task_status (ss_status s)))), db)
    else match (if is_post_accepted st then changed_immutable r (to_row s) else []) with
         | f :: _ => (Err (ValueError ("immutable field cannot be modified after accepted: " ++ f)), db)
         | [] => flush_row (onupdate now r (to_row s)) db
         end.
Proof.
  intros H Hst Hc. unfold save, lift. run_monad. rewrite H, Hst. autorewrite with karma.
  rewrite Hc. rewrite <- (can_transition_canonical st (ss_status s)), Hc.
  repeat case_match; done.
Qed.

Definition save_post (s : SettlementState) (db : SettlementDB)
    (out : result Exc unit * SettlementDB) : Prop :=
  match out with
  | (Ok _, db') => db_wf db' /\ save_accepted s db db'
  | (Err e, db') => db' = db /\ save_refused s db e
  end.

(** The flush that ends a [save] whose guards passed. *)
Lemma flush_saved s r' db :
  db_wf db -> eq_but_updated r' (to_row s) ->
  (forall r, settlements db !! ss_settlement_id s = Some r ->
      exists st, sr_status r = TaskStatus_value st /\
        (st = canonical_task_status (ss_status s) \/ table_step st (ss_status s)) /\
        (is_post_accepted st = true -> same_terms r r' /\ same_parties r r')) ->
  save_post s db (flush_row r' db).
Proof.
  intros Hwf Heq Hr. destruct (eq_but_updated_fields _ _ Heq) as (H1 & H2 & H3 & _).
  destruct (flush_row r' db) as [[u|e] db'] eqn:Hf; simpl.
  - split.
    + destruct u. eapply flush_row_wf; [done| |exact Hf]. rewrite H3. apply to_row_status.
    + apply flush_accepted in Hf as [Hf Hf']. exists r'. by rewrite Hf, H1.
  - apply flush_refused in Hf as (-> & -> & Hf). split; [done|]. by rewrite H1, H2 in Hf.
Qed.

Lemma save_sound now s db : db_wf db -> save_post s db (save now s db).
Proof.
  intros Hwf. destruct (settlements db !! ss_settlement_id s) as [r|] eqn:Hs; cycle 1.
  { rewrite (save_new now s db Hs). apply flush_saved; [done|done|]. by intros r Hr; simplify_eq. }
  destruct (proj1 Hwf _ _ Hs) as (Hid & (st & Hst & Hcst) & _).
  rewrite (save_existing now s db r st Hs Hst Hcst). destruct (bool_decide _ && _) eqn:Hg.
  { apply andb_true_iff in Hg as [Hne%bool_decide_eq_true Hct%negb_true_iff].
    split; [done|]. exists r, st. eauto. }
  destruct (if is_post_accepted st then _ else _) as [|f fs] eqn:Him.
  - pose proof (onupdate_eq now r (to_row s)) as Hon.
    destruct (eq_but_updated_fields _ _ Hon) as (_ & _ & _ & H4 & H5 & H6 & H7).
    apply flush_saved; [done|done|]. intros r0 Hr0. simplify_eq. exists st. split_and!; [done| |].
    + destruct (decide (st = canonical_task_status (ss_status s))); [by left|right].
      rewrite bool_decide_eq_true_2 in Hg by done. unfold table_step. by destruct (can_transition _ _).
    + intros Hp. rewrite Hp in Him. apply changed_immutable_nil in Him as [Ht Hp'].
      unfold same_terms, same_parties in *. by rewrite H4, H5, H6, H7.
  - split; [done|]. exists r, st. destruct (is_post_accepted st) eqn:Hp; [|done].
    split_and!; try done. right. by rewrite Him.
Qed.

(** [get] only reads. *)
Lemma get_reads t db : snd (get t db) = db.
Proof. unfold get, m_bind, m_get, lift. destruct (rows_of_task t db) as [|r [|]]; try done. by destruct (from_row r). Qed.

(** Any sequence of saves, successful or refused, by any callers. *)
Definition save_step (db db' : SettlementDB) : Prop := exists now s, db' = exec (save now s) db.

Lemma save_step_wf db db' : db_wf db -> save_step db db' -> db_wf db'.
Proof.
  intros Hwf (now & s & ->). pose proof (save_sound now s db Hwf) as H. unfold exec.
  destruct (save now s db) as [[u|e] db'']; simpl in *; [tauto|by destruct H as [-> _]].
Qed.

Lemma saves_wf db db' : db_wf db -> rtc save_step db db' -> db_wf db'.
Proof. intros Hwf H. induction H; [done|]. eauto using save_step_wf. Qed.

(** The status a row holds. *)
Definition row_status (r : SettlementRow) : option TaskStatus := TaskStatus_of_value (sr_status r).

(** What one step does to one row. *)
Lemma save_step_row db db' sid r :
  db_wf db -> save_step db db' -> settlements db !! sid = Some r ->
  exists r' st st', settlements db' !! sid = Some r' /\
    row_status r = Some st /\ row_status r' = Some st' /\ rtc table_step st st' /\
    (is_post_accepted st = true -> same_terms r r' /\ same_parties r r').
Proof.
  intros Hwf (now & s & ->) Hr. pose proof (save_sound now s db Hwf) as Hs. unfold exec.
  destruct (proj1 Hwf _ _ Hr) as (_ & (st & Hst & Hcan) & _).
  assert (Hrs : row_status r = Some st) by (unfold row_status; by rewrite Hst, TaskStatus_of_value_value).
  assert (Hsame : forall db'', settlements db'' !! sid = Some r -> exists r' st0 st',
    settlements db'' !! sid = Some r' /\ row_status r = Some st0 /\ row_status r' = Some st' /\
    rtc table_step st0 st' /\
    (is_post_accepted st0 = true -> same_terms r r' /\ same_parties r r')).
  { intros db'' H. exists r, st, st. split_and!; auto using rtc_refl.
    intros _. split; [by left|done]. }
  destruct (save now s db) as [[u|e] db'']; simpl in *; [|destruct Hs as [-> _]; auto].
  destruct Hs as (Hwf' & r' & Hins & _ & Heq & Hold).
  destruct (decide (ss_settlement_id s = sid)) as [<-|Hne];
    [|apply Hsame; by rewrite Hins, lookup_insert_ne].
  destruct (Hold r Hr) as (st1 & Hst1 & Hmove & Himm).
  assert (st1 = st) as -> by (apply TaskStatus_value_inj; congruence).
  exists r', st, (canonical_task_status (ss_status s)).
  destruct (eq_but_updated_fields _ _ Heq) as (_ & _ & H3 & _).
  split_and!; [by rewrite Hins, lookup_insert_eq|done| | |done].
  - unfold row_status. rewrite H3. apply TaskStatus_of_value_value.
  - destruct Hmove as [<-|Hm]; [apply rtc_refl|]. apply rtc_once. unfold table_step.
    by rewrite <- Hcan, can_transition_canonical.
Qed.

Lemma post_accepted_rtc a b :
  rtc table_step a b -> is_post_accepted a = true -> is_post_accepted b = true.
Proof. induction 1; eauto using post_accepted_step. Qed.

Lemma saves_row db db' sid r :
  db_wf db -> rtc save_step db db' -> settlements db !! sid = Some r ->
  exists r' st st', settlements db' !! sid = Some r' /\
    row_status r = Some st /\ row_status r' = Some st' /\ rtc table_step st st' /\
    (is_post_accepted st = true -> same_terms r r' /\ same_parties r r').
Proof.
  intros Hwf H. revert r Hwf. induction H as [db|db1 db2 db3 H12 H23 IH]; intros r Hwf Hr.
  - destruct (proj1 Hwf _ _ Hr) as (_ & (st & Hst & _) & _). exists r, st, st.
    assert (row_status r = Some st) by (unfold row_status; by rewrite Hst, TaskStatus_of_value_value).
    split_and!; auto using rtc_refl. intros _. split; [by left|done].
  - destruct (save_step_row _ _ _ _ Hwf H12 Hr) as (r2 & st & st2 & Hr2 & Hs & Hs2 & Hp & Hi).
    destruct (IH r2 (save_step_wf _ _ Hwf H12) Hr2) as (r3 & st2' & st3 & Hr3 & Hs2' & Hs3 & Hp' & Hi').
    assert (st2' = st2) as -> by congruence.
    exists r3, st, st3. split_and!; auto; [by etrans|].
    intros Ha. destruct (Hi Ha) as [H1 H2].
    destruct (Hi' (post_accepted_rtc _ _ Hp Ha)) as [H3 H4].
    eauto using same_terms_trans, same_parties_trans.
Qed.

(** What [PostgresSettlementStore.save] does on every branch, from any
    well-formed table: it either writes exactly the row of the given state (with
    only [updated_at] possibly refreshed), and then the status is unchanged or
    moves along the table and, once accepted, money and parties are unchanged; or
    it raises, the tables are untouched, and the error says which guard failed. *)
Theorem store_save_spec now s db : db_wf db -> save_post s db (save now s db).
Proof. apply save_sound. Qed.

(** C5. Along any sequence of saves a settlement row is never lost, its status only
    walks along the transition table, and once it is accepted the escrow amount,
    currency and both parties never change again. *)
Theorem settlement_terms_immutable db db' sid r st :
  db_wf db -> rtc save_step db db' ->
  settlements db !! sid = Some r -> row_status r = Some st ->
  exists r' st', settlements db' !! sid = Some r' /\ row_status r' = Some st' /\
    rtc table_step st st' /\
    (is_post_accepted st = true ->
       is_post_accepted st' = true /\ same_terms r r' /\ same_parties r r').
Proof.
  intros Hwf Hs Hr Hst. destruct (saves_row _ _ _ _ Hwf Hs Hr) as (r' & st0 & st' & H1 & H2 & H3 & H4 & H5).
  assert (st0 = st) as -> by congruence. exists r', st'. split_and!; [done..|].
  intros Ha. split; [by eapply post_accepted_rtc|auto].
Qed.

(** ** Reading back *)

Lemma rows_of_task_unique db sid r :
  db_wf db -> settlements db !! sid = Some r -> rows_of_task (sr_task_id r) db = [r].
Proof.
  intros [_ Hu] Hr. unfold rows_of_task.
  assert (filter (fun kr => sr_task_id (snd kr) = sr_task_id r) (settlements db) = {[sid := r]}) as ->.
  { apply map_eq. intros k. apply option_eq. intros r0.
    rewrite map_lookup_filter_Some, lookup_singleton_Some. simpl. split.
    - intros [Hk Ht]. assert (k = sid) as -> by (by eapply Hu). split; congruence.
    - intros [<- <-]. done. }
  by rewrite map_to_list_singleton.
Qed.

(** What is read back of a state, column by column: the state itself but for the canonical
    status, the time of the update, the default funding source and the rejection reason. *)
Definition read_back (at_ : Z) (s : SettlementState) : SettlementState :=
  {| ss_settlement_id := ss_settlement_id s;
     ss_task_id := ss_task_id s;
     ss_escrow_amount := ss_escrow_amount s;
     ss_currency := ss_currency s;
     ss_status := canonical_task_status (ss_status s);
     ss_client_agent_id := ss_client_agent_id s;
     ss_worker_agent_id := ss_worker_agent_id s;
     ss_profile_id := ss_profile_id s;
     ss_worker_profile_id := ss_worker_profile_id s;
     ss_released_amount := ss_released_amount s;
     ss_refunded_amount := ss_refunded_amount s;
     ss_dispute_reason := ss_dispute_reason s;
     ss_rejection_reason_code := None;
     ss_arbitration_notes := ss_arbitration_notes s;
     ss_created_at := ss_created_at s;
     ss_updated_at := at_;
     ss_released_at := ss_released_at s;
     ss_settlement_mode := ss_settlement_mode s;
     ss_chain_id := ss_chain_id s;
     ss_contract_address := ss_contract_address s;
     ss_tx_hash := ss_tx_hash s;
     ss_evidence_bundle_hash := ss_evidence_bundle_hash s;
     ss_onchain_status := ss_onchain_status s;
     ss_onchain_binding_id := ss_onchain_binding_id s;
     ss_onchain_buyer_bill_id := ss_onchain_buyer_bill_id s;
     ss_onchain_agent_bill_id := ss_onchain_agent_bill_id s;
     ss_quote_id := ss_quote_id s;
     ss_voucher_id := ss_voucher_id s;
     ss_delivery_deadline_at := ss_delivery_deadline_at s;
     ss_confirm_window_hours := ss_confirm_window_hours s;
     ss_confirm_deadline_at := ss_confirm_deadline_at s;
     ss_progress_rule_spec := ss_progress_rule_spec s;
     ss_funding_source := if decide (ss_funding_source s = ""%string) then "internal"%string else ss_funding_source s |}.

Definition window_ok (s : SettlementState) : bool :=
  match ss_confirm_window_hours s with Some h => (0 <=? h) && (h <=? 720) | None => true end.

Lemma columns_read_back s t : state_of_row (canonical_task_status (ss_status s)) (row_set_updated_at t (to_row s)) = read_back t s.
Proof.
  unfold state_of_row, row_set_updated_at, to_row, read_back. cbn. f_equal. unfold or_internal. repeat case_decide; congruence.
Qed.
Lemma from_row_to_row s t : window_ok s = true -> from_row (row_set_updated_at t (to_row s)) = Ok (read_back t s).
Proof.
  intros Hw. rewrite <- columns_read_back. revert Hw. unfold window_ok, from_row. cbn -[state_of_row to_row row_set_updated_at].
  change (sr_status (row_set_updated_at t (to_row s))) with (TaskStatus_value (canonical_task_status (ss_status s))).
  change (sr_confirm_window_hours (row_set_updated_at t (to_row s))) with (ss_confirm_window_hours s).
  autorewrite with karma. cbn -[state_of_row to_row row_set_updated_at].
  destruct (ss_confirm_window_hours s); [|done]. by intros ->.
Qed.

Lemma get_saved now s db db' :
  db_wf db -> window_ok s = true -> save now s db = (Ok tt, db') ->
  exists t, get (ss_task_id s) db' =
    (Ok (Some (read_back t s)), db').
Proof.
  intros Hwf Hw Hs. pose proof (save_sound now s db Hwf) as H. rewrite Hs in H.
  destruct H as (Hwf' & r' & Hins & _ & Heq & _).
  assert (Hr' : settlements db' !! ss_settlement_id s = Some r') by (by rewrite Hins, lookup_insert_eq).
  exists (sr_updated_at r').
  assert (Hr'eq : r' = row_set_updated_at (sr_updated_at r') (to_row s)).
  { unfold eq_but_updated, row_set_updated_at in *. destruct r'; simpl in *. by inv Heq. }
  assert (Ht : sr_task_id r' = ss_task_id s) by (by rewrite Hr'eq).
  unfold get, m_bind, m_get, lift. rewrite <- Ht, (rows_of_task_unique _ _ _ Hwf' Hr').
  assert (from_row r' = Ok (read_back (sr_updated_at r') s)) as ->; [|done].
  rewrite Hr'eq. by apply from_row_to_row.
Qed.

(** C37. Round trip: after a state whose confirmation window is absent or 0 to 720 hours is
    saved, [get] on its task returns that state in every column ([read_back] lists them), but
    for the status, which is canonical, the time of the update, which may be refreshed, an empty
    funding source, which is read as "internal", and the rejection reason, which is dropped. *)
Theorem store_save_get now s db db' :
  db_wf db -> window_ok s = true -> save now s db = (Ok tt, db') ->
  exists t, get (ss_task_id s) db' =
    (Ok (Some (read_back t s)), db').
Proof. apply get_saved. Qed.

(** ** A concrete task *)

Definition demo_state (st : TaskStatus) (escrow : float) : SettlementState :=
  {| ss_settlement_id := "s1"; ss_task_id := "t1"; ss_escrow_amount := escrow;
     ss_currency := "USD"; ss_status := st; ss_client_agent_id := "buyer";
     ss_worker_agent_id := Some "seller"%string; ss_profile_id := None; ss_worker_profile_id := None;
     ss_released_amount := None; ss_refunded_amount := None; ss_dispute_reason := None;
     ss_rejection_reason_code := Some "EMPTY_OUTPUT"%string; ss_arbitration_notes := None;
     ss_created_at := 0; ss_updated_at := 0; ss_released_at := None;
     ss_settlement_mode := "offchain"; ss_chain_id := None; ss_contract_address := None;
     ss_tx_hash := None; ss_evidence_bundle_hash := None; ss_onchain_status := None;
     ss_onchain_binding_id := None; ss_onchain_buyer_bill_id := None;
     ss_onchain_agent_bill_id := None; ss_quote_id := None; ss_voucher_id := None;
     ss_delivery_deadline_at := None; ss_confirm_window_hours := Some 24;
     ss_confirm_deadline_at := None; ss_progress_rule_spec := None;
     ss_funding_source := "" |}.

Definition demo_db0 : SettlementDB :=
  {| settlements := ∅; task_contracts := {[ "t1"%string ]} |}.
Definition demo_db1 : SettlementDB := exec (save 1 (demo_state LOCKED f100)) demo_db0.
Definition demo_db2 : SettlementDB := exec (save 2 (demo_state RUNNING f100)) demo_db1.

Lemma demo_db0_wf : db_wf demo_db0.
Proof. split; intros *; simpl; rewrite lookup_empty; done. Qed.

Lemma demo_db1_wf : db_wf demo_db1.
Proof. eapply save_step_wf; [apply demo_db0_wf|]. by exists 1, (demo_state LOCKED f100). Qed.

(** The store refuses to change the escrow of an accepted task. *)
Example save_refuses_escrow :
  outcome (save 2 (demo_state RUNNING f50)) demo_db1 =
  Err (ValueError "immutable field cannot be modified after accepted: escrow_amount").
Proof. vm_compute. reflexivity. Qed.

Lemma store_save_spec_witness :
  db_wf demo_db0 /\
  save_post (demo_state LOCKED f100) demo_db0 (save 1 (demo_state LOCKED f100) demo_db0) /\
  outcome (save 1 (demo_state LOCKED f100)) demo_db0 = Ok tt.
Proof.
  split; [apply demo_db0_wf|]. split; [apply (store_save_spec 1 _ demo_db0 demo_db0_wf)|].
  vm_compute. reflexivity.
Defined.

Lemma settlement_terms_immutable_witness :
  exists r r' st', settlements demo_db1 !! "s1"%string = Some r /\
    settlements demo_db2 !! "s1"%string = Some r' /\
    row_status r' = Some st' /\ rtc table_step ACCEPTED st' /\
    (is_post_accepted ACCEPTED = true ->
       is_post_accepted st' = true /\ same_terms r r' /\ same_parties r r').
Proof.
  destruct (settlements demo_db1 !! "s1"%string) as [r|] eqn:Hr; [|vm_compute in Hr; discriminate].
  assert (Hst : row_status r = Some ACCEPTED) by (vm_compute in Hr; by injection Hr as <-).
  destruct (settlement_terms_immutable demo_db1 demo_db2 "s1" r ACCEPTED demo_db1_wf) as (r' & st' & H).
  - apply rtc_once. by exists 2, (demo_state RUNNING f100).
  - exact Hr.
  - exact Hst.
  - exists r, r', st'. tauto.
Defined.

Lemma store_save_get_witness :
  exists t, get "t1" demo_db1 =
    (Ok (Some (read_back t (demo_state LOCKED f100))), demo_db1).
Proof.
  apply (store_save_get 1 (demo_state LOCKED f100) demo_db0 demo_db1 demo_db0_wf);
    vm_compute; reflexivity.
Defined.
