(* ===== verification/SettlementTransitions.v ===== *)
(** * Settlement transitions: audit, commit, chain, revert

    [services/settlement_transitions.py] and the same steps of
    [api/routes/settlement.py] ([_apply_transition], [_revert_chain_rejected_transition],
    [_release_dispute_freeze_after_revert], [_record_transition_audit]), and
    [denial_class_for_guard_stage] of [services/security_monitoring.py].

    A [Session] holds the committed tables and the working copy of the open
    transaction; [R] stands for the tables these steps do not touch.  The chain call is a parameter: any effect on the session, any
    outcome. *)
From S2P Require Import Prelude PyFloat FloatFacts PyJson AtomicLedger Capacity SettlementEngine.

(** ** Tables, sessions, audit rows *)

Record AuditRow := {
  au_settlement_id : string;
  au_task_id : string;
  au_from_status : option string;
  au_to_status : string;
  au_transition_allowed : bool;
  au_guard_stage : string;
  au_reason : option string;
  au_route_path : option string;
  au_actor_id : option string;
  au_source : option string;
  au_denial_class : string;
  au_created_at : Z
}.

Section Sessions.
Context {R : Type}.

Record Tables := {
  t_settle : SettlementDB;
  t_caps : caps_table;
  t_audits : list AuditRow;
  t_rest : R
}.

(** [monitor] is the process's security-event buffer, which no transaction covers. *)
Record Session := {
  committed : Tables;
  working : Tables;
  monitor : list AuditRow
}.

Abbreviation SesM := (M Session Exc).

Definition set_working (t : Tables) (s : Session) : Session :=
  {| committed := committed s; working := t; monitor := monitor s |}.

Definition on_settle {A} (c : StoreM A) : SesM A :=
  zoom (fun s => t_settle (working s))
    (fun d s => set_working {| t_settle := d; t_caps := t_caps (working s);
                               t_audits := t_audits (working s); t_rest := t_rest (working s) |} s) c.
Definition on_capacity {A} (c : M caps_table Exc A) : SesM A :=
  zoom (fun s => t_caps (working s))
    (fun t s => set_working {| t_settle := t_settle (working s); t_caps := t;
                               t_audits := t_audits (working s); t_rest := t_rest (working s) |} s) c.

Definition commit : SesM unit :=
  m_put (fun s => {| committed := working s; working := working s; monitor := monitor s |}).
Definition rollback : SesM unit :=
  m_put (fun s => {| committed := committed s; working := committed s; monitor := monitor s |}).

(** [get_session]: the session of one HTTP request. *)
Definition get_session {A} (handler : SesM A) : SesM A :=
  m_catch (do! a := handler in seq! commit in m_ret a)
    (fun e => seq! rollback in m_raise e).

(** ** Audits *)

Definition denial_class_for_guard_stage (guard_stage : option string) : string :=
  let stage := py_lower (py_strip (default ""%string guard_stage)) in
  if mem stage ["route"; "pipeline"]%string then "state_machine"
  else if decide (stage = "chain"%string) then "chain_gate"
  else "store_conflict".

(** Who applies the transition: the HTTP route or the trade pipeline. *)
Record Caller := {
  guard_name : string;
  audit_source : option string;
  route_path : option string;
  actor_id : option string
}.

(** [record_settlement_transition_audit]: the audit row references the settlement; a new
    settlement has no earlier status. *)
Definition record_audit_from (c : Caller) (now : Z) (state : SettlementState)
    (from_status : option TaskStatus) (to_status : TaskStatus) (allowed : bool) (guard_stage : string)
    (reason : string) : SesM unit :=
  let row := {| au_settlement_id := ss_settlement_id state; au_task_id := ss_task_id state;
                au_from_status := TaskStatus_value <$> from_status;
                au_to_status := TaskStatus_value to_status;
                au_transition_allowed := allowed; au_guard_stage := guard_stage;
                au_reason := Some reason; au_route_path := route_path c;
                au_actor_id := actor_id c; au_source := audit_source c;
                au_denial_class := denial_class_for_guard_stage (Some guard_stage);
                au_created_at := now |} in
  do! known := m_get (fun s => settlements (t_settle (working s)) !! ss_settlement_id state) in
  match known with
  | None => m_raise IntegrityError
  | Some _ =>
      m_put (fun s => {| committed := committed s;
                         working := {| t_settle := t_settle (working s); t_caps := t_caps (working s);
                                       t_audits := t_audits (working s) ++ [row]; t_rest := t_rest (working s) |};
                         monitor := monitor s ++ [row] |})
  end.
Definition record_audit (c : Caller) (now : Z) (state : SettlementState)
    (from_status to_status : TaskStatus) (allowed : bool) (guard_stage : string)
    (reason : string) : SesM unit :=
  record_audit_from c now state (Some from_status) to_status allowed guard_stage reason.

(** ** Snapshot and revert *)

(** The columns of [_SETTLEMENT_SNAPSHOT_COLUMNS]. *)
Record Snapshot := {
  snap_status : string;
  snap_released_amount : option float;
  snap_refunded_amount : option float;
  snap_released_at : option Z;
  snap_arbitration_notes : option string;
  snap_dispute_reason : option string
}.

Definition snapshot_of (r : SettlementRow) : Snapshot :=
  {| snap_status := sr_status r; snap_released_amount := sr_released_amount r;
     snap_refunded_amount := sr_refunded_amount r; snap_released_at := sr_released_at r;
     snap_arbitration_notes := sr_arbitration_notes r; snap_dispute_reason := sr_dispute_reason r |}.

Definition snapshot_settlement_row (task_id : string) : SesM (option Snapshot) :=
  m_get (fun s => snapshot_of <$> head (rows_of_task task_id (t_settle (working s)))).

(** [UPDATE ... SET] of the snapshot columns; [updated_at] is set by its [onupdate]. *)
Definition row_apply_snapshot (p : Snapshot) (now : Z) (s : SettlementRow) : SettlementRow :=
  {| sr_settlement_id := sr_settlement_id s;
     sr_task_id := sr_task_id s;
     sr_escrow_amount := sr_escrow_amount s;
     sr_currency := sr_currency s;
     sr_status := snap_status p;
     sr_client_agent_id := sr_client_agent_id s;
     sr_worker_agent_id := sr_worker_agent_id s;
     sr_profile_id := sr_profile_id s;
     sr_worker_profile_id := sr_worker_profile_id s;
     sr_released_amount := snap_released_amount p;
     sr_refunded_amount := snap_refunded_amount p;
     sr_dispute_reason := snap_dispute_reason p;
     sr_arbitration_notes := snap_arbitration_notes p;
     sr_created_at := sr_created_at s;
     sr_updated_at := now;
     sr_released_at := snap_released_at p;
     sr_settlement_mode := sr_settlement_mode s;
     sr_chain_id := sr_chain_id s;
     sr_contract_address := sr_contract_address s;
     sr_tx_hash := sr_tx_hash s;
     sr_evidence_bundle_hash := sr_evidence_bundle_hash s;
     sr_onchain_status := sr_onchain_status s;
     sr_onchain_binding_id := sr_onchain_binding_id s;
     sr_onchain_buyer_bill_id := sr_onchain_buyer_bill_id s;
     sr_onchain_agent_bill_id := sr_onchain_agent_bill_id s;
     sr_quote_id := sr_quote_id s;
     sr_voucher_id := sr_voucher_id s;
     sr_delivery_deadline_at := sr_delivery_deadline_at s;
     sr_confirm_window_hours := sr_confirm_window_hours s;
     sr_confirm_deadline_at := sr_confirm_deadline_at s;
     sr_progress_rule_spec := sr_progress_rule_spec s;
     sr_funding_source := sr_funding_source s |}.

Definition restore_rows (task_id : string) (p : Snapshot) (now : Z) (db : SettlementDB) : SettlementDB :=
  {| settlements := (fun r => if decide (sr_task_id r = task_id) then row_apply_snapshot p now r else r)
                      <$> settlements db;
     task_contracts := task_contracts db |}.

(** [_release_dispute_freeze_after_revert]: failures are logged and dropped. *)
Definition release_freeze_after_revert (now : Z) (buyer : string) (escrow : float) : SesM unit :=
  let amount := or_zero (Some escrow) in
  if bool_decide (buyer = ""%string) || (amount <=? f1em9)%float then m_ret tt
  else m_catch (on_capacity (apply_delta_or_raise now buyer
         [("disputed_credits"%string, fopp amount); ("reserved_credits"%string, amount)]
         [covers Disputed_credits amount] id "dispute freeze changed concurrently; retry"))
         (fun _ => m_ret tt).

(** [restore_ok]: whether the database takes the restore; when it does not, the failure is
    logged and nothing else is done. *)
Definition revert_chain_rejected_transition (restore_ok : bool) (c : Caller) (now : Z) (prior : option Snapshot)
    (state : SettlementState) (from_status target_status : TaskStatus) (reason : string) : SesM unit :=
  match prior with
  | None => m_ret tt
  | Some p =>
      if negb restore_ok then rollback
      else
      seq! rollback in
      seq! on_settle (m_put (restore_rows (ss_task_id state) p now)) in
      seq! commit in
      seq! (if decide (canonical_task_status target_status = DISPUTED)
            then seq! release_freeze_after_revert now (ss_client_agent_id state)
                        (ss_escrow_amount state) in commit
            else m_ret tt) in
      m_catch (seq! record_audit c now state from_status target_status false "chain"
                 ("chain gate refused (" ++ reason ++ "): business state reverted, retry") in commit)
        (fun _ => rollback)
  end.

(** ** The transition *)

Section Transition.
(** [_sync_escrow_settlement]: on-chain I/O. *)
Context (sync_chain : SettlementState -> TaskStatus -> SesM unit).
(** Whether the database takes the restore after a refusal of the chain. *)
Context (restore_ok : bool).

Definition invalid_transition_detail (from_status to_status : TaskStatus) : string :=
  "invalid status transition: " ++ TaskStatus_value from_status ++ " -> " ++ TaskStatus_value to_status.

(** [except ValueError] around [store.save]. *)
Definition save_or_409 (c : Caller) (now : Z) (st : SettlementState)
    (from_status target_status : TaskStatus) : SesM unit :=
  m_catch (on_settle (save now st))
    (fun e => match e with
              | ValueError detail =>
                  seq! record_audit c now st from_status target_status false "store" detail in
                  m_raise (HTTPException 409 detail)
              | _ => m_raise e
              end).

Definition apply_transition (c : Caller) (now : Z) (state : SettlementState)
    (target_status : TaskStatus) (reason : string) : SesM SettlementState :=
  let from_status := ss_status state in
  if negb (can_transition from_status target_status) then
    let detail := invalid_transition_detail from_status target_status in
    seq! record_audit c now state from_status target_status false (guard_name c) detail in
    m_raise (HTTPException 409 detail)
  else
    do! prior := snapshot_settlement_row (ss_task_id state) in
    let st := state_set_status target_status now state in
    seq! save_or_409 c now st from_status target_status in
    seq! record_audit c now st from_status target_status true "store" reason in
    seq! commit in
    seq! m_catch (sync_chain st target_status)
           (fun e => seq! revert_chain_rejected_transition restore_ok c now prior st from_status
                            target_status reason in m_raise e) in
    do! refreshed := on_settle (get (ss_task_id st)) in
    m_ret (default st refreshed).

(** The two callers. *)
Definition pipeline_caller (route actor : option string) : Caller :=
  {| guard_name := "pipeline"; audit_source := Some "settlement_transitions"%string;
     route_path := route; actor_id := actor |}.
Definition route_caller (route actor : option string) : Caller :=
  {| guard_name := "route"; audit_source := None; route_path := route; actor_id := actor |}.

Definition apply_settlement_transition (now : Z) (state : SettlementState)
    (target_status : TaskStatus) (reason : string) (route actor : option string) :
    SesM SettlementState :=
  apply_transition (pipeline_caller route actor) now state target_status reason.

Definition route_apply_transition (now : Z) (state : SettlementState)
    (target_status : TaskStatus) (reason : string) (route actor : option string) :
    SesM SettlementState :=
  apply_transition (route_caller route actor) now state target_status reason.
End Transition.

(** ** Equations *)

(** The audit row of one attempt. *)
Definition audit_row (c : Caller) (now : Z) (state : SettlementState)
    (from_status to_status : TaskStatus) (allowed : bool) (guard_stage reason : string) : AuditRow :=
  {| au_settlement_id := ss_settlement_id state; au_task_id := ss_task_id state;
     au_from_status := Some (TaskStatus_value from_status);
     au_to_status := TaskStatus_value to_status;
     au_transition_allowed := allowed; au_guard_stage := guard_stage;
     au_reason := Some reason; au_route_path := route_path c;
     au_actor_id := actor_id c; au_source := audit_source c;
     au_denial_class := denial_class_for_guard_stage (Some guard_stage);
     au_created_at := now |}.

Definition audited (a : AuditRow) (s : Session) : Session :=
  {| committed := committed s;
     working := {| t_settle := t_settle (working s); t_caps := t_caps (working s);
                   t_audits := t_audits (working s) ++ [a]; t_rest := t_rest (working s) |};
     monitor := monitor s ++ [a] |}.

Definition known (state : SettlementState) (s : Session) : Prop :=
  is_Some (settlements (t_settle (working s)) !! ss_settlement_id state).

Lemma record_audit_eq c now st f t ok stage reason s :
  known st s ->
  record_audit c now st f t ok stage reason s = (Ok tt, audited (audit_row c now st f t ok stage reason) s).
Proof. intros [r Hr]. unfold record_audit, record_audit_from, m_bind, m_get, m_put. by rewrite Hr. Qed.

Lemma on_settle_eq {A} (c : StoreM A) s :
  on_settle c s = (fst (c (t_settle (working s))),
    set_working {| t_settle := snd (c (t_settle (working s))); t_caps := t_caps (working s);
                   t_audits := t_audits (working s); t_rest := t_rest (working s) |} s).
Proof. unfold on_settle, zoom. by destruct (c _). Qed.

(** A refusal by the transition table: the audit and the 409, nothing else. *)
Lemma apply_refused sync restore_ok c now st target reason s :
  can_transition (ss_status st) target = false -> known st s ->
  apply_transition sync restore_ok c now st target reason s =
    (Err (HTTPException 409 (invalid_transition_detail (ss_status st) target)),
     audited (audit_row c now st (ss_status st) target false (guard_name c)
                (invalid_transition_detail (ss_status st) target)) s).
Proof.
  intros Hc Hk. unfold apply_transition. rewrite Hc. cbn [negb]. unfold m_bind.
  by rewrite record_audit_eq.
Qed.

(** The session in which the chain is called: saved, audited and committed. *)
Definition before_chain (c : Caller) (now : Z) (st : SettlementState) (target : TaskStatus)
    (reason : string) (db : SettlementDB) (s : Session) : Session :=
  let a := audit_row c now (state_set_status target now st) (ss_status st) target true "store" reason in
  let t := {| t_settle := db; t_caps := t_caps (working s); t_audits := t_audits (working s) ++ [a]; t_rest := t_rest (working s) |} in
  {| committed := t; working := t; monitor := monitor s ++ [a] |}.

Lemma saved_known now st db db' : save now st db = (Ok tt, db') -> db_wf db ->
  is_Some (settlements db' !! ss_settlement_id st).
Proof.
  intros Hs Hwf. pose proof (save_sound now st db Hwf) as H. rewrite Hs in H.
  destruct H as (_ & r & Hins & _). rewrite Hins, lookup_insert_eq. eauto.
Qed.

Lemma apply_accepted sync restore_ok c now st target reason s db' :
  can_transition (ss_status st) target = true -> db_wf (t_settle (working s)) ->
  save now (state_set_status target now st) (t_settle (working s)) = (Ok tt, db') ->
  apply_transition sync restore_ok c now st target reason s =
    m_bind (m_catch (sync (state_set_status target now st) target)
             (fun e => m_bind (revert_chain_rejected_transition restore_ok c now
                (snapshot_of <$> head (rows_of_task (ss_task_id st) (t_settle (working s))))
                (state_set_status target now st) (ss_status st) target reason) (fun _ => m_raise e)))
      (fun _ => m_bind (on_settle (get (ss_task_id st)))
         (fun r => m_ret (default (state_set_status target now st) r)))
      (before_chain c now st target reason db' s).
Proof.
  intros Hc Hwf Hs. unfold apply_transition. rewrite Hc. cbn [negb].
  unfold m_bind at 1, snapshot_settlement_row, m_get at 1.
  unfold m_bind at 1, save_or_409, m_catch at 1. rewrite on_settle_eq, Hs. cbn [fst snd].
  unfold m_bind at 1. rewrite record_audit_eq; [|].
  - reflexivity.
  - unfold known. cbn. by apply (saved_known now _ _ _ Hs).
Qed.

Lemma restore_lookup t p now db sid :
  settlements (restore_rows t p now db) !! sid =
  (fun r => if decide (sr_task_id r = t) then row_apply_snapshot p now r else r)
    <$> (settlements db !! sid).
Proof. cbn. by rewrite lookup_fmap. Qed.

(** The revert leaves the restored settlements committed, whatever happens after. *)
Lemma revert_committed c now p st f t reason s :
  exists w, revert_chain_rejected_transition true c now (Some p) st f t reason s = (Ok tt, w) /\
    t_settle (committed w) = restore_rows (ss_task_id st) p now (t_settle (committed s)) /\
    (canonical_task_status t <> DISPUTED -> t_caps (committed w) = t_caps (committed s)).
Proof.
  unfold revert_chain_rejected_transition, rollback, commit, m_bind, m_put. cbn [negb]. rewrite on_settle_eq. cbn.
  set (s1 := {| committed := _; working := _; monitor := _ |}).
  set (dispute := if decide _ then _ else _).
  assert (Hd : exists s2, dispute s1 = (Ok tt, s2) /\ t_settle (committed s2) = t_settle (committed s1) /\
    t_settle (working s2) = t_settle (working s1) /\ committed s2 = working s2 /\
    (canonical_task_status t <> DISPUTED -> t_caps (committed s2) = t_caps (committed s1))).
  { subst dispute. case_decide as Hcase; [|by exists s1].
    unfold release_freeze_after_revert. destruct (_ || _); [by eexists|].
    unfold m_catch, on_capacity, zoom. destruct (apply_delta_or_raise _ _ _ _ _ _ _) as [[[]|e] t'];
      eexists; cbn; split_and!; done. }
  destruct Hd as (s2 & -> & H1 & H2 & H3 & H4). unfold m_catch, record_audit, record_audit_from, m_bind, m_get, m_put.
  destruct (settlements _ !! _); eexists; cbn; split_and!; try done; cbn in *; try congruence.
  intros Hn. rewrite <- H3. auto.
Qed.

(** ** Properties *)

(** A move the transition table forbids touches nothing but the audit: the caller
    gets a 409, the chain is not called, no table other than the audit changes, and
    the refusal is classified as a state-machine denial. *)
Theorem transition_refused_no_effect sync restore_ok now st target reason route actor s :
  can_transition (ss_status st) target = false -> known st s ->
  let '(out, s') := apply_settlement_transition sync restore_ok now st target reason route actor s in
  out = Err (HTTPException 409 (invalid_transition_detail (ss_status st) target)) /\
  t_settle (working s') = t_settle (working s) /\ t_caps (working s') = t_caps (working s) /\
  committed s' = committed s /\
  exists a, t_audits (working s') = t_audits (working s) ++ [a] /\ monitor s' = monitor s ++ [a] /\
    au_transition_allowed a = false /\ au_denial_class a = "state_machine"%string.
Proof.
  intros Hc Hk. unfold apply_settlement_transition. rewrite apply_refused by done.
  split_and!; try done. eexists. by split_and!.
Qed.


(** A refused move leaves no audit row behind in production: the request's session
    rolls back when the 409 is raised, so the committed tables (audits included) are
    exactly those from before the request, and only the in-memory monitor keeps the
    denial. *)
Theorem denied_audit_not_persisted sync restore_ok now st target reason route actor s :
  can_transition (ss_status st) target = false -> known st s ->
  let '(out, s') := get_session (route_apply_transition sync restore_ok now st target reason route actor) s in
  is_ok out = false /\ committed s' = committed s /\ working s' = committed s /\
  length (monitor s') = S (length (monitor s)).
Proof.
  intros Hc Hk. unfold get_session, m_catch, m_bind at 1, route_apply_transition.
  rewrite apply_refused by done. cbn. split_and!; try done. rewrite length_app. cbn. lia.
Qed.

(** An allowed move that the chain accepts is committed and audited once: the state
    returned is the stored one with the canonical target status, and exactly one
    audit row, marked allowed, was added. *)
Theorem transition_accepted_committed sync restore_ok now st target reason route actor s db' :
  db_wf (t_settle (working s)) -> window_ok st = true ->
  can_transition (ss_status st) target = true ->
  save now (state_set_status target now st) (t_settle (working s)) = (Ok tt, db') ->
  (forall x t w, sync x t w = (Ok tt, w)) ->
  exists st' s' a, route_apply_transition sync restore_ok now st target reason route actor s = (Ok st', s') /\
    ss_status st' = canonical_task_status target /\
    t_settle (committed s') = db' /\ t_audits (committed s') = t_audits (working s) ++ [a] /\
    au_transition_allowed a = true /\ t_caps (committed s') = t_caps (working s).
Proof.
  intros Hwf Hw Hc Hs Hsync. unfold route_apply_transition.
  rewrite (apply_accepted sync restore_ok _ now st target reason s db' Hc Hwf Hs).
  unfold m_bind, m_catch. rewrite Hsync, on_settle_eq. cbn [before_chain working t_settle].
  destruct (get_saved now (state_set_status target now st) _ _ Hwf Hw Hs) as [t Hget].
  cbn [ss_task_id state_set_status] in Hget. rewrite Hget. cbn.
  do 3 eexists. by split_and!.
Qed.

End Sessions.

(** ** Concrete sessions *)

Definition demo_tables : Tables :=
  {| t_settle := demo_db1; t_caps := ∅; t_audits := []; t_rest := tt |}.
Definition demo_session : Session :=
  {| committed := demo_tables; working := demo_tables; monitor := [] |}.
Definition chain_ok (_ : SettlementState) (_ : TaskStatus) : M (Session (R := unit)) Exc unit := m_ret tt.
Definition chain_down (_ : SettlementState) (_ : TaskStatus) : M (Session (R := unit)) Exc unit :=
  m_raise (HTTPException 502 "chain").
Definition demo_accepted : SettlementState := demo_state ACCEPTED f100.

Lemma demo_known : known demo_accepted demo_session.
Proof. vm_compute. eexists. reflexivity. Qed.

Lemma transition_refused_no_effect_witness :
  can_transition ACCEPTED DELIVERED = false /\ known demo_accepted demo_session /\
  outcome (apply_settlement_transition chain_ok true 7 demo_accepted DELIVERED "r" None None) demo_session
    = Err (HTTPException 409 "invalid status transition: accepted -> delivered").
Proof.
  split; [reflexivity|]. split; [apply demo_known|].
  pose proof (transition_refused_no_effect chain_ok true 7 demo_accepted DELIVERED "r" None None
    demo_session eq_refl demo_known) as H.
  unfold outcome. destruct (apply_settlement_transition _ _ _ _ _ _ _ _) as [out s'].
  destruct H as [-> _]. reflexivity.
Defined.

Lemma denied_audit_not_persisted_witness :
  exists s', get_session (route_apply_transition chain_ok true 7 demo_accepted DELIVERED "r" None None)
      demo_session = (Err (HTTPException 409 "invalid status transition: accepted -> delivered"), s') /\
    committed s' = committed demo_session.
Proof.
  pose proof (denied_audit_not_persisted chain_ok true 7 demo_accepted DELIVERED "r" None None
    demo_session eq_refl demo_known) as H.
  destruct (get_session _ demo_session) as [out s'] eqn:E. exists s'. split; [|apply H].
  f_equal. vm_compute in E. by injection E as <- _.
Defined.


Lemma transition_accepted_committed_witness :
  exists st' s', route_apply_transition chain_ok true 7 demo_accepted IN_PROGRESS "r" None None demo_session
      = (Ok st', s') /\ ss_status st' = IN_PROGRESS.
Proof.
  destruct (save 7 (state_set_status IN_PROGRESS 7 demo_accepted) demo_db1) as [[[]|e] db'] eqn:Hs;
    [|vm_compute in Hs; discriminate].
  destruct (transition_accepted_committed chain_ok true 7 demo_accepted IN_PROGRESS "r" None None demo_session db'
    demo_db1_wf eq_refl eq_refl Hs (fun _ _ _ => eq_refl)) as (st' & s' & a & H1 & H2 & _).
  exists st', s'. split; [exact H1|exact H2].
Defined.
