(* ===== verification/BillingStates.v ===== *)
(** * Billing: states, scenarios and the transition tables

    [packages/karma_billing/schema.py] (the enumerations) and
    [packages/karma_billing/state_transitions.py] (the global transition map, the
    per-scenario paths and [is_transition_allowed]).  A dictionary keyed by an
    enumeration is an association list read with [dict_get]; a frozenset is a list
    read with [mem]. *)
From S2P Require Import Prelude.

(** ** Enumerations *)

Inductive ScenarioType : Type :=
  | S1_DELEGATION | S2_BIDDING | S3_PIPELINE | S4_MULTI_DELEGATION | S5_DATA
  | S6_CONDITIONAL | S7_RECURRING | S8_DISPUTE | S9_INTENT | S10_CROSS_CHAIN.

#[export] Instance ScenarioType_eq_dec : EqDecision ScenarioType.
Proof. solve_decision. Defined.

#[export] Program Instance ScenarioType_finite : Finite ScenarioType := {| enum :=
     [S1_DELEGATION; S2_BIDDING; S3_PIPELINE; S4_MULTI_DELEGATION; S5_DATA; S6_CONDITIONAL;
      S7_RECURRING; S8_DISPUTE; S9_INTENT; S10_CROSS_CHAIN] |}.
Next Obligation. apply (bool_decide_unpack _). by vm_compute. Qed.
Next Obligation. intros []; apply (bool_decide_unpack _); by vm_compute. Qed.

Inductive ReceiptType : Type :=
  | S1_INTENT_CREATED | S1_INTENT_SIGNED | S1_DELEGATION_ACCEPTED | S1_TASK_STARTED
  | S1_STEP_EXECUTED | S1_TASK_COMPLETED | S1_INVOICE_GENERATED
  | S1_PAYMENT_AUTHORIZED | S1_PAYMENT_SETTLED | S1_RECEIPT_FINAL | S2_BID_OPENED
  | S2_BID_PLACED | S2_BID_EVALUATED | S2_BID_ACCEPTED | S2_TASK_EXECUTED
  | S2_INVOICE_GENERATED | S2_PAYMENT_SETTLED | S3_PIPELINE_CREATED | S3_STAGE_STARTED
  | S3_STAGE_COMPLETED | S3_PIPELINE_COMPLETED | S3_INVOICE_AGGREGATED
  | S3_PAYMENT_SETTLED | S4_SUBTASK_CREATED | S4_SUBTASK_ASSIGNED
  | S4_SUBTASK_COMPLETED | S4_AGGREGATE_INVOICE | S4_PAYMENT_SETTLED
  | S5_DATA_REQUESTED | S5_DATA_DELIVERED | S5_DATA_VERIFIED | S5_ROYALTY_CALCULATED
  | S5_PAYMENT_SETTLED | S6_CONDITION_SET | S6_CONDITION_MET | S6_TASK_EXECUTED
  | S6_ESCROW_RELEASED | S7_SUBSCRIPTION_CREATED | S7_PERIOD_STARTED
  | S7_USAGE_REPORTED | S7_PERIOD_INVOICE | S7_PAYMENT_SETTLED | S8_DISPUTE_FILED
  | S8_EVIDENCE_SUBMITTED | S8_ARBITRATION_STARTED | S8_RESOLUTION_PROPOSED
  | S8_RESOLUTION_ACCEPTED | S8_REFUND_ISSUED | S9_INTENT_EXPRESSED
  | S9_SOLVER_MATCHED | S9_SOLUTION_EXECUTED | S9_PAYMENT_SETTLED | S10_SOURCE_LOCKED
  | S10_BRIDGE_PROOF | S10_DESTINATION_MINTED | S10_PAYMENT_SETTLED.

#[export] Instance ReceiptType_eq_dec : EqDecision ReceiptType.
Proof. solve_decision. Defined.

Inductive BillingState : Type :=
  | INITIATED | INTENT_RECEIVED | INTENT_VALIDATED | DELEGATION_ACCEPTED | TASK_STARTED
  | STEP_IN_PROGRESS | STEP_COMPLETED | TASK_COMPLETED | BID_EVALUATING | BID_ACCEPTED
  | PIPELINE_STAGING | INVOICE_GENERATED | PAYMENT_AUTHORIZED | PAYMENT_PENDING
  | PAYMENT_SETTLING | REFUND_PENDING | SETTLED.

#[export] Instance BillingState_eq_dec : EqDecision BillingState.
Proof. solve_decision. Defined.

#[export] Program Instance BillingState_finite : Finite BillingState := {| enum :=
     [INITIATED; INTENT_RECEIVED; INTENT_VALIDATED; DELEGATION_ACCEPTED; TASK_STARTED;
      STEP_IN_PROGRESS; STEP_COMPLETED; TASK_COMPLETED; BID_EVALUATING; BID_ACCEPTED;
      PIPELINE_STAGING; INVOICE_GENERATED; PAYMENT_AUTHORIZED; PAYMENT_PENDING;
      PAYMENT_SETTLING; REFUND_PENDING; SETTLED] |}.
Next Obligation. apply (bool_decide_unpack _). by vm_compute. Qed.
Next Obligation. intros []; apply (bool_decide_unpack _); by vm_compute. Qed.

(** [.value] of the enumerations. *)
Definition ScenarioType_value (x : ScenarioType) : string :=
  match x with
  | S1_DELEGATION => "S1_DELEGATION"
  | S2_BIDDING => "S2_BIDDING"
  | S3_PIPELINE => "S3_PIPELINE"
  | S4_MULTI_DELEGATION => "S4_MULTI_DELEGATION"
  | S5_DATA => "S5_DATA"
  | S6_CONDITIONAL => "S6_CONDITIONAL"
  | S7_RECURRING => "S7_RECURRING"
  | S8_DISPUTE => "S8_DISPUTE"
  | S9_INTENT => "S9_INTENT"
  | S10_CROSS_CHAIN => "S10_CROSS_CHAIN"
  end%string.

Definition BillingState_value (x : BillingState) : string :=
  match x with
  | INITIATED => "INITIATED"
  | INTENT_RECEIVED => "INTENT_RECEIVED"
  | INTENT_VALIDATED => "INTENT_VALIDATED"
  | DELEGATION_ACCEPTED => "DELEGATION_ACCEPTED"
  | TASK_STARTED => "TASK_STARTED"
  | STEP_IN_PROGRESS => "STEP_IN_PROGRESS"
  | STEP_COMPLETED => "STEP_COMPLETED"
  | TASK_COMPLETED => "TASK_COMPLETED"
  | BID_EVALUATING => "BID_EVALUATING"
  | BID_ACCEPTED => "BID_ACCEPTED"
  | PIPELINE_STAGING => "PIPELINE_STAGING"
  | INVOICE_GENERATED => "INVOICE_GENERATED"
  | PAYMENT_AUTHORIZED => "PAYMENT_AUTHORIZED"
  | PAYMENT_PENDING => "PAYMENT_PENDING"
  | PAYMENT_SETTLING => "PAYMENT_SETTLING"
  | REFUND_PENDING => "REFUND_PENDING"
  | SETTLED => "SETTLED"
  end%string.

Definition BILLING_STATE_TRANSITIONS : list (BillingState * list BillingState) :=
  [(INITIATED, [INTENT_RECEIVED]);
   (INTENT_RECEIVED, [INTENT_VALIDATED]);
   (INTENT_VALIDATED, [DELEGATION_ACCEPTED; BID_EVALUATING; PIPELINE_STAGING]);
   (DELEGATION_ACCEPTED, [TASK_STARTED]);
   (TASK_STARTED, [STEP_IN_PROGRESS; TASK_COMPLETED]);
   (STEP_IN_PROGRESS, [STEP_COMPLETED; TASK_COMPLETED]);
   (STEP_COMPLETED, [STEP_IN_PROGRESS; TASK_COMPLETED]);
   (TASK_COMPLETED, [INVOICE_GENERATED]);
   (BID_EVALUATING, [BID_ACCEPTED; INVOICE_GENERATED]);
   (BID_ACCEPTED, [TASK_STARTED]);
   (PIPELINE_STAGING, [TASK_STARTED; STEP_IN_PROGRESS; TASK_COMPLETED]);
   (INVOICE_GENERATED, [PAYMENT_AUTHORIZED; PAYMENT_SETTLING]);
   (PAYMENT_AUTHORIZED, [PAYMENT_PENDING; PAYMENT_SETTLING]);
   (PAYMENT_PENDING, [PAYMENT_SETTLING]);
   (PAYMENT_SETTLING, [SETTLED; REFUND_PENDING]);
   (REFUND_PENDING, [SETTLED]);
   (SETTLED, [])].

Definition REQUIRE_IMMEDIATE_ANCHOR : list BillingState :=
  [INTENT_VALIDATED; TASK_COMPLETED; INVOICE_GENERATED; PAYMENT_AUTHORIZED; SETTLED;
   REFUND_PENDING].

Definition ALLOWED_STATE_PATHS : list (ScenarioType * list (list BillingState)) :=
  [(S1_DELEGATION,
    [[INITIATED; INTENT_RECEIVED; INTENT_VALIDATED; DELEGATION_ACCEPTED; TASK_STARTED;
      STEP_IN_PROGRESS; STEP_COMPLETED; TASK_COMPLETED; INVOICE_GENERATED;
      PAYMENT_AUTHORIZED; PAYMENT_PENDING; PAYMENT_SETTLING; SETTLED];
     [STEP_COMPLETED; STEP_IN_PROGRESS];
     [STEP_IN_PROGRESS; TASK_COMPLETED];
     [STEP_COMPLETED; TASK_COMPLETED];
     [PAYMENT_AUTHORIZED; PAYMENT_SETTLING]]);
   (S2_BIDDING,
    [[INITIATED; INTENT_RECEIVED; INTENT_VALIDATED; BID_EVALUATING; BID_ACCEPTED;
      TASK_STARTED; STEP_IN_PROGRESS; STEP_COMPLETED; TASK_COMPLETED; INVOICE_GENERATED;
      PAYMENT_AUTHORIZED; PAYMENT_SETTLING; SETTLED];
     [INITIATED; INTENT_RECEIVED; INTENT_VALIDATED; BID_EVALUATING; INVOICE_GENERATED;
      PAYMENT_SETTLING; SETTLED]]);
   (S3_PIPELINE,
    [[INITIATED; INTENT_RECEIVED; INTENT_VALIDATED; PIPELINE_STAGING; STEP_IN_PROGRESS;
      STEP_COMPLETED; TASK_COMPLETED; INVOICE_GENERATED; PAYMENT_AUTHORIZED;
      PAYMENT_SETTLING; SETTLED]]);
   (S4_MULTI_DELEGATION,
    [[INITIATED; INTENT_RECEIVED; INTENT_VALIDATED; DELEGATION_ACCEPTED; TASK_STARTED;
      STEP_IN_PROGRESS; STEP_COMPLETED; TASK_COMPLETED; INVOICE_GENERATED;
      PAYMENT_AUTHORIZED; PAYMENT_SETTLING; SETTLED]]);
   (S5_DATA,
    [[INITIATED; INTENT_RECEIVED; INTENT_VALIDATED; DELEGATION_ACCEPTED; TASK_STARTED;
      TASK_COMPLETED; INVOICE_GENERATED; PAYMENT_AUTHORIZED; PAYMENT_SETTLING; SETTLED]]);
   (S6_CONDITIONAL,
    [[INITIATED; INTENT_RECEIVED; INTENT_VALIDATED; DELEGATION_ACCEPTED; TASK_STARTED;
      TASK_COMPLETED; INVOICE_GENERATED; PAYMENT_AUTHORIZED; PAYMENT_SETTLING; SETTLED]]);
   (S7_RECURRING,
    [[INITIATED; INTENT_RECEIVED; INTENT_VALIDATED; DELEGATION_ACCEPTED; TASK_STARTED;
      TASK_COMPLETED; INVOICE_GENERATED; PAYMENT_AUTHORIZED; PAYMENT_SETTLING; SETTLED]]);
   (S8_DISPUTE,
    [[INITIATED; INTENT_RECEIVED; INTENT_VALIDATED; DELEGATION_ACCEPTED; TASK_STARTED;
      TASK_COMPLETED; INVOICE_GENERATED; PAYMENT_AUTHORIZED; PAYMENT_SETTLING; SETTLED];
     [PAYMENT_SETTLING; REFUND_PENDING; SETTLED]]);
   (S9_INTENT,
    [[INITIATED; INTENT_RECEIVED; INTENT_VALIDATED; DELEGATION_ACCEPTED; TASK_STARTED;
      TASK_COMPLETED; INVOICE_GENERATED; PAYMENT_AUTHORIZED; PAYMENT_SETTLING; SETTLED]]);
   (S10_CROSS_CHAIN,
    [[INITIATED; INTENT_RECEIVED; INTENT_VALIDATED; DELEGATION_ACCEPTED; TASK_STARTED;
      TASK_COMPLETED; INVOICE_GENERATED; PAYMENT_AUTHORIZED; PAYMENT_SETTLING; SETTLED]])].

(** ** The checks *)

Definition get_legal_targets (from_state : BillingState) : list BillingState :=
  match dict_get from_state BILLING_STATE_TRANSITIONS with
  | Some targets => targets
  | None => []
  end.

(** [path.index(from_state)] finds the first occurrence; the successor on the path
    must be the target.  A path without [from_state] ([ValueError]) is skipped. *)
Definition path_allows (from_state to_state : BillingState) (path : list BillingState) : bool :=
  match list_index from_state path with
  | None => false
  | Some idx =>
      (S idx <? length path)%nat && bool_decide (path !! S idx = Some to_state)
  end.

Definition is_transition_allowed
    (scenario : ScenarioType) (from_state to_state : BillingState) : bool :=
  match dict_get from_state BILLING_STATE_TRANSITIONS with
  | None => false
  | Some legal_targets =>
      if negb (mem to_state legal_targets) then false
      else match dict_get scenario ALLOWED_STATE_PATHS with
           | None => false
           | Some paths => existsb (path_allows from_state to_state) paths
           end
  end.

(** ** The abstract lifecycle of one task *)

(** One move of a task under a scenario. *)
Definition scenario_step (sc : ScenarioType) (s s' : BillingState) : Prop :=
  is_transition_allowed sc s s' = true.

Definition successors (sc : ScenarioType) (s : BillingState) : list BillingState :=
  filter (fun s' => is_transition_allowed sc s s') (enum BillingState).

Lemma elem_of_successors sc s s' : s' ∈ successors sc s <-> scenario_step sc s s'.
Proof.
  unfold successors. rewrite list_elem_of_filter. unfold scenario_step. split.
  - intros [H _]. by apply Is_true_true.
  - intros H. split; [by apply Is_true_true|apply elem_of_enum].
Qed.

(** The states reached from [INITIATED] within [fuel] rounds. *)
Fixpoint reach (fuel : nat) (sc : ScenarioType) (acc : list BillingState) : list BillingState :=
  match fuel with
  | O => acc
  | S fuel' => reach fuel' sc (remove_dups (acc ++ (acc ≫= successors sc)))
  end.

(** Whether [SETTLED] is reachable from [s] within [fuel] moves. *)
Fixpoint can_settle (fuel : nat) (sc : ScenarioType) (s : BillingState) : bool :=
  bool_decide (s = SETTLED) ||
  match fuel with
  | O => false
  | S fuel' => existsb (can_settle fuel' sc) (successors sc s)
  end.

Lemma can_settle_sound fuel sc s : can_settle fuel sc s = true -> rtc (scenario_step sc) s SETTLED.
Proof.
  revert s. induction fuel as [|fuel IH]; intros s; simpl;
    rewrite orb_true_iff, bool_decide_eq_true; intros [->|H]; try done; try apply rtc_refl.
  apply existsb_exists in H as (s' & Hin & Hs').
  eapply rtc_l; [|by apply IH]. by apply elem_of_successors, list_elem_of_In.
Qed.

(** The 13 rounds suffice: the computed set is closed under moves. *)
Definition reachable (sc : ScenarioType) : list BillingState := reach 13 sc [INITIATED].

Lemma reachable_closed :
  forallb (fun sc => forallb (fun s => forallb (fun s' => mem s' (reachable sc)) (successors sc s))
                       (reachable sc)) (enum ScenarioType) = true.
Proof. vm_compute. reflexivity. Qed.

Lemma reachable_complete sc s : rtc (scenario_step sc) INITIATED s -> s ∈ reachable sc.
Proof.
  revert s. apply (rtc_ind_r (fun s => s ∈ reachable sc)); [|intros s s' _ Hstep IH].
  - apply mem_true. revert sc. apply finite_forallb. vm_compute. reflexivity.
  - pose proof (finite_forallb _ reachable_closed sc) as Hc. cbv beta in Hc.
    rewrite forallb_forall in Hc. specialize (Hc s (proj1 (list_elem_of_In _ _) IH)).
    rewrite forallb_forall in Hc. apply mem_true, Hc, list_elem_of_In, elem_of_successors, Hstep.
Qed.

(** C38. No dead ends: in every scenario, from every state a task can get into, the
    task can still be brought to [SETTLED]; and [SETTLED] is exactly where the
    lifecycle stops -- a reachable state has no legal move iff it is [SETTLED]. *)
Theorem billing_no_dead_ends (sc : ScenarioType) (s : BillingState) :
  rtc (scenario_step sc) INITIATED s ->
  rtc (scenario_step sc) s SETTLED
  /\ ((forall s', ~ scenario_step sc s s') <-> s = SETTLED).
Proof.
  intros Hr%reachable_complete.
  assert (Hall : forallb (fun sc => forallb (fun s =>
      can_settle 13 sc s && Bool.eqb (bool_decide (successors sc s = [])) (bool_decide (s = SETTLED)))
      (reachable sc)) (enum ScenarioType) = true) by (vm_compute; reflexivity).
  pose proof (finite_forallb _ Hall sc) as Hsc. cbv beta in Hsc.
  rewrite forallb_forall in Hsc. specialize (Hsc s (proj1 (list_elem_of_In _ _) Hr)).
  apply andb_true_iff in Hsc as [Hset Hstop]. split; [by eapply can_settle_sound|].
  apply eqb_prop in Hstop. rewrite <- (bool_decide_eq_true (s = SETTLED)), <- Hstop.
  rewrite bool_decide_eq_true. split.
  - intros Hno. apply elem_of_nil_inv. intros s' ?%elem_of_successors. by eapply Hno.
  - intros Hnil s' ?%elem_of_successors. rewrite Hnil in *. by eapply not_elem_of_nil.
Qed.

Lemma billing_no_dead_ends_witness :
  rtc (scenario_step S2_BIDDING) INITIATED INTENT_RECEIVED
  /\ rtc (scenario_step S2_BIDDING) INTENT_RECEIVED SETTLED.
Proof.
  assert (H : rtc (scenario_step S2_BIDDING) INITIATED INTENT_RECEIVED).
  { apply rtc_once. reflexivity. }
  split; [exact H|]. apply (billing_no_dead_ends S2_BIDDING INTENT_RECEIVED H).
Defined.
