(* ===== verification/BillingMachine.v ===== *)
(** * Billing: the immutable state machine

    [ImmutableBillingStateMachine] and [InMemoryAuditLog] of
    [packages/karma_billing/state_machine.py].  One [Machine] value is the object
    together with its audit log.  [execute_transition] holds the task's
    [asyncio.Lock] and, with the in-memory log, never yields inside the critical
    section, so each call is one atomic step; interleavings of tasks are the
    sequences of such steps ([mstep]).  Record ids ([uuid4]) and timestamps are
    inputs of a call. *)
From S2P Require Import Prelude PyFloat BillingStates.

(** ** State *)

Record StateTransitionRecord := {
  record_id : string;
  task_id : string;
  from_state : BillingState;
  to_state : BillingState;
  triggered_by_receipt_id : string;
  triggered_by_did : string;
  timestamp : Z
}.

Record SecurityEvent := {
  event_type : string;
  severity : string;
  event_task_id : string;
  details : list (string * string)
}.

Record Machine := {
  task_states : gmap string BillingState;
  task_scenarios : gmap string ScenarioType;
  task_receipts : gmap string (gset string);
  transitions : list StateTransitionRecord;
  security_events : list SecurityEvent
}.

Definition create_state_machine : Machine :=
  {| task_states := ∅; task_scenarios := ∅; task_receipts := ∅;
     transitions := []; security_events := [] |}.

(** [IllegalStateTransitionError]; [ConcurrentTransitionError] is declared by the
    source and never raised. *)
Inductive BillingError :=
| IllegalStateTransitionError (task_id : string) (from_state to_state : BillingState)
    (scenario : ScenarioType).

Abbreviation BillingM := (M Machine BillingError).

(** ** Audit log *)

Definition log_security_event (event_type severity task_id : string)
    (details : list (string * string)) : BillingM unit :=
  m_put (fun m =>
    {| task_states := task_states m; task_scenarios := task_scenarios m;
       task_receipts := task_receipts m; transitions := transitions m;
       security_events := security_events m ++
         [{| event_type := event_type; severity := severity;
             event_task_id := task_id; details := details |}] |}).

Definition log_transition (record : StateTransitionRecord) : BillingM unit :=
  m_put (fun m =>
    {| task_states := task_states m; task_scenarios := task_scenarios m;
       task_receipts := task_receipts m; transitions := transitions m ++ [record];
       security_events := security_events m |}).

(** ** Operations *)

Definition set_task_state (task_id : string) (s : BillingState) (m : Machine) : Machine :=
  {| task_states := <[task_id := s]> (task_states m); task_scenarios := task_scenarios m;
     task_receipts := task_receipts m; transitions := transitions m;
     security_events := security_events m |}.

Definition receipts_of (m : Machine) (task_id : string) : gset string :=
  default ∅ (task_receipts m !! task_id).

Definition is_receipt_valid (m : Machine) (task_id receipt_id : string) : bool :=
  bool_decide (receipt_id ∈ receipts_of m task_id).

Definition register_receipt (task_id receipt_id : string) : BillingM unit :=
  m_put (fun m =>
    {| task_states := task_states m; task_scenarios := task_scenarios m;
       task_receipts :=
         <[task_id := receipts_of m task_id ∪ {[receipt_id]}]> (task_receipts m);
       transitions := transitions m; security_events := security_events m |}).

Definition validate_transition (task_id : string) (scenario : ScenarioType)
    (from_state to_state : BillingState)
    (triggered_by_receipt_id triggered_by_did : string) : BillingM bool :=
  let legal_targets := dict_get from_state BILLING_STATE_TRANSITIONS in
  if match legal_targets with None => true | Some l => negb (mem to_state l) end then
    seq! log_security_event "ILLEGAL_TRANSITION_ATTEMPT" "CRITICAL" task_id
      [("from_state", BillingState_value from_state);
       ("to_state", BillingState_value to_state);
       ("triggered_by_receipt_id", triggered_by_receipt_id);
       ("triggered_by_did", triggered_by_did);
       ("reason", "Transition not in global transition map")]%string in
    m_ret false
  else if negb (is_transition_allowed scenario from_state to_state) then
    seq! log_security_event "ILLEGAL_TRANSITION_ATTEMPT" "CRITICAL" task_id
      [("from_state", BillingState_value from_state);
       ("to_state", BillingState_value to_state);
       ("scenario", ScenarioType_value scenario);
       ("triggered_by_receipt_id", triggered_by_receipt_id);
       ("triggered_by_did", triggered_by_did);
       ("reason", "Transition not on any allowed path for scenario")]%string in
    m_ret false
  else
    do! ok := m_get (fun m => is_receipt_valid m task_id triggered_by_receipt_id) in
    if negb ok then
      seq! log_security_event "INVALID_RECEIPT" "CRITICAL" task_id
        [("receipt_id", triggered_by_receipt_id);
         ("reason", "Receipt not found or not associated with this task")]%string in
      m_ret false
    else m_ret true.

(** The first call for a task registers it at [INITIATED] under the scenario given. *)
Definition read_or_init_state (task_id : string) (scenario : ScenarioType) : BillingM BillingState :=
  do! found := m_get (fun m => task_states m !! task_id) in
  match found with
  | Some s => m_ret s
  | None =>
      seq! m_put (fun m =>
        {| task_states := <[task_id := INITIATED]> (task_states m);
           task_scenarios := <[task_id := scenario]> (task_scenarios m);
           task_receipts := match task_receipts m !! task_id with
                            | None => <[task_id := ∅]> (task_receipts m)
                            | Some _ => task_receipts m
                            end;
           transitions := transitions m; security_events := security_events m |}) in
      m_ret INITIATED
  end.

Definition execute_transition (uuid : string) (now : Z)
    (task_id : string) (scenario : ScenarioType) (to_state : BillingState)
    (triggered_by_receipt_id triggered_by_did : string) : BillingM StateTransitionRecord :=
  do! from_state := read_or_init_state task_id scenario in
  do! is_valid := validate_transition task_id scenario from_state to_state
    triggered_by_receipt_id triggered_by_did in
  if negb is_valid then
    m_raise (IllegalStateTransitionError task_id from_state to_state scenario)
  else
    let record :=
      {| record_id := uuid; task_id := task_id; from_state := from_state;
         to_state := to_state; triggered_by_receipt_id := triggered_by_receipt_id;
         triggered_by_did := triggered_by_did; timestamp := now |} in
    seq! log_transition record in
    seq! m_put (set_task_state task_id to_state) in
    seq! (if mem to_state REQUIRE_IMMEDIATE_ANCHOR then
            log_security_event "ANCHOR_REQUIRED" "INFO" task_id
              [("state", BillingState_value to_state);
               ("reason", "State requires immediate on-chain anchoring")]%string
          else m_ret tt) in
    m_ret record.

(** ** Queries *)

Definition get_current_state (m : Machine) (task_id : string) : option BillingState :=
  task_states m !! task_id.

Definition get_scenario (m : Machine) (task_id : string) : option ScenarioType :=
  task_scenarios m !! task_id.

Record BillingSnapshot := {
  snap_task_id : string;
  snap_scenario : ScenarioType;
  billing_state : BillingState;
  current_step : Z;
  total_steps_estimated : Z;
  cost_accrued_usdc : float;
  total_budget_usdc : float;
  progress_percent : float;
  anchored_receipts : Z;
  latest_merkle_root : option string;
  last_anchor_tx : option string
}.

(** [a / b] on non-negative ints: the correctly rounded quotient. *)
Definition int_truediv (a b : Z) : float :=
  match a, b with
  | Zpos p, Zpos q => float_of_ratio false p q
  | _, _ => fzero
  end.

Definition get_snapshot (m : Machine) (task_id : string) : option BillingSnapshot :=
  match task_states m !! task_id with
  | None => None
  | Some state =>
      let scenario := default S1_DELEGATION (task_scenarios m !! task_id) in
      let anchored_count := Z.of_nat (size (receipts_of m task_id)) in
      let paths := default [[]] (dict_get scenario ALLOWED_STATE_PATHS) in
      let primary_path := match paths with p :: _ => p | [] => [] end in
      let current_step :=
        match list_index state primary_path with
        | Some i => Z.of_nat i + 1
        | None => 0
        end%Z in
      let total_steps := Z.of_nat (length primary_path) in
      let progress :=
        if (0 <? total_steps)%Z
        then (int_truediv current_step total_steps * f100)%float
        else fzero in
      Some {| snap_task_id := task_id; snap_scenario := scenario; billing_state := state;
              current_step := current_step; total_steps_estimated := total_steps;
              cost_accrued_usdc := fzero; total_budget_usdc := fzero;
              progress_percent := py_round_to 2 progress;
              anchored_receipts := anchored_count;
              latest_merkle_root := None; last_anchor_tx := None |}
  end.

(** ** Runs *)

(** The calls a client can make; queries do not change the object. *)
Inductive op :=
| OpExecute (uuid : string) (now : Z) (task : string) (sc : ScenarioType)
    (target : BillingState) (receipt did : string)
| OpValidate (task : string) (sc : ScenarioType) (s target : BillingState)
    (receipt did : string)
| OpRegister (task receipt : string).

Definition run_op (o : op) (m : Machine) : Machine :=
  match o with
  | OpExecute uuid now t sc target rid did =>
      exec (execute_transition uuid now t sc target rid did) m
  | OpValidate t sc s target rid did => exec (validate_transition t sc s target rid did) m
  | OpRegister t rid => exec (register_receipt t rid) m
  end.

Inductive mstep : Machine -> Machine -> Prop :=
| mstep_op o m : mstep m (run_op o m).

Definition reachable_machine (m : Machine) : Prop := rtc mstep create_state_machine m.

Definition run_ops (os : list op) (m : Machine) : Machine := foldl (fun m o => run_op o m) m os.

(** ** Abstract specification: the history of a task replayed *)

Definition history (t : string) (m : Machine) : list StateTransitionRecord :=
  filter (fun r => task_id r = t) (transitions m).

Definition some_scenario_allows (s s' : BillingState) : bool :=
  existsb (fun sc => is_transition_allowed sc s s') (enum ScenarioType).

(** Follow the recorded moves from [INITIATED], checking that each record starts
    where the previous one ended, is legal, and cites a registered receipt. *)
Fixpoint replay (receipts : gset string) (cur : BillingState)
    (h : list StateTransitionRecord) : option BillingState :=
  match h with
  | [] => Some cur
  | r :: h' =>
      if bool_decide (from_state r = cur)
         && some_scenario_allows (from_state r) (to_state r)
         && bool_decide (triggered_by_receipt_id r ∈ receipts)
      then replay receipts (to_state r) h'
      else None
  end.

Example s1_run :
  let ops := [OpRegister "t" "r";
              OpExecute "u1" 1 "t" S1_DELEGATION INTENT_RECEIVED "r" "did";
              OpExecute "u2" 2 "t" S1_DELEGATION SETTLED "r" "did"] in
  let m := run_ops ops create_state_machine in
  (get_current_state m "t", length (transitions m), length (security_events m))
  = (Some INTENT_RECEIVED, 1%nat, 1%nat).
Proof. vm_compute. reflexivity. Qed.

(** ** Behaviour of the operations *)

(** A machine after [evs] were appended to its security log. *)
Definition add_events (evs : list SecurityEvent) (m : Machine) : Machine :=
  {| task_states := task_states m; task_scenarios := task_scenarios m;
     task_receipts := task_receipts m; transitions := transitions m;
     security_events := security_events m ++ evs |}.

Definition critical_event (t : string) (ev : SecurityEvent) : Prop :=
  severity ev = "CRITICAL"%string /\ event_task_id ev = t.

(** The first check of [validate_transition]. *)
Definition off_global_map (s s' : BillingState) : bool :=
  match dict_get s BILLING_STATE_TRANSITIONS with
  | None => true
  | Some l => negb (mem s' l)
  end.

Lemma off_global_map_not_allowed sc s s' :
  off_global_map s s' = true -> is_transition_allowed sc s s' = false.
Proof.
  unfold off_global_map, is_transition_allowed.
  destruct (dict_get s BILLING_STATE_TRANSITIONS) as [l|]; [|done]. by destruct (mem s' l).
Qed.

Lemma validate_transition_spec t sc s s' rid did m :
  exists evs,
    validate_transition t sc s s' rid did m
    = (Ok (is_transition_allowed sc s s' && is_receipt_valid m t rid), add_events evs m)
    /\ if is_transition_allowed sc s s' && is_receipt_valid m t rid
       then evs = [] else exists ev, evs = [ev] /\ critical_event t ev.
Proof.
  unfold validate_transition. change (match _ with None => true | Some _ => _ end)
    with (off_global_map s s').
  destruct (off_global_map s s') eqn:Hg.
  { rewrite (off_global_map_not_allowed sc) by done. run_monad.
    eexists [_]. split; [done|]. by eexists. }
  destruct (is_transition_allowed sc s s'); run_monad.
  - destruct (is_receipt_valid m t rid); run_monad.
    + exists []. unfold add_events. rewrite app_nil_r. by destruct m.
    + eexists [_]. split; [done|]. by eexists.
  - eexists [_]. split; [done|]. by eexists.
Qed.

(** The machine once the task is known to it. *)
Definition init_task (t : string) (sc : ScenarioType) (m : Machine) : Machine :=
  match task_states m !! t with
  | Some _ => m
  | None =>
      {| task_states := <[t := INITIATED]> (task_states m);
         task_scenarios := <[t := sc]> (task_scenarios m);
         task_receipts := match task_receipts m !! t with
                          | None => <[t := ∅]> (task_receipts m)
                          | Some _ => task_receipts m
                          end;
         transitions := transitions m; security_events := security_events m |}
  end.

Definition current (m : Machine) (t : string) : BillingState :=
  default INITIATED (task_states m !! t).

Lemma read_or_init_spec t sc m :
  read_or_init_state t sc m = (Ok (current m t), init_task t sc m).
Proof. unfold read_or_init_state, init_task, current. run_monad. by destruct (_ !! t). Qed.

Lemma receipts_init_task t sc m t' : receipts_of (init_task t sc m) t' = receipts_of m t'.
Proof.
  unfold init_task, receipts_of. destruct (task_states m !! t); [done|]. simpl.
  destruct (task_receipts m !! t) eqn:E; [done|].
  destruct (decide (t = t')) as [<-|]; by simplify_map_eq.
Qed.

Lemma task_states_init_task t sc m :
  task_states (init_task t sc m) = <[t := current m t]> (task_states m).
Proof.
  unfold init_task, current. destruct (task_states m !! t) eqn:E; [|done].
  simpl. symmetry. by apply insert_id.
Qed.

(** Whether a call is accepted. *)
Definition accepts (m : Machine) (t : string) (sc : ScenarioType) (target : BillingState)
    (rid : string) : bool :=
  is_transition_allowed sc (current m t) target && bool_decide (rid ∈ receipts_of m t).

(** What a call to [execute_transition] promises about its outcome [res] and the
    machine [m'] it leaves. *)
Definition execute_post (m : Machine) (t : string) (sc : ScenarioType) (target : BillingState)
    (rid : string) (res : result BillingError StateTransitionRecord) (m' : Machine) : Prop :=
  (forall t', receipts_of m' t' = receipts_of m t')
  /\ if accepts m t sc target rid
     then exists rec,
         res = Ok rec /\ from_state rec = current m t /\ to_state rec = target
         /\ task_id rec = t /\ triggered_by_receipt_id rec = rid
         /\ transitions m' = transitions m ++ [rec]
         /\ task_states m' = <[t := target]> (task_states m)
     else exists ev,
         res = Err (IllegalStateTransitionError t (current m t) target sc)
         /\ transitions m' = transitions m
         /\ task_states m' = <[t := current m t]> (task_states m)
         /\ security_events m' = security_events m ++ [ev] /\ critical_event t ev.

Lemma execute_transition_post uuid now t sc target rid did m :
  let '(res, m') := execute_transition uuid now t sc target rid did m in
  execute_post m t sc target rid res m'.
Proof.
  unfold execute_transition. run_monad. rewrite read_or_init_spec.
  pose proof (validate_transition_spec t sc (current m t) target rid did (init_task t sc m))
    as (evs & -> & Hevs).
  unfold execute_post, accepts. unfold is_receipt_valid in *. rewrite receipts_init_task in *.
  assert (Htr : transitions (init_task t sc m) = transitions m
    /\ security_events (init_task t sc m) = security_events m)
    by (unfold init_task; by destruct (task_states m !! t)).
  destruct Htr as [Htr Hse]. destruct (_ && _); simpl; run_monad.
  - destruct (mem target REQUIRE_IMMEDIATE_ANCHOR); simpl;
      (split; [intros t'; apply receipts_init_task|]); eexists; simpl;
      by rewrite ?Htr, ?task_states_init_task, ?insert_insert_eq.
  - destruct Hevs as (ev & -> & Hc). split; [intros t'; apply receipts_init_task|].
    exists ev. simpl. by rewrite Htr, Hse, task_states_init_task.
Qed.

(** [execute_transition], every branch.  From the current state (or
    [INITIATED] for a new task) it succeeds exactly when the move is allowed for the
    scenario passed and the receipt is registered for the task; then the state
    becomes the target and exactly one record of the move is appended to the
    history.  Otherwise it raises, neither the history nor any task's position
    moves, and exactly one CRITICAL security event for the task is appended.  The
    registered receipts never change. *)
Theorem execute_transition_spec uuid now t sc target rid did m :
  let '(res, m') := execute_transition uuid now t sc target rid did m in
  execute_post m t sc target rid res m'.
Proof. apply execute_transition_post. Qed.

(** ** Invariants of every run *)

(** What one call does to the fields the invariants speak about. *)
Definition effect (o : op) (m m' : Machine) : Prop :=
  (forall t, receipts_of m t ⊆ receipts_of m' t)
  /\ security_events m `prefix_of` security_events m'
  /\ ((transitions m' = transitions m
       /\ forall t, current m' t = current m t)
      \/ exists rec sc,
          transitions m' = transitions m ++ [rec]
          /\ from_state rec = current m (task_id rec)
          /\ is_transition_allowed sc (from_state rec) (to_state rec) = true
          /\ triggered_by_receipt_id rec ∈ receipts_of m (task_id rec)
          /\ forall t, current m' t = if decide (task_id rec = t) then to_state rec else current m t).

Lemma security_events_execute uuid now t sc target rid did m :
  security_events m `prefix_of` security_events (exec (execute_transition uuid now t sc target rid did) m).
Proof.
  unfold execute_transition. run_monad. rewrite read_or_init_spec.
  pose proof (validate_transition_spec t sc (current m t) target rid did (init_task t sc m))
    as (evs & -> & _).
  assert (Hse : security_events (init_task t sc m) = security_events m)
    by (unfold init_task; by destruct (task_states m !! t)).
  destruct (_ && _); simpl; run_monad; [destruct (mem _ _)|]; simpl; rewrite Hse;
    rewrite <- ?app_assoc; by eexists.
Qed.

Lemma current_insert m m' t s :
  task_states m' = <[t := s]> (task_states m) ->
  forall t', current m' t' = if decide (t = t') then s else current m t'.
Proof.
  intros E t'. unfold current. rewrite E. case_decide; subst; by simplify_map_eq.
Qed.

Lemma run_op_effect o m : effect o m (run_op o m).
Proof.
  destruct o as [uuid now t sc target rid did|t sc s target rid did|t rid]; unfold run_op.
  - pose proof (security_events_execute uuid now t sc target rid did m) as Hev.
    pose proof (execute_transition_post uuid now t sc target rid did m) as H.
    unfold exec in *. destruct (execute_transition _ _ _ _ _ _ _ m) as [res m']; simpl in *.
    destruct H as [Hrc H]. split; [intros t'; by rewrite Hrc|]. split; [done|].
    destruct (accepts m t sc target rid) eqn:Ha.
    + right. apply andb_true_iff in Ha as [Ha Hin%bool_decide_eq_true].
      destruct H as (rec & -> & Hf & Ht & Htid & Hr & Htr & Hst). exists rec, sc.
      subst. rewrite Hf. split_and!; try done. by apply current_insert.
    + left. destruct H as (ev & -> & Htr & Hst & _). split; [done|].
      intros t'. rewrite (current_insert _ _ _ _ Hst). by case_decide; subst.
  - unfold exec. pose proof (validate_transition_spec t sc s target rid did m) as (evs & -> & _).
    split; [done|]. split; [by eexists|]. by left.
  - split; [|split; [done|by left]]. intros t'. unfold receipts_of. simpl.
    destruct (decide (t = t')) as [<-|]; simplify_map_eq; set_solver.
Qed.

Lemma replay_app R c h r :
  replay R c (h ++ [r]) =
  match replay R c h with
  | Some s => replay R s [r]
  | None => None
  end.
Proof.
  revert c. induction h as [|r' h IH]; intros c; simpl; [done|].
  destruct (_ && _); [apply IH|done].
Qed.

Lemma replay_mono R R' c h s : R ⊆ R' -> replay R c h = Some s -> replay R' c h = Some s.
Proof.
  intros HR. revert c. induction h as [|r h IH]; intros c; simpl; [done|].
  destruct (bool_decide (from_state r = c)), (some_scenario_allows _ _); simpl; try done.
  case_bool_decide; [|done]. rewrite bool_decide_eq_true_2 by set_solver. apply IH.
Qed.

Lemma some_scenario_allows_intro sc s s' :
  is_transition_allowed sc s s' = true -> some_scenario_allows s s' = true.
Proof.
  intros H. apply existsb_exists. exists sc. split; [|done].
  apply list_elem_of_In, elem_of_enum.
Qed.

Definition replay_inv (m : Machine) : Prop :=
  forall t, replay (receipts_of m t) INITIATED (history t m) = Some (current m t).

Lemma replay_inv_step o m : replay_inv m -> replay_inv (run_op o m).
Proof.
  intros Hinv t. destruct (run_op_effect o m) as (Hrc & _ & [[Htr Hcur]|Hmove]).
  - unfold history. rewrite Htr, Hcur. eapply replay_mono, Hinv. apply Hrc.
  - destruct Hmove as (rec & sc & Htr & Hf & Ha & Hr & Hcur).
    unfold history. rewrite Htr, filter_app, Hcur.
    pose proof (replay_mono _ _ _ _ _ (Hrc t) (Hinv t)) as Hold. unfold history in Hold.
    rewrite filter_cons, filter_nil. case_decide as Ht.
    + rewrite replay_app, Hold. simpl. rewrite <- Ht, Hf.
      rewrite bool_decide_eq_true_2 by done. rewrite Hf in Ha.
      rewrite (some_scenario_allows_intro sc) by done. simpl.
      rewrite bool_decide_eq_true_2; [done|]. by apply Hrc.
    + by rewrite app_nil_r.
Qed.

Lemma reachable_ind (P : Machine -> Prop) :
  P create_state_machine -> (forall o m, P m -> P (run_op o m)) ->
  forall m, reachable_machine m -> P m.
Proof.
  intros H0 Hs. apply (rtc_ind_r P); [done|]. intros m m' _ Hst HP. inv Hst. auto.
Qed.

(** C3. The audit history is the state.  In every run, whatever calls were made
    in whatever interleaving of tasks, replaying a task's recorded moves from
    [INITIATED] -- each record starting where the last ended, each legal for some
    scenario, each citing a receipt registered for that task -- succeeds and ends
    in the state the machine holds for it. *)
Theorem billing_history_replays (m : Machine) (t : string) :
  reachable_machine m ->
  replay (receipts_of m t) INITIATED (history t m) = Some (current m t).
Proof.
  intros Hr. apply (reachable_ind replay_inv); [done|apply replay_inv_step|done].
Qed.

Lemma billing_history_replays_witness :
  let m := run_ops [OpRegister "t" "r";
                    OpExecute "u" 1 "t" S1_DELEGATION INTENT_RECEIVED "r" "did"]
             create_state_machine in
  replay (receipts_of m "t") INITIATED (history "t" m) = Some INTENT_RECEIVED.
Proof.
  refine (billing_history_replays _ "t" _).
  eapply rtc_l; [apply (mstep_op (OpRegister "t" "r"))|].
  eapply rtc_l; [apply (mstep_op (OpExecute "u" 1 "t" S1_DELEGATION INTENT_RECEIVED "r" "did"))|].
  apply rtc_refl.
Defined.

Lemma settled_no_moves sc s : is_transition_allowed sc SETTLED s = false.
Proof.
  revert s. revert sc.
  assert (H : forallb (fun sc => forallb (fun s => negb (is_transition_allowed sc SETTLED s))
    (enum BillingState)) (enum ScenarioType) = true) by (vm_compute; reflexivity).
  intros sc s. pose proof (finite_forallb _ (finite_forallb _ H sc) s) as Hn.
  by apply negb_true_iff in Hn.
Qed.

(** The history only grows and a settled task is final: along any run from
    any machine, the recorded transitions and security events are extended at the
    end and never edited, and a task in [SETTLED] stays [SETTLED] with its history
    frozen. *)
Theorem billing_append_only_settled_final (m m' : Machine) :
  rtc mstep m m' ->
  transitions m `prefix_of` transitions m'
  /\ security_events m `prefix_of` security_events m'
  /\ forall t, task_states m !! t = Some SETTLED ->
       current m' t = SETTLED /\ history t m' = history t m.
Proof.
  apply (rtc_ind_r (fun m' => transitions m `prefix_of` transitions m'
    /\ security_events m `prefix_of` security_events m'
    /\ forall t, task_states m !! t = Some SETTLED ->
         current m' t = SETTLED /\ history t m' = history t m)).
  { split_and!; try done. intros t E. unfold current. by rewrite E. }
  intros m1 m2 _ Hst (Htr & Hse & Hset). inv Hst as [o].
  destruct (run_op_effect o m1) as (_ & Hse' & [[Ht Hc]|(rec & sc & Ht & Hf & Ha & _ & Hc)]).
  - rewrite Ht. split_and!; [done|by etrans|]. intros t E.
    unfold history. rewrite Hc, Ht. by apply Hset.
  - rewrite Ht. split_and!; [by apply prefix_app_r|by etrans|]. intros t E.
    destruct (Hset t E) as [Hcur Hh]. rewrite Hc.
    case_decide as Hd; [exfalso; subst; rewrite Hf, Hcur, settled_no_moves in Ha; done|].
    split; [done|]. rewrite <- Hh. unfold history. rewrite Ht, filter_app.
    rewrite filter_cons_False, filter_nil by done. apply app_nil_r.
Qed.

Lemma billing_append_only_settled_final_witness :
  transitions create_state_machine
  `prefix_of` transitions (run_op (OpRegister "t" "r") create_state_machine).
Proof.
  apply (billing_append_only_settled_final create_state_machine
    (run_op (OpRegister "t" "r") create_state_machine)).
  apply rtc_once, mstep_op.
Defined.

(** ** Refinement of the abstract lifecycle *)

(** A move legal under some scenario. *)
Definition any_step (s s' : BillingState) : Prop := some_scenario_allows s s' = true.

Definition executes (m : Machine) (u : string) (now : Z) (t : string) (sc : ScenarioType) (s' : BillingState) (rid did : string) : bool :=
  is_ok (outcome (execute_transition u now t sc s' rid did) m).

Lemma executes_moves m u now t sc s' rid did :
  (executes m u now t sc s' rid did = true <-> scenario_step sc (current m t) s' /\ rid ∈ receipts_of m t) /\
  forall x, current (run_op (OpExecute u now t sc s' rid did) m) x =
    if decide (t = x) then (if executes m u now t sc s' rid did then s' else current m t) else current m x.
Proof.
  pose proof (execute_transition_post u now t sc s' rid did m) as H. unfold executes, outcome, run_op, exec.
  destruct (execute_transition _ _ _ _ _ _ _ m) as [res m']. destruct H as [_ H]. unfold accepts in H.
  destruct (_ && _) eqn:Ha; cbn [fst snd].
  - destruct H as (rec & -> & _ & _ & _ & _ & _ & Hst). apply andb_true_iff in Ha as [H1 H2%bool_decide_eq_true].
    split; [done|]. by apply current_insert.
  - destruct H as (ev & -> & _ & Hst & _). split; [|by apply current_insert]. split; [done|]. intros [H1 H2].
    rewrite H1, bool_decide_eq_true_2 in Ha by done. done.
Qed.

(** C19. The machine takes exactly the steps of the abstract lifecycle.  A call of
    [execute_transition] succeeds iff the move from the held state is legal under the scenario
    of the call and the receipt is registered for the task; then the task alone moves, to the
    state asked for, and a call that fails moves no task.  The other calls move no task.  And
    every legal move can be made: from any machine, after a receipt is registered, some call
    moves the task to [s'] iff [s'] is a legal step from the held state under some scenario. *)
Theorem billing_machine_refines_lifecycle (m : Machine) :
  (forall o, match o with
    | OpExecute u now t sc s' rid did =>
        (executes m u now t sc s' rid did = true <-> scenario_step sc (current m t) s' /\ rid ∈ receipts_of m t) /\
        forall x, current (run_op o m) x =
          if decide (t = x) then (if executes m u now t sc s' rid did then s' else current m t) else current m x
    | _ => forall x, current (run_op o m) x = current m x
    end) /\
  (forall t s', any_step (current m t) s' <->
     exists u now sc rid did, let m1 := run_op (OpRegister t rid) m in
       executes m1 u now t sc s' rid did = true /\ current (run_op (OpExecute u now t sc s' rid did) m1) t = s').
Proof.
  split.
  - intros [u now t sc s' rid did|t sc s s' rid did|t rid]; [apply executes_moves| |done].
    intros x. unfold run_op, exec. destruct (validate_transition_spec t sc s s' rid did m) as (evs & -> & _). done.
  - intros t s'. split.
    + intros (sc & _ & Ha)%existsb_exists. exists "u"%string, 0, sc, "r"%string, "did"%string.
      set (m1 := run_op (OpRegister t "r") m). cbv zeta.
      destruct (executes_moves m1 "u" 0 t sc s' "r" "did") as [H1 H2].
      assert (He : executes m1 "u" 0 t sc s' "r" "did" = true).
      { apply H1. split; [exact Ha|]. unfold m1, receipts_of. cbn. rewrite lookup_insert_eq. set_solver. }
      split; [done|]. by rewrite H2, decide_True, He.
    + intros (u & now & sc & rid & did & He & _). cbv zeta in He. apply (proj1 (executes_moves _ _ _ _ _ _ _ _)) in He as [Ha _].
      apply existsb_exists. exists sc. split; [|exact Ha]. apply list_elem_of_In, elem_of_enum.
Qed.

(** The scenario is not pinned: [execute_transition] checks the scenario of
    the call, not the one recorded for the task, so a task registered as
    [S1_DELEGATION] can be moved to [BID_EVALUATING], a state no S1 path reaches. *)
Theorem billing_scenario_not_pinned :
  exists ops,
    let m := run_ops ops create_state_machine in
    get_scenario m "t" = Some S1_DELEGATION
    /\ get_current_state m "t" = Some BID_EVALUATING
    /\ ~ rtc (scenario_step S1_DELEGATION) INITIATED BID_EVALUATING.
Proof.
  exists [OpRegister "t" "r";
          OpExecute "u1" 1 "t" S1_DELEGATION INTENT_RECEIVED "r" "did";
          OpExecute "u2" 2 "t" S1_DELEGATION INTENT_VALIDATED "r" "did";
          OpExecute "u3" 3 "t" S2_BIDDING BID_EVALUATING "r" "did"].
  split; [vm_compute; reflexivity|]. split; [vm_compute; reflexivity|].
  intros H%reachable_complete%mem_true. vm_compute in H. done.
Qed.
