(* ===== verification/BillingScenarios.v ===== *)
(** * Billing: the scenario registry

    [packages/karma_billing/scenarios]: [ScenarioConfig], [ScenarioRegistry] and the
    five configurations registered when the package is imported.  The registry is
    compared with the tables the state machine enforces. *)
From S2P Require Import Prelude BillingStates.

(** ** Registry *)

Record AnchoringOverrides := {
  anchoring_threshold : Z;
  mandatory_anchor_states : list string
}.

Record ScenarioConfig := {
  scenario_type : ScenarioType;
  receipt_types : list ReceiptType;
  state_path : list BillingState;
  allowed_transitions : list (BillingState * BillingState);
  anchoring_policy_overrides : option AnchoringOverrides
}.

Definition start_state (c : ScenarioConfig) : BillingState :=
  match state_path c with s :: _ => s | [] => INITIATED end.

Definition terminal_state (c : ScenarioConfig) : BillingState := default SETTLED (last (state_path c)).

Inductive RegistryError :=
| AlreadyRegistered (scenario : ScenarioType)
| NotRegistered (scenario : ScenarioType).

Definition is_registered (scenario : ScenarioType)
    (configs : list (ScenarioType * ScenarioConfig)) : bool :=
  match dict_get scenario configs with Some _ => true | None => false end.

Definition register (scenario : ScenarioType) (config : ScenarioConfig)
    : M (list (ScenarioType * ScenarioConfig)) RegistryError unit :=
  do! present := m_get (is_registered scenario) in
  if present then m_raise (AlreadyRegistered scenario)
  else m_put (dict_set scenario config).

Definition get_config (scenario : ScenarioType) (configs : list (ScenarioType * ScenarioConfig))
    : result RegistryError ScenarioConfig :=
  match dict_get scenario configs with
  | None => Err (NotRegistered scenario)
  | Some c => Ok c
  end.

Definition list_all (configs : list (ScenarioType * ScenarioConfig)) : list ScenarioConfig :=
  dict_values configs.

Definition registry_count (configs : list (ScenarioType * ScenarioConfig)) : nat := length configs.

(** ** The registered scenarios *)

Definition S1_RECEIPT_TYPES : list ReceiptType :=
  [S1_INTENT_CREATED; S1_INTENT_SIGNED; S1_DELEGATION_ACCEPTED; S1_TASK_STARTED;
   S1_STEP_EXECUTED; S1_TASK_COMPLETED; S1_INVOICE_GENERATED; S1_PAYMENT_AUTHORIZED;
   S1_PAYMENT_SETTLED; S1_RECEIPT_FINAL].

Definition S1_STATE_PATH : list BillingState :=
  [INITIATED; INTENT_RECEIVED; INTENT_VALIDATED; DELEGATION_ACCEPTED; TASK_STARTED;
   STEP_IN_PROGRESS; STEP_COMPLETED; TASK_COMPLETED; INVOICE_GENERATED; PAYMENT_AUTHORIZED;
   PAYMENT_PENDING; PAYMENT_SETTLING; SETTLED].

Definition S1_ALLOWED_TRANSITIONS : list (BillingState * BillingState) :=
  [(INITIATED, INTENT_RECEIVED); (INTENT_RECEIVED, INTENT_VALIDATED);
   (INTENT_VALIDATED, DELEGATION_ACCEPTED); (DELEGATION_ACCEPTED, TASK_STARTED);
   (TASK_STARTED, STEP_IN_PROGRESS); (STEP_IN_PROGRESS, STEP_COMPLETED);
   (STEP_COMPLETED, STEP_IN_PROGRESS); (STEP_IN_PROGRESS, TASK_COMPLETED);
   (STEP_COMPLETED, TASK_COMPLETED); (TASK_COMPLETED, INVOICE_GENERATED);
   (INVOICE_GENERATED, PAYMENT_AUTHORIZED); (PAYMENT_AUTHORIZED, PAYMENT_PENDING);
   (PAYMENT_PENDING, PAYMENT_SETTLING); (PAYMENT_SETTLING, SETTLED)].

Definition S1_RECEIPT_TO_STATE_MAP : list (ReceiptType * BillingState) :=
  [(S1_INTENT_CREATED, INTENT_RECEIVED); (S1_INTENT_SIGNED, INTENT_VALIDATED);
   (S1_DELEGATION_ACCEPTED, DELEGATION_ACCEPTED); (S1_TASK_STARTED, TASK_STARTED);
   (S1_STEP_EXECUTED, STEP_IN_PROGRESS); (S1_TASK_COMPLETED, TASK_COMPLETED);
   (S1_INVOICE_GENERATED, INVOICE_GENERATED); (S1_PAYMENT_AUTHORIZED, PAYMENT_AUTHORIZED);
   (S1_PAYMENT_SETTLED, PAYMENT_SETTLING); (S1_RECEIPT_FINAL, SETTLED)].

Definition S1_ANCHORING_POLICY : AnchoringOverrides :=
  {| anchoring_threshold := 3;
     mandatory_anchor_states :=
       [BillingState_value INTENT_VALIDATED; BillingState_value TASK_COMPLETED;
        BillingState_value INVOICE_GENERATED; BillingState_value SETTLED] |}.

Definition S1_config : ScenarioConfig :=
  {| scenario_type := S1_DELEGATION;
     receipt_types := S1_RECEIPT_TYPES;
     state_path := S1_STATE_PATH;
     allowed_transitions := S1_ALLOWED_TRANSITIONS;
     anchoring_policy_overrides := Some S1_ANCHORING_POLICY |}.

Definition S1_register : M (list (ScenarioType * ScenarioConfig)) RegistryError unit :=
  register S1_DELEGATION S1_config.

Definition S2_RECEIPT_TYPES : list ReceiptType :=
  [S2_BID_OPENED; S2_BID_PLACED; S2_BID_EVALUATED; S2_BID_ACCEPTED; S2_TASK_EXECUTED;
   S2_INVOICE_GENERATED; S2_PAYMENT_SETTLED].

Definition S2_STATE_PATH : list BillingState :=
  [INITIATED; INTENT_RECEIVED; INTENT_VALIDATED; BID_EVALUATING; BID_ACCEPTED; TASK_STARTED;
   STEP_IN_PROGRESS; STEP_COMPLETED; TASK_COMPLETED; INVOICE_GENERATED; PAYMENT_AUTHORIZED;
   PAYMENT_SETTLING; SETTLED].

Definition S2_ALLOWED_TRANSITIONS : list (BillingState * BillingState) :=
  [(INITIATED, INTENT_RECEIVED); (INTENT_RECEIVED, INTENT_VALIDATED);
   (INTENT_VALIDATED, BID_EVALUATING); (BID_EVALUATING, BID_ACCEPTED);
   (BID_EVALUATING, INVOICE_GENERATED); (BID_ACCEPTED, TASK_STARTED);
   (TASK_STARTED, STEP_IN_PROGRESS); (STEP_IN_PROGRESS, STEP_COMPLETED);
   (STEP_COMPLETED, TASK_COMPLETED); (TASK_COMPLETED, INVOICE_GENERATED);
   (INVOICE_GENERATED, PAYMENT_AUTHORIZED); (PAYMENT_AUTHORIZED, PAYMENT_SETTLING);
   (PAYMENT_SETTLING, SETTLED)].

Definition S2_RECEIPT_TO_STATE_MAP : list (ReceiptType * BillingState) :=
  [(S2_BID_OPENED, BID_EVALUATING); (S2_BID_PLACED, BID_EVALUATING);
   (S2_BID_EVALUATED, BID_EVALUATING); (S2_BID_ACCEPTED, BID_ACCEPTED);
   (S2_TASK_EXECUTED, TASK_COMPLETED); (S2_INVOICE_GENERATED, INVOICE_GENERATED);
   (S2_PAYMENT_SETTLED, SETTLED)].

Definition S2_ANCHORING_POLICY : AnchoringOverrides :=
  {| anchoring_threshold := 5;
     mandatory_anchor_states :=
       [BillingState_value BID_ACCEPTED; BillingState_value INVOICE_GENERATED;
        BillingState_value SETTLED] |}.

Definition S2_config : ScenarioConfig :=
  {| scenario_type := S2_BIDDING;
     receipt_types := S2_RECEIPT_TYPES;
     state_path := S2_STATE_PATH;
     allowed_transitions := S2_ALLOWED_TRANSITIONS;
     anchoring_policy_overrides := Some S2_ANCHORING_POLICY |}.

Definition S2_register : M (list (ScenarioType * ScenarioConfig)) RegistryError unit :=
  register S2_BIDDING S2_config.

Definition S3_RECEIPT_TYPES : list ReceiptType :=
  [S3_PIPELINE_CREATED; S3_STAGE_STARTED; S3_STAGE_COMPLETED; S3_PIPELINE_COMPLETED;
   S3_INVOICE_AGGREGATED; S3_PAYMENT_SETTLED].

Definition S3_STATE_PATH : list BillingState :=
  [INITIATED; INTENT_RECEIVED; INTENT_VALIDATED; PIPELINE_STAGING; STEP_IN_PROGRESS;
   STEP_COMPLETED; TASK_COMPLETED; INVOICE_GENERATED; PAYMENT_AUTHORIZED; PAYMENT_SETTLING;
   SETTLED].

Definition S3_ALLOWED_TRANSITIONS : list (BillingState * BillingState) :=
  [(INITIATED, INTENT_RECEIVED); (INTENT_RECEIVED, INTENT_VALIDATED);
   (INTENT_VALIDATED, PIPELINE_STAGING); (PIPELINE_STAGING, STEP_IN_PROGRESS);
   (PIPELINE_STAGING, TASK_COMPLETED); (STEP_IN_PROGRESS, STEP_COMPLETED);
   (STEP_COMPLETED, STEP_IN_PROGRESS); (STEP_COMPLETED, TASK_COMPLETED);
   (TASK_COMPLETED, INVOICE_GENERATED); (INVOICE_GENERATED, PAYMENT_AUTHORIZED);
   (PAYMENT_AUTHORIZED, PAYMENT_SETTLING); (PAYMENT_SETTLING, SETTLED)].

Definition S3_RECEIPT_TO_STATE_MAP : list (ReceiptType * BillingState) :=
  [(S3_PIPELINE_CREATED, PIPELINE_STAGING); (S3_STAGE_STARTED, STEP_IN_PROGRESS);
   (S3_STAGE_COMPLETED, STEP_COMPLETED); (S3_PIPELINE_COMPLETED, TASK_COMPLETED);
   (S3_INVOICE_AGGREGATED, INVOICE_GENERATED); (S3_PAYMENT_SETTLED, SETTLED)].

Definition S3_ANCHORING_POLICY : AnchoringOverrides :=
  {| anchoring_threshold := 5;
     mandatory_anchor_states :=
       [BillingState_value TASK_COMPLETED; BillingState_value INVOICE_GENERATED;
        BillingState_value SETTLED] |}.

Definition S3_config : ScenarioConfig :=
  {| scenario_type := S3_PIPELINE;
     receipt_types := S3_RECEIPT_TYPES;
     state_path := S3_STATE_PATH;
     allowed_transitions := S3_ALLOWED_TRANSITIONS;
     anchoring_policy_overrides := Some S3_ANCHORING_POLICY |}.

Definition S3_register : M (list (ScenarioType * ScenarioConfig)) RegistryError unit :=
  register S3_PIPELINE S3_config.

Definition S5_RECEIPT_TYPES : list ReceiptType :=
  [S5_DATA_REQUESTED; S5_DATA_DELIVERED; S5_DATA_VERIFIED; S5_ROYALTY_CALCULATED;
   S5_PAYMENT_SETTLED].

Definition S5_STATE_PATH : list BillingState :=
  [INITIATED; INTENT_RECEIVED; INTENT_VALIDATED; DELEGATION_ACCEPTED; TASK_STARTED;
   TASK_COMPLETED; INVOICE_GENERATED; PAYMENT_AUTHORIZED; PAYMENT_SETTLING; SETTLED].

Definition S5_ALLOWED_TRANSITIONS : list (BillingState * BillingState) :=
  [(INITIATED, INTENT_RECEIVED); (INTENT_RECEIVED, INTENT_VALIDATED);
   (INTENT_VALIDATED, DELEGATION_ACCEPTED); (DELEGATION_ACCEPTED, TASK_STARTED);
   (TASK_STARTED, TASK_COMPLETED); (TASK_COMPLETED, INVOICE_GENERATED);
   (INVOICE_GENERATED, PAYMENT_AUTHORIZED); (PAYMENT_AUTHORIZED, PAYMENT_SETTLING);
   (PAYMENT_SETTLING, SETTLED)].

Definition S5_RECEIPT_TO_STATE_MAP : list (ReceiptType * BillingState) :=
  [(S5_DATA_REQUESTED, INTENT_VALIDATED); (S5_DATA_DELIVERED, TASK_COMPLETED);
   (S5_DATA_VERIFIED, TASK_COMPLETED); (S5_ROYALTY_CALCULATED, INVOICE_GENERATED);
   (S5_PAYMENT_SETTLED, SETTLED)].

Definition S5_ANCHORING_POLICY : AnchoringOverrides :=
  {| anchoring_threshold := 5;
     mandatory_anchor_states :=
       [BillingState_value INVOICE_GENERATED; BillingState_value SETTLED] |}.

Definition S5_config : ScenarioConfig :=
  {| scenario_type := S5_DATA;
     receipt_types := S5_RECEIPT_TYPES;
     state_path := S5_STATE_PATH;
     allowed_transitions := S5_ALLOWED_TRANSITIONS;
     anchoring_policy_overrides := Some S5_ANCHORING_POLICY |}.

Definition S5_register : M (list (ScenarioType * ScenarioConfig)) RegistryError unit :=
  register S5_DATA S5_config.

Definition S8_RECEIPT_TYPES : list ReceiptType :=
  [S8_DISPUTE_FILED; S8_EVIDENCE_SUBMITTED; S8_ARBITRATION_STARTED; S8_RESOLUTION_PROPOSED;
   S8_RESOLUTION_ACCEPTED; S8_REFUND_ISSUED].

Definition S8_STATE_PATH : list BillingState :=
  [INITIATED; INTENT_RECEIVED; INTENT_VALIDATED; DELEGATION_ACCEPTED; TASK_STARTED;
   TASK_COMPLETED; INVOICE_GENERATED; PAYMENT_AUTHORIZED; PAYMENT_SETTLING; REFUND_PENDING;
   SETTLED].

Definition S8_ALLOWED_TRANSITIONS : list (BillingState * BillingState) :=
  [(INITIATED, INTENT_RECEIVED); (INTENT_RECEIVED, INTENT_VALIDATED);
   (INTENT_VALIDATED, DELEGATION_ACCEPTED); (DELEGATION_ACCEPTED, TASK_STARTED);
   (TASK_STARTED, TASK_COMPLETED); (TASK_COMPLETED, INVOICE_GENERATED);
   (INVOICE_GENERATED, PAYMENT_AUTHORIZED); (PAYMENT_AUTHORIZED, PAYMENT_SETTLING);
   (PAYMENT_SETTLING, REFUND_PENDING); (REFUND_PENDING, SETTLED);
   (PAYMENT_SETTLING, SETTLED)].

Definition S8_RECEIPT_TO_STATE_MAP : list (ReceiptType * BillingState) :=
  [(S8_DISPUTE_FILED, PAYMENT_SETTLING); (S8_EVIDENCE_SUBMITTED, PAYMENT_SETTLING);
   (S8_ARBITRATION_STARTED, PAYMENT_SETTLING); (S8_RESOLUTION_PROPOSED, REFUND_PENDING);
   (S8_RESOLUTION_ACCEPTED, REFUND_PENDING); (S8_REFUND_ISSUED, SETTLED)].

Definition S8_ANCHORING_POLICY : AnchoringOverrides :=
  {| anchoring_threshold := 2;
     mandatory_anchor_states :=
       [BillingState_value REFUND_PENDING; BillingState_value SETTLED] |}.

Definition S8_config : ScenarioConfig :=
  {| scenario_type := S8_DISPUTE;
     receipt_types := S8_RECEIPT_TYPES;
     state_path := S8_STATE_PATH;
     allowed_transitions := S8_ALLOWED_TRANSITIONS;
     anchoring_policy_overrides := Some S8_ANCHORING_POLICY |}.

Definition S8_register : M (list (ScenarioType * ScenarioConfig)) RegistryError unit :=
  register S8_DISPUTE S8_config.

(** Importing the package: the five [register()] calls in order. *)
Definition import_scenarios : M (list (ScenarioType * ScenarioConfig)) RegistryError unit :=
  seq! S1_register in seq! S2_register in seq! S3_register in seq! S5_register in
  S8_register.

Definition imported : list (ScenarioType * ScenarioConfig) := exec import_scenarios [].

(** ** Properties *)

(** Consecutive pairs of a path. *)
Fixpoint path_pairs (p : list BillingState) : list (BillingState * BillingState) :=
  match p with
  | s :: ((s' :: _) as p') => (s, s') :: path_pairs p'
  | _ => []
  end.

Definition config_sound (c : ScenarioConfig) : bool :=
  bool_decide (start_state c = INITIATED) && bool_decide (terminal_state c = SETTLED)
  && forallb (fun '(s, s') => is_transition_allowed (scenario_type c) s s') (path_pairs (state_path c))
  && forallb (fun '(s, s') => mem s' (get_legal_targets s)) (allowed_transitions c)
  && forallb (fun e => mem e (allowed_transitions c)) (path_pairs (state_path c)).

(** The registry operations: registering a new scenario succeeds, makes it
    retrievable and leaves the others as they were; registering it again raises and
    changes nothing; looking up an unregistered one raises. *)
Theorem scenario_registry_spec (sc : ScenarioType) (c : ScenarioConfig)
    (reg : list (ScenarioType * ScenarioConfig)) :
  let '(res, reg') := register sc c reg in
  match get_config sc reg with
  | Ok _ => res = Err (AlreadyRegistered sc) /\ reg' = reg
  | Err e => e = NotRegistered sc /\ res = Ok tt
             /\ get_config sc reg' = Ok c
             /\ (forall sc', sc' <> sc -> get_config sc' reg' = get_config sc' reg)
             /\ list_all reg' = list_all reg ++ [c]
             /\ registry_count reg' = S (registry_count reg)
  end.
Proof.
  unfold register, is_registered, get_config. run_monad.
  destruct (dict_get sc reg) eqn:E; run_monad; [done|].
  rewrite dict_get_set_eq. split_and!; try done.
  - intros sc' Hne. by rewrite dict_get_set_ne.
  - unfold list_all, dict_values. by rewrite dict_set_new, fmap_app.
  - unfold registry_count. rewrite dict_set_new, length_app by done. simpl. lia.
Qed.

(** Every registered scenario can run on the state machine: the import
    succeeds with the five scenarios, each one's declared path goes from
    [INITIATED] to [SETTLED], every step of it is accepted by the state machine's
    tables and declared as allowed, and every declared transition is on the global
    map. *)
Theorem registered_scenarios_sound :
  outcome import_scenarios [] = Ok tt
  /\ dict_keys imported = [S1_DELEGATION; S2_BIDDING; S3_PIPELINE; S5_DATA; S8_DISPUTE]
  /\ forall c, c ∈ list_all imported ->
       config_sound c = true /\ dict_get (scenario_type c) imported = Some c.
Proof.
  split; [vm_compute; reflexivity|]. split; [vm_compute; reflexivity|].
  assert (H : Forall (fun c => config_sound c = true
    /\ dict_get (scenario_type c) imported = Some c) (list_all imported)).
  { repeat constructor; vm_compute; reflexivity. }
  rewrite Forall_forall in H. apply H.
Qed.

(** The S3 registration promises two moves the state machine refuses: the
    pipeline cannot loop from a completed stage to the next one, and cannot go from
    staging to completion, although [S3_ALLOWED_TRANSITIONS] lists both. *)
Theorem s3_declared_moves_refused :
  filter (fun e => negb (is_transition_allowed S3_PIPELINE e.1 e.2)) S3_ALLOWED_TRANSITIONS
  = [(PIPELINE_STAGING, TASK_COMPLETED); (STEP_COMPLETED, STEP_IN_PROGRESS)]
  /\ ~ rtc (scenario_step S3_PIPELINE) STEP_COMPLETED STEP_IN_PROGRESS.
Proof.
  split; [vm_compute; reflexivity|]. intros H.
  assert (Hinv : forall s, rtc (scenario_step S3_PIPELINE) STEP_COMPLETED s ->
    mem s [STEP_COMPLETED; TASK_COMPLETED; INVOICE_GENERATED; PAYMENT_AUTHORIZED;
           PAYMENT_SETTLING; SETTLED] = true).
  { apply rtc_ind_r; [done|]. intros s s' _ Hst. unfold scenario_step in Hst.
    destruct s; try done; destruct s'; try done. }
  by apply Hinv in H.
Qed.
