(* ===== verification/BillingBridge.v ===== *)
(** * Anchoring of billing receipts

    [packages/karma_billing/bridge.py]: the in-memory receipt store, the anchoring
    policy and [AnchoringBridge].  The abstract class [ReceiptSyncService] is the class
    [SyncService]; [SyncLaws] is what the bridge's theorems need of an implementation,
    and [SimpleMemReceiptSync] is an instance.  The anchor client is the parameter
    [append_batch]; the batches it accepts are kept in a log.  A call of the bridge runs
    to its end before the next one starts, except where a theorem says otherwise. *)
From S2P Require Import Prelude PyFloat FloatFacts BillingStates.
From stdpp Require Import pretty.
Open Scope Z_scope.

(** A receipt dictionary: its ["id"], when it has one, and the rest. *)
Record BReceipt := {
  r_id : option string;
  r_body : string
}.

Record AnchoringPolicy := {
  anchor_every_n_receipts : Z;
  anchor_every_n_seconds : Z;
  anchor_on_state_change : bool;
  anchor_on_milestone : bool;
  force_anchor_states : list string;
  max_batch_size : Z;
  min_batch_size : Z
}.
Definition default_policy : AnchoringPolicy :=
  {| anchor_every_n_receipts := 3; anchor_every_n_seconds := 30; anchor_on_state_change := true;
     anchor_on_milestone := true;
     force_anchor_states := ["funded"; "delivered"; "verified"; "settled"; "disputed"; "frozen"];
     max_batch_size := 10; min_batch_size := 1 |}%string.

Record AnchoringState := {
  unanchored_count : Z;
  last_anchor_time : float;
  last_state : string;
  total_anchored : Z;
  last_result : option string
}.
Definition fresh_state : AnchoringState :=
  {| unanchored_count := 0; last_anchor_time := fzero; last_state := ""; total_anchored := 0;
     last_result := None |}.

(** ** The receipt service *)

Class SyncService (S : Type) := {
  get_unanchored_receipts : string -> Z -> S -> list BReceipt;
  get_task_state : string -> S -> string;
  mark_anchored : string -> list string -> S -> S
}.

(** [l[:n]]. *)
Definition py_slice {A} (n : Z) (l : list A) : list A :=
  if 0 <=? n then take (Z.to_nat n) l else take (length l - Z.to_nat (- n))%nat l.

Definition id_in (ids : list string) (r : BReceipt) : bool :=
  match r_id r with Some i => bool_decide (i ∈ ids) | None => false end.

(** What an implementation promises: a list of pending receipts, each with an id of its
    own, of which [get_unanchored_receipts] returns the first ones, and from which
    [mark_anchored] removes those with the given ids. *)
Class SyncLaws (S : Type) `{SyncService S} := {
  sync_wf : S -> Prop;
  pending : string -> S -> list BReceipt;
  pending_ids : forall t s, sync_wf s -> NoDup (r_id <$> pending t s) /\ Forall (fun r => is_Some (r_id r)) (pending t s);
  get_is_prefix : forall t n s, sync_wf s -> get_unanchored_receipts t n s = py_slice n (pending t s);
  mark_removes : forall t t' ids s, sync_wf s ->
    pending t' (mark_anchored t ids s) =
    if decide (t' = t) then filter (fun r => id_in ids r = false) (pending t' s) else pending t' s;
  mark_wf : forall t ids s, sync_wf s -> sync_wf (mark_anchored t ids s)
}.

(** *** [SimpleMemReceiptSync] *)

Record MemSync := {
  m_receipts : gmap string (list BReceipt);
  m_states : gmap string string;
  m_anchored : gmap string (list string)
}.
Definition empty_sync : MemSync := {| m_receipts := ∅; m_states := ∅; m_anchored := ∅ |}.

Definition add_receipt (t : string) (r : BReceipt) (s : MemSync) : MemSync :=
  {| m_receipts := <[t := default [] (m_receipts s !! t) ++ [r]]> (m_receipts s);
     m_states := m_states s; m_anchored := m_anchored s |}.
Definition set_state (t st : string) (s : MemSync) : MemSync :=
  {| m_receipts := m_receipts s; m_states := <[t := st]> (m_states s); m_anchored := m_anchored s |}.

(** The key under which a receipt is looked up: its id, or its position. *)
Definition receipt_key (i : nat) (r : BReceipt) : string :=
  match r_id r with Some x => x | None => "rec-" +:+ pretty i end.

Fixpoint not_anchored (i : nat) (anchored : list string) (l : list BReceipt) : list BReceipt :=
  match l with
  | [] => []
  | r :: l' => if bool_decide (receipt_key i r ∈ anchored) then not_anchored (S i) anchored l'
               else r :: not_anchored (S i) anchored l'
  end.
Definition mem_pending (t : string) (s : MemSync) : list BReceipt :=
  not_anchored 0 (default [] (m_anchored s !! t)) (default [] (m_receipts s !! t)).
Definition mem_get_unanchored (t : string) (limit : Z) (s : MemSync) : list BReceipt :=
  py_slice limit (mem_pending t s).
Definition mem_get_task_state (t : string) (s : MemSync) : string := default "unknown"%string (m_states s !! t).
Definition mem_mark_anchored (t : string) (ids : list string) (s : MemSync) : MemSync :=
  {| m_receipts := m_receipts s; m_states := m_states s;
     m_anchored := <[t := default [] (m_anchored s !! t) ++ ids]> (m_anchored s) |}.

#[export] Instance MemSync_service : SyncService MemSync := {
  get_unanchored_receipts := mem_get_unanchored;
  get_task_state := mem_get_task_state;
  mark_anchored := mem_mark_anchored
}.

(** ** The bridge *)

Section Bridge.
Context {S : Type} `{SyncService S} (policy : AnchoringPolicy)
        (append_batch : list BReceipt -> result Exc string).

Record Bridge := {
  b_sync : S;
  b_states : gmap string AnchoringState;
  b_log : list (string * list BReceipt)
}.
Abbreviation BM := (M Bridge Exc).

Definition with_state (t : string) (st : AnchoringState) (b : Bridge) : Bridge :=
  {| b_sync := b_sync b; b_states := <[t := st]> (b_states b); b_log := b_log b |}.

(** [r.get("id", "")]. *)
Definition marked_id (r : BReceipt) : string := default ""%string (r_id r).

Definition do_anchor (now : float) (t : string) (receipts : list BReceipt) : BM (option string) :=
  match receipts with
  | [] => m_ret None
  | _ =>
      do! res := (fun b => match append_batch receipts with
                           | Ok x => (Ok x, {| b_sync := b_sync b; b_states := b_states b;
                                               b_log := b_log b ++ [(t, receipts)] |})
                           | Err e => (Err e, b)
                           end) in
      do! st := m_get (fun b => default fresh_state (b_states b !! t)) in
      seq! m_put (fun b => {| b_sync := mark_anchored t (marked_id <$> receipts) (b_sync b);
                              b_states := b_states b; b_log := b_log b |}) in
      seq! m_put (with_state t
             {| unanchored_count := 0; last_anchor_time := now; last_state := last_state st;
                total_anchored := total_anchored st + Z.of_nat (length receipts);
                last_result := Some res |}) in
      m_ret (Some res)
  end.

Definition unanchored (t : string) : BM (list BReceipt) :=
  m_get (fun b => get_unanchored_receipts t (max_batch_size policy) (b_sync b)).

Definition force_anchor (now : float) (t : string) : BM (option string) :=
  do! receipts := unanchored t in do_anchor now t receipts.

Definition with_check (n : Z) (st : string) (a : AnchoringState) : AnchoringState :=
  {| unanchored_count := n; last_anchor_time := last_anchor_time a; last_state := st;
     total_anchored := total_anchored a; last_result := last_result a |}.

(** The three triggers that are tested in order after the force states. *)
Definition count_due (n : Z) : bool :=
  (0 <? anchor_every_n_receipts policy) && (anchor_every_n_receipts policy <=? n).
Definition time_due (now : float) (a : AnchoringState) (n : Z) : bool :=
  (0 <? anchor_every_n_seconds policy) && (last_anchor_time a >? fzero)%float &&
  (now - last_anchor_time a >=? float_of_Z (anchor_every_n_seconds policy))%float &&
  (min_batch_size policy <=? n).

Definition check_and_anchor (now : float) (t : string) : BM (option string) :=
  seq! m_put (fun b => if decide (is_Some (b_states b !! t)) then b else with_state t fresh_state b) in
  do! state := m_get (fun b => default fresh_state (b_states b !! t)) in
  do! current := m_get (fun b => get_task_state t (b_sync b)) in
  let changed := negb (bool_decide (current = last_state state)) in
  if changed && mem current (force_anchor_states policy) then force_anchor now t
  else if anchor_on_milestone policy && changed && mem current (force_anchor_states policy)
  then force_anchor now t
  else
    do! receipts := unanchored t in
    let n := Z.of_nat (length receipts) in
    seq! m_put (with_state t (with_check n current state)) in
    if count_due n then do_anchor now t receipts
    else if time_due now state n then do_anchor now t receipts
    else if anchor_on_state_change policy && changed then do_anchor now t receipts
    else m_ret None.

Definition get_state (t : string) (b : Bridge) : option AnchoringState := b_states b !! t.
End Bridge.
Arguments Bridge : clear implicits.

(** ** The in-memory service keeps the laws *)

Lemma not_anchored_ids i a l : Forall (fun r => is_Some (r_id r)) l ->
  not_anchored i a l = filter (fun r => id_in a r = false) l.
Proof.
  intros Hl. revert i. induction Hl as [|r l [x Hx] Hl IH]; intros i; [done|]. cbn [not_anchored].
  assert (Hid : id_in a r = bool_decide (receipt_key i r ∈ a)) by (unfold id_in, receipt_key; by rewrite Hx).
  rewrite filter_cons, <- Hid, IH. destruct (id_in a r); by case_decide.
Qed.

Lemma id_in_app a b r : id_in (a ++ b) r = id_in a r || id_in b r.
Proof.
  unfold id_in. destruct (r_id r) as [i|]; [|done]. apply eq_true_iff_eq.
  rewrite orb_true_iff, !bool_decide_eq_true. apply elem_of_app.
Qed.

Lemma filter_filter_ids a b (l : list BReceipt) :
  filter (fun r => id_in (a ++ b) r = false) l =
  filter (fun r => id_in b r = false) (filter (fun r => id_in a r = false) l).
Proof.
  rewrite list_filter_filter. apply list_filter_iff. intros r. rewrite id_in_app, orb_false_iff. tauto.
Qed.

(** Every receipt has an id of its own within its task. *)
Definition mem_wf (s : MemSync) : Prop :=
  forall t l, m_receipts s !! t = Some l -> NoDup (r_id <$> l) /\ Forall (fun r => is_Some (r_id r)) l.

Lemma mem_wf_list s t : mem_wf s ->
  NoDup (r_id <$> default [] (m_receipts s !! t)) /\ Forall (fun r => is_Some (r_id r)) (default [] (m_receipts s !! t)).
Proof. intros Hs. destruct (m_receipts s !! t) as [l|] eqn:E; [by apply (Hs t)|cbn; split; constructor]. Qed.

#[export] Instance MemSync_laws : SyncLaws MemSync.
Proof.
  refine {| sync_wf := mem_wf; pending := mem_pending |}.
  - intros t s Hs. destruct (mem_wf_list s t Hs) as [Hn Hf]. unfold mem_pending.
    rewrite not_anchored_ids by done. split.
    + eapply sublist_NoDup; [exact Hn|]. apply fmap_sublist, sublist_filter.
    + apply Forall_forall. intros r [_ Hr]%list_elem_of_filter. by eapply Forall_forall in Hf.
  - done.
  - intros t t' ids s Hs. destruct (mem_wf_list s t' Hs) as [_ Hf]. cbn. unfold mem_pending, mem_mark_anchored. cbn.
    rewrite !not_anchored_ids by done. case_decide as Ht.
    + subst t'. rewrite lookup_insert_eq. cbn. apply filter_filter_ids.
    + by rewrite lookup_insert_ne.
  - done.
Defined.

(** ** Anchoring through the interface *)

(** The receipts of a task in the accepted batches, in order. *)
Definition batches (t : string) (log : list (string * list BReceipt)) : list BReceipt :=
  concat (snd <$> filter (fun e => e.1 = t) log).

Lemma batches_app t log t' l :
  batches t (log ++ [(t', l)]) = batches t log ++ (if decide (t' = t) then l else []).
Proof.
  unfold batches. rewrite filter_app, fmap_app, concat_app, filter_cons. cbn [fst].
  case_decide; cbn; by rewrite ?app_nil_r.
Qed.

Lemma py_slice_prefix {A} n (l : list A) : exists k, py_slice n l = take k l /\ (0 <= n -> k = Z.to_nat n).
Proof. unfold py_slice. destruct (Z.leb_spec 0 n); eexists; split; try done; lia. Qed.

(** Removing the ids of a prefix leaves the rest. *)
Lemma filter_prefix_ids (a b : list BReceipt) :
  NoDup (r_id <$> a ++ b) -> Forall (fun r => is_Some (r_id r)) (a ++ b) ->
  filter (fun r => id_in (marked_id <$> a) r = false) (a ++ b) = b.
Proof.
  intros Hn Hf. rewrite fmap_app in Hn. apply NoDup_app in Hn as (_ & Hd & _).
  assert (Hin : forall r, r ∈ a ++ b -> id_in (marked_id <$> a) r = true <-> r_id r ∈ r_id <$> a).
  { intros r Hr. rewrite Forall_forall in Hf. destruct (Hf r Hr) as [i Hi]. unfold id_in. rewrite Hi, bool_decide_eq_true.
    rewrite !list_elem_of_fmap. split.
    - intros (r' & -> & Hr'). exists r'. split; [|done]. unfold marked_id.
      destruct (Hf r') as [j Hj]; [by apply elem_of_app; left|]. by rewrite Hj.
    - intros (r' & Hi' & Hr'). exists r'. split; [|done]. unfold marked_id. by rewrite <- Hi'. }
  rewrite filter_app, filter_none.
  - apply filter_all. intros r Hr. apply not_true_iff_false. intros Hm.
    apply Hin in Hm; [|by apply elem_of_app; right]. apply (Hd (r_id r)); [done|]. by apply list_elem_of_fmap_2.
  - intros r Hr Hm. assert (id_in (marked_id <$> a) r = true); [|congruence].
    apply Hin; [by apply elem_of_app; left|]. by apply list_elem_of_fmap_2.
Qed.

Section BridgeFacts.
Context {S : Type} `{SyncLaws S} (policy : AnchoringPolicy)
        (append_batch : list BReceipt -> result Exc string).

(** Anchored and pending receipts together, in order. *)
Definition accounted (t : string) (b : Bridge S) : list BReceipt :=
  batches t (b_log b) ++ pending t (b_sync b).

(** One anchoring of a prefix of the pending receipts of [t] moves it to the log, or,
    when the anchor client fails, changes nothing. *)
Lemma do_anchor_moves now t l rest (b : Bridge S) :
  sync_wf (b_sync b) -> pending t (b_sync b) = l ++ rest ->
  let '(out, b') := do_anchor append_batch now t l b in
  sync_wf (b_sync b') /\ (forall t', accounted t' b' = accounted t' b) /\
  match l, append_batch l with
  | [], _ => out = Ok None /\ b' = b
  | _, Err e => out = Err e /\ b' = b
  | _, Ok res => out = Ok (Some res) /\ b_log b' = b_log b ++ [(t, l)] /\ pending t (b_sync b') = rest
  end.
Proof.
  intros Hw Hp. unfold do_anchor. destruct l as [|r l]; [by split_and!|].
  set (L := r :: l) in *. unfold m_bind. destruct (append_batch L) as [res|e] eqn:Ha; [|by split_and!]. cbn -[accounted].
  assert (Hrest : pending t (mark_anchored t (marked_id <$> L) (b_sync b)) = rest).
  { rewrite mark_removes, decide_True by done. destruct (pending_ids t _ Hw) as [Hn Hf]. rewrite Hp in Hn, Hf |- *.
    by apply filter_prefix_ids. }
  assert (Hcomp : marked_id r :: (marked_id <$> l) = marked_id <$> L) by done.
  split_and!; try done.
  - by apply mark_wf.
  - intros t'. unfold accounted. cbn [b_sync b_log with_state]. rewrite batches_app. case_decide as Ht.
    + subst t'. rewrite Hcomp, Hrest, Hp. by rewrite <- app_assoc.
    + rewrite app_nil_r, mark_removes, decide_False by congruence. done.
Qed.

Lemma unanchored_split t (b : Bridge S) : sync_wf (b_sync b) ->
  exists rest, pending t (b_sync b) = get_unanchored_receipts t (max_batch_size policy) (b_sync b) ++ rest.
Proof.
  intros Hw. rewrite get_is_prefix by done. destruct (py_slice_prefix (max_batch_size policy) (pending t (b_sync b))) as (k & -> & _).
  exists (drop k (pending t (b_sync b))). by rewrite take_drop.
Qed.

(** The conditions under which a check anchors. *)
Definition forced (t : string) (b : Bridge S) : bool :=
  let st := default fresh_state (b_states b !! t) in
  let current := get_task_state t (b_sync b) in
  negb (bool_decide (current = last_state st)) && mem current (force_anchor_states policy).
Definition triggered (now : float) (t : string) (b : Bridge S) : bool :=
  let st := default fresh_state (b_states b !! t) in
  let n := Z.of_nat (length (get_unanchored_receipts t (max_batch_size policy) (b_sync b))) in
  forced t b || count_due policy n || time_due policy now st n ||
  anchor_on_state_change policy && negb (bool_decide (get_task_state t (b_sync b) = last_state st)).

(** A check either anchors the first pending receipts or only notes what it saw; the
    receipt service and the log change in no other way. *)
Lemma check_runs now t (b : Bridge S) :
  let batch := get_unanchored_receipts t (max_batch_size policy) (b_sync b) in
  exists b1, b_sync b1 = b_sync b /\ b_log b1 = b_log b /\
    check_and_anchor policy append_batch now t b =
    if triggered now t b then do_anchor append_batch now t batch b1 else (Ok None, b1).
Proof.
  intros batch. unfold check_and_anchor, triggered, forced, unanchored, m_bind, m_put, m_get.
  set (b0 := if decide (is_Some (b_states b !! t)) then b else with_state t fresh_state b).
  assert (Hs0 : b_sync b0 = b_sync b /\ b_log b0 = b_log b) by (subst b0; by case_decide).
  assert (Hst : default fresh_state (b_states b0 !! t) = default fresh_state (b_states b !! t)).
  { subst b0. case_decide as Hd; [done|]. cbn. rewrite lookup_insert_eq. by rewrite <- eq_None_not_Some in Hd; rewrite Hd. }
  destruct Hs0 as [Hs0 Hl0]. rewrite Hst, Hs0. fold batch.
  set (st := default fresh_state (b_states b !! t)). set (cur := get_task_state t (b_sync b)).
  destruct (negb (bool_decide (cur = last_state st))) eqn:Hc; destruct (mem cur (force_anchor_states policy)) eqn:Hm;
    cbn [andb orb]; rewrite ?andb_false_r; cbn [andb orb].
  1: { exists b0. split_and!; try done. unfold force_anchor, unanchored, m_bind, m_get. by rewrite Hs0. }
  all: rewrite ?Hs0; fold batch; eexists; split_and!; [..|
    destruct (count_due policy (Z.of_nat (length batch))); [reflexivity|];
    destruct (time_due policy now st (Z.of_nat (length batch))); [reflexivity|];
    cbn [orb]; rewrite ?andb_true_r, ?andb_false_r; destruct (anchor_on_state_change policy); reflexivity]; done.
Qed.

Lemma call_accounts (c : M (Bridge S) Exc (option string)) now t (b : Bridge S) :
  c = check_and_anchor policy append_batch now t \/ c = force_anchor policy append_batch now t ->
  sync_wf (b_sync b) ->
  sync_wf (b_sync (exec c b)) /\ forall t', accounted t' (exec c b) = accounted t' b.
Proof.
  intros Hc Hw. destruct (unanchored_split t b Hw) as [rest Hp].
  set (batch := get_unanchored_receipts t (max_batch_size policy) (b_sync b)) in *.
  assert (Hda : forall b1, b_sync b1 = b_sync b -> b_log b1 = b_log b ->
    sync_wf (b_sync (exec (do_anchor append_batch now t batch) b1)) /\
    forall t', accounted t' (exec (do_anchor append_batch now t batch) b1) = accounted t' b).
  { intros b1 Hs Hl. pose proof (do_anchor_moves now t batch rest b1) as Hm. rewrite Hs in Hm.
    specialize (Hm Hw Hp). unfold exec. destruct (do_anchor append_batch now t batch b1) as [out b'].
    destruct Hm as (Hw' & Ha & _). split; [done|]. intros t'. rewrite Ha. unfold accounted. by rewrite Hs, Hl. }
  destruct Hc as [-> | ->].
  - destruct (check_runs now t b) as (b1 & Hs & Hl & Hr). unfold exec in *. rewrite Hr.
    destruct (triggered now t b); [by apply Hda|]. cbn. rewrite Hs. split; [done|].
    intros t'. unfold accounted. by rewrite Hs, Hl.
  - by apply Hda.
Qed.

(** Forcing anchors everything in batches: while the anchor client accepts, each call of
    [force_anchor] takes the next [max_batch_size] receipts, so enough calls leave
    nothing pending and every receipt of the task is in the log, in order. *)
Theorem force_anchor_drains nows t (b : Bridge S) :
  sync_wf (b_sync b) -> (forall l, exists res, append_batch l = Ok res) -> 0 < max_batch_size policy ->
  (length (pending t (b_sync b)) <= Z.to_nat (max_batch_size policy) * length nows)%nat ->
  let b' := foldl (fun b now => exec (force_anchor policy append_batch now t) b) b nows in
  pending t (b_sync b') = [] /\ batches t (b_log b') = accounted t b.
Proof.
  intros Hw Hok Hm. set (m := Z.to_nat (max_batch_size policy)). cbv zeta. revert b Hw.
  induction nows as [|now nows IH]; intros b Hw Hlen; cbn [foldl].
  - cbn [length] in Hlen. rewrite Nat.mul_0_r in Hlen.
    destruct (pending t (b_sync b)) eqn:E; [|cbn in Hlen; lia]. split; [done|].
    unfold accounted. by rewrite E, app_nil_r.
  - destruct (call_accounts _ now t b (or_intror eq_refl) Hw) as [Hw' Ha].
    assert (Hp : pending t (b_sync (exec (force_anchor policy append_batch now t) b)) = drop m (pending t (b_sync b))).
    { pose proof (do_anchor_moves now t (get_unanchored_receipts t (max_batch_size policy) (b_sync b)) (drop m (pending t (b_sync b))) b Hw) as H2.
      rewrite get_is_prefix in H2 by done. unfold py_slice in H2. rewrite (proj2 (Z.leb_le _ _)) in H2 by lia. fold m in H2.
      specialize (H2 ltac:(by rewrite take_drop)).
      unfold exec, force_anchor, unanchored, m_bind, m_get. rewrite get_is_prefix by done. unfold py_slice.
      rewrite (proj2 (Z.leb_le _ _)) by lia. fold m.
      destruct (do_anchor append_batch now t (take m (pending t (b_sync b))) b) as [out b'].
      destruct H2 as (_ & _ & H2). destruct (take m (pending t (b_sync b))) as [|r l] eqn:Et.
      - destruct H2 as [_ ->]. cbn. assert (pending t (b_sync b) = []) as ->; [|by rewrite drop_nil].
        destruct (pending t (b_sync b)); [done|]. assert (m <> 0%nat) by lia. destruct m; [done|]. done.
      - destruct (Hok (r :: l)) as [res Hres]. rewrite Hres in H2. by destruct H2 as (_ & _ & ?). }
    destruct (IH _ Hw') as [IH1 IH2].
    { rewrite Hp, length_drop. cbn [length] in Hlen. lia. }
    split; [exact IH1|]. rewrite IH2. apply Ha.
Qed.
End BridgeFacts.

(** ** The bridge on the in-memory service *)

(** What the callers do: receipts with an id of their own are added, states change, and
    checks and forced anchorings run, the anchor client accepting or failing each time. *)
Inductive bridge_reachable (policy : AnchoringPolicy) : Bridge MemSync -> Prop :=
| br_empty : bridge_reachable policy {| b_sync := empty_sync; b_states := ∅; b_log := [] |}
| br_add b t r i :
    bridge_reachable policy b -> r_id r = Some i ->
    Some i ∉ r_id <$> default [] (m_receipts (b_sync b) !! t) ->
    bridge_reachable policy {| b_sync := add_receipt t r (b_sync b); b_states := b_states b; b_log := b_log b |}
| br_state b t st :
    bridge_reachable policy b ->
    bridge_reachable policy {| b_sync := set_state t st (b_sync b); b_states := b_states b; b_log := b_log b |}
| br_check b append now t :
    bridge_reachable policy b -> bridge_reachable policy (exec (check_and_anchor policy append now t) b)
| br_force b append now t :
    bridge_reachable policy b -> bridge_reachable policy (exec (force_anchor policy append now t) b).

Lemma not_anchored_app i a l k :
  not_anchored i a (l ++ k) = not_anchored i a l ++ not_anchored (i + length l) a k.
Proof.
  revert i. induction l as [|r l IH]; intros i; cbn [app not_anchored length]; [by rewrite Nat.add_0_r|].
  rewrite IH, Nat.add_succ_comm. by case_bool_decide.
Qed.

(** The bridge calls change the service only by marking ids of its own receipts. *)
Definition marks_known (s : MemSync) : Prop :=
  forall t i, i ∈ default [] (m_anchored s !! t) -> Some i ∈ r_id <$> default [] (m_receipts s !! t).

Lemma do_anchor_sync append now t l (b : Bridge MemSync) :
  let b' := exec (do_anchor append now t l) b in
  b_sync b' = b_sync b \/ b_sync b' = mark_anchored t (marked_id <$> l) (b_sync b).
Proof.
  unfold exec, do_anchor. destruct l as [|r l]; [by left|]. unfold m_bind.
  destruct (append (r :: l)); [by right|by left].
Qed.

Lemma marks_known_anchor append now t (b b1 : Bridge MemSync) n : b_sync b1 = b_sync b ->
  mem_wf (b_sync b) -> marks_known (b_sync b) ->
  marks_known (b_sync (exec (do_anchor append now t (get_unanchored_receipts t n (b_sync b))) b1)).
Proof.
  intros Hs Hw Hm. destruct (do_anchor_sync append now t (get_unanchored_receipts t n (b_sync b)) b1) as [-> | ->];
    rewrite Hs; [done|]. intros t' i. cbn. destruct (decide (t = t')) as [<-|Ht].
  - rewrite lookup_insert_eq. cbn. intros [Hi|Hi]%elem_of_app; [by apply Hm|].
    apply list_elem_of_fmap in Hi as (r & -> & Hr).
    assert (Hin : r ∈ default [] (m_receipts (b_sync b) !! t)).
    { destruct (py_slice_prefix n (mem_pending t (b_sync b))) as (k & Hk & _). cbn in Hr.
      unfold mem_get_unanchored in Hr. rewrite Hk in Hr.
      apply elem_of_take in Hr as (j & Hj & _). apply list_elem_of_lookup_2 in Hj.
      unfold mem_pending in Hj. rewrite not_anchored_ids in Hj by apply (mem_wf_list _ _ Hw).
      by apply list_elem_of_filter in Hj as [_ ?]. }
    destruct (mem_wf_list _ t Hw) as [_ Hf]. rewrite Forall_forall in Hf. destruct (Hf r Hin) as [j Hj].
    unfold marked_id. rewrite Hj. cbn. rewrite <- Hj. by apply list_elem_of_fmap_2.
  - rewrite lookup_insert_ne by done. apply Hm.
Qed.

Lemma do_anchor_receipts append now t l (b : Bridge MemSync) :
  m_receipts (b_sync (exec (do_anchor append now t l) b)) = m_receipts (b_sync b).
Proof. by destruct (do_anchor_sync append now t l b) as [-> | ->]. Qed.

Definition exact (b : Bridge MemSync) : Prop :=
  mem_wf (b_sync b) /\ marks_known (b_sync b) /\
  forall t, accounted t b = default [] (m_receipts (b_sync b) !! t).

Lemma exact_call policy append now t b (c : M (Bridge MemSync) Exc (option string)) :
  c = check_and_anchor policy append now t \/ c = force_anchor policy append now t ->
  exact b -> exact (exec c b).
Proof.
  intros Hc (Hw & Hm & He).
  destruct (call_accounts (H0 := MemSync_laws) policy append c now t b Hc Hw) as [Hw' Ha].
  assert (Hrest : marks_known (b_sync (exec c b)) /\ m_receipts (b_sync (exec c b)) = m_receipts (b_sync b)).
  { destruct Hc as [-> | ->].
    - destruct (check_runs policy append now t b) as (b1 & Hs & _ & Hr). unfold exec in *. rewrite Hr.
      destruct (triggered policy now t b).
      + split; [by apply (marks_known_anchor append now t b)|]. rewrite <- Hs. apply do_anchor_receipts.
      + cbn. by rewrite Hs.
    - split; [by apply (marks_known_anchor append now t b)|apply do_anchor_receipts]. }
  destruct Hrest as [Hm' Hr]. split_and!; [done..|]. intros t'. by rewrite Ha, He, Hr.
Qed.

Lemma exact_add b t r i : r_id r = Some i -> Some i ∉ r_id <$> default [] (m_receipts (b_sync b) !! t) ->
  exact b -> exact {| b_sync := add_receipt t r (b_sync b); b_states := b_states b; b_log := b_log b |}.
Proof.
  intros Hi Hfresh (Hw & Hm & He). destruct (mem_wf_list _ t Hw) as [Hn Hf]. split_and!; cbn.
  - intros t' l. cbn. destruct (decide (t = t')) as [<-|]; [|rewrite lookup_insert_ne by done; apply Hw].
    rewrite lookup_insert_eq. intros [= <-]. rewrite fmap_app. split.
    + apply NoDup_app. split; [done|]. split; [|apply NoDup_singleton].
      intros x Hx Hx2. cbn in Hx2. apply list_elem_of_singleton in Hx2. congruence.
    + apply Forall_app. split; [done|]. by repeat constructor.
  - intros t' j Hj. cbn. destruct (decide (t = t')) as [<-|]; [|rewrite lookup_insert_ne by done; by apply Hm].
    rewrite lookup_insert_eq. cbn. rewrite fmap_app. apply elem_of_app. left. by apply Hm.
  - intros t'. unfold accounted in *. cbn. unfold mem_pending. cbn.
    destruct (decide (t = t')) as [<-|]; [|rewrite lookup_insert_ne by done; apply He].
    rewrite lookup_insert_eq. cbn. rewrite not_anchored_app, app_assoc. f_equal; [apply He|].
    cbn. unfold receipt_key. rewrite Hi. rewrite bool_decide_eq_false_2; [done|].
    intros Ha. apply Hfresh. by apply Hm.
Qed.

(** Every receipt is anchored exactly once and in order: at any time, whatever was
    added, checked, forced, and however often the anchor client failed, the receipts in
    the accepted batches of a task followed by those still pending are exactly the
    receipts added to the task, and no id occurs twice among them. *)
Theorem receipts_anchored_once policy b t :
  bridge_reachable policy b ->
  batches t (b_log b) ++ mem_pending t (b_sync b) = default [] (m_receipts (b_sync b) !! t) /\
  NoDup (r_id <$> batches t (b_log b)).
Proof.
  intros Hb. assert (exact b) as (Hw & _ & He).
  { induction Hb as [|b t0 r i Hb IH Hi Hfresh|b t0 st Hb IH|b append now t0 Hb IH|b append now t0 Hb IH].
    - split_and!; [intros t0 l; cbn; by rewrite lookup_empty|intros t0 i; cbn; by rewrite lookup_empty; intros ?%elem_of_nil|].
      intros t0. unfold accounted, batches. cbn. unfold mem_pending. cbn. by rewrite !lookup_empty.
    - by apply (exact_add b t0 r i).
    - exact IH.
    - apply (exact_call policy append now t0); [by left|done].
    - apply (exact_call policy append now t0); [by right|done]. }
  specialize (He t). split; [exact He|].
  destruct (mem_wf_list _ t Hw) as [Hn _]. rewrite <- He in Hn. unfold accounted in Hn.
  rewrite fmap_app in Hn. by apply NoDup_app in Hn as [? _].
Qed.

(** *** Witnesses *)

Definition always (l : list BReceipt) : result Exc string := Ok "root"%string.
Definition rec_of (i : string) : BReceipt := {| r_id := Some i; r_body := i |}.
Definition two_receipts : Bridge MemSync :=
  {| b_sync := add_receipt "t" (rec_of "b") (add_receipt "t" (rec_of "a") empty_sync); b_states := ∅; b_log := [] |}.

Lemma two_reachable : bridge_reachable default_policy two_receipts.
Proof.
  apply (br_add _ {| b_sync := add_receipt "t" (rec_of "a") empty_sync; b_states := ∅; b_log := [] |} "t" (rec_of "b") "b");
    [|reflexivity|].
  - apply (br_add _ {| b_sync := empty_sync; b_states := ∅; b_log := [] |} "t" (rec_of "a") "a");
      [apply br_empty|reflexivity|]. cbn. apply not_elem_of_nil.
  - cbn. rewrite lookup_insert_eq. cbn. intros [Heq|[]%elem_of_nil]%elem_of_cons. discriminate Heq.
Qed.

Lemma receipts_anchored_once_witness :
  let b := exec (force_anchor default_policy always (float_of_Z 1) "t") two_receipts in
  batches "t" (b_log b) = [rec_of "a"; rec_of "b"] /\
  batches "t" (b_log b) ++ mem_pending "t" (b_sync b) = default [] (m_receipts (b_sync b) !! "t"%string).
Proof.
  cbv zeta. split; [vm_compute; reflexivity|].
  apply (receipts_anchored_once default_policy (exec (force_anchor default_policy always (float_of_Z 1) "t") two_receipts) "t").
  apply br_force. exact two_reachable.
Defined.

Lemma force_anchor_drains_witness :
  pending "t" (b_sync (exec (force_anchor default_policy always (float_of_Z 1) "t") two_receipts)) = [].
Proof.
  apply (force_anchor_drains default_policy always [float_of_Z 1] "t" two_receipts).
  - intros t l. unfold two_receipts. cbn. destruct (decide (t = "t"%string)) as [->|Hne].
    + rewrite lookup_insert_eq. cbn. intros [= <-]. split.
      * apply (bool_decide_unpack _). vm_compute. exact I.
      * repeat constructor; eexists; reflexivity.
    + rewrite !lookup_insert_ne by done. by rewrite lookup_empty.
  - intros l. exists "root"%string. reflexivity.
  - reflexivity.
  - apply Nat.leb_le. vm_compute. reflexivity.
Defined.

(** ** Where the bridge and its description part *)

(** A receipt without an id is anchored again on every call: it is looked up under its
    position and marked under the empty string. *)
Theorem receipt_without_id_anchored_again :
  let r := {| r_id := None; r_body := "x" |} in
  let b := {| b_sync := add_receipt "t" r empty_sync; b_states := ∅; b_log := [] |} in
  let force := force_anchor default_policy always (float_of_Z 1) "t" in
  batches "t" (b_log (exec force (exec force b))) = [r; r].
Proof. vm_compute. reflexivity. Qed.

(** Two checks that overlap anchor the same receipts twice: the batch is read before the
    anchor client is awaited and marked after. *)
Theorem overlapping_checks_anchor_twice :
  let batch := get_unanchored_receipts "t" 10 (b_sync two_receipts) in
  let anchor := do_anchor always (float_of_Z 1) "t" batch in
  batches "t" (b_log (exec anchor (exec anchor two_receipts))) = batch ++ batch.
Proof. vm_compute. reflexivity. Qed.

(** The default force states name none of the billing states, so a state of the billing
    machine never forces an anchoring. *)
Theorem force_states_are_no_billing_states s :
  mem (BillingState_value s) (force_anchor_states default_policy) = false.
Proof. by destruct s. Qed.
