(* ===== verification/BillingSync.v ===== *)
(** * The three-route receipt pipeline and its Merkle accumulator

    [packages/karma_billing/sync_service.py] and the leaf hash of
    [packages/karma_billing/schema.py].  A digest is an element of a type [D];
    [sha_text] is SHA-256 of a text and [sha_pair] of the 64 bytes of two digests;
    [payload_digest] is [compute_payload_hash].  Subscribers are numbered; [raises] says
    which callbacks raise, and what is delivered is logged. *)
From S2P Require Import Prelude PyFloat PyJson.
From stdpp Require Import pretty.
Open Scope Z_scope.

(** ** Receipts *)

Record UniversalReceipt := {
  receipt_id : string;
  r_task_id : string;
  step_index : Z;
  payload_hash : string;
  scenario_data : option json;
  created_at : string
}.

Section Pipeline.
Context {D : Type} (sha_text : string -> D) (sha_pair : D -> D -> D)
        (payload_digest : json -> string) (raises : nat -> bool).

(** The validator of the model. *)
Definition auto_compute_payload_hash (r : UniversalReceipt) : UniversalReceipt :=
  match scenario_data r with
  | Some d => if decide (payload_hash r = "")%string
              then {| receipt_id := receipt_id r; r_task_id := r_task_id r; step_index := step_index r;
                      payload_hash := payload_digest d; scenario_data := scenario_data r;
                      created_at := created_at r |}
              else r
  | None => r
  end.

Definition leaf_text (receipt_id task_id : string) (step_index : Z) (payload_hash timestamp : string) : string :=
  py_join "|" [receipt_id; task_id; pretty step_index; payload_hash; timestamp].
Definition compute_leaf_hash (receipt_id task_id : string) (step_index : Z)
    (payload_hash timestamp : string) : D :=
  sha_text (leaf_text receipt_id task_id step_index payload_hash timestamp).

(** [self.scenario_data or {}]: an empty value counts as absent. *)
Definition truthy (j : json) : bool :=
  match j with
  | JNull | JBool false | JStr EmptyString | JList [] | JObj [] => false
  | JInt n => negb (n =? 0)
  | JFloat x => negb (x =? fzero)%float
  | _ => true
  end.
Definition leaf_payload (r : UniversalReceipt) : string :=
  or_str (payload_hash r)
    (payload_digest (match scenario_data r with Some d => if truthy d then d else JObj [] | None => JObj [] end)).
Definition compute_leaf (r : UniversalReceipt) : D :=
  compute_leaf_hash (receipt_id r) (r_task_id r) (step_index r) (leaf_payload r) (created_at r).

(** ** [InMemoryPubSub] *)

Abbreviation Subscribers := (gmap string (list nat)).
Definition subscribe (channel : string) (cb : nat) (s : Subscribers) : Subscribers :=
  <[channel := default [] (s !! channel) ++ [cb]]> s.
Definition unsubscribe (channel : string) (cb : nat) (s : Subscribers) : Subscribers :=
  match s !! channel with
  | None => s
  | Some l => match filter (fun x => x <> cb) l with
              | [] => delete channel s
              | l' => <[channel := l']> s
              end
  end.
(** The callbacks that ran to their end; one that raises is logged and skipped. *)
Definition publish (channel : string) (s : Subscribers) : list nat :=
  filter (fun cb => raises cb = false) (default [] (s !! channel)).
Definition subscriber_count (s : Subscribers) : gmap string nat := length <$> s.

(** ** [IncrementalMerkleAccumulator] *)

Record Merkle := {
  leaves : list D;
  anchor_count : Z
}.
Definition append (leaf : D) (m : Merkle) : nat * Merkle :=
  (length (leaves m), {| leaves := leaves m ++ [leaf]; anchor_count := anchor_count m |}).

(** One level of the pairing loop: an odd digest out is paired with itself. *)
Fixpoint next_level (l : list D) : list D :=
  match l with
  | [] => []
  | [a] => [sha_pair a a]
  | a :: b :: l' => sha_pair a b :: next_level l'
  end.

(** [while len(current_level) > 1], with at most [fuel] rounds. *)
Fixpoint climb (fuel : nat) (l : list D) : option D :=
  match l with
  | [] => None
  | [x] => Some x
  | _ => match fuel with
         | O => None
         | S fuel => climb fuel (next_level l)
         end
  end.
Definition compute_root (m : Merkle) : option D := climb (length (leaves m)) (leaves m).

Definition merkle_mark_anchored (m : Merkle) : option D * Merkle :=
  (compute_root m, {| leaves := leaves m; anchor_count := anchor_count m + 1 |}).

(** ** [ReceiptSyncService] *)

Inductive SyncRouteStatus := SUCCESS | FAILED | SKIPPED.

Record SyncResult := {
  s_receipt_id : string;
  pg_status : SyncRouteStatus;
  pubsub_status : SyncRouteStatus;
  merkle_status : SyncRouteStatus;
  anchoring_triggered : bool;
  errors : list string
}.
Definition fine (s : SyncRouteStatus) : bool := match s with FAILED => false | _ => true end.
Definition all_succeeded (r : SyncResult) : bool :=
  fine (pg_status r) && fine (pubsub_status r) && fine (merkle_status r).

Record SyncSvc := {
  subscribers : Subscribers;
  merkle : Merkle;
  anchoring_threshold : Z;
  task_receipt_count : gmap string Z;
  stored : list UniversalReceipt;
  delivered : list (nat * UniversalReceipt)
}.

(** The insert hook: absent, or what this insert does. *)
Definition Hook : Type := option (UniversalReceipt -> option string).

Definition pg_route (hook : Hook) (r : UniversalReceipt) : SyncRouteStatus * list string :=
  match hook with
  | None => (SKIPPED, [])
  | Some h => match h r with
              | None => (SUCCESS, [])
              | Some e => (FAILED, ["PG: " +:+ e])
              end
  end.

Definition ZERO_DIVISION : Exc := ValueError "integer division or modulo by zero".

Definition sync (hook : Hook) (r : UniversalReceipt) : M SyncSvc Exc SyncResult :=
  fun s =>
    let '(pg, errs) := pg_route hook r in
    let ran := publish ("karma:billing:receipts:" +:+ r_task_id r) (subscribers s) in
    let '(_, m) := append (compute_leaf r) (merkle s) in
    let count := default 0 (task_receipt_count s !! r_task_id r) + 1 in
    let s' := {| subscribers := subscribers s; merkle := m;
                 anchoring_threshold := anchoring_threshold s;
                 task_receipt_count := <[r_task_id r := count]> (task_receipt_count s);
                 stored := stored s ++ (match pg with SUCCESS => [r] | _ => [] end);
                 delivered := delivered s ++ ((fun cb => (cb, r)) <$> ran) |} in
    if decide (anchoring_threshold s = 0) then (Err ZERO_DIVISION, s')
    else (Ok {| s_receipt_id := receipt_id r; pg_status := pg; pubsub_status := SUCCESS;
                merkle_status := SUCCESS; anchoring_triggered := count mod anchoring_threshold s =? 0;
                errors := errs |}, s').

Definition get_merkle_root (s : SyncSvc) : option D := compute_root (merkle s).
End Pipeline.
Arguments Merkle : clear implicits.
Arguments SyncSvc : clear implicits.

(** ** The root *)

Section Root.
Context {D : Type} (sha_pair : D -> D -> D).

(** Induction two elements at a time. *)
Lemma list_pair_ind (P : list D -> Prop) :
  P [] -> (forall a, P [a]) -> (forall a b l, P l -> P (a :: b :: l)) -> forall l, P l.
Proof.
  intros H0 H1 H2 l. enough (P l /\ forall a, P (a :: l)) by naive_solver.
  induction l as [|b l [IH1 IH2]]; split; auto.
Qed.

Lemma next_level_length l : (length (next_level sha_pair l) = (length l + 1) / 2)%nat.
Proof.
  induction l as [|a|a b l IH] using list_pair_ind; [done|done|]. cbn [next_level length]. rewrite IH.
  replace (S (S (length l)) + 1)%nat with ((length l + 1) + 1 * 2)%nat by lia.
  rewrite Nat.div_add by lia. lia.
Qed.

Lemma half_shorter n : (2 <= n)%nat -> (1 <= (n + 1) / 2 < n)%nat.
Proof.
  intros Hn. pose proof (Nat.div_mod (n + 1) 2 ltac:(lia)). pose proof (Nat.mod_upper_bound (n + 1) 2 ltac:(lia)). lia.
Qed.

(** The pairing loop ends: with one round of fuel per leaf it gives a root for every
    tree that has a leaf, and more fuel changes nothing. *)
Theorem compute_root_total l fuel : l <> [] -> (length l <= fuel)%nat ->
  exists root, climb sha_pair fuel l = Some root /\
    compute_root sha_pair {| leaves := l; anchor_count := 0 |} = Some root.
Proof.
  intros Hl Hf. unfold compute_root. cbn [leaves].
  enough (forall n l fuel fuel', length l = n -> l <> [] -> (n <= fuel)%nat -> (n <= fuel')%nat ->
    exists root, climb sha_pair fuel l = Some root /\ climb sha_pair fuel' l = Some root) as H.
  { by apply (H (length l)). }
  clear. intros n. induction (lt_wf n) as [n _ IH]. intros l fuel fuel' Hn Hl H1 H2.
  destruct l as [|a [|b l]]; [done|destruct fuel, fuel'; cbn; eauto|].
  cbn [length] in Hn. destruct fuel as [|fuel], fuel' as [|fuel']; try lia.
  change (climb sha_pair (S fuel) (a :: b :: l)) with (climb sha_pair fuel (next_level sha_pair (a :: b :: l))).
  change (climb sha_pair (S fuel') (a :: b :: l)) with (climb sha_pair fuel' (next_level sha_pair (a :: b :: l))).
  pose proof (next_level_length (a :: b :: l)) as Hlen. cbn [length] in Hlen. rewrite Hn in Hlen.
  pose proof (half_shorter n ltac:(lia)). eapply IH; [|exact Hlen| | |]; [lia| |lia|lia].
  intros E. rewrite E in Hlen. change (@length D []) with 0%nat in Hlen. lia.
Qed.

(** No two pairs of digests collide. *)
Definition no_collision : Prop := forall a b c d, sha_pair a b = sha_pair c d -> a = c /\ b = d.

Lemma next_level_inj l l' : no_collision -> length l = length l' ->
  next_level sha_pair l = next_level sha_pair l' -> l = l'.
Proof.
  intros Hc. revert l'. induction l as [|a|a b l IH] using list_pair_ind.
  - by intros [|].
  - intros [|c [|d l']]; try done. intros _ [= H]. by apply Hc in H as [-> _].
  - intros [|c [|d l']]; try done. intros [= Hl] [= H1 H2]. apply Hc in H1 as [-> ->]. by rewrite (IH l').
Qed.

(** C40. The root commits to the leaves of a tree of known size: without a collision, two
    trees with the same number of leaves and the same root have the same leaves in the
    same order. *)
Theorem merkle_root_binding l l' root :
  no_collision -> length l = length l' ->
  compute_root sha_pair {| leaves := l; anchor_count := 0 |} = Some root ->
  compute_root sha_pair {| leaves := l'; anchor_count := 0 |} = Some root -> l = l'.
Proof.
  intros Hc Hlen. unfold compute_root. cbn [leaves]. rewrite <- Hlen. generalize (length l) as fuel.
  intros fuel. revert l l' Hlen. induction fuel as [|fuel IH]; intros l l' Hlen.
  - destruct l as [|a [|b l]], l' as [|a' [|b' l']]; try done. cbn. congruence.
  - destruct l as [|a [|b l]], l' as [|a' [|b' l']]; try done; [cbn; congruence|].
    change (climb sha_pair (S fuel) (a :: b :: l)) with (climb sha_pair fuel (next_level sha_pair (a :: b :: l))).
    change (climb sha_pair (S fuel) (a' :: b' :: l')) with (climb sha_pair fuel (next_level sha_pair (a' :: b' :: l'))).
    intros H1 H2. apply next_level_inj; [done|done|]. apply IH; [|done|done].
    by rewrite !next_level_length, Hlen.
Qed.

(** The root does not commit to the number of leaves: a tree with an odd leaf out and
    the tree in which that leaf is repeated have one root, whatever the digest. *)
Theorem repeated_leaf_same_root a b c :
  compute_root sha_pair {| leaves := [a; b; c]; anchor_count := 0 |} =
  compute_root sha_pair {| leaves := [a; b; c; c]; anchor_count := 0 |}.
Proof. reflexivity. Qed.
End Root.

(** ** Leaves *)

Definition bar : Ascii.ascii := Ascii.ascii_of_nat 124.

Lemma digit_no_bar d s : has_char bar s = false -> has_char bar (String (pretty_N_char d) s) = false.
Proof.
  unfold has_char. rewrite !bool_decide_eq_false. cbn. intros Hs [Hd|Hd]%elem_of_cons; [|done].
  unfold pretty_N_char in Hd. unfold bar in Hd. by repeat case_match.
Qed.

Lemma pretty_go_no_bar x : forall s, has_char bar s = false -> has_char bar (pretty_N_go x s) = false.
Proof.
  induction (N.lt_wf_0 x) as [x _ IH]. intros s Hs. destruct (decide (0 < x)%N) as [Hx|Hx].
  - rewrite pretty_N_go_step by done. apply IH; [by apply N.div_lt|by apply digit_no_bar].
  - assert (x = 0%N) as -> by lia. done.
Qed.

Lemma pretty_no_bar (z : Z) : 0 <= z -> has_char bar (pretty z) = false.
Proof.
  intros Hz. destruct z as [|p|p]; [done| |lia]. cbn [pretty pretty_Z].
  unfold pretty, pretty_positive, pretty, pretty_N. case_decide; [done|]. by apply pretty_go_no_bar.
Qed.

Section Leaves.
Context {D : Type} (sha_text : string -> D) (sha_pair : D -> D -> D) (payload_digest : json -> string)
        (raises : nat -> bool).

(** The fields of a leaf hold no separator. *)
Definition plain_receipt (r : UniversalReceipt) : bool :=
  forallb (fun s => negb (has_char bar s))
    [receipt_id r; r_task_id r; leaf_payload payload_digest r; created_at r] && (0 <=? step_index r).

(** A leaf identifies its receipt: when the digest does not collide on the two texts and
    no field holds the separator, two receipts with the same leaf have the same id, task,
    step, payload hash and time. *)
Theorem leaf_identifies_receipt r r' :
  plain_receipt r = true -> plain_receipt r' = true ->
  (forall x y, sha_text x = sha_text y -> x = y) ->
  compute_leaf sha_text payload_digest r = compute_leaf sha_text payload_digest r' ->
  receipt_id r = receipt_id r' /\ r_task_id r = r_task_id r' /\ step_index r = step_index r' /\
  leaf_payload payload_digest r = leaf_payload payload_digest r' /\ created_at r = created_at r'.
Proof.
  unfold plain_receipt. cbn [forallb]. rewrite !andb_true_iff, !negb_true_iff, !Z.leb_le.
  intros H1 H2 Hinj Hl. destruct_and! H1. destruct_and! H2. unfold compute_leaf, compute_leaf_hash, leaf_text in Hl.
  apply Hinj in Hl. apply (py_join_inj bar) in Hl; [| | |done].
  - injection Hl as ? ? Hs ? ?. split_and!; try done. by apply (inj pretty).
  - repeat apply Forall_cons_2; try apply Forall_nil_2; try done. by apply pretty_no_bar.
  - repeat apply Forall_cons_2; try apply Forall_nil_2; try done. by apply pretty_no_bar.
Qed.

(** ** The pipeline *)

Definition sync_all (jobs : list (Hook * UniversalReceipt)) (s : SyncSvc D) : list (result Exc SyncResult) * SyncSvc D :=
  foldl (fun '(outs, s) '(h, r) =>
           let '(o, s') := sync sha_text payload_digest raises h r s in (outs ++ [o], s')) ([], s) jobs.

(** Which answers of a run report an anchoring for task [t]. *)
Definition reports (t : string) (jo : (Hook * UniversalReceipt) * result Exc SyncResult) : bool :=
  bool_decide (r_task_id jo.1.2 = t) &&
  match jo.2 with Ok x => anchoring_triggered x | Err _ => false end.
Definition triggered_for (t : string) (jobs : list (Hook * UniversalReceipt)) (outs : list (result Exc SyncResult)) : nat :=
  length (filter (fun jo => reports t jo = true) (zip jobs outs)).
Definition receipts_of (t : string) (jobs : list (Hook * UniversalReceipt)) : nat :=
  length (filter (fun j => r_task_id j.2 = t) jobs).

Definition hook_ok (h : Hook) (r : UniversalReceipt) : bool :=
  match h with Some f => match f r with None => true | Some _ => false end | None => false end.

Lemma sync_all_snoc jobs h r s :
  sync_all (jobs ++ [(h, r)]) s =
  let '(outs, s1) := sync_all jobs s in
  let '(o, s2) := sync sha_text payload_digest raises h r s1 in (outs ++ [o], s2).
Proof. unfold sync_all. rewrite foldl_app. cbn. by destruct (foldl _ _ jobs) as [outs s1]. Qed.

Lemma zip_snoc {A B} (l : list A) (k : list B) x y : length l = length k ->
  zip (l ++ [x]) (k ++ [y]) = zip l k ++ [(x, y)].
Proof. intros Hl. by rewrite zip_with_app. Qed.

(** Each multiple of the threshold is reported once. *)
Lemma div_next n th : 0 < th -> 0 <= n ->
  (n + 1) / th = n / th + (if (n + 1) mod th =? 0 then 1 else 0).
Proof.
  intros Hth Hn. pose proof (Z.div_mod n th ltac:(lia)). pose proof (Z.div_mod (n + 1) th ltac:(lia)).
  pose proof (Z.mod_pos_bound n th Hth). pose proof (Z.mod_pos_bound (n + 1) th Hth).
  destruct (Z.eqb_spec ((n + 1) mod th) 0); nia.
Qed.

(** One failing route blocks neither the others nor later receipts: whatever hooks and
    callbacks do, every receipt becomes a leaf in order, exactly the receipts whose
    insert succeeded are stored, and for each task the anchoring is reported once per
    [anchoring_threshold] receipts. *)
Theorem pipeline_fanout jobs s t outs s' :
  0 < anchoring_threshold s -> task_receipt_count s = ∅ ->
  sync_all jobs s = (outs, s') ->
  Forall (fun o => is_ok o = true) outs /\
  leaves (merkle s') = leaves (merkle s) ++ (compute_leaf sha_text payload_digest <$> jobs.*2) /\
  stored s' = stored s ++ (filter (fun j => hook_ok j.1 j.2 = true) jobs).*2 /\
  Z.of_nat (triggered_for t jobs outs) = Z.of_nat (receipts_of t jobs) / anchoring_threshold s.
Proof.
  intros Hth Hc Hr.
  enough (length outs = length jobs /\ anchoring_threshold s' = anchoring_threshold s /\
    Forall (fun o => is_ok o = true) outs /\
    (forall t, default 0 (task_receipt_count s' !! t) = Z.of_nat (receipts_of t jobs)) /\
    leaves (merkle s') = leaves (merkle s) ++ (compute_leaf sha_text payload_digest <$> jobs.*2) /\
    stored s' = stored s ++ (filter (fun j => hook_ok j.1 j.2 = true) jobs).*2 /\
    Z.of_nat (triggered_for t jobs outs) = Z.of_nat (receipts_of t jobs) / anchoring_threshold s) by naive_solver.
  revert outs s' Hr. induction jobs as [|[h r] jobs IH] using rev_ind; intros outs s'.
  - cbn. intros [= <- <-]. unfold receipts_of, triggered_for. cbn. split_and!; try done; try by rewrite app_nil_r.
    intros t0. rewrite Hc. by rewrite lookup_empty.
  - rewrite sync_all_snoc. destruct (sync_all jobs s) as [outs1 s1] eqn:E1.
    destruct (IH _ _ eq_refl) as (Hlen & Hth1 & Hok & Hcount & Hleaves & Hst & Htr). clear IH.
    unfold sync. destruct (pg_route h r) as [pg errs] eqn:Epg. cbn [append].
    rewrite Hth1, decide_False by lia. cbn [fst snd].
    intros [= <- <-]. cbn [merkle stored task_receipt_count anchoring_threshold leaves].
    rewrite !length_app, Hlen. cbn [length]. split_and!; try done.
    + apply Forall_app. split; [done|by repeat constructor].
    + intros t0. unfold receipts_of. rewrite filter_app, length_app, filter_cons, filter_nil. cbn [fst snd].
      specialize (Hcount t0). unfold receipts_of in Hcount. case_decide as Ht; cbn [length].
      * subst t0. rewrite lookup_insert_eq. cbn. rewrite Hcount. lia.
      * rewrite lookup_insert_ne by done. rewrite Hcount. lia.
    + rewrite fmap_app, fmap_app, app_assoc, <- Hleaves. done.
    + rewrite filter_app, fmap_app, app_assoc, <- Hst, filter_cons, filter_nil. cbn [fst snd].
      unfold pg_route, hook_ok in *. destruct h as [f|]; [|injection Epg as <- <-; done].
      destruct (f r); injection Epg as <- <-; done.
    + unfold triggered_for, receipts_of in *. rewrite zip_snoc by done. rewrite !filter_app, !length_app, !filter_cons, !filter_nil.
      specialize (Hcount (r_task_id r)). unfold receipts_of in Hcount.
      assert (Hrep : forall o, reports t ((h, r), Ok o) = bool_decide (r_task_id r = t) && anchoring_triggered o) by done.
      rewrite Hrep. cbn [fst snd anchoring_triggered].
      destruct (decide (r_task_id r = t)) as [Ht|Ht].
      * subst t. rewrite bool_decide_true, Hcount by done. cbn [andb].
        rewrite !Nat2Z.inj_add, Htr. cbn [length].
        change (Z.of_nat 1) with 1. rewrite (div_next _ (anchoring_threshold s)) by lia.
        f_equal. destruct (_ =? 0); by case_decide.
      * rewrite bool_decide_false by done. cbn [andb length]. rewrite !Nat.add_0_r. exact Htr.
Qed.
End Leaves.

(** *** Witnesses: digests as texts and trees *)

Inductive demo_digest := DText (s : string) | DPair (a b : demo_digest).
Definition demo_payload (j : json) : string := "p".
Definition demo_receipt (i : string) (k : Z) : UniversalReceipt :=
  {| receipt_id := i; r_task_id := "t"; step_index := k; payload_hash := "h"; scenario_data := None;
     created_at := "2026-01-01T00:00:00" |}.

Lemma DPair_no_collision : no_collision DPair.
Proof. intros a b c d [= -> ->]. done. Qed.

Lemma compute_root_total_witness :
  exists root, climb DPair 7 [DText "a"; DText "b"; DText "c"] = Some root.
Proof.
  destruct (compute_root_total DPair [DText "a"; DText "b"; DText "c"] 7) as (root & H & _).
  - discriminate.
  - apply Nat.leb_le. reflexivity.
  - exists root. exact H.
Defined.

Lemma merkle_root_binding_witness :
  compute_root DPair {| leaves := [DText "x"; DText "y"]; anchor_count := 0 |} = Some (DPair (DText "x") (DText "y")) /\
  [DText "x"; DText "y"] = [DText "x"; DText ("y" +:+ "")].
Proof.
  split; [reflexivity|].
  apply (merkle_root_binding DPair [DText "x"; DText "y"] [DText "x"; DText ("y" +:+ "")] (DPair (DText "x") (DText "y"))).
  - exact DPair_no_collision.
  - reflexivity.
  - reflexivity.
  - reflexivity.
Defined.

Lemma leaf_identifies_receipt_witness :
  plain_receipt demo_payload (demo_receipt "r1" 3) = true /\
  receipt_id (demo_receipt "r1" 3) = "r1"%string.
Proof.
  split; [vm_compute; reflexivity|].
  apply (leaf_identifies_receipt DText demo_payload (demo_receipt "r1" 3) (demo_receipt "r1" 3));
    [vm_compute; reflexivity|vm_compute; reflexivity| |reflexivity].
  intros x y [= ->]. reflexivity.
Defined.

Definition demo_svc : SyncSvc demo_digest :=
  {| subscribers := ∅; merkle := {| leaves := []; anchor_count := 0 |}; anchoring_threshold := 2;
     task_receipt_count := ∅; stored := []; delivered := [] |}.
Definition demo_jobs : list (Hook * UniversalReceipt) :=
  [(Some (fun _ => None), demo_receipt "r1" 0); (Some (fun _ => Some "down"%string), demo_receipt "r2" 1);
   (None, demo_receipt "r3" 2)].

Lemma pipeline_fanout_witness :
  exists outs s', sync_all DText demo_payload (fun _ => false) demo_jobs demo_svc = (outs, s') /\
    triggered_for "t" demo_jobs outs = 1%nat /\
    Z.of_nat (triggered_for "t" demo_jobs outs) = Z.of_nat (receipts_of "t" demo_jobs) / 2.
Proof.
  destruct (sync_all DText demo_payload (fun _ => false) demo_jobs demo_svc) as [outs s'] eqn:E.
  exists outs, s'. split; [reflexivity|]. split.
  - vm_compute in E. injection E as <- _. vm_compute. reflexivity.
  - apply (pipeline_fanout DText demo_payload (fun _ => false) demo_jobs demo_svc "t" outs s'); [reflexivity|reflexivity|exact E].
Defined.
