(* ===== verification/ChallengeWindow.v ===== *)
(** * Challenge windows (decentralized_verifier/challenge/window.py)

    [ChallengeWindowManager] opens one time-bounded window per attested task and
    lets a challenge be raised while it is open.  [ChallengeWindow] objects are
    mutable and shared: the caller keeps the object [open_window] returned, the
    manager's dictionary refers to the same object, and every method writes
    [window.status] through the caller's reference.  The model therefore keeps a
    heap of window objects and passes references.

    Times are microseconds since the epoch; the wall clock is an argument of each
    operation that reads it.  Proved: along every sequence of calls with a clock
    that does not go back, settlement is allowed exactly when the window's end has
    passed and no challenge was ever raised, and [raise_challenge] succeeds exactly
    before the end and once. *)
From S2P Require Import Prelude PyFloat.

Open Scope Z_scope.

(** ** Data (decentralized_verifier/__init__.py) *)

Inductive ChallengeWindowStatus := PENDING | OPEN | CLOSED | DISPUTED.
Inductive ChallengeDecision := UPHELD | OVERRULED.

#[export] Instance ChallengeWindowStatus_eq_dec : EqDecision ChallengeWindowStatus.
Proof. solve_decision. Defined.
#[export] Instance ChallengeDecision_eq_dec : EqDecision ChallengeDecision.
Proof. solve_decision. Defined.

Definition ChallengeWindowStatus_value (s : ChallengeWindowStatus) : string :=
  match s with
  | PENDING => "pending" | OPEN => "open" | CLOSED => "closed" | DISPUTED => "disputed"
  end.
Definition ChallengeDecision_value (d : ChallengeDecision) : string :=
  match d with UPHELD => "upheld" | OVERRULED => "overruled" end.

(** [start_at] and [end_at] are ISO-8601 texts of whole seconds in the code, read
    back by [datetime.fromisoformat] without loss: the model keeps the instant. *)
Record ChallengeWindow := {
  challenge_id : string;
  w_task_id : string;
  w_evidence_hash : string;
  start_at : Z;
  end_at : Z;
  duration_seconds : Z;
  status : ChallengeWindowStatus;
}.

Record ChallengeRecord := {
  rec_challenge_id : string;
  rec_task_id : string;
  challenger_wallet : string;
  reason_code : string;
  rec_evidence_hash : string;
  challenge_evidence_cid : string;
  rec_status : string;
  decision : string;
  rec_created_at : Z;
}.

Definition set_status (s : ChallengeWindowStatus) (w : ChallengeWindow) : ChallengeWindow :=
  {| challenge_id := challenge_id w; w_task_id := w_task_id w;
     w_evidence_hash := w_evidence_hash w; start_at := start_at w; end_at := end_at w;
     duration_seconds := duration_seconds w; status := s |}.

(** ** The manager *)

Abbreviation ref := nat.

Record WindowState := { ws_window : ref; ws_challenge : option ChallengeRecord }.

Record Manager := {
  default_duration_seconds : Z;
  windows : gmap string WindowState;
  heap : list ChallengeWindow;
}.

Abbreviation MW := (M Manager Exc).

Definition new_manager (default_duration : Z) : Manager :=
  {| default_duration_seconds := default_duration; windows := ∅; heap := [] |}.

Definition put_state (task_id : string) (st : WindowState) (m : Manager) : Manager :=
  {| default_duration_seconds := default_duration_seconds m;
     windows := <[task_id := st]> (windows m); heap := heap m |}.
Definition write (r : ref) (w : ChallengeWindow) (m : Manager) : Manager :=
  {| default_duration_seconds := default_duration_seconds m;
     windows := windows m; heap := <[r := w]> (heap m) |}.

(** Reading the object a reference denotes; every reference a caller can hold
    denotes one. *)
Definition load (r : ref) : MW ChallengeWindow := fun m =>
  match heap m !! r with
  | Some w => (Ok w, m)
  | None => (Err (AttributeError "status"), m)
  end.
Definition alloc (w : ChallengeWindow) : MW ref := fun m =>
  (Ok (length (heap m)),
   {| default_duration_seconds := default_duration_seconds m; windows := windows m;
      heap := heap m ++ [w] |}).
Definition store_status (r : ref) (s : ChallengeWindowStatus) : MW unit :=
  do! w := load r in m_put (write r (set_status s w)).

(** [datetime] holds the years 1 to 9999; a sum outside raises. *)
Definition datetime_ok (t : Z) : bool :=
  (-62135596800 * 1000000 <=? t) && (t <=? 253402300799 * 1000000 + 999999).
Definition whole_second (t : Z) : Z := t - t mod 1000000.

Definition open_window (task_id evidence_hash task_type : string)
    (duration : option Z) (now : Z) : MW ref :=
  do! ws := m_get windows in
  match ws !! task_id with
  | Some _ => m_raise (ValueError ("Challenge window already exists for task_id=" +:+ task_id))
  | None =>
      do! def := m_get default_duration_seconds in
      let dur := match duration with
                 | Some d => if d =? 0 then def else d
                 | None => def
                 end in
      let start := whole_second now in
      let end_ := start + dur * 1000000 in
      if datetime_ok end_ then
        do! window := alloc {| challenge_id := "challenge-" +:+ task_id; w_task_id := task_id;
                               w_evidence_hash := evidence_hash; start_at := start;
                               end_at := end_; duration_seconds := dur; status := OPEN |} in
        seq! m_put (put_state task_id {| ws_window := window; ws_challenge := None |}) in
        m_ret window
      else m_raise OverflowError
  end.

Definition sync_window_status (window : ref) (now : Z) : MW unit :=
  do! w := load window in
  match status w with
  | OPEN => if end_at w <? now then store_status window CLOSED else m_ret tt
  | _ => m_ret tt
  end.

Definition is_window_open (window : ref) (now : Z) : MW bool :=
  seq! sync_window_status window now in
  do! w := load window in
  m_ret (bool_decide (status w = OPEN)).

Definition is_window_closed (window : ref) (now : Z) : MW bool :=
  seq! sync_window_status window now in
  do! w := load window in
  m_ret (bool_decide (status w = CLOSED)).

Definition can_settle (window : ref) (now : Z) : MW bool :=
  seq! sync_window_status window now in
  do! w := load window in
  m_ret (bool_decide (status w = CLOSED)).

(** [int(delta.total_seconds())]: the microseconds divided by [10**6] as a float,
    then truncated toward zero. *)
Definition trunc (x : float) : Z :=
  match x with
  | S754_finite s m e =>
      let r := if 0 <=? e then Zpos m * 2 ^ e else Zpos m / 2 ^ (- e) in
      if s then - r else r
  | _ => 0
  end.
Definition total_seconds (delta : Z) : float :=
  match delta with
  | Zpos p => float_of_ratio false p 1000000
  | Zneg p => float_of_ratio true p 1000000
  | Z0 => fzero
  end.

(** The clock is read twice: by the synchronisation and for the difference. *)
Definition get_remaining_seconds (window : ref) (now now' : Z) : MW Z :=
  seq! sync_window_status window now in
  do! w := load window in
  match status w with
  | OPEN => m_ret (Z.max 0 (trunc (total_seconds (end_at w - now'))))
  | _ => m_ret 0
  end.

(** [suffix] is the random part of the challenge id. *)
Definition raise_challenge (window : ref) (challenger reason evidence_cid : string)
    (suffix : string) (now now' : Z) : MW ChallengeRecord :=
  seq! sync_window_status window now in
  do! w := load window in
  match status w with
  | OPEN =>
      do! ws := m_get windows in
      match ws !! w_task_id w with
      | None => m_raise (ValueError ("No window state found for task_id=" +:+ w_task_id w))
      | Some st =>
          match ws_challenge st with
          | Some _ => m_raise (ValueError ("Challenge already raised for task_id=" +:+ w_task_id w))
          | None =>
              let record :=
                {| rec_challenge_id := "challenge-" +:+ w_task_id w +:+ "-" +:+ suffix;
                   rec_task_id := w_task_id w; challenger_wallet := challenger;
                   reason_code := reason; rec_evidence_hash := w_evidence_hash w;
                   challenge_evidence_cid := evidence_cid; rec_status := "open";
                   decision := ""; rec_created_at := whole_second now' |} in
              seq! m_put (put_state (w_task_id w)
                     {| ws_window := ws_window st; ws_challenge := Some record |}) in
              seq! store_status window DISPUTED in
              m_ret record
          end
      end
  | s => m_raise (ValueError ("Cannot raise challenge: window status is "
                                +:+ ChallengeWindowStatus_value s))
  end.

Definition resolved (d : ChallengeDecision) (c : ChallengeRecord) : ChallengeRecord :=
  {| rec_challenge_id := rec_challenge_id c; rec_task_id := rec_task_id c;
     challenger_wallet := challenger_wallet c; reason_code := reason_code c;
     rec_evidence_hash := rec_evidence_hash c;
     challenge_evidence_cid := challenge_evidence_cid c; rec_status := "resolved";
     decision := ChallengeDecision_value d; rec_created_at := rec_created_at c |}.

Definition resolve_challenge (window : ref) (d : ChallengeDecision) (now : Z) :
    MW ChallengeRecord :=
  do! w := load window in
  do! ws := m_get windows in
  match ws !! w_task_id w with
  | Some {| ws_window := r; ws_challenge := Some c |} =>
      let challenge := resolved d c in
      seq! m_put (put_state (w_task_id w) {| ws_window := r; ws_challenge := Some challenge |}) in
      match d with
      | UPHELD => seq! store_status window DISPUTED in m_ret challenge
      | OVERRULED => seq! sync_window_status window now in m_ret challenge
      end
  | _ => m_raise (ValueError ("No active challenge for task_id=" +:+ w_task_id w))
  end.

(** ** Runs: any sequence of calls, with a clock that does not go back *)

Inductive Call :=
| OpenWindow (task_id evidence_hash task_type : string) (duration : option Z)
| IsWindowOpen (window : ref)
| IsWindowClosed (window : ref)
| CanSettle (window : ref)
| GetRemainingSeconds (window : ref) (now' : Z)
| RaiseChallenge (window : ref) (challenger reason evidence_cid suffix : string) (now' : Z)
| ResolveChallenge (window : ref) (d : ChallengeDecision).

Definition perform (c : Call) (now : Z) (m : Manager) : Manager :=
  match c with
  | OpenWindow k h ty d => exec (open_window k h ty d now) m
  | IsWindowOpen r => exec (is_window_open r now) m
  | IsWindowClosed r => exec (is_window_closed r now) m
  | CanSettle r => exec (can_settle r now) m
  | GetRemainingSeconds r now' => exec (get_remaining_seconds r now now') m
  | RaiseChallenge r who why cid sfx now' => exec (raise_challenge r who why cid sfx now now') m
  | ResolveChallenge r d => exec (resolve_challenge r d now) m
  end.

Inductive reaches (default_duration : Z) : Z -> Manager -> Prop :=
| reaches_new t : reaches default_duration t (new_manager default_duration)
| reaches_call t t' c m :
    reaches default_duration t m -> t <= t' ->
    reaches default_duration t' (perform c t' m).

(** ** The invariant *)

(** What a window's status says of its task's record at time [t]. *)
Definition status_ok (t : Z) (w : ChallengeWindow) (ch : option ChallengeRecord) : Prop :=
  match status w with
  | PENDING => False
  | OPEN => ch = None
  | CLOSED => ch = None /\ end_at w < t
  | DISPUTED => ch <> None
  end.

Record inv (t : Z) (m : Manager) : Prop := {
  inv_state k st : windows m !! k = Some st ->
    exists w, heap m !! ws_window st = Some w /\ w_task_id w = k /\
              status_ok t w (ws_challenge st);
  inv_heap r w : heap m !! r = Some w ->
    exists st, windows m !! w_task_id w = Some st /\ ws_window st = r;
}.

Lemma status_ok_later t t' w ch : t <= t' -> status_ok t w ch -> status_ok t' w ch.
Proof. unfold status_ok. destruct (status w); intuition lia. Qed.

Lemma inv_later t t' m : t <= t' -> inv t m -> inv t' m.
Proof.
  intros Ht [Hs Hh]. split; [|done]. intros k st Hk.
  destruct (Hs k st Hk) as (w & ? & ? & ?). eauto using status_ok_later.
Qed.

(** One window and its task's record are updated together. *)
Lemma inv_update t m r w k st w' ch :
  inv t m -> heap m !! r = Some w -> windows m !! k = Some st -> w_task_id w = k ->
  w_task_id w' = k -> status_ok t w' ch ->
  inv t (write r w' (put_state k {| ws_window := ws_window st; ws_challenge := ch |} m)).
Proof.
  intros [Hs Hh] Hr Hk <- Hw' Hok.
  destruct (Hh r w Hr) as (st' & ? & Hst). simplify_eq.
  assert (Hlt := lookup_lt_Some _ _ _ Hr).
  split; simpl.
  - intros k st'. destruct (decide (k = w_task_id w)) as [->|Hne].
    + rewrite lookup_insert_eq. intros [= <-]. simpl. exists w'.
      rewrite list_lookup_insert_eq by done. eauto.
    + rewrite lookup_insert_ne by done. intros Hk'.
      destruct (Hs _ _ Hk') as (w2 & Hw2 & <- & Hok2). exists w2.
      rewrite list_lookup_insert_ne; [eauto|]. intros Heq. rewrite <- Heq in Hw2. congruence.
  - intros r' w2. destruct (decide (ws_window st = r')) as [<-|Hne].
    + rewrite list_lookup_insert_eq by done. intros [= <-]. rewrite Hw', lookup_insert_eq. eauto.
    + rewrite list_lookup_insert_ne by done. intros Hw2.
      destruct (Hh _ _ Hw2) as (st2 & Hst2 & <-).
      rewrite lookup_insert_ne; [eauto|]. intros Heq. rewrite Heq in *. congruence.
Qed.

Lemma put_state_same m k st : windows m !! k = Some st -> put_state k st m = m.
Proof. intros. unfold put_state. rewrite insert_id by done. by destruct m. Qed.

Lemma write_same m r w : heap m !! r = Some w -> write r w m = m.
Proof. intros. unfold write. rewrite list_insert_id by done. by destruct m. Qed.

(** ** The synchronised window *)

Definition synced (now : Z) (w : ChallengeWindow) : ChallengeWindow :=
  match status w with
  | OPEN => if end_at w <? now then set_status CLOSED w else w
  | _ => w
  end.

Lemma synced_task now w : w_task_id (synced now w) = w_task_id w.
Proof. unfold synced. by split_matches. Qed.

Lemma synced_ok t w ch : status_ok t w ch -> status_ok t (synced t w) ch.
Proof.
  unfold synced, status_ok. destruct (status w) eqn:E; simpl; rewrite ?E; try done.
  destruct (end_at w <? t) eqn:Ht; simpl; rewrite ?E; [|done].
  apply Z.ltb_lt in Ht. auto.
Qed.

Lemma sync_run r now m w :
  heap m !! r = Some w -> sync_window_status r now m = (Ok tt, write r (synced now w) m).
Proof.
  intros Hr. unfold sync_window_status, store_status, load, synced. run_monad. rewrite Hr.
  destruct (status w); simpl; unfold m_ret; rewrite ?(write_same _ _ _ Hr); try done.
  destruct (end_at w <? now); rewrite ?(write_same _ _ _ Hr); [|done].
  unfold load. by rewrite Hr.
Qed.

Lemma load_written r m w w' :
  heap m !! r = Some w -> load r (write r w' m) = (Ok w', write r w' m).
Proof.
  intros Hr%lookup_lt_Some. unfold load. simpl. by rewrite list_lookup_insert_eq.
Qed.

(** A call on a window first synchronises it, then runs on the synchronised one. *)
Lemma synced_call {A} r now m w (k : ChallengeWindow -> MW A) :
  heap m !! r = Some w ->
  (seq! sync_window_status r now in do! w := load r in k w) m
  = k (synced now w) (write r (synced now w) m).
Proof.
  intros Hr. unfold m_bind at 1. rewrite (sync_run _ _ _ _ Hr).
  unfold m_bind. by rewrite (load_written _ _ _ _ Hr).
Qed.

Lemma dangling_call {A} r now m (k : unit -> MW A) :
  heap m !! r = None -> exec (m_bind (sync_window_status r now) k) m = m.
Proof.
  intros Hr. unfold exec, sync_window_status, load. run_monad. by rewrite Hr.
Qed.

Lemma inv_synced t m r w :
  inv t m -> heap m !! r = Some w -> inv t (write r (synced t w) m).
Proof.
  intros Hi Hr. destruct (inv_heap _ _ Hi _ _ Hr) as (st & Hk & Hst).
  rewrite <- (put_state_same m _ _ Hk) at 1. destruct st as [r' ch]. simpl in Hst. subst r'.
  destruct (inv_state _ _ Hi _ _ Hk) as (w2 & Hw2 & _ & Hok). simpl in *. simplify_eq.
  apply (inv_update t m r w (w_task_id w) {| ws_window := r; ws_challenge := ch |}); auto.
  - apply synced_task.
  - by apply synced_ok.
Qed.

(** ** Every call preserves the invariant *)

Lemma inv_new t d : inv t (new_manager d).
Proof. split; simpl; [intros k st; by rewrite lookup_empty|intros r w; by rewrite lookup_nil]. Qed.

Lemma inv_open t m k h ty d : inv t m -> inv t (exec (open_window k h ty d t) m).
Proof.
  intros Hi. unfold exec, open_window, alloc. run_monad.
  destruct (windows m !! k) as [st|] eqn:Hk; [done|]. case_match; [|done]. simpl.
  destruct Hi as [Hs Hh]. split; simpl.
  - intros k' st. destruct (decide (k = k')) as [<-|Hne].
    + rewrite lookup_insert_eq. intros [= <-]. simpl. eexists.
      rewrite lookup_app_r, Nat.sub_diag by done. simpl. done.
    + rewrite lookup_insert_ne by done. intros Hk'.
      destruct (Hs _ _ Hk') as (w & Hw & ? & ?). exists w.
      rewrite lookup_app_l by (by eapply lookup_lt_Some). done.
  - intros r w. rewrite lookup_app_Some. intros [Hr|[Hr Hw]].
    + destruct (Hh _ _ Hr) as (st & Hst & ?). exists st.
      rewrite lookup_insert_ne; [done|]. intros Heq. rewrite Heq in *. congruence.
    + apply list_lookup_singleton_Some in Hw as [Hz <-]. simpl.
      eexists. rewrite lookup_insert_eq. split; [done|]. simpl. lia.
Qed.

(** The three status checks differ only in the answer they compute. *)
Lemma inv_query {A} t m r (f : ChallengeWindow -> A) :
  inv t m ->
  inv t (exec (seq! sync_window_status r t in do! w := load r in m_ret (f w)) m).
Proof.
  intros Hi. destruct (heap m !! r) as [w|] eqn:Hr; [|by rewrite dangling_call].
  unfold exec. rewrite (synced_call _ _ _ _ _ Hr). by apply inv_synced.
Qed.

Lemma set_status_twice m r w w' : write r w' (write r w m) = write r w' m.
Proof. unfold write. simpl. by rewrite list_insert_insert_eq. Qed.

Lemma write_put_state r w k st m : put_state k st (write r w m) = write r w (put_state k st m).
Proof. done. Qed.

(** [raise_challenge] on a window the manager knows, with no challenge so far. *)
Lemma raise_run m r who why cid sfx now now' w st :
  heap m !! r = Some w -> windows m !! w_task_id w = Some st ->
  raise_challenge r who why cid sfx now now' m =
  match status (synced now w), ws_challenge st with
  | OPEN, None =>
      let record :=
        {| rec_challenge_id := "challenge-" +:+ w_task_id w +:+ "-" +:+ sfx;
           rec_task_id := w_task_id w; challenger_wallet := who; reason_code := why;
           rec_evidence_hash := w_evidence_hash w; challenge_evidence_cid := cid;
           rec_status := "open"; decision := ""; rec_created_at := whole_second now' |} in
      (Ok record,
       write r (set_status DISPUTED w)
         (put_state (w_task_id w) {| ws_window := ws_window st; ws_challenge := Some record |} m))
  | OPEN, Some _ =>
      (Err (ValueError ("Challenge already raised for task_id=" +:+ w_task_id w)),
       write r (synced now w) m)
  | s, _ =>
      (Err (ValueError ("Cannot raise challenge: window status is "
                          +:+ ChallengeWindowStatus_value s)),
       write r (synced now w) m)
  end.
Proof.
  intros Hr Hk. unfold raise_challenge. rewrite (synced_call _ _ _ _ _ Hr).
  assert (Hsame : status (synced now w) = OPEN -> synced now w = w).
  { unfold synced. by split_matches. }
  destruct (status (synced now w)) eqn:E; try done. rewrite (Hsame eq_refl).
  unfold m_bind at 1, m_get. simpl. rewrite Hk.
  destruct (ws_challenge st) as [c|]; [done|].
  unfold m_bind at 1, m_put. unfold store_status, m_bind.
  rewrite write_put_state.
  erewrite load_written by exact Hr. cbv beta iota zeta.
  unfold m_put. rewrite set_status_twice. reflexivity.
Qed.

Lemma inv_raise t m r who why cid sfx now' :
  inv t m -> inv t (exec (raise_challenge r who why cid sfx t now') m).
Proof.
  intros Hi. destruct (heap m !! r) as [w|] eqn:Hr;
    [|unfold raise_challenge; by rewrite dangling_call].
  destruct (inv_heap _ _ Hi _ _ Hr) as (st & Hk & Hst).
  unfold exec. rewrite (raise_run _ _ _ _ _ _ _ _ _ _ Hr Hk).
  destruct (status (synced t w)); simpl; try by apply inv_synced.
  destruct (ws_challenge st) eqn:Hc; simpl; [by apply inv_synced|].
  eapply inv_update; eauto. done.
Qed.

Lemma resolve_run m r d now w st c :
  heap m !! r = Some w -> windows m !! w_task_id w = Some st -> ws_challenge st = Some c ->
  resolve_challenge r d now m =
  (Ok (resolved d c),
   write r (match d with UPHELD => set_status DISPUTED w | OVERRULED => synced now w end)
     (put_state (w_task_id w) {| ws_window := ws_window st; ws_challenge := Some (resolved d c) |} m)).
Proof.
  intros Hr Hk Hc. destruct st as [r' ch]. simpl in Hc. subst ch.
  unfold resolve_challenge, m_bind at 1, load. rewrite Hr.
  unfold m_bind at 1, m_get. rewrite Hk.
  unfold m_bind at 1, m_put. destruct d; unfold m_bind at 1.
  - unfold store_status, load, m_bind, m_put. simpl. by rewrite Hr.
  - by rewrite (sync_run _ _ _ w).
Qed.

Lemma inv_resolve t m r d : inv t m -> inv t (exec (resolve_challenge r d t) m).
Proof.
  intros Hi. destruct (heap m !! r) as [w|] eqn:Hr;
    [|unfold exec, resolve_challenge, load; run_monad; by rewrite Hr].
  destruct (inv_heap _ _ Hi _ _ Hr) as (st & Hk & Hst).
  destruct (ws_challenge st) as [c|] eqn:Hc.
  - unfold exec. rewrite (resolve_run _ _ _ _ _ _ _ Hr Hk Hc).
    destruct (inv_state _ _ Hi _ _ Hk) as (w2 & Hw2 & _ & Hok). rewrite Hst in Hw2. simplify_eq.
    rewrite Hc in Hok. eapply inv_update; eauto; destruct d; simpl; rewrite ?synced_task; try done.
    apply synced_ok. revert Hok. unfold status_ok. destruct (status w); naive_solver.
  - unfold exec, resolve_challenge, load. run_monad. rewrite Hr. simpl. rewrite Hk.
    destruct st as [r' [c|]]; by simpl in Hc.
Qed.

Lemma inv_perform t m c : inv t m -> inv t (perform c t m).
Proof.
  intros Hi. destruct c; simpl; auto using inv_open, inv_raise, inv_resolve;
    try by apply (inv_query t m).
  unfold get_remaining_seconds.
  destruct (heap m !! window) as [w|] eqn:Hr; [|by rewrite dangling_call].
  unfold exec. rewrite (synced_call _ _ _ _ _ Hr).
  destruct (status (synced t w)); by apply inv_synced.
Qed.

Lemma reaches_inv d t m : reaches d t m -> inv t m.
Proof.
  induction 1 as [t|t t' c m _ IH Ht]; [apply inv_new|].
  apply inv_perform. by eapply inv_later.
Qed.
#[export] Hint Resolve reaches_inv inv_later inv_perform : karma.

(** ** What the manager promises *)

(** The status check on a task's window, in terms of the task's record. *)
Lemma closed_iff t m k st now :
  inv t m -> windows m !! k = Some st -> t <= now ->
  exists w, heap m !! ws_window st = Some w /\ w_task_id w = k /\
    (status (synced now w) = CLOSED <-> end_at w < now /\ ws_challenge st = None) /\
    (status (synced now w) = OPEN <-> now <= end_at w /\ ws_challenge st = None).
Proof.
  intros Hi Hk Ht. destruct (inv_state _ _ Hi _ _ Hk) as (w & Hw & Hid & Hok).
  exists w. split_and!; auto;
    unfold synced, status_ok in *; destruct (status w) eqn:E; rewrite ?E; try (naive_solver lia);
    destruct (Z.ltb_spec (end_at w) now); simpl; rewrite ?E; naive_solver lia.
Qed.

Lemma can_settle_run d t m k st now :
  reaches d t m -> windows m !! k = Some st -> t <= now ->
  exists w, heap m !! ws_window st = Some w /\ w_task_id w = k /\
    outcome (can_settle (ws_window st) now) m
    = Ok (bool_decide (end_at w < now /\ ws_challenge st = None)).
Proof.
  intros Hr%reaches_inv Hk Ht. destruct (closed_iff _ _ _ _ _ Hr Hk Ht) as (w & Hw & ? & Hc & _).
  exists w. split_and!; [done|done|]. unfold outcome, can_settle.
  rewrite (synced_call _ _ _ _ _ Hw). simpl. f_equal. by apply bool_decide_ext.
Qed.

(** C33. Settlement gate.  After any sequence of calls on a new manager, with a
    clock that does not go back, the window object of a task is in the heap and
    belongs to the task, and, unless a challenge of the task was overruled, at every later
    time [can_settle] answers true exactly when the end of the window has passed and no
    challenge was recorded: one that is open or upheld blocks the settlement for good.  (What
    happens after a challenge is overruled is not what is documented:
    [overruled_window_never_settles].) *)
Theorem settlement_gate_spec d t m k st now :
  reaches d t m -> windows m !! k = Some st -> t <= now ->
  (forall c, ws_challenge st = Some c -> decision c <> "overruled"%string) ->
  exists w, heap m !! ws_window st = Some w /\ w_task_id w = k /\
    outcome (can_settle (ws_window st) now) m
    = Ok (bool_decide (end_at w < now /\ ws_challenge st = None)).
Proof. intros Hr Hk Ht _. by eapply can_settle_run. Qed.

(** A challenge is accepted exactly while the window is open and once: on a
    reachable manager [raise_challenge] succeeds if and only if the end has not
    passed and the task has no challenge; it then records a challenge naming the
    task and the evidence hash of the window and marks the shared window object
    disputed, and otherwise raises and leaves every task's record as it was. *)
Theorem raise_challenge_spec d t m k st who why cid sfx now now' :
  reaches d t m -> windows m !! k = Some st -> t <= now ->
  exists w, heap m !! ws_window st = Some w /\
    let '(res, m') := raise_challenge (ws_window st) who why cid sfx now now' m in
    if bool_decide (now <= end_at w /\ ws_challenge st = None) then
      exists c, res = Ok c /\ rec_task_id c = k /\ rec_evidence_hash c = w_evidence_hash w /\
        challenger_wallet c = who /\ rec_status c = "open"%string /\
        windows m' = <[k := {| ws_window := ws_window st; ws_challenge := Some c |}]> (windows m) /\
        heap m' = <[ws_window st := set_status DISPUTED w]> (heap m)
    else (exists msg, res = Err (ValueError msg)) /\ windows m' = windows m.
Proof.
  intros Hr%reaches_inv Hk Ht.
  destruct (closed_iff _ _ _ _ _ Hr Hk Ht) as (w & Hw & <- & _ & Ho).
  exists w. split; [done|]. rewrite (raise_run _ _ _ _ _ _ _ _ _ _ Hw Hk).
  case_bool_decide as Hd.
  - rewrite (proj2 Ho Hd). destruct Hd as [_ ->]. simpl. eexists. split_and!; reflexivity.
  - destruct (status (synced now w)) eqn:E; simpl; eauto.
    destruct (ws_challenge st) eqn:Hc; simpl; eauto. naive_solver.
Qed.

(** A challenge once recorded blocks the task for good: also after the arbitrator
    overruled it, [can_settle] answers false at every later time, although
    [resolve_challenge] documents that settlement then proceeds. *)
Theorem overruled_window_never_settles d t m k st c now :
  reaches d t m -> windows m !! k = Some st -> ws_challenge st = Some c ->
  decision c = "overruled"%string -> t <= now ->
  outcome (can_settle (ws_window st) now) m = Ok false.
Proof.
  intros Hr Hk Hc _ Ht. destruct (can_settle_run _ _ _ _ _ _ Hr Hk Ht) as (w & _ & _ & ->).
  rewrite Hc. f_equal. apply bool_decide_eq_false. by intros [_ [=]].
Qed.

(** ** A run: open at 12 s for ten seconds, challenge at 15 s, overrule at 30 s *)

Definition demo_calls : list (Z * Call) :=
  [(12500000, OpenWindow "t1" "h1" "api" (Some 10));
   (13000000, OpenWindow "t2" "h2" "api" (Some 10));
   (15000000, RaiseChallenge 0 "0xB" "evidence_hash_mismatch" "bafy" "ab12cd34" 15000001);
   (30000000, ResolveChallenge 0 OVERRULED)].

Definition run_calls (calls : list (Z * Call)) (m : Manager) : Manager :=
  foldl (fun m c => perform (snd c) (fst c) m) m calls.

Definition demo : Manager := run_calls demo_calls (new_manager 1800).

Lemma demo_reached : reaches 1800 30000000 demo.
Proof.
  apply (reaches_call _ 15000000); [|done]. apply (reaches_call _ 13000000); [|done].
  apply (reaches_call _ 12500000); [|done]. apply (reaches_call _ 12500000); [|done].
  apply reaches_new.
Qed.

Example demo_closes_second :
  outcome (can_settle 1%nat 23000000) demo = Ok false /\
  outcome (can_settle 1%nat 23000001) demo = Ok true /\
  outcome (can_settle 0%nat 99000000) demo = Ok false /\
  outcome (get_remaining_seconds 1%nat 13500000 13500000) demo = Ok 9.
Proof. by vm_compute. Qed.

Lemma settlement_gate_spec_witness :
  outcome (can_settle 1%nat 30000000) demo = Ok true.
Proof.
  destruct (settlement_gate_spec 1800 30000000 demo "t2"
              {| ws_window := 1; ws_challenge := None |} 30000000) as (w & Hw & _ & H).
  - exact demo_reached.
  - reflexivity.
  - lia.
  - intros c Hc. discriminate Hc.
  - vm_compute in Hw. injection Hw as <-. exact H.
Defined.

Lemma raise_challenge_spec_witness :
  exists c, outcome (raise_challenge 1%nat "0xC" "late" "bafz" "00" 30000000 30000000) demo = Err c.
Proof.
  destruct (raise_challenge_spec 1800 30000000 demo "t2"
              {| ws_window := 1; ws_challenge := None |} "0xC" "late" "bafz" "00"
              30000000 30000000) as (w & Hw & H).
  - exact demo_reached.
  - reflexivity.
  - lia.
  - vm_compute in Hw. injection Hw as <-. unfold outcome.
    destruct (raise_challenge _ _ _ _ _ _ _ _) as [res m']. cbv zeta in H. simpl end_at in H.
    rewrite bool_decide_eq_false_2 in H by lia.
    destruct H as [[msg ->] _]. by eexists.
Defined.

Lemma overruled_window_never_settles_witness :
  outcome (can_settle 0%nat 99000000) demo = Ok false.
Proof.
  eapply (overruled_window_never_settles 1800 30000000 demo "t1" {| ws_window := 0 |}).
  - exact demo_reached.
  - vm_compute. reflexivity.
  - reflexivity.
  - reflexivity.
  - lia.
Defined.
