(* ===== verification/Attestation.v ===== *)
(** * Attestations and quorums

    decentralized_verifier/__init__.py (the data), attestation/signer.py (the
    EIP-712 payload and the verification of a signature), attestation/aggregator.py
    (the N-of-M quorum) and sdk/verifier.py ([check_settlement_ready], which joins
    the quorum with the challenge window).

    Parameters: the third-party packages [eth_account] (one function, absent when
    the package is not installed), [pycryptodome]'s keccak and [ecdsa]'s curve
    arithmetic.  Strings are their UTF-8 bytes and byte strings are lists of
    integers below 256. *)
From Stdlib Require Import Ascii.
From S2P Require Import Prelude ChallengeWindow.

Open Scope Z_scope.

(** ** Data *)

Record VerifierAttestation := {
  attestation_version : string;
  task_id : string;
  bundle_id : string;
  evidence_hash : string;
  cid : string;
  verifier_id : string;
  verifier_wallet : string;
  att_decision : string;
  reason_codes : list string;
  verified_at : string;
  chain_id : Z;
  contract_address : string;
  signature : string;
}.

Inductive QuorumStatus := COLLECTING | ATTESTED_OK | ATTESTED_FAIL | INSUFFICIENT_SIGNATURES.
#[export] Instance QuorumStatus_eq_dec : EqDecision QuorumStatus.
Proof. solve_decision. Defined.
Definition QuorumStatus_value (s : QuorumStatus) : string :=
  match s with
  | COLLECTING => "collecting" | ATTESTED_OK => "attested_ok"
  | ATTESTED_FAIL => "attested_fail" | INSUFFICIENT_SIGNATURES => "insufficient_signatures"
  end.

(** [quorum_id] (random) and [created_at] (the clock) are left out. *)
Record AttestationQuorum := {
  q_task_id : string;
  q_evidence_hash : string;
  q_threshold : Z;
  q_total_verifiers : Z;
  valid_signatures : Z;
  q_decision : string;
  attestation_ids : list string;
  verifier_ids : list string;
  q_status : QuorumStatus;
}.

Inductive VerifierStatus := ACTIVE | SUSPENDED | SLASHED | VPENDING.
#[export] Instance VerifierStatus_eq_dec : EqDecision VerifierStatus.
Proof. solve_decision. Defined.

(** The fields of [VerifierNodeInfo] that identify a node. *)
Record VerifierNodeInfo := {
  info_verifier_id : string;
  wallet_address : string;
  info_status : VerifierStatus;
}.

(** ** Python's string and byte functions *)

Abbreviation bytes := (list Z).

Definition hex_value (c : Ascii.ascii) : option Z :=
  let n := Z.of_nat (Ascii.nat_of_ascii c) in
  if (48 <=? n) && (n <=? 57) then Some (n - 48)
  else if (97 <=? n) && (n <=? 102) then Some (n - 87)
  else if (65 <=? n) && (n <=? 70) then Some (n - 55)
  else None.

(** [bytes.fromhex]: pairs of digits, ASCII white space allowed between pairs. *)
Definition hex_space (c : Ascii.ascii) : bool :=
  let n := Ascii.nat_of_ascii c in ((9 <=? n) && (n <=? 13) || (n =? 32))%nat.
Fixpoint fromhex (s : string) : option bytes :=
  match s with
  | EmptyString => Some []
  | String c s' =>
      if hex_space c then fromhex s'
      else match s' with
           | EmptyString => None
           | String d s'' =>
               match hex_value c, hex_value d with
               | Some h, Some l => cons (16 * h + l) <$> fromhex s''
               | _, _ => None
               end
           end
  end.

(** [s.replace("0x", "")]. *)
Fixpoint drop_0x (s : string) : string :=
  match s with
  | String c ((String d s'') as s') =>
      if bool_decide (c = "0"%char /\ d = "x"%char) then drop_0x s''
      else String c (drop_0x s')
  | _ => s
  end.

Definition starts_0x (s : string) : bool :=
  match s with
  | String c (String d _) => bool_decide (c = "0"%char /\ d = "x"%char)
  | _ => false
  end.

Definition zeros (n : nat) : bytes := replicate n 0.
Definition rjust32 (b : bytes) : bytes := zeros (32 - length b) ++ b.
Definition ljust32_cut (b : bytes) : bytes := take 32 (b ++ zeros (32 - length b)).
Fixpoint utf8 (s : string) : bytes :=
  match s with
  | EmptyString => []
  | String c s => Z.of_nat (Ascii.nat_of_ascii c) :: utf8 s
  end.
Definition from_big (b : bytes) : Z := foldl (fun acc x => 256 * acc + x) 0 b.
Fixpoint to_big (n : nat) (v : Z) : bytes :=
  match n with O => [] | S n => to_big n (v / 256) ++ [v mod 256] end.
(** [int.to_bytes(32, "big")]: [OverflowError] outside 256 bits. *)
Definition to_bytes32_int (v : Z) : option bytes :=
  if (0 <=? v) && (v <? 2 ^ 256) then Some (to_big 32 v) else None.

(** ** The EIP-712 payload *)

Record Eip712Payload := {
  dom_chainId : Z;
  dom_verifyingContract : string;
  msg_evidenceHash : bytes;
  msg_cid : string;
  msg_decision : string;
  msg_verifierId : string;
  msg_chainId : Z;
}.

Definition DOMAIN_NAME : string := "KarmaAttestation".
Definition DOMAIN_VERSION : string := "1".

Definition EIP712Domain_fields : list (string * string) :=
  [("name", "string"); ("version", "string"); ("chainId", "uint256");
   ("verifyingContract", "address")]%string.
Definition Attestation_fields : list (string * string) :=
  [("evidenceHash", "bytes32"); ("cid", "string"); ("decision", "string");
   ("verifierId", "string"); ("chainId", "uint256")]%string.

(** [_to_bytes32]: [ValueError] when the text is not hexadecimal. *)
Definition to_bytes32 (hex_str : string) : result Exc bytes :=
  if decide (hex_str = ""%string) then Ok (zeros 32)
  else match fromhex (drop_0x hex_str) with
       | Some b => Ok (rjust32 b)
       | None => Err (ValueError "non-hexadecimal number found in fromhex() arg")
       end.

Definition build_attestation_eip712_payload (a : VerifierAttestation) : result Exc Eip712Payload :=
  let contract_addr := if decide (contract_address a = ""%string)
                       then "0x0000000000000000000000000000000000000000"%string
                       else contract_address a in
  let? h := to_bytes32 (evidence_hash a) in
  Ok {| dom_chainId := chain_id a; dom_verifyingContract := contract_addr;
        msg_evidenceHash := h; msg_cid := cid a; msg_decision := att_decision a;
        msg_verifierId := verifier_id a; msg_chainId := chain_id a |}.

(** ** The third-party packages *)

(** [ecdsa.ellipticcurve]: points of a curve [y^2 = x^3 + a x + b] over [p];
    building a point may raise, and the point at infinity has no coordinates. *)
Class CryptoLib := {
  keccak256 : bytes -> bytes;
  Point : Type;
  mk_point (p a b x y : Z) : option Point;
  pmul : Point -> Z -> Point;
  padd : Point -> Point -> Point;
  pneg : Point -> Point;
  px : Point -> option Z;
  py : Point -> option Z;
  inverse_mod : Z -> Z -> option Z;
  (** [eth_account], when installed: the recovered address, or an exception. *)
  eth_recover : option (Eip712Payload -> string -> option string);
}.

(** [Point.__init__] asserts that the curve contains the point. *)
Class CryptoLaws (L : CryptoLib) := {
  mk_point_on_curve p a b x y P :
    mk_point p a b x y = Some P -> (y * y - ((x * x + a) * x + b)) mod p = 0;
}.

(** ** secp256k1 as the fallback writes it down *)

Definition SECP256k1_curve_p : Z :=
  0xFFFFFFFFFFFFFFFFFFFFFFFFFFFFFFFFFFFFFFFFFFFFFFFFFFFFFFFEFFFFFC2F.
Definition SECP256k1_curve_a : Z := 0.
Definition SECP256k1_curve_b : Z := 7.
Definition SECP256k1_curve_order : Z :=
  0xFFFFFFFFFFFFFFFFFFFFFFFFFFFFFFFEBAAEDCE6AF48A03BBFD25E8CD0364141.
Definition SECP256k1_generator_x : Z :=
  0x79BE667EF9DCBBAC55A06295CE870B07029BFCDB2DCE28D959F2815B16CF81798.
Definition SECP256k1_generator_y : Z :=
  0x483ADA7726A3C4655DA4FBFC0E1108A8FD17B448A68554199C47D08FFB10D4B8.

(** [pow(b, e, m)] by repeated squaring. *)
Fixpoint pow_mod_pos (b : Z) (e : positive) (m : Z) : Z :=
  match e with
  | xH => b mod m
  | xO e => let h := pow_mod_pos b e m in (h * h) mod m
  | xI e => let h := pow_mod_pos b e m in ((h * h) mod m * b) mod m
  end.
Definition pow_mod (b e m : Z) : Z :=
  match e with Zpos e => pow_mod_pos b e m | _ => 1 mod m end.

Definition hex_digit (n : Z) : Ascii.ascii :=
  Ascii.ascii_of_nat (Z.to_nat (if n <? 10 then 48 + n else 87 + n)).
Fixpoint to_hex (b : bytes) : string :=
  match b with
  | [] => EmptyString
  | x :: b => String (hex_digit (x / 16)) (String (hex_digit (x mod 16)) (to_hex b))
  end.

Section Signer.
Context {L : CryptoLib}.

(** [encode_type], [type_hash] and [encode_data] of [_eip712_struct_hash]; the
    two struct types have only the four basic field types, so that no
    referenced type is appended. *)
Definition encode_type (primary_type : string) (fields : list (string * string)) : string :=
  primary_type +:+ "(" +:+
  String.concat "," ((fun f => snd f +:+ " " +:+ fst f) <$> fields) +:+ ")".
Definition type_hash (primary_type : string) (fields : list (string * string)) : bytes :=
  keccak256 (utf8 (encode_type primary_type fields)).

Inductive FieldValue := VText (s : string) | VBytes (b : bytes) | VInt (n : Z).

Definition encode_field (ftype : string) (v : FieldValue) : option bytes :=
  if decide (ftype = "string"%string) then
    match v with VText s => Some (keccak256 (utf8 s)) | _ => None end
  else if decide (ftype = "bytes32"%string) then
    match v with VBytes b => Some (ljust32_cut b) | _ => None end
  else if decide (ftype = "uint256"%string) then
    match v with VInt n => to_bytes32_int n | _ => None end
  else
    match v with VText s => rjust32 <$> fromhex (drop_0x (py_lower s)) | _ => None end.

Fixpoint encode_fields (fields : list (string * string)) (data : string -> option FieldValue) :
    option bytes :=
  match fields with
  | [] => Some []
  | (name, ftype) :: fields =>
      v ← data name; b ← encode_field ftype v; rest ← encode_fields fields data;
      Some (b ++ rest)
  end.
Definition encode_data (primary_type : string) (fields : list (string * string))
    (data : string -> option FieldValue) : option bytes :=
  app (type_hash primary_type fields) <$> encode_fields fields data.

Definition domain_data (p : Eip712Payload) (name : string) : option FieldValue :=
  dict_get name [("name", VText DOMAIN_NAME); ("version", VText DOMAIN_VERSION);
                 ("chainId", VInt (dom_chainId p));
                 ("verifyingContract", VText (dom_verifyingContract p))]%string.
Definition message_data (p : Eip712Payload) (name : string) : option FieldValue :=
  dict_get name [("evidenceHash", VBytes (msg_evidenceHash p)); ("cid", VText (msg_cid p));
                 ("decision", VText (msg_decision p)); ("verifierId", VText (msg_verifierId p));
                 ("chainId", VInt (msg_chainId p))]%string.

Definition eip712_struct_hash (p : Eip712Payload) : option bytes :=
  d ← encode_data "EIP712Domain" EIP712Domain_fields (domain_data p);
  m ← encode_data "Attestation" Attestation_fields (message_data p);
  Some (keccak256 ([0x19; 0x01] ++ keccak256 d ++ keccak256 m)).

(** [_recover_address_from_signature]; [None] when a call raises. *)
Definition recover_address_from_signature (digest : bytes) (r s v : Z) : option string :=
  let curve_p := SECP256k1_curve_p in
  generator ← mk_point curve_p SECP256k1_curve_a SECP256k1_curve_b
                SECP256k1_generator_x SECP256k1_generator_y;
  let n := SECP256k1_curve_order in
  let x := r in
  let y_sq := (pow_mod x 3 curve_p + 7) mod curve_p in
  let y := pow_mod y_sq ((curve_p + 1) / 4) curve_p in
  let y := if v mod 2 =? y mod 2 then y else curve_p - y in
  R ← mk_point curve_p SECP256k1_curve_a SECP256k1_curve_b x y;
  r_inv ← inverse_mod r n;
  let z := from_big digest mod n in
  let Q := pmul (padd (pmul R s) (pneg (pmul generator z))) r_inv in
  qx ← px Q; qy ← py Q;
  bx ← to_bytes32_int qx; by_ ← to_bytes32_int qy;
  let h := keccak256 (bx ++ by_) in
  Some ("0x" +:+ to_hex (drop (length h - 20) h))%string.

Definition verify_attestation_pure_python (a : VerifierAttestation) (p : Eip712Payload) : bool :=
  match
    digest ← eip712_struct_hash p;
    sig_bytes ← fromhex (drop_0x (signature a));
    if decide (length sig_bytes = 65)%nat then
      let r := from_big (take 32 sig_bytes) in
      let s := from_big (take 32 (drop 32 sig_bytes)) in
      let v := default 0 (sig_bytes !! 64%nat) in
      recovered ← recover_address_from_signature digest r s v;
      Some (bool_decide (py_lower recovered = py_lower (verifier_wallet a)))
    else Some false
  with
  | Some b => b
  | None => false
  end.

(** The payload is built before the [try]: a hash that is not hexadecimal raises. *)
Definition verify_attestation (a : VerifierAttestation) : result Exc bool :=
  if decide (signature a = ""%string) then Ok false
  else if negb (starts_0x (signature a)) then Ok false
  else
    let? payload := build_attestation_eip712_payload a in
    match eth_recover with
    | Some recover =>
        match recover payload (signature a) with
        | Some recovered => Ok (bool_decide (py_lower recovered = py_lower (verifier_wallet a)))
        | None => Ok (verify_attestation_pure_python a payload)
        end
    | None => Ok (verify_attestation_pure_python a payload)
    end.
End Signer.

(** ** The aggregator *)

Record AttestationAggregator := {
  threshold : Z;
  total_verifiers : Z;
  verifier_registry : gmap string VerifierNodeInfo;
}.

Definition new_aggregator (n total : Z) (registry : option (gmap string VerifierNodeInfo)) :
    result Exc AttestationAggregator :=
  if n <? 1 then Err (ValueError "threshold must be at least 1")
  else if total <? n then Err (ValueError "total_verifiers must be >= threshold")
  else Ok {| threshold := n; total_verifiers := total; verifier_registry := default ∅ registry |}.

Definition empty_quorum (ag : AttestationAggregator) : AttestationQuorum :=
  {| q_task_id := ""; q_evidence_hash := ""; q_threshold := threshold ag;
     q_total_verifiers := total_verifiers ag; valid_signatures := 0;
     q_decision := "ATTESTED_FAIL"; attestation_ids := []; verifier_ids := [];
     q_status := INSUFFICIENT_SIGNATURES |}.

Definition says_ok (a : VerifierAttestation) : bool := bool_decide (att_decision a = "STRUCT_OK"%string).

Definition compute_verdict (valid : list VerifierAttestation) : string :=
  match valid with
  | [] => "ATTESTED_FAIL"
  | _ =>
      let ok_count := Z.of_nat (length (List.filter says_ok valid)) in
      let fail_count := Z.of_nat (length valid) - ok_count in
      if fail_count <=? ok_count then "ATTESTED_OK" else "ATTESTED_FAIL"
  end.

(** Step 1: one attestation per verifier, the first one. *)
Fixpoint dedup (seen : gset string) (l : list VerifierAttestation) : list VerifierAttestation :=
  match l with
  | [] => []
  | a :: l =>
      if decide (verifier_id a ∈ seen) then dedup seen l
      else a :: dedup ({[verifier_id a]} ∪ seen) l
  end.

(** Step 2: with a registry, only its active verifiers. *)
Definition registered (ag : AttestationAggregator) (v : string) : bool :=
  if decide (verifier_registry ag = ∅) then true
  else match verifier_registry ag !! v with
       | Some info => bool_decide (info_status info = ACTIVE)
       | None => false
       end.

Section Aggregator.
Context {L : CryptoLib}.

(** Step 4: the attestations whose signature verifies. *)
Fixpoint valid_of (l : list VerifierAttestation) : result Exc (list VerifierAttestation) :=
  match l with
  | [] => Ok []
  | a :: l =>
      let? b := verify_attestation a in
      let? rest := valid_of l in
      Ok (if b then a :: rest else rest)
  end.

Definition quorum_of (ag : AttestationAggregator) (canonical_hash : string)
    (valid : list VerifierAttestation) : AttestationQuorum :=
  let valid_count := Z.of_nat (length valid) in
  {| q_task_id := match valid with a :: _ => task_id a | [] => "" end;
     q_evidence_hash := canonical_hash; q_threshold := threshold ag;
     q_total_verifiers := total_verifiers ag; valid_signatures := valid_count;
     q_decision := compute_verdict valid;
     attestation_ids := verifier_id <$> valid; verifier_ids := verifier_id <$> valid;
     q_status := if threshold ag <=? valid_count then ATTESTED_OK
                 else INSUFFICIENT_SIGNATURES |}.

Definition collect (ag : AttestationAggregator) (attestations : list VerifierAttestation) :
    result Exc AttestationQuorum :=
  match attestations with
  | [] => Ok (empty_quorum ag)
  | _ =>
      let deduped := List.filter (fun a => registered ag (verifier_id a))
                       (dedup ∅ attestations) in
      match deduped with
      | [] => Ok (empty_quorum ag)
      | first :: _ =>
          let canonical_hash := evidence_hash first in
          let consistent :=
            List.filter (fun a => bool_decide (evidence_hash a = canonical_hash)) deduped in
          match consistent with
          | [] => Ok (empty_quorum ag)
          | _ => let? valid := valid_of consistent in Ok (quorum_of ag canonical_hash valid)
          end
      end
  end.
End Aggregator.

Definition is_quorum_reached (q : AttestationQuorum) : bool := bool_decide (q_status q = ATTESTED_OK).
Definition get_verdict (q : AttestationQuorum) : string :=
  if is_quorum_reached q then q_decision q else "insufficient".

(** ** Settlement readiness (sdk/verifier.py) *)

Definition check_settlement_ready (q : AttestationQuorum) (window : ref) (now : Z) :
    MW (bool * string) :=
  if negb (bool_decide (q_status q = ATTESTED_OK)) then
    m_ret (false, "quorum not reached: " +:+ QuorumStatus_value (q_status q))
  else
    do! closed := is_window_closed window now in
    if negb closed then m_ret (false, "challenge window still open")
    else
      do! w := load window in
      if bool_decide (status w = DISPUTED) then m_ret (false, "task is disputed")
      else m_ret (true, "ready for settlement").

(** ** Lemmas of the pipeline *)

(** The first attestation of a verifier. *)
Fixpoint first_of (v : string) (l : list VerifierAttestation) : option VerifierAttestation :=
  match l with
  | [] => None
  | a :: l => if decide (verifier_id a = v) then Some a else first_of v l
  end.

Lemma first_of_id v l a : first_of v l = Some a -> verifier_id a = v.
Proof. induction l as [|b l IH]; simpl; [done|]. case_decide; naive_solver. Qed.

Lemma dedup_elem a seen l :
  a ∈ dedup seen l <-> (verifier_id a ∉ seen) /\ first_of (verifier_id a) l = Some a.
Proof.
  revert seen. induction l as [|b l IH]; intros seen; simpl.
  - split; [by intros ?%not_elem_of_nil|naive_solver].
  - case_decide as Hb.
    + rewrite IH. case_decide as Hab; [|done]. rewrite <- Hab. split; [naive_solver|].
      intros [? _]. done.
    + rewrite elem_of_cons, IH, not_elem_of_union, not_elem_of_singleton.
      case_decide as Hab; [|naive_solver]. split; [|naive_solver].
      intros [->|[[Hne _] _]]; [done|congruence].
Qed.

Lemma dedup_ids_NoDup seen l : NoDup (verifier_id <$> dedup seen l).
Proof.
  revert seen. induction l as [|b l IH]; intros seen; simpl; [apply NoDup_nil_2|].
  case_decide as Hb; [done|]. simpl. apply NoDup_cons. split; [|done].
  intros (a & Ha & [Hn _]%dedup_elem)%list_elem_of_fmap. set_solver.
Qed.

Lemma filter_ids_NoDup (f : VerifierAttestation -> bool) l :
  NoDup (verifier_id <$> l) -> NoDup (verifier_id <$> List.filter f l).
Proof.
  induction l as [|a l IH]; simpl; [done|]. intros [Hn Hd]%NoDup_cons.
  destruct (f a); simpl; [|auto]. apply NoDup_cons. split; [|auto].
  intros (b & Hb & Hin)%list_elem_of_fmap. apply Hn. rewrite Hb. apply list_elem_of_fmap_2.
  apply list_elem_of_In, filter_In in Hin as [Hin _]. by apply list_elem_of_In.
Qed.

Lemma elem_of_bfilter {A} (f : A -> bool) x l : x ∈ List.filter f l <-> x ∈ l /\ f x = true.
Proof. by rewrite !list_elem_of_In, filter_In. Qed.

(** Removing later duplicates does not change the first element with a property
    that depends only on the verifier. *)
Lemma dedup_head (f : string -> bool) seen l :
  (forall v, v ∈ seen -> f v = false) ->
  (head (List.filter (fun a => f (verifier_id a)) (dedup seen l)))
  = head (List.filter (fun a => f (verifier_id a)) l).
Proof.
  revert seen. induction l as [|a l IH]; intros seen Hs; simpl; [done|].
  case_decide as Ha; simpl.
  - rewrite (Hs _ Ha). auto.
  - destruct (f (verifier_id a)) eqn:Hf; [done|]. apply IH. set_solver.
Qed.

Section AggregatorSpec.
Context {L : CryptoLib}.

Definition verifies (a : VerifierAttestation) : bool :=
  match verify_attestation a with Ok b => b | Err _ => false end.

(** The hash the quorum is about: that of the first attestation of a
    registered verifier. *)
Definition canonical (ag : AttestationAggregator) (l : list VerifierAttestation) :
    option VerifierAttestation :=
  head (List.filter (fun a => registered ag (verifier_id a)) l).

Definition hash_readable (a : VerifierAttestation) : bool := is_ok (to_bytes32 (evidence_hash a)).

Lemma verify_total a :
  hash_readable a = true -> verify_attestation a = Ok (verifies a).
Proof.
  unfold hash_readable, verifies, verify_attestation, build_attestation_eip712_payload, rbind.
  intros H. destruct (to_bytes32 (evidence_hash a)); [|done]. by split_matches.
Qed.

Lemma valid_of_total l :
  (forall a, a ∈ l -> hash_readable a = true) -> valid_of l = Ok (List.filter verifies l).
Proof.
  induction l as [|a l IH]; intros Hl; simpl; [done|].
  rewrite verify_total by (apply Hl; by left). simpl.
  rewrite IH by (intros b Hb; apply Hl; by right). simpl. by destruct (verifies a).
Qed.

Definition counted (ag : AttestationAggregator) (h : string) (l : list VerifierAttestation) :
    list VerifierAttestation :=
  List.filter verifies
    (List.filter (fun a => bool_decide (evidence_hash a = h))
       (List.filter (fun a => registered ag (verifier_id a)) (dedup ∅ l))).

(** [collect] in one equation. *)
Lemma collect_eq ag l :
  (forall a, canonical ag l = Some a -> hash_readable a = true) ->
  collect ag l =
  Ok match canonical ag l with
     | None => empty_quorum ag
     | Some a => quorum_of ag (evidence_hash a) (counted ag (evidence_hash a) l)
     end.
Proof.
  intros Hc. unfold collect. destruct l as [|a0 l0]; [done|].
  set (l := a0 :: l0) in *. clearbody l.
  assert (Hh := dedup_head (registered ag) ∅ l ltac:(set_solver)).
  unfold canonical, counted in *. rewrite <- Hh in Hc |- *. clear Hh.
  destruct (List.filter (fun a => registered ag (verifier_id a)) (dedup ∅ l)) as [|f ds] eqn:Hf;
    [done|]. specialize (Hc f eq_refl).
  cbn [head hd_error]. set (cs := List.filter (fun a => bool_decide (evidence_hash a = evidence_hash f)) (f :: ds)).
  assert (Hcs : forall a, a ∈ cs -> hash_readable a = true).
  { intros a [_ Ha]%elem_of_bfilter. apply bool_decide_eq_true in Ha.
    unfold hash_readable in *. by rewrite Ha. }
  rewrite (valid_of_total cs Hcs). destruct cs as [|c cs'] eqn:Ecs; [|reflexivity]. exfalso.
  subst cs. simpl in Ecs. by rewrite bool_decide_eq_true_2 in Ecs.
Qed.

Lemma counted_elem ag h l v :
  v ∈ (verifier_id <$> counted ag h l) <->
  exists a, first_of v l = Some a /\ registered ag v = true /\ evidence_hash a = h /\
            verifies a = true.
Proof.
  unfold counted. rewrite list_elem_of_fmap. split.
  - intros (a & -> & Ha). rewrite !elem_of_bfilter, dedup_elem, bool_decide_eq_true in Ha.
    exists a. naive_solver.
  - intros (a & Ha & Hr & Hh & Hv). assert (Hid := first_of_id _ _ _ Ha). subst v.
    exists a. split; [done|].
    rewrite !elem_of_bfilter, dedup_elem, bool_decide_eq_true. set_solver.
Qed.

Lemma counted_NoDup ag h l : NoDup (verifier_id <$> counted ag h l).
Proof. unfold counted. repeat apply filter_ids_NoDup. apply dedup_ids_NoDup. Qed.

(** The verifiers among the counted ones whose attestation says OK. *)
Definition ok_votes (l : list VerifierAttestation) (vs : list string) : list string :=
  List.filter (fun v => match first_of v l with Some a => says_ok a | None => false end) vs.

Lemma ok_votes_length l cs :
  (forall a, a ∈ cs -> first_of (verifier_id a) l = Some a) ->
  length (ok_votes l (verifier_id <$> cs)) = length (List.filter says_ok cs).
Proof.
  induction cs as [|a cs IH]; intros H; [done|].
  unfold ok_votes in *. simpl. rewrite (H a) by (by left).
  assert (IH' := IH ltac:(intros b Hb; apply H; by right)).
  destruct (says_ok a); simpl; [f_equal|]; exact IH'.
Qed.

Lemma verdict_iff cs :
  compute_verdict cs = "ATTESTED_OK"%string <->
  cs <> [] /\ (Z.of_nat (length cs) <= 2 * Z.of_nat (length (List.filter says_ok cs)))%Z.
Proof.
  unfold compute_verdict. destruct cs as [|a cs]; [naive_solver|].
  set (n := Z.of_nat (length (a :: cs))). set (k := Z.of_nat (length (List.filter _ _))).
  cbv zeta. destruct (Z.leb_spec (n - k) k); split; try done.
  - intros _. split; [done|lia].
  - intros [_ ?]. lia.
Qed.
End AggregatorSpec.

(** ** Theorems *)

Lemma new_aggregator_ok n total reg ag : new_aggregator n total reg = Ok ag -> 1 <= threshold ag.
Proof.
  unfold new_aggregator. destruct (Z.ltb_spec n 1); [done|].
  destruct (total <? n); [done|]. by intros [= <-].
Qed.

Lemma quorum_status_iff ag h vs :
  q_status (quorum_of ag h vs) = ATTESTED_OK <-> threshold ag <= Z.of_nat (length vs).
Proof. simpl. destruct (Z.leb_spec (threshold ag) (Z.of_nat (length vs))); naive_solver lia. Qed.

(** C32. N-of-M quorum.  For an aggregator its constructor accepts, and when the
    first registered attestation carries a hexadecimal hash, [collect] returns a
    quorum in which each verifier counts at most once, exactly the registered
    active verifiers count whose first attestation carries the canonical hash and a
    signature that verifies, the quorum is reached exactly when at least
    [threshold] verifiers count, and the decision is the majority's: OK when most of the
    counted verifiers attest STRUCT_OK, and not OK when most do not or nobody counts. *)
Theorem attestation_quorum_spec {L : CryptoLib} n total reg ag l :
  new_aggregator n total reg = Ok ag ->
  (forall a, canonical ag l = Some a -> hash_readable a = true) ->
  exists q, collect ag l = Ok q /\
    NoDup (verifier_ids q) /\
    valid_signatures q = Z.of_nat (length (verifier_ids q)) /\
    (forall v, v ∈ verifier_ids q <->
       exists a, first_of v l = Some a /\ registered ag v = true /\
         (exists c, canonical ag l = Some c /\ evidence_hash a = evidence_hash c) /\
         verifies a = true) /\
    (is_quorum_reached q = true <-> threshold ag <= valid_signatures q) /\
    (let ok := Z.of_nat (length (ok_votes l (verifier_ids q))) in
     (valid_signatures q < 2 * ok -> q_decision q = "ATTESTED_OK"%string) /\
     (2 * ok < valid_signatures q \/ verifier_ids q = [] -> q_decision q <> "ATTESTED_OK"%string)).
Proof.
  intros Hn%new_aggregator_ok Hc. rewrite (collect_eq ag l Hc). eexists. split; [reflexivity|].
  unfold is_quorum_reached. rewrite bool_decide_eq_true.
  destruct (canonical ag l) as [c|]; [rewrite quorum_status_iff|]; simpl.
  - set (cs := counted ag (evidence_hash c) l).
    assert (Hok : length (ok_votes l (verifier_id <$> cs)) = length (List.filter says_ok cs)).
    { apply ok_votes_length. intros a. unfold cs, counted. rewrite !elem_of_bfilter, dedup_elem. naive_solver. }
    split_and!.
    + apply counted_NoDup.
    + by rewrite length_fmap.
    + intros v. unfold cs. rewrite counted_elem. naive_solver.
    + done.
    + rewrite Hok. rewrite verdict_iff. intros H. split; [intros E; rewrite E in H; cbn in H; lia|lia].
    + rewrite Hok, verdict_iff. intros [H|H] [Hne ?]; [lia|]. by apply fmap_nil_inv in H.
  - split_and!; [apply NoDup_nil_2|done| |naive_solver lia|by cbn; lia|by intros _].
    intros v. split; [by intros ?%not_elem_of_nil|naive_solver].
Qed.

(** Settlement readiness.  On a reachable manager, [check_settlement_ready]
    answers true exactly when the quorum has the status ATTESTED_OK, the end of the
    task's window has passed and no challenge was ever recorded. *)
Theorem settlement_ready_spec d t m k st now q :
  reaches d t m -> windows m !! k = Some st -> t <= now ->
  exists w reason, heap m !! ws_window st = Some w /\ w_task_id w = k /\
    outcome (check_settlement_ready q (ws_window st) now) m
    = Ok (bool_decide (q_status q = ATTESTED_OK /\ end_at w < now /\ ws_challenge st = None),
          reason).
Proof.
  intros Hr%reaches_inv Hk Ht. destruct (closed_iff _ _ _ _ _ Hr Hk Ht) as (w & Hw & Hid & Hc & _).
  exists w. unfold outcome, check_settlement_ready.
  case_bool_decide as Hq; cbn [negb]; swap 1 2.
  { eexists. split_and!; [done|done|]. by rewrite bool_decide_eq_false_2 by naive_solver. }
  unfold is_window_closed, m_bind at 1. rewrite (synced_call _ _ _ _ _ Hw). simpl.
  case_bool_decide as Hcl; cbn [negb]; swap 1 2.
  { eexists. split_and!; [done|done|]. by rewrite bool_decide_eq_false_2 by naive_solver. }
  unfold m_bind. rewrite (load_written _ _ _ _ Hw), bool_decide_eq_false_2 by congruence.
  eexists. split_and!; [done|done|]. rewrite bool_decide_eq_true_2 by naive_solver. reflexivity.
Qed.

(** ** Behaviour that differs from the documentation *)

(** The constant named the generator is not a point of the curve. *)
Lemma generator_not_on_curve :
  (SECP256k1_generator_y * SECP256k1_generator_y -
   ((SECP256k1_generator_x * SECP256k1_generator_x + SECP256k1_curve_a) * SECP256k1_generator_x
    + SECP256k1_curve_b)) mod SECP256k1_curve_p <> 0.
Proof. vm_compute. done. Qed.

(** With 64 hexadecimal digits (one "C" less) it is secp256k1's. *)
Example generator_with_64_digits :
  let x := 0x79BE667EF9DCBBAC55A06295CE870B07029BFCDB2DCE28D959F2815B16F81798 in
  (SECP256k1_generator_y * SECP256k1_generator_y - (x * x * x + 7)) mod SECP256k1_curve_p = 0.
Proof. vm_compute. reflexivity. Qed.

(** Without [eth_account], every attestation is refused, also one whose signature
    is right: the fallback builds the generator point first, which raises. *)
Theorem fallback_refuses_every_signature {L : CryptoLib} `{!CryptoLaws L} a :
  eth_recover = None -> hash_readable a = true -> verify_attestation a = Ok false.
Proof.
  intros He Hh. rewrite (verify_total a Hh). unfold verifies, verify_attestation.
  rewrite He. unfold build_attestation_eip712_payload, hash_readable, rbind in *.
  destruct (to_bytes32 (evidence_hash a)); [|done]. case_decide; [done|].
  destruct (negb (starts_0x (signature a))); [done|]. f_equal. unfold verify_attestation_pure_python.
  destruct (eip712_struct_hash _) as [dg|]; simpl; [|done].
  destruct (fromhex _) as [sb|]; simpl; [|done]. case_decide; [|done].
  unfold recover_address_from_signature.
  destruct (mk_point _ _ _ SECP256k1_generator_x _) as [G|] eqn:HG; [|done].
  apply mk_point_on_curve in HG. by apply generator_not_on_curve in HG.
Qed.

(** The wallet the registry records for a verifier is never compared with the
    wallet the attestation names: two registries that agree on the status of every
    verifier give the same quorum. *)
Theorem registry_wallet_ignored {L : CryptoLib} ag ag' l :
  threshold ag = threshold ag' -> total_verifiers ag = total_verifiers ag' ->
  info_status <$> verifier_registry ag = info_status <$> verifier_registry ag' ->
  collect ag l = collect ag' l.
Proof.
  intros Ht Hv Hs.
  assert (Hreg : forall v, registered ag v = registered ag' v).
  { intros v. unfold registered.
    assert (He : verifier_registry ag = ∅ <-> verifier_registry ag' = ∅).
    { rewrite <- (fmap_empty_iff info_status), Hs, fmap_empty_iff. done. }
    apply (f_equal (fun m => m !! v)) in Hs. rewrite !lookup_fmap in Hs.
    case_decide; case_decide; try tauto.
    destruct (verifier_registry ag !! v), (verifier_registry ag' !! v); simpl in Hs; try done.
    injection Hs as Hs. by rewrite Hs. }
  assert (Heq : forall k, List.filter (fun a => registered ag (verifier_id a)) k
                        = List.filter (fun a => registered ag' (verifier_id a)) k).
  { intros k. apply filter_ext. intros a. apply Hreg. }
  assert (He : empty_quorum ag = empty_quorum ag') by (unfold empty_quorum; congruence).
  assert (Hq : forall h vs, quorum_of ag h vs = quorum_of ag' h vs).
  { intros. unfold quorum_of. by rewrite Ht, Hv. }
  unfold collect. rewrite Heq, He. destruct l as [|a l]; [done|].
  destruct (List.filter _ (dedup ∅ _)) as [|f ds]; [done|]. cbv zeta.
  destruct (List.filter _ (f :: ds)) as [|c cs]; [done|].
  destruct (valid_of (c :: cs)); unfold rbind; [by rewrite Hq|done].
Qed.

(** The canonical hash is taken before any signature is checked: without a
    registry, one attestation in front with another hash and no valid signature
    drops every honest attestation. *)
Theorem bogus_first_attestation_voids_quorum {L : CryptoLib} n total ag bogus honest :
  new_aggregator n total None = Ok ag ->
  verify_attestation bogus = Ok false ->
  (forall a, a ∈ honest -> evidence_hash a <> evidence_hash bogus) ->
  exists q, collect ag (bogus :: honest) = Ok q /\ is_quorum_reached q = false.
Proof.
  intros Hag Hb Hne. assert (Hn := new_aggregator_ok _ _ _ _ Hag).
  assert (Hreg : forall v, registered ag v = true).
  { unfold new_aggregator in Hag. intros v. unfold registered. split_matches. }
  unfold collect. cbn [dedup]. rewrite decide_False by set_solver.
  cbn [List.filter]. rewrite Hreg. cbv zeta. cbn [List.filter].
  rewrite (bool_decide_eq_true_2 (evidence_hash bogus = evidence_hash bogus)) by done.
  set (rest := List.filter (fun a => bool_decide _) _).
  assert (rest = []) as ->.
  { apply elem_of_nil_inv. intros a. unfold rest. rewrite !elem_of_bfilter, dedup_elem.
    intros [[[_ Hf] _] Hh%bool_decide_eq_true]. apply (Hne a); [|done].
    clear -Hf. induction honest as [|b l IH]; simpl in *; [done|].
    case_decide; simplify_eq; [by left|right; auto]. }
  simpl. rewrite Hb. simpl. eexists. split; [reflexivity|].
  unfold is_quorum_reached. apply bool_decide_eq_false. rewrite quorum_status_iff. simpl. lia.
Qed.

(** ** A run *)

(** A library whose recovery returns the text of the signature, enough to make a
    signature verify exactly when it repeats the wallet. *)
Definition demo_lib : CryptoLib :=
  {| keccak256 := fun b => b; Point := Z * Z;
     mk_point := fun p a b x y =>
       if (y * y - ((x * x + a) * x + b)) mod p =? 0 then Some (x, y) else None;
     pmul := fun P _ => P; padd := fun P _ => P; pneg := fun P => P;
     px := fun P => Some (fst P); py := fun P => Some (snd P); inverse_mod := fun _ _ => None;
     eth_recover := Some (fun _ s => Some s) |}.

#[export] Instance demo_laws : CryptoLaws demo_lib.
Proof.
  split. intros p a b x y P. simpl.
  destruct (Z.eqb_spec ((y * y - ((x * x + a) * x + b)) mod p) 0); [done|discriminate].
Qed.

Definition demo_att (v wallet sig h dec : string) : VerifierAttestation :=
  {| attestation_version := "karma-attestation-v1"; task_id := "t2"; bundle_id := "b";
     evidence_hash := h; cid := "bafy"; verifier_id := v; verifier_wallet := wallet;
     att_decision := dec; reason_codes := []; verified_at := ""; chain_id := 1;
     contract_address := ""; signature := sig |}.

Definition demo_failing : list VerifierAttestation :=
  [demo_att "v1" "0xA1" "0xa1" "ab" "STRUCT_FAIL"; demo_att "v2" "0xA2" "0xA2" "ab" "STRUCT_FAIL";
   demo_att "v2" "0xA2" "0xA2" "ab" "STRUCT_FAIL"; demo_att "v3" "0xA3" "0xEE" "ab" "STRUCT_OK"].

Definition demo_ag : AttestationAggregator :=
  {| threshold := 2; total_verifiers := 3; verifier_registry := ∅ |}.

(** A quorum whose every verifier attests STRUCT_FAIL has the status ATTESTED_OK,
    and the task is reported ready for settlement. *)
Theorem failed_quorum_is_ready :
  exists q, collect (L := demo_lib) demo_ag demo_failing = Ok q /\
    q_decision q = "ATTESTED_FAIL"%string /\
    outcome (check_settlement_ready q 1%nat 30000000) demo = Ok (true, "ready for settlement"%string).
Proof. eexists. split; [vm_compute; reflexivity|]. split; vm_compute; reflexivity. Qed.

(** A tie is decided OK, though the decision is documented as that of the majority. *)
Lemma tie_attested_ok :
  exists q, collect (L := demo_lib) demo_ag [demo_att "v1" "0xA1" "0xa1" "ab" "STRUCT_FAIL"; demo_att "v2" "0xA2" "0xA2" "ab" "STRUCT_OK"] = Ok q /\
    is_quorum_reached q = true /\ q_decision q = "ATTESTED_OK"%string.
Proof. eexists. split; [vm_compute; reflexivity|]. split; vm_compute; reflexivity. Qed.

Lemma attestation_quorum_spec_witness :
  exists q, collect (L := demo_lib) demo_ag demo_failing = Ok q /\ NoDup (verifier_ids q).
Proof.
  destruct (attestation_quorum_spec (L := demo_lib) 2 3 None demo_ag demo_failing)
    as (q & Hq & Hnd & _).
  - reflexivity.
  - intros a Ha. vm_compute in Ha. injection Ha as <-. reflexivity.
  - exists q. split; [exact Hq|exact Hnd].
Defined.

Lemma settlement_ready_spec_witness :
  exists reason,
    outcome (check_settlement_ready (empty_quorum demo_ag) 1%nat 30000000) demo = Ok (false, reason).
Proof.
  destruct (settlement_ready_spec 1800 30000000 demo "t2"
              {| ws_window := 1; ws_challenge := None |} 30000000 (empty_quorum demo_ag))
    as (w & reason & _ & _ & H).
  - exact demo_reached.
  - reflexivity.
  - lia.
  - exists reason. exact H.
Defined.

(** The same library without [eth_account]. *)
Definition bare_lib : CryptoLib :=
  {| keccak256 := fun b => b; Point := Z * Z;
     mk_point := @mk_point demo_lib; pmul := fun P _ => P; padd := fun P _ => P;
     pneg := fun P => P; px := fun P => Some (fst P); py := fun P => Some (snd P);
     inverse_mod := fun _ _ => None; eth_recover := None |}.

#[export] Instance bare_laws : CryptoLaws bare_lib.
Proof. split. apply (@mk_point_on_curve demo_lib _). Qed.

Lemma fallback_refuses_every_signature_witness :
  verify_attestation (L := bare_lib) (demo_att "v1" "0xA1" "0xa1" "ab" "STRUCT_OK") = Ok false.
Proof.
  apply (fallback_refuses_every_signature (L := bare_lib)
           (demo_att "v1" "0xA1" "0xa1" "ab" "STRUCT_OK")); reflexivity.
Defined.
