(* ===== verification/VerifierRules.v ===== *)
(** * The rules of a verifier node

    decentralized_verifier/rules/structural.py, rules/evidence_integrity.py,
    rules/hashing.py and node/verifier.py: the checks every verifier node runs on a
    task, an evidence bundle and its receipts, and the attestation it issues.

    The dictionaries are records of the documented fields ([None]: the key is
    absent) next to the dictionary itself ([_json]), which is what is hashed; a
    field that is present has its documented type and is not null.  SHA-256 of the canonical JSON
    is the parameter [sha].  Strings compare by code point, which is the order of
    their UTF-8 bytes. *)
From Stdlib Require Import Ascii.
From stdpp Require Import pretty sorting.
From S2P Require Import Prelude PyFloat PyJson ChallengeWindow Attestation.

Open Scope Z_scope.

(** ** Data *)

Record TaskDict := {
  task_json : json;
  task_keys : list string;
  t_task_id : option string;
  t_trace_id : option string;
}.

Record BundleDict := {
  bundle_json : json;
  bundle_keys : list string;
  b_task_id : option string;
  b_task_contract_hash : option string;
  b_receipt_hashes : option (list string);
  b_trace_id : option string;
  b_evidence_hash : option string;
  b_bundle_id : option string;
}.

Record ReceiptDict := {
  receipt_json : json;
  r_receipt_id : option string;
  r_step_index : option Z;
  r_started_at : option string;
  r_trace_id : option string;
  r_task_id : option string;
  r_output_hash : option string;
}.

(** The dictionary a rule returns. *)
Record RuleResult := { rr_decision : string; rr_reasons : list string }.

Definition rule_fail (reasons : list string) : RuleResult :=
  {| rr_decision := "STRUCT_FAIL"; rr_reasons := reasons |}.
Definition rule_ok (reasons : list string) : RuleResult :=
  {| rr_decision := "STRUCT_OK"; rr_reasons := reasons |}.

(** [not x] on an optional string. *)
Definition falsy (x : option string) : bool :=
  match x with None => true | Some s => bool_decide (s = ""%string) end.

Section Rules.
Context (sha : json -> string).

Definition evidence_hash (b : BundleDict) : string := sha (bundle_json b).
Definition receipt_hash (r : ReceiptDict) : string := sha (receipt_json r).
Definition task_contract_hash (t : TaskDict) : string := sha (task_json t).

(** ** [structural_verify] *)

(** [(step_index, receipt_id)], compared as tuples. *)
Definition receipt_key (r : ReceiptDict) : Z * string :=
  (default 0 (r_step_index r), default ""%string (r_receipt_id r)).
Definition key_ltb (a b : Z * string) : bool :=
  if fst a =? fst b then String.ltb (snd a) (snd b) else fst a <? fst b.

(** [sorted]: stable. *)
Fixpoint insert_sorted (r : ReceiptDict) (l : list ReceiptDict) : list ReceiptDict :=
  match l with
  | [] => [r]
  | x :: l => if key_ltb (receipt_key x) (receipt_key r) then x :: insert_sorted r l else r :: x :: l
  end.
Definition sorted_receipts (l : list ReceiptDict) : list ReceiptDict := foldr insert_sorted [] l.

Fixpoint chronological (last_started_at : string) (l : list ReceiptDict) : bool :=
  match l with
  | [] => true
  | r :: l =>
      if falsy (r_started_at r) then chronological last_started_at l
      else
        let started_at := default ""%string (r_started_at r) in
        if String.ltb started_at last_started_at then false else chronological started_at l
  end.

(** The first position whose receipt fails a test. *)
Fixpoint first_failing (test : nat -> ReceiptDict -> bool) (i : nat) (l : list ReceiptDict) :
    option nat :=
  match l with
  | [] => None
  | r :: l => if test i r then first_failing test (S i) l else Some i
  end.

(** [r.get("trace_id") and r.get("trace_id") != task_trace_id] does not hold. *)
Definition trace_ok (task_trace_id : option string) (r : ReceiptDict) : bool :=
  falsy (r_trace_id r) || bool_decide (r_trace_id r = task_trace_id).

Definition structural_verify (task : TaskDict) (bundle : BundleDict) (receipts : list ReceiptDict) :
    RuleResult :=
  if decide (b_task_id bundle <> t_task_id task) then rule_fail ["task_id_mismatch"%string]
  else if decide (b_task_contract_hash bundle <> Some (task_contract_hash task))
  then rule_fail ["task_contract_hash_mismatch"%string]
  else if decide (receipts = []) then rule_fail ["receipt_chain_empty"%string]
  else
    let sorted := sorted_receipts receipts in
    if decide (receipt_hash <$> sorted <> default [] (b_receipt_hashes bundle))
    then rule_fail ["receipt_hash_mismatch"%string]
    else if negb (chronological "" sorted) then rule_fail ["chronological_order_violation"%string]
    else if negb (falsy (t_trace_id task)) && bool_decide (b_trace_id bundle <> t_trace_id task)
    then rule_fail ["bundle_trace_id_mismatch"%string]
    else if negb (falsy (t_trace_id task)) && negb (forallb (trace_ok (t_trace_id task)) sorted)
    then rule_fail ["receipt_trace_id_mismatch"%string]
    else
      match first_failing (fun _ r => negb (falsy (r_output_hash r))) 0 sorted with
      | Some i => rule_fail [("missing_output_hash_step_" +:+ pretty i)%string]
      | None =>
          match first_failing (fun i r => bool_decide (r_step_index r = Some (Z.of_nat i))) 0 sorted with
          | Some i => rule_fail [("step_index_gap_at_" +:+ pretty i)%string]
          | None => rule_ok ["all_structural_checks_passed"%string]
          end
      end.

(** ** [verify_evidence_integrity] *)

Definition required_bundle_keys : list string :=
  ["receipt_hashes"; "task_contract_hash"; "task_id"]%string.
Definition required_task_keys : list string := ["agent_id"; "runtime_id"; "task_id"]%string.

(** [sorted(required - set(keys))]; the lists above are sorted. *)
Definition missing_keys (required keys : list string) : list string :=
  filter (fun k => k ∉ keys) required.

Fixpoint duplicate_id (seen : gset string) (l : list ReceiptDict) : option string :=
  match l with
  | [] => None
  | r :: l =>
      let rid := default ""%string (r_receipt_id r) in
      if decide (rid ∈ seen) then Some rid else duplicate_id ({[rid]} ∪ seen) l
  end.

Definition is_hex_digit (c : ascii) : bool :=
  let n := nat_of_ascii c in ((48 <=? n) && (n <=? 57) || (97 <=? n) && (n <=? 102))%nat.
Fixpoint all_hex (s : string) : bool :=
  match s with EmptyString => true | String c s => is_hex_digit c && all_hex s end.
Definition is_hex64 (s : string) : bool := bool_decide (String.length s = 64%nat) && all_hex s.

Definition verify_evidence_integrity (bundle : BundleDict) (receipts : list ReceiptDict)
    (task : TaskDict) : RuleResult :=
  match missing_keys required_bundle_keys (bundle_keys bundle) with
  | (_ :: _) as missing => rule_fail [("bundle_missing_keys:" +:+ String.concat "," missing)%string]
  | [] =>
  match missing_keys required_task_keys (task_keys task) with
  | (_ :: _) as missing => rule_fail [("task_missing_keys:" +:+ String.concat "," missing)%string]
  | [] =>
  match duplicate_id ∅ receipts with
  | Some rid => rule_fail [("duplicate_receipt_id:" +:+ rid)%string]
  | None =>
  if decide (length (default [] (b_receipt_hashes bundle)) <> length receipts)
  then rule_fail ["receipt_count_mismatch"%string]
  else
  match first_failing (fun _ r => bool_decide (r_task_id r = t_task_id task)) 0 receipts with
  | Some i => rule_fail [("receipt_" +:+ pretty i +:+ "_task_id_mismatch")%string]
  | None =>
  match first_failing (fun _ r => is_hex64 (default ""%string (r_output_hash r))) 0 receipts with
  | Some i => rule_fail [("receipt_" +:+ pretty i +:+ "_output_hash_not_valid_sha256")%string]
  | None =>
  if negb (falsy (b_evidence_hash bundle))
     && bool_decide (b_evidence_hash bundle <> Some (evidence_hash bundle))
  then rule_fail ["evidence_hash_mismatch"%string]
  else rule_ok ["all_evidence_integrity_checks_passed"%string]
  end end end end end.

(** ** The node *)

Record KarmaVerifierNode := { node_verifier_id : string; node_wallet : string }.

Definition new_node (verifier_id wallet_address : string) : result Exc KarmaVerifierNode :=
  if decide (verifier_id = ""%string) then Err (ValueError "verifier_id is required")
  else if decide (wallet_address = ""%string) then Err (ValueError "wallet_address must be 0x-prefixed")
  else if negb (starts_0x wallet_address) then Err (ValueError "wallet_address must be 0x-prefixed")
  else Ok {| node_verifier_id := verifier_id; node_wallet := py_lower wallet_address |}.

(** [verified_at] is the clock's text. *)
Definition verify (node : KarmaVerifierNode) (task : TaskDict) (bundle : BundleDict)
    (receipts : list ReceiptDict) (content_id now_text : string) : VerifierAttestation :=
  let struct_result := structural_verify task bundle receipts in
  let integrity_result := verify_evidence_integrity bundle receipts task in
  let struct_ok := bool_decide (rr_decision struct_result = "STRUCT_OK"%string) in
  let integrity_ok := bool_decide (rr_decision integrity_result = "STRUCT_OK"%string) in
  {| attestation_version := "karma-attestation-v1";
     task_id := default ""%string (t_task_id task);
     bundle_id := default ""%string (b_bundle_id bundle);
     Attestation.evidence_hash := evidence_hash bundle; cid := content_id;
     verifier_id := node_verifier_id node; verifier_wallet := node_wallet node;
     att_decision := if struct_ok && integrity_ok then "STRUCT_OK" else "STRUCT_FAIL";
     reason_codes := rr_reasons struct_result ++ rr_reasons integrity_result;
     verified_at := now_text; chain_id := 0; contract_address := ""; signature := "" |}.

(** ** Sorting *)

Abbreviation step_of r := (fst (receipt_key r)).
Abbreviation step_le := (fun x y : ReceiptDict => step_of x <= step_of y).

Lemma insert_sorted_perm r l : insert_sorted r l ≡ₚ r :: l.
Proof.
  induction l as [|x l IH]; simpl; [done|]. destruct (key_ltb _ _); [|done].
  rewrite IH. apply Permutation_swap.
Qed.

Lemma sorted_receipts_perm l : sorted_receipts l ≡ₚ l.
Proof. induction l as [|r l IH]; simpl; [done|]. by rewrite insert_sorted_perm, IH. Qed.

Lemma key_ltb_step x y : (key_ltb x y = true -> fst x <= fst y) /\ (key_ltb x y = false -> fst y <= fst x).
Proof.
  unfold key_ltb. destruct (Z.eqb_spec (fst x) (fst y)); [lia|].
  destruct (Z.ltb_spec (fst x) (fst y)); split; intros; try done; lia.
Qed.

Lemma insert_sorted_hd r x l :
  HdRel step_le x l -> step_of x <= step_of r -> HdRel step_le x (insert_sorted r l).
Proof.
  intros Hx Hr. destruct l as [|y l]; simpl; [by constructor|].
  inv Hx. destruct (key_ltb _ _); by constructor.
Qed.

Lemma insert_sorted_sorted r l : Sorted step_le l -> Sorted step_le (insert_sorted r l).
Proof.
  induction 1 as [|x l Hs IH Hx]; simpl; [by repeat constructor|].
  pose proof (key_ltb_step (receipt_key x) (receipt_key r)) as [H1 H2].
  destruct (key_ltb _ _).
  - constructor; [done|]. apply insert_sorted_hd; auto.
  - constructor; [by constructor|]. constructor. auto.
Qed.

Lemma sorted_receipts_sorted l : Sorted step_le (sorted_receipts l).
Proof. induction l as [|r l IH]; simpl; [constructor|]. by apply insert_sorted_sorted. Qed.

Lemma Sorted_steps l : Sorted step_le l -> Sorted Z.le ((fun r => step_of r) <$> l).
Proof.
  induction 1 as [|x l Hs IH Hx]; simpl; [constructor|]. constructor; [done|].
  inv Hx; simpl; by constructor.
Qed.

(** Receipts whose step indices count from [i]. *)
Definition counted_from (i : nat) (l : list ReceiptDict) : Prop :=
  forall j r, l !! j = Some r -> r_step_index r = Some (Z.of_nat (i + j)).

Lemma counted_from_cons i r l :
  counted_from i (r :: l) <-> r_step_index r = Some (Z.of_nat i) /\ counted_from (S i) l.
Proof.
  split.
  - intros H. split; [|intros j x Hj].
    + rewrite (H 0%nat r eq_refl). f_equal. lia.
    + rewrite (H (S j) x Hj). f_equal. lia.
  - intros [H1 H2] [|j] x; simpl; [intros [= <-]; rewrite H1; f_equal; lia|].
    intros Hj. rewrite (H2 j x Hj). f_equal. lia.
Qed.

Lemma counted_steps i l :
  counted_from i l -> (fun r => step_of r) <$> l = Z.of_nat <$> seq i (length l).
Proof.
  revert i. induction l as [|r l IH]; intros i; [done|].
  intros [H1 H2]%counted_from_cons. simpl. f_equal; [by rewrite H1|exact (IH _ H2)].
Qed.

Lemma seq_sorted i n : Sorted Z.le (Z.of_nat <$> seq i n).
Proof.
  revert i. induction n as [|n IH]; intros i; simpl; [constructor|].
  constructor; [done|]. destruct n; simpl; constructor. lia.
Qed.

Lemma fmap_perm_eq {A B} (f : A -> B) (l k : list A) :
  l ≡ₚ k -> NoDup (f <$> k) -> f <$> l = f <$> k -> l = k.
Proof.
  intros Hp Hnd Hf. apply list_eq. intros i.
  destruct (l !! i) as [x|] eqn:Hl.
  - assert (Hx : x ∈ k) by (rewrite <- Hp; by eapply list_elem_of_lookup_2).
    apply list_elem_of_lookup_1 in Hx as [j Hj].
    assert (Hi : (f <$> k) !! i = Some (f x)) by (by rewrite <- Hf, list_lookup_fmap, Hl).
    assert (Hj' : (f <$> k) !! j = Some (f x)) by (by rewrite list_lookup_fmap, Hj).
    by rewrite (NoDup_lookup _ _ _ _ Hnd Hi Hj').
  - apply lookup_ge_None in Hl. symmetry. apply lookup_ge_None. by rewrite <- Hp.
Qed.

(** A permutation of the receipts whose step indices count from 0 is what [sorted]
    returns. *)
Lemma counted_is_sorted l k : k ≡ₚ l -> counted_from 0 k -> sorted_receipts l = k.
Proof.
  intros Hp Hc. assert (Hk := counted_steps _ _ Hc).
  apply (fmap_perm_eq (fun r => step_of r)).
  - by rewrite sorted_receipts_perm, Hp.
  - rewrite Hk. apply NoDup_fmap_2; [intros x y; lia|apply NoDup_seq].
  - apply (Sorted_unique Z.le).
    + apply Sorted_steps, sorted_receipts_sorted.
    + rewrite Hk. apply seq_sorted.
    + apply Permutation_map. by rewrite sorted_receipts_perm, Hp.
Qed.

(** ** The loops *)

Lemma first_failing_None test i l :
  first_failing test i l = None <-> forall j r, l !! j = Some r -> test (i + j)%nat r = true.
Proof.
  revert i. induction l as [|r l IH]; intros i; simpl; [naive_solver|].
  destruct (test i r) eqn:Ht.
  - rewrite IH. split.
    + intros H [|j] x; simpl; [intros [= <-]; by rewrite Nat.add_0_r|].
      intros Hj. specialize (H j x Hj). by rewrite Nat.add_succ_r.
    + intros H j x Hj. specialize (H (S j) x Hj). by rewrite Nat.add_succ_r in H.
  - split; [done|]. intros H. specialize (H 0%nat r eq_refl). rewrite Nat.add_0_r in H. congruence.
Qed.

Lemma first_failing_all test l :
  first_failing (fun _ => test) 0 l = None <-> Forall (fun r => test r = true) l.
Proof.
  rewrite first_failing_None, Forall_lookup. done.
Qed.

(** The start times that are set, in order. *)
Definition stamps (l : list ReceiptDict) : list string :=
  omap (fun r => if falsy (r_started_at r) then None else r_started_at r) l.

Abbreviation not_before := (fun a b : string => String.ltb b a = false).

Lemma chronological_iff s l : chronological s l = true <-> Sorted not_before (s :: stamps l).
Proof.
  revert s. induction l as [|r l IH]; intros s; simpl; [split; [by repeat constructor|done]|].
  destruct (falsy (r_started_at r)) eqn:Hf; [by rewrite IH|].
  destruct (r_started_at r) as [x|]; [|done]. simpl.
  destruct (String.ltb x s) eqn:Hx.
  - split; [done|]. intros H. inv H. match goal with H : HdRel _ _ _ |- _ => inv H end. congruence.
  - rewrite IH. split; [intros H; constructor; [done|by constructor]|]. intros H. by inv H.
Qed.

Lemma ltb_empty x : String.ltb x "" = false.
Proof. by destruct x. Qed.

Lemma duplicate_id_None seen l :
  duplicate_id seen l = None <->
  NoDup ((fun r => default ""%string (r_receipt_id r)) <$> l) /\
  forall r, r ∈ l -> default ""%string (r_receipt_id r) ∉ seen.
Proof.
  revert seen. induction l as [|r l IH]; intros seen; simpl.
  { split; [|done]. intros _. split; [apply NoDup_nil_2|]. by intros r ?%not_elem_of_nil. }
  case_decide as Hd.
  - split; [done|]. intros [_ H]. exfalso. by apply (H r); [left|].
  - rewrite IH, NoDup_cons, list_elem_of_fmap. split.
    + intros [Hn Hs]. split_and!; [|done|].
      * intros (x & Hx & Hin). apply (Hs x Hin). rewrite Hx. set_solver.
      * intros x [->|Hin]%elem_of_cons; [done|]. specialize (Hs x Hin). set_solver.
    + intros [[Hr Hn] Hs]. split; [done|]. intros x Hin. rewrite not_elem_of_union, not_elem_of_singleton.
      split; [intros Heq; apply Hr; by exists x|]. apply Hs. by right.
Qed.

(** ** Theorems *)

(** What a receipt chain must look like, independently of the order in which the
    receipts are handed over. *)
Definition well_ordered (task : TaskDict) (bundle : BundleDict) (chain : list ReceiptDict) : Prop :=
  counted_from 0 chain /\
  receipt_hash <$> chain = default [] (b_receipt_hashes bundle) /\
  Sorted not_before (stamps chain) /\
  Forall (fun r => falsy (r_output_hash r) = false) chain /\
  (falsy (t_trace_id task) = false ->
     b_trace_id bundle = t_trace_id task /\
     Forall (fun r => trace_ok (t_trace_id task) r = true) chain).

Lemma chronological_stamps l : chronological "" l = true <-> Sorted not_before (stamps l).
Proof.
  rewrite chronological_iff. split; [intros H; by inv H|]. intros H. constructor; [done|].
  destruct (stamps l); constructor. apply ltb_empty.
Qed.

Lemma structural_iff task bundle receipts :
  rr_decision (structural_verify task bundle receipts) = "STRUCT_OK"%string <->
  b_task_id bundle = t_task_id task /\
  b_task_contract_hash bundle = Some (task_contract_hash task) /\
  receipts <> [] /\ well_ordered task bundle (sorted_receipts receipts).
Proof.
  unfold structural_verify, well_ordered.
  case_decide as H1; [simpl; split; [done|tauto]|].
  case_decide as H2; [simpl; split; [done|tauto]|].
  case_decide as H3; [simpl; split; [done|tauto]|].
  cbv zeta. set (l := sorted_receipts receipts).
  case_decide as H4; [simpl; split; [done|tauto]|].
  rewrite <- chronological_stamps. destruct (chronological "" l); simpl;
    [|split; [done|naive_solver]].
  destruct (falsy (t_trace_id task)) eqn:Ht; simpl.
  all: try (case_bool_decide as H5; simpl; [split; [done|naive_solver]|]).
  all: try (destruct (forallb (trace_ok (t_trace_id task)) l) eqn:Htr; simpl;
    [rewrite forallb_forall in Htr
    |split; [done|]; intros (_ & _ & _ & _ & _ & _ & _ & Hx);
     destruct (Hx eq_refl) as [_ Hall]; rewrite Forall_forall in Hall;
     apply forallb_false in Htr as (r & Hr & Hf); rewrite (Hall r Hr) in Hf; done]).
  all: destruct (first_failing (fun _ r => negb (falsy (r_output_hash r))) 0 l) as [i|] eqn:Ho.
  1, 3: simpl; split; [done|]; intros (_ & _ & _ & _ & _ & _ & Hx & _); exfalso;
    rewrite (proj2 (first_failing_all (fun r => negb (falsy (r_output_hash r))) l)) in Ho; [done|];
    eapply Forall_impl; [exact Hx|]; intros r Hr; simpl in Hr; by rewrite Hr.
  all: apply (first_failing_all (fun r => negb (falsy (r_output_hash r)))) in Ho.
  all: assert (Ho' : Forall (fun r => falsy (r_output_hash r) = false) l) by
    (eapply Forall_impl; [exact Ho|]; intros r Hr; simpl in Hr; by apply negb_true_iff).
  all: destruct (first_failing _ 0 l) as [i|] eqn:Hs; simpl.
  1, 3: split; [done|]; intros (_ & _ & _ & Hx & _); exfalso;
    rewrite (proj2 (first_failing_None _ 0 l)) in Hs; [done|];
    intros j r Hj; apply bool_decide_eq_true; exact (Hx j r Hj).
  all: assert (Hc : counted_from 0 l) by
    (intros j r Hj; rewrite first_failing_None in Hs; apply (bool_decide_eq_true_1 _ (Hs j r Hj))).
  all: split; [intros _|done]; split_and!; auto; try tauto; try done.
  intros _. split; [tauto|]. apply Forall_forall. intros r Hr. by apply Htr, list_elem_of_In.
Qed.

(** A bundle passes the structural rules exactly when it names the task and the
    task's hash, and its receipts can be put in an order in which the step indices
    count from 0, the hashes are the bundle's list, the start times that are set do
    not decrease, every output hash is set and the trace ids agree.  The order in
    which the receipts are handed over does not matter. *)
Theorem structural_verify_iff task bundle receipts :
  rr_decision (structural_verify task bundle receipts) = "STRUCT_OK"%string <->
  b_task_id bundle = t_task_id task /\
  b_task_contract_hash bundle = Some (task_contract_hash task) /\
  receipts <> [] /\
  exists chain, chain ≡ₚ receipts /\ well_ordered task bundle chain.
Proof.
  rewrite structural_iff. split; [|intros (? & ? & ? & chain & Hp & Hw)].
  - intros (? & ? & ? & ?). split_and!; auto. exists (sorted_receipts receipts).
    split; [apply sorted_receipts_perm|done].
  - split_and!; auto. by rewrite (counted_is_sorted receipts chain Hp (proj1 Hw)).
Qed.

Lemma missing_keys_nil required keys : missing_keys required keys = [] <-> Forall (fun k => k ∈ keys) required.
Proof.
  unfold missing_keys. rewrite Forall_forall. split.
  - intros H k Hk. destruct (decide (k ∈ keys)) as [|Hn]; [done|].
    assert (Hin : k ∈ filter (fun k => k ∉ keys) required) by (by apply list_elem_of_filter).
    rewrite H in Hin. by apply not_elem_of_nil in Hin.
  - intros H. apply filter_none. intros k Hk. specialize (H k Hk). tauto.
Qed.

(** A bundle passes the integrity rules exactly when bundle and task have the
    required keys, the receipt ids are distinct, there are as many receipts as
    hashes, every receipt names the task and has an output hash of 64 lower-case
    hexadecimal digits, and a stored evidence hash, when set, is the hash of the
    bundle. *)
Theorem evidence_integrity_iff bundle receipts task :
  rr_decision (verify_evidence_integrity bundle receipts task) = "STRUCT_OK"%string <->
  Forall (fun k => k ∈ bundle_keys bundle) required_bundle_keys /\
  Forall (fun k => k ∈ task_keys task) required_task_keys /\
  NoDup ((fun r => default ""%string (r_receipt_id r)) <$> receipts) /\
  length (default [] (b_receipt_hashes bundle)) = length receipts /\
  Forall (fun r => r_task_id r = t_task_id task) receipts /\
  Forall (fun r => is_hex64 (default ""%string (r_output_hash r)) = true) receipts /\
  (falsy (b_evidence_hash bundle) = false ->
     b_evidence_hash bundle = Some (evidence_hash bundle)).
Proof.
  unfold verify_evidence_integrity. rewrite <- !missing_keys_nil.
  destruct (missing_keys required_bundle_keys _); [|simpl; split; [done|naive_solver]].
  destruct (missing_keys required_task_keys _); [|simpl; split; [done|naive_solver]].
  pose proof (duplicate_id_None ∅ receipts) as Hd.
  destruct (duplicate_id ∅ receipts) as [rid|].
  { simpl. split; [done|]. intros (_ & _ & Hn & _). exfalso.
    destruct Hd as [_ Hd]. discriminate Hd. split; [done|]. set_solver. }
  destruct Hd as [Hd _]. specialize (Hd eq_refl) as [Hd _].
  case_decide as Hl; [simpl; split; [done|tauto]|].
  pose proof (first_failing_all (fun r => bool_decide (r_task_id r = t_task_id task)) receipts) as Ht.
  assert (Hti : Forall (fun r => bool_decide (r_task_id r = t_task_id task) = true) receipts <->
    Forall (fun r => r_task_id r = t_task_id task) receipts)
    by (apply Forall_iff; intros r; apply bool_decide_eq_true).
  destruct (first_failing (fun _ r => bool_decide (r_task_id r = _)) 0 receipts) as [i|];
    [simpl; split; [done|]; intros (_ & _ & _ & _ & Hx & _); by apply Hti, Ht in Hx|].
  pose proof (first_failing_all (fun r => is_hex64 (default ""%string (r_output_hash r))) receipts) as Hh.
  destruct (first_failing _ 0 receipts) as [i|];
    [simpl; split; [done|]; intros (_ & _ & _ & _ & _ & Hx & _); by apply Hh in Hx|].
  destruct (falsy (b_evidence_hash bundle)) eqn:Hf; simpl.
  - split; [intros _|done]. split_and!; auto; [by apply Hti, Ht|by apply Hh|done].
  - case_bool_decide as He; simpl.
    + split; [done|]. intros (_ & _ & _ & _ & _ & _ & Hx). exfalso. by apply He, Hx.
    + split; [intros _|done]. split_and!; auto; [by apply Hti, Ht|by apply Hh].
Qed.

Lemma verify_ok node task bundle receipts c now :
  att_decision (verify node task bundle receipts c now) = "STRUCT_OK"%string <->
  rr_decision (structural_verify task bundle receipts) = "STRUCT_OK"%string /\
  rr_decision (verify_evidence_integrity bundle receipts task) = "STRUCT_OK"%string.
Proof. unfold verify. simpl. repeat case_bool_decide; simpl; naive_solver. Qed.

(** The objects a node hashes to check a bundle. *)
Definition hashed_objects (task : TaskDict) (receipts : list ReceiptDict) : list json :=
  task_json task :: (receipt_json <$> receipts).

Lemma hashes_determine (l l' : list ReceiptDict) :
  (forall j j', j ∈ (receipt_json <$> l) -> j' ∈ (receipt_json <$> l') -> sha j = sha j' -> j = j') ->
  receipt_hash <$> l = receipt_hash <$> l' -> receipt_json <$> l = receipt_json <$> l'.
Proof.
  revert l'. induction l as [|r l IH]; intros [|r' l'] Hinj; simpl; try done.
  intros [= H1 H2]. f_equal; [apply Hinj; [by left|by left|done]|].
  apply IH; [|done]. intros j j' Hj Hj'. apply Hinj; by right.
Qed.

(** An attested bundle commits to its content: when no two of the hashed objects
    collide, two nodes that attest STRUCT_OK to the same bundle saw the same task
    contract and, up to the order in which they were handed over, the same
    receipts. *)
Theorem attested_bundle_is_binding node node' task task' bundle receipts receipts' c c' now now' :
  (forall j j', j ∈ hashed_objects task receipts -> j' ∈ hashed_objects task' receipts' ->
     sha j = sha j' -> j = j') ->
  att_decision (verify node task bundle receipts c now) = "STRUCT_OK"%string ->
  att_decision (verify node' task' bundle receipts' c' now') = "STRUCT_OK"%string ->
  task_json task = task_json task' /\
  (receipt_json <$> receipts) ≡ₚ (receipt_json <$> receipts').
Proof.
  intros Hinj [(_ & Ht & _ & _ & Hh & _)%structural_iff _]%verify_ok
    [(_ & Ht' & _ & _ & Hh' & _)%structural_iff _]%verify_ok.
  split; [apply Hinj; [by left|by left|unfold task_contract_hash in *; congruence]|].
  rewrite <- (sorted_receipts_perm receipts), <- (sorted_receipts_perm receipts').
  rewrite (hashes_determine _ (sorted_receipts receipts')); [done| |congruence].
  intros j j'. rewrite (sorted_receipts_perm receipts), (sorted_receipts_perm receipts').
  intros Hj Hj'. apply Hinj; by right.
Qed.
End Rules.

(** ** A bundle *)

(** A hash for the demonstration: injective on the objects it is used on. *)
Definition demo_sha (j : json) : string :=
  match j with JObj ((k, _) :: _) => k | _ => "" end.

Definition hex64_text : string :=
  "0123456789abcdef0123456789abcdef0123456789abcdef0123456789abcdef".

Definition demo_receipt (name : string) (i : Z) (started : string) : ReceiptDict :=
  {| receipt_json := JObj [(name, JInt i)]; r_receipt_id := Some name; r_step_index := Some i;
     r_started_at := Some started; r_trace_id := None; r_task_id := Some "t1"%string;
     r_output_hash := Some hex64_text |}.

Definition demo_task : TaskDict :=
  {| task_json := JObj [("contract"%string, JNull)];
     task_keys := ["task_id"; "agent_id"; "runtime_id"]%string;
     t_task_id := Some "t1"%string; t_trace_id := None |}.

Definition demo_bundle : BundleDict :=
  {| bundle_json := JObj [("bundle"%string, JNull)];
     bundle_keys := ["task_id"; "task_contract_hash"; "receipt_hashes"]%string;
     b_task_id := Some "t1"%string; b_task_contract_hash := Some "contract"%string;
     b_receipt_hashes := Some ["r0"; "r1"]%string; b_trace_id := None; b_evidence_hash := None;
     b_bundle_id := Some "b1"%string |}.

(** The receipts are accepted in either order, and with equal start times. *)
Example demo_accepted :
  att_decision (verify demo_sha {| node_verifier_id := "v1"; node_wallet := "0xa1" |} demo_task
    demo_bundle [demo_receipt "r1" 1 "2026-01-01"; demo_receipt "r0" 0 "2026-01-01"] "bafy" "now")
  = "STRUCT_OK"%string.
Proof. vm_compute. reflexivity. Qed.

Lemma attested_bundle_is_binding_witness :
  (receipt_json <$> [demo_receipt "r1" 1 "b"; demo_receipt "r0" 0 "a"])
  ≡ₚ (receipt_json <$> [demo_receipt "r0" 0 "a"; demo_receipt "r1" 1 "b"]).
Proof.
  apply (attested_bundle_is_binding demo_sha {| node_verifier_id := "v1"; node_wallet := "0xa1" |}
           {| node_verifier_id := "v2"; node_wallet := "0xa2" |} demo_task demo_task demo_bundle
           _ _ "bafy" "bafy" "now" "later").
  - intros j j' Hj Hj'. unfold hashed_objects in *. simpl in Hj, Hj'.
    repeat (apply elem_of_cons in Hj as [->|Hj]); [..|by apply not_elem_of_nil in Hj];
      (repeat (apply elem_of_cons in Hj' as [->|Hj']); [..|by apply not_elem_of_nil in Hj']);
      simpl; intros H; first [reflexivity|discriminate H].
  - vm_compute. reflexivity.
  - vm_compute. reflexivity.
Defined.
