(* ===== verification/TrustLedger.v ===== *)
(** * The trust ledger (services/identity_gateway/state_machine.py)

    Credential state transitions are checked against a table and recorded in a
    ledger whose entries form a hash chain: each entry's hash is a keyed digest of
    the previous hash and of the entry.  Past a size limit the head is dropped and
    the remaining chain is rebased.  Anomalies go to an alert stream; ledger and
    alerts are saved to JSON files by services/persist_json.py, whose [save] logs
    and swallows every failure.

    Parameters: the digest (HMAC-SHA256 of the previous hash and the canonical
    JSON) over a type of hashes.  Alert ids (random) and times are left out of the
    alerts; [io] is the sequence of outcomes of the writes still to come. *)
From S2P Require Import Prelude PyFloat PyJson.

Open Scope Z_scope.

(** ** Data *)

Record EntryBody := {
  entry_id : string;
  ts : Z;
  entity_type : string;
  entity_id : string;
  event : string;
  from_state : string;
  to_state : string;
  actor : string;
  reason : string;
  extra : list (string * json);
}.
#[export] Instance EntryBody_eq_dec : EqDecision EntryBody.
Proof. solve_decision. Defined.

(** One line of a root-cause chain. *)
Record RootEvent := {
  re_ts : Z; re_event : string; re_from : string; re_to : string; re_actor : string;
  re_reason : string;
}.

Record Alert := {
  severity : string;
  category : string;
  al_entity_type : string;
  al_entity_id : string;
  summary : string;
  detail : list (string * json);
  root_cause : list RootEvent;
}.

Definition CREDENTIAL_STATE_PENDING : string := "pending".
Definition CREDENTIAL_STATE_VERIFIED : string := "verified".
Definition CREDENTIAL_STATE_FAILED : string := "failed".
Definition CREDENTIAL_STATE_EXPIRED : string := "expired".
Definition CREDENTIAL_STATE_REVOKED : string := "revoked".
Definition CREDENTIAL_TERMINAL_STATES : list string := [CREDENTIAL_STATE_REVOKED].

Definition CREDENTIAL_TRANSITIONS : list ((string * string) * string) :=
  [(("", "issue"), CREDENTIAL_STATE_PENDING);
   ((CREDENTIAL_STATE_PENDING, "verify"), CREDENTIAL_STATE_VERIFIED);
   ((CREDENTIAL_STATE_PENDING, "reject"), CREDENTIAL_STATE_FAILED);
   ((CREDENTIAL_STATE_PENDING, "revoke"), CREDENTIAL_STATE_REVOKED);
   ((CREDENTIAL_STATE_FAILED, "reissue"), CREDENTIAL_STATE_PENDING);
   ((CREDENTIAL_STATE_EXPIRED, "reverify"), CREDENTIAL_STATE_PENDING);
   ((CREDENTIAL_STATE_VERIFIED, "expire"), CREDENTIAL_STATE_EXPIRED);
   ((CREDENTIAL_STATE_VERIFIED, "revoke"), CREDENTIAL_STATE_REVOKED)]%string.

Definition LEDGER_MAX : Z := 100000.
Definition ALERTS_MAX : Z := 10000.
Definition ROOT_CAUSE_DEPTH : Z := 8.

(** [l[-limit:]]. *)
Definition last_slice {A} (limit : Z) (l : list A) : list A :=
  if 0 <? limit then drop (Z.to_nat (Z.of_nat (length l) - limit)) l
  else drop (Z.to_nat (- limit)) l.

Section TrustLedger.
Context {Hash : Type} `{EqDecision Hash}.
(** ["GENESIS"] and [_entry_hash(prev_hash, entry)]. *)
Context (GENESIS : Hash) (entry_digest : Hash -> EntryBody -> Hash).

Record Entry := { body : EntryBody; entry_hash : Hash }.

Record Trust := {
  ledger : list Entry;
  alerts : list Alert;
  stored_ledger : list Entry;
  stored_alerts : list Alert;
  io : list bool;
}.

Abbreviation TM := (M Trust Exc).

Definition set_ledger (l : list Entry) (s : Trust) : Trust :=
  {| ledger := l; alerts := alerts s; stored_ledger := stored_ledger s;
     stored_alerts := stored_alerts s; io := io s |}.
Definition set_alerts (l : list Alert) (s : Trust) : Trust :=
  {| ledger := ledger s; alerts := l; stored_ledger := stored_ledger s;
     stored_alerts := stored_alerts s; io := io s |}.

(** [persist_json.save]: the write may fail; the failure is logged, never raised. *)
Definition save_ledger : TM unit := fun s =>
  (Ok tt, {| ledger := ledger s; alerts := alerts s;
             stored_ledger := if default true (head (io s)) then ledger s else stored_ledger s;
             stored_alerts := stored_alerts s; io := tail (io s) |}).
Definition save_alerts : TM unit := fun s =>
  (Ok tt, {| ledger := ledger s; alerts := alerts s; stored_ledger := stored_ledger s;
             stored_alerts := if default true (head (io s)) then alerts s else stored_alerts s;
             io := tail (io s) |}).
(** The health probe writes and deletes a file of its own. *)
Definition save_probe : TM unit := fun s =>
  (Ok tt, {| ledger := ledger s; alerts := alerts s; stored_ledger := stored_ledger s;
             stored_alerts := stored_alerts s; io := tail (io s) |}).

(** [_load], when the process starts. *)
Definition load : TM unit :=
  m_put (fun s => set_alerts (stored_alerts s) (set_ledger (stored_ledger s) s)).

Definition recent_entity_events (eid : string) (limit : Z) (l : list Entry) : list RootEvent :=
  last_slice limit
    ((fun e => {| re_ts := ts (body e); re_event := event (body e); re_from := from_state (body e);
                  re_to := to_state (body e); re_actor := actor (body e);
                  re_reason := reason (body e) |})
     <$> filter (fun e => entity_id (body e) = eid) l).

Definition broadcast_alert (sev cat etype eid text : string) (det : list (string * json)) :
    TM Alert :=
  do! causes := m_get (fun s => recent_entity_events eid ROOT_CAUSE_DEPTH (ledger s)) in
  let alert := {| severity := sev; category := cat; al_entity_type := etype; al_entity_id := eid;
                  summary := String.substring 0 200 text; detail := det; root_cause := causes |} in
  seq! m_put (fun s =>
    let l := alerts s ++ [alert] in
    set_alerts (if ALERTS_MAX <? Z.of_nat (length l)
                then drop (Z.to_nat (Z.of_nat (length l) - ALERTS_MAX)) l else l) s) in
  seq! save_alerts in
  m_ret alert.

(** The chain recomputed from [prev] on. *)
Fixpoint rebase (prev : Hash) (l : list Entry) : list Entry :=
  match l with
  | [] => []
  | e :: l =>
      let h := entry_digest prev (body e) in
      {| body := body e; entry_hash := h |} :: rebase h l
  end.

Definition last_hash (l : list Entry) : Hash :=
  match last l with Some e => entry_hash e | None => GENESIS end.

Definition append_ledger (rid : string) (now : Z) (etype eid ev from to_ who why : string)
    (ex : list (string * json)) : TM EntryBody :=
  do! prev_hash := m_get (fun s => last_hash (ledger s)) in
  let b := {| entry_id := "tle_" +:+ rid; ts := now; entity_type := etype; entity_id := eid;
              event := ev; from_state := from; to_state := to_;
              actor := String.substring 0 64 who; reason := String.substring 0 256 why;
              extra := ex |} in
  seq! m_put (fun s =>
    set_ledger (ledger s ++ [{| body := b; entry_hash := entry_digest prev_hash b |}]) s) in
  do! n := m_get (fun s => Z.of_nat (length (ledger s))) in
  seq! (if LEDGER_MAX <? n then
          seq! broadcast_alert "warn" "environment" "ledger" "trust_ledger"
                 "ledger truncated at 100000 entries" [("dropped"%string, JInt (n - LEDGER_MAX))] in
          m_put (fun s => set_ledger (rebase GENESIS (drop (Z.to_nat (n - LEDGER_MAX)) (ledger s))) s)
        else m_ret tt) in
  seq! m_catch save_ledger (fun _ =>
         seq! broadcast_alert "critical" "persistence" "ledger" "trust_ledger"
                "trust ledger persist failed" [] in
         m_ret tt) in
  m_ret b.

Definition record_event (rid : string) (now : Z) (etype eid ev from to_ who why : string)
    (ex : list (string * json)) : TM EntryBody :=
  append_ledger rid now etype eid ev from to_ who why ex.

Definition transition (rid : string) (now : Z) (etype eid from action who why : string)
    (ex : list (string * json)) : TM EntryBody :=
  match dict_get (from, action) CREDENTIAL_TRANSITIONS with
  | None =>
      seq! broadcast_alert "warn" "illegal_transition" etype eid
             ("illegal transition blocked: " +:+ from +:+ " --" +:+ action +:+ "--> ?")
             [("from_state", JStr from); ("action", JStr action);
              ("actor", JStr (String.substring 0 64 who))]%string in
      m_raise (ValueError ("illegal transition: " +:+ from +:+ " --" +:+ action
                             +:+ "--> is not allowed"))
  | Some to_ => append_ledger rid now etype eid ("credential_" +:+ action) from to_ who why ex
  end.

(** The index of the first entry whose hash is not the digest. *)
Fixpoint first_broken (i : nat) (prev : Hash) (l : list Entry) : option (nat * Entry) :=
  match l with
  | [] => None
  | e :: l =>
      if decide (entry_hash e = entry_digest prev (body e))
      then first_broken (S i) (entry_hash e) l
      else Some (i, e)
  end.

Record Integrity := { ok : bool; entries : option Z; broken_at : option nat }.

Definition verify_ledger_integrity : TM Integrity :=
  do! l := m_get ledger in
  match first_broken 0 GENESIS l with
  | Some (i, e) =>
      seq! broadcast_alert "critical" "ledger_tamper" "ledger" "trust_ledger"
             "ledger chain broken" [("index", JInt (Z.of_nat i));
                                    ("entry_id", JStr (entry_id (body e)))]%string in
      m_ret {| ok := false; entries := None; broken_at := Some i |}
  | None => m_ret {| ok := true; entries := Some (Z.of_nat (length l)); broken_at := None |}
  end.

Record Health := {
  persist_writable : bool;
  ledger_integrity : bool;
  ledger_entries : Z;
  alerts_count : Z;
  clock_sane : bool;
  health_ok : bool;
}.

(** [health_report]; [now] is the later reading of the clock. *)
Definition health_report (now : Z) : TM Health :=
  do! writable := m_catch (seq! save_probe in m_ret true) (fun _ =>
    seq! broadcast_alert "critical" "environment" "environment" "persist"
           "persist storage not writable" [] in
    m_ret false) in
  do! integrity := verify_ledger_integrity in
  do! s := m_get id in
  let last_ts := match last (ledger s) with Some e => ts (body e) | None => now end in
  let sane := last_ts <=? now + 300 in
  seq! (if sane then m_ret tt
        else seq! broadcast_alert "warn" "environment" "environment" "clock"
                    "ledger timestamp is in the future"
                    [("last_ts", JInt last_ts); ("now", JInt now)]%string in
             m_ret tt) in
  let all := writable && ok integrity && sane in
  seq! (if all then m_ret tt
        else seq! broadcast_alert "critical" "environment" "environment" "runtime"
                    "trust environment health check FAILED" [] in
             m_ret tt) in
  m_ret {| persist_writable := writable; ledger_integrity := ok integrity;
           ledger_entries := default (Z.of_nat (length (ledger s))) (entries integrity);
           alerts_count := Z.of_nat (length (alerts s)); clock_sane := sane; health_ok := all |}.

Definition get_alerts (sev : option string) (limit : Z) : TM (list Alert) :=
  m_get (fun s => rev (last_slice limit
    (List.filter (fun a => match sev with None => true | Some v => bool_decide (severity a = v) end)
       (alerts s)))).

Definition get_ledger (eid : option string) (limit : Z) : TM (list Entry) :=
  m_get (fun s => rev (last_slice limit
    (List.filter (fun e => match eid with None => true
                         | Some v => bool_decide (entity_id (body e) = v) end) (ledger s)))).

(** ** Runs: any calls, failed writes and restarts *)

Inductive TrustOp :=
| RecordEvent (rid : string) (now : Z) (etype eid ev from to_ who why : string)
    (ex : list (string * json))
| Transition (rid : string) (now : Z) (etype eid from action who why : string)
    (ex : list (string * json))
| BroadcastAlert (sev cat etype eid text : string) (det : list (string * json))
| VerifyIntegrity
| HealthReport (now : Z)
| Restart.

Definition run_trust_op (o : TrustOp) (s : Trust) : Trust :=
  match o with
  | RecordEvent rid now etype eid ev from to_ who why ex =>
      exec (record_event rid now etype eid ev from to_ who why ex) s
  | Transition rid now etype eid from action who why ex =>
      exec (transition rid now etype eid from action who why ex) s
  | BroadcastAlert sev cat etype eid text det => exec (broadcast_alert sev cat etype eid text det) s
  | VerifyIntegrity => exec verify_ledger_integrity s
  | HealthReport now => exec (health_report now) s
  | Restart => exec load s
  end.

Definition run_trust (os : list TrustOp) (s : Trust) : Trust := fold_left (fun s o => run_trust_op o s) os s.

Definition empty_trust (outcomes : list bool) : Trust :=
  {| ledger := []; alerts := []; stored_ledger := []; stored_alerts := []; io := outcomes |}.

(** ** The chain *)

(** Every hash is the digest of the one before and of its entry. *)
Fixpoint chained (prev : Hash) (l : list Entry) : Prop :=
  match l with
  | [] => True
  | e :: l => entry_hash e = entry_digest prev (body e) /\ chained (entry_hash e) l
  end.

Lemma first_broken_None i prev l : first_broken i prev l = None <-> chained prev l.
Proof.
  revert i prev. induction l as [|e l IH]; intros i prev; simpl; [done|].
  case_decide; [rewrite IH; naive_solver|naive_solver].
Qed.

Lemma first_broken_Some i prev l k e :
  first_broken i prev l = Some (k, e) ->
  exists j, k = (i + j)%nat /\ l !! j = Some e /\ chained prev (take j l) /\
    ~ chained prev (take (S j) l).
Proof.
  revert i prev. induction l as [|x l IH]; intros i prev; simpl; [done|].
  case_decide as Hd.
  - intros (j & -> & He & Ht & Hn)%IH. exists (S j). simpl in *. split_and!; [lia|done|done|done|].
    intros [_ H]. by apply Hn.
  - intros [= <- <-]. exists 0%nat. simpl. split_and!; [lia|done|done|]. intros [H _]. done.
Qed.

Lemma rebase_chained prev l : chained prev (rebase prev l).
Proof. revert prev. induction l as [|e l IH]; intros prev; simpl; auto. Qed.

Lemma rebase_length prev l : length (rebase prev l) = length l.
Proof. revert prev. induction l as [|e l IH]; intros prev; simpl; auto. Qed.

Lemma chained_app prev l e :
  chained prev (l ++ [e]) <->
  chained prev l /\
  entry_hash e = entry_digest (match last l with Some e => entry_hash e | None => prev end) (body e).
Proof.
  revert prev. induction l as [|x l IH]; intros prev; simpl; [naive_solver|].
  rewrite IH. assert (Hl : match last (x :: l) with Some e => entry_hash e | None => prev end
    = match last l with Some e => entry_hash e | None => entry_hash x end).
  { by destruct l as [|y l]; [done|]; rewrite last_cons; destruct (last (y :: l)) eqn:E;
      [|apply last_None in E]. }
  rewrite Hl. naive_solver.
Qed.

Lemma chained_prefix prev l l' : l' `prefix_of` l -> chained prev l -> chained prev l'.
Proof.
  intros [k ->]. revert prev. induction l' as [|e l' IH]; intros prev; simpl; [done|].
  intros [? ?]. split; [done|]. by apply IH.
Qed.

(** The chain is intact and within its limit, in memory and in the file. *)
Definition sound (l : list Entry) : Prop := chained GENESIS l /\ Z.of_nat (length l) <= LEDGER_MAX.
Definition trust_inv (s : Trust) : Prop := sound (ledger s) /\ sound (stored_ledger s).

Lemma broadcast_ledgers sev cat etype eid text det s :
  let '(r, s') := broadcast_alert sev cat etype eid text det s in
  is_ok r = true /\ ledger s' = ledger s /\ stored_ledger s' = stored_ledger s.
Proof. done. Qed.

Lemma broadcast_bind {A} sev cat etype eid text det (k : Alert -> TM A) s :
  exists a s', ledger s' = ledger s /\ stored_ledger s' = stored_ledger s /\
    m_bind (broadcast_alert sev cat etype eid text det) k s = k a s'.
Proof.
  unfold m_bind at 1. pose proof (broadcast_ledgers sev cat etype eid text det s) as Hb.
  destruct (broadcast_alert _ _ _ _ _ _ s) as [[a|e] s']; [|by destruct Hb].
  exists a, s'. destruct Hb as (_ & ? & ?). done.
Qed.

(** The ledger after an append: the entry at the end, the head dropped and the chain
    rebased past the limit. *)
Definition appended (l : list Entry) (b : EntryBody) : list Entry :=
  let l' := l ++ [{| body := b; entry_hash := entry_digest (last_hash l) b |}] in
  if LEDGER_MAX <? Z.of_nat (length l')
  then rebase GENESIS (drop (Z.to_nat (Z.of_nat (length l') - LEDGER_MAX)) l')
  else l'.

Definition new_body (rid : string) (now : Z) (etype eid ev from to_ who why : string)
    (ex : list (string * json)) : EntryBody :=
  {| entry_id := "tle_" +:+ rid; ts := now; entity_type := etype; entity_id := eid;
     event := ev; from_state := from; to_state := to_;
     actor := String.substring 0 64 who; reason := String.substring 0 256 why; extra := ex |}.

Lemma append_run rid now etype eid ev from to_ who why ex s :
  let b := new_body rid now etype eid ev from to_ who why ex in
  exists s', append_ledger rid now etype eid ev from to_ who why ex s = (Ok b, s') /\
    ledger s' = appended (ledger s) b /\
    (stored_ledger s' = ledger s' \/ stored_ledger s' = stored_ledger s).
Proof.
  intros b. unfold append_ledger, m_bind at 1 2 3, m_get, m_put. fold b.
  set (l' := ledger s ++ [_]). set (s1 := set_ledger l' s).
  change (Z.of_nat (length (ledger s1))) with (Z.of_nat (length l')).
  assert (Happ : appended (ledger s) b = if LEDGER_MAX <? Z.of_nat (length l')
    then rebase GENESIS (drop (Z.to_nat (Z.of_nat (length l') - LEDGER_MAX)) l') else l') by done.
  destruct (LEDGER_MAX <? Z.of_nat (length l')) eqn:Hn.
  - unfold m_bind at 1.
    match goal with |- context [m_bind (broadcast_alert ?a ?c ?d ?e ?f ?g) ?k s1] =>
      destruct (broadcast_bind a c d e f g k s1) as (al & s2 & Hl & Hs & ->) end.
    unfold m_bind, m_catch, save_ledger, m_put, m_ret. eexists. split; [reflexivity|]. simpl.
    rewrite Hl, Happ. split; [done|]. destruct (default true (head (io s2))); [by left|right; exact Hs].
  - unfold m_bind, m_catch, save_ledger, m_ret. eexists. split; [reflexivity|]. simpl.
    rewrite Happ. split; [done|]. destruct (default true (head (io s))); [by left|by right].
Qed.

Lemma appended_sound l b : sound l -> sound (appended l b).
Proof.
  intros [Hc Hn]. unfold appended. rewrite length_app. simpl length.
  destruct (Z.ltb_spec LEDGER_MAX (Z.of_nat (length l + 1))) as [Hlt|Hge].
  - split; [apply rebase_chained|].
    rewrite rebase_length, length_drop, length_app. simpl length. lia.
  - split; [|rewrite length_app; simpl length; lia].
    apply chained_app. split; [done|]. unfold last_hash. simpl. by destruct (last l).
Qed.

Lemma append_inv rid now etype eid ev from to_ who why ex s :
  trust_inv s -> trust_inv (exec (append_ledger rid now etype eid ev from to_ who why ex) s).
Proof.
  intros [Hl Hs]. destruct (append_run rid now etype eid ev from to_ who why ex s)
    as (s' & Hr & Hl' & Hst). unfold exec. rewrite Hr. simpl.
  assert (Hsound := appended_sound _ (new_body rid now etype eid ev from to_ who why ex) Hl).
  unfold trust_inv. rewrite Hl'. split; [done|]. destruct Hst as [->| ->]; [by rewrite Hl'|done].
Qed.

Lemma broadcast_inv {A} sev cat etype eid text det (k : Alert -> TM A) s :
  trust_inv s -> (forall a s', trust_inv s' -> trust_inv (exec (k a) s')) ->
  trust_inv (exec (m_bind (broadcast_alert sev cat etype eid text det) k) s).
Proof.
  intros Hi Hk. unfold exec.
  destruct (broadcast_bind sev cat etype eid text det k s) as (a & s' & Hl & Hs & ->).
  apply Hk. unfold trust_inv. by rewrite Hl, Hs.
Qed.

(** The check reads the ledger and at most adds an alert. *)
Lemma verify_run s :
  exists s', verify_ledger_integrity s =
    (Ok match first_broken 0 GENESIS (ledger s) with
        | Some (i, _) => {| ok := false; entries := None; broken_at := Some i |}
        | None => {| ok := true; entries := Some (Z.of_nat (length (ledger s)));
                     broken_at := None |}
        end, s') /\ ledger s' = ledger s /\ stored_ledger s' = stored_ledger s.
Proof.
  unfold verify_ledger_integrity, m_bind at 1, m_get.
  destruct (first_broken 0 GENESIS (ledger s)) as [[i e]|]; [|by exists s].
  match goal with |- context [m_bind (broadcast_alert ?a ?c ?d ?e ?f ?g) ?k s] =>
    destruct (broadcast_bind a c d e f g k s) as (al & s2 & Hl & Hs & ->) end.
  by exists s2.
Qed.

(** A broken chain is reported at its position and alerted. *)
Lemma verify_broken s i e :
  first_broken 0 GENESIS (ledger s) = Some (i, e) ->
  exists s', verify_ledger_integrity s =
      (Ok {| ok := false; entries := None; broken_at := Some i |}, s') /\
    (fun a => (severity a, category a, detail a !! 0%nat)) <$> last (alerts s') =
      Some ("critical", "ledger_tamper", Some ("index", JInt (Z.of_nat i)))%string.
Proof.
  intros Hf. unfold verify_ledger_integrity, m_bind at 1, m_get. rewrite Hf.
  unfold broadcast_alert, m_bind, m_get, m_put, save_alerts, m_ret. eexists. split; [reflexivity|].
  simpl. rewrite length_app. simpl length.
  destruct (Z.ltb_spec ALERTS_MAX (Z.of_nat (length (alerts s) + 1))) as [H|_]; [|by rewrite last_snoc].
  rewrite drop_app_le by (unfold ALERTS_MAX in *; lia). by rewrite last_snoc.
Qed.

(** An optional alert, then the rest. *)
Lemma maybe_alert_run {A} (b : bool) sev cat etype eid text det (k : TM A) s :
  exists s', ledger s' = ledger s /\ stored_ledger s' = stored_ledger s /\
    (seq! (if b then m_ret tt
           else seq! broadcast_alert sev cat etype eid text det in m_ret tt) in k) s = k s'.
Proof.
  destruct b; [by exists s|]. unfold m_bind at 1.
  match goal with |- context [m_bind (broadcast_alert ?a ?c ?d ?e ?f ?g) ?k s] =>
    destruct (broadcast_bind a c d e f g k s) as (al & s2 & Hl & Hs & ->) end.
  by exists s2.
Qed.

Lemma health_run now s :
  exists h s', health_report now s = (Ok h, s') /\
    ledger s' = ledger s /\ stored_ledger s' = stored_ledger s /\
    persist_writable h = true /\
    ledger_integrity h = bool_decide (first_broken 0 GENESIS (ledger s) = None).
Proof.
  unfold health_report, m_bind at 1, m_catch, save_probe, m_bind at 1, m_ret at 1.
  unfold m_bind at 1.
  destruct (verify_run {| ledger := ledger s; alerts := alerts s; stored_ledger := stored_ledger s;
                          stored_alerts := stored_alerts s; io := tail (io s) |})
    as (s1 & -> & Hl1 & Hs1).
  unfold m_bind at 1, m_get, id at 1. cbv zeta.
  match goal with |- context [(seq! (if ?b then m_ret tt
      else seq! broadcast_alert ?a ?c ?d ?e ?f ?g in m_ret tt) in ?k) s1] =>
    destruct (maybe_alert_run b a c d e f g k s1) as (s2 & Hl2 & Hs2 & ->) end.
  match goal with |- context [(seq! (if ?b then m_ret tt
      else seq! broadcast_alert ?a ?c ?d ?e ?f ?g in m_ret tt) in ?k) s2] =>
    destruct (maybe_alert_run b a c d e f g k s2) as (s3 & Hl3 & Hs3 & ->) end.
  eexists. exists s3. split; [reflexivity|]. simpl in *.
  split_and!; [congruence|congruence|done|].
  destruct (first_broken 0 GENESIS (ledger s)) as [[i e]|]; [|done].
  by rewrite bool_decide_eq_false_2.
Qed.

Lemma run_trust_op_inv o s : trust_inv s -> trust_inv (run_trust_op o s).
Proof.
  intros Hi. destruct o; simpl.
  - by apply append_inv.
  - unfold transition. destruct (dict_get _ _); [by apply append_inv|]. by apply broadcast_inv.
  - pose proof (broadcast_ledgers sev cat etype eid text det s) as Hb. unfold exec, trust_inv.
    destruct (broadcast_alert _ _ _ _ _ _ s) as [r s']. simpl. destruct Hb as (_ & -> & ->). exact Hi.
  - destruct (verify_run s) as (s' & Hr & Hl & Hs). unfold exec, trust_inv. rewrite Hr. simpl.
    by rewrite Hl, Hs.
  - destruct (health_run now s) as (h & s' & Hr & Hl & Hs & _). unfold exec, trust_inv.
    rewrite Hr. simpl. by rewrite Hl, Hs.
  - destruct Hi as [_ Hs]. split; exact Hs.
Qed.

Lemma run_trust_inv os s : trust_inv s -> trust_inv (run_trust os s).
Proof. revert s. induction os as [|o os IH]; intros s Hi; [done|]. by apply IH, run_trust_op_inv. Qed.

Lemma empty_trust_inv outcomes : trust_inv (empty_trust outcomes).
Proof. unfold trust_inv, sound. simpl. unfold LEDGER_MAX. split_and!; try done; lia. Qed.

Lemma sound_verifies s :
  sound (ledger s) ->
  outcome verify_ledger_integrity s =
  Ok {| ok := true; entries := Some (Z.of_nat (length (ledger s))); broken_at := None |}.
Proof.
  intros [Hc _]. destruct (verify_run s) as (s' & Hr & _). unfold outcome. rewrite Hr. simpl.
  by apply (first_broken_None 0) in Hc as ->.
Qed.

(** The chain is always intact: after any sequence of events, transitions, alerts,
    checks and restarts, with any of the writes failing, the integrity check
    succeeds, in the running process and in one started from the file, and the
    ledger never exceeds its limit. *)
Theorem trust_ledger_integrity outcomes os :
  let s := run_trust os (empty_trust outcomes) in
  outcome verify_ledger_integrity s =
    Ok {| ok := true; entries := Some (Z.of_nat (length (ledger s))); broken_at := None |} /\
  Z.of_nat (length (ledger s)) <= LEDGER_MAX /\
  outcome verify_ledger_integrity (exec load s) =
    Ok {| ok := true; entries := Some (Z.of_nat (length (stored_ledger s))); broken_at := None |}.
Proof.
  intros s. destruct (run_trust_inv os _ (empty_trust_inv outcomes)) as [Hl Hs]. fold s in Hl, Hs.
  rewrite (sound_verifies s Hl), (sound_verifies (exec load s) Hs). split_and!; [done|apply Hl|done].
Qed.

(** ** Tampering *)

Section Tamper.
(** The digest is collision-free and never yields the genesis value. *)
Hypothesis digest_inj : forall p b p' b', entry_digest p b = entry_digest p' b' -> p = p' /\ b = b'.
Hypothesis digest_not_genesis : forall p b, entry_digest p b <> GENESIS.

(** The hash before position [i]. *)
Definition hash_before (l : list Entry) (i : nat) : Hash :=
  match i with
  | O => GENESIS
  | S j => match l !! j with Some e => entry_hash e | None => GENESIS end
  end.

Lemma chained_lookup prev l i e :
  chained prev l -> l !! i = Some e ->
  entry_hash e = entry_digest (match i with O => prev | S j =>
    match l !! j with Some e => entry_hash e | None => prev end end) (body e).
Proof.
  revert prev i. induction l as [|x l IH]; intros prev i; [done|].
  intros [Hx Hl]. destruct i as [|i]; simpl; [by intros [= <-]|]. intros Hi.
  rewrite (IH _ _ Hl Hi). destruct i as [|i]; [done|].
  apply lookup_lt_Some in Hi. simpl. destruct (l !! i) eqn:E; [done|].
  apply lookup_ge_None in E. lia.
Qed.

Lemma chained_hash l i e :
  chained GENESIS l -> l !! i = Some e -> entry_hash e = entry_digest (hash_before l i) (body e).
Proof. intros Hc Hi. by rewrite (chained_lookup _ _ _ _ Hc Hi). Qed.

Lemma hash_before_inj l i j ei ej :
  chained GENESIS l -> l !! i = Some ei -> l !! j = Some ej ->
  hash_before l i = hash_before l j -> i = j.
Proof.
  intros Hc. revert j ei ej. induction i as [|i IH]; intros [|j] ei ej Hi Hj; [done| | |];
    (assert (Hl := lookup_lt_Some _ _ _ Hi); assert (Hk := lookup_lt_Some _ _ _ Hj)); simpl.
  - destruct (lookup_lt_is_Some_2 l j) as [e He]; [lia|]. rewrite He.
    rewrite (chained_hash _ _ _ Hc He). intros Hd. by apply symmetry, digest_not_genesis in Hd.
  - destruct (lookup_lt_is_Some_2 l i) as [e He]; [lia|]. rewrite He.
    rewrite (chained_hash _ _ _ Hc He). intros Hd. by apply digest_not_genesis in Hd.
  - destruct (lookup_lt_is_Some_2 l i) as [e He]; [lia|].
    destruct (lookup_lt_is_Some_2 l j) as [e' He']; [lia|]. rewrite He, He'.
    rewrite (chained_hash _ _ _ Hc He), (chained_hash _ _ _ Hc He').
    intros [Hp _]%digest_inj. f_equal. by eapply IH.
Qed.

(** Two chains agree up to the end of the shorter one when every hash of the second
    occurs in the first. *)
Lemma forged_lookup l l' i :
  chained GENESIS l -> chained GENESIS l' ->
  (forall e, e ∈ l' -> exists x, x ∈ l /\ entry_hash x = entry_hash e) ->
  (i < length l')%nat -> l' !! i = l !! i.
Proof.
  intros Hc Hc' Hold. induction i as [i IH] using lt_wf_ind. intros Hi.
  destruct (lookup_lt_is_Some_2 l' i Hi) as [e He].
  destruct (Hold e) as (x & Hx & Hh); [by eapply list_elem_of_lookup_2|].
  apply list_elem_of_lookup_1 in Hx as [j Hj].
  assert (Hd := Hh). rewrite (chained_hash _ _ _ Hc Hj), (chained_hash _ _ _ Hc' He) in Hd.
  apply digest_inj in Hd as [Hp Hb].
  assert (Hbi : hash_before l' i = hash_before l i).
  { destruct i as [|i]; [done|]. simpl. by rewrite (IH i) by lia. }
  assert (Hlen : (i <= length l)%nat).
  { destruct i as [|i]; [lia|]. destruct (lookup_lt_is_Some_2 l' i) as [y Hy]; [lia|].
    rewrite (IH i) in Hy by lia. apply lookup_lt_Some in Hy. lia. }
  rewrite Hbi in Hp. enough (j = i) as -> by (rewrite He, Hj; f_equal; destruct e, x; simpl in *; congruence).
  destruct (decide (i < length l)%nat) as [Hlt|Hge].
  - destruct (lookup_lt_is_Some_2 l i Hlt) as [y Hy]. exact (hash_before_inj l j i x y Hc Hj Hy Hp).
  - exfalso. assert (Hjl := lookup_lt_Some _ _ _ Hj). destruct i as [|i]; [lia|]. simpl in Hp.
    destruct (lookup_lt_is_Some_2 l i) as [y Hy]; [lia|]. rewrite Hy in Hp.
    destruct j as [|j]; simpl in Hp.
    + rewrite (chained_hash _ _ _ Hc Hy) in Hp. by apply symmetry, digest_not_genesis in Hp.
    + destruct (lookup_lt_is_Some_2 l j) as [z Hz]; [lia|]. rewrite Hz in Hp.
      rewrite (chained_hash _ _ _ Hc Hy), (chained_hash _ _ _ Hc Hz) in Hp.
      apply digest_inj in Hp as [Hp _]. apply (hash_before_inj l j i z y) in Hp; auto. lia.
Qed.

(** A ledger whose hashes all come from an intact one and whose chain holds is a prefix
    of it. *)
Lemma reused_prefix l l' :
  chained GENESIS l -> chained GENESIS l' ->
  (forall e, e ∈ l' -> exists x, x ∈ l /\ entry_hash x = entry_hash e) -> l' `prefix_of` l.
Proof.
  intros Hc Hc' Hold. exists (drop (length l') l).
  rewrite <- (take_drop (length l') l) at 1. f_equal. symmetry. apply list_eq. intros i.
  destruct (decide (i < length l')%nat) as [Hi|Hi].
  - rewrite lookup_take_lt by done. by apply forged_lookup.
  - rewrite lookup_take_ge by lia. apply lookup_ge_None_2. lia.
Qed.

(** C34. Tampering is found and located.  With a collision-free digest, when the ledger is
    replaced by someone who can reuse its hashes but not compute new ones, any result
    other than the old ledger without some of its newest entries (an edit, an insertion,
    a deletion inside, a reordering, at any place and in any number) fails the check: the
    report gives the first position at which the ledger differs from the true one, and a
    critical alert of the category ledger_tamper is the newest alert. *)
Theorem tampering_located s l' :
  chained GENESIS (ledger s) ->
  (forall e, e ∈ l' -> exists x, x ∈ ledger s /\ entry_hash x = entry_hash e) ->
  ~ l' `prefix_of` ledger s ->
  exists i s',
    verify_ledger_integrity (set_ledger l' s) =
      (Ok {| ok := false; entries := None; broken_at := Some i |}, s') /\
    take i l' = take i (ledger s) /\ l' !! i <> ledger s !! i /\
    (fun a => (severity a, category a, detail a !! 0%nat)) <$> last (alerts s') =
      Some ("critical", "ledger_tamper", Some ("index", JInt (Z.of_nat i)))%string.
Proof.
  intros Hc Hold Hnp. destruct (first_broken 0 GENESIS l') as [[i e]|] eqn:Hf.
  - destruct (verify_broken (set_ledger l' s) i e Hf) as (s' & Hv & Ha).
    exists i, s'. split; [exact Hv|].
    apply first_broken_Some in Hf as (j & -> & He & Ht & Hn). simpl (0 + j)%nat.
    assert (Hp : take j l' `prefix_of` ledger s).
    { apply reused_prefix; [done..|]. intros x Hx. apply Hold. by apply (subseteq_take j l'). }
    assert (Hj : take j l' = take j (ledger s)).
    { destruct Hp as [k Hk]. rewrite Hk. apply lookup_lt_Some in He.
      rewrite take_app_le by (rewrite length_take; lia). by rewrite take_take, Nat.min_id. }
    split_and!; [done| |done]. intros Heq. apply Hn. rewrite (take_S_r _ _ _ He), Hj.
    rewrite He in Heq. rewrite <- (take_S_r _ _ _ (eq_sym Heq)).
    eapply chained_prefix; [apply prefix_take|exact Hc].
  - apply first_broken_None in Hf. by destruct Hnp; apply reused_prefix.
Qed.

(** Dropping the newest entries goes unnoticed, although the head of the module says that
    every tampering with the history is detected. *)
Lemma truncation_unnoticed s l' :
  chained GENESIS (ledger s) -> l' `prefix_of` ledger s ->
  outcome verify_ledger_integrity (set_ledger l' s) =
    Ok {| ok := true; entries := Some (Z.of_nat (length l')); broken_at := None |}.
Proof.
  intros Hc Hp%(chained_prefix GENESIS); [|done].
  destruct (verify_run (set_ledger l' s)) as (s' & Hr & _). unfold outcome. rewrite Hr. simpl.
  by apply (first_broken_None 0) in Hp as ->.
Qed.
End Tamper.

(** ** Transitions *)

(** The only way to change a credential's state.  A move of the table returns an
    entry with the table's target, which becomes the newest entry of the ledger; any
    other move raises, leaves ledger and file as they were and adds one alert of the
    category illegal_transition with the entity's most recent events.  A revoked
    credential admits no move. *)
Theorem credential_transition_spec rid now etype eid from action who why ex s :
  Z.of_nat (length (alerts s)) < ALERTS_MAX ->
  (from = CREDENTIAL_STATE_REVOKED -> dict_get (from, action) CREDENTIAL_TRANSITIONS = None) /\
  let '(res, s') := transition rid now etype eid from action who why ex s in
  match dict_get (from, action) CREDENTIAL_TRANSITIONS with
  | Some to_ =>
      exists b, res = Ok b /\ from_state b = from /\ to_state b = to_ /\ entity_id b = eid /\
        body <$> last (ledger s') = Some b
  | None =>
      (exists msg, res = Err (ValueError msg)) /\ ledger s' = ledger s /\
      stored_ledger s' = stored_ledger s /\
      exists a, alerts s' = alerts s ++ [a] /\ category a = "illegal_transition"%string /\
        al_entity_id a = eid /\ root_cause a = recent_entity_events eid 8 (ledger s)
  end.
Proof.
  intros Ha. split.
  { intros ->. simpl. by repeat (rewrite decide_False by (intros [=])). }
  unfold transition. destruct (dict_get _ _) as [to_|].
  - destruct (append_run rid now etype eid ("credential_" +:+ action) from to_ who why ex s)
      as (s' & -> & Hl & _). eexists. split_and!; [reflexivity..|]. rewrite Hl.
    unfold appended. rewrite length_app. simpl length.
    destruct (Z.ltb_spec LEDGER_MAX (Z.of_nat (length (ledger s) + 1))) as [Hlt|Hge];
      [|by rewrite last_snoc].
    rewrite drop_app_le by (unfold LEDGER_MAX in *; lia).
    generalize (drop (Z.to_nat (Z.of_nat (length (ledger s) + 1) - LEDGER_MAX)) (ledger s)).
    intros k. generalize GENESIS at 1. induction k as [|e k IH]; intros g; [done|].
    simpl. rewrite last_cons. specialize (IH (entry_digest g (body e))).
    simpl in IH. destruct (last (rebase _ _)); done.
  - unfold m_bind at 1, broadcast_alert. unfold m_bind, m_get, m_put, save_alerts, m_ret, m_raise.
    simpl. split_and!; [by eexists|done|done|]. rewrite length_app. simpl length.
    destruct (Z.ltb_spec ALERTS_MAX (Z.of_nat (length (alerts s) + 1))) as [?|_]; [lia|].
    eexists. split_and!; reflexivity.
Qed.
(** ** Failed writes *)

(** A failed write is never reported: [persist_json.save] swallows the failure, so
    the entry is acknowledged, the file keeps the old ledger, no alert is added, and
    the health report says the storage is writable whatever the writes do. *)
Theorem storage_failure_unreported rid now etype eid ev from to_ who why ex s :
  head (io s) = Some false -> Z.of_nat (length (ledger s)) < LEDGER_MAX ->
  (let '(res, s') := record_event rid now etype eid ev from to_ who why ex s in
   is_ok res = true /\ length (ledger s') = S (length (ledger s)) /\
   stored_ledger s' = stored_ledger s /\ alerts s' = alerts s) /\
  forall now', exists h, outcome (health_report now') s = Ok h /\ persist_writable h = true.
Proof.
  intros Hio Hn. split.
  - unfold record_event, append_ledger, m_bind, m_get, m_put, m_catch, save_ledger, m_ret.
    match goal with |- context [LEDGER_MAX <? ?n] => assert (Hf : (LEDGER_MAX <? n) = false) end.
    { apply Z.ltb_ge. simpl. rewrite length_app. simpl length. lia. }
    rewrite Hf. cbn. rewrite length_app. simpl length. split_and!; [done|lia| |done].
    by destruct (io s) as [|[] ?].
  - intros now'. destruct (health_run now' s) as (h & s' & Hr & _ & _ & Hw & _).
    exists h. unfold outcome. by rewrite Hr.
Qed.
End TrustLedger.

(** ** A run, with hashes that spell out the chain *)

Abbreviation demo_hash := (list EntryBody).
Definition demo_digest (p : demo_hash) (b : EntryBody) : demo_hash := b :: p.

Definition demo_ops : list TrustOp :=
  [Transition "01" 10 "credential" "cred_1" "" "issue" "alice" "kyc" [];
   Transition "02" 11 "credential" "cred_1" "pending" "verify" "system" "" [];
   Transition "03" 12 "credential" "cred_1" "revoked" "verify" "mallory" "" [];
   RecordEvent "04" 13 "card" "card_1" "card_presented" "" "" "alice" "" []].

Definition demo_trust : Trust := run_trust [] demo_digest demo_ops (empty_trust [true; false; true]).

Example demo_trust_run :
  (length (ledger demo_trust), length (alerts demo_trust), length (stored_ledger demo_trust),
   to_state <$> (body <$> ledger demo_trust))
  = (3%nat, 1%nat, 3%nat, ["pending"; "verified"; ""]%string).
Proof. vm_compute. reflexivity. Qed.

(** The first two entries exchanged. *)
Definition demo_swapped : list (Entry (Hash := demo_hash)) :=
  match ledger demo_trust with x :: y :: l => y :: x :: l | l => l end.

Lemma tampering_located_witness :
  broken_at <$> (match outcome (verify_ledger_integrity [] demo_digest)
                         (set_ledger demo_swapped demo_trust) with
                 | Ok i => Some i | Err _ => None end) = Some (Some 0%nat).
Proof.
  destruct (tampering_located [] demo_digest) with (s := demo_trust) (l' := demo_swapped)
    as (i & s' & Hv & _ & _ & _).
  - intros p b p' b' H. injection H as H1 H2. split; [exact H2|exact H1].
  - intros p b H. discriminate H.
  - vm_compute. repeat split.
  - intros e He. exists e. split; [|reflexivity].
    assert (Hs : demo_swapped ≡ₚ ledger demo_trust) by apply Permutation.perm_swap.
    rewrite <- Hs. exact He.
  - intros [k Hk]. vm_compute in Hk. discriminate Hk.
  - unfold outcome. vm_compute in Hv. injection Hv as <- _. vm_compute. reflexivity.
Defined.

Lemma credential_transition_spec_witness :
  exists a, alerts (exec (transition [] demo_digest "05" 14 "credential" "cred_1" "revoked" "verify"
                            "mallory" "" []) demo_trust) = alerts demo_trust ++ [a].
Proof.
  destruct (credential_transition_spec [] demo_digest "05" 14 "credential" "cred_1" "revoked"
              "verify" "mallory" "" [] demo_trust) as [_ H].
  - vm_compute. reflexivity.
  - unfold exec. destruct (transition _ _ _ _ _ _ _ _ _ _ _ _) as [res s'].
    vm_compute in H. destruct H as (_ & _ & _ & a & Ha & _). exists a. exact Ha.
Defined.

Lemma storage_failure_unreported_witness :
  exists h, outcome (health_report [] demo_digest 20)
              (empty_trust (Hash := demo_hash) [false]) = Ok h /\ persist_writable h = true.
Proof.
  destruct (storage_failure_unreported [] demo_digest "01" 10 "card" "c" "e" "" "" "a" "" []
              (empty_trust [false])) as [_ H].
  - reflexivity.
  - vm_compute. reflexivity.
  - exact (H 20).
Defined.
