(* ===== verification/SpendingGrant.v ===== *)
(** * Spending grants: budgets an owner signs for an agent

    [services/spending_grant.py], the signature check of [services/runtime_wallet.py]
    and the lock route of [api/routes/bilateral.py].  The tables are the grant rows (by
    primary key), the append-only audit events and the reservations of locked bills.
    Each operation is a statement of a [DbSession]; a conditional UPDATE is one atomic
    step of the table.  The clock is read once per operation and passed as [now]
    (microseconds).  Parameters: the signature library ([recover]), ISO date parsing
    ([fromisoformat]), the text of a float ([float_str]), the order in which the
    database returns rows ([newest_first]) and the chain ([lock_direct]). *)
From S2P Require Import Prelude PyFloat FloatFacts.
Open Scope Z_scope.

(** ** Rows *)

Definition ACTIVE_STATUS : string := "active".
Definition GRANT_EPS : float := f1em9.

Record GrantRow := {
  grant_id : string;
  owner_identity_id : string;
  owner_wallet_address : string;
  agent_id : string;
  agent_name : option string;
  agent_public_key : option string;
  currency : string;
  token_address : option string;
  total_limit : float;
  per_tx_limit : float;
  used_amount : float;
  purpose_scope : list string;
  status : string;
  expires_at : option Z;
  nonce : string;
  signature : string;
  signed_message : string;
  last_used_at : option Z;
  revoked_at : option Z;
  revoke_reason : option string;
  created_at : Z
}.

(** The columns that change after a grant is created. *)
Definition update_row (g : GrantRow) (tl used : float) (st : string)
    (last rev : option Z) (why : option string) : GrantRow :=
  {| grant_id := grant_id g; owner_identity_id := owner_identity_id g;
     owner_wallet_address := owner_wallet_address g; agent_id := agent_id g;
     agent_name := agent_name g; agent_public_key := agent_public_key g;
     currency := currency g; token_address := token_address g; total_limit := tl;
     per_tx_limit := per_tx_limit g; used_amount := used; purpose_scope := purpose_scope g;
     status := st; expires_at := expires_at g; nonce := nonce g; signature := signature g;
     signed_message := signed_message g; last_used_at := last; revoked_at := rev;
     revoke_reason := why; created_at := created_at g |}.

Definition set_used (used : float) (last : option Z) (g : GrantRow) : GrantRow :=
  update_row g (total_limit g) used (status g) last (revoked_at g) (revoke_reason g).
Definition set_status (st : string) (g : GrantRow) : GrantRow :=
  update_row g (total_limit g) (used_amount g) st (last_used_at g) (revoked_at g) (revoke_reason g).
Definition set_revoked (now : Z) (why : string) (g : GrantRow) : GrantRow :=
  update_row g (total_limit g) (used_amount g) "revoked" (last_used_at g) (Some now) (Some why).
Definition set_limit (tl : float) (g : GrantRow) : GrantRow :=
  update_row g tl (used_amount g) (status g) (last_used_at g) (revoked_at g) (revoke_reason g).

Record GrantEvent := {
  ev_grant_id : string;
  ev_owner : string;
  ev_agent : string;
  event_type : string;
  ev_amount : option float;
  ev_reason : option string
}.

Record Reservation := {
  res_bill_id : Z;
  res_grant_id : string;
  res_agent_id : string;
  res_amount : float
}.

Record GrantTables := {
  g_rows : gmap string GrantRow;
  g_events : list GrantEvent;
  g_reservations : gmap Z Reservation
}.

Definition with_rows (r : gmap string GrantRow) (t : GrantTables) : GrantTables :=
  {| g_rows := r; g_events := g_events t; g_reservations := g_reservations t |}.
Definition with_event (e : GrantEvent) (t : GrantTables) : GrantTables :=
  {| g_rows := g_rows t; g_events := g_events t ++ [e]; g_reservations := g_reservations t |}.
Definition with_reservation (r : Reservation) (t : GrantTables) : GrantTables :=
  {| g_rows := g_rows t; g_events := g_events t;
     g_reservations := <[res_bill_id r := r]> (g_reservations t) |}.

Abbreviation GM := (M (DbSession GrantTables) Exc).

Definition the_row (gid : string) : GM (option GrantRow) :=
  m_get (fun s => g_rows (db_working s) !! gid).
Definition put_tables (f : GrantTables -> GrantTables) : GM unit := on_db (m_put f).

(** ** The signed message *)

(** Insertion sort by code points: [sorted] on strings. *)
Fixpoint insert_str (x : string) (l : list string) : list string :=
  match l with
  | [] => [x]
  | y :: l' => if String.leb x y then x :: l else y :: insert_str x l'
  end.
Definition sorted_strings (l : list string) : list string := foldr insert_str [] l.

Record GrantTerms := {
  t_grant_id : string;
  t_wallet_address : string;
  t_agent_id : string;
  t_agent_public_key : option string;
  t_currency : string;
  t_token_address : option string;
  t_total_limit : float;
  t_per_tx_limit : float;
  t_purpose_scope : list string;
  t_expires_at : option string;
  t_nonce : string
}.

Definition newline : string := String (Ascii.ascii_of_nat 10) "".

Section Message.
Context (float_str : float -> string).

Definition expire_line (e : option string) : string :=
  match e with
  | None => "never"
  | Some e => or_str (py_strip e) "never"
  end.

Definition grant_lines (t : GrantTerms) : list string :=
  ["Karma Spending Grant";
   "grant_id:" +:+ t_grant_id t;
   "wallet_address:" +:+ t_wallet_address t;
   "agent_id:" +:+ t_agent_id t;
   "agent_public_key:" +:+ default "" (t_agent_public_key t);
   "currency:" +:+ t_currency t;
   "token_address:" +:+ default "" (t_token_address t);
   "total_limit:" +:+ float_str (t_total_limit t);
   "per_tx_limit:" +:+ float_str (t_per_tx_limit t);
   "purpose_scope:" +:+ py_join "," (sorted_strings (t_purpose_scope t));
   "expires_at:" +:+ expire_line (t_expires_at t);
   "nonce:" +:+ t_nonce t]%string.

Definition build_grant_message (t : GrantTerms) : string := py_join newline (grant_lines t).
End Message.

(** ** [services/runtime_wallet.py] *)

Section Operations.
Context (recover : string -> string -> option string)
        (fromisoformat : string -> option Z)
        (float_str : float -> string)
        (newest_first : list GrantRow -> list GrantRow).

(** [len(bytes.fromhex(s))] is not needed: the recovery library takes the text. *)
Definition is_hex (c : Ascii.ascii) : bool :=
  let n := Ascii.nat_of_ascii c in
  ((48 <=? n) && (n <=? 57) || (65 <=? n) && (n <=? 70) || (97 <=? n) && (n <=? 102))%nat.

Definition normalize_sig (sig : string) : result Exc string :=
  let s := py_strip sig in
  let s := if starts_with "0x" s then drop_chars 2 s else s in
  if negb (String.length s =? 130)%nat
  then Err (HTTPException 400 "wallet_signature must be 65-byte hex (0x + 130 hex chars)")
  else if forallb is_hex (String.list_ascii_of_string s) then Ok s
  else Err (HTTPException 400 "wallet_signature is not valid hex").

Definition verify_personal_message (message wallet_address wallet_signature : string)
    : result Exc unit :=
  let wa := py_strip wallet_address in
  if negb (starts_with "0x" wa) || negb (String.length wa =? 42)%nat
  then Err (HTTPException 400 "wallet_address must be a 0x-prefixed 20-byte address")
  else
    match normalize_sig wallet_signature with
    | Err _ => Err (HTTPException 400 "wallet_signature verification failed")
    | Ok raw =>
        match recover message raw with
        | None => Err (HTTPException 400 "wallet_signature verification failed")
        | Some recovered =>
            if decide (py_lower recovered = py_lower wa) then Ok tt
            else Err (HTTPException 403 "wallet_signature does not match wallet_address")
        end
    end.

(** ** [services/spending_grant.py] *)

Definition expired (now : Z) (g : GrantRow) : bool :=
  match expires_at g with
  | Some e => e <? now
  | None => false
  end.

Definition record_event (gid owner agent typ : string) (amount : option float)
    (reason : option string) : GM unit :=
  put_tables (with_event {| ev_grant_id := gid; ev_owner := owner; ev_agent := agent;
                            event_type := typ; ev_amount := amount; ev_reason := reason |}).

(** Discard the request's changes, write the deny row, commit; [audit_ok] is false
    when the write fails, which is swallowed. *)
Definition record_deny_safe (audit_ok : bool) (gid owner agent reason : string) : GM unit :=
  seq! db_rollback in
  if audit_ok then
    seq! record_event gid owner agent "deny" None (Some (take_chars 256 reason)) in
    db_commit
  else m_ret tt.

(** The parsed expiry of a new grant. *)
Definition parse_expiry (now : Z) (e : option string) : result Exc (option Z) :=
  match e with
  | None => Ok None
  | Some e =>
      if decide (py_strip e = "")%string then Ok None
      else match fromisoformat e with
           | None => Err (HTTPException 400 "expires_at must be an ISO-8601 datetime")
           | Some dt => if dt <=? now
                        then Err (HTTPException 400 "expires_at must be in the future")
                        else Ok (Some dt)
           end
  end.

Definition opt_nonempty (s : string) : option string := if decide (s = "")%string then None else Some s.

Definition new_grant (now : Z) (owner sig : string) (name : option string) (t : GrantTerms)
    (expires : option Z) : GrantRow :=
  {| grant_id := t_grant_id t; owner_identity_id := owner;
     owner_wallet_address := py_lower (t_wallet_address t); agent_id := t_agent_id t;
     agent_name := opt_nonempty (py_strip (default "" name)); agent_public_key := t_agent_public_key t;
     currency := or_str (t_currency t) "USDC"; token_address := t_token_address t;
     total_limit := t_total_limit t; per_tx_limit := t_per_tx_limit t; used_amount := fzero;
     purpose_scope := t_purpose_scope t; status := ACTIVE_STATUS; expires_at := expires;
     nonce := t_nonce t; signature := sig; signed_message := build_grant_message float_str t;
     last_used_at := None; revoked_at := None; revoke_reason := None; created_at := now |}%string.

Definition check_limits (total per_tx : float) : result Exc unit :=
  if (total <=? fzero)%float then Err (HTTPException 400 "total_limit must be positive")
  else if (per_tx <=? fzero)%float then Err (HTTPException 400 "per_tx_limit must be positive")
  else if (per_tx >? total)%float then Err (HTTPException 400 "per_tx_limit cannot exceed total_limit")
  else Ok tt.

Definition create_grant (now : Z) (owner sig : string) (name : option string) (t : GrantTerms)
    : GM GrantRow :=
  seq! lift (check_limits (t_total_limit t) (t_per_tx_limit t)) in
  seq! lift (verify_personal_message (build_grant_message float_str t) (t_wallet_address t) sig) in
  do! existing := the_row (t_grant_id t) in
  match existing with
  | Some _ => m_raise (HTTPException 409 "grant_id already exists")
  | None =>
      do! expires := lift (parse_expiry now (t_expires_at t)) in
      let g := new_grant now owner sig name t expires in
      seq! put_tables (fun tb => with_rows (<[grant_id g := g]> (g_rows tb)) tb) in
      seq! record_event (grant_id g) owner (agent_id g) "created" None None in
      m_ret g
  end.

Definition get_grant (gid : string) : GM (option GrantRow) := the_row gid.

(** The filter of both gates: the agent's active grants, of one owner when given. *)
Definition active_of (agent : string) (owner : option string) (g : GrantRow) : bool :=
  bool_decide (agent_id g = agent) && bool_decide (status g = ACTIVE_STATUS) &&
  match owner with
  | None => true
  | Some o => bool_decide (o = "")%string || bool_decide (owner_identity_id g = o)
  end.
Definition rows_where (f : GrantRow -> bool) : GM (list GrantRow) :=
  m_get (fun s => newest_first (filter (fun g => f g = true) (map_to_list (g_rows (db_working s))).*2)).

Definition list_grants (owner agent : option string) : GM (list GrantRow) :=
  rows_where (fun g =>
    match owner with
    | None => true
    | Some o => bool_decide (o = "")%string || bool_decide (owner_identity_id g = o)
    end &&
    match agent with
    | None => true
    | Some a => bool_decide (a = "")%string || bool_decide (agent_id g = a)
    end).

Definition token_mismatch (a b : option string) : bool :=
  match str_or a None, str_or b None with
  | Some a, Some b => negb (bool_decide (py_lower a = py_lower b))
  | _, _ => false
  end.

(** The grant passes every test of the loop. *)
Definition covers (now : Z) (token : option string) (amount : float) (g : GrantRow) : bool :=
  if expired now g then false
  else if token_mismatch (token_address g) token then false
  else if (amount >? per_tx_limit g + GRANT_EPS)%float then false
  else negb (amount >? (total_limit g - used_amount g) + GRANT_EPS)%float.

Definition DENIED_NONE : Exc := HTTPException 403 "spending grant denied: no active spending grant".
Definition DENIED_COVER : Exc := HTTPException 403 "spending grant denied: no grant covers this spend".

Definition assert_spend_allowed (now : Z) (audit_ok : bool) (agent : string) (token : option string)
    (amount : float) (owner : option string) : GM GrantRow :=
  do! grants := rows_where (active_of agent owner) in
  match grants with
  | [] =>
      seq! record_deny_safe audit_ok "" (default "" owner) agent "no active spending grant" in
      m_raise DENIED_NONE
  | g0 :: _ =>
      match list_find (fun g => covers now token amount g = true) grants with
      | Some (_, g) => m_ret g
      | None =>
          seq! record_deny_safe audit_ok (grant_id g0)
                 (or_str (default "" owner) (owner_identity_id g0)) agent "no grant covers this spend" in
          m_raise DENIED_COVER
      end
  end%string.

Definition assert_agent_authorized (now : Z) (audit_ok : bool) (agent : string)
    (owner : option string) : GM GrantRow :=
  do! grants := rows_where (active_of agent owner) in
  match list_find (fun g => expired now g = false) grants with
  | Some (_, g) => m_ret g
  | None =>
      seq! record_deny_safe audit_ok "" (default "" owner) agent "no active spending grant" in
      m_raise DENIED_NONE
  end%string.

(** The UPDATE statements, on the rows of the table. *)
Definition record_update (now : Z) (gid : string) (amount : float) (r : gmap string GrantRow)
    : gmap string GrantRow :=
  alter (fun g => set_used (used_amount g + amount)%float (Some now) g) gid r.

Definition record_spend (now : Z) (gid : string) (amount : float) (owner agent : option string)
    : GM unit :=
  seq! put_tables (fun tb => with_rows (record_update now gid amount (g_rows tb)) tb) in
  record_event gid (default "" owner) (default "" agent) "spend" (Some amount) None.

(** The WHERE clause of [reserve_spend]. *)
Definition reservable (now : Z) (amount : float) (g : GrantRow) : bool :=
  bool_decide (status g = ACTIVE_STATUS) &&
  match expires_at g with None => true | Some e => now <? e end &&
  (per_tx_limit g >=? amount - GRANT_EPS)%float &&
  (used_amount g + amount <=? total_limit g + GRANT_EPS)%float.

Definition reserve_update (now : Z) (gid : string) (amount : float) (r : gmap string GrantRow)
    : Z * gmap string GrantRow :=
  match r !! gid with
  | Some g => if reservable now amount g
              then (1, <[gid := set_used (used_amount g + amount)%float (Some now) g]> r)
              else (0, r)
  | None => (0, r)
  end.

Definition RESERVE_DENIED : string := "grant not found, inactive, expired, or insufficient allowance".

Definition reserve_spend (now : Z) (audit_ok : bool) (gid : string) (amount : float) : GM GrantRow :=
  if (amount <=? fzero)%float then m_raise (HTTPException 400 "amount must be positive")
  else
    do! rowcount := on_db (fun tb => let '(n, r) := reserve_update now gid amount (g_rows tb) in
                                     (Ok n, with_rows r tb)) in
    if negb (rowcount =? 1) then
      seq! record_deny_safe audit_ok gid "" "" RESERVE_DENIED in
      m_raise (HTTPException 403 ("spending grant denied: " +:+ RESERVE_DENIED))
    else
      do! row := the_row gid in
      match row with
      | None => m_raise (ValueError "No row was found when one was required")
      | Some g =>
          seq! record_event gid (owner_identity_id g) (agent_id g) "spend" (Some amount) None in
          m_ret g
      end.

Definition releasable (amount : float) (g : GrantRow) : bool :=
  (used_amount g >=? amount - GRANT_EPS)%float.

Definition release_update (gid : string) (amount : float) (r : gmap string GrantRow)
    : gmap string GrantRow :=
  alter (fun g => if releasable amount g
                  then set_used (used_amount g - amount)%float (last_used_at g) g else g) gid r.

Definition release_spend (gid : string) (amount : float) : GM unit :=
  if (amount <=? fzero)%float then m_ret tt
  else
    seq! put_tables (fun tb => with_rows (release_update gid amount (g_rows tb)) tb) in
    record_event gid "" "" "release" (Some amount) None.

Definition link_bill_to_grant (bill_id : Z) (gid agent : string) (amount : float) : GM Reservation :=
  let r := {| res_bill_id := bill_id; res_grant_id := gid; res_agent_id := agent;
              res_amount := amount |} in
  do! taken := m_get (fun s => g_reservations (db_working s) !! bill_id) in
  match taken with
  | Some _ => m_raise IntegrityError
  | None => seq! put_tables (with_reservation r) in m_ret r
  end.

Definition get_bill_reservation (bill_id : Z) : GM (option Reservation) :=
  m_get (fun s => g_reservations (db_working s) !! bill_id).

Definition assert_bill_covered_by_grant (now : Z) (bill_id : Z) (agent : string) : GM Reservation :=
  do! reservation := get_bill_reservation bill_id in
  match reservation with
  | None => m_raise (HTTPException 403 "spending grant denied: bill was not locked under a spending grant")
  | Some res =>
      if decide (res_agent_id res = agent) then
        do! grant := get_grant (res_grant_id res) in
        match grant with
        | Some g => if bool_decide (status g = ACTIVE_STATUS) && negb (expired now g)
                    then m_ret res
                    else m_raise (HTTPException 403 "spending grant denied: grant is revoked, paused, or expired")
        | None => m_raise (HTTPException 403 "spending grant denied: grant is revoked, paused, or expired")
        end
      else m_raise (HTTPException 403 "spending grant denied: bill belongs to another agent")
  end.

(** The management operations read [grant] first and flush the changed columns later;
    [flush f] writes the columns [f] sets into the row as it is then. *)
Definition flush (f : GrantRow -> GrantRow) (gid : string) : GM unit :=
  put_tables (fun tb => with_rows (alter f gid (g_rows tb)) tb).

Definition event_of (g : GrantRow) (typ : string) (amount : option float) (reason : option string)
    : GM unit :=
  record_event (grant_id g) (owner_identity_id g) (agent_id g) typ amount reason.

Definition revoke_grant (now : Z) (g : GrantRow) (reason : string) : GM unit :=
  if mem (status g) ["active"; "paused"]%string then
    let why := take_chars 256 (py_strip reason) in
    seq! flush (set_revoked now why) (grant_id g) in
    event_of g "revoked" None (Some why)
  else m_raise (HTTPException 409 ("grant is already " +:+ status g)).

Definition pause_grant (g : GrantRow) : GM unit :=
  if decide (status g = "active"%string) then
    seq! flush (set_status "paused") (grant_id g) in
    event_of g "paused" None None
  else m_raise (HTTPException 409 ("grant is " +:+ status g +:+ ", not active")).

Definition resume_grant (now : Z) (g : GrantRow) : GM unit :=
  if decide (status g = "paused"%string) then
    if expired now g then m_raise (HTTPException 409 "grant has expired and cannot be resumed")
    else
      seq! flush (set_status "active") (grant_id g) in
      event_of g "resumed" None None
  else m_raise (HTTPException 409 ("grant is " +:+ status g +:+ ", not paused")).

Definition check_reduction (now : Z) (g : GrantRow) (new_total : float) : result Exc float :=
  if negb (bool_decide (status g = ACTIVE_STATUS))
  then Err (HTTPException 409 ("grant is " +:+ status g +:+ ", not active"))
  else if expired now g then Err (HTTPException 409 "grant has expired and cannot be reduced")
  else if (new_total <=? fzero)%float then Err (HTTPException 400 "new_total_limit must be positive")
  else if (new_total >=? total_limit g - GRANT_EPS)%float
  then Err (HTTPException 400 "limit can only be reduced, not increased")
  else if (new_total <? used_amount g - GRANT_EPS)%float
  then Err (HTTPException 400 "new_total_limit cannot fall below the already-spent amount")
  else Ok (py_round_to 6 new_total).

Definition reduce_grant (now : Z) (g : GrantRow) (new_total : float) (reason : option string) : GM unit :=
  do! lim := lift (check_reduction now g new_total) in
  seq! flush (set_limit lim) (grant_id g) in
  event_of g "limit_reduced" (Some lim) (Some (take_chars 256 (py_strip (default "" reason)))).

(** ** The lock route *)

Context (lock_direct : string -> Z -> string -> result string Z).

Definition TOKEN_UNIT : float := float_of_Z 1000000.

Definition lock (now : Z) (audit_ok enforced : bool) (caller : option string)
    (token : string) (amount : Z) (role : string) : GM Z :=
  let amount_human := (float_of_Z amount / TOKEN_UNIT)%float in
  do! grant :=
    (if enforced && bool_decide (role = "agent"%string) then
       match str_or caller None with
       | None => m_raise (HTTPException 401 "agent identity required for agent-side lock")
       | Some agent =>
           do! selected := assert_spend_allowed now audit_ok agent (Some token) amount_human None in
           do! g := reserve_spend now audit_ok (grant_id selected) amount_human in
           m_ret (Some (g, agent))
       end
     else m_ret None) in
  match lock_direct token amount role with
  | Err e =>
      seq! match grant with
           | Some (g, _) => seq! release_spend (grant_id g) amount_human in db_commit
           | None => m_ret tt
           end in
      m_raise (HTTPException 502 ("on-chain lock failed: " +:+ e))
  | Ok bill_id =>
      seq! match grant with
           | Some (g, agent) =>
               seq! link_bill_to_grant bill_id (grant_id g) agent amount_human in db_commit
           | None => m_ret tt
           end in
      m_ret bill_id
  end.
(** ** The management routes *)

Inductive Action := Revoke | Pause | Resume | Reduce.
Definition ACTION_LABELS (a : Action) : string :=
  match a with Revoke => "Revoke" | Pause => "Pause" | Resume => "Resume" | Reduce => "Reduce" end.

Definition action_message (a : Action) (gid wallet : string) : string :=
  py_join newline ["Karma Spending Grant " +:+ ACTION_LABELS a; "grant_id:" +:+ gid;
                   "wallet_address:" +:+ wallet]%string.
Definition reduce_message (gid wallet : string) (new_total : float) : string :=
  py_join newline ["Karma Spending Grant Reduce"; "grant_id:" +:+ gid;
                   "wallet_address:" +:+ wallet; "new_total_limit:" +:+ float_str new_total]%string.

(** The signature over [message] is the grant owner's. *)
Definition verify_owner (message : string) (g : GrantRow) (wallet sig : string) : result Exc unit :=
  let? _ := verify_personal_message message wallet sig in
  if decide (py_lower (owner_wallet_address g) = py_lower wallet) then Ok tt
  else Err (HTTPException 403 "wallet is not the grant owner").

(** Load the grant, check the owner's signature, run the operation, commit. *)
Definition owner_route (gid : string) (message : GrantRow -> string) (wallet sig : string)
    (op : GrantRow -> GM unit) : GM GrantRow :=
  do! grant := get_grant gid in
  match grant with
  | None => m_raise (HTTPException 404 "grant not found")
  | Some g =>
      seq! lift (verify_owner (message g) g wallet sig) in
      seq! op g in
      seq! db_commit in
      do! row := the_row gid in
      m_ret (default g row)
  end.

Definition revoke_route (now : Z) (gid wallet sig reason : string) : GM GrantRow :=
  owner_route gid (fun g => action_message Revoke (grant_id g) wallet) wallet sig
    (fun g => revoke_grant now g reason).
Definition pause_route (gid wallet sig : string) : GM GrantRow :=
  owner_route gid (fun g => action_message Pause (grant_id g) wallet) wallet sig pause_grant.
Definition resume_route (now : Z) (gid wallet sig : string) : GM GrantRow :=
  owner_route gid (fun g => action_message Resume (grant_id g) wallet) wallet sig (resume_grant now).
Definition reduce_route (now : Z) (gid wallet sig : string) (new_total : float)
    (reason : option string) : GM GrantRow :=
  owner_route gid (fun g => reduce_message (grant_id g) wallet new_total) wallet sig
    (fun g => reduce_grant now g new_total reason).

Definition create_route (now : Z) (identity_of_wallet : string -> option string) (sig : string)
    (name : option string) (t : GrantTerms) : GM GrantRow :=
  match str_or (identity_of_wallet (t_wallet_address t)) None with
  | None => m_raise (HTTPException 403 "wallet is not bound to a Karma identity")
  | Some owner =>
      do! g := create_grant now owner sig name t in
      seq! db_commit in
      m_ret g
  end.
End Operations.

(** ** The signed message determines the terms *)

Lemma insert_str_Permutation x l : insert_str x l ≡ₚ x :: l.
Proof.
  induction l as [|y l IH]; simpl; [done|]. destruct (String.leb x y); [done|].
  rewrite IH. apply Permutation_swap.
Qed.
Lemma sorted_strings_Permutation l : sorted_strings l ≡ₚ l.
Proof. induction l as [|x l IH]; simpl; [done|]. by rewrite insert_str_Permutation, IH. Qed.

Definition newline_char : Ascii.ascii := Ascii.ascii_of_nat 10.
Definition comma_char : Ascii.ascii := Ascii.ascii_of_nat 44.

(** No field of the terms holds a line break, no purpose is empty or holds a comma. *)
Definition one_line (s : string) : bool := negb (has_char newline_char s).
Definition clean_terms (float_str : float -> string) (t : GrantTerms) : bool :=
  forallb one_line
    [t_grant_id t; t_wallet_address t; t_agent_id t; default "" (t_agent_public_key t);
     t_currency t; default "" (t_token_address t); float_str (t_total_limit t);
     float_str (t_per_tx_limit t); expire_line (t_expires_at t); t_nonce t]%string &&
  forallb (fun p => one_line p && negb (has_char comma_char p) && negb (bool_decide (p = "")%string))
    (t_purpose_scope t).

Lemma has_char_join c sep l : has_char c sep = false -> Forall (fun s => has_char c s = false) l ->
  has_char c (py_join sep l) = false.
Proof.
  intros Hs Hl. induction Hl as [|x l Hx Hl IH]; [done|].
  destruct Hl as [|y l Hy Hl]; [done|]. cbn [py_join] in *. rewrite !has_char_app, Hx, Hs. exact IH.
Qed.

Lemma py_join_nil sep l : Forall (fun s => s <> ""%string) l -> py_join sep l = ""%string -> l = [].
Proof.
  intros [|x l' Hx Hl]; [done|]. destruct l' as [|y l']; simpl; [done|].
  destruct x; simpl; [done|discriminate].
Qed.

Lemma clean_purposes float_str t : clean_terms float_str t = true ->
  Forall (fun p => one_line p = true /\ has_char comma_char p = false /\ p <> ""%string)
    (sorted_strings (t_purpose_scope t)).
Proof.
  unfold clean_terms. rewrite andb_true_iff. intros [_ H].
  rewrite sorted_strings_Permutation. apply Forall_forall. intros p Hp.
  rewrite forallb_forall in H. specialize (H p (proj1 (list_elem_of_In _ _) Hp)).
  rewrite !andb_true_iff, !negb_true_iff, bool_decide_eq_false in H. naive_solver.
Qed.

Lemma one_line_prefix p s : has_char newline_char p = false -> one_line s = true ->
  has_char newline_char (p +:+ s)%string = false.
Proof. unfold one_line. intros Hp Hs%negb_true_iff. by rewrite has_char_app, Hp, Hs. Qed.

Lemma grant_lines_one_line float_str t : clean_terms float_str t = true ->
  Forall (fun s => has_char newline_char s = false) (grant_lines float_str t).
Proof.
  intros Hc. pose proof (clean_purposes _ _ Hc) as Hp. unfold clean_terms in Hc.
  rewrite andb_true_iff in Hc. destruct Hc as [Hc _]. cbn [forallb] in Hc.
  rewrite !andb_true_iff in Hc. destruct_and! Hc. unfold grant_lines.
  assert (one_line (py_join "," (sorted_strings (t_purpose_scope t))) = true).
  { unfold one_line. rewrite has_char_join; [done|done|]. eapply Forall_impl; [exact Hp|].
    intros p [Hl _]. by apply negb_true_iff. }
  repeat apply Forall_cons_2; [done|..|by apply Forall_nil_2]; by apply one_line_prefix.
Qed.

(** The message an owner signs determines the terms: when no field holds a line break
    and no purpose a comma, two terms with the same message have the same grant id,
    wallet, agent, agent key, currency, token, texts of both limits, purposes (as a
    sorted list), expiry line and nonce, so a signature given for one budget cannot be
    used for another. *)
Theorem grant_message_binds float_str t t' :
  clean_terms float_str t = true -> clean_terms float_str t' = true ->
  build_grant_message float_str t = build_grant_message float_str t' ->
  t_grant_id t = t_grant_id t' /\ t_wallet_address t = t_wallet_address t' /\
  t_agent_id t = t_agent_id t' /\
  default ""%string (t_agent_public_key t) = default ""%string (t_agent_public_key t') /\
  t_currency t = t_currency t' /\
  default ""%string (t_token_address t) = default ""%string (t_token_address t') /\
  float_str (t_total_limit t) = float_str (t_total_limit t') /\
  float_str (t_per_tx_limit t) = float_str (t_per_tx_limit t') /\
  sorted_strings (t_purpose_scope t) = sorted_strings (t_purpose_scope t') /\
  expire_line (t_expires_at t) = expire_line (t_expires_at t') /\ t_nonce t = t_nonce t'.
Proof.
  intros Hc Hc' Hm. pose proof (clean_purposes _ _ Hc) as Hp. pose proof (clean_purposes _ _ Hc') as Hp'.
  apply py_join_inj in Hm; [|by apply grant_lines_one_line..|done].
  injection Hm as H1 H2 H3 H4 H5 H6 H7 H8 Hj H10 H11. split_and!; try done.
  assert (Hne : forall l, Forall (fun p => one_line p = true /\ has_char comma_char p = false /\
    p <> ""%string) l -> Forall (fun p => p <> ""%string) l /\ Forall (fun p => has_char comma_char p = false) l).
  { intros l Hl. split; (eapply Forall_impl; [exact Hl|naive_solver]). }
  apply Hne in Hp as [Hn Hk], Hp' as [Hn' Hk'].
  apply (py_join_inj comma_char); [done..| |exact Hj].
  split; intros E; rewrite E in Hj; eapply py_join_nil; eauto.
Qed.

(** ** One reservation *)

Definition deny_event (gid owner agent reason : string) : GrantEvent :=
  {| ev_grant_id := gid; ev_owner := owner; ev_agent := agent; event_type := "deny";
     ev_amount := None; ev_reason := Some (take_chars 256 reason) |}.

(** The session after a refusal: the request's changes are gone, and the refusal is
    committed unless its write failed. *)
Definition denied (audit_ok : bool) (e : GrantEvent) (s : DbSession GrantTables) : DbSession GrantTables :=
  let t := if audit_ok then with_event e (db_committed s) else db_committed s in
  {| db_committed := t; db_working := t |}.

Lemma record_deny_safe_run audit_ok gid owner agent reason s :
  record_deny_safe audit_ok gid owner agent reason s =
  (Ok tt, denied audit_ok (deny_event gid owner agent reason) s).
Proof. unfold record_deny_safe. by destruct audit_ok. Qed.

Definition spend_event (g : GrantRow) (gid : string) (amount : float) : GrantEvent :=
  {| ev_grant_id := gid; ev_owner := owner_identity_id g; ev_agent := agent_id g;
     event_type := "spend"; ev_amount := Some amount; ev_reason := None |}.

(** The row after a reservation of [amount]. *)
Definition reserved (now : Z) (amount : float) (g : GrantRow) : GrantRow :=
  set_used (used_amount g + amount)%float (Some now) g.

Lemma reserve_spend_run now audit_ok gid amount s :
  fleb amount fzero = false ->
  reserve_spend now audit_ok gid amount s =
  match g_rows (db_working s) !! gid with
  | Some g =>
      if reservable now amount g
      then (Ok (reserved now amount g),
            {| db_committed := db_committed s;
               db_working := with_event (spend_event g gid amount)
                 (with_rows (<[gid := reserved now amount g]> (g_rows (db_working s))) (db_working s)) |})
      else (Err (HTTPException 403 ("spending grant denied: " +:+ RESERVE_DENIED)),
            denied audit_ok (deny_event gid "" "" RESERVE_DENIED) s)
  | None => (Err (HTTPException 403 ("spending grant denied: " +:+ RESERVE_DENIED)),
             denied audit_ok (deny_event gid "" "" RESERVE_DENIED) s)
  end%string.
Proof.
  intros Ha. unfold reserve_spend. rewrite Ha.
  unfold on_db, zoom, m_bind at 1, reserve_update. destruct (g_rows (db_working s) !! gid) as [g|] eqn:Hg.
  - destruct (reservable now amount g) eqn:Hr; cbn [negb Z.eqb Pos.eqb].
    + unfold m_bind, the_row, m_get. cbn [db_working g_rows with_rows]. by rewrite lookup_insert_eq.
    + unfold m_bind at 1. rewrite record_deny_safe_run. unfold with_rows. by destruct s as [c []].
  - cbn [negb Z.eqb]. unfold m_bind at 1. rewrite record_deny_safe_run. unfold with_rows.
    by destruct s as [c []].
Qed.

(** Reserving from a grant checks and deducts in one step: it succeeds exactly when the
    grant exists, is active, not expired, allows the amount per transaction and has it
    left; then only that row's used amount grows, by exactly the amount, with one
    [spend] event, and otherwise the request's changes are discarded and the refusal
    committed. *)
Theorem reserve_spend_spec now audit_ok gid amount s :
  fleb amount fzero = false ->
  let '(out, s') := reserve_spend now audit_ok gid amount s in
  match out with
  | Ok g' =>
      exists g, g_rows (db_working s) !! gid = Some g /\ status g = ACTIVE_STATUS /\
        (forall e, expires_at g = Some e -> now < e) /\
        fleb (amount - GRANT_EPS)%float (per_tx_limit g) = true /\
        fleb (used_amount g + amount)%float (total_limit g + GRANT_EPS)%float = true /\
        g' = reserved now amount g /\
        g_rows (db_working s') = <[gid := g']> (g_rows (db_working s)) /\
        g_events (db_working s') = g_events (db_working s) ++ [spend_event g gid amount] /\
        g_reservations (db_working s') = g_reservations (db_working s) /\
        db_committed s' = db_committed s
  | Err e =>
      e = HTTPException 403 ("spending grant denied: " +:+ RESERVE_DENIED) /\
      (forall g, g_rows (db_working s) !! gid = Some g -> reservable now amount g = false) /\
      s' = denied audit_ok (deny_event gid "" "" RESERVE_DENIED) s
  end.
Proof.
  intros Ha. rewrite reserve_spend_run by done.
  destruct (g_rows (db_working s) !! gid) as [g|] eqn:Hg; [|split_and!; naive_solver].
  destruct (reservable now amount g) eqn:Hr; [|split_and!; naive_solver].
  exists g. unfold reservable in Hr. rewrite !andb_true_iff, bool_decide_eq_true in Hr.
  destruct Hr as [[[Hst Hex] Hp] Hu]. split_and!; try done.
  intros e He. rewrite He in Hex. by apply Z.ltb_lt.
Qed.

(** ** Interleaved statements: the budget is never exceeded

    Concurrent requests are sequences of these statements; the reads of a request may be
    stale, its writes are atomic on the row as it is. *)
Inductive GrantStmt :=
| SInsert (now : Z) (owner sig : string) (name : option string) (t : GrantTerms) (expires : option Z)
| SReserve (now : Z) (gid : string) (amount : float)
| SRelease (gid : string) (amount : float)
| SRecord (now : Z) (gid : string) (amount : float)
| SStatus (gid : string) (st : string)
| SRevoked (now : Z) (gid why : string)
| SLimit (gid : string) (lim : float).

Section Interleaving.
Context (float_str : float -> string).

Definition run_stmt (r : gmap string GrantRow) (c : GrantStmt) : gmap string GrantRow :=
  match c with
  | SInsert now owner sig name t expires =>
      match r !! t_grant_id t with
      | Some _ => r
      | None => <[t_grant_id t := new_grant float_str now owner sig name t expires]> r
      end
  | SReserve now gid amount => snd (reserve_update now gid amount r)
  | SRelease gid amount => release_update gid amount r
  | SRecord now gid amount => record_update now gid amount r
  | SStatus gid st => alter (set_status st) gid r
  | SRevoked now gid why => alter (set_revoked now why) gid r
  | SLimit gid lim => alter (set_limit lim) gid r
  end.

Definition positive (a : float) : Prop :=
  is_finite a = true /\ valid a = true /\ fltb fzero a = true.
Definition limit_below (B lim : float) : Prop :=
  is_finite lim = true /\ valid lim = true /\ fleb lim B = true.

(** What the callers check before the statement, and that every limit given to grant
    [gid] is at most [B]. *)
Definition admissible (gid : string) (B : float) (c : GrantStmt) : Prop :=
  match c with
  | SInsert _ _ _ _ t _ => t_grant_id t = gid -> limit_below B (t_total_limit t)
  | SReserve _ _ amount | SRelease _ amount => positive amount
  | SRecord _ gid' _ => gid' <> gid
  | SLimit gid' lim => gid' = gid -> limit_below B lim
  | _ => True
  end.

(** The row of [gid], if any, is within [B]. *)
Definition within (gid : string) (B : float) (r : gmap string GrantRow) : Prop :=
  forall g, r !! gid = Some g ->
    limit_below B (total_limit g) /\ number (used_amount g) = true /\
    fleb (used_amount g) (B + GRANT_EPS)%float = true.

Lemma GRANT_EPS_facts : is_finite GRANT_EPS = true /\ valid GRANT_EPS = true /\ 0 < sval GRANT_EPS.
Proof. split_and!; vm_compute; reflexivity. Qed.

Lemma within_alter gid gid' B f r :
  (forall g, gid = gid' -> r !! gid = Some g ->
     total_limit (f g) = total_limit g /\ used_amount (f g) = used_amount g) ->
  within gid B r -> within gid B (alter f gid' r).
Proof.
  intros Hf H g. destruct (decide (gid' = gid)) as [->|Hne].
  - rewrite lookup_alter_eq. intros (g0 & Hg0 & ->)%fmap_Some. destruct (Hf g0 eq_refl Hg0) as [-> ->]. by apply H.
  - rewrite lookup_alter_ne by done. apply H.
Qed.

(** A bound that is a non-negative finite float. *)
Definition bound (B : float) : Prop := limit_below B fzero /\ is_finite B = true /\ valid B = true.

Lemma bound_eps B lim : bound B -> limit_below B lim ->
  number (lim + GRANT_EPS)%float = true /\ number (B + GRANT_EPS)%float = true /\
  fleb (lim + GRANT_EPS)%float (B + GRANT_EPS)%float = true.
Proof.
  intros (_ & FB & VB) (Fl & Vl & Hl). destruct GRANT_EPS_facts as (Fe & Ve & _).
  split_and!; [by apply fadd_xval..|by apply fadd_mono_l].
Qed.

Lemma reserve_within now gid gid' amount B r : bound B -> positive amount ->
  within gid B r -> within gid B (snd (reserve_update now gid' amount r)).
Proof.
  intros HB Ha H. unfold reserve_update. destruct (r !! gid') as [g0|] eqn:Hg0; [|done].
  destruct (reservable now amount g0) eqn:Hr; [|done]. intros g. cbn [snd].
  destruct (decide (gid' = gid)) as [->|Hne].
  - rewrite lookup_insert_eq. intros [= <-]. cbn. destruct (H g0 Hg0) as (Hl & Nu & _).
    destruct (bound_eps B _ HB Hl) as (N1 & N2 & Hle).
    split_and!; [done|by apply number_add; [..|apply Ha|apply Ha]|]. unfold reservable in Hr.
    rewrite !andb_true_iff in Hr. destruct Hr as [_ Hu].
    by eapply fleb_trans_num; [by apply number_add; [..|apply Ha|apply Ha]|exact N1| | |].
  - rewrite lookup_insert_ne by done. apply H.
Qed.

Lemma release_within gid gid' amount B r : bound B -> positive amount ->
  within gid B r -> within gid B (release_update gid' amount r).
Proof.
  intros HB Ha H g. unfold release_update. destruct (decide (gid' = gid)) as [->|Hne].
  - rewrite lookup_alter_eq. intros (g0 & Hg0 & ->)%fmap_Some. destruct (H g0 Hg0) as (Hl & Nu & Hu).
    destruct (releasable amount g0); [|done]. cbn. destruct Ha as (Fa & Va & Pa), (number_sub_le _ _ Nu Fa Va Pa) as [Nu' Hle].
    split_and!; [done|done|]. eapply fleb_trans_num; [| | |exact Hle|exact Hu]; try done.
    by apply (bound_eps B (total_limit g0)).
  - rewrite lookup_alter_ne by done. apply H.
Qed.

Lemma run_stmt_within gid B r c : bound B -> admissible gid B c -> within gid B r ->
  within gid B (run_stmt r c).
Proof.
  intros HB Ha H. destruct c as [now owner sig name t expires|now gid' a|gid' a|now gid' a|gid' st|now gid' why|gid' lim];
    cbn [run_stmt admissible] in *.
  - destruct (r !! t_grant_id t) eqn:Hn; [done|]. intros g.
    destruct (decide (t_grant_id t = gid)) as [He|Hne].
    + rewrite He, lookup_insert_eq. intros [= <-]. cbn. split_and!; [by apply Ha|done|].
      destruct HB as (Hz & FB & VB). destruct (bound_eps B fzero) as (N1 & N2 & Hle); [done..|].
      eapply fleb_trans_num; [| | | |exact Hle]; done.
    + rewrite lookup_insert_ne by done. apply H.
  - by apply reserve_within.
  - by apply release_within.
  - apply within_alter; [|done]. intros g He. congruence.
  - by apply within_alter.
  - by apply within_alter.
  - intros g. destruct (decide (gid' = gid)) as [->|Hne].
    + rewrite lookup_alter_eq. intros (g0 & Hg0 & ->)%fmap_Some. cbn.
      destruct (H g0 Hg0) as (_ & ? & ?). split_and!; [by apply Ha|done|done].
    + rewrite lookup_alter_ne by done. apply H.
Qed.

(** C14. The budget of a grant is never exceeded: whatever statements concurrent requests
    execute in whatever order (creations, reservations, releases, pauses, revocations,
    reductions, on stale reads or not), if no limit ever given to the grant is above [B]
    and nobody calls the unchecked [record_spend] on it, its used amount never passes
    [B] by more than the tolerance. *)
Theorem grant_budget_kept gid B stmts g :
  bound B -> Forall (admissible gid B) stmts ->
  foldl run_stmt ∅ stmts !! gid = Some g ->
  fleb (used_amount g) (B + GRANT_EPS)%float = true.
Proof.
  intros HB Hs Hg.
  assert (forall r, within gid B r -> within gid B (foldl run_stmt r stmts)) as Hw.
  { clear Hg. induction Hs as [|c stmts Hc Hs IH]; [done|]. intros r Hr. simpl.
    by apply IH, run_stmt_within. }
  destruct (Hw ∅) with g as (_ & _ & ?); [|done..]. intros ? H. by rewrite lookup_empty in H.
Qed.
End Interleaving.

(** *** A concrete grant *)

Definition demo_str (x : float) : string := if (x <=? fzero)%float then "0" else "1".
Definition f10 : float := float_of_Z 10.
Definition f6 : float := float_of_Z 6.
Definition demo_terms : GrantTerms :=
  {| t_grant_id := "g1"; t_wallet_address := "0xA"; t_agent_id := "agent"; t_agent_public_key := None;
     t_currency := "USDC"; t_token_address := None; t_total_limit := f10; t_per_tx_limit := f10;
     t_purpose_scope := ["b"; "a"]; t_expires_at := None; t_nonce := "n1" |}%string.

Lemma grant_message_binds_witness :
  clean_terms demo_str demo_terms = true /\
  sorted_strings (t_purpose_scope demo_terms) = sorted_strings ["a"; "b"]%string /\
  t_nonce demo_terms = "n1"%string.
Proof.
  split; [vm_compute; reflexivity|]. split; [vm_compute; reflexivity|].
  apply (grant_message_binds demo_str demo_terms demo_terms); [vm_compute; reflexivity..|reflexivity].
Defined.

Definition demo_grant : GrantRow := new_grant demo_str 0 "owner" "0xsig" None demo_terms None.

Definition demo_stmts : list GrantStmt :=
  [SInsert 0 "owner" "0xsig" None demo_terms None; SReserve 1 "g1" f6; SReserve 2 "g1" f6;
   SLimit "g1" f6; SRelease "g1" f6; SReserve 3 "g1" f6]%string.

Lemma grant_budget_kept_witness :
  exists g, foldl (run_stmt demo_str) ∅ demo_stmts !! "g1"%string = Some g /\
            fleb (used_amount g) (f10 + GRANT_EPS)%float = true /\ used_amount g = f6.
Proof.
  eexists. split; [vm_compute; reflexivity|]. split; [|vm_compute; reflexivity].
  apply (grant_budget_kept demo_str "g1" f10 demo_stmts).
  - unfold bound, limit_below. split_and!; vm_compute; reflexivity.
  - unfold demo_stmts. repeat apply Forall_cons_2; try apply Forall_nil_2;
      cbn [admissible]; intros; unfold positive, limit_below; split_and!; vm_compute; reflexivity.
  - vm_compute. reflexivity.
Defined.

Definition demo_tables : GrantTables :=
  {| g_rows := {["g1"%string := demo_grant]}; g_events := []; g_reservations := ∅ |}.
Definition demo_session : DbSession GrantTables :=
  {| db_committed := demo_tables; db_working := demo_tables |}.

Lemma reserve_spend_spec_witness :
  fleb f6 fzero = false /\
  exists s', reserve_spend 5 true "g1" f6 demo_session = (Ok (reserved 5 f6 demo_grant), s') /\
    db_committed s' = demo_tables.
Proof.
  split; [vm_compute; reflexivity|].
  pose proof (reserve_spend_spec 5 true "g1" f6 demo_session eq_refl) as H.
  destruct (reserve_spend 5 true "g1" f6 demo_session) as [out s'] eqn:E.
  vm_compute in E. injection E as <- <-.
  destruct H as (g & _ & _ & _ & _ & _ & _ & _ & _ & _ & Hc). eexists. split; [vm_compute; reflexivity|exact Hc].
Defined.

(** ** Requests one after another: statuses and terms *)

Inductive status_step : string -> string -> Prop :=
| step_pause : status_step "active" "paused"
| step_resume : status_step "paused" "active"
| step_revoke_active : status_step "active" "revoked"
| step_revoke_paused : status_step "paused" "revoked".

(** [g'] is [g] with other mutable columns: owner, agent, per-transaction limit, expiry,
    purposes, signature and signed message are the same. *)
Definition same_terms (g g' : GrantRow) : Prop :=
  g' = update_row g (total_limit g') (used_amount g') (status g') (last_used_at g')
         (revoked_at g') (revoke_reason g').

Definition row_evolves (g g' : GrantRow) : Prop :=
  same_terms g g' /\ rtc status_step (status g) (status g').

(** Rows are stored under their own id. *)
Definition keyed (t : GrantTables) : Prop :=
  forall gid g, g_rows t !! gid = Some g -> grant_id g = gid.

Record evolves (t t' : GrantTables) : Prop := {
  rows_evolve : forall gid g, g_rows t !! gid = Some g ->
    exists g', g_rows t' !! gid = Some g' /\ row_evolves g g';
  events_grow : g_events t `prefix_of` g_events t';
  reservations_kept : g_reservations t ⊆ g_reservations t';
  keys_kept : keyed t -> keyed t'
}.

#[export] Instance row_evolves_preorder : PreOrder row_evolves.
Proof.
  split.
  - intros g. split; [by destruct g|done].
  - intros g1 g2 g3 [H1 P1] [H2 P2]. split; [|by etrans].
    unfold same_terms in *. rewrite H2. by rewrite H1.
Qed.

#[export] Instance evolves_preorder : PreOrder evolves.
Proof.
  split.
  - intros t. split; [|done..]. intros gid g Hg. by exists g.
  - intros t1 t2 t3 [R1 E1 V1 K1] [R2 E2 V2 K2]. split; [|by etrans|by etrans|by auto].
    intros gid g Hg. destruct (R1 _ _ Hg) as (g2 & Hg2 & S1). destruct (R2 _ _ Hg2) as (g3 & Hg3 & S2).
    exists g3. split; [done|by etrans].
Qed.

Lemma evolves_event e t : evolves t (with_event e t).
Proof. split; [intros gid g Hg; by exists g|by apply prefix_app_r|done..]. Qed.

Lemma evolves_alter f gid t :
  (forall g, g_rows t !! gid = Some g -> row_evolves g (f g)) ->
  evolves t (with_rows (alter f gid (g_rows t)) t).
Proof.
  intros Hf. split; [|done|done|].
  - intros gid' g Hg. cbn. destruct (decide (gid = gid')) as [<-|Hne].
    + exists (f g). rewrite lookup_alter_eq, Hg. split; [done|by apply Hf].
    + exists g. by rewrite lookup_alter_ne.
  - intros Hk gid' g. cbn. rewrite lookup_alter. case_decide as Hd; [|by apply Hk].
    intros (g0 & Hg0 & ->)%fmap_Some. subst. destruct (Hf g0 Hg0) as [-> _]. exact (Hk _ _ Hg0).
Qed.

Lemma evolves_insert gid g t : grant_id g = gid ->
  (forall g0, g_rows t !! gid = Some g0 -> row_evolves g0 g) ->
  evolves t (with_rows (<[gid := g]> (g_rows t)) t).
Proof.
  intros Hid Ho. split; [|done|done|].
  - intros gid' g' Hg. cbn. destruct (decide (gid = gid')) as [<-|Hne].
    + exists g. rewrite lookup_insert_eq. auto.
    + exists g'. by rewrite lookup_insert_ne.
  - intros Hk gid' g'. cbn. rewrite lookup_insert. case_decide as Hd; [|apply Hk].
    intros [= <-]. congruence.
Qed.

Lemma evolves_reservation r t : g_reservations t !! res_bill_id r = None -> evolves t (with_reservation r t).
Proof. intros Hn. split; [intros gid g Hg; by exists g|done|by apply insert_subseteq|done]. Qed.

Lemma set_used_evolves u l g : row_evolves g (set_used u l g).
Proof. done. Qed.
#[export] Hint Resolve evolves_event evolves_reservation set_used_evolves : karma.

(** A statement keeps the tables evolving from [T], whatever it does in between. *)
Definition from (T : GrantTables) (s : DbSession GrantTables) : Prop :=
  keyed T /\ evolves T (db_committed s) /\ evolves T (db_working s).
Definition keeps {A} (c : GM A) : Prop := forall T s, from T s -> from T (exec c s).

Lemma keeps_bind {A B} (c : GM A) (k : A -> GM B) : keeps c -> (forall a, keeps (k a)) -> keeps (m_bind c k).
Proof.
  intros Hc Hk T s Hs. specialize (Hc T s Hs). unfold exec, m_bind in *.
  destruct (c s) as [[a|e] s1]; [by apply Hk|done].
Qed.
Lemma keeps_read {A B} (f : DbSession GrantTables -> A) (k : A -> GM B) :
  (forall T s, from T s -> from T (exec (k (f s)) s)) -> keeps (m_bind (m_get f) k).
Proof. intros H T s Hs. by apply H. Qed.
Lemma keeps_ret {A} (a : A) : keeps (m_ret a).
Proof. by intros T s Hs. Qed.
Lemma keeps_raise {A} e : keeps (m_raise e : GM A).
Proof. by intros T s Hs. Qed.
Lemma keeps_lift {A} (r : result Exc A) : keeps (lift r).
Proof. by intros T s Hs. Qed.
Lemma keeps_get {A} (f : DbSession GrantTables -> A) : keeps (m_get f).
Proof. by intros T s Hs. Qed.
Lemma keeps_commit : keeps db_commit.
Proof. by intros T s (? & ? & ?). Qed.
Lemma keeps_rollback : keeps db_rollback.
Proof. by intros T s (? & ? & ?). Qed.
Lemma from_put T f s : evolves (db_working s) (f (db_working s)) -> from T s ->
  from T (exec (put_tables f) s).
Proof. intros Hf (K & H1 & H2). split_and!; [done..|]. by etrans. Qed.
Lemma keeps_put f : (forall t, evolves t (f t)) -> keeps (put_tables f).
Proof. intros Hf T s Hs. by apply from_put. Qed.
Lemma keeps_event gid owner agent typ a r : keeps (record_event gid owner agent typ a r).
Proof. apply keeps_put. auto with karma. Qed.
Lemma keeps_row gid : keeps (the_row gid).
Proof. apply keeps_get. Qed.
#[export] Hint Resolve keeps_row keeps_ret keeps_raise keeps_lift keeps_get keeps_commit keeps_rollback
  keeps_event : karma.

Lemma keeps_session {A} (c : GM A) : keeps c -> keeps (in_session c).
Proof.
  intros Hc T s Hs. specialize (Hc T s Hs). unfold exec, in_session, m_catch, m_bind in *.
  destruct (c s) as [[a|e] s1]; cbn in *; [by apply keeps_commit|by apply keeps_rollback].
Qed.

Lemma keeps_deny ok gid owner agent reason : keeps (record_deny_safe ok gid owner agent reason).
Proof.
  unfold record_deny_safe. apply keeps_bind; [auto with karma|]. intros _.
  destruct ok; [|auto with karma]. apply keeps_bind; auto with karma.
Qed.
#[export] Hint Resolve keeps_deny : karma.

(** Steps through a statement whose parts all keep. *)
Ltac keep := repeat (first [done|apply keeps_bind; [solve [auto with karma]|intros ?]|case_match|solve [auto with karma]]).

Section Requests.
Context (recover : string -> string -> option string) (fromisoformat : string -> option Z)
        (float_str : float -> string) (newest_first : list GrantRow -> list GrantRow).

Lemma keeps_reserve now ok gid amount : keeps (reserve_spend now ok gid amount).
Proof.
  unfold reserve_spend. case_match; [auto with karma|]. apply keeps_bind; [|intros n; keep].
  intros T s (K & H1 & H2). unfold exec, on_db, zoom, reserve_update.
  destruct (g_rows (db_working s) !! gid) as [g|] eqn:Hg; [destruct (reservable now amount g)|]; cbn;
    (split_and!; [done..|]); cbn.
  1: etrans; [exact H2|]; apply evolves_insert; [exact (keys_kept _ _ H2 K _ _ Hg)|].
  1: { intros g0 Hg0. simplify_eq. apply set_used_evolves. }
  all: unfold with_rows; by destruct (db_working s).
Qed.

Lemma keeps_release gid amount : keeps (release_spend gid amount).
Proof.
  unfold release_spend. case_match; [auto with karma|]. apply keeps_bind; [|keep]. apply keeps_put. intros t.
  apply evolves_alter. intros g _. by case_match.
Qed.

Lemma keeps_record now gid amount owner agent : keeps (record_spend now gid amount owner agent).
Proof.
  apply keeps_bind; [|keep]. apply keeps_put. intros t. apply evolves_alter. auto with karma.
Qed.

Lemma keeps_create now owner sig name t : keeps (create_grant recover fromisoformat float_str now owner sig name t).
Proof.
  unfold create_grant. do 2 (apply keeps_bind; [auto with karma|intros _]). apply keeps_read. intros T s Hs.
  destruct (g_rows (db_working s) !! t_grant_id t) eqn:Hn; [done|].
  unfold exec, m_bind at 1, lift at 1. destruct (parse_expiry _ _ _) as [ex|]; [|done].
  unfold m_bind at 1. set (s1 := put_tables _ s).
  assert (from T (snd s1)).
  { apply from_put; [|done]. apply evolves_insert; [done|]. intros g0 Hg0. cbn in Hg0. congruence. }
  assert (keeps (seq! record_event (t_grant_id t) owner (t_agent_id t) "created" None None in
    m_ret (new_grant float_str now owner sig name t ex))) as Hk by keep.
  by apply Hk.
Qed.

Lemma keeps_allowed now ok agent token amount owner :
  keeps (assert_spend_allowed newest_first now ok agent token amount owner).
Proof. unfold assert_spend_allowed, rows_where. keep. Qed.

Lemma keeps_link bill gid agent amount : keeps (link_bill_to_grant bill gid agent amount).
Proof.
  apply keeps_read. intros T s Hs. destruct (g_reservations (db_working s) !! bill) eqn:Hn; [done|].
  unfold exec, m_bind. apply from_put; [|done]. auto with karma.
Qed.
End Requests.
#[export] Hint Resolve keeps_reserve keeps_release keeps_record keeps_create keeps_allowed keeps_link : karma.

(** ** Requests and their effect on every grant *)

Inductive GrantRequest :=
| QCreate (now : Z) (identity : string -> option string) (sig : string) (name : option string) (t : GrantTerms)
| QLock (now : Z) (audit_ok enforced : bool) (caller : option string) (token : string) (amount : Z)
    (role : string) (chain : result string Z)
| QSpendGate (now : Z) (audit_ok : bool) (agent : string) (amount : float) (owner : option string)
| QRecord (now : Z) (gid : string) (amount : float) (owner agent : option string)
| QRevoke (now : Z) (gid wallet sig reason : string)
| QPause (gid wallet sig : string)
| QResume (now : Z) (gid wallet sig : string)
| QReduce (now : Z) (gid wallet sig : string) (new_total : float) (reason : option string).

Section Requests2.
Context (recover : string -> string -> option string) (fromisoformat : string -> option Z)
        (float_str : float -> string) (newest_first : list GrantRow -> list GrantRow).

Definition handle (q : GrantRequest) : GM unit :=
  let drop {A} (c : GM A) : GM unit := seq! c in m_ret tt in
  match q with
  | QCreate now identity sig name t =>
      drop (create_route recover fromisoformat float_str now identity sig name t)
  | QLock now ok enforced caller token amount role chain =>
      drop (lock newest_first (fun _ _ _ => chain) now ok enforced caller token amount role)
  | QSpendGate now ok agent amount owner =>
      drop (assert_spend_allowed newest_first now ok agent None amount owner)
  | QRecord now gid amount owner agent => record_spend now gid amount owner agent
  | QRevoke now gid wallet sig reason => drop (revoke_route recover now gid wallet sig reason)
  | QPause gid wallet sig => drop (pause_route recover gid wallet sig)
  | QResume now gid wallet sig => drop (resume_route recover now gid wallet sig)
  | QReduce now gid wallet sig new_total reason =>
      drop (reduce_route recover float_str now gid wallet sig new_total reason)
  end.

(** One request in its own session on the committed tables. *)
Definition serve (t : GrantTables) (q : GrantRequest) : GrantTables :=
  db_committed (exec (in_session (handle q)) {| db_committed := t; db_working := t |}).

Lemma keeps_lock lock_direct now ok enforced caller token amount role :
  keeps (lock newest_first lock_direct now ok enforced caller token amount role).
Proof.
  unfold lock. repeat (apply keeps_bind; [keep|intros ?]; keep).
Qed.

Lemma from_flush T f s gid g : from T s -> g_rows (db_working s) !! gid = Some g -> row_evolves g (f g) ->
  from T (exec (flush f gid) s).
Proof.
  intros Hs Hg Hf. apply from_put; [|done]. apply evolves_alter. intros g' Hg'. by simplify_eq.
Qed.

Lemma keeps_owner_route gid msg wallet sig (op : GrantRow -> GM unit) :
  (forall T s g, from T s -> g_rows (db_working s) !! grant_id g = Some g -> from T (exec (op g) s)) ->
  keeps (owner_route recover gid msg wallet sig op).
Proof.
  intros Hop. apply keeps_read. intros T s Hs. destruct (g_rows (db_working s) !! gid) as [g|] eqn:Hg; [|done].
  assert (Hk : from T (exec (op g) s)).
  { apply Hop; [done|]. destruct Hs as (K & _ & H2). by rewrite (keys_kept _ _ H2 K _ _ Hg). }
  unfold exec, m_bind, lift in *. destruct (verify_owner _ _ _ _ _) as [[]|]; [|done].
  destruct (op g s) as [[[]|] s1]; [|done]. destruct Hk as (? & ? & ?). by split_and!.
Qed.

(** A flush of legal columns followed by an event. *)
Lemma from_flush_event T f s g typ a r :
  from T s -> g_rows (db_working s) !! grant_id g = Some g -> row_evolves g (f g) ->
  from T (exec (seq! flush f (grant_id g) in event_of g typ a r) s).
Proof.
  intros Hs Hg Hf. pose proof (from_flush T f s _ g Hs Hg Hf) as H1.
  unfold exec, m_bind in *. by apply keeps_event.
Qed.

Lemma flush_status st g : status_step (status g) st -> row_evolves g (set_status st g).
Proof. intros Hst. split; [done|]. cbn. by apply rtc_once. Qed.

Lemma keeps_revoke now gid wallet sig reason : keeps (revoke_route recover now gid wallet sig reason).
Proof.
  apply keeps_owner_route. intros T s g Hs Hg. unfold revoke_grant.
  destruct (mem _ _) eqn:Hm; [|by apply keeps_raise]. apply from_flush_event; [done..|].
  apply mem_true in Hm. split; [done|]. cbn. apply rtc_once.
  repeat (apply elem_of_cons in Hm as [->|Hm]; [constructor|]). by apply elem_of_nil in Hm.
Qed.
Lemma keeps_pause gid wallet sig : keeps (pause_route recover gid wallet sig).
Proof.
  apply keeps_owner_route. intros T s g Hs Hg. unfold pause_grant.
  case_decide as Hst; [|by apply keeps_raise]. apply from_flush_event; [done..|].
  apply flush_status. rewrite Hst. constructor.
Qed.
Lemma keeps_resume now gid wallet sig : keeps (resume_route recover now gid wallet sig).
Proof.
  apply keeps_owner_route. intros T s g Hs Hg. unfold resume_grant.
  case_decide as Hst; [|by apply keeps_raise]. destruct (expired now g); [by apply keeps_raise|].
  apply from_flush_event; [done..|]. apply flush_status. rewrite Hst. constructor.
Qed.
Lemma keeps_reduce now gid wallet sig new_total reason :
  keeps (reduce_route recover float_str now gid wallet sig new_total reason).
Proof.
  apply keeps_owner_route. intros T s g Hs Hg. unfold reduce_grant, m_bind at 1, exec, lift.
  destruct (check_reduction _ _ _); [|done]. by apply from_flush_event.
Qed.

Lemma keeps_handle q : keeps (handle q).
Proof.
  destruct q; cbn [handle]; try (apply keeps_bind; [|intros; apply keeps_ret]).
  - unfold create_route. case_match; [|apply keeps_raise]. keep.
  - apply keeps_lock.
  - apply keeps_allowed.
  - apply keeps_record.
  - apply keeps_revoke.
  - apply keeps_pause.
  - apply keeps_resume.
  - apply keeps_reduce.
Qed.

Lemma serve_evolves t q : keyed t -> evolves t (serve t q).
Proof. intros K. by apply (keeps_session _ (keeps_handle q) t {| db_committed := t; db_working := t |}). Qed.

Lemma revoked_stays x : rtc status_step "revoked" x -> x = "revoked"%string.
Proof. inversion 1 as [|? ? ? Hs]; [done|inversion Hs]. Qed.

(** The life of a grant under any sequence of requests (creations, locks with any chain
    outcome, spends, revocations, pauses, resumptions, reductions, with any failures):
    a committed grant is never lost, the terms the owner signed never change, its status
    only moves between active and paused or to revoked, a revoked grant stays revoked,
    and audit events and reservations are never removed or rewritten. *)
Theorem grant_lifecycle t qs gid g :
  keyed t -> g_rows t !! gid = Some g ->
  let t' := foldl serve t qs in
  exists g', g_rows t' !! gid = Some g' /\ same_terms g g' /\
    rtc status_step (status g) (status g') /\
    (status g = "revoked"%string -> status g' = "revoked"%string) /\
    g_events t `prefix_of` g_events t' /\ g_reservations t ⊆ g_reservations t'.
Proof.
  intros K Hg t'. assert (E : evolves t t').
  { subst t'. clear Hg. revert t K. induction qs as [|q qs IH]; intros t K; simpl; [done|].
    pose proof (serve_evolves t q K) as H. etrans; [exact H|]. apply IH. by apply (keys_kept _ _ H). }
  destruct (rows_evolve _ _ E _ _ Hg) as (g' & Hg' & Ht & Hst).
  exists g'. split_and!; try done; [|apply E|apply E]. intros Hr. rewrite Hr in Hst. by apply revoked_stays.
Qed.
End Requests2.

Definition demo_recover (message raw : string) : option string :=
  Some "0x00000000000000000000000000000000000000aa"%string.
Definition demo_wallet : string := "0x00000000000000000000000000000000000000AA".
Fixpoint repeat_char (n : nat) (c : Ascii.ascii) : string :=
  match n with O => "" | S n => String c (repeat_char n c) end.
Definition demo_sig : string := "0x" +:+ repeat_char 130 (Ascii.ascii_of_nat 48).
Definition demo_owned : GrantRow :=
  {| grant_id := "g1"; owner_identity_id := "owner"; owner_wallet_address := py_lower demo_wallet;
     agent_id := "agent"; agent_name := None; agent_public_key := None; currency := "USDC";
     token_address := None; total_limit := f10; per_tx_limit := f10; used_amount := fzero;
     purpose_scope := []; status := ACTIVE_STATUS; expires_at := None; nonce := "n1";
     signature := demo_sig; signed_message := "m"; last_used_at := None; revoked_at := None;
     revoke_reason := None; created_at := 0 |}.
Definition owned_tables : GrantTables :=
  {| g_rows := {["g1"%string := demo_owned]}; g_events := []; g_reservations := ∅ |}.
Definition demo_serve : GrantTables -> GrantRequest -> GrantTables :=
  serve demo_recover (fun _ => None) demo_str (fun l => l).

Lemma grant_lifecycle_witness :
  exists g', g_rows (foldl demo_serve owned_tables
      [QPause "g1" demo_wallet demo_sig; QRevoke 7 "g1" demo_wallet demo_sig "done";
       QResume 8 "g1" demo_wallet demo_sig]) !! "g1"%string = Some g' /\
    same_terms demo_owned g' /\ status g' = "revoked"%string.
Proof.
  destruct (grant_lifecycle demo_recover (fun _ => None) demo_str (fun l => l) owned_tables
    [QPause "g1" demo_wallet demo_sig; QRevoke 7 "g1" demo_wallet demo_sig "done";
     QResume 8 "g1" demo_wallet demo_sig] "g1" demo_owned) as (g' & Hg' & Ht & _).
  - intros gid g. unfold owned_tables. cbn. intros [<- <-]%lookup_singleton_Some. reflexivity.
  - reflexivity.
  - exists g'. split; [exact Hg'|]. split; [exact Ht|].
    vm_compute in Hg'. injection Hg' as <-. reflexivity.
Defined.

(** ** The gate and the lock route *)

Section Gate.
Context (newest_first : list GrantRow -> list GrantRow).
Hypothesis newest_first_perm : forall l, newest_first l ≡ₚ l.

Lemma rows_where_elem f (s : DbSession GrantTables) g l :
  outcome (rows_where newest_first f) s = Ok l ->
  g ∈ l <-> f g = true /\ exists gid, g_rows (db_working s) !! gid = Some g.
Proof.
  intros [= <-]. rewrite newest_first_perm, list_elem_of_filter, list_elem_of_fmap.
  split.
  - intros [Hf ([gid g'] & -> & Hin)]. split; [done|]. exists gid. by apply elem_of_map_to_list in Hin.
  - intros [Hf [gid Hg]]. split; [done|]. exists (gid, g). split; [done|]. by apply elem_of_map_to_list.
Qed.

(** The agent's active grants in the working tables. *)
Definition active_grant (agent : string) (owner : option string) (s : DbSession GrantTables) (g : GrantRow) : Prop :=
  active_of agent owner g = true /\ exists gid, g_rows (db_working s) !! gid = Some g.

(** The gate lets a spend through exactly when some active grant of the agent (and
    owner) covers it, and returns such a grant without touching the tables; otherwise it
    answers 403, discards what the request had written and commits one [deny] event. *)
Theorem spend_gate_spec now audit_ok agent token amount owner s :
  let '(out, s') := assert_spend_allowed newest_first now audit_ok agent token amount owner s in
  match out with
  | Ok g => active_grant agent owner s g /\ covers now token amount g = true /\ s' = s
  | Err e =>
      (forall g, active_grant agent owner s g -> covers now token amount g = false) /\
      (e = DENIED_NONE \/ e = DENIED_COVER) /\
      exists ev, event_type ev = "deny"%string /\ ev_agent ev = agent /\ s' = denied audit_ok ev s
  end.
Proof.
  unfold assert_spend_allowed, m_bind at 1.
  pose proof (rows_where_elem (active_of agent owner) s) as Hl.
  unfold outcome in Hl. destruct (rows_where newest_first (active_of agent owner) s) as [[l|e] s1] eqn:E;
    [|by inversion E].
  assert (s1 = s) as -> by (by inversion E). destruct l as [|g0 l].
  - unfold m_bind at 1. rewrite record_deny_safe_run. cbn. split_and!; [|by left|eexists; split_and!; [| |reflexivity]; done].
    intros g Hg. apply Hl with (l := []) in Hg; [|done]. by apply not_elem_of_nil in Hg.
  - destruct (list_find _ (g0 :: l)) as [[i g]|] eqn:Hf.
    + apply list_find_Some in Hf as (Hi & Hc & _). cbn. split_and!; [|done|done].
      apply (Hl g (g0 :: l)); [done|]. by eapply list_elem_of_lookup_2.
    + apply list_find_None in Hf. unfold m_bind at 1. rewrite record_deny_safe_run. cbn.
      split_and!; [|by right|eexists; split_and!; [| |reflexivity]; done].
      intros g Hg. apply Hl with (l := g0 :: l) in Hg; [|done]. rewrite Forall_forall in Hf.
      apply not_true_iff_false. by apply Hf.
Qed.

Section Lock.
Context (lock_direct : string -> Z -> string -> result string Z).

(** A bill the route has locked is covered by its grant at that time. *)
Lemma covered_after_lock now bill agent g s res :
  g_reservations (db_working s) !! bill = Some res -> res_agent_id res = agent ->
  g_rows (db_working s) !! res_grant_id res = Some g -> status g = ACTIVE_STATUS ->
  (forall e, expires_at g = Some e -> now < e) ->
  assert_bill_covered_by_grant now bill agent s = (Ok res, s).
Proof.
  intros Hr Ha Hg Hst He. unfold assert_bill_covered_by_grant, get_bill_reservation, m_bind, m_get.
  rewrite Hr, decide_True by done. unfold get_grant, the_row, m_get. rewrite Hg.
  rewrite bool_decide_true by done. unfold expired. destruct (expires_at g) as [e|] eqn:E; [|done].
  specialize (He e eq_refl). by rewrite (proj2 (Z.ltb_ge e now)) by lia.
Qed.

Definition reservation_of (bill : Z) (gid agent : string) (a : float) : Reservation :=
  {| res_bill_id := bill; res_grant_id := gid; res_agent_id := agent; res_amount := a |}.

(** Locking a bill under enforced grants.  When the route answers with a bill, the
    amount was deducted from one active grant of the caller that could hold it, exactly
    that grant and the link of the bill were committed, and the settle gate accepts the
    bill for that agent.  When the chain refuses, the deduction is given back in the
    same transaction and no bill is linked.  Every other refusal leaves the committed
    grants and links as they were. *)
Theorem lock_spec now audit_ok agent token amount s :
  keyed (db_working s) -> agent <> ""%string ->
  let a := (float_of_Z amount / TOKEN_UNIT)%float in
  let '(out, s') := lock newest_first lock_direct now audit_ok true (Some agent) token amount "agent" s in
  match out with
  | Ok bill =>
      lock_direct token amount "agent" = Ok bill /\
      exists g, g_rows (db_working s) !! grant_id g = Some g /\ agent_id g = agent /\
        reservable now a g = true /\
        g_rows (db_committed s') = <[grant_id g := reserved now a g]> (g_rows (db_working s)) /\
        g_reservations (db_committed s') =
          <[bill := reservation_of bill (grant_id g) agent a]> (g_reservations (db_working s)) /\
        assert_bill_covered_by_grant now bill agent s' =
          (Ok (reservation_of bill (grant_id g) agent a), s')
  | Err (HTTPException 502 _) =>
      exists g e, lock_direct token amount "agent" = Err e /\
        g_rows (db_working s) !! grant_id g = Some g /\ reservable now a g = true /\
        g_rows (db_committed s') =
          release_update (grant_id g) a (<[grant_id g := reserved now a g]> (g_rows (db_working s))) /\
        g_reservations (db_committed s') = g_reservations (db_working s)
  | Err _ =>
      g_rows (db_committed s') = g_rows (db_committed s) /\
      g_reservations (db_committed s') = g_reservations (db_committed s)
  end.
Proof.
  intros K Hag a. unfold lock. cbn [andb]. rewrite bool_decide_true by done.
  unfold str_or. rewrite decide_False by done. fold a.
  unfold m_bind at 1 2. pose proof (spend_gate_spec now audit_ok agent (Some token) a None s) as Hgate.
  destruct (assert_spend_allowed _ _ _ _ _ _ _ s) as [[g|e] s1].
  2: { destruct Hgate as (_ & He & ev & _ & _ & ->). destruct He as [-> | ->]; by destruct audit_ok. }
  destruct Hgate as ([Hact [gid Hg]] & Hcov & ->). pose proof (K _ _ Hg) as <-.
  unfold m_bind at 1. destruct (fleb a fzero) eqn:Ha; [unfold reserve_spend; by rewrite Ha|].
  rewrite reserve_spend_run, Hg by done. destruct (reservable now a g) eqn:Hr; [|by destruct audit_ok].
  unfold active_of in Hact. rewrite !andb_true_iff, !bool_decide_eq_true in Hact.
  destruct Hact as [[Hagent Hst] _]. cbn [m_ret m_bind].
  unfold m_ret at 1. destruct (lock_direct token amount "agent") as [bill|e] eqn:Hchain.
  - unfold m_bind, link_bill_to_grant, m_get, m_bind. cbn [db_working g_reservations with_event with_rows grant_id reserved set_used update_row].
    destruct (g_reservations (db_working s) !! bill) eqn:Hb; [done|].
    cbn -[assert_bill_covered_by_grant]. split; [done|].
    exists g. split_and!; try done. apply covered_after_lock with (g := reserved now a g).
    + cbn. by rewrite lookup_insert_eq.
    + done.
    + cbn. by rewrite lookup_insert_eq.
    + done.
    + intros e He. unfold reservable in Hr. rewrite !andb_true_iff in Hr. cbn in He.
      rewrite He in Hr. destruct Hr as [[[_ Hr] _] _]. by apply Z.ltb_lt.
  - unfold m_bind, release_spend. rewrite Ha. cbn. exists g, e. by split_and!.
Qed.
End Lock.
End Gate.

Lemma spend_gate_perm_demo l : (fun l : list GrantRow => l) l ≡ₚ l.
Proof. done. Qed.

Lemma spend_gate_spec_witness :
  exists s', assert_spend_allowed (fun l => l) 5 true "agent" None (float_of_Z 11) None demo_session
             = (Err DENIED_COVER, s') /\
    (forall g, active_grant "agent" None demo_session g -> covers 5 None (float_of_Z 11) g = false).
Proof.
  pose proof (spend_gate_spec (fun l => l) spend_gate_perm_demo 5 true "agent" None (float_of_Z 11) None demo_session) as H.
  destruct (assert_spend_allowed (fun l => l) 5 true "agent" None (float_of_Z 11) None demo_session) as [out s'] eqn:E.
  exists s'. assert (out = Err DENIED_COVER) as -> by (vm_compute in E; by injection E as <- _).
  split; [reflexivity|apply H].
Defined.

Lemma lock_spec_witness :
  exists s', lock (fun l => l) (fun _ _ _ => Ok 42) 5 true true (Some "agent"%string) "0xT" 6000000 "agent" demo_session
             = (Ok 42, s') /\
    assert_bill_covered_by_grant 5 42 "agent" s' = (Ok (reservation_of 42 "g1" "agent" f6), s').
Proof.
  pose proof (lock_spec (fun l => l) spend_gate_perm_demo (fun _ _ _ => Ok 42) 5 true "agent" "0xT" 6000000 demo_session) as H.
  destruct (lock (fun l => l) (fun _ _ _ => Ok 42) 5 true true (Some "agent"%string) "0xT" 6000000 "agent" demo_session)
    as [out s'] eqn:E. exists s'.
  assert (out = Ok 42) as -> by (vm_compute in E; by injection E as <- _). split; [reflexivity|].
  destruct H as (_ & g & Hg & _ & _ & _ & _ & Hc).
  - intros gid g. unfold demo_session, demo_tables. cbn. intros [<- <-]%lookup_singleton_Some. reflexivity.
  - discriminate.
  - assert (grant_id g = "g1"%string) as Hid.
    { unfold demo_session, demo_tables in Hg. cbn in Hg. by apply lookup_singleton_Some in Hg as [<- _]. }
    rewrite Hid in Hc. rewrite Hc. vm_compute. reflexivity.
Defined.

(** ** Where the code and its promises part *)

(** Two place-order requests check the allowance before either records its spend: both
    pass the gate for 6 of a limit of 10, both record, and the grant is overspent.
    [reserve_spend] exists for this; the runtime gateway calls [assert_spend_allowed]
    and later [record_spend]. *)
Theorem checked_then_recorded_overspends :
  let gate := assert_spend_allowed (fun l => l) 5 true "agent" None f6 (Some "owner"%string) in
  let record := seq! record_spend 6 "g1" f6 (Some "owner"%string) (Some "agent"%string) in db_commit in
  exists g, outcome gate demo_session = Ok demo_grant /\
    g_rows (db_committed (exec record (exec record (exec gate (exec gate demo_session))))) !! "g1"%string = Some g /\
    fleb (used_amount g) (total_limit g + GRANT_EPS)%float = false.
Proof. eexists. split_and!; vm_compute; reflexivity. Qed.

(** A pause that has read the grant before a revocation commits writes [paused] over
    [revoked], and the owner's earlier resume signature brings the grant back. *)
Theorem stale_pause_undoes_revoke :
  let revoke := seq! revoke_grant 7 demo_owned "stolen key" in db_commit in
  let pause := seq! pause_grant demo_owned in db_commit in
  let s := {| db_committed := owned_tables; db_working := owned_tables |} in
  let t := db_committed (exec pause (exec revoke s)) in
  exists g g', g_rows t !! "g1"%string = Some g /\ status g = "paused"%string /\ revoked_at g = Some 7 /\
    g_rows (demo_serve t (QResume 9 "g1" demo_wallet demo_sig)) !! "g1"%string = Some g' /\
    status g' = ACTIVE_STATUS.
Proof. do 2 eexists. split_and!; vm_compute; reflexivity. Qed.

(** Reducing a limit of 9.9999998 to 9.9999997 raises it to 10: the new limit is
    rounded to six decimals after the comparison. *)
Theorem reduction_can_raise_the_limit :
  let g := set_limit (float_of_ratio false 99999998 10000000) demo_owned in
  check_reduction 5 g (float_of_ratio false 99999997 10000000) = Ok f10 /\
  fltb (total_limit g) f10 = true.
Proof. split; vm_compute; reflexivity. Qed.

(** Releasing 1 from a used amount of 0.999999999 leaves a negative used amount,
    although the guard is documented to prevent it. *)
Theorem release_goes_negative :
  let g := set_used (float_of_ratio false 999999999 1000000000) None demo_owned in
  exists g', release_update "g1" (float_of_Z 1) {["g1"%string := g]} !! "g1"%string = Some g' /\
    fltb (used_amount g') fzero = true.
Proof. eexists. split; vm_compute; reflexivity. Qed.

Definition terms_with (agent key : string) : GrantTerms :=
  {| t_grant_id := "g1"; t_wallet_address := "0xA"; t_agent_id := agent; t_agent_public_key := Some key;
     t_currency := "USDC"; t_token_address := None; t_total_limit := f10; t_per_tx_limit := f10;
     t_purpose_scope := []; t_expires_at := None; t_nonce := "n1" |}%string.

(** With a line break in a field, two grants for different agents have one message: the
    owner's signature for one is accepted for the other. *)
Theorem line_break_changes_the_agent :
  let sep := (newline +:+ "agent_public_key:")%string in
  build_grant_message demo_str (terms_with ("a" +:+ sep +:+ "k")%string "x") =
  build_grant_message demo_str (terms_with "a" ("k" +:+ sep +:+ "x")%string).
Proof. vm_compute. reflexivity. Qed.
