(* ===== verification/GrantApproval.v ===== *)
(** * Approval of spending grants by the owner

    [services/grant_approval.py] and the wallet look-ups it uses of
    [services/identity_wallet_binding.py].  The store is the ordered dictionary
    [_RECORDS] with its file; a time is in microseconds, and [_iso] keeps whole seconds,
    which is what the records hold.  Codes and names are ASCII text.  Parameters: the
    digest ([sha256_hex]), the key fingerprint and what [SpendingGrant] takes. *)
From S2P Require Import Prelude PyFloat FloatFacts SpendingGrant.
Open Scope Z_scope.

Definition DEFAULT_TTL_SECONDS : Z := 900.
Definition MAX_ATTEMPTS : Z := 5.
Definition MAX_RECORDS : nat := 500.
Definition CODE_ALPHABET : string := "ABCDEFGHJKMNPQRSTUVWXYZ23456789".
Definition CODE_LEN : nat := 8.

Definition SECOND : Z := 1000000.
Definition iso (t : Z) : Z := t / SECOND * SECOND.

(** ** Confirmation codes *)

Definition is_alnum (c : Ascii.ascii) : bool :=
  let n := Ascii.nat_of_ascii c in
  ((48 <=? n) && (n <=? 57) || (65 <=? n) && (n <=? 90) || (97 <=? n) && (n <=? 122))%nat.
Definition in_alphabet (c : Ascii.ascii) : bool := has_char c CODE_ALPHABET.

(** The upper-cased letters and digits of a text. *)
Definition code_chars (value : string) : list Ascii.ascii :=
  filter (fun c => is_alnum c = true) (py_upper_ascii <$> String.list_ascii_of_string value).

(** A code as its eight characters: [normalize_confirmation_code] shows them with a
    dash in the middle, [_confirmation_key] drops the dash. *)
Definition good_code (raw : list Ascii.ascii) : bool :=
  (length raw =? CODE_LEN)%nat && forallb in_alphabet raw.

Definition normalize_confirmation_code (value : string) : string :=
  let raw := code_chars value in
  if good_code raw
  then String.string_of_list_ascii (take 4 raw) +:+ "-" +:+ String.string_of_list_ascii (drop 4 raw)
  else "".

(** [s.replace("-", "")]. *)
Definition drop_dashes (s : string) : string :=
  String.string_of_list_ascii
    (filter (fun c => c <> Ascii.ascii_of_nat 45) (String.list_ascii_of_string s)).
Definition confirmation_key (value : string) : string := drop_dashes (normalize_confirmation_code value).

Definition code_of_body (body : string) : string := take_chars 4 body +:+ "-" +:+ drop_chars 4 body.

(** ** Records *)

Record Approval := {
  challenge_id : string;
  confirmation_code_sha256 : string;
  a_status : string;
  a_created_at : Z;
  a_expires_at : Z;
  attempts : Z;
  a_grant_id : string;
  a_nonce : string;
  a_agent_id : string;
  a_agent_name : string;
  a_agent_public_key : string;
  a_fingerprint : string;
  a_currency : string;
  a_token_address : option string;
  a_total_limit : float;
  a_per_tx_limit : float;
  a_purpose_scope : list string;
  grant_expires_at : option string;
  a_owner_wallet : option string;
  a_owner_identity : option string;
  approved_at : option Z;
  grant_created : bool;
  deny_reason : string
}.

(** The columns that change: status, attempts, deny reason, and those of an approval. *)
Definition update_approval (r : Approval) (st : string) (n : Z) (why : string)
    (w i : option string) (at_ : option Z) (created : bool) : Approval :=
  {| challenge_id := challenge_id r; confirmation_code_sha256 := confirmation_code_sha256 r;
     a_status := st; a_created_at := a_created_at r; a_expires_at := a_expires_at r; attempts := n;
     a_grant_id := a_grant_id r; a_nonce := a_nonce r; a_agent_id := a_agent_id r;
     a_agent_name := a_agent_name r; a_agent_public_key := a_agent_public_key r;
     a_fingerprint := a_fingerprint r; a_currency := a_currency r;
     a_token_address := a_token_address r; a_total_limit := a_total_limit r;
     a_per_tx_limit := a_per_tx_limit r; a_purpose_scope := a_purpose_scope r;
     grant_expires_at := grant_expires_at r; a_owner_wallet := w; a_owner_identity := i;
     approved_at := at_; grant_created := created; deny_reason := why |}.

Definition set_astatus (st : string) (r : Approval) : Approval :=
  update_approval r st (attempts r) (deny_reason r) (a_owner_wallet r) (a_owner_identity r)
    (approved_at r) (grant_created r).

(** [_record_failed_attempt_unlocked]. *)
Definition record_failed_attempt (r : Approval) : Approval :=
  let n := attempts r + 1 in
  if MAX_ATTEMPTS <=? n
  then update_approval r "expired" n "too many failed attempts" (a_owner_wallet r)
         (a_owner_identity r) (approved_at r) (grant_created r)
  else update_approval r (a_status r) n (deny_reason r) (a_owner_wallet r) (a_owner_identity r)
         (approved_at r) (grant_created r).

Definition set_approved (now : Z) (wallet identity : string) (r : Approval) : Approval :=
  update_approval r "approved" (attempts r) (deny_reason r) (Some wallet) (Some identity)
    (Some (iso now)) true.

Abbreviation Records := (list (string * Approval)).

Record AWorld := {
  records : Records;
  file : Records;
  loaded : bool;
  grants : DbSession GrantTables
}.
Abbreviation AM := (M AWorld Exc).

Definition with_records (d : Records) (w : AWorld) : AWorld :=
  {| records := d; file := file w; loaded := loaded w; grants := grants w |}.
Definition on_grants {A} (c : GM A) : AM A :=
  zoom grants (fun s w => {| records := records w; file := file w; loaded := loaded w; grants := s |}) c.

(** Entries of the file override or follow those in memory. *)
Definition ensure_loaded : AM unit :=
  m_put (fun w => if loaded w then w
                  else {| records := foldl (fun d kv => dict_set kv.1 kv.2 d) (records w) (file w);
                          file := file w; loaded := true; grants := grants w |}).
Definition persist : AM unit :=
  m_put (fun w => {| records := records w; file := records w; loaded := loaded w; grants := grants w |}).
(** A new process: the memory is gone, the file stays. *)
Definition restart (w : AWorld) : AWorld :=
  {| records := []; file := file w; loaded := false; grants := grants w |}.
Definition reset_grant_approvals : AM unit :=
  m_put (fun w => {| records := []; file := []; loaded := true; grants := grants w |}).

(** Newest first, in insertion order among equals: [sorted(..., reverse=True)]. *)
Fixpoint insert_newest (r : Approval) (l : list Approval) : list Approval :=
  match l with
  | [] => [r]
  | r' :: l' => if a_created_at r' <=? a_created_at r then r :: l else r' :: insert_newest r l'
  end.
Definition newest (l : list Approval) : list Approval := foldr insert_newest [] l.

Definition expire_due (now : Z) (r : Approval) : Approval :=
  if bool_decide (a_status r = "pending"%string) && (a_expires_at r <=? now)
  then set_astatus "expired" r else r.

Definition purged (now : Z) (d : Records) : Records :=
  let d := prod_map id (expire_due now) <$> d in
  if (MAX_RECORDS <? length d)%nat then
    let keep := challenge_id <$> take MAX_RECORDS (newest (dict_values d)) in
    filter (fun kv => kv.1 ∈ keep) d
  else d.
Definition purge_expired (now : Z) : AM unit := m_put (fun w => with_records (purged now (records w)) w).

Definition find_by_challenge_id (cid : string) : AM (option Approval) :=
  m_get (fun w => dict_get (py_strip cid) (records w)).
(** Mutate the record object, if it is still in the dictionary. *)
Definition update_record (f : Approval -> Approval) (r : Approval) : AM unit :=
  m_put (fun w => match dict_get (challenge_id r) (records w) with
                  | Some r' => with_records (dict_set (challenge_id r) (f r') (records w)) w
                  | None => w
                  end).

Definition require_pending (now : Z) (r : Approval) : AM unit :=
  if a_expires_at r <=? now then
    seq! update_record (set_astatus "expired") r in
    seq! persist in
    m_raise (HTTPException 410 "approval request has expired")
  else if negb (bool_decide (a_status r = "pending"%string))
  then m_raise (HTTPException 409 ("approval request is already " +:+ a_status r))
  else m_ret tt.

Definition grant_terms (r : Approval) (wallet : string) : GrantTerms :=
  {| t_grant_id := a_grant_id r; t_wallet_address := wallet; t_agent_id := a_agent_id r;
     t_agent_public_key := opt_nonempty (a_agent_public_key r);
     t_currency := or_str (a_currency r) "USDC"; t_token_address := a_token_address r;
     t_total_limit := or_zero (Some (a_total_limit r)); t_per_tx_limit := or_zero (Some (a_per_tx_limit r));
     t_purpose_scope := a_purpose_scope r; t_expires_at := grant_expires_at r; t_nonce := a_nonce r |}%string.

(** ** Wallet look-ups *)

(** Identity profiles in order of creation: id and bound wallet; agents: id and owner. *)
Record Directory := {
  profiles : list (string * option string);
  agents : gmap string (option string)
}.

Definition norm_wallet (w : string) : string := py_lower (py_strip w).

Definition get_bound_wallet (dir : Directory) (identity : string) : option string :=
  match dict_get identity (profiles dir) with
  | Some w => str_or w None
  | None => None
  end.

Definition resolve_identity_ids_by_wallet (dir : Directory) (wallet : string) : list string :=
  let wallet := norm_wallet wallet in
  if negb (starts_with "0x" wallet) || negb (String.length wallet =? 42)%nat then []
  else
    py_strip <$> filter (fun i => i <> ""%string)
      ((filter (fun p => py_lower <$> p.2 = Some wallet) (profiles dir)).*1).

Definition resolve_owner_identity (dir : Directory) (agent wallet : string) : result Exc string :=
  let wallet := norm_wallet wallet in
  match (if decide (agent = "")%string then None else str_or (default None (agents dir !! agent)) None) with
  | Some owner =>
      let owner_id := py_strip owner in
      if decide (py_lower <$> get_bound_wallet dir owner_id = Some wallet) then Ok owner_id
      else Err (HTTPException 403 "signing wallet does not match the agent's owner identity")
  | None =>
      match resolve_identity_ids_by_wallet dir wallet with
      | [i] => Ok i
      | [] => Err (HTTPException 403 "wallet is not bound to a Karma identity")
      | _ => Err (HTTPException 403 "wallet is bound to multiple identities")
      end
  end.

(** ** The handshake *)

Section Handshake.
Context (sha256_hex : string -> string)
        (fingerprint_of : string -> option string)
        (recover : string -> string -> option string)
        (fromisoformat : string -> option Z)
        (float_str : float -> string).

(** The first of the drawn codes whose key differs from every record's
    [confirmation_code] field; the records have no such field, so [get] answers "". *)
Fixpoint new_confirmation_code (draws : list string) (d : Records) : option string :=
  match draws with
  | [] => None
  | body :: draws' =>
      let code := code_of_body body in
      if existsb (fun kv : string * Approval => bool_decide (confirmation_key "" = confirmation_key code)) d
      then new_confirmation_code draws' d
      else Some code
  end.

Record Issued := {
  i_challenge_id : string;
  i_confirmation_code : string;
  i_expires_at : Z
}.

Definition NOT_FOUND : Exc := HTTPException 404 "approval request not found".

Definition issue_grant_approval (now : Z) (draws : list string) (cid gid nonce : string)
    (agent name : string) (key : option string) (currency : string) (token : option string)
    (total per_tx : float) (purposes : list string) (expires : option string) : AM Issued :=
  let name := py_strip name in
  if decide (name = "")%string then m_raise (HTTPException 400 "agent_name is required")
  else
    seq! lift (check_limits total per_tx) in
    let fp := match str_or key None with
              | Some k => default "" (fingerprint_of k)
              | None => ""
              end in
    do! code := m_get (fun w => new_confirmation_code draws (records w)) in
    match code with
    | None => m_raise (ValueError "no more draws")
    | Some code =>
        seq! ensure_loaded in
        seq! purge_expired now in
        let expires_at := iso (now + DEFAULT_TTL_SECONDS * SECOND) in
        let r := {| challenge_id := cid; confirmation_code_sha256 := sha256_hex (confirmation_key code);
                    a_status := "pending"; a_created_at := iso now; a_expires_at := expires_at;
                    attempts := 0; a_grant_id := gid; a_nonce := nonce; a_agent_id := py_strip agent;
                    a_agent_name := name; a_agent_public_key := py_strip (default "" key);
                    a_fingerprint := fp; a_currency := or_str (py_strip (or_str currency "USDC")) "USDC";
                    a_token_address := opt_nonempty (py_strip (default "" token));
                    a_total_limit := total; a_per_tx_limit := per_tx;
                    a_purpose_scope := filter (fun p => p <> ""%string) (py_strip <$> purposes);
                    grant_expires_at := opt_nonempty (py_strip (default "" expires));
                    a_owner_wallet := None; a_owner_identity := None; approved_at := None;
                    grant_created := false; deny_reason := "" |} in
        seq! m_put (fun w => with_records (dict_set cid r (records w)) w) in
        seq! persist in
        m_ret {| i_challenge_id := cid; i_confirmation_code := code; i_expires_at := expires_at |}
    end%string.

Record PublicView := {
  v_status : string;
  v_expires_in_seconds : Z;
  v_attempts_left : Z
}.
(** [int(x)] truncates; the difference is in microseconds. *)
Definition view_of (now : Z) (r : Approval) : PublicView :=
  {| v_status := a_status r;
     v_expires_in_seconds := Z.max 0 (Z.quot (a_expires_at r - now) SECOND);
     v_attempts_left := Z.max 0 (MAX_ATTEMPTS - attempts r) |}.

(** Load, purge, find. *)
Definition find_live (now : Z) (cid : string) : AM Approval :=
  seq! ensure_loaded in
  seq! purge_expired now in
  do! row := find_by_challenge_id cid in
  match row with
  | None => m_raise NOT_FOUND
  | Some r => m_ret r
  end.

Definition public_view (now : Z) (cid : string) : AM PublicView :=
  do! r := find_live now cid in m_ret (view_of now r).

Definition sign_message_for (now : Z) (cid wallet : string) : AM string :=
  do! r := find_live now cid in
  seq! require_pending now r in
  m_ret (build_grant_message float_str (grant_terms r wallet)).

Definition WRONG_CODE : Exc :=
  HTTPException 403 "confirmation code does not match the one shown by the agent".

(** Everything under the first lock: the record, or the burnt attempt. *)
Definition check_approval (now : Z) (cid code wallet sig : string) : AM Approval :=
  do! r := find_live now cid in
  seq! require_pending now r in
  let given := confirmation_key code in
  if bool_decide (given = "")%string || negb (bool_decide (sha256_hex given = confirmation_code_sha256 r)) then
    seq! update_record record_failed_attempt r in
    seq! persist in
    m_raise WRONG_CODE
  else
    match verify_personal_message recover (build_grant_message float_str (grant_terms r wallet)) wallet sig with
    | Err e =>
        seq! update_record record_failed_attempt r in
        seq! persist in
        m_raise e
    | Ok _ => m_ret r
    end.

Definition finish_approval (now : Z) (wallet identity : string) (r : Approval) : AM unit :=
  seq! update_record (set_approved now (norm_wallet wallet) identity) r in
  persist.

Definition approve_grant_approval (now : Z) (dir : Directory) (cid code wallet sig : string) : AM GrantRow :=
  do! r := check_approval now cid code wallet sig in
  do! identity := lift (resolve_owner_identity dir (a_agent_id r) wallet) in
  do! g := on_grants (create_grant recover fromisoformat float_str now identity sig
                        (opt_nonempty (py_strip (a_agent_name r))) (grant_terms r wallet)) in
  seq! finish_approval now wallet identity r in
  m_ret g.
End Handshake.

(** ** Codes *)

Lemma alphabet_facts c : in_alphabet c = true ->
  is_alnum c = true /\ py_upper_ascii c = c /\ c <> Ascii.ascii_of_nat 45.
Proof.
  unfold in_alphabet, has_char. rewrite bool_decide_eq_true. intros Hc.
  cut ((fun c => is_alnum c && bool_decide (py_upper_ascii c = c) && negb (bool_decide (c = Ascii.ascii_of_nat 45))) c = true).
  { cbn beta. rewrite !andb_true_iff, negb_true_iff, bool_decide_eq_true, bool_decide_eq_false. naive_solver. }
  revert c Hc. apply Forall_forall, Forall_forall. intros x Hx.
  assert (H : forallb (fun c => is_alnum c && bool_decide (py_upper_ascii c = c) &&
    negb (bool_decide (c = Ascii.ascii_of_nat 45))) (String.list_ascii_of_string CODE_ALPHABET) = true)
    by (vm_compute; reflexivity).
  rewrite forallb_forall in H. by apply H, list_elem_of_In.
Qed.

Lemma code_chars_good raw : forallb in_alphabet raw = true ->
  filter (fun c => is_alnum c = true) (py_upper_ascii <$> raw) = raw /\
  filter (fun c => c <> Ascii.ascii_of_nat 45) raw = raw.
Proof.
  induction raw as [|c raw IH]; [done|]. cbn [forallb]. rewrite andb_true_iff. intros [Hc Hr].
  destruct (alphabet_facts c Hc) as (H1 & H2 & H3), (IH Hr) as [I1 I2].
  rewrite fmap_cons, H2, !filter_cons_True by done. by rewrite I1, I2.
Qed.

Lemma list_of_app (a b : string) :
  String.list_ascii_of_string (a +:+ b) = String.list_ascii_of_string a ++ String.list_ascii_of_string b.
Proof. induction a as [|c a IH]; simpl; [done|]. by rewrite IH. Qed.

Definition dashed (raw : list Ascii.ascii) : string :=
  String.string_of_list_ascii (take 4 raw) +:+ "-" +:+ String.string_of_list_ascii (drop 4 raw).

Lemma dashed_list raw : String.list_ascii_of_string (dashed raw) =
  take 4 raw ++ Ascii.ascii_of_nat 45 :: drop 4 raw.
Proof.
  unfold dashed. rewrite !list_of_app, !String.list_ascii_of_string_of_list_ascii. done.
Qed.

(** Reading a shown code gives its characters back. *)
Lemma code_chars_dashed raw : good_code raw = true ->
  code_chars (dashed raw) = raw /\ drop_dashes (dashed raw) = String.string_of_list_ascii raw.
Proof.
  unfold good_code. rewrite andb_true_iff. intros [_ Hg]. unfold code_chars, drop_dashes.
  rewrite dashed_list. rewrite <- (take_drop 4 raw) in Hg. rewrite forallb_app, andb_true_iff in Hg.
  destruct Hg as [[T1 T2]%code_chars_good [D1 D2]%code_chars_good].
  split; [|f_equal].
  - rewrite fmap_app, filter_app, T1, fmap_cons, filter_cons_False, D1; [apply take_drop|].
    vm_compute. discriminate.
  - rewrite filter_app, T2, filter_cons_False, D2; [apply take_drop|]. naive_solver.
Qed.

(** Codes are read up to case, spaces and punctuation: normalising any text gives
    either nothing or eight characters of the alphabet shown as two groups of four,
    normalising again changes nothing, and the compared key is those eight characters. *)
Theorem confirmation_code_canonical value :
  let code := normalize_confirmation_code value in
  normalize_confirmation_code code = code /\
  (code = ""%string /\ confirmation_key value = ""%string /\ good_code (code_chars value) = false \/
   good_code (code_chars value) = true /\ code = dashed (code_chars value) /\
   confirmation_key value = String.string_of_list_ascii (code_chars value)).
Proof.
  intros code. subst code. unfold confirmation_key.
  assert (Hd : normalize_confirmation_code value =
    if good_code (code_chars value) then dashed (code_chars value) else ""%string) by done.
  destruct (good_code (code_chars value)) eqn:Hg; rewrite Hd.
  - destruct (code_chars_dashed _ Hg) as [H1 H2]. split; [|by right].
    unfold normalize_confirmation_code. rewrite H1, Hg. done.
  - split; [done|by left].
Qed.

(** [new_confirmation_code] is a loop that draws until the code is new.  It always ends
    with its first draw: the records keep only the digest of their code, so the field it
    compares with is empty and no code is ever found taken. *)
Theorem new_code_takes_first_draw body draws d :
  good_code (String.list_ascii_of_string body) = true ->
  new_confirmation_code (body :: draws) d = Some (code_of_body body).
Proof.
  intros Hg. cbn [new_confirmation_code].
  assert (Hb : code_of_body body = dashed (String.list_ascii_of_string body)).
  { unfold good_code in Hg. rewrite andb_true_iff, Nat.eqb_eq in Hg. destruct Hg as [Hl _].
    do 8 (destruct body as [|? body]; [done|]). by destruct body. }
  assert (Hk : confirmation_key (code_of_body body) = body).
  { unfold confirmation_key, normalize_confirmation_code. rewrite Hb.
    destruct (code_chars_dashed _ Hg) as [-> H2]. rewrite Hg. fold (dashed (String.list_ascii_of_string body)).
    rewrite H2. apply String.string_of_list_ascii_of_string. }
  assert (existsb (fun _ : string * Approval => bool_decide (confirmation_key "" = confirmation_key (code_of_body body))) d = false) as ->; [|done].
  induction d as [|kv d IH]; [done|]. cbn [existsb]. rewrite IH, orb_false_r, Hk.
  apply bool_decide_eq_false. intros Hn. change (confirmation_key "") with ""%string in Hn. by rewrite <- Hn in Hg.
Qed.

Lemma new_code_takes_first_draw_witness :
  good_code (String.list_ascii_of_string "K4QP3M2X") = true /\
  new_confirmation_code ["K4QP3M2X"]%string [] = Some "K4QP-3M2X"%string.
Proof.
  split; [vm_compute; reflexivity|].
  apply (new_code_takes_first_draw "K4QP3M2X" [] []). vm_compute. reflexivity.
Defined.

(** ** The store *)

Definition rec_ok (k : string) (r : Approval) : Prop :=
  challenge_id r = k /\ 0 <= attempts r <= MAX_ATTEMPTS /\
  (attempts r = MAX_ATTEMPTS -> a_status r <> "pending"%string).

Record store_ok (d : Records) : Prop := {
  keys_distinct : NoDup (dict_keys d);
  recs_ok : forall k r, dict_get k d = Some r -> rec_ok k r;
  store_small : (length d <= S MAX_RECORDS)%nat
}.

Lemma dict_get_fmap (f : Approval -> Approval) k (d : Records) :
  dict_get k (prod_map id f <$> d) = f <$> dict_get k d.
Proof. induction d as [|[k' v] d IH]; simpl; [done|]. by case_decide. Qed.
Lemma dict_keys_fmap (f : Approval -> Approval) (d : Records) :
  dict_keys (prod_map id f <$> d) = dict_keys d.
Proof. unfold dict_keys. rewrite <- list_fmap_compose. by apply list_fmap_ext. Qed.

Lemma dict_get_filter_sub P `{forall x, Decision (P x)} k v (d : Records) :
  NoDup (dict_keys d) -> dict_get k (filter P d) = Some v -> dict_get k d = Some v.
Proof.
  induction d as [|[k' v'] d IH]; intros Hnd; simpl in *; [done|]. apply NoDup_cons in Hnd as [Hni Hnd].
  destruct (decide (P (k', v'))) as [Hp|Hp].
  - rewrite filter_cons_True by done. simpl. case_decide; auto.
  - rewrite filter_cons_False by done. intros Hg. rewrite decide_False; [auto|]. intros ->.
    apply Hni. apply list_elem_of_fmap. exists (k', v). split; [done|].
    apply dict_get_In. by apply IH.
Qed.

Lemma filter_keys_NoDup P `{forall x, Decision (P x)} (d : Records) :
  NoDup (dict_keys d) -> NoDup (dict_keys (filter P d)).
Proof.
  intros Hnd. eapply sublist_NoDup; [exact Hnd|]. apply fmap_sublist, sublist_filter.
Qed.

Lemma expire_due_ok now k r : rec_ok k r -> rec_ok k (expire_due now r).
Proof. unfold expire_due. intros (Hk & Ha & Hs). by destruct (_ && _). Qed.
Lemma expire_due_attempts now r : attempts (expire_due now r) = attempts r.
Proof. unfold expire_due. by destruct (_ && _). Qed.

(** A dictionary restricted to a list of keys is no longer than the list. *)
Lemma filter_keys_length (keep : list string) (d : Records) : NoDup (dict_keys d) ->
  (length (filter (fun kv => kv.1 ∈ keep) d) <= length keep)%nat.
Proof.
  intros Hnd. rewrite <- (length_fmap fst). apply submseteq_length, NoDup_submseteq.
  - by apply filter_keys_NoDup.
  - intros k Hk. apply list_elem_of_fmap in Hk as (kv & -> & Hkv). by apply list_elem_of_filter in Hkv as [? _].
Qed.

(** What one purge does to a record: it expires it, or drops it. *)
Lemma purged_get now k r d : NoDup (dict_keys d) ->
  dict_get k (purged now d) = Some r -> exists r0, dict_get k d = Some r0 /\ r = expire_due now r0.
Proof.
  intros Hnd Hg. assert (Hm : dict_get k (prod_map id (expire_due now) <$> d) = Some r).
  { unfold purged in Hg. case_match; [|done]. eapply dict_get_filter_sub; [|exact Hg]. by rewrite dict_keys_fmap. }
  rewrite dict_get_fmap in Hm. apply fmap_Some in Hm as (r0 & ? & ->). eauto.
Qed.

Lemma purged_ok now d : store_ok d -> store_ok (purged now d) /\ (length (purged now d) <= MAX_RECORDS)%nat.
Proof.
  intros [Hnd Hr Hl]. assert (Hlen : (length (purged now d) <= MAX_RECORDS)%nat).
  { unfold purged. case_match eqn:Hc; [|by apply Nat.ltb_ge].
    etrans; [apply filter_keys_length; by rewrite dict_keys_fmap|].
    rewrite length_fmap, length_take. lia. }
  split; [|done]. split.
  - unfold purged. case_match; [apply filter_keys_NoDup|]; by rewrite dict_keys_fmap.
  - intros k r (r0 & Hg & ->)%purged_get; [|done]. by apply expire_due_ok, Hr.
  - lia.
Qed.

Lemma dict_set_length (k : string) (v : Approval) d : (length (dict_set k v d) <= S (length d))%nat.
Proof. induction d as [|[k' v'] d IH]; simpl; [done|]. case_decide; simpl; lia. Qed.
Lemma dict_set_length_old (k : string) (v v' : Approval) d : dict_get k d = Some v' -> length (dict_set k v d) = length d.
Proof. induction d as [|[k' w] d IH]; simpl; [done|]. case_decide; simpl; [done|]. intros Hg. by rewrite IH. Qed.

Lemma dict_get_set (k k' : string) (v : Approval) d :
  dict_get k' (dict_set k v d) = if decide (k = k') then Some v else dict_get k' d.
Proof. case_decide as H; [subst; apply dict_get_set_eq|by apply dict_get_set_ne]. Qed.

Lemma store_ok_set k r d : rec_ok k r -> store_ok d ->
  (length d <= MAX_RECORDS)%nat \/ is_Some (dict_get k d) -> store_ok (dict_set k r d).
Proof.
  intros Hk [Hnd Hr Hl] Hsmall. split.
  - by apply dict_set_NoDup.
  - intros k' r'. rewrite dict_get_set. case_decide as He; [intros [= <-]; by subst|apply Hr].
  - destruct Hsmall as [Hs|[v Hv]]; [pose proof (dict_set_length k r d); lia|].
    by rewrite (dict_set_length_old _ _ v).
Qed.

Lemma reload_file (d acc : Records) : NoDup (dict_keys acc ++ dict_keys d) ->
  foldl (fun d kv => dict_set kv.1 kv.2 d) acc d = acc ++ d.
Proof.
  revert acc. induction d as [|[k v] d IH]; intros acc Hnd; simpl; [by rewrite app_nil_r|].
  assert (dict_get k acc = None) as Hn.
  { apply dict_get_None. intros Hin. simpl in Hnd. apply NoDup_app in Hnd as (_ & Hd & _).
    apply (Hd k Hin). by left. }
  rewrite dict_set_new, IH by (done || (unfold dict_keys in *; rewrite fmap_app, <- app_assoc; exact Hnd)).
  by rewrite <- app_assoc.
Qed.

(** ** Guesses

    [burnt cid n w]: the store is well-formed, and challenge [cid], where it is still
    known (in memory or in the file), has used [n] attempts. *)
Record burnt (cid : string) (n : Z) (w : AWorld) : Prop := {
  mem_ok : store_ok (records w);
  file_ok : store_ok (file w);
  unloaded_empty : loaded w = false -> records w = [];
  used_in_mem : forall r, dict_get cid (records w) = Some r -> attempts r = n;
  used_in_file : forall r, dict_get cid (file w) = Some r -> attempts r = n
}.

Definition stable {A} (c : AM A) : Prop := forall cid n w, burnt cid n w -> burnt cid n (exec c w).

Lemma stable_bind {A B} (c : AM A) (k : A -> AM B) : stable c -> (forall a, stable (k a)) -> stable (m_bind c k).
Proof.
  intros Hc Hk cid n w Hw. specialize (Hc cid n w Hw). unfold exec, m_bind in *.
  destruct (c w) as [[a|e] w1]; [by apply Hk|done].
Qed.
Lemma stable_ret {A} (a : A) : stable (m_ret a).
Proof. by intros cid n w Hw. Qed.
Lemma stable_raise {A} e : stable (m_raise e : AM A).
Proof. by intros cid n w Hw. Qed.
Lemma stable_get {A} (f : AWorld -> A) : stable (m_get f).
Proof. by intros cid n w Hw. Qed.
Lemma stable_lift {A} (r : result Exc A) : stable (lift r).
Proof. by intros cid n w Hw. Qed.
Lemma stable_on_grants {A} (c : GM A) : stable (on_grants c).
Proof.
  intros cid n w [M F U Hm Hf]. unfold exec, on_grants, zoom.
  destruct (c (grants w)) as [r s]. by split.
Qed.
Lemma stable_persist : stable persist.
Proof. intros cid n w [M F U Hm Hf]. by split. Qed.
Lemma stable_load : stable ensure_loaded.
Proof.
  intros cid n w [M F U Hm Hf]. unfold exec, ensure_loaded, m_put. cbn.
  destruct (loaded w) eqn:Hl; [split; auto; congruence|].
  rewrite (U eq_refl), reload_file by apply F. by split.
Qed.
Lemma stable_purge now : stable (purge_expired now).
Proof.
  intros cid n w [M F U Hm Hf]. split; cbn.
  - by apply purged_ok.
  - done.
  - intros Hl. by rewrite (U Hl).
  - intros r (r0 & Hg & ->)%purged_get; [|apply M]. rewrite expire_due_attempts. auto.
  - done.
Qed.
#[export] Hint Resolve stable_ret stable_raise stable_get stable_lift stable_on_grants stable_persist
  stable_load stable_purge : karma.

(** A change of a record that keeps it well-formed and keeps its attempts. *)
Lemma stable_update f r :
  (forall k r, rec_ok k r -> rec_ok k (f r)) -> (forall r, attempts (f r) = attempts r) ->
  stable (update_record f r).
Proof.
  intros Hok Hat cid n w [M F U Hm Hf]. unfold exec, update_record, m_put. cbn.
  destruct (dict_get (challenge_id r) (records w)) as [r'|] eqn:Hg; [|by split].
  split; cbn; try done.
  - apply store_ok_set; [by apply Hok, M|done|right; eauto].
  - intros Hl. rewrite (U Hl) in Hg. done.
  - intros r2. rewrite dict_get_set. case_decide as He; [|apply Hm].
    intros [= <-]. rewrite Hat. apply Hm. congruence.
Qed.
Lemma stable_expire r : stable (update_record (set_astatus "expired") r).
Proof. apply stable_update; [|done]. intros k r0 (Hk & Ha & Hs). unfold rec_ok. by split_and!; try apply Ha. Qed.
Lemma stable_approved now w i r : stable (update_record (set_approved now w i) r).
Proof. apply stable_update; [|done]. intros k r0 (Hk & Ha & Hs). unfold rec_ok. by split_and!; try apply Ha. Qed.
#[export] Hint Resolve stable_expire stable_approved : karma.

Ltac stab := repeat (first [solve [auto with karma]|apply stable_bind; [|intros ?]|case_match]).

Lemma stable_pending now r : stable (require_pending now r).
Proof. unfold require_pending. stab. Qed.
Lemma stable_find now cid : stable (find_live now cid).
Proof. unfold find_live, find_by_challenge_id. stab. Qed.
Lemma stable_finish now wallet i r : stable (finish_approval now wallet i r).
Proof. unfold finish_approval. stab. Qed.
#[export] Hint Resolve stable_pending stable_find stable_finish : karma.

(** What [find_live] returns is in memory under its own id. *)
Lemma find_live_run now cid w : exists w', exec (find_live now cid) w = w' /\
  forall r, outcome (find_live now cid) w = Ok r -> dict_get (py_strip cid) (records w') = Some r.
Proof.
  eexists. split; [done|]. intros r. unfold find_live, outcome, exec, m_bind, ensure_loaded, purge_expired,
    find_by_challenge_id, m_put, m_get, m_ret, m_raise.
  destruct (dict_get _ _) as [r0|] eqn:Hg; cbn; [|done]. intros [= <-]. exact Hg.
Qed.

Lemma find_live_err now cid w e : outcome (find_live now cid) w = Err e -> e = NOT_FOUND.
Proof.
  unfold find_live, outcome, m_bind, ensure_loaded, purge_expired, find_by_challenge_id, m_put, m_get,
    m_ret, m_raise.
  destruct (dict_get _ _); cbn; [done|]. by intros [= <-].
Qed.

(** A wrong code or signature burns exactly one attempt of its own record. *)
Lemma burn_attempt cid n w r : burnt cid n w -> dict_get (challenge_id r) (records w) = Some r ->
  a_status r = "pending"%string ->
  burnt cid (if decide (challenge_id r = cid) then n + 1 else n)
    (exec (seq! update_record record_failed_attempt r in persist) w).
Proof.
  intros [M F U Hm Hf] Hg Hst. unfold exec, m_bind, update_record, persist, m_put. rewrite Hg. cbn.
  assert (Hok : rec_ok (challenge_id r) (record_failed_attempt r)).
  { destruct (recs_ok _ M _ _ Hg) as (_ & Ha & Hs). unfold rec_ok, record_failed_attempt, MAX_ATTEMPTS in *.
    assert (attempts r <> 5) by (intros E; by apply Hs). destruct (Z.leb_spec 5 (attempts r + 1)); cbn.
    - split_and!; [done|lia|lia|done].
    - split_and!; [done|lia|lia|lia]. }
  assert (Hm' : store_ok (dict_set (challenge_id r) (record_failed_attempt r) (records w)))
    by (apply store_ok_set; eauto).
  assert (Hat : forall r2, dict_get cid (dict_set (challenge_id r) (record_failed_attempt r) (records w)) = Some r2 ->
    attempts r2 = if decide (challenge_id r = cid) then n + 1 else n).
  { intros r2. rewrite dict_get_set. case_decide as He; [|apply Hm]. intros [= <-].
    assert (attempts (record_failed_attempt r) = attempts r + 1) as ->
      by (unfold record_failed_attempt; by case_match). rewrite Hm; [done|]. congruence. }
  split; cbn; try done. intros Hl. by rewrite (U Hl) in Hg.
Qed.

Section Guesses.
Context (sha256_hex : string -> string) (fingerprint_of : string -> option string)
        (recover : string -> string -> option string) (float_str : float -> string).

(** The answers that burn an attempt: a wrong code, or a signature that does not verify. *)
Definition burning (e : Exc) : bool :=
  match e with HTTPException c _ => (c =? 400) || (c =? 403) | _ => false end.

Lemma verify_burning m wallet sig e : verify_personal_message recover m wallet sig = Err e -> burning e = true.
Proof. unfold verify_personal_message. intros Hv. repeat case_match; inversion Hv; reflexivity. Qed.

(** One approval attempt: it passes without a change of attempts, or is refused without
    burning one, or burns exactly one of its own challenge, which had one left. *)
Lemma check_approval_burnt now c code wallet sig cid n w :
  burnt cid n w ->
  let '(out, w') := check_approval sha256_hex recover float_str now c code wallet sig w in
  match out with
  | Ok r => burnt cid n w' /\ dict_get (py_strip c) (records w') = Some r
  | Err e => if burning e && bool_decide (py_strip c = cid) then n < MAX_ATTEMPTS /\ burnt cid (n + 1) w'
             else burnt cid n w'
  end.
Proof.
  intros Hw. unfold check_approval. unfold m_bind at 1.
  pose proof (stable_find now c cid n w Hw) as H1. pose proof (find_live_run now c w) as (w1 & E1 & Hfind).
  pose proof (find_live_err now c w) as Herr.
  unfold outcome, exec in *. destruct (find_live now c w) as [[r|e] w2]; cbn in *; subst w2.
  2: { by rewrite (Herr e eq_refl). }
  specialize (Hfind r eq_refl). pose proof (stable_pending now r cid n w1 H1) as H2.
  assert (Hkey : challenge_id r = py_strip c) by (by apply (recs_ok _ (mem_ok _ _ _ H1)) in Hfind as [? _]).
  assert (Hburn : a_status r = "pending"%string ->
    let w' := exec (seq! update_record record_failed_attempt r in persist) w1 in
    if bool_decide (py_strip c = cid) then n < MAX_ATTEMPTS /\ burnt cid (n + 1) w' else burnt cid n w').
  { intros Hst w'. pose proof (burn_attempt cid n w1 r H1) as Hb. rewrite Hkey in Hb. specialize (Hb Hfind Hst).
    case_bool_decide as Hc; rewrite ?decide_True, ?decide_False in Hb by done; [|exact Hb]. split; [|exact Hb].
    pose proof (used_in_mem _ _ _ H1 r) as Hn. rewrite <- Hc in Hn. rewrite <- (Hn Hfind).
    destruct (recs_ok _ (mem_ok _ _ _ H1) _ _ Hfind) as (_ & Ha & Hs).
    destruct (decide (attempts r = MAX_ATTEMPTS)) as [E|]; [by destruct (Hs E)|lia]. }
  unfold require_pending, exec in *. unfold m_bind at 1.
  destruct (a_expires_at r <=? now); [exact H2|].
  destruct (negb (bool_decide (a_status r = "pending"%string))) eqn:Hst; [exact H2|].
  apply negb_false_iff, bool_decide_eq_true in Hst. specialize (Hburn Hst). cbn in H2 |- *.
  destruct (_ || _); [exact Hburn|].
  destruct (verify_personal_message _ _ _ _) as [[]|e] eqn:Hv; [by split|].
  pose proof (verify_burning _ _ _ _ Hv) as Hbe.
  assert (Hgoal : let w' := exec (seq! update_record record_failed_attempt r in persist) w1 in
    if burning e && bool_decide (py_strip c = cid) then n < MAX_ATTEMPTS /\ burnt cid (n + 1) w'
    else burnt cid n w') by (rewrite Hbe; exact Hburn).
  exact Hgoal.
Qed.

Inductive ApprovalOp :=
| OIssue (now : Z) (draws : list string) (cid gid nonce agent name : string) (key : option string)
    (currency : string) (token : option string) (total per_tx : float) (purposes : list string)
    (expires : option string)
| OView (now : Z) (cid : string)
| OSign (now : Z) (cid wallet : string)
| OCheck (now : Z) (cid code wallet sig : string)
| OFinish (now : Z) (wallet identity : string) (r : Approval)
| ORestart.

Definition as_unit {A} (c : AM A) : AM unit := seq! c in m_ret tt.

Definition run_op (o : ApprovalOp) : AM unit :=
  match o with
  | OIssue now draws cid gid nonce agent name key currency token total per_tx purposes expires =>
      as_unit (issue_grant_approval sha256_hex fingerprint_of now draws cid gid nonce agent name key
                 currency token total per_tx purposes expires)
  | OView now cid => as_unit (public_view now cid)
  | OSign now cid wallet => as_unit (sign_message_for float_str now cid wallet)
  | OCheck now cid code wallet sig => as_unit (check_approval sha256_hex recover float_str now cid code wallet sig)
  | OFinish now wallet identity r => finish_approval now wallet identity r
  | ORestart => m_put restart
  end.

(** Whether a call is a failed guess at [cid]. *)
Definition failed_guess (cid : string) (o : ApprovalOp) (w : AWorld) : bool :=
  match o, outcome (run_op o) w with
  | OCheck _ c _ _ _, Err e => burning e && bool_decide (py_strip c = cid)
  | _, _ => false
  end.
Fixpoint failed_guesses (cid : string) (ops : list ApprovalOp) (w : AWorld) : Z :=
  match ops with
  | [] => 0
  | o :: ops => (if failed_guess cid o w then 1 else 0) + failed_guesses cid ops (exec (run_op o) w)
  end.
Definition reissues (cid : string) (o : ApprovalOp) : bool :=
  match o with OIssue _ _ c _ _ _ _ _ _ _ _ _ _ _ => bool_decide (c = cid) | _ => false end.

Lemma issue_burnt now draws c gid nonce agent name key currency token total per_tx purposes expires cid n w :
  c <> cid -> burnt cid n w ->
  burnt cid n (exec (issue_grant_approval sha256_hex fingerprint_of now draws c gid nonce agent name key
                 currency token total per_tx purposes expires) w).
Proof.
  intros Hne Hw. unfold issue_grant_approval. case_decide; [done|].
  unfold exec, m_bind at 1, lift. destruct (check_limits total per_tx) as [[]|]; [|done].
  unfold m_bind at 1, m_get. destruct (new_confirmation_code draws (records w)) as [code|]; [|done].
  pose proof (stable_load cid n w Hw) as H1. unfold m_bind at 1. unfold exec in H1.
  destruct (ensure_loaded w) as [[[]|e] w1] eqn:E1; [|by inversion E1].
  pose proof (stable_purge now cid n w1 H1) as H2. unfold exec, purge_expired, m_put in H2. cbn in H2.
  cbn. destruct H2 as [M F U Hm Hf]. cbn in *.
  match goal with |- burnt _ _ {| records := dict_set _ ?x _ |} => set (r := x) end.
  assert (Hs : store_ok (dict_set c r (purged now (records w1)))).
  { apply store_ok_set; [split_and!; done|done|left]. apply purged_ok, (mem_ok _ _ _ H1). }
  split; cbn; try done.
  - intros Hl. exfalso. unfold ensure_loaded, m_put in E1. destruct (loaded w) eqn:E; simplify_eq; cbn in *; congruence.
  - intros r2. rewrite dict_get_set, decide_False by done. apply Hm.
  - intros r2. rewrite dict_get_set, decide_False by done. apply Hm.
Qed.

Lemma run_op_burnt cid n o w : reissues cid o = false -> burnt cid n w ->
  burnt cid (if failed_guess cid o w then n + 1 else n) (exec (run_op o) w) /\
  (failed_guess cid o w = true -> n < MAX_ATTEMPTS).
Proof.
  intros Hr Hw. destruct o as [| | |now c code wallet sig| |]; cbn [failed_guess reissues] in *.
  - split; [|done]. apply bool_decide_eq_false in Hr. cbn [run_op]. unfold as_unit, exec, m_bind.
    pose proof (issue_burnt now draws cid0 gid nonce agent name key currency token total per_tx purposes expires cid n w Hr Hw) as Hi.
    unfold exec in Hi. by destruct (issue_grant_approval _ _ _ _ _ _ _ _ _ _ _ _ _ _ _ _ w) as [[]].
  - split; [|done]. revert cid n w Hw Hr. cut (stable (run_op (OView now cid0))); [intros H cid n w ? ?; by apply H|].
    cbn [run_op]. unfold as_unit, public_view. stab.
  - split; [|done]. revert cid n w Hw Hr. cut (stable (run_op (OSign now cid0 wallet))); [intros H cid n w ? ?; by apply H|].
    cbn [run_op]. unfold as_unit, sign_message_for. stab.
  - pose proof (check_approval_burnt now c code wallet sig cid n w Hw) as H. cbn [run_op].
    unfold outcome, exec, as_unit, m_bind, m_ret.
    destruct (check_approval _ _ _ _ _ _ _ _ w) as [[r|e] w']; cbn in *; [split; [apply H|done]|].
    destruct (burning e && _); [|split; [exact H|done]]. split; [apply H|intros _; apply H].
  - split; [|done]. by apply stable_finish.
  - split; [|done]. destruct Hw as [M F U Hm Hf]. split; cbn; try done. split; cbn; [constructor|done|lia].
Qed.

(** C28. A challenge withstands at most [MAX_ATTEMPTS] wrong guesses: in any sequence of
    calls in which its id is not issued again (requests for other challenges, reads,
    expiry, dropped records, restarts of the process included), at most five approval
    attempts on it are answered with a wrong code or signature; after that the challenge
    is dead. *)
Theorem guesses_bounded cid ops w :
  burnt cid 0 w -> forallb (fun o => negb (reissues cid o)) ops = true ->
  failed_guesses cid ops w <= MAX_ATTEMPTS.
Proof.
  intros Hw Hops.
  enough (forall n w, 0 <= n <= MAX_ATTEMPTS -> burnt cid n w -> n + failed_guesses cid ops w <= MAX_ATTEMPTS) as H.
  { specialize (H 0 w ltac:(unfold MAX_ATTEMPTS; lia) Hw). lia. }
  clear w Hw. induction ops as [|o ops IH]; intros n w Hn Hw; cbn [failed_guesses]; [lia|].
  cbn [forallb] in Hops. rewrite andb_true_iff, negb_true_iff in Hops. destruct Hops as [Ho Hops].
  destruct (run_op_burnt cid n o w Ho Hw) as [Hb Hlt].
  destruct (failed_guess cid o w).
  - specialize (IH Hops (n + 1) _ ltac:(specialize (Hlt eq_refl); lia) Hb). lia.
  - specialize (IH Hops n _ Hn Hb). lia.
Qed.
End Guesses.

(** ** What an approval proves *)

Section Approve.
Context (sha256_hex : string -> string) (recover : string -> string -> option string)
        (fromisoformat : string -> option Z) (float_str : float -> string).

(** The checks under the lock, as one condition on the record found. *)
Definition approvable (now : Z) (code wallet sig : string) (r : Approval) : Prop :=
  a_status r = "pending"%string /\ now < a_expires_at r /\
  confirmation_key code <> ""%string /\ sha256_hex (confirmation_key code) = confirmation_code_sha256 r /\
  verify_personal_message recover (build_grant_message float_str (grant_terms r wallet)) wallet sig = Ok tt.

Lemma check_approval_ok now cid code wallet sig w r w' :
  check_approval sha256_hex recover float_str now cid code wallet sig w = (Ok r, w') ->
  find_live now cid w = (Ok r, w') /\ approvable now code wallet sig r.
Proof.
  unfold check_approval. rewrite m_bind_ok. intros (r0 & w1 & Hf & Hrest).
  unfold require_pending in Hrest. rewrite m_bind_ok in Hrest. destruct Hrest as ([] & w2 & Hp & Hrest).
  destruct (Z.leb_spec (a_expires_at r0) now); [by inversion Hp|].
  destruct (negb _) eqn:Hst in Hp; [by inversion Hp|]. apply negb_false_iff, bool_decide_eq_true in Hst.
  inversion Hp; subst w2; clear Hp.
  destruct (_ || _) eqn:Hc; [by inversion Hrest|]. apply orb_false_iff in Hc as [Hk Hd].
  apply bool_decide_eq_false in Hk. apply negb_false_iff, bool_decide_eq_true in Hd.
  destruct (verify_personal_message _ _ _ _) as [[]|] eqn:Hv; [|by inversion Hrest].
  inversion Hrest; subst. split; [done|]. by split_and!.
Qed.

Lemma create_grant_ok now owner sig name t s g s' :
  create_grant recover fromisoformat float_str now owner sig name t s = (Ok g, s') ->
  exists expires, parse_expiry fromisoformat now (t_expires_at t) = Ok expires /\
    check_limits (t_total_limit t) (t_per_tx_limit t) = Ok tt /\
    verify_personal_message recover (build_grant_message float_str t) (t_wallet_address t) sig = Ok tt /\
    g_rows (db_working s) !! t_grant_id t = None /\
    g = new_grant float_str now owner sig name t expires /\
    g_rows (db_working s') = <[t_grant_id t := g]> (g_rows (db_working s)) /\
    db_committed s' = db_committed s.
Proof.
  unfold create_grant, m_bind, lift. destruct (check_limits _ _) as [[]|]; [|done].
  destruct (verify_personal_message _ _ _ _) as [[]|]; [|done]. unfold the_row, m_get.
  destruct (g_rows (db_working s) !! t_grant_id t) eqn:Hn; [done|].
  destruct (parse_expiry _ _ _) as [ex|]; [|done]. intros [= <- <-]. exists ex. by split_and!.
Qed.

(** Nothing alone is enough: when an approval creates a grant, the challenge was
    pending and not expired, the code typed by the owner has the digest of the one the
    agent was given, the wallet's signature covers exactly the terms of the record, the
    wallet belongs to the resolved identity, and the new grant, under an id not used
    before, carries exactly those terms with nothing spent. *)
Theorem approval_is_sound now dir cid code wallet sig w g w' :
  approve_grant_approval sha256_hex recover fromisoformat float_str now dir cid code wallet sig w = (Ok g, w') ->
  exists r identity expires,
    outcome (find_live now cid) w = Ok r /\ approvable now code wallet sig r /\
    resolve_owner_identity dir (a_agent_id r) wallet = Ok identity /\
    parse_expiry fromisoformat now (grant_expires_at r) = Ok expires /\
    check_limits (total_limit g) (per_tx_limit g) = Ok tt /\
    g = new_grant float_str now identity sig (opt_nonempty (py_strip (a_agent_name r))) (grant_terms r wallet) expires /\
    g_rows (db_working (grants w)) !! grant_id g = None /\
    g_rows (db_working (grants w')) = <[grant_id g := g]> (g_rows (db_working (grants w))) /\
    (forall r', dict_get (challenge_id r) (records w') = Some r' -> a_status r' = "approved"%string).
Proof.
  unfold approve_grant_approval. rewrite m_bind_ok. intros (r & w1 & Hc & Hrest).
  apply check_approval_ok in Hc as [Hf Ha]. rewrite m_bind_ok in Hrest. destruct Hrest as (i & w2 & Hi & Hrest).
  unfold lift in Hi. injection Hi as Hi ->. rewrite m_bind_ok in Hrest. destruct Hrest as (g0 & w3 & Hg & Hrest).
  assert (Hgr : grants w2 = grants w).
  { revert Hf. unfold find_live, m_bind, ensure_loaded, purge_expired, find_by_challenge_id, m_put, m_get, m_ret, m_raise.
    destruct (dict_get _ _); [|done]. intros [= _ <-]. cbn. by destruct (loaded w). }
  unfold on_grants, zoom in Hg. destruct (create_grant _ _ _ _ _ _ _ _ _) as [out s1] eqn:Hcr.
  injection Hg as -> <-. rewrite Hgr in Hcr.
  apply create_grant_ok in Hcr as (ex & Hex & Hlim & _ & Hnew & -> & Hrows & _).
  unfold finish_approval, m_bind, update_record, persist, m_put, m_ret in Hrest. cbn in Hrest.
  injection Hrest as <- <-. exists r, i, ex. split_and!; try done.
  - unfold outcome. by rewrite Hf.
  - cbn. by destruct (dict_get (challenge_id r) (records w2)).
  - intros r'. cbn. destruct (dict_get (challenge_id r) (records w2)) eqn:Hd; cbn; [|congruence].
    rewrite dict_get_set_eq. by intros [= <-].
Qed.
End Approve.

(** *** A challenge, its guesses and its approval *)

Definition demo_sha (s : string) : string := "h" +:+ s.
Definition demo_key : string -> option string := fun _ => None.
Definition empty_world : AWorld :=
  {| records := []; file := []; loaded := true;
     grants := {| db_committed := {| g_rows := ∅; g_events := []; g_reservations := ∅ |};
                  db_working := {| g_rows := ∅; g_events := []; g_reservations := ∅ |} |} |}.
Definition issue_demo : ApprovalOp :=
  OIssue 0 ["K4QP3M2X"] "c1" "g1" "nonce" "agent" "Bot" None "USDC" None f10 f10 [] None.
Definition issued_world : AWorld := exec (run_op demo_sha demo_key demo_recover demo_str issue_demo) empty_world.
Definition wrong_guess : ApprovalOp := OCheck SECOND "c1" "AAAA-AAAA" demo_wallet demo_sig.

Lemma store_ok_singleton k r : rec_ok k r -> store_ok [(k, r)].
Proof.
  intros Hr. split; [apply NoDup_singleton| |cbn; lia]. intros k' r'. cbn. case_decide; [|done].
  intros [= <-]. by subst.
Qed.

Lemma issued_burnt : burnt "c1" 0 issued_world.
Proof.
  assert (exists r, records issued_world = [("c1"%string, r)] /\ file issued_world = [("c1"%string, r)] /\
    rec_ok "c1" r /\ attempts r = 0 /\ loaded issued_world = true) as (r & Hm & Hf & Hr & Ha & Hl).
  { eexists. split; [reflexivity|]. split; [reflexivity|]. unfold rec_ok. split_and!; done. }
  split; rewrite ?Hm, ?Hf, ?Hl; try (by apply store_ok_singleton); try done.
  all: intros r' [= <-]; done.
Qed.

Lemma guesses_bounded_witness :
  failed_guesses demo_sha demo_key demo_recover demo_str "c1" (replicate 7 wrong_guess) issued_world = 5 /\
  failed_guesses demo_sha demo_key demo_recover demo_str "c1" (replicate 7 wrong_guess) issued_world <= MAX_ATTEMPTS.
Proof.
  split; [vm_compute; reflexivity|].
  apply (guesses_bounded demo_sha demo_key demo_recover demo_str "c1" (replicate 7 wrong_guess) issued_world).
  - exact issued_burnt.
  - reflexivity.
Defined.

Definition demo_directory : Directory :=
  {| profiles := [("owner"%string, Some demo_wallet)]; agents := ∅ |}.

Lemma approval_is_sound_witness :
  exists g w', approve_grant_approval demo_sha demo_recover (fun _ => None) demo_str SECOND demo_directory
      "c1" "k4qp 3m2x" demo_wallet demo_sig issued_world = (Ok g, w') /\
    g_rows (db_working (grants issued_world)) !! grant_id g = None /\ owner_identity_id g = "owner"%string.
Proof.
  destruct (approve_grant_approval demo_sha demo_recover (fun _ => None) demo_str SECOND demo_directory
      "c1" "k4qp 3m2x" demo_wallet demo_sig issued_world) as [[g|e] w'] eqn:E; [|vm_compute in E; discriminate].
  exists g, w'. split; [reflexivity|]. split.
  - destruct (approval_is_sound demo_sha demo_recover (fun _ => None) demo_str SECOND demo_directory
      "c1" "k4qp 3m2x" demo_wallet demo_sig issued_world g w' E) as (r & i & ex & _ & _ & _ & _ & _ & _ & Hn & _).
    exact Hn.
  - vm_compute in E. by injection E as <- _.
Defined.

(** The store of challenges stays small: from any well-formed store, whatever is called,
    it holds at most one record more than [MAX_RECORDS]. *)
Lemma store_stays_small sha fp recover fs cid n o w : reissues cid o = false -> burnt cid n w ->
  (length (records (exec (run_op sha fp recover fs o) w)) <= S MAX_RECORDS)%nat.
Proof.
  intros Ho Hw. destruct (run_op_burnt sha fp recover fs cid n o w Ho Hw) as [Hb _].
  apply (store_small _ (mem_ok _ _ _ Hb)).
Qed.
