(* ===== verification/NonceLog.v ===== *)
(** * The nonce ledger: replay protection and idempotent replay

    [services/runtime_nonce_log.py] and its use in [api/routes/runtime_gateway.py].  The
    table maps (key, endpoint, nonce), which is unique, to the columns the code uses.  A
    claim is several statements, each its own transaction step; [step_claim] is one
    statement of one claim (the insert with the purge and the commit that follow it count as
    one), so that interleavings of concurrent claims are sequences of
    steps, and [claim] is a claim that runs alone.  Times are microseconds; a failure of
    the purge is the flag [purge_ok].  [loads] is [json.loads] and [sha] the digest. *)
From S2P Require Import Prelude PyFloat PyJson.
Open Scope Z_scope.

Definition US : Z := 1000000.
Definition STALE_IN_FLIGHT : Z := 120 * US.
Definition PURGE_AFTER : Z := 7 * 24 * 3600 * US.
Definition MAX_PAYLOAD_CHARS : Z := 200000.

Record NonceRow := {
  request_hash : string;
  n_state : string;
  http_status : option Z;
  payload : option string;
  n_created_at : Z
}.

Abbreviation NonceKey := (string * string * string)%type.
Abbreviation NonceTable := (gmap NonceKey NonceRow).

Inductive Verdict :=
| VNew (took_over : bool)
| VReplay (status_code : Z) (body : list (string * json))
| VBusy
| VConflict.

Definition in_flight (hash : string) (now : Z) : NonceRow :=
  {| request_hash := hash; n_state := "in_flight"; http_status := None; payload := None;
     n_created_at := now |}.

(** The arguments as [claim], [complete] and [forget] normalise them. *)
Definition nonce_key (key_id endpoint nonce : string) : NonceKey :=
  (py_strip key_id, take_chars 64 (py_strip endpoint), py_strip nonce).

(** [_purge]. *)
Definition purge (now : Z) (t : NonceTable) : NonceTable :=
  filter (fun kr => now - PURGE_AFTER <= n_created_at kr.2) t.

(** [_insert]: false when the unique key is taken. *)
Definition insert_row (purge_ok : bool) (k : NonceKey) (hash : string) (now : Z) (t : NonceTable)
    : bool * NonceTable :=
  match t !! k with
  | Some _ => (false, t)
  | None => let t' := <[k := in_flight hash now]> t in
            (true, if purge_ok then purge now t' else t')
  end.

Section Claims.
Context (loads : string -> option json).

(** The stored response, as the code decodes it. *)
Definition stored_body (r : NonceRow) : list (string * json) :=
  match loads (or_str (default "" (payload r)) "{}") with
  | None => []
  | Some (JObj d) => d
  | Some j => [("result", j)]
  end%string.

(** [_verdict] on a row read before: the answer, and the row it writes when it takes
    the nonce over. *)
Definition verdict (r : NonceRow) (hash : string) (now : Z) : Verdict * option NonceRow :=
  if negb (bool_decide (request_hash r = "")%string) && negb (bool_decide (hash = "")%string) &&
     negb (bool_decide (request_hash r = hash)) then (VConflict, None)
  else if decide (n_state r = "done"%string)
  then (VReplay (match http_status r with Some c => if c =? 0 then 200 else c | None => 200 end)
          (stored_body r), None)
  else if now - n_created_at r <=? STALE_IN_FLIGHT then (VBusy, None)
  else (VNew true, Some (in_flight (or_str hash (request_hash r)) now)).

Definition NONCE_REQUIRED : Exc := HTTPException 400 "client_nonce is required (max 128 chars)".

(** A claim that runs without interference. *)
Definition claim (now : Z) (purge_ok : bool) (key_id endpoint nonce hash : string)
    : M NonceTable Exc Verdict :=
  let n := py_strip nonce in
  if bool_decide (n = "")%string || (128 <? String.length n)%nat then m_raise NONCE_REQUIRED
  else
    let k := nonce_key key_id endpoint nonce in
    do! row := m_get (fun t : NonceTable => t !! k) in
    do! row := match row with
               | Some r => m_ret (inr r)
               | None =>
                   do! inserted := (fun t => let '(b, t') := insert_row purge_ok k hash now t in (Ok b, t')) in
                   if (inserted : bool) then m_ret (inl (VNew false))
                   else do! row := m_get (fun t : NonceTable => t !! k) in
                        m_ret (match row with Some r => inr r | None => inl VBusy end)
               end in
    match row with
    | inl v => m_ret v
    | inr r =>
        let '(v, w) := verdict r hash now in
        seq! match w with
             | Some r' => m_put (fun t : NonceTable => <[k := r']> t)
             | None => m_ret tt
             end in
        m_ret v
    end.

(** [complete]: store the response of the first attempt; [written] is false when the
    write fails, which is only logged. *)
Definition completed (http : Z) (text : string) (r : NonceRow) : NonceRow :=
  {| request_hash := request_hash r; n_state := "done"; http_status := Some http;
     payload := Some (take_chars (Z.to_nat MAX_PAYLOAD_CHARS) text); n_created_at := n_created_at r |}.
Definition complete (written : bool) (key_id endpoint nonce : string) (http : Z) (text : string)
    : M NonceTable Exc unit :=
  if decide (py_strip nonce = "")%string then m_ret tt
  else m_put (fun t : NonceTable =>
         if written then alter (completed http text) (nonce_key key_id endpoint nonce) t else t).

Definition forget (written : bool) (key_id endpoint nonce : string) : M NonceTable Exc unit :=
  if decide (py_strip nonce = "")%string then m_ret tt
  else m_put (fun t : NonceTable => if written then delete (nonce_key key_id endpoint nonce) t else t).

(** [_nonce_claim] of the gateway: run, replay, or refuse. *)
Definition nonce_claim (now : Z) (purge_ok : bool) (key_id endpoint nonce hash : string)
    : M NonceTable Exc (option (Z * list (string * json))) :=
  do! v := claim now purge_ok key_id endpoint nonce hash in
  match v with
  | VNew _ => m_ret None
  | VReplay c body => m_ret (Some (c, dict_set "idempotent_replay"%string (JBool true) body))
  | VConflict => m_raise (HTTPException 409 "duplicate client_nonce with a different request body")
  | VBusy => m_raise (HTTPException 409 "duplicate client_nonce: the first attempt is still in flight")
  end.

(** ** Concurrent claims of one nonce *)

(** Where a claim is: before its first read, before its insert, before its second read,
    holding the row it has read, or finished. *)
Inductive Pc :=
| AtFind
| AtInsert
| AtRefind
| AtVerdict (r : NonceRow)
| Done (v : Verdict).

Record Claim := {
  c_hash : string;
  c_now : Z;
  c_purge_ok : bool;
  c_pc : Pc
}.
Definition at_pc (p : Pc) (c : Claim) : Claim :=
  {| c_hash := c_hash c; c_now := c_now c; c_purge_ok := c_purge_ok c; c_pc := p |}.

Definition step_claim (k : NonceKey) (c : Claim) (t : NonceTable) : Claim * NonceTable :=
  match c_pc c with
  | AtFind => (at_pc (match t !! k with Some r => AtVerdict r | None => AtInsert end) c, t)
  | AtInsert =>
      let '(inserted, t') := insert_row (c_purge_ok c) k (c_hash c) (c_now c) t in
      (at_pc (if inserted then Done (VNew false) else AtRefind) c, t')
  | AtRefind => (at_pc (match t !! k with Some r => AtVerdict r | None => Done VBusy end) c, t)
  | AtVerdict r =>
      let '(v, w) := verdict r (c_hash c) (c_now c) in
      (at_pc (Done v) c, match w with Some r' => <[k := r']> t | None => t end)
  | Done _ => (c, t)
  end.

(** The claims and the table; steps of claims and completions interleave. *)
Inductive nonce_step (k : NonceKey) : list Claim * NonceTable -> list Claim * NonceTable -> Prop :=
| step_of_claim cs t i c c' t' :
    cs !! i = Some c -> step_claim k c t = (c', t') -> nonce_step k (cs, t) (<[i := c']> cs, t')
| step_of_complete cs t http text : nonce_step k (cs, t) (cs, alter (completed http text) k t).

Definition start (hash : string) (now : Z) (purge_ok : bool) : Claim :=
  {| c_hash := hash; c_now := now; c_purge_ok := purge_ok; c_pc := AtFind |}.
Definition is_new (c : Claim) : bool := match c_pc c with Done (VNew _) => true | _ => false end.
Definition new_count (cs : list Claim) : nat := length (filter (fun c => is_new c = true) cs).
End Claims.

(** ** A claim alone *)

Section Facts.
Context (loads : string -> option json).

Fixpoint iterate (n : nat) (k : NonceKey) (c : Claim) (t : NonceTable) : Claim * NonceTable :=
  match n with
  | O => (c, t)
  | S n => let '(c', t') := step_claim loads k c t in iterate n k c' t'
  end.

Definition valid_nonce (nonce : string) : bool :=
  negb (bool_decide (py_strip nonce = "")%string) && negb (128 <? String.length (py_strip nonce))%nat.

(** The statement-by-statement claim, run without interference, is the claim of the
    code: it finishes within four statements with the same answer and the same table. *)
Theorem claim_equiv_steps now purge_ok key_id endpoint nonce hash t :
  valid_nonce nonce = true ->
  let k := nonce_key key_id endpoint nonce in
  let '(c, t') := iterate 4 k (start hash now purge_ok) t in
  exists v, c_pc c = Done v /\ claim loads now purge_ok key_id endpoint nonce hash t = (Ok v, t').
Proof.
  intros Hn. apply andb_true_iff in Hn as [H1%negb_true_iff H2%negb_true_iff]. cbv zeta.
  unfold claim. rewrite H1, H2. cbn [orb].
  set (k := nonce_key key_id endpoint nonce).
  unfold m_bind, m_get, m_ret, m_put, iterate, step_claim, start, at_pc, insert_row.
  cbn [c_pc c_hash c_now c_purge_ok]. destruct (t !! k) as [r|] eqn:Hk; cbn [c_pc c_hash c_now c_purge_ok].
  - destruct (verdict loads r hash now) as [v [r'|]]; cbn; eauto.
  - rewrite Hk. cbn. eauto.
Qed.

(** ** At most one of the concurrent claims runs the request *)

Lemma new_count_step (cs : list Claim) i c c' : cs !! i = Some c -> is_new c = false ->
  new_count (<[i := c']> cs) = (new_count cs + if is_new c' then 1 else 0)%nat.
Proof.
  unfold new_count. revert i. induction cs as [|x cs IH]; intros [|i] Hi Hc; simpl in *; try done.
  - injection Hi as ->. rewrite (filter_cons _ c), decide_False by congruence.
    rewrite filter_cons. destruct (is_new c'); case_decide; simpl; try done; lia.
  - rewrite !filter_cons. case_decide; simpl; rewrite (IH i) by done; lia.
Qed.

(** A young row is never taken over. *)
Lemma verdict_young r hash now : now - n_created_at r <= STALE_IN_FLIGHT ->
  match verdict loads r hash now with (v, w) => w = None /\ forall b, v <> VNew b end.
Proof.
  intros Hy. unfold verdict. rewrite (proj2 (Z.leb_le _ _) Hy).
  destruct (_ && _); [done|]. by case_decide.
Qed.

Lemma purge_keeps k r now t : n_created_at r = now -> purge now (<[k := r]> t) !! k = Some r.
Proof.
  intros Hc. unfold purge. apply map_lookup_filter_Some. split; [apply lookup_insert_eq|].
  cbn. unfold PURGE_AFTER, US. lia.
Qed.

(** The clocks of the claims lie within the stale window of each other. *)
Definition close_clocks (cs : list Claim) : Prop :=
  forall c c', c ∈ cs -> c' ∈ cs -> c_now c - c_now c' <= STALE_IN_FLIGHT.

Definition claimed (k : NonceKey) (st : list Claim * NonceTable) : Prop :=
  let '(cs, t) := st in
  close_clocks cs /\
  (forall c r, c ∈ cs -> c_pc c = AtVerdict r -> c_now c - n_created_at r <= STALE_IN_FLIGHT) /\
  match t !! k with
  | None => new_count cs = 0%nat
  | Some r => (new_count cs <= 1)%nat /\ forall c, c ∈ cs -> c_now c - n_created_at r <= STALE_IN_FLIGHT
  end.

Lemma clocks_insert (cs : list Claim) i c c' : cs !! i = Some c -> c_now c' = c_now c -> close_clocks cs ->
  close_clocks (<[i := c']> cs) /\
  (forall P : Z -> Prop, (forall x, x ∈ cs -> P (c_now x)) -> forall x, x ∈ <[i := c']> cs -> P (c_now x)).
Proof.
  intros Hi Hn Hc.
  assert (Hmem : forall x, x ∈ <[i := c']> cs -> exists y, y ∈ cs /\ c_now x = c_now y).
  { intros x (j & Hj)%list_elem_of_lookup_1. destruct (decide (i = j)) as [<-|Hne].
    - rewrite list_lookup_insert_eq in Hj by (by eapply lookup_lt_Some). simplify_eq.
      exists c. split; [by eapply list_elem_of_lookup_2|done].
    - rewrite list_lookup_insert_ne in Hj by done. exists x. split; [by eapply list_elem_of_lookup_2|done]. }
  split.
  - intros x y (x' & Hx & ->)%Hmem (y' & Hy & ->)%Hmem. by apply Hc.
  - intros P HP x (x' & Hx & ->)%Hmem. by apply HP.
Qed.

Lemma elem_insert (cs : list Claim) i (c c' x : Claim) : cs !! i = Some c -> x ∈ <[i := c']> cs -> x = c' \/ x ∈ cs.
Proof.
  intros Hi (j & Hj)%list_elem_of_lookup_1. destruct (decide (i = j)) as [<-|Hne].
  - rewrite list_lookup_insert_eq in Hj by (by eapply lookup_lt_Some). simplify_eq. by left.
  - rewrite list_lookup_insert_ne in Hj by done. right. by eapply list_elem_of_lookup_2.
Qed.

(** The shape of one step of a claim that is not finished, in the window. *)
Lemma step_claim_cases k c t c' t' :
  step_claim loads k c t = (c', t') -> is_new c = false ->
  (forall r, c_pc c = AtVerdict r -> c_now c - n_created_at r <= STALE_IN_FLIGHT) ->
  c_now c' = c_now c /\
  (t' = t /\ is_new c' = false /\ (forall r, c_pc c' = AtVerdict r -> c_pc c = AtVerdict r \/ t !! k = Some r) \/
   t !! k = None /\ is_new c' = true /\ (forall r, c_pc c' <> AtVerdict r) /\
   exists r, t' !! k = Some r /\ n_created_at r = c_now c).
Proof.
  intros Hs Hn Hy. unfold step_claim in Hs. destruct (c_pc c) as [| | |r|v] eqn:Hp.
  - injection Hs as <- <-. split; [done|left]. destruct (t !! k); split_and!; try done; naive_solver.
  - unfold insert_row in Hs. destruct (t !! k) as [r|] eqn:Hk.
    + injection Hs as <- <-. split; [done|left]. split_and!; done.
    + injection Hs as <- <-. split; [done|right]. split_and!; try done.
      exists (in_flight (c_hash c) (c_now c)). split; [|done].
      destruct (c_purge_ok c); [by apply purge_keeps|apply lookup_insert_eq].
  - injection Hs as <- <-. split; [done|left]. destruct (t !! k); split_and!; try done; naive_solver.
  - pose proof (verdict_young r (c_hash c) (c_now c) (Hy r eq_refl)) as Hv.
    destruct (verdict loads r (c_hash c) (c_now c)) as [v w]. destruct Hv as [-> Hv].
    injection Hs as <- <-. split; [done|left]. split_and!; try done. unfold is_new. cbn. destruct v; naive_solver.
  - injection Hs as <- <-. split; [done|left]. split_and!; try done. congruence.
Qed.

Lemma claimed_step k st st' : claimed k st -> nonce_step loads k st st' -> claimed k st'.
Proof.
  destruct st as [cs t], st' as [cs' t']. intros (Hcl & Hv & Ht) Hs. inversion Hs as [? ? i c c' ? Hi Hst|? ? http text]; subst.
  - destruct (is_new c) eqn:Hn.
    + assert (c' = c /\ t' = t) as [-> ->].
      { unfold is_new, step_claim in *. destruct (c_pc c); naive_solver. }
      rewrite list_insert_id by done. by split_and!.
    + destruct (step_claim_cases k c t c' t' Hst Hn) as [Hnow Hcase].
      { intros r Hp. apply Hv; [by eapply list_elem_of_lookup_2|done]. }
      destruct (clocks_insert cs i c c' Hi Hnow Hcl) as [Hcl' Hall].
      destruct Hcase as [(-> & Hn' & Hr)|(Hk & Hn' & Hr & r & Hr' & Hc)]; split_and!; try done.
      * intros x r Hx Hp. apply (elem_insert cs i c) in Hx as [->|Hx]; [|by eapply Hv|done].
        rewrite Hnow. assert (c ∈ cs) by (by eapply list_elem_of_lookup_2).
        destruct (Hr r Hp) as [Hp'|Hk]; [by eapply Hv|]. rewrite Hk in Ht. by apply Ht.
      * rewrite (new_count_step _ _ _ _ Hi Hn), Hn', Nat.add_0_r.
        destruct (t !! k) as [r|]; [|done]. destruct Ht as [Hle Hyoung]. split; [done|].
        by apply (Hall (fun z => z - n_created_at r <= STALE_IN_FLIGHT)).
      * intros x r2 Hx Hp. apply (elem_insert cs i c) in Hx as [->|Hx]; [by destruct (Hr r2)|by eapply Hv|done].
      * rewrite Hr'. rewrite Hk in Ht. split; [rewrite (new_count_step _ _ _ _ Hi Hn), Ht; destruct (is_new c'); lia|].
        rewrite Hc. apply (Hall (fun z => z - c_now c <= STALE_IN_FLIGHT)). intros x Hx.
        apply Hcl; [done|]. by eapply list_elem_of_lookup_2.
  - split_and!; try done. rewrite lookup_alter_eq. destruct (t !! k) as [r|]; [exact Ht|done].
Qed.

(** C17. A nonce runs once: of any number of claims of an unseen nonce that arrive within the
    stale window of each other, in whatever order their reads, inserts and decisions and
    the completion of the request interleave, at most one is told to run the request. *)
Theorem nonce_claimed_once k cs t st :
  t !! k = None -> Forall (fun c => c_pc c = AtFind) cs -> close_clocks cs ->
  rtc (nonce_step loads k) (cs, t) st -> (new_count st.1 <= 1)%nat.
Proof.
  intros Hk Hcs Hcl Hst. rewrite Forall_forall in Hcs.
  assert (claimed k (cs, t)) as Hc.
  { split_and!; [done|intros c r Hc Hp; by rewrite (Hcs c Hc) in Hp|]. rewrite Hk. unfold new_count.
    rewrite filter_none; [done|]. intros c Hc. unfold is_new. by rewrite (Hcs c Hc). }
  assert (claimed k st) as Hfin.
  { remember (cs, t) as st0. clear -Hc Hst. induction Hst; [done|]. apply IHHst. by eapply claimed_step. }
  destruct st as [cs' t']. destruct Hfin as (_ & _ & Ht). cbn [fst]. destruct (t' !! k); [apply Ht|lia].
Qed.

(** ** Replay *)

(** What was answered is replayed: after a claim has run and its response was stored, a
    retry with the same body, however late, gets exactly that status and that response,
    and a retry with another body is refused; the table does not change. *)
Theorem completed_claim_replays now later ok key_id endpoint nonce hash hash' http text d t t1 :
  valid_nonce nonce = true -> hash <> ""%string -> hash' <> ""%string -> http <> 0 -> text <> ""%string ->
  (String.length text <= Z.to_nat MAX_PAYLOAD_CHARS)%nat -> loads text = Some (JObj d) ->
  claim loads now ok key_id endpoint nonce hash t = (Ok (VNew false), t1) ->
  let t2 := exec (complete true key_id endpoint nonce http text) t1 in
  claim loads later ok key_id endpoint nonce hash' t2 =
    (Ok (if decide (hash' = hash) then VReplay http d else VConflict), t2).
Proof.
  intros Hn Hh Hh' Hhttp Htext Hlen Hload Hclaim t2. set (k := nonce_key key_id endpoint nonce) in *.
  pose proof Hn as Hn'. apply andb_true_iff in Hn' as [N1%negb_true_iff N2%negb_true_iff].
  assert (Hrow : t1 !! k = Some (in_flight hash now)).
  { unfold claim in Hclaim. rewrite N1, N2 in Hclaim. cbn [orb] in Hclaim. fold k in Hclaim.
    unfold m_bind, m_get, m_ret, m_put, insert_row in Hclaim. destruct (t !! k) as [r|] eqn:Hk.
    - unfold verdict in Hclaim. exfalso. repeat case_match; simplify_eq/=; by inversion Hclaim.
    - rewrite Hk in Hclaim. cbn in Hclaim. injection Hclaim as <-. destruct ok; [by apply purge_keeps|apply lookup_insert_eq]. }
  assert (Hsub : take_chars (Z.to_nat MAX_PAYLOAD_CHARS) text = text).
  { clear -Hlen. unfold take_chars. revert Hlen. generalize (Z.to_nat MAX_PAYLOAD_CHARS) as m.
    induction text as [|c text IH]; intros [|m] Hm; simpl in *; try done; [lia|]. f_equal. apply IH. lia. }
  assert (Hrow2 : t2 !! k = Some (completed http text (in_flight hash now))).
  { subst t2. unfold exec, complete. rewrite decide_False by (by apply bool_decide_eq_false in N1).
    cbn. fold k. by rewrite lookup_alter_eq, Hrow. }
  unfold claim. rewrite N1, N2. cbn [orb]. fold k. unfold m_bind, m_get, m_ret. rewrite Hrow2.
  unfold verdict, completed. cbn [request_hash in_flight n_state http_status payload].
  rewrite (bool_decide_eq_false_2 (hash = "")%string Hh), (bool_decide_eq_false_2 (hash' = "")%string Hh').
  cbn [negb andb].
  destruct (decide (hash' = hash)) as [->|Hne].
  - rewrite bool_decide_true by done. cbn [negb]. rewrite (decide_True (P := "done"%string = "done"%string)) by done. rewrite (proj2 (Z.eqb_neq _ _) Hhttp).
    unfold stored_body. cbn [payload default]. rewrite Hsub. unfold or_str. rewrite decide_False by done.
    unfold id. by rewrite Hload.
  - by rewrite bool_decide_eq_false_2 by congruence.
Qed.
End Facts.

(** Let claim [i] of the list take its next step. *)
Ltac claim_step i := eapply rtc_l; [eapply (step_of_claim _ _ _ _ i); reflexivity|].

(** ** Where the ledger gives way *)

(** Two claims that have both read the same abandoned row both take it over: the write
    is not conditional on the row being as it was read. *)
Theorem abandoned_nonce_taken_twice :
  let k := nonce_key "key" "place-order" "n1" in
  let t : NonceTable := {[k := in_flight "h" 0]} in
  let now := STALE_IN_FLIGHT + 1 in
  exists st, rtc (nonce_step (fun _ => None) k) ([start "h" now true; start "h" now true], t) st /\
             new_count st.1 = 2%nat.
Proof.
  cbv zeta. eexists. split.
  - claim_step 0%nat. claim_step 1%nat. claim_step 0%nat. claim_step 1%nat. apply rtc_refl.
  - vm_compute. reflexivity.
Qed.

Lemma claim_equiv_steps_witness :
  valid_nonce "n1" = true /\
  exists v, claim (fun _ => None) 5 true "key" "place-order" "n1" "h" ∅ =
    (Ok v, snd (iterate (fun _ => None) 4 (nonce_key "key" "place-order" "n1") (start "h" 5 true) ∅)).
Proof.
  split; [vm_compute; reflexivity|].
  pose proof (claim_equiv_steps (fun _ => None) 5 true "key" "place-order" "n1" "h" ∅ eq_refl) as H.
  cbv zeta in H. destruct (iterate (fun _ => None) 4 (nonce_key "key" "place-order" "n1") (start "h" 5 true) ∅) as [c t'].
  destruct H as (v & _ & Hc). exists v. exact Hc.
Defined.

Lemma nonce_claimed_once_witness :
  let k := nonce_key "key" "place-order" "n1" in
  exists st, rtc (nonce_step (fun _ => None) k) ([start "h" 5 true; start "h" 7 true], ∅) st /\
             (new_count st.1 <= 1)%nat /\ new_count st.1 = 1%nat.
Proof.
  cbv zeta.
  assert (exists st, rtc (nonce_step (fun _ => None) (nonce_key "key" "place-order" "n1"))
    ([start "h" 5 true; start "h" 7 true], ∅) st /\ new_count st.1 = 1%nat) as (st & Hst & Hc).
  { eexists. split.
    - claim_step 0%nat. claim_step 1%nat. claim_step 0%nat. claim_step 1%nat. apply rtc_refl.
    - vm_compute. reflexivity. }
  exists st. split; [exact Hst|]. split; [|exact Hc].
  apply (nonce_claimed_once (fun _ => None) (nonce_key "key" "place-order" "n1")
    [start "h" 5 true; start "h" 7 true] ∅ st); [reflexivity|repeat constructor| |exact Hst].
  intros c c' Hc1 Hc2. repeat (apply elem_of_cons in Hc1 as [->|Hc1]; [|]);
    repeat (apply elem_of_cons in Hc2 as [->|Hc2]; [|]); try (by apply elem_of_nil in Hc1);
    try (by apply elem_of_nil in Hc2); vm_compute; discriminate.
Defined.

Definition demo_loads (s : string) : option json := Some (JObj [("text"%string, JStr s)]).

Lemma completed_claim_replays_witness :
  exists t1, claim demo_loads 5 true "key" "place-order" "n1" "h" ∅ = (Ok (VNew false), t1) /\
    outcome (claim demo_loads 900 true "key" "place-order" "n1" "h")
      (exec (complete true "key" "place-order" "n1" 201 "body") t1) =
    Ok (VReplay 201 [("text"%string, JStr "body")]).
Proof.
  assert (Hn : outcome (claim demo_loads 5 true "key" "place-order" "n1" "h") ∅ = Ok (VNew false))
    by (vm_compute; reflexivity). unfold outcome in Hn.
  destruct (claim demo_loads 5 true "key" "place-order" "n1" "h" ∅) as [out t1] eqn:E.
  cbn [fst] in Hn. subst out.
  exists t1. split; [reflexivity|].
  assert (Hlen : (String.length "body" <= Z.to_nat MAX_PAYLOAD_CHARS)%nat).
  { apply Nat2Z.inj_le. rewrite Z2Nat.id by (unfold MAX_PAYLOAD_CHARS; lia). unfold MAX_PAYLOAD_CHARS. simpl. lia. }
  pose proof (completed_claim_replays demo_loads 5 900 true "key" "place-order" "n1" "h" "h" 201 "body"
    [("text"%string, JStr "body")] ∅ t1 eq_refl ltac:(done) ltac:(done) ltac:(done) ltac:(done) Hlen eq_refl E) as H.
  cbv zeta in H. unfold outcome. rewrite H. reflexivity.
Defined.
