(* ===== verification/DailySpend.v ===== *)
(** * Daily limits of runtime keys

    [services/runtime_daily_spend.py] and the limit functions of
    [services/runtime_key_service.py].  The table holds one total per key and day; every
    process also keeps totals in memory, which no transaction covers.  Between two
    statements of a call other transactions may commit: [env] says what they do to the
    rows the call sees. *)
From S2P Require Import Prelude PyFloat FloatFacts.
Open Scope Z_scope.

Definition EPS : float := f1em9.

Abbreviation DayKey := (string * string)%type.
Abbreviation DayRows := (gmap DayKey float).

Record DailyWorld := {
  d_db : DbSession DayRows;
  d_mem : DayRows
}.
Abbreviation DM := (M DailyWorld Exc).

Definition rows (w : DailyWorld) : DayRows := db_working (d_db w).
Definition put_rows (f : DayRows -> DayRows) : DM unit :=
  m_put (fun w => {| d_db := {| db_committed := db_committed (d_db w); db_working := f (rows w) |};
                     d_mem := d_mem w |}).

(** ** [services/runtime_key_service.py] *)

Definition get_daily_used (today key_id : string) (w : DailyWorld) : float :=
  default fzero (d_mem w !! (key_id, today)).

Definition record_daily_spend (today key_id : string) (amount : float) : DM unit :=
  m_put (fun w => {| d_db := d_db w;
                     d_mem := <[(key_id, today) := (get_daily_used today key_id w + amount)%float]> (d_mem w) |}).

Definition check_single_and_daily_limits (today key_id : string) (amount single_limit daily_limit : float)
    (daily_used : option float) (w : DailyWorld) : result Exc unit :=
  if (amount <=? fzero)%float then Err (HTTPException 400 "amount must be positive")
  else if (amount >? single_limit + EPS)%float
  then Err (HTTPException 403 "amount exceeds runtime key single_limit")
  else
    let used := match daily_used with Some u => u | None => get_daily_used today key_id w end in
    if (used + amount >? daily_limit + EPS)%float
    then Err (HTTPException 403 "amount exceeds runtime key daily_limit")
    else Ok tt.

(** ** [services/runtime_daily_spend.py] *)

Section Operations.
Context (persist : bool) (today : string).

Definition get_daily_used_async (key_id : string) (w : DailyWorld) : float :=
  if negb persist then get_daily_used today key_id w
  else match rows w !! (key_id, today) with
       | Some x => x
       | None => get_daily_used today key_id w
       end.

(** The guarded UPDATE of a reservation, and the INSERT of a first row. *)
Definition fits (limit amt : float) (used : float) : bool := (used + amt <=? limit + EPS)%float.
Definition reserve_stmt (k : DayKey) (amt limit : float) (r : DayRows) : bool * DayRows :=
  match r !! k with
  | Some used => if fits limit amt used then (true, <[k := (used + amt)%float]> r) else (false, r)
  | None => (false, r)
  end.
Definition insert_stmt (k : DayKey) (amt : float) (r : DayRows) : bool * DayRows :=
  match r !! k with
  | Some _ => (false, r)
  | None => (true, <[k := amt]> r)
  end.
Definition add_stmt (k : DayKey) (amt : float) (r : DayRows) : bool * DayRows :=
  match r !! k with
  | Some used => (true, <[k := (used + amt)%float]> r)
  | None => (false, r)
  end.
Definition release_stmt (k : DayKey) (amt : float) (r : DayRows) : DayRows :=
  alter (fun used => if (used >=? amt - EPS)%float then (used - amt)%float else used) k r.

(** A statement on the rows as other transactions have left them. *)
Definition statement {A : Type} (env : DayRows -> DayRows) (f : DayRows -> (A * DayRows)%type) : DM A :=
  fun w => let '(a, r) := f (env (rows w)) in
           (Ok a, {| d_db := {| db_committed := db_committed (d_db w); db_working := r |}; d_mem := d_mem w |}).

(** One round of [try_reserve_daily_spend]; [None] is [continue]. *)
Definition reserve_round (env1 env2 env3 : DayRows -> DayRows) (key_id : string) (amt limit : float)
    : DM (option bool) :=
  let k := (key_id, today) in
  do! updated := statement env1 (reserve_stmt k amt limit) in
  if (updated : bool) then seq! record_daily_spend today key_id amt in m_ret (Some true)
  else
    do! present := statement env2 (fun r => (bool_decide (is_Some (r !! k)), r)) in
    if (present : bool) then m_ret (Some false)
    else if (amt >? limit + EPS)%float then m_ret (Some false)
    else
      do! inserted := statement env3 (insert_stmt k amt) in
      if (inserted : bool) then seq! record_daily_spend today key_id amt in m_ret (Some true)
      else m_ret None.

Definition Env : Type := (DayRows -> DayRows) * (DayRows -> DayRows) * (DayRows -> DayRows).
Definition round_in (e : Env) (key_id : string) (amt limit : float) : DM (option bool) :=
  let '(e1, e2, e3) := e in reserve_round e1 e2 e3 key_id amt limit.

Definition try_reserve_daily_spend (e e' : Env) (key_id : string) (amt limit : float) : DM bool :=
  if negb persist then
    do! used := m_get (get_daily_used today key_id) in
    if (used + amt >? limit + EPS)%float then m_ret false
    else seq! record_daily_spend today key_id amt in m_ret true
  else
    do! r := round_in e key_id amt limit in
    match r with
    | Some b => m_ret b
    | None => do! r := round_in e' key_id amt limit in m_ret (default false r)
    end.

(** [_add_amount]: update, or insert, or once more. *)
Definition add_round (env1 env2 : DayRows -> DayRows) (key_id : string) (amt : float) : DM bool :=
  let k := (key_id, today) in
  do! updated := statement env1 (add_stmt k amt) in
  if (updated : bool) then m_ret true else statement env2 (insert_stmt k amt).
Definition add_amount (e1 e2 e3 e4 : DayRows -> DayRows) (key_id : string) (amt : float) : DM unit :=
  do! d := add_round e1 e2 key_id amt in
  if (d : bool) then m_ret tt else seq! add_round e3 e4 key_id amt in m_ret tt.

Definition record_daily_spend_async (e1 e2 e3 e4 : DayRows -> DayRows) (key_id : string) (amt : float) : DM unit :=
  seq! record_daily_spend today key_id amt in
  if negb persist then m_ret tt else add_amount e1 e2 e3 e4 key_id amt.

Definition release_daily_spend (env : DayRows -> DayRows) (key_id : string) (amt : float) : DM unit :=
  if (amt <=? fzero)%float then m_ret tt
  else if negb persist then record_daily_spend today key_id (fopp amt)
  else
    seq! statement env (fun r => (tt, release_stmt (key_id, today) amt r)) in
    record_daily_spend today key_id (fopp amt).
End Operations.

(** ** The limit under interference *)

Definition amount_ok (a : float) : Prop := is_finite a = true /\ valid a = true /\ fltb fzero a = true.
Definition limit_ok (l : float) : Prop := is_finite l = true /\ valid l = true.

(** The row of [k] is within the limit. *)
Definition within (k : DayKey) (limit : float) (r : DayRows) : Prop :=
  forall used, r !! k = Some used -> number used = true /\ fleb used (limit + EPS)%float = true.
Definition keeps_within (k : DayKey) (limit : float) (env : DayRows -> DayRows) : Prop :=
  forall r, within k limit r -> within k limit (env r).

Lemma EPS_facts : is_finite EPS = true /\ valid EPS = true.
Proof. by split. Qed.

Lemma not_over_limit amt limit : amount_ok amt -> limit_ok limit ->
  fltb (limit + EPS)%float amt = false -> number amt = true /\ fleb amt (limit + EPS)%float = true.
Proof.
  intros (Fa & Va & _) [Fl Vl] Hn. destruct EPS_facts as [Fe Ve].
  assert (Na : number amt = true) by (by apply number_finite).
  assert (Nl : number (limit + EPS)%float = true) by (by apply fadd_xval).
  split; [done|]. rewrite fleb_xval by done. rewrite fltb_xval in Hn by done. lia.
Qed.

Lemma reserve_stmt_within k amt limit r : amount_ok amt -> within k limit r ->
  within k limit (snd (reserve_stmt k amt limit r)).
Proof.
  intros (Fa & Va & _) Hw. unfold reserve_stmt. destruct (r !! k) as [u|] eqn:Hk; [|done].
  destruct (fits limit amt u) eqn:Hf; [|done]. intros used. cbn. rewrite lookup_insert_eq. intros [= <-].
  split; [|exact Hf]. apply number_add; [by apply (Hw u)|done..].
Qed.

Lemma insert_stmt_within k amt limit r : number amt = true -> fleb amt (limit + EPS)%float = true ->
  within k limit r -> within k limit (snd (insert_stmt k amt r)).
Proof.
  intros Na Hl Hw. unfold insert_stmt. destruct (r !! k) eqn:Hk; [done|]. intros used. cbn.
  rewrite lookup_insert_eq. by intros [= <-].
Qed.

Lemma release_stmt_within k amt limit r : amount_ok amt -> limit_ok limit -> within k limit r ->
  within k limit (release_stmt k amt r).
Proof.
  intros (Fa & Va & Pa) [Fl Vl] Hw used. unfold release_stmt. rewrite lookup_alter_eq.
  intros (u & Hu & ->)%fmap_Some. destruct (Hw u Hu) as [Nu Hle].
  destruct (fleb (amt - EPS)%float u); [|done].
  destruct (number_sub_le u amt Nu Fa Va Pa) as [Nn Hn].
  split; [done|]. destruct EPS_facts as [Fe Ve].
  eapply fleb_trans_num; [| | |exact Hn|exact Hle]; try done. by apply fadd_xval.
Qed.
#[export] Hint Resolve reserve_stmt_within insert_stmt_within release_stmt_within : karma.

(** A call keeps the row within the limit at every statement. *)
Definition call_within {A} (k : DayKey) (limit : float) (c : DM A) : Prop :=
  forall w, within k limit (rows w) -> within k limit (rows (exec c w)).

Lemma call_bind {A B : Type} (k : DayKey) (l : float) (c : DM A) (f : A -> DM B) :
  call_within k l c -> (forall a, call_within k l (f a)) -> call_within k l (m_bind c f).
Proof.
  intros Hc Hf w Hw. specialize (Hc w Hw). unfold exec, m_bind in *.
  destruct (c w) as [[a|e] w1]; [by apply Hf|done].
Qed.
Lemma call_ret {A : Type} (k : DayKey) (l : float) (a : A) : call_within k l (m_ret a).
Proof. by intros w Hw. Qed.
Lemma call_mem (k : DayKey) (l : float) today key amt : call_within k l (record_daily_spend today key amt).
Proof. by intros w Hw. Qed.
Lemma call_statement {A : Type} (k : DayKey) (l : float) (env : DayRows -> DayRows) (f : DayRows -> (A * DayRows)%type) : keeps_within k l env ->
  (forall r, within k l r -> within k l (snd (f r))) -> call_within k l (statement env f).
Proof.
  intros He Hf w Hw. unfold exec, statement. specialize (Hf _ (He _ Hw)).
  by destruct (f (env (rows w))).
Qed.
#[export] Hint Resolve call_ret call_mem : karma.

Lemma call_round today key e amt limit : amount_ok amt -> limit_ok limit ->
  keeps_within (key, today) limit e.1.1 -> keeps_within (key, today) limit e.1.2 ->
  keeps_within (key, today) limit e.2 ->
  call_within (key, today) limit (round_in today e key amt limit).
Proof.
  intros Ha Hl. destruct e as [[e1 e2] e3]. cbn [fst snd]. intros H1 H2 H3. unfold round_in, reserve_round.
  apply call_bind; [apply call_statement; auto with karma|]. intros [].
  { apply call_bind; auto with karma. }
  apply call_bind; [apply call_statement; auto with karma|]. intros []; [auto with karma|].
  destruct (fltb (limit + EPS)%float amt) eqn:Hlim; [auto with karma|].
  destruct (not_over_limit amt limit Ha Hl Hlim) as [Na Hle].
  apply call_bind; [apply call_statement; auto with karma|].
  intros []; [apply call_bind; auto with karma|auto with karma].
Qed.

Definition env_within (k : DayKey) (l : float) (e : Env) : Prop :=
  keeps_within k l e.1.1 /\ keeps_within k l e.1.2 /\ keeps_within k l e.2.

(** The daily limit holds under any interleaving: if what other transactions do between
    the statements of a reservation keeps the day's total within the limit (as their own
    reservations and releases do), the total is within the limit after the call too,
    whether the amount was granted or refused, in either round. *)
Theorem daily_limit_kept persist today key e e' amt limit w :
  amount_ok amt -> limit_ok limit ->
  env_within (key, today) limit e -> env_within (key, today) limit e' ->
  within (key, today) limit (rows w) ->
  within (key, today) limit (rows (exec (try_reserve_daily_spend persist today e e' key amt limit) w)).
Proof.
  intros Ha Hl (H1 & H2 & H3) (H1' & H2' & H3') Hw. revert w Hw.
  change (call_within (key, today) limit (try_reserve_daily_spend persist today e e' key amt limit)).
  unfold try_reserve_daily_spend. destruct persist; cbn [negb].
  - apply call_bind; [by apply call_round|]. intros [b|]; [auto with karma|].
    apply call_bind; [by apply call_round|auto with karma].
  - apply call_bind; [by intros w Hw|]. intros used. destruct (fltb _ _); [auto with karma|].
    apply call_bind; auto with karma.
Qed.

(** What other callers do keeps the limit. *)
Lemma others_reserve k limit amt : amount_ok amt -> keeps_within k limit (fun r => snd (reserve_stmt k amt limit r)).
Proof. intros Ha r Hr. auto with karma. Qed.
Lemma others_release k limit amt : amount_ok amt -> limit_ok limit -> keeps_within k limit (release_stmt k amt).
Proof. intros Ha Hl r Hr. auto with karma. Qed.

Definition quiet : Env := (fun r => r, fun r => r, fun r => r).

(** Without interference a reservation is granted exactly when the day's total with the
    amount stays within the limit (or, on the first spend of the day, when the amount
    does); a grant adds the amount to the day's row and to the memory of the process, a
    refusal changes nothing. *)
Theorem try_reserve_spec today key amt limit w :
  let k := (key, today) in
  let granted := match rows w !! k with
                 | Some used => fits limit amt used
                 | None => negb (fltb (limit + EPS)%float amt)
                 end in
  try_reserve_daily_spend true today quiet quiet key amt limit w =
    (Ok granted,
     if granted
     then {| d_db := {| db_committed := db_committed (d_db w);
                        db_working := <[k := match rows w !! k with
                                             | Some used => (used + amt)%float
                                             | None => amt
                                             end]> (rows w) |};
             d_mem := <[k := (get_daily_used today key w + amt)%float]> (d_mem w) |}
     else w).
Proof.
  intros k granted. subst granted. unfold try_reserve_daily_spend. cbn [negb].
  unfold round_in, quiet, reserve_round, statement, reserve_stmt, insert_stmt. fold k.
  unfold m_bind, record_daily_spend, m_put, m_ret.
  destruct w as [[dc dw] mem]. unfold rows. cbn [d_db db_working db_committed d_mem].
  destruct (dw !! k) as [used|] eqn:Hk.
  - destruct (fits limit amt used); cbn; [done|]. rewrite Hk. done.
  - cbn. rewrite Hk. cbn. destruct (fltb (limit + EPS)%float amt); cbn; [done|]. rewrite Hk. done.
Qed.

(** ** Where the totals go wrong *)

Definition day1 : string := "2026-01-01".
Definition day2 : string := "2026-01-02".
Definition f5 : float := float_of_Z 5.
Definition daily_world (committed : DayRows) (mem : DayRows) : DailyWorld :=
  {| d_db := {| db_committed := committed; db_working := committed |}; d_mem := mem |}.

(** A reservation made before midnight and given back after it is taken off the next
    day's total: with a limit of 10, ten are already used on the second day, and five
    more are granted. *)
Theorem release_after_midnight_frees_next_day :
  let w := daily_world {[("key"%string, day1) := f5; ("key"%string, day2) := float_of_Z 10]} ∅ in
  let w' := exec (release_daily_spend true day2 (fun r => r) "key" f5) w in
  outcome (try_reserve_daily_spend true day2 quiet quiet "key" f5 (float_of_Z 10)) w = Ok false /\
  outcome (try_reserve_daily_spend true day2 quiet quiet "key" f5 (float_of_Z 10)) w' = Ok true.
Proof. split; vm_compute; reflexivity. Qed.

(** A reservation whose request is rolled back still counts in the memory of the
    process: with no row in the table the next check reads the phantom total and refuses
    an amount that fits. *)
Theorem rolled_back_spend_still_counted :
  let w := daily_world ∅ ∅ in
  let w1 := exec (try_reserve_daily_spend true day1 quiet quiet "key" f5 f5) w in
  let w2 := {| d_db := exec (db_rollback (E := Exc)) (d_db w1); d_mem := d_mem w1 |} in
  rows w2 = ∅ /\ get_daily_used_async true day1 "key" w2 = f5 /\
  check_single_and_daily_limits day1 "key" f5 f5 f5 (Some (get_daily_used_async true day1 "key" w2)) w2
  = Err (HTTPException 403 "amount exceeds runtime key daily_limit").
Proof. split_and!; vm_compute; reflexivity. Qed.

Lemma daily_limit_kept_witness :
  let w := daily_world {[("key"%string, day1) := f5]} ∅ in
  let k := ("key"%string, day1) in
  let e : Env := (fun r => snd (reserve_stmt k f5 (float_of_Z 10) r), fun r => r, fun r => r) in
  outcome (try_reserve_daily_spend true day1 e quiet "key" f5 (float_of_Z 10)) w = Ok false /\
  within k (float_of_Z 10) (rows (exec (try_reserve_daily_spend true day1 e quiet "key" f5 (float_of_Z 10)) w)).
Proof.
  cbv zeta. split; [vm_compute; reflexivity|].
  assert (Ha : amount_ok f5) by (split_and!; vm_compute; reflexivity).
  assert (Hl : limit_ok (float_of_Z 10)) by (split; vm_compute; reflexivity).
  apply (daily_limit_kept true day1 "key" _ quiet f5 (float_of_Z 10)); [exact Ha|exact Hl| | |].
  - split_and!; [exact (others_reserve _ _ _ Ha)|by intros r Hr..].
  - by split_and!; intros r Hr.
  - intros used. unfold rows, daily_world. cbn. intros [_ <-]%lookup_singleton_Some.
    split; vm_compute; reflexivity.
Defined.
