(* ===== verification/VerifierBond.v ===== *)
(** * Bonds of verifier nodes

    [services/verifier_bond.py], [locked_capacity_of] of [services/governance_stake.py] and
    the node, attestation and challenge routes of [api/routes/verifier_network.py].  Each
    route is one transaction.  The settings are a [BondPolicy]; times are microseconds; the
    outcome of a node's signature check is the argument [sig].  Parameters: the reading of
    the on-chain vault ([read_bond]) and the new row ids. *)
From S2P Require Import Prelude PyText PyFloat FloatFacts FloatMul Decimal Capacity GrantApproval BondLedger.
Open Scope Z_scope.

Definition HOUR : Z := 3600 * 1000000.
Definition f25 : float := Eval vm_compute in float_of_Z 25.

Record BondPolicy := {
  verifier_min_bond_usdc : float;
  verifier_require_backed_bond : bool;
  verifier_require_owner_identity : bool;
  verifier_unbond_cooldown_hours : Z;
  verifier_require_vault_bond : bool;
  verifier_bond_vault_address : option string;
  slash_victim_share_bps : Z;
  slash_pool_share_bps : Z
}.

Record Node := {
  n_id : string;
  n_wallet : string;
  n_stake : float;
  n_reputation : float;
  n_attestations : Z;
  n_successful : Z;
  n_active : bool;
  n_owner : option string;
  n_bond_state : string;
  n_bond_floor : float;
  n_unbond_requested_at : option Z;
  n_unbond_amount : float;
  n_slash_unsettled : float
}.

Record Challenge := {
  c_task_id : string;
  c_status : string;
  c_resolution : option string;
  c_window_end : Z;
  c_resolved_at : option Z
}.

Record VNet := {
  nodes : gmap string Node;
  capacity : caps_table;
  directory : Directory;
  bonds : BondDb;
  attested : list (string * string);
  client_of_task : gmap string string;
  challenges : gmap string Challenge
}.
Abbreviation NM := (M VNet Exc).

Definition put_node (n : Node) : NM unit :=
  m_put (fun w => {| nodes := <[n_id n := n]> (nodes w); capacity := capacity w; directory := directory w;
                     bonds := bonds w; attested := attested w; client_of_task := client_of_task w;
                     challenges := challenges w |}).
Definition put_challenge (i : string) (c : Challenge) : NM unit :=
  m_put (fun w => {| nodes := nodes w; capacity := capacity w; directory := directory w; bonds := bonds w;
                     attested := attested w; client_of_task := client_of_task w;
                     challenges := <[i := c]> (challenges w) |}).
Definition put_attestation (task verifier : string) : NM unit :=
  m_put (fun w => {| nodes := nodes w; capacity := capacity w; directory := directory w; bonds := bonds w;
                     attested := attested w ++ [(task, verifier)]; client_of_task := client_of_task w;
                     challenges := challenges w |}).
Definition on_bonds {A} (c : BM A) : NM A :=
  zoom bonds (fun b w => {| nodes := nodes w; capacity := capacity w; directory := directory w; bonds := b;
                            attested := attested w; client_of_task := client_of_task w;
                            challenges := challenges w |}) c.

(** Rewrites of one column group of a node. *)
Definition set_bond (stake : float) (requested : option Z) (amount : float) (n : Node) : Node :=
  {| n_id := n_id n; n_wallet := n_wallet n; n_stake := stake; n_reputation := n_reputation n;
     n_attestations := n_attestations n; n_successful := n_successful n; n_active := n_active n;
     n_owner := n_owner n; n_bond_state := n_bond_state n; n_bond_floor := n_bond_floor n;
     n_unbond_requested_at := requested; n_unbond_amount := amount;
     n_slash_unsettled := n_slash_unsettled n |}.
Definition set_state (active : bool) (state : string) (n : Node) : Node :=
  {| n_id := n_id n; n_wallet := n_wallet n; n_stake := n_stake n; n_reputation := n_reputation n;
     n_attestations := n_attestations n; n_successful := n_successful n; n_active := active;
     n_owner := n_owner n; n_bond_state := state; n_bond_floor := n_bond_floor n;
     n_unbond_requested_at := n_unbond_requested_at n; n_unbond_amount := n_unbond_amount n;
     n_slash_unsettled := n_slash_unsettled n |}.
Definition set_record (reputation : float) (total successful : Z) (unsettled : float) (n : Node) : Node :=
  {| n_id := n_id n; n_wallet := n_wallet n; n_stake := n_stake n; n_reputation := reputation;
     n_attestations := total; n_successful := successful; n_active := n_active n;
     n_owner := n_owner n; n_bond_state := n_bond_state n; n_bond_floor := n_bond_floor n;
     n_unbond_requested_at := n_unbond_requested_at n; n_unbond_amount := n_unbond_amount n;
     n_slash_unsettled := unsettled |}.

Section Nodes.
Context (p : BondPolicy)
        (read_bond : string -> result string (option (option float * bool))).

(** ** [services/verifier_bond.py] *)

Definition min_bond_amount : float := py_max fzero (float_or_zero (verifier_min_bond_usdc p)).
Definition unbond_cooldown : Z := Z.max 0 (verifier_unbond_cooldown_hours p) * HOUR.
Definition vault_configured : bool := bool_decide (clean (verifier_bond_vault_address p) <> None).

Definition locked_capacity_of (identity : string) (w : VNet) : float :=
  match capacity w !! identity with None => fzero | Some r => float_or_zero (locked_usdc r) end.

Definition in_cooldown (requested : option Z) (now : Z) : bool :=
  match requested with None => false | Some t => now <? t + unbond_cooldown end.

(** The [code] of [bond_state]. *)
Definition bond_state (w : VNet) (identity : string) (stake : float) (requested : option Z) (now : Z) : string :=
  let stake := float_or_zero stake in
  let backed := (locked_capacity_of identity w + BOND_EPSILON >=? stake)%float in
  if (stake <=? fzero)%float then "no_stake"
  else if (stake + BOND_EPSILON <? min_bond_amount)%float then "below_min"
  else if verifier_require_backed_bond p && negb backed then "unbacked"
  else if in_cooldown requested now then "cooling"
  else "active".

Definition assert_bond_acceptable (identity : string) (stake : float) (now : Z) : NM unit :=
  do! code := m_get (fun w => bond_state w identity stake None now) in
  if decide (code = "active"%string) then m_ret tt
  else if decide (code = "no_stake"%string) then m_raise (HTTPException 422 "verifier bond must be greater than 0")
  else if decide (code = "below_min"%string) then m_raise (HTTPException 422 "verifier bond is below the platform minimum")
  else if decide (code = "cooling"%string) then m_raise (HTTPException 409 "verifier bond is mid-exit (cooldown)")
  else m_raise (HTTPException 409 "verifier bond is not backed by locked USDC").

Definition assert_owner_wallet_matches (identity wallet : string) : NM unit :=
  do! bound := m_get (fun w => get_bound_wallet (directory w) identity) in
  match str_or bound None with
  | None => m_raise (HTTPException 409 "identity has no bound wallet")
  | Some b => if decide (lower_strip b <> lower_strip wallet)
              then m_raise (HTTPException 403 "node wallet does not match the wallet bound to the identity")
              else m_ret tt
  end.

(** [vault_bond_state]: the chain's answer about the bond behind a stake. *)
Definition vault_bond_state (w : VNet) (identity : string) (wallet : option string) (stake : float) : string :=
  let stake := float_or_zero stake in
  let given := lower_strip (default ""%string wallet) in
  let wallet := if decide (given = ""%string)
                then lower_strip (default ""%string (get_bound_wallet (directory w) identity)) else given in
  if negb vault_configured then "vault_unconfigured"
  else if decide (wallet = ""%string) then "no_wallet"
  else match read_bond wallet with
       | Err _ => "vault_unavailable"
       | Ok None => "no_wallet"
       | Ok (Some (bond, registered)) =>
           if negb registered then "not_registered"
           else if (or_zero bond + BOND_EPSILON <? stake)%float then "below_bond"
           else "active"
       end.

Definition assert_vault_bond_covers (identity : string) (wallet : option string) (stake : float) : NM unit :=
  do! code := m_get (fun w => vault_bond_state w identity wallet stake) in
  if decide (code = "active"%string) then m_ret tt
  else m_raise (HTTPException 409 "on-chain bond is required").

Definition owner_of (n : Node) : string := py_strip (default ""%string (n_owner n)).

Definition assert_node_bond_ok (n : Node) (now : Z) : NM unit :=
  let identity := owner_of n in
  if decide (identity = ""%string) then m_ret tt
  else
    do! code := m_get (fun w => bond_state w identity (n_stake n) (n_unbond_requested_at n) now) in
    if decide (code <> "active"%string)
    then m_raise (HTTPException 403 "this verifier node is not active right now")
    else if verifier_require_vault_bond p then assert_vault_bond_covers identity (Some (n_wallet n)) (n_stake n)
    else m_ret tt.

Definition refreshed (w : VNet) (now : Z) (n : Node) : Node :=
  let identity := owner_of n in
  set_state (n_active n)
    (if decide (identity = ""%string) then "appointed"%string
     else bond_state w identity (n_stake n) (n_unbond_requested_at n) now) n.

(** ** Routes *)

Definition node_or_404 (i : string) : NM Node :=
  do! n := m_get (fun w => nodes w !! i) in
  match n with Some n => m_ret n | None => m_raise (HTTPException 404 "Verifier not found") end.

Definition register_verifier (sig : result Exc unit) (new_id : string) (now : Z) (wallet : string)
    (stake : float) (owner : option string) : NM Node :=
  seq! lift sig in
  do! taken := m_get (fun w => bool_decide (map_Exists (fun _ n => n_wallet n = wallet) (nodes w))) in
  if taken then m_raise (HTTPException 409 "A verifier with this wallet address already exists")
  else
    let owner := clean owner in
    if verifier_require_owner_identity p && bool_decide (owner = None)
    then m_raise (HTTPException 422 "owner_identity_id is required to register a node")
    else
      seq! match owner with
           | None => m_ret tt
           | Some o => seq! assert_owner_wallet_matches o wallet in assert_bond_acceptable o stake now
           end in
      let n := {| n_id := new_id; n_wallet := wallet; n_stake := stake; n_reputation := fzero;
                  n_attestations := 0; n_successful := 0; n_active := true; n_owner := owner;
                  n_bond_state := if owner is Some _ then "active"%string else "appointed"%string;
                  n_bond_floor := if owner is Some _ then min_bond_amount else fzero;
                  n_unbond_requested_at := None; n_unbond_amount := fzero; n_slash_unsettled := fzero |} in
      seq! put_node n in m_ret n.

Definition update_verifier_stake (sig : result Exc unit) (now : Z) (i : string) (stake : float) : NM Node :=
  do! n := node_or_404 i in
  seq! lift sig in
  do! n := match str_or (n_owner n) None with
           | None => m_ret n
           | Some o =>
               seq! assert_bond_acceptable o stake now in
               m_ret (if n_unbond_requested_at n is Some _ then set_bond (n_stake n) None fzero n else n)
           end in
  let n := set_bond stake (n_unbond_requested_at n) (n_unbond_amount n) n in
  do! n := m_get (fun w => refreshed w now n) in
  seq! put_node n in m_ret n.

Definition request_verifier_unstake (sig : result Exc unit) (now : Z) (i : string) (amount : float) : NM Node :=
  do! n := node_or_404 i in
  seq! lift sig in
  let bond := float_or_zero (n_stake n) in
  let amount := if (amount =? fzero)%float then bond else amount in
  if (amount <=? fzero)%float then m_raise (HTTPException 409 "this node has nothing to unstake")
  else if (amount - BOND_EPSILON >? bond)%float
  then m_raise (HTTPException 422 "unstake amount exceeds the bonded stake")
  else
    let n := set_bond (n_stake n) (Some now) (round8 amount) n in
    do! n := m_get (fun w => refreshed w now n) in
    seq! put_node n in m_ret n.

Definition finalize_verifier_unstake (sig : result Exc unit) (now : Z) (i : string) : NM Node :=
  do! n := node_or_404 i in
  seq! lift sig in
  match n_unbond_requested_at n with
  | None => m_raise (HTTPException 409 "this node has not requested an unstake")
  | Some t =>
      if now <? t + unbond_cooldown then m_raise (HTTPException 409 "unstake cooldown is still running")
      else
        let released := py_min (float_or_zero (n_unbond_amount n)) (float_or_zero (n_stake n)) in
        let n := set_bond (round8 (float_or_zero (n_stake n) - released)%float) None fzero n in
        let stake := float_or_zero (n_stake n) in
        let n := if bool_decide (n_bond_state n = "appointed"%string) && (stake <=? f1em9)%float
                 then set_state false (n_bond_state n) n
                 else if (stake <=? f1em9)%float || (stake + f1em9 <? min_bond_amount)%float
                 then set_state false "released" n
                 else n in
        do! n := m_get (fun w => refreshed w now n) in
        seq! put_node n in m_ret n
  end.

Definition submit_attestation (sig : result Exc unit) (now : Z) (i task decision : string) : NM unit :=
  do! n := node_or_404 i in
  if negb (n_active n) then m_raise (HTTPException 400 "Verifier is not active")
  else
    seq! assert_node_bond_ok n now in
    seq! lift sig in
    seq! put_attestation task i in
    put_node (set_record (n_reputation n) (n_attestations n + 1)
      (if decide (decision = "ATTESTED_OK"%string) then n_successful n + 1 else n_successful n)
      (n_slash_unsettled n) n).

(** ** Challenges *)

Record ResolveRequest := {
  rq_status : string;
  rq_resolution : string;
  rq_slash_amount : option float;
  rq_victim_wallet : option string;
  rq_victim_identity : option string
}.

(** The victim: as named, else the buyer of the task's contract. *)
Definition challenge_victim (w : VNet) (task : string) (q : ResolveRequest) : option string * option string :=
  match clean (rq_victim_wallet q) with
  | Some v => (Some v, clean (rq_victim_identity q))
  | None =>
      match client_of_task w !! task with
      | Some c => if decide (c = ""%string) then (None, clean (rq_victim_identity q))
                  else let i := default c (clean (rq_victim_identity q)) in
                       (get_bound_wallet (directory w) i, Some i)
      | None => (None, clean (rq_victim_identity q))
      end
  end.

(** A node that attested and lost. *)
Definition slashed_node (amount : float) (n : Node) : Node :=
  let bond := py_max fzero (float_or_zero (n_stake n)) in
  let stake := round8 (bond - amount)%float in
  let n := set_bond stake (n_unbond_requested_at n) (n_unbond_amount n) n in
  let n := set_record (n_reputation n) (n_attestations n) (n_successful n)
             (round8 (float_or_zero (n_slash_unsettled n) + amount)%float) n in
  let n := if (stake <=? f1em9)%float || (stake + f1em9 <? min_bond_amount)%float
           then set_state false "released" n else n in
  set_record (py_round_to 4 (py_max fzero (float_or_zero (n_reputation n) - f25)%float))
    (n_attestations n) (n_successful n) (n_slash_unsettled n) n.

Definition slash_amount_of (q : ResolveRequest) (n : Node) : float :=
  let bond := py_max fzero (float_or_zero (n_stake n)) in
  py_min (default bond (rq_slash_amount q)) bond.

Definition slash_request (victim_wallet victim_identity : option string) (challenge_id : string)
    (q : ResolveRequest) (amount : float) (n : Node) : SlashRequest :=
  {| q_subject_kind := SUBJECT_VERIFIER_NODE; q_subject_id := n_id n; q_wallet := Some (n_wallet n);
     q_victim_wallet := victim_wallet; q_victim_identity := victim_identity;
     q_source_kind := SOURCE_CHALLENGE; q_source_id := challenge_id; q_amount := amount;
     q_reason := Some (rq_resolution q) |}.

Definition slash_one (new_id : string -> string) (now : Z) (challenge_id : string)
    (victim : option string * option string) (q : ResolveRequest) (verifier : string) : NM (option string) :=
  do! n := m_get (fun w => nodes w !! verifier) in
  match n with
  | None => m_ret None
  | Some n =>
      if (py_max fzero (float_or_zero (n_stake n)) <=? fzero)%float then m_ret None
      else
        let amount := slash_amount_of q n in
        if (amount <=? fzero)%float then m_ret None
        else
          do! res := on_bonds (record_slash (slash_victim_share_bps p) (slash_pool_share_bps p)
            (new_id verifier) now (slash_request (fst victim) (snd victim) challenge_id q amount n)) in
          seq! (if snd res then put_node (slashed_node amount n) else m_ret tt) in
          m_ret (Some (bs_id (fst res)))
  end.

Fixpoint slash_all (new_id : string -> string) (now : Z) (challenge_id : string)
    (victim : option string * option string) (q : ResolveRequest) (verifiers : list string) : NM (list string) :=
  match verifiers with
  | [] => m_ret []
  | v :: vs =>
      do! r := slash_one new_id now challenge_id victim q v in
      do! rs := slash_all new_id now challenge_id victim q vs in
      m_ret (match r with Some i => i :: rs | None => rs end)
  end.

(** [sorted({a.verifier_id ... if a.verifier_id})]. *)
Definition attesting (task : string) (w : VNet) : list string :=
  foldr insert_text [] (filter (fun v => v <> ""%string)
    (snd <$> filter (fun a => fst a = task) (attested w))).

Definition apply_upheld_slash (new_id : string -> string) (now : Z) (challenge_id : string) (c : Challenge)
    (q : ResolveRequest) : NM (list string) :=
  do! verifiers := m_get (attesting (c_task_id c)) in
  do! victim := m_get (fun w => challenge_victim w (c_task_id c) q) in
  slash_all new_id now challenge_id victim q verifiers.

Definition open_challenge (sig : result Exc unit) (new_id : string) (now : Z) (task : string) : NM Challenge :=
  seq! lift sig in
  let c := {| c_task_id := task; c_status := "OPEN"; c_resolution := None;
              c_window_end := now + 30 * 60 * 1000000; c_resolved_at := None |} in
  seq! put_challenge new_id c in m_ret c.

Definition resolve_challenge (sig : result Exc unit) (new_id : string -> string) (now : Z) (i : string)
    (q : ResolveRequest) : NM Challenge :=
  do! c := m_get (fun w => challenges w !! i) in
  match c with
  | None => m_raise (HTTPException 404 "Challenge not found")
  | Some c =>
      if negb (mem (c_status c) ["OPEN"; "ACTIVE"]%string) then m_raise (HTTPException 400 "Challenge is not open")
      else
        seq! lift sig in
        seq! (if decide (rq_status q = "UPHELD"%string) then apply_upheld_slash new_id now i c q else m_ret []) in
        let c := {| c_task_id := c_task_id c; c_status := rq_status q; c_resolution := Some (rq_resolution q);
                    c_window_end := c_window_end c; c_resolved_at := Some now |} in
        seq! put_challenge i c in m_ret c
  end.
End Nodes.

(** ** The gate before attesting *)

(** A node in office: appointed by name, or bonded now. *)
Definition bonded_now (p : BondPolicy) (w : VNet) (n : Node) (now : Z) : bool :=
  let stake := float_or_zero (n_stake n) in
  negb (stake <=? fzero)%float && negb (stake + BOND_EPSILON <? min_bond_amount p)%float
  && (negb (verifier_require_backed_bond p)
      || (locked_capacity_of (owner_of n) w + BOND_EPSILON >=? stake)%float)
  && negb (in_cooldown p (n_unbond_requested_at n) now).

Definition in_office (p : BondPolicy) read_bond (w : VNet) (n : Node) (now : Z) : bool :=
  bool_decide (owner_of n = ""%string)
  || bonded_now p w n now
     && (negb (verifier_require_vault_bond p)
         || bool_decide (vault_bond_state p read_bond w (owner_of n) (Some (n_wallet n)) (n_stake n)
                         = "active"%string)).

Lemma bond_state_active p w n now :
  bond_state p w (owner_of n) (n_stake n) (n_unbond_requested_at n) now = "active"%string <->
  bonded_now p w n now = true.
Proof.
  unfold bond_state, bonded_now. cbv zeta.
  destruct (_ <=? fzero)%float; [done|]. destruct (_ <? min_bond_amount p)%float; [done|].
  destruct (verifier_require_backed_bond p); cbn [negb andb orb];
    [destruct (_ >=? _)%float; cbn [negb andb]; [|done]|]; destruct (in_cooldown _ _ _); done.
Qed.

Lemma node_bond_ok_eq p rb w n now :
  assert_node_bond_ok p rb n now w =
  (if in_office p rb w n now then Ok tt
   else Err (if bonded_now p w n now then HTTPException 409 "on-chain bond is required"
             else HTTPException 403 "this verifier node is not active right now"), w).
Proof.
  unfold assert_node_bond_ok, in_office, assert_vault_bond_covers, m_bind, m_get, m_ret, m_raise.
  destruct (decide (owner_of n = _)) as [E|E]; [by rewrite bool_decide_eq_true_2|].
  rewrite bool_decide_eq_false_2 by done. cbn [orb].
  pose proof (bond_state_active p w n now) as H.
  destruct (decide (bond_state _ _ _ _ _ _ <> _)) as [Hne|Hne].
  - destruct (bonded_now p w n now); [tauto|done].
  - apply dec_stable in Hne. rewrite (proj1 H Hne). cbn [andb].
    destruct (verifier_require_vault_bond p); cbn [negb orb]; [|done].
    destruct (decide (vault_bond_state _ _ _ _ _ _ = _)); [by rewrite bool_decide_eq_true_2|].
    by rewrite bool_decide_eq_false_2.
Qed.

(** An attestation is accepted exactly when the node exists, is active and in office
    at that moment (appointed, or staked, above the floor, backed, not leaving and covered
    by the vault where that is required) and its signature holds; it then adds exactly one
    attestation, and a refusal changes nothing. *)
Theorem attestation_gate_spec p read_bond sig now i task decision w :
  let run := submit_attestation p read_bond sig now i task decision in
  match nodes w !! i with
  | Some n =>
      if n_active n && in_office p read_bond w n now && is_ok sig
      then outcome run w = Ok tt /\ attested (exec run w) = attested w ++ [(task, i)] /\
           bonds (exec run w) = bonds w /\
           exists n', nodes (exec run w) = <[n_id n := n']> (nodes w) /\
             n_attestations n' = n_attestations n + 1 /\ n_stake n' = n_stake n
      else is_ok (outcome run w) = false /\ exec run w = w
  | None => run w = (Err (HTTPException 404 "Verifier not found"), w)
  end.
Proof.
  cbv zeta. unfold submit_attestation, node_or_404, outcome, exec, m_bind, m_get, m_ret, m_raise, lift.
  destruct (nodes w !! i) as [n|]; [|done].
  destruct (n_active n); cbn [negb andb]; [|by split].
  rewrite !node_bond_ok_eq. destruct (in_office _ _ _ _ _); cbn [andb]; [|by split].
  destruct sig as [[]|e]; cbn [is_ok]; [|by split].
  unfold put_attestation, put_node, m_put. cbn. split_and!; [done..|]. eexists. by split_and!.
Qed.

(** ** Slashing *)

(** The optional amount of a ruling, in units. *)
Definition ruled (a : option Z) (q : ResolveRequest) : Prop :=
  rq_slash_amount q = dec8 <$> a /\ forall x, a = Some x -> 0 <= x <= 2 ^ 50.

Lemma slash_amount_units q a n s : n_stake n = dec8 s -> 0 <= s <= 2 ^ 50 -> ruled a q ->
  slash_amount_of q n = dec8 (Z.min (default s a) s).
Proof.
  intros Hs Hr [Ha Hb]. unfold slash_amount_of. rewrite Hs, dec8_or_zero, dec8_max, Ha by done.
  destruct a as [x|]; cbn; [|by rewrite dec8_min by lia]. by rewrite dec8_min by auto.
Qed.

(** No slash of this node by this challenge yet, and a fresh row id. *)
Definition slash_is_new (new_id : string -> string) (challenge_id : string) (n : Node) (w : VNet) : Prop :=
  Forall (fun r => slash_key r <> (SUBJECT_VERIFIER_NODE, n_id n, SOURCE_CHALLENGE, challenge_id) /\
                   bs_id r <> new_id (n_id n)) (slashes (bonds w)).

Lemma record_slash_new vb pb i now q db :
  Forall (fun r => slash_key r <> (q_subject_kind q, q_subject_id q, q_source_kind q, q_source_id q) /\
                   bs_id r <> i) (slashes db) ->
  record_slash vb pb i now q db =
    (Ok (new_slash vb pb i now q, true),
     {| slashes := slashes db ++ [new_slash vb pb i now q]; reversals := reversals db |}).
Proof.
  intros H. unfold record_slash, find_slash, insert_slash, m_bind, m_get, m_ret, m_put.
  rewrite filter_none by (intros r Hr; rewrite Forall_forall in H; by apply H). cbn [head].
  assert (Hk : slash_key (new_slash vb pb i now q) =
    (q_subject_kind q, q_subject_id q, q_source_kind q, q_source_id q) /\ bs_id (new_slash vb pb i now q) = i).
  { unfold new_slash. by destruct (split _ _ _ _) as [[[? ?] ?] ?]. }
  destruct Hk as [Hk Hi]. rewrite Hk, Hi, !bool_decide_eq_false_2; [done| |].
  - rewrite list_elem_of_fmap. intros (r & E & Hr). rewrite Forall_forall in H. destruct (H r Hr). congruence.
  - rewrite list_elem_of_fmap. intros (r & E & Hr). rewrite Forall_forall in H. destruct (H r Hr). congruence.
Qed.

Lemma record_slash_old vb pb i now q db r :
  r ∈ slashes db -> slash_key r = (q_subject_kind q, q_subject_id q, q_source_kind q, q_source_id q) ->
  exists r', record_slash vb pb i now q db = (Ok (r', false), db).
Proof.
  intros Hr Hk. unfold record_slash, find_slash, m_bind, m_get, m_ret.
  destruct (head _) as [x|] eqn:E; [by eexists|]. exfalso.
  assert (r ∈ filter (fun x => slash_key x = (q_subject_kind q, q_subject_id q, q_source_kind q, q_source_id q)) (slashes db))
    as H by (by apply list_elem_of_filter).
  destruct (filter _ _); [set_solver|done].
Qed.

(** A ruling already in the ledger is not applied again. *)
Lemma slash_one_repeat p new_id now cid victim q v w n r :
  nodes w !! v = Some n -> r ∈ slashes (bonds w) ->
  slash_key r = (SUBJECT_VERIFIER_NODE, n_id n, SOURCE_CHALLENGE, cid) ->
  exec (slash_one p new_id now cid victim q v) w = w.
Proof.
  intros Hn Hr Hk. unfold exec, slash_one, m_bind, m_get, m_ret, on_bonds, zoom. rewrite Hn.
  destruct (_ <=? fzero)%float; [done|]. destruct (_ <=? fzero)%float; [done|].
  destruct (record_slash_old (slash_victim_share_bps p) (slash_pool_share_bps p) (new_id v) now
    (slash_request victim.1 victim.2 cid q (slash_amount_of q n) n) (bonds w) r Hr Hk) as [r' ->].
  cbn [fst snd]. by destruct w.
Qed.

(** When a challenge is upheld, a node that attested loses exactly the ruled amount,
    at most its stake: the ledger records it under the node and the challenge, the stake
    falls by it, the node stops when it falls below the floor, nobody else is touched, and
    applying the ruling again changes nothing. *)
Theorem upheld_slash_spec p new_id now cid victim q v w n s a :
  nodes w !! v = Some n -> n_id n = v -> n_stake n = dec8 s -> 0 <= s <= 2 ^ 50 -> ruled a q ->
  slash_is_new new_id cid n w ->
  let run := slash_one p new_id now cid victim q v in
  let d := Z.min (default s a) s in
  if d <? 1 then run w = (Ok None, w)
  else
    outcome run w = Ok (Some (new_id v)) /\
    slashes (bonds (exec run w)) = slashes (bonds w) ++
      [new_slash (slash_victim_share_bps p) (slash_pool_share_bps p) (new_id v) now
         (slash_request (fst victim) (snd victim) cid q (dec8 d) n)] /\
    nodes (exec run w) = <[v := slashed_node p (dec8 d) n]> (nodes w) /\
    n_stake (slashed_node p (dec8 d) n) = dec8 (s - d) /\
    n_active (slashed_node p (dec8 d) n) =
      n_active n && negb ((s - d <=? 0) || (dec8 (s - d) + f1em9 <? min_bond_amount p)%float) /\
    exec run (exec run w) = exec run w.
Proof.
  intros Hn Hid Hs Hr Ha Hnew. cbv zeta. set (d := Z.min (default s a) s). unfold slash_one.
  assert (Hd : d <= s) by (subst d; lia).
  assert (Hd0 : 0 <= d) by (subst d; destruct Ha as [_ Hx]; destruct a as [x|]; cbn; [specialize (Hx x eq_refl)|]; lia).
  assert (Hsv : py_max fzero (float_or_zero (n_stake n)) = dec8 s) by (by rewrite Hs, dec8_or_zero, dec8_max).
  unfold outcome, exec, m_bind, m_get, m_ret. rewrite Hn. unfold on_bonds, zoom.
  rewrite Hsv, dec8_le_zero, (slash_amount_units q a n s) by done. fold d. rewrite dec8_le_zero by lia.
  destruct (Z.leb_spec s 0) as [H0|H0].
  { rewrite (proj2 (Z.ltb_lt d 1)) by lia. done. }
  destruct (Z.leb_spec d 0) as [H1|H1]; [by rewrite (proj2 (Z.ltb_lt d 1)) by lia|].
  rewrite (proj2 (Z.ltb_ge d 1)) by lia.
  rewrite (record_slash_new _ _ (new_id v)) by (rewrite <- Hid; exact Hnew). cbn [fst snd].
  unfold put_node, m_put. cbn [nodes bonds slashes].
  assert (Hst : n_stake (slashed_node p (dec8 d) n) = dec8 (s - d)).
  { unfold slashed_node. rewrite Hsv. destruct (_ || _); cbn -[dec py_round_to]; by rewrite dec8_sub by lia. }
  assert (Hni : n_id (slashed_node p (dec8 d) n) = v).
  { unfold slashed_node. by destruct (_ || _). }
  rewrite Hni. split_and!; [| |done|done| |].
  - unfold new_slash. by destruct (split _ _ _ _) as [[[? ?] ?] ?].
  - done.
  - unfold slashed_node. rewrite Hsv, dec8_sub by lia.
    replace (dec8 (s - d) <=? f1em9)%float with (s - d <=? 0).
    + by destruct ((s - d <=? 0) || _); cbn; rewrite ?andb_true_r, ?andb_false_r.
    + destruct (dec8_near (s - d) ltac:(lia)) as (F & V & _). destruct (eps_vals 8) as (Fe & Ve & Pe & _).
      pose proof (dec8_gt_eps (s - d) ltac:(lia)) as Hg. rewrite fltb_sval in Hg by done. rewrite fleb_sval by done.
      destruct (Z.leb_spec (s - d) 0), (Z.leb_spec (sval (dec8 (s - d))) (sval f1em9)),
        (Z.ltb_spec (sval f1em9) (sval (dec8 (s - d)))), (Z.leb_spec 1 (s - d)); try done; lia.
  - apply (slash_one_repeat _ _ _ _ _ _ _ _ (slashed_node p (dec8 d) n)
      (new_slash (slash_victim_share_bps p) (slash_pool_share_bps p) (new_id v) now
         (slash_request victim.1 victim.2 cid q (dec8 d) n))); cbn [nodes bonds slashes snd].
    + by rewrite lookup_insert_eq.
    + set_solver.
    + rewrite Hni. unfold new_slash. destruct (split _ _ _ _) as [[[? ?] ?] ?]. cbn. by rewrite Hid.
Qed.

(** ** Leaving *)

Lemma refreshed_keeps p w now n : n_id (refreshed p w now n) = n_id n /\ n_stake (refreshed p w now n) = n_stake n /\
  n_active (refreshed p w now n) = n_active n /\
  n_unbond_requested_at (refreshed p w now n) = n_unbond_requested_at n /\
  n_bond_state (refreshed p w now n) <> "released"%string.
Proof.
  unfold refreshed. cbv zeta. split_and!; [done..|]. cbn. destruct (decide _); [done|].
  unfold bond_state. cbv zeta. by repeat case_match.
Qed.

Definition exit_due (p : BondPolicy) (n : Node) (now : Z) : bool :=
  match n_unbond_requested_at n with Some t => t + unbond_cooldown p <=? now | None => false end.

(** An exit is paid exactly when it was requested and its cooldown is over, and it
    pays the requested amount or what slashing has left of the stake; the node stops when
    the rest is below the floor.  The label released is never what is stored: the refresh
    that follows overwrites it. *)
Theorem unstake_finalize_spec p sig now i w n s u :
  nodes w !! i = Some n -> n_id n = i -> n_stake n = dec8 s -> n_unbond_amount n = dec8 u ->
  0 <= s <= 2 ^ 50 -> 0 <= u <= 2 ^ 50 ->
  let run := finalize_verifier_unstake p sig now i in
  let rest := s - Z.min u s in
  if is_ok sig && exit_due p n now
  then exists n', run w = (Ok n', exec (put_node n') w) /\ n_id n' = i /\ n_stake n' = dec8 rest /\
    n_unbond_requested_at n' = None /\ n_bond_state n' <> "released"%string /\
    n_active n' = n_active n && negb ((dec8 rest <=? f1em9)%float || (dec8 rest + f1em9 <? min_bond_amount p)%float)
  else is_ok (outcome run w) = false /\ exec run w = w.
Proof.
  intros Hn Hid Hs Hu Rs Ru run rest. subst run.
  unfold finalize_verifier_unstake, node_or_404, exit_due, outcome, exec, m_bind, m_get, m_ret, m_raise, lift.
  rewrite Hn. destruct sig as [[]|e]; cbn [is_ok andb]; [|by split].
  destruct (n_unbond_requested_at n) as [t|]; [|by split].
  destruct (Z.ltb_spec now (t + unbond_cooldown p)) as [Hlt|Hge].
  { rewrite (proj2 (Z.leb_gt _ _)) by lia. by split. }
  rewrite (proj2 (Z.leb_le _ _)) by lia. rewrite Hs, Hu, !dec8_or_zero, dec8_min by lia.
  fold rest. rewrite dec8_sub by lia. cbn [n_stake set_bond]. fold rest. rewrite dec8_or_zero by lia.
  set (n0 := set_bond (dec8 rest) None fzero n).
  set (n1 := if bool_decide _ && _ then set_state false (n_bond_state n0) n0 else _).
  destruct (refreshed_keeps p w now n1) as (Ki & Ks & Ka & Ku & Kb).
  exists (refreshed p w now n1). rewrite Ki, Ks, Ka, Ku.
  assert (H1 : n_id n1 = i /\ n_stake n1 = dec8 rest /\ n_unbond_requested_at n1 = None /\
    n_active n1 = n_active n && negb ((dec8 rest <=? f1em9)%float || (dec8 rest + f1em9 <? min_bond_amount p)%float)).
  { subst n1. destruct (dec8 rest <=? f1em9)%float; cbn [andb orb negb].
    - rewrite andb_true_r, andb_false_r. destruct (bool_decide _); cbn; by split_and!.
    - rewrite andb_false_r. destruct (_ <? _)%float; cbn; by rewrite ?andb_true_r, ?andb_false_r. }
  destruct H1 as (-> & -> & -> & ->). by split_and!.
Qed.

(** Lowering the stake through the stake route takes effect at once, during a cooldown
    too, and ends the exit: from then on a ruling can take at most the new stake, so the
    cooldown that should keep a leaving bond slashable is bypassed. *)
Theorem stake_cut_skips_cooldown p now i w n o u :
  nodes w !! i = Some n -> n_id n = i -> str_or (n_owner n) None = Some o -> 1 <= u <= 2 ^ 50 ->
  bond_state p w o (dec8 u) None now = "active"%string ->
  let run := update_verifier_stake p (Ok tt) now i (dec8 u) in
  is_ok (outcome run w) = true /\
  exists n', nodes (exec run w) !! i = Some n' /\ n_stake n' = dec8 u /\
    n_unbond_requested_at n' = None /\
    forall q a, ruled a q -> slash_amount_of q n' = dec8 (Z.min (default u a) u).
Proof.
  intros Hn Hid Ho Hu Hb run. subst run.
  unfold update_verifier_stake, node_or_404, assert_bond_acceptable, outcome, exec, m_bind, m_get, m_ret, lift.
  rewrite Hn, Ho, decide_True by done. cbn [fst snd is_ok]. split; [done|].
  set (n0 := if n_unbond_requested_at n is Some _ then _ else n).
  set (n1 := set_bond (dec8 u) (n_unbond_requested_at n0) (n_unbond_amount n0) n0).
  destruct (refreshed_keeps p w now n1) as (Ki & Ks & _ & Ku & _).
  assert (Hi : n_id n1 = i /\ n_unbond_requested_at n1 = None).
  { subst n1 n0. by destruct (n_unbond_requested_at n) eqn:E. }
  destruct Hi as [Hi Hr]. exists (refreshed p w now n1). cbn [nodes put_node m_put snd].
  rewrite Ki, Hi, Ks, Ku, Hr, lookup_insert_eq. split_and!; [done..|].
  intros q a Ha. apply slash_amount_units; [by rewrite Ks|lia|done].
Qed.

(** ** Witnesses *)

Definition demo_policy : BondPolicy :=
  {| verifier_min_bond_usdc := fzero; verifier_require_backed_bond := true;
     verifier_require_owner_identity := true; verifier_unbond_cooldown_hours := 168;
     verifier_require_vault_bond := false; verifier_bond_vault_address := None;
     slash_victim_share_bps := 8000; slash_pool_share_bps := 2000 |}.
Definition demo_node : Node :=
  {| n_id := "n1"; n_wallet := "0xa"; n_stake := dec8 100000000000; n_reputation := f50; n_attestations := 0;
     n_successful := 0; n_active := true; n_owner := Some "kid"%string; n_bond_state := "cooling";
     n_bond_floor := fzero; n_unbond_requested_at := Some 0; n_unbond_amount := dec8 100000000000;
     n_slash_unsettled := fzero |}.
Definition demo_locked : CapacityRow :=
  {| identity_id := "kid"; profile_id := None; locked_usdc := dec8 100000000000; bill_credits := fzero;
     available_credits := fzero; reserved_credits := fzero; in_progress_credits := fzero;
     confirmed_progress_credits := fzero; disputed_credits := fzero; pending_settlement_credits := fzero;
     burned_credits := fzero; released_credits := fzero; updated_at := 0 |}.
Definition demo_net : VNet :=
  {| nodes := {[ "n1"%string := demo_node ]}; capacity := {[ "kid"%string := demo_locked ]};
     directory := {| profiles := []; agents := ∅ |}; bonds := {| slashes := []; reversals := [] |};
     attested := [("task"%string, "n1"%string)]; client_of_task := ∅;
     challenges := {[ "ch"%string := {| c_task_id := "task"; c_status := "OPEN"; c_resolution := None;
                                        c_window_end := 0; c_resolved_at := None |} ]} |}.
Definition demo_ruling : ResolveRequest :=
  {| rq_status := "UPHELD"; rq_resolution := "bad attestation"; rq_slash_amount := None;
     rq_victim_wallet := None; rq_victim_identity := None |}.

Lemma upheld_slash_spec_witness :
  let run := slash_one demo_policy (fun v => "slash-" +:+ v)%string 7 "ch" (None, None) demo_ruling "n1" in
  outcome run demo_net = Ok (Some "slash-n1"%string) /\ exec run (exec run demo_net) = exec run demo_net.
Proof.
  destruct (upheld_slash_spec demo_policy (fun v => "slash-" +:+ v)%string 7 "ch" (None, None) demo_ruling "n1"
    demo_net demo_node 100000000000 None) as (H1 & _ & _ & _ & _ & H2);
    [reflexivity|reflexivity|reflexivity|lia|split; [reflexivity|done]|constructor|]. by split.
Defined.

Lemma unstake_finalize_spec_witness :
  exists n', finalize_verifier_unstake demo_policy (Ok tt) (168 * HOUR) "n1" demo_net =
      (Ok n', exec (put_node n') demo_net) /\ n_stake n' = dec8 0 /\ n_active n' = false.
Proof.
  destruct (unstake_finalize_spec demo_policy (Ok tt) (168 * HOUR) "n1" demo_net demo_node 100000000000 100000000000)
    as (n' & H1 & _ & H2 & _ & _ & H3); [reflexivity|reflexivity|reflexivity|reflexivity|lia|lia|].
  exists n'. split_and!; [exact H1|exact H2|]. rewrite H3. by vm_compute.
Defined.

(** A bond of 1000 USDC in its cooldown, cut to a hundred-millionth of a dollar. *)
Lemma stake_cut_skips_cooldown_witness :
  exists n', nodes (exec (update_verifier_stake demo_policy (Ok tt) 5 "n1" (dec8 1)) demo_net) !! "n1"%string = Some n' /\
    slash_amount_of demo_ruling n' = dec8 1.
Proof.
  destruct (stake_cut_skips_cooldown demo_policy 5 "n1" demo_net demo_node "kid" 1) as [_ (n' & H1 & _ & _ & H2)];
    [reflexivity|reflexivity|reflexivity|lia|by vm_compute|].
  exists n'. split; [exact H1|]. apply (H2 demo_ruling None). by split.
Defined.
