(* ===== verification/Arbitration.v ===== *)
(** * Arbitration: the pool, cases, votes and payouts

    [services/arbitration_rules.py] and [api/routes/arbitration.py] up to the payout of a
    decision.  A request works on the tables of a [DbSession]-like pair of committed and
    working tables: it commits on success and rolls back on an exception; the safety brake
    and the monitor are process state and stay.  Settlement, capacity and voucher tables
    are those of their components and are reached through them.

    Settings are an [ArbPolicy], what authentication established about the caller is a
    [CallerCtx].  Parameters: the on-chain step of a payout ([sync]), the vault check of
    [VerifierBond] ([vault_covers]), the check that no payee is set on chain
    ([no_payee_yet]), sums ([sql_sum], [py_sum]) and formatting ([fmt2]). *)
From S2P Require Import Prelude PyFloat FloatFacts PyJson Amounts AtomicLedger Capacity Voucher SettlementEngine SettlementTransitions.
Open Scope Z_scope.

Definition ARB_EPSILON : float := f1em9.

(** ** Rows *)

Inductive CaseStatus := OPEN | VOTING | DECIDED | EXECUTED | CASE_CANCELLED.
Inductive VoteDecision := BUYER_WINS | SELLER_WINS | PARTIAL.
Inductive EventType :=
| CASE_CREATED | ARBITRATORS_ASSIGNED | VOTE_CAST | CASE_DECIDED
| CASE_EXECUTED | CASE_EXECUTE_SCHEDULED | CASE_APPEAL_OPENED.
#[export] Instance CaseStatus_eq_dec : EqDecision CaseStatus.
Proof. solve_decision. Defined.
#[export] Instance VoteDecision_eq_dec : EqDecision VoteDecision.
Proof. solve_decision. Defined.
#[export] Instance EventType_eq_dec : EqDecision EventType.
Proof. solve_decision. Defined.

Record PoolMember := {
  pm_id : string;
  pm_stake : float;
  pm_active : bool;
  pm_joined_at : Z
}.

Record Case := {
  k_task_id : string;
  k_opened_by : string;
  k_status : CaseStatus;
  k_required : Z;
  k_outcome : option VoteDecision;
  k_partial : option float;
  k_execute_after : option Z;
  k_vote_round : Z;
  k_appeal_count : Z;
  k_executed_at : option Z
}.

Record Vote := {
  v_case : string;
  v_round : Z;
  v_arbitrator : string;
  v_decision : VoteDecision;
  v_partial : option float
}.

Section Arbitration.
Context {G : Type}.

Record ATables := {
  a_pool : list PoolMember;
  a_cases : gmap string Case;
  a_assignments : list (string * string);
  a_votes : list Vote;
  a_events : list (string * EventType);
  a_subs : list (string * option string);
  a_profiles : list (string * option string);
  a_settle : SettlementDB;
  a_audits : list AuditRow;
  a_money : VWorld (G := G)
}.

Record AWorld := {
  a_committed : ATables;
  a_working : ATables;
  a_monitor : list AuditRow
}.
Abbreviation AM := (M AWorld Exc).

(** ** Access to the tables *)

Definition put_working (f : ATables -> ATables) : AM unit :=
  m_put (fun w => {| a_committed := a_committed w; a_working := f (a_working w); a_monitor := a_monitor w |}).
Definition read {A} (f : ATables -> A) : AM A := m_get (fun w => f (a_working w)).

Definition with_pool (l : list PoolMember) (t : ATables) : ATables :=
  {| a_pool := l; a_cases := a_cases t; a_assignments := a_assignments t; a_votes := a_votes t;
     a_events := a_events t; a_subs := a_subs t; a_profiles := a_profiles t; a_settle := a_settle t;
     a_audits := a_audits t; a_money := a_money t |}.
Definition with_case (i : string) (k : Case) (t : ATables) : ATables :=
  {| a_pool := a_pool t; a_cases := <[i := k]> (a_cases t); a_assignments := a_assignments t;
     a_votes := a_votes t; a_events := a_events t; a_subs := a_subs t; a_profiles := a_profiles t;
     a_settle := a_settle t; a_audits := a_audits t; a_money := a_money t |}.
Definition with_assigned (l : list (string * string)) (t : ATables) : ATables :=
  {| a_pool := a_pool t; a_cases := a_cases t; a_assignments := a_assignments t ++ l;
     a_votes := a_votes t; a_events := a_events t; a_subs := a_subs t; a_profiles := a_profiles t;
     a_settle := a_settle t; a_audits := a_audits t; a_money := a_money t |}.
Definition with_vote (v : Vote) (t : ATables) : ATables :=
  {| a_pool := a_pool t; a_cases := a_cases t; a_assignments := a_assignments t;
     a_votes := a_votes t ++ [v]; a_events := a_events t; a_subs := a_subs t; a_profiles := a_profiles t;
     a_settle := a_settle t; a_audits := a_audits t; a_money := a_money t |}.
Definition with_event (i : string) (e : EventType) (t : ATables) : ATables :=
  {| a_pool := a_pool t; a_cases := a_cases t; a_assignments := a_assignments t;
     a_votes := a_votes t; a_events := a_events t ++ [(i, e)]; a_subs := a_subs t;
     a_profiles := a_profiles t; a_settle := a_settle t; a_audits := a_audits t; a_money := a_money t |}.
Definition with_settle (d : SettlementDB) (au : list AuditRow) (m : VWorld (G := G)) (t : ATables) : ATables :=
  {| a_pool := a_pool t; a_cases := a_cases t; a_assignments := a_assignments t; a_votes := a_votes t;
     a_events := a_events t; a_subs := a_subs t; a_profiles := a_profiles t; a_settle := d;
     a_audits := au; a_money := m |}.

Definition write_case (i : string) (k : Case) : AM unit := put_working (with_case i k).
Definition append_case_event (i : string) (e : EventType) : AM unit := put_working (with_event i e).

(** The components' own operations on their tables. *)
Definition on_store {A} (c : StoreM A) : AM A :=
  zoom (fun w => a_settle (a_working w))
    (fun d w => {| a_committed := a_committed w;
                   a_working := with_settle d (a_audits (a_working w)) (a_money (a_working w)) (a_working w);
                   a_monitor := a_monitor w |}) c.
Definition on_money {A} (c : M (VWorld (G := G)) Exc A) : AM A :=
  zoom (fun w => a_money (a_working w))
    (fun m w => {| a_committed := a_committed w;
                   a_working := with_settle (a_settle (a_working w)) (a_audits (a_working w)) m (a_working w);
                   a_monitor := a_monitor w |}) c.
Definition on_audits {A} (c : M (Session (R := unit)) Exc A) : AM A :=
  zoom (fun w => let t := {| t_settle := a_settle (a_working w); t_caps := caps (ledger (a_money (a_working w)));
                             t_audits := a_audits (a_working w); t_rest := tt |} in
                 {| committed := t; working := t; monitor := a_monitor w |})
    (fun s w => {| a_committed := a_committed w;
                   a_working := with_settle (a_settle (a_working w)) (t_audits (working s))
                                  (a_money (a_working w)) (a_working w);
                   a_monitor := monitor s |}) c.

(** [commit] and [rollback]: the brake and the outbox are not rolled back. *)
Definition restore_money (old new : VWorld (G := G)) : VWorld (G := G) :=
  {| ledger := {| caps := caps (ledger old); safety := safety (ledger new) |};
     vouchers := vouchers old; profile_owner := profile_owner old; v_events := v_events old;
     outbox := outbox new; graph := graph old |}.
Definition a_commit : AM unit :=
  m_put (fun w => {| a_committed := a_working w; a_working := a_working w; a_monitor := a_monitor w |}).
Definition a_rollback : AM unit :=
  m_put (fun w =>
    let t := with_settle (a_settle (a_committed w)) (a_audits (a_committed w))
               (restore_money (a_money (a_committed w)) (a_money (a_working w))) (a_committed w) in
    {| a_committed := t; a_working := t; a_monitor := a_monitor w |}).
Definition a_request {A} (c : AM A) : AM A :=
  m_catch (do! a := c in seq! a_commit in m_ret a) (fun e => seq! a_rollback in m_raise e).

(** ** Settings and callers *)

Record ArbPolicy := {
  arbitration_require_actor_binding : bool;
  arbitration_pool_open_join : bool;
  arbitration_min_arbitrators : Z;
  arbitration_max_arbitrators : Z;
  arbitration_min_stake_amount : float;
  arbitration_require_backed_stake : bool;
  arbitration_require_vault_bond : bool;
  arbitration_stake_coverage_multiple : float;
  arbitration_appeal_window_seconds : Z;
  arbitration_max_appeals : Z;
  amount_decimals : Z
}.

Record CallerCtx := {
  actor_identity : option string;
  privileged : bool;
  listed_arbitrator : bool
}.

Context (p : ArbPolicy) (sql_sum py_sum : list float -> float) (fmt2 : float -> string)
        (sync : SettlementState -> TaskStatus -> AM unit)
        (vault_covers : string -> float -> bool)
        (no_payee_yet : string -> result Exc unit).

(** ** [services/arbitration_rules.py] *)

Definition panel_bounds : Z * Z :=
  let lo := Z.max 1 (arbitration_min_arbitrators p) in
  let hi := Z.max lo (if decide (arbitration_max_arbitrators p = 0) then lo else arbitration_max_arbitrators p) in
  (lo, hi).

Definition min_stake_amount : float := py_max fzero (or_zero (Some (arbitration_min_stake_amount p))).

Definition f1 : float := Eval vm_compute in float_of_Z 1.
Definition stake_coverage_multiple : float := py_max f1 (arbitration_stake_coverage_multiple p).

Definition stake_covers_case (stake case_value : float) : bool :=
  let stake := or_zero (Some stake) in
  if (case_value <=? fzero)%float then (stake >? fzero)%float
  else (stake >? fmul case_value stake_coverage_multiple + ARB_EPSILON)%float.

Definition case_value_of (k : Case) : AM float :=
  if decide (k_task_id k = ""%string) then m_ret fzero
  else
    do! st := on_store (SettlementEngine.get (k_task_id k)) in
    m_ret match st with
          | None => fzero
          | Some s => py_max fzero (or_zero (Some (ss_escrow_amount s)))
          end.

Definition member (i : string) (t : ATables) : option PoolMember :=
  head (filter (fun m => pm_id m = i) (a_pool t)).

Definition assert_arbitrator_covers_case (k : Case) (i : string) : AM float :=
  do! m := read (member i) in
  let stake := match m with Some m => or_zero (Some (pm_stake m)) | None => fzero end in
  do! value := case_value_of k in
  if negb (stake_covers_case stake value)
  then m_raise (HTTPException 409 "arbitrator stake does not cover the case value")
  else if arbitration_require_vault_bond p && negb (vault_covers i stake)
  then m_raise (HTTPException 409 "on-chain bond is required")
  else m_ret stake.

Definition require_identity_binding (c : CallerCtx) (i : string) : AM unit :=
  if negb (arbitration_require_actor_binding p) then m_ret tt
  else if decide (actor_identity c = Some i /\ i <> ""%string) then m_ret tt
  else if privileged c then m_ret tt
  else m_raise (HTTPException 403 "authenticated actor must be this identity").

Definition require_pool_join_allowed (c : CallerCtx) : AM unit :=
  if arbitration_pool_open_join p || listed_arbitrator c then m_ret tt
  else m_raise (HTTPException 403 "joining the arbitration pool requires a listed actor id").

Definition locked_capacity_of (i : string) (t : ATables) : float :=
  match caps (ledger (a_money t)) !! i with None => fzero | Some r => or_zero (Some (locked_usdc r)) end.

Definition assert_stake_acceptable (i : string) (stake : float) : AM unit :=
  if (stake <=? fzero)%float then m_raise (HTTPException 422 "arbitrator stake must be greater than 0")
  else if (stake + ARB_EPSILON <? min_stake_amount)%float
  then m_raise (HTTPException 422 "arbitrator stake is below the platform minimum")
  else if arbitration_require_vault_bond p && negb (vault_covers i stake)
  then m_raise (HTTPException 409 "on-chain bond is required")
  else if negb (arbitration_require_backed_stake p) then m_ret tt
  else
    do! locked := read (locked_capacity_of i) in
    if (locked + ARB_EPSILON <? stake)%float
    then m_raise (HTTPException 409 "arbitrator stake is not backed by locked USDC")
    else m_ret tt.

(** The recusal list: the seeds, their sub-identities, parents, profiles and owners. *)
Definition conflicted_identity_ids (seeds : list string) (t : ATables) : list string :=
  let seeds := filter (fun s => s <> ""%string) (py_strip <$> seeds) in
  if decide (seeds = []) then []
  else
    let related (l : list (string * option string)) :=
      mjoin ((fun '(child, parent) =>
        match parent with
        | None => []
        | Some q => (if mem q seeds then [child; q] else []) ++
                    (if mem child seeds && negb (bool_decide (q = ""%string)) then [q] else [])
        end) <$> l) in
    seeds ++ related (a_subs t) ++ related (a_profiles t).

Definition assert_panel_size_allowed (required : Z) : AM unit :=
  let '(lo, hi) := panel_bounds in
  if (required <? lo) || (hi <? required)
  then m_raise (HTTPException 422 "required_arbitrators is outside the platform policy")
  else m_ret tt.

Definition qualified (conflicted exclude : list string) (value : float) (m : PoolMember) : bool :=
  negb (bool_decide (pm_id m = ""%string)) && negb (mem (pm_id m) exclude) && negb (mem (pm_id m) conflicted)
  && pm_active m
  && let stake := or_zero (Some (pm_stake m)) in
     negb (stake <=? fzero)%float && negb (stake + ARB_EPSILON <? min_stake_amount)%float
     && stake_covers_case stake value.

Definition filter_qualified_members (conflicted exclude : list string) (value : float)
    (l : list PoolMember) : list PoolMember :=
  filter (fun m => qualified conflicted exclude value m = true) l.

(** ** The pool *)

Definition set_member (m : PoolMember) (l : list PoolMember) : list PoolMember :=
  if decide (pm_id m ∈ pm_id <$> l)
  then (fun m' => if decide (pm_id m' = pm_id m) then m else m') <$> l
  else l ++ [m].

Definition join_arbitration_pool (c : CallerCtx) (now : Z) (i : string) (stake : float) : AM PoolMember :=
  seq! require_pool_join_allowed c in
  seq! require_identity_binding c i in
  seq! assert_stake_acceptable i stake in
  do! old := read (member i) in
  let m := {| pm_id := i; pm_stake := stake; pm_active := true;
              pm_joined_at := match old with Some m => pm_joined_at m | None => now end |} in
  seq! put_working (fun t => with_pool (set_member m (a_pool t)) t) in
  m_ret m.

(** What revoking an arbitrator profile does to the pool. *)
Definition deactivate_member (i : string) : AM unit :=
  put_working (fun t => with_pool
    ((fun m => if decide (pm_id m = i)
               then {| pm_id := pm_id m; pm_stake := pm_stake m; pm_active := false;
                       pm_joined_at := pm_joined_at m |} else m) <$> a_pool t) t).

(** ** Cases *)

Definition case_or_404 (i : string) : AM Case :=
  do! k := read (fun t => a_cases t !! i) in
  match k with Some k => m_ret k | None => m_raise (HTTPException 404 "arbitration case not found") end.

Definition settlement_parties (s : SettlementState) : list string :=
  ss_client_agent_id s :: match ss_worker_agent_id s with
                          | Some x => if decide (x = ""%string) then [] else [x]
                          | None => []
                          end.

Definition case_parties (k : Case) : AM (list string) :=
  do! st := on_store (SettlementEngine.get (k_task_id k)) in
  m_ret (filter (fun x => x <> ""%string)
    (k_opened_by k :: match st with Some s => settlement_parties s | None => [] end)).

Definition create_arbitration_case (c : CallerCtx) (new_id : string) (now : Z) (task opened_by : string)
    (required : Z) : AM Case :=
  seq! assert_panel_size_allowed required in
  do! st := on_store (SettlementEngine.get task) in
  match st with
  | None => m_raise (HTTPException 404 "settlement not found")
  | Some s =>
      if negb (mem opened_by (settlement_parties s)) && negb (privileged c)
      then m_raise (HTTPException 403 "only a party to the dispute may open an arbitration case")
      else
        seq! require_identity_binding c opened_by in
        do! taken := read (fun t => bool_decide (map_Exists (fun _ k => k_task_id k = task) (a_cases t))) in
        if taken then m_raise (HTTPException 409 "arbitration case already exists")
        else if negb (mem (ss_status s) [DISPUTED; ARBITRATED])
        then m_raise (HTTPException 409 "settlement must be disputed before arbitration case creation")
        else
          seq! (if decide (ss_status s = DISPUTED)
                then seq! on_audits (record_audit
                            (route_caller (Some "/v1/arbitration/cases"%string)
                               (str_or (actor_identity c) (Some opened_by)))
                            now s DISPUTED ARBITRATED true "arbitration_case_create" "arbitration case opened") in
                     on_store (save now (state_set_status ARBITRATED now s))
                else m_ret tt) in
          let k := {| k_task_id := task; k_opened_by := opened_by; k_status := OPEN; k_required := required;
                      k_outcome := None; k_partial := None; k_execute_after := None; k_vote_round := 0;
                      k_appeal_count := 0; k_executed_at := None |} in
          do! dup := read (fun t => bool_decide (is_Some (a_cases t !! new_id))) in
          if dup then m_raise IntegrityError
          else
            seq! write_case new_id k in
            seq! append_case_event new_id CASE_CREATED in
            m_ret k
  end.

Definition set_case_status (st : CaseStatus) (k : Case) : Case :=
  {| k_task_id := k_task_id k; k_opened_by := k_opened_by k; k_status := st; k_required := k_required k;
     k_outcome := k_outcome k; k_partial := k_partial k; k_execute_after := k_execute_after k;
     k_vote_round := k_vote_round k; k_appeal_count := k_appeal_count k; k_executed_at := k_executed_at k |}.

Fixpoint insert_by_joined (m : PoolMember) (l : list PoolMember) : list PoolMember :=
  match l with
  | [] => [m]
  | m' :: l' => if pm_joined_at m <? pm_joined_at m' then m :: l else m' :: insert_by_joined m l'
  end.
Definition active_members (t : ATables) : list PoolMember :=
  foldl (fun l m => insert_by_joined m l) [] (filter (fun m => pm_active m = true) (a_pool t)).

Definition panel (i : string) (t : ATables) : list string :=
  snd <$> filter (fun a => fst a = i) (a_assignments t).

(** [assign_arbitrators]; the caller is an operator. *)
Definition assign_arbitrators (i : string) (count : Z) : AM (list string) :=
  do! k := case_or_404 i in
  if mem (k_status k) [DECIDED; EXECUTED] then m_raise (HTTPException 409 "arbitration case already finalized")
  else
    do! existing := read (panel i) in
    let need := k_required k - Z.of_nat (length existing) in
    if need <=? 0 then m_raise (HTTPException 409 "arbitration panel is already full for this case")
    else
      let want := Z.min count need in
      do! parties := case_parties k in
      do! conflicted := read (conflicted_identity_ids parties) in
      do! candidates := read active_members in
      do! value := case_value_of k in
      let selected := take (Z.to_nat want) (filter_qualified_members conflicted existing value candidates) in
      if decide (selected = []) then m_raise (HTTPException 409 "no qualified arbitrators available for assignment")
      else
        seq! put_working (with_assigned ((fun m => (i, pm_id m)) <$> selected)) in
        seq! write_case i (set_case_status VOTING k) in
        seq! append_case_event i ARBITRATORS_ASSIGNED in
        m_ret (pm_id <$> selected).

(** ** Votes *)

Definition round_votes (i : string) (r : Z) (t : ATables) : list Vote :=
  filter (fun v => v_case v = i /\ v_round v = r) (a_votes t).
Definition votes_for (d : VoteDecision) (l : list Vote) : list Vote := filter (fun v => v_decision v = d) l.

(** The outcome of a full round. *)
Definition tally (l : list Vote) : VoteDecision * option float :=
  let buyer := length (votes_for BUYER_WINS l) in
  let seller := length (votes_for SELLER_WINS l) in
  if (seller <? buyer)%nat then (BUYER_WINS, None)
  else if (buyer <? seller)%nat then (SELLER_WINS, None)
  else
    let values := omap v_partial (votes_for PARTIAL l) in
    (PARTIAL, Some (match values with
                    | [] => f50
                    | _ => py_round_to 2 (fdiv (py_sum values) (float_of_Z (Z.of_nat (length values))))
                    end)).

Definition decide_case (l : list Vote) (k : Case) : Case :=
  let '(d, q) := tally l in
  {| k_task_id := k_task_id k; k_opened_by := k_opened_by k; k_status := DECIDED; k_required := k_required k;
     k_outcome := Some d; k_partial := q; k_execute_after := k_execute_after k;
     k_vote_round := k_vote_round k; k_appeal_count := k_appeal_count k; k_executed_at := k_executed_at k |}.

Definition cast_vote (c : CallerCtx) (i arb : string) (d : VoteDecision) (percent : option float) : AM Case :=
  do! k := case_or_404 i in
  if mem (k_status k) [DECIDED; EXECUTED] then m_raise (HTTPException 409 "arbitration case already finalized")
  else
    seq! require_identity_binding c arb in
    do! assigned := read (fun t => mem arb (panel i t)) in
    if negb assigned then m_raise (HTTPException 403 "arbitrator is not assigned to this case")
    else
      seq! assert_arbitrator_covers_case k arb in
      if bool_decide (d = PARTIAL) && bool_decide (percent = None)
      then m_raise (HTTPException 400 "partial_percent is required when decision is partial")
      else if negb (bool_decide (d = PARTIAL)) && negb (bool_decide (percent = None))
      then m_raise (HTTPException 400 "partial_percent is only allowed for partial decision")
      else
        let v := {| v_case := i; v_round := k_vote_round k; v_arbitrator := arb; v_decision := d;
                    v_partial := percent |} in
        do! dup := read (fun t => mem arb (v_arbitrator <$> round_votes i (k_vote_round k) t)) in
        if dup then m_raise (HTTPException 409 "duplicate vote for arbitrator in this case")
        else
          seq! put_working (with_vote v) in
          seq! append_case_event i VOTE_CAST in
          do! votes := read (round_votes i (k_vote_round k)) in
          if k_required k <=? Z.of_nat (length votes)
          then
            let k' := decide_case votes k in
            seq! write_case i k' in
            seq! append_case_event i CASE_DECIDED in
            m_ret k'
          else if decide (k_status k = OPEN)
          then let k' := set_case_status VOTING k in seq! write_case i k' in m_ret k'
          else m_ret k.

(** ** Payout of a decision *)

(** The columns a decision writes into the settlement. *)
Definition state_decided (target : TaskStatus) (settled refunded : float) (notes : string) (now : Z)
    (s : SettlementState) : SettlementState :=
  {| ss_settlement_id := ss_settlement_id s;
     ss_task_id := ss_task_id s;
     ss_escrow_amount := ss_escrow_amount s;
     ss_currency := ss_currency s;
     ss_status := target;
     ss_client_agent_id := ss_client_agent_id s;
     ss_worker_agent_id := ss_worker_agent_id s;
     ss_profile_id := ss_profile_id s;
     ss_worker_profile_id := ss_worker_profile_id s;
     ss_released_amount := Some settled;
     ss_refunded_amount := Some refunded;
     ss_dispute_reason := ss_dispute_reason s;
     ss_rejection_reason_code := ss_rejection_reason_code s;
     ss_arbitration_notes := Some notes;
     ss_created_at := ss_created_at s;
     ss_updated_at := now;
     ss_released_at := if (settled >? fzero)%float then Some now else None;
     ss_settlement_mode := ss_settlement_mode s;
     ss_chain_id := ss_chain_id s;
     ss_contract_address := ss_contract_address s;
     ss_tx_hash := ss_tx_hash s;
     ss_evidence_bundle_hash := ss_evidence_bundle_hash s;
     ss_onchain_status := ss_onchain_status s;
     ss_onchain_binding_id := ss_onchain_binding_id s;
     ss_onchain_buyer_bill_id := ss_onchain_buyer_bill_id s;
     ss_onchain_agent_bill_id := ss_onchain_agent_bill_id s;
     ss_quote_id := ss_quote_id s;
     ss_voucher_id := ss_voucher_id s;
     ss_delivery_deadline_at := ss_delivery_deadline_at s;
     ss_confirm_window_hours := ss_confirm_window_hours s;
     ss_confirm_deadline_at := ss_confirm_deadline_at s;
     ss_progress_rule_spec := ss_progress_rule_spec s;
     ss_funding_source := ss_funding_source s |}.

(** Target status, released and refunded amounts, notes. *)
Definition decision_amounts (k : Case) (escrow : float) : result Exc (TaskStatus * float * float * string) :=
  match k_outcome k with
  | Some BUYER_WINS =>
      let? r := normalize_amount (amount_decimals p) escrow in
      Ok (REFUNDED, fzero, r, "decentralized pool decision: buyer_wins"%string)
  | Some SELLER_WINS =>
      let? r := normalize_amount (amount_decimals p) escrow in
      Ok (SETTLED, r, fzero, "decentralized pool decision: seller_wins"%string)
  | _ =>
      let q := default f50 (k_partial k) in
      let? ab := split_amounts (amount_decimals p) escrow q in
      Ok (SETTLED, fst ab, snd ab, ("decentralized pool decision: partial " +:+ fmt2 q +:+ "%")%string)
  end.

Definition set_executed (now : Z) (k : Case) : Case :=
  {| k_task_id := k_task_id k; k_opened_by := k_opened_by k; k_status := EXECUTED; k_required := k_required k;
     k_outcome := k_outcome k; k_partial := k_partial k; k_execute_after := k_execute_after k;
     k_vote_round := k_vote_round k; k_appeal_count := k_appeal_count k; k_executed_at := Some now |}.

(** The voucher of the settlement is consumed. *)
Definition mark_task_voucher_used (task : string) : AM unit :=
  do! rows := read (fun t => rows_of_task task (a_settle t)) in
  match rows with
  | [] => m_ret tt
  | [r] => on_money (mark_voucher_used (sr_voucher_id r))
  | _ => m_raise MultipleResultsFound
  end.

Definition settle_from_decision (now : Z) (db_ok : result string unit) (actor route : string)
    (i : string) (k : Case) : AM SettlementState :=
  let caller := route_caller (Some route) (Some actor) in
  do! st := on_store (SettlementEngine.get (k_task_id k)) in
  match st with
  | None => m_raise (HTTPException 404 "settlement not found")
  | Some s =>
      do! from := if decide (ss_status s = DISPUTED)
        then if negb (can_transition DISPUTED ARBITRATED)
             then m_raise (HTTPException 409 "cannot transition settlement to arbitration")
             else seq! on_audits (record_audit caller now s DISPUTED ARBITRATED true "arbitration_execute"
                                    "arbitration case accepted") in
                  m_ret ARBITRATED
        else m_ret (ss_status s) in
      do! am := lift (decision_amounts k (ss_escrow_amount s)) in
      let '(target, settled, refunded, notes) := am in
      if negb (can_transition from target) then m_raise (HTTPException 409 "invalid settlement transition")
      else
        seq! on_audits (record_audit caller now s ARBITRATED target true "arbitration_execute" notes) in
        let s' := state_decided target settled refunded notes now s in
        seq! on_store (save now s') in
        seq! sync s' target in
        seq! on_money (on_ledger (apply_capacity_resolution sql_sum now db_ok (ss_client_agent_id s)
               (ss_escrow_amount s) settled refunded)) in
        seq! mark_task_voucher_used (k_task_id k) in
        seq! write_case i (set_executed now k) in
        seq! append_case_event i CASE_EXECUTED in
        m_ret s'
  end.

Definition SECOND : Z := 1000000.
Definition appeal_window_seconds : Z := Z.max 0 (arbitration_appeal_window_seconds p).

Definition set_execute_after (t : Z) (k : Case) : Case :=
  {| k_task_id := k_task_id k; k_opened_by := k_opened_by k; k_status := k_status k; k_required := k_required k;
     k_outcome := k_outcome k; k_partial := k_partial k; k_execute_after := Some t;
     k_vote_round := k_vote_round k; k_appeal_count := k_appeal_count k; k_executed_at := k_executed_at k |}.

(** The case is decided and has an outcome. *)
Definition decided_case (i : string) : AM Case :=
  do! k := case_or_404 i in
  if decide (k_status k <> DECIDED) then m_raise (HTTPException 409 "arbitration case status must be decided")
  else if decide (k_outcome k = None) then m_raise (HTTPException 409 "arbitration decision is missing")
  else m_ret k.

Definition settlement_or_404 (task : string) : AM SettlementState :=
  do! st := on_store (SettlementEngine.get task) in
  match st with Some s => m_ret s | None => m_raise (HTTPException 404 "settlement not found") end.

Definition execute_arbitration_case (now : Z) (db_ok : result string unit) (actor i : string) : AM SettlementState :=
  do! k := decided_case i in
  if 0 <? appeal_window_seconds
  then
    seq! (if decide (k_execute_after k = None)
          then seq! write_case i (set_execute_after (now + appeal_window_seconds * SECOND) k) in
               seq! append_case_event i CASE_EXECUTE_SCHEDULED in
               a_commit
          else m_ret tt) in
    settlement_or_404 (k_task_id k)
  else settle_from_decision now db_ok actor "/v1/arbitration/cases/execute" i k.

Definition execute_arbitration_case_due (now : Z) (db_ok : result string unit) (actor i : string) : AM SettlementState :=
  do! k := decided_case i in
  if match k_execute_after k with Some t => now <? t | None => false end
  then m_raise (HTTPException 409 "appeal window is still open")
  else settle_from_decision now db_ok actor "/v1/arbitration/cases/execute-due" i k.

(** *** The tick *)

(** The cases the tick finds: decided, scheduled and due, by due time. *)
Fixpoint insert_by_due (x : string * Z) (l : list (string * Z)) : list (string * Z) :=
  match l with
  | [] => [x]
  | y :: l' => if snd x <? snd y then x :: l else y :: insert_by_due x l'
  end.
Definition due_cases (now : Z) (limit : nat) (t : ATables) : list string :=
  take limit (fst <$> foldr insert_by_due []
    (omap (fun '(i, k) => match k_execute_after k with
                          | Some d => if bool_decide (k_status k = DECIDED) && (d <=? now) then Some (i, d) else None
                          | None => None
                          end) (map_to_list (a_cases t)))).

(** One case of the tick: skipped while backing off or locked by another request,
    checked again, paid in its own transaction; a failure is rolled back and noted. *)
Definition tick_case (now : Z) (db_ok : result string unit) (backing_off locked : string -> bool)
    (i : string) : AM (option string) :=
  if backing_off i || locked i then m_ret None
  else
    do! k := read (fun t => a_cases t !! i) in
    match k with
    | None => m_ret None
    | Some k =>
        if negb (bool_decide (k_status k = DECIDED)) || bool_decide (k_outcome k = None)
           || match k_execute_after k with Some d => now <? d | None => true end
        then m_ret None
        else
          m_catch (seq! settle_from_decision now db_ok "arbitration-execute-due-autosettle"
                     "/v1/arbitration/cases/execute-due (autosettle tick)" i k in
                   seq! a_commit in m_ret (Some i))
            (fun _ => seq! a_rollback in m_ret None)
    end.

Fixpoint tick_cases (now : Z) (db_ok : result string unit) (backing_off locked : string -> bool)
    (l : list string) : AM (list string) :=
  match l with
  | [] => m_ret []
  | i :: l' =>
      do! r := tick_case now db_ok backing_off locked i in
      do! rs := tick_cases now db_ok backing_off locked l' in
      m_ret (match r with Some i => i :: rs | None => rs end)
  end.

Definition execute_due_arbitration_cases (now : Z) (db_ok : result string unit)
    (backing_off locked : string -> bool) (limit : nat) : AM (list string) :=
  do! l := read (due_cases now limit) in
  tick_cases now db_ok backing_off locked l.

(** ** Appeals *)

Definition reopened (k : Case) : Case :=
  {| k_task_id := k_task_id k; k_opened_by := k_opened_by k; k_status := VOTING; k_required := k_required k;
     k_outcome := None; k_partial := None; k_execute_after := None; k_vote_round := k_vote_round k + 1;
     k_appeal_count := k_appeal_count k + 1; k_executed_at := k_executed_at k |}.

Definition appeal_arbitration_case (c : CallerCtx) (now : Z) (i appellant : string) : AM Case :=
  do! k := case_or_404 i in
  if appeal_window_seconds <=? 0 then m_raise (HTTPException 409 "appeal window is disabled")
  else if decide (k_status k <> DECIDED) then m_raise (HTTPException 409 "arbitration case status must be decided")
  else match k_execute_after k with
       | None => m_raise (HTTPException 409 "this payout was never scheduled with an appeal window")
       | Some t =>
           if t <=? now then m_raise (HTTPException 409 "the appeal window already closed")
           else if (0 <? arbitration_max_appeals p) && (arbitration_max_appeals p <=? k_appeal_count k)
           then m_raise (HTTPException 409 "this case has already been appealed too often")
           else
             do! st := on_store (SettlementEngine.get (k_task_id k)) in
             let parties := k_opened_by k :: match st with
               | Some s => filter (fun x => x <> ""%string) (settlement_parties s) | None => [] end in
             if negb (mem appellant parties) && negb (privileged c)
             then m_raise (HTTPException 403 "only a party to the dispute may appeal this case")
             else
               seq! require_identity_binding c appellant in
               seq! lift (no_payee_yet (k_task_id k)) in
               seq! write_case i (reopened k) in
               seq! append_case_event i CASE_APPEAL_OPENED in
               seq! a_commit in
               m_ret (reopened k)
       end.
End Arbitration.

(** ** The case machine

    What the requests do to the pool, the cases, the panels, the votes and the events, as
    a step relation. *)

Record Arb := {
  ar_pool : list PoolMember;
  ar_cases : gmap string Case;
  ar_assignments : list (string * string);
  ar_votes : list Vote;
  ar_events : list (string * EventType)
}.

Definition arb {G : Type} (t : ATables (G := G)) : Arb :=
  {| ar_pool := a_pool t; ar_cases := a_cases t; ar_assignments := a_assignments t;
     ar_votes := a_votes t; ar_events := a_events t |}.

Definition ar_panel (i : string) (A : Arb) : list string :=
  snd <$> filter (fun a => fst a = i) (ar_assignments A).
Definition ar_round (i : string) (r : Z) (A : Arb) : list Vote :=
  filter (fun v => v_case v = i /\ v_round v = r) (ar_votes A).
Definition open_case (k : Case) : Prop := k_status k <> DECIDED /\ k_status k <> EXECUTED.

Section Machine.
Context (p : ArbPolicy) (py_sum : list float -> float).

Definition fresh_case (k : Case) : Prop :=
  k_status k = OPEN /\ 1 <= k_required k /\ k_outcome k = None /\ k_execute_after k = None /\
  k_vote_round k = 0 /\ k_appeal_count k = 0.

(** The case after a vote that makes the round [l]. *)
Definition voted (l : list Vote) (k : Case) : Case :=
  if k_required k <=? Z.of_nat (length l) then decide_case py_sum l k
  else if decide (k_status k = OPEN) then set_case_status VOTING k else k.

Inductive case_step (A : Arb) : Arb -> Prop :=
| st_pool l : NoDup (pm_id <$> l) ->
    case_step A {| ar_pool := l; ar_cases := ar_cases A; ar_assignments := ar_assignments A;
                   ar_votes := ar_votes A; ar_events := ar_events A |}
| st_create i k : ar_cases A !! i = None -> fresh_case k ->
    case_step A {| ar_pool := ar_pool A; ar_cases := <[i := k]> (ar_cases A);
                   ar_assignments := ar_assignments A; ar_votes := ar_votes A;
                   ar_events := ar_events A ++ [(i, CASE_CREATED)] |}
| st_assign i k l : ar_cases A !! i = Some k -> open_case k -> NoDup l ->
    (forall x, x ∈ l -> x ∉ ar_panel i A) ->
    Z.of_nat (length (ar_panel i A)) + Z.of_nat (length l) <= k_required k ->
    case_step A {| ar_pool := ar_pool A; ar_cases := <[i := set_case_status VOTING k]> (ar_cases A);
                   ar_assignments := ar_assignments A ++ ((fun x => (i, x)) <$> l); ar_votes := ar_votes A;
                   ar_events := ar_events A ++ [(i, ARBITRATORS_ASSIGNED)] |}
| st_vote i k v es : ar_cases A !! i = Some k -> open_case k -> v_case v = i ->
    v_round v = k_vote_round k -> v_arbitrator v ∈ ar_panel i A ->
    v_arbitrator v ∉ v_arbitrator <$> ar_round i (k_vote_round k) A ->
    Forall (fun e => fst e = i /\ snd e <> CASE_EXECUTED) es ->
    case_step A {| ar_pool := ar_pool A;
                   ar_cases := <[i := voted (ar_round i (k_vote_round k) A ++ [v]) k]> (ar_cases A);
                   ar_assignments := ar_assignments A; ar_votes := ar_votes A ++ [v];
                   ar_events := ar_events A ++ es |}
| st_schedule i k t : ar_cases A !! i = Some k -> k_status k = DECIDED -> k_execute_after k = None ->
    case_step A {| ar_pool := ar_pool A; ar_cases := <[i := set_execute_after t k]> (ar_cases A);
                   ar_assignments := ar_assignments A; ar_votes := ar_votes A;
                   ar_events := ar_events A ++ [(i, CASE_EXECUTE_SCHEDULED)] |}
| st_execute i k now : ar_cases A !! i = Some k -> k_status k = DECIDED -> k_outcome k <> None ->
    case_step A {| ar_pool := ar_pool A; ar_cases := <[i := set_executed now k]> (ar_cases A);
                   ar_assignments := ar_assignments A; ar_votes := ar_votes A;
                   ar_events := ar_events A ++ [(i, CASE_EXECUTED)] |}
| st_appeal i k : ar_cases A !! i = Some k -> k_status k = DECIDED ->
    (0 < arbitration_max_appeals p -> k_appeal_count k < arbitration_max_appeals p) ->
    case_step A {| ar_pool := ar_pool A; ar_cases := <[i := reopened k]> (ar_cases A);
                   ar_assignments := ar_assignments A; ar_votes := ar_votes A;
                   ar_events := ar_events A ++ [(i, CASE_APPEAL_OPENED)] |}.

(** ** The invariant of a case *)

Definition executions (i : string) (A : Arb) : nat :=
  length (filter (fun e => e = (i, CASE_EXECUTED)) (ar_events A)).

Record case_wf (A : Arb) (i : string) (k : Case) : Prop := {
  cw_required : 1 <= k_required k;
  cw_panel : NoDup (ar_panel i A);
  cw_panel_size : Z.of_nat (length (ar_panel i A)) <= k_required k;
  cw_votes : forall r, NoDup (v_arbitrator <$> ar_round i r A) /\
                       forall v, v ∈ ar_round i r A -> v_arbitrator v ∈ ar_panel i A;
  cw_rounds : forall v, v ∈ ar_votes A -> v_case v = i -> v_round v <= k_vote_round k;
  cw_appeals : k_appeal_count k = k_vote_round k /\ 0 <= k_appeal_count k /\
    (0 < arbitration_max_appeals p -> k_appeal_count k <= arbitration_max_appeals p);
  cw_executions : executions i A = if decide (k_status k = EXECUTED) then 1%nat else 0%nat;
  cw_status :
    let l := ar_round i (k_vote_round k) A in
    match k_status k with
    | OPEN | VOTING => k_outcome k = None /\ k_execute_after k = None /\ Z.of_nat (length l) < k_required k
    | DECIDED | EXECUTED =>
        Z.of_nat (length l) = k_required k /\ (k_outcome k, k_partial k) = (Some (fst (tally py_sum l)), snd (tally py_sum l))
    | CASE_CANCELLED => False
    end
}.

Record arb_wf (A : Arb) : Prop := {
  aw_pool : NoDup (pm_id <$> ar_pool A);
  aw_cases : map_Forall (case_wf A) (ar_cases A);
  aw_unknown : forall i, ar_cases A !! i = None ->
    ar_panel i A = [] /\ (forall v, v ∈ ar_votes A -> v_case v <> i) /\ executions i A = 0%nat
}.

(** *** Preservation *)

Definition same_at (j : string) (A A' : Arb) : Prop :=
  ar_panel j A' = ar_panel j A /\ (forall r, ar_round j r A' = ar_round j r A) /\
  executions j A' = executions j A /\ forall v, v ∈ ar_votes A' -> v_case v = j -> v ∈ ar_votes A.

Lemma case_wf_same j A A' k : same_at j A A' -> case_wf A j k -> case_wf A' j k.
Proof.
  intros (Hp & Hr & He & Hv) []. split; rewrite ?Hp, ?He; try done.
  - intros r. rewrite Hr. done.
  - auto.
  - cbv zeta in *. rewrite Hr. done.
Qed.

(** A step that only touches case [i], whose row becomes [k']. *)
Lemma touch_wf A A' i k' : arb_wf A -> NoDup (pm_id <$> ar_pool A') ->
  ar_cases A' = <[i := k']> (ar_cases A) -> (forall j, j <> i -> same_at j A A') ->
  case_wf A' i k' -> arb_wf A'.
Proof.
  intros [Hp Hc Hu] Hp' E Hsame Hk. split; [done| |].
  - rewrite E. intros j kj Hj. apply lookup_insert_Some in Hj as [[-> <-]|[Hne Hj]]; [done|].
    apply (case_wf_same j A); auto.
  - intros j Hj. rewrite E in Hj. apply lookup_insert_None in Hj as [Hj Hne].
    destruct (Hsame j) as (H1 & H2 & H3 & H4); [done|]. destruct (Hu j Hj) as (U1 & U2 & U3).
    rewrite H1, H3. split_and!; [done| |done]. intros v Hv Ev. by apply (U2 v); auto.
Qed.

Lemma panel_app i j l l' : snd <$> filter (fun a : string * string => fst a = j) (l ++ ((fun x => (i, x)) <$> l')) =
  (snd <$> filter (fun a => fst a = j) l) ++ (if decide (i = j) then l' else []).
Proof.
  rewrite filter_app, fmap_app. f_equal. destruct (decide (i = j)) as [->|Hne].
  - rewrite filter_all by (intros x (y & -> & _)%list_elem_of_fmap; done).
    rewrite <- list_fmap_compose. by apply list_fmap_id.
  - by rewrite filter_none by (intros x (y & -> & _)%list_elem_of_fmap; done).
Qed.

Lemma executions_app i A es : executions i {| ar_pool := ar_pool A; ar_cases := ar_cases A;
    ar_assignments := ar_assignments A; ar_votes := ar_votes A; ar_events := ar_events A ++ es |} =
  (executions i A + length (filter (fun e => e = (i, CASE_EXECUTED)) es))%nat.
Proof. unfold executions. cbn. by rewrite filter_app, length_app. Qed.

Lemma no_execution i (es : list (string * EventType)) :
  (forall e, e ∈ es -> e <> (i, CASE_EXECUTED)) -> length (filter (fun e => e = (i, CASE_EXECUTED)) es) = 0%nat.
Proof. intros H. by rewrite filter_none. Qed.

Ltac arb_same := unfold same_at, ar_panel, ar_round, executions; cbn [ar_assignments ar_votes ar_events].

(** Steps that change neither panels nor votes. *)
Lemma row_step_wf A i k k' e : arb_wf A -> case_wf A i k -> e <> CASE_EXECUTED ->
  k_required k' = k_required k -> (k_status k = EXECUTED <-> k_status k' = EXECUTED) ->
  (k_appeal_count k' = k_vote_round k' /\ 0 <= k_appeal_count k' /\
   (0 < arbitration_max_appeals p -> k_appeal_count k' <= arbitration_max_appeals p)) ->
  k_vote_round k <= k_vote_round k' ->
  (let l := ar_round i (k_vote_round k') A in
   match k_status k' with
   | OPEN | VOTING => k_outcome k' = None /\ k_execute_after k' = None /\ Z.of_nat (length l) < k_required k'
   | DECIDED | EXECUTED => Z.of_nat (length l) = k_required k' /\
       (k_outcome k', k_partial k') = (Some (fst (tally py_sum l)), snd (tally py_sum l))
   | CASE_CANCELLED => False
   end) ->
  arb_wf {| ar_pool := ar_pool A; ar_cases := <[i := k']> (ar_cases A); ar_assignments := ar_assignments A;
            ar_votes := ar_votes A; ar_events := ar_events A ++ [(i, e)] |}.
Proof.
  intros Hwf [] He Hreq Hex Hap Hround Hst. apply (touch_wf A _ i k'); [done|apply Hwf|done| |].
  - intros j Hj. arb_same. rewrite filter_app, length_app, (no_execution j [(i, e)]), Nat.add_0_r by (intros ? ->%list_elem_of_singleton; congruence).
    by split_and!.
  - split; try done.
    + by rewrite Hreq.
    + rewrite Hreq. done.
    + intros v Hv Ev. specialize (cw_rounds0 v Hv Ev). lia.
    + unfold executions. cbn. rewrite filter_app, length_app, (no_execution i [(i, e)]) by (intros ? ->%list_elem_of_singleton; congruence).
      fold (executions i A). rewrite Nat.add_0_r, cw_executions0. destruct (decide _), (decide _); tauto.
Qed.

Lemma pool_step_wf A l : arb_wf A -> NoDup (pm_id <$> l) ->
  arb_wf {| ar_pool := l; ar_cases := ar_cases A; ar_assignments := ar_assignments A;
            ar_votes := ar_votes A; ar_events := ar_events A |}.
Proof.
  intros [Hp Hc Hu] Hl. split; [done| |done]. intros i k Hk. apply (case_wf_same i A); [|by apply Hc].
  by repeat split.
Qed.

Lemma create_step_wf A i k : arb_wf A -> ar_cases A !! i = None -> fresh_case k ->
  arb_wf {| ar_pool := ar_pool A; ar_cases := <[i := k]> (ar_cases A); ar_assignments := ar_assignments A;
            ar_votes := ar_votes A; ar_events := ar_events A ++ [(i, CASE_CREATED)] |}.
Proof.
  intros Hwf Hi (Hs & Hr & Ho & Hx & Hv & Ha). destruct (aw_unknown _ Hwf i Hi) as (U1 & U2 & U3).
  assert (Hnil : forall r, ar_round i r A = []).
  { intros r. apply filter_none. intros v Hvin [E _]. by apply (U2 v). }
  apply (touch_wf A _ i k); [done|apply Hwf|done| |].
  - intros j Hj. arb_same.
    rewrite filter_app, length_app, (no_execution j [(i, CASE_CREATED)]), Nat.add_0_r by (intros ? ->%list_elem_of_singleton; congruence).
    by split_and!.
  - unfold ar_panel, ar_round in *. split; cbn [ar_assignments ar_votes]; unfold ar_panel, ar_round; cbn [ar_assignments ar_votes].
    + lia.
    + rewrite U1. constructor.
    + rewrite U1. cbn. lia.
    + intros r. rewrite Hnil. cbn. split; [constructor|set_solver].
    + intros v Hvin E. by destruct (U2 v).
    + rewrite Ha, Hv. lia.
    + unfold executions. cbn [ar_events].
      rewrite filter_app, length_app, (no_execution i [(i, CASE_CREATED)]) by (intros ? ->%list_elem_of_singleton; congruence).
      rewrite decide_False by congruence. unfold executions in U3. lia.
    + rewrite Hs, Hnil. cbn. split_and!; [done|done|lia].
Qed.

Lemma assign_step_wf A i k l : arb_wf A -> ar_cases A !! i = Some k -> open_case k -> NoDup l ->
  (forall x, x ∈ l -> x ∉ ar_panel i A) ->
  Z.of_nat (length (ar_panel i A)) + Z.of_nat (length l) <= k_required k ->
  arb_wf {| ar_pool := ar_pool A; ar_cases := <[i := set_case_status VOTING k]> (ar_cases A);
            ar_assignments := ar_assignments A ++ ((fun x => (i, x)) <$> l); ar_votes := ar_votes A;
            ar_events := ar_events A ++ [(i, ARBITRATORS_ASSIGNED)] |}.
Proof.
  intros Hwf Hk [Ho1 Ho2] Hnd Hnew Hlen. destruct (aw_cases _ Hwf i k Hk).
  apply (touch_wf A _ i (set_case_status VOTING k)); [done|apply Hwf|done| |].
  - intros j Hj. arb_same. rewrite panel_app, decide_False, app_nil_r by done.
    rewrite filter_app, length_app, (no_execution j [(i, ARBITRATORS_ASSIGNED)]), Nat.add_0_r
      by (intros ? ->%list_elem_of_singleton; congruence).
    by split_and!.
  - assert (Hpan : forall c, ar_panel i {| ar_pool := ar_pool A; ar_cases := c;
      ar_assignments := ar_assignments A ++ ((fun x => (i, x)) <$> l); ar_votes := ar_votes A;
      ar_events := ar_events A ++ [(i, ARBITRATORS_ASSIGNED)] |} = ar_panel i A ++ l).
    { intros c. unfold ar_panel. cbn [ar_assignments]. by rewrite panel_app, decide_True. }
    split; rewrite ?Hpan; try done.
    + apply NoDup_app. split_and!; [done| |done]. intros x Hx Hl. by apply (Hnew x).
    + rewrite length_app. cbn. lia.
    + intros r. destruct (cw_votes0 r) as [H1 H2]. split; [done|]. intros v Hv. apply elem_of_app. left. by apply H2.
    + unfold executions. cbn [ar_events k_status set_case_status].
      rewrite filter_app, length_app, (no_execution i [(i, ARBITRATORS_ASSIGNED)]) by (intros ? ->%list_elem_of_singleton; congruence).
      unfold executions in cw_executions0. rewrite cw_executions0. by rewrite !decide_False.
    + cbn. destruct (k_status k); naive_solver.
Qed.

Lemma vote_step_wf A i k v es : arb_wf A -> ar_cases A !! i = Some k -> open_case k -> v_case v = i ->
  v_round v = k_vote_round k -> v_arbitrator v ∈ ar_panel i A ->
  v_arbitrator v ∉ v_arbitrator <$> ar_round i (k_vote_round k) A ->
  Forall (fun e => fst e = i /\ snd e <> CASE_EXECUTED) es ->
  arb_wf {| ar_pool := ar_pool A;
            ar_cases := <[i := voted (ar_round i (k_vote_round k) A ++ [v]) k]> (ar_cases A);
            ar_assignments := ar_assignments A; ar_votes := ar_votes A ++ [v];
            ar_events := ar_events A ++ es |}.
Proof.
  intros Hwf Hk [Ho1 Ho2] Hvi Hvr Hva Hnew Hes. destruct (aw_cases _ Hwf i k Hk). rewrite Forall_forall in Hes.
  set (l := ar_round i (k_vote_round k) A) in *.
  assert (Hne : forall j, length (filter (fun e => e = (j, CASE_EXECUTED)) es) = 0%nat).
  { intros j. apply no_execution. intros e He ->. destruct (Hes _ He). done. }
  assert (Hround : forall r, filter (fun v0 => v_case v0 = i /\ v_round v0 = r) (ar_votes A ++ [v]) =
    ar_round i r A ++ if decide (r = k_vote_round k) then [v] else []).
  { intros r. rewrite filter_app. f_equal. destruct (decide (r = _)) as [->|Hr].
    - rewrite filter_cons_True by done. done.
    - rewrite filter_cons_False by (intros [_ E]; congruence). done. }
  assert (Hlen : Z.of_nat (length (l ++ [v])) <= k_required k).
  { destruct (cw_votes0 (k_vote_round k)) as [N1 N2]. fold l in N1, N2.
    assert (Hsub : v_arbitrator <$> (l ++ [v]) ⊆ ar_panel i A).
    { intros x (u & -> & [Hu| ->%list_elem_of_singleton]%elem_of_app)%list_elem_of_fmap; auto. }
    assert (HN : NoDup (v_arbitrator <$> (l ++ [v]))).
    { rewrite fmap_app. apply NoDup_app. split_and!; [done| |apply NoDup_singleton].
      intros x Hx ->%list_elem_of_singleton. done. }
    pose proof (NoDup_submseteq _ _ HN Hsub) as Hle%submseteq_length. rewrite length_fmap in Hle. lia. }
  apply (touch_wf A _ i (voted (l ++ [v]) k)); [done|apply Hwf|done| |].
  - intros j Hj. arb_same. rewrite filter_app, length_app, Hne, Nat.add_0_r. split_and!; [done| |done|].
    + intros r. rewrite filter_app. rewrite (filter_cons_False _ v []) by (intros [E _]; congruence). by rewrite app_nil_r.
    + intros u [Hu|Hu]%elem_of_app E; [done|]. apply list_elem_of_singleton in Hu as ->. congruence.
  - assert (Hq : k_required (voted (l ++ [v]) k) = k_required k /\ k_vote_round (voted (l ++ [v]) k) = k_vote_round k /\
      k_appeal_count (voted (l ++ [v]) k) = k_appeal_count k /\ k_status (voted (l ++ [v]) k) <> EXECUTED).
    { unfold voted, decide_case. destruct (tally _ _). repeat case_match; cbn; split_and!; congruence. }
    destruct Hq as (Q1 & Q2 & Q3 & Q4). split; rewrite ?Q1, ?Q2, ?Q3; try done.
    + intros r. unfold ar_round. cbn [ar_votes]. rewrite Hround. destruct (cw_votes0 r) as [H1 H2].
      destruct (decide (r = _)) as [->|]; [|by rewrite app_nil_r]. fold l in H1, H2 |- *. split.
      * rewrite fmap_app. apply NoDup_app. split_and!; [done| |apply NoDup_singleton].
        intros x Hx ->%list_elem_of_singleton. done.
      * intros u [Hu| ->%list_elem_of_singleton]%elem_of_app; [by apply H2|done].
    + intros u [Hu| ->%list_elem_of_singleton]%elem_of_app E; [by apply cw_rounds0|lia].
    + unfold executions. cbn [ar_events]. rewrite filter_app, length_app, Hne.
      unfold executions in cw_executions0. rewrite cw_executions0. by rewrite !decide_False.
    + cbv zeta. unfold ar_round. cbn [ar_votes]. rewrite Hround, decide_True by done. fold l.
      unfold voted, decide_case. destruct (Z.leb_spec (k_required k) (Z.of_nat (length (l ++ [v])))) as [Hge|Hlt].
      * destruct (tally py_sum (l ++ [v])) as [d q] eqn:E. cbn. split; [lia|done].
      * cbv zeta in cw_status0. destruct (k_status k) eqn:Ek; try done;
          [rewrite decide_True by done; cbn|rewrite decide_False, Ek by done];
          destruct cw_status0 as (S1 & S2 & _); by split_and!.
Qed.

Lemma execute_step_wf A i k now : arb_wf A -> ar_cases A !! i = Some k -> k_status k = DECIDED ->
  arb_wf {| ar_pool := ar_pool A; ar_cases := <[i := set_executed now k]> (ar_cases A);
            ar_assignments := ar_assignments A; ar_votes := ar_votes A;
            ar_events := ar_events A ++ [(i, CASE_EXECUTED)] |}.
Proof.
  intros Hwf Hk Hs. destruct (aw_cases _ Hwf i k Hk).
  apply (touch_wf A _ i (set_executed now k)); [done|apply Hwf|done| |].
  - intros j Hj. arb_same.
    rewrite filter_app, length_app, (no_execution j [(i, CASE_EXECUTED)]), Nat.add_0_r by (intros ? ->%list_elem_of_singleton; congruence).
    by split_and!.
  - split; try done.
    + unfold executions. cbn [ar_events k_status set_executed].
      rewrite filter_app, length_app, decide_True by done. unfold executions in cw_executions0.
      rewrite cw_executions0, Hs. rewrite decide_False by done. rewrite filter_cons_True by done. done.
    + cbn. rewrite Hs in cw_status0. done.
Qed.

Lemma case_step_wf A A' : case_step A A' -> arb_wf A -> arb_wf A'.
Proof.
  intros H Hwf. destruct H as [l Hl|i k Hi Hf|i k l Hk Ho Hn Hnew Hlen|i k v es Hk Ho H1 H2 H3 H4 H5
    |i k t Hk Hs Hx|i k now Hk Hs Ho|i k Hk Hs Hm].
  - by apply pool_step_wf.
  - by apply create_step_wf.
  - by apply assign_step_wf.
  - by apply vote_step_wf.
  - pose proof (aw_cases _ Hwf i k Hk) as Hc. apply (row_step_wf A i k); try done; [apply Hc|].
    pose proof (cw_status _ _ _ Hc) as St. cbn. cbv zeta in St. by rewrite Hs in St |- *.
  - by apply execute_step_wf.
  - destruct (aw_cases _ Hwf i k Hk) as [? ? ? ? Hr (Ha & Ha0 & Ham) ? ?].
    apply (row_step_wf A i k); try done; [cbn; by rewrite Hs|cbn; lia|cbn; lia|].
    cbn. replace (ar_round i (k_vote_round k + 1) A) with (@nil Vote); [split_and!; [done|done|cbn; lia]|].
    symmetry. apply filter_none. intros v Hv [E1 E2]. specialize (Hr v Hv E1). lia.
Qed.

(** An executed case never changes again. *)
Lemma case_step_executed A A' i k : case_step A A' -> ar_cases A !! i = Some k -> k_status k = EXECUTED ->
  ar_cases A' !! i = Some k.
Proof.
  intros H Hi Hs.
  assert (Hne : forall j kj k', ar_cases A !! j = Some kj -> k_status kj <> EXECUTED ->
    <[j := k']> (ar_cases A) !! i = Some k).
  { intros j kj k' Hj Hk. rewrite lookup_insert_ne; [done|]. intros ->. congruence. }
  destruct H as [l Hl|j kj Hj Hf|j kj l Hk [Ho1 Ho2]|j kj v es Hk [Ho1 Ho2]|j kj t Hk Hst|j kj now Hk Hst|j kj Hk Hst];
    cbn [ar_cases]; [done|rewrite lookup_insert_ne; congruence|by apply (Hne j kj)..| | |];
    apply (Hne j kj); congruence.
Qed.
End Machine.

(** ** The requests implement the case machine *)

Section Refinement.
Context {G : Type} (p : ArbPolicy) (sql_sum py_sum : list float -> float) (fmt2 : float -> string)
        (sync : SettlementState -> TaskStatus -> M (AWorld (G := G)) Exc unit)
        (vault_covers : string -> float -> bool) (no_payee_yet : string -> result Exc unit).
Abbreviation world := (AWorld (G := G)).
Abbreviation WM := (M (AWorld (G := G)) Exc).
Abbreviation step := (case_step p py_sum).

(** A statement that does not write the arbitration tables; it may commit. *)
Definition kept (w w' : world) : Prop :=
  arb (a_working w') = arb (a_working w) /\
  (arb (a_committed w') = arb (a_committed w) \/ arb (a_committed w') = arb (a_working w)).
Definition quiet {A : Type} (c : WM A) : Prop := forall w, kept w (exec c w).

(** The chain step writes no arbitration table. *)
Context (sync_quiet : forall s t, quiet (sync s t)).

Lemma kept_refl w : kept w w.
Proof. split; [done|by left]. Qed.

Lemma kept_trans w1 w2 w3 : kept w1 w2 -> kept w2 w3 -> kept w1 w3.
Proof. intros [H1 H2] [H3 H4]. split; [congruence|]. destruct H4 as [->| ->]; [destruct H2; auto|right; congruence]. Qed.

Lemma quiet_ret {A : Type} (a : A) : quiet (m_ret a).
Proof. intros w. apply kept_refl. Qed.
Lemma quiet_raise {A : Type} e : quiet (A := A) (m_raise e).
Proof. intros w. apply kept_refl. Qed.
Lemma quiet_lift {A : Type} (r : result Exc A) : quiet (lift r).
Proof. intros w. apply kept_refl. Qed.
Lemma quiet_read {A : Type} (f : ATables (G := G) -> A) : quiet (read f).
Proof. intros w. apply kept_refl. Qed.
Lemma quiet_store {A : Type} (c : StoreM A) : quiet (on_store c).
Proof. intros w. unfold exec, on_store, zoom. destruct (c _) as [r d]. split; [done|by left]. Qed.
Lemma quiet_money {A : Type} (c : M (VWorld (G := G)) Exc A) : quiet (on_money c).
Proof. intros w. unfold exec, on_money, zoom. destruct (c _) as [r d]. split; [done|by left]. Qed.
Lemma quiet_audits {A : Type} (c : M (Session (R := unit)) Exc A) : quiet (on_audits c).
Proof. intros w. unfold exec, on_audits, zoom. destruct (c _) as [r d]. split; [done|by left]. Qed.
Lemma quiet_bind {A B : Type} (c : WM A) (k : A -> WM B) :
  quiet c -> (forall a, quiet (k a)) -> quiet (m_bind c k).
Proof.
  intros Hc Hk w. specialize (Hc w). unfold exec, m_bind in *. destruct (c w) as [[a|e] w1]; [|done].
  eapply kept_trans; [exact Hc|apply Hk].
Qed.

Create HintDb arb_quiet.
Hint Resolve quiet_ret quiet_raise quiet_lift quiet_read quiet_store quiet_money quiet_audits : arb_quiet.
Ltac quiet_go := repeat first
  [ progress auto with arb_quiet
  | apply quiet_bind; [|intros ?]
  | match goal with
    | |- quiet (match ?x with _ => _ end) => destruct x
    | |- quiet (let '(_, _) := ?x in _) => destruct x
    end ].

Lemma quiet_value k : quiet (case_value_of k).
Proof. unfold case_value_of. quiet_go. Qed.
Lemma quiet_covers k i : quiet (assert_arbitrator_covers_case p vault_covers k i).
Proof. unfold assert_arbitrator_covers_case. quiet_go. apply quiet_value. Qed.
Lemma quiet_binding c i : quiet (require_identity_binding p c i).
Proof. unfold require_identity_binding. quiet_go. Qed.
Lemma quiet_join_allowed c : quiet (require_pool_join_allowed p c).
Proof. unfold require_pool_join_allowed. quiet_go. Qed.
Lemma quiet_stake i x : quiet (assert_stake_acceptable p vault_covers i x).
Proof. unfold assert_stake_acceptable. quiet_go. Qed.
Lemma quiet_panel_size n : quiet (assert_panel_size_allowed (G := G) p n).
Proof. unfold assert_panel_size_allowed. quiet_go. Qed.
Lemma quiet_parties k : quiet (case_parties k).
Proof. unfold case_parties. quiet_go. Qed.
Lemma quiet_voucher t : quiet (mark_task_voucher_used t).
Proof. unfold mark_task_voucher_used. quiet_go. Qed.
Lemma quiet_settlement t : quiet (settlement_or_404 t).
Proof. unfold settlement_or_404. quiet_go. Qed.

(** A request started on committed tables [A0] ends, committed or rolled back, in
    tables the case machine reaches. *)
Definition at_start (A0 : Arb) (w : world) : Prop :=
  arb (a_working w) = A0 /\ arb (a_committed w) = A0.
Definition refines {A : Type} (A0 : Arb) (c : WM A) : Prop :=
  forall w, at_start A0 w ->
    match c w with
    | (Ok _, w') => rtc step A0 (arb (a_working w'))
    | (Err _, w') => rtc step A0 (arb (a_committed w'))
    end.

Lemma refines_bind {A B : Type} A0 (c : WM A) (k : A -> WM B) :
  quiet c -> (forall a, refines A0 (k a)) -> refines A0 (m_bind c k).
Proof.
  intros Hc Hk w Hw. specialize (Hc w). unfold exec in Hc. unfold m_bind. destruct (c w) as [r w1].
  destruct Hw as [H1 H2], Hc as [H3 H4]. cbn [snd] in *.
  assert (at_start A0 w1) by (split; [congruence|destruct H4; congruence]).
  destruct r as [a|e]; [by apply Hk|]. destruct H4 as [->| ->]; [rewrite H2|rewrite H1]; apply rtc_refl.
Qed.

Lemma refines_raise {A : Type} A0 e : refines (A := A) A0 (m_raise e).
Proof. intros w [_ H]. cbn. rewrite H. apply rtc_refl. Qed.
Lemma refines_ret {A : Type} A0 (a : A) : refines A0 (m_ret a).
Proof. intros w [H _]. cbn. rewrite H. apply rtc_refl. Qed.

(** The same, with what a success of the first statement says. *)
Lemma refines_bind_ok {A B : Type} A0 (c : WM A) (k : A -> WM B) :
  quiet c -> (forall a, (exists w w', c w = (Ok a, w')) -> refines A0 (k a)) -> refines A0 (m_bind c k).
Proof.
  intros Hc Hk w Hw. pose proof (refines_bind A0 c (fun a => match c w with (Ok _, _) => k a | _ => m_raise IntegrityError end)) as H.
  specialize (Hc w) as Hcw. unfold exec in Hcw. unfold m_bind. destruct (c w) as [[a|e] w1] eqn:E.
  - destruct Hw as [H1 H2], Hcw as [H3 H4]. cbn [snd] in *. apply Hk; [by exists w, w1|].
    split; [congruence|destruct H4; congruence].
  - specialize (H Hc (fun a => refines_raise A0 IntegrityError) w Hw). unfold m_bind in H. by rewrite E in H.
Qed.

Lemma refines_read {A B : Type} A0 (f : ATables (G := G) -> A) (k : A -> WM B) :
  (forall t, arb t = A0 -> refines A0 (k (f t))) -> refines A0 (m_bind (read f) k).
Proof. intros H w Hw. unfold m_bind, read, m_get. apply H; [apply Hw|done]. Qed.

(** [a_request] ends synchronized. *)
Lemma request_refines {A : Type} (c : WM A) w A0 : at_start A0 w -> refines A0 c ->
  exists A1, rtc step A0 A1 /\ at_start A1 (exec (a_request c) w).
Proof.
  intros Hw Hc. specialize (Hc w Hw). unfold exec, a_request, m_catch, m_bind, a_commit, a_rollback, m_put, m_ret, m_raise.
  destruct (c w) as [[a|e] w1]; eexists; (split; [exact Hc|]); by split.
Qed.

Lemma member_ids (f : PoolMember -> PoolMember) (l : list PoolMember) : (forall x, pm_id (f x) = pm_id x) ->
  pm_id <$> (f <$> l) = pm_id <$> l.
Proof. intros H. rewrite <- list_fmap_compose. apply list_fmap_ext. intros i x _. apply H. Qed.

Lemma set_member_ids m l : NoDup (pm_id <$> l) -> NoDup (pm_id <$> set_member m l).
Proof.
  intros H. unfold set_member. destruct (decide _) as [Hin|Hnin].
  - rewrite member_ids; [done|]. intros x. by destruct (decide _).
  - rewrite fmap_app. apply NoDup_app. split_and!; [done| |apply NoDup_singleton].
    intros x Hx ->%list_elem_of_singleton. done.
Qed.

Lemma join_refines A0 c now i x : arb_wf p py_sum A0 ->
  refines A0 (join_arbitration_pool p vault_covers c now i x).
Proof.
  intros Hwf. unfold join_arbitration_pool.
  apply refines_bind; [apply quiet_join_allowed|intros _]. apply refines_bind; [apply quiet_binding|intros _].
  apply refines_bind; [apply quiet_stake|intros _]. apply refines_read. intros t _ w [Hw _].
  cbn. subst A0. apply rtc_once, st_pool, set_member_ids, Hwf.
Qed.

Lemma deactivate_refines A0 i : arb_wf p py_sum A0 -> refines A0 (deactivate_member i).
Proof.
  intros Hwf w [Hw _]. unfold deactivate_member, put_working, m_put. cbv beta iota. subst A0.
  apply rtc_once, st_pool. cbn [a_working with_pool a_pool]. rewrite member_ids; [apply Hwf|]. intros x. by destruct (decide _).
Qed.

Lemma panel_size_ok n (w w' : world) u : assert_panel_size_allowed p n w = (Ok u, w') -> 1 <= n.
Proof.
  unfold assert_panel_size_allowed, panel_bounds. cbv zeta iota. destruct (Z.ltb_spec n (Z.max 1 (arbitration_min_arbitrators p))); [done|].
  intros _. lia.
Qed.

Lemma create_refines A0 c i now t o n :
  refines A0 (create_arbitration_case p c i now t o n).
Proof.
  unfold create_arbitration_case. apply refines_bind_ok; [apply quiet_panel_size|intros ? (w0 & w0' & Hn%panel_size_ok)].
  apply refines_bind; [apply quiet_store|intros st].
  destruct st as [s|]; [|apply refines_raise]. destruct (negb _ && _); [apply refines_raise|].
  apply refines_bind; [apply quiet_binding|intros _]. apply refines_read. intros t1 _.
  destruct (bool_decide _); [apply refines_raise|]. destruct (negb _); [apply refines_raise|].
  apply refines_bind; [destruct (decide _); [apply quiet_bind; [apply quiet_audits|intros _; apply quiet_store]|apply quiet_ret]|intros _].
  apply refines_read. intros t2 Ht2. destruct (bool_decide _) eqn:Hd; [apply refines_raise|].
  apply bool_decide_eq_false in Hd. intros w [Hw _]. cbn. apply rtc_once.
  assert (Hc : ar_cases A0 !! i = None) by (subst A0; by apply eq_None_not_Some).
  rewrite <- Hw. rewrite <- Hw in Hc. by apply (st_create p py_sum (arb (a_working w))).
Qed.

(** Candidates in order of joining are the active members. *)
Lemma insert_by_joined_perm m l : insert_by_joined m l ≡ₚ m :: l.
Proof.
  induction l as [|x l IH]; cbn; [done|]. destruct (_ <? _); [done|]. rewrite IH. by rewrite Permutation_swap.
Qed.

Lemma active_members_perm (t : ATables (G := G)) : active_members t ≡ₚ filter (fun m => pm_active m = true) (a_pool t).
Proof.
  unfold active_members. generalize (filter (fun m => pm_active m = true) (a_pool t)). intros l.
  enough (H : forall l acc, foldl (fun l m => insert_by_joined m l) acc l ≡ₚ acc ++ l) by apply (H l []).
  clear l. intros l. induction l as [|m l IH]; intros acc; cbn; [by rewrite app_nil_r|].
  rewrite IH, insert_by_joined_perm. cbn. by rewrite Permutation_middle.
Qed.

Lemma selected_nodup (t : ATables (G := G)) cf ex v n : NoDup (pm_id <$> a_pool t) ->
  NoDup (pm_id <$> take n (filter_qualified_members p cf ex v (active_members t))).
Proof.
  intros H. apply (sublist_NoDup _ (pm_id <$> active_members t)).
  - rewrite (active_members_perm t). apply (sublist_NoDup _ (pm_id <$> a_pool t)); [done|].
    apply fmap_sublist, sublist_filter.
  - apply fmap_sublist. etrans; [apply sublist_take|apply sublist_filter].
Qed.

Lemma selected_qualified (t : ATables (G := G)) cf ex v n m :
  m ∈ take n (filter_qualified_members p cf ex v (active_members t)) ->
  m ∈ a_pool t /\ pm_active m = true /\ qualified p cf ex v m = true.
Proof.
  intros H. eapply elem_of_subseteq in H; [|apply subseteq_take].
  apply list_elem_of_filter in H as [Hq H]. rewrite active_members_perm in H.
  apply list_elem_of_filter in H as [Ha H]. done.
Qed.

(** The case a request has read is the case of its tables. *)
Lemma refines_case {B : Type} A0 i (k : Case -> WM B) :
  (forall c, ar_cases A0 !! i = Some c -> refines A0 (k c)) -> refines A0 (m_bind (case_or_404 i) k).
Proof.
  intros H w Hw. unfold m_bind at 1, case_or_404. unfold m_bind at 1, read, m_get.
  assert (E : a_cases (a_working w) = ar_cases A0) by (by destruct Hw as [<- _]). rewrite E.
  destruct (ar_cases A0 !! i) as [c|] eqn:Hc; [by apply H|]. cbn. destruct Hw as [_ ->]. apply rtc_refl.
Qed.

Lemma assign_refines A0 i n : arb_wf p py_sum A0 -> refines A0 (assign_arbitrators p i n).
Proof.
  intros Hwf. unfold assign_arbitrators. apply refines_case. intros k Hk.
  destruct (mem _ _) eqn:Hm; [apply refines_raise|]. apply mem_false in Hm.
  apply refines_read. intros t1 Ht1. set (need := k_required k - _).
  destruct (Z.leb_spec need 0) as [|Hneed]; [apply refines_raise|].
  apply refines_bind; [apply quiet_parties|intros parties]. apply refines_read. intros t2 _.
  apply refines_read. intros t3 Ht3. apply refines_bind; [apply quiet_value|intros value].
  set (cf := conflicted_identity_ids parties t2).
  set (sel := take _ _). destruct (decide (sel = [])); [apply refines_raise|].
  intros w [Hw _]. unfold write_case, append_case_event, put_working, m_bind, m_put, m_ret. cbv beta iota.
  assert (Hpan : panel i t1 = ar_panel i A0) by (by rewrite <- Ht1).
  assert (Hpool : a_pool t3 = ar_pool A0) by (by rewrite <- Ht3).
  assert (E : (fun m : PoolMember => (i, pm_id m)) <$> sel = (fun x => (i, x)) <$> (pm_id <$> sel)).
  { by rewrite <- list_fmap_compose. }
  apply rtc_once. cbn [a_working]. rewrite E, <- Hw. rewrite <- Hw in Hk, Hpan, Hwf, Hpool.
  apply (st_assign p py_sum (arb (a_working w)) i k (pm_id <$> sel)); [done|split; set_solver| | |].
  - apply selected_nodup. rewrite Hpool. apply Hwf.
  - intros x (m & -> & Hin)%list_elem_of_fmap. apply selected_qualified in Hin as (_ & _ & Hq).
    unfold qualified in Hq. rewrite !andb_true_iff, !negb_true_iff in Hq. destruct Hq as ((((_ & Hq) & _) & _) & _).
    rewrite <- Hpan. by apply mem_false in Hq.
  - rewrite <- Hpan. rewrite length_fmap.
    pose proof (length_take_le (filter_qualified_members p cf (panel i t1) value (active_members t3)) (Z.to_nat (Z.min n need))).
    unfold sel. rewrite length_take. subst need. lia.
Qed.

Lemma vote_refines A0 c i a d q : refines A0 (cast_vote p py_sum vault_covers c i a d q).
Proof.
  unfold cast_vote. apply refines_case. intros k Hk. destruct (mem _ _) eqn:Hm; [apply refines_raise|]. apply mem_false in Hm.
  apply refines_bind; [apply quiet_binding|intros _]. apply refines_read. intros t1 Ht1.
  destruct (mem a _) eqn:Ha; cbn [negb]; [|apply refines_raise]. apply mem_true in Ha.
  apply refines_bind; [apply quiet_covers|intros _]. destruct (_ && _); [apply refines_raise|].
  destruct (_ && _); [apply refines_raise|]. apply refines_read. intros t2 Ht2.
  destruct (mem a (v_arbitrator <$> _)) eqn:Hd; [apply refines_raise|]. apply mem_false in Hd.
  set (v := {| v_case := i |}). intros w [Hw _].
  unfold write_case, append_case_event, put_working, read, m_bind, m_put, m_get, m_ret. cbv beta iota. cbn [a_working].
  assert (Hr : round_votes i (k_vote_round k) (with_event i VOTE_CAST (with_vote v (a_working w))) =
    ar_round i (k_vote_round k) (arb (a_working w)) ++ [v]).
  { unfold round_votes, ar_round. cbn [a_votes with_event with_vote arb ar_votes]. rewrite filter_app. f_equal.
    by rewrite filter_cons_True by done. }
  rewrite Hr. clear Hr.
  assert (Hd' : a ∉ v_arbitrator <$> ar_round i (k_vote_round k) (arb (a_working w))) by (rewrite Hw; by rewrite <- Ht2).
  assert (Ha' : a ∈ ar_panel i (arb (a_working w))) by (rewrite Hw; by rewrite <- Ht1).
  rewrite <- Hw in Hk |- *.
  pose proof (st_vote p py_sum (arb (a_working w)) i k v) as Hstep.
  unfold voted in Hstep. destruct (_ <=? _) eqn:Hle.
  - apply rtc_once. cbn [a_working].
    replace (arb (with_event _ _ _)) with {| ar_pool := ar_pool (arb (a_working w));
      ar_cases := <[i := decide_case py_sum (ar_round i (k_vote_round k) (arb (a_working w)) ++ [v]) k]> (ar_cases (arb (a_working w)));
      ar_assignments := ar_assignments (arb (a_working w)); ar_votes := ar_votes (arb (a_working w)) ++ [v];
      ar_events := ar_events (arb (a_working w)) ++ [(i, VOTE_CAST); (i, CASE_DECIDED)] |}.
    + apply Hstep; try done; [split; set_solver|]. by repeat constructor.
    + unfold arb. cbn. by rewrite <- app_assoc.
  - destruct (decide (k_status k = OPEN)) as [Ho|Ho]; apply rtc_once; cbn [a_working].
    + apply (Hstep [(i, VOTE_CAST)]); try done; [split; set_solver|]. by repeat constructor.
    + replace (arb (with_event _ _ _)) with {| ar_pool := ar_pool (arb (a_working w)); ar_cases := <[i := k]> (ar_cases (arb (a_working w)));
      ar_assignments := ar_assignments (arb (a_working w)); ar_votes := ar_votes (arb (a_working w)) ++ [v];
      ar_events := ar_events (arb (a_working w)) ++ [(i, VOTE_CAST)] |}.
      * apply Hstep; try done; [split; set_solver|]. by repeat constructor.
      * unfold arb. cbn. by rewrite insert_id.
Qed.

Abbreviation settle := (settle_from_decision p sql_sum fmt2 sync).

Lemma settle_refines A0 now ok actor route i k : ar_cases A0 !! i = Some k ->
  k_status k = DECIDED -> k_outcome k <> None -> refines A0 (settle now ok actor route i k).
Proof.
  intros Hk Hs Ho. unfold settle_from_decision. apply refines_bind; [apply quiet_store|intros st].
  destruct st as [s|]; [|apply refines_raise]. apply refines_bind; [quiet_go|intros from].
  apply refines_bind; [apply quiet_lift|intros [[[target settled] refunded] notes]].
  destruct (negb _); [apply refines_raise|]. apply refines_bind; [apply quiet_audits|intros _].
  apply refines_bind; [apply quiet_store|intros _]. apply refines_bind; [apply sync_quiet|intros _].
  apply refines_bind; [apply quiet_money|intros _]. apply refines_bind; [apply quiet_voucher|intros _].
  intros w [Hw _]. unfold write_case, append_case_event, put_working, m_bind, m_put, m_ret. cbv beta iota.
  apply rtc_once. rewrite <- Hw in Hk |- *. by apply (st_execute p py_sum (arb (a_working w)) i k now).
Qed.

Lemma decided_refines {B : Type} A0 i (k : Case -> WM B) :
  (forall c, ar_cases A0 !! i = Some c -> k_status c = DECIDED -> k_outcome c <> None -> refines A0 (k c)) ->
  refines A0 (m_bind (decided_case i) k).
Proof.
  intros H. unfold decided_case.
  assert (E : forall w, m_bind (m_bind (case_or_404 i) (fun k0 =>
    if decide (k_status k0 <> DECIDED) then m_raise (HTTPException 409 "arbitration case status must be decided")
    else if decide (k_outcome k0 = None) then m_raise (HTTPException 409 "arbitration decision is missing")
    else m_ret k0)) k w = m_bind (case_or_404 i) (fun k0 =>
    if decide (k_status k0 <> DECIDED) then m_raise (HTTPException 409 "arbitration case status must be decided")
    else if decide (k_outcome k0 = None) then m_raise (HTTPException 409 "arbitration decision is missing")
    else k k0) w).
  { intros w. unfold m_bind. destruct (case_or_404 i w) as [[c|e] w1]; [|done].
    by destruct (decide _); [|destruct (decide _)]. }
  intros w Hw. rewrite E. revert w Hw.
  apply (refines_case A0 i). intros c Hc. destruct (decide _) as [|Hs]; [apply refines_raise|].
  destruct (decide _) as [|Ho]; [apply refines_raise|]. apply H; [done|by apply dec_stable|done].
Qed.

Lemma execute_refines A0 now ok actor i :
  refines A0 (execute_arbitration_case p sql_sum fmt2 sync now ok actor i).
Proof.
  unfold execute_arbitration_case. apply decided_refines. intros k Hk Hs Ho.
  destruct (0 <? _); [|by apply settle_refines].
  destruct (decide (k_execute_after k = None)) as [Hx|Hx]; cycle 1.
  { apply refines_bind; [apply quiet_ret|intros _]. intros w Hw. pose proof (quiet_settlement (k_task_id k) w) as Hq.
    unfold exec in Hq. destruct (settlement_or_404 _ w) as [[s|e] w1]; cbn in Hq; destruct Hq as [Hq1 Hq2], Hw as [Hw1 Hw2].
    - rewrite Hq1, Hw1. apply rtc_refl.
    - destruct Hq2 as [->| ->]; [rewrite Hw2|rewrite Hw1]; apply rtc_refl. }
  intros w [Hw _]. unfold write_case, append_case_event, put_working, a_commit. unfold m_bind at 1 2 3, m_put. cbv beta iota.
  cbn [a_working a_committed a_monitor]. set (w1 := Build_AWorld _ _ _). pose proof (quiet_settlement (k_task_id k) w1) as Hq.
  assert (Hstep : step A0 (arb (a_working w1))).
  { rewrite <- Hw in Hk |- *. by apply (st_schedule p py_sum (arb (a_working w)) i k). }
  unfold exec in Hq. destruct (settlement_or_404 _ w1) as [[s|e] w2]; cbn [snd] in Hq; destruct Hq as [Hq1 Hq2].
  - rewrite Hq1. by apply rtc_once.
  - destruct Hq2 as [->| ->]; by apply rtc_once.
Qed.

Lemma due_refines A0 now ok actor i :
  refines A0 (execute_arbitration_case_due p sql_sum fmt2 sync now ok actor i).
Proof.
  unfold execute_arbitration_case_due. apply decided_refines. intros k Hk Hs Ho.
  destruct (match k_execute_after k with Some t => now <? t | None => false end);
    [apply refines_raise|by apply settle_refines].
Qed.

Lemma appeal_refines A0 c now i a : refines A0 (appeal_arbitration_case p no_payee_yet c now i a).
Proof.
  unfold appeal_arbitration_case. apply refines_case. intros k Hk.
  destruct (_ <=? 0); [apply refines_raise|]. destruct (decide _) as [|Hs]; [apply refines_raise|].
  destruct (k_execute_after k) as [t|]; [|apply refines_raise]. destruct (_ <=? now); [apply refines_raise|].
  destruct ((0 <? arbitration_max_appeals p) && _) eqn:Hmax; [apply refines_raise|].
  apply refines_bind; [apply quiet_store|intros st]. cbv zeta. destruct (negb (mem a _) && _); [apply refines_raise|].
  apply refines_bind; [apply quiet_binding|intros _]. apply refines_bind; [apply quiet_lift|intros _].
  intros w [Hw _]. unfold write_case, append_case_event, put_working, a_commit, m_bind, m_put, m_ret. cbv beta iota.
  apply rtc_once. rewrite <- Hw in Hk |- *. apply (st_appeal p py_sum (arb (a_working w)) i k); [done|by apply dec_stable|].
  intros Hpos. apply andb_false_iff in Hmax as [H|H]; [apply Z.ltb_ge in H; lia|by apply Z.leb_gt in H].
Qed.

(** The tick pays each case in its own transaction. *)
Lemma tick_case_refines A0 now ok bo lk i w : at_start A0 w ->
  exists A1, rtc step A0 A1 /\ at_start A1 (exec (tick_case p sql_sum fmt2 sync now ok bo lk i) w).
Proof.
  intros Hw. unfold tick_case. destruct (bo i || lk i); [exists A0; split; [apply rtc_refl|done]|].
  unfold exec. unfold m_bind at 1, read, m_get.
  assert (E : a_cases (a_working w) = ar_cases A0) by (by destruct Hw as [<- _]). rewrite E.
  destruct (ar_cases A0 !! i) as [k|] eqn:Hk; [|exists A0; split; [apply rtc_refl|done]].
  destruct (_ || _ || _) eqn:Hguard; [exists A0; split; [apply rtc_refl|done]|].
  rewrite !orb_false_iff, negb_false_iff in Hguard. destruct Hguard as ((Hs%bool_decide_eq_true & Ho%bool_decide_eq_false) & _).
  pose proof (settle_refines A0 now ok "arbitration-execute-due-autosettle"
    "/v1/arbitration/cases/execute-due (autosettle tick)" i k Hk Hs Ho w Hw) as Hr.
  unfold m_catch, m_bind, a_commit, a_rollback, m_put, m_ret.
  destruct (settle _ _ _ _ _ _ w) as [[s|e] w1]; eexists; (split; [exact Hr|]); by split.
Qed.

Lemma tick_refines now ok bo lk l : forall A0 w, at_start A0 w ->
  exists A1, rtc step A0 A1 /\ at_start A1 (exec (tick_cases p sql_sum fmt2 sync now ok bo lk l) w).
Proof.
  induction l as [|i l IH]; intros A0 w Hw; [exists A0; split; [apply rtc_refl|done]|].
  cbn [tick_cases]. destruct (tick_case_refines A0 now ok bo lk i w Hw) as (A1 & S1 & H1).
  unfold exec in *. unfold m_bind at 1. destruct (tick_case _ _ _ _ _ _ _ _ i w) as [[r|e] w1]; [|by exists A1].
  destruct (IH A1 w1 H1) as (A2 & S2 & H2). exists A2. split; [by etrans|].
  unfold m_bind, m_ret. destruct (tick_cases _ _ _ _ _ _ _ _ l w1) as [[rs|e] w2]; done.
Qed.
End Refinement.

(** ** Sequences of requests *)

Inductive arb_op :=
| OpJoin (c : CallerCtx) (now : Z) (i : string) (stake : float)
| OpDeactivate (i : string)
| OpCreate (c : CallerCtx) (new_id : string) (now : Z) (task opened_by : string) (required : Z)
| OpAssign (i : string) (count : Z)
| OpVote (c : CallerCtx) (i arbitrator : string) (d : VoteDecision) (percent : option float)
| OpExecute (now : Z) (db_ok : result string unit) (actor i : string)
| OpExecuteDue (now : Z) (db_ok : result string unit) (actor i : string)
| OpTick (now : Z) (db_ok : result string unit) (backing_off locked : string -> bool) (limit : nat)
| OpAppeal (c : CallerCtx) (now : Z) (i appellant : string).

Section Runs.
Context {G : Type} (p : ArbPolicy) (sql_sum py_sum : list float -> float) (fmt2 : float -> string)
        (sync : SettlementState -> TaskStatus -> M (AWorld (G := G)) Exc unit)
        (vault_covers : string -> float -> bool) (no_payee_yet : string -> result Exc unit).

Definition run_arb_op (o : arb_op) (w : AWorld (G := G)) : AWorld (G := G) :=
  match o with
  | OpJoin c now i x => exec (a_request (join_arbitration_pool p vault_covers c now i x)) w
  | OpDeactivate i => exec (a_request (deactivate_member i)) w
  | OpCreate c i now t o n => exec (a_request (create_arbitration_case p c i now t o n)) w
  | OpAssign i n => exec (a_request (assign_arbitrators p i n)) w
  | OpVote c i a d q => exec (a_request (cast_vote p py_sum vault_covers c i a d q)) w
  | OpExecute now ok actor i => exec (a_request (execute_arbitration_case p sql_sum fmt2 sync now ok actor i)) w
  | OpExecuteDue now ok actor i => exec (a_request (execute_arbitration_case_due p sql_sum fmt2 sync now ok actor i)) w
  | OpTick now ok bo lk n => exec (execute_due_arbitration_cases p sql_sum fmt2 sync now ok bo lk n) w
  | OpAppeal c now i a => exec (a_request (appeal_arbitration_case p no_payee_yet c now i a)) w
  end.
Definition run_arb_ops (os : list arb_op) (w : AWorld (G := G)) : AWorld (G := G) := fold_left (fun w o => run_arb_op o w) os w.

Lemma rtc_wf A A' : rtc (case_step p py_sum) A A' -> arb_wf p py_sum A ->
  arb_wf p py_sum A' /\ forall i k, ar_cases A !! i = Some k -> k_status k = EXECUTED -> ar_cases A' !! i = Some k.
Proof.
  induction 1 as [A|A A1 A2 H1 H2 IH]; intros Hwf; [done|]. destruct (IH (case_step_wf _ _ _ _ H1 Hwf)) as [Hwf2 Hk].
  split; [done|]. intros i k Hi Hs. apply Hk; [|done]. by eapply case_step_executed.
Qed.

Lemma run_op_refines o A0 w : (forall s t, quiet (sync s t)) -> at_start A0 w -> arb_wf p py_sum A0 ->
  exists A1, rtc (case_step p py_sum) A0 A1 /\ at_start A1 (run_arb_op o w).
Proof.
  intros Hq Hw Hwf. destruct o; cbn [run_arb_op]; try (apply request_refines; [done|]).
  - by eapply join_refines.
  - by eapply deactivate_refines.
  - by eapply create_refines.
  - by eapply assign_refines.
  - by eapply vote_refines.
  - by eapply execute_refines.
  - by eapply due_refines.
  - unfold execute_due_arbitration_cases, exec. unfold m_bind at 1, read, m_get. by eapply tick_refines.
  - by eapply appeal_refines.
Qed.
End Runs.

(** C13. Under any sequence of arbitration requests and ticks, with any failures and any
    behaviour of the chain that leaves these tables alone: a panel has distinct members, at
    most as many as the case requires; only panel members vote, once per round; a case is
    open while its round is incomplete and has no outcome and no payout date then; a
    decided or executed case has exactly the required votes and the outcome of their tally;
    appeals stay within the limit; a payout is recorded once, exactly for executed cases,
    and an executed case never changes again. *)
Theorem arbitration_invariant {G} p sql_sum py_sum fmt2
    (sync : SettlementState -> TaskStatus -> M (AWorld (G := G)) Exc unit) vault_covers no_payee_yet os w :
  (forall s t, quiet (sync s t)) ->
  arb (a_committed w) = arb (a_working w) -> arb_wf p py_sum (arb (a_working w)) ->
  let w' := run_arb_ops p sql_sum py_sum fmt2 sync vault_covers no_payee_yet os w in
  arb (a_committed w') = arb (a_working w') /\ arb_wf p py_sum (arb (a_working w')) /\
  forall i k, a_cases (a_working w) !! i = Some k -> k_status k = EXECUTED ->
    a_cases (a_working w') !! i = Some k.
Proof.
  intros Hq. revert w. induction os as [|o os IH]; intros w Hc Hwf; cbn; [done|].
  destruct (run_op_refines p sql_sum py_sum fmt2 sync vault_covers no_payee_yet o _ w Hq (conj eq_refl Hc) Hwf)
    as (A1 & S1 & H1 & H2).
  destruct (rtc_wf p py_sum _ _ S1 Hwf) as [Hwf1 Hex]. rewrite <- H1 in Hwf1, Hex.
  destruct (IH (run_arb_op p sql_sum py_sum fmt2 sync vault_covers no_payee_yet o w)) as (I1 & I2 & I3); [congruence|done|].
  split_and!; [done|done|]. intros i k Hi Hs. apply I3; [|done]. by apply Hex.
Qed.

(** ** The decision *)

Lemma votes_for_app d l l' : votes_for d (l ++ l') = votes_for d l ++ votes_for d l'.
Proof. apply filter_app. Qed.

(** Votes for a partial outcome never outweigh the others: when the round has more
    buyer than seller votes, or the reverse, adding any number of partial votes leaves the
    outcome as it is, so a single buyer vote beats a panel that otherwise asks for a
    partial settlement. *)
Theorem partial_votes_outvoted py_sum l partials :
  Forall (fun v => v_decision v = PARTIAL) partials ->
  length (votes_for BUYER_WINS l) <> length (votes_for SELLER_WINS l) ->
  tally py_sum (l ++ partials) = tally py_sum l /\ fst (tally py_sum l) <> PARTIAL.
Proof.
  intros Hp Hne.
  assert (Hnil : forall d, d <> PARTIAL -> votes_for d partials = []).
  { intros d Hd. apply filter_none. intros v Hv E. rewrite Forall_forall in Hp. specialize (Hp v Hv). congruence. }
  unfold tally. rewrite !votes_for_app, !Hnil, !app_nil_r by done.
  destruct (Nat.ltb_spec (length (votes_for SELLER_WINS l)) (length (votes_for BUYER_WINS l))); [done|].
  destruct (Nat.ltb_spec (length (votes_for BUYER_WINS l)) (length (votes_for SELLER_WINS l))); [done|lia].
Qed.

(** ** The payout *)

Lemma on_store_eq {G A : Type} (c : StoreM A) (w : AWorld (G := G)) r d :
  c (a_settle (a_working w)) = (r, d) ->
  fst (on_store c w) = r /\ a_settle (a_working (exec (on_store c) w)) = d.
Proof. intros H. unfold exec, on_store, zoom. by rewrite H. Qed.

Lemma get_same t db r db' : SettlementEngine.get t db = (r, db') -> db' = db.
Proof. intros E. by rewrite <- (get_reads t db), E.
Qed.

Lemma audits_settle {G A : Type} (c : M (Session (R := unit)) Exc A) (w : AWorld (G := G)) :
  a_settle (a_working (exec (on_audits c) w)) = a_settle (a_working w).
Proof. unfold exec, on_audits, zoom. by destruct (c _). Qed.

(** The ledger and the vouchers are not the settlements. *)
Lemma money_settle {G A : Type} (c : M (VWorld (G := G)) Exc A) (w w' : AWorld (G := G)) x :
  on_money c w = (x, w') -> a_settle (a_working w') = a_settle (a_working w).
Proof. unfold on_money, zoom. destruct (c _). by intros [= _ <-]. Qed.
Lemma used_settle {G : Type} t (w w' : AWorld (G := G)) x :
  mark_task_voucher_used t w = (Ok x, w') -> a_settle (a_working w') = a_settle (a_working w).
Proof.
  unfold mark_task_voucher_used. intros H. apply m_bind_ok in H as (rows & w1 & [= <- <-] & H).
  destruct (rows_of_task _ _) as [|r [|]]; [by injection H as _ <-|by apply money_settle in H|done].
Qed.

Definition decided_from (s : SettlementState) : TaskStatus :=
  if decide (ss_status s = DISPUTED) then ARBITRATED else ss_status s.

(** A payout that succeeds has read the settlement, computed the amounts of the decision,
    passed the status table and saved the decided state. *)
Lemma settle_ok {G : Type} p sql_sum fmt2 (sync : SettlementState -> TaskStatus -> M (AWorld (G := G)) Exc unit)
    now ok actor route i k w s' w' :
  settle_from_decision p sql_sum fmt2 sync now ok actor route i k w = (Ok s', w') ->
  exists s target settled refunded notes db',
    SettlementEngine.get (k_task_id k) (a_settle (a_working w)) = (Ok (Some s), a_settle (a_working w)) /\
    decision_amounts p fmt2 k (ss_escrow_amount s) = Ok (target, settled, refunded, notes) /\
    can_transition (decided_from s) target = true /\
    s' = state_decided target settled refunded notes now s /\
    save now s' (a_settle (a_working w)) = (Ok tt, db') /\
    exists w5 w6, a_settle (a_working w5) = db' /\ sync s' target w5 = (Ok tt, w6) /\
      a_settle (a_working w') = a_settle (a_working w6).
Proof.
  intros H. unfold settle_from_decision in H. apply m_bind_ok in H as (st & w1 & H1 & H).
  unfold on_store, zoom in H1. destruct (SettlementEngine.get _ _) as [r d] eqn:Eg. injection H1 as -> Hw1.
  pose proof (get_same _ _ _ _ Eg) as ->. destruct st as [s|]; [|done].
  apply m_bind_ok in H as (from & w2 & H2 & H).
  assert (Hfrom : from = decided_from s /\ a_settle (a_working w2) = a_settle (a_working w)).
  { unfold decided_from. rewrite <- Hw1 in H2. destruct (decide (ss_status s = DISPUTED)).
    - destruct (negb _); [done|]. apply m_bind_ok in H2 as (u & w3 & H3 & H2). unfold m_ret in H2. injection H2 as <- <-.
      split; [done|]. pose proof (audits_settle (record_audit (route_caller (Some route) (Some actor)) now s DISPUTED ARBITRATED true
        "arbitration_execute" "arbitration case accepted") w1) as Ha. rewrite <- Hw1 in Ha. unfold exec in Ha.
      rewrite H3 in Ha. exact Ha.
    - unfold m_ret in H2. by injection H2 as <- <-. }
  destruct Hfrom as [-> Hs2]. apply m_bind_ok in H as (am & w3 & H3 & H). unfold lift in H3. injection H3 as Ham <-.
  destruct am as [[[target settled] refunded] notes]. destruct (can_transition _ target) eqn:Hc; cbn [negb] in H; [|done].
  apply m_bind_ok in H as (u & w4 & H4 & H).
  assert (Hs4 : a_settle (a_working w4) = a_settle (a_working w)).
  { rewrite <- Hs2, <- (audits_settle (record_audit (route_caller (Some route) (Some actor)) now s ARBITRATED target true
      "arbitration_execute" notes) w2). unfold exec. by rewrite H4. }
  apply m_bind_ok in H as (u5 & w5 & H5 & H). unfold on_store, zoom in H5.
  destruct (save now _ _) as [r5 db'] eqn:Es. injection H5 as -> Hw5. rewrite Hs4 in Es. destruct u5.
  apply m_bind_ok in H as ([] & w6 & H6 & H). apply m_bind_ok in H as (u7 & w7 & H7 & H).
  apply m_bind_ok in H as (u8 & w8 & H8 & H). apply m_bind_ok in H as (u9 & w9 & H9 & H).
  apply m_bind_ok in H as (u10 & w10 & H10 & H). unfold m_ret in H. injection H as <- <-.
  exists s, target, settled, refunded, notes, db'. split_and!; [done|done|done|done|done|].
  exists w5, w6. split_and!; [by rewrite <- Hw5|done|].
  apply money_settle in H7. apply used_settle in H8. unfold write_case, append_case_event, put_working, m_put in H9, H10.
  injection H9 as _ <-. injection H10 as _ <-. cbn. congruence.
Qed.

(** What the chain call may do to the decided row: anything but to its status and amounts. *)
Definition keeps_decision {G : Type} (sync : SettlementState -> TaskStatus -> M (AWorld (G := G)) Exc unit) : Prop :=
  forall s target w w' i r, sync s target w = (Ok tt, w') -> settlements (a_settle (a_working w)) !! i = Some r ->
    exists r', settlements (a_settle (a_working w')) !! i = Some r' /\ sr_status r' = sr_status r /\
      sr_released_amount r' = sr_released_amount r /\ sr_refunded_amount r' = sr_refunded_amount r /\
      sr_escrow_amount r' = sr_escrow_amount r.

(** The row that is in the table when a payout is over. *)
Lemma payout_row {G : Type} (sync : SettlementState -> TaskStatus -> M (AWorld (G := G)) Exc unit) now s' target db db' w5 w6 :
  db_wf db -> keeps_decision sync -> save now s' db = (Ok tt, db') -> a_settle (a_working w5) = db' ->
  sync s' target w5 = (Ok tt, w6) ->
  exists r, settlements (a_settle (a_working w6)) !! ss_settlement_id s' = Some r /\
    sr_status r = TaskStatus_value (canonical_task_status (ss_status s')) /\ sr_released_amount r = ss_released_amount s' /\
    sr_refunded_amount r = ss_refunded_amount s' /\ sr_escrow_amount r = ss_escrow_amount s'.
Proof.
  intros Hwf Hk Hs H5 H6. pose proof (save_sound now s' db Hwf) as H. rewrite Hs in H. destruct H as (_ & r' & Hins & _ & Heq & _).
  assert (Hr : settlements (a_settle (a_working w5)) !! ss_settlement_id s' = Some r') by (by rewrite H5, Hins, lookup_insert_eq).
  destruct (Hk _ _ _ _ _ _ H6 Hr) as (r & Hr6 & E1 & E2 & E3 & E4). exists r. split; [done|]. rewrite E1, E2, E3, E4.
  unfold eq_but_updated, row_set_updated_at in Heq. destruct r'; cbn in *. injection Heq. intros. subst. by split_and!.
Qed.

(** C23. A payout that succeeds divides exactly the escrow, and what it divides is in the
    table: when it is over, the row of the settlement is settled or refunded, and in minor
    units its released and its refunded amount are what the outcome says and add up to its
    escrow (all to the buyer, all to the seller, or the voted percentage, half without one).
    The escrow is of at most 2^50 minor units of at most 15 decimals, and the chain call leaves
    the status and the amounts of the row it is called for. *)
Theorem payout_divides_escrow {G} p sql_sum fmt2
    (sync : SettlementState -> TaskStatus -> M (AWorld (G := G)) Exc unit) now ok actor route i k w s' w' em :
  settle_from_decision p sql_sum fmt2 sync now ok actor route i k w = (Ok s', w') ->
  db_wf (a_settle (a_working w)) -> keeps_decision sync ->
  to_minor_units (amount_decimals p) (ss_escrow_amount s') = Ok em -> in_range (amount_decimals p) em ->
  valid (default f50 (k_partial k)) = true ->
  exists r released refunded a,
    settlements (a_settle (a_working w')) !! ss_settlement_id s' = Some r /\
    to_minor_units (amount_decimals p) (sr_escrow_amount r) = Ok em /\
    sr_released_amount r = Some released /\ sr_refunded_amount r = Some refunded /\
    to_minor_units (amount_decimals p) released = Ok a /\
    to_minor_units (amount_decimals p) refunded = Ok (em - a) /\ 0 <= a <= em /\
    match k_outcome k with
    | Some BUYER_WINS => a = 0 /\ sr_status r = TaskStatus_value REFUNDED
    | Some SELLER_WINS => a = em /\ sr_status r = TaskStatus_value SETTLED
    | _ => settled_minor em (default f50 (k_partial k)) = Ok a /\ sr_status r = TaskStatus_value SETTLED
    end.
Proof.
  intros H Hwf Hk He Hr Hv. apply settle_ok in H as (s & target & settled & refunded & notes & db' & _ & Ham & _ & -> & Hs & w5 & w6 & H5 & H6 & H7).
  destruct (payout_row sync now _ _ _ _ _ _ Hwf Hk Hs H5 H6) as (r & Hrow & E1 & E2 & E3 & E4). rewrite <- H7 in Hrow.
  exists r, settled, refunded. rewrite E1, E2, E3, E4.
  cbn [ss_escrow_amount state_decided] in He. cbn [ss_released_amount ss_refunded_amount ss_status ss_escrow_amount state_decided].
  assert (H0 : to_minor_units (amount_decimals p) fzero = Ok 0) by (by apply (zero_minor _ em)).
  unfold decision_amounts in Ham. destruct Hr as [Hd Hem].
  destruct (k_outcome k) as [[]|].
  - destruct (normalize_ok _ _ _ He (conj Hd Hem)) as (x & Hx & Hx'). rewrite Hx in Ham. cbn in Ham. injection Ham as <- <- <- <-.
    exists 0. rewrite Z.sub_0_r. by split_and!; [..|lia|lia| |].
  - destruct (normalize_ok _ _ _ He (conj Hd Hem)) as (x & Hx & Hx'). rewrite Hx in Ham. cbn in Ham. injection Ham as <- <- <- <-.
    exists em. rewrite Z.sub_diag. by split_and!; [..|lia|lia| |].
  - destruct (split_ok _ _ (default f50 (k_partial k)) _ He (conj Hd Hem) Hv) as (sm & x & y & Hsm & Hb & Hsp & Hx & Hy).
    rewrite Hsp in Ham. cbn in Ham. injection Ham as <- <- <- <-. exists sm. by split_and!; [..|lia|lia| |].
  - destruct (split_ok _ _ (default f50 (k_partial k)) _ He (conj Hd Hem) Hv) as (sm & x & y & Hsm & Hb & Hsp & Hx & Hy).
    rewrite Hsp in Ham. cbn in Ham. injection Ham as <- <- <- <-. exists sm. by split_and!; [..|lia|lia| |].
Qed.

Lemma get_row t db s : db_wf db -> SettlementEngine.get t db = (Ok (Some s), db) ->
  exists r st, settlements db !! ss_settlement_id s = Some r /\
    canonical_of_value (sr_status r) = Ok st /\ ss_status s = st.
Proof.
  intros [Hrow _] H. unfold SettlementEngine.get, m_bind, m_get, m_ret, m_raise, lift in H.
  assert (Hin : forall x, x ∈ rows_of_task t db -> settlements db !! sr_settlement_id x = Some x).
  { intros x Hx. unfold rows_of_task in Hx. apply list_elem_of_fmap in Hx as ([k0 x'] & -> & Hx).
    apply elem_of_map_to_list, map_lookup_filter_Some in Hx as [Hx _]. destruct (Hrow _ _ Hx) as [E _]. cbn. by rewrite E. }
  destruct (rows_of_task t db) as [|x [|y l]]; [done| |done]. specialize (Hin x ltac:(left)).
  unfold from_row in H. destruct (canonical_of_value (sr_status x)) as [st|e] eqn:E; [|done]. cbn [rbind] in H.
  exists x, st. assert (s = state_of_row st x) as -> by (repeat case_match; by simplify_eq). done.
Qed.

(** A settlement that is back in dispute when its decision is paid out is never paid:
    the transition to arbitration is audited but not saved, so the store refuses the step
    from disputed to the decided status and the whole request fails. *)
Theorem disputed_settlement_never_paid {G} p sql_sum fmt2
    (sync : SettlementState -> TaskStatus -> M (AWorld (G := G)) Exc unit) now ok actor route i k w s db :
  db = a_settle (a_working w) -> db_wf db -> SettlementEngine.get (k_task_id k) db = (Ok (Some s), db) ->
  ss_status s = DISPUTED ->
  is_ok (outcome (settle_from_decision p sql_sum fmt2 sync now ok actor route i k) w) = false.
Proof.
  intros -> Hwf Hget Hs. destruct (outcome _ w) as [s'|e] eqn:E; [|done]. exfalso.
  destruct (settle_from_decision p sql_sum fmt2 sync now ok actor route i k w) as [r w'] eqn:Er.
  unfold outcome in E. rewrite Er in E. cbn in E. subst r.
  apply settle_ok in Er as (s0 & target & settled & refunded & notes & db' & Hg & Ham & Hc & -> & Hsave & _).
  rewrite Hget in Hg. injection Hg as <-. destruct (get_row _ _ _ Hwf Hget) as (row & st & Hrow & Hst & <-).
  assert (Ht : target = REFUNDED \/ target = SETTLED).
  { unfold decision_amounts in Ham. destruct (k_outcome k) as [[]|];
      match type of Ham with context [rbind ?c _] => destruct c end; cbn in Ham; simplify_eq; auto. }
  unfold save, m_bind, m_get, lift in Hsave. cbn [ss_settlement_id state_decided] in Hsave.
  rewrite Hrow, Hst, Hs in Hsave. cbn [ss_status state_decided] in Hsave.
  by destruct Ht as [-> | ->]; vm_compute in Hsave.
Qed.

(** The payout route for due cases has no gate for a case that was never scheduled:
    with the appeal window switched on, a decision can be paid the moment it falls, so the
    parties have no window to appeal in. *)
Theorem execute_due_skips_window {G} p sql_sum fmt2
    (sync : SettlementState -> TaskStatus -> M (AWorld (G := G)) Exc unit) now ok actor i k w :
  0 < appeal_window_seconds p -> a_cases (a_working w) !! i = Some k -> k_status k = DECIDED ->
  k_outcome k <> None -> k_execute_after k = None ->
  execute_arbitration_case_due p sql_sum fmt2 sync now ok actor i w =
    settle_from_decision p sql_sum fmt2 sync now ok actor "/v1/arbitration/cases/execute-due" i k w.
Proof.
  intros _ Hk Hs Ho Hx. unfold execute_arbitration_case_due, decided_case, case_or_404, read.
  unfold m_bind, m_get, m_ret, m_raise. rewrite Hk.
  destruct (decide (k_status k <> DECIDED)); [done|]. destruct (decide (k_outcome k = None)); [done|]. by rewrite Hx.
Qed.

(** Automatic assignment appoints at least one and at most the missing number of
    arbitrators, each of them an active pool member outside the recusal list of the parties,
    not on the panel yet, whose stake reaches the minimum and covers the value of the case. *)
Theorem assigned_are_qualified {G} p i count (w : AWorld (G := G)) l w' :
  assign_arbitrators p i count w = (Ok l, w') ->
  exists k parties value,
    a_cases (a_working w) !! i = Some k /\ open_case k /\
    outcome (case_parties k) w = Ok parties /\ outcome (case_value_of k) w = Ok value /\
    l <> [] /\ Z.of_nat (length l) <= k_required k - Z.of_nat (length (panel i (a_working w))) /\
    forall x, x ∈ l -> exists m, m ∈ a_pool (a_working w) /\ pm_id m = x /\ pm_active m = true /\
      (x ∉ conflicted_identity_ids parties (a_working w)) /\ (x ∉ panel i (a_working w)) /\
      (or_zero (Some (pm_stake m)) + ARB_EPSILON <? min_stake_amount p)%float = false /\
      stake_covers_case p (or_zero (Some (pm_stake m))) value = true.
Proof.
  intros H. unfold assign_arbitrators in H. apply m_bind_ok in H as (k & w0 & H0 & H).
  unfold case_or_404, read, m_bind, m_get, m_ret, m_raise in H0.
  destruct (a_cases (a_working w) !! i) as [k0|] eqn:Hk; [|done]. injection H0 as -> <-.
  destruct (mem _ _) eqn:Hm; [done|]. apply mem_false in Hm.
  apply m_bind_ok in H as (existing & w1 & H1 & H). unfold read, m_get in H1. injection H1 as <- <-.
  destruct (Z.leb_spec (k_required k - Z.of_nat (length (panel i (a_working w)))) 0) as [|Hneed]; [done|].
  apply m_bind_ok in H as (parties & w2 & H2 & H).
  assert (Hw2 : a_pool (a_working w2) = a_pool (a_working w) /\ a_subs (a_working w2) = a_subs (a_working w) /\
    a_profiles (a_working w2) = a_profiles (a_working w) /\ a_settle (a_working w2) = a_settle (a_working w)).
  { unfold case_parties, on_store, zoom, m_bind, m_ret in H2. destruct (SettlementEngine.get _ _) as [[st|e] d] eqn:Eg; [|done].
    apply get_same in Eg as ->. injection H2 as _ <-. done. }
  destruct Hw2 as (Hp2 & Hs2 & Hf2 & Hst2).
  do 2 (apply m_bind_ok in H as (? & ? & Hr & H); unfold read, m_get in Hr; injection Hr as <- <-).
  apply m_bind_ok in H as (value & w3 & H3 & H).
  destruct (decide _) as [|Hne]; [done|].
  do 3 (apply m_bind_ok in H as (? & ? & _ & H)). unfold m_ret in H. injection H as <- _.
  exists k, parties, value. split_and!; [done|split; set_solver|unfold outcome; by rewrite H2| | | |].
  - unfold outcome, case_value_of, on_store, zoom, m_bind, m_ret in H3 |- *.
    destruct (decide (k_task_id k = _)); [by injection H3 as <- _|]. rewrite Hst2 in H3.
    destruct (SettlementEngine.get _ _) as [[st|e] d]; [|done]. by injection H3 as <- _.
  - intros E. apply Hne. by destruct (take _ _).
  - rewrite length_fmap, length_take. lia.
  - intros z (m & -> & Hin)%list_elem_of_fmap. exists m. apply selected_qualified in Hin as (Hin & Ha & Hq).
    rewrite Hp2 in Hin. unfold qualified in Hq. rewrite !andb_true_iff, !negb_true_iff in Hq.
    destruct Hq as ((((Q1 & Q2) & Q3) & Q4) & Q5 & Q6). apply mem_false in Q2, Q3.
    split_and!; try done.
    + unfold conflicted_identity_ids in *. by rewrite Hs2, Hf2 in Q3.
    + destruct Q5 as [_ Q5]. done.
Qed.

(** ** Witnesses: one case from dispute to payout *)

Definition demo_arb_policy : ArbPolicy :=
  {| arbitration_require_actor_binding := true; arbitration_pool_open_join := true;
     arbitration_min_arbitrators := 3; arbitration_max_arbitrators := 9; arbitration_min_stake_amount := fzero;
     arbitration_require_backed_stake := false; arbitration_require_vault_bond := false;
     arbitration_stake_coverage_multiple := fzero; arbitration_appeal_window_seconds := 86400;
     arbitration_max_appeals := 3; amount_decimals := 6 |}.
Definition demo_caller : CallerCtx := {| actor_identity := None; privileged := true; listed_arbitrator := true |}.
Definition quiet_chain (_ : SettlementState) (_ : TaskStatus) : M (AWorld (G := unit)) Exc unit := m_ret tt.
Definition vault_empty (_ : string) (_ : float) : bool := false.
Definition no_payee (_ : string) : result Exc unit := Ok tt.

Definition demo_arb_tables : ATables (G := unit) :=
  {| a_pool := []; a_cases := ∅; a_assignments := []; a_votes := []; a_events := []; a_subs := []; a_profiles := [];
     a_settle := exec (save 1 (demo_state DISPUTED f100)) demo_db0; a_audits := [];
     a_money := {| ledger := demo_world (demo_row fzero f100 fzero f100 f100); vouchers := ∅; profile_owner := ∅;
                   v_events := []; outbox := []; graph := tt |} |}.
Definition demo_arb_world : AWorld (G := unit) :=
  {| a_committed := demo_arb_tables; a_working := demo_arb_tables; a_monitor := [] |}.
Definition demo_arb_ops : list arb_op :=
  [OpJoin demo_caller 1 "a1" f200; OpJoin demo_caller 2 "a2" f200; OpJoin demo_caller 3 "a3" f200;
   OpCreate demo_caller "c1" 4 "t1" "buyer" 3; OpAssign "c1" 3;
   OpVote demo_caller "c1" "a1" BUYER_WINS None; OpVote demo_caller "c1" "a2" PARTIAL (Some f90);
   OpVote demo_caller "c1" "a3" PARTIAL (Some f90)].
Abbreviation demo_run os := (run_arb_ops demo_arb_policy sum_left sum_left (fun _ => "") quiet_chain vault_empty no_payee os demo_arb_world).

Lemma quiet_chain_quiet s t : quiet (quiet_chain s t).
Proof. intros w. apply kept_refl. Qed.

Lemma demo_arb_wf : arb_wf demo_arb_policy sum_left (arb (a_working demo_arb_world)).
Proof. split; [apply NoDup_nil_2|apply map_Forall_empty|]. intros i _. split_and!; [done|intros v Hv; by apply elem_of_nil in Hv|done]. Qed.

Lemma arbitration_invariant_witness :
  arb_wf demo_arb_policy sum_left (arb (a_working (demo_run demo_arb_ops))) /\
  k_outcome <$> a_cases (a_working (demo_run demo_arb_ops)) !! "c1"%string = Some (Some BUYER_WINS).
Proof.
  split; [|by vm_compute].
  apply (arbitration_invariant demo_arb_policy sum_left sum_left (fun _ => ""%string) quiet_chain vault_empty no_payee
    demo_arb_ops demo_arb_world); [apply quiet_chain_quiet|reflexivity|apply demo_arb_wf].
Defined.

(** Nobody had time to appeal, and the one buyer vote takes the whole escrow. *)
Lemma execute_due_skips_window_witness :
  let w := demo_run demo_arb_ops in
  is_ok (outcome (execute_arbitration_case_due demo_arb_policy sum_left (fun _ => ""%string) quiet_chain 5 (Ok tt) "op" "c1") w) = true.
Proof.
  cbv zeta. set (w := demo_run demo_arb_ops).
  destruct (a_cases (a_working w) !! "c1"%string) as [k|] eqn:E; [|by vm_compute in E].
  unfold outcome. rewrite (execute_due_skips_window demo_arb_policy sum_left (fun _ => ""%string) quiet_chain 5 (Ok tt) "op" "c1" k w);
    [|done|exact E| | |]; vm_compute in E; injection E as <-; try done.
Defined.

Definition demo_decided (d : VoteDecision) : Case :=
  {| k_task_id := "t1"; k_opened_by := "buyer"; k_status := DECIDED; k_required := 3; k_outcome := Some d;
     k_partial := Some f90; k_execute_after := None; k_vote_round := 0; k_appeal_count := 0; k_executed_at := None |}.
Definition demo_ready : AWorld (G := unit) := demo_run (take 5 demo_arb_ops).

(** The same, with the settlement stored as arbitrated. *)
Definition demo_arbitrated : SettlementDB := exec (save 1 (demo_state ARBITRATED f100)) demo_db0.
Definition demo_payable : AWorld (G := unit) :=
  let t := a_working demo_ready in
  let t' := with_settle demo_arbitrated (a_audits t) (a_money t) t in
  {| a_committed := t'; a_working := t'; a_monitor := [] |}.
Lemma demo_payable_wf : db_wf (a_settle (a_working demo_payable)).
Proof. eapply save_step_wf; [apply demo_db0_wf|]. by exists 1, (demo_state ARBITRATED f100). Qed.

Lemma quiet_keeps : keeps_decision quiet_chain.
Proof. intros s target w w' i r H. injection H as <-. intros Hr. exists r. by split_and!. Qed.

Lemma payout_divides_escrow_witness :
  exists r released refunded,
    settlements (a_settle (a_working (exec (settle_from_decision demo_arb_policy sum_left (fun _ => ""%string) quiet_chain 9 (Ok tt) "op" "r" "c1"
      (demo_decided PARTIAL)) demo_payable))) !! "s1"%string = Some r /\
    sr_released_amount r = Some released /\ sr_refunded_amount r = Some refunded /\
    to_minor_units 6 released = Ok 90000000 /\ to_minor_units 6 refunded = Ok 10000000.
Proof.
  unfold exec.
  destruct (settle_from_decision demo_arb_policy sum_left (fun _ => ""%string) quiet_chain 9 (Ok tt) "op" "r" "c1"
    (demo_decided PARTIAL) demo_payable) as [r w'] eqn:E.
  assert (Hr : exists s', r = Ok s' /\ to_minor_units 6 (ss_escrow_amount s') = Ok 100000000 /\ ss_settlement_id s' = "s1"%string).
  { apply (f_equal fst) in E. cbn [fst] in E. subst r. eexists. split; [vm_compute; reflexivity|by vm_compute]. }
  destruct Hr as (s' & -> & He & Hi). revert E. generalize demo_payable_wf. generalize demo_payable. intros w Hwf E.
  destruct (payout_divides_escrow demo_arb_policy sum_left (fun _ => ""%string) quiet_chain 9 (Ok tt) "op" "r" "c1"
    (demo_decided PARTIAL) w s' w' 100000000 E Hwf quiet_keeps He) as (x & y & z & a & Hx & _ & Hy & Hz & Ha & Hb & _ & Hs & _);
    [split; cbn [amount_decimals demo_arb_policy]; lia|reflexivity|].
  exists x, y, z. cbn [snd]. rewrite <- Hi. assert (a = 90000000) as -> by (vm_compute in Hs; congruence). split_and!; try done.
Defined.

Lemma disputed_settlement_never_paid_witness :
  is_ok (outcome (settle_from_decision demo_arb_policy sum_left (fun _ => ""%string) quiet_chain 9 (Ok tt) "op" "r" "c1"
      (demo_decided BUYER_WINS)) demo_arb_world) = false.
Proof.
  set (db := a_settle (a_working demo_arb_world)).
  destruct (SettlementEngine.get "t1" db) as [r db'] eqn:E. pose proof (get_same _ _ _ _ E) as ->.
  assert (Hr : exists s, r = Ok (Some s) /\ ss_status s = DISPUTED).
  { apply (f_equal fst) in E. cbn [fst] in E. subst r. eexists. split; [vm_compute; reflexivity|done]. }
  destruct Hr as (s & -> & Hs).
  apply (disputed_settlement_never_paid demo_arb_policy sum_left (fun _ => ""%string) quiet_chain 9 (Ok tt) "op" "r" "c1"
    (demo_decided BUYER_WINS) demo_arb_world s db); [reflexivity| |exact E|exact Hs].
  eapply save_step_wf; [apply demo_db0_wf|]. by exists 1, (demo_state DISPUTED f100).
Defined.

Definition demo_vote (a : string) (d : VoteDecision) : Vote :=
  {| v_case := "c1"; v_round := 0; v_arbitrator := a; v_decision := d; v_partial := None |}.

Lemma partial_votes_outvoted_witness :
  fst (tally sum_left ([demo_vote "a1" BUYER_WINS] ++ [demo_vote "a2" PARTIAL; demo_vote "a3" PARTIAL])) = BUYER_WINS.
Proof.
  destruct (partial_votes_outvoted sum_left [demo_vote "a1" BUYER_WINS] [demo_vote "a2" PARTIAL; demo_vote "a3" PARTIAL])
    as [-> _]; [by repeat constructor|by vm_compute|by vm_compute].
Defined.

Lemma assigned_are_qualified_witness :
  exists l, outcome (assign_arbitrators demo_arb_policy "c1" 2) (demo_run (take 4 demo_arb_ops)) = Ok l /\
    forall x, x ∈ l -> exists m, m ∈ a_pool (a_working (demo_run (take 4 demo_arb_ops))) /\ pm_id m = x.
Proof.
  set (w := demo_run (take 4 demo_arb_ops)). destruct (assign_arbitrators demo_arb_policy "c1" 2 w) as [r w'] eqn:E.
  assert (Hr : exists l, r = Ok l).
  { destruct r as [l|e]; [by exists l|]. exfalso. assert (H : is_ok (outcome (assign_arbitrators demo_arb_policy "c1" 2) w) = true)
      by (by vm_compute). unfold outcome in H. by rewrite E in H. }
  destruct Hr as (l & ->). exists l. split; [unfold outcome; by rewrite E|].
  destruct (assigned_are_qualified demo_arb_policy "c1" 2 w l w' E) as (k & ps & v & _ & _ & _ & _ & _ & _ & H).
  intros x Hx. destruct (H x Hx) as (m & H1 & H2 & _). exists m. split; [exact H1|exact H2].
Defined.
