(* ===== verification/IdentityCheck.v ===== *)
(** * Proof of identity: submissions and face checks

    [services/identity_verification.py] and [services/face_activation.py] on the tables
    [identity_verifications] and [identity_face_templates].  Payloads are JSON values;
    lengths and case folding are those of ASCII text.  The clock is an argument, the
    settings are a [FacePolicy].  Parameters: [str()] and [int()] of values other than the
    obvious ones ([str_of], [int_of_text]), [float()] of text ([parse_float]), printing with
    four digits ([fmt4]) and recovery of a signer ([recover]). *)
From S2P Require Import Prelude PyText PyFloat PyJson Amounts SpendingGrant GrantApproval.
Open Scope Z_scope.

(** ** Python on JSON values *)

Definition py_len (s : string) : Z := Z.of_nat (String.length s).
Definition py_upper (s : string) : string :=
  String.string_of_list_ascii (py_upper_ascii <$> String.list_ascii_of_string s).

(** [bool(x)]. *)
Definition truthy (j : json) : bool :=
  match j with
  | JNull => false
  | JBool b => b
  | JInt n => negb (n =? 0)
  | JFloat x => negb (x =? fzero)%float
  | JStr s => negb (bool_decide (s = ""%string))
  | JList l => negb (bool_decide (l = []))
  | JObj d => negb (bool_decide (d = []))
  end.

Section Values.
Context (str_of : json -> string) (int_of_text : string -> option Z).

(** [str(x)]. *)
Definition py_str (j : json) : string := match j with JStr s => s | _ => str_of j end.
(** [str(x or "")]. *)
Definition text_or_empty (j : json) : string := if truthy j then py_str j else ""%string.

(** [int(x)]. *)
Definition py_int (j : json) : result Exc Z :=
  match j with
  | JInt n => Ok n
  | JBool b => Ok (if b then 1 else 0)
  | JFloat (S754_finite s m e) =>
      let r := if 0 <=? e then Zpos m * 2 ^ e else Zpos m / 2 ^ (- e) in
      Ok (if s then - r else r)
  | JFloat (S754_zero _) => Ok 0
  | JFloat S754_nan => Err (ValueError "cannot convert float NaN to integer")
  | JFloat (S754_infinity _) => Err OverflowError
  | JStr s => match int_of_text s with
              | Some n => Ok n
              | None => Err (ValueError "invalid literal for int()")
              end
  | _ => Err (TypeError "int() argument must be a string or a number")
  end.
End Values.

(** [list(x)]. *)
Definition py_list (j : json) : result Exc (list json) :=
  match j with
  | JList l => Ok l
  | JObj d => Ok (JStr <$> dict_keys d)
  | JStr s => Ok ((fun c => JStr (String c EmptyString)) <$> String.list_ascii_of_string s)
  | _ => Err (TypeError "object is not iterable")
  end.

(** [except (TypeError, ValueError)] turned into an HTTP error. *)
Definition or_http (code : Z) (msg : string) {A} (r : result Exc A) : result Exc A :=
  match r with
  | Err (TypeError _) | Err (ValueError _) => Err (HTTPException code msg)
  | _ => r
  end.

(** ** [services/identity_verification.py] *)

Definition VERIFY_TRANSITIONS (status : string) : list string :=
  if decide (status = "none")%string then ["pending"%string]
  else if decide (status = "pending")%string then ["verified"; "rejected"]%string
  else if decide (status = "rejected")%string then ["pending"%string]
  else [].

Definition VERIFY_LEVELS : list string := ["basic"; "full"]%string.
Definition MAX_PACKAGE_CHARS : Z := 8000000.
Definition MIN_PACKAGE_CHARS : Z := 64.
Definition B64_BLOB_MIN_CHARS : Z := 2048.

Definition FORBIDDEN_KEYS : list string :=
  ["image"; "images"; "photo"; "photos"; "selfie"; "face_image"; "face_photo";
   "id_front"; "id_back"; "front_image"; "back_image"; "document_image";
   "doc_image"; "raw"; "raw_image"; "data_url"; "base64"; "base64_image";
   "id_image"; "证件"; "照片"; "人脸照片"; "证件照"; "原图";
   "face_frames"; "face_frame"; "face_b64"; "doc_front_b64"; "doc_back_b64"]%string.

Definition EXTRACTED_FIELD_MAX : list (string * nat) :=
  [("full_name", 128); ("doc_type", 64); ("doc_number_mask", 64); ("valid_until", 32);
   ("issued_by", 128); ("nationality", 64); ("birth_year", 8); ("face_match_hint", 32);
   ("contact_email", 200); ("contact_phone", 40)]%nat%string.

Definition ENCRYPTION_ALGOS : list string := ["AES-GCM-256"; "AES-GCM-128"]%string.
Definition KEY_WRAP_MODES : list string := ["wallet-signature-v1"; "operator-passphrase-v1"]%string.
Definition MAX_KDF_ITERATIONS : Z := 5000000.

(** *** The plaintext gate *)

(** [_walk_keys]: the normalised keys at every depth. *)
Fixpoint walk_keys (j : json) : list string :=
  match j with
  | JObj d =>
      (fix go (d : list (string * json)) : list string :=
         match d with
         | [] => []
         | (k, v) :: d => lower_strip k :: walk_keys v ++ go d
         end) d
  | JList l =>
      (fix go (l : list json) : list string :=
         match l with [] => [] | x :: l => walk_keys x ++ go l end) l
  | _ => []
  end.

(** [_walk_pairs]: the items of the objects at every depth. *)
Fixpoint walk_pairs (j : json) : list (string * json) :=
  match j with
  | JObj d =>
      (fix go (d : list (string * json)) : list (string * json) :=
         match d with
         | [] => []
         | (k, v) :: d => (lower_strip k, v) :: walk_pairs v ++ go d
         end) d
  | JList l =>
      (fix go (l : list json) : list (string * json) :=
         match l with [] => [] | x :: l => walk_pairs x ++ go l end) l
  | _ => []
  end.

(** [_DATA_URL_RE]. *)
Definition is_data_url (s : string) : bool :=
  existsb (fun p => starts_with p (py_lower s)) ["data:image/"; "data:video/"; "data:application/"]%string.

Definition is_b64_char (c : Ascii.ascii) : bool :=
  let n := Ascii.nat_of_ascii c in
  ((65 <=? n) && (n <=? 90) || (97 <=? n) && (n <=? 122) || (48 <=? n) && (n <=? 57)
   || (n =? 43) || (n =? 47))%nat.
Fixpoint drop_b64 (s : string) : string :=
  match s with
  | EmptyString => EmptyString
  | String c s' => if is_b64_char c then drop_b64 s' else s
  end.
(** [_B64_BLOB_RE] and the length bound. *)
Definition is_b64_blob (s : string) : bool :=
  (B64_BLOB_MIN_CHARS <=? py_len s) &&
  match s with String c _ => is_b64_char c | EmptyString => false end &&
  mem (drop_b64 s) [""; "="; "=="]%string.

Definition pair_ok (kv : string * json) : bool :=
  if decide (fst kv = "package_cipher")%string then true
  else match snd kv with
       | JStr s => negb (is_data_url (py_strip s)) && negb (is_b64_blob (py_strip s))
       | _ => true
       end.

Definition assert_no_plaintext (payload : list (string * json)) : result Exc unit :=
  if existsb (fun k => mem k FORBIDDEN_KEYS) (walk_keys (JObj payload))
  then Err (HTTPException 400 "verification payload must not contain document/face plaintext")
  else if forallb pair_ok (walk_pairs (JObj payload)) then Ok tt
  else Err (HTTPException 400 "a field looks like an inline image or a raw base64 document").

(** *** Normalised fields of a submission *)

Definition is_lower_hex (c : Ascii.ascii) : bool :=
  let n := Ascii.nat_of_ascii c in ((48 <=? n) && (n <=? 57) || (97 <=? n) && (n <=? 102))%nat.
Definition is_digest (s : string) : bool :=
  (py_len s =? 64) && forallb is_lower_hex (String.list_ascii_of_string s).

Definition require_digest (value : option string) : result Exc string :=
  let text := lower_strip (default ""%string value) in
  if is_digest text then Ok text else Err (HTTPException 400 "must be a lowercase sha256 hex digest").

Section Submission.
Context (str_of : json -> string) (int_of_text : string -> option Z).

Definition extracted_field (extracted : list (string * json)) (f : string * nat) : list (string * json) :=
  match dict_get (fst f) extracted with
  | None | Some JNull => []
  | Some raw =>
      let text := py_strip (py_str str_of raw) in
      if decide (text = ""%string) then [] else [(fst f, JStr (take_chars (snd f) text))]
  end.

(** No field has a value longer than its limit, so the cut of [doc_type] changes nothing. *)
Definition sanitize_extracted (extracted : list (string * json)) : result Exc (list (string * json)) :=
  if decide (extracted = []) then Ok []
  else
    let out := mjoin (extracted_field extracted <$> EXTRACTED_FIELD_MAX) in
    match dict_get "consent"%string extracted with
    | Some (JBool true) => Ok (out ++ [("consent"%string, JBool true)])
    | _ => Err (HTTPException 400 "user consent is required to submit identity verification")
    end.

Definition sanitize_encryption (e : list (string * json)) : result Exc (list (string * json)) :=
  if decide (e = []) then Err (HTTPException 400 "encryption parameters are required")
  else
    let get k := obj_get k e in
    let algo := py_strip (text_or_empty str_of (get "algo"%string)) in
    if negb (mem algo ENCRYPTION_ALGOS) then Err (HTTPException 400 "unsupported encryption algo")
    else
      let kdf := py_upper (py_strip (text_or_empty str_of (get "kdf"%string))) in
      if negb (mem kdf ["PBKDF2-SHA256"; "PBKDF2-SHA512"]%string)
      then Err (HTTPException 400 "encryption.kdf must be PBKDF2-SHA256 or PBKDF2-SHA512")
      else
        let? iterations := or_http 400 "encryption.iterations must be an integer"
                             (if truthy (get "iterations"%string) then py_int int_of_text (get "iterations"%string)
                              else Ok 0) in
        if (iterations <? 100000) || (MAX_KDF_ITERATIONS <? iterations)
        then Err (HTTPException 400 "encryption.iterations is out of range")
        else
          let salt := py_strip (text_or_empty str_of (get "salt_b64"%string)) in
          let iv := py_strip (text_or_empty str_of (get "iv_b64"%string)) in
          if (py_len salt <? 16) || (py_len iv <? 12)
          then Err (HTTPException 400 "encryption.salt_b64 / iv_b64 are required")
          else
            let key_wrap := py_strip (text_or_empty str_of (get "key_wrap"%string)) in
            if negb (mem key_wrap KEY_WRAP_MODES) then Err (HTTPException 400 "unsupported encryption.key_wrap")
            else Ok [("algo", JStr algo); ("kdf", JStr kdf); ("iterations", JInt iterations);
                     ("salt_b64", JStr (take_chars 256 salt)); ("iv_b64", JStr (take_chars 256 iv));
                     ("key_wrap", JStr key_wrap)]%string.

Definition sanitize_package_cipher (cipher : option string) : result Exc string :=
  let text := py_strip (default ""%string cipher) in
  if py_len text <? MIN_PACKAGE_CHARS
  then Err (HTTPException 400 "package_cipher is too short to be a ciphertext package")
  else if MAX_PACKAGE_CHARS <? py_len text
  then Err (HTTPException 400 "package_cipher is too long")
  else if is_data_url text then Err (HTTPException 400 "package_cipher must be ciphertext, not a data URL")
  else Ok text.

(** What an owner submits; [s_raw] is the whole body, unknown fields included. *)
Record SubmitBody := {
  s_level : option string;
  s_doc_digest : option string;
  s_face_digest : option string;
  s_package_digest : option string;
  s_package_cipher : option string;
  s_encryption : list (string * json);
  s_extracted : list (string * json);
  s_raw : list (string * json)
}.
Record Submission := {
  sub_level : string;
  sub_doc_digest : string;
  sub_face_digest : string;
  sub_package_digest : string;
  sub_package_cipher : string;
  sub_encryption : list (string * json);
  sub_extracted : list (string * json)
}.

Definition build_submission (b : SubmitBody) : result Exc Submission :=
  let? _ := assert_no_plaintext (s_raw b) in
  let lvl := lower_strip (default "basic"%string (str_or (s_level b) None)) in
  if negb (mem lvl VERIFY_LEVELS) then Err (HTTPException 400 "level must be basic or full")
  else
    let? doc := require_digest (s_doc_digest b) in
    let? face := require_digest (s_face_digest b) in
    let? package := require_digest (s_package_digest b) in
    let? cipher := sanitize_package_cipher (s_package_cipher b) in
    let? enc := sanitize_encryption (s_encryption b) in
    let? extracted := sanitize_extracted (s_extracted b) in
    Ok {| sub_level := lvl; sub_doc_digest := doc; sub_face_digest := face;
          sub_package_digest := package; sub_package_cipher := cipher;
          sub_encryption := enc; sub_extracted := extracted |}.
End Submission.

Definition or_none (status : string) : string := or_str (py_strip (or_str status "none")) "none".

Definition assert_can_submit (status : string) : result Exc unit :=
  if mem "pending"%string (VERIFY_TRANSITIONS (or_none status)) then Ok tt
  else Err (HTTPException 409 "cannot submit verification from this status").

Definition assert_can_decide (status decision : string) : result Exc unit :=
  if mem decision (VERIFY_TRANSITIONS (or_none status)) then Ok tt
  else Err (HTTPException 409 "cannot move verification to this decision").

Definition build_bind_wallet_message (profile_id owner wallet : string) : string :=
  py_join newline ["Karma Sub-Identity Wallet Bind"; "profile_id:" +:+ profile_id;
                   "owner_identity_id:" +:+ owner; "wallet_address:" +:+ wallet]%string.

Definition BOOTSTRAP_REVIEWER_ID : string := "platform:bootstrap".

(** ** Rows *)

(** The session a provider works on, as the JSON column keeps it; times as microseconds. *)
Record ActiveSession := {
  as_name : string;
  as_session_id : string;
  as_provider_session_id : option string;
  as_mode : option string;
  as_created_at : Z;
  as_expires_at : Z;
  as_return_url : option string;
  as_status : option string;
  as_closed_at : option Z
}.
Record ProviderEvent := {
  pe_at : Z;
  pe_event : string;
  pe_applied : bool;
  pe_detail : list (string * json)
}.

Record VerificationRow := {
  vr_status : string;
  vr_level : string;
  vr_doc_digest : option string;
  vr_face_digest : option string;
  vr_package_digest : option string;
  vr_package_cipher : option string;
  vr_encryption : list (string * json);
  vr_extracted : list (string * json);
  vr_active : option ActiveSession;
  vr_events : list ProviderEvent;
  vr_reviewer : option string;
  vr_note : option string;
  vr_verified_at : option Z
}.

(** A new row: the defaults of the columns. *)
Definition new_verification : VerificationRow :=
  {| vr_status := "none"; vr_level := "basic"; vr_doc_digest := None; vr_face_digest := None;
     vr_package_digest := None; vr_package_cipher := None; vr_encryption := []; vr_extracted := [];
     vr_active := None; vr_events := []; vr_reviewer := None; vr_note := None; vr_verified_at := None |}.

Record Liveness := {
  lv_angles : Z;
  lv_frames : Z;
  lv_source : string;
  lv_challenges : list string;
  lv_motion : float
}.

Record FaceTemplate := {
  ft_cipher : string;
  ft_digest : string;
  ft_algorithm : option string;
  ft_encryption : list (string * json);
  ft_liveness : Liveness;
  ft_capture_digest : option string;
  ft_wallet : option string;
  ft_level : string
}.

Record IdTables := {
  verifications : gmap string VerificationRow;
  templates : gmap string FaceTemplate;
  wallets : Directory
}.
Abbreviation IdM := (M IdTables Exc).

Definition put_verification (i : string) (r : VerificationRow) : IdM unit :=
  m_put (fun t => {| verifications := <[i := r]> (verifications t); templates := templates t;
                     wallets := wallets t |}).
Definition put_template (i : string) (f : FaceTemplate) : IdM unit :=
  m_put (fun t => {| verifications := verifications t; templates := <[i := f]> (templates t);
                     wallets := wallets t |}).

(** The columns a submission writes. *)
Definition submitted (level : string) (doc : option string) (face package cipher : string)
    (enc extracted : list (string * json)) (r : VerificationRow) : VerificationRow :=
  {| vr_status := "pending"; vr_level := level; vr_doc_digest := doc; vr_face_digest := Some face;
     vr_package_digest := Some package; vr_package_cipher := Some cipher; vr_encryption := enc;
     vr_extracted := extracted; vr_active := vr_active r; vr_events := vr_events r;
     vr_reviewer := None; vr_note := None; vr_verified_at := None |}.

(** The columns a decision writes. *)
Definition decided (status : string) (reviewer : string) (note : option string) (at_ : option Z)
    (r : VerificationRow) : VerificationRow :=
  {| vr_status := status; vr_level := vr_level r; vr_doc_digest := vr_doc_digest r;
     vr_face_digest := vr_face_digest r; vr_package_digest := vr_package_digest r;
     vr_package_cipher := vr_package_cipher r; vr_encryption := vr_encryption r;
     vr_extracted := vr_extracted r; vr_active := vr_active r; vr_events := vr_events r;
     vr_reviewer := Some reviewer; vr_note := note; vr_verified_at := at_ |}.

(** [(note or "")[:2000] or None]. *)
Definition cut_note (note : option string) : option string :=
  str_or (Some (take_chars 2000 (default ""%string note))) None.

Definition mark_verified (now : Z) (reviewer : string) (note : option string) (r : VerificationRow) :
    VerificationRow := decided "verified" reviewer (cut_note note) (Some now) r.

Definition with_provider (active : option ActiveSession) (events : list ProviderEvent)
    (r : VerificationRow) : VerificationRow :=
  {| vr_status := vr_status r; vr_level := vr_level r; vr_doc_digest := vr_doc_digest r;
     vr_face_digest := vr_face_digest r; vr_package_digest := vr_package_digest r;
     vr_package_cipher := vr_package_cipher r; vr_encryption := vr_encryption r;
     vr_extracted := vr_extracted r; vr_active := active; vr_events := events;
     vr_reviewer := vr_reviewer r; vr_note := vr_note r; vr_verified_at := vr_verified_at r |}.

(** [record_event] of [services/identity_provider/service.py]: empty details are dropped,
    the newest [MAX_EVENTS] events stay. *)
Definition MAX_EVENTS : nat := 20.
Definition last_n {A} (n : nat) (l : list A) : list A := drop (length l - n) l.
Definition empty_detail (j : json) : bool :=
  match j with JNull => true | JStr s => bool_decide (s = ""%string) | JList l => bool_decide (l = [])
             | JObj d => bool_decide (d = []) | _ => false end.
Definition record_provider_event (now : Z) (event : string) (applied : bool)
    (detail : list (string * json)) (r : VerificationRow) : VerificationRow :=
  with_provider (vr_active r)
    (last_n MAX_EVENTS (vr_events r ++
       [{| pe_at := now; pe_event := event; pe_applied := applied;
           pe_detail := filter (fun kv => empty_detail (snd kv) = false) detail |}])) r.

(** The bootstrap approval of an operator's script. *)
Definition assert_can_bootstrap_approve (row : option VerificationRow) (reason : string) : result Exc unit :=
  match row with
  | None => Err (HTTPException 404 "this identity has never submitted a verification")
  | Some r =>
      if decide (py_strip reason = ""%string)
      then Err (HTTPException 400 "a bootstrap approval must carry an explicit reason")
      else if decide (vr_status r = "verified"%string)
      then Err (HTTPException 409 "this verification is already approved")
      else if decide (vr_status r <> "pending"%string)
      then Err (HTTPException 409 "cannot approve a verification in this status")
      else if decide (py_strip (default ""%string (vr_doc_digest r)) = ""%string
                      \/ py_strip (default ""%string (vr_face_digest r)) = ""%string)
      then Err (HTTPException 409 "the submission is missing the document digest or the face digest")
      else Ok tt
  end.
Definition assert_bootstrap_target_allowed (allowed : list string) (identity_id : string) : result Exc unit :=
  if mem (py_strip identity_id) allowed then Ok tt
  else Err (HTTPException 403 "bootstrap approval is limited to platform-owned identities").

(** ** [services/face_activation.py] *)

Definition FACE_REVIEWER : string := "platform:face-liveness:v1".
Definition CONSISTENCY_REVIEWER : string := "platform:face-consistency:v1".
Definition TEMPLATE_ALGOS : list string := ["KFC-GRAY32-NCC-v1"%string].
Definition LIVENESS_SOURCES : list string := ["camera"; "photo"]%string.
Definition MAX_TEMPLATE_CHARS : Z := 2000000.
Definition MIN_TEMPLATE_CHARS : Z := 64.
Definition MAX_ANGLES : Z := 12.
Definition MAX_FRAMES : Z := 64.

Record FacePolicy := {
  face_activation_enabled : bool;
  face_activation_min_angles : Z;
  face_consistency_min_score : float
}.

Definition build_face_activation_message (identity_id wallet capture template : string) : string :=
  py_join newline ["Karma Face Activation v1"; "identity_id:" +:+ identity_id;
    "wallet_address:" +:+ wallet; "capture_digest:" +:+ capture; "template_digest:" +:+ template]%string.

Section Face.
Context (p : FacePolicy) (str_of : json -> string) (int_of_text : string -> option Z)
        (parse_float : string -> option float) (fmt4 : float -> string)
        (recover : string -> string -> option string).

Definition score_value (score : option float) : float := default fzero score.

Definition build_face_consistency_message (owner profile_id class_ wallet reference capture : string)
    (score : option float) : string :=
  py_join newline ["Karma Face Consistency v1"; "owner_identity_id:" +:+ owner;
    "profile_id:" +:+ profile_id; "class:" +:+ class_; "wallet_address:" +:+ wallet;
    "reference_digest:" +:+ reference; "capture_digest:" +:+ capture;
    "score:" +:+ fmt4 (score_value score)]%string.

Definition clean_challenges (l : list json) : list string :=
  filter (fun s => s <> ""%string)
    ((fun j => take_chars 32 (py_strip (text_or_empty str_of j))) <$> take (Z.to_nat MAX_ANGLES) l).

Definition sanitize_liveness (raw : option json) : result Exc Liveness :=
  match raw with
  | Some (JObj d) =>
      let? angles := or_http 400 "liveness.angles must be an integer"
                       (py_int int_of_text (obj_get "angles" d)) in
      if (angles <? 0) || (MAX_ANGLES <? angles) then Err (HTTPException 400 "liveness.angles is out of range")
      else
        let? frames := or_http 400 "liveness.frames must be an integer"
                         (py_int int_of_text (default (JInt 0) (dict_get "frames"%string d))) in
        let frames := Z.max 0 (Z.min frames MAX_FRAMES) in
        let source := lower_strip (text_or_empty str_of (obj_get "source" d)) in
        if negb (mem source LIVENESS_SOURCES) then Err (HTTPException 400 "liveness.source is unknown")
        else
          let ch := obj_get "challenges" d in
          let? challenges := if truthy ch then py_list ch else Ok [] in
          let mo := obj_get "motion" d in
          let? motion := if truthy mo then py_float parse_float mo else Ok fzero in
          Ok {| lv_angles := angles; lv_frames := frames; lv_source := source;
                lv_challenges := clean_challenges challenges; lv_motion := py_round_to 6 motion |}
  | _ => Err (HTTPException 400 "liveness evidence is required")
  end.

Definition min_angles : Z :=
  Z.max 1 (if decide (face_activation_min_angles p = 0) then 3 else face_activation_min_angles p).

Definition assert_liveness_minimum (l : Liveness) : result Exc unit :=
  if decide (lv_source l <> "camera"%string)
  then Err (HTTPException 422 "face activation needs a live camera capture")
  else if lv_angles l <? min_angles
  then Err (HTTPException 422 "face activation needs more captured angles")
  else Ok tt.

Definition sanitize_template_cipher (cipher : string) : result Exc string :=
  let text := py_strip cipher in
  if py_len text <? MIN_TEMPLATE_CHARS
  then Err (HTTPException 400 "template_cipher is too short to be an encrypted face template")
  else if MAX_TEMPLATE_CHARS <? py_len text then Err (HTTPException 400 "template_cipher is too long")
  else if starts_with "data:" (py_lower text)
  then Err (HTTPException 400 "template_cipher must be ciphertext, not a data URL")
  else Ok text.

Definition sanitize_algorithm (value : string) : result Exc string :=
  let text := py_strip value in
  if mem text TEMPLATE_ALGOS then Ok text else Err (HTTPException 400 "unknown template algorithm").

Definition assert_wallet_signature (message wallet_address sig : string) (bound : option string) :
    result Exc string :=
  let wallet := py_strip wallet_address in
  if negb (starts_with "0x" wallet) || (py_len wallet <? 10)
  then Err (HTTPException 400 "invalid wallet_address")
  else if match bound with
          | Some b => negb (bool_decide (b = ""%string)) && negb (bool_decide (lower_strip b = py_lower wallet))
          | None => false
          end
  then Err (HTTPException 403 "the signing wallet is not the wallet bound to this identity")
  else match verify_personal_message recover message wallet sig with
       | Ok _ => Ok (py_lower wallet)
       | Err _ => Err (HTTPException 401 "wallet signature check failed")
       end.

Record FaceBody := {
  fb_wallet_address : string;
  fb_wallet_signature : string;
  fb_capture_digest : option string;
  fb_template_cipher : string;
  fb_template_digest : option string;
  fb_algorithm : string;
  fb_encryption : list (string * json);
  fb_liveness : option json
}.

Definition activate_by_face (now : Z) (identity_id : string) (b : FaceBody) : IdM VerificationRow :=
  if negb (face_activation_enabled p)
  then m_raise (HTTPException 409 "face activation is switched off on this node")
  else
    do! capture := lift (require_digest (fb_capture_digest b)) in
    do! digest := lift (require_digest (fb_template_digest b)) in
    do! cipher := lift (sanitize_template_cipher (fb_template_cipher b)) in
    do! algo := lift (sanitize_algorithm (fb_algorithm b)) in
    do! evidence := lift (sanitize_liveness (fb_liveness b)) in
    seq! lift (assert_liveness_minimum evidence) in
    do! bound := m_get (fun t => get_bound_wallet (wallets t) identity_id) in
    do! wallet := lift (assert_wallet_signature
        (build_face_activation_message identity_id (fb_wallet_address b) capture digest)
        (fb_wallet_address b) (fb_wallet_signature b) bound) in
    do! enc := lift (sanitize_encryption str_of int_of_text (fb_encryption b)) in
    do! extracted := lift (sanitize_extracted str_of
        [("consent", JBool true);
         ("face_match_hint", JStr ("live-camera-" +:+ str_of (JInt (lv_angles evidence)) +:+ "angles"))]%string) in
    do! row := m_get (fun t => verifications t !! identity_id) in
    seq! lift (assert_can_submit (match row with Some r => vr_status r | None => "none"%string end)) in
    let row := default new_verification row in
    let row := submitted (vr_level row) None capture digest cipher enc extracted row in
    let row := mark_verified now FACE_REVIEWER
                 (Some ("刷脸即激活：活体 + " +:+ str_of (JInt (lv_angles evidence)) +:+ " 个角度采集，模板摘要 "
                        +:+ take_chars 12 digest +:+ "…（证件未提交；需要更高等级时再补）")%string) row in
    let row := record_provider_event now "face_activation" true
                 [("mode", JStr "face_liveness"); ("angles", JInt (lv_angles evidence));
                  ("frames", JInt (lv_frames evidence)); ("algorithm", JStr algo)]%string row in
    seq! put_verification identity_id row in
    seq! put_template identity_id
           {| ft_cipher := cipher; ft_digest := digest; ft_algorithm := Some algo; ft_encryption := enc;
              ft_liveness := evidence; ft_capture_digest := Some capture; ft_wallet := Some wallet;
              ft_level := "face_liveness" |} in
    m_ret row.

(** What an owner sends to show that the same person is present. *)
Record SamePersonBody := {
  sp_wallet_address : string;
  sp_wallet_signature : string;
  sp_reference_digest : option string;
  sp_capture_digest : option string;
  sp_score : option float;
  sp_liveness : option json;
  sp_encryption : list (string * json);
  sp_template_cipher : option string
}.
Record Verdict := {
  ve_score : float;
  ve_threshold : float;
  ve_wallet : string;
  ve_reference : string;
  ve_capture : string;
  ve_liveness : Liveness;
  ve_reference_source : string
}.

(** The face on file: its digest and the capture that must not be replayed. *)
Definition face_on_file (owner : string) (t : IdTables) : result Exc (string * string * string) :=
  match templates t !! owner with
  | Some f => Ok ("face_template"%string, py_lower (ft_digest f), py_lower (default ""%string (ft_capture_digest f)))
  | None =>
      match verifications t !! owner with
      | Some r =>
          match str_or (vr_face_digest r) None with
          | Some d => if decide (vr_status r = "verified"%string)
                      then Ok ("identity_verification"%string, py_lower d, ""%string)
                      else Err (HTTPException 409 "this identity has no face on file yet")
          | None => Err (HTTPException 409 "this identity has no face on file yet")
          end
      | None => Err (HTTPException 409 "this identity has no face on file yet")
      end
  end.

Definition assert_same_person (owner profile_id class_ : string) (b : SamePersonBody) : IdM Verdict :=
  do! file := m_get (face_on_file owner) in
  do! file := lift file in
  let '(source, on_file, replay) := file in
  do! reference := lift (require_digest (sp_reference_digest b)) in
  if decide (reference <> on_file)
  then m_raise (HTTPException 409 "the reference face does not match the one on file for this identity")
  else
    do! capture := lift (require_digest (sp_capture_digest b)) in
    if negb (bool_decide (replay = ""%string)) && bool_decide (capture = replay)
    then m_raise (HTTPException 409 "this capture is a replay of the enrollment capture")
    else
      do! evidence := lift (sanitize_liveness (sp_liveness b)) in
      seq! lift (assert_liveness_minimum evidence) in
      do! enc := lift (sanitize_encryption str_of int_of_text (sp_encryption b)) in
      do! cipher := match str_or (sp_template_cipher b) None with
                    | Some c => do! c := lift (sanitize_template_cipher c) in m_ret (Some c)
                    | None => m_ret None
                    end in
      do! bound := m_get (fun t => get_bound_wallet (wallets t) owner) in
      do! wallet := lift (assert_wallet_signature
          (build_face_consistency_message owner profile_id class_ (sp_wallet_address b) reference capture (sp_score b))
          (sp_wallet_address b) (sp_wallet_signature b) bound) in
      let value := score_value (sp_score b) in
      let threshold := or_zero (Some (face_consistency_min_score p)) in
      if (value <? threshold)%float
      then m_raise (HTTPException 422 "the fresh face does not match the enrolled template")
      else
        seq! match cipher with
             | None => m_ret tt
             | Some c =>
                 do! f := m_get (fun t => templates t !! owner) in
                 match f with
                 | None => m_raise (AttributeError "'NoneType' object has no attribute 'template_cipher'")
                 | Some f =>
                     put_template owner
                       {| ft_cipher := c; ft_digest := ft_digest f; ft_algorithm := ft_algorithm f;
                          ft_encryption := enc; ft_liveness := evidence; ft_capture_digest := Some capture;
                          ft_wallet := Some wallet; ft_level := ft_level f |}
                 end
             end in
        m_ret {| ve_score := value; ve_threshold := threshold; ve_wallet := wallet;
                 ve_reference := reference; ve_capture := capture; ve_liveness := evidence;
                 ve_reference_source := source |}.
End Face.

(** ** The plaintext gate *)

(** [inside j k v]: somewhere in [j] an object has the value [v] under the key [k]. *)
Inductive inside : json -> string -> json -> Prop :=
| inside_here d k v : (k, v) ∈ d -> inside (JObj d) (lower_strip k) v
| inside_object d k v k' v' : (k, v) ∈ d -> inside v k' v' -> inside (JObj d) k' v'
| inside_list l x k' v' : x ∈ l -> inside x k' v' -> inside (JList l) k' v'.

Lemma inside_obj_cons k v d k' v' :
  inside (JObj ((k, v) :: d)) k' v' <->
  (k', v') = (lower_strip k, v) \/ inside v k' v' \/ inside (JObj d) k' v'.
Proof.
  split.
  - inversion 1 as [? ? ? Hin|? ? ? ? ? Hin Hi|]; subst; apply elem_of_cons in Hin as [[= -> ->]|Hin]; auto;
      right; right; [by apply inside_here|by eapply inside_object].
  - intros [[= -> ->]|[Hi|Hi]]; [apply inside_here; left|by eapply inside_object; [left|]|].
    inversion Hi; subst; [apply inside_here; by right|by eapply inside_object; [right|]].
Qed.

Lemma inside_list_cons x l k v : inside (JList (x :: l)) k v <-> inside x k v \/ inside (JList l) k v.
Proof.
  split.
  - inversion 1 as [| |? ? ? ? Hin Hi]; subst. apply elem_of_cons in Hin as [->|Hin]; [by left|right].
    by eapply inside_list.
  - intros [Hi|Hi]; [by eapply inside_list; [left|]|].
    inversion Hi; subst. by eapply inside_list; [right|].
Qed.

Lemma walk_pairs_spec j k v : (k, v) ∈ walk_pairs j <-> inside j k v.
Proof.
  revert k v. induction j as [| | | | |l IH|d IH] using json_induction; intros k v;
    try (split; [by intros []%elem_of_nil|inversion 1]).
  - induction IH as [|x l Hx Hl IHl]; simpl; [split; [by intros []%elem_of_nil|inversion 1; set_solver]|].
    rewrite elem_of_app, Hx, inside_list_cons. by rewrite <- IHl.
  - induction IH as [|[k0 v0] d Hx Hd IHd]; simpl; [split; [by intros []%elem_of_nil|inversion 1; set_solver]|].
    rewrite elem_of_cons, elem_of_app, Hx, inside_obj_cons. by rewrite <- IHd.
Qed.

Lemma walk_keys_pairs j : walk_keys j = fst <$> walk_pairs j.
Proof.
  induction j as [| | | | |l IH|d IH] using json_induction; try done; simpl.
  - induction IH as [|x l Hx Hl IHl]; [done|]. by rewrite Hx, IHl, fmap_app.
  - induction IH as [|[k v] d Hx Hd IHd]; [done|]. simpl in Hx. rewrite fmap_cons, fmap_app, Hx, IHd. done.
Qed.

(** What the gate lets through under a key. *)
Definition clean_value (k : string) (v : json) : Prop :=
  (k ∉ FORBIDDEN_KEYS) /\
  (k <> "package_cipher"%string -> forall s, v = JStr s ->
     is_data_url (py_strip s) = false /\ is_b64_blob (py_strip s) = false).

Lemma pair_ok_iff k v : pair_ok (k, v) = true <->
  (k <> "package_cipher"%string -> forall s, v = JStr s ->
     is_data_url (py_strip s) = false /\ is_b64_blob (py_strip s) = false).
Proof.
  unfold pair_ok. cbn [fst snd]. case_decide; [naive_solver|].
  destruct v; try naive_solver. rewrite andb_true_iff, !negb_true_iff. naive_solver.
Qed.

(** A payload passes the plaintext gate exactly when, at every depth, no object has a
    forbidden key and no text stored under a key is a data URL or a raw base64 document;
    the ciphertext package is the one exception.  Everything else is answered with 400. *)
Theorem plaintext_gate_spec payload :
  (assert_no_plaintext payload = Ok tt <-> forall k v, inside (JObj payload) k v -> clean_value k v) /\
  (assert_no_plaintext payload <> Ok tt -> exists msg, assert_no_plaintext payload = Err (HTTPException 400 msg)).
Proof.
  unfold assert_no_plaintext. rewrite walk_keys_pairs.
  destruct (existsb _ _) eqn:Hk; [|destruct (forallb _ _) eqn:Hp]; (split; [split|]); try done; try (intros _; eauto; fail).
  - intros H. apply existsb_exists in Hk as (k & Hin & Hk). apply mem_true in Hk.
    apply list_elem_of_In, list_elem_of_fmap in Hin as ([k' v] & -> & Hin). apply walk_pairs_spec in Hin.
    by destruct (H _ _ Hin).
  - intros _ k v Hi. apply walk_pairs_spec in Hi. split.
    + intros Hbad. assert (existsb (fun k => mem k FORBIDDEN_KEYS) (fst <$> walk_pairs (JObj payload)) = true); [|congruence].
      apply existsb_exists. exists k. split; [|by apply mem_true]. apply list_elem_of_In, list_elem_of_fmap. by exists (k, v).
    + rewrite forallb_forall in Hp. apply pair_ok_iff, Hp. by apply list_elem_of_In.
  - intros H. apply forallb_false in Hp as ([k v] & Hin & Hp). apply walk_pairs_spec in Hin.
    destruct (H _ _ Hin) as [_ Hc]. apply pair_ok_iff in Hc. congruence.
Qed.

(** Texts that stand in a list are not looked at: under any key that is not forbidden
    a payload may carry any number of inline images or raw documents as list items. *)
Theorem listed_plaintext_accepted k texts :
  (lower_strip k ∉ FORBIDDEN_KEYS) -> assert_no_plaintext [(k, JList (JStr <$> texts))] = Ok tt.
Proof.
  intros Hk. unfold assert_no_plaintext. cbn [walk_keys walk_pairs].
  assert (H1 : forall l, (fix go (l : list json) : list string :=
    match l with [] => [] | x :: l => walk_keys x ++ go l end) (JStr <$> l) = []) by (by induction l).
  assert (H2 : forall l, (fix go (l : list json) : list (string * json) :=
    match l with [] => [] | x :: l => walk_pairs x ++ go l end) (JStr <$> l) = []) by (by induction l).
  rewrite H1, H2. cbn. rewrite (proj2 (mem_false _ _) Hk). cbn. unfold pair_ok. cbn. by case_decide.
Qed.

(** ** Submissions *)

Lemma require_digest_ok v d : require_digest v = Ok d <-> d = lower_strip (default ""%string v) /\ is_digest d = true.
Proof. unfold require_digest. destruct (is_digest _) eqn:E; (split; [intros [= <-]; done|intros [-> H]; congruence]). Qed.

Lemma take_chars_min n s : (Nat.min n (String.length s) <= String.length (take_chars n s))%nat.
Proof.
  unfold take_chars. revert s. induction n as [|n IH]; intros [|c s]; simpl; try lia.
  specialize (IH s). lia.
Qed.

Lemma take_chars_length n s : (String.length (take_chars n s) <= n)%nat.
Proof.
  unfold take_chars. revert s. induction n as [|n IH]; intros [|c s]; simpl; try lia.
  specialize (IH s). lia.
Qed.

(** The shape of the encryption parameters the server keeps. *)
Definition good_encryption (e : list (string * json)) : Prop :=
  exists algo kdf n salt iv kw,
    e = [("algo", JStr algo); ("kdf", JStr kdf); ("iterations", JInt n); ("salt_b64", JStr salt);
         ("iv_b64", JStr iv); ("key_wrap", JStr kw)]%string /\
    algo ∈ ["AES-GCM-256"; "AES-GCM-128"]%string /\
    kdf ∈ ["PBKDF2-SHA256"; "PBKDF2-SHA512"]%string /\
    kw ∈ ["wallet-signature-v1"; "operator-passphrase-v1"]%string /\
    100000 <= n <= 5000000 /\ 16 <= py_len salt <= 256 /\ 12 <= py_len iv <= 256.

Lemma sanitize_encryption_ok str_of iot e e' :
  sanitize_encryption str_of iot e = Ok e' -> good_encryption e'.
Proof.
  unfold sanitize_encryption. case_decide; [done|].
  set (algo := py_strip _). set (kdf := py_upper _). destruct (mem algo _) eqn:Ha; [|done].
  destruct (mem kdf _) eqn:Hk; [|done]. cbn [negb].
  destruct (or_http _ _ _) as [n|]; [|done]. cbn [rbind].
  destruct (Z.ltb_spec n 100000); [done|]. destruct (Z.ltb_spec MAX_KDF_ITERATIONS n); [done|]. cbn [orb].
  set (salt := py_strip _). set (iv := py_strip _). destruct ((_ <? _) || _) eqn:Hlen; [done|].
  apply orb_false_iff in Hlen as [Hs%Z.ltb_ge Hi%Z.ltb_ge]. unfold py_len in Hs, Hi.
  set (kw := py_strip _). destruct (mem kw _) eqn:Hw; [|done]. cbn [negb]. intros [= <-].
  exists algo, kdf, n, (take_chars 256 salt), (take_chars 256 iv), kw. unfold MAX_KDF_ITERATIONS in *.
  pose proof (take_chars_length 256 salt). pose proof (take_chars_length 256 iv).
  pose proof (take_chars_min 256 salt). pose proof (take_chars_min 256 iv).
  split_and!; try done; try (by apply mem_true); unfold py_len; lia.
Qed.

(** The fields of an accepted extract: known names, bounded texts, and the consent. *)
Definition good_extract (e : list (string * json)) : Prop :=
  e = [] \/ exists fields, e = fields ++ [("consent"%string, JBool true)] /\
    Forall (fun kv => exists n s, (fst kv, n) ∈ EXTRACTED_FIELD_MAX /\ snd kv = JStr s /\
                                  s <> ""%string /\ (String.length s <= n)%nat) fields.

Lemma take_chars_nonempty n s : s <> ""%string -> take_chars (S n) s <> ""%string.
Proof. unfold take_chars. by destruct s. Qed.

Lemma extracted_fields_ok str_of e fs : Forall (fun f => 0 < snd f)%nat fs ->
  Forall (fun kv => exists n s, (fst kv, n) ∈ fs /\ snd kv = JStr s /\ s <> ""%string /\
                                (String.length s <= n)%nat) (mjoin (extracted_field str_of e <$> fs)).
Proof.
  intros Hpos. apply Forall_forall. intros [k v] Hin.
  apply list_elem_of_join in Hin as (l & Hin & Hl). apply list_elem_of_fmap in Hl as ([k' n] & -> & Hf).
  rewrite Forall_forall in Hpos. pose proof (Hpos _ Hf) as Hn. cbn in Hn.
  unfold extracted_field in Hin. cbn [fst snd] in *. destruct (dict_get k' e) as [raw|]; [|set_solver].
  assert (Hgo : forall text, (k, v) ∈ (if decide (text = ""%string) then [] else [(k', JStr (take_chars n text))]) ->
    exists n0 s, (k, n0) ∈ fs /\ v = JStr s /\ s <> ""%string /\ (String.length s <= n0)%nat).
  { intros text Ht. case_decide; [set_solver|]. apply list_elem_of_singleton in Ht as [= -> ->].
    exists n. eexists. split_and!; [done|done| |apply take_chars_length]. destruct n; [lia|]. by apply take_chars_nonempty. }
  destruct raw; try (by eapply Hgo). set_solver.
Qed.

Lemma sanitize_extracted_ok str_of e e' : sanitize_extracted str_of e = Ok e' ->
  good_extract e' /\ (e <> [] -> dict_get "consent"%string e = Some (JBool true)).
Proof.
  unfold sanitize_extracted. case_decide as He; [intros [= <-]; split; [by left|done]|].
  destruct (dict_get _ e) as [[]|] eqn:Hc; try done. destruct b; [|done]. intros H. split; [|done].
  right. exists (mjoin (extracted_field str_of e <$> EXTRACTED_FIELD_MAX)). split; [congruence|].
  apply extracted_fields_ok. repeat constructor; cbn; lia.
Qed.

(** A submission that is accepted is well formed: nothing in the body stands under a
    forbidden key or is plaintext under a key, its level is known, its three digests are
    those of the request, in their places, of 64 lower-case hexadecimal digits, the package
    has between 64 and 8000000 characters and is no data URL, the encryption parameters and
    the extract are the cleaned ones. *)
Theorem submission_wellformed str_of iot b s :
  build_submission str_of iot b = Ok s ->
  (forall k v, inside (JObj (s_raw b)) k v -> clean_value k v) /\ sub_level s ∈ VERIFY_LEVELS /\
  (forall sent d, (sent, d) ∈ [(s_doc_digest b, sub_doc_digest s); (s_face_digest b, sub_face_digest s);
                               (s_package_digest b, sub_package_digest s)] ->
     d = lower_strip (default ""%string sent) /\ is_digest d = true) /\
  64 <= py_len (sub_package_cipher s) <= 8000000 /\
  is_data_url (sub_package_cipher s) = false /\
  good_encryption (sub_encryption s) /\ good_extract (sub_extracted s).
Proof.
  unfold build_submission. destruct (assert_no_plaintext _) as [[]|] eqn:Hp; [|done]. cbn [rbind].
  destruct (mem _ VERIFY_LEVELS) eqn:Hl; [|done]. cbn [negb].
  destruct (require_digest (s_doc_digest b)) as [doc|] eqn:H1; [|done]. cbn [rbind].
  destruct (require_digest (s_face_digest b)) as [face|] eqn:H2; [|done]. cbn [rbind].
  destruct (require_digest (s_package_digest b)) as [pkg|] eqn:H3; [|done]. cbn [rbind].
  destruct (sanitize_package_cipher _) as [c|] eqn:H4; [|done]. cbn [rbind].
  destruct (sanitize_encryption _ _ _) as [e|] eqn:H5; [|done]. cbn [rbind].
  destruct (sanitize_extracted _ _) as [x|] eqn:H6; [|done]. cbn [rbind]. intros [= <-]. cbn.
  apply require_digest_ok in H1, H2, H3. pose proof (proj1 (proj1 (plaintext_gate_spec _)) Hp) as Hclean.
  apply sanitize_encryption_ok in H5. apply sanitize_extracted_ok in H6 as [H6 _].
  unfold sanitize_package_cipher in H4.
  destruct (Z.ltb_spec (py_len (py_strip (default ""%string (s_package_cipher b)))) MIN_PACKAGE_CHARS); [done|].
  destruct (Z.ltb_spec MAX_PACKAGE_CHARS (py_len (py_strip (default ""%string (s_package_cipher b))))); [done|].
  destruct (is_data_url _) eqn:Hd; [done|]. injection H4 as <-. unfold MIN_PACKAGE_CHARS, MAX_PACKAGE_CHARS in *.
  split_and!; try done; try lia; [by apply mem_true|].
  intros sent d Hin. repeat (apply elem_of_cons in Hin as [[= -> ->]|Hin]; [done|]). set_solver.
Qed.

(** The consent of the user is only asked for when the extract has fields: with an empty
    extract, which is also the default, a submission needs no consent. *)
Theorem consent_skipped_when_empty str_of e :
  sanitize_extracted str_of [] = Ok [] /\
  (e <> [] -> is_ok (sanitize_extracted str_of e) = true -> dict_get "consent"%string e = Some (JBool true)).
Proof.
  split; [done|]. intros He Hok. destruct (sanitize_extracted str_of e) as [e'|] eqn:E; [|done].
  by apply sanitize_extracted_ok in E as [_ E]; apply E.
Qed.

(** ** Face checks *)

(** A wallet signed a message: recovery yields that address. *)
Definition signed (recover : string -> string -> option string) (message wallet sig : string) : Prop :=
  exists raw signer, normalize_sig sig = Ok raw /\ recover message raw = Some signer /\
    py_lower signer = py_lower wallet.

(** The signer is the wallet bound to the identity, when one is bound. *)
Definition bound_signer (bound : option string) (wallet : string) : Prop :=
  forall w, bound = Some w -> w <> ""%string -> lower_strip w = py_lower wallet.

Lemma wallet_signature_ok recover msg wallet sig bound w :
  assert_wallet_signature recover msg wallet sig bound = Ok w ->
  w = py_lower (py_strip wallet) /\ signed recover msg (py_strip (py_strip wallet)) sig /\
  bound_signer bound (py_strip wallet).
Proof.
  unfold assert_wallet_signature. destruct (_ || _); [done|]. destruct (match bound with Some _ => _ | None => _ end) eqn:Hb; [done|].
  destruct (verify_personal_message _ _ _ _) as [[]|] eqn:Hv; [|done]. intros [= <-]. split_and!; [done| |].
  - unfold verify_personal_message in Hv. destruct (_ || _); [done|]. destruct (normalize_sig sig) as [raw|] eqn:Hn; [|done].
    destruct (recover msg raw) as [s|] eqn:Hr; [|done]. case_decide as Hs; [|done]. by exists raw, s.
  - intros b -> Hne. apply andb_false_iff in Hb as [Hb|Hb]; apply negb_false_iff, bool_decide_eq_true in Hb; congruence.
Qed.

Lemma liveness_ok p l : assert_liveness_minimum p l = Ok tt ->
  lv_source l = "camera"%string /\ min_angles p <= lv_angles l.
Proof.
  unfold assert_liveness_minimum. case_decide as Hs; [done|]. destruct (Z.ltb_spec (lv_angles l) (min_angles p)); [done|].
  intros _. split; [|done]. by destruct (decide (lv_source l = "camera"%string)).
Qed.

Lemma sanitize_liveness_ok str_of iot pf raw l : sanitize_liveness str_of iot pf raw = Ok l ->
  0 <= lv_angles l <= MAX_ANGLES /\ 0 <= lv_frames l <= MAX_FRAMES /\ lv_source l ∈ LIVENESS_SOURCES.
Proof.
  unfold sanitize_liveness. destruct raw as [[]|]; try done.
  destruct (or_http _ _ _) as [n|]; [|done]. cbn [rbind].
  destruct (Z.ltb_spec n 0); [done|]. destruct (Z.ltb_spec MAX_ANGLES n); [done|]. cbn [orb].
  destruct (or_http _ _ _) as [m|]; [|done]. cbn [rbind]. destruct (mem _ LIVENESS_SOURCES) eqn:Hs; [|done]. cbn [negb].
  match goal with |- context [rbind ?c _] => destruct c as [ch|] end; [|done]. cbn [rbind].
  match goal with |- context [rbind ?c _] => destruct c as [mo|] end; [|done]. cbn [rbind].
  intros [= <-]. cbn. apply mem_true in Hs. unfold MAX_FRAMES. split_and!; [lia..|done].
Qed.

Lemma can_submit_iff s : assert_can_submit s = Ok tt <-> or_none s = "none"%string \/ or_none s = "rejected"%string.
Proof.
  unfold assert_can_submit, VERIFY_TRANSITIONS.
  destruct (decide (or_none s = "none"%string)) as [->|H1]; [split; [by left|done]|].
  destruct (decide (or_none s = "rejected"%string)) as [->|H2]; [split; [by right|done]|].
  split; [|naive_solver]. case_decide; done.
Qed.

(** An identity activated by face was not activated before, showed enough angles to a
    live camera, and its request was signed by the wallet in it, which is the bound wallet
    when there is one.  The row is then verified, stamped by the platform, without a
    document, the template is on file, and no other identity is touched. *)
Theorem face_activation_spec p str_of iot pf recover now i b t r t' :
  activate_by_face p str_of iot pf recover now i b t = (Ok r, t') ->
  let old := match verifications t !! i with Some r => vr_status r | None => "none"%string end in
  (or_none old = "none"%string \/ or_none old = "rejected"%string) /\
  (exists l capture digest f,
     sanitize_liveness str_of iot pf (fb_liveness b) = Ok l /\
     lv_source l = "camera"%string /\ min_angles p <= lv_angles l <= MAX_ANGLES /\
     signed recover (build_face_activation_message i (fb_wallet_address b) capture digest)
       (py_strip (py_strip (fb_wallet_address b))) (fb_wallet_signature b) /\
     bound_signer (get_bound_wallet (wallets t) i) (py_strip (fb_wallet_address b)) /\
     is_digest capture = true /\ is_digest digest = true /\
     vr_face_digest r = Some capture /\ ft_digest f = digest /\ ft_capture_digest f = Some capture /\
     t' = {| verifications := <[i := r]> (verifications t); templates := <[i := f]> (templates t);
             wallets := wallets t |}) /\
  vr_status r = "verified"%string /\ vr_reviewer r = Some FACE_REVIEWER /\ vr_verified_at r = Some now /\
  vr_doc_digest r = None.
Proof.
  intros H. unfold activate_by_face in H. destruct (face_activation_enabled p); [|done]. cbn [negb] in H.
  run_ok H.
  unfold put_verification, put_template, m_bind, m_put, m_ret in H. injection H as <- <-. cbn [verifications templates wallets] in *.
  apply require_digest_ok in E as [_ E], E0 as [_ E0]. pose proof (sanitize_liveness_ok _ _ _ _ _ E3) as ([_ Ha] & _).
  destruct x4, x8. apply liveness_ok in E4 as [Hc Hm]. apply wallet_signature_ok in E5 as (_ & Hs & Hb).
  apply can_submit_iff in E8. split; [done|]. split; [|done].
  exists x3, x, x0. eexists. split_and!; try done; done.
Qed.

(** What a successful same-person check has established about its request. *)
Record same_person (p : FacePolicy) (fmt4 : float -> string) (recover : string -> string -> option string)
    (owner profile_id class_ : string) (b : SamePersonBody) (t : IdTables) (v : Verdict) : Prop := {
  sp_on_file : exists replay, face_on_file owner t = Ok (ve_reference_source v, ve_reference v, replay) /\
                 (replay <> ""%string -> ve_capture v <> replay);
  sp_capture : is_digest (ve_capture v) = true;
  sp_live : lv_source (ve_liveness v) = "camera"%string /\ min_angles p <= lv_angles (ve_liveness v);
  sp_signed : signed recover (build_face_consistency_message fmt4 owner profile_id class_ (sp_wallet_address b)
                                (ve_reference v) (ve_capture v) (sp_score b))
                (py_strip (py_strip (sp_wallet_address b))) (sp_wallet_signature b);
  sp_bound : bound_signer (get_bound_wallet (wallets t) owner) (py_strip (sp_wallet_address b));
  sp_close : (ve_score v <? ve_threshold v)%float = false /\ ve_score v = score_value (sp_score b) /\
             ve_threshold v = or_zero (Some (face_consistency_min_score p))
}.

(** A same-person check that succeeds compared with the face on file, was signed for
    this profile and this score by the wallet bound to the owner, saw a live camera and
    reached the threshold; it changes at most the template of the owner, whose digest stays,
    and no verification. *)
Theorem same_person_sound p str_of iot pf fmt4 recover owner profile_id class_ b t v t' :
  assert_same_person p str_of iot pf fmt4 recover owner profile_id class_ b t = (Ok v, t') ->
  same_person p fmt4 recover owner profile_id class_ b t v /\
  verifications t' = verifications t /\ wallets t' = wallets t /\
  (templates t' = templates t \/
   exists f f', templates t !! owner = Some f /\ templates t' = <[owner := f']> (templates t) /\
     ft_digest f' = ft_digest f /\ ft_capture_digest f' = Some (ve_capture v)).
Proof.
  intros H. unfold assert_same_person in H. run_ok H. destruct x as [[source on_file] replay].
  run_ok H. case_decide as Hr; [done|]. run_ok H.
  destruct (negb (bool_decide (replay = ""%string)) && bool_decide (x0 = replay)) eqn:Hrep; [done|]. run_ok H.
  apply m_bind_ok in H as (cipher & t1 & Hc & H).
  assert (t1 = t) as -> by (destruct (str_or _ _); [apply m_bind_ok in Hc as (? & ? & E' & Hc); apply lift_ok in E' as [_ ->]|]; by injection Hc).
  run_ok H. destruct (fltb _ _) eqn:Hs; [done|]. apply m_bind_ok in H as ([] & t2 & Hw & H). injection H as <- <-.
  assert (x = on_file) as -> by (by destruct (decide (x = on_file))).
  apply require_digest_ok in E1 as [_ E1]. destruct x2. apply liveness_ok in E3. apply wallet_signature_ok in E5 as (_ & Hsig & Hb).
  split; [|destruct cipher as [c|]].
  - split; cbn; try done. exists replay. split; [done|]. intros Hne Hx.
    apply andb_false_iff in Hrep as [Hrep|Hrep];
      [apply negb_false_iff, bool_decide_eq_true in Hrep|apply bool_decide_eq_false in Hrep]; congruence.
  - apply m_bind_ok in Hw as (f & t3 & [= <- <-] & Hw). destruct (templates t !! owner) as [f|] eqn:Hf; [|done].
    unfold put_template, m_put in Hw. injection Hw as <-. cbn. split_and!; [done..|right]. exists f. eexists. split_and!; try done; done.
  - injection Hw as <-. split_and!; [done..|by left].
Qed.

(** A check that also sends a new template keeps the old digest next to the new
    ciphertext; and it succeeds only for an identity that has a template: with the face from
    a document verification the request ends in an internal error after every check. *)
Theorem template_refresh_faults p str_of iot pf fmt4 recover owner profile_id class_ b t v t' c :
  str_or (sp_template_cipher b) None = Some c ->
  assert_same_person p str_of iot pf fmt4 recover owner profile_id class_ b t = (Ok v, t') ->
  exists f f', templates t !! owner = Some f /\ templates t' !! owner = Some f' /\
    ft_cipher f' = py_strip c /\ ft_digest f' = ft_digest f.
Proof.
  intros Hcip H. unfold assert_same_person in H. run_ok H. destruct x as [[source on_file] replay].
  run_ok H. case_decide as Hr; [done|]. run_ok H. destruct (_ && _); [done|]. run_ok H. rewrite Hcip in H.
  apply m_bind_ok in H as (cipher & t1 & Hc & H). run_ok Hc. injection Hc as <- <-.
  run_ok H. destruct (fltb _ _); [done|]. apply m_bind_ok in H as ([] & t2 & Hw & H). injection H as _ <-.
  run_ok Hw. destruct (templates t !! owner) as [f|]; [|done]. injection Hw as <-. cbn [templates]. rewrite lookup_insert_eq.
  exists f. eexists. split; [done|]. split; [done|]. split; [|done]. cbn [ft_cipher].
  unfold sanitize_template_cipher in E5. by repeat case_match; simplify_eq.
Qed.

(** ** Examples *)

Definition sample_digest : string := "0123456789abcdef0123456789abcdef0123456789abcdef0123456789abcdef".
Definition sample_body : SubmitBody :=
  {| s_level := None; s_doc_digest := Some sample_digest; s_face_digest := Some sample_digest;
     s_package_digest := Some sample_digest; s_package_cipher := Some sample_digest;
     s_encryption := [("algo", JStr "AES-GCM-256"); ("kdf", JStr "PBKDF2-SHA256"); ("iterations", JInt 200000);
                      ("salt_b64", JStr "c2FsdHNhbHRzYWx0c2FsdA=="); ("iv_b64", JStr "aXZpdml2aXZpdg==");
                      ("key_wrap", JStr "wallet-signature-v1")]%string;
     s_extracted := [("consent", JBool true); ("full_name", JStr "Ada")]%string; s_raw := [] |}.
Definition as_text (j : json) : string := match j with JStr s => s | _ => "" end.

Lemma submission_wellformed_witness :
  exists s, build_submission as_text (fun _ => None) sample_body = Ok s /\ sub_level s ∈ VERIFY_LEVELS.
Proof.
  eexists. split; [vm_compute; reflexivity|].
  apply (submission_wellformed as_text (fun _ => None) sample_body). vm_compute. reflexivity.
Defined.
