(* ===== verification/IdentityProvider.v ===== *)
(** * Real-name providers: sessions, callbacks and their verdicts

    [services/identity_provider/]: the contract of a provider ([base.py]) as the class
    [IdentityProvider] with the laws [ProviderLaws], the choice of a provider
    ([registry.py]), signed callbacks ([signature.py]), the simulated provider ([mock.py])
    as an instance, and the orchestration ([service.py]) written against the class.
    Times are microseconds.  Parameters: the keyed digest ([hmac]) and the digest of a body
    ([sha_hex]), integers as decimal text and back ([dec], [int_of_text]), [json.loads]
    ([loads]) and [str()] of JSON values ([str_of]). *)
From S2P Require Import Prelude PyText PyJson PyFloat Amounts IdentityCheck.
Open Scope Z_scope.

Definition SECOND : Z := 1000000.

(** ** [base.py] *)

Definition OUTCOME_VERIFIED : string := "verified".
Definition OUTCOME_REJECTED : string := "rejected".
Definition OUTCOME_PENDING : string := "pending".
Definition OUTCOMES : list string := [OUTCOME_VERIFIED; OUTCOME_REJECTED; OUTCOME_PENDING].

Record ProviderDecision := {
  d_outcome : string;
  d_identity_id : option string;
  d_session_id : option string;
  d_provider_session_id : option string;
  d_reason_code : option string;
  d_risk_level : option string;
  d_occurred_at : option string;
  d_raw_digest : option string;
  d_source : string;
  d_requires_pull : bool
}.

(** [(x or "").strip()[:n] or None]. *)
Definition cut (n : nat) (x : option string) : option string :=
  str_or (Some (take_chars n (py_strip (default ""%string x)))) None.

Definition normalized (d : ProviderDecision) : result Exc ProviderDecision :=
  if negb (mem (d_outcome d) OUTCOMES)
  then Err (HTTPException 502 "identity provider returned an unknown outcome")
  else Ok {| d_outcome := d_outcome d;
             d_identity_id := str_or (Some (py_strip (default ""%string (d_identity_id d)))) None;
             d_session_id := cut 128 (d_session_id d);
             d_provider_session_id := cut 128 (d_provider_session_id d);
             d_reason_code := cut 64 (d_reason_code d); d_risk_level := cut 64 (d_risk_level d);
             d_occurred_at := cut 64 (d_occurred_at d); d_raw_digest := d_raw_digest d;
             d_source := d_source d; d_requires_pull := d_requires_pull d |}.

(** What a provider answers when a session is opened. *)
Record Created := {
  cr_provider_session_id : option string;
  cr_mode : option string;
  cr_expires_in_seconds : option Z
}.

(** A provider of type [P] whose callbacks are messages of type [Msg]. *)
Class IdentityProvider (P Msg : Type) := {
  provider_name : P -> string;
  is_configured : P -> bool;
  supports_pull : P -> bool;
  create_session : P -> string -> string -> string -> option string -> result Exc Created;
  parse_callback : P -> Z -> Msg -> result Exc ProviderDecision;
  fetch_result : P -> Z -> string -> result Exc ProviderDecision
}.

(** What the orchestration relies on: an opened session has an id on the provider's side,
    and a callback is believed only when it is authentic or only asks for a look-up. *)
Class ProviderLaws (P Msg : Type) `{IdentityProvider P Msg} (authentic : P -> Z -> Msg -> Prop) := {
  created_has_id : forall p i s url ret c, create_session p i s url ret = Ok c ->
    exists x, cr_provider_session_id c = Some x /\ x <> ""%string;
  callback_authentic : forall p now m d, parse_callback p now m = Ok d ->
    d_requires_pull d = true \/ authentic p now m;
  callback_pull : forall p now m d, parse_callback p now m = Ok d -> d_requires_pull d = true ->
    cut 128 (d_provider_session_id d) <> None
}.

(** ** [signature.py] *)

Section Signature.
Context (hmac : string -> string -> string) (int_of_text : string -> option Z) (dec : Z -> string).

Definition COMMA : Ascii.ascii := Ascii.ascii_of_nat 44.
Definition EQUALS : Ascii.ascii := Ascii.ascii_of_nat 61.

(** [text.partition("=")]. *)
Fixpoint partition_eq (s : string) : string * string :=
  match s with
  | EmptyString => (""%string, ""%string)
  | String c s' => if decide (c = EQUALS) then (""%string, s')
                   else let '(a, b) := partition_eq s' in (String c a, b)
  end.

(** One part of the header; a later part replaces an earlier one. *)
Definition read_part (acc : option string * option string) (part : string) : option string * option string :=
  let '(k, v) := partition_eq (py_strip part) in
  if decide (k = "t")%string then (Some (py_strip v), snd acc)
  else if mem k ["v1"; "v0"]%string then (fst acc, Some (py_strip v))
  else acc.

Definition parse_timestamped_signature (header : option string) : result Exc (Z * string) :=
  match str_or header None with
  | None => Err (HTTPException 401 "callback is missing its signature header")
  | Some h =>
      let '(t, v) := fold_left read_part (split_on COMMA h) (None, None) in
      match str_or t None, str_or v None with
      | Some t, Some v => match int_of_text t with
                          | Some n => Ok (n, v)
                          | None => Err (HTTPException 401 "signature timestamp is not an integer")
                          end
      | _, _ => Err (HTTPException 401 "signature header must look like t=<unix>,v1=<hex>")
      end
  end.

Definition assert_fresh (timestamp tolerance_seconds now : Z) : result Exc unit :=
  if Z.max 1 tolerance_seconds * SECOND <? Z.abs (now - timestamp * SECOND)
  then Err (HTTPException 401 "callback timestamp is outside the tolerance window") else Ok tt.

Definition assert_signature (secret message signature : string) : result Exc unit :=
  if decide (py_strip secret = ""%string)
  then Err (HTTPException 401 "no callback secret is configured for this provider")
  else if decide (hmac secret message = lower_strip signature) then Ok tt
  else Err (HTTPException 401 "callback signature does not match").

Definition signed_text (timestamp : Z) (raw_body : string) : string := (dec timestamp +:+ "." +:+ raw_body)%string.

Definition verify_timestamped_hmac (secret raw_body : string) (header : option string)
    (tolerance_seconds now : Z) : result Exc unit :=
  let? ts := parse_timestamped_signature header in
  let? _ := assert_fresh (fst ts) tolerance_seconds now in
  assert_signature secret (signed_text (fst ts) raw_body) (snd ts).

Definition sign_timestamped_hmac (secret raw_body : string) (timestamp : Z) : string :=
  ("t=" +:+ dec timestamp +:+ ",v1=" +:+ hmac secret (signed_text timestamp raw_body))%string.
End Signature.

(** ** [mock.py] *)

(** Request headers and body of a callback. *)
Record CallbackMsg := {
  m_headers : list (string * string);
  m_body : string
}.

(** [header_value]: exact name first, then without regard to case. *)
Definition header_value (headers : list (string * string)) (name : string) : option string :=
  match dict_get name headers with
  | Some v => Some v
  | None => snd <$> head (filter (fun kv => py_lower (fst kv) = py_lower name) headers)
  end.

Record MockProvider := {
  mk_secret : string;
  mk_tolerance : Z
}.

Section Mock.
Context (hmac : string -> string -> string) (sha_hex : string -> string)
        (int_of_text : string -> option Z) (dec : Z -> string)
        (loads : string -> option json) (str_of : json -> string).

Definition SIGNATURE_HEADER : string := "x-karma-provider-signature".

Definition pick (names : list string) (body : list (string * json)) : option string :=
  head (omap (fun k => match obj_get k body with
                       | JStr s => str_or (Some (py_strip s)) None
                       | _ => None
                       end) names).

Definition mock_secret (p : MockProvider) : string := py_strip (mk_secret p).
Definition mock_tolerance (p : MockProvider) : Z := if decide (mk_tolerance p = 0) then 300 else mk_tolerance p.

Definition mock_create_session (p : MockProvider) (identity session url : string) (ret : option string) :
    result Exc Created :=
  if decide (mock_secret p = ""%string) then Err (HTTPException 503 "mock identity provider needs a secret")
  else Ok {| cr_provider_session_id := Some ("mock-" +:+ session)%string; cr_mode := Some "callback"%string;
             cr_expires_in_seconds := Some 1800 |}.

Definition mock_parse_callback (p : MockProvider) (now : Z) (m : CallbackMsg) : result Exc ProviderDecision :=
  let? _ := verify_timestamped_hmac hmac int_of_text dec (mock_secret p) (m_body m)
              (header_value (m_headers m) SIGNATURE_HEADER) (mock_tolerance p) now in
  match loads (or_str (m_body m) "{}") with
  | None => Err (HTTPException 400 "callback body is not valid JSON")
  | Some (JObj body) =>
      let outcome := lower_strip (text_or_empty str_of (obj_get "outcome" body)) in
      if negb (mem outcome OUTCOMES)
      then Err (HTTPException 400 "callback body must carry outcome=verified|rejected|pending")
      else normalized
             {| d_outcome := outcome; d_identity_id := pick ["identity_id"; "biz_user_id"]%string body;
                d_session_id := pick ["session_id"; "reference"]%string body;
                d_provider_session_id := pick ["provider_session_id"%string] body;
                d_reason_code := pick ["reason_code"%string] body; d_risk_level := pick ["risk_level"%string] body;
                d_occurred_at := pick ["occurred_at"%string] body; d_raw_digest := Some (sha_hex (m_body m));
                d_source := "callback"; d_requires_pull := false |}
  | Some _ => Err (HTTPException 400 "callback body must be a JSON object")
  end.

#[export] Instance mock_provider : IdentityProvider MockProvider CallbackMsg := {
  provider_name _ := "mock"%string;
  is_configured p := negb (bool_decide (mock_secret p = ""%string));
  supports_pull _ := false;
  create_session := mock_create_session;
  parse_callback := mock_parse_callback;
  fetch_result _ _ _ := Err (HTTPException 501 "mock identity provider has no result API")
}.
End Mock.

(** ** [service.py] *)

Definition SESSION_TTL_SECONDS : Z := 1800.
Definition PROVIDER_REVIEWER_PREFIX : string := "platform:identity-provider:".

Record ProviderSettings := {
  identity_provider : string;
  identity_provider_public_base_url : string
}.

Section Service.
Context {P Msg : Type} `{IdentityProvider P Msg} (cfg : ProviderSettings) (registry : string -> option P).

Definition configured_name : string :=
  or_str (lower_strip (or_str (identity_provider cfg) "none")) "none".

Definition resolve_provider (name : option string) : result Exc P :=
  let key := lower_strip (default configured_name (str_or name None)) in
  if mem key [""; "none"]%string
  then Err (HTTPException 409 "no real-name/liveness provider is configured")
  else match registry key with
       | None => Err (HTTPException 409 "unknown identity provider")
       | Some p => if is_configured p then Ok p else Err (HTTPException 503 "identity provider is not configured yet")
       end.

Fixpoint rstrip_slash (s : string) : string :=
  match s with
  | EmptyString => EmptyString
  | String c s' =>
      match rstrip_slash s' with
      | EmptyString => if decide (c = Ascii.ascii_of_nat 47) then EmptyString else String c EmptyString
      | t => String c t
      end
  end.

Definition callback_url_for (identity_id name : string) : result Exc string :=
  let base := rstrip_slash (py_strip (identity_provider_public_base_url cfg)) in
  if decide (base = ""%string) then Err (HTTPException 503 "IDENTITY_PROVIDER_PUBLIC_BASE_URL must be set")
  else Ok (base +:+ "/v1/identity/" +:+ identity_id +:+ "/verification/provider-callback/" +:+ name)%string.

Definition opt_json (x : option string) : json := match x with Some s => JStr s | None => JNull end.

Definition start_session (now : Z) (new_id identity_id : string) (return_url : option string) : IdM string :=
  do! p := lift (resolve_provider None) in
  do! row := m_get (fun t => default new_verification (verifications t !! identity_id)) in
  do! url := lift (callback_url_for identity_id (provider_name p)) in
  do! c := lift (create_session p identity_id new_id url return_url) in
  let ttl := match cr_expires_in_seconds c with Some 0 | None => SESSION_TTL_SECONDS | Some n => n end in
  let active := {| as_name := provider_name p; as_session_id := new_id;
                   as_provider_session_id := cr_provider_session_id c; as_mode := cr_mode c;
                   as_created_at := now; as_expires_at := now + ttl * SECOND; as_return_url := return_url;
                   as_status := None; as_closed_at := None |} in
  let row := with_provider (Some active) (last_n MAX_EVENTS (vr_events row)) row in
  let row := record_provider_event now "session_created" false
               [("provider", JStr (provider_name p)); ("session_id", JStr new_id);
                ("provider_session_id", opt_json (cr_provider_session_id c))]%string row in
  seq! put_verification identity_id row in
  m_ret new_id.

(** A truthy text. *)
Definition some_text (x : option string) : option string := str_or x None.

Definition bind_decision (now : Z) (row : VerificationRow) (d : ProviderDecision) (name : string) : result Exc string :=
  match vr_active row with
  | None => Err (HTTPException 409 "no identity verification session is waiting for this identity")
  | Some a =>
      if decide (as_session_id a = ""%string)
      then Err (HTTPException 409 "no identity verification session is waiting for this identity")
      else if decide (as_name a <> name)
      then Err (HTTPException 409 "this identity verification session belongs to a different provider")
      else if as_expires_at a <? now
      then Err (HTTPException 409 "this identity verification session has expired")
      else if match some_text (d_session_id d) with
              | Some s => negb (bool_decide (s = as_session_id a))
              | None => false
              end
      then Err (HTTPException 409 "callback references an unknown verification session")
      else if match some_text (d_provider_session_id d), some_text (as_provider_session_id a) with
              | Some s, Some s' => negb (bool_decide (s = s'))
              | _, _ => false
              end
      then Err (HTTPException 409 "callback references a different provider session")
      else if bool_decide (some_text (d_session_id d) = None) && bool_decide (some_text (d_provider_session_id d) = None)
      then Err (HTTPException 409 "callback does not reference any verification session")
      else Ok (as_session_id a)
  end.

Definition note_of (name session : string) (d : ProviderDecision) : string :=
  ("第三方实名/活体核验：" +:+ py_join " "
     (["provider=" +:+ name; "session=" +:+ session] ++
      match some_text (d_reason_code d) with Some r => ["reason=" +:+ r] | None => [] end ++
      match some_text (d_risk_level d) with Some r => ["risk=" +:+ r] | None => [] end))%string.

(** [_apply]: the row after the verdict, and what became of it. *)
Definition apply_decision (now : Z) (name session : string) (d : ProviderDecision) (row : VerificationRow) :
    VerificationRow * (bool * string) :=
  if decide (vr_status row = "verified"%string)
  then (record_provider_event now "decision_ignored" false
          [("provider", JStr name); ("session_id", JStr session); ("outcome", JStr (d_outcome d));
           ("reason", JStr "already_verified")]%string row, (false, "already_verified"%string))
  else if decide (d_outcome d = OUTCOME_PENDING)
  then (record_provider_event now "decision_pending" false
          [("provider", JStr name); ("session_id", JStr session); ("outcome", JStr (d_outcome d))]%string row,
        (false, "provider_still_processing"%string))
  else match assert_can_submit (vr_status row) with
       | Err _ => (row, (false, "cannot submit verification from this status"%string))
       | Ok _ =>
           let note := note_of name session d in
           let reviewer := (PROVIDER_REVIEWER_PREFIX +:+ name)%string in
           let row := if decide (d_outcome d = OUTCOME_VERIFIED)
                      then mark_verified now reviewer (Some note) row
                      else decided "rejected" reviewer (Some (take_chars 2000 note)) None row in
           (record_provider_event now "decision_applied" true
              [("provider", JStr name); ("session_id", JStr session); ("outcome", JStr (d_outcome d));
               ("reason_code", opt_json (d_reason_code d)); ("raw_digest", opt_json (d_raw_digest d))]%string row,
            (true, d_outcome d))
       end.

Definition finish_session (now : Z) (outcome : string) (provider_session : option string) (row : VerificationRow) :
    VerificationRow :=
  with_provider
    ((fun a => {| as_name := as_name a; as_session_id := as_session_id a;
                  as_provider_session_id := str_or provider_session (as_provider_session_id a);
                  as_mode := as_mode a; as_created_at := as_created_at a; as_expires_at := as_expires_at a;
                  as_return_url := as_return_url a;
                  as_status := Some (if decide (outcome = OUTCOME_VERIFIED) then "completed"%string else or_str outcome "closed");
                  as_closed_at := Some now |}) <$> vr_active row)
    (last_n MAX_EVENTS (vr_events row)) row.

Record CallbackResult := {
  res_session_id : string;
  res_outcome : string;
  res_applied : bool;
  res_reason : string;
  res_status : string
}.

(** The common end of a callback and a look-up. *)
Definition conclude (now : Z) (identity_id name session : string) (d : ProviderDecision)
    (finish_id : option string) (row : VerificationRow) : IdM CallbackResult :=
  let '(row, (applied, reason)) := apply_decision now name session d row in
  let row := if applied then finish_session now (d_outcome d) finish_id row else row in
  seq! put_verification identity_id row in
  m_ret {| res_session_id := session; res_outcome := d_outcome d; res_applied := applied;
           res_reason := reason; res_status := vr_status row |}.

Definition row_or_404 (identity_id : string) : IdM VerificationRow :=
  do! row := m_get (fun t => verifications t !! identity_id) in
  match row with
  | Some r => m_ret r
  | None => m_raise (HTTPException 404 "this identity has no verification record")
  end.

Definition apply_callback (now : Z) (identity_id name : string) (m : Msg) : IdM CallbackResult :=
  do! p := lift (resolve_provider (Some name)) in
  do! d := lift (let? d := parse_callback p now m in normalized d) in
  do! row := row_or_404 identity_id in
  do! session := lift (bind_decision now row d name) in
  do! d := match d_requires_pull d, some_text (d_provider_session_id d) with
           | true, Some x => lift (let? d := fetch_result p now x in normalized d)
           | _, _ => m_ret d
           end in
  conclude now identity_id name session d (d_provider_session_id d) row.

Definition sync_active_session (now : Z) (identity_id : string) : IdM CallbackResult :=
  do! p := lift (resolve_provider None) in
  do! row := row_or_404 identity_id in
  match vr_active row with
  | None => m_raise (HTTPException 409 "no identity verification session is waiting for this identity")
  | Some a =>
      match some_text (Some (as_session_id a)), some_text (as_provider_session_id a) with
      | Some session, Some x =>
          if decide (as_name a <> provider_name p)
          then m_raise (HTTPException 409 "the waiting session belongs to a different provider")
          else if negb (supports_pull p)
          then m_raise (HTTPException 409 "provider does not support result lookups")
          else
            seq! lift (assert_can_submit (vr_status row)) in
            do! d := lift (let? d := fetch_result p now x in normalized d) in
            conclude now identity_id (provider_name p) session d (Some x) row
      | _, _ => m_raise (HTTPException 409 "no identity verification session is waiting for this identity")
      end
  end.
End Service.

(** ** Signatures *)

(** The header carries a fresh, matching signature of the body. *)
Definition authentic_body (hmac : string -> string -> string) (int_of_text : string -> option Z)
    (dec : Z -> string) (secret body : string) (header : option string) (tolerance now : Z) : Prop :=
  exists ts sig, parse_timestamped_signature int_of_text header = Ok (ts, sig) /\
    Z.abs (now - ts * SECOND) <= Z.max 1 tolerance * SECOND /\
    py_strip secret <> ""%string /\ lower_strip sig = hmac secret (signed_text dec ts body).

Lemma verify_hmac_iff hmac iot dec secret body header tol now :
  verify_timestamped_hmac hmac iot dec secret body header tol now = Ok tt <->
  authentic_body hmac iot dec secret body header tol now.
Proof.
  unfold verify_timestamped_hmac, authentic_body. destruct (parse_timestamped_signature iot header) as [[ts sig]|e]; cbn [rbind fst snd];
    [|split; [done|naive_solver]].
  unfold assert_fresh, assert_signature. destruct (Z.ltb_spec (Z.max 1 tol * SECOND) (Z.abs (now - ts * SECOND))); cbn [rbind].
  { split; [done|]. intros (ts' & sig' & [= <- <-] & Hle & _). lia. }
  case_decide as Hs; [split; [done|naive_solver]|]. case_decide as Hh; [|split; [done|naive_solver]].
  split; [|done]. intros _. exists ts, sig. by split_and!.
Qed.

Lemma partition_eq_app a b : has_char EQUALS a = false -> partition_eq (a +:+ String EQUALS b)%string = (a, b).
Proof.
  induction a as [|x a IH]; simpl; [done|].
  rewrite has_char_cons, orb_false_iff, bool_decide_eq_false. intros [Hx Ha].
  rewrite decide_False by congruence. by rewrite IH.
Qed.

(** Text a header can carry as it is: lower case, without blanks and commas. *)
Definition header_char (c : Ascii.ascii) : bool :=
  negb (is_space c) && negb (bool_decide (c = COMMA)) && bool_decide (lower_ascii c = c).
Definition header_text (s : string) : Prop :=
  s <> ""%string /\ forallb header_char (String.list_ascii_of_string s) = true.

Lemma header_app a b : forallb header_char (String.list_ascii_of_string (a +:+ b)%string) =
  forallb header_char (String.list_ascii_of_string a) && forallb header_char (String.list_ascii_of_string b).
Proof. induction a as [|c a IH]; simpl; [done|]. by rewrite IH, andb_assoc. Qed.

Lemma header_strip s : forallb header_char (String.list_ascii_of_string s) = true ->
  py_strip s = s /\ py_lower s = s /\ has_char COMMA s = false.
Proof.
  intros Hs. assert (H : rstrip s = s /\ lstrip s = s /\ py_lower s = s /\ has_char COMMA s = false).
  { induction s as [|c s IH]; [done|]. cbn in Hs. apply andb_true_iff in Hs as [Hc Hs]. destruct (IH Hs) as (H1 & _ & H3 & H4).
    unfold header_char in Hc. rewrite !andb_true_iff, !negb_true_iff, bool_decide_eq_false, bool_decide_eq_true in Hc.
    destruct Hc as [[Hsp Hco] Hl]. split_and!; simpl.
    - rewrite H1. destruct s; [by rewrite Hsp|done].
    - by rewrite Hsp.
    - by rewrite Hl, H3.
    - rewrite has_char_cons, H4, orb_false_r. by apply bool_decide_eq_false. }
  destruct H as (H1 & H2 & H3 & H4). split_and!; [|done..]. unfold py_strip. by rewrite H2.
Qed.

(** A header written by the signing function is read back and accepted as long as its
    time is within the tolerance, and with any other body it is accepted only when the
    keyed digests of the two collide. *)
Theorem signed_callback_roundtrip hmac iot dec secret body body' ts tol now :
  iot (dec ts) = Some ts -> header_text (dec ts) -> header_text (hmac secret (signed_text dec ts body)) ->
  py_strip secret <> ""%string -> Z.abs (now - ts * SECOND) <= Z.max 1 tol * SECOND ->
  let header := Some (sign_timestamped_hmac hmac dec secret body ts) in
  verify_timestamped_hmac hmac iot dec secret body header tol now = Ok tt /\
  (verify_timestamped_hmac hmac iot dec secret body' header tol now = Ok tt <->
   hmac secret (signed_text dec ts body') = hmac secret (signed_text dec ts body)).
Proof.
  intros Hi [Hd Hd'] [Hh Hh'] Hs Hf header. set (d := dec ts) in *. set (h := hmac secret (signed_text dec ts body)) in *.
  assert (Hp : parse_timestamped_signature iot header = Ok (ts, h)).
  { unfold header, parse_timestamped_signature, sign_timestamped_hmac. fold d h.
    assert (E : (",v1=" +:+ h = String COMMA ("v1=" +:+ h))%string) by done.
    assert (Ht : forallb header_char (String.list_ascii_of_string ("t=" +:+ d)%string) = true) by (by rewrite header_app, Hd').
    assert (Hv : forallb header_char (String.list_ascii_of_string ("v1=" +:+ h)%string) = true) by (by rewrite header_app, Hh').
    destruct (header_strip _ Ht) as (St & _ & Ct), (header_strip _ Hv) as (Sv & _ & Cv),
      (header_strip _ Hd') as (Sd & _ & _), (header_strip _ Hh') as (Sh & _ & _).
    unfold str_or at 1. rewrite decide_False by done.
    replace ("t=" +:+ d +:+ ",v1=" +:+ h)%string with (("t=" +:+ d) +:+ String COMMA ("v1=" +:+ h))%string by done.
    rewrite split_on_app, split_on_single by done. cbn [fold_left]. unfold read_part. rewrite St, Sv.
    replace ("t=" +:+ d)%string with ("t" +:+ String EQUALS d)%string by done.
    replace ("v1=" +:+ h)%string with ("v1" +:+ String EQUALS h)%string by done.
    rewrite !partition_eq_app by done.
    destruct (decide ("t"%string = "t"%string)) as [_|]; [|done]. destruct (decide ("v1"%string = "t"%string)); [done|].
    cbn [fst snd]. rewrite Sd, Sh.
    change (mem "v1"%string ["v1"; "v0"]%string) with true. cbn [fst snd]. unfold str_or. rewrite !decide_False by done. by rewrite Hi. }
  assert (Hv : forall b, verify_timestamped_hmac hmac iot dec secret b header tol now = Ok tt <->
                         hmac secret (signed_text dec ts b) = h).
  { intros b. rewrite verify_hmac_iff. unfold authentic_body. rewrite Hp. destruct (header_strip _ Hh') as (Sh & Lh & _).
    assert (lower_strip h = h) as El by (unfold lower_strip; by rewrite Sh). split.
    - intros (ts' & sig & [= <- <-] & _ & _ & E). congruence.
    - intros E. exists ts, h. split_and!; [done..|]. congruence. }
  split; [by apply Hv|apply Hv].
Qed.

(** ** The simulated provider keeps the contract *)

Section MockLaws.
Context (hmac : string -> string -> string) (sha_hex : string -> string)
        (int_of_text : string -> option Z) (dec : Z -> string)
        (loads : string -> option json) (str_of : json -> string).

Definition mock_authentic (p : MockProvider) (now : Z) (m : CallbackMsg) : Prop :=
  authentic_body hmac int_of_text dec (mock_secret p) (m_body m)
    (header_value (m_headers m) SIGNATURE_HEADER) (mock_tolerance p) now.

Lemma normalized_ok d d' : normalized d = Ok d' ->
  d_outcome d' = d_outcome d /\ d_outcome d ∈ OUTCOMES /\ d_requires_pull d' = d_requires_pull d /\
  d_session_id d' = cut 128 (d_session_id d) /\ d_provider_session_id d' = cut 128 (d_provider_session_id d).
Proof.
  unfold normalized. destruct (mem _ _) eqn:Hm; [|done]. intros [= <-]. apply mem_true in Hm. done.
Qed.

Lemma mock_callback_ok p now m d :
  mock_parse_callback hmac sha_hex int_of_text dec loads str_of p now m = Ok d ->
  mock_authentic p now m /\ d_requires_pull d = false.
Proof.
  unfold mock_parse_callback. destruct (verify_timestamped_hmac _ _ _ _ _ _ _ _) as [[]|] eqn:Hv; [|done]. cbn [rbind].
  apply verify_hmac_iff in Hv. destruct (loads _) as [[]|]; try done. destruct (mem _ OUTCOMES); [|done]. cbn [negb].
  intros (_ & _ & -> & _)%normalized_ok. done.
Qed.

#[export] Instance mock_laws :
  ProviderLaws MockProvider CallbackMsg (H := mock_provider hmac sha_hex int_of_text dec loads str_of) mock_authentic.
Proof.
  split; cbn.
  - intros p i s url ret c Hc. unfold mock_create_session in Hc. case_decide; [done|]. injection Hc as <-. by eexists.
  - intros p now m d [Ha _]%mock_callback_ok. by right.
  - intros p now m d [_ Hp]%mock_callback_ok. congruence.
Qed.
End MockLaws.

(** ** Verdicts *)

Lemma str_or_nonempty (x : option string) s : str_or x None = Some s -> x = Some s /\ s <> ""%string.
Proof. destruct x as [y|]; cbn; [case_decide|]; naive_solver. Qed.

Section Verdicts.
Context {P Msg : Type} `{IdentityProvider P Msg} (authentic : P -> Z -> Msg -> Prop)
        `{!ProviderLaws P Msg authentic} (cfg : ProviderSettings) (registry : string -> option P).

(** Every waiting session has an id on the provider's side. *)
Definition session_named (row : VerificationRow) : Prop :=
  forall a, vr_active row = Some a -> exists x, as_provider_session_id a = Some x /\ x <> ""%string.

Lemma bind_decision_ok now row d name s : session_named row -> bind_decision now row d name = Ok s ->
  exists a x, vr_active row = Some a /\ s = as_session_id a /\ as_name a = name /\ now <= as_expires_at a /\
    as_provider_session_id a = Some x /\
    (d_session_id d = Some s \/ d_provider_session_id d = Some x) /\
    (forall y, some_text (d_provider_session_id d) = Some y -> y = x).
Proof.
  intros Hn. unfold bind_decision. destruct (vr_active row) as [a|] eqn:Ha; [|done]. destruct (Hn a Ha) as (x & Hx & Hne).
  case_decide; [done|]. case_decide as Hname; [done|]. destruct (Z.ltb_spec (as_expires_at a) now); [done|].
  destruct (match some_text (d_session_id d) with Some _ => _ | None => _ end) eqn:Q1; [done|].
  assert (some_text (as_provider_session_id a) = Some x) as Hx' by (rewrite Hx; unfold some_text, str_or; by rewrite decide_False).
  rewrite Hx'. destruct (match some_text (d_provider_session_id d) with Some _ => _ | None => _ end) eqn:Q2; [done|].
  destruct (_ && _) eqn:Q3; [done|]. intros [= <-]. exists a, x.
  assert (forall y, some_text (d_provider_session_id d) = Some y -> y = x) as Hy.
  { intros y Hy. rewrite Hy in Q2. by apply negb_false_iff, bool_decide_eq_true in Q2. }
  assert (as_name a = name) by (by destruct (decide (as_name a = name))). split_and!; try done.
  destruct (some_text (d_session_id d)) as [s|] eqn:Es.
  - left. apply negb_false_iff, bool_decide_eq_true in Q1. apply str_or_nonempty in Es as [Es _]. congruence.
  - right. destruct (some_text (d_provider_session_id d)) as [y|] eqn:Ep; [|done].
    apply str_or_nonempty in Ep as [Ep _]. rewrite Ep. f_equal. by apply Hy.
Qed.

Lemma conclude_ok now i name session d fin row t res t' : conclude now i name session d fin row t = (Ok res, t') ->
  res_outcome res = d_outcome d /\ res_session_id res = session /\
  (res_applied res = true -> assert_can_submit (vr_status row) = Ok tt /\ d_outcome d <> OUTCOME_PENDING).
Proof.
  unfold conclude. destruct (apply_decision _ _ _ _ _) as [row' [ap reason]] eqn:Hap. unfold put_verification, m_bind, m_put, m_ret.
  intros [= <- _]. cbn. split_and!; [done..|]. intros ->. unfold apply_decision in Hap.
  case_decide; [done|]. case_decide; [done|]. destruct (assert_can_submit (vr_status row)) as [[]|]; done.
Qed.

(** A verdict that a callback brings is applied only to an identity that can be decided,
    on its own live session with that provider, and it is either in an authentic message that
    names this session, or it was looked up for exactly the session recorded on the row; a
    forged message can at most cause a look-up. *)
Theorem provider_verdict_bound now i name m t res t' :
  (forall r, verifications t !! i = Some r -> session_named r) ->
  apply_callback cfg registry now i name m t = (Ok res, t') -> res_applied res = true ->
  exists p row a x,
    resolve_provider cfg registry (Some name) = Ok p /\ verifications t !! i = Some row /\
    assert_can_submit (vr_status row) = Ok tt /\ res_outcome res <> OUTCOME_PENDING /\
    vr_active row = Some a /\ as_name a = name /\ now <= as_expires_at a /\ as_session_id a = res_session_id res /\
    as_provider_session_id a = Some x /\
    ((exists d, parse_callback p now m = Ok d /\ authentic p now m /\ d_outcome d = res_outcome res /\
        (cut 128 (d_session_id d) = Some (as_session_id a) \/ cut 128 (d_provider_session_id d) = Some x)) \/
     (exists d, fetch_result p now x = Ok d /\ d_outcome d = res_outcome res)).
Proof.
  intros Hn Hrun Happ. unfold apply_callback in Hrun. run_ok Hrun.
  match goal with E : rbind (parse_callback _ _ _) _ = Ok _ |- _ => rename E into Ed end.
  destruct (parse_callback x now m) as [d0|] eqn:Hparse; [|done]. cbn [rbind] in Ed.
  apply m_bind_ok in Hrun as (row & t1 & Hrow & Hrun). unfold row_or_404 in Hrow. run_ok Hrow.
  destruct (verifications t !! i) as [r|] eqn:Hr; [|done]. injection Hrow as <- <-. run_ok Hrun.
  match goal with E : bind_decision _ _ _ _ = Ok _ |- _ => apply (bind_decision_ok _ _ _ _ _ (Hn r eq_refl)) in E
    as (a & y & Ha & -> & Hname & Hexp & Hy & Hnames & Hpull) end.
  apply normalized_ok in Ed as (Ho & _ & Hrp & Hs & Hps).
  apply m_bind_ok in Hrun as (d & t2 & Hd & Hrun). apply conclude_ok in Hrun as (Hout & Hsess & Hcan).
  destruct (Hcan Happ) as [Hc1 Hc2]. exists x, r, a, y.
  split_and!; try done; [congruence|]. rewrite Hps in Hpull. rewrite Hs, Hps in Hnames.
  destruct (d_requires_pull x0) eqn:Hpl.
  - rewrite Hps in Hd. destruct (some_text (cut 128 (d_provider_session_id d0))) as [z|] eqn:Ez.
    + right. specialize (Hpull _ eq_refl) as ->. apply lift_ok in Hd as [Hd _].
      destruct (fetch_result x now y) as [d1|]; [|done]. cbn [rbind] in Hd. apply normalized_ok in Hd as (Hd & _).
      exists d1. split; [done|congruence].
    + exfalso. apply (callback_pull (authentic := authentic) _ _ _ _ Hparse); [congruence|].
      destruct (cut 128 (d_provider_session_id d0)) as [z|] eqn:Ec; [|done]. unfold cut in Ec; apply str_or_nonempty in Ec as [_ Hz].
      unfold some_text, str_or in Ez. by rewrite decide_False in Ez.
  - injection Hd as <- _. left. exists d0. split_and!; [done| |congruence|done].
    destruct (callback_authentic (authentic := authentic) _ _ _ _ Hparse); [congruence|done].
Qed.
End Verdicts.

(** ** Examples *)

Definition one_session : ActiveSession :=
  {| as_name := "mock"; as_session_id := "s1"; as_provider_session_id := Some "mock-s1"%string; as_mode := None;
     as_created_at := 0; as_expires_at := 1800 * SECOND; as_return_url := None; as_status := None; as_closed_at := None |}.
Definition one_table : IdTables :=
  {| verifications := {[ "alice"%string := with_provider (Some one_session) [] new_verification ]}; templates := ∅; wallets := {| GrantApproval.profiles := []; GrantApproval.agents := ∅ |} |}.
Definition toy_loads (s : string) : option json :=
  Some (JObj [("outcome", JStr "verified"); ("session_id", JStr "s1")]%string).
Definition toy_mock : IdentityProvider MockProvider CallbackMsg :=
  mock_provider (fun _ _ => "00"%string) (fun s => s) (fun _ => Some 5) (fun _ => "5"%string) toy_loads as_text.
Definition toy_registry (name : string) : option MockProvider :=
  Some {| mk_secret := "secret"; mk_tolerance := 300 |}.
Definition toy_msg : CallbackMsg :=
  {| m_headers := [(SIGNATURE_HEADER, "t=5,v1=00"%string)]; m_body := "{}" |}.
Definition toy_settings : ProviderSettings :=
  {| identity_provider := "mock"; identity_provider_public_base_url := "https://x" |}.

Lemma provider_verdict_bound_witness :
  exists res t', apply_callback (H := toy_mock) toy_settings toy_registry (6 * SECOND) "alice" "mock" toy_msg one_table = (Ok res, t') /\
    res_applied res = true /\ exists row a, verifications one_table !! "alice"%string = Some row /\ vr_active row = Some a /\
      as_session_id a = res_session_id res.
Proof.
  eexists _, _. split; [vm_compute; reflexivity|]. split; [vm_compute; reflexivity|].
  edestruct (provider_verdict_bound (H := toy_mock)
    (mock_authentic (fun _ _ => "00"%string) (fun _ => Some 5) (fun _ => "5"%string)) toy_settings toy_registry
    (6 * SECOND) "alice" "mock" toy_msg one_table) as (p & row & a & x & _ & Hr & _ & _ & Ha & _ & _ & Hs & _).
  - intros r Hr. vm_compute in Hr. injection Hr as <-. intros a [= <-]. by eexists.
  - vm_compute. reflexivity.
  - vm_compute. reflexivity.
  - exists row, a. split_and!; [exact Hr|exact Ha|exact Hs].
Defined.
