(* ===== verification/RoleProfiles.v ===== *)
(** * Role profiles, governance roles and reviews

    [services/governance_stake.py], [services/compliance_revocation.py],
    [services/path_param_safety.py] and the routes of
    [api/routes/identity_role_profiles.py], [api/routes/identity_kyc.py] and
    [api/routes/identity_verification.py], on top of [IdentityCheck] and
    [IdentityProvider].  A request is one transaction: an exception discards its changes.
    [actor] is the identity that authentication established.  Role profiles are listed in
    insertion order; new row ids and the clock are arguments. *)
From S2P Require Import Prelude PyText PyFloat FloatFacts PyJson Amounts AtomicLedger Capacity SpendingGrant GrantApproval Arbitration IdentityCheck IdentityProvider.
Open Scope Z_scope.

(** ** Rows and tables *)

Record RoleProfile := {
  rp_id : string;
  rp_owner : string;
  rp_class : string;
  rp_kyc_status : string;
  rp_visibility : string;
  rp_display_name : option string;
  rp_kyc_payload : list (string * json);
  rp_status : string;
  rp_wallet : option string;
  rp_spend_policy : list (string * json);
  rp_stake : float
}.

Record Revocation := {
  vq_id : string;
  vq_kind : string;
  vq_target : string;
  vq_proposed_by : string;
  vq_reason : string;
  vq_proposed_at : Z;
  vq_confirmed_by : option string;
  vq_confirmed_at : option Z;
  vq_status : string
}.

Record RWorld := {
  r_ident : IdTables;
  r_profiles : list RoleProfile;
  r_pool : list PoolMember;
  r_caps : caps_table;
  r_revocations : list Revocation;
  r_security : list (string * string);
  r_notices : list (string * string)
}.
Abbreviation RM := (M RWorld Exc).

Definition put_profiles (f : list RoleProfile -> list RoleProfile) : RM unit :=
  m_put (fun w => {| r_ident := r_ident w; r_profiles := f (r_profiles w); r_pool := r_pool w; r_caps := r_caps w;
                     r_revocations := r_revocations w; r_security := r_security w; r_notices := r_notices w |}).
Definition put_pool (f : list PoolMember -> list PoolMember) : RM unit :=
  m_put (fun w => {| r_ident := r_ident w; r_profiles := r_profiles w; r_pool := f (r_pool w); r_caps := r_caps w;
                     r_revocations := r_revocations w; r_security := r_security w; r_notices := r_notices w |}).
Definition put_revocations (f : list Revocation -> list Revocation) : RM unit :=
  m_put (fun w => {| r_ident := r_ident w; r_profiles := r_profiles w; r_pool := r_pool w; r_caps := r_caps w;
                     r_revocations := f (r_revocations w); r_security := r_security w; r_notices := r_notices w |}).
Definition record_security_event (kind target : string) : RM unit :=
  m_put (fun w => {| r_ident := r_ident w; r_profiles := r_profiles w; r_pool := r_pool w; r_caps := r_caps w;
                     r_revocations := r_revocations w; r_security := r_security w ++ [(kind, target)];
                     r_notices := r_notices w |}).
Definition add_notice (identity kind : string) : RM unit :=
  m_put (fun w => {| r_ident := r_ident w; r_profiles := r_profiles w; r_pool := r_pool w; r_caps := r_caps w;
                     r_revocations := r_revocations w; r_security := r_security w;
                     r_notices := r_notices w ++ [(identity, kind)] |}).
Definition on_ident {A} (c : IdM A) : RM A :=
  zoom r_ident (fun t w => {| r_ident := t; r_profiles := r_profiles w; r_pool := r_pool w; r_caps := r_caps w;
                              r_revocations := r_revocations w; r_security := r_security w;
                              r_notices := r_notices w |}) c.

Definition write_profile (p : RoleProfile) : RM unit :=
  put_profiles (fmap (fun q => if decide (rp_id q = rp_id p) then p else q)).
Definition profile_with_id (i : string) (w : RWorld) : option RoleProfile :=
  head (filter (fun p => rp_id p = i) (r_profiles w)).

(** An exception discards the changes of the request. *)
Definition r_request {A} (c : RM A) : RM A :=
  fun w => match c w with (Ok a, w') => (Ok a, w') | (Err e, _) => (Err e, w) end.


(** ** [services/governance_stake.py] *)

Definition GOV_EPSILON : float := f1em9.
Definition GOVERNANCE_CLASSES : list string := ["verifier"; "arbitrator"]%string.

Record GovPolicy := {
  governance_open_join : bool;
  governance_min_stake_amount : float;
  governance_require_backed_stake : bool;
  governance_verifier_ids : list string;
  admin_actor_ids : list string
}.

Section Governance.
Context (g : GovPolicy).

Definition governance_min_stake : float := py_max fzero (or_zero (Some (governance_min_stake_amount g))).
Definition whitelisted (i : string) : bool := mem (py_strip i) (governance_verifier_ids g).

Definition governance_locked (i : string) (w : RWorld) : float :=
  match r_caps w !! i with None => fzero | Some r => or_zero (Some (locked_usdc r)) end.

Inductive StakeCode := NO_STAKE | BELOW_MIN | UNBACKED | ACTIVE_STAKE.
#[export] Instance StakeCode_eq_dec : EqDecision StakeCode.
Proof. solve_decision. Defined.

Definition stake_state (i : string) (stake_amount : option float) (w : RWorld) : StakeCode * float :=
  let stake := or_zero stake_amount in
  (if (stake <=? fzero)%float then NO_STAKE
   else if (stake + GOV_EPSILON <? governance_min_stake)%float then BELOW_MIN
   else if governance_require_backed_stake g && negb (governance_locked i w + GOV_EPSILON >=? stake)%float then UNBACKED
   else ACTIVE_STAKE, stake).

Definition assert_stake_acceptable (i : string) (stake_amount : option float) : RM float :=
  do! st := m_get (stake_state i stake_amount) in
  match st with
  | (ACTIVE_STAKE, stake) => m_ret stake
  | (NO_STAKE, _) => m_raise (HTTPException 422 "governance stake must be greater than 0")
  | (BELOW_MIN, _) => m_raise (HTTPException 422 "governance stake is below the platform minimum")
  | (UNBACKED, _) => m_raise (HTTPException 409 "governance stake is not backed by locked USDC")
  end.

Definition governance_profile_of (i : string) (class_ : option string) (l : list RoleProfile) : option RoleProfile :=
  head (filter (fun p => rp_owner p = i /\
    match str_or class_ None with
    | Some c => bool_decide (rp_class p = c)
    | None => mem (rp_class p) GOVERNANCE_CLASSES
    end = true) l).

(** The answers of the gate: no role at all, or the reason why the role stands. *)
Inductive Standing := WHITELISTED | APPOINTED | STAKED.
Definition assert_governor_active (i : string) : RM (option Standing) :=
  if whitelisted i then m_ret (Some WHITELISTED)
  else
    do! row := m_get (fun w => governance_profile_of i None (r_profiles w)) in
    match row with
    | None => m_ret None
    | Some p =>
        if (or_zero (Some (rp_stake p)) <=? fzero)%float then m_ret (Some APPOINTED)
        else
          do! st := m_get (stake_state i (Some (rp_stake p))) in
          if decide (fst st = ACTIVE_STAKE) then m_ret (Some STAKED)
          else m_raise (HTTPException 403 "this governance role is not active right now")
    end.

(** ** [api/routes/identity_role_profiles.py] *)

Definition default_visibility (class_ : string) : string :=
  if decide (class_ = "enterprise")%string then "private" else "public".

(** [data.pop("verification", None)]. *)
Definition without_client_verdict (payload : list (string * json)) : list (string * json) :=
  filter (fun kv => fst kv <> "verification"%string) payload.
Definition sanitize_client_kyc_payload (payload : list (string * json)) : result Exc (list (string * json)) :=
  let data := without_client_verdict payload in
  let? _ := assert_no_plaintext data in Ok data.
Definition reject_self_declared_kyc (kyc_status : option string) : result Exc unit :=
  if decide (py_strip (or_str (default ""%string kyc_status) "none") = "none"%string) then Ok tt
  else Err (HTTPException 422 "kyc_status cannot be declared by the owner").

Definition may_grant_governance (actor : option string) : bool :=
  match str_or actor None with
  | None => false
  | Some a => whitelisted a || mem a (admin_actor_ids g)
  end.

Definition resolve_governance_stake (actor class_ : string) (stake_amount : option float) : RM float :=
  if negb (mem class_ GOVERNANCE_CLASSES) then m_ret fzero
  else if whitelisted actor then m_ret fzero
  else if negb (governance_open_join g)
  then m_raise (HTTPException 403 "governance roles cannot be opened without a listed identity or a stake")
  else assert_stake_acceptable actor stake_amount.

Record CreateBody := {
  cb_owner : string;
  cb_class : string;
  cb_kyc_status : string;
  cb_visibility : option string;
  cb_display_name : option string;
  cb_kyc_payload : list (string * json);
  cb_status : string;
  cb_stake : option float
}.

Definition create_role_profile (new_id : string) (actor : option string) (b : CreateBody) : RM RoleProfile :=
  match str_or actor None with
  | None => m_raise (HTTPException 403 "authentication required to create a role profile")
  | Some a =>
      let granting := negb (bool_decide (a = cb_owner b)) in
      if granting && negb (mem (cb_class b) GOVERNANCE_CLASSES && may_grant_governance (Some a))
      then m_raise (HTTPException 403 "owner_identity_id must match the authenticated identity")
      else
        seq! lift (reject_self_declared_kyc (Some (cb_kyc_status b))) in
        do! stake := if granting then m_ret fzero
                     else resolve_governance_stake a (cb_class b) (cb_stake b) in
        do! payload := lift (sanitize_client_kyc_payload (cb_kyc_payload b)) in
        let p := {| rp_id := new_id; rp_owner := cb_owner b; rp_class := cb_class b; rp_kyc_status := "none";
                    rp_visibility := default (default_visibility (cb_class b)) (str_or (cb_visibility b) None);
                    rp_display_name := cb_display_name b; rp_kyc_payload := payload; rp_status := cb_status b;
                    rp_wallet := None; rp_spend_policy := []; rp_stake := stake |} in
        seq! put_profiles (fun l => l ++ [p]) in
        if granting
        then seq! record_security_event "governance_role_granted" new_id in
             seq! add_notice (cb_owner b) "governance_role_granted" in m_ret p
        else m_ret p
  end.

Definition profile_or_404 (i : string) : RM RoleProfile :=
  do! row := m_get (profile_with_id i) in
  match row with Some p => m_ret p | None => m_raise (HTTPException 404 "role profile not found") end.

Definition require_profile_owner (actor : option string) (p : RoleProfile) : RM unit :=
  match str_or actor None with
  | Some a => if decide (a = rp_owner p) then m_ret tt
              else m_raise (HTTPException 403 "only the profile owner may do this")
  | None => m_raise (HTTPException 403 "only the profile owner may do this")
  end.

(** A field that was not sent is [None]; a null class, visibility or status is [Some None]
    and violates the column; a null payload or policy is the empty one. *)
Record UpdateBody := {
  ub_class : option (option string);
  ub_stake : option (option float);
  ub_kyc_status : option (option string);
  ub_visibility : option (option string);
  ub_display_name : option (option string);
  ub_kyc_payload : option (list (string * json));
  ub_spend_policy : option (list (string * json));
  ub_status : option (option string)
}.

Definition set_class (c : string) (stake : float) (p : RoleProfile) : RoleProfile :=
  {| rp_id := rp_id p; rp_owner := rp_owner p; rp_class := c; rp_kyc_status := rp_kyc_status p;
     rp_visibility := rp_visibility p; rp_display_name := rp_display_name p; rp_kyc_payload := rp_kyc_payload p;
     rp_status := rp_status p; rp_wallet := rp_wallet p; rp_spend_policy := rp_spend_policy p; rp_stake := stake |}.
Definition set_kyc (status : string) (payload : list (string * json)) (p : RoleProfile) : RoleProfile :=
  {| rp_id := rp_id p; rp_owner := rp_owner p; rp_class := rp_class p; rp_kyc_status := status;
     rp_visibility := rp_visibility p; rp_display_name := rp_display_name p; rp_kyc_payload := payload;
     rp_status := rp_status p; rp_wallet := rp_wallet p; rp_spend_policy := rp_spend_policy p; rp_stake := rp_stake p |}.
Definition set_shown (visibility : string) (name : option string) (policy : list (string * json)) (status : string)
    (p : RoleProfile) : RoleProfile :=
  {| rp_id := rp_id p; rp_owner := rp_owner p; rp_class := rp_class p; rp_kyc_status := rp_kyc_status p;
     rp_visibility := visibility; rp_display_name := name; rp_kyc_payload := rp_kyc_payload p;
     rp_status := status; rp_wallet := rp_wallet p; rp_spend_policy := policy; rp_stake := rp_stake p |}.
Definition set_wallet (wallet : string) (p : RoleProfile) : RoleProfile :=
  {| rp_id := rp_id p; rp_owner := rp_owner p; rp_class := rp_class p; rp_kyc_status := rp_kyc_status p;
     rp_visibility := rp_visibility p; rp_display_name := rp_display_name p; rp_kyc_payload := rp_kyc_payload p;
     rp_status := rp_status p; rp_wallet := Some wallet; rp_spend_policy := rp_spend_policy p; rp_stake := rp_stake p |}.

Definition update_role_profile (i : string) (actor : option string) (b : UpdateBody) : RM RoleProfile :=
  seq! lift (validate_public_url_segment i) in
  do! p := profile_or_404 i in
  seq! require_profile_owner actor p in
  let a := rp_owner p in
  do! p := match ub_class b with
           | None => m_ret p
           | Some None => m_ret (set_class "" fzero p)
           | Some (Some c) =>
               if decide (c = rp_class p) then m_ret p
               else do! stake := resolve_governance_stake a c (mjoin (ub_stake b)) in m_ret (set_class c stake p)
           end in
  do! p := match ub_stake b with
           | Some s => if mem (rp_class p) GOVERNANCE_CLASSES
                       then do! stake := resolve_governance_stake a (rp_class p) s in m_ret (set_class (rp_class p) stake p)
                       else m_ret p
           | None => m_ret p
           end in
  seq! match ub_kyc_status b with Some k => lift (reject_self_declared_kyc k) | None => m_ret tt end in
  do! payload := match ub_kyc_payload b with
                 | Some d => lift (sanitize_client_kyc_payload d)
                 | None => m_ret (rp_kyc_payload p)
                 end in
  let p := set_kyc (rp_kyc_status p) payload p in
  if decide (ub_class b = Some None \/ ub_visibility b = Some None \/ ub_status b = Some None)
  then m_raise IntegrityError
  else
    let p := set_shown (default (rp_visibility p) (mjoin (ub_visibility b)))
               (default (rp_display_name p) (ub_display_name b))
               (default (rp_spend_policy p) (ub_spend_policy b)) (default (rp_status p) (mjoin (ub_status b))) p in
    seq! write_profile p in
    m_ret p.

(** The role is taken away: the profile is disabled and an arbitrator leaves the pool. *)
Definition pool_off (i : string) (l : list PoolMember) : list PoolMember :=
  (fun m => if decide (pm_id m = i)
            then {| pm_id := pm_id m; pm_stake := pm_stake m; pm_active := false; pm_joined_at := pm_joined_at m |}
            else m) <$> l.

Definition revoke_governance_role (i : string) (actor : option string) : RM RoleProfile :=
  seq! lift (validate_public_url_segment i) in
  do! p := profile_or_404 i in
  if negb (mem (rp_class p) GOVERNANCE_CLASSES)
  then m_raise (HTTPException 409 "only verifier / arbitrator profiles can be revoked this way")
  else if negb (may_grant_governance actor)
  then m_raise (HTTPException 403 "only a governance issuer or admin can revoke a governance role")
  else
    let p' := set_shown (rp_visibility p) (rp_display_name p) (rp_spend_policy p) "disabled" p in
    seq! write_profile p' in
    seq! (if decide (rp_class p = "arbitrator")%string then put_pool (pool_off (rp_owner p)) else m_ret tt) in
    seq! record_security_event "governance_role_revoked" i in
    seq! add_notice (rp_owner p) "governance_role_revoked" in
    m_ret p'.

(** ** [api/routes/identity_kyc.py] *)

Definition require_kyc_verifier (actor : option string) (p : RoleProfile) : RM string :=
  match str_or actor None with
  | None => m_raise (HTTPException 403 "authentication required to verify KYC")
  | Some a =>
      if decide (a = rp_owner p) then m_raise (HTTPException 403 "owner cannot verify its own KYC")
      else
        do! rows := m_get (fun w => filter (fun q => rp_owner q = a /\ rp_class q = "verifier"%string) (r_profiles w)) in
        match rows with
        | [] => m_raise (HTTPException 403 "only a verifier-class profile can verify KYC")
        | [_] => seq! assert_governor_active a in m_ret a
        | _ => m_raise MultipleResultsFound
        end
  end.

Definition submit_kyc (i : string) (actor : option string) (payload : list (string * json)) : RM RoleProfile :=
  seq! lift (validate_public_url_segment i) in
  do! p := profile_or_404 i in
  seq! require_profile_owner actor p in
  if negb (mem "pending"%string (VERIFY_TRANSITIONS (or_str (rp_kyc_status p) "none")))
  then m_raise (HTTPException 409 "cannot submit KYC from this status")
  else
    seq! lift (assert_no_plaintext payload) in
    let p' := set_kyc "pending" (without_client_verdict payload) p in
    seq! write_profile p' in
    m_ret p'.

(** The decision of a reviewer. *)
Inductive Review := REVIEW_VERIFIED | REVIEW_REJECTED.
Definition review_value (d : Review) : string :=
  match d with REVIEW_VERIFIED => "verified" | REVIEW_REJECTED => "rejected" end.

Definition kyc_verdict (decision : string) (reason : option string) (by_ at_ : string) : json :=
  JObj [("decision", JStr decision); ("reason", opt_json reason); ("verified_by", JStr by_);
        ("verified_at", JStr at_)]%string.

(** [at_] is the time as text. *)
Definition verify_kyc (at_ i : string) (actor : option string) (d : Review) (reason : option string) :
    RM RoleProfile :=
  let decision := review_value d in
  seq! lift (validate_public_url_segment i) in
  do! p := profile_or_404 i in
  do! a := require_kyc_verifier actor p in
  if negb (mem decision (VERIFY_TRANSITIONS (or_str (rp_kyc_status p) "none")))
  then m_raise (HTTPException 409 "cannot verify KYC from this status")
  else
    let p' := set_kyc decision (dict_set "verification"%string (kyc_verdict decision reason a at_) (rp_kyc_payload p)) p in
    seq! write_profile p' in
    m_ret p'.

(** ** [services/compliance_revocation.py] *)

Definition TARGET_ENTITY : string := "entity_verification".
Definition TARGET_ROLE_PROFILE_KYC : string := "role_profile_kyc".
Definition REVOCATION_TRANSITIONS (status : string) : list string :=
  if decide (status = "verified")%string then ["rejected"%string] else [].
Definition PROPOSAL_TTL : Z := 24 * 3600 * SECOND.
Definition MIN_REASON_CHARS : Z := 10.

Definition normalize_reason (reason : string) : result Exc string :=
  let text := py_strip reason in
  if py_len text <? MIN_REASON_CHARS then Err (HTTPException 422 "a revocation needs a reason")
  else Ok (take_chars 2000 text).

Definition assert_can_revoke (status : string) : result Exc unit :=
  if mem "rejected"%string (REVOCATION_TRANSITIONS (or_none status)) then Ok tt
  else Err (HTTPException 409 "only a verified record can be revoked").

Definition is_privileged_revoker (i : string) : bool :=
  negb (bool_decide (py_strip i = ""%string)) && mem (py_strip i) (admin_actor_ids g).

Definition require_revoker (actor : option string) (owner : string) : RM (string * bool) :=
  match str_or actor None with
  | None => m_raise (HTTPException 403 "authentication required to revoke a verification")
  | Some a =>
      if is_privileged_revoker a then m_ret (a, true)
      else if decide (a = owner) then m_raise (HTTPException 403 "the owner cannot revoke its own verification")
      else
        do! row := m_get (fun w => head (filter (fun q => rp_owner q = a /\ rp_class q = "verifier"%string
                                                          /\ rp_status q = "active"%string) (r_profiles w))) in
        match row with
        | None => m_raise (HTTPException 403 "only a reviewer or a listed operator can revoke")
        | Some _ => seq! assert_governor_active a in m_ret (a, false)
        end
  end.

Definition set_revocation (status : string) (by_ : option string) (at_ : option Z) (r : Revocation) : Revocation :=
  {| vq_id := vq_id r; vq_kind := vq_kind r; vq_target := vq_target r; vq_proposed_by := vq_proposed_by r;
     vq_reason := vq_reason r; vq_proposed_at := vq_proposed_at r; vq_confirmed_by := by_; vq_confirmed_at := at_;
     vq_status := status |}.
Definition write_revocation (r : Revocation) : RM unit :=
  put_revocations (fmap (fun q => if decide (vq_id q = vq_id r) then r else q)).

(** The newest pending request of a target. *)
Definition newest_pending (kind target : string) (w : RWorld) : option Revocation :=
  foldr (fun r acc => match acc with
                      | Some r' => if vq_proposed_at r <? vq_proposed_at r' then Some r' else Some r
                      | None => Some r
                      end) None
    (filter (fun r => vq_kind r = kind /\ vq_target r = target /\ vq_status r = "pending"%string) (r_revocations w)).

Definition open_proposal (now : Z) (kind target : string) : RM (option Revocation) :=
  do! row := m_get (newest_pending kind target) in
  match row with
  | None => m_ret None
  | Some r => if PROPOSAL_TTL <? now - vq_proposed_at r
              then seq! write_revocation (set_revocation "expired" (vq_confirmed_by r) (vq_confirmed_at r) r) in m_ret None
              else m_ret (Some r)
  end.

Record Outcome := {
  oc_executed : bool;
  oc_path : string;
  oc_proposed_by : string;
  oc_confirmed_by : option string;
  oc_reason : string
}.

Definition propose_or_confirm (now : Z) (new_id kind target actor reason : string) (privileged : bool) : RM Outcome :=
  do! open := open_proposal now kind target in
  if privileged
  then
    seq! match open with
         | Some r => write_revocation (set_revocation "superseded" (vq_confirmed_by r) (vq_confirmed_at r) r)
         | None => m_ret tt
         end in
    seq! put_revocations (fun l => l ++
           [{| vq_id := new_id; vq_kind := kind; vq_target := target; vq_proposed_by := actor; vq_reason := reason;
               vq_proposed_at := now; vq_confirmed_by := Some actor; vq_confirmed_at := Some now;
               vq_status := "executed" |}]) in
    m_ret {| oc_executed := true; oc_path := "operator"; oc_proposed_by := actor; oc_confirmed_by := Some actor;
             oc_reason := reason |}
  else match open with
       | None =>
           seq! put_revocations (fun l => l ++
                  [{| vq_id := new_id; vq_kind := kind; vq_target := target; vq_proposed_by := actor;
                      vq_reason := reason; vq_proposed_at := now; vq_confirmed_by := None; vq_confirmed_at := None;
                      vq_status := "pending" |}]) in
           m_ret {| oc_executed := false; oc_path := "verifier"; oc_proposed_by := actor; oc_confirmed_by := None;
                    oc_reason := reason |}
       | Some r =>
           if decide (vq_proposed_by r = actor)
           then m_raise (HTTPException 409 "a reviewer cannot confirm its own revocation")
           else
             seq! write_revocation (set_revocation "executed" (Some actor) (Some now) r) in
             m_ret {| oc_executed := true; oc_path := "two_person"; oc_proposed_by := vq_proposed_by r;
                      oc_confirmed_by := Some actor; oc_reason := vq_reason r |}
       end.

Definition apply_kyc_revocation (at_ : string) (o : Outcome) (p : RoleProfile) : RoleProfile :=
  set_kyc "rejected" (dict_set "verification"%string
    (JObj [("decision", JStr "rejected"); ("kind", JStr "compliance_revocation"); ("reason", JStr (oc_reason o));
           ("proposed_by", JStr (oc_proposed_by o)); ("verified_by", opt_json (oc_confirmed_by o));
           ("verified_at", JStr at_); ("path", JStr (oc_path o))]%string) (rp_kyc_payload p)) p.

(** [revoke_kyc] of [api/routes/identity_kyc.py]. *)
Definition revoke_kyc (now : Z) (at_ new_id i : string) (actor : option string) (reason : string) : RM Outcome :=
  seq! lift (validate_public_url_segment i) in
  do! p := profile_or_404 i in
  do! who := require_revoker actor (rp_owner p) in
  seq! lift (assert_can_revoke (rp_kyc_status p)) in
  do! reason := lift (normalize_reason reason) in
  do! o := propose_or_confirm now new_id TARGET_ROLE_PROFILE_KYC i (fst who) reason (snd who) in
  if negb (oc_executed o) then m_ret o
  else
    seq! write_profile (apply_kyc_revocation at_ o p) in
    seq! record_security_event "verification_revoked" i in
    m_ret o.
End Governance.

(** ** Routes that look at faces, wallets and documents *)

Section FaceRoutes.
Context (g : GovPolicy) (fp : FacePolicy) (str_of : json -> string) (int_of_text : string -> option Z)
        (parse_float : string -> option float) (fmt4 : float -> string)
        (recover : string -> string -> option string).

Definition same_person_check (p : RoleProfile) (b : SamePersonBody) : RM Verdict :=
  on_ident (assert_same_person fp str_of int_of_text parse_float fmt4 recover (rp_owner p) (rp_id p) (rp_class p) b).

(** What the profile keeps of the check; [at_] is its time as text. *)
Definition face_record (at_ : string) (v : Verdict) : json :=
  JObj [("mode", JStr "device_template"); ("score", JFloat (ve_score v)); ("threshold", JFloat (ve_threshold v));
        ("reference_digest", JStr (ve_reference v)); ("capture_digest", JStr (ve_capture v));
        ("angles", JInt (lv_angles (ve_liveness v))); ("reference_source", JStr (ve_reference_source v));
        ("reviewer", JStr CONSISTENCY_REVIEWER); ("checked_at", JStr at_)]%string.

Definition confirm_role_profile_same_person (at_ i : string) (actor : option string) (b : SamePersonBody) :
    RM RoleProfile :=
  seq! lift (validate_public_url_segment i) in
  do! p := profile_or_404 i in
  seq! require_profile_owner actor p in
  do! v := same_person_check p b in
  let p' := set_kyc "verified" (dict_set "face_consistency"%string (face_record at_ v) (rp_kyc_payload p)) p in
  seq! write_profile p' in
  m_ret p'.

(** [face] is the evidence for a change of the wallet, when the request has it. *)
Definition bind_role_profile_wallet (i : string) (actor : option string) (wallet_address sig : string)
    (face : option SamePersonBody) : RM RoleProfile :=
  seq! lift (validate_public_url_segment i) in
  do! p := profile_or_404 i in
  seq! require_profile_owner actor p in
  let wallet := py_strip wallet_address in
  let previous := lower_strip (default ""%string (rp_wallet p)) in
  let rebind := negb (bool_decide (previous = ""%string)) && negb (bool_decide (previous = py_lower wallet)) in
  seq! lift (verify_personal_message recover (build_bind_wallet_message i (rp_owner p) wallet) wallet sig) in
  seq! (if rebind
        then match face with
             | None => m_raise (HTTPException 409 "changing the bound wallet requires a fresh face check")
             | Some b =>
                 if bool_decide (sp_wallet_address b = ""%string) || bool_decide (sp_wallet_signature b = ""%string)
                 then m_raise (HTTPException 409 "changing the bound wallet requires a fresh face check")
                 else seq! same_person_check p b in m_ret tt
             end
        else m_ret tt) in
  let p' := set_wallet (py_lower wallet) p in
  seq! write_profile p' in
  seq! (if rebind
        then seq! record_security_event "identity_wallet_rebind" i in add_notice (rp_owner p) "wallet_rebound"
        else m_ret tt) in
  m_ret p'.

(** ** [api/routes/identity_verification.py] *)

Definition require_identity_owner (actor : option string) (i : string) : RM unit :=
  match str_or actor None with
  | None => m_raise (HTTPException 403 "authentication required to manage identity verification")
  | Some a => if decide (a = i) then m_ret tt
              else m_raise (HTTPException 403 "only the identity owner can manage its verification")
  end.

Definition require_identity_verifier (actor : option string) (i : string) : RM string :=
  match str_or actor None with
  | None => m_raise (HTTPException 403 "authentication required to verify identity")
  | Some a =>
      if decide (a = i) then m_raise (HTTPException 403 "an identity cannot verify itself")
      else
        do! row := m_get (fun w => head (filter (fun q => rp_owner q = a /\ rp_class q = "verifier"%string) (r_profiles w))) in
        match row with
        | None => m_raise (HTTPException 403 "only a verifier-class profile can verify identity")
        | Some _ => seq! assert_governor_active g a in m_ret a
        end
  end.

Definition verification_of (i : string) (w : RWorld) : option VerificationRow := verifications (r_ident w) !! i.

Definition submit_identity_verification (i : string) (actor : option string) (b : SubmitBody) : RM VerificationRow :=
  seq! lift (validate_public_url_segment i) in
  seq! require_identity_owner actor i in
  do! s := lift (build_submission str_of int_of_text b) in
  do! row := m_get (verification_of i) in
  seq! lift (assert_can_submit (match row with Some r => vr_status r | None => "none"%string end)) in
  let row := submitted (sub_level s) (Some (sub_doc_digest s)) (sub_face_digest s) (sub_package_digest s)
               (sub_package_cipher s) (sub_encryption s) (sub_extracted s) (default new_verification row) in
  seq! on_ident (put_verification i row) in
  m_ret row.

Definition face_activate_identity_verification (now : Z) (i : string) (actor : option string) (b : FaceBody) :
    RM VerificationRow :=
  seq! lift (validate_public_url_segment i) in
  seq! require_identity_owner actor i in
  on_ident (activate_by_face fp str_of int_of_text parse_float recover now i b).

Definition verify_identity_verification (now : Z) (i : string) (actor : option string) (d : Review)
    (reason : option string) : RM VerificationRow :=
  let decision := review_value d in
  seq! lift (validate_public_url_segment i) in
  do! reviewer := require_identity_verifier actor i in
  do! row := m_get (verification_of i) in
  match row with
  | None => m_raise (HTTPException 404 "identity verification not found")
  | Some r =>
      seq! lift (assert_can_decide (vr_status r) decision) in
      let r' := if decide (decision = "verified")%string then mark_verified now reviewer reason r
                else decided "rejected" reviewer (cut_note reason) None r in
      seq! on_ident (put_verification i r') in
      m_ret r'
  end.
End FaceRoutes.

Section ProviderRoutes.
Context {P Msg : Type} `{IdentityProvider P Msg} (cfg : ProviderSettings) (registry : string -> option P).

(** [return_url] has passed the check of the site's own origins. *)
Definition create_identity_provider_session (now : Z) (new_id i : string) (actor : option string)
    (return_url : option string) : RM string :=
  seq! lift (validate_public_url_segment i) in
  seq! require_identity_owner actor i in
  on_ident (start_session cfg registry now new_id i return_url).

Definition sync_identity_provider_session (now : Z) (i : string) (actor : option string) : RM CallbackResult :=
  seq! lift (validate_public_url_segment i) in
  seq! require_identity_owner actor i in
  on_ident (sync_active_session cfg registry now i).

Definition identity_provider_callback (now : Z) (i : string) (name : option string) (m : Msg) : RM CallbackResult :=
  seq! lift (validate_public_url_segment i) in
  let name := lower_strip (default (configured_name cfg) (str_or name None)) in
  if decide (name = "none")%string
  then m_raise (HTTPException 409 "no real-name/liveness provider is configured")
  else on_ident (apply_callback cfg registry now i name m).
End ProviderRoutes.

(** ** Runs of requests *)

Section Runs.
Context {P Msg : Type} `{IdentityProvider P Msg} (authentic : P -> Z -> Msg -> Prop)
        `{!ProviderLaws P Msg authentic} (cfg : ProviderSettings) (registry : string -> option P)
        (g : GovPolicy) (fp : FacePolicy) (str_of : json -> string) (int_of_text : string -> option Z)
        (parse_float : string -> option float) (fmt4 : float -> string)
        (recover : string -> string -> option string).

Inductive role_op :=
| OpCreate (new_id : string) (actor : option string) (b : CreateBody)
| OpUpdate (i : string) (actor : option string) (b : UpdateBody)
| OpRevokeRole (i : string) (actor : option string)
| OpSubmitKyc (i : string) (actor : option string) (payload : list (string * json))
| OpVerifyKyc (at_ i : string) (actor : option string) (d : Review) (reason : option string)
| OpRevokeKyc (now : Z) (at_ new_id i : string) (actor : option string) (reason : string)
| OpFaceKyc (at_ i : string) (actor : option string) (b : SamePersonBody)
| OpBindWallet (i : string) (actor : option string) (wallet sig : string) (face : option SamePersonBody)
| OpSubmit (i : string) (actor : option string) (b : SubmitBody)
| OpFace (now : Z) (i : string) (actor : option string) (b : FaceBody)
| OpVerify (now : Z) (i : string) (actor : option string) (d : Review) (reason : option string)
| OpSession (now : Z) (new_id i : string) (actor : option string) (ret : option string)
| OpSync (now : Z) (i : string) (actor : option string)
| OpCallback (now : Z) (i : string) (name : option string) (m : Msg).

Definition void {A} (c : RM A) : RM unit := seq! c in m_ret tt.

Definition run_role_op (o : role_op) : RM unit :=
  r_request match o with
  | OpCreate n a b => void (create_role_profile g n a b)
  | OpUpdate i a b => void (update_role_profile g i a b)
  | OpRevokeRole i a => void (revoke_governance_role g i a)
  | OpSubmitKyc i a pl => void (submit_kyc i a pl)
  | OpVerifyKyc at_ i a d r => void (verify_kyc g at_ i a d r)
  | OpRevokeKyc now at_ n i a r => void (revoke_kyc g now at_ n i a r)
  | OpFaceKyc at_ i a b =>
      void (confirm_role_profile_same_person fp str_of int_of_text parse_float fmt4 recover at_ i a b)
  | OpBindWallet i a w s f => void (bind_role_profile_wallet fp str_of int_of_text parse_float fmt4 recover i a w s f)
  | OpSubmit i a b => void (submit_identity_verification str_of int_of_text i a b)
  | OpFace now i a b => void (face_activate_identity_verification fp str_of int_of_text parse_float recover now i a b)
  | OpVerify now i a d r => void (verify_identity_verification g now i a d r)
  | OpSession now n i a ret => void (create_identity_provider_session cfg registry now n i a ret)
  | OpSync now i a => void (sync_identity_provider_session cfg registry now i a)
  | OpCallback now i n m => void (identity_provider_callback cfg registry now i n m)
  end.
Definition run_role_ops (os : list role_op) (w : RWorld) : RWorld := fold_left (fun w o => exec (run_role_op o) w) os w.

(** *** Verification rows *)

(** Who may have stamped a row: the platform's face check, a provider, or somebody else. *)
Definition stamped (i r : string) : Prop :=
  r = FACE_REVIEWER \/ starts_with PROVIDER_REVIEWER_PREFIX r = true \/ r <> i.

Record row_wf (i : string) (r : VerificationRow) : Prop := {
  rw_status : vr_status r ∈ ["none"; "pending"; "verified"; "rejected"]%string;
  rw_named : session_named r;
  rw_verified : vr_status r = "verified"%string ->
    vr_verified_at r <> None /\ exists s, vr_reviewer r = Some s /\ stamped i s;
  rw_not_verified : vr_status r <> "verified"%string -> vr_verified_at r = None
}.

(** What a verified row keeps for ever. *)
Definition verdict_of (r : VerificationRow) :=
  (vr_status r, vr_doc_digest r, vr_face_digest r, vr_package_digest r, vr_reviewer r, vr_note r, vr_verified_at r).

(** One request on one row: the row stays well formed, and a verified one keeps its verdict. *)
Definition row_step (i : string) (r : option VerificationRow) (r' : VerificationRow) : Prop :=
  (forall r0, r = Some r0 -> row_wf i r0) ->
  row_wf i r' /\ forall r0, r = Some r0 -> vr_status r0 = "verified"%string -> verdict_of r' = verdict_of r0.

(** What a request may do to the verifications. *)
Definition rows_step (t t' : gmap string VerificationRow) : Prop :=
  t' = t \/ exists i r', t' = <[i := r']> t /\ row_step i (t !! i) r'.

Lemma can_submit_not_verified s : assert_can_submit s = Ok tt -> s <> "verified"%string.
Proof. intros Hs ->. vm_compute in Hs. done. Qed.

Lemma or_none_id s : s ∈ ["none"; "pending"; "verified"; "rejected"]%string -> or_none s = s.
Proof. intros Hs. repeat (apply elem_of_cons in Hs as [->|Hs]; [done|]). by apply elem_of_nil in Hs. Qed.

Lemma submitted_step i r level doc face package cipher enc ex :
  assert_can_submit (match r with Some r => vr_status r | None => "none"%string end) = Ok tt ->
  row_step i r (submitted level doc face package cipher enc ex (default new_verification r)).
Proof.
  intros Hc Hwf. split.
  - split; cbn; [set_solver| |done|done]. intros a Ha. destruct r as [r0|]; [|done]. cbn in Ha. by apply (rw_named _ _ (Hwf _ eq_refl)).
  - intros r0 -> Hv. rewrite Hv in Hc. by apply can_submit_not_verified in Hc.
Qed.

Lemma prefix_app p s : starts_with p (p +:+ s)%string = true.
Proof. unfold starts_with. induction p as [|c p IH]; simpl; [by destruct s|]. by destruct (Ascii.ascii_dec c c). Qed.

Definition named (a : ActiveSession) : Prop := exists x, as_provider_session_id a = Some x /\ x <> ""%string.

Lemma provider_wf i r a ev : row_wf i r -> (forall x, a = Some x -> named x) -> row_wf i (with_provider a ev r).
Proof. intros [Hs _ Hv Hn] Ha. split; cbn; try done. Qed.

Lemma verified_wf i r reviewer note now : session_named r -> stamped i reviewer ->
  row_wf i (mark_verified now reviewer note r).
Proof. intros Hn Hs. split; cbn; [set_solver|done| |done]. intros _. split; [done|]. by exists reviewer. Qed.

Lemma rejected_wf i r reviewer note : session_named r -> row_wf i (decided "rejected" reviewer note None r).
Proof. intros Hn. split; cbn; [set_solver|done|done|done]. Qed.

Lemma event_wf i r now e ap d : row_wf i r -> row_wf i (record_provider_event now e ap d r).
Proof. intros Hr. apply provider_wf; [done|]. intros x Hx. by apply (rw_named _ _ Hr). Qed.

Lemma new_wf i : row_wf i new_verification.
Proof. split; cbn; [by left|by intros a|by intros|by intros]. Qed.

Lemma row_wf_default i (r : option VerificationRow) : (forall r0, r = Some r0 -> row_wf i r0) ->
  row_wf i (default new_verification r).
Proof. destruct r as [r0|]; cbn; [by intros Hr; apply Hr|]. intros _. apply new_wf. Qed.

(** A decision on a row that is not verified yet. *)
Lemma decision_step i r0 r' : vr_status r0 <> "verified"%string -> (row_wf i r0 -> row_wf i r') ->
  row_step i (Some r0) r'.
Proof. intros Hs Hw Hwf. split; [by apply Hw, Hwf|]. intros r1 [= <-] Hv. done. Qed.

Lemma provider_step i r a ev : (row_wf i (default new_verification r) -> forall x, a = Some x -> named x) ->
  row_step i r (with_provider a ev (default new_verification r)).
Proof.
  intros Ha Hwf. pose proof (row_wf_default i r Hwf) as Hd. split; [apply provider_wf; auto|]. intros r0 -> _. done.
Qed.

(** The row a verdict leaves. *)
Lemma conclude_step now i name session d fin r t res t' :
  verifications t !! i = Some r -> conclude now i name session d fin r t = (Ok res, t') ->
  rows_step (verifications t) (verifications t').
Proof.
  intros Hr. unfold conclude, put_verification, m_bind, m_put, m_ret.
  destruct (apply_decision now name session d r) as [r1 [ap reason]] eqn:Hap. intros [= _ <-]. cbn [verifications].
  right. eexists i, _. split; [done|]. rewrite Hr. unfold apply_decision in Hap.
  destruct (decide (vr_status r = "verified"%string)) as [Hv|Hv].
  { injection Hap as <- <- _. cbn. intros Hwf. split; [apply event_wf; by apply Hwf|]. by intros r0 [= <-] _. }
  apply decision_step; [done|]. intros Hwf. pose proof (rw_named _ _ Hwf) as Hn.
  destruct (decide (d_outcome d = OUTCOME_PENDING)). { injection Hap as <- <- _. by apply event_wf. }
  destruct (assert_can_submit (vr_status r)); [|by injection Hap as <- <- _].
  injection Hap as <- <- _. set (r2 := if decide (d_outcome d = OUTCOME_VERIFIED) then _ else _).
  assert (Hw2 : row_wf i r2).
  { unfold r2. case_decide; [apply verified_wf; [done|]|by apply rejected_wf]. right. left. apply prefix_app. }
  unfold finish_session. apply provider_wf; [by apply event_wf|]. cbn.
  intros x (act & Ha & ->)%fmap_Some. cbn. assert (named act) as (y & Hy & Hne) by (by apply (rw_named _ _ Hw2)).
  unfold named. cbn. unfold str_or. destruct fin as [z|]; [case_decide|]; eauto.
Qed.

(** Requests on profiles leave the verifications alone. *)
Definition keeps {A} (c : RM A) : Prop :=
  forall w a w', c w = (Ok a, w') -> verifications (r_ident w') = verifications (r_ident w).

Lemma ikeeps_ret {A} (x : A) : keeps (m_ret x).
Proof. by intros w a w' [= _ <-]. Qed.
Lemma ikeeps_raise {A} e : keeps (A := A) (m_raise e).
Proof. done. Qed.
Lemma ikeeps_get {A} (f : RWorld -> A) : keeps (m_get f).
Proof. by intros w a w' [= _ <-]. Qed.
Lemma ikeeps_lift {A} (r : result Exc A) : keeps (lift r).
Proof. by intros w a w' [_ ->]%lift_ok. Qed.
Lemma ikeeps_bind {A B} (c : RM A) (k : A -> RM B) : keeps c -> (forall x, keeps (k x)) -> keeps (m_bind c k).
Proof. intros Hc Hk w b w' (x & w1 & H1 & H2)%m_bind_ok. by rewrite (Hk _ _ _ _ H2), (Hc _ _ _ H1). Qed.
Lemma keeps_profiles f : keeps (put_profiles f).
Proof. by intros w a w' [= _ <-]. Qed.
Lemma keeps_pool f : keeps (put_pool f).
Proof. by intros w a w' [= _ <-]. Qed.
Lemma keeps_revocations f : keeps (put_revocations f).
Proof. by intros w a w' [= _ <-]. Qed.
Lemma keeps_security k x : keeps (record_security_event k x).
Proof. by intros w a w' [= _ <-]. Qed.
Lemma keeps_notice k x : keeps (add_notice k x).
Proof. by intros w a w' [= _ <-]. Qed.
Lemma keeps_write p : keeps (write_profile p).
Proof. apply keeps_profiles. Qed.
Lemma keeps_write_revocation r : keeps (write_revocation r).
Proof. apply keeps_revocations. Qed.
Create HintDb keep.
#[local] Hint Resolve ikeeps_ret ikeeps_raise ikeeps_get ikeeps_lift keeps_profiles keeps_pool keeps_revocations
  keeps_security keeps_notice keeps_write keeps_write_revocation : keep.
Ltac keep := repeat first [progress auto with keep | apply ikeeps_bind; [|intros ?] | case_match | progress intros].

Lemma keeps_same_person p b : keeps (same_person_check fp str_of int_of_text parse_float fmt4 recover p b).
Proof.
  intros w a w' Hc. unfold same_person_check, on_ident, zoom in Hc.
  destruct (assert_same_person _ _ _ _ _ _ _ _ _ _ _) as [[v|e] t'] eqn:E; [|done]. injection Hc as _ <-. cbn.
  apply same_person_sound in E as (_ & E & _). done.
Qed.
#[local] Hint Resolve keeps_same_person : keep.

Lemma ikeeps_create n a b : keeps (create_role_profile g n a b).
Proof. unfold create_role_profile, resolve_governance_stake, assert_stake_acceptable. keep. Qed.
Lemma keeps_update i a b : keeps (update_role_profile g i a b).
Proof.
  unfold update_role_profile, profile_or_404, require_profile_owner, resolve_governance_stake, assert_stake_acceptable. keep.
Qed.
Lemma keeps_revoke_role i a : keeps (revoke_governance_role g i a).
Proof. unfold revoke_governance_role, profile_or_404. keep. Qed.
Lemma keeps_submit_kyc i a pl : keeps (submit_kyc i a pl).
Proof. unfold submit_kyc, profile_or_404, require_profile_owner. keep. Qed.
Lemma keeps_governor a : keeps (assert_governor_active g a).
Proof. unfold assert_governor_active. keep. Qed.
#[local] Hint Resolve keeps_governor : keep.
Lemma keeps_verify_kyc t i a d r : keeps (verify_kyc g t i a d r).
Proof. unfold verify_kyc, profile_or_404, require_kyc_verifier. keep. Qed.
Lemma keeps_revoke_kyc now t n i a r : keeps (revoke_kyc g now t n i a r).
Proof. unfold revoke_kyc, profile_or_404, require_revoker, propose_or_confirm, open_proposal. keep. Qed.
Lemma keeps_face_kyc t i a b :
  keeps (confirm_role_profile_same_person fp str_of int_of_text parse_float fmt4 recover t i a b).
Proof. unfold confirm_role_profile_same_person, profile_or_404, require_profile_owner. keep. Qed.
Lemma keeps_bind_wallet i a w s f :
  keeps (bind_role_profile_wallet fp str_of int_of_text parse_float fmt4 recover i a w s f).
Proof. unfold bind_role_profile_wallet, profile_or_404, require_profile_owner. keep. Qed.
Lemma keeps_owner a i : keeps (require_identity_owner a i).
Proof. unfold require_identity_owner. keep. Qed.
#[local] Hint Resolve ikeeps_create keeps_update keeps_revoke_role keeps_submit_kyc keeps_verify_kyc keeps_revoke_kyc
  keeps_face_kyc keeps_bind_wallet keeps_owner : keep.

Definition steps {A} (c : RM A) : Prop :=
  forall w a w', c w = (Ok a, w') -> rows_step (verifications (r_ident w)) (verifications (r_ident w')).

Lemma keeps_steps {A} (c : RM A) : keeps c -> steps c.
Proof. intros Hk w a w' Hc. left. by apply (Hk w a). Qed.
Lemma steps_bind {A B} (c : RM A) (k : A -> RM B) : keeps c -> (forall x, steps (k x)) -> steps (m_bind c k).
Proof. intros Hc Hk w b w' (x & w1 & H1 & H2)%m_bind_ok. rewrite <- (Hc _ _ _ H1). by apply (Hk x w1 b). Qed.
Lemma steps_void {A} (c : RM A) : steps c -> steps (void c).
Proof. intros Hc w b w' (x & w1 & H1 & [= _ <-])%m_bind_ok. by apply (Hc w x). Qed.

Lemma on_ident_ok {A} (c : IdM A) w a w' : on_ident c w = (Ok a, w') -> c (r_ident w) = (Ok a, r_ident w').
Proof. unfold on_ident, zoom. destruct (c (r_ident w)) as [[x|e] t]; [|done]. by intros [= <- <-]. Qed.

Lemma submit_steps i a b : steps (submit_identity_verification str_of int_of_text i a b).
Proof.
  apply steps_bind; [apply ikeeps_lift|intros _]. apply steps_bind; [apply keeps_owner|intros _].
  intros w r w' Hrun. run_ok Hrun. apply m_bind_ok in Hrun as ([] & w1 & Hput & [= _ <-]).
  apply on_ident_ok in Hput. injection Hput as Hput. rewrite <- Hput. cbn [verifications].
  right. eexists i, _. split; [done|]. destruct x0. by apply submitted_step.
Qed.

Lemma face_steps now i a b : steps (face_activate_identity_verification fp str_of int_of_text parse_float recover now i a b).
Proof.
  apply steps_bind; [apply ikeeps_lift|intros _]. apply steps_bind; [apply keeps_owner|intros _].
  intros w r w' Hrun%on_ident_ok. unfold activate_by_face in Hrun. destruct (face_activation_enabled fp); [|done]. cbn [negb] in Hrun.
  run_ok Hrun. unfold put_verification, put_template, m_bind, m_put, m_ret in Hrun. injection Hrun as _ Hrun. rewrite <- Hrun.
  cbn [verifications]. right. eexists i, _. split; [done|]. destruct x8.
  match goal with |- row_step _ _ (record_provider_event _ _ _ _ (mark_verified _ _ _ (submitted ?l ?d ?f ?p ?c ?e ?x _))) =>
    pose proof (submitted_step i (verifications (r_ident w) !! i) l d f p c e x E8) as Hs end.
  intros Hwf. destruct (Hs Hwf) as [Hw Hv]. split.
  - apply event_wf, verified_wf; [by apply (rw_named _ _ Hw)|by left].
  - intros r0 Hr Hver. specialize (Hv r0 Hr Hver). unfold verdict_of in Hv. injection Hv as Hv _. cbn in Hv. congruence.
Qed.

Lemma governor_same a w s w' : assert_governor_active g a w = (Ok s, w') -> w' = w.
Proof.
  unfold assert_governor_active. destruct (whitelisted g a); [by intros [= _ <-]|]. intros Hg. run_ok Hg.
  destruct (governance_profile_of _ _ _) as [p|]; [|by injection Hg as _ <-].
  destruct (fleb _ _); [by injection Hg as _ <-|]. run_ok Hg. destruct (decide _); [by injection Hg as _ <-|done].
Qed.

Lemma verify_steps now i a d r : steps (verify_identity_verification g now i a d r).
Proof.
  apply steps_bind; [apply ikeeps_lift|intros _]. intros w x w' Hrun.
  apply m_bind_ok in Hrun as (who & w1 & Hwho & Hrun).
  assert (Hk : w1 = w /\ who <> i).
  { unfold require_identity_verifier in Hwho. destruct (str_or a None) as [a0|]; [|done].
    destruct (decide (a0 = i)); [done|]. run_ok Hwho. destruct (head _); [|done].
    apply m_bind_ok in Hwho as (s & w2 & Hg & [= <- <-]). by apply governor_same in Hg as ->. }
  destruct Hk as [-> Hne]. run_ok Hrun. destruct (verification_of i w) as [r0|] eqn:Hr; [|done]. run_ok Hrun.
  apply m_bind_ok in Hrun as ([] & w2 & Hput & [= _ <-]). apply on_ident_ok in Hput. injection Hput as Hput. rewrite <- Hput.
  cbn [verifications]. right. eexists i, _. split; [done|]. unfold verification_of in Hr. rewrite Hr.
  assert (Hnv : vr_status r0 <> "verified"%string).
  { intros Hv. rewrite Hv in E. vm_compute in E. by destruct d. }
  apply decision_step; [done|]. intros Hwf. pose proof (rw_named _ _ Hwf) as Hn.
  case_decide; [apply verified_wf; [done|by right; right]|by apply rejected_wf].
Qed.

Lemma session_steps now n i a ret : steps (create_identity_provider_session cfg registry now n i a ret).
Proof.
  apply steps_bind; [apply ikeeps_lift|intros _]. apply steps_bind; [apply keeps_owner|intros _].
  intros w x w' Hrun%on_ident_ok. unfold start_session in Hrun. run_ok Hrun.
  unfold put_verification, m_bind, m_put, m_ret in Hrun. injection Hrun as _ Hrun. rewrite <- Hrun. cbn [verifications].
  right. eexists i, _. split; [done|]. apply provider_step. intros _ act [= <-].
  match goal with E : create_session _ _ _ _ _ = Ok _ |- _ => apply (created_has_id (authentic := authentic)) in E as (y & Hy & Hne) end.
  by exists y.
Qed.

Lemma row_or_404_ok i t r t' : row_or_404 i t = (Ok r, t') -> t' = t /\ verifications t !! i = Some r.
Proof. unfold row_or_404. intros Hr. run_ok Hr. destruct (verifications t !! i); [|done]. by injection Hr as <- <-. Qed.

Lemma sync_steps now i a : steps (sync_identity_provider_session cfg registry now i a).
Proof.
  apply steps_bind; [apply ikeeps_lift|intros _]. apply steps_bind; [apply keeps_owner|intros _].
  intros w x w' Hrun%on_ident_ok. unfold sync_active_session in Hrun. run_ok Hrun.
  apply m_bind_ok in Hrun as (r & t1 & Hr & Hrun). apply row_or_404_ok in Hr as [-> Hr].
  destruct (vr_active r) as [act|]; [|done].
  destruct (some_text (Some (as_session_id act))) as [s|]; [|done]. destruct (some_text (as_provider_session_id act)) as [y|]; [|done].
  destruct (decide _); [done|]. destruct (negb _); [done|]. run_ok Hrun. by eapply conclude_step.
Qed.

Lemma callback_steps now i n m : steps (identity_provider_callback cfg registry now i n m).
Proof.
  apply steps_bind; [apply ikeeps_lift|intros _]. cbv zeta. destruct (decide _); [done|].
  intros w x w' Hrun%on_ident_ok. unfold apply_callback in Hrun. run_ok Hrun.
  apply m_bind_ok in Hrun as (r & t1 & Hr & Hrun). apply row_or_404_ok in Hr as [-> Hr]. run_ok Hrun.
  apply m_bind_ok in Hrun as (d & t1 & Hd & Hrun).
  assert (Ht : t1 = r_ident w).
  { destruct (d_requires_pull x1); [destruct (some_text (d_provider_session_id x1))|];
      first [by apply lift_ok in Hd as [_ ->]|by injection Hd as _ <-]. }
  subst t1.
  by eapply conclude_step.
Qed.

Lemma role_op_steps o w : rows_step (verifications (r_ident w)) (verifications (r_ident (exec (run_role_op o) w))).
Proof.
  assert (Hs : forall A (c : RM A), steps c -> rows_step (verifications (r_ident w)) (verifications (r_ident (exec (r_request (void c)) w)))).
  { intros A c Hc. unfold exec, r_request. destruct (void c w) as [[u|e] w'] eqn:E; [|by left]. by apply (steps_void c Hc w u). }
  destruct o; cbn; apply Hs; auto using submit_steps, face_steps, verify_steps, session_steps, sync_steps, callback_steps;
    apply keeps_steps; auto with keep.
Qed.

(** C15. Under any requests of any callers, with any answers of the providers and any failures:
    a verification is in one of four states; it is verified exactly when it carries the time,
    and then it was stamped by the platform's face check, by a provider or by somebody else
    than the identity itself; every waiting session is known to its provider; and a verified
    verification keeps its verdict and its digests for ever. *)
Theorem identity_verification_invariant os w :
  (forall i r, verifications (r_ident w) !! i = Some r -> row_wf i r) ->
  let w' := run_role_ops os w in
  (forall i r, verifications (r_ident w') !! i = Some r -> row_wf i r) /\
  forall i r, verifications (r_ident w) !! i = Some r -> vr_status r = "verified"%string ->
    exists r', verifications (r_ident w') !! i = Some r' /\ verdict_of r' = verdict_of r.
Proof.
  revert w. induction os as [|o os IH]; intros w Hwf; cbn.
  { split; [done|]. intros i r Hr _. by exists r. }
  assert (Ho : (forall i r, verifications (r_ident (exec (run_role_op o) w)) !! i = Some r -> row_wf i r) /\
    forall i r, verifications (r_ident w) !! i = Some r -> vr_status r = "verified"%string ->
      exists r', verifications (r_ident (exec (run_role_op o) w)) !! i = Some r' /\ verdict_of r' = verdict_of r).
  { destruct (role_op_steps o w) as [->|(j & r' & -> & Hstep)]; [split; [done|]; intros i r Hr _; by exists r|].
    destruct (Hstep (fun r0 Hr => Hwf j r0 Hr)) as [Hw Hv]. split.
    - intros i r. destruct (decide (i = j)) as [->|Hne]; [rewrite lookup_insert_eq; by intros [= <-]|].
      rewrite lookup_insert_ne by done. apply Hwf.
    - intros i r Hr Hver. destruct (decide (i = j)) as [->|Hne].
      + exists r'. rewrite lookup_insert_eq. split; [done|]. by apply Hv.
      + exists r. by rewrite lookup_insert_ne. }
  destruct Ho as [H1 H2]. destruct (IH _ H1) as [I1 I2]. split; [done|]. intros i r Hr Hver.
  destruct (H2 i r Hr Hver) as (r1 & Hr1 & E1). destruct (I2 i r1 Hr1) as (r2 & Hr2 & E2).
  - unfold verdict_of in E1. congruence.
  - exists r2. split; [done|]. congruence.
Qed.

(** *** Profiles *)

(** Who may open a governance role for an owner: an issuer, or the owner with a stake. *)
Definition authority (w : RWorld) (actor : option string) (owner : string) (stake : float) : Prop :=
  may_grant_governance g actor = true \/
  (governance_open_join g = true /\ exists s, stake_state g owner s w = (ACTIVE_STAKE, stake)).

Lemma resolve_stake_ok a c s w x w' : resolve_governance_stake g a c s w = (Ok x, w') ->
  w' = w /\ (a <> ""%string -> c ∈ GOVERNANCE_CLASSES -> authority w (Some a) a x).
Proof.
  unfold resolve_governance_stake, authority. destruct (mem c GOVERNANCE_CLASSES) eqn:Hm; cbn [negb].
  2:{ intros [= _ <-]. apply mem_false in Hm. done. }
  destruct (whitelisted g a) eqn:Hw.
  { intros [= _ <-]. split; [done|]. intros Ha _. left. unfold may_grant_governance, str_or. rewrite decide_False by done. by rewrite Hw. }
  destruct (governance_open_join g); [|done]. unfold assert_stake_acceptable, m_bind, m_get. cbn [negb]. cbv beta iota. intros Hr.
  destruct (stake_state g a s w) as [[] st] eqn:Hs; unfold m_raise, m_ret in Hr; simplify_eq.
  split; [done|]. right. eauto.
Qed.

Definition replaced (q : RoleProfile) (w w' : RWorld) : Prop :=
  r_profiles w' = (fun x => if decide (rp_id x = rp_id q) then q else x) <$> r_profiles w.

Lemma replaced_elem q w w' p : replaced q w w' -> p ∈ r_profiles w' -> p ∈ r_profiles w \/ p = q.
Proof. unfold replaced. intros -> (x & -> & Hx)%list_elem_of_fmap. case_decide; auto. Qed.

Lemma profile_or_404_ok i w p w' : profile_or_404 i w = (Ok p, w') -> w' = w /\ p ∈ r_profiles w /\ rp_id p = i.
Proof.
  unfold profile_or_404. intros Hr. run_ok Hr. destruct (profile_with_id i w) as [q|] eqn:Hq; [|done]. injection Hr as <- <-.
  split; [done|]. unfold profile_with_id in Hq.
  assert (q ∈ filter (fun p => rp_id p = i) (r_profiles w)) as [? ?]%list_elem_of_filter by (destruct (filter _ _); [done|injection Hq as ->; left]). done.
Qed.

Lemma profile_owner_ok a p w u w' : require_profile_owner a p w = (Ok u, w') ->
  w' = w /\ str_or a None = Some (rp_owner p) /\ rp_owner p <> ""%string.
Proof.
  unfold require_profile_owner. destruct (str_or a None) as [b|] eqn:Ha; [|done]. destruct (decide _) as [->|]; [|done].
  intros [= _ <-]. apply str_or_nonempty in Ha as Hb. by destruct Hb.
Qed.

(** What an update does to the profile. *)
Lemma update_ok i a b w p' w' : update_role_profile g i a b w = (Ok p', w') ->
  exists p, p ∈ r_profiles w /\ rp_id p = i /\ str_or a None = Some (rp_owner p) /\ replaced p' w w' /\
    rp_id p' = i /\ rp_owner p' = rp_owner p /\ rp_kyc_status p' = rp_kyc_status p /\
    (rp_class p' = rp_class p \/ (rp_class p' ∈ GOVERNANCE_CLASSES -> authority w (Some (rp_owner p)) (rp_owner p) (rp_stake p'))).
Proof.
  unfold update_role_profile. intros Hr. run_ok Hr.
  apply m_bind_ok in Hr as (p & w1 & Hp & Hr). apply profile_or_404_ok in Hp as (-> & Hp & Hi).
  apply m_bind_ok in Hr as (u & w1 & Ho & Hr). apply profile_owner_ok in Ho as (-> & Ho & Hne).
  apply m_bind_ok in Hr as (p1 & w1 & H1 & Hr).
  assert (Hp1 : w1 = w /\ rp_id p1 = i /\ rp_owner p1 = rp_owner p /\ rp_kyc_status p1 = rp_kyc_status p /\
    (rp_class p1 = rp_class p \/ (rp_class p1 ∈ GOVERNANCE_CLASSES -> authority w (Some (rp_owner p)) (rp_owner p) (rp_stake p1)))).
  { destruct (ub_class b) as [[c|]|].
    - destruct (decide (c = rp_class p)); [injection H1 as <- <-; auto 10|].
      apply m_bind_ok in H1 as (s & w2 & Hs & [= <- <-]). apply resolve_stake_ok in Hs as [-> Hs]. cbn. auto 10.
    - injection H1 as <- <-. cbn. split_and!; try done. right. intros Hc. exfalso. set_solver.
    - injection H1 as <- <-. auto 10. }
  destruct Hp1 as (-> & Hi1 & Ho1 & Hk1 & Hc1). clear H1.
  apply m_bind_ok in Hr as (p2 & w1 & H2 & Hr).
  assert (Hp2 : w1 = w /\ rp_id p2 = i /\ rp_owner p2 = rp_owner p /\ rp_kyc_status p2 = rp_kyc_status p /\
    (rp_class p2 = rp_class p \/ (rp_class p2 ∈ GOVERNANCE_CLASSES -> authority w (Some (rp_owner p)) (rp_owner p) (rp_stake p2)))).
  { destruct (ub_stake b) as [s|]; [|injection H2 as <- <-; auto 10]. destruct (mem _ _); [|injection H2 as <- <-; auto 10].
    apply m_bind_ok in H2 as (sx & w2 & Hs & [= <- <-]). apply resolve_stake_ok in Hs as [-> Hs]. cbn. split_and!; try done.
    right. by apply Hs. }
  destruct Hp2 as (-> & Hi2 & Ho2 & Hk2 & Hc2). clear H2.
  apply m_bind_ok in Hr as (u2 & w1 & H3 & Hr).
  assert (w1 = w) as -> by (destruct (ub_kyc_status b); [by apply lift_ok in H3 as [_ ->]|by injection H3 as _ <-]).
  apply m_bind_ok in Hr as (pl & w1 & H4 & Hr).
  assert (w1 = w) as -> by (destruct (ub_kyc_payload b); [by apply lift_ok in H4 as [_ ->]|by injection H4 as _ <-]).
  destruct (decide (_ \/ _)); [done|]. apply m_bind_ok in Hr as ([] & w2 & [= <-] & [= <- <-]).
  exists p. by split_and!.
Qed.

Lemma create_ok n a b w p w' : create_role_profile g n a b w = (Ok p, w') ->
  r_profiles w' = r_profiles w ++ [p] /\ rp_kyc_status p = "none"%string /\ rp_class p = cb_class b /\
  rp_owner p = cb_owner b /\
  (rp_class p ∈ GOVERNANCE_CLASSES -> authority w a (rp_owner p) (rp_stake p)).
Proof.
  unfold create_role_profile. destruct (str_or a None) as [who|] eqn:Ha; [|done]. apply str_or_nonempty in Ha as [-> Hne].
  intros Hr. destruct (negb (bool_decide (who = cb_owner b))) eqn:Hg; cbn [andb] in Hr.
  - destruct (mem _ _ && _) eqn:Hm; [|done]. apply andb_true_iff in Hm as [_ Hm]. cbn [negb] in Hr. run_ok Hr.
    apply m_bind_ok in Hr as (s & w1 & [= <- <-] & Hr). run_ok Hr.
    apply m_bind_ok in Hr as (? & w1 & [= <- <-] & Hr). apply m_bind_ok in Hr as (? & w2 & [= <- <-] & Hr).
    apply m_bind_ok in Hr as (? & w3 & [= <- <-] & Hr). injection Hr as <- <-. cbn. split_and!; try done. intros _. by left.
  - apply negb_false_iff, bool_decide_eq_true in Hg as ->. run_ok Hr.
    apply m_bind_ok in Hr as (s & w1 & Hs & Hr). apply resolve_stake_ok in Hs as [-> Hs]. run_ok Hr.
    apply m_bind_ok in Hr as (? & w1 & [= <- <-] & Hr). injection Hr as <- <-. cbn. split_and!; try done. by apply Hs.
Qed.

Lemma kyc_verifier_ok a p w who w' : require_kyc_verifier g a p w = (Ok who, w') ->
  w' = w /\ str_or a None = Some who /\ who <> rp_owner p /\
  (exists q, q ∈ r_profiles w /\ rp_owner q = who /\ rp_class q = "verifier"%string) /\
  exists s, assert_governor_active g who w = (Ok s, w).
Proof.
  unfold require_kyc_verifier. destruct (str_or a None) as [x|]; [|done]. destruct (decide (x = rp_owner p)); [done|].
  intros Hr. run_ok Hr. destruct (filter _ _) as [|q [|]] eqn:Hf; [done| |done].
  apply m_bind_ok in Hr as (s & w1 & Hg & [= <- <-]). pose proof Hg as Hg'. apply governor_same in Hg' as ->.
  assert (q ∈ filter (fun q => rp_owner q = x /\ rp_class q = "verifier"%string) (r_profiles w)) as Hq by (rewrite Hf; left).
  apply list_elem_of_filter in Hq as [[? ?] ?]. split_and!; eauto.
Qed.

(** How a profile came to be verified in one request. *)
Inductive verified_by (w : RWorld) (p : RoleProfile) : role_op -> Prop :=
| by_reviewer at_ a who reason q s : str_or a None = Some who -> who <> rp_owner p ->
    q ∈ r_profiles w -> rp_owner q = who -> rp_class q = "verifier"%string ->
    assert_governor_active g who w = (Ok s, w) ->
    verified_by w p (OpVerifyKyc at_ (rp_id p) a REVIEW_VERIFIED reason)
| by_face at_ a b v : str_or a None = Some (rp_owner p) ->
    same_person fp fmt4 recover (rp_owner p) (rp_id p) (rp_class p) b (r_ident w) v ->
    verified_by w p (OpFaceKyc at_ (rp_id p) a b).

Lemma review_from_pending d s : mem (review_value d) (VERIFY_TRANSITIONS s) = true -> s = "pending"%string.
Proof.
  unfold VERIFY_TRANSITIONS. destruct (decide (s = "none"%string)); [by destruct d|].
  destruct (decide (s = "pending"%string)); [done|]. destruct (decide (s = "rejected"%string)); by destruct d.
Qed.

Lemma verify_kyc_ok at_ i a d r w p' w' : verify_kyc g at_ i a d r w = (Ok p', w') ->
  exists p who q s, p ∈ r_profiles w /\ rp_id p = i /\ replaced p' w w' /\ rp_id p' = i /\ rp_owner p' = rp_owner p /\
    rp_class p' = rp_class p /\ rp_stake p' = rp_stake p /\
    rp_kyc_status p' = review_value d /\ or_str (rp_kyc_status p) "none" = "pending"%string /\
    str_or a None = Some who /\ who <> rp_owner p /\
    q ∈ r_profiles w /\ rp_owner q = who /\ rp_class q = "verifier"%string /\ assert_governor_active g who w = (Ok s, w).
Proof.
  unfold verify_kyc. intros Hr. run_ok Hr. apply m_bind_ok in Hr as (p & w1 & Hp & Hr). apply profile_or_404_ok in Hp as (-> & Hp & Hi).
  apply m_bind_ok in Hr as (who & w1 & Ho & Hr). apply kyc_verifier_ok in Ho as (-> & Ha & Hne & (q & Hq & Hq1 & Hq2) & s & Hs).
  destruct (mem _ _) eqn:Hm; [|done]. cbn [negb] in Hr. apply m_bind_ok in Hr as ([] & w2 & [= <-] & [= <- <-]).
  exists p, who, q, s. split_and!; try done. by eapply review_from_pending.
Qed.

(** The profile keeps who it belongs to and which role it is. *)
Definition same_role (p p' : RoleProfile) : Prop :=
  rp_id p' = rp_id p /\ rp_owner p' = rp_owner p /\ rp_class p' = rp_class p.

Lemma revoke_role_ok i a w p' w' : revoke_governance_role g i a w = (Ok p', w') ->
  exists p, p ∈ r_profiles w /\ same_role p p' /\ rp_kyc_status p' = rp_kyc_status p /\ replaced p' w w'.
Proof.
  unfold revoke_governance_role. intros Hr. run_ok Hr. apply m_bind_ok in Hr as (p & w1 & Hp & Hr).
  apply profile_or_404_ok in Hp as (-> & Hp & Hi). destruct (negb _); [done|]. destruct (negb _); [done|].
  apply m_bind_ok in Hr as ([] & w1 & [= <-] & Hr). apply m_bind_ok in Hr as ([] & w2 & H2 & Hr).
  apply m_bind_ok in Hr as ([] & w3 & [= <-] & Hr). apply m_bind_ok in Hr as ([] & w4 & [= <-] & [= <- <-]).
  exists p. split_and!; try done. unfold replaced. cbn. by destruct (decide _); injection H2 as <-.
Qed.

Lemma submit_kyc_ok i a pl w p' w' : submit_kyc i a pl w = (Ok p', w') ->
  exists p, p ∈ r_profiles w /\ same_role p p' /\ rp_kyc_status p' = "pending"%string /\ replaced p' w w'.
Proof.
  unfold submit_kyc. intros Hr. run_ok Hr. apply m_bind_ok in Hr as (p & w1 & Hp & Hr). apply profile_or_404_ok in Hp as (-> & Hp & Hi).
  apply m_bind_ok in Hr as (u & w1 & Ho & Hr). apply profile_owner_ok in Ho as (-> & _). destruct (negb _); [done|]. run_ok Hr.
  apply m_bind_ok in Hr as ([] & w1 & [= <-] & [= <- <-]). by exists p.
Qed.

Lemma propose_profiles now n k t a r pr w o w' : propose_or_confirm now n k t a r pr w = (Ok o, w') ->
  r_profiles w' = r_profiles w.
Proof.
  unfold propose_or_confirm. intros Hr. apply m_bind_ok in Hr as (op & w1 & H1 & Hr).
  assert (r_profiles w1 = r_profiles w) as <-.
  { unfold open_proposal in H1. run_ok H1. destruct (newest_pending k t w) as [q|]; [|by injection H1 as _ <-].
    destruct (_ <? _); [|by injection H1 as _ <-]. by apply m_bind_ok in H1 as ([] & w2 & [= <-] & [= _ <-]). }
  destruct pr.
  - apply m_bind_ok in Hr as ([] & w2 & H2 & Hr). apply m_bind_ok in Hr as ([] & w3 & [= <-] & [= _ <-]). cbn.
    by destruct op; injection H2 as <-.
  - destruct op as [q|]; [destruct (decide _); [done|]|]; by apply m_bind_ok in Hr as ([] & w3 & [= <-] & [= _ <-]).
Qed.

Lemma revoke_kyc_ok now at_ n i a r w o w' : revoke_kyc g now at_ n i a r w = (Ok o, w') ->
  r_profiles w' = r_profiles w \/
  exists p p', p ∈ r_profiles w /\ same_role p p' /\ rp_kyc_status p' = "rejected"%string /\ replaced p' w w'.
Proof.
  unfold revoke_kyc. intros Hr. run_ok Hr. apply m_bind_ok in Hr as (p & w1 & Hp & Hr). apply profile_or_404_ok in Hp as (-> & Hp & Hi).
  apply m_bind_ok in Hr as (who & w1 & Ho & Hr).
  assert (w1 = w) as ->.
  { unfold require_revoker in Ho. destruct (str_or a None); [|done]. destruct (is_privileged_revoker g s); [by injection Ho as _ <-|].
    destruct (decide _); [done|]. run_ok Ho. destruct (head _); [|done]. apply m_bind_ok in Ho as (st & w2 & Hg & [= _ <-]).
    by apply governor_same in Hg. }
  run_ok Hr. apply m_bind_ok in Hr as (o' & w1 & Hpc & Hr). apply propose_profiles in Hpc. destruct (negb _).
  { injection Hr as _ <-. by left. }
  apply m_bind_ok in Hr as ([] & w2 & [= <-] & Hr). apply m_bind_ok in Hr as ([] & w3 & [= <-] & [= <- <-]).
  right. exists p, (apply_kyc_revocation at_ o' p). split_and!; try done. unfold replaced. cbn. by rewrite Hpc.
Qed.

Lemma same_person_check_ok p b w v w' : same_person_check fp str_of int_of_text parse_float fmt4 recover p b w = (Ok v, w') ->
  r_profiles w' = r_profiles w /\ same_person fp fmt4 recover (rp_owner p) (rp_id p) (rp_class p) b (r_ident w) v.
Proof.
  unfold same_person_check. intros Hr. split; [|by apply on_ident_ok, same_person_sound in Hr as [? _]].
  unfold on_ident, zoom in Hr. destruct (assert_same_person _ _ _ _ _ _ _ _ _ _ _). by injection Hr as _ <-.
Qed.

Lemma face_kyc_ok at_ i a b w p' w' :
  confirm_role_profile_same_person fp str_of int_of_text parse_float fmt4 recover at_ i a b w = (Ok p', w') ->
  exists p v, p ∈ r_profiles w /\ rp_id p = i /\ same_role p p' /\ replaced p' w w' /\ rp_kyc_status p' = "verified"%string /\
    str_or a None = Some (rp_owner p) /\ same_person fp fmt4 recover (rp_owner p) (rp_id p) (rp_class p) b (r_ident w) v.
Proof.
  unfold confirm_role_profile_same_person. intros Hr. run_ok Hr. apply m_bind_ok in Hr as (p & w1 & Hp & Hr).
  apply profile_or_404_ok in Hp as (-> & Hp & Hi). apply m_bind_ok in Hr as (u & w1 & Ho & Hr). apply profile_owner_ok in Ho as (-> & Ho & _).
  apply m_bind_ok in Hr as (v & w1 & Hv & Hr). apply same_person_check_ok in Hv as [Hpr Hv].
  apply m_bind_ok in Hr as ([] & w2 & [= <-] & [= <- <-]). exists p, v. split_and!; try done. unfold replaced. cbn. by rewrite Hpr.
Qed.

Lemma bind_wallet_ok i a wl s f w p' w' :
  bind_role_profile_wallet fp str_of int_of_text parse_float fmt4 recover i a wl s f w = (Ok p', w') ->
  exists p, p ∈ r_profiles w /\ same_role p p' /\ rp_kyc_status p' = rp_kyc_status p /\ replaced p' w w'.
Proof.
  unfold bind_role_profile_wallet. intros Hr. run_ok Hr. apply m_bind_ok in Hr as (p & w1 & Hp & Hr).
  apply profile_or_404_ok in Hp as (-> & Hp & Hi). apply m_bind_ok in Hr as (u & w1 & Ho & Hr). apply profile_owner_ok in Ho as (-> & _).
  run_ok Hr. apply m_bind_ok in Hr as (u1 & w1 & Hf & Hr).
  assert (Hpr : r_profiles w1 = r_profiles w).
  { destruct (_ && _); [|by injection Hf as _ <-]. destruct f as [b|]; [|done]. destruct (_ || _); [done|].
    apply m_bind_ok in Hf as (v & w2 & Hv & [= _ <-]). by apply same_person_check_ok in Hv as [? _]. }
  apply m_bind_ok in Hr as ([] & w2 & [= <-] & Hr). apply m_bind_ok in Hr as (u2 & w3 & H3 & [= <- <-]).
  exists p. split_and!; try done. unfold replaced.
  assert (r_profiles w3 = r_profiles (exec (write_profile (set_wallet (py_lower (py_strip wl)) p)) w1)) as ->.
  { destruct (_ && _); [|by injection H3 as _ <-]. by apply m_bind_ok in H3 as ([] & w4 & [= <-] & [= _ <-]). }
  cbn. by rewrite Hpr.
Qed.

Lemma on_ident_profiles {A} (c : IdM A) w a w' : on_ident c w = (Ok a, w') -> r_profiles w' = r_profiles w.
Proof. unfold on_ident, zoom. destruct (c (r_ident w)) as [r t]. by intros [= _ <-]. Qed.

(** Requests on verifications leave the profiles alone. *)
Definition pkeeps {A} (c : RM A) : Prop := forall w a w', c w = (Ok a, w') -> r_profiles w' = r_profiles w.
Lemma pkeeps_bind {A B} (c : RM A) (k : A -> RM B) : pkeeps c -> (forall x, pkeeps (k x)) -> pkeeps (m_bind c k).
Proof. intros Hc Hk w b w' (x & w1 & H1 & H2)%m_bind_ok. by rewrite (Hk _ _ _ _ H2), (Hc _ _ _ H1). Qed.
Lemma pkeeps_pure {A} (c : RM A) : (forall w a w', c w = (Ok a, w') -> w' = w) -> pkeeps c.
Proof. intros Hc w a w' H1. by rewrite (Hc _ _ _ H1). Qed.
Lemma pkeeps_lift {A} (r : result Exc A) : pkeeps (lift r).
Proof. apply pkeeps_pure. by intros w a w' [_ ->]%lift_ok. Qed.
Lemma pkeeps_ident {A} (c : IdM A) : pkeeps (on_ident c).
Proof. intros w a w'. apply on_ident_profiles. Qed.
Lemma pkeeps_owner a i : pkeeps (require_identity_owner a i).
Proof. apply pkeeps_pure. unfold require_identity_owner. intros w u w' Hr. repeat case_match; simplify_eq; by injection Hr as _ <-. Qed.

Lemma profiles_submit i a b : pkeeps (submit_identity_verification str_of int_of_text i a b).
Proof.
  apply pkeeps_bind; [apply pkeeps_lift|intros _]. apply pkeeps_bind; [apply pkeeps_owner|intros _].
  intros w r w' Hr. run_ok Hr. apply m_bind_ok in Hr as (u & w1 & H1 & [= _ <-]). by apply on_ident_profiles in H1.
Qed.
Lemma profiles_face now i a b : pkeeps (face_activate_identity_verification fp str_of int_of_text parse_float recover now i a b).
Proof.
  apply pkeeps_bind; [apply pkeeps_lift|intros _]. apply pkeeps_bind; [apply pkeeps_owner|intros _]. apply pkeeps_ident.
Qed.
Lemma profiles_verify now i a d r : pkeeps (verify_identity_verification g now i a d r).
Proof.
  apply pkeeps_bind; [apply pkeeps_lift|intros _]. intros w x w' Hr. apply m_bind_ok in Hr as (who & w1 & Hw & Hr).
  assert (w1 = w) as ->.
  { unfold require_identity_verifier in Hw. destruct (str_or a None) as [b|]; [|done]. destruct (decide (b = i)); [done|]. run_ok Hw.
    destruct (head _); [|done]. apply m_bind_ok in Hw as (s & w2 & Hg & [= _ <-]). by apply governor_same in Hg. }
  run_ok Hr. destruct (verification_of i w) as [r0|]; [|done]. run_ok Hr.
  apply m_bind_ok in Hr as (u & w1 & H1 & [= _ <-]). by apply on_ident_profiles in H1.
Qed.
Lemma profiles_session now n i a ret : pkeeps (create_identity_provider_session cfg registry now n i a ret).
Proof.
  apply pkeeps_bind; [apply pkeeps_lift|intros _]. apply pkeeps_bind; [apply pkeeps_owner|intros _]. apply pkeeps_ident.
Qed.
Lemma profiles_sync now i a : pkeeps (sync_identity_provider_session cfg registry now i a).
Proof.
  apply pkeeps_bind; [apply pkeeps_lift|intros _]. apply pkeeps_bind; [apply pkeeps_owner|intros _]. apply pkeeps_ident.
Qed.
Lemma profiles_callback now i n m : pkeeps (identity_provider_callback cfg registry now i n m).
Proof.
  apply pkeeps_bind; [apply pkeeps_lift|intros _]. cbv zeta. destruct (decide _); [done|]. apply pkeeps_ident.
Qed.

(** Where a profile after a request comes from. *)
Inductive origin (w : RWorld) (o : role_op) (p' : RoleProfile) : Prop :=
| from_same : p' ∈ r_profiles w -> origin w o p'
| from_kept p : p ∈ r_profiles w -> same_role p p' ->
    (rp_kyc_status p' = "verified"%string -> rp_kyc_status p = "verified"%string) -> origin w o p'
| from_created n a b : o = OpCreate n a b -> rp_kyc_status p' = "none"%string ->
    (rp_class p' ∈ GOVERNANCE_CLASSES -> authority w a (rp_owner p') (rp_stake p')) -> origin w o p'
| from_updated p i a b : o = OpUpdate i a b -> p ∈ r_profiles w -> rp_id p' = rp_id p -> rp_owner p' = rp_owner p ->
    str_or a None = Some (rp_owner p) -> rp_kyc_status p' = rp_kyc_status p ->
    (rp_class p' = rp_class p \/
     (rp_class p' ∈ GOVERNANCE_CLASSES -> authority w (Some (rp_owner p)) (rp_owner p) (rp_stake p'))) -> origin w o p'
| from_verified p : p ∈ r_profiles w -> same_role p p' -> verified_by w p' o -> origin w o p'.

Lemma op_origin o w p' : p' ∈ r_profiles (exec (run_role_op o) w) -> origin w o p'.
Proof.
  unfold exec, run_role_op, r_request. intros Hin.
  match type of Hin with p' ∈ r_profiles (snd (match ?c w with _ => _ end)) => destruct (c w) as [[u|e] w'] eqn:E end;
    cbn in Hin; [|by apply from_same].
  destruct o; apply m_bind_ok in E as (x & w1 & E & [= _ <-]).
  - apply create_ok in E as (Hp & Hk & Hc & Ho & Ha). rewrite Hp in Hin. apply elem_of_app in Hin as [Hin|Hin]; [by apply from_same|].
    apply list_elem_of_singleton in Hin as ->. by eapply from_created.
  - apply update_ok in E as (p & Hp & Hi & Ha & Hrep & Hi' & Ho & Hk & Hc).
    destruct (replaced_elem _ _ _ _ Hrep Hin) as [?| ->]; [by apply from_same|]. eapply from_updated; eauto. congruence.
  - apply revoke_role_ok in E as (p & Hp & Hs & Hk & Hrep).
    destruct (replaced_elem _ _ _ _ Hrep Hin) as [?| ->]; [by apply from_same|]. eapply from_kept; eauto. congruence.
  - apply submit_kyc_ok in E as (p & Hp & Hs & Hk & Hrep).
    destruct (replaced_elem _ _ _ _ Hrep Hin) as [?| ->]; [by apply from_same|]. eapply from_kept; eauto. congruence.
  - apply verify_kyc_ok in E as (p & who & q & s & Hp & Hi & Hrep & Hi' & Ho & Hc & _ & Hk & _ & Ha & Hne & Hq & Hqo & Hqc & Hg).
    destruct (replaced_elem _ _ _ _ Hrep Hin) as [?| ->]; [by apply from_same|].
    assert (Hs : same_role p x) by (unfold same_role; split_and!; congruence).
    destruct d; [|apply (from_kept w _ x p Hp Hs); by rewrite Hk].
    apply (from_verified w _ x p Hp Hs). rewrite <- Hi'. eapply by_reviewer; eauto. congruence.
  - apply revoke_kyc_ok in E as [Hsame|(p & p1 & Hp & Hs & Hk & Hrep)]; [rewrite Hsame in Hin; by apply from_same|].
    destruct (replaced_elem _ _ _ _ Hrep Hin) as [?| ->]; [by apply from_same|]. eapply from_kept; eauto. congruence.
  - apply face_kyc_ok in E as (p & v & Hp & Hi & Hs & Hrep & Hk & Ha & Hv).
    destruct (replaced_elem _ _ _ _ Hrep Hin) as [?| ->]; [by apply from_same|]. pose proof Hs as (S1 & S2 & S3).
    apply (from_verified w _ x p Hp Hs). rewrite <- Hi, <- S1. eapply by_face; [congruence|]. rewrite S1, S2, S3. done.
  - apply bind_wallet_ok in E as (p & Hp & Hs & Hk & Hrep).
    destruct (replaced_elem _ _ _ _ Hrep Hin) as [?| ->]; [by apply from_same|]. eapply from_kept; eauto. congruence.
  - apply from_same. rewrite <- (profiles_submit _ _ _ _ _ _ E). done.
  - apply from_same. rewrite <- (profiles_face _ _ _ _ _ _ _ E). done.
  - apply from_same. rewrite <- (profiles_verify _ _ _ _ _ _ _ _ E). done.
  - apply from_same. rewrite <- (profiles_session _ _ _ _ _ _ _ _ E). done.
  - apply from_same. rewrite <- (profiles_sync _ _ _ _ _ _ E). done.
  - apply from_same. rewrite <- (profiles_callback _ _ _ _ _ _ _ E). done.
Qed.

(** Nobody verifies a profile alone: in any single request a profile becomes verified only
    through a review by another identity that holds a verifier role and stands, or through a
    same-person check of its owner; no other request, and no field an owner sends, does it. *)
Theorem kyc_verified_by_others o w p' :
  p' ∈ r_profiles (exec (run_role_op o) w) -> rp_kyc_status p' = "verified"%string ->
  (exists p, p ∈ r_profiles w /\ rp_id p = rp_id p' /\ rp_owner p = rp_owner p' /\ rp_kyc_status p = "verified"%string) \/
  verified_by w p' o.
Proof.
  intros Hin Hk. destruct (op_origin _ _ _ Hin) as [Hs|p Hp (H1 & H2 & _) Hv|n a b _ Hn _|p i a b _ Hp H1 H2 _ Hk' _|p _ _ Hv].
  - left. by exists p'.
  - left. exists p. auto.
  - congruence.
  - left. exists p. split_and!; congruence.
  - by right.
Qed.

(** A governance role is never taken without authority: after any single request, a
    verifier or arbitrator profile was that role before, or the request opened it for its
    owner on behalf of an issuer or against an acceptable stake, which is then recorded. *)
Theorem governance_role_needs_authority o w p' :
  p' ∈ r_profiles (exec (run_role_op o) w) -> rp_class p' ∈ GOVERNANCE_CLASSES ->
  (exists p, p ∈ r_profiles w /\ same_role p p') \/
  (exists n a b, o = OpCreate n a b /\ authority w a (rp_owner p') (rp_stake p')) \/
  (exists i a b, o = OpUpdate i a b /\ str_or a None = Some (rp_owner p') /\
     authority w (Some (rp_owner p')) (rp_owner p') (rp_stake p')).
Proof.
  intros Hin Hc. destruct (op_origin _ _ _ Hin) as [Hs|p Hp Hs _|n a b -> _ Ha|p i a b -> Hp H1 H2 Ha _ [Hcl|Hau]|p Hp Hs _].
  - left. by exists p'.
  - left. by exists p.
  - right. left. exists n, a, b. auto.
  - left. exists p. by split_and!.
  - right. right. exists i, a, b. rewrite H2. auto.
  - left. by exists p.
Qed.

Lemma newest_pending_elem kind target w r : newest_pending kind target w = Some r ->
  r ∈ r_revocations w /\ vq_kind r = kind /\ vq_target r = target /\ vq_status r = "pending"%string.
Proof.
  intros Hn. enough (r ∈ filter (fun r => vq_kind r = kind /\ vq_target r = target /\ vq_status r = "pending"%string) (r_revocations w))
    as [(? & ? & ?) ?]%list_elem_of_filter by done.
  unfold newest_pending in Hn. revert Hn. generalize (filter (fun r => vq_kind r = kind /\ vq_target r = target /\ vq_status r = "pending"%string) (r_revocations w)) as l.
  intros l. revert r. induction l as [|x l IH]; intros r; cbn; [done|].
  destruct (foldr _ _ l) as [y|]; [|intros [= <-]; left]. destruct (_ <? _); intros [= <-]; [right; by apply IH|left].
Qed.

(** A verified profile is only struck off by an operator or by two reviewers: a revocation
    that takes effect for a caller who is no operator confirms a pending request that another
    reviewer made for the same profile within the last day, and the owner is not the caller. *)
Theorem kyc_revocation_two_person now at_ n i a r w o w' :
  revoke_kyc g now at_ n i a r w = (Ok o, w') -> oc_executed o = true ->
  exists who p, str_or a None = Some who /\ p ∈ r_profiles w /\ rp_id p = i /\ or_none (rp_kyc_status p) = "verified"%string /\
    (is_privileged_revoker g who = true \/
     (who <> rp_owner p /\ exists q, q ∈ r_revocations w /\ vq_kind q = TARGET_ROLE_PROFILE_KYC /\ vq_target q = i /\
        vq_status q = "pending"%string /\ vq_proposed_by q <> who /\ now - vq_proposed_at q <= PROPOSAL_TTL)).
Proof.
  unfold revoke_kyc. intros Hr Hex. run_ok Hr. apply m_bind_ok in Hr as (p & w1 & Hp & Hr). apply profile_or_404_ok in Hp as (-> & Hp & Hi).
  apply m_bind_ok in Hr as ([who priv] & w1 & Ho & Hr). unfold require_revoker in Ho.
  destruct (str_or a None) as [b|]; [|done].
  assert (Hw : w1 = w /\ who = b /\ (priv = true -> is_privileged_revoker g b = true) /\ (priv = false -> b <> rp_owner p)).
  { destruct (is_privileged_revoker g b); [by injection Ho as <- <- <-|]. destruct (decide (b = rp_owner p)); [done|]. run_ok Ho.
    destruct (head _); [|done]. apply m_bind_ok in Ho as (st & w2 & Hg & [= <- <- <-]). by apply governor_same in Hg as ->. }
  destruct Hw as (-> & -> & Hpriv & Hnot). run_ok Hr. cbn [fst snd] in Hr.
  apply m_bind_ok in Hr as (o' & w1 & Hpc & Hr). exists b, p. split_and!; [done..| |].
  { unfold assert_can_revoke, REVOCATION_TRANSITIONS in E0. by destruct (decide (or_none (rp_kyc_status p) = "verified"%string)). }
  assert (o' = o) as ->.
  { destruct (negb (oc_executed o')); [by injection Hr as <-|]. apply m_bind_ok in Hr as (? & ? & _ & Hr).
    apply m_bind_ok in Hr as (? & ? & _ & Hr). by injection Hr as <-. }
  destruct priv; [left; auto|right]. split; [auto|]. unfold propose_or_confirm in Hpc.
  apply m_bind_ok in Hpc as (op & w2 & H1 & Hpc). destruct op as [q|].
  2:{ apply m_bind_ok in Hpc as (? & ? & _ & Hpc). by injection Hpc as <-. }
  destruct (decide (vq_proposed_by q = b)); [done|]. unfold open_proposal in H1. run_ok H1.
  destruct (newest_pending TARGET_ROLE_PROFILE_KYC i w) as [q'|] eqn:Hq; [|done].
  destruct (Z.ltb_spec PROPOSAL_TTL (now - vq_proposed_at q')); [by apply m_bind_ok in H1 as (? & ? & _ & H1)|]. injection H1 as -> <-.
  apply newest_pending_elem in Hq as (Q1 & Q2 & Q3 & Q4). exists q. by split_and!.
Qed.
End Runs.

(** ** What the gates let through *)

Definition status_update (s : string) : UpdateBody :=
  {| ub_class := None; ub_stake := None; ub_kyc_status := None; ub_visibility := None; ub_display_name := None;
     ub_kyc_payload := None; ub_spend_policy := None; ub_status := Some (Some s) |}.
Definition class_update (c : string) : UpdateBody :=
  {| ub_class := Some (Some c); ub_stake := None; ub_kyc_status := None; ub_visibility := None; ub_display_name := None;
     ub_kyc_payload := None; ub_spend_policy := None; ub_status := None |}.

Lemma owner_passes i a p w : safe_segment i = true -> profile_with_id i w = Some p -> str_or a None = Some (rp_owner p) ->
  lift (validate_public_url_segment i) w = (Ok tt, w) /\ profile_or_404 i w = (Ok p, w) /\
  require_profile_owner a p w = (Ok tt, w).
Proof.
  intros Hs Hp Ha. unfold lift, validate_public_url_segment, profile_or_404, require_profile_owner, m_bind, m_get.
  rewrite Hs, Hp, Ha. by rewrite decide_True.
Qed.

Lemma update_status g i a p s w : safe_segment i = true -> profile_with_id i w = Some p -> str_or a None = Some (rp_owner p) ->
  outcome (update_role_profile g i a (status_update s)) w =
  Ok (set_shown (rp_visibility p) (rp_display_name p) (rp_spend_policy p) s (set_kyc (rp_kyc_status p) (rp_kyc_payload p) p)).
Proof.
  intros Hs Hp Ha. destruct (owner_passes i a p w Hs Hp Ha) as (H1 & H2 & H3).
  unfold outcome, update_role_profile, m_bind at 1. rewrite H1. unfold m_bind at 1. rewrite H2. unfold m_bind at 1. by rewrite H3.
Qed.

Lemma profile_elem i w p : profile_with_id i w = Some p -> p ∈ r_profiles w /\ rp_id p = i.
Proof. apply (head_filter_elem (fun p => rp_id p = i)). Qed.

(** A row that is written is the row that is read back. *)
Lemma profile_written p p0 w w' : replaced p w w' -> profile_with_id (rp_id p) w = Some p0 ->
  profile_with_id (rp_id p) w' = Some p.
Proof.
  unfold replaced, profile_with_id. intros -> Hp.
  rewrite (head_filter_fmap (fun q => rp_id q = rp_id p)); [|intros x _; by case_decide].
  rewrite Hp. apply (head_filter_elem (fun q => rp_id q = rp_id p)) in Hp as [_ Hp]. cbn. by rewrite decide_True.
Qed.

Lemma revoke_role_row g i a w p w' : revoke_governance_role g i a w = (Ok p, w') ->
  safe_segment i = true /\ replaced p w w' /\ r_caps w' = r_caps w /\
  exists p0, profile_with_id i w = Some p0 /\
    p = set_shown (rp_visibility p0) (rp_display_name p0) (rp_spend_policy p0) "disabled" p0.
Proof.
  unfold revoke_governance_role. intros Hr. run_ok Hr. unfold validate_public_url_segment in E.
  destruct (safe_segment i); [|done]. apply m_bind_ok in Hr as (p0 & w1 & Hp & Hr).
  unfold profile_or_404 in Hp. run_ok Hp. destruct (profile_with_id i w) as [q|] eqn:Hq; [|done]. injection Hp as <- <-.
  destruct (negb _); [done|]. destruct (negb _); [done|].
  apply m_bind_ok in Hr as ([] & w1 & [= <-] & Hr). apply m_bind_ok in Hr as ([] & w2 & H2 & Hr).
  apply m_bind_ok in Hr as ([] & w3 & [= <-] & Hr). apply m_bind_ok in Hr as ([] & w4 & [= <-] & [= <- <-]).
  split_and!; [done| | |by exists q]; destruct (decide _); by injection H2 as <-.
Qed.

(** A governance role that was taken away is not gone: its owner sets the status of the
    profile back to active with an ordinary update, and the role is there again. *)
Theorem revoked_role_reenabled g i actor owner w p w' :
  revoke_governance_role g i actor w = (Ok p, w') -> str_or owner None = Some (rp_owner p) ->
  exists p', outcome (update_role_profile g i owner (status_update "active")) w' = Ok p' /\
    rp_status p' = "active"%string /\ rp_class p' = rp_class p /\ rp_stake p' = rp_stake p.
Proof.
  intros Hr Ho. apply revoke_role_row in Hr as (Hs & Hrep & _ & p0 & Hp0 & ->).
  pose proof (profile_elem _ _ _ Hp0) as [_ Hi]. eexists. split; [apply update_status; [done| |exact Ho]|done].
  rewrite <- Hi in Hp0 |- *. by eapply (profile_written _ _ _ _ Hrep).
Qed.

(** Rewriting rows without changing owners, roles and stakes changes no governor's standing. *)
Lemma governor_unmoved g f w w' who :
  r_profiles w' = f <$> r_profiles w -> r_caps w' = r_caps w ->
  (forall x, x ∈ r_profiles w -> rp_owner (f x) = rp_owner x /\ rp_class (f x) = rp_class x /\ rp_stake (f x) = rp_stake x) ->
  outcome (assert_governor_active g who) w' = outcome (assert_governor_active g who) w.
Proof.
  intros Hp Hc Hf. unfold assert_governor_active. destruct (whitelisted g who); [done|].
  unfold outcome, m_bind, m_get. unfold governance_profile_of. rewrite Hp, head_filter_fmap.
  2:{ intros x Hx. destruct (Hf x Hx) as (-> & -> & _). done. }
  destruct (head _) as [q|] eqn:Hq; cbn [fmap option_fmap option_map]; [|done].
  apply head_filter_elem in Hq as [Hq _]. destruct (Hf q Hq) as (_ & _ & ->). destruct (_ <=? _)%float; [done|].
  unfold stake_state, governance_locked. rewrite Hc. by destruct (decide _).
Qed.

Lemma seq_outcome {A B : Type} (c : RM A) (b : B) w :
  outcome (seq! c in m_ret b) w = match outcome c w with Ok _ => Ok b | Err e => Err e end.
Proof. unfold outcome, m_bind. by destruct (c w) as [[] ?]. Qed.

(** Taking a verifier role away does not stop its holder: the reviews of profiles and of
    identities look for a verifier profile but not at its status, so whoever was let through
    before the revocation is let through after it. *)
Theorem revoked_verifier_still_verifies g i actor w p0 w' who p j :
  NoDup (rp_id <$> r_profiles w) -> revoke_governance_role g i actor w = (Ok p0, w') ->
  outcome (require_kyc_verifier g who p) w' = outcome (require_kyc_verifier g who p) w /\
  outcome (require_identity_verifier g who j) w' = outcome (require_identity_verifier g who j) w.
Proof.
  intros Hnd Hr. apply revoke_role_row in Hr as (_ & Hrep & Hc & q & Hq & Hp0). apply profile_elem in Hq as [Hq Hi].
  set (f := fun x => if decide (rp_id x = rp_id p0) then p0 else x) in *. unfold replaced in Hrep. fold f in Hrep.
  assert (Hf : forall x, x ∈ r_profiles w -> rp_owner (f x) = rp_owner x /\ rp_class (f x) = rp_class x /\ rp_stake (f x) = rp_stake x).
  { intros x Hx. unfold f. case_decide as E; [|done]. assert (x = q) as ->; [|by rewrite Hp0].
    eapply (NoDup_fmap_inj rp_id); [done..|]. by rewrite E, Hp0. }
  assert (HP : forall a x, x ∈ r_profiles w ->
    (rp_owner (f x) = a /\ rp_class (f x) = "verifier"%string) <-> (rp_owner x = a /\ rp_class x = "verifier"%string)).
  { intros a x Hx. by destruct (Hf x Hx) as (-> & -> & _). }
  unfold require_kyc_verifier, require_identity_verifier. destruct (str_or who None) as [a|]; [|done].
  pose proof (governor_unmoved g f w w' a Hrep Hc Hf) as Hgov. split; (destruct (decide _); [done|]);
    unfold outcome, m_bind at 1 3, m_get; rewrite Hrep.
  - rewrite filter_fmap_same by apply HP. destruct (filter _ _) as [|x [|y l]]; [done| |done].
    cbn [fmap list_fmap]. fold (outcome (seq! assert_governor_active g a in m_ret a) w'). fold (outcome (seq! assert_governor_active g a in m_ret a) w).
    by rewrite !seq_outcome, Hgov.
  - rewrite head_filter_fmap by apply HP. destruct (head _) as [x|]; [|done].
    cbn [fmap option_fmap option_map]. fold (outcome (seq! assert_governor_active g a in m_ret a) w'). fold (outcome (seq! assert_governor_active g a in m_ret a) w).
    by rewrite !seq_outcome, Hgov.
Qed.

(** A reviewed profile stays reviewed when its role changes: an owner whose profile is
    verified moves it to any role that is not a governance role, an enterprise one included,
    and the profile is verified there without a review of the new role. *)
Theorem class_change_keeps_kyc g i owner p c w :
  safe_segment i = true -> profile_with_id i w = Some p -> str_or owner None = Some (rp_owner p) ->
  c ∉ GOVERNANCE_CLASSES -> c <> rp_class p ->
  exists p', outcome (update_role_profile g i owner (class_update c)) w = Ok p' /\
    rp_class p' = c /\ rp_kyc_status p' = rp_kyc_status p /\ rp_kyc_payload p' = rp_kyc_payload p.
Proof.
  intros Hs Hp Ha Hc Hne. destruct (owner_passes i owner p w Hs Hp Ha) as (H1 & H2 & H3).
  unfold outcome, update_role_profile, m_bind at 1. rewrite H1. unfold m_bind at 1. rewrite H2. unfold m_bind at 1. rewrite H3.
  cbn [ub_class class_update]. rewrite decide_False by done. unfold resolve_governance_stake.
  apply mem_false in Hc. rewrite Hc. eexists. split; [reflexivity|done].
Qed.

(** The same-person check of a profile asks for no status: whatever the profile was, a
    profile that two reviewers struck off included, a passed check makes it verified, where
    the table of the reviews lets a rejected profile only submit again. *)
Theorem face_check_skips_review fp str_of int_of_text parse_float fmt4 recover at_ i owner b p v w :
  safe_segment i = true -> profile_with_id i w = Some p -> str_or owner None = Some (rp_owner p) ->
  outcome (same_person_check fp str_of int_of_text parse_float fmt4 recover p b) w = Ok v ->
  exists p', outcome (confirm_role_profile_same_person fp str_of int_of_text parse_float fmt4 recover at_ i owner b) w = Ok p' /\
    rp_kyc_status p' = "verified"%string /\ rp_id p' = rp_id p.
Proof.
  intros Hs Hp Ha Hv. destruct (owner_passes i owner p w Hs Hp Ha) as (H1 & H2 & H3).
  unfold outcome, confirm_role_profile_same_person, m_bind at 1. rewrite H1. unfold m_bind at 1. rewrite H2.
  unfold m_bind at 1. rewrite H3. unfold outcome in Hv. unfold m_bind at 1.
  destruct (same_person_check _ _ _ _ _ _ _ _ w) as [r w1]. cbn in Hv. subst r. eexists. split; [reflexivity|done].
Qed.

(** The check of path segments accepts a segment that ends in a newline. *)
Theorem segment_trailing_newline s :
  String.list_ascii_of_string s <> [] -> (String.length s <= 256)%nat ->
  forallb is_segment_char (String.list_ascii_of_string s) = true ->
  safe_segment (s +:+ String NL "") = true.
Proof.
  intros Hne Hl Hs. unfold safe_segment.
  assert (E : String.list_ascii_of_string (s +:+ String NL "") = String.list_ascii_of_string s ++ [NL]).
  { clear. induction s as [|c s IH]; [done|]. simpl. by rewrite IH. }
  rewrite E, last_snoc, decide_True by done. rewrite length_app. cbn [length].
  replace (length _ + 1 - 1)%nat with (length (String.list_ascii_of_string s)) by lia. rewrite take_app_length.
  assert (El : length (String.list_ascii_of_string s) = String.length s) by (clear; induction s; cbn; congruence).
  rewrite Hs, andb_true_r, El. apply andb_true_iff. split; apply Nat.leb_le; [|done].
  rewrite <- El. by destruct (String.list_ascii_of_string s); [|cbn; lia].
Qed.

(** ** Examples *)

Definition sample_profile (i owner class_ kyc : string) : RoleProfile :=
  {| rp_id := i; rp_owner := owner; rp_class := class_; rp_kyc_status := kyc; rp_visibility := "public";
     rp_display_name := None; rp_kyc_payload := []; rp_status := "active"; rp_wallet := None; rp_spend_policy := [];
     rp_stake := fzero |}.
Definition sample_world : RWorld :=
  {| r_ident := one_table; r_profiles := [sample_profile "p1" "alice" "merchant" "pending"; sample_profile "p2" "vera" "verifier" "none"];
     r_pool := []; r_caps := ∅; r_revocations := []; r_security := []; r_notices := [] |}.
Definition sample_policy : GovPolicy :=
  {| governance_open_join := false; governance_min_stake_amount := fzero; governance_require_backed_stake := false;
     governance_verifier_ids := ["vera"%string]; admin_actor_ids := ["root"%string] |}.
Definition sample_faces : FacePolicy := {| face_activation_enabled := true; face_activation_min_angles := 3; face_consistency_min_score := fzero |}.
Definition sample_run := run_role_op (H := toy_mock) toy_settings toy_registry sample_policy sample_faces as_text
  (fun _ => None) (fun _ => None) (fun _ => ""%string) (fun _ _ => None).
Definition sample_review : role_op (Msg := CallbackMsg) := OpVerifyKyc "now" "p1" (Some "vera"%string) REVIEW_VERIFIED None.

Definition toy_authentic : MockProvider -> Z -> CallbackMsg -> Prop :=
  mock_authentic (fun _ _ => "00"%string) (fun _ => Some 5) (fun _ => "5"%string).

Lemma kyc_verified_by_others_witness :
  exists p', p' ∈ r_profiles (exec (sample_run sample_review) sample_world) /\ rp_kyc_status p' = "verified"%string /\
    ((exists p, p ∈ r_profiles sample_world /\ rp_id p = rp_id p' /\ rp_owner p = rp_owner p' /\ rp_kyc_status p = "verified"%string) \/
     verified_by sample_policy sample_faces (fun _ => ""%string) (fun _ _ => None) sample_world p' sample_review).
Proof.
  eexists. split; [vm_compute; left|]. split; [vm_compute; reflexivity|].
  apply (kyc_verified_by_others (H := toy_mock) toy_authentic toy_settings toy_registry sample_policy sample_faces as_text
    (fun _ => None) (fun _ => None)); [vm_compute; left|vm_compute; reflexivity].
Defined.

(** A provider's verdict arrives, and afterwards the owner tries to submit again. *)
Lemma identity_verification_invariant_witness :
  let w' := run_role_ops (H := toy_mock) toy_settings toy_registry sample_policy sample_faces as_text (fun _ => None) (fun _ => None)
    (fun _ => ""%string) (fun _ _ => None)
    [OpCallback (6 * SECOND) "alice" None toy_msg; OpSubmit "alice" (Some "alice"%string) sample_body] sample_world in
  (exists r, verification_of "alice" w' = Some r /\ vr_status r = "verified"%string) /\
  forall i r, verifications (r_ident w') !! i = Some r -> row_wf i r.
Proof.
  split; [eexists; split; [vm_compute; reflexivity|reflexivity]|].
  apply (identity_verification_invariant (H := toy_mock) toy_authentic toy_settings toy_registry).
  intros i r Hr. cbn in Hr. apply lookup_singleton_Some in Hr as [<- <-].
  apply provider_wf; [apply new_wf|]. intros x Hx. injection Hx as <-. by eexists.
Defined.
