(* ===== verification/UsageBilling.v ===== *)
(** * Metered usage

    [services/usage_billing.py] with the pricing rules of [services/skill_registry.py], the
    stake rule of [services/seller_stake.py], the bill selection of
    [services/chain/allowance_escrow.py], the binding look-ups of
    [services/chain/escrow_settlement.py] and the route [use_skill] of
    [api/routes/skill_market.py].

    A call is charged on a meter of its payer and skill; a meter whose open charges reach
    the threshold is billed by a settlement, which the chain carries out or refuses.  Rows
    are listed in the order of their creation; row ids, the clock and what the chain
    answers are arguments.  The digest of a settlement ([sha256_hex]) and the formatting of
    amounts ([fmt6]) are parameters, and so is the sum Python computes ([py_sum], with the
    law [PySum]). *)
From stdpp Require Import pretty.
From S2P Require Import Prelude PyText PyFloat FloatFacts FloatMul Decimal.
Open Scope Z_scope.

(** ** Rows and tables *)

Record Skill := {
  sk_id : string;
  sk_owner : string;
  sk_slug : string;
  sk_status : string;
  sk_price : float;
  sk_threshold : float;
  sk_cap : option float
}.

Record Meter := {
  mt_provider : string;
  mt_calls : Z;
  mt_accrued : float;
  mt_billed : float;
  mt_settled : float;
  mt_threshold : float;
  mt_cap : option float;
  mt_status : string;
  mt_last_used : option Z
}.

Record Charge := {
  ch_id : string;
  ch_request : string;
  ch_skill : string;
  ch_payer : string;
  ch_provider : string;
  ch_units : Z;
  ch_price : float;
  ch_amount : float;
  ch_settlement : option string;
  ch_occurred : Z
}.

Record USettlement := {
  us_id : string;
  us_skill : string;
  us_payer : string;
  us_provider : string;
  us_amount : float;
  us_stake : float;
  us_calls : Z;
  us_status : string;
  us_mode : string;
  us_digest : string;
  us_binding : option string;
  us_tx : option string;
  us_failure : option string;
  us_settled_at : option Z
}.

Record EscrowBinding := {
  eb_id : string;
  eb_buyer : string;
  eb_seller : string;
  eb_buyer_bill : string;
  eb_seller_bill : string;
  eb_contract : string;
  eb_task : string;
  eb_amount : float;
  eb_stake : float;
  eb_state : string;
  eb_proof : string;
  eb_bind_tx : string;
  eb_submit_tx : option string;
  eb_finalize_tx : option string;
  eb_pull_after : Z
}.

Record Commit := {
  cm_bill : string;
  cm_identity : string;
  cm_contract : string;
  cm_amount : float;
  cm_spent : float;
  cm_reserved : float;
  cm_state : string
}.

Abbreviation MeterKey := (string * string)%type.
Record UWorld := {
  u_meters : gmap MeterKey Meter;
  u_charges : list Charge;
  u_settlements : list USettlement;
  u_bindings : list EscrowBinding;
  u_commits : list Commit
}.
Abbreviation UM := (M UWorld Exc).

Definition put_meter (k : MeterKey) (m : Meter) : UM unit :=
  m_put (fun w => {| u_meters := <[k := m]> (u_meters w); u_charges := u_charges w; u_settlements := u_settlements w;
                     u_bindings := u_bindings w; u_commits := u_commits w |}).
Definition put_charges (f : list Charge -> list Charge) : UM unit :=
  m_put (fun w => {| u_meters := u_meters w; u_charges := f (u_charges w); u_settlements := u_settlements w;
                     u_bindings := u_bindings w; u_commits := u_commits w |}).
Definition put_settlements (f : list USettlement -> list USettlement) : UM unit :=
  m_put (fun w => {| u_meters := u_meters w; u_charges := u_charges w; u_settlements := f (u_settlements w);
                     u_bindings := u_bindings w; u_commits := u_commits w |}).
Definition put_bindings (f : list EscrowBinding -> list EscrowBinding) : UM unit :=
  m_put (fun w => {| u_meters := u_meters w; u_charges := u_charges w; u_settlements := u_settlements w;
                     u_bindings := f (u_bindings w); u_commits := u_commits w |}).

(** The primary keys and the unique request of a skill. *)
Definition insert_charge_row (c : Charge) : UM unit :=
  do! taken := m_get (fun w => bool_decide (Exists (fun x => ch_id x = ch_id c \/
                 (ch_skill x = ch_skill c /\ ch_request x = ch_request c)) (u_charges w))) in
  if taken then m_raise IntegrityError else put_charges (fun l => l ++ [c]).
Definition insert_settlement (s : USettlement) : UM unit :=
  do! taken := m_get (fun w => bool_decide (Exists (fun x => us_id x = us_id s) (u_settlements w))) in
  if taken then m_raise IntegrityError else put_settlements (fun l => l ++ [s]).

Definition write_settlement (s : USettlement) : UM unit :=
  put_settlements (fmap (fun x => if decide (us_id x = us_id s) then s else x)).

(** ** Prices: [services/skill_registry.py] *)

Definition USAGE_EPSILON : float := f1em9.
Definition MAX_UNIT_PRICE_USDC : float := Eval vm_compute in float_of_Z 100.
Definition MAX_THRESHOLD_USDC : float := Eval vm_compute in float_of_Z 100000.
Definition MAX_CAP_USDC : float := Eval vm_compute in float_of_Z 1000000.

(** [raw] is what [float(raw)] gives, when it gives something. *)
Definition normalize_price (raw : option float) : result Exc float :=
  match raw with
  | None => Err (HTTPException 400 "unit_price_usdc must be a number")
  | Some x =>
      let value := py_round_to 6 x in
      if (value <? fzero)%float then Err (HTTPException 400 "unit_price_usdc must not be negative")
      else if (value >? MAX_UNIT_PRICE_USDC + USAGE_EPSILON)%float
      then Err (HTTPException 400 "unit_price_usdc is too high")
      else Ok value
  end.
Definition normalize_threshold (raw : option float) : result Exc float :=
  match raw with
  | None => Err (HTTPException 400 "settlement_threshold_usdc must be a number")
  | Some x =>
      let value := py_round_to 6 x in
      if (value <? fzero)%float then Err (HTTPException 400 "settlement_threshold_usdc must not be negative")
      else if (value >? MAX_THRESHOLD_USDC + USAGE_EPSILON)%float
      then Err (HTTPException 400 "settlement_threshold_usdc is too high")
      else Ok value
  end.
(** [raw] is [None] when no cap is asked for. *)
Definition normalize_cap (raw : option (option float)) : result Exc (option float) :=
  match raw with
  | None => Ok None
  | Some None => Err (HTTPException 400 "default_cap_usdc must be a number or empty")
  | Some (Some x) =>
      let value := py_round_to 6 x in
      if (value <=? fzero)%float then Err (HTTPException 400 "default_cap_usdc must be positive")
      else if (value >? MAX_CAP_USDC + USAGE_EPSILON)%float
      then Err (HTTPException 400 "default_cap_usdc is too high")
      else Ok (Some value)
  end.

(** ** Meters and charges *)

Definition MAX_UNITS_PER_CALL : Z := 1000000.

Definition estimate_amount (units : Z) (unit_price : float) : result Exc float :=
  if (units <=? 0) || (MAX_UNITS_PER_CALL <? units)
  then Err (HTTPException 400 "units must be between 1 and the maximum")
  else Ok (py_round_to 6 (float_of_Z units * or_zero (Some unit_price))%float).

Definition normalize_request_id (raw : string) : result Exc string :=
  let text := py_strip raw in
  if bool_decide (text = ""%string) || (80 <? Z.of_nat (String.length text))
  then Err (HTTPException 400 "request_id is required (1-80 characters)")
  else Ok text.

Definition new_meter (sk : Skill) : Meter :=
  {| mt_provider := sk_owner sk; mt_calls := 0; mt_accrued := fzero; mt_billed := fzero; mt_settled := fzero;
     mt_threshold := or_zero (Some (sk_threshold sk)); mt_cap := sk_cap sk; mt_status := "open"; mt_last_used := None |}.

Definition get_or_create_meter (sk : Skill) (payer : string) : UM Meter :=
  do! row := m_get (fun w => u_meters w !! (sk_id sk, payer)) in
  match row with
  | Some m => m_ret m
  | None => seq! put_meter (sk_id sk, payer) (new_meter sk) in m_ret (new_meter sk)
  end.

Definition assert_meter_allows (m : Meter) (amount : float) : result Exc unit :=
  if decide (or_str (mt_status m) "open" <> "open"%string)
  then Err (HTTPException 409 "this meter does not accept calls")
  else match mt_cap m with
       | None => Ok tt
       | Some cap =>
           let used := (or_zero (Some (mt_billed m)) + or_zero (Some (mt_accrued m)))%float in
           if (used + amount >? cap + USAGE_EPSILON)%float
           then Err (HTTPException 409 "the cap of this meter is exceeded")
           else Ok tt
       end.

Definition set_amounts (accrued billed settled : float) (m : Meter) : Meter :=
  {| mt_provider := mt_provider m; mt_calls := mt_calls m; mt_accrued := accrued; mt_billed := billed;
     mt_settled := settled; mt_threshold := mt_threshold m; mt_cap := mt_cap m; mt_status := mt_status m;
     mt_last_used := mt_last_used m |}.
Definition set_used (calls : Z) (accrued : float) (at_ : Z) (m : Meter) : Meter :=
  {| mt_provider := mt_provider m; mt_calls := calls; mt_accrued := accrued; mt_billed := mt_billed m;
     mt_settled := mt_settled m; mt_threshold := mt_threshold m; mt_cap := mt_cap m; mt_status := mt_status m;
     mt_last_used := Some at_ |}.

Definition charge_of (skill_id request : string) (w : UWorld) : option Charge :=
  head (filter (fun c => ch_skill c = skill_id /\ ch_request c = request) (u_charges w)).

Record UsageResult := {
  ur_charge : Charge;
  ur_meter : option Meter;
  ur_duplicate : bool
}.

(** [provider] is the optional argument of the same name. *)
Definition record_usage (now : Z) (new_id : string) (sk : Skill) (payer request : string) (units : Z)
    (provider : option string) : UM UsageResult :=
  do! rid := lift (normalize_request_id request) in
  let provider := py_strip (default ""%string (str_or provider (Some (sk_owner sk)))) in
  if decide (provider = ""%string) then m_raise (HTTPException 409 "this skill has no owner")
  else if decide (provider = payer) then m_raise (HTTPException 409 "payer and provider must differ")
  else
    do! existing := m_get (charge_of (sk_id sk) rid) in
    match existing with
    | Some c =>
        do! m := m_get (fun w => u_meters w !! (sk_id sk, payer)) in
        m_ret {| ur_charge := c; ur_meter := m; ur_duplicate := true |}
    | None =>
        do! amount := lift (estimate_amount units (sk_price sk)) in
        do! m := get_or_create_meter sk payer in
        seq! lift (assert_meter_allows m amount) in
        let c := {| ch_id := new_id; ch_request := rid; ch_skill := sk_id sk; ch_payer := payer; ch_provider := provider;
                    ch_units := units; ch_price := or_zero (Some (sk_price sk)); ch_amount := amount;
                    ch_settlement := None; ch_occurred := now |} in
        let m' := set_used (mt_calls m + units) (py_round_to 6 (or_zero (Some (mt_accrued m)) + amount)%float) now m in
        seq! insert_charge_row c in
        seq! put_meter (sk_id sk, payer) m' in
        m_ret {| ur_charge := c; ur_meter := Some m'; ur_duplicate := false |}
    end.

(** ** Billing a meter *)

Definition charge_leb (a b : Charge) : bool :=
  (ch_occurred a <? ch_occurred b) || ((ch_occurred a =? ch_occurred b) && String.leb (ch_id a) (ch_id b)).
Fixpoint insert_charge (c : Charge) (l : list Charge) : list Charge :=
  match l with
  | [] => [c]
  | x :: l' => if charge_leb c x then c :: l else x :: insert_charge c l'
  end.

Definition unsettled_charges (skill_id payer : string) (cutoff : Z) (w : UWorld) : list Charge :=
  foldr insert_charge []
    (filter (fun c => ch_skill c = skill_id /\ ch_payer c = payer /\ ch_settlement c = None /\ ch_occurred c <= cutoff)
       (u_charges w)).

Record UsagePolicy := {
  settlement_default_penalty_bps : Z;
  escrow_enabled : bool;
  allowance_escrow_address : string;
  settlement_operator_private_key : string;
  settlement_scope : string
}.
Record OrderArgs := {
  oa_buyer_bill : string;
  oa_seller_bill : string;
  oa_amount : float;
  oa_stake : float;
  oa_scope : string;
  oa_task : string;
  oa_proof : string;
  oa_contract : string
}.
Record OrderResult := {
  or_binding_id : Z;
  or_proof_hash : string;
  or_bind_tx : string;
  or_submit_tx : option string;
  or_pull_after : Z
}.

Section Billing.
Context (p : UsagePolicy) (py_sum : list float -> float) (sha256_hex : string -> string) (fmt6 : float -> string).

Definition required_stake_usdc (order_amount : float) : float :=
  let bps := settlement_default_penalty_bps p in
  let amount := or_zero (Some order_amount) in
  if (amount <=? fzero)%float || (bps <=? 0) then fzero
  else py_round_to 6 (amount * float_of_Z bps / float_of_Z 10000)%float.

Definition configured_address : string := py_strip (allowance_escrow_address p).
Definition can_server_settle : bool :=
  negb (bool_decide (py_strip (settlement_operator_private_key p) = ""%string)) &&
  negb (bool_decide (configured_address = ""%string)).
Definition bill_contract (c : Commit) : string := or_str (py_strip (cm_contract c)) configured_address.
Definition is_current_contract (value : string) : bool :=
  let configured := lower_strip configured_address in
  negb (bool_decide (configured = ""%string)) && bool_decide (lower_strip value = configured).
Definition bill_is_spendable (c : Commit) : bool :=
  if negb (escrow_enabled p) then true else is_current_contract (bill_contract c).

Definition free_of (c : Commit) : float :=
  (or_zero (Some (cm_amount c)) - or_zero (Some (cm_spent c)) - or_zero (Some (cm_reserved c)))%float.

(** Newest bill first, as [list_commits] returns them. *)
Definition list_commits (identity : string) (w : UWorld) : list Commit :=
  reverse (filter (fun c => cm_identity c = identity) (u_commits w)).
Definition better_bill (need : float) (best : option (float * string)) (c : Commit) : option (float * string) :=
  if negb (bool_decide (cm_state c = "open"%string)) || negb (bill_is_spendable c) then best
  else
    let free := free_of c in
    if (free + USAGE_EPSILON <? need)%float then best
    else match best with
         | None => Some (free, cm_bill c)
         | Some (b, _) => if (free >? b)%float then Some (free, cm_bill c) else best
         end.
Definition pick_bill (identity : string) (need : float) (w : UWorld) : option string :=
  snd <$> fold_left (better_bill need) (list_commits identity w) None.

Definition settlement_digest (skill_id payer : string) (amount : float) (calls : Z) (charges : list Charge) : string :=
  sha256_hex (py_join "|" ([skill_id; payer; fmt6 amount; pretty calls] ++
    ((fun c => ch_id c +:+ ":" +:+ fmt6 (or_zero (Some (ch_amount c))))%string <$> charges))).

(** [local_binding_id]: the bare number unless it is taken. *)
Definition local_binding_id (chain_id : Z) (w : UWorld) : string :=
  if bool_decide (Exists (fun b => eb_id b = pretty chain_id) (u_bindings w))
  then (configured_address +:+ ":" +:+ pretty chain_id)%string
  else pretty chain_id.

(** The primary key and the unique transaction of a binding. *)
Definition insert_binding (b : EscrowBinding) : UM unit :=
  do! taken := m_get (fun w => bool_decide (Exists (fun x => eb_id x = eb_id b \/ eb_bind_tx x = eb_bind_tx b) (u_bindings w))) in
  if taken then m_raise IntegrityError else put_bindings (fun l => l ++ [b]).

Definition with_failure (reason : string) (s : USettlement) : USettlement :=
  {| us_id := us_id s; us_skill := us_skill s; us_payer := us_payer s; us_provider := us_provider s;
     us_amount := us_amount s; us_stake := us_stake s; us_calls := us_calls s; us_status := us_status s;
     us_mode := us_mode s; us_digest := us_digest s; us_binding := us_binding s; us_tx := us_tx s;
     us_failure := Some reason; us_settled_at := us_settled_at s |}.
Definition with_status (status : string) (binding tx failure : option string) (at_ : option Z) (s : USettlement) :
    USettlement :=
  {| us_id := us_id s; us_skill := us_skill s; us_payer := us_payer s; us_provider := us_provider s;
     us_amount := us_amount s; us_stake := us_stake s; us_calls := us_calls s; us_status := status;
     us_mode := us_mode s; us_digest := us_digest s; us_binding := binding; us_tx := tx;
     us_failure := failure; us_settled_at := at_ |}.
Definition pin (sid : option string) (c : Charge) : Charge :=
  {| ch_id := ch_id c; ch_request := ch_request c; ch_skill := ch_skill c; ch_payer := ch_payer c;
     ch_provider := ch_provider c; ch_units := ch_units c; ch_price := ch_price c; ch_amount := ch_amount c;
     ch_settlement := sid; ch_occurred := ch_occurred c |}.

(** The amount a settlement of these charges has. *)
Definition charges_total (charges : list Charge) : float :=
  py_round_to 6 (py_sum ((fun c => or_zero (Some (ch_amount c))) <$> charges)).

(** The step that books: the settlement row, the pinned charges and the meter. *)
Definition book (new_id : string) (sk : Skill) (payer : string) (on_chain : bool) (m : Meter) (charges : list Charge) :
    UM USettlement :=
  let amount := charges_total charges in
  let calls := foldr Z.add 0 (ch_units <$> charges) in
  let row := {| us_id := new_id; us_skill := sk_id sk; us_payer := payer; us_provider := sk_owner sk; us_amount := amount;
                us_stake := required_stake_usdc amount; us_calls := calls; us_status := "open";
                us_mode := if on_chain then "escrow_allowance" else "manual";
                us_digest := settlement_digest (sk_id sk) payer amount calls charges; us_binding := None; us_tx := None;
                us_failure := None; us_settled_at := None |} in
  seq! insert_settlement row in
  seq! put_charges (fmap (fun c => if bool_decide (ch_id c ∈ (ch_id <$> charges)) then pin (Some new_id) c else c)) in
  seq! put_meter (sk_id sk, payer)
         (set_amounts (py_round_to 6 (or_zero (Some (mt_accrued m)) - amount)%float)
                      (py_round_to 6 (or_zero (Some (mt_billed m)) + amount)%float) (mt_settled m) m) in
  m_ret row.

Definition refuse (reason : string) (row : USettlement) : UM (option (USettlement * bool)) :=
  let row' := with_failure reason row in
  seq! write_settlement row' in
  m_ret (Some (row', false)).

(** The chain side of a booked settlement; [open_order] is [open_and_submit_order]. *)
Definition submit_order (open_order : OrderArgs -> result string OrderResult) (sk : Skill) (payer : string)
    (row : USettlement) : UM (option (USettlement * bool)) :=
  do! buyer_bill := m_get (pick_bill payer (us_amount row)) in
  do! seller_bill := m_get (pick_bill (sk_owner sk) (us_stake row)) in
  match buyer_bill, seller_bill with
  | Some bb, Some sb =>
      let task := take_chars 64 ("usage-" +:+ us_id row)%string in
      let scope := take_chars 120 (settlement_scope p +:+ ":skill:" +:+ sk_slug sk)%string in
      let proof := ("usage:" +:+ us_id row +:+ ":" +:+ us_digest row)%string in
      match open_order {| oa_buyer_bill := bb; oa_seller_bill := sb; oa_amount := us_amount row; oa_stake := us_stake row;
                          oa_scope := scope; oa_task := task; oa_proof := proof; oa_contract := configured_address |} with
      | Err e => refuse (take_chars 500 ("chain submission failed: " +:+ e)%string) row
      | Ok r =>
          do! local := m_get (local_binding_id (or_binding_id r)) in
          seq! insert_binding
                 {| eb_id := local; eb_buyer := payer; eb_seller := sk_owner sk; eb_buyer_bill := bb; eb_seller_bill := sb;
                    eb_contract := configured_address; eb_task := task; eb_amount := us_amount row;
                    eb_stake := us_stake row; eb_state := "finalizing"; eb_proof := or_proof_hash r;
                    eb_bind_tx := or_bind_tx r; eb_submit_tx := or_submit_tx r; eb_finalize_tx := None;
                    eb_pull_after := or_pull_after r |} in
          let row' := with_status "submitted" (Some local) (us_tx row) None (us_settled_at row) row in
          seq! write_settlement row' in
          m_ret (Some (row', true))
      end
  | None, _ => refuse "the lockable amount of the payer is not enough" row
  | _, None => refuse "the lockable amount of the provider is not enough" row
  end.

Definition settle_meter (now : Z) (new_id : string) (open_order : OrderArgs -> result string OrderResult)
    (sk : Skill) (payer : string) (cutoff : option Z) (allow_chain : bool) : UM (option (USettlement * bool)) :=
  let stamp := default now cutoff in
  do! meter := m_get (fun w => u_meters w !! (sk_id sk, payer)) in
  match meter with
  | None => m_ret None
  | Some m =>
      do! charges := m_get (unsettled_charges (sk_id sk) payer stamp) in
      let amount := charges_total charges in
      if (amount <=? fzero)%float || (amount + USAGE_EPSILON <? or_zero (Some (mt_threshold m)))%float
      then m_ret None
      else
        let on_chain := allow_chain && can_server_settle in
        do! row := book new_id sk payer on_chain m charges in
        if negb on_chain then refuse "the settlement channel is not open" row
        else submit_order open_order sk payer row
  end.

(** ** Reconciliation with the chain *)

Definition RECONCILE_BATCH : Z := 50.
Definition BINDING_DONE (state : string) : option string :=
  if decide (state = "settled"%string) then Some "settled"%string
  else if decide (state = "slashed"%string) then Some "failed"%string
  else if decide (state = "cancelled"%string) then Some "failed"%string
  else None.

Definition ends_with (suffix s : string) : bool :=
  bool_decide (suffix = String.substring (String.length s - String.length suffix) (String.length suffix) s) &&
  (String.length suffix <=? String.length s)%nat.
Definition find_binding (i : string) (w : UWorld) : option EscrowBinding :=
  match head (filter (fun b => eb_id b = i) (u_bindings w)) with
  | Some b => Some b
  | None => last (filter (fun b => ends_with (":" +:+ i)%string (eb_id b) = true) (u_bindings w))
  end.

(** [x or y] on optional transactions. *)
Definition reconcile_one (now : Z) (row : USettlement) : UM (option USettlement) :=
  match str_or (us_binding row) None with
  | None => m_ret None
  | Some bid =>
      do! binding := m_get (find_binding bid) in
      match binding with
      | None => m_ret None
      | Some b =>
          match BINDING_DONE (eb_state b) with
          | None => m_ret None
          | Some target =>
              let k := (us_skill row, us_payer row) in
              do! meter := m_get (fun w => u_meters w !! k) in
              let amount := or_zero (Some (us_amount row)) in
              if decide (target = "settled"%string)
              then
                let row' := with_status "settled" (us_binding row) (str_or (eb_finalize_tx b) (eb_submit_tx b)) None (Some now) row in
                seq! write_settlement row' in
                seq! match meter with
                     | Some m => put_meter k (set_amounts (mt_accrued m) (mt_billed m)
                                   (py_round_to 6 (or_zero (Some (mt_settled m)) + amount)%float) m)
                     | None => m_ret tt
                     end in
                m_ret (Some row')
              else
                let row' := with_status "failed" (us_binding row) (us_tx row)
                              (Some ("chain state: " +:+ eb_state b)%string) (us_settled_at row) row in
                seq! write_settlement row' in
                seq! match meter with
                     | Some m => put_meter k (set_amounts
                                   (py_round_to 6 (or_zero (Some (mt_accrued m)) + amount)%float)
                                   (py_round_to 6 (py_max fzero (or_zero (Some (mt_billed m)) - amount)%float)) (mt_settled m) m)
                     | None => m_ret tt
                     end in
                seq! put_charges (fmap (fun c => if decide (ch_settlement c = Some (us_id row)) then pin None c else c)) in
                m_ret (Some row')
          end
      end
  end.

Fixpoint reconcile_all (now : Z) (rows : list USettlement) : UM (list USettlement) :=
  match rows with
  | [] => m_ret []
  | row :: l =>
      do! x := reconcile_one now row in
      do! xs := reconcile_all now l in
      m_ret (match x with Some r => r :: xs | None => xs end)
  end.

Definition reconcile_settlements (now limit : Z) : UM (list USettlement) :=
  do! rows := m_get (fun w => take (Z.to_nat (Z.max 1 limit))
                                (filter (fun s => us_status s = "submitted"%string) (u_settlements w))) in
  reconcile_all now rows.

(** ** The route [use_skill] *)

(** The largest of the free amounts, and Python's [max] keeps the first of equals. *)
Definition max_free (x : float) (l : list float) : float := fold_left py_max l x.

Definition assert_can_pay (sk : Skill) (payer : string) (w : UWorld) : result Exc unit :=
  let needed := py_max (or_zero (Some (sk_price sk))) fzero in
  match filter (fun c => cm_state c = "open"%string) (list_commits payer w) with
  | [] => Err (HTTPException 409 "the payer has no locked amount")
  | c :: l =>
      if (needed <=? fzero)%float then Ok tt
      else if (max_free (free_of c) (free_of <$> l) + USAGE_EPSILON <? needed)%float
      then Err (HTTPException 409 "the locked amount is not enough")
      else Ok tt
  end.

Record UseBody := {
  ub_request : string;
  ub_units : Z
}.

(** [actor] has been authenticated and [sk] is the skill of the slug.  A flush that fails in
    [settle_meter] leaves the session unusable, and the commit at the end raises. *)
Definition use_skill (now : Z) (charge_id settlement_id : string) (open_order : OrderArgs -> result string OrderResult)
    (sk : Skill) (actor : string) (b : UseBody) : UM (UsageResult * option (USettlement * bool)) :=
  if decide (sk_status sk <> "published"%string)
  then m_raise (HTTPException 409 "this skill does not accept calls")
  else
    do! w := m_get (fun w => w) in
    seq! lift (assert_can_pay sk actor w) in
    do! r := record_usage now charge_id sk actor (ub_request b) (ub_units b) None in
    do! s := if ur_duplicate r then m_ret None
             else settle_meter now settlement_id open_order sk actor None true in
    seq! reconcile_settlements now RECONCILE_BATCH in
    m_ret (r, s).
End Billing.

(** One request: an exception discards its changes. *)
Definition u_request {A} (c : UM A) : UM A :=
  fun w => match c w with (Ok a, w') => (Ok a, w') | (Err e, _) => (Err e, w) end.

(** ** Units *)

(** An amount in millionths of a USDC. *)
Definition units (x : float) : Z := rne (sval x * scale 6) K.

Lemma units_dec n : 0 <= n <= 2 ^ 50 -> units (dec 6 n) = n.
Proof.
  intros Hn. destruct (dec_near 6 n Hn) as (_ & _ & P & E). pose proof K_pos as HK. pose proof (scale_bounds 6) as HU.
  apply rne_near; [nia|done|]. lia.
Qed.

Definition cu (c : Charge) : Z := units (ch_amount c).
Definition key_of (c : Charge) : MeterKey := (ch_skill c, ch_payer c).
Definition skey_of (s : USettlement) : MeterKey := (us_skill s, us_payer s).

(** Weights of a charge and of a settlement in the sums of a meter. *)
Definition charged (k : MeterKey) (c : Charge) : Z := if decide (key_of c = k) then cu c else 0.
Definition unbilled (k : MeterKey) (c : Charge) : Z :=
  if decide (key_of c = k /\ ch_settlement c = None) then cu c else 0.
Definition pinned (k : MeterKey) (c : Charge) : Z :=
  if decide (key_of c = k /\ ch_settlement c <> None) then cu c else 0.
Definition pinned_to (sid : string) (c : Charge) : Z := if decide (ch_settlement c = Some sid) then cu c else 0.
Definition calls_of (k : MeterKey) (c : Charge) : Z := if decide (key_of c = k) then 1 else 0.
Definition paid (k : MeterKey) (s : USettlement) : Z :=
  if decide (skey_of s = k /\ us_status s = "settled"%string) then units (us_amount s) else 0.

Definition total_of {A} (weight : A -> Z) (l : list A) : Z := zsum (weight <$> l).

Lemma total_app {A} (f : A -> Z) l l' : total_of f (l ++ l') = total_of f l + total_of f l'.
Proof. unfold total_of. by rewrite fmap_app, zsum_app. Qed.
Lemma total_cons {A} (f : A -> Z) x l : total_of f (x :: l) = f x + total_of f l.
Proof. done. Qed.
Lemma total_ext {A} (f g : A -> Z) l : (forall x, x ∈ l -> f x = g x) -> total_of f l = total_of g l.
Proof.
  induction l as [|x l IH]; intros Hx; [done|]. rewrite !total_cons, (Hx x), IH; [done| |left].
  intros y Hy. apply Hx. by right.
Qed.
Lemma total_le {A} (f g : A -> Z) l : (forall x, x ∈ l -> f x <= g x) -> total_of f l <= total_of g l.
Proof.
  induction l as [|x l IH]; intros Hx; [done|]. rewrite !total_cons.
  pose proof (Hx x ltac:(left)). assert (total_of f l <= total_of g l) by (apply IH; intros y Hy; apply Hx; by right). lia.
Qed.
Lemma total_add {A} (f g h : A -> Z) l : (forall x, x ∈ l -> h x = f x + g x) -> total_of h l = total_of f l + total_of g l.
Proof.
  induction l as [|x l IH]; intros Hx; [done|]. rewrite !total_cons, (Hx x), IH; [lia| |left].
  intros y Hy. apply Hx. by right.
Qed.
Lemma total_zero {A} (f : A -> Z) l : (forall x, x ∈ l -> f x = 0) -> total_of f l = 0.
Proof. intros Hx. rewrite (total_ext f (fun _ => 0)) by done. clear Hx. induction l as [|x l IH]; [done|]. rewrite total_cons. lia. Qed.
Lemma total_nonneg {A} (f : A -> Z) l : (forall x, x ∈ l -> 0 <= f x) -> 0 <= total_of f l.
Proof.
  induction l as [|x l IH]; intros Hx; [done|]. rewrite total_cons. pose proof (Hx x ltac:(left)).
  assert (0 <= total_of f l) by (apply IH; intros y Hy; apply Hx; by right). lia.
Qed.
Lemma total_fmap {A} (f : A -> Z) (g : A -> A) l : total_of f (g <$> l) = total_of (fun x => f (g x)) l.
Proof. unfold total_of. f_equal. by rewrite <- list_fmap_compose. Qed.
Lemma total_filter {A} (f : A -> Z) (P : A -> Prop) `{forall x, Decision (P x)} l :
  total_of f (filter P l) = total_of (fun x => if decide (P x) then f x else 0) l.
Proof.
  induction l as [|x l IH]; [done|]. rewrite filter_cons. rewrite total_cons. destruct (decide (P x)); [rewrite total_cons|]; lia.
Qed.
Lemma total_perm {A} (f : A -> Z) l l' : l ≡ₚ l' -> total_of f l = total_of f l'.
Proof. induction 1; rewrite ?total_cons; lia. Qed.

Lemma insert_charge_perm c l : insert_charge c l ≡ₚ c :: l.
Proof.
  induction l as [|x l IH]; cbn; [done|]. destruct (charge_leb c x); [done|]. rewrite IH. apply Permutation_swap.
Qed.
Lemma sorted_perm l : foldr insert_charge [] l ≡ₚ l.
Proof. induction l as [|c l IH]; cbn; [done|]. by rewrite insert_charge_perm, IH. Qed.

(** ** What a call costs *)

(** A price as [normalize_price] lets it through. *)
Definition priced (q : Z) (sk : Skill) : Prop := 0 <= q <= 100000000 /\ sk_price sk = dec 6 q.

Lemma mul_units u q : 1 <= u <= MAX_UNITS_PER_CALL -> 0 <= q <= 100000000 ->
  py_round_to 6 (float_of_Z u * dec 6 q)%float = dec 6 (u * q).
Proof.
  unfold MAX_UNITS_PER_CALL. intros Hu Hq. pose proof K_pos as HK. pose proof (scale_bounds 6) as HU.
  destruct (float_of_Z_exact u ltac:(lia)) as (Fu & Vu & Su), (normal_int u ltac:(lia)) as (mu & eu & Nu & Heu).
  destruct (decide (q = 0)) as [->|Hq0].
  { rewrite Z.mul_0_r. cbn [dec]. destruct (float_of_Z u) as [| | |[] m e]; try done; cbn [sval cond_Zopp] in Su; lia. }
  destruct (dec_rel 6 q ltac:(lia)) as (Fy & Vy & Py & Ey). set (y := dec 6 q) in *. set (U := scale 6) in *.
  assert (HyU : sval y <= sval y * U <= sval y * 100000000) by nia.
  assert (HK100 : K = 2 ^ 100 * 2 ^ 974) by (apply K_scale; lia).
  assert (H1174 : 2 ^ 1174 = 2 ^ 100 * K) by (unfold K; rewrite <- Z.pow_add_r by lia; done).
  assert (H974 : 0 < 2 ^ 974) by (by apply Z.pow_pos_nonneg).
  assert (HqK : K <= q * K <= 100000000 * K) by nia.
  assert (Hy : 2 ^ 974 <= sval y <= 2 ^ 1174) by (rewrite H1174; lia).
  destruct (normal_of y Vy Fy Hy) as (my & ey & Ny & Hey).
  destruct (fmul_rel _ _ _ _ _ _ Nu Ny ltac:(lia)) as (Fz & Vz & Pz & Ez).
  change (float_of_Z u * y)%float with (fmul (float_of_Z u) y). set (z := fmul (float_of_Z u) y) in *. rewrite Su in Ez.
  replace (sval z * K - u * K * sval y) with ((sval z - u * sval y) * K) in Ez by ring.
  rewrite Z.abs_mul, (Z.abs_eq K) in Ez by lia.
  assert (E1 : Z.abs (sval z - u * sval y) * 2 ^ 53 <= sval z) by nia. clear Ez.
  apply (round_near 6); [done|done|lia|done|]. fold U.
  assert (F1 : Z.abs (sval z * U - u * sval y * U) * 2 ^ 53 <= sval z * U) by (apply error_scale; [lia|done]).
  assert (F2 : Z.abs (sval y * U * u - q * K * u) * 2 ^ 53 <= sval y * U * u) by (apply error_scale; [lia|done]).
  replace (u * sval y * U) with (sval y * U * u) in F1 by ring. replace (u * q * K) with (q * K * u) by ring.
  assert (F3 : q * K * u <= 100000000 * K * 1000000) by (apply Z.mul_le_mono_nonneg; lia). clear - F1 F2 F3 HK. lia.
Qed.

Lemma estimate_units u q : 1 <= u <= MAX_UNITS_PER_CALL -> 0 <= q <= 100000000 ->
  estimate_amount u (dec 6 q) = Ok (dec 6 (u * q)).
Proof.
  intros Hu Hq. unfold estimate_amount. rewrite (proj2 (Z.leb_gt u 0)), (proj2 (Z.ltb_ge _ u)) by lia. cbn [orb].
  rewrite (dec_or_zero 6) by lia. by rewrite mul_units.
Qed.

(** ** The steps of the ledger *)

Section Ledger.
Context (p : UsagePolicy) (py_sum : list float -> float) `{!PySum py_sum}
        (sha256_hex : string -> string) (fmt6 : float -> string).

Definition same_terms (r r' : USettlement) : Prop :=
  us_id r' = us_id r /\ skey_of r' = skey_of r /\ us_amount r' = us_amount r.

(** Charges of a meter that a settlement takes. *)
Definition taken (k : MeterKey) (cutoff : Z) (c : Charge) : Prop :=
  key_of c = k /\ ch_settlement c = None /\ ch_occurred c <= cutoff.
#[local] Instance taken_dec k cutoff c : Decision (taken k cutoff c).
Proof. unfold taken. apply _. Defined.

Inductive ustep (w : UWorld) : UWorld -> Prop :=
| st_env bs cs :
    ustep w {| u_meters := u_meters w; u_charges := u_charges w; u_settlements := u_settlements w; u_bindings := bs; u_commits := cs |}
| st_open sk payer : u_meters w !! (sk_id sk, payer) = None ->
    ustep w {| u_meters := <[(sk_id sk, payer) := new_meter sk]> (u_meters w); u_charges := u_charges w;
               u_settlements := u_settlements w; u_bindings := u_bindings w; u_commits := u_commits w |}
| st_charge m c n calls at_ : u_meters w !! key_of c = Some m -> ch_settlement c = None ->
    0 <= n <= 2 ^ 50 -> ch_amount c = dec 6 n ->
    Forall (fun x => ch_id x <> ch_id c /\ ~ (ch_skill x = ch_skill c /\ ch_request x = ch_request c)) (u_charges w) ->
    assert_meter_allows m (ch_amount c) = Ok tt ->
    ustep w {| u_meters := <[key_of c := set_used calls (py_round_to 6 (or_zero (Some (mt_accrued m)) + ch_amount c)%float) at_ m]> (u_meters w);
               u_charges := u_charges w ++ [c]; u_settlements := u_settlements w; u_bindings := u_bindings w; u_commits := u_commits w |}
| st_book k m cutoff l row : u_meters w !! k = Some m -> l ≡ₚ filter (taken k cutoff) (u_charges w) ->
    (charges_total py_sum l <=? fzero)%float = false ->
    Forall (fun x => us_id x <> us_id row) (u_settlements w) ->
    skey_of row = k -> us_amount row = charges_total py_sum l -> us_status row ∈ ["open"; "submitted"]%string ->
    ustep w {| u_meters := <[k := set_amounts (py_round_to 6 (or_zero (Some (mt_accrued m)) - us_amount row)%float)
                                    (py_round_to 6 (or_zero (Some (mt_billed m)) + us_amount row)%float) (mt_settled m) m]> (u_meters w);
               u_charges := (fun c => if bool_decide (ch_id c ∈ (ch_id <$> l)) then pin (Some (us_id row)) c else c) <$> u_charges w;
               u_settlements := u_settlements w ++ [row]; u_bindings := u_bindings w; u_commits := u_commits w |}
| st_settled m row row' : u_meters w !! skey_of row = Some m -> row ∈ u_settlements w -> us_status row = "submitted"%string ->
    same_terms row row' -> us_status row' = "settled"%string ->
    ustep w {| u_meters := <[skey_of row := set_amounts (mt_accrued m) (mt_billed m)
                               (py_round_to 6 (or_zero (Some (mt_settled m)) + or_zero (Some (us_amount row)))%float) m]> (u_meters w);
               u_charges := u_charges w;
               u_settlements := (fun x => if decide (us_id x = us_id row') then row' else x) <$> u_settlements w;
               u_bindings := u_bindings w; u_commits := u_commits w |}
| st_failed m row row' : u_meters w !! skey_of row = Some m -> row ∈ u_settlements w -> us_status row = "submitted"%string ->
    same_terms row row' -> us_status row' = "failed"%string ->
    ustep w {| u_meters := <[skey_of row := set_amounts (py_round_to 6 (or_zero (Some (mt_accrued m)) + or_zero (Some (us_amount row)))%float)
                               (py_round_to 6 (py_max fzero (or_zero (Some (mt_billed m)) - or_zero (Some (us_amount row)))%float)) (mt_settled m) m]> (u_meters w);
               u_charges := (fun c => if decide (ch_settlement c = Some (us_id row)) then pin None c else c) <$> u_charges w;
               u_settlements := (fun x => if decide (us_id x = us_id row') then row' else x) <$> u_settlements w;
               u_bindings := u_bindings w; u_commits := u_commits w |}.

(** The amounts of a meter are in the range where the sums are exact: its calls times its
    total stay below [2^49] millionths. *)
Definition in_range (k : MeterKey) (w : UWorld) : Prop :=
  total_of (calls_of k) (u_charges w) <= 2 ^ 40 /\
  (1 + total_of (calls_of k) (u_charges w)) * total_of (charged k) (u_charges w) <= 2 ^ 49.

Record usage_wf (w : UWorld) : Prop := {
  uw_charges : NoDup (ch_id <$> u_charges w);
  uw_settlements : NoDup (us_id <$> u_settlements w);
  uw_grid c : c ∈ u_charges w -> 0 <= cu c <= 2 ^ 50 /\ ch_amount c = dec 6 (cu c);
  uw_metered c : c ∈ u_charges w -> is_Some (u_meters w !! key_of c);
  uw_smetered s : s ∈ u_settlements w -> is_Some (u_meters w !! skey_of s);
  uw_pins c sid : c ∈ u_charges w -> ch_settlement c = Some sid ->
    exists s, s ∈ u_settlements w /\ us_id s = sid /\ skey_of s = key_of c /\ us_status s <> "failed"%string;
  uw_status s : s ∈ u_settlements w -> us_status s ∈ ["open"; "submitted"; "settled"; "failed"]%string;
  uw_amount s : s ∈ u_settlements w -> us_status s <> "failed"%string -> in_range (skey_of s) w ->
    us_amount s = dec 6 (total_of (pinned_to (us_id s)) (u_charges w));
  uw_meter k m : u_meters w !! k = Some m -> in_range k w ->
    mt_accrued m = dec 6 (total_of (unbilled k) (u_charges w)) /\
    mt_billed m = dec 6 (total_of (pinned k) (u_charges w)) /\
    mt_settled m = dec 6 (total_of (paid k) (u_settlements w))
}.

(** *** Sums over the rows *)

Lemma range_total k w : usage_wf w -> in_range k w ->
  0 <= total_of (unbilled k) (u_charges w) /\ 0 <= total_of (pinned k) (u_charges w) /\
  total_of (charged k) (u_charges w) = total_of (unbilled k) (u_charges w) + total_of (pinned k) (u_charges w) /\
  total_of (charged k) (u_charges w) <= 2 ^ 49.
Proof.
  intros Hw [Hn Ht].
  assert (Hu : 0 <= total_of (unbilled k) (u_charges w)).
  { apply total_nonneg. intros c Hc. unfold unbilled. case_decide; [by apply (uw_grid _ Hw)|done]. }
  assert (Hp : 0 <= total_of (pinned k) (u_charges w)).
  { apply total_nonneg. intros c Hc. unfold pinned. case_decide; [by apply (uw_grid _ Hw)|done]. }
  assert (Hc : 0 <= total_of (calls_of k) (u_charges w)).
  { apply total_nonneg. intros c Hc. unfold calls_of. by case_decide. }
  assert (E : total_of (charged k) (u_charges w) = total_of (unbilled k) (u_charges w) + total_of (pinned k) (u_charges w)).
  { apply total_add. intros c _. unfold charged, unbilled, pinned.
    destruct (decide (key_of c = k)), (decide (ch_settlement c = None)); repeat case_decide; try tauto; lia. }
  split_and!; [done..|]. nia.
Qed.

Lemma total_swap (P : USettlement -> Prop) `{forall s, Decision (P s)} ss cs :
  total_of (fun s => if decide (P s) then total_of (pinned_to (us_id s)) cs else 0) ss =
  total_of (fun c => total_of (fun s => if decide (P s) then pinned_to (us_id s) c else 0) ss) cs.
Proof.
  induction cs as [|c cs IH]; [apply total_zero; intros s _; by case_decide|]. rewrite total_cons, <- IH.
  apply total_add. intros s _. rewrite total_cons. case_decide; lia.
Qed.

Lemma pinned_once (P : USettlement -> Prop) `{forall s, Decision (P s)} ss c x : NoDup (us_id <$> ss) -> 0 <= cu c ->
  (forall s, s ∈ ss -> P s -> ch_settlement c = Some (us_id s) -> cu c <= x) -> 0 <= x ->
  total_of (fun s => if decide (P s) then pinned_to (us_id s) c else 0) ss <= x.
Proof.
  intros Hnd Hc Hx H0. induction ss as [|s ss IH]; [done|]. rewrite total_cons. apply NoDup_cons in Hnd as [Hs Hnd].
  destruct (decide (P s /\ ch_settlement c = Some (us_id s))) as [[HP E]|Hno].
  - rewrite (total_zero _ ss).
    + rewrite decide_True by done. unfold pinned_to. rewrite decide_True by done. pose proof (Hx s ltac:(left) HP E). lia.
    + intros s' Hs'. case_decide; [|done]. unfold pinned_to. rewrite decide_False; [done|]. intros E'.
      apply Hs. apply list_elem_of_fmap. exists s'. split; [congruence|done].
  - assert (IHx : total_of (fun s => if decide (P s) then pinned_to (us_id s) c else 0) ss <= x).
    { apply IH; [done|]. intros s' Hs'. apply Hx. by right. }
    case_decide; [|lia]. unfold pinned_to at 1. rewrite decide_False by tauto. lia.
Qed.

(** What distinct settlements of a meter have taken together is at most what is billed. *)
Lemma pinned_sum k (P : USettlement -> Prop) `{forall s, Decision (P s)} w : usage_wf w ->
  (forall s, s ∈ u_settlements w -> P s -> skey_of s = k) ->
  total_of (fun s => if decide (P s) then total_of (pinned_to (us_id s)) (u_charges w) else 0) (u_settlements w)
  <= total_of (pinned k) (u_charges w).
Proof.
  intros Hw HP. rewrite total_swap. apply total_le. intros c Hc. destruct (uw_grid _ Hw c Hc) as [Hg _].
  apply pinned_once; [apply uw_settlements, Hw|lia| |unfold pinned; case_decide; lia].
  intros s Hs Ps E. destruct (uw_pins _ Hw c _ Hc E) as (s' & Hs' & Hid & Hk & _).
  assert (s' = s) as -> by (eapply (NoDup_fmap_inj us_id); [apply uw_settlements, Hw|done..]).
  unfold pinned. rewrite decide_True; [lia|]. split; [|congruence]. rewrite <- Hk. by apply HP.
Qed.

Lemma settlement_le s w : usage_wf w -> s ∈ u_settlements w ->
  0 <= total_of (pinned_to (us_id s)) (u_charges w) <= total_of (pinned (skey_of s)) (u_charges w).
Proof.
  intros Hw Hs. split.
  - apply total_nonneg. intros c Hc. unfold pinned_to.
    case_decide; [by apply (uw_grid _ Hw)|done].
  - apply total_le. intros c Hc. destruct (uw_grid _ Hw c Hc) as [Hg _]. unfold pinned_to, pinned.
    destruct (decide (ch_settlement c = Some (us_id s))) as [E|]; [|case_decide; lia].
    destruct (uw_pins _ Hw c _ Hc E) as (s' & Hs' & Hid & Hk & _).
    assert (s' = s) as -> by (eapply (NoDup_fmap_inj us_id); [apply uw_settlements, Hw|done..]).
    rewrite decide_True; [lia|]. split; congruence.
Qed.

(** The settled amount, row by row. *)
Lemma paid_units k w : usage_wf w -> in_range k w ->
  total_of (paid k) (u_settlements w) =
  total_of (fun s => if decide (skey_of s = k /\ us_status s = "settled"%string)
                     then total_of (pinned_to (us_id s)) (u_charges w) else 0) (u_settlements w).
Proof.
  intros Hw Hr. apply total_ext. intros s Hs. unfold paid. case_decide as E; [|done]. destruct E as [<- E].
  destruct (range_total _ _ Hw Hr) as (? & ? & ? & ?). pose proof (settlement_le s w Hw Hs).
  rewrite (uw_amount _ Hw s Hs), units_dec; [done|lia|by rewrite E|done].
Qed.

Lemma paid_le k w : usage_wf w -> in_range k w ->
  0 <= total_of (paid k) (u_settlements w) <= total_of (pinned k) (u_charges w).
Proof.
  intros Hw Hr. rewrite paid_units by done. split.
  - apply total_nonneg. intros s Hs. case_decide; [|done].
    by apply settlement_le.
  - apply pinned_sum; [done|]. by intros s _ [? _].
Qed.

(** *** Each step keeps the ledger *)

Lemma total_single {A} (id : A -> string) (l : list A) x n : NoDup (id <$> l) -> x ∈ l ->
  total_of (fun y => if decide (id y = id x) then n else 0) l = n.
Proof.
  intros Hnd Hx. induction l as [|y l IH]; [set_solver|]. rewrite total_cons. apply NoDup_cons in Hnd as [Hy Hnd].
  apply elem_of_cons in Hx as [->|Hx].
  - rewrite decide_True by done. rewrite (total_zero _ l); [lia|]. intros z Hz. rewrite decide_False; [done|]. intros E. apply Hy.
    apply list_elem_of_fmap. eauto.
  - rewrite decide_False; [by rewrite IH|]. intros E. apply Hy. rewrite E. apply list_elem_of_fmap. eauto.
Qed.

Lemma key_pin x c : key_of (pin x c) = key_of c. Proof. done. Qed.
Lemma cu_pin x c : cu (pin x c) = cu c. Proof. done. Qed.

(** Rewriting pins changes neither what is charged nor how often. *)
Lemma repinned (P : Charge -> Prop) `{forall c, Decision (P c)} x k (l : list Charge) :
  let f c := if decide (P c) then pin x c else c in
  total_of (charged k) (f <$> l) = total_of (charged k) l /\ total_of (calls_of k) (f <$> l) = total_of (calls_of k) l.
Proof. intros f. split; rewrite total_fmap; apply total_ext; intros c _; unfold f; by case_decide. Qed.

Lemma repinned_ids (P : Charge -> Prop) `{forall c, Decision (P c)} x (l : list Charge) :
  ch_id <$> ((fun c => if decide (P c) then pin x c else c) <$> l) = ch_id <$> l.
Proof. rewrite <- list_fmap_compose. apply list_fmap_ext. intros i c _. cbn. by case_decide. Qed.

(** Rewriting one settlement. *)
Lemma rewritten_ids row row' (l : list USettlement) : us_id row' = us_id row ->
  us_id <$> ((fun x => if decide (us_id x = us_id row') then row' else x) <$> l) = us_id <$> l.
Proof. intros E. rewrite <- list_fmap_compose. apply list_fmap_ext. intros i x _. cbn. by case_decide. Qed.

Lemma rewritten_elem row row' (l : list USettlement) s : NoDup (us_id <$> l) -> row ∈ l -> us_id row' = us_id row ->
  s ∈ ((fun x => if decide (us_id x = us_id row') then row' else x) <$> l) ->
  (s = row' /\ row ∈ l) \/ (s ∈ l /\ us_id s <> us_id row).
Proof.
  intros Hnd Hr E (x & -> & Hx)%list_elem_of_fmap. case_decide as D; [by left|]. right. split; [done|congruence].
Qed.

Lemma rewritten_keep row row' (l : list USettlement) s : row ∈ l -> us_id row' = us_id row -> s ∈ l -> us_id s <> us_id row ->
  s ∈ ((fun x => if decide (us_id x = us_id row') then row' else x) <$> l).
Proof. intros Hr E Hs Hne. apply list_elem_of_fmap. exists s. rewrite decide_False by congruence. done. Qed.

Lemma rewritten_new row row' (l : list USettlement) : row ∈ l -> us_id row' = us_id row ->
  row' ∈ ((fun x => if decide (us_id x = us_id row') then row' else x) <$> l).
Proof. intros Hr E. apply list_elem_of_fmap. exists row. by rewrite decide_True. Qed.

Lemma step_open w sk payer : usage_wf w -> u_meters w !! (sk_id sk, payer) = None ->
  usage_wf {| u_meters := <[(sk_id sk, payer) := new_meter sk]> (u_meters w); u_charges := u_charges w;
              u_settlements := u_settlements w; u_bindings := u_bindings w; u_commits := u_commits w |}.
Proof.
  intros Hw Hk. set (k := (sk_id sk, payer)) in *.
  assert (Hc : forall c, c ∈ u_charges w -> key_of c <> k) by (intros c Hc E; destruct (uw_metered _ Hw c Hc); congruence).
  assert (Hs : forall s, s ∈ u_settlements w -> skey_of s <> k) by (intros s Hs E; destruct (uw_smetered _ Hw s Hs); congruence).
  destruct Hw as [H1 H2 H3 H4 H5 H6 H7 H8 H9]. split; cbn [u_meters u_charges u_settlements]; try done.
  - intros c Hin. rewrite lookup_insert_ne by (by apply not_eq_sym, Hc). auto.
  - intros s Hin. rewrite lookup_insert_ne by (by apply not_eq_sym, Hs). auto.
  - intros k' m. destruct (decide (k' = k)) as [->|Hne]; [|rewrite lookup_insert_ne by done; apply H9].
    rewrite lookup_insert_eq. intros [= <-] _. cbn [new_meter mt_accrued mt_billed mt_settled].
    rewrite !total_zero; [done|..].
    + intros s Hin. unfold paid. rewrite decide_False; [done|]. intros [E _]. by apply (Hs s).
    + intros c Hin. unfold pinned. rewrite decide_False; [done|]. intros [E _]. by apply (Hc c).
    + intros c Hin. unfold unbilled. rewrite decide_False; [done|]. intros [E _]. by apply (Hc c).
Qed.

Lemma range_app k w c ms ss bs cs : 0 <= cu c -> (forall x, x ∈ u_charges w -> 0 <= cu x) ->
  in_range k {| u_meters := ms; u_charges := u_charges w ++ [c]; u_settlements := ss; u_bindings := bs; u_commits := cs |} ->
  in_range k w /\ total_of (charged k) (u_charges w) + charged k c <= 2 ^ 49.
Proof.
  intros Hc Hall. unfold in_range. cbn [u_charges]. rewrite !total_app, !total_cons. change (total_of _ []) with 0.
  assert (0 <= charged k c) by (unfold charged; case_decide; lia). assert (0 <= calls_of k c) by (unfold calls_of; by case_decide).
  assert (0 <= total_of (charged k) (u_charges w)) by (apply total_nonneg; intros x Hx; unfold charged; case_decide; auto; lia).
  assert (0 <= total_of (calls_of k) (u_charges w)) by (apply total_nonneg; intros x Hx; unfold calls_of; by case_decide).
  intros [R1 R2]. set (a := total_of (charged k) _) in *. set (b := total_of (calls_of k) _) in *.
  assert ((1 + b) * a <= (1 + (b + (calls_of k c + 0))) * (a + (charged k c + 0))) by (apply Z.mul_le_mono_nonneg; lia).
  split; [split; lia|]. nia.
Qed.

Lemma step_charge w m c n calls at_ : usage_wf w -> u_meters w !! key_of c = Some m -> ch_settlement c = None ->
  0 <= n <= 2 ^ 50 -> ch_amount c = dec 6 n -> Forall (fun x => ch_id x <> ch_id c) (u_charges w) ->
  usage_wf {| u_meters := <[key_of c := set_used calls (py_round_to 6 (or_zero (Some (mt_accrued m)) + ch_amount c)%float) at_ m]> (u_meters w);
              u_charges := u_charges w ++ [c]; u_settlements := u_settlements w; u_bindings := u_bindings w; u_commits := u_commits w |}.
Proof.
  intros Hw Hm Hopen Hn Ha Hfresh. assert (Hcu : cu c = n) by (unfold cu; rewrite Ha; by apply units_dec).
  assert (Hall : forall x, x ∈ u_charges w -> 0 <= cu x) by (intros x Hx; by apply (uw_grid _ Hw)).
  pose proof (fun k ms ss bs cs => range_app k w c ms ss bs cs ltac:(lia) Hall) as Hr.
  pose proof Hw as [H1 H2 H3 H4 H5 H6 H7 H8 H9]. split; cbn [u_meters u_charges u_settlements].
  - rewrite fmap_app. apply NoDup_app. split_and!; [done| |apply NoDup_singleton].
    intros i (x & -> & Hx)%list_elem_of_fmap Hi. apply list_elem_of_singleton in Hi.
    rewrite Forall_forall in Hfresh. by apply (Hfresh x Hx).
  - done.
  - intros x [Hx|Hx]%elem_of_app; [auto|]. apply list_elem_of_singleton in Hx as ->. rewrite Hcu. done.
  - intros x [Hx|Hx]%elem_of_app.
    + destruct (decide (key_of x = key_of c)) as [->|]; [rewrite lookup_insert_eq; eauto|rewrite lookup_insert_ne by done; auto].
    + apply list_elem_of_singleton in Hx as ->. rewrite lookup_insert_eq. eauto.
  - intros s Hs. destruct (decide (skey_of s = key_of c)) as [->|]; [rewrite lookup_insert_eq; eauto|rewrite lookup_insert_ne by done; auto].
  - intros x sid [Hx|Hx]%elem_of_app E; [eauto|]. apply list_elem_of_singleton in Hx as ->. congruence.
  - done.
  - intros s Hs Hf [Hin _]%Hr. rewrite total_app, total_cons. change (total_of _ []) with 0.
    assert (Ep : pinned_to (us_id s) c = 0) by (unfold pinned_to; by rewrite decide_False by congruence).
    rewrite (H8 s Hs Hf Hin), Ep. f_equal. lia.
  - intros k m' Hk [Hin Hb]%Hr. rewrite !total_app, !total_cons. change (total_of _ []) with 0.
    assert (Ep : pinned k c = 0) by (unfold pinned; rewrite decide_False; [done|naive_solver]).
    destruct (decide (k = key_of c)) as [->|Hne].
    + rewrite lookup_insert_eq in Hk. apply (inj Some) in Hk as <-. destruct (H9 _ _ Hm Hin) as (A & B & S).
      destruct (range_total _ _ Hw Hin) as (? & ? & E & ?). cbn [set_used mt_accrued mt_billed mt_settled]. rewrite A, B, S, Ep.
      assert (Eu : unbilled (key_of c) c = n) by (unfold unbilled; by rewrite decide_True).
      assert (charged (key_of c) c = n) by (unfold charged; by rewrite decide_True).
      rewrite (dec_or_zero 6), Ha, (dec_add 6), Eu by lia. split_and!; f_equal; lia.
    + rewrite lookup_insert_ne in Hk by done. destruct (H9 _ _ Hk Hin) as (A & B & S). rewrite A, B, S, Ep.
      assert (Eu : unbilled k c = 0) by (unfold unbilled; rewrite decide_False; [done|naive_solver]).
      rewrite Eu. split_and!; f_equal; lia.
Qed.

Definition taking (k : MeterKey) (cutoff : Z) (c : Charge) : Z := if decide (taken k cutoff c) then cu c else 0.

Lemma taken_units k cutoff w l : usage_wf w -> in_range k w -> l ≡ₚ filter (taken k cutoff) (u_charges w) ->
  (charges_total py_sum l <=? fzero)%float = false ->
  1 <= total_of (taking k cutoff) (u_charges w) <= total_of (unbilled k) (u_charges w) /\
  charges_total py_sum l = dec 6 (total_of (taking k cutoff) (u_charges w)).
Proof.
  intros Hw Hr Hl Hpos. destruct (range_total _ _ Hw Hr) as (Hu & Hp & E & Hb). destruct Hr as [Hn Ht].
  assert (Hsum : total_of cu l = total_of (taking k cutoff) (u_charges w)) by (by rewrite (total_perm _ _ _ Hl), total_filter).
  assert (Hle : total_of (taking k cutoff) (u_charges w) <= total_of (unbilled k) (u_charges w)).
  { apply total_le. intros c Hc. destruct (uw_grid _ Hw c Hc) as [Hg _]. unfold taking, unbilled, taken.
    repeat case_decide; try lia. naive_solver. }
  assert (Hin : forall c, c ∈ l -> c ∈ u_charges w) by (intros c; rewrite Hl, list_elem_of_filter; tauto).
  assert (H0 : 0 <= total_of cu l) by (apply total_nonneg; intros c Hc; by apply (uw_grid _ Hw), Hin).
  assert (Hlen : Z.of_nat (length l) <= total_of (calls_of k) (u_charges w)).
  { assert (E1 : forall l' : list Charge, Z.of_nat (length l') = total_of (fun _ => 1) l').
    { induction l' as [|c l' IH]; [done|]. rewrite total_cons. cbn [length]. lia. }
    rewrite E1, (total_perm _ _ _ Hl), total_filter. apply total_le. intros c _. unfold calls_of, taken. repeat case_decide; tauto || lia. }
  assert (Hs : summable (cu <$> l)).
  { split; [|split].
    - apply Forall_fmap, Forall_forall. intros c Hc. by apply (uw_grid _ Hw), Hin.
    - rewrite length_fmap. lia.
    - rewrite length_fmap. change (zsum (cu <$> l)) with (total_of cu l).
      assert ((1 + Z.of_nat (length l)) * total_of cu l
        <= (1 + total_of (calls_of k) (u_charges w)) * total_of (charged k) (u_charges w)) by (apply Z.mul_le_mono_nonneg; lia). lia. }
  assert (Ec : charges_total py_sum l = py_round_to 6 (py_sum (dec 6 <$> (cu <$> l)))).
  { unfold charges_total. do 2 f_equal. rewrite <- list_fmap_compose. apply list_fmap_ext. intros i c Hc.
    destruct (uw_grid _ Hw c) as [Hg Ea]; [by apply Hin, (list_elem_of_lookup_2 _ i)|].
    change (or_zero (Some (ch_amount c)) = dec 6 (cu c)). rewrite Ea. by apply (dec_or_zero 6). }
  rewrite Ec in Hpos |- *. assert (H1 : 1 <= zsum (cu <$> l)).
  { change (zsum (cu <$> l)) with (total_of cu l). destruct (decide (total_of cu l = 0)) as [Hz|]; [|lia]. exfalso.
    pose proof (dec_sum_zero 6 py_sum (cu <$> l) Hs Hz) as Hc. congruence. }
  rewrite (dec_sum 6 py_sum _ Hs H1). change (zsum (cu <$> l)) with (total_of cu l) in *. rewrite <- Hsum. split; [lia|done].
Qed.

(** Pinning the taken charges, by their ids as the code does and by the condition. *)
Lemma pinned_by_id k cutoff l sid w : usage_wf w -> l ≡ₚ filter (taken k cutoff) (u_charges w) ->
  (fun c => if bool_decide (ch_id c ∈ (ch_id <$> l)) then pin (Some sid) c else c) <$> u_charges w =
  (fun c => if decide (taken k cutoff c) then pin (Some sid) c else c) <$> u_charges w.
Proof.
  intros Hw Hl. apply list_fmap_ext. intros i c Hc. apply list_elem_of_lookup_2 in Hc. case_bool_decide as B; case_decide as D; try done.
  - exfalso. apply D. apply list_elem_of_fmap in B as (c' & E & Hc'). rewrite Hl in Hc'. apply list_elem_of_filter in Hc' as [Ht Hc'].
    by rewrite (NoDup_fmap_inj ch_id (u_charges w) c c' (uw_charges _ Hw) Hc Hc' E).
  - exfalso. apply B. apply list_elem_of_fmap. exists c. split; [done|]. rewrite Hl. by apply list_elem_of_filter.
Qed.

(** What pinning moves from the open charges of a meter to the billed ones. *)
Lemma taken_moves k cutoff sid cs :
  let g c := if decide (taken k cutoff c) then pin (Some sid) c else c in
  total_of (unbilled k) cs = total_of (unbilled k) (g <$> cs) + total_of (taking k cutoff) cs /\
  total_of (pinned k) (g <$> cs) = total_of (pinned k) cs + total_of (taking k cutoff) cs /\
  forall k', k' <> k -> total_of (unbilled k') (g <$> cs) = total_of (unbilled k') cs /\
    total_of (pinned k') (g <$> cs) = total_of (pinned k') cs.
Proof.
  intros g. rewrite !total_fmap. split_and!.
  - apply total_add. intros c _. unfold g, taking. case_decide as D; [|lia].
    destruct D as (D1 & D2 & _). unfold unbilled. rewrite decide_True, decide_False; [done| |done]. by intros [_ ?].
  - apply total_add. intros c _. unfold g, taking. case_decide as D; [|lia].
    destruct D as (D1 & D2 & _). unfold pinned. rewrite decide_True, decide_False; [done| |done]. by intros [_ ?].
  - intros k' Hne. rewrite !total_fmap. split; apply total_ext; intros c _; unfold g; (case_decide as D; [|done]);
      destruct D as (D1 & _); unfold unbilled, pinned; rewrite !decide_False; try done; intros [E' _]; change (key_of c = k') in E'; congruence.
Qed.

Lemma step_book w k m cutoff l row : usage_wf w -> u_meters w !! k = Some m -> l ≡ₚ filter (taken k cutoff) (u_charges w) ->
  (charges_total py_sum l <=? fzero)%float = false -> Forall (fun x => us_id x <> us_id row) (u_settlements w) ->
  skey_of row = k -> us_amount row = charges_total py_sum l -> us_status row ∈ ["open"; "submitted"]%string ->
  usage_wf {| u_meters := <[k := set_amounts (py_round_to 6 (or_zero (Some (mt_accrued m)) - us_amount row)%float)
                                    (py_round_to 6 (or_zero (Some (mt_billed m)) + us_amount row)%float) (mt_settled m) m]> (u_meters w);
              u_charges := (fun c => if bool_decide (ch_id c ∈ (ch_id <$> l)) then pin (Some (us_id row)) c else c) <$> u_charges w;
              u_settlements := u_settlements w ++ [row]; u_bindings := u_bindings w; u_commits := u_commits w |}.
Proof.
  intros Hw Hm Hl Hpos Hfresh Hk Ham Hst.
  rewrite (pinned_by_id k cutoff) by done. set (g := fun c => if decide (taken k cutoff c) then _ else _).
  assert (Hg : forall c, key_of (g c) = key_of c /\ cu (g c) = cu c /\ ch_amount (g c) = ch_amount c) by (intros c; unfold g; by case_decide).
  assert (Hr : forall k', total_of (charged k') (g <$> u_charges w) = total_of (charged k') (u_charges w) /\
    total_of (calls_of k') (g <$> u_charges w) = total_of (calls_of k') (u_charges w)) by (intros k'; apply repinned).
  assert (Hnf : us_status row <> "failed"%string /\ us_status row <> "settled"%string /\
    us_status row ∈ ["open"; "submitted"; "settled"; "failed"]%string).
  { apply elem_of_cons in Hst as [->|[->|[]%elem_of_nil]%elem_of_cons]; (split_and!; [done|done|]); [left|right; left]. }
  rewrite Forall_forall in Hfresh. pose proof Hw as [H1 H2 H3 H4 H5 H6 H7 H8 H9].
  split; unfold in_range; cbn [u_meters u_charges u_settlements].
  - unfold g. by rewrite repinned_ids.
  - rewrite fmap_app. apply NoDup_app. split_and!; [done| |apply NoDup_singleton].
    intros i (x & -> & Hx)%list_elem_of_fmap Hi%list_elem_of_singleton. by apply (Hfresh x Hx).
  - intros c' (c & -> & Hc)%list_elem_of_fmap. destruct (Hg c) as (_ & -> & ->). auto.
  - intros c' (c & -> & Hc)%list_elem_of_fmap. destruct (Hg c) as (-> & _).
    destruct (decide (key_of c = k)) as [->|]; [rewrite lookup_insert_eq; eauto|rewrite lookup_insert_ne by done; auto].
  - intros s [Hs|Hs]%elem_of_app.
    + destruct (decide (skey_of s = k)) as [->|]; [rewrite lookup_insert_eq; eauto|rewrite lookup_insert_ne by done; auto].
    + apply list_elem_of_singleton in Hs as ->. rewrite Hk, lookup_insert_eq. eauto.
  - intros c' sid (c & -> & Hc)%list_elem_of_fmap. destruct (Hg c) as (-> & _). unfold g. case_decide as D; cbn.
    + intros [= <-]. exists row. destruct D as (-> & _). split_and!; [|done|done|apply Hnf]. apply elem_of_app. right. by left.
    + intros E. destruct (H6 c sid Hc E) as (s & Hs & ?). exists s. split; [|done]. apply elem_of_app. by left.
  - intros s [Hs|Hs]%elem_of_app; [auto|]. apply list_elem_of_singleton in Hs as ->. apply Hnf.
  - intros s [Hs|Hs]%elem_of_app Hf; destruct (Hr (skey_of s)) as [-> ->]; intros Hin.
    + rewrite (H8 s Hs Hf Hin). f_equal. rewrite total_fmap. apply total_ext. intros c Hc. unfold g. case_decide as D; [|done].
      destruct D as (_ & D & _). unfold pinned_to. cbn [pin ch_settlement]. rewrite !decide_False; [done| |congruence].
      intros [= E]. by apply (Hfresh s Hs).
    + apply list_elem_of_singleton in Hs as ->. rewrite Hk in Hin. destruct (taken_units _ _ _ _ Hw Hin Hl Hpos) as [_ Hc].
      rewrite Ham, Hc. f_equal. rewrite total_fmap. apply total_ext. intros c Hcin. unfold g, taking, pinned_to.
      case_decide as D; cbn [pin ch_settlement]; [by rewrite decide_True|]. rewrite decide_False; [done|]. intros E.
      destruct (H6 c _ Hcin E) as (s & Hs & Hid & _). by apply (Hfresh s Hs).
  - intros k' m' Hm'. destruct (Hr k') as [-> ->]. intros Hin. rewrite total_app, total_cons. change (total_of _ []) with 0.
    assert (Epaid : paid k' row = 0) by (unfold paid; rewrite decide_False; [done|]; intros [_ E]; by apply Hnf).
    rewrite Epaid. destruct (decide (k' = k)) as [E|Hne].
    + subst k'. rewrite lookup_insert_eq in Hm'. apply (inj Some) in Hm' as <-. destruct (H9 _ _ Hm Hin) as (A & B & S).
      destruct (range_total _ _ Hw Hin) as (? & ? & E & ?). destruct (taken_units _ _ _ _ Hw Hin Hl Hpos) as [Hb Hc].
      cbn [set_amounts mt_accrued mt_billed mt_settled]. rewrite A, B, S, Ham, Hc.
      rewrite !(dec_or_zero 6), (dec_sub 6), (dec_add 6) by lia.
      destruct (taken_moves k cutoff (us_id row) (u_charges w)) as (E1 & E2 & _). fold g in E1, E2.
      rewrite E2. split_and!; f_equal; lia.
    + rewrite lookup_insert_ne in Hm' by done. destruct (H9 _ _ Hm' Hin) as (A & B & S). rewrite A, B, S.
      destruct (taken_moves k cutoff (us_id row) (u_charges w)) as (_ & _ & Eo). fold g in Eo. destruct (Eo k' Hne) as [-> ->].
      split_and!; f_equal; lia.
Qed.

(** Settling a submitted settlement, in units. *)
Lemma paid_next row w : usage_wf w -> in_range (skey_of row) w -> row ∈ u_settlements w -> us_status row = "submitted"%string ->
  let n := total_of (pinned_to (us_id row)) (u_charges w) in
  us_amount row = dec 6 n /\ 0 <= n /\
  total_of (paid (skey_of row)) (u_settlements w) + n <= total_of (pinned (skey_of row)) (u_charges w).
Proof.
  intros Hw Hr Hrow Hst n. set (k := skey_of row) in *. destruct (settlement_le row w Hw Hrow) as [Hn _].
  split; [apply (uw_amount _ Hw); [done|by rewrite Hst|done]|]. split; [done|].
  rewrite paid_units by done.
  etransitivity; [|apply (pinned_sum k (fun s => skey_of s = k /\ (us_status s = "settled"%string \/ us_id s = us_id row))); [done|]].
  - rewrite <- (total_single us_id (u_settlements w) row n (uw_settlements _ Hw) Hrow) at 1.
    apply Z.eq_le_incl. symmetry. apply total_add. intros s Hs. destruct (decide (us_id s = us_id row)) as [E|E].
    + assert (s = row) as -> by (by apply (NoDup_fmap_inj us_id (u_settlements w)); [apply uw_settlements, Hw| | |]).
      rewrite decide_True by auto. rewrite decide_False; [done|]. intros [_ ?]. congruence.
    + destruct (decide (skey_of s = k /\ us_status s = "settled"%string));
        [rewrite decide_True by tauto|rewrite decide_False by tauto]; lia.
  - by intros s _ [? _].
Qed.

Lemma step_settled w m row row' : usage_wf w -> u_meters w !! skey_of row = Some m -> row ∈ u_settlements w ->
  us_status row = "submitted"%string -> same_terms row row' -> us_status row' = "settled"%string ->
  usage_wf {| u_meters := <[skey_of row := set_amounts (mt_accrued m) (mt_billed m)
                               (py_round_to 6 (or_zero (Some (mt_settled m)) + or_zero (Some (us_amount row)))%float) m]> (u_meters w);
              u_charges := u_charges w;
              u_settlements := (fun x => if decide (us_id x = us_id row') then row' else x) <$> u_settlements w;
              u_bindings := u_bindings w; u_commits := u_commits w |}.
Proof.
  intros Hw Hm Hrow Hst (Ti & Tk & Ta) Hst'. pose proof Hw as [H1 H2 H3 H4 H5 H6 H7 H8 H9].
  assert (Hel : forall s, s ∈ _ -> _) by (intros s; exact (rewritten_elem row row' _ s H2 Hrow Ti)).
  assert (Hms : forall k m', is_Some (u_meters w !! k) -> is_Some (<[skey_of row := m']> (u_meters w) !! k)).
  { intros k m' Hk. destruct (decide (k = skey_of row)) as [->|]; [rewrite lookup_insert_eq; eauto|by rewrite lookup_insert_ne]. }
  split; unfold in_range; cbn [u_meters u_charges u_settlements]; try done.
  - by rewrite (rewritten_ids row).
  - intros c Hc. by apply Hms, H4.
  - intros s [[-> _]|[Hs _]]%Hel; apply Hms; [rewrite Tk|]; by apply H5.
  - intros c sid Hc E. destruct (H6 c sid Hc E) as (s & Hs & Hid & Hk & Hf).
    destruct (decide (us_id s = us_id row)) as [Es|Es].
    + exists row'. assert (s = row) as -> by (by apply (NoDup_fmap_inj us_id (u_settlements w))).
      split_and!; [by apply (rewritten_new row)|congruence|congruence|by rewrite Hst'].
    + exists s. split_and!; try done. by apply (rewritten_keep row).
  - intros s [[-> _]|[Hs _]]%Hel; [rewrite Hst'; right; right; left|auto].
  - intros s [[-> _]|[Hs _]]%Hel Hf Hr; [|auto]. rewrite Ta, Ti. apply H8; [done|by rewrite Hst|by rewrite <- Tk].
  - intros k m' Hm' Hr. set (n := total_of (pinned_to (us_id row)) (u_charges w)).
    assert (Ep : total_of (paid k) ((fun x => if decide (us_id x = us_id row') then row' else x) <$> u_settlements w) =
      total_of (paid k) (u_settlements w) + if decide (k = skey_of row) then units (us_amount row) else 0).
    { set (d := if decide _ then _ else _). rewrite total_fmap.
      rewrite <- (total_single us_id (u_settlements w) row d H2 Hrow). subst d. apply total_add. intros s Hs. rewrite Ti.
      destruct (decide (us_id s = us_id row)) as [E|E]; [|lia].
      assert (s = row) as -> by (by apply (NoDup_fmap_inj us_id (u_settlements w))). unfold paid. rewrite Tk, Ta.
      rewrite (decide_False (P := skey_of row = k /\ us_status row = "settled"%string)) by (intros [_ ?]; congruence).
      destruct (decide (k = skey_of row)) as [->|]; [by rewrite decide_True|]. rewrite decide_False; [done|]. intros [? _]. congruence. }
    rewrite Ep. destruct (decide (k = skey_of row)) as [->|Hne].
    + rewrite lookup_insert_eq in Hm'. apply (inj Some) in Hm' as <-. destruct (H9 _ _ Hm Hr) as (A & B & S).
      destruct (range_total _ _ Hw Hr) as (? & ? & E & ?), (paid_next row w Hw Hr Hrow Hst) as (En & Hn & Hb), (paid_le _ _ Hw Hr).
      fold n in En, Hn, Hb. cbn [set_amounts mt_accrued mt_billed mt_settled]. rewrite A, B, S, En, units_dec by lia.
      by rewrite !(dec_or_zero 6), (dec_add 6) by lia.
    + rewrite lookup_insert_ne in Hm' by done. rewrite Z.add_0_r. auto.
Qed.

(** Unpinning the charges of a settlement. *)
Lemma unpinned_units row k w : usage_wf w -> row ∈ u_settlements w ->
  let f c := if decide (ch_settlement c = Some (us_id row)) then pin None c else c in
  let n := if decide (k = skey_of row) then total_of (pinned_to (us_id row)) (u_charges w) else 0 in
  total_of (unbilled k) (f <$> u_charges w) = total_of (unbilled k) (u_charges w) + n /\
  total_of (pinned k) (u_charges w) = total_of (pinned k) (f <$> u_charges w) + n.
Proof.
  intros Hw Hrow f n.
  assert (En : n = total_of (fun c => if decide (k = skey_of row) then pinned_to (us_id row) c else 0) (u_charges w)).
  { subst n. case_decide; [done|]. symmetry. by apply total_zero. }
  rewrite En, !total_fmap. split; apply total_add; intros c Hc; unfold f, pinned_to, unbilled, pinned;
    (destruct (decide (ch_settlement c = Some (us_id row))) as [E|E]; [|by case_decide; lia]);
    destruct (uw_pins _ Hw c _ Hc E) as (s & Hs & Hid & Hk & _);
    assert (s = row) as -> by (by apply (NoDup_fmap_inj us_id (u_settlements w)); [apply uw_settlements, Hw| | |]);
    rewrite key_pin, cu_pin; cbn [pin ch_settlement]; rewrite <- Hk, E; repeat case_decide; try naive_solver; lia.
Qed.

Lemma max_sub_units a b : 0 <= b <= a -> a <= 2 ^ 50 -> py_round_to 6 (py_max fzero (dec 6 a - dec 6 b)%float) = dec 6 (a - b).
Proof.
  intros Hb Ha. destruct (decide (a = b)) as [->|Hne].
  - change (dec 6 b - dec 6 b)%float with (fsub (dec 6 b) (dec 6 b)). rewrite fsub_self by (apply (dec_near 6); lia). by rewrite Z.sub_diag.
  - destruct (dec_sub_near 6 a b ltac:(lia) Ha) as (F & V & P & _). unfold py_max. rewrite fltb_sval by done.
    rewrite (proj2 (Z.ltb_lt _ _)) by (cbn [fzero sval]; lia). by rewrite (dec_sub 6) by lia.
Qed.

Lemma step_failed w m row row' : usage_wf w -> u_meters w !! skey_of row = Some m -> row ∈ u_settlements w ->
  us_status row = "submitted"%string -> same_terms row row' -> us_status row' = "failed"%string ->
  usage_wf {| u_meters := <[skey_of row := set_amounts (py_round_to 6 (or_zero (Some (mt_accrued m)) + or_zero (Some (us_amount row)))%float)
                               (py_round_to 6 (py_max fzero (or_zero (Some (mt_billed m)) - or_zero (Some (us_amount row)))%float)) (mt_settled m) m]> (u_meters w);
              u_charges := (fun c => if decide (ch_settlement c = Some (us_id row)) then pin None c else c) <$> u_charges w;
              u_settlements := (fun x => if decide (us_id x = us_id row') then row' else x) <$> u_settlements w;
              u_bindings := u_bindings w; u_commits := u_commits w |}.
Proof.
  intros Hw Hm Hrow Hst (Ti & Tk & Ta) Hst'. pose proof Hw as [H1 H2 H3 H4 H5 H6 H7 H8 H9].
  assert (Hel : forall s, s ∈ _ -> _) by (intros s; exact (rewritten_elem row row' _ s H2 Hrow Ti)).
  assert (Hms : forall k m', is_Some (u_meters w !! k) -> is_Some (<[skey_of row := m']> (u_meters w) !! k)).
  { intros k m' Hk. destruct (decide (k = skey_of row)) as [->|]; [rewrite lookup_insert_eq; eauto|by rewrite lookup_insert_ne]. }
  set (f := fun c => if decide (ch_settlement c = Some (us_id row)) then pin None c else c).
  assert (Hf : forall c, key_of (f c) = key_of c /\ cu (f c) = cu c /\ ch_amount (f c) = ch_amount c) by (intros c; unfold f; by case_decide).
  assert (Hr : forall k', total_of (charged k') (f <$> u_charges w) = total_of (charged k') (u_charges w) /\
    total_of (calls_of k') (f <$> u_charges w) = total_of (calls_of k') (u_charges w)) by (intros k'; apply repinned).
  split; unfold in_range; cbn [u_meters u_charges u_settlements].
  - unfold f. by rewrite repinned_ids.
  - by rewrite (rewritten_ids row).
  - intros c' (c & -> & Hc)%list_elem_of_fmap. destruct (Hf c) as (_ & -> & ->). auto.
  - intros c' (c & -> & Hc)%list_elem_of_fmap. destruct (Hf c) as (-> & _). by apply Hms, H4.
  - intros s [[-> _]|[Hs _]]%Hel; apply Hms; [rewrite Tk|]; by apply H5.
  - intros c' sid (c & -> & Hc)%list_elem_of_fmap. destruct (Hf c) as (-> & _). unfold f. case_decide as D; [done|]. intros E.
    destruct (H6 c sid Hc E) as (s & Hs & Hid & Hk & Hnf). exists s. split_and!; try done. apply (rewritten_keep row); [done..|congruence].
  - intros s [[-> _]|[Hs _]]%Hel; [rewrite Hst'; right; right; right; left|auto].
  - intros s [[-> _]|[Hs Hne]]%Hel Hnf; [by rewrite Hst' in Hnf|]. destruct (Hr (skey_of s)) as [-> ->]. intros Hin.
    rewrite (H8 s Hs Hnf Hin). f_equal. rewrite total_fmap. apply total_ext. intros c Hc. unfold f. case_decide as D; [|done].
    unfold pinned_to. cbn [pin ch_settlement]. rewrite !decide_False; [done|done|congruence].
  - intros k m' Hm'. destruct (Hr k) as [-> ->]. intros Hin.
    assert (Ep : total_of (paid k) ((fun x => if decide (us_id x = us_id row') then row' else x) <$> u_settlements w) = total_of (paid k) (u_settlements w)).
    { rewrite total_fmap. apply total_ext. intros s Hs. case_decide as E; [|done]. unfold paid.
      assert (s = row) as -> by (apply (NoDup_fmap_inj us_id (u_settlements w)); [done..|congruence]).
      rewrite !decide_False; [done|intros [_ ?]; congruence..]. }
    rewrite Ep. destruct (unpinned_units row k w Hw Hrow) as [Eu Ei]. fold f in Eu, Ei. rewrite Eu.
    destruct (decide (k = skey_of row)) as [->|Hne].
    + rewrite lookup_insert_eq in Hm'. apply (inj Some) in Hm' as <-. destruct (H9 _ _ Hm Hin) as (A & B & S).
      destruct (range_total _ _ Hw Hin) as (? & ? & E & ?), (paid_next row w Hw Hin Hrow Hst) as (En & Hn & Hb), (paid_le _ _ Hw Hin).
      cbn [set_amounts mt_accrued mt_billed mt_settled]. rewrite A, B, S, En.
      rewrite !(dec_or_zero 6), (dec_add 6), max_sub_units by lia. split_and!; f_equal; lia.
    + rewrite lookup_insert_ne in Hm' by done. destruct (H9 _ _ Hm' Hin) as (A & B & S). rewrite A, B, S. split_and!; f_equal; lia.
Qed.

(** Every step keeps the ledger well formed. *)
Lemma ustep_wf w w' : ustep w w' -> usage_wf w -> usage_wf w'.
Proof.
  intros Hs Hw. destruct Hs.
  - destruct Hw as [H1 H2 H3 H4 H5 H6 H7 H8 H9]. by split.
  - by apply step_open.
  - eapply step_charge; eauto. eapply Forall_impl; [done|]. by intros x [? _].
  - eapply step_book; eauto.
  - by apply step_settled.
  - by apply step_failed.
Qed.

Lemma usteps_wf w w' : rtc ustep w w' -> usage_wf w -> usage_wf w'.
Proof. induction 1 as [|w w1 w' H1 _ IH]; [done|]. intros Hw. by apply IH, (ustep_wf w). Qed.

(** ** The requests are made of steps *)

Lemma not_taken (P : Charge -> Prop) `{forall c, Decision (P c)} l : bool_decide (Exists P l) = false -> Forall (fun c => ~ P c) l.
Proof. intros E%bool_decide_eq_false. by apply Forall_Exists_neg. Qed.

Lemma record_steps now new_id sk payer request u provider q w r w' : priced q sk ->
  record_usage now new_id sk payer request u provider w = (Ok r, w') -> rtc ustep w w'.
Proof.
  intros [Hq Hp] Hr. unfold record_usage in Hr. apply m_bind_ok in Hr as (rid & w1 & Hrid & Hr).
  unfold lift in Hrid. injection Hrid as Hrid <-. cbv zeta in Hr. destruct (decide _); [done|]. destruct (decide _); [done|].
  apply m_bind_ok in Hr as (ex & w1 & [= <- <-] & Hr). destruct (charge_of _ _ _) as [c|].
  { apply m_bind_ok in Hr as (m & w1 & [= <- <-] & [= _ <-]). done. }
  apply m_bind_ok in Hr as (amount & w1 & Ha & Hr). unfold lift in Ha. injection Ha as Ha <-.
  assert (Hu : 1 <= u <= MAX_UNITS_PER_CALL /\ amount = dec 6 (u * q)).
  { rewrite Hp in Ha. destruct (decide (1 <= u <= MAX_UNITS_PER_CALL)) as [Hu|Hu].
    - rewrite estimate_units in Ha by done. injection Ha as <-. done.
    - unfold estimate_amount in Ha. destruct (Z.leb_spec u 0), (Z.ltb_spec MAX_UNITS_PER_CALL u); cbn [orb] in Ha; try done. lia. }
  destruct Hu as [Hu ->]. assert (Hn : 0 <= u * q <= 2 ^ 50) by (unfold MAX_UNITS_PER_CALL in Hu; nia).
  apply m_bind_ok in Hr as (m & w1 & Hm & Hr).
  assert (H1 : rtc ustep w w1 /\ u_meters w1 !! (sk_id sk, payer) = Some m).
  { unfold get_or_create_meter in Hm. apply m_bind_ok in Hm as (row & w2 & [= <- <-] & Hm).
    destruct (u_meters w !! (sk_id sk, payer)) as [m0|] eqn:E.
    - by injection Hm as <- <-.
    - apply m_bind_ok in Hm as (? & w2 & [= _ <-] & [= <- <-]). split; [by apply rtc_once, st_open|]. cbn. by rewrite lookup_insert_eq. }
  destruct H1 as [H1 Hk]. etransitivity; [exact H1|]. clear H1 Hm.
  apply m_bind_ok in Hr as (? & w2 & Hok & Hr). unfold lift in Hok. injection Hok as Hok <-.
  match type of Hr with m_bind (insert_charge_row ?c0) _ _ = _ => set (c := c0) in Hr end.
  apply m_bind_ok in Hr as (? & w2 & Hins & Hr). unfold insert_charge_row in Hins.
  apply m_bind_ok in Hins as (tk & w3 & [= <- <-] & Hins). destruct (bool_decide _) eqn:Hf; [done|]. injection Hins as _ <-.
  apply m_bind_ok in Hr as (? & w2 & [= _ <-] & [= _ <-]). apply rtc_once.
  apply (st_charge w1 m c (u * q) (mt_calls m + u) now); try done.
  - apply not_taken in Hf. eapply Forall_impl; [exact Hf|]. cbn. tauto.
  - cbn. by destruct x.
Qed.

Lemma rewrite_last row row' (l : list USettlement) : us_id row' = us_id row -> Forall (fun x => us_id x <> us_id row) l ->
  (fun x => if decide (us_id x = us_id row') then row' else x) <$> (l ++ [row]) = l ++ [row'].
Proof.
  intros E Hl. rewrite fmap_app. cbn. rewrite decide_True by done. f_equal.
  induction Hl as [|x l Hx Hl IH]; [done|]. cbn. rewrite decide_False by congruence. by f_equal.
Qed.

(** What booking leaves: the new row, its charges pinned to it, and the meter moved. *)
Definition booked (k : MeterKey) (m : Meter) (l : list Charge) (row : USettlement) (w : UWorld) : UWorld :=
  {| u_meters := <[k := set_amounts (py_round_to 6 (or_zero (Some (mt_accrued m)) - us_amount row)%float)
                          (py_round_to 6 (or_zero (Some (mt_billed m)) + us_amount row)%float) (mt_settled m) m]> (u_meters w);
     u_charges := (fun c => if bool_decide (ch_id c ∈ (ch_id <$> l)) then pin (Some (us_id row)) c else c) <$> u_charges w;
     u_settlements := u_settlements w ++ [row]; u_bindings := u_bindings w; u_commits := u_commits w |}.

Lemma book_ok new_id sk payer oc m l w row w' : book p py_sum sha256_hex fmt6 new_id sk payer oc m l w = (Ok row, w') ->
  w' = booked (sk_id sk, payer) m l row w /\ Forall (fun x => us_id x <> us_id row) (u_settlements w) /\
  skey_of row = (sk_id sk, payer) /\ us_amount row = charges_total py_sum l /\ us_status row = "open"%string.
Proof.
  unfold book. cbv zeta. intros Hr. apply m_bind_ok in Hr as (? & w1 & Hi & Hr). unfold insert_settlement in Hi.
  run_ok Hi. destruct (bool_decide _) eqn:Hf; [done|]. injection Hi as _ <-.
  apply m_bind_ok in Hr as (? & w1 & [= _ <-] & Hr). apply m_bind_ok in Hr as (? & w1 & [= _ <-] & Hr). injection Hr as <- <-.
  split_and!; try done. apply bool_decide_eq_false in Hf. by apply Forall_Exists_neg in Hf.
Qed.

Lemma unsettled_perm skill payer cutoff w : unsettled_charges skill payer cutoff w ≡ₚ filter (taken (skill, payer) cutoff) (u_charges w).
Proof.
  unfold unsettled_charges. rewrite sorted_perm. erewrite list_filter_iff; [done|]. intros c. unfold taken, key_of. naive_solver.
Qed.

(** The settlement booked by [row] stays, with other terms of the same id and amount. *)
Definition rebooked (sk : Skill) (payer : string) (m : Meter) (l : list Charge) (row : USettlement) (w w' : UWorld) : Prop :=
  exists row', same_terms row row' /\ us_status row' ∈ ["open"; "submitted"]%string /\
    rtc ustep (booked (sk_id sk, payer) m l row' w) w'.

Lemma refuse_ok reason sk payer m l row w x w' : Forall (fun x => us_id x <> us_id row) (u_settlements w) ->
  us_status row = "open"%string -> refuse reason row (booked (sk_id sk, payer) m l row w) = (Ok x, w') ->
  rebooked sk payer m l row w w'.
Proof.
  intros Hf Hst Hx. unfold refuse in Hx. set (row' := with_failure reason row) in Hx.
  apply m_bind_ok in Hx as (? & w1 & Hx & [= _ <-]). injection Hx as _ <-. exists row'.
  split_and!; [done|cbn; rewrite Hst; left|]. unfold booked. cbn [u_meters u_charges u_settlements u_bindings u_commits].
  pose proof (rewrite_last row row' (u_settlements w) eq_refl Hf) as El. change (us_id row') with (us_id row) in El. by rewrite El.
Qed.

(** The row a settlement ends with after the chain was asked. *)
Lemma submit_ok open_order sk payer row w x w' : Forall (fun x => us_id x <> us_id row) (u_settlements w) ->
  us_status row = "open"%string ->
  forall m l, submit_order p open_order sk payer row (booked (sk_id sk, payer) m l row w) = (Ok x, w') ->
  rebooked sk payer m l row w w'.
Proof.
  intros Hf Hst m l Hr. unfold submit_order in Hr. run_ok Hr.
  assert (Href : forall reason, refuse reason row (booked (sk_id sk, payer) m l row w) = (Ok x, w') -> rebooked sk payer m l row w w')
    by (intros reason; by apply refuse_ok).
  destruct (pick_bill p payer _ _) as [bb|]; [|by eapply Href]. destruct (pick_bill p (sk_owner sk) _ _) as [sb|]; [|by eapply Href].
  destruct (open_order _) as [r|e]; [|by eapply Href]. run_ok Hr.
  apply m_bind_ok in Hr as (? & w1 & Hi & Hr). unfold insert_binding in Hi. run_ok Hi. destruct (bool_decide _); [done|].
  injection Hi as _ <-. apply m_bind_ok in Hr as (? & w1 & [= _ <-] & [= _ <-]).
  match goal with |- context [with_status "submitted" ?b ?t ?f ?a row] => set (row' := with_status "submitted" b t f a row) end.
  exists row'. split_and!; [done|right; left|]. apply rtc_once.
  match goal with |- ustep _ ?w2 => eassert (w2 = _) as ->; [|apply (st_env (booked (sk_id sk, payer) m l row' w))] end.
  unfold booked. cbn [u_meters u_charges u_settlements u_bindings u_commits].
  pose proof (rewrite_last row row' (u_settlements w) eq_refl Hf) as El. change (us_id row') with (us_id row) in El.
  by rewrite El.
Qed.

Lemma settle_steps now new_id open_order sk payer cutoff chain w x w' :
  settle_meter p py_sum sha256_hex fmt6 now new_id open_order sk payer cutoff chain w = (Ok x, w') -> rtc ustep w w'.
Proof.
  unfold settle_meter. cbv zeta. intros Hr. run_ok Hr. destruct (u_meters w !! _) as [m|] eqn:Hm; [|by injection Hr as _ <-]. run_ok Hr.
  destruct ((_ <=? _)%float || _) eqn:Hpos; [by injection Hr as _ <-|]. apply orb_false_iff in Hpos as [Hpos _].
  apply m_bind_ok in Hr as (row & w1 & Hb & Hr). apply book_ok in Hb as (-> & Hf & Hk & Ha & Hst).
  assert (Hbook : forall row', same_terms row row' -> us_status row' ∈ ["open"; "submitted"]%string ->
    ustep w (booked (sk_id sk, payer) m (unsettled_charges (sk_id sk) payer (default now cutoff) w) row' w)).
  { intros row' (Ei & Ek & Ea) Hs. eapply st_book; try done; [apply unsettled_perm|by rewrite Ei|congruence|congruence]. }
  assert (rebooked sk payer m (unsettled_charges (sk_id sk) payer (default now cutoff) w) row w w') as (row' & Ht & Hs & Hrun)
    by (destruct (negb _); [by eapply refuse_ok|by eapply submit_ok]).
  eapply rtc_l; [by apply Hbook|done].
Qed.
(** A row taken for reconciliation that the others leave in place. *)
Definition pending (w : UWorld) (row : USettlement) : Prop := row ∈ u_settlements w /\ us_status row = "submitted"%string.

Lemma rewritten_other row' s (l : list USettlement) : s ∈ l -> us_id s <> us_id row' ->
  s ∈ ((fun x => if decide (us_id x = us_id row') then row' else x) <$> l).
Proof. intros Hs Hne. apply list_elem_of_fmap. exists s. by rewrite decide_False. Qed.

Lemma reconcile_one_steps now row w x w' : usage_wf w -> pending w row -> reconcile_one now row w = (Ok x, w') ->
  rtc ustep w w' /\ forall s, pending w s -> us_id s <> us_id row -> pending w' s.
Proof.
  intros Hw [Hrow Hst] Hr. unfold reconcile_one in Hr. destruct (str_or _ _) as [bid|]; [|by injection Hr as _ <-]. run_ok Hr.
  destruct (find_binding bid w) as [b|]; [|by injection Hr as _ <-]. destruct (BINDING_DONE (eb_state b)) as [target|]; [|by injection Hr as _ <-].
  cbv zeta in Hr. run_ok Hr. destruct (uw_smetered _ Hw row Hrow) as [m Hm]. change (us_skill row, us_payer row) with (skey_of row) in Hr. rewrite Hm in Hr.
  case_decide as Ht.
  - match type of Hr with context [write_settlement ?r] => set (row' := r) in Hr end.
    apply m_bind_ok in Hr as (? & w1 & [= _ <-] & Hr). apply m_bind_ok in Hr as (? & w1 & [= _ <-] & [= _ <-]). split.
    + by apply rtc_once, (st_settled w m row row').
    + intros s [Hs Ss] Hne. split; [|done]. by apply (rewritten_other row').
  - match type of Hr with context [write_settlement ?r] => set (row' := r) in Hr end.
    apply m_bind_ok in Hr as (? & w1 & [= _ <-] & Hr). apply m_bind_ok in Hr as (? & w1 & [= _ <-] & Hr).
    apply m_bind_ok in Hr as (? & w1 & [= _ <-] & [= _ <-]). split.
    + by apply rtc_once, (st_failed w m row row').
    + intros s [Hs Ss] Hne. split; [|done]. by apply (rewritten_other row').
Qed.

Lemma reconcile_all_steps now rows : forall w xs w', usage_wf w -> Forall (pending w) rows -> NoDup (us_id <$> rows) ->
  reconcile_all now rows w = (Ok xs, w') -> rtc ustep w w'.
Proof.
  induction rows as [|row rows IH]; intros w xs w' Hw Hp Hnd Hr; [by injection Hr as _ <-|].
  cbn [reconcile_all] in Hr. apply Forall_cons in Hp as [Hp Hps]. cbn in Hnd. apply NoDup_cons in Hnd as [Hni Hnd].
  apply m_bind_ok in Hr as (x & w1 & H1 & Hr). apply m_bind_ok in Hr as (ys & w2 & H2 & [= _ <-]).
  destruct (reconcile_one_steps _ _ _ _ _ Hw Hp H1) as [S1 K1]. etransitivity; [exact S1|].
  eapply IH; [by eapply usteps_wf| |done|exact H2]. apply Forall_forall. intros s Hs. apply K1; [by eapply Forall_forall in Hps|].
  intros E. apply Hni. rewrite <- E. by apply list_elem_of_fmap_2.
Qed.

Lemma submitted_ids (P : USettlement -> Prop) `{forall s, Decision (P s)} l n : NoDup (us_id <$> l) -> NoDup (us_id <$> take n (filter P l)).
Proof. intros Hl. rewrite fmap_take. eapply sublist_NoDup; [|apply sublist_take]. eapply sublist_NoDup; [exact Hl|]. apply fmap_sublist, sublist_filter. Qed.

Lemma reconcile_steps now limit w xs w' : usage_wf w -> reconcile_settlements now limit w = (Ok xs, w') -> rtc ustep w w'.
Proof.
  intros Hw Hr. unfold reconcile_settlements in Hr. run_ok Hr. eapply reconcile_all_steps; [done| | |exact Hr].
  - apply Forall_forall. intros s Hs. eapply elem_of_sublist in Hs; [|apply sublist_take]. apply list_elem_of_filter in Hs. by destruct Hs.
  - apply submitted_ids, uw_settlements, Hw.
Qed.

Lemma use_steps now cid sid open_order sk actor b q w r w' : usage_wf w -> priced q sk ->
  use_skill p py_sum sha256_hex fmt6 now cid sid open_order sk actor b w = (Ok r, w') -> rtc ustep w w'.
Proof.
  intros Hw Hq Hr. unfold use_skill in Hr. case_decide; [done|]. run_ok Hr.
  apply m_bind_ok in Hr as (ur & w1 & H1 & Hr). apply (record_steps _ _ _ _ _ _ _ q) in H1; [|done].
  apply m_bind_ok in Hr as (s & w2 & H2 & Hr). assert (S2 : rtc ustep w1 w2).
  { destruct (ur_duplicate ur); [by injection H2 as _ <-|by eapply settle_steps]. }
  apply m_bind_ok in Hr as (xs & w3 & H3 & [= _ <-]). assert (S12 : rtc ustep w w2) by by etransitivity.
  etransitivity; [exact S12|]. eapply reconcile_steps; [by eapply usteps_wf|exact H3].
Qed.

(** ** Runs *)

(** What happens to the ledger: calls of skills, reconciliations, and the chain's own tables. *)
Inductive usage_op : Type :=
| OpUse (now : Z) (charge_id settlement_id : string) (open_order : OrderArgs -> result string OrderResult)
    (sk : Skill) (actor : string) (b : UseBody)
| OpReconcile (now limit : Z)
| OpChain (bindings : list EscrowBinding) (commits : list Commit).

Definition usage_apply (op : usage_op) (w : UWorld) : UWorld :=
  match op with
  | OpUse now cid sid order sk actor b => snd (u_request (use_skill p py_sum sha256_hex fmt6 now cid sid order sk actor b) w)
  | OpReconcile now limit => snd (u_request (reconcile_settlements now limit) w)
  | OpChain bs cs =>
      {| u_meters := u_meters w; u_charges := u_charges w; u_settlements := u_settlements w; u_bindings := bs; u_commits := cs |}
  end.
Definition usage_run (ops : list usage_op) (w : UWorld) : UWorld := fold_left (fun w op => usage_apply op w) ops w.

Definition op_priced (op : usage_op) : Prop :=
  match op with OpUse _ _ _ _ sk _ _ => exists q, priced q sk | _ => True end.

Definition no_usage : UWorld := {| u_meters := ∅; u_charges := []; u_settlements := []; u_bindings := []; u_commits := [] |}.

Lemma no_usage_wf : usage_wf no_usage.
Proof.
  split; cbn; [constructor|constructor|try (intros; set_solver)..]. all: intros k m Hm; by rewrite lookup_empty in Hm.
Qed.

Lemma request_steps {A} (c : UM A) w : (forall a w', c w = (Ok a, w') -> rtc ustep w w') -> rtc ustep w (snd (u_request c w)).
Proof. intros Hc. unfold u_request. destruct (c w) as [[a|e] w'] eqn:E; [by eapply Hc|done]. Qed.

Lemma apply_steps op w : usage_wf w -> op_priced op -> rtc ustep w (usage_apply op w).
Proof.
  intros Hw Hp. destruct op as [now cid sid order sk actor b|now limit|bs cs]; cbn [usage_apply].
  - destruct Hp as [q Hq]. apply request_steps. intros a w'. by apply (use_steps _ _ _ _ _ _ _ q).
  - apply request_steps. intros a w'. by apply reconcile_steps.
  - apply rtc_once. constructor.
Qed.

Lemma run_wf ops : forall w, usage_wf w -> Forall op_priced ops -> usage_wf (usage_run ops w).
Proof.
  induction ops as [|op ops IH]; intros w Hw Hp; [done|]. apply Forall_cons in Hp as [Hp Hps]. apply IH; [|done].
  eapply usteps_wf; [by apply apply_steps|done].
Qed.

(** C16. Metered usage is accounted for to the millionth: from empty tables, whatever calls are
    made on skills whose price is a whole number of millionths up to 100, as the registry
    stores prices, however the chain answers and whenever settlements are reconciled, each meter
    for which one more than its number of calls times its total in millionths is at most 2^49
    (and its calls at most 2^40) shows as accrued exactly the charges that no settlement holds, as billed exactly those a live settlement holds, and as settled
    exactly the amounts of its settled settlements.  The first two add up to everything ever
    charged, the third is at most the second, and no charge is held by two settlements. *)
Theorem usage_ledger_balanced ops k m : Forall op_priced ops ->
  let w := usage_run ops no_usage in
  u_meters w !! k = Some m -> in_range k w ->
  exists open_ billed settled,
    mt_accrued m = dec 6 open_ /\ mt_billed m = dec 6 billed /\ mt_settled m = dec 6 settled /\
    open_ = total_of (unbilled k) (u_charges w) /\ settled = total_of (paid k) (u_settlements w) /\
    open_ + billed = total_of (charged k) (u_charges w) /\ 0 <= settled <= billed /\
    Forall (fun s => us_status s <> "failed"%string -> skey_of s = k ->
              us_amount s = dec 6 (total_of (pinned_to (us_id s)) (u_charges w))) (u_settlements w).
Proof.
  intros Hp w Hm Hr. assert (Hw : usage_wf w) by (apply run_wf; [apply no_usage_wf|done]).
  destruct (uw_meter _ Hw k m Hm Hr) as (A & B & S), (range_total k w Hw Hr) as (Ha & Hb & E & _), (paid_le k w Hw Hr) as [? ?].
  exists (total_of (unbilled k) (u_charges w)), (total_of (pinned k) (u_charges w)), (total_of (paid k) (u_settlements w)).
  split_and!; try done. apply Forall_forall. intros s Hs Hnf Hk. apply (uw_amount _ Hw s Hs Hnf). by rewrite Hk.
Qed.

(** ** Settlements the chain did not take *)

(** A settlement that waits, and a charge it holds. *)
Definition waiting (s : USettlement) (c : Charge) (w : UWorld) : Prop :=
  s ∈ u_settlements w /\ us_status s = "open"%string /\ c ∈ u_charges w /\ ch_settlement c = Some (us_id s).

Lemma waiting_step s c w w' : usage_wf w -> waiting s c w -> ustep w w' -> waiting s c w'.
Proof.
  intros Hw (Hs & Ho & Hc & Hp) Hst. destruct Hst as [| |m x ? ? ? ? ? ? ? ? ?|k m cutoff l row Hm Hl ? Hf ? ? ?|m row row' ? Hrow Sr (Ti & _) ?|m row row' ? Hrow Sr (Ti & _) ?];
    unfold waiting; cbn [u_charges u_settlements]; try done.
  - split_and!; try done. apply elem_of_app. by left.
  - split_and!; [apply elem_of_app; by left|done| |done]. apply list_elem_of_fmap. exists c. split; [|done].
    rewrite bool_decide_false; [done|]. intros (x & Ex & Hx)%list_elem_of_fmap. rewrite Hl in Hx. apply list_elem_of_filter in Hx as [(_ & Hn & _) Hx].
    assert (x = c) as -> by (by apply (NoDup_fmap_inj ch_id (u_charges w)); [apply uw_charges, Hw| | |]). congruence.
  - split_and!; try done. apply rewritten_other; [done|]. rewrite Ti. intros E.
    assert (s = row) as -> by (by apply (NoDup_fmap_inj us_id (u_settlements w)); [apply uw_settlements, Hw| | |]). congruence.
  - assert (Hne : us_id s <> us_id row).
    { intros E. assert (s = row) as -> by (by apply (NoDup_fmap_inj us_id (u_settlements w)); [apply uw_settlements, Hw| | |]). congruence. }
    split_and!; try done; [apply rewritten_other; [done|by rewrite Ti]|]. apply list_elem_of_fmap. exists c. rewrite decide_False by congruence. done.
Qed.

Lemma waiting_steps s c w w' : rtc ustep w w' -> usage_wf w -> waiting s c w -> waiting s c w'.
Proof.
  induction 1 as [|w w1 w' H1 _ IH]; [done|]. intros Hw Hs. apply IH; [by eapply ustep_wf|by eapply waiting_step].
Qed.

(** A settlement that was booked while the chain could not take it is never submitted
    later: after any further calls, reconciliations and changes of the bills, the row is
    still open, unchanged, and still holds its charges. *)
Theorem open_settlement_stuck ops ops' s c : Forall op_priced ops -> Forall op_priced ops' ->
  waiting s c (usage_run ops no_usage) -> waiting s c (usage_run (ops ++ ops') no_usage).
Proof.
  intros Hp Hp' Hs. assert (Hw : usage_wf (usage_run ops no_usage)) by (apply run_wf; [apply no_usage_wf|done]).
  unfold usage_run in *. rewrite fold_left_app. revert Hw Hs. generalize (fold_left (fun w op => usage_apply op w) ops no_usage).
  induction Hp' as [|op ops' Hop Hp' IH]; intros w Hw Hs; [done|]. cbn [fold_left]. pose proof (apply_steps op w Hw Hop) as St.
  apply IH; [by eapply usteps_wf|by eapply waiting_steps].
Qed.
End Ledger.

(** ** Requests that are repeated *)

Lemma charge_found c w : Forall (fun x => ch_id x <> ch_id c /\ ~ (ch_skill x = ch_skill c /\ ch_request x = ch_request c)) (u_charges w) ->
  forall w', u_charges w' = u_charges w ++ [c] -> charge_of (ch_skill c) (ch_request c) w' = Some c.
Proof.
  intros Hf w' E. unfold charge_of. rewrite E, filter_app, filter_cons, decide_True by done. clear E.
  induction Hf as [|x l [_ Hx] Hf IH]; [done|]. by rewrite filter_cons, decide_False.
Qed.

Lemma record_found now new_id sk payer request u w r w' : record_usage now new_id sk payer request u None w = (Ok r, w') ->
  exists rid, normalize_request_id request = Ok rid /\ py_strip (sk_owner sk) <> ""%string /\
    charge_of (sk_id sk) rid w' = Some (ur_charge r).
Proof.
  intros Hr. unfold record_usage in Hr. apply m_bind_ok in Hr as (rid & w1 & Hrid & Hr). apply lift_ok in Hrid as [Hrid ->]. cbv zeta in Hr.
  destruct (decide _) as [|Hne] in Hr; [done|]. destruct (decide _) in Hr; [done|]. exists rid. split_and!; [done..|]. run_ok Hr.
  destruct (charge_of (sk_id sk) rid w) as [c|] eqn:Hc; [run_ok Hr; by injection Hr as <- <-|]. run_ok Hr.
  apply m_bind_ok in Hr as (m & w1 & _ & Hr). run_ok Hr.
  match type of Hr with m_bind (insert_charge_row ?c0) _ _ = _ => set (c := c0) in Hr end.
  apply m_bind_ok in Hr as (? & w2 & Hins & Hr). unfold insert_charge_row in Hins. run_ok Hins.
  destruct (bool_decide _) eqn:Hf; [done|]. injection Hins as _ <-. apply m_bind_ok in Hr as (? & w2 & [= _ <-] & [= <- <-]).
  apply (charge_found c w1); [|done]. apply not_taken in Hf. eapply Forall_impl; [exact Hf|]. cbn. tauto.
Qed.

(** A request is charged once: when a call succeeded, the same request id on the same skill
    charges nothing more and changes nothing, with whatever units it is repeated.  The
    payer is not compared: another payer's call under that id returns the first payer's
    charge, and is free. *)
Theorem request_charged_once now new_id sk payer request u w r w' now' new_id' payer' u' :
  record_usage now new_id sk payer request u None w = (Ok r, w') ->
  payer' <> py_strip (sk_owner sk) ->
  record_usage now' new_id' sk payer' request u' None w' =
    (Ok {| ur_charge := ur_charge r; ur_meter := u_meters w' !! (sk_id sk, payer'); ur_duplicate := true |}, w').
Proof.
  intros (rid & Hrid & Hne & Hc)%record_found Hp. unfold record_usage. rewrite Hrid. cbn -[charge_of]. rewrite decide_False by done.
  rewrite decide_False by (intros E; exact (Hp (eq_sym E))). unfold m_bind, m_get. by rewrite Hc.
Qed.

(** ** Examples *)

Definition demo_policy : UsagePolicy :=
  {| settlement_default_penalty_bps := 1000; escrow_enabled := false; allowance_escrow_address := "0xe5c0";
     settlement_operator_private_key := "key"; settlement_scope := "karma" |}.
Definition demo_offline : UsagePolicy :=
  {| settlement_default_penalty_bps := 1000; escrow_enabled := false; allowance_escrow_address := "";
     settlement_operator_private_key := ""; settlement_scope := "karma" |}.
Definition demo_skill : Skill :=
  {| sk_id := "s1"; sk_owner := "seller"; sk_slug := "quotes"; sk_status := "published"; sk_price := dec 6 250000;
     sk_threshold := dec 6 500000; sk_cap := None |}.
Definition demo_bill (id who : string) : Commit :=
  {| cm_bill := id; cm_identity := who; cm_contract := ""; cm_amount := dec 6 5000000; cm_spent := fzero;
     cm_reserved := fzero; cm_state := "open" |}.
Definition demo_funds : usage_op := OpChain [] [demo_bill "b1" "buyer"; demo_bill "b2" "seller"; demo_bill "b3" "other"].
Definition demo_accepted (_ : OrderArgs) : result string OrderResult :=
  Ok {| or_binding_id := 7; or_proof_hash := "p"; or_bind_tx := "t1"; or_submit_tx := Some "t2"%string; or_pull_after := 0 |}.
Definition demo_call (i : string) (u now : Z) (who : string) : usage_op :=
  OpUse now ("c" +:+ i)%string ("z" +:+ i)%string demo_accepted demo_skill who {| ub_request := ("r" +:+ i)%string; ub_units := u |}.
Definition demo_finished : EscrowBinding :=
  {| eb_id := "7"; eb_buyer := "buyer"; eb_seller := "seller"; eb_buyer_bill := "b1"; eb_seller_bill := "b2"; eb_contract := "";
     eb_task := ""; eb_amount := dec 6 500000; eb_stake := fzero; eb_state := "settled"; eb_proof := "p"; eb_bind_tx := "t1";
     eb_submit_tx := Some "t2"%string; eb_finalize_tx := Some "t3"%string; eb_pull_after := 0 |}.
Definition demo_paid_run : list usage_op :=
  [demo_funds; demo_call "1" 1 10 "buyer"; demo_call "2" 1 20 "buyer"; OpChain [demo_finished] [demo_bill "b1" "buyer"]; demo_call "3" 1 30 "buyer"].
Definition demo_plain (s : string) : string := s.
Definition demo_no_text (_ : float) : string := "".

Definition demo_run (p : UsagePolicy) (ops : list usage_op) : UWorld := usage_run p sum_floats demo_plain demo_no_text ops no_usage.

#[local] Ltac all_priced :=
  repeat (apply Forall_cons; split; [first [exact I | exists 250000; split; [lia|reflexivity]]|]); by apply Forall_nil.

(** Three calls of a quarter USDC: the first two are billed together and paid. *)
Lemma usage_ledger_balanced_witness :
  let w := demo_run demo_policy demo_paid_run in
  exists m, u_meters w !! ("s1", "buyer")%string = Some m /\
  exists open_ billed settled,
    mt_accrued m = dec 6 open_ /\ mt_billed m = dec 6 billed /\ mt_settled m = dec 6 settled /\
    open_ = total_of (unbilled ("s1", "buyer")%string) (u_charges w) /\
    settled = total_of (paid ("s1", "buyer")%string) (u_settlements w) /\
    open_ + billed = total_of (charged ("s1", "buyer")%string) (u_charges w) /\ 0 <= settled <= billed /\
    Forall (fun s => us_status s <> "failed"%string -> skey_of s = ("s1", "buyer")%string ->
              us_amount s = dec 6 (total_of (pinned_to (us_id s)) (u_charges w))) (u_settlements w).
Proof.
  intros w. destruct (u_meters w !! ("s1", "buyer")%string) as [m|] eqn:E; [|by vm_compute in E]. exists m. split; [done|].
  apply (usage_ledger_balanced demo_policy sum_floats demo_plain demo_no_text demo_paid_run); [|exact E|].
  - all_priced.
  - vm_compute. split; intros [=].
Defined.

Example paid_run_meter : (fun m => (mt_accrued m, mt_billed m, mt_settled m)) <$>
  u_meters (demo_run demo_policy demo_paid_run) !! ("s1", "buyer")%string =
  Some (dec 6 250000, dec 6 500000, dec 6 500000).
Proof. by vm_compute. Qed.

(** The first settlement is booked while no operator is configured, and stays. *)
Lemma open_settlement_stuck_witness : exists s c,
  waiting s c (demo_run demo_offline ([demo_funds; demo_call "1" 2 10 "buyer"] ++ [demo_call "2" 2 20 "buyer"; OpReconcile 30 50])).
Proof.
  destruct (u_settlements (demo_run demo_offline [demo_funds; demo_call "1" 2 10 "buyer"])) as [|s l] eqn:Es; [by vm_compute in Es|].
  destruct (u_charges (demo_run demo_offline [demo_funds; demo_call "1" 2 10 "buyer"])) as [|c l'] eqn:Ec; [by vm_compute in Ec|].
  exists s, c. apply (open_settlement_stuck demo_offline sum_floats demo_plain demo_no_text).
  - all_priced.
  - all_priced.
  - unfold waiting. unfold demo_run in Es, Ec. rewrite Es, Ec. split_and!; [left| |left|]; vm_compute in Es, Ec; by simplify_eq.
Defined.

Lemma request_charged_once_witness : exists c w,
  record_usage 20 "c2" demo_skill "other" "r1" 900 None w =
    (Ok {| ur_charge := c; ur_meter := u_meters w !! ("s1", "other")%string; ur_duplicate := true |}, w) /\ ch_payer c = "buyer"%string.
Proof.
  destruct (record_usage 10 "c1" demo_skill "buyer" "r1" 1 None no_usage) as [[r|e] w] eqn:E; [|by vm_compute in E].
  exists (ur_charge r), w. split; [apply (request_charged_once 10 "c1" demo_skill "buyer" "r1" 1 no_usage r w); [exact E|by vm_compute]|].
  vm_compute in E. by simplify_eq.
Defined.

(** The route compares the locked amount with the price of one unit, however many units the
    call has: five locked USDC admit a call of a quarter of a million. *)
Example units_not_covered :
  let w := demo_run demo_policy [demo_funds] in
  assert_can_pay demo_skill "buyer" w = Ok tt /\ estimate_amount 1000000 (sk_price demo_skill) = Ok (dec 6 250000000000) /\
  (ch_amount <$> u_charges (demo_run demo_policy [demo_funds; demo_call "1" 1000000 10 "buyer"])) =
    [dec 6 250000000000].
Proof. by vm_compute. Qed.

(** A cap that is not a number passes, and stops no call. *)
Example nan_cap_accepted : normalize_cap (Some (Some S754_nan)) = Ok (Some S754_nan) /\
  forall m amount, mt_cap m = Some S754_nan -> mt_status m = "open"%string -> assert_meter_allows m amount = Ok tt.
Proof.
  split; [by vm_compute|]. intros m amount Hc Hs. unfold assert_meter_allows. rewrite Hc, Hs. cbn. done.
Qed.
