(* ===== verification/SettlementRoutes.v ===== *)
(** * The settlement routes

    Every route of [api/routes/settlement.py] that changes state, with the guards it calls:
    [services/settlement_party_access.py], [services/settlement_cycle_guard.py],
    [services/settlement_receipt_release_guard.py], [services/task_contract_guard.py],
    [mark_intents_settled_for_task] of [services/payment_intent_service.py], and the tick
    that confirms deliveries whose buyer stays silent.

    The state is a [Session] whose remaining tables ([Rest]) are the vouchers, the quotas of
    role profiles and the payment intents; the brake and the outbox are not part of the
    transaction.  What a request finds outside these tables (delivery checks, owner
    confirmations, receipts, progress, the chain) is its environment [Env]: any values. *)
From stdpp Require Import pretty.
From S2P Require Import Prelude PyText PyFloat FloatFacts PyJson RuntimeSafety AtomicLedger Capacity ProfileCapacity.
From S2P Require Import Amounts Voucher SettlementEngine SettlementTransitions.
Open Scope Z_scope.

(** ** The columns the routes write *)

Definition state_edit (worker worker_profile : option string) (released refunded : option float)
    (dispute code notes : option string) (released_at : option Z) (onchain : option string)
    (window deadline : option Z) (spec : option json) (s : SettlementState) : SettlementState :=
  {| ss_settlement_id := ss_settlement_id s;
     ss_task_id := ss_task_id s;
     ss_escrow_amount := ss_escrow_amount s;
     ss_currency := ss_currency s;
     ss_status := ss_status s;
     ss_client_agent_id := ss_client_agent_id s;
     ss_worker_agent_id := worker;
     ss_profile_id := ss_profile_id s;
     ss_worker_profile_id := worker_profile;
     ss_released_amount := released;
     ss_refunded_amount := refunded;
     ss_dispute_reason := dispute;
     ss_rejection_reason_code := code;
     ss_arbitration_notes := notes;
     ss_created_at := ss_created_at s;
     ss_updated_at := ss_updated_at s;
     ss_released_at := released_at;
     ss_settlement_mode := ss_settlement_mode s;
     ss_chain_id := ss_chain_id s;
     ss_contract_address := ss_contract_address s;
     ss_tx_hash := ss_tx_hash s;
     ss_evidence_bundle_hash := ss_evidence_bundle_hash s;
     ss_onchain_status := onchain;
     ss_onchain_binding_id := ss_onchain_binding_id s;
     ss_onchain_buyer_bill_id := ss_onchain_buyer_bill_id s;
     ss_onchain_agent_bill_id := ss_onchain_agent_bill_id s;
     ss_quote_id := ss_quote_id s;
     ss_voucher_id := ss_voucher_id s;
     ss_delivery_deadline_at := ss_delivery_deadline_at s;
     ss_confirm_window_hours := window;
     ss_confirm_deadline_at := deadline;
     ss_progress_rule_spec := spec;
     ss_funding_source := ss_funding_source s |}.

Definition set_worker (worker : string) (worker_profile : option string) (s : SettlementState) : SettlementState :=
  state_edit (Some worker) worker_profile (ss_released_amount s) (ss_refunded_amount s) (ss_dispute_reason s)
    (ss_rejection_reason_code s) (ss_arbitration_notes s) (ss_released_at s) (ss_onchain_status s)
    (ss_confirm_window_hours s) (ss_confirm_deadline_at s) (ss_progress_rule_spec s) s.
Definition set_payout (released refunded : float) (notes : option string) (at_ : option Z) (s : SettlementState) : SettlementState :=
  state_edit (ss_worker_agent_id s) (ss_worker_profile_id s) (Some released) (Some refunded) (ss_dispute_reason s)
    (ss_rejection_reason_code s) notes at_ (ss_onchain_status s)
    (ss_confirm_window_hours s) (ss_confirm_deadline_at s) (ss_progress_rule_spec s) s.
Definition set_dispute (reason : string) (code : option string) (s : SettlementState) : SettlementState :=
  state_edit (ss_worker_agent_id s) (ss_worker_profile_id s) (ss_released_amount s) (ss_refunded_amount s) (Some reason)
    code (ss_arbitration_notes s) (ss_released_at s) (ss_onchain_status s)
    (ss_confirm_window_hours s) (ss_confirm_deadline_at s) (ss_progress_rule_spec s) s.
Definition set_notes (notes : string) (s : SettlementState) : SettlementState :=
  state_edit (ss_worker_agent_id s) (ss_worker_profile_id s) (ss_released_amount s) (ss_refunded_amount s) (ss_dispute_reason s)
    (ss_rejection_reason_code s) (Some notes) (ss_released_at s) (ss_onchain_status s)
    (ss_confirm_window_hours s) (ss_confirm_deadline_at s) (ss_progress_rule_spec s) s.
Definition set_onchain (onchain : string) (s : SettlementState) : SettlementState :=
  state_edit (ss_worker_agent_id s) (ss_worker_profile_id s) (ss_released_amount s) (ss_refunded_amount s) (ss_dispute_reason s)
    (ss_rejection_reason_code s) (ss_arbitration_notes s) (ss_released_at s) (Some onchain)
    (ss_confirm_window_hours s) (ss_confirm_deadline_at s) (ss_progress_rule_spec s) s.
Definition set_window (window deadline : option Z) (s : SettlementState) : SettlementState :=
  state_edit (ss_worker_agent_id s) (ss_worker_profile_id s) (ss_released_amount s) (ss_refunded_amount s) (ss_dispute_reason s)
    (ss_rejection_reason_code s) (ss_arbitration_notes s) (ss_released_at s) (ss_onchain_status s)
    window deadline (ss_progress_rule_spec s) s.
Definition set_spec (spec : json) (s : SettlementState) : SettlementState :=
  state_edit (ss_worker_agent_id s) (ss_worker_profile_id s) (ss_released_amount s) (ss_refunded_amount s) (ss_dispute_reason s)
    (ss_rejection_reason_code s) (ss_arbitration_notes s) (ss_released_at s) (ss_onchain_status s)
    (ss_confirm_window_hours s) (ss_confirm_deadline_at s) (Some spec) s.

(** ** The payment cycle guard *)

Abbreviation Edge := (string * string)%type.

Definition terminal_status_strings : list string :=
  [TaskStatus_value SETTLED; TaskStatus_value REFUNDED; TaskStatus_value CANCELLED].

(** The workers that one visit of [n] pushes; the top of the stack is the head. *)
Definition push_workers (edges : list Edge) (n : string) (stack : list string) : list string :=
  fold_left (fun st e => if decide (fst e = n) then snd e :: st else st) edges stack.

(** The loop of [worker_reaches_buyer_on_edges], [None] when the fuel is used up. *)
Fixpoint reach_loop (fuel : nat) (edges : list Edge) (buyer : string) (stack : list string) (seen : gset string) :
    option bool :=
  match stack with
  | [] => Some false
  | n :: st =>
      match fuel with
      | O => None
      | S fuel =>
          if decide (n = buyer) then Some true
          else if decide (n ∈ seen) then reach_loop fuel edges buyer st seen
          else reach_loop fuel edges buyer (push_workers edges n st) ({[n]} ∪ seen)
      end
  end.

(** Every edge is pushed at most once, so one round more than there are edges is enough. *)
Definition worker_reaches_buyer_on_edges (edges : list Edge) (worker_id buyer_id : string) : option bool :=
  if decide (worker_id = buyer_id) then Some false
  else reach_loop (S (length edges)) edges buyer_id [worker_id] ∅.

(** The rows the guard reads: a worker, another task, not terminal. *)
Definition edge_of (r : SettlementRow) : option Edge :=
  match sr_worker_agent_id r with
  | Some w => if mem (sr_status r) terminal_status_strings then None else Some (sr_client_agent_id r, w)
  | None => None
  end.
Definition active_edges (except : option string) (db : SettlementDB) : list Edge :=
  omap (fun kr => if decide (Some (sr_task_id (snd kr)) = except) then None else edge_of (snd kr))
    (map_to_list (settlements db)).

(** ** Settings, requests, environment *)

Record RoutePolicy := {
  settlement_require_party_actor : bool;
  auth_enforce_protected_routes : bool;
  settlement_block_buyer_worker_payment_cycle : bool;
  settlement_lock_requires_pending : bool;
  settlement_confirm_window_hours : Z;
  settlement_requires_success_receipt : bool;
  route_decimals : Z;
  route_settlement_mode : string;
  route_chain_id : Z;
  route_contract : option string;
  route_escrow_enabled : bool;
  route_onchain : bool
}.

Record Intent := {
  in_id : string;
  in_task : string;
  in_status : string;
  in_updated_at : Z
}.

Record Rest {G : Type} := {
  x_vouchers : gmap string VoucherRow;
  x_profile_owner : gmap string string;
  x_v_events : list VoucherEvent;
  x_graph : G;
  x_quota : gmap string ProfileRow;
  x_intents : list Intent
}.
Arguments Rest : clear implicits.

Record RWorld {G : Type} := {
  r_session : Session (R := Rest G);
  r_safety : SafetyWorld;
  r_outbox : list (string * string)
}.
Arguments RWorld : clear implicits.

(** The caller: the identity the party checks use and the agent the audit names. *)
Record Request := {
  rq_actor : option string;
  rq_agent : option string;
  rq_path : string
}.

Section Routes.
Context {G : Type}.
Abbreviation RM := (M (RWorld G) Exc).

(** What a request finds.  [e_delivery] is the delivery gate, [e_confirm] the confirmation of
    the owner for a scene, [e_auto] whether the scene may be verified automatically,
    [e_preflight] the preconditions of the escrow channel, [e_spend] the spending grant of
    the calling agent; [e_progress] lists the confirmed claimed percentages of the task and
    [e_receipts], [e_bundle] its receipts and evidence; [e_profile] and [e_after] write
    the reputation of the profile and of the parties, [e_attest] for the attestation; [e_chain] is the chain step, told whether the
    buyer has confirmed. *)
Record Env := {
  e_now : Z;
  e_db_ok : result string unit;
  e_spend : result Exc unit;
  e_delivery : SettlementState -> result Exc unit;
  e_confirm : string -> result Exc unit;
  e_auto : string -> bool;
  e_preflight : result Exc unit;
  e_progress : list float;
  e_receipts : list Receipt;
  e_bundle : option Bundle;
  e_profile : SettlementState -> G -> result Exc G;
  e_after : SettlementState -> G -> result Exc G;
  e_attest : option string;
  e_chain : bool -> SettlementState -> TaskStatus -> M (Session (R := Rest G)) Exc unit;
  e_restore : bool
}.

Context (p : RoutePolicy) (sql_sum : list float -> float) (digest : Receipt -> string)
        (fmt2 : float -> string).

(** ** Access to the tables *)

Definition on_session {A} (c : M (Session (R := Rest G)) Exc A) : RM A :=
  zoom r_session (fun s w => {| r_session := s; r_safety := r_safety w; r_outbox := r_outbox w |}) c.

(** The vouchers' world of the open transaction. *)
Definition money_of (w : RWorld G) : VWorld (G := G) :=
  let t := working (r_session w) in
  {| ledger := {| caps := t_caps t; safety := r_safety w |}; vouchers := x_vouchers (t_rest t);
     profile_owner := x_profile_owner (t_rest t); v_events := x_v_events (t_rest t); outbox := r_outbox w;
     graph := x_graph (t_rest t) |}.
Definition put_money (m : VWorld (G := G)) (w : RWorld G) : RWorld G :=
  let s := r_session w in
  let t := working s in
  {| r_session := set_working
       {| t_settle := t_settle t; t_caps := caps (ledger m); t_audits := t_audits t;
          t_rest := {| x_vouchers := vouchers m; x_profile_owner := profile_owner m; x_v_events := v_events m;
                       x_graph := graph m; x_quota := x_quota (t_rest t); x_intents := x_intents (t_rest t) |} |} s;
     r_safety := safety (ledger m); r_outbox := outbox m |}.
Definition on_money {A} (c : M (VWorld (G := G)) Exc A) : RM A := zoom money_of put_money c.

Definition put_rest (f : Rest G -> Rest G) : RM unit :=
  m_put (fun w => let s := r_session w in let t := working s in
    {| r_session := set_working {| t_settle := t_settle t; t_caps := t_caps t; t_audits := t_audits t;
                                   t_rest := f (t_rest t) |} s;
       r_safety := r_safety w; r_outbox := r_outbox w |}).
Definition on_quota {A} (c : M (gmap string ProfileRow) Exc A) : RM A :=
  fun w => let '(r, q) := c (x_quota (t_rest (working (r_session w)))) in
    (r, exec (put_rest (fun x => {| x_vouchers := x_vouchers x; x_profile_owner := x_profile_owner x;
                                    x_v_events := x_v_events x; x_graph := x_graph x; x_quota := q;
                                    x_intents := x_intents x |})) w).

(** [get_db]: the session of one request. *)
Definition route_request {A} (c : RM A) : RM A :=
  m_catch (do! a := c in seq! on_session commit in m_ret a) (fun e => seq! on_session rollback in m_raise e).

(** The brake and its audit. *)
Definition brake (op : string) : RM unit := on_money (on_ledger (on_safety (assert_runtime_operation_allowed op))).
Definition audit_anchor_now (e : Env) : RM unit :=
  on_money (on_ledger (audit_capacity_anchor_and_maybe_trip sql_sum (e_now e) (e_db_ok e))).

Definition settlement_of (task_id : string) : RM SettlementState :=
  do! st := on_session (on_settle (get task_id)) in
  match st with
  | None => m_raise (HTTPException 404 "Not Found")
  | Some st => m_ret st
  end.

(** ** [services/settlement_party_access.py] *)

Definition party_binding_active : bool := settlement_require_party_actor p && auth_enforce_protected_routes p.

Definition require_actor (q : Request) : result Exc string :=
  match str_or (rq_actor q) None with
  | Some a => Ok a
  | None => Err (HTTPException 401 "authentication required for this operation")
  end.
Definition require_buyer (q : Request) (st : SettlementState) : result Exc unit :=
  if negb party_binding_active then Ok tt
  else let? a := require_actor q in
       if decide (a = ss_client_agent_id st) then Ok tt
       else Err (HTTPException 403 "only the settlement buyer may perform this action").
Definition require_worker (q : Request) (st : SettlementState) : result Exc unit :=
  if negb party_binding_active then Ok tt
  else let? a := require_actor q in
       match str_or (ss_worker_agent_id st) None with
       | None => Err (HTTPException 409 "settlement has no assigned worker")
       | Some w => if decide (a = w) then Ok tt
                   else Err (HTTPException 403 "only the assigned worker may perform this action")
       end.
Definition require_buyer_or_worker (q : Request) (st : SettlementState) : result Exc unit :=
  if negb party_binding_active then Ok tt
  else let? a := require_actor q in
       if decide (a = ss_client_agent_id st) then Ok tt
       else if decide (str_or (ss_worker_agent_id st) None = Some a) then Ok tt
       else Err (HTTPException 403 "only the settlement buyer or assigned worker may perform this action").
Definition require_buyer_on_create (q : Request) (client : string) : result Exc unit :=
  if negb party_binding_active then Ok tt
  else let? a := require_actor q in
       if decide (a = client) then Ok tt
       else Err (HTTPException 403 "authenticated actor must match client_agent_id when creating settlement").

(** ** Guards *)

Definition assert_lock_does_not_close_payment_cycle (task_id buyer worker : string) : RM unit :=
  if negb (settlement_block_buyer_worker_payment_cycle p) then m_ret tt
  else
    do! edges := m_get (fun w => active_edges (Some task_id) (t_settle (working (r_session w)))) in
    match worker_reaches_buyer_on_edges edges worker buyer with
    | Some false => m_ret tt
    | _ => m_raise (HTTPException 409 "locking this worker would close a directed payment cycle")
    end.

Definition ensure_success_receipt (receipts : list Receipt) (settled : float) : result Exc unit :=
  if negb (settlement_requires_success_receipt p) then Ok tt
  else if (settled <=? f1em6)%float then Ok tt
  else if existsb rc_success receipts then Ok tt
  else Err (HTTPException 409 "at least one successful execution receipt is required before releasing funds to the seller").

(** [SELECT max(...)] over the confirmed progress of the task. *)
Definition confirmed_progress_percent (e : Env) : float :=
  match e_progress e with
  | [] => fzero
  | x :: l => fold_left (fun m y => if (y >? m)%float then y else m) l x
  end.

(** ** Creation and the steps before delivery *)

Definition transition (e : Env) (q : Request) (confirmed : bool) (st : SettlementState) (target : TaskStatus)
    (reason : string) : RM SettlementState :=
  on_session (route_apply_transition (e_chain e confirmed) (e_restore e) (e_now e) st target reason (Some (rq_path q)) (rq_agent q)).

Record CreateBody := {
  cb_task : string;
  cb_client : string;
  cb_escrow : float;
  cb_currency : string;
  cb_voucher : option string;
  cb_deadline : option Z;
  cb_profile : option string;
  cb_spec : option json
}.

(** The terms a linked voucher fixes: the progress rules and, unless one is named, the
    profile. *)
Definition voucher_terms (b : CreateBody) : RM (option json * option string) :=
  match str_or (cb_voucher b) None with
  | None => m_ret (cb_spec b, cb_profile b)
  | Some vid =>
      do! v := m_get (fun w => x_vouchers (t_rest (working (r_session w))) !! vid) in
      match v with
      | None => m_raise (HTTPException 404 "voucher not found")
      | Some v =>
          if decide (status v <> Voucher.ACCEPTED) then m_raise (HTTPException 409 "voucher must be accepted before settlement bind")
          else if decide (buyer_identity_id v <> cb_client b)
          then m_raise (HTTPException 409 "settlement client_agent_id must match voucher buyer_identity_id")
          else if (fabs (bill_credit_amount v - cb_escrow b) >? f1em6)%float
          then m_raise (HTTPException 409 "escrow_amount must equal voucher bill_credit_amount when voucher_id is set")
          else m_ret (v_progress_rule_spec v, match str_or (v_profile_id v) None, str_or (cb_profile b) None with
                                              | Some x, None => Some x
                                              | _, _ => cb_profile b
                                              end)
      end
  end.

Definition new_state (e : Env) (sid : string) (b : CreateBody) (terms : option json * option string) : SettlementState :=
  {| ss_settlement_id := sid; ss_task_id := cb_task b; ss_escrow_amount := cb_escrow b; ss_currency := cb_currency b;
     ss_status := DRAFT; ss_client_agent_id := cb_client b; ss_worker_agent_id := None; ss_profile_id := snd terms;
     ss_worker_profile_id := None; ss_released_amount := None; ss_refunded_amount := None; ss_dispute_reason := None;
     ss_rejection_reason_code := None; ss_arbitration_notes := None; ss_created_at := e_now e; ss_updated_at := e_now e;
     ss_released_at := None; ss_settlement_mode := route_settlement_mode p;
     ss_chain_id := if decide (route_settlement_mode p <> "offchain"%string) then Some (route_chain_id p) else None;
     ss_contract_address := route_contract p; ss_tx_hash := None; ss_evidence_bundle_hash := None; ss_onchain_status := None;
     ss_onchain_binding_id := None; ss_onchain_buyer_bill_id := None; ss_onchain_agent_bill_id := None; ss_quote_id := None;
     ss_voucher_id := cb_voucher b; ss_delivery_deadline_at := cb_deadline b; ss_confirm_window_hours := None;
     ss_confirm_deadline_at := None; ss_progress_rule_spec := fst terms; ss_funding_source := "internal" |}.

Definition segment_if (x : option string) : result Exc unit :=
  match str_or x None with Some x => validate_public_url_segment x | None => Ok tt end.

Definition create_settlement (e : Env) (q : Request) (sid : string) (b : CreateBody) : RM SettlementState :=
  seq! brake "new_task" in
  seq! audit_anchor_now e in
  seq! lift (validate_public_url_segment (cb_task b)) in
  seq! lift (validate_public_url_segment (cb_client b)) in
  seq! lift (segment_if (cb_voucher b)) in
  seq! lift (segment_if (cb_profile b)) in
  seq! lift (require_buyer_on_create q (cb_client b)) in
  do! contracts := m_get (fun w => task_contracts (t_settle (working (r_session w)))) in
  if decide (cb_task b ∉ contracts) then m_raise (HTTPException 404 "task contract not found for this task_id")
  else if negb (is_finite (cb_escrow b)) then m_raise (HTTPException 400 "escrow_amount must be a finite number")
  else
    seq! lift (assert_token_precision (route_decimals p) (cb_escrow b) "escrow_amount") in
    seq! lift (e_spend e) in
    do! terms := voucher_terms b in
    let st := new_state e sid b terms in
    do! existing := on_session (on_settle (get (cb_task b))) in
    match existing with
    | Some _ => m_raise (HTTPException 409 "Settlement already exists for task")
    | None =>
        seq! on_session (on_settle (save (e_now e) st)) in
        seq! on_session (record_audit_from (route_caller (Some (rq_path q)) (rq_agent q)) (e_now e) st None DRAFT true "route"
               "settlement created") in
        m_ret st
    end.

(** Steps that only move the status: the gate of the brake, the party check, the move. *)
Definition step_route (e : Env) (q : Request) (task_id : string)
    (party : Request -> SettlementState -> result Exc unit) (gate : SettlementState -> result Exc unit)
    (edit : SettlementState -> SettlementState) (target : TaskStatus) (reason : string) : RM SettlementState :=
  seq! lift (validate_public_url_segment task_id) in
  seq! brake "new_task" in
  seq! audit_anchor_now e in
  do! st := settlement_of task_id in
  seq! lift (party q st) in
  seq! lift (gate st) in
  transition e q false (edit st) target reason.

Definition mark_settlement_pending (e : Env) (q : Request) (task_id : string) : RM SettlementState :=
  step_route e q task_id require_buyer (fun _ => Ok tt) id PENDING "task moved to pending".
Definition start_settlement (e : Env) (q : Request) (task_id : string) : RM SettlementState :=
  step_route e q task_id require_worker (fun _ => Ok tt) id IN_PROGRESS "task execution started".

Definition HOUR_US : Z := 3600 * 1000000.
Definition open_window (e : Env) (st : SettlementState) : SettlementState :=
  let h := settlement_confirm_window_hours p in
  if 0 <? h then set_window (Some h) (Some (e_now e + h * HOUR_US)) st else set_window None None st.

Definition emit (kind task_id : string) : RM unit :=
  m_put (fun w => {| r_session := r_session w; r_safety := r_safety w; r_outbox := r_outbox w ++ [(kind, task_id)] |}).

Definition submit_settlement (e : Env) (q : Request) (task_id : string) : RM SettlementState :=
  do! out := step_route e q task_id require_worker (e_delivery e) (open_window e) DELIVERED "delivery submitted" in
  seq! emit "settlement.delivered" task_id in
  m_ret out.

(** [int(x)] of a float. *)
Definition float_trunc (x : float) : option Z :=
  match x with
  | S754_zero _ => Some 0
  | S754_finite s m ex =>
      let n := if 0 <=? ex then Z.pos m * 2 ^ ex else Z.pos m / 2 ^ (- ex) in
      Some (if s then - n else n)
  | _ => None
  end.
Definition settlement_escrow_wei (st : SettlementState) : result Exc Z :=
  let usd := or_zero (Some (ss_escrow_amount st)) in
  if (usd <=? fzero)%float then Ok 0
  else match float_trunc (usd * float_of_Z (10 ^ route_decimals p))%float with
       | Some n => Ok n
       | None => Err OverflowError
       end.

Definition lock_settlement (e : Env) (q : Request) (task_id worker : string) (worker_profile : option string) :
    RM SettlementState :=
  seq! lift (validate_public_url_segment task_id) in
  seq! lift (validate_public_url_segment worker) in
  seq! brake "new_task" in
  seq! audit_anchor_now e in
  do! st := settlement_of task_id in
  seq! lift (require_buyer q st) in
  if decide (worker = ss_client_agent_id st)
  then m_raise (HTTPException 409 "worker_agent_id cannot equal settlement buyer (client_agent_id)")
  else
    seq! assert_lock_does_not_close_payment_cycle task_id (ss_client_agent_id st) worker in
    if settlement_lock_requires_pending p && bool_decide (canonical_task_status (ss_status st) = DRAFT)
    then m_raise (HTTPException 409 "settlement must be moved to pending before lock")
    else
      do! wp := match str_or worker_profile None with
                | None => m_ret (ss_worker_profile_id st)
                | Some wp =>
                    seq! lift (validate_public_url_segment wp) in
                    do! owner := m_get (fun w => x_profile_owner (t_rest (working (r_session w))) !! wp) in
                    if decide (owner = Some worker) then m_ret (Some wp)
                    else m_raise (HTTPException 404 "profile not found for worker")
                end in
      let st := set_worker worker wp st in
      do! out := transition e q false st ACCEPTED "worker accepted settlement" in
      do! wei := lift (settlement_escrow_wei st) in
      if (0 <? wei) && route_onchain p && negb (route_escrow_enabled p)
      then
        let out := set_onchain "pending_bind" out in
        seq! on_session (on_settle (save (e_now e) out)) in
        seq! emit "lock_and_bind_onchain" task_id in
        m_ret out
      else m_ret out.

(** The row the voucher of a task is read from. *)
Definition linked_voucher (task_id : string) : RM (option string) :=
  do! rows := m_get (fun w => rows_of_task task_id (t_settle (working (r_session w)))) in
  match rows with
  | [] => m_ret None
  | [r] => m_ret (sr_voucher_id r)
  | _ => m_raise MultipleResultsFound
  end.

Definition fail_settlement (e : Env) (q : Request) (task_id : string) : RM SettlementState :=
  do! out := step_route e q task_id require_buyer_or_worker (fun _ => Ok tt) id CANCELLED "task failed and cancelled" in
  do! v := m_get (fun w => head (rows_of_task task_id (t_settle (working (r_session w)))) ≫= sr_voucher_id) in
  seq! on_money (cancel_voucher_reservation (e_now e) v) in
  m_ret out.

(** ** Paying *)

Definition resolve_capacity (e : Env) (buyer : string) (escrow settled refunded : float) : RM unit :=
  on_money (on_ledger (apply_capacity_resolution sql_sum (e_now e) (e_db_ok e) buyer escrow settled refunded)).

Definition mark_voucher_used_if_linked (task_id : string) : RM unit :=
  do! v := linked_voucher task_id in
  on_money (mark_voucher_used v).

Definition settle_intent (now : Z) (task_id : string) (i : Intent) : Intent :=
  if bool_decide (in_task i = task_id) && mem (in_status i) ["created"; "authorized"]%string
  then {| in_id := in_id i; in_task := in_task i; in_status := "settled"; in_updated_at := now |} else i.
Definition mark_intents_settled_for_task (now : Z) (task_id : string) : RM unit :=
  put_rest (fun x => {| x_vouchers := x_vouchers x; x_profile_owner := x_profile_owner x; x_v_events := x_v_events x;
                        x_graph := x_graph x; x_quota := x_quota x; x_intents := settle_intent now task_id <$> x_intents x |}).

(** [float(state.released_amount or state.escrow_amount or 0)]. *)
Definition paid_amount (st : SettlementState) : float :=
  let r := or_zero (ss_released_amount st) in
  if (r =? fzero)%float then or_zero (Some (ss_escrow_amount st)) else r.

(** A write of the reputation tables. *)
Definition update_reputation (f : G -> result Exc G) : RM unit :=
  do! g := m_get (fun w => x_graph (t_rest (working (r_session w)))) in
  do! g' := lift (f g) in
  put_rest (fun x => {| x_vouchers := x_vouchers x; x_profile_owner := x_profile_owner x; x_v_events := x_v_events x;
                        x_graph := g'; x_quota := x_quota x; x_intents := x_intents x |}).

Definition release_profile_credits_if_bound (e : Env) (st : SettlementState) : RM unit :=
  match str_or (ss_profile_id st) None with
  | None => m_ret tt
  | Some pid =>
      seq! on_quota (release_profile_credits id (e_now e) pid (paid_amount st) (or_zero (ss_refunded_amount st))) in
      do! owner := m_get (fun w => x_profile_owner (t_rest (working (r_session w))) !! pid) in
      if owner is Some _ then update_reputation (e_profile e st) else m_ret tt
  end.

Definition f1em2 : float := Eval vm_compute in float_of_ratio false 1 100.
Definition f1em4 : float := Eval vm_compute in float_of_ratio false 1 10000.

(** What follows a committed payout in the routes that split: capacity, voucher, intents. *)
Definition close_books (e : Env) (buyer task_id : string) (st : SettlementState) (settled refunded : float) : RM unit :=
  seq! resolve_capacity e buyer (ss_escrow_amount st) settled refunded in
  seq! mark_voucher_used_if_linked task_id in
  mark_intents_settled_for_task (e_now e) task_id.

(** The limits of a split: not above the confirmed progress, or only after delivery. *)
Definition split_allowed (percent confirmed : float) (status : TaskStatus) : result Exc unit :=
  if (percent >? f1em4)%float then
    if (confirmed >? f1em9)%float then
      if (percent >? confirmed + f1em4)%float
      then Err (HTTPException 400 "settled_value_percent exceeds confirmed claimed value ceiling")
      else Ok tt
    else if decide (status <> DELIVERED)
    then Err (HTTPException 400 "partial settlement with no confirmed progress requires delivered status")
    else Ok tt
  else Ok tt.

Definition partial_settlement (e : Env) (q : Request) (task_id : string) (percent : float) (reason : option string) :
    RM SettlementState :=
  seq! lift (validate_public_url_segment task_id) in
  seq! brake "new_settlement" in
  seq! audit_anchor_now e in
  do! st := settlement_of task_id in
  seq! lift (require_buyer q st) in
  let confirmed := confirmed_progress_percent e in
  let status := canonical_task_status (ss_status st) in
  do! ab := lift (split_amounts (route_decimals p) (ss_escrow_amount st) percent) in
  let '(settled, refunded) := ab in
  if decide (status = SETTLED) then
    if (fabs (py_round_to 2 (or_zero (ss_released_amount st)) - settled) <=? f1em2)%float then m_ret st
    else m_raise (HTTPException 409 "already_settled")
  else if mem status [CANCELLED; REFUNDED] then m_raise (HTTPException 409 "settlement_not_open_for_partial")
  else
    seq! lift (split_allowed percent confirmed status) in
    seq! lift (ensure_success_receipt (e_receipts e) settled) in
    let notes := default ("partial settlement at " +:+ fmt2 percent +:+ "%")%string (str_or reason None) in
    do! st := transition e q true (set_payout settled refunded (Some notes) (Some (e_now e)) st) SETTLED
                "manual partial settlement applied" in
    seq! close_books e (ss_client_agent_id st) task_id st settled refunded in
    m_ret st.

Definition regret_settlement (e : Env) (q : Request) (task_id : string) (buyer reason : option string) : RM SettlementState :=
  seq! lift (validate_public_url_segment task_id) in
  seq! brake "new_settlement" in
  seq! audit_anchor_now e in
  do! st := settlement_of task_id in
  seq! lift (require_buyer q st) in
  if bool_decide (buyer <> None) && bool_decide (buyer <> Some (ss_client_agent_id st))
  then m_raise (HTTPException 403 "buyer_identity_id does not match settlement buyer (client_agent_id)")
  else
    let confirmed := confirmed_progress_percent e in
    do! ab := lift (split_amounts (route_decimals p) (ss_escrow_amount st) confirmed) in
    let '(settled, refunded) := ab in
    seq! lift (ensure_success_receipt (e_receipts e) settled) in
    let notes := default ("buyer regret with confirmed progress " +:+ fmt2 confirmed +:+ "%")%string (str_or reason None) in
    let st := set_dispute (default "buyer regret"%string (str_or reason None)) (ss_rejection_reason_code st) st in
    do! st := transition e q true (set_payout settled refunded (Some notes) (Some (e_now e)) st) SETTLED "buyer regret settlement" in
    seq! close_books e (default (ss_client_agent_id st) (str_or buyer None)) task_id st settled refunded in
    m_ret st.

Definition freeze_dispute (e : Env) (st : SettlementState) : RM unit :=
  on_money (on_ledger (move_reserved_to_disputed sql_sum (e_now e) (e_db_ok e) (ss_client_agent_id st) (ss_escrow_amount st))).

Definition open_dispute (e : Env) (q : Request) (task_id : string) (reason code : option string) : RM SettlementState :=
  seq! lift (validate_public_url_segment task_id) in
  do! st := settlement_of task_id in
  seq! lift (require_buyer q st) in
  seq! freeze_dispute e st in
  transition e q false (set_dispute (default "buyer disputed task result"%string (str_or reason None)) code st) DISPUTED "dispute opened".

Definition buyer_reject_settlement (e : Env) (q : Request) (task_id code : string) (reason : option string) : RM SettlementState :=
  seq! lift (validate_public_url_segment task_id) in
  do! st := settlement_of task_id in
  seq! lift (require_buyer q st) in
  if decide (canonical_task_status (ss_status st) <> DELIVERED)
  then m_raise (HTTPException 409 "buyer reject requires delivered status")
  else
    seq! freeze_dispute e st in
    transition e q false (set_dispute (py_strip ("[" +:+ code +:+ "] " +:+ default "" (str_or reason None))%string) (Some code) st)
      DISPUTED ("buyer rejected: " +:+ code)%string.

(** ** Release after delivery *)

Definition scene_id_from_settlement (st : SettlementState) : option string :=
  match ss_progress_rule_spec st with
  | Some (JObj d) =>
      match dict_get "scene_id"%string d with
      | Some (JStr x) => if decide (py_strip x = ""%string) then None else Some (py_strip x)
      | _ => None
      end
  | _ => None
  end.
Definition spec_missing (st : SettlementState) : bool :=
  match ss_progress_rule_spec st with
  | None | Some (JObj []) => true
  | _ => false
  end.

(** The full release: quota, voucher, intents, reputation. *)
Definition close_release (e : Env) (task_id : string) (st : SettlementState) : RM unit :=
  seq! resolve_capacity e (ss_client_agent_id st) (ss_escrow_amount st) (ss_escrow_amount st) fzero in
  seq! release_profile_credits_if_bound e st in
  seq! mark_voucher_used_if_linked task_id in
  seq! mark_intents_settled_for_task (e_now e) task_id in
  (if str_or (ss_worker_agent_id st) None is Some _ then update_reputation (e_after e st) else m_ret tt).

(** [text.strip("; ")]. *)
Definition is_note_edge (c : Ascii.ascii) : bool :=
  bool_decide (c = Ascii.ascii_of_nat 59) || bool_decide (c = Ascii.ascii_of_nat 32).
Fixpoint lstrip_note (s : string) : string :=
  match s with
  | String c s' => if is_note_edge c then lstrip_note s' else s
  | EmptyString => EmptyString
  end.
Fixpoint rstrip_note (s : string) : string :=
  match s with
  | EmptyString => EmptyString
  | String c s' => match rstrip_note s' with
                   | EmptyString => if is_note_edge c then EmptyString else String c EmptyString
                   | t => String c t
                   end
  end.

(** The attestation is named in the answer only. *)
Definition with_attestation (e : Env) (st : SettlementState) : SettlementState :=
  match e_attest e with
  | None => st
  | Some a => set_notes (rstrip_note (lstrip_note (default "" (ss_arbitration_notes st) +:+ "; p8_attestation=" +:+ a)))%string st
  end.

Definition buyer_accept_settlement (e : Env) (q : Request) (task_id : string) (scene : option string) : RM SettlementState :=
  seq! lift (validate_public_url_segment task_id) in
  do! st := settlement_of task_id in
  seq! lift (require_buyer q st) in
  if decide (ss_status st <> DELIVERED) then m_raise (HTTPException 409 "buyer accept requires delivered status")
  else
    seq! brake "new_settlement" in
    seq! audit_anchor_now e in
    let hint := str_or (Some (py_strip (default ""%string scene))) (scene_id_from_settlement st) in
    let st := match hint with
              | Some h => if spec_missing st then set_spec (JObj [("scene_id"%string, JStr h)]) st else st
              | None => st
              end in
    seq! lift (e_delivery e st) in
    seq! lift (match hint with Some h => e_confirm e (py_strip h) | None => Ok tt end) in
    seq! lift (ensure_success_receipt (e_receipts e) (ss_escrow_amount st)) in
    do! released := lift (normalize_amount (route_decimals p) (ss_escrow_amount st)) in
    do! st := transition e q true
                (set_payout released fzero (Some "buyer accepted delivery — full settlement to seller"%string) (Some (e_now e)) st)
                SETTLED "buyer accepted delivered work" in
    seq! close_release e task_id st in
    seq! emit "settlement.settled" task_id in
    m_ret (with_attestation e st).

Definition AUTO_CONFIRM_FORBIDDEN_SCENES : list string := ["financial_services"; "healthcare_medical"]%string.
Definition hours_text (h : option Z) : string := match h with Some h => pretty h | None => "None" end.

Definition auto_confirm_release (e : Env) (q : Request) (st : SettlementState) : RM SettlementState :=
  let task_id := ss_task_id st in
  seq! brake "new_settlement" in
  seq! lift (e_delivery e st) in
  let scene := default "api_tool_call"%string (scene_id_from_settlement st) in
  if negb (e_auto e scene) && mem scene AUTO_CONFIRM_FORBIDDEN_SCENES
  then m_raise (HTTPException 409 "auto_confirm_forbidden_for_scene")
  else
    seq! lift (if route_escrow_enabled p then e_preflight e else Ok tt) in
    let h := hours_text (ss_confirm_window_hours st) in
    do! st := transition e q false (set_notes ("auto-confirmed after " +:+ h +:+ "h window")%string st) AUTO_CONFIRMED
                ("confirm window (" +:+ h +:+ "h) expired")%string in
    do! released := lift (normalize_amount (route_decimals p) (ss_escrow_amount st)) in
    do! st := transition e q false
                (set_payout released fzero (ss_arbitration_notes st) (Some (e_now e)) st)
                SETTLED "auto-confirmed → settled" in
    seq! close_release e task_id st in
    m_ret (with_attestation e st).

Definition auto_confirm_settlement (e : Env) (q : Request) (task_id : string) : RM SettlementState :=
  seq! lift (validate_public_url_segment task_id) in
  do! st := settlement_of task_id in
  seq! lift (require_buyer_or_worker q st) in
  if decide (canonical_task_status (ss_status st) <> DELIVERED) then m_raise (HTTPException 409 "auto-confirm requires delivered")
  else match ss_confirm_window_hours st with
       | None => m_raise (HTTPException 409 "this settlement has no confirm window")
       | Some h =>
           let deadline := default (ss_updated_at st + h * HOUR_US) (ss_confirm_deadline_at st) in
           if e_now e <? deadline then m_raise (HTTPException 409 "confirm window not expired")
           else
             seq! audit_anchor_now e in
             auto_confirm_release e q (set_window (Some h) (Some deadline) st)
       end.

Definition auto_confirm_deadline (st : SettlementState) : option Z :=
  match ss_confirm_window_hours st with
  | None => None
  | Some h => if h <=? 0 then None else Some (default (ss_updated_at st + h * HOUR_US) (ss_confirm_deadline_at st))
  end.

(** The tick over delivered settlements.  A failure rolls the session back and goes on. *)
Definition system_request : Request :=
  {| rq_actor := None; rq_agent := Some "system:auto-confirm"%string; rq_path := "/internal/auto-confirm" |}.
Fixpoint auto_confirm_all (e : string -> Env) (now : Z) (limit : option nat) (l : list SettlementState) (confirmed : list string) :
    RM (list string) :=
  match l with
  | [] => m_ret confirmed
  | st :: l =>
      if match limit with Some n => (n <=? length confirmed)%nat | None => false end then m_ret confirmed
      else match auto_confirm_deadline st with
           | None => auto_confirm_all e now limit l confirmed
           | Some d =>
               if now <? d then auto_confirm_all e now limit l confirmed
               else
                 do! ok := m_catch (seq! auto_confirm_release (e (ss_task_id st)) system_request st in m_ret true)
                             (fun _ => seq! on_session rollback in m_ret false) in
                 auto_confirm_all e now limit l (if (ok : bool) then confirmed ++ [ss_task_id st] else confirmed)
           end
  end.
Definition auto_confirm_expired_settlements (e : string -> Env) (now : Z) (limit : option nat) : RM (list string) :=
  do! l := on_session (on_settle (list_by_status DELIVERED)) in
  auto_confirm_all e now limit l [].

(** ** Automatic arbitration *)

Definition auto_arbitrate (e : Env) (q : Request) (task_id : string) : RM SettlementState :=
  seq! lift (validate_public_url_segment task_id) in
  do! st := settlement_of task_id in
  seq! lift (require_buyer_or_worker q st) in
  let before := ss_status st in
  do! st := transition e q false st ARBITRATED "auto arbitration started" in
  let confirmed := confirmed_progress_percent e in
  let ctx := build_auto_arbitration_context digest (e_now e) (bool_decide (before = DELIVERED)) (ss_delivery_deadline_at st)
               (e_receipts e) (e_bundle e) in
  do! abn := lift (adjust_auto_split_for_rules (route_decimals p) ctx confirmed (ss_escrow_amount st)) in
  let '(settled, refunded, rule_notes) := abn in
  seq! lift (ensure_success_receipt (e_receipts e) settled) in
  let decision := if (settled <=? f1em6)%float then REFUNDED else SETTLED in
  let notes := match notes ctx with [] => rule_notes | l => (rule_notes +:+ " | " +:+ py_join "; " l)%string end in
  let st := set_payout settled refunded (Some notes) (if (settled >? fzero)%float then Some (e_now e) else None) st in
  do! st := transition e q false st decision "auto arbitration finalized" in
  seq! resolve_capacity e (ss_client_agent_id st) (ss_escrow_amount st) settled refunded in
  seq! mark_voucher_used_if_linked task_id in
  seq! (if decide (decision = SETTLED) then mark_intents_settled_for_task (e_now e) task_id else m_ret tt) in
  m_ret st.
End Routes.
