(* ===== verification/SettlementFlow.v ===== *)
(** * What the settlement routes do to the settlements

    The proofs about [SettlementRoutes]: the search for a payment cycle is exact, every route
    moves the table of settlements by the steps of a small machine on the columns that say
    who pays whom ([Core]), and what follows: active settlements never form a payment
    cycle, sellers are paid against receipts, and where the routes leave books open. *)
From S2P Require Import Prelude PyText PyFloat FloatFacts PyJson RuntimeSafety AtomicLedger Capacity ProfileCapacity.
From S2P Require Import Amounts Voucher SettlementEngine SettlementTransitions SettlementRoutes.
Open Scope Z_scope.

(** ** The search for a payment cycle *)

Definition on_edge (edges : list Edge) (a b : string) : Prop := (a, b) ∈ edges.

Lemma push_workers_elem edges n st x : x ∈ push_workers edges n st <-> x ∈ st \/ on_edge edges n x.
Proof.
  unfold push_workers, on_edge. revert st. induction edges as [|[a b] edges IH]; intros st; cbn; [set_solver|].
  rewrite IH. case_decide; set_solver.
Qed.

(** Edges that are still to be pushed. *)
Definition unseen (edges : list Edge) (seen : gset string) : list Edge := filter (fun e => fst e ∉ seen) edges.

Lemma push_workers_length edges n st seen : n ∉ seen ->
  (length (push_workers edges n st) + length (unseen edges ({[n]} ∪ seen)) = length st + length (unseen edges seen))%nat.
Proof.
  intros Hn. unfold push_workers, unseen. revert st. induction edges as [|[a b] edges IH]; intros st; [done|]. cbn [fold_left fst snd].
  rewrite !filter_cons. cbn [fst]. specialize (IH (if decide (a = n) then b :: st else st)).
  destruct (decide (a = n)) as [->|Hne]; cbn [length] in *.
  - rewrite (decide_False (P := n ∉ {[n]} ∪ seen)) by set_solver. rewrite decide_True by done. cbn [length]. lia.
  - destruct (decide (a ∈ seen)) as [Ha|Ha].
    + rewrite (decide_False (P := a ∉ {[n]} ∪ seen)), (decide_False (P := a ∉ seen)) by set_solver. lia.
    + rewrite (decide_True (P := a ∉ {[n]} ∪ seen)), (decide_True (P := a ∉ seen)) by set_solver. cbn [length]. lia.
Qed.

(** A path to the buyer leaves the seen nodes through the stack. *)
Lemma leaves_seen edges buyer (seen : gset string) (st : list string) n : (forall a b, a ∈ seen -> on_edge edges a b -> b ∈ seen \/ b ∈ st) ->
  buyer ∉ seen -> n ∈ seen -> rtc (on_edge edges) n buyer -> exists k, k ∈ st /\ rtc (on_edge edges) k buyer.
Proof.
  intros Hcl Hb Hn Hp. induction Hp as [n|n k m Hnk Hp IH]; [done|]. destruct (Hcl n k Hn Hnk) as [Hk|Hk]; [by apply IH|by exists k].
Qed.

(** The search ends within its fuel, and with the right answer: [seen] is closed under
    edges up to the stack and does not hold the buyer. *)
Lemma reach_loop_spec edges buyer : forall fuel stack seen,
  (length stack + length (unseen edges seen) <= fuel)%nat -> buyer ∉ seen ->
  (forall a b, a ∈ seen -> on_edge edges a b -> b ∈ seen \/ b ∈ stack) ->
  exists r, reach_loop fuel edges buyer stack seen = Some r /\
    (r = true <-> exists n, n ∈ stack /\ rtc (on_edge edges) n buyer) .
Proof.
  induction fuel as [|fuel IH]; intros [|n st] seen Hf Hb Hcl; cbn [reach_loop length] in *; try lia.
  1,2: exists false; split; [done|]; split; [done|]; intros (n & Hn & _); set_solver.
  case_decide as En; [exists true; split; [done|]; split; [|done]; intros _; exists n; subst; split; [left|done]|].
  case_decide as Es.
  - assert (Hcl' : forall a b, a ∈ seen -> on_edge edges a b -> b ∈ seen \/ b ∈ st).
    { intros a b Ha Hab. destruct (Hcl a b Ha Hab) as [|Hs]; [by left|]. apply elem_of_cons in Hs as [->|]; [by left|by right]. }
    destruct (IH st seen) as (r & E & Hr); [lia|done|done|].
    exists r. split; [done|]. rewrite Hr. split; [intros (m & Hm & Hp); exists m; split; [by right|done]|].
    intros (m & Hm & Hp). apply elem_of_cons in Hm as [->|Hm]; [|by exists m].
    destruct (leaves_seen edges buyer seen st n) as (k & Hk & Hk'); [done..|by exists k].
  - destruct (IH (push_workers edges n st) ({[n]} ∪ seen)) as (r & E & Hr).
    { pose proof (push_workers_length edges n st seen Es). lia. }
    { set_solver. }
    { intros a b Ha Hab. rewrite push_workers_elem. destruct (decide (a = n)) as [->|Hne]; [by right; right|].
      destruct (Hcl a b) as [|Hs]; [set_solver|done|set_solver|]. apply elem_of_cons in Hs as [->|]; [set_solver|by right; left]. }
    exists r. split; [done|]. rewrite Hr. split.
    + intros (m & Hm & Hp). apply push_workers_elem in Hm as [Hm|Hm]; [exists m; split; [by right|done]|].
      exists n. split; [left|]. by eapply rtc_l.
    + intros (m & Hm & Hp). apply elem_of_cons in Hm as [->|Hm]; [|exists m; split; [apply push_workers_elem; by left|done]].
      inversion Hp as [|? k ? Hk Hp']; subst; [done|]. exists k. split; [apply push_workers_elem; by right|done].
Qed.

(** The search the cycle guard makes is exact and always ends: within its bound it answers
    whether a chain of active settlements leads from the worker to the buyer. *)
Lemma reach_exact edges worker buyer :
  exists r, worker_reaches_buyer_on_edges edges worker buyer = Some r /\
    (r = true <-> worker <> buyer /\ rtc (on_edge edges) worker buyer).
Proof.
  unfold worker_reaches_buyer_on_edges. case_decide as E; [exists false; split; [done|]; split; [done|by intros [? _]]|].
  destruct (reach_loop_spec edges buyer (S (length edges)) [worker] ∅) as (r & Hr & Hi).
  - cbn [length]. apply le_n_S, length_filter.
  - set_solver.
  - set_solver.
  - exists r. split; [done|]. rewrite Hi. split.
    + intros (n & Hn%list_elem_of_singleton & Hp). by subst.
    + intros [_ Hp]. exists worker. split; [left|done].
Qed.

(** ** Who pays whom *)

Record Core := {
  co_task : string;
  co_client : string;
  co_worker : option string;
  co_status : string
}.
#[export] Instance Core_eq_dec : EqDecision Core.
Proof. solve_decision. Defined.
Definition core (r : SettlementRow) : Core :=
  {| co_task := sr_task_id r; co_client := sr_client_agent_id r; co_worker := sr_worker_agent_id r; co_status := sr_status r |}.
Definition cores (db : SettlementDB) : gmap string Core := core <$> settlements db.
Definition core_of (st : SettlementState) : Core :=
  {| co_task := ss_task_id st; co_client := ss_client_agent_id st; co_worker := ss_worker_agent_id st;
     co_status := TaskStatus_value (canonical_task_status (ss_status st)) |}.

(** An active settlement is an edge from its buyer to its worker. *)
Definition core_edge (c : Core) : option Edge :=
  match co_worker c with
  | Some w => if mem (co_status c) terminal_status_strings then None else Some (co_client c, w)
  | None => None
  end.
Definition pays (K : gmap string Core) (a b : string) : Prop :=
  exists i c, K !! i = Some c /\ core_edge c = Some (a, b).
Definition acyclic {A} (R : A -> A -> Prop) : Prop := forall x, ~ tc R x x.

Lemma acyclic_mono {A} (R R' : A -> A -> Prop) : (forall a b, R' a b -> R a b) -> acyclic R -> acyclic R'.
Proof.
  intros Hs Ha x Hx. apply (Ha x). revert Hx. generalize x at 1 3. intros y Hy.
  induction Hy as [a b Hab|a b c Hab _ IH]; [by apply tc_once, Hs|by eapply tc_l; [apply Hs|]].
Qed.

Lemma tc_with_edge {A} (R : A -> A -> Prop) b w x y : ~ rtc R w b ->
  tc (fun u v => R u v \/ (u = b /\ v = w)) x y -> tc R x y \/ (rtc R x b /\ rtc R w y).
Proof.
  intros Hn H. induction H as [u v [Huv|[-> ->]]|u v z Huv _ IH]; [left; by apply tc_once|right; by split|].
  destruct Huv as [Huv|[-> ->]], IH as [IH|[H1 H2]].
  - left. by eapply tc_l.
  - right. split; [by eapply rtc_l|done].
  - right. split; [done|by apply tc_rtc].
  - by destruct Hn.
Qed.

(** Adding an edge closes no cycle when no path leads back. *)
Lemma acyclic_add {A} (R : A -> A -> Prop) b w : acyclic R -> ~ rtc R w b ->
  acyclic (fun u v => R u v \/ (u = b /\ v = w)).
Proof.
  intros Ha Hn x Hx. destruct (tc_with_edge R b w x x Hn Hx) as [H|[H1 H2]]; [by apply (Ha x)|].
  apply Hn. by transitivity x.
Qed.

Lemma active_edges_spec t db a b : on_edge (active_edges (Some t) db) a b <->
  exists i c, cores db !! i = Some c /\ co_task c <> t /\ core_edge c = Some (a, b).
Proof.
  unfold on_edge, active_edges. rewrite list_elem_of_omap. split.
  - intros ([i r] & Hi & He). apply elem_of_map_to_list in Hi. cbn [snd] in He. case_decide as D; [done|].
    exists i, (core r). unfold cores. rewrite lookup_fmap, Hi. split_and!; [done|cbn; congruence|done].
  - intros (i & c & Hi & Ht & He). unfold cores in Hi. rewrite lookup_fmap in Hi. destruct (settlements db !! i) as [r|] eqn:Hr; [|done].
    injection Hi as <-. exists (i, r). split; [by apply elem_of_map_to_list|]. cbn [snd]. rewrite decide_False; [done|]. cbn in Ht. congruence.
Qed.

(** [a] is to pay [b] under an open settlement of a task other than [task]. *)
Definition owes (task : string) (db : SettlementDB) (a b : string) : Prop :=
  exists i r, settlements db !! i = Some r /\ sr_task_id r <> task /\ sr_client_agent_id r = a /\
    sr_worker_agent_id r = Some b /\ sr_status r ∉ terminal_status_strings.

Lemma owes_edges task db a b : owes task db a b <-> on_edge (active_edges (Some task) db) a b.
Proof.
  rewrite active_edges_spec. split.
  - intros (i & r & Hi & Ht & <- & Hw & Hs). exists i, (core r). unfold cores. rewrite lookup_fmap, Hi.
    split_and!; [done|done|]. unfold core_edge. cbn. by rewrite Hw, (proj2 (mem_false _ _) Hs).
  - intros (i & c & Hi & Ht & He). unfold cores in Hi. rewrite lookup_fmap in Hi.
    destruct (settlements db !! i) as [r|] eqn:Hr; [|done]. injection Hi as <-. exists i, r.
    unfold core_edge in He. cbn in *. destruct (sr_worker_agent_id r) as [w|]; [|done].
    destruct (mem _ _) eqn:Hm; [done|]. injection He as <- <-. by apply mem_false in Hm.
Qed.

(** C39. The guard against payment cycles is exact.  Switched on, it always ends, changes
    nothing, and refuses a lock with 409 exactly when a chain of open settlements of other
    tasks, of whatever length, leads from the worker to the buyer; a worker who is the
    buyer is left to a check of its own in the route. *)
Theorem cycle_guard_exact {G} p task buyer worker (w : RWorld G) :
  settlement_block_buyer_worker_payment_cycle p = true ->
  let db := t_settle (working (r_session w)) in
  let guard := assert_lock_does_not_close_payment_cycle p task buyer worker w in
  (worker <> buyer -> rtc (owes task db) worker buyer ->
     guard = (Err (HTTPException 409 "locking this worker would close a directed payment cycle"), w)) /\
  (worker = buyer \/ ~ rtc (owes task db) worker buyer -> guard = (Ok tt, w)).
Proof.
  intros Hp db guard. assert (Hr : forall a b, rtc (owes task db) a b <-> rtc (on_edge (active_edges (Some task) db)) a b).
  { intros a b. split; apply rtc_subrel; intros x y; apply owes_edges. }
  rewrite Hr. subst guard. unfold assert_lock_does_not_close_payment_cycle, m_bind, m_get. rewrite Hp. cbn [negb].
  fold db. destruct (reach_exact (active_edges (Some task) db) worker buyer) as ([] & -> & Hi); split; try done.
  - intros [He|Hn]; destruct (proj1 Hi eq_refl) as [H1 H2]; contradiction.
  - intros H1 H2. discriminate (proj2 Hi (conj H1 H2)).
Qed.

(** ** A transition on the cores *)

Definition table_is (K : gmap string Core) (db : SettlementDB) : Prop := db_wf db /\ cores db = K.
Definition core_status (st : string) (c : Core) : Core :=
  {| co_task := co_task c; co_client := co_client c; co_worker := co_worker c; co_status := st |}.

Lemma core_updated r r' : eq_but_updated r r' -> core r = core r'.
Proof. intros H. destruct (eq_but_updated_fields _ _ H) as (_ & H2 & H3 & _ & _ & H6 & H7). unfold core. congruence. Qed.

Lemma save_cores now st K db db' : table_is K db -> save now st db = (Ok tt, db') ->
  table_is (<[ss_settlement_id st := core_of st]> K) db'.
Proof.
  intros [Hwf Hk] Hs. pose proof (save_sound now st db Hwf) as H. rewrite Hs in H. destruct H as (Hwf' & r & E & _ & Hr & _).
  split; [done|]. unfold cores. rewrite E, fmap_insert. fold (cores db). rewrite Hk. f_equal. by rewrite (core_updated _ _ Hr).
Qed.

Lemma table_lookup K db i c : table_is K db -> K !! i = Some c -> exists r, settlements db !! i = Some r /\ core r = c.
Proof. intros [_ <-] H. unfold cores in H. rewrite lookup_fmap in H. destruct (settlements db !! i) as [r|]; [|done]. injection H as <-. eauto. Qed.

(** Restoring the snapshot of the only row of a task. *)
Lemma restore_cores K db i c p now : table_is K db -> K !! i = Some c ->
  (exists st, snap_status p = TaskStatus_value st /\ canonical_task_status st = st) ->
  table_is (<[i := core_status (snap_status p) c]> K) (restore_rows (co_task c) p now db).
Proof.
  intros HK Hc Hst. destruct (table_lookup _ _ _ _ HK Hc) as (r & Hr & Ec). destruct HK as [[H1 H2] Hk].
  assert (Hup : forall r0, sr_settlement_id (row_apply_snapshot p now r0) = sr_settlement_id r0 /\
    sr_task_id (row_apply_snapshot p now r0) = sr_task_id r0) by done.
  split; [split|].
  - intros j r0 Hj. rewrite restore_lookup in Hj. destruct (settlements db !! j) as [r1|] eqn:Hr1; [|done]. cbn in Hj.
    injection Hj as <-. destruct (H1 j r1 Hr1) as (A & B & C). case_decide; [|by split_and!]. split_and!; [done|exact Hst|done].
  - intros j k r1 r2 Hj Hk2. rewrite restore_lookup in Hj, Hk2. destruct (settlements db !! j) as [r3|] eqn:H3; [|done].
    destruct (settlements db !! k) as [r4|] eqn:H4; [|done]. cbn in Hj, Hk2. injection Hj as <-. injection Hk2 as <-.
    intros E. apply (H2 j k r3 r4 H3 H4). by repeat case_decide.
  - apply map_eq. intros j. unfold cores. rewrite lookup_fmap, restore_lookup. destruct (decide (j = i)) as [->|Hne].
    + rewrite lookup_insert_eq, Hr. cbn. rewrite decide_True by (by rewrite <- Ec). by rewrite <- Ec.
    + rewrite lookup_insert_ne, <- Hk by done. unfold cores. rewrite lookup_fmap. destruct (settlements db !! j) as [r1|] eqn:Hr1; [|done].
      cbn. rewrite decide_False; [done|]. intros E. apply Hne. apply (H2 j i r1 r Hr1 Hr). by rewrite E, <- Ec.
Qed.

Section Steps.
Context {R : Type}.

Definition steady (K : gmap string Core) (s : Session (R := R)) : Prop :=
  table_is K (t_settle (committed s)) /\ table_is K (t_settle (working s)).

(** The chain step may write any other column and commit or not. *)
Definition quiet (c : SettlementState -> TaskStatus -> M (Session (R := R)) Exc unit) : Prop :=
  forall st t s K, steady K s -> steady K (exec (c st t) s).

(** What a transition leaves behind: nothing, the move, or the move with the old status. *)
Definition transition_left (K : gmap string Core) (i : string) (c moved : Core) (K' : gmap string Core) : Prop :=
  K' = K \/ K' = <[i := moved]> K \/ K' = <[i := core_status (co_status c) moved]> K.

Lemma audit_committed (c : Caller) now st f t ok stage reason (s : Session (R := R)) :
  t_settle (working (exec (record_audit c now st f t ok stage reason) s)) = t_settle (working s) /\
  committed (exec (record_audit c now st f t ok stage reason) s) = committed s.
Proof. unfold record_audit, record_audit_from, exec, m_bind, m_get, m_put, m_raise. by destruct (settlements _ !! _). Qed.

Lemma get_cores K db i c : table_is K db -> K !! i = Some c ->
  match get (co_task c) db with
  | (Ok (Some st), db') => db' = db /\ core_of st = c /\ ss_settlement_id st = i
  | (Ok None, _) => False
  | (Err _, db') => db' = db
  end.
Proof.
  intros HK Hc. destruct (table_lookup _ _ _ _ HK Hc) as (r & Hr & <-). destruct HK as [Hwf _].
  unfold get, m_bind, m_get. cbn [core co_task]. rewrite (rows_of_task_unique _ _ _ Hwf Hr). unfold lift.
  destruct (proj1 Hwf _ _ Hr) as (Hid & (x & Hx & Hcx) & _). unfold from_row. rewrite Hx, canonical_of_value_value. cbn [rbind].
  assert (E : core_of (state_of_row (canonical_task_status x) r) = core r).
  { unfold core_of, core. cbn. by rewrite canonical_idem, Hcx, Hx. }
  destruct (sr_confirm_window_hours r) as [h|]; [destruct (_ && _)|]; by split_and?.
Qed.

Lemma get_read K db t : table_is K db ->
  match get t db with
  | (Ok (Some st), db') => db' = db /\ K !! ss_settlement_id st = Some (core_of st) /\ ss_task_id st = t
  | (_, db') => db' = db
  end.
Proof.
  intros HK. destruct (rows_of_task t db) as [|r l] eqn:Hrows; [unfold get, m_bind, m_get; by rewrite Hrows|].
  assert (Hin : r ∈ rows_of_task t db) by (rewrite Hrows; left). unfold rows_of_task in Hin.
  apply list_elem_of_fmap in Hin as ([i r'] & -> & Hin). apply elem_of_map_to_list, map_lookup_filter_Some in Hin as [Hi Ht]. cbn in Ht.
  assert (Hc : K !! i = Some (core r')) by (destruct HK as [_ <-]; unfold cores; by rewrite lookup_fmap, Hi).
  pose proof (get_cores K db i (core r') HK Hc) as Hg. cbn [core co_task] in Hg. rewrite Ht in Hg.
  destruct (get t db) as [[[st|]|e] db']; [|done|done]. destruct Hg as (-> & E & <-). split_and!; [done|by rewrite E|].
  apply (f_equal co_task) in E. cbn in E. congruence.
Qed.

(** A save that is refused leaves what is committed. *)
Lemma transition_unsaved chain restore_ok (c : Caller) now st target reason (s : Session (R := R)) e db' :
  can_transition (ss_status st) target = true ->
  save now (state_set_status target now st) (t_settle (working s)) = (Err e, db') ->
  match apply_transition chain restore_ok c now st target reason s with
  | (Ok _, _) => False
  | (Err _, s') => committed s' = committed s
  end.
Proof.
  intros Hcan Hs. unfold apply_transition. rewrite Hcan. cbn [negb]. unfold m_bind at 1, snapshot_settlement_row, m_get at 1.
  unfold m_bind at 1, save_or_409, m_catch at 1. rewrite on_settle_eq, Hs. cbn [fst snd].
  destruct e; try done. unfold m_bind. match goal with |- context [record_audit ?c ?n ?st ?f ?t ?ok ?g ?re ?s0] =>
    pose proof (proj2 (audit_committed c n st f t ok g re s0)) as Ha; destruct (record_audit c n st f t ok g re s0) as [[]] eqn:Hx end;
    unfold exec in Ha; rewrite Hx in Ha; exact Ha.
Qed.

(** A transition applied to a state read from the table. *)
Lemma transition_cores chain restore_ok (c : Caller) now st target reason (s : Session (R := R)) K k :
  quiet chain -> steady K s -> K !! ss_settlement_id st = Some k -> co_task k = ss_task_id st ->
  let moved := core_of (state_set_status target now st) in
  match apply_transition chain restore_ok c now st target reason s with
  | (Ok st', s') => can_transition (ss_status st) target = true /\ steady (<[ss_settlement_id st := moved]> K) s' /\
      core_of st' = moved /\ ss_settlement_id st' = ss_settlement_id st
  | (Err _, s') => exists K', transition_left K (ss_settlement_id st) k moved K' /\ table_is K' (t_settle (committed s')) /\
      (K' <> K -> can_transition (ss_status st) target = true)
  end.
Proof.
  intros Hq [HC HW] Hk Ht moved. destruct (table_lookup _ _ _ _ HW Hk) as (r & Hr & Er).
  assert (Hkn : known st s) by (by exists r).
  destruct (can_transition (ss_status st) target) eqn:Hcan; cycle 1.
  { rewrite apply_refused by done. exists K. split_and!; [by left|done|done]. }
  destruct (save now (state_set_status target now st) (t_settle (working s))) as [[[]|e] db'] eqn:Hs; cycle 1.
  { pose proof (save_sound now (state_set_status target now st) _ (proj1 HW)) as Hp. rewrite Hs in Hp. destruct Hp as [-> _].
    pose proof (transition_unsaved chain restore_ok c now st target reason s e (t_settle (working s)) Hcan Hs) as Hx.
    destruct (apply_transition _ _ _ _ _ _ _ s) as [[st'|e'] s']; [done|]. cbn in Hx.
    exists K. rewrite Hx. split_and!; [by left|done|done]. }
  rewrite (apply_accepted chain restore_ok c now st target reason s db' Hcan (proj1 HW) Hs).
  set (s1 := before_chain _ _ _ _ _ _ _). pose proof (save_cores now _ K _ _ HW Hs) as Hm. fold moved in Hm.
  change (ss_settlement_id (state_set_status target now st)) with (ss_settlement_id st) in Hm.
  assert (S1 : steady (<[ss_settlement_id st := moved]> K) s1) by (by split).
  pose proof (Hq (state_set_status target now st) target s1 _ S1) as S2. unfold exec in S2. unfold m_bind, m_catch.
  destruct (chain (state_set_status target now st) target s1) as [[[]|e] s2] eqn:Ec; cbn [snd] in S2.
  - rewrite on_settle_eq. pose proof (get_cores _ _ (ss_settlement_id st) moved (proj2 S2) (lookup_insert_eq _ _ _)) as Hg.
    change (co_task moved) with (ss_task_id st) in Hg. destruct (get (ss_task_id st) (t_settle (working s2))) as [[[st'|]|e] d]; cbn [fst snd].
    + destruct Hg as (-> & E1 & E2). cbn. split_and!; [done| |done|done]. by destruct S2.
    + done.
    + subst d. eexists. split; [by right; left|]. split; [apply S2|done].
  - rewrite <- Ht, <- Er. cbn [core co_task]. rewrite (rows_of_task_unique _ _ _ (proj1 HW) Hr). cbn [head fmap option_fmap option_map].
    destruct restore_ok; [|cbn; eexists; split; [by right; left|]; split; [apply S2|done]].
    destruct (revert_committed c now (snapshot_of r) (state_set_status target now st) (ss_status st) target reason s2) as (s3 & -> & E3 & _).
    cbn. eexists. split; [by right; right|]. split; [|done]. rewrite E3.
    pose proof (restore_cores _ _ (ss_settlement_id st) moved (snapshot_of r) now (proj1 S2) (lookup_insert_eq _ _ _)) as Hres.
    rewrite insert_insert_eq in Hres. apply Hres. by destruct (proj1 (proj1 HW) _ _ Hr) as (_ & ? & _).
Qed.
End Steps.

(** ** The machine on cores *)

Definition pays_other (task : string) (K : gmap string Core) (a b : string) : Prop :=
  exists i c, K !! i = Some c /\ co_task c <> task /\ core_edge c = Some (a, b).

(** A status that stays or moves along the table, not to FROZEN. *)
Definition status_moves (a b : string) : Prop :=
  a = b \/ exists x y, a = TaskStatus_value x /\ b = TaskStatus_value y /\ can_transition x y = true /\ y <> FROZEN.

Inductive flow (guarded : bool) (K : gmap string Core) : gmap string Core -> Prop :=
| fl_new i c : co_worker c = None -> (forall j d, j <> i -> K !! j = Some d -> co_task d <> co_task c) -> flow guarded K (<[i := c]> K)
| fl_move i c st : K !! i = Some c -> status_moves (co_status c) st -> flow guarded K (<[i := core_status st c]> K)
| fl_lock i c w st : K !! i = Some c -> w <> co_client c ->
    (guarded = true -> ~ rtc (pays_other (co_task c) K) w (co_client c)) -> status_moves (co_status c) st ->
    flow guarded K (<[i := {| co_task := co_task c; co_client := co_client c; co_worker := Some w; co_status := st |}]> K).

Definition one_per_task (K : gmap string Core) : Prop :=
  forall i j c d, K !! i = Some c -> K !! j = Some d -> co_task c = co_task d -> i = j.

Lemma table_one_per_task K db : table_is K db -> one_per_task K.
Proof.
  intros HT i j c d Hi Hj E. destruct (table_lookup _ _ _ _ HT Hi) as (r & Hr & <-), (table_lookup _ _ _ _ HT Hj) as (r' & Hr' & <-).
  by apply (proj2 (proj1 HT) i j r r').
Qed.

(** Terminal statuses only lead to FROZEN, so a move never brings an edge back. *)
Lemma moves_keep_edges st c e : status_moves (co_status c) st -> core_edge (core_status st c) = Some e -> core_edge c = Some e.
Proof.
  intros [<-|(x & y & Hx & -> & Hcan & Hy)]; [done|]. unfold core_edge. cbn [core_status co_worker co_status co_client].
  destruct (co_worker c) as [w|]; [|done]. rewrite Hx. destruct (mem (TaskStatus_value y) _); [done|].
  assert (mem (TaskStatus_value x) terminal_status_strings = false) as -> by (by destruct x, y). done.
Qed.

(** Every step keeps the graph of active settlements free of cycles. *)
Lemma flow_acyclic K K' : one_per_task K -> flow true K K' -> acyclic (pays K) -> acyclic (pays K').
Proof.
  intros Hu Hf Ha. destruct Hf as [i c Hw _|i c st Hi Hst|i c w st Hi Hw Hg Hst].
  - apply (acyclic_mono (pays K)); [|done]. intros a b (j & d & Hj & Hd). destruct (decide (j = i)) as [->|Hne].
    + rewrite lookup_insert_eq in Hj. injection Hj as <-. unfold core_edge in Hd. by rewrite Hw in Hd.
    + rewrite lookup_insert_ne in Hj by done. by exists j, d.
  - apply (acyclic_mono (pays K)); [|done]. intros a b (j & d & Hj & Hd). destruct (decide (j = i)) as [->|Hne].
    + rewrite lookup_insert_eq in Hj. injection Hj as <-. exists i, c. split; [done|]. by eapply moves_keep_edges.
    + rewrite lookup_insert_ne in Hj by done. by exists j, d.
  - assert (Ho : acyclic (pays_other (co_task c) K)).
    { apply (acyclic_mono (pays K)); [|done]. intros a b (j & d & Hj & _ & Hd). by exists j, d. }
    eapply acyclic_mono; [|exact (acyclic_add _ (co_client c) w Ho (Hg eq_refl))].
    intros a b (j & d & Hj & Hd). destruct (decide (j = i)) as [->|Hne].
    + rewrite lookup_insert_eq in Hj. injection Hj as <-. right. unfold core_edge in Hd. cbn in Hd. destruct (mem _ _); [done|]. by injection Hd as <- <-.
    + rewrite lookup_insert_ne in Hj by done. left. exists j, d. split_and!; [done| |done]. intros E. apply Hne. by apply (Hu j i d c).
Qed.

Lemma flow_one_per_task g K K' : flow g K K' -> one_per_task K -> one_per_task K'.
Proof.
  intros Hf Hu. assert (Hsame : forall i c c', K !! i = Some c -> co_task c' = co_task c -> one_per_task (<[i := c']> K)).
  { intros i c c' Hi Ht a b x y Ha Hb E. destruct (decide (a = i)) as [->|Ha'], (decide (b = i)) as [->|Hb']; try done;
      rewrite ?lookup_insert_eq, ?lookup_insert_ne in * by done; simplify_eq; eapply Hu; try done; congruence. }
  destruct Hf as [i c _ Hn|i c st Hi _|i c w st Hi _ _ _]; [|by apply (Hsame i c)..].
  intros a b x y Ha Hb E. destruct (decide (a = i)) as [->|Ha'], (decide (b = i)) as [->|Hb']; try done;
    rewrite ?lookup_insert_eq, ?lookup_insert_ne in * by done; simplify_eq; [by destruct (Hn b y)|by destruct (Hn a x)|by eapply Hu].
Qed.

Lemma flows_acyclic K K' : one_per_task K -> rtc (flow true) K K' -> acyclic (pays K) -> acyclic (pays K').
Proof.
  intros Hu Hr. revert Hu. induction Hr as [|K K1 K' H1 _ IH]; [done|]. intros Hu Ha.
  apply IH; [by eapply flow_one_per_task|by eapply flow_acyclic].
Qed.

(** ** The routes follow the machine *)

Create HintDb route_still.

Section Routed.
Context {G : Type}.
Abbreviation RM := (M (RWorld G) Exc).
Abbreviation cores_t := (gmap string Core).

Definition rsteady (K : cores_t) (w : RWorld G) : Prop := steady K (r_session w).

(** From tables that satisfy [Pre], the program moves along the machine: when it returns the
    session is steady again, when it raises what is committed is on the machine too.  [F]
    holds of the tables throughout. *)
Definition routed {A} (g : bool) (F Pre : cores_t -> Prop) (c : RM A) (Post : A -> cores_t -> Prop) : Prop :=
  forall w K, F K -> Pre K -> rsteady K w ->
  match c w with
  | (Ok a, w') => exists K', rtc (flow g) K K' /\ F K' /\ rsteady K' w' /\ Post a K'
  | (Err _, w') => exists K', rtc (flow g) K K' /\ F K' /\ table_is K' (t_settle (committed (r_session w')))
  end.

(** Statements that leave the settlements alone. *)
Definition same_settlements (w w' : RWorld G) : Prop :=
  t_settle (committed (r_session w')) = t_settle (committed (r_session w)) /\
  t_settle (working (r_session w')) = t_settle (working (r_session w)).
Definition still {A} (c : RM A) : Prop := forall w, same_settlements w (exec c w).

Lemma same_steady K w w' : same_settlements w w' -> rsteady K w -> rsteady K w'.
Proof. intros [E1 E2] [H1 H2]. split; by rewrite ?E1, ?E2. Qed.
Lemma still_steady {A} (c : RM A) w K : still c -> rsteady K w -> rsteady K (exec c w).
Proof. intros Hc. by apply same_steady. Qed.

Lemma routed_bind {A B} g F Pre (c : RM A) Mid (k : A -> RM B) Post :
  routed g F Pre c Mid -> (forall a, routed g F (Mid a) (k a) Post) -> routed g F Pre (m_bind c k) Post.
Proof.
  intros Hc Hk w K HF HP HK. specialize (Hc w K HF HP HK). unfold m_bind. destruct (c w) as [[a|e] w1]; [|done].
  destruct Hc as (K1 & F1 & I1 & S1 & M1). specialize (Hk a w1 K1 I1 M1 S1). destruct (k a w1) as [[b|e] w2].
  - destruct Hk as (K2 & F2 & I2 & S2 & P2). exists K2. split_and!; [by etransitivity|done..].
  - destruct Hk as (K2 & F2 & I2 & T2). exists K2. split_and!; [by etransitivity|done..].
Qed.
Lemma routed_still {A} g F Pre (c : RM A) : still c -> routed g F Pre c (fun _ => Pre).
Proof.
  intros Hc w K HF HP HK. apply (still_steady c w K) in HK as HK'; [|done]. unfold exec in HK'. clear Hc. rename HK' into Hc.
  destruct (c w) as [[a|e] w']; cbn in Hc; exists K; split_and?; try done; apply Hc.
Qed.
Lemma routed_ret {A} g F (Pre : cores_t -> Prop) (Post : A -> cores_t -> Prop) a : (forall K, Pre K -> Post a K) -> routed g F Pre (m_ret a) Post.
Proof. intros H w K HF HP HK. exists K. split_and!; [done..|auto]. Qed.
Lemma routed_raise {A} g F (Pre : cores_t -> Prop) (Post : A -> cores_t -> Prop) e : routed g F Pre (m_raise e) Post.
Proof. intros w K HF _ HK. exists K. split_and!; [done..|apply HK]. Qed.
Lemma routed_weaken {A} g F (Pre Pre' : cores_t -> Prop) (c : RM A) (Post Post' : A -> cores_t -> Prop) :
  routed g F Pre c Post -> (forall K, Pre' K -> Pre K) -> (forall a K, Post a K -> Post' a K) -> routed g F Pre' c Post'.
Proof.
  intros Hc H1 H2 w K HF HP HK. specialize (Hc w K HF (H1 K HP) HK). destruct (c w) as [[a|e] w']; [|done].
  destruct Hc as (K' & R & I & S & P). exists K'. auto.
Qed.
Lemma routed_seq {A B} g F Pre (c : RM A) (k : RM B) Post : still c -> routed g F Pre k Post -> routed g F Pre (m_bind c (fun _ => k)) Post.
Proof. intros Hc Hk. apply (routed_bind _ _ _ _ (fun _ => Pre)); [by apply routed_still|done]. Qed.

Lemma still_lift {A} (c : result Exc A) : still (lift c). Proof. done. Qed.
Lemma still_get {A} (f : RWorld G -> A) : still (m_get f). Proof. done. Qed.
Lemma still_ret {A} (a : A) : still (m_ret a). Proof. done. Qed.
Lemma still_raise {A} e : still (m_raise (A := A) e). Proof. done. Qed.
Lemma still_emit k t : still (emit k t). Proof. done. Qed.
Lemma still_rest f : still (put_rest f). Proof. done. Qed.
Lemma still_money {A} (c : M (VWorld (G := G)) Exc A) : still (on_money c).
Proof. intros w. unfold exec, on_money, zoom. by destruct (c (money_of w)) as [r m]. Qed.
Lemma still_quota {A} (c : M (gmap string ProfileRow) Exc A) : still (on_quota c).
Proof. intros w. unfold exec, on_quota. by destruct (c _) as [r m]. Qed.
Lemma still_bind {A B} (c : RM A) (k : A -> RM B) : still c -> (forall a, still (k a)) -> still (m_bind c k).
Proof.
  intros Hc Hk w. specialize (Hc w). unfold exec, m_bind in *. destruct (c w) as [[a|e] w1]; [|done].
  destruct Hc as [E1 E2], (Hk a w1) as [E3 E4]. unfold exec in *. split; cbn in *; congruence.
Qed.

Lemma still_read t : still (on_session (on_settle (get t))).
Proof.
  intros w. unfold exec, on_session, zoom. rewrite on_settle_eq. pose proof (get_reads t (t_settle (working (r_session w)))) as E.
  destruct (get t _) as [r db]. cbn in E |- *. by subst db.
Qed.

Definition has (st : SettlementState) (K : cores_t) : Prop := K !! ss_settlement_id st = Some (core_of st).

Lemma routed_settlement g F Pre t : routed g F Pre (settlement_of t) (fun st K => Pre K /\ has st K /\ ss_task_id st = t).
Proof.
  intros w K HF HP [HC HW]. unfold settlement_of, m_bind, on_session, zoom. rewrite on_settle_eq.
  pose proof (get_read K _ t HW) as Hg. destruct (get t (t_settle (working (r_session w)))) as [[[st|]|e] db']; cbn [fst snd];
    exists K; (split; [done|]); (split; [done|]); [|exact HC..]. destruct Hg as (-> & Hh & Ht). by split_and!.
Qed.

(** [F] does not speak of the row [i]. *)
Definition ignores (F : cores_t -> Prop) (i : string) : Prop := forall K c, F K -> F (<[i := c]> K).

(** A transition of a state whose row is in the table, with its worker as stored. *)
Lemma routed_transition g F Pre (e : Env) q conf st target reason : quiet (e_chain e conf) -> canonical_task_status target <> FROZEN ->
  ignores F (ss_settlement_id st) -> (forall K, Pre K -> has st K) ->
  routed g F Pre (transition e q conf st target reason)
    (fun st' K => has st' K /\ ss_settlement_id st' = ss_settlement_id st).
Proof.
  intros Hq Ht Hig Hpre w K HF Hh%Hpre HK. unfold transition, on_session, zoom.
  pose proof (transition_cores (e_chain e conf) (e_restore e) (route_caller (Some (rq_path q)) (rq_agent q)) (e_now e) st target reason
    (r_session w) K (core_of st) Hq HK Hh eq_refl) as H. cbv zeta in H. unfold route_apply_transition.
  set (moved := core_of (state_set_status target (e_now e) st)) in H.
  assert (Em : moved = core_status (TaskStatus_value (canonical_task_status target)) (core_of st)) by done.
  assert (Hmv : can_transition (ss_status st) target = true -> status_moves (co_status (core_of st)) (TaskStatus_value (canonical_task_status target))).
  { intros Hcan. right. exists (canonical_task_status (ss_status st)), (canonical_task_status target).
    split_and!; try done. by rewrite can_transition_canonical. }
  destruct (apply_transition _ _ _ _ _ _ _ _) as [[st'|err] s']; cbn [fst snd].
  - destruct H as (Hcan & HS & E1 & E2). eexists. split_and!; [| |exact HS|unfold has; by rewrite E2, lookup_insert_eq, E1|done].
    + apply rtc_once. rewrite Em. apply (fl_move g K _ (core_of st)); auto.
    + by apply Hig.
  - destruct H as (K' & HL & HT & Hcan). exists K'. destruct (decide (K' = K)) as [->|Hne]; [by split_and!|].
    split_and!; [apply rtc_once| |done]; destruct HL as [->|[->| ->]]; try done; try by apply Hig.
    + rewrite Em. apply (fl_move g K _ (core_of st)); auto.
    + rewrite Em. apply (fl_move g K _ (core_of st)); [done|by left].
Qed.

(** Locking sets the worker as well. *)
Lemma routed_lock g F (e : Env) q st worker wp reason : quiet (e_chain e false) -> worker <> ss_client_agent_id st ->
  ignores F (ss_settlement_id st) ->
  routed g F (fun K => has st K /\ (g = true -> ~ rtc (pays_other (ss_task_id st) K) worker (ss_client_agent_id st)))
    (transition e q false (set_worker worker wp st) ACCEPTED reason) (fun st' => has st').
Proof.
  intros Hq Hne Hig w K HF [Hh Hg] HK. unfold transition, on_session, zoom.
  pose proof (transition_cores (e_chain e false) (e_restore e) (route_caller (Some (rq_path q)) (rq_agent q)) (e_now e) (set_worker worker wp st) ACCEPTED reason
    (r_session w) K (core_of st) Hq HK Hh eq_refl) as H. cbv zeta in H. unfold route_apply_transition.
  change (ss_settlement_id (set_worker worker wp st)) with (ss_settlement_id st) in H.
  change (ss_status (set_worker worker wp st)) with (ss_status st) in H.
  assert (Hmv : can_transition (ss_status st) ACCEPTED = true -> status_moves (co_status (core_of st)) (TaskStatus_value ACCEPTED)).
  { intros Hcan. right. exists (canonical_task_status (ss_status st)), ACCEPTED. split_and!; try done.
    by rewrite <- can_transition_canonical, canonical_idem, can_transition_canonical. }
  destruct (apply_transition _ _ _ _ _ _ _ _) as [[st'|err] s']; cbn [fst snd].
  - destruct H as (Hcan & HS & E1 & E2). eexists. split_and!; [|by apply Hig|exact HS|unfold has; by rewrite E2, lookup_insert_eq, E1].
    apply rtc_once, (fl_lock g K _ (core_of st)); auto.
  - destruct H as (K' & HL & HT & Hcan). exists K'. destruct (decide (K' = K)) as [->|Hk]; [by split_and!|].
    split_and!; [apply rtc_once| |done]; destruct HL as [->|[->| ->]]; try done; try by apply Hig.
    + apply (fl_lock g K _ (core_of st)); auto.
    + apply (fl_lock g K _ (core_of st)); auto. by left.
Qed.

Context (p : RoutePolicy) (sql_sum : list float -> float) (digest : Receipt -> string) (fmt2 : float -> string).

Lemma still_brake op : still (brake (G := G) op).
Proof. apply still_money. Qed.
Lemma still_anchor e : still (audit_anchor_now (G := G) sql_sum e).
Proof. apply still_money. Qed.
Lemma still_linked t : still (linked_voucher (G := G) t).
Proof. apply still_bind; [apply still_get|]. intros [|r [|]]; [apply still_ret..|apply still_raise]. Qed.
Lemma still_voucher_used t : still (mark_voucher_used_if_linked (G := G) t).
Proof. apply still_bind; [apply still_linked|intros v; apply still_money]. Qed.
Lemma still_capacity e b x y z : still (resolve_capacity (G := G) sql_sum e b x y z).
Proof. apply still_money. Qed.
Lemma still_freeze e st : still (freeze_dispute (G := G) sql_sum e st).
Proof. apply still_money. Qed.
Lemma still_reputation f : still (update_reputation (G := G) f).
Proof. apply still_bind; [apply still_get|intros g]. apply still_bind; [apply still_lift|intros g'; apply still_rest]. Qed.
Lemma still_quota_bound e st : still (release_profile_credits_if_bound (G := G) e st).
Proof.
  unfold release_profile_credits_if_bound. destruct (str_or _ _); [|apply still_ret]. apply still_bind; [apply still_quota|intros _].
  apply still_bind; [apply still_get|intros [o|]; [apply still_reputation|apply still_ret]].
Qed.
Lemma still_intents now t : still (mark_intents_settled_for_task (G := G) now t).
Proof. apply still_rest. Qed.
Lemma still_close e b t st x y : still (close_books (G := G) sql_sum e b t st x y).
Proof. apply still_bind; [apply still_capacity|intros _]. apply still_bind; [apply still_voucher_used|intros _; apply still_intents]. Qed.
Lemma still_release e t st : still (close_release (G := G) sql_sum e t st).
Proof.
  apply still_bind; [apply still_capacity|intros _]. apply still_bind; [apply still_quota_bound|intros _].
  apply still_bind; [apply still_voucher_used|intros _]. apply still_bind; [apply still_intents|intros _].
  destruct (str_or _ _); [apply still_reputation|apply still_ret].
Qed.
End Routed.

#[export] Hint Resolve still_lift still_get still_ret still_raise still_emit still_rest still_money still_quota still_brake
  still_anchor still_linked still_voucher_used still_capacity still_freeze still_quota_bound still_reputation still_intents
  still_close still_release : route_still.

(** *** Each route *)

Section Served.
Context {G : Type} (p : RoutePolicy) (sql_sum : list float -> float) (digest : Receipt -> string) (fmt2 : float -> string).
Abbreviation RM := (M (RWorld G) Exc).
Abbreviation guarded := (settlement_block_buyer_worker_payment_cycle p).

(** Like [routed], for a whole request: the open transaction may be ahead of what is committed. *)
Definition served {A} (Pre : gmap string Core -> Prop) (c : RM A) : Prop :=
  forall w K, Pre K -> rsteady K w ->
  match c w with
  | (Ok _, w') => exists K', rtc (flow guarded) K K' /\ table_is K' (t_settle (working (r_session w')))
  | (Err _, w') => exists K', rtc (flow guarded) K K' /\ table_is K' (t_settle (committed (r_session w')))
  end.

Definition any (_ : gmap string Core) : Prop := True.

Lemma served_routed {A} Pre (c : RM A) Post : routed guarded any Pre c Post -> served Pre c.
Proof.
  intros Hc w K HP HK. specialize (Hc w K I HP HK). destruct (c w) as [[a|e] w'].
  - destruct Hc as (K' & F & _ & [_ S] & _). by exists K'.
  - destruct Hc as (K' & F & _ & T). by exists K'.
Qed.
Lemma served_bind {A B} Pre (c : RM A) Mid (k : A -> RM B) :
  routed guarded any Pre c Mid -> (forall a, served (Mid a) (k a)) -> served Pre (m_bind c k).
Proof.
  intros Hc Hk w K HP HK. specialize (Hc w K I HP HK). unfold m_bind. destruct (c w) as [[a|e] w1].
  2: { destruct Hc as (K1 & F1 & _ & T1). by exists K1. }
  destruct Hc as (K1 & F1 & _ & S1 & M1). specialize (Hk a w1 K1 M1 S1).
  destruct (k a w1) as [[b|e] w2]; destruct Hk as (K2 & F2 & T2); exists K2; (split; [by etransitivity|done]).
Qed.
Lemma served_still {A B} Pre (c : RM A) (k : A -> RM B) : still c -> (forall a, served Pre (k a)) -> served Pre (m_bind c k).
Proof. intros Hc Hk. apply (served_bind _ _ (fun _ => Pre)); [by apply routed_still|done]. Qed.
Lemma served_raise {A} Pre e : served Pre (m_raise (A := A) e).
Proof. intros w K _ HK. exists K. split; [done|apply HK]. Qed.
Lemma served_ret {A} Pre (a : A) : served Pre (m_ret a).
Proof. intros w K _ HK. exists K. split; [done|apply HK]. Qed.
Lemma served_end {A} Pre (c : RM A) : still c -> served Pre c.
Proof. intros Hc. eapply served_routed, routed_still, Hc. Qed.

(** A request commits what it did or goes back to what is committed. *)
Lemma served_request {A} (c : RM A) w K : served any c -> rsteady K w ->
  exists K', rtc (flow guarded) K K' /\ rsteady K' (exec (route_request c) w).
Proof.
  intros Hc HK. specialize (Hc w K I HK). unfold exec, route_request, m_catch, m_bind.
  destruct (c w) as [[a|e] w']; destruct Hc as (K' & F & T); exists K'; (split; [done|]); by split.
Qed.

Lemma served_step (e : Env (G := G)) q t party gate edit target reason : quiet (e_chain e false) -> canonical_task_status target <> FROZEN ->
  (forall st, core_of (edit st) = core_of st /\ ss_settlement_id (edit st) = ss_settlement_id st) ->
  routed guarded any any (step_route sql_sum e q t party gate edit target reason) (fun st => has st).
Proof.
  intros Hq Ht He. unfold step_route. do 3 (apply routed_seq; [auto with route_still|]).
  eapply routed_bind; [apply routed_settlement|intros st]. do 2 (apply routed_seq; [auto with route_still|]).
  eapply routed_weaken; [apply (routed_transition guarded any _ e q false (edit st)); [apply Hq|done|done|]|intros K H; exact H|by intros a K [? _]].
  intros K (_ & Hh & _). unfold has in *. by destruct (He st) as [-> ->].
Qed.

Definition quiet_env (e : Env (G := G)) : Prop := forall b, quiet (e_chain e b).

#[local] Ltac serve := repeat (apply served_still; [solve [auto with route_still]|intros ?]).
#[local] Ltac pair_case := match goal with |- served _ (match ?x with _ => _ end) => destruct x as [? ?] end.
#[local] Ltac refused := first [apply served_raise | apply served_ret].
Lemma served_move {B} Pre (e : Env) q conf st target reason (k : SettlementState -> RM B) : quiet_env e ->
  canonical_task_status target <> FROZEN -> (forall K, Pre K -> has st K) -> (forall st', served (has st') (k st')) ->
  served Pre (m_bind (transition e q conf st target reason) k).
Proof.
  intros Hq Ht Hp Hk. eapply served_bind; [by apply routed_transition; [apply Hq|..]|]. intros st' w K [Hh _]. by apply Hk.
Qed.
Lemma served_last Pre (e : Env) q conf st target reason : quiet_env e ->
  canonical_task_status target <> FROZEN -> (forall K, Pre K -> has st K) -> served Pre (transition e q conf st target reason).
Proof. intros Hq Ht Hp. eapply served_routed, routed_transition; [apply Hq|done..]. Qed.

Lemma served_create e q sid b : quiet_env e -> served any (create_settlement p sql_sum e q sid b).
Proof.
  intros Hq. unfold create_settlement. serve. destruct (decide _); [refused|]. destruct (negb _); [refused|].
  serve. apply served_still.
  { unfold voucher_terms. destruct (str_or _ _) as [vid|]; [|apply still_ret]. apply still_bind; [apply still_get|]. intros [v|]; [|apply still_raise].
    destruct (decide _); [apply still_raise|]. destruct (decide _); [apply still_raise|]. destruct (_ >? _)%float; [apply still_raise|apply still_ret]. }
  intros terms. apply served_still.
  { apply still_read. }
  intros [st|]; [refused|]. intros w K _ [HC HW]. unfold m_bind, on_session, zoom. rewrite on_settle_eq.
  destruct (save _ _ _) as [[[]|er] db'] eqn:Hs; cbn [fst snd]; [|by exists K]. pose proof (save_cores _ _ _ _ _ HW Hs) as HT.
  unfold record_audit_from, m_bind, m_get, m_put. cbn [working set_working t_settle r_session].
  match goal with |- context [settlements db' !! ?i] => destruct (settlements db' !! i) end; cbn; [|by exists K]. eexists. split; [|exact HT].
  apply rtc_once. apply fl_new; [done|]. intros j d Hj Hd E. apply Hj.
  apply (table_one_per_task _ _ HT j (ss_settlement_id (new_state p e sid b terms)) d (core_of (new_state p e sid b terms)));
    [by rewrite lookup_insert_ne|by rewrite lookup_insert_eq|done].
Qed.

Lemma served_lock e q t w wp : quiet_env e -> served any (lock_settlement p sql_sum e q t w wp).
Proof.
  intros Hq. unfold lock_settlement. serve. eapply served_bind; [apply routed_settlement|intros st]. serve.
  destruct (decide _) as [|Hne]; [refused|].
  set (free := fun K : gmap string Core => has st K /\ (guarded = true -> ~ rtc (pays_other (ss_task_id st) K) w (ss_client_agent_id st))).
  apply (served_bind _ _ (fun _ => free)).
  { intros w0 K _ (_ & Hh & Ht) HK. unfold assert_lock_does_not_close_payment_cycle. destruct guarded eqn:Eg; cbn [negb].
    - unfold m_bind, m_get. destruct (reach_exact (active_edges (Some t) (t_settle (working (r_session w0)))) w (ss_client_agent_id st)) as (r & -> & Hr).
      destruct r; [exists K; split_and!; [done|exact I|apply HK]|].
      exists K. split; [done|]. split; [exact I|]. split; [done|]. split; [done|]. intros _ Hp. assert (false = true) as [=]. apply Hr. split; [done|].
      rewrite Ht in Hp. revert Hp. apply rtc_subrel. intros x y (i & c & Hi & Hc & He). apply active_edges_spec. exists i, c.
      destruct (proj2 HK) as [_ ->]. done.
    - exists K. split; [done|]. split; [exact I|]. by split. }
  intros _. destruct (_ && _); [refused|]. apply served_still.
  { destruct (str_or wp None) as [x|]; [|apply still_ret]. apply still_bind; [apply still_lift|intros _]. apply still_bind; [apply still_get|intros o].
    destruct (decide _); [apply still_ret|apply still_raise]. }
  intros wp'. eapply served_bind; [by apply routed_lock; [apply Hq| |]|intros out]. serve. destruct (_ && _); [|refused].
  intros w0 K Hh [HC HW]. unfold m_bind, on_session, zoom. rewrite on_settle_eq.
  destruct (save _ _ _) as [[[]|er] db'] eqn:Hs; cbn [fst snd]; [|by exists K]. pose proof (save_cores _ _ _ _ _ HW Hs) as HT.
  exists K. split; [done|]. cbn. change (ss_settlement_id (set_onchain "pending_bind" out)) with (ss_settlement_id out) in HT.
  change (core_of (set_onchain "pending_bind" out)) with (core_of out) in HT. by rewrite (insert_id K) in HT.
Qed.

Lemma served_fail e q t : quiet_env e -> served any (fail_settlement p sql_sum e q t).
Proof.
  intros Hq. unfold fail_settlement. eapply served_bind; [apply served_step; [apply Hq|done|done]|intros out]. serve. refused.
Qed.
Lemma served_submit e q t : quiet_env e -> served any (submit_settlement p sql_sum e q t).
Proof.
  intros Hq. unfold submit_settlement. eapply served_bind; [apply served_step; [apply Hq|done|]|intros out; serve; refused].
  intros st. unfold open_window. by destruct (0 <? _).
Qed.
Lemma served_partial e q t x reason : quiet_env e -> served any (partial_settlement p sql_sum fmt2 e q t x reason).
Proof.
  intros Hq. unfold partial_settlement. serve. eapply served_bind; [apply routed_settlement|intros st]. serve. pair_case.
  destruct (decide _); [destruct (_ <=? _)%float; refused|]. destruct (mem _ _); [refused|]. serve.
  apply served_move; [done|done|by intros K (_ & Hh & _)|]. intros st'. serve. refused.
Qed.
Lemma served_regret e q t b reason : quiet_env e -> served any (regret_settlement p sql_sum fmt2 e q t b reason).
Proof.
  intros Hq. unfold regret_settlement. serve. eapply served_bind; [apply routed_settlement|intros st]. serve. destruct (_ && _); [refused|].
  serve. pair_case. serve. apply served_move; [done|done|by intros K (_ & Hh & _)|]. intros st'. serve. refused.
Qed.
Lemma served_dispute e q t reason code : quiet_env e -> served any (open_dispute p sql_sum e q t reason code).
Proof.
  intros Hq. unfold open_dispute. serve. eapply served_bind; [apply routed_settlement|intros st]. serve.
  apply served_last; [done|done|by intros K (_ & Hh & _)].
Qed.
Lemma served_reject e q t code reason : quiet_env e -> served any (buyer_reject_settlement p sql_sum e q t code reason).
Proof.
  intros Hq. unfold buyer_reject_settlement. serve. eapply served_bind; [apply routed_settlement|intros st]. serve.
  destruct (decide _); [refused|]. serve.
  apply served_last; [done|done|by intros K (_ & Hh & _)].
Qed.
Lemma served_accept e q t scene : quiet_env e -> served any (buyer_accept_settlement p sql_sum e q t scene).
Proof.
  intros Hq. unfold buyer_accept_settlement. serve. eapply served_bind; [apply routed_settlement|intros st]. serve.
  destruct (decide _); [refused|]. serve.
  apply served_move; [done|done| |intros st'; serve; refused]. intros K (_ & Hh & _).
  destruct (str_or _ _); [destruct (spec_missing st)|]; exact Hh.
Qed.

Lemma routed_release F e q st : quiet_env e -> ignores F (ss_settlement_id st) ->
  routed guarded F (has st) (auto_confirm_release p sql_sum e q st) (fun _ => any).
Proof.
  intros Hq Hig. unfold auto_confirm_release. do 2 (apply routed_seq; [auto with route_still|]).
  destruct (_ && _); [apply routed_raise|]. apply routed_seq; [auto with route_still|].
  eapply routed_bind; [apply routed_transition; [apply Hq|done|exact Hig|by intros K Hh]|].
  intros st1. eapply routed_bind; [apply routed_still; auto with route_still|intros released].
  intros w K HF [Hh Hi] HK. revert w K HF Hh HK. apply (routed_bind _ _ _ _ (fun _ => any)).
  { eapply routed_weaken; [apply (routed_transition guarded F (has st1)); [apply Hq|done| |done]|done|by intros].
    change (ignores F (ss_settlement_id st1)). by rewrite Hi. }
  intros st2. apply routed_seq; [auto with route_still|]. by apply routed_ret.
Qed.

Lemma served_auto_confirm e q t : quiet_env e -> served any (auto_confirm_settlement p sql_sum e q t).
Proof.
  intros Hq. unfold auto_confirm_settlement. serve. eapply served_bind; [apply routed_settlement|intros st]. serve.
  destruct (decide _); [refused|]. destruct (ss_confirm_window_hours st) as [h|]; [|refused]. destruct (_ <? _); [refused|].
  apply served_still; [auto with route_still|intros _].
  cbv zeta. apply (served_routed _ _ (fun _ => any)). match goal with |- routed _ _ _ (auto_confirm_release _ _ _ _ ?x) _ =>
    apply (routed_weaken _ _ (has x) _ _ (fun _ => any)); [apply (routed_release any); [exact Hq|done]| |done] end.
  intros K (_ & Hh & _). exact Hh.
Qed.
Lemma served_arbitrate e q t : quiet_env e -> served any (auto_arbitrate p sql_sum digest e q t).
Proof.
  intros Hq. unfold auto_arbitrate. serve. eapply served_bind; [apply routed_settlement|intros st]. serve.
  apply served_move; [done|done|by intros K (_ & Hh & _)|]. intros st'. serve. pair_case. pair_case. serve.
  cbv zeta. match goal with |- context [if ?b then REFUNDED else SETTLED] => set (decision := if b then REFUNDED else SETTLED);
    assert (Hd : canonical_task_status decision <> FROZEN) by (unfold decision; by destruct b) end.
  apply served_move; [done|done|by intros K Hh|].
  intros st2. serve. apply served_still; [destruct (decide _); auto with route_still|]. intros _. refused.
Qed.

(** *** The tick over silent buyers *)

Lemma from_row_has K db i r st : table_is K db -> settlements db !! i = Some r -> from_row r = Ok st -> has st K /\ ss_settlement_id st = i.
Proof.
  intros HK Hr Hf. assert (Hc : K !! i = Some (core r)) by (destruct HK as [_ <-]; unfold cores; by rewrite lookup_fmap, Hr).
  pose proof (get_cores K db i (core r) HK Hc) as Hg. unfold get, m_bind, m_get in Hg. cbn [core co_task] in Hg.
  rewrite (rows_of_task_unique _ _ _ (proj1 HK) Hr) in Hg. unfold lift in Hg. rewrite Hf in Hg. destruct Hg as (_ & E & <-). unfold has. by rewrite Hc, E.
Qed.

Lemma rows_read K db kr l : table_is K db -> Forall (fun x => settlements db !! fst x = Some (snd x)) kr ->
  foldr (fun r acc => let? s := from_row r in let? l := acc in Ok (s :: l)) (Ok []) (snd <$> kr) = Ok l ->
  Forall (fun st => has st K) l /\ ss_settlement_id <$> l = fst <$> kr.
Proof.
  intros HK Hkr. revert l. induction Hkr as [|[i r] kr Hi _ IH]; intros l; cbn; [by intros [= <-]|].
  destruct (from_row r) as [st|] eqn:Hf; [|done]. cbn. destruct (foldr _ _ _) as [l'|]; [|done]. intros [= <-].
  destruct (IH l' eq_refl) as [H1 H2], (from_row_has K db i r st HK Hi Hf) as [H3 <-]. cbn. split; [by constructor|by rewrite H2].
Qed.

Lemma list_read K db st : table_is K db ->
  match list_by_status st db with
  | (Ok l, db') => db' = db /\ Forall (fun st => has st K) l /\ NoDup (ss_settlement_id <$> l)
  | (Err _, db') => db' = db
  end.
Proof.
  intros HK. unfold list_by_status, m_bind, m_get, lift. set (kr := map_to_list _). destruct (foldr _ _ _) as [l|] eqn:Hl; [|done]. split; [done|].
  destruct (rows_read K db kr l HK) as [H1 H2]; [|exact Hl|].
  - apply Forall_forall. intros [i r] Hi. apply elem_of_map_to_list, map_lookup_filter_Some in Hi. by destruct Hi.
  - split; [done|]. rewrite H2. apply NoDup_fst_map_to_list.
Qed.

Lemma routed_tick (e : string -> Env) now limit l : (forall t, quiet_env (e t)) -> NoDup (ss_settlement_id <$> l) -> forall confirmed,
  routed guarded any (fun K => Forall (fun st => has st K) l) (auto_confirm_all p sql_sum e now limit l confirmed) (fun _ => any).
Proof.
  intros Hq. induction l as [|st l IH]; intros Hnd confirmed; cbn [auto_confirm_all]; [by apply routed_ret|].
  cbn in Hnd. apply NoDup_cons in Hnd as [Hni Hnd]. specialize (IH Hnd).
  assert (Hskip : forall cf, routed guarded any (fun K => Forall (fun s => has s K) (st :: l)) (auto_confirm_all p sql_sum e now limit l cf) (fun _ => any)).
  { intros cf. eapply routed_weaken; [apply IH| |done]. intros K H. by apply Forall_cons in H as [_ ?]. }
  destruct (match limit with Some n => _ | None => _ end); [by apply routed_ret|]. destruct (auto_confirm_deadline st) as [d|]; [|apply Hskip].
  destruct (now <? d); [apply Hskip|]. apply (routed_bind _ _ _ _ (fun _ K => Forall (fun s => has s K) l)); [|intros ok; apply IH].
  intros w K _ [Hst Hl]%Forall_cons HK. set (F := fun K : gmap string Core => Forall (fun s => has s K) l).
  assert (Hig : ignores F (ss_settlement_id st)).
  { intros K0 c HF. apply Forall_forall. intros x Hx. unfold has. rewrite lookup_insert_ne; [by eapply Forall_forall in HF|].
    intros E. apply Hni. rewrite E. by apply list_elem_of_fmap_2. }
  pose proof (routed_release F (e (ss_task_id st)) system_request st (Hq _) Hig w K Hl Hst HK) as H. unfold m_catch, m_bind.
  destruct (auto_confirm_release _ _ _ _ _ w) as [[st'|er] w1].
  - destruct H as (K1 & R1 & F1 & S1 & _). exists K1. by split_and!.
  - destruct H as (K1 & R1 & F1 & T1). exists K1. split_and!; [done|done|by split|done].
Qed.

Lemma served_tick (e : string -> Env) now limit : (forall t, quiet_env (e t)) -> served any (auto_confirm_expired_settlements p sql_sum e now limit).
Proof.
  intros Hq w K _ HK. unfold auto_confirm_expired_settlements, m_bind, on_session, zoom. rewrite on_settle_eq.
  pose proof (list_read K _ DELIVERED (proj2 HK)) as Hl. destruct (list_by_status DELIVERED _) as [[l|er] db']; cbn [fst snd].
  - destruct Hl as (-> & Hh & Hnd). match goal with |- context [auto_confirm_all _ _ _ _ _ _ _ ?w1] => set (w' := w1) end.
    assert (S' : rsteady K w') by (by destruct HK).
    exact (served_routed _ _ _ (routed_tick e now limit l Hq Hnd []) w' K Hh S').
  - exists K. split; [done|apply HK].
Qed.

(** ** Runs *)

Inductive route_op : Type :=
| OpCreate (e : Env (G := G)) (q : Request) (sid : string) (b : CreateBody)
| OpPending (e : Env (G := G)) (q : Request) (t : string)
| OpLock (e : Env (G := G)) (q : Request) (t w : string) (wp : option string)
| OpStart (e : Env (G := G)) (q : Request) (t : string)
| OpSubmit (e : Env (G := G)) (q : Request) (t : string)
| OpFail (e : Env (G := G)) (q : Request) (t : string)
| OpPartial (e : Env (G := G)) (q : Request) (t : string) (x : float) (reason : option string)
| OpRegret (e : Env (G := G)) (q : Request) (t : string) (b reason : option string)
| OpDispute (e : Env (G := G)) (q : Request) (t : string) (reason code : option string)
| OpReject (e : Env (G := G)) (q : Request) (t code : string) (reason : option string)
| OpAccept (e : Env (G := G)) (q : Request) (t : string) (scene : option string)
| OpAutoConfirm (e : Env (G := G)) (q : Request) (t : string)
| OpArbitrate (e : Env (G := G)) (q : Request) (t : string)
| OpTick (e : string -> Env (G := G)) (now : Z) (limit : option nat).

Definition discard {A} (c : RM A) : RM unit := seq! c in m_ret tt.
Definition route_result (o : route_op) : RM unit :=
  match o with
  | OpCreate e q sid b => discard (create_settlement p sql_sum e q sid b)
  | OpPending e q t => discard (mark_settlement_pending p sql_sum e q t)
  | OpLock e q t x wp => discard (lock_settlement p sql_sum e q t x wp)
  | OpStart e q t => discard (start_settlement p sql_sum e q t)
  | OpSubmit e q t => discard (submit_settlement p sql_sum e q t)
  | OpFail e q t => discard (fail_settlement p sql_sum e q t)
  | OpPartial e q t x r => discard (partial_settlement p sql_sum fmt2 e q t x r)
  | OpRegret e q t b r => discard (regret_settlement p sql_sum fmt2 e q t b r)
  | OpDispute e q t r c => discard (open_dispute p sql_sum e q t r c)
  | OpReject e q t c r => discard (buyer_reject_settlement p sql_sum e q t c r)
  | OpAccept e q t s => discard (buyer_accept_settlement p sql_sum e q t s)
  | OpAutoConfirm e q t => discard (auto_confirm_settlement p sql_sum e q t)
  | OpArbitrate e q t => discard (auto_arbitrate p sql_sum digest e q t)
  | OpTick e now limit => discard (auto_confirm_expired_settlements p sql_sum e now limit)
  end.
Definition run_route_op (o : route_op) (w : RWorld G) : RWorld G := exec (route_request (route_result o)) w.
Definition run_routes (os : list route_op) (w : RWorld G) : RWorld G := fold_left (fun w o => run_route_op o w) os w.

Definition op_quiet (o : route_op) : Prop :=
  match o with
  | OpCreate e _ _ _ | OpPending e _ _ | OpLock e _ _ _ _ | OpStart e _ _ | OpSubmit e _ _ | OpFail e _ _
  | OpPartial e _ _ _ _ | OpRegret e _ _ _ _ | OpDispute e _ _ _ _ | OpReject e _ _ _ _ | OpAccept e _ _ _
  | OpAutoConfirm e _ _ | OpArbitrate e _ _ => quiet_env e
  | OpTick e _ _ => forall t, quiet_env (e t)
  end.

Lemma served_discard {A} Pre (c : RM A) : served Pre c -> served Pre (discard c).
Proof. intros Hc w K HP HK. specialize (Hc w K HP HK). unfold discard, m_bind. by destruct (c w) as [[a|e] w']. Qed.

Lemma op_flow o w K : op_quiet o -> rsteady K w -> exists K', rtc (flow guarded) K K' /\ rsteady K' (run_route_op o w).
Proof.
  intros Hq HK. unfold run_route_op. apply served_request; [|done]. destruct o; cbn [route_result op_quiet] in *; apply served_discard;
    eauto using served_create, served_lock, served_fail, served_submit, served_partial, served_regret, served_dispute,
      served_reject, served_accept, served_auto_confirm, served_arbitrate, served_tick.
  all: eapply served_routed, served_step; [apply Hq|done|done].
Qed.

(** C8. Active settlements never form a payment cycle: with the guard switched on, from tables
    without a cycle, no sequence of requests and ticks, whatever their outcome and whatever
    the chain does to other columns, leads to a chain of settlements in progress along which
    a buyer pays a worker, who pays another, back to the buyer. *)
Theorem no_payment_cycle os w K : guarded = true -> Forall op_quiet os -> rsteady K w -> acyclic (pays K) ->
  exists K', rsteady K' (run_routes os w) /\ acyclic (pays K').
Proof.
  intros Hg Hos. unfold run_routes. revert w K. induction Hos as [|o os Ho _ IH]; intros w K HK Ha; [by exists K|].
  destruct (op_flow o w K Ho HK) as (K1 & R1 & S1). rewrite Hg in R1. apply (IH _ K1 S1).
  by apply (flows_acyclic K); [eapply table_one_per_task, HK| |].
Qed.

(** ** Who may act *)

(** The program returns only from tables in which [P] holds. *)
Definition acts {A} (P : gmap string Core -> Prop) (c : RM A) : Prop :=
  forall w K a w', rsteady K w -> c w = (Ok a, w') -> P K.

Lemma acts_still {A B} P (c : RM A) (k : A -> RM B) : still c -> (forall a, acts P (k a)) -> acts P (m_bind c k).
Proof.
  intros Hc Hk w K b w' HK Hr. apply m_bind_ok in Hr as (a & w1 & H1 & H2).
  apply (still_steady c w K) in HK as Hc'; [|done]. unfold exec in Hc'. rewrite H1 in Hc'. clear Hc. rename Hc' into Hc. exact (Hk a w1 K b w' Hc H2).
Qed.
Lemma acts_first {A B} P (c : RM A) (k : A -> RM B) : acts P c -> acts P (m_bind c k).
Proof. intros Hc w K b w' HK Hr. apply m_bind_ok in Hr as (a & w1 & H1 & _). exact (Hc w K a w1 HK H1). Qed.
Lemma acts_lift {A B} P (c : result Exc A) (k : A -> RM B) : (forall a K, c = Ok a -> P K) -> acts P (m_bind (lift c) k).
Proof. intros HP w K b w' _ Hr. apply m_bind_ok in Hr as (a & w1 & H1 & _). apply lift_ok in H1 as [H1 _]. by eapply HP. Qed.

(** The settlement of the task, read and checked. *)
Lemma acts_party {B} P t (check : SettlementState -> result Exc unit) (k : SettlementState -> RM B) :
  (forall st K, has st K -> ss_task_id st = t -> check st = Ok tt -> P K) ->
  acts P (do! st := settlement_of t in seq! lift (check st) in k st).
Proof.
  intros HP w K b w' HK Hr. apply m_bind_ok in Hr as (st & w1 & H1 & H2).
  pose proof (routed_settlement false any any t w K I I HK) as Hs. rewrite H1 in Hs. destruct Hs as (K1 & R1 & _ & S1 & _ & Hh & Ht).
  apply m_bind_ok in H2 as (u & w2 & H2 & _). apply lift_ok in H2 as [H2 _]. destruct u.
  assert (K1 = K) as ->; [|by eapply HP].
  assert (E : r_session w1 = set_working (working (r_session w1)) (r_session w)).
  { clear - H1. unfold settlement_of, m_bind, on_session, zoom in H1. rewrite on_settle_eq in H1.
    destruct (get _ _) as [[[x|]|?] d]; cbn in H1; try done. by injection H1 as _ <-. }
  destruct S1 as [[_ S1] _], HK as [[_ HK] _]. rewrite E in S1. cbn in S1. congruence.
Qed.

Definition is_buyer (q : Request) (t : string) (K : gmap string Core) : Prop :=
  exists i c a, K !! i = Some c /\ co_task c = t /\ rq_actor q = Some a /\ a = co_client c.
Definition is_worker (q : Request) (t : string) (K : gmap string Core) : Prop :=
  exists i c a, K !! i = Some c /\ co_task c = t /\ rq_actor q = Some a /\ co_worker c = Some a.

Lemma actor_named q a : require_actor q = Ok a -> rq_actor q = Some a.
Proof. unfold require_actor, str_or. destruct (rq_actor q) as [x|]; [|done]. case_decide; [done|]. by intros [= ->]. Qed.

Hypothesis binding : party_binding_active p = true.

Lemma buyer_check q t st K : has st K -> ss_task_id st = t -> require_buyer p q st = Ok tt -> is_buyer q t K.
Proof.
  intros Hh Ht. unfold require_buyer. rewrite binding. cbn [negb]. destruct (require_actor q) as [a|] eqn:Ha; [|done]. cbn.
  case_decide as E; [|done]. intros _. exists (ss_settlement_id st), (core_of st), a. split_and!; [done|done|by apply actor_named|done].
Qed.
Lemma worker_check q t st K : has st K -> ss_task_id st = t -> require_worker p q st = Ok tt -> is_worker q t K.
Proof.
  intros Hh Ht. unfold require_worker. rewrite binding. cbn [negb]. destruct (require_actor q) as [a|] eqn:Ha; [|done]. cbn.
  destruct (ss_worker_agent_id st) as [x|] eqn:Hx; [|done]. unfold str_or. case_decide; [done|]. case_decide as E; [|done]. intros _. subst x.
  exists (ss_settlement_id st), (core_of st), a. split_and!; [done|done|by apply actor_named|done].
Qed.
Lemma party_check q t st K : has st K -> ss_task_id st = t -> require_buyer_or_worker p q st = Ok tt -> is_buyer q t K \/ is_worker q t K.
Proof.
  intros Hh Ht. unfold require_buyer_or_worker. rewrite binding. cbn [negb]. destruct (require_actor q) as [a|] eqn:Ha; [|done]. cbn.
  case_decide as E; [|case_decide as E2; [|done]]; intros _; [left|right]; exists (ss_settlement_id st), (core_of st), a;
    (split_and!; [done|done|by apply actor_named|]); [done|].
  unfold str_or in E2. destruct (ss_worker_agent_id st) as [x|] eqn:Hx; [|done]. case_decide; [done|]. cbn. congruence.
Qed.

(** Who has to ask for what. *)
Definition entitled (o : route_op) (K : gmap string Core) : Prop :=
  match o with
  | OpCreate e q _ b => rq_actor q = Some (cb_client b)
  | OpPending _ q t | OpLock _ q t _ _ | OpPartial _ q t _ _ | OpRegret _ q t _ _ | OpDispute _ q t _ _
  | OpReject _ q t _ _ | OpAccept _ q t _ => is_buyer q t K
  | OpStart _ q t | OpSubmit _ q t => is_worker q t K
  | OpFail _ q t | OpAutoConfirm _ q t | OpArbitrate _ q t => is_buyer q t K \/ is_worker q t K
  | OpTick _ _ _ => True
  end.

(** C9. With party checks on, a settlement request succeeds only for the party it belongs to: the
    buyer of the settlement's row creates, opens, locks, pays, regrets, disputes, rejects and
    accepts; its worker starts and submits; cancelling, confirming after the window and
    automatic arbitration take either. *)
Theorem only_parties_act o w K w' : rsteady K w -> route_result o w = (Ok tt, w') -> entitled o K.
Proof.
  intros HK Hr. revert w K w' HK Hr. enough (H : acts (entitled o) (route_result o)) by (intros w K w'; apply H).
  assert (Hstep : forall P e q t party gate edit target reason, (forall st K, has st K -> ss_task_id st = t -> party q st = Ok tt -> P K) ->
    acts P (step_route sql_sum e q t party gate edit target reason)).
  { intros. unfold step_route. do 3 (apply acts_still; [auto with route_still|intros _]). by apply acts_party. }
  destruct o as [e q sid b|e q t|e q t x wp|e q t|e q t|e q t|e q t x r|e q t b r|e q t r c|e q t c r|e q t s|e q t|e q t|e now l];
    cbn [route_result entitled]; apply acts_first.
  - unfold create_settlement. do 6 (apply acts_still; [auto with route_still|intros _]). apply acts_lift. intros [] K.
    unfold require_buyer_on_create. rewrite binding. cbn [negb]. destruct (require_actor q) as [a|] eqn:Ha; [|done]. cbn.
    case_decide; [|done]. intros _. subst a. by apply actor_named.
  - apply Hstep. intros st K. apply buyer_check.
  - unfold lock_settlement. do 4 (apply acts_still; [auto with route_still|intros _]). apply acts_party. intros st K. apply buyer_check.
  - apply Hstep. intros st K. apply worker_check.
  - unfold submit_settlement. apply acts_first, Hstep. intros st K. apply worker_check.
  - unfold fail_settlement. apply acts_first, Hstep. intros st K. apply party_check.
  - unfold partial_settlement. do 3 (apply acts_still; [auto with route_still|intros _]). apply acts_party. intros st K. apply buyer_check.
  - unfold regret_settlement. do 3 (apply acts_still; [auto with route_still|intros _]). apply acts_party. intros st K. apply buyer_check.
  - unfold open_dispute. apply acts_still; [auto with route_still|intros _]. apply acts_party. intros st K. apply buyer_check.
  - unfold buyer_reject_settlement. apply acts_still; [auto with route_still|intros _]. apply acts_party. intros st K. apply buyer_check.
  - unfold buyer_accept_settlement. apply acts_still; [auto with route_still|intros _]. apply acts_party. intros st K. apply buyer_check.
  - unfold auto_confirm_settlement. apply acts_still; [auto with route_still|intros _]. apply acts_party. intros st K. apply party_check.
  - unfold auto_arbitrate. apply acts_still; [auto with route_still|intros _]. apply acts_party. intros st K. apply party_check.
  - by intros w K a w' _ _.
Qed.
End Served.

(** ** No receipt, no payment *)

Section Receipts.
Context {G : Type} (p : RoutePolicy) (sql_sum : list float -> float) (digest : Receipt -> string) (fmt2 : float -> string).
Abbreviation RM := (M (RWorld G) Exc).

(** On the settlements [db] the program leaves the table as it is. *)
Definition spares {A} (db : SettlementDB) (c : RM A) : Prop :=
  forall w, t_settle (working (r_session w)) = db -> same_settlements w (exec c w).

Lemma spares_of_still {A} db (c : RM A) : still c -> spares db c.
Proof. intros Hc w _. apply Hc. Qed.
Lemma spares_still {A B} db (c : RM A) (k : A -> RM B) : still c -> (forall a, spares db (k a)) -> spares db (m_bind c k).
Proof.
  intros Hc Hk w Hw. specialize (Hc w). unfold exec, m_bind in *. destruct (c w) as [[a|e] w1]; [|done]. destruct Hc as [E1 E2]. cbn in E1, E2.
  destruct (Hk a w1) as [E3 E4]; [congruence|]. unfold exec in *. split; cbn in *; congruence.
Qed.
Lemma spares_lift {A B} db (c : result Exc A) (k : A -> RM B) : (forall a, c = Ok a -> spares db (k a)) -> spares db (m_bind (lift c) k).
Proof. intros Hk w Hw. unfold exec, m_bind, lift. destruct c as [a|e]; [by apply (Hk a)|done]. Qed.
Lemma spares_settlement {B} db t (k : SettlementState -> RM B) :
  (forall st, outcome (get t) db = Ok (Some st) -> spares db (k st)) -> spares db (m_bind (settlement_of t) k).
Proof.
  intros Hk w Hw. unfold exec, m_bind at 1, settlement_of. unfold m_bind at 1, on_session, zoom. rewrite on_settle_eq, Hw.
  pose proof (get_reads t db) as Es. unfold outcome in Hk. destruct (get t db) as [[[st|]|e] db']; cbn [fst snd] in *; subst db'; [|by split..].
  unfold m_ret. cbv beta iota. match goal with |- context [k st ?w1] => destruct (Hk st eq_refl w1 eq_refl) as [E1 E2] end. split; [exact E1|]. rewrite Hw. exact E2.
Qed.
Lemma spares_raise {A} db e : spares db (m_raise (A := A) e).
Proof. done. Qed.

#[local] Ltac spare :=
  repeat lazymatch goal with
  | |- spares _ (m_bind (lift (ensure_success_receipt _ _ _)) _) => fail
  | |- spares _ (m_bind (lift (split_amounts _ _ _)) _) => fail
  | |- _ => apply spares_still; [solve [auto with route_still]|intros ?]
  end.

Hypothesis receipt_rule : settlement_requires_success_receipt p = true.

Lemma receipt_refuses e settled : existsb rc_success (e_receipts e) = false -> (settled <=? f1em6)%float = false ->
  ensure_success_receipt p (e_receipts (G := G) e) settled <> Ok tt.
Proof. intros Hr Hs. unfold ensure_success_receipt. by rewrite receipt_rule, Hs, Hr. Qed.

(** C35. A settlement whose seller would get more than a millionth is not touched while no
    execution receipt of its task succeeded: with the receipt rule on, accepting, splitting and
    regretting leave the committed and the open table of settlements as they were. *)
Theorem unpaid_without_receipt (e : Env (G := G)) q t w st : existsb rc_success (e_receipts e) = false ->
  outcome (get t) (t_settle (working (r_session w))) = Ok (Some st) ->
  ((ss_escrow_amount st <=? f1em6)%float = false -> forall scene,
     same_settlements w (exec (buyer_accept_settlement p sql_sum e q t scene) w)) /\
  (forall percent ab reason, split_amounts (route_decimals p) (ss_escrow_amount st) percent = Ok ab ->
     (fst ab <=? f1em6)%float = false -> same_settlements w (exec (partial_settlement p sql_sum fmt2 e q t percent reason) w)) /\
  (forall ab buyer reason, split_amounts (route_decimals p) (ss_escrow_amount st) (confirmed_progress_percent e) = Ok ab ->
     (fst ab <=? f1em6)%float = false -> same_settlements w (exec (regret_settlement p sql_sum fmt2 e q t buyer reason) w)).
Proof.
  intros Hr Hst. set (db := t_settle (working (r_session w))) in *.
  assert (Hno : forall A settled (k : unit -> RM A), (settled <=? f1em6)%float = false ->
    spares db (m_bind (lift (ensure_success_receipt p (e_receipts e) settled)) k)).
  { intros A settled k Hs. apply spares_lift. intros [] E. by destruct (receipt_refuses e settled Hr Hs). }
  split_and!.
  - intros Hs scene. refine ((_ : spares db _) w eq_refl). unfold buyer_accept_settlement.
    spare. apply spares_settlement. intros st0 H0. rewrite Hst in H0. injection H0 as <-. spare. case_decide; [apply spares_raise|]. spare. apply Hno.
    destruct (str_or _ _); [destruct (spec_missing _)|]; exact Hs.
  - intros percent ab reason Hab Hs. refine ((_ : spares db _) w eq_refl). unfold partial_settlement.
    spare. apply spares_settlement. intros st0 H0. rewrite Hst in H0. injection H0 as <-. spare. apply spares_lift. intros [x y] Hxy. rewrite Hab in Hxy. injection Hxy as ->. cbn in Hs.
    case_decide; [case_match; done|]. case_match; [done|]. spare. by apply Hno.
  - intros ab buyer reason Hab Hs. refine ((_ : spares db _) w eq_refl). unfold regret_settlement.
    spare. apply spares_settlement. intros st0 H0. rewrite Hst in H0. injection H0 as <-. spare. case_match; [done|]. apply spares_lift. intros [x y] Hxy. rewrite Hab in Hxy. injection Hxy as ->.
    by apply Hno.
Qed.
End Receipts.

(** ** Concrete runs *)

Definition demo_route_policy : RoutePolicy :=
  {| settlement_require_party_actor := true; auth_enforce_protected_routes := true;
     settlement_block_buyer_worker_payment_cycle := true; settlement_lock_requires_pending := false;
     settlement_confirm_window_hours := 24; settlement_requires_success_receipt := true; route_decimals := 6;
     route_settlement_mode := "offchain"; route_chain_id := 1; route_contract := None; route_escrow_enabled := false;
     route_onchain := false |}.
Definition demo_route_env (now : Z) (receipts : list Receipt) (delivery : SettlementState -> result Exc unit) : Env (G := unit) :=
  {| e_now := now; e_db_ok := Ok tt; e_spend := Ok tt; e_delivery := delivery; e_confirm := fun _ => Ok tt; e_auto := fun _ => true;
     e_preflight := Ok tt; e_progress := []; e_receipts := receipts; e_bundle := None; e_profile := fun _ g => Ok g; e_after := fun _ g => Ok g; e_attest := None;
     e_chain := fun _ _ _ => m_ret tt; e_restore := true |}.
Definition asked_by (a : string) : Request := {| rq_actor := Some a; rq_agent := Some a; rq_path := "/v1/settlement" |}.
Definition demo_no_fmt (_ : float) : string := "".
Definition demo_no_digest (_ : Receipt) : string := "".

(** A settlement between two parties, and a world that holds some, with the buyer's credits. *)
Definition order (i client : string) (worker : option string) (st : TaskStatus) : SettlementState :=
  let s := demo_state st f100 in
  {| ss_settlement_id := "s-" +:+ i; ss_task_id := i; ss_escrow_amount := f100; ss_currency := ss_currency s; ss_status := st;
     ss_client_agent_id := client; ss_worker_agent_id := worker; ss_profile_id := None; ss_worker_profile_id := None;
     ss_released_amount := None; ss_refunded_amount := None; ss_dispute_reason := None; ss_rejection_reason_code := None;
     ss_arbitration_notes := None; ss_created_at := 0; ss_updated_at := 0; ss_released_at := None;
     ss_settlement_mode := "offchain"; ss_chain_id := None; ss_contract_address := None; ss_tx_hash := None;
     ss_evidence_bundle_hash := None; ss_onchain_status := None; ss_onchain_binding_id := None;
     ss_onchain_buyer_bill_id := None; ss_onchain_agent_bill_id := None; ss_quote_id := None; ss_voucher_id := None;
     ss_delivery_deadline_at := None; ss_confirm_window_hours := Some 24; ss_confirm_deadline_at := None;
     ss_progress_rule_spec := None; ss_funding_source := "internal" |}.
Definition stored (l : list SettlementState) : SettlementDB :=
  fold_left (fun db st => exec (save 0 st) db) l {| settlements := ∅; task_contracts := list_to_set (ss_task_id <$> l) |}.
Definition route_tables (l : list SettlementState) (reserved : float) : Tables (R := Rest unit) :=
  {| t_settle := stored l; t_caps := {[ "buyer"%string := demo_row fzero reserved fzero reserved reserved ]}; t_audits := [];
     t_rest := {| x_vouchers := ∅; x_profile_owner := ∅; x_v_events := []; x_graph := tt; x_quota := ∅; x_intents := [] |} |}.
Definition route_world (l : list SettlementState) (reserved : float) : RWorld unit :=
  {| r_session := {| committed := route_tables l reserved; working := route_tables l reserved; monitor := [] |};
     r_safety := fresh_world; r_outbox := [] |}.
Definition saved_status (t : string) (w : RWorld unit) : list string :=
  sr_status <$> rows_of_task t (t_settle (committed (r_session w))).
Definition saved_caps (w : RWorld unit) : option CapacityRow := t_caps (committed (r_session w)) !! "buyer"%string.
Definition ok_gate (_ : SettlementState) : result Exc unit := Ok tt.
Definition good_receipt : Receipt := {| rc_id := "r"; rc_step_index := 0; rc_success := true |}.
Definition demo_serve_op (o : route_op (G := unit)) (w : RWorld unit) : RWorld unit :=
  run_route_op demo_route_policy sum_left demo_no_digest demo_no_fmt o w.
Definition demo_answer (o : route_op (G := unit)) (w : RWorld unit) : result Exc unit :=
  outcome (route_request (route_result demo_route_policy sum_left demo_no_digest demo_no_fmt o)) w.
Definition day_later : Z := 25 * HOUR_US.

(** The release guard says that any path which credits the seller must show a successful
    receipt; confirming after the window credits the whole escrow without one. *)
Example auto_confirm_without_receipt :
  let w0 := route_world [order "t1" "buyer" (Some "seller"%string) DELIVERED] f100 in
  let e := demo_route_env day_later [] ok_gate in
  let w1 := demo_serve_op (OpAutoConfirm e (asked_by "seller") "t1") w0 in
  demo_answer (OpAccept e (asked_by "buyer") "t1" None) w0 =
    Err (HTTPException 409 "at least one successful execution receipt is required before releasing funds to the seller") /\
  demo_answer (OpAutoConfirm e (asked_by "seller") "t1") w0 = Ok tt /\ saved_status "t1" w1 = ["settled"%string] /\
  (burned_credits <$> saved_caps w1) = Some f100.
Proof. vm_compute. split_and!; reflexivity. Qed.

(** A payout is committed before the books are closed: when the buyer's credits no longer
    cover the escrow the request fails, the settlement stays settled, nothing is debited, and
    asking again is refused. *)
Example settled_but_not_debited :
  let w0 := route_world [order "t1" "buyer" (Some "seller"%string) DELIVERED] f50 in
  let o := OpAccept (demo_route_env 1 [good_receipt] ok_gate) (asked_by "buyer") "t1" None in
  let w1 := demo_serve_op o w0 in
  demo_answer o w0 = Err (HTTPException 409 "capacity total_bill_credits lower than settlement escrow amount") /\
  saved_status "t1" w1 = ["settled"%string] /\ saved_caps w1 = saved_caps w0 /\
  demo_answer o w1 = Err (HTTPException 409 "buyer accept requires delivered status").
Proof. vm_compute. split_and!; reflexivity. Qed.

(** The tick closes the books of one settlement in the transaction it shares with the next:
    when the next is held at the delivery gate, the rollback takes the debit of the first,
    which stays settled and is counted as confirmed. *)
Example tick_rollback_loses_books :
  let w0 := route_world [order "t1" "buyer" (Some "seller"%string) DELIVERED; order "t2" "buyer" (Some "seller"%string) DELIVERED] f200 in
  let e t := demo_route_env day_later [good_receipt]
    (fun _ => if decide (t = "t2"%string) then Err (HTTPException 409 "delivery not verified") else Ok tt) in
  let tick := auto_confirm_expired_settlements demo_route_policy sum_left e day_later None in
  let w1 := exec (route_request tick) w0 in
  outcome (route_request tick) w0 = Ok ["t1"%string] /\ saved_status "t1" w1 = ["settled"%string] /\
  saved_status "t2" w1 = ["delivered"%string] /\ saved_caps w1 = saved_caps w0.
Proof. vm_compute. split_and!; reflexivity. Qed.

(** Automatic arbitration commits its first step before it looks for a receipt: a disputed
    task without one is left arbitrated, and no second attempt gets further. *)
Example auto_arbitration_stuck :
  let w0 := route_world [order "t1" "buyer" (Some "seller"%string) DISPUTED] f100 in
  let o := OpArbitrate {| e_now := 1; e_db_ok := Ok tt; e_spend := Ok tt; e_delivery := ok_gate; e_confirm := fun _ => Ok tt;
     e_auto := fun _ => true; e_preflight := Ok tt; e_progress := [f50]; e_receipts := []; e_bundle := None;
     e_profile := fun _ g => Ok g; e_after := fun _ g => Ok g; e_attest := None; e_chain := fun _ _ _ => m_ret tt; e_restore := true |} (asked_by "buyer") "t1" in
  let w1 := demo_serve_op o w0 in
  demo_answer o w0 = Err (HTTPException 409
    "at least one successful execution receipt is required before releasing funds to the seller") /\
  saved_status "t1" w1 = ["arbitrated"%string] /\
  demo_answer o w1 = Err (HTTPException 409 "invalid status transition: arbitrated -> arbitrated").
Proof. vm_compute. split_and!; reflexivity. Qed.

(** A rejected chain step restores the status of the row, not the columns the route had
    edited with it: the worker of a lock that failed stays on the settlement. *)
Example rejected_lock_keeps_worker :
  let w0 := route_world [order "t1" "buyer" None PENDING] f100 in
  let e := demo_route_env 1 [] ok_gate in
  let o := OpLock {| e_now := 1; e_db_ok := Ok tt; e_spend := Ok tt; e_delivery := ok_gate; e_confirm := fun _ => Ok tt;
     e_auto := fun _ => true; e_preflight := Ok tt; e_progress := []; e_receipts := []; e_bundle := None;
     e_profile := fun _ g => Ok g; e_after := fun _ g => Ok g; e_attest := None;
     e_chain := fun _ _ _ => m_raise (HTTPException 502 "escrow unavailable"); e_restore := true |} (asked_by "buyer") "t1" "seller" None in
  let w1 := demo_serve_op o w0 in
  demo_answer o w0 = Err (HTTPException 502 "escrow unavailable") /\ saved_status "t1" w1 = ["pending"%string] /\
  sr_worker_agent_id <$> rows_of_task "t1" (t_settle (committed (r_session w1))) = [Some "seller"%string].
Proof. vm_compute. split_and!; reflexivity. Qed.

Lemma stored_wf l : db_wf (stored l).
Proof.
  unfold stored. match goal with |- db_wf (fold_left _ _ ?d) => assert (H : db_wf d) by (split; intros *; simpl; by rewrite lookup_empty); revert H; generalize d end.
  induction l as [|st l IH]; intros db H; [done|]. cbn. apply IH. eapply save_step_wf; [exact H|]. by exists 0, st.
Qed.
Lemma route_world_steady l x : rsteady (cores (stored l)) (route_world l x).
Proof. split; (split; [apply stored_wf|done]). Qed.
Lemma demo_quiet now rs gate : quiet_env (demo_route_env now rs gate).
Proof. by intros b st t s K HK. Qed.

(** Two orders that would form a cycle: the buyer pays the seller, who wants to hire the
    buyer. *)
Definition near_cycle_orders : list SettlementState :=
  [order "t1" "buyer" (Some "seller"%string) ACCEPTED; order "t2" "seller" None PENDING].
Definition near_cycle : RWorld unit :=
  route_world near_cycle_orders f100.
Definition near_cycle_ops : list (route_op (G := unit)) :=
  let e := demo_route_env 1 [] ok_gate in
  [OpLock e (asked_by "seller") "t2" "buyer" None; OpLock e (asked_by "seller") "t2" "carol" None].

Lemma no_payment_cycle_witness :
  demo_answer (OpLock (demo_route_env 1 [] ok_gate) (asked_by "seller") "t2" "buyer" None) near_cycle =
    Err (HTTPException 409 "locking this worker would close a directed payment cycle") /\
  exists K', rsteady K' (run_routes demo_route_policy sum_left demo_no_digest demo_no_fmt near_cycle_ops near_cycle) /\ acyclic (pays K').
Proof.
  split; [vm_compute; reflexivity|].
  apply (no_payment_cycle demo_route_policy sum_left demo_no_digest demo_no_fmt near_cycle_ops near_cycle
    (cores (stored near_cycle_orders))).
  - reflexivity.
  - do 2 (constructor; [apply demo_quiet|]). constructor.
  - apply route_world_steady.
  - assert (Hp : forall a b, pays (cores (stored near_cycle_orders)) a b ->
      a = "buyer"%string /\ b = "seller"%string).
    { intros a b (i & c & Hi & Hc). apply elem_of_map_to_list in Hi. set (l := map_to_list _) in Hi. vm_compute in l. subst l.
      apply list_elem_of_In in Hi. cbn in Hi. destruct Hi as [[= <- <-]|[[= <- <-]|[]]]; vm_compute in Hc; by simplify_eq. }
    assert (Ht : forall x y, tc (pays (cores (stored near_cycle_orders))) x y -> x = "buyer"%string /\ y = "seller"%string).
    { intros x y Hxy. induction Hxy as [x y H1|x y z H1 _ [_ IH]]; [by apply Hp|]. split; [apply (Hp _ _ H1)|done]. }
    intros x Hx. destruct (Ht x x Hx) as [-> ?]. done.
Defined.

Lemma cycle_guard_exact_witness :
  fst (assert_lock_does_not_close_payment_cycle demo_route_policy "t2" "seller" "buyer" near_cycle) =
    Err (HTTPException 409 "locking this worker would close a directed payment cycle").
Proof.
  destruct (cycle_guard_exact demo_route_policy "t2" "seller" "buyer" near_cycle) as [H _]; [reflexivity|].
  rewrite H; [reflexivity|discriminate|]. apply rtc_once.
  assert (Hl : on_edge (active_edges (Some "t2"%string) (t_settle (working (r_session near_cycle)))) "buyer" "seller").
  { unfold on_edge. apply list_elem_of_In. vm_compute. left. reflexivity. }
  apply owes_edges. exact Hl.
Defined.

Lemma only_parties_act_witness :
  let o := OpLock (demo_route_env 1 [] ok_gate) (asked_by "seller") "t2" "carol" None in
  entitled o (cores (stored near_cycle_orders)) /\
  demo_answer (OpLock (demo_route_env 1 [] ok_gate) (asked_by "buyer") "t2" "carol" None) near_cycle =
    Err (HTTPException 403 "only the settlement buyer may perform this action").
Proof.
  intros o. split; [|vm_compute; reflexivity].
  assert (Hr : outcome (route_result demo_route_policy sum_left demo_no_digest demo_no_fmt o) near_cycle = Ok tt) by (vm_compute; reflexivity).
  destruct (route_result demo_route_policy sum_left demo_no_digest demo_no_fmt o near_cycle) as [r w'] eqn:E.
  apply (only_parties_act demo_route_policy sum_left demo_no_digest demo_no_fmt eq_refl o near_cycle _ w').
  - apply route_world_steady.
  - rewrite E. unfold outcome in Hr. rewrite E in Hr. cbn in Hr. by rewrite Hr.
Defined.

Lemma unpaid_without_receipt_witness :
  let w0 := route_world [order "t1" "buyer" (Some "seller"%string) DELIVERED] f100 in
  same_settlements w0 (exec (buyer_accept_settlement demo_route_policy sum_left (demo_route_env 1 [] ok_gate) (asked_by "buyer") "t1" None) w0) /\
  saved_status "t1" (demo_serve_op (OpAccept (demo_route_env 1 [good_receipt] ok_gate) (asked_by "buyer") "t1" None) w0) = ["settled"%string].
Proof.
  intros w0. split; [|vm_compute; reflexivity].
  set (st := match outcome (get "t1") (t_settle (working (r_session w0))) with Ok (Some st) => st | _ => demo_accepted end).
  assert (Hg : outcome (get "t1") (t_settle (working (r_session w0))) = Ok (Some st)) by (vm_compute; reflexivity).
  assert (Hs : (ss_escrow_amount st <=? f1em6)%float = false) by (vm_compute; reflexivity). clearbody st.
  exact (proj1 (unpaid_without_receipt demo_route_policy sum_left demo_no_fmt eq_refl (demo_route_env 1 [] ok_gate) (asked_by "buyer") "t1" w0 st
    eq_refl Hg) Hs None).
Defined.
