(* ===== verification/EscrowContract.v ===== *)
(** * The allowance escrow contract

    karma-core/contracts/core/KarmaAllowanceEscrow.sol (version 5), the contract the Python
    services drive: bills that record what an owner has committed, bindings that reserve a
    price and a stake on two bills, and the windows that pay or slash.  Integers are
    uint256 with checked arithmetic, but for the counters of ids, which the contract increments
    unchecked from zero and which have no bound here; a transaction that reverts changes
    nothing.  The ERC-20 token is a parameter ([ERC20]) that does not call back.  Theorem: whatever calls are made by whomever, what a bill
    reserves is exactly what its live bindings reserve and never exceeds what it has left, so
    no release ever fails on an underflow. *)
From S2P Require Import Prelude.
Open Scope Z_scope.

(** ** Data *)

Inductive BillState := BILL_NONE | BILL_OPEN | BILL_CLOSED.
Inductive BindingState := NONE | ACTIVE | FINALIZING | SETTLED | SLASHED | CANCELLED | DISPUTED.
#[export] Instance BillState_eq_dec : EqDecision BillState.
Proof. solve_decision. Defined.
#[export] Instance BindingState_eq_dec : EqDecision BindingState.
Proof. solve_decision. Defined.

(** The numbers of the enumeration, as callers read them. *)
Definition BindingState_code (s : BindingState) : Z :=
  match s with
  | NONE => 0 | ACTIVE => 1 | FINALIZING => 2 | SETTLED => 3 | SLASHED => 4 | CANCELLED => 5 | DISPUTED => 6
  end.

Record Bill := {
  bl_owner : string;
  bl_operator : string;
  bl_token : string;
  bl_amount : Z;
  bl_reserved : Z;
  bl_spent : Z;
  bl_state : BillState
}.

Record Binding := {
  bi_buyer_bill : Z;
  bi_seller_bill : Z;
  bi_scope : string;
  bi_amount : Z;
  bi_stake : Z;
  bi_state : BindingState;
  bi_settle_after : Z;
  bi_proof : string;
  bi_confirmed : bool;
  bi_slash_armed : bool
}.

Inductive Revert :=
| TokenNotAllowed | ZeroAmount | ZeroAddress | NotBillOwner | NotBillOperator | WrongBillState
| InsufficientAllowance | InsufficientCommitment | TokenMismatch | SameOwner | UnknownBinding
| WrongBindingState | SettleDelayActive | NotSettlementParty | NotResolver | PullFailed
| CustodyViolation | ReservationActive | AlreadyConfirmed | IsFrozen | NotAdmin
| Panic.

(** What the contract uses of a token: the allowance given to it, a transfer that may revert
    or answer false, its own balance and that of an owner. *)
Class ERC20 (T : Type) := {
  token_allowance : T -> string -> string -> Z;
  token_transfer : T -> string -> string -> string -> Z -> option (bool * T);
  token_custody : T -> string -> Z;
  token_balance : T -> string -> string -> Z
}.

Record Contract {T : Type} := {
  k_bills : gmap Z Bill;
  k_bindings : gmap Z Binding;
  k_bill_counter : Z;
  k_binding_counter : Z;
  k_admin : string;
  k_resolver : string;
  k_window : Z;
  k_delay : Z;
  k_frozen : bool;
  k_tokens : gset string;
  k_erc20 : T
}.
Arguments Contract : clear implicits.

Section Escrow.
Context {T : Type} `{!ERC20 T}.
Abbreviation KM := (M (Contract T) Revert).

(** ** Machine integers *)

Definition MAX : Z := 2 ^ 256.
Definition uadd (a b : Z) : result Revert Z := if a + b <? MAX then Ok (a + b) else Err Panic.
Definition usub (a b : Z) : result Revert Z := if b <=? a then Ok (a - b) else Err Panic.

(** ** Access *)

Definition require (b : bool) (e : Revert) : KM unit := if b then m_ret tt else m_raise e.
Definition put_bill (i : Z) (b : Bill) : KM unit :=
  m_put (fun k => {| k_bills := <[i := b]> (k_bills k); k_bindings := k_bindings k; k_bill_counter := k_bill_counter k;
                     k_binding_counter := k_binding_counter k; k_admin := k_admin k; k_resolver := k_resolver k;
                     k_window := k_window k; k_delay := k_delay k; k_frozen := k_frozen k; k_tokens := k_tokens k;
                     k_erc20 := k_erc20 k |}).
Definition put_binding (i : Z) (b : Binding) : KM unit :=
  m_put (fun k => {| k_bills := k_bills k; k_bindings := <[i := b]> (k_bindings k); k_bill_counter := k_bill_counter k;
                     k_binding_counter := k_binding_counter k; k_admin := k_admin k; k_resolver := k_resolver k;
                     k_window := k_window k; k_delay := k_delay k; k_frozen := k_frozen k; k_tokens := k_tokens k;
                     k_erc20 := k_erc20 k |}).
Definition put_counters (bills bindings : Z) : KM unit :=
  m_put (fun k => {| k_bills := k_bills k; k_bindings := k_bindings k; k_bill_counter := bills;
                     k_binding_counter := bindings; k_admin := k_admin k; k_resolver := k_resolver k;
                     k_window := k_window k; k_delay := k_delay k; k_frozen := k_frozen k; k_tokens := k_tokens k;
                     k_erc20 := k_erc20 k |}).
Definition put_erc20 (t : T) : KM unit :=
  m_put (fun k => {| k_bills := k_bills k; k_bindings := k_bindings k; k_bill_counter := k_bill_counter k;
                     k_binding_counter := k_binding_counter k; k_admin := k_admin k; k_resolver := k_resolver k;
                     k_window := k_window k; k_delay := k_delay k; k_frozen := k_frozen k; k_tokens := k_tokens k;
                     k_erc20 := t |}).
Definition put_config (resolver : string) (window delay : Z) (frozen : bool) (tokens : gset string) : KM unit :=
  m_put (fun k => {| k_bills := k_bills k; k_bindings := k_bindings k; k_bill_counter := k_bill_counter k;
                     k_binding_counter := k_binding_counter k; k_admin := k_admin k; k_resolver := resolver;
                     k_window := window; k_delay := delay; k_frozen := frozen; k_tokens := tokens; k_erc20 := k_erc20 k |}).

(** An entry that was never written reads as zeros. *)
Definition no_bill : Bill :=
  {| bl_owner := ""; bl_operator := ""; bl_token := ""; bl_amount := 0; bl_reserved := 0; bl_spent := 0; bl_state := BILL_NONE |}.
Definition bill_of (i : Z) : KM Bill := m_get (fun k => default no_bill (k_bills k !! i)).
Definition require_open_bill (i : Z) : KM Bill :=
  do! b := bill_of i in seq! require (bool_decide (bl_state b = BILL_OPEN)) WrongBillState in m_ret b.
Definition require_binding (i : Z) : KM Binding :=
  do! b := m_get (fun k => k_bindings k !! i) in
  match b with
  | None => m_raise UnknownBinding
  | Some b => m_ret b
  end.

Definition can_act (b : Bill) (who : string) : bool :=
  bool_decide (who = bl_owner b) || (negb (bool_decide (bl_operator b = ""%string)) && bool_decide (who = bl_operator b)).

Definition set_reserved (b : Bill) (reserved : Z) : Bill :=
  {| bl_owner := bl_owner b; bl_operator := bl_operator b; bl_token := bl_token b; bl_amount := bl_amount b;
     bl_reserved := reserved; bl_spent := bl_spent b; bl_state := bl_state b |}.
Definition set_spent (b : Bill) (spent : Z) : Bill :=
  {| bl_owner := bl_owner b; bl_operator := bl_operator b; bl_token := bl_token b; bl_amount := bl_amount b;
     bl_reserved := bl_reserved b; bl_spent := spent;
     bl_state := if bl_amount b <=? spent then BILL_CLOSED else bl_state b |}.
Definition set_binding_state (b : Binding) (s : BindingState) : Binding :=
  {| bi_buyer_bill := bi_buyer_bill b; bi_seller_bill := bi_seller_bill b; bi_scope := bi_scope b; bi_amount := bi_amount b;
     bi_stake := bi_stake b; bi_state := s; bi_settle_after := bi_settle_after b; bi_proof := bi_proof b;
     bi_confirmed := bi_confirmed b; bi_slash_armed := bi_slash_armed b |}.
Definition open_window_on (b : Binding) (slash : bool) (proof : string) (after : Z) : Binding :=
  {| bi_buyer_bill := bi_buyer_bill b; bi_seller_bill := bi_seller_bill b; bi_scope := bi_scope b; bi_amount := bi_amount b;
     bi_stake := bi_stake b; bi_state := FINALIZING; bi_settle_after := after; bi_proof := proof;
     bi_confirmed := bi_confirmed b; bi_slash_armed := slash |}.
Definition set_confirmed (b : Binding) : Binding :=
  {| bi_buyer_bill := bi_buyer_bill b; bi_seller_bill := bi_seller_bill b; bi_scope := bi_scope b; bi_amount := bi_amount b;
     bi_stake := bi_stake b; bi_state := bi_state b; bi_settle_after := bi_settle_after b; bi_proof := bi_proof b;
     bi_confirmed := true; bi_slash_armed := bi_slash_armed b |}.

(** ** Commitments *)

Definition commit (sender token : string) (amount : Z) (operator : string) : KM Z :=
  do! k := m_get id in
  seq! require (negb (k_frozen k)) IsFrozen in
  seq! require (bool_decide (token ∈ k_tokens k)) TokenNotAllowed in
  seq! require (negb (amount =? 0)) ZeroAmount in
  seq! require (amount <=? token_allowance (k_erc20 k) token sender) InsufficientAllowance in
  let i := (k_bill_counter k + 1) in
  seq! put_counters i (k_binding_counter k) in
  seq! put_bill i {| bl_owner := sender; bl_operator := operator; bl_token := token; bl_amount := amount;
                     bl_reserved := 0; bl_spent := 0; bl_state := BILL_OPEN |} in
  m_ret i.

Definition setOperator (sender : string) (i : Z) (operator : string) : KM unit :=
  do! b := require_open_bill i in
  seq! require (bool_decide (bl_owner b = sender)) NotBillOwner in
  put_bill i {| bl_owner := bl_owner b; bl_operator := operator; bl_token := bl_token b; bl_amount := bl_amount b;
                bl_reserved := bl_reserved b; bl_spent := bl_spent b; bl_state := bl_state b |}.

Definition revoke (sender : string) (i : Z) : KM unit :=
  do! b := require_open_bill i in
  seq! require (bool_decide (bl_owner b = sender)) NotBillOwner in
  seq! require (bl_reserved b =? 0) ReservationActive in
  seq! lift (usub (bl_amount b) (bl_spent b)) in
  put_bill i {| bl_owner := bl_owner b; bl_operator := bl_operator b; bl_token := bl_token b; bl_amount := bl_amount b;
                bl_reserved := bl_reserved b; bl_spent := bl_spent b; bl_state := BILL_CLOSED |}.

(** ** Binding *)

Definition room (b : Bill) : result Revert Z := let? x := usub (bl_amount b) (bl_reserved b) in usub x (bl_spent b).

Definition bind (sender : string) (now buyer seller : Z) (scope : string) (amount stake : Z) : KM Z :=
  do! k := m_get id in
  seq! require (negb (k_frozen k)) IsFrozen in
  do! bb := bill_of buyer in
  do! sb := bill_of seller in
  seq! require (bool_decide (bl_state bb = BILL_OPEN)) WrongBillState in
  seq! require (bool_decide (bl_state sb = BILL_OPEN)) WrongBillState in
  seq! require (can_act bb sender) NotBillOperator in
  seq! require (bool_decide (bl_token bb = bl_token sb)) TokenMismatch in
  seq! require (negb (bool_decide (bl_owner bb = bl_owner sb))) SameOwner in
  seq! require (negb (amount =? 0)) ZeroAmount in
  seq! require (negb (stake =? 0)) ZeroAmount in
  do! have := lift (room bb) in
  seq! require (amount <=? have) InsufficientCommitment in
  do! have := lift (room sb) in
  seq! require (stake <=? have) InsufficientCommitment in
  do! r := lift (uadd (bl_reserved bb) amount) in
  seq! put_bill buyer (set_reserved bb r) in
  do! r := lift (uadd (bl_reserved sb) stake) in
  seq! put_bill seller (set_reserved sb r) in
  let i := (k_binding_counter k + 1) in
  do! after := lift (uadd now (k_delay k)) in
  seq! put_counters (k_bill_counter k) i in
  seq! put_binding i {| bi_buyer_bill := buyer; bi_seller_bill := seller; bi_scope := scope; bi_amount := amount; bi_stake := stake;
                        bi_state := ACTIVE; bi_settle_after := after; bi_proof := ""; bi_confirmed := false; bi_slash_armed := false |} in
  m_ret i.

(** Give back what the binding reserves on the bill [i]. *)
Definition release (i n : Z) : KM unit :=
  do! b := bill_of i in
  do! r := lift (usub (bl_reserved b) n) in
  put_bill i (set_reserved b r).

Definition cancelBinding (sender : string) (i : Z) : KM unit :=
  do! b := require_binding i in
  do! k := m_get id in
  seq! require (if decide (bi_state b = DISPUTED) then bool_decide (sender = k_resolver k) else bool_decide (bi_state b = ACTIVE))
         WrongBindingState in
  do! bb := bill_of (bi_buyer_bill b) in
  do! sb := bill_of (bi_seller_bill b) in
  seq! require (can_act bb sender || can_act sb sender || bool_decide (sender = k_resolver k)) NotSettlementParty in
  seq! release (bi_buyer_bill b) (bi_amount b) in
  seq! release (bi_seller_bill b) (bi_stake b) in
  put_binding i (set_binding_state b CANCELLED).

Definition markDisputed (sender : string) (i : Z) : KM unit :=
  do! b := require_binding i in
  do! k := m_get id in
  seq! require (bool_decide (bi_state b = ACTIVE)) WrongBindingState in
  seq! require (bool_decide (sender = k_resolver k)) NotResolver in
  put_binding i (set_binding_state b DISPUTED).

Definition buyerConfirm (sender : string) (i : Z) : KM unit :=
  do! b := require_binding i in
  seq! require (bool_decide (bi_state b = FINALIZING)) WrongBindingState in
  seq! require (negb (bi_slash_armed b)) WrongBindingState in
  do! bb := bill_of (bi_buyer_bill b) in
  seq! require (can_act bb sender) NotSettlementParty in
  seq! require (negb (bi_confirmed b)) AlreadyConfirmed in
  put_binding i (set_confirmed b).

(** ** Windows *)

Definition submit (slash : bool) (sender : string) (now i : Z) (proof : string) : KM Z :=
  do! b := require_binding i in
  do! k := m_get id in
  seq! require (bool_decide (bi_state b = ACTIVE) || bool_decide (bi_state b = DISPUTED) || bool_decide (bi_state b = FINALIZING))
         WrongBindingState in
  seq! require (bool_decide (sender = k_resolver k)) NotResolver in
  seq! require (bi_settle_after b <=? now) SettleDelayActive in
  do! after := lift (uadd now (k_window k)) in
  seq! put_binding i (open_window_on b slash proof after) in
  m_ret after.
Definition submitSettlement : string -> Z -> Z -> string -> KM Z := submit false.
Definition submitBreach : string -> Z -> Z -> string -> KM Z := submit true.

Definition pull (token from to_ : string) (amount : Z) : KM unit :=
  do! k := m_get id in
  seq! require (amount <=? token_allowance (k_erc20 k) token from) InsufficientAllowance in
  match token_transfer (k_erc20 k) token from to_ amount with
  | None => m_raise PullFailed
  | Some (ok, t) =>
      seq! require ok PullFailed in
      seq! require (token_custody t token =? 0) CustodyViolation in
      put_erc20 t
  end.

(** [n] of the reservation on bill [i] is spent. *)
Definition spend (i n : Z) : KM unit :=
  do! b := bill_of i in
  do! r := lift (usub (bl_reserved b) n) in
  do! s := lift (uadd (bl_spent b) n) in
  put_bill i (set_spent (set_reserved b r) s).

Definition finalizeSettlement (now i : Z) : KM Z :=
  do! b := require_binding i in
  seq! require (bool_decide (bi_state b = FINALIZING)) WrongBindingState in
  seq! require (negb (bi_slash_armed b)) WrongBindingState in
  seq! require ((bi_settle_after b <=? now) || bi_confirmed b) SettleDelayActive in
  do! bb := bill_of (bi_buyer_bill b) in
  do! sb := bill_of (bi_seller_bill b) in
  seq! spend (bi_buyer_bill b) (bi_amount b) in
  seq! release (bi_seller_bill b) (bi_stake b) in
  seq! put_binding i (set_binding_state b SETTLED) in
  seq! pull (bl_token bb) (bl_owner bb) (bl_owner sb) (bi_amount b) in
  m_ret (bi_amount b).

Definition finalizeBreach (sender : string) (now i : Z) : KM Z :=
  do! b := require_binding i in
  do! k := m_get id in
  seq! require (bool_decide (bi_state b = FINALIZING)) WrongBindingState in
  seq! require (bi_slash_armed b) WrongBindingState in
  seq! require (bool_decide (sender = k_resolver k)) NotResolver in
  seq! require (bi_settle_after b <=? now) SettleDelayActive in
  do! bb := bill_of (bi_buyer_bill b) in
  do! sb := bill_of (bi_seller_bill b) in
  seq! release (bi_buyer_bill b) (bi_amount b) in
  seq! spend (bi_seller_bill b) (bi_stake b) in
  seq! put_binding i (set_binding_state b SLASHED) in
  seq! pull (bl_token sb) (bl_owner sb) (bl_owner bb) (bi_stake b) in
  m_ret (bi_stake b).

(** ** Views *)

Definition no_binding : Binding :=
  {| bi_buyer_bill := 0; bi_seller_bill := 0; bi_scope := ""; bi_amount := 0; bi_stake := 0; bi_state := NONE; bi_settle_after := 0;
     bi_proof := ""; bi_confirmed := false; bi_slash_armed := false |}.
Definition getBill (i : Z) : KM Bill := bill_of i.
Definition getBinding (i : Z) : KM Binding := m_get (fun k => default no_binding (k_bindings k !! i)).
Definition bindingVersion : KM Z := m_ret 5.
Definition available (i : Z) : KM Z :=
  do! b := m_get (fun k => k_bills k !! i) in
  match b with
  | None => m_raise UnknownBinding
  | Some b => if decide (bl_state b = BILL_OPEN) then lift (room b) else m_ret 0
  end.
Definition checkNoCustody (token : string) : KM bool := m_get (fun k => token_custody (k_erc20 k) token =? 0).
Definition isBacked (i : Z) : KM bool :=
  do! b := bill_of i in
  if negb (bool_decide (bl_state b = BILL_OPEN)) then m_ret false
  else
    do! live := lift (usub (bl_amount b) (bl_spent b)) in
    m_get (fun k => (live =? 0) || ((live <=? token_balance (k_erc20 k) (bl_token b) (bl_owner b)) &&
                                    (live <=? token_allowance (k_erc20 k) (bl_token b) (bl_owner b)))).
Definition canActFor (i : Z) (who : string) : KM bool := do! b := bill_of i in m_ret (can_act b who).

(** ** Configuration *)

Inductive Config :=
| SetTokenAllowed (token : string) (allowed : bool)
| SetDisputeWindow (n : Z)
| SetSettleDelay (n : Z)
| SetDisputeResolver (who : string)
| SetFrozen (b : bool).

Definition configure (sender : string) (c : Config) : KM unit :=
  do! k := m_get id in
  seq! require (bool_decide (sender = k_admin k)) NotAdmin in
  match c with
  | SetTokenAllowed t a =>
      seq! require (negb (bool_decide (t = ""%string))) ZeroAddress in
      put_config (k_resolver k) (k_window k) (k_delay k) (k_frozen k) (if a : bool then {[t]} ∪ k_tokens k else k_tokens k ∖ {[t]})
  | SetDisputeWindow n => put_config (k_resolver k) n (k_delay k) (k_frozen k) (k_tokens k)
  | SetSettleDelay n => put_config (k_resolver k) (k_window k) n (k_frozen k) (k_tokens k)
  | SetDisputeResolver who =>
      seq! require (negb (bool_decide (who = ""%string))) ZeroAddress in
      put_config who (k_window k) (k_delay k) (k_frozen k) (k_tokens k)
  | SetFrozen b => put_config (k_resolver k) (k_window k) (k_delay k) b (k_tokens k)
  end.

(** ** Transactions *)

Inductive Call :=
| Commit (token : string) (amount : Z) (operator : string)
| SetOperator (i : Z) (operator : string)
| Revoke (i : Z)
| Bind (buyer seller : Z) (scope : string) (amount stake : Z)
| CancelBinding (i : Z)
| MarkDisputed (i : Z)
| BuyerConfirm (i : Z)
| SubmitSettlement (i : Z) (proof : string)
| SubmitBreach (i : Z) (proof : string)
| FinalizeSettlement (i : Z)
| FinalizeBreach (i : Z)
| Configure (c : Config)
| TokenMoves (t : T).

Definition as_zero (c : KM unit) : KM Z := seq! c in m_ret 0.

(** One call by [sender] at time [now].  [TokenMoves] is a change of the token's state from
    outside, such as an allowance that is given or withdrawn. *)
Definition call (sender : string) (now : Z) (c : Call) : KM Z :=
  match c with
  | Commit t n o => commit sender t n o
  | SetOperator i o => as_zero (setOperator sender i o)
  | Revoke i => as_zero (revoke sender i)
  | Bind b s scope n st => bind sender now b s scope n st
  | CancelBinding i => as_zero (cancelBinding sender i)
  | MarkDisputed i => as_zero (markDisputed sender i)
  | BuyerConfirm i => as_zero (buyerConfirm sender i)
  | SubmitSettlement i p => submitSettlement sender now i p
  | SubmitBreach i p => submitBreach sender now i p
  | FinalizeSettlement i => finalizeSettlement now i
  | FinalizeBreach i => finalizeBreach sender now i
  | Configure c => as_zero (configure sender c)
  | TokenMoves t => as_zero (put_erc20 t)
  end.

(** A transaction that reverts leaves the state as it was. *)
Definition transact (sender : string) (now : Z) (c : Call) : KM Z :=
  fun k => match call sender now c k with
           | (Ok x, k') => (Ok x, k')
           | (Err e, _) => (Err e, k)
           end.
End Escrow.
Arguments Call : clear implicits.

(** ** What bills reserve *)

Definition live (s : BindingState) : bool :=
  match s with ACTIVE | FINALIZING | DISPUTED => true | _ => false end.
Definition final (s : BindingState) : bool :=
  match s with SETTLED | SLASHED | CANCELLED => true | _ => false end.

(** What a binding reserves on the bill [i], and all of them together. *)
Definition claim (i : Z) (b : Binding) : Z :=
  if live (bi_state b)
  then (if decide (bi_buyer_bill b = i) then bi_amount b else 0) + (if decide (bi_seller_bill b = i) then bi_stake b else 0)
  else 0.
Definition held (i : Z) (m : gmap Z Binding) : Z := map_fold (fun _ b acc => claim i b + acc) 0 m.

Lemma held_new i j b m : m !! j = None -> held i (<[j := b]> m) = claim i b + held i m.
Proof. intros Hj. unfold held. rewrite map_fold_insert_L; [done| |done]. intros. lia. Qed.
Lemma held_update i j b0 b m : m !! j = Some b0 -> held i (<[j := b]> m) = held i m - claim i b0 + claim i b.
Proof.
  intros Hj. rewrite <- (insert_delete_id m j b0 Hj) at 2. rewrite <- insert_delete_eq.
  rewrite !held_new by apply lookup_delete_eq. lia.
Qed.
Lemma held_ge i j b m : (forall j b, m !! j = Some b -> 0 <= bi_amount b /\ 0 <= bi_stake b) -> m !! j = Some b -> claim i b <= held i m.
Proof.
  intros Hm Hj. rewrite <- (insert_delete_id m j b Hj), held_new by apply lookup_delete_eq.
  enough (0 <= held i (delete j m)) by lia.
  assert (H' : forall j' b', delete j m !! j' = Some b' -> 0 <= bi_amount b' /\ 0 <= bi_stake b')
    by (intros j' b' [_ H']%lookup_delete_Some; by apply (Hm j')).
  clear Hm Hj. revert H'. generalize (delete j m) as m'. clear. intros m'.
  induction m' as [|j b m' Hj IH] using map_ind; intros Hm; [done|]. rewrite held_new by done.
  assert (0 <= claim i b) by (unfold claim; destruct (Hm j b (lookup_insert_eq _ _ _)); destruct (live _); repeat case_decide; lia).
  enough (0 <= held i m') by lia. apply IH. intros j' b' H'. apply (Hm j'). rewrite lookup_insert_ne; [done|congruence].
Qed.

Section Solvent.
Context {T : Type} `{!ERC20 T}.
Abbreviation K := (Contract T).
Abbreviation KM := (M K Revert).

Definition bill_ok (m : gmap Z Binding) (i : Z) (b : Bill) : Prop :=
  bl_reserved b = held i m /\ 0 <= bl_spent b /\ bl_reserved b + bl_spent b <= bl_amount b /\ bl_amount b < MAX.
Definition binding_ok (bills : gmap Z Bill) (n : Z) (i : Z) (b : Binding) : Prop :=
  0 < i <= n /\ 0 < bi_amount b /\ 0 < bi_stake b /\ bi_buyer_bill b <> bi_seller_bill b /\ bi_state b <> NONE /\
  is_Some (bills !! bi_buyer_bill b) /\ is_Some (bills !! bi_seller_bill b).

(** Every bill reserves exactly what its live bindings claim, and covers it. *)
Record solvent (k : K) : Prop := {
  s_bills : forall i b, k_bills k !! i = Some b -> bill_ok (k_bindings k) i b;
  s_bindings : forall i b, k_bindings k !! i = Some b -> binding_ok (k_bills k) (k_binding_counter k) i b;
  s_bill_ids : forall i b, k_bills k !! i = Some b -> i <= k_bill_counter k;
  s_counters : 0 <= k_binding_counter k
}.

(** Closed bindings and the terms of all bindings never change. *)
Definition same_binding (b b' : Binding) : Prop :=
  bi_buyer_bill b' = bi_buyer_bill b /\ bi_seller_bill b' = bi_seller_bill b /\ bi_amount b' = bi_amount b /\
  bi_stake b' = bi_stake b /\ bi_scope b' = bi_scope b /\ (final (bi_state b) = true -> b' = b).
Definition keeps_bindings (k k' : K) : Prop :=
  forall i b, k_bindings k !! i = Some b -> exists b', k_bindings k' !! i = Some b' /\ same_binding b b'.

Lemma same_binding_refl b : same_binding b b.
Proof. by repeat split. Qed.
Lemma keeps_bindings_eq k k' : k_bindings k' = k_bindings k -> keeps_bindings k k'.
Proof. intros E i b Hb. exists b. rewrite E. split; [done|apply same_binding_refl]. Qed.
Lemma keeps_bindings_trans k1 k2 k3 : keeps_bindings k1 k2 -> keeps_bindings k2 k3 -> keeps_bindings k1 k3.
Proof.
  intros H1 H2 i b Hb. destruct (H1 i b Hb) as (b2 & Hb2 & A1 & A2 & A3 & A4 & A5 & A6).
  destruct (H2 i b2 Hb2) as (b3 & Hb3 & B1 & B2 & B3 & B4 & B5 & B6). exists b3. split; [done|].
  split_and!; try congruence. intros Hf. rewrite B6, A6; [done..|]. by rewrite A6.
Qed.
Lemma keeps_one_binding k i b b' (k' : K) : k_bindings k !! i = Some b -> k_bindings k' = <[i := b']> (k_bindings k) -> same_binding b b' ->
  keeps_bindings k k'.
Proof.
  intros Hb E Hs j x Hx. rewrite E. destruct (decide (i = j)) as [<-|Hne].
  - rewrite lookup_insert_eq. exists b'. split; [done|]. congruence.
  - rewrite lookup_insert_ne by done. exists x. split; [done|apply same_binding_refl].
Qed.

(** *** Running a successful call *)

Lemma require_ok b e (k k' : K) : require b e k = (Ok tt, k') -> b = true /\ k' = k.
Proof. unfold require. destruct b; [by intros [= <-]|done]. Qed.
Lemma require_binding_ok i (k k' : K) b : require_binding i k = (Ok b, k') -> k_bindings k !! i = Some b /\ k' = k.
Proof. intros H. unfold require_binding in H. run_ok H. destruct (k_bindings k !! i) as [x|]; [|done]. by injection H as -> <-. Qed.
Lemma usub_ok a b c : usub a b = Ok c -> b <= a /\ c = a - b.
Proof. unfold usub. destruct (Z.leb_spec b a); [|done]. by intros [= <-]. Qed.
Lemma uadd_ok a b c : uadd a b = Ok c -> a + b < MAX /\ c = a + b.
Proof. unfold uadd. destruct (Z.ltb_spec (a + b) MAX); [|done]. by intros [= <-]. Qed.

Ltac kstep H :=
  repeat match type of H with
  | m_bind (require _ _) _ _ = (Ok _, _) =>
      let E := fresh "E" in let u := fresh "u" in apply m_bind_ok in H as (u & ? & E & H); destruct u; apply require_ok in E as [E ->]
  | m_bind (require_binding _) _ _ = (Ok _, _) =>
      let E := fresh "E" in apply m_bind_ok in H as (? & ? & E & H); apply require_binding_ok in E as [E ->]
  | m_bind (bill_of _) _ _ = (Ok _, _) => apply m_bind_ok in H as (? & ? & [= <- <-] & H)
  | m_bind (m_get _) _ _ = (Ok _, _) => apply m_bind_ok in H as (? & ? & [= <- <-] & H)
  | m_bind (lift _) _ _ = (Ok _, _) =>
      let E := fresh "E" in apply m_bind_ok in H as (? & ? & E & H); apply lift_ok in E as [E ->]
  | m_bind (put_bill _ _) _ _ = (Ok _, _) => apply m_bind_ok in H as (? & ? & [= <- <-] & H)
  | m_bind (put_binding _ _) _ _ = (Ok _, _) => apply m_bind_ok in H as (? & ? & [= <- <-] & H)
  | m_bind (put_counters _ _) _ _ = (Ok _, _) => apply m_bind_ok in H as (? & ? & [= <- <-] & H)
  | m_ret _ _ = (Ok _, _) => injection H as <- <-
  | put_binding _ _ _ = (Ok _, _) => injection H as <-
  | put_bill _ _ _ = (Ok _, _) => injection H as <-
  end.

(** A change of one binding that keeps its terms and its claim, or closes it together with the
    bills: [d] says by how much each bill's reservation drops, [s] what it has spent. *)
Definition bills_move (k k' : K) (drop spent : Z -> Z) : Prop :=
  forall i, match k_bills k !! i, k_bills k' !! i with
            | Some b, Some b' => bl_amount b' = bl_amount b /\ bl_reserved b' = bl_reserved b - drop i /\ bl_spent b' = bl_spent b + spent i
            | None, None => True
            | _, _ => False
            end.

Lemma solvent_move (k k' : K) i b b' (drop spent : Z -> Z) : solvent k -> k_bindings k !! i = Some b ->
  k_bindings k' = <[i := b']> (k_bindings k) -> same_binding b b' -> bi_state b' <> NONE ->
  k_bill_counter k' = k_bill_counter k -> k_binding_counter k' = k_binding_counter k ->
  bills_move k k' drop spent -> (forall j, drop j = claim j b - claim j b') -> (forall j, 0 <= spent j <= drop j) ->
  solvent k' /\ keeps_bindings k k'.
Proof.
  intros [S1 S2 S3 S4] Hb Eb Hs Hn C1 C2 Hm Hd Hsp. split; [|by eapply keeps_one_binding].
  assert (Hback : forall j x', k_bills k' !! j = Some x' -> exists x, k_bills k !! j = Some x /\ bl_amount x' = bl_amount x /\
    bl_reserved x' = bl_reserved x - drop j /\ bl_spent x' = bl_spent x + spent j).
  { intros j x' Hx'. specialize (Hm j). rewrite Hx' in Hm. destruct (k_bills k !! j) as [x|]; [|done]. by exists x. }
  assert (Hfor : forall j, is_Some (k_bills k !! j) -> is_Some (k_bills k' !! j)).
  { intros j [x Hx]. specialize (Hm j). rewrite Hx in Hm. by destruct (k_bills k' !! j); [eexists|]. }
  constructor.
  - intros j x' Hx'. destruct (Hback j x' Hx') as (x & Hx & E1 & E2 & E3). destruct (S1 j x Hx) as (A1 & A2 & A3 & A4).
    specialize (Hd j). specialize (Hsp j). unfold bill_ok. rewrite Eb, (held_update _ _ _ _ _ Hb), E1, E2, E3. lia.
  - intros j x Hx. rewrite Eb in Hx. rewrite C2. destruct (decide (i = j)) as [<-|Hne].
    + rewrite lookup_insert_eq in Hx. injection Hx as <-. destruct (S2 i b Hb) as (B1 & B2 & B3 & B4 & B5 & B6 & B7).
      destruct Hs as (E1 & E2 & E3 & E4 & _). unfold binding_ok. rewrite E1, E2, E3, E4. split_and!; auto; lia.
    + rewrite lookup_insert_ne in Hx by done. destruct (S2 j x Hx) as (B1 & B2 & B3 & B4 & B5 & B6 & B7). split_and!; auto; lia.
  - intros j x' Hx'. destruct (Hback j x' Hx') as (x & Hx & _). rewrite C1. by eapply S3.
  - by rewrite C2.
Qed.

Definition two (i j : Z) (x y : Z) (l : Z) : Z := if decide (l = i) then x else if decide (l = j) then y else 0.

Lemma bills_move_two k (k' : K) i j bi bj bi' bj' d1 d2 s1 s2 : i <> j ->
  k_bills k !! i = Some bi -> k_bills k !! j = Some bj -> k_bills k' = <[j := bj']> (<[i := bi']> (k_bills k)) ->
  bl_amount bi' = bl_amount bi -> bl_amount bj' = bl_amount bj -> bl_reserved bi' = bl_reserved bi - d1 ->
  bl_reserved bj' = bl_reserved bj - d2 -> bl_spent bi' = bl_spent bi + s1 -> bl_spent bj' = bl_spent bj + s2 ->
  bills_move k k' (two i j d1 d2) (two i j s1 s2).
Proof.
  intros Hij Hi Hj E A1 A2 R1 R2 S1 S2 l. rewrite E. unfold two. destruct (decide (l = i)) as [->|Hi'].
  - rewrite lookup_insert_ne, lookup_insert_eq, Hi by done. auto.
  - destruct (decide (l = j)) as [->|Hj']; [rewrite lookup_insert_eq, Hj; auto|].
    rewrite !lookup_insert_ne by done. destruct (k_bills k !! l); [|done]. split_and!; lia.
Qed.
Lemma bills_move_same k (k' : K) : k_bills k' = k_bills k -> bills_move k k' (fun _ => 0) (fun _ => 0).
Proof. intros E i. rewrite E. destruct (k_bills k !! i); [|done]. split_and!; lia. Qed.

(** Steps that only change the state of a live binding to another live one. *)
Lemma solvent_live (k k' : K) i b b' : solvent k -> k_bindings k !! i = Some b -> k_bindings k' = <[i := b']> (k_bindings k) ->
  same_binding b b' -> live (bi_state b) = true -> live (bi_state b') = true -> k_bills k' = k_bills k ->
  k_bill_counter k' = k_bill_counter k -> k_binding_counter k' = k_binding_counter k -> solvent k' /\ keeps_bindings k k'.
Proof.
  intros HS Hb Eb Hs L L' Ebl C1 C2. apply (solvent_move k k' i b b' (fun _ => 0) (fun _ => 0)); try done.
  - by destruct (bi_state b').
  - by apply bills_move_same.
  - intros j. destruct Hs as (E1 & E2 & E3 & E4 & _). unfold claim. rewrite L, L', E1, E2, E3, E4. lia.
Qed.

(** Closing a live binding: both reservations go, and one of them may be spent. *)
Lemma solvent_close (k k' : K) i b st bb sb bb' sb' (s1 s2 : Z) : solvent k -> k_bindings k !! i = Some b -> live (bi_state b) = true ->
  live st = false -> st <> NONE -> k_bindings k' = <[i := set_binding_state b st]> (k_bindings k) ->
  k_bills k !! bi_buyer_bill b = Some bb -> k_bills k !! bi_seller_bill b = Some sb ->
  k_bills k' = <[bi_seller_bill b := sb']> (<[bi_buyer_bill b := bb']> (k_bills k)) ->
  bl_amount bb' = bl_amount bb -> bl_amount sb' = bl_amount sb -> bl_reserved bb' = bl_reserved bb - bi_amount b ->
  bl_reserved sb' = bl_reserved sb - bi_stake b -> bl_spent bb' = bl_spent bb + s1 -> bl_spent sb' = bl_spent sb + s2 ->
  0 <= s1 <= bi_amount b -> 0 <= s2 <= bi_stake b ->
  k_bill_counter k' = k_bill_counter k -> k_binding_counter k' = k_binding_counter k -> solvent k' /\ keeps_bindings k k'.
Proof.
  intros HS Hb L L' Hn Eb Hbb Hsb Ebl A1 A2 R1 R2 P1 P2 Hs1 Hs2 C1 C2. destruct (s_bindings k HS i b Hb) as (_ & B2 & B3 & B4 & _).
  apply (solvent_move k k' i b (set_binding_state b st) (two (bi_buyer_bill b) (bi_seller_bill b) (bi_amount b) (bi_stake b))
    (two (bi_buyer_bill b) (bi_seller_bill b) s1 s2)); try done.
  - split_and!; try done. intros Hf. by destruct (bi_state b).
  - by eapply bills_move_two.
  - intros j. unfold claim, two. cbn. rewrite L, L'. repeat case_decide; subst; try done; lia.
  - intros j. unfold two. repeat case_decide; lia.
Qed.

Lemma release_ok i n (k k' : K) : release i n k = (Ok tt, k') ->
  let b := default no_bill (k_bills k !! i) in
  n <= bl_reserved b /\ k' = exec (put_bill i (set_reserved b (bl_reserved b - n))) k.
Proof. intros H. unfold release in H. kstep H. apply usub_ok in E as [E ->]. done. Qed.
Lemma spend_ok i n (k k' : K) : spend i n k = (Ok tt, k') ->
  let b := default no_bill (k_bills k !! i) in
  n <= bl_reserved b /\ k' = exec (put_bill i (set_spent (set_reserved b (bl_reserved b - n)) (bl_spent b + n))) k.
Proof. intros H. unfold spend in H. kstep H. apply usub_ok in E as [E ->]. apply uadd_ok in E0 as [_ ->]. done. Qed.
Lemma pull_ok token a b n (k k' : K) : pull token a b n k = (Ok tt, k') -> exists t, k' = exec (put_erc20 t) k.
Proof.
  intros H. unfold pull in H. kstep H. destruct (token_transfer _ _ _ _ _) as [[ok t]|]; [|done]. kstep H. injection H as <-. by exists t.
Qed.

(** *** Every call keeps the books *)

Definition uint (n : Z) : Prop := 0 <= n < MAX.
Definition call_uint (c : Call T) : Prop :=
  match c with
  | Commit _ n _ => uint n
  | Bind _ _ _ n st => uint n /\ uint st
  | _ => True
  end.

Ltac two_bills HS Hb :=
  let B := fresh "B" in let x := fresh "bb" in let y := fresh "sb" in let Hx := fresh "Hbb" in let Hy := fresh "Hsb" in
  destruct (s_bindings _ HS _ _ Hb) as (_ & _ & _ & B & _ & [x Hx] & [y Hy]).

Lemma solvent_cancel sender i (k k' : K) : solvent k -> cancelBinding sender i k = (Ok tt, k') -> solvent k' /\ keeps_bindings k k'.
Proof.
  intros HS H. unfold cancelBinding in H. kstep H. rename x into b. apply m_bind_ok in H as ([] & k1 & H1 & H).
  apply m_bind_ok in H as ([] & k2 & H2 & H). kstep H. two_bills HS E. apply release_ok in H1 as [_ ->]. apply release_ok in H2 as [_ ->].
  assert (L : live (bi_state b) = true).
  { destruct (decide _) as [Ed|]; [by rewrite Ed|]. apply bool_decide_eq_true in E0. by rewrite E0. }
  cbn. rewrite (lookup_insert_ne (k_bills _)), Hsb, Hbb by done. cbn.
  destruct (s_bindings _ HS _ _ E) as (_ & ? & ? & _).
  eapply (solvent_close k _ i b CANCELLED bb sb _ _ 0 0); try done; cbn; lia.
Qed.

Lemma solvent_pay now i n (k k' : K) : solvent k -> finalizeSettlement now i k = (Ok n, k') -> solvent k' /\ keeps_bindings k k'.
Proof.
  intros HS H. unfold finalizeSettlement in H. kstep H. rename x into b. apply m_bind_ok in H as ([] & k1 & H1 & H).
  apply m_bind_ok in H as ([] & k2 & H2 & H). kstep H. apply m_bind_ok in H as ([] & k3 & H3 & H). kstep H.
  two_bills HS E. apply spend_ok in H1 as [_ ->]. apply release_ok in H2 as [_ ->]. apply pull_ok in H3 as [t ->].
  apply bool_decide_eq_true in E0. cbn. rewrite (lookup_insert_ne (k_bills _)), Hsb, Hbb by done. cbn.
  destruct (s_bindings _ HS _ _ E) as (_ & ? & ? & _).
  eapply (solvent_close k _ i b SETTLED bb sb _ _ (bi_amount b) 0); try done; cbn; try lia. by rewrite E0.
Qed.

Lemma solvent_slash sender now i n (k k' : K) : solvent k -> finalizeBreach sender now i k = (Ok n, k') -> solvent k' /\ keeps_bindings k k'.
Proof.
  intros HS H. unfold finalizeBreach in H. kstep H. rename x into b. apply m_bind_ok in H as ([] & k1 & H1 & H).
  apply m_bind_ok in H as ([] & k2 & H2 & H). kstep H. apply m_bind_ok in H as ([] & k3 & H3 & H). kstep H.
  two_bills HS E. apply release_ok in H1 as [_ ->]. apply spend_ok in H2 as [_ ->]. apply pull_ok in H3 as [t ->].
  apply bool_decide_eq_true in E0. cbn. rewrite (lookup_insert_ne (k_bills _)), Hsb, Hbb by done. cbn.
  destruct (s_bindings _ HS _ _ E) as (_ & ? & ? & _).
  eapply (solvent_close k _ i b SLASHED bb sb _ _ 0 (bi_stake b)); try done; cbn; try lia. by rewrite E0.
Qed.

Lemma solvent_mark sender i (k k' : K) : solvent k -> markDisputed sender i k = (Ok tt, k') -> solvent k' /\ keeps_bindings k k'.
Proof.
  intros HS H. unfold markDisputed in H. kstep H. apply bool_decide_eq_true in E0.
  eapply (solvent_live k _ i); try done; [|by rewrite E0]. split_and!; try done. by rewrite E0.
Qed.
Lemma solvent_confirm sender i (k k' : K) : solvent k -> buyerConfirm sender i k = (Ok tt, k') -> solvent k' /\ keeps_bindings k k'.
Proof.
  intros HS H. unfold buyerConfirm in H. kstep H. apply bool_decide_eq_true in E0.
  eapply (solvent_live k _ i); try done; cbn; rewrite ?E0; try done. split_and!; try done. by rewrite E0.
Qed.
Lemma solvent_submit slash sender now i proof n (k k' : K) : solvent k -> submit slash sender now i proof k = (Ok n, k') ->
  solvent k' /\ keeps_bindings k k'.
Proof.
  intros HS H. unfold submit in H. kstep H.
  assert (L : live (bi_state x) = true) by (by destruct (bi_state x)).
  eapply (solvent_live k _ i); try done. split_and!; try done. intros Hf. by destruct (bi_state x).
Qed.

Lemma open_bill_some (k : K) i : bl_state (default no_bill (k_bills k !! i)) = BILL_OPEN -> exists b, k_bills k !! i = Some b.
Proof. destruct (k_bills k !! i) as [b|]; [by exists b|done]. Qed.
Lemma room_ok (b : Bill) n : room b = Ok n -> n = bl_amount b - bl_reserved b - bl_spent b.
Proof.
  unfold room. destruct (usub _ _) as [x|] eqn:E; [|done]. cbn. intros E2. apply usub_ok in E as [_ ->]. by apply usub_ok in E2 as [_ ->].
Qed.

Lemma binding_ok_mono bills bills' n n' i b : binding_ok bills n i b -> n <= n' ->
  (forall j, is_Some (bills !! j) -> is_Some (bills' !! j)) -> binding_ok bills' n' i b.
Proof. intros (? & ? & ? & ? & ? & ? & ?) Hn Hm. repeat split; auto; lia. Qed.

(** A bill whose reservations are untouched may change anything else. *)
Lemma solvent_bill (k k' : K) i b b' : solvent k -> k_bills k !! i = Some b -> k_bills k' = <[i := b']> (k_bills k) ->
  k_bindings k' = k_bindings k -> k_bill_counter k' = k_bill_counter k -> k_binding_counter k' = k_binding_counter k ->
  bl_amount b' = bl_amount b -> bl_reserved b' = bl_reserved b -> bl_spent b' = bl_spent b -> solvent k' /\ keeps_bindings k k'.
Proof.
  intros [S1 S2 S3 S4] Hb Eb Ek C1 C2 A R P. split; [|by apply keeps_bindings_eq]. constructor.
  - intros j x. rewrite Eb, Ek. destruct (decide (i = j)) as [<-|Hne]; [|rewrite lookup_insert_ne by done; apply S1].
    rewrite lookup_insert_eq. intros [= <-]. destruct (S1 i b Hb) as (? & ? & ? & ?). unfold bill_ok. rewrite A, R, P. auto.
  - intros j x. rewrite Ek, C2, Eb. intros Hx. eapply binding_ok_mono; [by apply S2|lia|]. intros l Hl. apply lookup_insert_is_Some'. auto.
  - intros j x. rewrite Eb, C1. destruct (decide (i = j)) as [<-|Hne]; [|rewrite lookup_insert_ne by done; apply S3].
    intros _. by eapply S3.
  - by rewrite C2.
Qed.

Lemma solvent_commit sender token n operator i (k k' : K) : solvent k -> uint n -> commit sender token n operator k = (Ok i, k') ->
  solvent k' /\ keeps_bindings k k'.
Proof.
  intros HS Hn H. unfold commit in H. kstep H. split; [|by apply keeps_bindings_eq]. destruct HS as [S1 S2 S3 S4].
  assert (Hf : k_bills k !! (k_bill_counter k + 1) = None).
  { destruct (k_bills k !! _) as [b|] eqn:Eb; [|done]. apply S3 in Eb. lia. }
  assert (Hh : held (k_bill_counter k + 1) (k_bindings k) = 0).
  { assert (Hc : forall j b, k_bindings k !! j = Some b -> claim (k_bill_counter k + 1) b = 0).
    { intros j b Hb. destruct (S2 j b Hb) as (_ & _ & _ & _ & _ & [x Hx] & [y Hy]). unfold claim.
      rewrite !decide_False by (intros E'; rewrite E' in *; congruence). by destruct (live _). }
    clear - Hc. revert Hc. generalize (k_bindings k) as m. intros m. induction m as [|j b m Hj IH] using map_ind; intros Hc; [done|].
    rewrite held_new, (Hc j b (lookup_insert_eq _ _ _)), IH by done || (intros j' b' Hb'; apply (Hc j'); rewrite lookup_insert_ne; [done|congruence]).
    done. }
  constructor; cbn.
  - intros j x. destruct (decide (k_bill_counter k + 1 = j)) as [<-|Hne]; [|rewrite lookup_insert_ne by done; apply S1].
    rewrite lookup_insert_eq. intros [= <-]. unfold bill_ok. cbn. rewrite Hh. destruct Hn. lia.
  - intros j x Hx. eapply binding_ok_mono; [by apply S2|lia|]. intros l Hl. apply lookup_insert_is_Some'. auto.
  - intros j x. destruct (decide (k_bill_counter k + 1 = j)) as [<-|Hne]; [lia|rewrite lookup_insert_ne by done]. intros Hx%S3. lia.
  - done.
Qed.

Lemma solvent_bind sender now buyer seller scope n st i (k k' : K) : solvent k -> uint n -> uint st ->
  bind sender now buyer seller scope n st k = (Ok i, k') -> solvent k' /\ keeps_bindings k k'.
Proof.
  intros HS Hn Hst H. unfold bind in H. kstep H.
  repeat match goal with
  | E : bool_decide _ = true |- _ => apply bool_decide_eq_true in E
  | E : negb (bool_decide _) = true |- _ => apply negb_true_iff, bool_decide_eq_false in E
  | E : negb (_ =? _) = true |- _ => apply negb_true_iff, Z.eqb_neq in E
  | E : (_ <=? _) = true |- _ => apply Z.leb_le in E
  | E : room _ = Ok _ |- _ => apply room_ok in E; subst
  | E : uadd _ _ = Ok _ |- _ => apply uadd_ok in E as [E ->]
  end.
  destruct (open_bill_some k buyer) as [bb Hbb]; [done|]. destruct (open_bill_some k seller) as [sb Hsb]; [done|].
  rewrite Hbb, Hsb in *. cbn [default from_option] in *. unfold id in *. assert (Hne : buyer <> seller) by congruence.
  destruct HS as [S1 S2 S3 S4]. destruct (S1 _ _ Hbb) as (R1 & P1 & Q1 & M1), (S1 _ _ Hsb) as (R2 & P2 & Q2 & M2).
  assert (Hf : k_bindings k !! (k_binding_counter k + 1) = None).
  { destruct (k_bindings k !! _) as [b|] eqn:Eb; [|done]. apply S2 in Eb as [Eb _]. lia. }
  set (nb := {| bi_buyer_bill := buyer; bi_seller_bill := seller |}). destruct Hn, Hst. split.
  - constructor; cbn.
    + intros j x Hx. unfold bill_ok. rewrite held_new by done. unfold claim. cbn.
      destruct (decide (seller = j)) as [<-|Hj1]; [rewrite decide_False by done|destruct (decide (buyer = j)) as [<-|Hj2]].
      * rewrite lookup_insert_eq in Hx. injection Hx as <-. cbn. lia.
      * rewrite lookup_insert_ne, lookup_insert_eq in Hx by done. injection Hx as <-. cbn. lia.
      * rewrite !lookup_insert_ne in Hx by done. destruct (S1 j x Hx) as (? & ? & ? & ?). lia.
    + intros j x. destruct (decide (k_binding_counter k + 1 = j)) as [<-|Hj].
      * rewrite lookup_insert_eq. intros [= <-]. repeat split; cbn; auto; try lia; apply lookup_insert_is_Some'; [right; apply lookup_insert_is_Some'|]; auto.
      * rewrite lookup_insert_ne by done. intros Hx. eapply binding_ok_mono; [by apply S2|lia|]. intros l Hl. rewrite !lookup_insert_is_Some'. auto.
    + intros j x. destruct (decide (seller = j)) as [<-|Hj1]; [intros _; by eapply S3|rewrite lookup_insert_ne by done].
      destruct (decide (buyer = j)) as [<-|Hj2]; [intros _; by eapply S3|rewrite lookup_insert_ne by done; apply S3].
    + lia.
  - intros j x Hx. exists x. cbn. rewrite lookup_insert_ne by congruence. split; [done|apply same_binding_refl].
Qed.

Lemma solvent_untouched (k k' : K) : solvent k -> k_bills k' = k_bills k -> k_bindings k' = k_bindings k ->
  k_bill_counter k' = k_bill_counter k -> k_binding_counter k' = k_binding_counter k -> solvent k' /\ keeps_bindings k k'.
Proof.
  intros [S1 S2 S3 S4] E1 E2 C1 C2. split; [|by apply keeps_bindings_eq]. constructor; rewrite ?E1, ?E2, ?C1, ?C2; done.
Qed.

Lemma solvent_call sender now c n (k k' : K) : solvent k -> call_uint c -> call sender now c k = (Ok n, k') -> solvent k' /\ keeps_bindings k k'.
Proof.
  intros HS Hc H. destruct c; cbn [call call_uint] in *; unfold as_zero in *;
    try (match type of H with m_bind _ _ _ = _ => apply m_bind_ok in H as ([] & ? & H & H'); injection H' as _ <- end).
  - eapply solvent_commit; [exact HS|exact Hc|exact H].
  - unfold setOperator, require_open_bill in H. apply m_bind_ok in H as (b & k1 & Hb & H). kstep Hb. kstep H.
    apply bool_decide_eq_true, open_bill_some in E as [x Hx]. rewrite Hx. by eapply (solvent_bill k _ i).
  - unfold revoke, require_open_bill in H. apply m_bind_ok in H as (b & k1 & Hb & H). kstep Hb. kstep H.
    apply bool_decide_eq_true, open_bill_some in E as [x Hx]. rewrite Hx. by eapply (solvent_bill k _ i).
  - destruct Hc as [H1 H2]. eapply solvent_bind; [exact HS|exact H1|exact H2|exact H].
  - eapply solvent_cancel; [exact HS|exact H].
  - eapply solvent_mark; [exact HS|exact H].
  - eapply solvent_confirm; [exact HS|exact H].
  - eapply solvent_submit; [exact HS|exact H].
  - eapply solvent_submit; [exact HS|exact H].
  - eapply solvent_pay; [exact HS|exact H].
  - eapply solvent_slash; [exact HS|exact H].
  - unfold configure in H. kstep H. destruct c; kstep H; injection H as <-; by apply solvent_untouched.
  - injection H as <-. by apply solvent_untouched.
Qed.

Lemma solvent_transact sender now c (k : K) : solvent k -> call_uint c ->
  solvent (exec (transact sender now c) k) /\ keeps_bindings k (exec (transact sender now c) k).
Proof.
  intros HS Hc. unfold exec, transact. destruct (call sender now c k) as [[n|e] k'] eqn:H; cbn [snd].
  - by eapply solvent_call.
  - split; [done|by apply keeps_bindings_eq].
Qed.

Definition run_calls (l : list (string * Z * Call T)) (k : K) : K :=
  fold_left (fun k '(sender, now, c) => exec (transact sender now c) k) l k.

Lemma run_kept l (k : K) : solvent k -> Forall (fun '(_, _, c) => call_uint c) l ->
  solvent (run_calls l k) /\ keeps_bindings k (run_calls l k).
Proof.
  intros HS Hl. unfold run_calls. revert k HS. induction Hl as [|[[sender now] c] l Hc _ IH]; intros k HS.
  - split; [done|by apply keeps_bindings_eq].
  - destruct (solvent_transact sender now c k HS Hc) as [H1 H2]. destruct (IH _ H1) as [H3 H4].
    split; [exact H3|by eapply keeps_bindings_trans].
Qed.

(** C2. The escrow contract always covers what it promises: after any calls by anyone at any
    times, every bill reserves exactly what its live bindings claim and what it reserves and
    has spent stays within its commitment; the terms of a binding never change and a closed
    binding never moves again. *)
Theorem escrow_contract_solvent l (k : K) : solvent k -> Forall (fun '(_, _, c) => call_uint c) l ->
  solvent (run_calls l k) /\ keeps_bindings k (run_calls l k).
Proof. apply run_kept. Qed.

(** The claim of a binding is covered by its bills. *)
Lemma claim_covered (k : K) i b : solvent k -> k_bindings k !! i = Some b -> live (bi_state b) = true ->
  exists bb sb, k_bills k !! bi_buyer_bill b = Some bb /\ k_bills k !! bi_seller_bill b = Some sb /\
    bi_buyer_bill b <> bi_seller_bill b /\ bi_amount b <= bl_reserved bb /\ bi_stake b <= bl_reserved sb.
Proof.
  intros HS Hb L. destruct (s_bindings k HS i b Hb) as (_ & P1 & P2 & B & _ & [bb Hbb] & [sb Hsb]). exists bb, sb.
  assert (Hp : forall j x, k_bindings k !! j = Some x -> 0 <= bi_amount x /\ 0 <= bi_stake x)
    by (intros j x Hx; destruct (s_bindings k HS j x Hx) as (_ & ? & ? & _); lia).
  destruct (s_bills k HS _ _ Hbb) as (R1 & _), (s_bills k HS _ _ Hsb) as (R2 & _).
  pose proof (held_ge (bi_buyer_bill b) i b _ Hp Hb) as G1. pose proof (held_ge (bi_seller_bill b) i b _ Hp Hb) as G2.
  unfold claim in G1, G2. rewrite L in G1, G2. rewrite decide_True, decide_False in G1 by done. rewrite decide_False, decide_True in G2 by done.
  split_and!; auto; lia.
Qed.

(** The resolver can always release a binding that is active or in dispute. *)
Lemma resolver_cancels (k : K) i b : solvent k -> k_bindings k !! i = Some b -> (bi_state b = ACTIVE \/ bi_state b = DISPUTED) ->
  exists k', transact (k_resolver k) 0 (CancelBinding i) k = (Ok 0, k') /\ k_bindings k' !! i = Some (set_binding_state b CANCELLED).
Proof.
  intros HS Hb Hs. destruct (claim_covered k i b HS Hb) as (bb & sb & Hbb & Hsb & Hne & G1 & G2); [by destruct Hs as [-> | ->]|].
  unfold transact, call, as_zero, cancelBinding, require_binding. unfold m_bind, m_get, require, m_ret. rewrite Hb.
  assert (Ec : (if decide (bi_state b = DISPUTED) then bool_decide (k_resolver k = k_resolver k) else bool_decide (bi_state b = ACTIVE)) = true)
    by (destruct Hs as [E|E]; rewrite E; destruct (decide _); try done; by rewrite bool_decide_true).
  unfold id. rewrite Ec. unfold bill_of, m_get. cbv beta iota. rewrite (bool_decide_true (k_resolver k = k_resolver k)), orb_true_r by done.
  unfold release, bill_of, m_bind, m_get, lift, usub. rewrite Hbb. cbn [default from_option]. unfold id.
  destruct (Z.leb_spec (bi_amount b) (bl_reserved bb)); [|lia]. cbn. rewrite lookup_insert_ne, Hsb by done. cbn. unfold id.
  destruct (Z.leb_spec (bi_stake b) (bl_reserved sb)); [|lia]. eexists. split; [reflexivity|]. cbn. apply lookup_insert_eq.
Qed.
End Solvent.

(** ** A concrete token and run *)

(** Allowances by owner; a transfer spends the allowance. *)
Definition Purse : Type := gmap string Z.
#[export] Instance purse_token : ERC20 Purse := {|
  token_allowance t _ owner := default 0 (t !! owner);
  token_transfer t _ from _ n := if n <=? default 0 (t !! from) then Some (true, <[from := default 0 (t !! from) - n]> t) else None;
  token_custody _ _ := 0;
  token_balance t _ owner := default 0 (t !! owner)
|}.

Definition new_contract (allowances : Purse) : Contract Purse :=
  {| k_bills := ∅; k_bindings := ∅; k_bill_counter := 0; k_binding_counter := 0; k_admin := "karma"; k_resolver := "karma";
     k_window := 60; k_delay := 0; k_frozen := false; k_tokens := {[ "usdc"%string ]}; k_erc20 := allowances |}.

Lemma new_contract_solvent t : solvent (new_contract t).
Proof. constructor; cbn; try (intros i b Hb; by rewrite lookup_empty in Hb). done. Qed.

(** Two commitments, two bindings; one is paid after its window, the other cannot be
    cancelled by the seller once it is in dispute and is slashed. *)
Definition demo_calls : list (string * Z * Call Purse) :=
  [("alice", 0, Commit "usdc" 100 "karma"); ("bob", 0, Commit "usdc" 50 "karma");
   ("karma", 1, Bind 1 2 "t1" 60 10); ("karma", 1, Bind 1 2 "t2" 40 10);
   ("karma", 2, SubmitSettlement 1 "p"); ("mallory", 61, FinalizeSettlement 1); ("mallory", 62, FinalizeSettlement 1);
   ("karma", 63, MarkDisputed 2); ("bob", 64, CancelBinding 2); ("karma", 65, SubmitBreach 2 "q");
   ("mallory", 130, FinalizeSettlement 2); ("karma", 130, FinalizeBreach 2)]%string.
Definition demo_contract : Contract Purse := new_contract {[ "alice"%string := 100; "bob"%string := 50 ]}.

Lemma escrow_contract_solvent_witness :
  solvent (run_calls demo_calls demo_contract) /\
  (bi_state <$> k_bindings (run_calls demo_calls demo_contract) !! 1) = Some SETTLED /\
  (bi_state <$> k_bindings (run_calls demo_calls demo_contract) !! 2) = Some SLASHED.
Proof.
  split; [|split; vm_compute; reflexivity].
  apply (escrow_contract_solvent demo_calls demo_contract (new_contract_solvent _)).
  repeat apply Forall_cons_2; try apply Forall_nil_2; cbn; unfold uint; repeat split; vm_compute; congruence.
Defined.
