(* ===== verification/EscrowChain.v ===== *)
(** * The chain the escrow channel talks to

    Identifiers of bills and bindings, the contract as the services see it (class [EscrowRpc],
    every call may fail and may have been mined nevertheless), what it promises
    ([EscrowLaws]), the world of the escrow services, and the wrappers of
    services/chain/allowance_escrow.py around the contract calls. *)
From S2P Require Import Prelude PyText PyFloat FloatFacts PyJson RuntimeSafety AtomicLedger Capacity ProfileCapacity.
From S2P Require Import Amounts Voucher SettlementEngine SettlementTransitions UsageBilling SettlementRoutes.
From stdpp Require Import pretty.
Open Scope Z_scope.

(** ** Identifiers *)

Definition digit (c : Ascii.ascii) : option Z :=
  let n := Z.of_nat (Ascii.nat_of_ascii c) in
  if (48 <=? n) && (n <=? 57) then Some (n - 48) else None.
Fixpoint digits_val (s : string) (acc : Z) : option Z :=
  match s with
  | EmptyString => Some acc
  | String c s => match digit c with
                  | Some d => digits_val s (10 * acc + d)
                  | None => None
                  end
  end.
Definition digits (s : string) : option Z := if decide (s = ""%string) then None else digits_val s 0.

(** [int(text)], without the underscores Python also allows. *)
Definition py_int_text (s : string) : option Z :=
  match py_strip s with
  | String c t =>
      if decide (c = Ascii.ascii_of_nat 45) then Z.opp <$> digits t
      else if decide (c = Ascii.ascii_of_nat 43) then digits t
      else digits (String c t)
  | EmptyString => None
  end.

(** [text.rsplit(":", 1)[-1]]. *)
Definition COLON : Ascii.ascii := Ascii.ascii_of_nat 58.
Fixpoint has_colon (s : string) : bool :=
  match s with
  | EmptyString => false
  | String c s => if decide (c = COLON) then true else has_colon s
  end.
Fixpoint after_colon (s : string) : string :=
  match s with
  | EmptyString => EmptyString
  | String c s' => if has_colon s' then after_colon s' else if decide (c = COLON) then s' else s
  end.
Definition chain_id_of (local : string) : option Z := py_int_text (after_colon local).

(** ** The contract *)

Record ChainView := {
  cv_state : Z;
  cv_confirmed : bool;
  cv_slash_armed : bool;
  cv_settle_after : Z
}.

(** Calls name the contract and the number of the binding or bill in it. *)
Class EscrowRpc (C : Type) := {
  rpc_get_binding : string -> Z -> M C string ChainView;
  rpc_bind : string -> Z -> Z -> string -> Z -> Z -> M C string (Z * string);
  rpc_submit_settlement : string -> Z -> string -> M C string (string * Z);
  rpc_submit_breach : string -> Z -> string -> M C string (string * Z);
  rpc_mark_disputed : string -> Z -> M C string string;
  rpc_buyer_confirm : string -> Z -> M C string string;
  rpc_cancel_binding : string -> Z -> M C string string;
  rpc_finalize_settlement : string -> Z -> M C string string;
  rpc_finalize_breach : string -> Z -> M C string string;
  rpc_version : string -> M C string Z;
  rpc_available : string -> Z -> M C string Z;
  rpc_get_bill : string -> Z -> M C string (Z * Z * Z);
  rpc_is_backed : string -> Z -> M C string bool;
  rpc_allowance : string -> string -> string -> M C string Z;
  rpc_event_tx : string -> Z -> string -> option string -> M C string (option string)
}.

(** What a binding is on the chain.  The open window has a direction. *)
Inductive Fact := FNone | FActive | FDisputed | FPaying | FBreaching | FSettled | FSlashed | FCancelled.
#[export] Instance Fact_eq_dec : EqDecision Fact.
Proof. solve_decision. Defined.
Definition fact_code (f : Fact) : Z :=
  match f with
  | FNone => 0 | FActive => 1 | FPaying | FBreaching => 2 | FSettled => 3 | FSlashed => 4 | FCancelled => 5 | FDisputed => 6
  end.

(** How a binding moves.  Money moves only from an open window and only the way it points;
    a closed binding stays. *)
Inductive fact_move : Fact -> Fact -> Prop :=
| fm_bind : fact_move FNone FActive
| fm_dispute : fact_move FActive FDisputed
| fm_cancel f : f = FActive \/ f = FDisputed -> fact_move f FCancelled
| fm_pay_window f : f = FActive \/ f = FDisputed \/ f = FBreaching -> fact_move f FPaying
| fm_breach_window f : f = FActive \/ f = FDisputed \/ f = FPaying -> fact_move f FBreaching
| fm_paid : fact_move FPaying FSettled
| fm_slashed : fact_move FBreaching FSlashed.

(** The window is open or the money has moved. *)
Definition committed_to_pay (f : Fact) : bool :=
  match f with FPaying | FBreaching | FSettled | FSlashed => true | _ => false end.

Definition moves {C} (facts : C -> string -> Z -> Fact) (ch ch' : C) : Prop :=
  forall k i, rtc fact_move (facts ch k i) (facts ch' k i).

(** What the services rely on: whatever a call answers, bindings only move as above (others act
    on the chain too), and a call that reports success has done its work. *)
Class EscrowLaws (C : Type) `{!EscrowRpc C} (facts : C -> string -> Z -> Fact) : Prop := {
  law_get : forall k i ch, moves facts ch (exec (rpc_get_binding k i) ch);
  law_bind : forall k b s h n st ch, moves facts ch (exec (rpc_bind k b s h n st) ch);
  law_submit : forall k i h ch, moves facts ch (exec (rpc_submit_settlement k i h) ch);
  law_breach : forall k i h ch, moves facts ch (exec (rpc_submit_breach k i h) ch);
  law_mark : forall k i ch, moves facts ch (exec (rpc_mark_disputed k i) ch);
  law_confirm : forall k i ch, moves facts ch (exec (rpc_buyer_confirm k i) ch);
  law_cancel : forall k i ch, moves facts ch (exec (rpc_cancel_binding k i) ch);
  law_finalize : forall k i ch, moves facts ch (exec (rpc_finalize_settlement k i) ch);
  law_finalize_breach : forall k i ch, moves facts ch (exec (rpc_finalize_breach k i) ch);
  law_version : forall k ch, moves facts ch (exec (rpc_version k) ch);
  law_available : forall k i ch, moves facts ch (exec (rpc_available k i) ch);
  law_get_bill : forall k i ch, moves facts ch (exec (rpc_get_bill k i) ch);
  law_is_backed : forall k i ch, moves facts ch (exec (rpc_is_backed k i) ch);
  law_allowance : forall t o k ch, moves facts ch (exec (rpc_allowance t o k) ch);
  law_event : forall k i e from ch, moves facts ch (exec (rpc_event_tx k i e from) ch);
  law_view : forall k i ch v ch', rpc_get_binding k i ch = (Ok v, ch') -> cv_state v = fact_code (facts ch' k i) /\
    (cv_state v = 2 -> cv_slash_armed v = bool_decide (facts ch' k i = FBreaching));
  law_bound : forall k b s h n st ch i tx ch', rpc_bind k b s h n st ch = (Ok (i, tx), ch') ->
    0 <= i /\ rtc fact_move FActive (facts ch' k i);
  law_submitted : forall k i h ch x ch', rpc_submit_settlement k i h ch = (Ok x, ch') -> rtc fact_move FPaying (facts ch' k i);
  law_breached : forall k i h ch x ch', rpc_submit_breach k i h ch = (Ok x, ch') -> rtc fact_move FBreaching (facts ch' k i);
  law_marked : forall k i ch x ch', rpc_mark_disputed k i ch = (Ok x, ch') -> rtc fact_move FDisputed (facts ch' k i);
  law_cancelled : forall k i ch x ch', rpc_cancel_binding k i ch = (Ok x, ch') -> facts ch' k i = FCancelled;
  law_paid : forall k i ch x ch', rpc_finalize_settlement k i ch = (Ok x, ch') -> facts ch' k i = FSettled;
  law_slashed : forall k i ch x ch', rpc_finalize_breach k i ch = (Ok x, ch') -> facts ch' k i = FSlashed
}.

(** ** Rows and settings *)

Record BindingRow := {
  br_id : string;
  br_buyer : string;
  br_seller : option string;
  br_profile : option string;
  br_buyer_bill : string;
  br_seller_bill : string;
  br_contract : string;
  br_scope : string;
  br_task : option string;
  br_amount : float;
  br_stake : float;
  br_state : string;
  br_proof : option string;
  br_bind_tx : option string;
  br_submit_tx : option string;
  br_finalize_tx : option string;
  br_pull_after : option Z;
  br_confirmed_at : option Z;
  br_probed_at : option Z;
  br_created_at : Z;
  br_updated_at : Z
}.

(** A commitment with the wallet and the token it is drawn on, and the last answers of the
    chain. *)
Record CommitRow := {
  cr_commit : Commit;
  cr_wallet : string;
  cr_token : string;
  cr_backed : bool;
  cr_synced_at : option Z
}.

Record EscrowTables := {
  et_bindings : list BindingRow;
  et_commits : list CommitRow;
  et_agent_owner : gmap string string;
  et_profile_wallet : gmap string string;
  et_role_wallets : list (string * string)
}.

Record EscrowPolicy := {
  ep_usage : UsagePolicy;
  ep_routes : RoutePolicy;
  ep_readiness_required : bool;
  ep_receipt_signature : bool;
  ep_orphan_cancel : bool;
  ep_batch : nat;
  ep_probe_interval : Z
}.

(** The tables, the chain, and what the process remembers: contracts known to be version 5,
    when a look-up of a transaction failed, when a step failed, and failures that last. *)
Record EWorld {C : Type} := {
  ew_routes : RWorld EscrowTables;
  ew_chain : C;
  ew_v5 : gset string;
  ew_cool : gmap string Z;
  ew_failed : gmap string Z;
  ew_permanent : gset string
}.
Arguments EWorld : clear implicits.

(** What a call finds: the clocks (the monotonic one in milliseconds), the identity store, the
    delivery check and the receipts of a task. *)
Record EscrowEnv := {
  ee_now : Z;
  ee_unix : Z;
  ee_mono : Z;
  ee_main : string -> option string;
  ee_wallet : string -> option string;
  ee_delivery : SettlementRow -> result Exc unit;
  ee_receipts : string -> list Receipt
}.

Section Chain.
Context {C : Type} `{!EscrowRpc C}.
Abbreviation EM := (M (EWorld C) Exc).
Context (p : EscrowPolicy) (keccak : string -> string).

(** ** Access *)

Definition set_routes (r : RWorld EscrowTables) (w : EWorld C) : EWorld C :=
  {| ew_routes := r; ew_chain := ew_chain w; ew_v5 := ew_v5 w; ew_cool := ew_cool w; ew_failed := ew_failed w; ew_permanent := ew_permanent w |}.
Definition on_route {A} (c : M (RWorld EscrowTables) Exc A) : EM A := zoom ew_routes set_routes c.

(** A call of the chain: its failure is a value. *)
Definition on_chain {A} (c : M C string A) : EM (result string A) :=
  fun w => let '(r, ch) := c (ew_chain w) in
    (Ok r, {| ew_routes := ew_routes w; ew_chain := ch; ew_v5 := ew_v5 w; ew_cool := ew_cool w; ew_failed := ew_failed w;
              ew_permanent := ew_permanent w |}).

Definition tables_of (w : EWorld C) : EscrowTables := x_graph (t_rest (working (r_session (ew_routes w)))).
Definition put_tables (f : EscrowTables -> EscrowTables) : EM unit :=
  on_route (put_rest (fun x => {| x_vouchers := x_vouchers x; x_profile_owner := x_profile_owner x; x_v_events := x_v_events x;
                                  x_graph := f (x_graph x); x_quota := x_quota x; x_intents := x_intents x |})).
Definition put_bindings (f : list BindingRow -> list BindingRow) : EM unit :=
  put_tables (fun t => {| et_bindings := f (et_bindings t); et_commits := et_commits t; et_agent_owner := et_agent_owner t;
                          et_profile_wallet := et_profile_wallet t; et_role_wallets := et_role_wallets t |}).

(** The row of a task in the settlements table. *)
Definition settlement_row (task_id : string) : EM (option SettlementRow) :=
  m_get (fun w => head (rows_of_task task_id (t_settle (working (r_session (ew_routes w)))))).

Definition e_commit : EM unit := on_route (on_session commit).
Definition e_rollback : EM unit := on_route (on_session rollback).

(** ** [services/chain/allowance_escrow.py] *)

Definition chan_enabled : bool := escrow_enabled (ep_usage p).
Definition disabled_detail : string := "the escrow channel is not configured".
Definition chain_call {A} (c : M C string A) : EM (result string A) :=
  if chan_enabled then on_chain c else m_ret (Err disabled_detail).

Definition binding_contract (b : BindingRow) : string := or_str (py_strip (br_contract b)) (configured_address (ep_usage p)).
Definition chain_binding_id (b : BindingRow) : option Z := chain_id_of (br_id b).

Definition wei_to_usdc (n : Z) : result Exc float := from_minor_units (route_decimals (ep_routes p)) n.
Definition usdc_to_wei (x : float) : result Exc Z := to_minor_units (route_decimals (ep_routes p)) x.

(** [binding_snapshot] of a binding, an exception included. *)
Definition binding_snapshot (b : BindingRow) : EM (result string ChainView) :=
  match chain_binding_id b with
  | None => m_ret (Err "invalid literal for int()"%string)
  | Some i => chain_call (rpc_get_binding (binding_contract b) i)
  end.

Record Opened := {
  op_binding : Z;
  op_tx : string;
  op_scope : string
}.
Definition scope_hash (scope task_id : string) : string := keccak (scope +:+ ":" +:+ task_id)%string.
Definition open_order (buyer_bill seller_bill : string) (amount stake : float) (scope task_id contract : string) : EM (result string Opened) :=
  match chain_id_of buyer_bill, chain_id_of seller_bill, usdc_to_wei amount, usdc_to_wei stake with
  | Some b, Some s, Ok n, Ok st =>
      do! r := chain_call (rpc_bind contract b s (scope_hash scope task_id) n st) in
      m_ret (let? x := r in Ok {| op_binding := fst x; op_tx := snd x; op_scope := scope_hash scope task_id |})
  | _, _, _, _ => m_ret (Err "invalid order"%string)
  end.

(** A digest is passed on as it is, any other text is hashed. *)
Definition proof_hash (proof : string) : result string string :=
  let raw := if starts_with "0x" proof then proof else keccak proof in
  if decide (String.length raw = 66%nat) then Ok raw else Err "proof hash must be 32 bytes (0x + 64 hex chars)"%string.

(** An answer of a submit: transaction, digest of the proof, end of the window. *)
Record Submitted := {
  sb_tx : string;
  sb_proof : string;
  sb_pull_after : Z
}.
Definition with_id {A} (b : BindingRow) (f : string -> Z -> EM (result string A)) : EM (result string A) :=
  match chain_binding_id b with
  | None => m_ret (Err "invalid literal for int()"%string)
  | Some i => f (binding_contract b) i
  end.
Definition submit_with (rpc : string -> Z -> string -> M C string (string * Z)) (proof : string) (k : string) (i : Z) :
    EM (result string Submitted) :=
  match proof_hash proof with
  | Err e => m_ret (Err e)
  | Ok h =>
      do! r := chain_call (rpc k i h) in
      m_ret (let? x := r in Ok {| sb_tx := fst x; sb_proof := h; sb_pull_after := snd x |})
  end.
Definition submit_settlement (b : BindingRow) (proof : string) : EM (result string Submitted) :=
  with_id b (submit_with rpc_submit_settlement proof).

(** A contract that has once answered with version 5 is remembered; a failed read counts as
    an older contract. *)
Definition supports_v5 (contract : string) : EM bool :=
  if negb chan_enabled || bool_decide (py_strip contract = ""%string) then m_ret false
  else
    do! known := m_get (fun w => bool_decide (py_lower (py_strip contract) ∈ ew_v5 w)) in
    if (known : bool) then m_ret true
    else
      do! r := on_chain (rpc_version (py_strip contract)) in
      match r with
      | Ok v =>
          if 5 <=? v then
            seq! m_put (fun w => {| ew_routes := ew_routes w; ew_chain := ew_chain w;
                                    ew_v5 := {[py_lower (py_strip contract)]} ∪ ew_v5 w; ew_cool := ew_cool w;
                                    ew_failed := ew_failed w; ew_permanent := ew_permanent w |}) in
            m_ret true
          else m_ret false
      | Err _ => m_ret false
      end.

Definition submit_breach (b : BindingRow) (proof : string) : EM (result string Submitted) :=
  with_id b (fun k i =>
    do! v5 := supports_v5 k in
    if (v5 : bool) then submit_with rpc_submit_breach proof k i else submit_with rpc_submit_settlement proof k i).

(** [None] when the contract has no such entry. *)
Definition mark_disputed (b : BindingRow) : EM (result string (option string)) :=
  with_id b (fun k i =>
    do! v5 := supports_v5 k in
    if (v5 : bool) then do! r := chain_call (rpc_mark_disputed k i) in m_ret (let? tx := r in Ok (Some tx))
    else m_ret (Ok None)).

Definition buyer_confirm (b : BindingRow) : EM (result string (option string)) :=
  with_id b (fun k i =>
    do! v := chain_call (rpc_get_binding k i) in
    match v with
    | Err e => m_ret (Err e)
    | Ok v =>
        if cv_confirmed v then m_ret (Ok None)
        else do! r := chain_call (rpc_buyer_confirm k i) in m_ret (let? tx := r in Ok (Some tx))
    end).

Definition cancel_binding (b : BindingRow) : EM (result string string) := with_id b (fun k i => chain_call (rpc_cancel_binding k i)).
Definition finalize_settlement (b : BindingRow) : EM (result string string) := with_id b (fun k i => chain_call (rpc_finalize_settlement k i)).
Definition finalize_breach (b : BindingRow) : EM (result string string) := with_id b (fun k i => chain_call (rpc_finalize_breach k i)).

(** [open_and_submit_order]: a submit that fails gives the reservation back. *)
Definition open_and_submit_order (buyer_bill seller_bill : string) (amount stake : float) (scope task_id proof contract : string) :
    EM (result string (Opened * Submitted)) :=
  do! bound := open_order buyer_bill seller_bill amount stake scope task_id contract in
  match bound with
  | Err e => m_ret (Err e)
  | Ok o =>
      do! sub := submit_with rpc_submit_settlement proof contract (op_binding o) in
      match sub with
      | Ok x => m_ret (Ok (o, x))
      | Err e => seq! chain_call (rpc_cancel_binding contract (op_binding o)) in m_ret (Err e)
      end
  end.

(** A bill that cannot be read has nothing available. *)
Definition bill_available (k : string) (i : Z) : EM (option float) :=
  do! r := chain_call (rpc_available k i) in
  m_ret (match r with
         | Ok n => match wei_to_usdc n with Ok x => Some x | Err _ => None end
         | Err _ => None
         end).

(** [find_binding_event_tx]: nothing when the look-up fails. *)
Definition find_binding_event_tx (b : BindingRow) (i : Z) (event : string) : EM (option string) :=
  do! r := chain_call (rpc_event_tx (binding_contract b) i event (str_or (br_submit_tx b) (br_bind_tx b))) in
  m_ret (match r with Ok tx => tx | Err _ => None end).
End Chain.

(** ** Identifiers are read back *)

(** Every character is a digit. *)
Fixpoint all_digits (s : string) : Prop :=
  match s with
  | EmptyString => True
  | String c s => is_Some (digit c) /\ all_digits s
  end.

Lemma digit_plain c d : digit c = Some d -> is_space c = false /\ c <> COLON /\ c <> Ascii.ascii_of_nat 45 /\ c <> Ascii.ascii_of_nat 43.
Proof. destruct c as [[] [] [] [] [] [] [] []]; vm_compute; intros; by split_and!. Qed.

Lemma digits_no_colon s : all_digits s -> has_colon s = false.
Proof.
  induction s as [|c s IH]; [done|]. intros [[d Hd] Hs]. cbn. destruct (digit_plain c d Hd) as (_ & Hc & _).
  rewrite decide_False by done. by apply IH.
Qed.

Lemma digits_rstrip s : all_digits s -> rstrip s = s.
Proof.
  induction s as [|c s IH]; [done|]. intros [[d Hd] Hs]. cbn. rewrite (IH Hs). destruct (digit_plain c d Hd) as (-> & _).
  by destruct s.
Qed.

Lemma digits_strip s : all_digits s -> py_strip s = s.
Proof.
  intros Hs. unfold py_strip. destruct s as [|c s]; [done|]. pose proof Hs as [[d Hd] _]. cbn [lstrip].
  destruct (digit_plain c d Hd) as (-> & _). by apply digits_rstrip.
Qed.

Lemma digits_int s : all_digits s -> s <> ""%string -> py_int_text s = digits_val s 0.
Proof.
  intros Hs Hne. unfold py_int_text. rewrite digits_strip by done. destruct s as [|c s]; [done|].
  pose proof Hs as [[d Hd] _]. destruct (digit_plain c d Hd) as (_ & _ & H1 & H2).
  rewrite !decide_False by done. unfold digits. by rewrite decide_False.
Qed.

Lemma digit_of_char n : (n < 10)%N -> digit (pretty_N_char n) = Some (Z.of_N n).
Proof.
  intros Hn. rewrite <-(N2Nat.id n). assert (Hk : (N.to_nat n < 10)%nat) by lia. revert Hk. generalize (N.to_nat n) as k. intros k Hk.
  do 10 (destruct k as [|k]; [reflexivity|]). lia.
Qed.

Lemma pretty_go_digits x s : all_digits s ->
  all_digits (pretty_N_go x s) /\ digits_val (pretty_N_go x s) 0 = digits_val s (Z.of_N x).
Proof.
  revert s. induction (N.lt_wf_0 x) as [x _ IH]; intros s Hs. destruct (decide (0 < x)%N) as [Hx|Hx].
  - rewrite pretty_N_go_step by done. pose proof (digit_of_char (x mod 10) ltac:(apply N.mod_lt; lia)) as Hd.
    destruct (IH (x `div` 10)%N ltac:(apply N.div_lt; lia) (String (pretty_N_char (x `mod` 10)) s)) as [H1 H2];
      [cbn; rewrite Hd; eauto|]. split; [exact H1|]. rewrite H2. cbn [digits_val]. rewrite Hd. f_equal.
    rewrite N2Z.inj_div, N2Z.inj_mod. pose proof (Z.div_mod (Z.of_N x) 10). lia.
  - assert (x = 0%N) as -> by lia. rewrite pretty_N_go_0. done.
Qed.

Lemma pretty_digits n : 0 <= n -> all_digits (pretty n) /\ pretty n <> ""%string /\ digits_val (pretty n) 0 = Some n.
Proof.
  intros Hn. destruct n as [|q|q]; [cbn; split_and!; eauto| |lia]. cbn [pretty pretty_Z].
  unfold pretty, pretty_positive, pretty, pretty_N. rewrite decide_False by done.
  destruct (pretty_go_digits (N.pos q) "" I) as [H1 H2]. split_and!; [done| |by rewrite H2].
  intros E. rewrite E in H2. cbn in H2. by injection H2.
Qed.

Lemma after_no_colon s : has_colon s = false -> after_colon s = s.
Proof. destruct s as [|c s]; [done|]. cbn. case_decide; [done|]. by intros ->. Qed.

Lemma after_colon_app a s : has_colon s = false -> after_colon (a +:+ String COLON s) = s.
Proof.
  intros Hs. induction a as [|c a IH]; simpl.
  - by rewrite Hs.
  - assert (has_colon (a +:+ String COLON s) = true) as ->; [|done]. clear. induction a as [|c a IH]; simpl; [done|].
    by case_decide.
Qed.

(** Both forms of a key give the number back. *)
Lemma chain_id_plain n : 0 <= n -> chain_id_of (pretty n) = Some n.
Proof.
  intros Hn. destruct (pretty_digits n Hn) as (H1 & H2 & H3). unfold chain_id_of.
  rewrite after_no_colon by (by apply digits_no_colon). by rewrite digits_int.
Qed.
Lemma chain_id_prefixed k n : 0 <= n -> chain_id_of (k +:+ ":" +:+ pretty n) = Some n.
Proof.
  intros Hn. destruct (pretty_digits n Hn) as (H1 & H2 & H3). unfold chain_id_of.
  change (":" +:+ pretty n)%string with (String COLON (pretty n)). rewrite after_colon_app by (by apply digits_no_colon).
  by rewrite digits_int.
Qed.
