(* ===== verification/EscrowNet.v ===== *)
(** * The contract behind the chain client

    A network with one escrow contract, the operator's account and faults: a call may not
    reach the chain, or be mined without the caller seeing the receipt.  The contract keeps
    the laws the services rely on ([EscrowLaws]), so their theorems hold of it. *)
From stdpp Require Import pretty.
From S2P Require Import Prelude PyText EscrowChain EscrowContract.
Open Scope Z_scope.

Inductive Fault := Fine | Lost | Unseen.

(** ** What a binding of the contract is *)

Definition binding_fact (b : option Binding) : Fact :=
  match b with
  | None => FNone
  | Some b =>
      match bi_state b with
      | NONE => FNone
      | ACTIVE => FActive
      | FINALIZING => if bi_slash_armed b then FBreaching else FPaying
      | SETTLED => FSettled
      | SLASHED => FSlashed
      | CANCELLED => FCancelled
      | DISPUTED => FDisputed
      end
  end.

Lemma binding_code b : BindingState_code (bi_state (default no_binding b)) = fact_code (binding_fact b).
Proof. destruct b as [b|]; [|done]. cbn. by destruct (bi_state b), (bi_slash_armed b). Qed.

Section Facts.
Context {T : Type} `{!ERC20 T}.
Abbreviation K := (Contract T).

Definition contract_fact (k : K) (i : Z) : Fact := binding_fact (k_bindings k !! i).
Definition contract_moves (k k' : K) : Prop := forall i, rtc fact_move (contract_fact k i) (contract_fact k' i).

Lemma contract_moves_same (k k' : K) : k_bindings k' = k_bindings k -> contract_moves k k'.
Proof. intros E i. unfold contract_fact. by rewrite E. Qed.
Lemma contract_moves_one (k k' : K) i b' : k_bindings k' = <[i := b']> (k_bindings k) ->
  rtc fact_move (contract_fact k i) (binding_fact (Some b')) -> contract_moves k k'.
Proof.
  intros E H j. unfold contract_fact in *. rewrite E. destruct (decide (i = j)) as [<-|Hne]; [by rewrite lookup_insert_eq|].
  by rewrite lookup_insert_ne.
Qed.

Ltac kstep H :=
  repeat match type of H with
  | m_bind (require _ _) _ _ = (Ok _, _) =>
      let E := fresh "E" in let u := fresh "u" in apply m_bind_ok in H as (u & ? & E & H); destruct u; apply require_ok in E as [E ->]
  | m_bind (require_binding _) _ _ = (Ok _, _) =>
      let E := fresh "E" in apply m_bind_ok in H as (? & ? & E & H); apply require_binding_ok in E as [E ->]
  | m_bind (bill_of _) _ _ = (Ok _, _) => apply m_bind_ok in H as (? & ? & [= <- <-] & H)
  | m_bind (m_get _) _ _ = (Ok _, _) => apply m_bind_ok in H as (? & ? & [= <- <-] & H)
  | m_bind (lift _) _ _ = (Ok _, _) =>
      let E := fresh "E" in apply m_bind_ok in H as (? & ? & E & H); apply lift_ok in E as [E ->]
  | m_bind (put_bill _ _) _ _ = (Ok _, _) => apply m_bind_ok in H as (? & ? & [= <- <-] & H)
  | m_bind (put_binding _ _) _ _ = (Ok _, _) => apply m_bind_ok in H as (? & ? & [= <- <-] & H)
  | m_bind (put_counters _ _) _ _ = (Ok _, _) => apply m_bind_ok in H as (? & ? & [= <- <-] & H)
  | m_bind (release _ _) _ _ = (Ok _, _) =>
      let E := fresh "E" in let u := fresh "u" in apply m_bind_ok in H as (u & ? & E & H); destruct u; apply release_ok in E as [_ ->]
  | m_bind (spend _ _) _ _ = (Ok _, _) =>
      let E := fresh "E" in let u := fresh "u" in apply m_bind_ok in H as (u & ? & E & H); destruct u; apply spend_ok in E as [_ ->]
  | m_bind (pull _ _ _ _) _ _ = (Ok _, _) =>
      let E := fresh "E" in let u := fresh "u" in let t := fresh "t" in
      apply m_bind_ok in H as (u & ? & E & H); destruct u; apply pull_ok in E as [t ->]
  | m_ret _ _ = (Ok _, _) => injection H as <- <-
  | put_binding _ _ _ = (Ok _, _) => injection H as <-
  | put_bill _ _ _ = (Ok _, _) => injection H as <-
  end.

(** What a call that succeeds does to the binding it names. *)
Lemma cancel_fact sender i (k k' : K) : cancelBinding sender i k = (Ok tt, k') -> contract_fact k' i = FCancelled /\ contract_moves k k'.
Proof.
  intros H. unfold cancelBinding in H. kstep H. split; [unfold contract_fact; cbn; by rewrite lookup_insert_eq|].
  eapply contract_moves_one; [reflexivity|]. unfold contract_fact. rewrite E. cbn. apply rtc_once.
  destruct (decide _) as [->|Hd]; [by constructor; right|]. apply bool_decide_eq_true in E0 as ->. by constructor; left.
Qed.
Lemma mark_fact sender i (k k' : K) : markDisputed sender i k = (Ok tt, k') -> contract_fact k' i = FDisputed /\ contract_moves k k'.
Proof.
  intros H. unfold markDisputed in H. kstep H. split; [unfold contract_fact; cbn; by rewrite lookup_insert_eq|].
  eapply contract_moves_one; [reflexivity|]. unfold contract_fact. rewrite E. apply bool_decide_eq_true in E0. cbn. rewrite E0.
  apply rtc_once. constructor.
Qed.
Lemma confirm_fact sender i (k k' : K) : buyerConfirm sender i k = (Ok tt, k') -> contract_moves k k'.
Proof.
  intros H. unfold buyerConfirm in H. kstep H. eapply contract_moves_one; [reflexivity|]. unfold contract_fact. rewrite E. apply rtc_refl.
Qed.
Lemma submit_fact slash sender now i proof n (k k' : K) : submit slash sender now i proof k = (Ok n, k') ->
  contract_fact k' i = (if slash then FBreaching else FPaying) /\ contract_moves k k'.
Proof.
  intros H. unfold submit in H. kstep H. split; [unfold contract_fact; cbn; rewrite lookup_insert_eq; by destruct slash|].
  eapply contract_moves_one; [reflexivity|]. unfold contract_fact. rewrite E. clear -E0. cbn.
  destruct (bi_state x), slash, (bi_slash_armed x); try done; first [apply rtc_refl|apply rtc_once; constructor; tauto].
Qed.
Lemma pay_fact now i n (k k' : K) : finalizeSettlement now i k = (Ok n, k') -> contract_fact k' i = FSettled /\ contract_moves k k'.
Proof.
  intros H. unfold finalizeSettlement in H. kstep H. split; [unfold contract_fact; cbn; by rewrite lookup_insert_eq|].
  eapply contract_moves_one; [reflexivity|]. unfold contract_fact. rewrite E. apply bool_decide_eq_true in E0. apply negb_true_iff in E1.
  cbn. rewrite E0, E1. apply rtc_once. constructor.
Qed.
Lemma slash_fact sender now i n (k k' : K) : finalizeBreach sender now i k = (Ok n, k') -> contract_fact k' i = FSlashed /\ contract_moves k k'.
Proof.
  intros H. unfold finalizeBreach in H. kstep H. split; [unfold contract_fact; cbn; by rewrite lookup_insert_eq|].
  eapply contract_moves_one; [reflexivity|]. unfold contract_fact. rewrite E. apply bool_decide_eq_true in E0.
  cbn. rewrite E0, E1. apply rtc_once. constructor.
Qed.
Lemma bind_fact sender now b s scope n st i (k k' : K) : solvent k -> bind sender now b s scope n st k = (Ok i, k') ->
  0 <= i /\ contract_fact k' i = FActive /\ contract_moves k k'.
Proof.
  intros HS H. unfold bind in H. kstep H. pose proof (s_counters _ HS) as Hc. split; [lia|]. unfold id.
  split; [unfold contract_fact; cbn; by rewrite lookup_insert_eq|]. eapply contract_moves_one; [reflexivity|].
  unfold contract_fact. destruct (k_bindings k !! _) as [old|] eqn:Hx; [|apply rtc_once; constructor].
  destruct (s_bindings _ HS _ _ Hx) as [? _]. lia.
Qed.

Lemma call_facts sender now c n (k k' : K) : solvent k -> call sender now c k = (Ok n, k') -> contract_moves k k'.
Proof.
  intros HS H. destruct c; cbn [call] in *; unfold as_zero in *;
    try (match type of H with m_bind _ _ _ = _ => apply m_bind_ok in H as ([] & ? & H & H'); injection H' as _ <- end).
  - unfold commit in H. kstep H. by apply contract_moves_same.
  - unfold setOperator, require_open_bill in H. apply m_bind_ok in H as (b & k1 & Hb & H). kstep Hb. kstep H. by apply contract_moves_same.
  - unfold revoke, require_open_bill in H. apply m_bind_ok in H as (b & k1 & Hb & H). kstep Hb. kstep H. by apply contract_moves_same.
  - by eapply bind_fact.
  - by eapply cancel_fact.
  - by eapply mark_fact.
  - by eapply confirm_fact.
  - by eapply submit_fact.
  - by eapply submit_fact.
  - by eapply pay_fact.
  - by eapply slash_fact.
  - unfold configure in H. kstep H. destruct c; kstep H; injection H as <-; by apply contract_moves_same.
  - injection H as <-. by apply contract_moves_same.
Qed.
Lemma transact_facts sender now c (k : K) : solvent k -> contract_moves k (exec (transact sender now c) k).
Proof.
  intros HS. unfold exec, transact. destruct (call sender now c k) as [[n|e] k'] eqn:H; cbn [snd]; [by eapply call_facts|by apply contract_moves_same].
Qed.

(** *** Inside a window *)

Definition same_window (b b' : Binding) : Prop :=
  bi_slash_armed b' = bi_slash_armed b /\ bi_settle_after b' = bi_settle_after b /\
  (bi_state b' = FINALIZING \/ bi_state b' = SETTLED /\ bi_confirmed b = true /\ bi_slash_armed b = false).
Definition window_kept (k k' : K) (i : Z) (b : Binding) : Prop := exists b', k_bindings k' !! i = Some b' /\ same_window b b'.

Lemma window_same (k k' : K) i b : k_bindings k' = k_bindings k -> k_bindings k !! i = Some b -> bi_state b = FINALIZING -> window_kept k k' i b.
Proof. intros E Hb Hs. exists b. rewrite E. repeat split; [done|]. by left. Qed.
Lemma window_one (k k' : K) i j b b' : k_bindings k' = <[j := b']> (k_bindings k) -> k_bindings k !! i = Some b -> bi_state b = FINALIZING ->
  (i = j -> same_window b b') -> window_kept k k' i b.
Proof.
  intros E Hb Hs Hj. unfold window_kept. rewrite E. destruct (decide (j = i)) as [->|Hne].
  - rewrite lookup_insert_eq. eauto.
  - rewrite lookup_insert_ne by done. exists b. repeat split; [done|]. by left.
Qed.

Ltac at_window H := eapply window_one; [reflexivity|eassumption|eassumption|intros ->].
Lemma window_call sender now c n i b (k k' : K) : solvent k -> call sender now c k = (Ok n, k') ->
  k_bindings k !! i = Some b -> bi_state b = FINALIZING -> now < bi_settle_after b -> window_kept k k' i b.
Proof.
  intros HS H Hb Hs Ht. destruct c; cbn [call] in *; unfold as_zero in *;
    try (match type of H with m_bind _ _ _ = _ => apply m_bind_ok in H as ([] & ? & H & H'); injection H' as _ <- end).
  - unfold commit in H. kstep H. by apply window_same.
  - unfold setOperator, require_open_bill in H. apply m_bind_ok in H as (bl0 & k1 & Hx & H). kstep Hx. kstep H. by apply window_same.
  - unfold revoke, require_open_bill in H. apply m_bind_ok in H as (bl0 & k1 & Hx & H). kstep Hx. kstep H. by apply window_same.
  - unfold bind in H. kstep H. at_window H. destruct (s_bindings _ HS _ _ Hb) as [? _]. unfold id in *. lia.
  - unfold cancelBinding in H. kstep H. at_window H. rewrite Hb in E. injection E as <-. rewrite Hs in E0. by vm_compute in E0.
  - unfold markDisputed in H. kstep H. at_window H. rewrite Hb in E. injection E as <-. rewrite Hs in E0. by vm_compute in E0.
  - unfold buyerConfirm in H. kstep H. at_window H. rewrite Hb in E. injection E as <-. repeat split. by left.
  - unfold submitSettlement, submit in H. kstep H. at_window H. rewrite Hb in E. injection E as <-. apply Z.leb_le in E2. lia.
  - unfold submitBreach, submit in H. kstep H. at_window H. rewrite Hb in E. injection E as <-. apply Z.leb_le in E2. lia.
  - unfold finalizeSettlement in H. kstep H. at_window H. rewrite Hb in E. injection E as <-.
    repeat split. right. split; [done|]. apply negb_true_iff in E1. split; [|done].
    destruct (bi_confirmed b); [done|]. rewrite orb_false_r in E2. apply Z.leb_le in E2. lia.
  - unfold finalizeBreach in H. kstep H. at_window H. rewrite Hb in E. injection E as <-. apply Z.leb_le in E3. lia.
  - unfold configure in H. kstep H. destruct c; kstep H; injection H as <-; by apply window_same.
  - injection H as <-. by apply window_same.
Qed.

Lemma window_transact sender now c i b (k : K) : solvent k ->
  k_bindings k !! i = Some b -> bi_state b = FINALIZING -> now < bi_settle_after b -> window_kept k (exec (transact sender now c) k) i b.
Proof.
  intros HS Hb Hs Ht. unfold exec, transact. destruct (call sender now c k) as [[n|e] k'] eqn:H; cbn [snd]; [by eapply window_call|by apply window_same].
Qed.

(** What a window announces cannot be changed while it is open: whatever anyone calls
    before the window ends, the arbitrator included, a paying window stays a paying one and a
    breaching window a breaching one, its end does not move, and it is left early only by the
    payment a paying window announces. *)
Theorem window_not_turned l (k : K) i b : solvent k -> Forall (fun '(_, _, c) => call_uint c) l ->
  k_bindings k !! i = Some b -> bi_state b = FINALIZING -> Forall (fun '(_, now, _) => now < bi_settle_after b) l ->
  exists b', k_bindings (run_calls l k) !! i = Some b' /\ bi_slash_armed b' = bi_slash_armed b /\ bi_settle_after b' = bi_settle_after b /\
    (bi_state b' = FINALIZING \/ bi_state b' = SETTLED /\ bi_slash_armed b = false).
Proof.
  intros HS Hl. unfold run_calls. revert k b HS. induction Hl as [|[[sender now] c] l Hc Hl IH]; intros k b HS Hb Hs Ht.
  - exists b. repeat split; [done|]. by left.
  - apply Forall_cons in Ht as [Ht Hts]. destruct (solvent_transact sender now c k HS Hc) as [HS' _]. cbn [fold_left].
    destruct (window_transact sender now c i b k HS Hb Hs Ht) as (b1 & Hb1 & Ha & He & [Hs1|(Hs1 & _ & Hf)]).
    + rewrite <-Ha, <-He. apply (IH _ b1); [done|done|done|]. by rewrite He.
    + destruct (proj2 (run_kept l _ HS' Hl) i b1 Hb1) as (b2 & Hb2 & _ & _ & _ & _ & _ & Hk). rewrite Hk in Hb2 by (by rewrite Hs1).
      exists b1. repeat split; [done|done|done|]. by right.
Qed.

(** C20. The contract refines the life cycle its clients rely on: whatever anyone calls and
    whenever, a binding goes only from nothing to active, from active into dispute, from active
    or dispute to cancelled or into a window, from a window to the end it announces or into the
    opposite window, and an end is for ever. *)
Theorem contract_refines_lifecycle l (k : K) i : solvent k -> Forall (fun '(_, _, c) => call_uint c) l ->
  rtc fact_move (contract_fact k i) (contract_fact (run_calls l k) i).
Proof.
  intros HS Hl. unfold run_calls. revert k HS. induction Hl as [|[[sender now] c] l Hc _ IH]; intros k HS; [apply rtc_refl|].
  cbn [fold_left]. etrans; [by apply transact_facts|]. apply IH. by apply solvent_transact.
Qed.
End Facts.

Definition turn_calls : list (string * Z * Call Purse) :=
  [("karma", 30, SubmitBreach 1 "q"); ("mallory", 40, FinalizeSettlement 1); ("karma", 50, CancelBinding 1);
   ("alice", 55, BuyerConfirm 1); ("mallory", 56, FinalizeSettlement 1)]%string.
Definition window_contract : Contract Purse := run_calls (take 5 demo_calls) demo_contract.
Lemma window_not_turned_witness :
  outcome (transact "karma" 30 (SubmitBreach 1 "q")) window_contract = Err SettleDelayActive /\
  exists b', k_bindings (run_calls turn_calls window_contract) !! 1 = Some b' /\ bi_slash_armed b' = false /\ bi_settle_after b' = 62 /\
    (bi_state b' = FINALIZING \/ bi_state b' = SETTLED /\ false = false).
Proof.
  split; [vm_compute; reflexivity|].
  destruct (k_bindings window_contract !! 1) as [b|] eqn:E; [|vm_compute in E; discriminate].
  assert (Hb : (fun b => (bi_slash_armed b, bi_settle_after b, bi_state b)) <$> (k_bindings window_contract !! 1) = Some (false, 62, FINALIZING))
    by (vm_compute; reflexivity).
  rewrite E in Hb. injection Hb as H1 H2 H3.
  destruct (window_not_turned turn_calls window_contract 1 b) as (b' & Hb' & Ha & He & Hs).
  - apply run_kept; [apply new_contract_solvent|]. cbn [take demo_calls].
    repeat apply Forall_cons_2; try apply Forall_nil_2; cbn; unfold uint; repeat split; vm_compute; congruence.
  - repeat apply Forall_cons_2; try apply Forall_nil_2; cbn; unfold uint; repeat split; vm_compute; congruence.
  - exact E.
  - exact H3.
  - rewrite H2. repeat apply Forall_cons_2; try apply Forall_nil_2; vm_compute; reflexivity.
  - exists b'. rewrite H1 in Ha, Hs. rewrite H2 in He. by repeat split.
Defined.

Lemma contract_refines_lifecycle_witness :
  contract_fact (run_calls demo_calls demo_contract) 2 = FSlashed /\
  rtc fact_move (contract_fact demo_contract 2) (contract_fact (run_calls demo_calls demo_contract) 2).
Proof.
  split; [vm_compute; reflexivity|]. apply (contract_refines_lifecycle demo_calls demo_contract 2 (new_contract_solvent _)).
  repeat apply Forall_cons_2; try apply Forall_nil_2; cbn; unfold uint; repeat split; vm_compute; congruence.
Defined.

(** ** The network *)

Section Network.
Context {T : Type} `{!ERC20 T}.

Instance uint_dec n : Decision (uint n).
Proof. unfold uint. apply _. Defined.
Instance call_uint_dec (c : Call T) : Decision (call_uint c).
Proof. destruct c; cbn; apply _. Defined.

Record Net := {
  net_address : string;
  net_operator : string;
  net_script : list (Fault * Z);
  net_time : Z;
  net_txs : Z;
  net_events : list (Z * string * string);
  net_contract : Contract T;
  net_solvent : solvent net_contract
}.

(** The next call: what befalls it and how long it takes. *)
Definition next (n : Net) : Fault * Net :=
  match net_script n with
  | [] => (Fine, n)
  | (f, dt) :: rest =>
      (f, {| net_address := net_address n; net_operator := net_operator n; net_script := rest; net_time := net_time n + dt;
             net_txs := net_txs n; net_events := net_events n; net_contract := net_contract n; net_solvent := net_solvent n |})
  end.

Definition revert_text (r : Revert) : string :=
  match r with
  | SameOwner => "SameOwner()" | WrongBindingState => "WrongBindingState" | InsufficientCommitment => "InsufficientCommitment"
  | SettleDelayActive => "SettleDelayActive" | UnknownBinding => "UnknownBinding" | NotResolver => "NotResolver" | _ => "revert"
  end.
Definition event_of (c : Call T) : list (Z * string) :=
  match c with
  | FinalizeSettlement i => [(i, "Settled")]
  | FinalizeBreach i => [(i, "StakeSlashed")]
  | _ => []
  end%string.
Definition tx_name (n : Z) : string := ("0x" +:+ pretty n)%string.

(** The contract after a call and its answer. *)
Definition mined (c : Call T) (H : call_uint c) (n : Net) : result string (Z * string) * Net :=
  let k' := exec (transact (net_operator n) (net_time n) c) (net_contract n) in
  let r := outcome (transact (net_operator n) (net_time n) c) (net_contract n) in
  let tx := tx_name (net_txs n) in
  (match r with Ok x => Ok (x, tx) | Err e => Err (revert_text e) end,
   {| net_address := net_address n; net_operator := net_operator n; net_script := net_script n; net_time := net_time n;
      net_txs := net_txs n + 1;
      net_events := net_events n ++ (if is_ok r then (fun x => (x, tx)) <$> event_of c else []);
      net_contract := k'; net_solvent := proj1 (solvent_transact (net_operator n) (net_time n) c (net_contract n) (net_solvent n) H) |}).
Definition send (address : string) (c : Call T) : M Net string (Z * string) :=
  fun n =>
    let '(f, n) := next n in
    if decide (address = net_address n) then
      match f, decide (call_uint c) with
      | Lost, _ => (Err "the call did not reach the chain"%string, n)
      | _, right _ => (Err "the arguments are not unsigned integers"%string, n)
      | Fine, left H => mined c H n
      | Unseen, left H => (Err "no receipt in time"%string, snd (mined c H n))
      end
    else (Err "no such contract"%string, n).
Definition view {A} (address : string) (q : M (Contract T) Revert A) : M Net string A :=
  fun n =>
    let '(f, n) := next n in
    match f with
    | Fine => (if decide (address = net_address n)
               then match outcome q (net_contract n) with Ok a => Ok a | Err e => Err (revert_text e) end
               else Err "no such contract"%string, n)
    | _ => (Err "the node did not answer"%string, n)
    end.

Definition binding_view (b : Binding) : ChainView :=
  {| cv_state := BindingState_code (bi_state b); cv_confirmed := bi_confirmed b; cv_slash_armed := bi_slash_armed b;
     cv_settle_after := bi_settle_after b |}.
Definition BillState_code (s : BillState) : Z := match s with BILL_NONE => 0 | BILL_OPEN => 1 | BILL_CLOSED => 2 end.
Definition answer {A B} (f : A -> B) (c : M Net string A) : M Net string B := do! a := c in m_ret (f a).

#[export] Instance net_rpc : EscrowRpc Net := {|
  rpc_get_binding k i := answer binding_view (view k (getBinding i));
  rpc_bind k b s scope n st := send k (Bind b s scope n st);
  rpc_submit_settlement k i proof := answer (fun x => (snd x, fst x)) (send k (SubmitSettlement i proof));
  rpc_submit_breach k i proof := answer (fun x => (snd x, fst x)) (send k (SubmitBreach i proof));
  rpc_mark_disputed k i := answer snd (send k (MarkDisputed i));
  rpc_buyer_confirm k i := answer snd (send k (BuyerConfirm i));
  rpc_cancel_binding k i := answer snd (send k (CancelBinding i));
  rpc_finalize_settlement k i := answer snd (send k (FinalizeSettlement i));
  rpc_finalize_breach k i := answer snd (send k (FinalizeBreach i));
  rpc_version k := view k bindingVersion;
  rpc_available k i := view k (available i);
  rpc_get_bill k i := answer (fun b => (bl_reserved b, bl_spent b, BillState_code (bl_state b))) (view k (getBill i));
  rpc_is_backed k i := view k (isBacked i);
  rpc_allowance token owner k := view k (m_get (fun c => token_allowance (k_erc20 c) token owner));
  rpc_event_tx k i event from := fun n =>
    (Ok (snd <$> last (filter (fun x => fst x = (i, event)) (net_events n))), n)
|}.

(** ** The laws *)

Definition net_facts (n : Net) (address : string) (i : Z) : Fact :=
  if decide (address = net_address n) then contract_fact (net_contract n) i else FNone.

Lemma net_moves n n' : net_address n' = net_address n -> contract_moves (net_contract n) (net_contract n') -> moves net_facts n n'.
Proof. intros E H k i. unfold net_facts. rewrite E. case_decide; [apply H|apply rtc_refl]. Qed.
Lemma net_moves_trans n1 n2 n3 : moves net_facts n1 n2 -> moves net_facts n2 n3 -> moves net_facts n1 n3.
Proof. intros H1 H2 k i. etrans; [apply H1|apply H2]. Qed.
Lemma next_moves n : moves net_facts n (snd (next n)) /\ net_address (snd (next n)) = net_address n.
Proof. unfold next. destruct (net_script n) as [|[f dt] l]; (split; [intros k i; apply rtc_refl|done]). Qed.
Lemma mined_moves c H n : moves net_facts n (snd (mined c H n)).
Proof. apply net_moves; [done|]. cbn. apply transact_facts, net_solvent. Qed.
Lemma send_moves k c n : moves net_facts n (exec (send k c) n).
Proof.
  unfold exec, send. destruct (next_moves n) as [H1 _]. destruct (next n) as [f n1]. cbn in H1. case_decide; [|done].
  destruct f, (decide (call_uint c)) as [Hc|]; try exact H1.
  - eapply net_moves_trans; [exact H1|apply mined_moves].
  - eapply net_moves_trans; [exact H1|]. unfold snd at 1. apply mined_moves.
Qed.
Lemma view_moves {A} k (q : M (Contract T) Revert A) n : moves net_facts n (exec (view k q) n).
Proof. unfold exec, view. destruct (next_moves n) as [H1 _]. destruct (next n) as [f n1]. by destruct f. Qed.
Lemma answer_moves {A B} (f : A -> B) c n : moves net_facts n (exec c n) -> moves net_facts n (exec (answer f c) n).
Proof. unfold exec, answer, m_bind. by destruct (c n) as [[a|e] n']. Qed.

(** A call that reports success was made on the contract. *)
Lemma mined_ok c H n x tx : fst (mined c H n) = Ok (x, tx) ->
  call (net_operator n) (net_time n) c (net_contract n) = (Ok x, net_contract (snd (mined c H n))).
Proof.
  unfold mined. cbn [fst snd net_contract]. unfold outcome, exec, transact. destruct (call _ _ _ _) as [[y|e] k']; cbn; [by intros [= -> _]|done].
Qed.
Lemma send_ok k c n x tx n' : send k c n = (Ok (x, tx), n') ->
  exists n1, k = net_address n' /\ call (net_operator n1) (net_time n1) c (net_contract n1) = (Ok x, net_contract n') /\ solvent (net_contract n1).
Proof.
  unfold send. destruct (next n) as [f n1]. destruct (decide (k = net_address n1)) as [->|]; [|done].
  destruct f, (decide (call_uint c)) as [Hc|]; try done. intros H. exists n1. pose proof (mined_ok c Hc n1 x tx) as Hm.
  rewrite H in Hm. split_and!; [|by apply Hm|apply net_solvent]. change (net_address n1 = net_address (snd (Ok (x, tx) : result string _, n'))). by rewrite <- H.
Qed.
Lemma answer_ok {A B} (f : A -> B) c (n : Net) b n' : answer f c n = (Ok b, n') -> exists a, c n = (Ok a, n') /\ b = f a.
Proof. intros H. apply m_bind_ok in H as (a & n1 & H & [= <- <-]). by exists a. Qed.
Lemma as_zero_ok (c : M (Contract T) Revert unit) k x k' : as_zero c k = (Ok x, k') -> c k = (Ok tt, k').
Proof. intros H. apply m_bind_ok in H as ([] & k1 & H & [= _ <-]). done. Qed.

(** A success and the fact it leaves. *)
Lemma sent_fact {B} (f : Z * string -> B) k c i s n x n' :
  (forall sender now k1 y k2, solvent k1 -> call sender now c k1 = (Ok y, k2) -> contract_fact k2 i = s) ->
  answer f (send k c) n = (Ok x, n') -> net_facts n' k i = s.
Proof.
  intros Hs H. apply answer_ok in H as ([y tx] & H & _). apply send_ok in H as (n1 & -> & H & HS). unfold net_facts. rewrite decide_True by done. eauto.
Qed.

#[export] Instance net_laws : EscrowLaws Net net_facts.
Proof.
  constructor; intros; try (first [apply answer_moves, send_moves|apply answer_moves, view_moves|apply send_moves|apply view_moves]).
  - intros k' i'. apply rtc_refl.
  - apply answer_ok in H as (b & H & ->). unfold view in H. destruct (next ch) as [f n1]. destruct f; try done.
    destruct (decide (k = net_address n1)) as [->|]; [|done]. cbn in H. injection H as <- <-. unfold net_facts. rewrite decide_True by done.
    cbn [binding_view cv_state cv_slash_armed]. rewrite binding_code. split; [done|]. unfold contract_fact.
    destruct (k_bindings (net_contract n1) !! i) as [b|]; [|done]. cbn. unfold id. destruct (bi_state b), (bi_slash_armed b); done.
  - apply send_ok in H as (n1 & -> & H & HS). unfold net_facts. rewrite decide_True by done.
    destruct (bind_fact _ _ _ _ _ _ _ _ _ _ HS H) as (H1 & -> & _). split; [done|apply rtc_refl].
  - rewrite (sent_fact _ _ (SubmitSettlement i h) i FPaying _ _ _ ltac:(intros ????? _ Hc; apply submit_fact in Hc; apply Hc) H). apply rtc_refl.
  - rewrite (sent_fact _ _ (SubmitBreach i h) i FBreaching _ _ _ ltac:(intros ????? _ Hc; apply submit_fact in Hc; apply Hc) H). apply rtc_refl.
  - rewrite (sent_fact _ _ (MarkDisputed i) i FDisputed _ _ _ ltac:(intros ????? _ Hc; apply as_zero_ok, mark_fact in Hc; apply Hc) H). apply rtc_refl.
  - exact (sent_fact _ _ (CancelBinding i) i FCancelled _ _ _ ltac:(intros ????? _ Hc; apply as_zero_ok, cancel_fact in Hc; apply Hc) H).
  - exact (sent_fact _ _ (FinalizeSettlement i) i FSettled _ _ _ ltac:(intros ????? _ Hc; apply pay_fact in Hc; apply Hc) H).
  - exact (sent_fact _ _ (FinalizeBreach i) i FSlashed _ _ _ ltac:(intros ????? _ Hc; apply slash_fact in Hc; apply Hc) H).
Qed.
End Network.
Arguments Net : clear implicits.
