(* ===== verification/EscrowBills.v ===== *)
(** * Bills, backing, parties and the trace of funds

    What the escrow channel checks before money is bound or moved: the bills of an identity
    and the allowance behind them ([list_commits], [sync_commits], [allocate_allowance],
    [backing_report] of services/chain/allowance_escrow.py), the choice of a bill, the
    identities and wallets of the parties and the ban on dealing with oneself
    ([_pick_bill] to [detect_self_dealing] of services/chain/escrow_settlement.py), and
    services/chain/funds_trace.py. *)
From S2P Require Import Prelude PyText PyFloat FloatFacts PyJson RuntimeSafety AtomicLedger Capacity ProfileCapacity.
From S2P Require Import Amounts Voucher SettlementEngine SettlementTransitions UsageBilling SettlementRoutes EscrowChain.
From stdpp Require Import pretty.
Open Scope Z_scope.

(** ** Sharing one allowance *)

(** Each bill takes what it needs of what the older ones have left. *)
Fixpoint allocate_from (bills : list (string * float)) (remaining : float) (secured : list (string * float)) :
    list (string * float) :=
  match bills with
  | [] => secured
  | (b, live) :: rest =>
      let take := py_min (py_max fzero (or_zero (Some live))) remaining in
      allocate_from rest (py_round_to 6 (remaining - take)%float) (dict_set b (py_round_to 6 take) secured)
  end.
Definition allocate_allowance (bills : list (string * float)) (allowance : float) : list (string * float) :=
  allocate_from bills (py_max fzero (or_zero (Some allowance))) [].

(** Oldest bill first; a number that cannot be read comes last. *)
Definition bill_sort_key (bill : string) : Z * string :=
  match chain_id_of bill with Some i => (i, bill) | None => (2 ^ 63, bill) end.
Definition key_leb (a b : Z * string) : bool :=
  if fst a <? fst b then true else if fst b <? fst a then false else String.leb (snd a) (snd b).
Fixpoint insert_by_bill (r : CommitRow) (l : list CommitRow) : list CommitRow :=
  match l with
  | [] => [r]
  | x :: l' => if key_leb (bill_sort_key (cm_bill (cr_commit r))) (bill_sort_key (cm_bill (cr_commit x)))
               then r :: l else x :: insert_by_bill r l'
  end.
Definition sort_by_bill (l : list CommitRow) : list CommitRow := foldr insert_by_bill [] l.

Abbreviation GroupKey := (string * string * string)%type.

Record Backing := {
  bk_allowance : float;
  bk_committed : float;
  bk_secured : float;
  bk_unsecured : float;
  bk_checked : bool;
  bk_bills : list (string * (float * float));
  bk_legacy_contracts : list string;
  bk_legacy_committed : float;
  bk_legacy_secured : float;
  bk_legacy_bills : list (string * (float * float))
}.

Definition no_backing : Backing :=
  {| bk_allowance := fzero; bk_committed := fzero; bk_secured := fzero; bk_unsecured := fzero; bk_checked := false;
     bk_bills := []; bk_legacy_contracts := []; bk_legacy_committed := fzero; bk_legacy_secured := fzero;
     bk_legacy_bills := [] |}.

(** The reasons [detect_self_dealing] gives. *)
Inductive SelfDeal :=
| same_party_id (who : string)
| same_owner_identity (who : string)
| same_wallet (wallet : string).

Definition least_string (l : list string) : option string :=
  match l with
  | [] => None
  | x :: l => Some (fold_left (fun a b => if String.leb a b then a else b) l x)
  end.

(** Only what looks like an address is a wallet. *)
Definition norm_wallet (value : option string) : string :=
  let raw := lower_strip (default ""%string value) in
  if starts_with "0x" raw && bool_decide (String.length raw = 42%nat) then raw else ""%string.

Record FundsTrace := {
  ft_issues : list string;
  ft_warnings : list string
}.
Definition trace_ok (t : FundsTrace) : bool := bool_decide (ft_issues t = []).

Section Bills.
Context {C : Type} `{!EscrowRpc C}.
Abbreviation EM := (M (EWorld C) Exc).
Context (p : EscrowPolicy) (py_sum : list float -> float) (e : EscrowEnv).
Abbreviation up := (ep_usage p).

(** [_minor]: amounts are compared in the smallest unit of the token. *)
Definition minor (amount : float) : result Exc Z := to_minor_units (route_decimals (ep_routes p)) (or_zero (Some amount)).

(** ** Commitments *)

(** Newest bill first. *)
Definition commits_of (identity : string) (t : EscrowTables) : list CommitRow :=
  reverse (filter (fun c => cm_identity (cr_commit c) = identity) (et_commits t)).
Definition list_commits (identity : string) : EM (list CommitRow) := m_get (fun w => commits_of identity (tables_of w)).

Definition put_commits (f : list CommitRow -> list CommitRow) : EM unit :=
  put_tables (fun t => {| et_bindings := et_bindings t; et_commits := f (et_commits t); et_agent_owner := et_agent_owner t;
                          et_profile_wallet := et_profile_wallet t; et_role_wallets := et_role_wallets t |}).

(** What the chain says of one bill: reserved, spent, backed, the code of its state. *)
Definition read_bill (r : CommitRow) : EM (option (float * float * bool * Z)) :=
  let c := cr_commit r in
  if decide (cm_state c = "revoked"%string) then m_ret None
  else
    match chain_id_of (cm_bill c) with
    | None => m_ret None
    | Some i =>
        let k := bill_contract up c in
        do! bill := chain_call p (rpc_get_bill k i) in
        match bill with
        | Err _ => m_ret None
        | Ok (res, sp, st) =>
            do! backed := chain_call p (rpc_is_backed k i) in
            match backed with
            | Err _ => m_ret None
            | Ok b =>
                do! x := lift (wei_to_usdc p res) in
                do! y := lift (wei_to_usdc p sp) in
                m_ret (Some (x, y, b, st))
            end
        end
    end.
Fixpoint read_bills (rows : list CommitRow) : EM (list (CommitRow * option (float * float * bool * Z))) :=
  match rows with
  | [] => m_ret []
  | r :: rows => do! s := read_bill r in do! l := read_bills rows in m_ret ((r, s) :: l)
  end.
Definition synced (snap : float * float * bool * Z) (r : CommitRow) : CommitRow :=
  let '(res, sp, b, st) := snap in
  let c := cr_commit r in
  {| cr_commit := {| cm_bill := cm_bill c; cm_identity := cm_identity c; cm_contract := cm_contract c; cm_amount := cm_amount c;
                     cm_spent := sp; cm_reserved := res; cm_state := if st =? 2 then "closed" else "open" |};
     cr_wallet := cr_wallet r; cr_token := cr_token r; cr_backed := b; cr_synced_at := Some (ee_now e) |}.
Definition put_synced (x : CommitRow * option (float * float * bool * Z)) : EM unit :=
  match snd x with
  | None => m_ret tt
  | Some snap => put_commits (fmap (fun r => if decide (cm_bill (cr_commit r) = cm_bill (cr_commit (fst x))) then synced snap r else r))
  end.
Fixpoint each {A} (f : A -> EM unit) (l : list A) : EM unit :=
  match l with
  | [] => m_ret tt
  | x :: l => seq! f x in each f l
  end.
Definition sync_commits (identity : string) : EM unit :=
  do! rows := list_commits identity in
  if bool_decide (rows = [] :> list CommitRow) || negb (chan_enabled p) then m_ret tt
  else do! snaps := read_bills (sort_by_bill rows) in each put_synced snaps.

(** ** [backing_report] *)

Definition live_of (r : CommitRow) : float :=
  py_max fzero (or_zero (Some (cm_amount (cr_commit r))) - or_zero (Some (cm_spent (cr_commit r))))%float.
Definition group_key (r : CommitRow) : GroupKey := (cr_wallet r, cr_token r, bill_contract up (cr_commit r)).
Definition add_to_group (g : list (GroupKey * list CommitRow)) (r : CommitRow) : list (GroupKey * list CommitRow) :=
  if mem (cm_state (cr_commit r)) ["revoked"; "closed"]%string || (live_of r <=? fzero)%float then g
  else dict_set (group_key r) (default [] (dict_get (group_key r) g) ++ [r]) g.
Definition is_current (contract : string) : bool := negb (chan_enabled p) || is_current_contract up contract.
Definition live_pairs (g : list CommitRow) : list (string * float) :=
  (fun r => (cm_bill (cr_commit r), live_of r)) <$> sort_by_bill g.

(** The commitments, summed before the chain is asked. *)
Definition add_committed (b : Backing) (g : GroupKey * list (string * float)) : Backing :=
  let contract := snd (fst g) in
  let total := py_sum (snd <$> snd g) in
  let current := is_current contract in
  {| bk_allowance := bk_allowance b;
     bk_committed := if current then (bk_committed b + total)%float else bk_committed b;
     bk_secured := bk_secured b; bk_unsecured := bk_unsecured b; bk_checked := bk_checked b; bk_bills := bk_bills b;
     bk_legacy_contracts := if current || mem contract (bk_legacy_contracts b) then bk_legacy_contracts b
                            else bk_legacy_contracts b ++ [contract];
     bk_legacy_committed := if current then bk_legacy_committed b else (bk_legacy_committed b + total)%float;
     bk_legacy_secured := bk_legacy_secured b; bk_legacy_bills := bk_legacy_bills b |}.
Definition round_committed (b : Backing) : Backing :=
  {| bk_allowance := bk_allowance b; bk_committed := py_round_to 6 (bk_committed b); bk_secured := bk_secured b;
     bk_unsecured := bk_unsecured b; bk_checked := bk_checked b; bk_bills := bk_bills b;
     bk_legacy_contracts := bk_legacy_contracts b; bk_legacy_committed := py_round_to 6 (bk_legacy_committed b);
     bk_legacy_secured := bk_legacy_secured b; bk_legacy_bills := bk_legacy_bills b |}.

(** Bills of the current contract and of earlier ones are kept apart. *)
Definition put_bill (contract bill : string) (live secured : float) (b : Backing) : Backing :=
  let entry := (py_round_to 6 live, secured) in
  {| bk_allowance := bk_allowance b; bk_committed := bk_committed b; bk_secured := bk_secured b; bk_unsecured := bk_unsecured b;
     bk_checked := bk_checked b;
     bk_bills := if is_current contract then dict_set bill entry (bk_bills b) else bk_bills b;
     bk_legacy_contracts := bk_legacy_contracts b; bk_legacy_committed := bk_legacy_committed b;
     bk_legacy_secured := bk_legacy_secured b;
     bk_legacy_bills := if is_current contract then bk_legacy_bills b else dict_set bill entry (bk_legacy_bills b) |}.
Definition put_bills (contract : string) (pairs secured : list (string * float)) (b : Backing) : Backing :=
  fold_left (fun b x => put_bill contract (fst x) (snd x) (default fzero (dict_get (fst x) secured)) b) pairs b.

(** Without a contract there is no allowance: the commitments stand for themselves. *)
Definition unenforced (groups : list (GroupKey * list (string * float))) (b : Backing) : Backing :=
  let b := fold_left (fun b g => put_bills (snd (fst g)) (snd g)
                        ((fun x => (fst x, py_round_to 6 (snd x))) <$> snd g) b) groups b in
  {| bk_allowance := bk_allowance b; bk_committed := bk_committed b; bk_secured := bk_committed b; bk_unsecured := bk_unsecured b;
     bk_checked := bk_checked b; bk_bills := bk_bills b; bk_legacy_contracts := bk_legacy_contracts b;
     bk_legacy_committed := bk_legacy_committed b; bk_legacy_secured := bk_legacy_committed b;
     bk_legacy_bills := bk_legacy_bills b |}.

(** [_read_allowances_from_chain]: a read that fails is an allowance of nothing, not read. *)
Definition read_allowance (g : GroupKey) : EM (float * bool) :=
  let '(wallet, token, contract) := g in
  do! r := chain_call p (rpc_allowance token wallet contract) in
  m_ret (match r with
         | Ok n => match wei_to_usdc p n with Ok x => (x, true) | Err _ => (fzero, false) end
         | Err _ => (fzero, false)
         end).
Fixpoint read_allowances (keys : list GroupKey) : EM (list (float * bool)) :=
  match keys with
  | [] => m_ret []
  | k :: keys => do! a := read_allowance k in do! l := read_allowances keys in m_ret (a :: l)
  end.

Definition enforce (b : Backing) (x : GroupKey * list (string * float) * (float * bool)) : Backing :=
  let '(g, (allowance, ok)) := x in
  let contract := snd (fst g) in
  let pairs := snd g in
  let current := is_current contract in
  let secured := allocate_allowance pairs allowance in
  let committed := py_round_to 6 (py_sum (snd <$> pairs)) in
  let total := py_round_to 6 (py_sum (snd <$> secured)) in
  let b := put_bills contract pairs secured b in
  {| bk_allowance := if current then (bk_allowance b + allowance)%float else bk_allowance b;
     bk_committed := bk_committed b;
     bk_secured := if current then (bk_secured b + total)%float else bk_secured b;
     bk_unsecured := if current then (bk_unsecured b + py_round_to 6 (committed - total))%float else bk_unsecured b;
     bk_checked := bk_checked b && (ok || negb current);
     bk_bills := bk_bills b; bk_legacy_contracts := bk_legacy_contracts b; bk_legacy_committed := bk_legacy_committed b;
     bk_legacy_secured := if current then bk_legacy_secured b else (bk_legacy_secured b + total)%float;
     bk_legacy_bills := bk_legacy_bills b |}.
Definition round_backing (b : Backing) : Backing :=
  {| bk_allowance := py_round_to 6 (bk_allowance b); bk_committed := py_round_to 6 (bk_committed b);
     bk_secured := py_round_to 6 (bk_secured b); bk_unsecured := py_round_to 6 (bk_unsecured b); bk_checked := bk_checked b;
     bk_bills := bk_bills b; bk_legacy_contracts := bk_legacy_contracts b; bk_legacy_committed := bk_legacy_committed b;
     bk_legacy_secured := py_round_to 6 (bk_legacy_secured b); bk_legacy_bills := bk_legacy_bills b |}.
Definition start_checked (b : Backing) : Backing :=
  {| bk_allowance := bk_allowance b; bk_committed := bk_committed b; bk_secured := bk_secured b; bk_unsecured := bk_unsecured b;
     bk_checked := true; bk_bills := bk_bills b; bk_legacy_contracts := bk_legacy_contracts b;
     bk_legacy_committed := bk_legacy_committed b; bk_legacy_secured := bk_legacy_secured b;
     bk_legacy_bills := bk_legacy_bills b |}.

Definition backing_report (rows : list CommitRow) : EM Backing :=
  let groups := (fun g => (fst g, live_pairs (snd g))) <$> fold_left add_to_group rows [] in
  let b := round_committed (fold_left add_committed groups no_backing) in
  if bool_decide (groups = [] :> list (GroupKey * list (string * float))) then m_ret b
  else if negb (chan_enabled p) then m_ret (unenforced groups b)
  else
    do! readings := read_allowances (fst <$> groups) in
    m_ret (round_backing (fold_left enforce (combine groups readings) (start_checked b))).

(** ** Choosing a bill *)

Record Pick := {
  pk_best : option (Z * string);
  pk_candidates : list Z
}.
Definition weigh (bk : Backing) (need : Z) (r : CommitRow) (k : Pick) : EM Pick :=
  let c := cr_commit r in
  do! a := lift (minor (cm_amount c)) in
  do! s := lift (minor (cm_spent c)) in
  do! v := lift (minor (cm_reserved c)) in
  let free := a - s - v in
  do! secured := lift (minor (default fzero (snd <$> dict_get (cm_bill c) (bk_bills bk)))) in
  if (free <? need) || (secured <? need)
  then m_ret {| pk_best := pk_best k; pk_candidates := pk_candidates k ++ [Z.min free secured] |}
  else
    match chain_id_of (cm_bill c) with
    | None => m_raise (ValueError "invalid literal for int()")
    | Some i =>
        do! onchain := bill_available p (bill_contract up c) i in
        match onchain with
        | None => m_ret k
        | Some x =>
            do! o := lift (minor x) in
            let candidates := pk_candidates k ++ [Z.min (Z.min free secured) o] in
            let room := Z.min free o in
            let better := match pk_best k with None => true | Some (b, _) => b <? room end in
            m_ret {| pk_best := if negb (o <? need) && better then Some (room, cm_bill c) else pk_best k;
                     pk_candidates := candidates |}
        end
    end.
Fixpoint weigh_all (bk : Backing) (need : Z) (rows : list CommitRow) (k : Pick) : EM Pick :=
  match rows with
  | [] => m_ret k
  | r :: rows => do! k := weigh bk need r k in weigh_all bk need rows k
  end.

Definition is_live (r : CommitRow) : bool := bool_decide (cm_state (cr_commit r) = "open"%string).
Definition no_bill_detail (role : string) : string := (role +:+ " has no commitment on the chain")%string.
Definition old_contract_detail (role : string) : string := (role +:+ "'s commitments are on an earlier contract")%string.
Definition unread_detail (role : string) : string := ("the allowance of " +:+ role +:+ " cannot be read")%string.
Definition short_detail (role : string) : string := (role +:+ "'s free commitment is not enough")%string.

Definition pick_bill_of (rows : list CommitRow) (report : option Backing) (role : string) (need : float) : EM string :=
  do! need_minor := lift (minor (py_max fzero (or_zero (Some need)))) in
  let live := filter (fun r => is_live r = true) rows in
  if bool_decide (live = [] :> list CommitRow) then m_raise (HTTPException 409 (no_bill_detail role))
  else
    let spendable := filter (fun r => bill_is_spendable up (cr_commit r) = true) live in
    if bool_decide (spendable = [] :> list CommitRow) then m_raise (HTTPException 409 (old_contract_detail role))
    else
      do! bk := match report with Some b => m_ret b | None => backing_report rows end in
      if negb (bk_checked bk) then m_raise (HTTPException 503 (unread_detail role))
      else
        do! k := weigh_all bk need_minor spendable {| pk_best := None; pk_candidates := [] |} in
        match pk_best k with
        | None => m_raise (HTTPException 409 (short_detail role))
        | Some (_, bill) => m_ret bill
        end.
Definition pick_bill (identity role : string) (need : float) : EM string :=
  do! rows := list_commits identity in pick_bill_of rows None role need.

(** ** The parties *)

(** An agent stands for the identity that owns it. *)
Definition resolve_party (t : EscrowTables) (party : option string) : string :=
  let resolved := py_strip (default ""%string party) in
  if decide (resolved = ""%string) then resolved
  else or_str (py_strip (default ""%string (et_agent_owner t !! resolved))) resolved.
Definition resolve_party_identity (party : option string) : EM string := m_get (fun w => resolve_party (tables_of w) party).

Definition bill_wallet (t : EscrowTables) (identity bill : string) : option string :=
  head (filter (fun x => x <> ""%string)
    ((fun r => lower_strip (cr_wallet r)) <$> filter (fun r => cm_bill (cr_commit r) = bill) (commits_of identity t))).

Definition party_owner (t : EscrowTables) (party : string) : string := or_str (resolve_party t (Some party)) (py_strip party).
(** The person behind a party, as far as the identity store knows. *)
Definition party_main (t : EscrowTables) (party : string) : string :=
  let owner := party_owner t party in
  if decide (owner = ""%string) then ""%string else or_str (default ""%string (ee_main e owner)) owner.

Definition store_wallet (id : string) : string := if decide (id = ""%string) then ""%string else norm_wallet (ee_wallet e id).
Definition party_wallets (t : EscrowTables) (party : string) (bill : option string) : gset string :=
  let owner := party_owner t party in
  let main := party_main t party in
  let of_bill := match str_or bill None with
                 | Some b => {[norm_wallet (bill_wallet t owner b)]}
                 | None => ∅
                 end in
  let of_store := {[store_wallet party; store_wallet owner; store_wallet main]} in
  let of_tables := if decide (main = ""%string) then ∅
                   else list_to_set (norm_wallet (et_profile_wallet t !! main) ::
                          ((fun x => norm_wallet (Some (snd x))) <$> filter (fun x => fst x = main) (et_role_wallets t))) in
  (of_bill ∪ of_store ∪ of_tables) ∖ {[""%string]}.

Definition detect_self_dealing (t : EscrowTables) (buyer seller : option string) (buyer_bill seller_bill : option string) :
    option SelfDeal :=
  let buyer := py_strip (default ""%string buyer) in
  let seller := py_strip (default ""%string seller) in
  if bool_decide (buyer = ""%string) || bool_decide (seller = ""%string) then None
  else if decide (py_lower buyer = py_lower seller) then Some (same_party_id buyer)
  else
    let bm := party_main t buyer in
    let sm := party_main t seller in
    if negb (bool_decide (bm = ""%string)) && negb (bool_decide (sm = ""%string)) && bool_decide (py_lower bm = py_lower sm)
    then Some (same_owner_identity bm)
    else same_wallet <$> least_string (elements (party_wallets t buyer buyer_bill ∩ party_wallets t seller seller_bill)).
Definition self_dealing_detail (d : SelfDeal) : string :=
  match d with
  | same_party_id _ => "buyer and seller are the same party: SameOwner()"
  | same_owner_identity _ => "buyer and seller belong to the same identity: SameOwner()"
  | same_wallet _ => "buyer and seller share a wallet: SameOwner()"
  end.
Definition assert_parties_not_self_dealing (buyer seller : option string) (buyer_bill seller_bill : option string) : EM unit :=
  do! hit := m_get (fun w => detect_self_dealing (tables_of w) buyer seller buyer_bill seller_bill) in
  match hit with
  | None => m_ret tt
  | Some d => m_raise (HTTPException 409 (self_dealing_detail d))
  end.

(** ** [services/chain/funds_trace.py] *)

Definition issue (bad : bool) (text : string) : list string := if bad then [text] else [].
Definition trace_minor (x : float) : result Exc Z :=
  match minor x with Err (ValueError _) => Ok 0 | r => r end.
Definition find_bill (t : EscrowTables) (identity bill : string) : option CommitRow :=
  if bool_decide (identity = ""%string) || bool_decide (bill = ""%string) then None
  else head (filter (fun r => cm_bill (cr_commit r) = bill) (commits_of identity t)).
Definition wallet_of (r : CommitRow) : option string := str_or (Some (norm_wallet (Some (cr_wallet r)))) None.
Definition party_of (t : EscrowTables) (party : option string) : string :=
  or_str (resolve_party t party) (py_strip (default ""%string party)).

Definition pointer_issues (s : SettlementRow) (b : BindingRow) : list string :=
  issue (bool_decide (chain_binding_id b = None)) "the key of the binding has no chain number" ++
  issue (match sr_onchain_binding_id s with Some i => negb (bool_decide (chain_binding_id b = Some i)) | None => false end)
    "the settlement names another binding" ++
  issue (match sr_onchain_buyer_bill_id s with Some i => negb (bool_decide (chain_id_of (br_buyer_bill b) = Some i)) | None => false end)
    "the settlement names another buyer bill" ++
  issue (match sr_onchain_agent_bill_id s with Some i => negb (bool_decide (chain_id_of (br_seller_bill b) = Some i)) | None => false end)
    "the settlement names another seller bill".
Definition bill_issues (bb sb : option CommitRow) : list string :=
  issue (if bb is Some _ then false else true) "the buyer's bill is not the buyer's" ++
  issue (if sb is Some _ then false else true) "the seller's bill is not the seller's" ++
  issue (match bb ≫= wallet_of, sb ≫= wallet_of with Some x, Some y => bool_decide (x = y) | _, _ => false end)
    "buyer and seller share a wallet".
Definition party_warnings (t : EscrowTables) (s : SettlementRow) (b : BindingRow) (bb sb : option CommitRow) : list string :=
  let differ x y := negb (bool_decide (x = ""%string)) && negb (bool_decide (y = ""%string)) && negb (bool_decide (x = y :> string)) in
  issue (differ (party_of t (Some (sr_client_agent_id s))) (party_of t (Some (br_buyer b)))) "another buyer on the binding" ++
  issue (differ (party_of t (sr_worker_agent_id s)) (party_of t (br_seller b))) "another seller on the binding" ++
  issue (match bb with Some r => bool_decide (wallet_of r = None) | None => false end) "no wallet on the buyer's bill" ++
  issue (match sb with Some r => bool_decide (wallet_of r = None) | None => false end) "no wallet on the seller's bill".
Definition trace_of (t : EscrowTables) (audited : bool) (s : SettlementRow) (b : BindingRow) : result Exc FundsTrace :=
  let bb := find_bill t (party_of t (Some (sr_client_agent_id s))) (br_buyer_bill b) in
  let sb := find_bill t (party_of t (sr_worker_agent_id s)) (br_seller_bill b) in
  let contract := binding_contract p b in
  let noted := lower_strip (default ""%string (sr_contract_address s)) in
  let onchain := lower_strip (default ""%string (sr_onchain_status s)) in
  let? held := trace_minor (sr_escrow_amount s) in
  let? bound := trace_minor (br_amount b) in
  Ok {| ft_issues := pointer_issues s b ++ bill_issues bb sb ++
          issue (negb (is_current_contract up contract)) "the binding is on an earlier contract" ++
          issue (held <? bound) "the binding takes more than the escrow" ++
          issue (mem (br_state b) ["settled"; "slashed"]%string && negb (bool_decide (onchain = br_state b)))
            "the money has moved and the books have not";
        ft_warnings := party_warnings t s b bb sb ++
          issue (negb (bool_decide (noted = ""%string)) && negb (bool_decide (noted = lower_strip contract)))
            "another contract on the settlement" ++
          issue (bound <? held) "the binding takes less than the escrow" ++
          issue (negb audited) "no audit of this task" |}.

(** The newest binding of a task. *)
Definition newer (best : option BindingRow) (b : BindingRow) : option BindingRow :=
  match best with
  | Some x => if br_created_at b <? br_created_at x then best else Some b
  | None => Some b
  end.
Definition newest_binding (task_id : string) (t : EscrowTables) : option BindingRow :=
  fold_left newer (filter (fun b => br_task b = Some task_id) (et_bindings t)) None.
Definition find_binding (task_id : string) : EM (option BindingRow) := m_get (fun w => newest_binding task_id (tables_of w)).

Definition trace_task_funds (task_id : string) (w : EWorld C) : result Exc FundsTrace :=
  let t := tables_of w in
  match head (rows_of_task task_id (t_settle (working (r_session (ew_routes w))))), newest_binding task_id t with
  | None, _ => Ok {| ft_issues := ["no settlement for this task"]; ft_warnings := [] |}
  | _, None => Ok {| ft_issues := ["no binding for this task"]; ft_warnings := [] |}
  | Some s, Some b =>
      trace_of t (existsb (fun a => bool_decide (au_task_id a = task_id)) (t_audits (working (r_session (ew_routes w))))) s b
  end.
Definition assert_funds_traceable (task_id stage : string) : EM unit :=
  do! r := m_get (trace_task_funds task_id) in
  do! t := lift r in
  if trace_ok t then m_ret tt
  else m_raise (HTTPException 409 ("the funds of this task cannot be traced (" +:+ stage +:+ ")")%string).
End Bills.
