(* ===== verification/EscrowChannel.v ===== *)
(** * The escrow channel of a settlement

    [services/chain/escrow_settlement.py]: from the newest binding of a task to what the
    services do with it (bind, submit, slash, freeze, confirm, cancel, reconcile), what they
    write back to the settlement, and [_sync_escrow_settlement] of
    [api/routes/settlement.py] that calls them.

    [EscrowSettlementError] is an [HTTPException] with the same status; an exception of the
    chain client that is not caught is a [ValueError].  An operation that mutates the row it
    is given returns the row. *)
From S2P Require Import Prelude PyText PyFloat FloatFacts PyJson RuntimeSafety AtomicLedger Capacity ProfileCapacity.
From S2P Require Import Amounts Voucher SettlementEngine SettlementTransitions UsageBilling SettlementRoutes EscrowChain EscrowBills.
From stdpp Require Import pretty.
Open Scope Z_scope.

(** ** Paths of the state machine *)

(** One visit: the successors of the head of a path, walked backwards. *)
Fixpoint expand (to_ : TaskStatus) (path : list TaskStatus) (nexts seen : list TaskStatus) (queue : list (list TaskStatus)) :
    list TaskStatus + (list TaskStatus * list (list TaskStatus)) :=
  match nexts with
  | [] => inr (seen, queue)
  | n :: ns =>
      if decide (n ∈ seen) then expand to_ path ns seen queue
      else if decide (n = to_) then inl (n :: path)
      else expand to_ path ns (n :: seen) (queue ++ [n :: path])
  end.
(** The outer [None] is fuel used up. *)
Fixpoint search_path (fuel : nat) (to_ : TaskStatus) (max_hops : nat) (queue : list (list TaskStatus)) (seen : list TaskStatus) :
    option (option (list TaskStatus)) :=
  match queue with
  | [] => Some None
  | path :: queue =>
      match fuel with
      | O => None
      | S fuel =>
          if (max_hops <=? length path - 1)%nat then search_path fuel to_ max_hops queue seen
          else
            match expand to_ path (default [] (head path ≫= VALID_TRANSITIONS)) seen queue with
            | inl found => Some (Some (tail (reverse found)))
            | inr (seen, queue) => search_path fuel to_ max_hops queue seen
            end
      end
  end.
(** A status is queued at most once, so one round for each is enough. *)
Definition legal_status_path (frm to_ : TaskStatus) : option (option (list TaskStatus)) :=
  if decide (frm = to_) then Some (Some [])
  else search_path (S (length (enum TaskStatus))) to_ 3 [[frm]] [frm].

(** ** Rows *)

Definition opt_text (s : string) : option string := str_or (Some s) None.
Definition opt_int (n : Z) : option Z := if n =? 0 then None else Some n.

Definition edit_binding (id buyer_bill seller_bill scope : string) (amount stake : float) (state : string)
    (proof bind_tx submit_tx finalize_tx : option string) (pull_after confirmed probed : option Z) (updated : Z)
    (b : BindingRow) : BindingRow :=
  {| br_id := id; br_buyer := br_buyer b; br_seller := br_seller b; br_profile := br_profile b; br_buyer_bill := buyer_bill;
     br_seller_bill := seller_bill; br_contract := br_contract b; br_scope := scope; br_task := br_task b; br_amount := amount;
     br_stake := stake; br_state := state; br_proof := proof; br_bind_tx := bind_tx; br_submit_tx := submit_tx;
     br_finalize_tx := finalize_tx; br_pull_after := pull_after; br_confirmed_at := confirmed; br_probed_at := probed;
     br_created_at := br_created_at b; br_updated_at := updated |}.
Definition set_window_state (state : string) (pull_after : option Z) (now : Z) (b : BindingRow) : BindingRow :=
  edit_binding (br_id b) (br_buyer_bill b) (br_seller_bill b) (br_scope b) (br_amount b) (br_stake b) state (br_proof b)
    (br_bind_tx b) (br_submit_tx b) (br_finalize_tx b) pull_after (br_confirmed_at b) (br_probed_at b) now b.
Definition set_state (state : string) (now : Z) (b : BindingRow) : BindingRow := set_window_state state (br_pull_after b) now b.
Definition set_submitted (state : string) (x : Submitted) (now : Z) (b : BindingRow) : BindingRow :=
  edit_binding (br_id b) (br_buyer_bill b) (br_seller_bill b) (br_scope b) (br_amount b) (br_stake b) state
    (opt_text (sb_proof x)) (br_bind_tx b) (opt_text (sb_tx x)) (br_finalize_tx b) (opt_int (sb_pull_after x))
    (br_confirmed_at b) (br_probed_at b) now b.
Definition set_confirmed_at (unix now : Z) (b : BindingRow) : BindingRow :=
  edit_binding (br_id b) (br_buyer_bill b) (br_seller_bill b) (br_scope b) (br_amount b) (br_stake b) (br_state b) (br_proof b)
    (br_bind_tx b) (br_submit_tx b) (br_finalize_tx b) (Some unix) (Some now) (br_probed_at b) now b.
Definition set_finalize_tx (tx : string) (now : Z) (b : BindingRow) : BindingRow :=
  edit_binding (br_id b) (br_buyer_bill b) (br_seller_bill b) (br_scope b) (br_amount b) (br_stake b) (br_state b) (br_proof b)
    (br_bind_tx b) (br_submit_tx b) (Some tx) (br_pull_after b) (br_confirmed_at b) (br_probed_at b) now b.
Definition set_probed_at (at_ : Z) (b : BindingRow) : BindingRow :=
  edit_binding (br_id b) (br_buyer_bill b) (br_seller_bill b) (br_scope b) (br_amount b) (br_stake b) (br_state b) (br_proof b)
    (br_bind_tx b) (br_submit_tx b) (br_finalize_tx b) (br_pull_after b) (br_confirmed_at b) (Some at_) at_ b.
Definition set_rebound (id buyer_bill seller_bill : string) (o : Opened) (amount stake : float) (now : Z) (b : BindingRow) : BindingRow :=
  edit_binding id buyer_bill seller_bill (op_scope o) amount stake (br_state b) (br_proof b) (opt_text (op_tx o))
    (br_submit_tx b) (br_finalize_tx b) (br_pull_after b) (br_confirmed_at b) (br_probed_at b) now b.

(** The columns of a settlement the channel writes. *)
Definition edit_chain (status mode : string) (chain : option Z) (contract tx onchain : option string)
    (binding buyer_bill agent_bill : option Z) (now : Z) (s : SettlementRow) : SettlementRow :=
  {| sr_settlement_id := sr_settlement_id s; sr_task_id := sr_task_id s; sr_escrow_amount := sr_escrow_amount s;
     sr_currency := sr_currency s; sr_status := status; sr_client_agent_id := sr_client_agent_id s;
     sr_worker_agent_id := sr_worker_agent_id s; sr_profile_id := sr_profile_id s;
     sr_worker_profile_id := sr_worker_profile_id s; sr_released_amount := sr_released_amount s;
     sr_refunded_amount := sr_refunded_amount s; sr_dispute_reason := sr_dispute_reason s;
     sr_arbitration_notes := sr_arbitration_notes s; sr_created_at := sr_created_at s; sr_updated_at := now;
     sr_released_at := sr_released_at s; sr_settlement_mode := mode; sr_chain_id := chain; sr_contract_address := contract;
     sr_tx_hash := tx; sr_evidence_bundle_hash := sr_evidence_bundle_hash s; sr_onchain_status := onchain;
     sr_onchain_binding_id := binding; sr_onchain_buyer_bill_id := buyer_bill; sr_onchain_agent_bill_id := agent_bill;
     sr_quote_id := sr_quote_id s; sr_voucher_id := sr_voucher_id s; sr_delivery_deadline_at := sr_delivery_deadline_at s;
     sr_confirm_window_hours := sr_confirm_window_hours s; sr_confirm_deadline_at := sr_confirm_deadline_at s;
     sr_progress_rule_spec := sr_progress_rule_spec s; sr_funding_source := sr_funding_source s |}.
Definition row_set_status (status : string) (now : Z) (s : SettlementRow) : SettlementRow :=
  edit_chain status (sr_settlement_mode s) (sr_chain_id s) (sr_contract_address s) (sr_tx_hash s) (sr_onchain_status s)
    (sr_onchain_binding_id s) (sr_onchain_buyer_bill_id s) (sr_onchain_agent_bill_id s) now s.

(** How much a transaction says about the money: unknown ones as much as the last. *)
Definition tx_rank (value : option string) (b : BindingRow) : Z :=
  match str_or value None with
  | None => 0
  | Some v =>
      if decide (br_finalize_tx b = Some v) then 3
      else if decide (br_submit_tx b = Some v) then 2
      else if decide (br_bind_tx b = Some v) then 1
      else 3
  end.

Definition DONE_STATES : list string := ["settled"; "cancelled"; "slashed"]%string.
Definition RESPONSIBILITY_STATES : list string := ["finalizing"; "breaching"; "disputed"]%string.
Definition TERMINAL_MONEY_STATUS : list string := ["settled"; "slashed"]%string.
Definition CHAIN_FINAL (code : Z) : option string :=
  if code =? 3 then Some "settled"%string else if code =? 4 then Some "slashed"%string
  else if code =? 5 then Some "cancelled"%string else None.
Definition MONEY_EVENT (status : string) : option string :=
  if decide (status = "settled"%string) then Some "Settled"%string
  else if decide (status = "slashed"%string) then Some "StakeSlashed"%string else None.
Definition CHAIN_TERMINAL_STATUS (status : string) : option TaskStatus :=
  if decide (status = "cancelled"%string) then Some CANCELLED
  else if decide (status = "slashed"%string) then Some REFUNDED
  else if decide (status = "settled"%string) then Some SETTLED else None.
Definition is_money (status : option string) : bool := match status with Some s => mem s TERMINAL_MONEY_STATUS | None => false end.

(** What an operation answers: its status and the binding it acted on. *)
Record Done := {
  dn_status : string;
  dn_binding : option string
}.
Definition done (status : string) (b : BindingRow) : Done := {| dn_status := status; dn_binding := Some (br_id b) |}.
Definition plain (status : string) : Done := {| dn_status := status; dn_binding := None |}.

Inductive Mode := PAY | SLASH.
Definition DECIDED_STATUS (m : Mode) : string := match m with PAY => "settled" | SLASH => "refunded" end.
Definition stage_name (m : Mode) : string := match m with PAY => "pay" | SLASH => "slash" end.

Definition RECOVER_COOLDOWN : Z := 15000.
Definition CHAIN_ALIGN_ACTOR_ID : string := "escrow_chain_reconcile".
Definition cancel_blocked : Exc := HTTPException 409 "the money of this task has a payee: the lock cannot be taken back".

Section Channel.
Context {C : Type} `{!EscrowRpc C}.
Abbreviation EM := (M (EWorld C) Exc).
Context (p : EscrowPolicy) (keccak : string -> string) (py_sum : list float -> float) (fmt6 : float -> string) (e : EscrowEnv).
Abbreviation up := (ep_usage p).

(** ** Writing *)

Definition save_binding (b : BindingRow) : EM BindingRow :=
  seq! put_bindings (fmap (fun x => if decide (br_id x = br_id b) then b else x)) in m_ret b.

(** The primary key and the unique transaction. *)
Definition clashes (b x : BindingRow) : bool :=
  bool_decide (br_id x = br_id b) || (if br_bind_tx b is Some _ then bool_decide (br_bind_tx x = br_bind_tx b) else false).
Definition insert_binding (b : BindingRow) : EM unit :=
  do! taken := m_get (fun w => existsb (clashes b) (et_bindings (tables_of w))) in
  if (taken : bool) then m_raise IntegrityError else put_bindings (fun l => l ++ [b]).
Definition rekey_binding (old : string) (b : BindingRow) : EM BindingRow :=
  do! taken := m_get (fun w => existsb (fun x => negb (bool_decide (br_id x = old)) && clashes b x) (et_bindings (tables_of w))) in
  if (taken : bool) then m_raise IntegrityError
  else seq! put_bindings (fmap (fun x => if decide (br_id x = old) then b else x)) in m_ret b.

(** The bare number unless it is taken. *)
Definition local_binding_id (chain_id : Z) (contract : string) (exclude : option string) : EM string :=
  m_get (fun w => if decide (Some (pretty chain_id) = exclude) then pretty chain_id
                  else if existsb (fun x => bool_decide (br_id x = pretty chain_id)) (et_bindings (tables_of w))
                  then (contract +:+ ":" +:+ pretty chain_id)%string
                  else pretty chain_id).

Definition write_settlement_row (r : SettlementRow) : EM unit :=
  on_route (on_session (on_settle (m_put (fun db => {| settlements := <[sr_settlement_id r := r]> (settlements db);
                                                       task_contracts := task_contracts db |})))).
Definition append_audit (a : AuditRow) : EM unit :=
  on_route (on_session (m_put (fun s => set_working
    {| t_settle := t_settle (working s); t_caps := t_caps (working s); t_audits := t_audits (working s) ++ [a];
       t_rest := t_rest (working s) |} s))).

(** ** Reading *)

Definition chain_snapshot (b : BindingRow) : EM (option ChainView) :=
  do! r := binding_snapshot p b in m_ret (match r with Ok v => Some v | Err _ => None end).

Definition assert_no_payee_yet (task_id : string) : EM unit :=
  if negb (chan_enabled p) then m_ret tt
  else
    do! b := find_binding task_id in
    match b with
    | None => m_raise (HTTPException 409 "no on-chain binding for this task; refusing in-window appeal")
    | Some b =>
        do! v := chain_snapshot b in
        match v with
        | None => m_raise (HTTPException 409 "cannot read the on-chain binding state; refusing in-window appeal")
        | Some v => if mem (cv_state v) [1; 6] then m_ret tt
                    else m_raise (HTTPException 409 "on-chain binding is past the point of no return")
        end
    end.

Definition assert_receipt_path_exists (task_id : string) : EM unit :=
  if negb (ep_readiness_required p && ep_receipt_signature p) then m_ret tt
  else
    do! row := settlement_row task_id in
    match row with
    | None => m_ret tt
    | Some r => if decide (py_strip (default ""%string (sr_voucher_id r)) = ""%string)
                then m_raise (HTTPException 409 "no voucher: receipts of this task could never be written") else m_ret tt
    end.

(** ** Writing back *)

Definition reflected_tx (b : BindingRow) (onchain : string) (tx : option string) (m : SettlementRow) : option string :=
  match str_or tx None with
  | None => sr_tx_hash m
  | Some t =>
      if mem onchain TERMINAL_MONEY_STATUS && negb (bool_decide (br_finalize_tx b = Some t)) then sr_tx_hash m
      else if tx_rank (sr_tx_hash m) b <=? tx_rank (Some t) b then Some t else sr_tx_hash m
  end.
Definition reflected (b : BindingRow) (onchain : string) (tx : option string) (m : SettlementRow) : SettlementRow :=
  edit_chain (sr_status m) "escrow_allowance" (opt_int (route_chain_id (ep_routes p))) (opt_text (binding_contract p b))
    (reflected_tx b onchain tx m) (Some onchain)
    (match chain_binding_id b with Some i => Some i | None => sr_onchain_binding_id m end)
    (match py_int_text (br_buyer_bill b) with Some i => Some i | None => sr_onchain_buyer_bill_id m end)
    (match py_int_text (br_seller_bill b) with Some i => Some i | None => sr_onchain_agent_bill_id m end) (ee_now e) m.
Definition reflect (task_id : string) (b : BindingRow) (onchain : string) (tx : option string) : EM bool :=
  do! model := settlement_row task_id in
  match model with
  | None => m_ret false
  | Some m =>
      if is_money (sr_onchain_status m) && negb (bool_decide (sr_onchain_status m = Some onchain)) then m_ret true
      else seq! write_settlement_row (reflected b onchain tx m) in m_ret true
  end.

Definition put_cool (f : gmap string Z -> gmap string Z) : EM unit :=
  m_put (fun w => {| ew_routes := ew_routes w; ew_chain := ew_chain w; ew_v5 := ew_v5 w; ew_cool := f (ew_cool w);
                     ew_failed := ew_failed w; ew_permanent := ew_permanent w |}).
Definition recover_cooling_down (b : BindingRow) : EM bool :=
  do! started := m_get (fun w => ew_cool w !! br_id b) in
  match started with
  | None => m_ret false
  | Some s => if RECOVER_COOLDOWN <=? ee_mono e - s then seq! put_cool (delete (br_id b)) in m_ret false else m_ret true
  end.

(** The transaction that moved the money, looked up when the row does not have it. *)
Definition recover_money_tx_hash (b : BindingRow) (status : string) : EM (BindingRow * option string) :=
  match str_or (br_finalize_tx b) None, MONEY_EVENT status with
  | Some tx, _ => m_ret (b, Some tx)
  | None, None => m_ret (b, None)
  | None, Some event =>
      do! cooling := recover_cooling_down b in
      if (cooling : bool) then m_ret (b, None)
      else
        match chain_binding_id b with
        | None => m_ret (b, None)
        | Some i =>
            do! found := find_binding_event_tx p b i event in
            match str_or found None with
            | Some tx =>
                seq! put_cool (delete (br_id b)) in
                do! b := save_binding (set_finalize_tx tx (ee_now e) b) in
                m_ret (b, Some tx)
            | None => seq! put_cool (insert (br_id b) (ee_mono e)) in m_ret (b, None)
            end
        end
  end.

Definition adopt_chain_finalizing (b : BindingRow) (task_id : string) : EM (BindingRow * bool) :=
  do! v := chain_snapshot b in
  match v with
  | None => m_ret (b, false)
  | Some v =>
      if negb (cv_state v =? 2) then m_ret (b, false)
      else if decide (br_state b = "finalizing"%string) then m_ret (b, true)
      else
        do! b := save_binding (set_window_state "finalizing" (if cv_settle_after v =? 0 then br_pull_after b
                                                             else Some (cv_settle_after v)) (ee_now e) b) in
        seq! reflect (or_str task_id (default ""%string (br_task b))) b "finalizing" (br_submit_tx b) in
        m_ret (b, true)
  end.

(** ** The books follow the chain *)

Definition align_audit (m : SettlementRow) (from to_ target : TaskStatus) : AuditRow :=
  {| au_settlement_id := sr_settlement_id m; au_task_id := sr_task_id m; au_from_status := Some (TaskStatus_value from);
     au_to_status := TaskStatus_value to_; au_transition_allowed := true; au_guard_stage := "chain_terminal";
     au_reason := Some ("the binding is closed on the chain: " +:+ TaskStatus_value target)%string; au_route_path := None;
     au_actor_id := Some CHAIN_ALIGN_ACTOR_ID; au_source := None; au_denial_class := ""; au_created_at := ee_now e |}.
Fixpoint align_hops (m : SettlementRow) (target current : TaskStatus) (path : list TaskStatus) : EM unit :=
  match path with
  | [] => m_ret tt
  | step :: path =>
      if negb (can_transition current step) then m_ret tt
      else
        seq! append_audit (align_audit m current step target) in
        let m := row_set_status (TaskStatus_value step) (ee_now e) m in
        seq! write_settlement_row m in
        align_hops m target step path
  end.
Definition align_business_status (m : SettlementRow) (current target : TaskStatus) : EM unit :=
  if decide (current = target) then m_ret tt
  else match legal_status_path current target with
       | Some (Some path) => align_hops m target current path
       | _ => m_ret tt
       end.

(** Whether there was anything to do. *)
Definition settle_chain_terminal_bookkeeping (task_id onchain : string) : EM bool :=
  match CHAIN_TERMINAL_STATUS onchain with
  | None => m_ret false
  | Some target =>
      do! model := settlement_row task_id in
      match model with
      | None => m_ret false
      | Some m =>
          match canonical_of_value (sr_status m) with
          | Ok current =>
              if negb (bool_decide (current = DISPUTED)) then m_ret false
              else
                do! released := m_catch
                  (do! x := on_route (on_session (on_capacity (release_dispute_freeze (ee_now e) (sr_client_agent_id m)
                              (or_zero (Some (sr_escrow_amount m))) (bool_decide (onchain = "settled"%string))))) in m_ret (Some x))
                  (fun ex => match ex with LedgerConflict _ => m_ret None | _ => m_raise ex end) in
                match released with
                | None => m_ret true
                | Some _ => seq! align_business_status m current target in m_ret true
                end
          | Err _ => m_ret false
          end
      end
  end.

Definition reflect_final (task_id : string) (b : BindingRow) (onchain : string) (tx : option string) : EM unit :=
  if decide (task_id = ""%string) then m_ret tt
  else
    seq! reflect task_id b onchain tx in
    seq! settle_chain_terminal_bookkeeping task_id onchain in m_ret tt.

(** ** Binding *)

Definition no_seller : Exc := HTTPException 409 "a settlement without a seller has nobody to pay".
Definition order_scope : string := (settlement_scope up +:+ ":task")%string.
Definition open_binding (task_id : string) : EM (option BindingRow) :=
  do! b := find_binding task_id in
  m_ret (match b with Some b => if decide (br_state b = "cancelled"%string) then None else Some b | None => None end).

Definition new_binding (id buyer seller buyer_bill seller_bill contract task_id : string) (amount stake : float) (o : Opened) :
    BindingRow :=
  {| br_id := id; br_buyer := buyer; br_seller := Some seller; br_profile := None; br_buyer_bill := buyer_bill;
     br_seller_bill := seller_bill; br_contract := contract; br_scope := op_scope o; br_task := Some task_id; br_amount := amount;
     br_stake := stake; br_state := "active"; br_proof := None; br_bind_tx := opt_text (op_tx o); br_submit_tx := None;
     br_finalize_tx := None; br_pull_after := None; br_confirmed_at := None; br_probed_at := None; br_created_at := ee_now e;
     br_updated_at := ee_now e |}.

Definition bind_new (task_id buyer seller : string) (amount : float) : EM Done :=
  let stake := required_stake_usdc up amount in
  do! buyer_owner := resolve_party_identity (Some buyer) in
  do! seller_owner := resolve_party_identity (Some seller) in
  seq! assert_parties_not_self_dealing e (Some buyer) (Some seller) None None in
  do! buyer_bill := pick_bill p py_sum buyer_owner "buyer" amount in
  do! seller_bill := pick_bill p py_sum seller_owner "seller" stake in
  seq! assert_parties_not_self_dealing e (Some buyer) (Some seller) (Some buyer_bill) (Some seller_bill) in
  let contract := configured_address up in
  do! bound := open_order p keccak buyer_bill seller_bill amount stake order_scope task_id contract in
  match bound with
  | Err detail => m_raise (HTTPException 409 detail)
  | Ok o =>
      do! id := local_binding_id (op_binding o) contract None in
      let row := new_binding id buyer seller buyer_bill seller_bill contract task_id amount stake o in
      seq! insert_binding row in
      seq! reflect task_id row "bound" (br_bind_tx row) in
      m_ret (done "bound" row)
  end.

(** What [bind_for_task] and its deferred form check first. *)
Definition before_binding (task_id : string) (seller : option string) (amount : float)
    (k : string -> EM Done) : EM Done :=
  if negb (chan_enabled p) then m_ret (plain "disabled")
  else
    seq! assert_receipt_path_exists task_id in
    if (amount <=? fzero)%float then m_ret (plain "skipped")
    else
      match str_or seller None with
      | None => m_raise no_seller
      | Some seller =>
          do! existing := open_binding task_id in
          match existing with
          | Some b => m_ret (done "already_bound" b)
          | None => k seller
          end
      end.
Definition bind_for_task (task_id buyer : string) (seller : option string) (amount : float) : EM Done :=
  let amount := or_zero (Some amount) in
  before_binding task_id seller amount (fun seller => bind_new task_id buyer seller amount).

(** A row that is not stored: only its contract counts. *)
Definition shell (task_id : string) : BindingRow :=
  {| br_id := ""; br_buyer := ""; br_seller := None; br_profile := None; br_buyer_bill := ""; br_seller_bill := "";
     br_contract := configured_address up; br_scope := ""; br_task := Some task_id; br_amount := fzero; br_stake := fzero;
     br_state := "active"; br_proof := None; br_bind_tx := None; br_submit_tx := None; br_finalize_tx := None;
     br_pull_after := None; br_confirmed_at := None; br_probed_at := None; br_created_at := 0; br_updated_at := 0 |}.

(** [asyncio.gather] with [return_exceptions]: both run, the first failure is raised. *)
Definition attempt {A} (c : EM A) : EM (result Exc A) := fun w => let '(r, w) := c w in (Ok r, w).

Definition bind_for_task_deferred (task_id buyer : string) (seller : option string) (amount : float) : EM Done :=
  let amount := or_zero (Some amount) in
  before_binding task_id seller amount (fun seller =>
    let stake := required_stake_usdc up amount in
    do! buyer_owner := resolve_party_identity (Some buyer) in
    do! seller_owner := resolve_party_identity (Some seller) in
    do! buyer_rows := list_commits buyer_owner in
    do! seller_rows := list_commits seller_owner in
    do! buyer_report := backing_report p py_sum buyer_rows in
    do! seller_report := backing_report p py_sum seller_rows in
    do! bb := attempt (pick_bill_of p py_sum buyer_rows (Some buyer_report) "buyer" amount) in
    do! sb := attempt (pick_bill_of p py_sum seller_rows (Some seller_report) "seller" stake) in
    do! buyer_bill := lift bb in
    do! seller_bill := lift sb in
    seq! assert_parties_not_self_dealing e (Some buyer) (Some seller) (Some buyer_bill) (Some seller_bill) in
    do! wrote := reflect task_id (shell task_id) "pending_bind" None in
    if (wrote : bool) then m_ret (plain "pending_bind")
    else bind_for_task task_id buyer (Some seller) amount).

Definition materialize_pending_bind (task_id : string) : EM (option Done) :=
  if negb (chan_enabled p) then m_ret None
  else
    do! model := settlement_row task_id in
    match model with
    | None => m_ret None
    | Some m =>
        if negb (bool_decide (default ""%string (sr_onchain_status m) = "pending_bind"%string)) then m_ret None
        else
          do! out := bind_for_task task_id (sr_client_agent_id m) (sr_worker_agent_id m) (or_zero (Some (sr_escrow_amount m))) in
          m_ret (Some out)
    end.

(** A failure that is not caught. *)
Definition chain_raises {A} (r : result string A) : EM A := lift (match r with Ok a => Ok a | Err d => Err (ValueError d) end).

(** A smaller amount needs another binding. *)
Definition rebind_partial (b : BindingRow) (task_id : string) (amount : float) : EM BindingRow :=
  let contract := binding_contract p b in
  do! cancelled := cancel_binding p b in
  seq! chain_raises cancelled in
  let stake := required_stake_usdc up amount in
  do! buyer_bill := pick_bill p py_sum (br_buyer b) "buyer" amount in
  do! seller_bill := pick_bill p py_sum (default "None"%string (br_seller b)) "seller" stake in
  do! bound := open_order p keccak buyer_bill seller_bill amount stake order_scope task_id contract in
  do! o := chain_raises bound in
  do! id := local_binding_id (op_binding o) contract (Some (br_id b)) in
  rekey_binding (br_id b) (set_rebound id buyer_bill seller_bill o amount stake (ee_now e) b).

(** ** The gate before money moves *)

Definition release_preconditions (r : SettlementRow) : result Exc unit :=
  let? _ := ee_delivery e r in
  match ensure_success_receipt (ep_routes p) (ee_receipts e (sr_task_id r)) (or_zero (Some (sr_escrow_amount r))) with
  | Err (HTTPException _ detail) => Err (HTTPException 409 detail)
  | x => x
  end.

Definition assert_release_verified (task_id : string) (m : Mode) : EM unit :=
  do! row := settlement_row task_id in
  match row with
  | None => m_raise (HTTPException 409 "no settlement for this task: there is no verdict")
  | Some r =>
      if negb (bool_decide (lower_strip (sr_status r) = DECIDED_STATUS m))
      then m_raise (HTTPException 409 "the verdict of this task is not settled")
      else
        match m with
        | SLASH => assert_funds_traceable p task_id (stage_name m)
        | PAY => seq! lift (release_preconditions r) in assert_funds_traceable p task_id (stage_name m)
        end
  end.
Definition assert_release_preflight (task_id : string) : EM unit :=
  if negb (chan_enabled p) then m_ret tt
  else
    do! row := settlement_row task_id in
    match row with
    | None => m_ret tt
    | Some r => seq! lift (release_preconditions r) in assert_funds_traceable p task_id "preflight"
    end.
Definition released_amount_on_the_books (task_id : string) : EM (option float) :=
  do! row := settlement_row task_id in m_ret (row ≫= sr_released_amount).

(** ** Cancelling *)

Definition release_linked_voucher (task_id : string) : EM unit :=
  m_catch
    (do! row := settlement_row task_id in
     seq! on_route (on_money (cancel_voucher_reservation (ee_now e) (row ≫= sr_voucher_id))) in m_ret tt)
    (fun _ => m_ret tt).

(** The chain has closed the binding: the row and the settlement follow. *)
Definition follow_final (task_id : string) (b : BindingRow) (mapped : string) (fallback : BindingRow -> option string) : EM Done :=
  do! b := save_binding (set_state mapped (ee_now e) b) in
  do! x := recover_money_tx_hash b mapped in
  let b := fst x in
  seq! reflect task_id b mapped (str_or (snd x) (fallback b)) in
  m_ret (done mapped b).

Definition unknown_state : Exc := HTTPException 409 "the state of the binding on the chain is not known".
Definition cancel_now (b : BindingRow) : EM BindingRow :=
  do! r := cancel_binding p b in
  match r with
  | Err detail => m_raise (HTTPException 409 detail)
  | Ok _ => save_binding (set_state "cancelled" (ee_now e) b)
  end.

Definition cancel_for_task (task_id : string) : EM Done :=
  if negb (chan_enabled p) then m_ret (plain "disabled")
  else
    do! b := find_binding task_id in
    match b with
    | None => m_ret (plain "unbound")
    | Some b =>
        if mem (br_state b) DONE_STATES then m_ret (done (br_state b) b)
        else if mem (br_state b) RESPONSIBILITY_STATES then m_raise cancel_blocked
        else if negb (bool_decide (br_state b = "active"%string)) then m_ret (done (br_state b) b)
        else
          do! x := adopt_chain_finalizing b task_id in
          let b := fst x in
          if (snd x : bool) then m_raise cancel_blocked
          else
            do! v := chain_snapshot b in
            match v ≫= fun v => CHAIN_FINAL (cv_state v) with
            | Some mapped => follow_final task_id b mapped (fun b => str_or (br_submit_tx b) (br_bind_tx b))
            | None =>
                if match v with Some v => negb (mem (cv_state v) [1; 6]) | None => false end then m_raise unknown_state
                else
                  do! b := cancel_now b in
                  seq! reflect task_id b "cancelled" None in
                  seq! release_linked_voucher task_id in
                  m_ret (done "cancelled" b)
            end
    end.

(** One binding, not the newest of its task; the settlement is left alone. *)
Definition cancel_binding_row (b : BindingRow) : EM Done :=
  if negb (chan_enabled p) then m_ret (done "disabled" b)
  else if mem (br_state b) DONE_STATES then m_ret (done (br_state b) b)
  else if mem (br_state b) RESPONSIBILITY_STATES then m_raise cancel_blocked
  else if negb (bool_decide (br_state b = "active"%string)) then m_ret (done (br_state b) b)
  else
    do! v := chain_snapshot b in
    if bool_decide (cv_state <$> v = Some 2) then m_raise cancel_blocked
    else
      match v ≫= fun v => CHAIN_FINAL (cv_state v) with
      | Some mapped => do! b := save_binding (set_state mapped (ee_now e) b) in m_ret (done mapped b)
      | None =>
          if match v with Some v => negb (mem (cv_state v) [1; 6]) | None => false end then m_raise unknown_state
          else
            do! b := cancel_now b in
            seq! m_catch (sync_commits p e (br_buyer b)) (fun _ => m_ret tt) in
            m_ret (done "cancelled" b)
      end.

(** ** Confirming, submitting, slashing, freezing *)

Definition buyer_confirm_for_task (task_id : string) (required : bool) : EM Done :=
  if negb (chan_enabled p) then m_ret (plain "disabled")
  else
    do! b := find_binding task_id in
    match b with
    | None => m_ret (plain "unbound")
    | Some b =>
        let refuse detail := if required then m_raise (HTTPException 409 detail) else m_ret (done (br_state b) b) in
        if br_confirmed_at b is Some _ then m_ret (done (br_state b) b)
        else if negb (bool_decide (br_state b = "finalizing"%string)) then refuse "no window is open for this task"%string
        else
          do! r := buyer_confirm p b in
          match r with
          | Err detail => refuse detail
          | Ok _ => do! b := save_binding (set_confirmed_at (ee_unix e) (ee_now e) b) in m_ret (done "finalizing" b)
          end
    end.

(** [_proof] and [_breach_proof]. *)
Definition pay_proof (task_id : string) (amount : Z) : EM string :=
  do! x := lift (from_minor_units (route_decimals (ep_routes p)) amount) in
  m_ret ("karma-settlement:" +:+ task_id +:+ ":" +:+ fmt6 x)%string.
Definition breach_proof (task_id : string) : string := ("karma-breach:" +:+ task_id)%string.

(** A window has been opened. *)
Definition window_opened (task_id state : string) (b : BindingRow) (x : Submitted) : EM BindingRow :=
  do! b := save_binding (set_submitted state x (ee_now e) b) in
  seq! reflect task_id b state (br_submit_tx b) in
  m_ret b.

Definition submit_window (task_id : string) (b : BindingRow) (target : Z) : EM BindingRow :=
  do! x := adopt_chain_finalizing b task_id in
  let b := fst x in
  if (snd x : bool) then m_ret b
  else
    do! proof := pay_proof task_id target in
    do! r := submit_settlement p keccak b proof in
    match r with
    | Err detail => m_raise (HTTPException 409 detail)
    | Ok s => window_opened task_id "finalizing" b s
    end.

Definition target_amount (full : Z) (released : option float) : result Exc Z :=
  match released with
  | None => Ok full
  | Some x => let? s := minor p x in Ok (if s <? full then Z.max 0 s else full)
  end.
Definition submit_for_task (task_id : string) (released : option float) (buyer_confirmed : bool) : EM Done :=
  if negb (chan_enabled p) then m_ret (plain "disabled")
  else
    do! b := find_binding task_id in
    match b with
    | None => m_ret (plain "unbound")
    | Some b =>
        if negb (mem (br_state b) ["active"; "disputed"]%string) then m_ret (done (br_state b) b)
        else
          seq! assert_release_verified task_id PAY in
          do! released := if released is Some _ then m_ret released else released_amount_on_the_books task_id in
          do! full := lift (minor p (br_amount b)) in
          do! target := lift (target_amount full released) in
          if target <=? 0 then seq! cancel_for_task task_id in m_ret (plain "cancelled")
          else
            do! b := if target =? full then m_ret b
                     else do! amount := lift (from_minor_units (route_decimals (ep_routes p)) target) in
                          rebind_partial b task_id amount in
            do! b := submit_window task_id b target in
            seq! (if buyer_confirmed then seq! buyer_confirm_for_task task_id false in m_ret tt else m_ret tt) in
            m_ret (done "finalizing" b)
    end.

Definition slash_for_task (task_id : string) : EM Done :=
  if negb (chan_enabled p) then m_ret (plain "disabled")
  else
    do! b := find_binding task_id in
    match b with
    | None => m_ret (plain "unbound")
    | Some b =>
        if negb (mem (br_state b) ["active"; "finalizing"; "disputed"]%string) then m_ret (done (br_state b) b)
        else
          seq! assert_release_verified task_id SLASH in
          do! v := chain_snapshot b in
          match v ≫= fun v => CHAIN_FINAL (cv_state v) with
          | Some mapped => follow_final task_id b mapped br_submit_tx
          | None =>
              if match v with Some v => (cv_state v =? 2) && cv_slash_armed v | None => false end
              then
                let after := match v with Some v => cv_settle_after v | None => 0 end in
                do! b := save_binding (set_window_state "breaching" (if after =? 0 then br_pull_after b else Some after) (ee_now e) b) in
                seq! reflect task_id b "breaching" (br_submit_tx b) in
                m_ret (done "breaching" b)
              else
                do! r := submit_breach p keccak b (breach_proof task_id) in
                match r with
                | Err detail => m_raise (HTTPException 409 detail)
                | Ok s => do! b := window_opened task_id "breaching" b s in m_ret (done "breaching" b)
                end
          end
    end.

Definition mark_dispute_for_task (task_id : string) : EM Done :=
  if negb (chan_enabled p) then m_ret (plain "disabled")
  else
    do! b := find_binding task_id in
    match b with
    | None => m_ret (plain "unbound")
    | Some b =>
        if mem (br_state b) DONE_STATES || bool_decide (br_state b = "breaching"%string) then m_ret (done (br_state b) b)
        else
          do! v := chain_snapshot b in
          match cv_state <$> v with
          | Some 6 =>
              if decide (br_state b = "disputed"%string) then m_ret (done "disputed" b)
              else
                do! b := save_binding (set_state "disputed" (ee_now e) b) in
                seq! reflect task_id b "disputed" None in
                m_ret (done "disputed" b)
          | Some 1 | None =>
              do! r := mark_disputed p b in
              match r with
              | Err detail =>
                  do! after := chain_snapshot b in
                  if match after with Some a => negb (cv_state a =? 1) | None => false end then m_ret (done (br_state b) b)
                  else m_raise (HTTPException 409 detail)
              | Ok None => m_ret (done "unsupported" b)
              | Ok (Some tx) =>
                  do! b := save_binding (set_state "disputed" (ee_now e) b) in
                  seq! reflect task_id b "disputed" (Some tx) in
                  m_ret (done "disputed" b)
              end
          | Some _ => m_ret (done (br_state b) b)
          end
    end.

Definition reconcile_task (task_id : string) : EM (option Done) :=
  if negb (chan_enabled p) then m_ret None
  else
    do! b := find_binding task_id in
    match b with
    | None => m_ret None
    | Some b =>
        if mem (br_state b) DONE_STATES
        then
          do! x := recover_money_tx_hash b (br_state b) in
          let b := fst x in
          seq! reflect task_id b (br_state b) (str_or (snd x) (str_or (br_submit_tx b) (br_bind_tx b))) in
          m_ret (Some (done (br_state b) b))
        else if negb (mem (br_state b) ["finalizing"; "breaching"]%string) then m_ret None
        else
          do! v := chain_snapshot b in
          match v ≫= fun v => CHAIN_FINAL (cv_state v) with
          | None => m_ret None
          | Some mapped =>
              do! x := if mem mapped TERMINAL_MONEY_STATUS then recover_money_tx_hash b mapped else m_ret (b, Some ""%string) in
              let b := fst x in
              if snd x is Some _ then
                do! b := save_binding (set_state mapped (ee_now e) b) in
                seq! reflect task_id b mapped (str_or (br_finalize_tx b) (br_submit_tx b)) in
                m_ret (Some (done mapped b))
              else m_ret None
          end
    end.

(** ** [_sync_escrow_settlement] *)

Definition fill_in_deferred_bind_for_cancel (st : SettlementState) : EM unit :=
  do! hit := m_get (fun w => detect_self_dealing e (tables_of w) (Some (ss_client_agent_id st)) (ss_worker_agent_id st) None None) in
  if bool_decide (lower_strip (default ""%string (ss_onchain_status st)) = "pending_bind"%string) && (if hit is Some _ then true else false)
  then m_ret tt
  else seq! materialize_pending_bind (ss_task_id st) in m_ret tt.

Definition sync_escrow_settlement (buyer_confirmed : bool) (st : SettlementState) (target : TaskStatus) : EM unit :=
  let t := ss_task_id st in
  if negb (chan_enabled p) then m_ret tt
  else
    match canonical_task_status target with
    | ACCEPTED => seq! bind_for_task_deferred t (ss_client_agent_id st) (ss_worker_agent_id st) (or_zero (Some (ss_escrow_amount st))) in m_ret tt
    | DISPUTED => seq! materialize_pending_bind t in seq! mark_dispute_for_task t in m_ret tt
    | SETTLED => seq! materialize_pending_bind t in seq! submit_for_task t (ss_released_amount st) buyer_confirmed in m_ret tt
    | REFUNDED => seq! materialize_pending_bind t in seq! slash_for_task t in m_ret tt
    | CANCELLED => seq! fill_in_deferred_bind_for_cancel st in seq! cancel_for_task t in m_ret tt
    | _ => m_ret tt
    end.
End Channel.
