(* ===== verification/EscrowTick.v ===== *)
(** * The settlement loop

    [services/chain/escrow_autosettle.py]: the steps the API process runs on every tick.
    Pending bindings are bound, windows that have run out are executed, bindings the chain has
    closed are booked, bindings nobody will move any more are released, and disputes the
    chain has ended are closed in the books.

    A step selects rows and then works on the objects it has loaded: an object is known by
    its place in the table, which never loses a row, so that work on one row is seen when the
    loop reaches the next.  Times are microseconds, the monotonic clock milliseconds. *)
From S2P Require Import Prelude PyText PyFloat FloatFacts PyJson RuntimeSafety AtomicLedger Capacity ProfileCapacity.
From S2P Require Import Amounts Voucher SettlementEngine SettlementTransitions UsageBilling SettlementRoutes EscrowChain EscrowBills EscrowChannel.
From stdpp Require Import pretty.
Open Scope Z_scope.

Definition SECOND_US : Z := 1000000.
Definition RETRY_BACKOFF : Z := 120000.
Definition PERMANENT_BIND_BACKOFF : Z := 3600000.
Definition SETTLE_DELAY_MARGIN : Z := 5.
Definition STRANDED_GRACE : Z := 60 * SECOND_US.
Definition STRANDED_AUTO_CONFIRM_GRACE : Z := 600 * SECOND_US.
Definition DECIDED_SETTLEMENT_STATES : list string := ["settled"; "refunded"; "cancelled"; "failed"; "expired"]%string.
Definition REAP_CANCEL_SETTLEMENT_STATES : list string := ["cancelled"; "failed"; "expired"; "auto_confirmed"]%string.
Definition OPEN_BINDING_STATES : list string := ["active"; "finalizing"; "breaching"]%string.

(** ** Selecting *)

(** A stable sort, smallest key first. *)
Fixpoint insert_on {A} (key : A -> Z) (x : A) (l : list A) : list A :=
  match l with
  | [] => [x]
  | y :: l' => if key x <=? key y then x :: l else y :: insert_on key x l'
  end.
Definition sort_on {A} (key : A -> Z) (l : list A) : list A := foldr (insert_on key) [] l.

(** The places of the rows a query selects. *)
Definition select_rows (sel : BindingRow -> bool) (key : BindingRow -> Z) (limit : nat) (t : EscrowTables) : list nat :=
  fst <$> take limit (sort_on (fun x => key (snd x)) (filter (fun x => sel (snd x) = true) (imap pair (et_bindings t)))).

Definition window_over (state : string) (stamp : Z) (b : BindingRow) : bool :=
  bool_decide (br_state b = state) &&
  match br_pull_after b with Some a => (0 <? a) && (a + SETTLE_DELAY_MARGIN <=? stamp) | None => false end.
Definition pull_key (b : BindingRow) : Z := default 0 (br_pull_after b).

Definition orphan_cancel_allowed (status onchain : option string) : bool :=
  let s := lower_strip (default ""%string status) in
  if mem s ["cancelled"; "failed"; "expired"]%string then true
  else if decide (s = "settled"%string)
  then mem (lower_strip (default ""%string onchain)) ["settled"; "slashed"; "cancelled"]%string
  else false.

(** Nobody will move the settlement of this binding any further. *)
Definition decided (now : Z) (db : SettlementDB) (b : BindingRow) : bool :=
  match br_task b with
  | None => false
  | Some t => existsb (fun s => mem (py_lower (sr_status s)) DECIDED_SETTLEMENT_STATES ||
                (bool_decide (py_lower (sr_status s) = "auto_confirmed"%string) &&
                 (sr_updated_at s <=? now - STRANDED_AUTO_CONFIRM_GRACE)))
                (rows_of_task t db)
  end.
Definition is_stranded (now : Z) (db : SettlementDB) (b : BindingRow) : bool :=
  bool_decide (br_state b = "active"%string) && (br_created_at b <=? now - STRANDED_GRACE) && decided now db b.

Definition probe_cutoff (interval now : Z) : option Z := if interval <=? 0 then None else Some (now - interval * SECOND_US).
Definition probe_due (interval now : Z) (b : BindingRow) : bool :=
  mem (br_state b) OPEN_BINDING_STATES &&
  match probe_cutoff interval now, br_probed_at b with Some c, Some a => a <? c | _, _ => true end.

Definition contains (needle s : string) : bool := match String.index 0 needle s with Some _ => true | None => false end.
Definition exc_text (ex : Exc) : string :=
  match ex with
  | HTTPException _ d | ValueError d | TypeError d | AttributeError d | KeyError d | LedgerConflict d => d
  | _ => ""
  end.
Definition permanent_bind_error (ex : Exc) : bool := contains "sameowner" (py_lower (exc_text ex)).

Record Freed := {
  fr_binding : string;
  fr_status : string;
  fr_orphan : bool
}.

Section Tick.
Context {C : Type} `{!EscrowRpc C}.
Abbreviation EM := (M (EWorld C) Exc).
Context (p : EscrowPolicy) (keccak : string -> string) (py_sum : list float -> float) (fmt6 : float -> string) (e : EscrowEnv).
Abbreviation up := (ep_usage p).

Definition may_settle : bool := chan_enabled p && can_server_settle up.
Definition settle_db (w : EWorld C) : SettlementDB := t_settle (working (r_session (ew_routes w))).

Fixpoint for_each {A B} (f : A -> EM (list B)) (l : list A) : EM (list B) :=
  match l with
  | [] => m_ret []
  | x :: l => do! a := f x in do! b := for_each f l in m_ret (a ++ b)
  end.
(** The object at a place. *)
Definition with_row {B} (n : nat) (f : BindingRow -> EM (list B)) : EM (list B) :=
  do! b := m_get (fun w => et_bindings (tables_of w) !! n) in
  match b with Some b => f b | None => m_ret [] end.

(** ** Failures are remembered *)

Definition put_failed (f : gmap string Z -> gmap string Z) : EM unit :=
  m_put (fun w => {| ew_routes := ew_routes w; ew_chain := ew_chain w; ew_v5 := ew_v5 w; ew_cool := ew_cool w;
                     ew_failed := f (ew_failed w); ew_permanent := ew_permanent w |}).
Definition put_permanent (f : gset string -> gset string) : EM unit :=
  m_put (fun w => {| ew_routes := ew_routes w; ew_chain := ew_chain w; ew_v5 := ew_v5 w; ew_cool := ew_cool w;
                     ew_failed := ew_failed w; ew_permanent := f (ew_permanent w) |}).
Definition backed_off (key : string) (w : EWorld C) : bool :=
  match ew_failed w !! key with
  | None => false
  | Some last => ee_mono e - last <? (if decide (key ∈ ew_permanent w) then PERMANENT_BIND_BACKOFF else RETRY_BACKOFF)
  end.
Definition reset_backoff : EM unit := seq! put_failed (fun _ => ∅) in put_permanent (fun _ => ∅).

(** ** Booking an end *)

Definition release_quota (b : BindingRow) (refunded : bool) : EM unit :=
  match str_or (br_profile b) None with
  | None => m_ret tt
  | Some pid =>
      m_catch
        (do! x := lift (normalize_amount (route_decimals (ep_routes p)) (br_amount b)) in
         seq! on_route (on_quota (release_profile_credits id (ee_now e) pid (if refunded then fzero else x)
                                    (if refunded then x else fzero))) in m_ret tt)
        (fun _ => m_ret tt)
  end.
Definition sync_party (party : option string) : EM unit :=
  match str_or party None with
  | None => m_ret tt
  | Some i => m_catch (seq! sync_commits p e i in e_commit) (fun _ => e_rollback)
  end.

Definition record_final (b : BindingRow) (state : string) (tx : option string) (refunded : bool) : EM (list string) :=
  let b := set_state state (ee_now e) b in
  do! b := save_binding (match str_or tx None with Some t => set_finalize_tx t (ee_now e) b | None => b end) in
  do! x := (if mem state TERMINAL_MONEY_STATUS && (if str_or (br_finalize_tx b) None is Some _ then false else true)
            then recover_money_tx_hash p e b state else m_ret (b, None)) in
  let b := fst x in
  seq! reflect_final p e (default ""%string (br_task b)) b state (str_or (br_finalize_tx b) (br_submit_tx b)) in
  seq! release_quota b refunded in
  seq! e_commit in
  seq! sync_party (Some (br_buyer b)) in
  seq! sync_party (br_seller b) in
  m_ret [br_id b].

Definition onchain_state (b : BindingRow) : EM (option Z) := do! v := chain_snapshot p b in m_ret (cv_state <$> v).

(** The chain has closed the binding: book it. *)
Definition book_final (b : BindingRow) (state : string) (refunded : bool) : EM (list string) :=
  seq! put_failed (delete (br_id b)) in
  record_final b state (br_finalize_tx b) refunded.
Definition reconcile_row (refunded : string -> bool) (b : BindingRow) : EM (option (list string)) :=
  do! s := onchain_state b in
  match s ≫= CHAIN_FINAL with
  | None => m_ret None
  | Some state => do! l := book_final b state (refunded state) in m_ret (Some l)
  end.
Definition reconcile_pay (b : BindingRow) : EM (option (list string)) :=
  reconcile_row (fun s => bool_decide (s = "cancelled"%string)) b.
Definition reconcile_breach (b : BindingRow) : EM (option (list string)) := reconcile_row (fun _ => true) b.

(** ** The steps *)

Definition is_pending (s : SettlementRow) : bool :=
  bool_decide (sr_onchain_status s = Some "pending_bind"%string) && bool_decide (sr_settlement_mode s = "escrow_allowance"%string) &&
  negb (mem (sr_status s) DECIDED_SETTLEMENT_STATES).
Definition pending_tasks (w : EWorld C) : list string :=
  sr_task_id <$> take (ep_batch p) (sort_on sr_created_at (filter (fun s => is_pending s = true) (snd <$> map_to_list (settlements (settle_db w))))).
Definition bind_one (task_id : string) : EM (list string) :=
  do! off := m_get (backed_off task_id) in
  if (off : bool) then m_ret []
  else
    m_catch
      (do! out := materialize_pending_bind p keccak py_sum e task_id in
       match out with
       | Some _ => seq! put_permanent (fun s => s ∖ {[task_id]}) in seq! e_commit in m_ret [task_id]
       | None => seq! e_commit in m_ret []
       end)
      (fun ex =>
         seq! put_failed (insert task_id (ee_mono e)) in
         seq! (if permanent_bind_error ex then put_permanent (fun s => {[task_id]} ∪ s) else m_ret tt) in
         seq! e_commit in m_ret []).
Definition bind_due : EM (list string) := do! tasks := m_get pending_tasks in for_each bind_one tasks.

Definition due (state : string) : EM (list nat) :=
  m_get (fun w => select_rows (window_over state (ee_unix e)) pull_key (ep_batch p) (tables_of w)).

(** All the due bindings are asked for, then all that are still open are executed, then the
    results are booked; booking one row does not touch the others. *)
Definition due_bindings : EM (list BindingRow) :=
  do! ns := due "finalizing" in
  m_get (fun w => filter (fun b => negb (backed_off (br_id b) w) = true) (omap (fun n => et_bindings (tables_of w) !! n) ns)).
Fixpoint ask_all (rows : list BindingRow) : EM (list (BindingRow * option Z)) :=
  match rows with
  | [] => m_ret []
  | b :: rows => do! s := onchain_state b in do! l := ask_all rows in m_ret ((b, s) :: l)
  end.
Definition book_closed (x : BindingRow * option Z) : EM (list string) :=
  match snd x ≫= CHAIN_FINAL with
  | None => m_ret []
  | Some state => book_final (fst x) state (bool_decide (state = "cancelled"%string))
  end.
Fixpoint execute_all (rows : list BindingRow) : EM (list (BindingRow * result string string)) :=
  match rows with
  | [] => m_ret []
  | b :: rows => do! r := finalize_settlement p b in do! l := execute_all rows in m_ret ((b, r) :: l)
  end.
Definition book_executed (x : BindingRow * result string string) : EM (list string) :=
  let b := fst x in
  match snd x with
  | Ok tx => seq! put_failed (delete (br_id b)) in record_final b "settled" (Some tx) false
  | Err _ =>
      do! r := reconcile_pay b in
      match r with
      | Some l => m_ret l
      | None => seq! put_failed (insert (br_id b) (ee_mono e)) in m_ret []
      end
  end.
(** The numbers of the bindings are read before the first transaction is sent. *)
Definition readable (rows : list BindingRow) : bool := forallb (fun b => if chain_binding_id b is Some _ then true else false) rows.
Definition settle_due : EM (list string) :=
  if negb may_settle then m_ret []
  else
    do! rows := due_bindings in
    do! states := ask_all rows in
    do! closed := for_each book_closed states in
    let pull := fst <$> filter (fun x => (snd x ≫= CHAIN_FINAL) = None) states in
    if negb (readable pull) then m_raise (ValueError "invalid literal for int()")
    else
      do! results := execute_all pull in
      do! executed := for_each book_executed results in
      m_ret (closed ++ executed).

Definition breach_one (n : nat) : EM (list string) :=
  with_row n (fun b =>
    do! off := m_get (backed_off (br_id b)) in
    if (off : bool) then m_ret []
    else
      do! r := reconcile_breach b in
      match r with
      | Some l => m_ret l
      | None =>
          do! x := finalize_breach p b in
          match x with
          | Ok tx => seq! put_failed (delete (br_id b)) in record_final b "slashed" (Some tx) true
          | Err _ =>
              do! r := reconcile_breach b in
              match r with
              | Some l => m_ret l
              | None => seq! put_failed (insert (br_id b) (ee_mono e)) in m_ret []
              end
          end
      end).
Definition breach_due : EM (list string) :=
  if negb may_settle then m_ret []
  else do! ns := due "breaching" in for_each breach_one ns.

(** The rows asked longest ago first; every row is marked before it is asked. *)
Definition probe_key (b : BindingRow) : Z := default (-1) (br_probed_at b).
Definition probe_one (n : nat) : EM (list string) :=
  with_row n (fun b =>
    do! b := save_binding (set_probed_at (ee_now e) b) in
    do! r := reconcile_pay b in
    m_ret (default [] r)).
Definition reconcile_from_chain : EM (list string) :=
  if negb may_settle then m_ret []
  else
    do! ns := m_get (fun w =>
      let t := tables_of w in
      fst <$> take (ep_batch p)
        (sort_on (fun x => probe_key (snd x)) (sort_on (fun x => br_created_at (snd x))
          (filter (fun x => probe_due (ep_probe_interval p) (ee_now e) (snd x) = true) (imap pair (et_bindings t)))))) in
    for_each probe_one ns.

(** What is done about the newest binding of the task of a stranded one. *)
Definition reap_action (status task_id : string) : EM (option Done) :=
  if mem status REAP_CANCEL_SETTLEMENT_STATES then do! d := cancel_for_task p e task_id in m_ret (Some d)
  else if decide (status = "refunded"%string) then do! d := slash_for_task p keccak e task_id in m_ret (Some d)
  else if decide (status = "settled"%string) then do! d := submit_for_task p keccak py_sum fmt6 e task_id None false in m_ret (Some d)
  else m_ret None.
Definition is_orphan (b : BindingRow) (task_id : string) (w : EWorld C) : bool :=
  match newest_binding task_id (tables_of w) with Some n => negb (bool_decide (br_id n = br_id b)) | None => false end.
Definition reap_by_status (n : nat) (s : SettlementRow) (b : BindingRow) (task_id : string) : EM (list Freed) :=
  let status := lower_strip (sr_status s) in
  do! orphan := m_get (is_orphan b task_id) in
  if ep_orphan_cancel p && orphan_cancel_allowed (Some status) (sr_onchain_status s) && orphan
  then
    m_catch
      (seq! cancel_binding_row p e b in
       seq! e_commit in m_ret [{| fr_binding := br_id b; fr_status := status; fr_orphan := true |}])
      (fun _ => seq! e_commit in m_ret [])
  else
    m_catch
      (do! out := reap_action status task_id in
       with_row n (fun b =>
         let hit := match out with
                    | None => false
                    | Some d => match dn_binding d with Some i => bool_decide (i = ""%string) || bool_decide (i = br_id b) | None => true end
                    end in
         seq! e_commit in
         m_ret (if hit then [{| fr_binding := br_id b; fr_status := status; fr_orphan := false |}] else [])))
      (fun _ => seq! e_commit in m_ret []).
Definition reap_one (n : nat) : EM (list Freed) :=
  with_row n (fun b =>
    do! r := reconcile_pay b in
    match r with
    | Some l => seq! e_commit in m_ret ((fun i => {| fr_binding := i; fr_status := ""; fr_orphan := false |}) <$> l)
    | None =>
        do! x := adopt_chain_finalizing p e b (default ""%string (br_task b)) in
        if (snd x : bool) then seq! e_commit in m_ret []
        else
          match str_or (br_task b) None with
          | None => m_ret []
          | Some task_id =>
              do! s := settlement_row task_id in
              match s with
              | None => m_ret []
              | Some s => reap_by_status n s (fst x) task_id
              end
          end
    end).
Definition reap_stranded : EM (list Freed) :=
  if negb may_settle then m_ret []
  else
    do! ns := m_get (fun w => select_rows (is_stranded (ee_now e) (settle_db w)) br_created_at (ep_batch p) (tables_of w)) in
    for_each reap_one ns.

Definition stuck_disputes (w : EWorld C) : list SettlementRow :=
  take (ep_batch p) (sort_on sr_updated_at (filter (fun s => sr_status s = "disputed"%string /\
    mem (default ""%string (sr_onchain_status s)) ["settled"; "slashed"; "cancelled"]%string = true)
    (snd <$> map_to_list (settlements (settle_db w))))).
Definition align_one (s : SettlementRow) : EM (list string) :=
  m_catch
    (do! did := settle_chain_terminal_bookkeeping e (sr_task_id s) (default ""%string (sr_onchain_status s)) in
     seq! e_commit in m_ret (if (did : bool) then [sr_task_id s] else []))
    (fun _ => seq! e_rollback in m_ret []).
Definition align_disputed_settlements : EM (list string) :=
  if negb may_settle then m_ret []
  else do! rows := m_get stuck_disputes in for_each align_one rows.

(** The escrow steps of one tick, each in its own transaction; a failure ends the tick and
    closes the session. *)
Definition lap {A} (c : EM (list A)) : EM unit := seq! c in e_commit.
Definition autosettle_tick : EM unit :=
  m_catch
    (seq! lap bind_due in
     seq! lap settle_due in
     seq! lap breach_due in
     seq! lap reconcile_from_chain in
     seq! lap reap_stranded in
     lap align_disputed_settlements)
    (fun _ => e_rollback).
End Tick.
