(* ===== verification/EscrowOrders.v ===== *)
(** * Orders outside the life of a task, and the worker of the bilateral contract

    The writers of the bindings and of the chain columns that are not the escrow channel's own:
    the routes [open_order] and [finalize_order] of [api/routes/escrow.py], the chain side of
    [settle_meter] in [services/usage_billing.py], and the jobs of [worker/tasks.py] that write
    the columns of a settlement from another contract ([KarmaBilateral]).

    The answers of that other contract are arguments of the jobs.  The profile of the seller
    ([seller_profile_id]) and the mirror of the capacity ledger, which touch neither bindings
    nor chain columns, are left out. *)
From stdpp Require Import pretty.
From S2P Require Import Prelude PyText PyFloat FloatFacts PyJson RuntimeSafety AtomicLedger Capacity ProfileCapacity.
From S2P Require Import Amounts Voucher SettlementEngine SettlementTransitions UsageBilling SettlementRoutes EscrowChain EscrowBills EscrowChannel EscrowTick.
Open Scope Z_scope.

(** ** Text *)

Definition PERCENT : Ascii.ascii := Ascii.ascii_of_nat 37.
Definition UNDERSCORE : Ascii.ascii := Ascii.ascii_of_nat 95.

(** [LIKE]: a percent sign stands for any text, an underscore for any character. *)
Fixpoint sql_like (pat s : string) : bool :=
  match pat with
  | EmptyString => bool_decide (s = ""%string)
  | String c pat =>
      if decide (c = PERCENT) then
        (fix go (s : string) : bool :=
           sql_like pat s || match s with EmptyString => false | String _ s => go s end) s
      else
        match s with
        | EmptyString => false
        | String d s => (bool_decide (c = UNDERSCORE) || bool_decide (c = d)) && sql_like pat s
        end
  end.

Definition is_plain (s : string) : Prop := Forall (fun c => c <> PERCENT /\ c <> UNDERSCORE) (String.list_ascii_of_string s).
#[export] Instance is_plain_dec s : Decision (is_plain s).
Proof. unfold is_plain. apply _. Defined.

Lemma like_plain pat s : is_plain pat -> sql_like pat s = true -> s = pat.
Proof.
  revert s. induction pat as [|c pat IH]; intros s Hp; cbn; [by intros ?%bool_decide_eq_true|].
  apply Forall_cons in Hp as [[H1 H2] Hp]. rewrite decide_False by done. destruct s as [|d s]; [done|].
  rewrite (bool_decide_eq_false_2 (c = UNDERSCORE)) by done. cbn. intros [<-%bool_decide_eq_true H]%andb_true_iff. by rewrite (IH s Hp H).
Qed.
Lemma like_suffix pat s : is_plain pat -> sql_like (String PERCENT pat) s = true -> exists a, s = (a +:+ pat)%string.
Proof.
  intros Hp. induction s as [|c s IH]; cbn [sql_like]; rewrite decide_True by done.
  - rewrite orb_false_r. intros H. exists ""%string. by apply like_plain.
  - intros [H|H]%orb_true_iff; [exists ""%string; by apply like_plain|]. destruct (IH H) as [a ->]. by exists (String c a).
Qed.

(** Underscores between digits are no part of a number. *)
Fixpoint squeeze (after_digit : bool) (s : string) : option string :=
  match s with
  | EmptyString => Some ""%string
  | String c t =>
      if decide (c = UNDERSCORE) then
        match t with
        | String d _ => if after_digit && (if digit d is Some _ then true else false) then squeeze false t else None
        | EmptyString => None
        end
      else String c <$> squeeze (if digit c is Some _ then true else false) t
  end.
(** [int(text)], with its underscores. *)
Definition py_int (s : string) : option Z := squeeze false s ≫= py_int_text.
(** [chain_binding_id] of a text that may hold underscores. *)
Definition path_number (s : string) : option Z := py_int (after_colon s).

Lemma squeeze_plain s : is_plain s -> forall b, squeeze b s = Some s.
Proof.
  induction s as [|c s IH]; [done|]. intros [[_ Hc] Hs]%Forall_cons b. cbn. rewrite decide_False by done.
  by rewrite (IH Hs).
Qed.

(** A segment of a path holds no colon. *)
Lemma segment_colon s : safe_segment s = true -> has_colon s = false.
Proof.
  unfold safe_segment. intros [_ H]%andb_true_iff. rewrite forallb_forall in H.
  assert (G : forall c, c ∈ String.list_ascii_of_string s -> c <> COLON).
  { intros c Hc ->. revert H. case_decide as Hl.
    - intros H. apply last_Some in Hl as [l Hl]. rewrite Hl in Hc, H. rewrite length_app, Nat.add_sub, take_app_length in H.
      apply elem_of_app in Hc as [Hc|Hc%list_elem_of_singleton]; [|done].
      by specialize (H COLON (proj1 (list_elem_of_In _ _) Hc)).
    - intros H. by specialize (H COLON (proj1 (list_elem_of_In _ _) Hc)). }
  revert G. clear H. induction s as [|c s IH]; intros G; [done|]. cbn. rewrite decide_False by (apply G; left).
  apply IH. intros d Hd. apply G. by right.
Qed.

Section Orders.
Context {C : Type} `{!EscrowRpc C}.
Abbreviation EM := (M (EWorld C) Exc).
Context (p : EscrowPolicy) (keccak : string -> string) (py_sum : list float -> float) (e : EscrowEnv).
Abbreviation up := (ep_usage p).

(** ** An order that is bound and submitted at once *)

Definition order_row (id buyer : string) (seller : string) (profile : option string) (buyer_bill seller_bill : string)
    (task_id : string) (amount stake : float) (o : Opened) (x : Submitted) : BindingRow :=
  {| br_id := id; br_buyer := buyer; br_seller := Some seller; br_profile := profile; br_buyer_bill := buyer_bill;
     br_seller_bill := seller_bill; br_contract := configured_address up; br_scope := op_scope o; br_task := Some task_id;
     br_amount := amount; br_stake := stake; br_state := "finalizing"; br_proof := Some (sb_proof x);
     br_bind_tx := Some (op_tx o); br_submit_tx := Some (sb_tx x); br_finalize_tx := None;
     br_pull_after := Some (sb_pull_after x); br_confirmed_at := None; br_probed_at := None;
     br_created_at := ee_now e; br_updated_at := ee_now e |}.

(** The row of a submitted order. *)
Definition book_order (buyer seller : string) (profile : option string) (buyer_bill seller_bill task_id : string)
    (amount stake : float) (o : Opened) (x : Submitted) : EM BindingRow :=
  do! id := local_binding_id (op_binding o) (configured_address up) None in
  let row := order_row id buyer seller profile buyer_bill seller_bill task_id amount stake o x in
  seq! insert_binding row in m_ret row.

(** The chain side of a usage settlement: a refusal of the chain is booked with the usage, not
    here. *)
Definition usage_order (payer owner buyer_bill seller_bill scope task_id proof : string) (amount stake : float) :
    EM (result string BindingRow) :=
  do! r := open_and_submit_order p keccak buyer_bill seller_bill amount stake scope task_id proof (configured_address up) in
  match r with
  | Err d => m_ret (Err d)
  | Ok (o, x) => do! row := book_order payer owner None buyer_bill seller_bill task_id amount stake o x in m_ret (Ok row)
  end.

(** ** [open_order] *)

Definition resolve_bill (identity : option string) (bill : string) : EM CommitRow :=
  do! row := m_get (fun w => head (filter (fun r => cm_bill (cr_commit r) = bill) (et_commits (tables_of w)))) in
  match row with
  | None => m_raise (HTTPException 404 "unknown commitment")
  | Some r =>
      if match identity with Some i => negb (bool_decide (cm_identity (cr_commit r) = i)) | None => false end
      then m_raise (HTTPException 404 "unknown commitment for this identity")
      else if negb (bool_decide (cm_state (cr_commit r) = "open"%string)) then m_raise (HTTPException 409 "the commitment is not open")
      else if negb (bill_is_spendable up (cr_commit r)) then m_raise (HTTPException 409 "the commitment is on an earlier contract")
      else m_ret r
  end.

Definition secured_usdc_for_bill (identity bill : string) : EM float :=
  do! rows := list_commits identity in
  do! bk := backing_report p py_sum rows in
  m_ret (py_round_to 6 (or_zero (snd <$> dict_get bill (bk_bills bk)))).
Definition assert_room (need secured : float) : EM unit :=
  if (f1em9 <? or_zero (Some need) - or_zero (Some secured))%float then m_raise (HTTPException 409 "insufficient on-chain backing")
  else m_ret tt.
Definition room_for (identity : string) (need : float) (r : CommitRow) : EM unit :=
  do! secured := secured_usdc_for_bill identity (cm_bill (cr_commit r)) in
  assert_room need (secured - or_zero (Some (cm_reserved (cr_commit r))))%float.

(** The profile an order is charged to. *)
Definition order_profile (identity : string) (profile : option string) (amount : float) : EM (option string) :=
  match str_or profile None with
  | None => m_ret None
  | Some pid =>
      do! owner := m_get (fun w => x_profile_owner (t_rest (working (r_session (ew_routes w)))) !! pid) in
      if negb (bool_decide (owner = Some identity)) then m_raise (HTTPException 404 "profile not found for this identity")
      else
        do! row := on_route (on_quota (get_profile_capacity pid)) in
        match row with
        | None => m_ret None
        | Some r =>
            if (amount >? fl (pc_available r) + f1em9)%float then m_raise (HTTPException 409 "insufficient profile credits")
            else m_ret (Some pid)
        end
  end.
Definition seller_profile_ok (seller : string) (profile : option string) : EM unit :=
  match str_or profile None with
  | None => m_ret tt
  | Some pid =>
      seq! lift (validate_public_url_segment pid) in
      do! owner := m_get (fun w => x_profile_owner (t_rest (working (r_session (ew_routes w)))) !! pid) in
      if bool_decide (owner = Some seller) then m_ret tt else m_raise (HTTPException 404 "profile not found for the seller")
  end.

Record OrderBody := {
  ob_seller_bill : string;
  ob_buyer_bill : option string;
  ob_amount : float;
  ob_stake : option float;
  ob_task : string;
  ob_proof : string;
  ob_scope : option string;
  ob_profile : option string;
  ob_seller_profile : option string
}.

(** [require_ledger_identity]: [actor] is the authenticated caller, [None] while the check is
    off. *)
Definition require_ledger_identity (actor : option string) (identity : string) : result Exc unit :=
  match actor with
  | Some a => if decide (a = identity) then Ok tt else Err (HTTPException 403 "authenticated actor must match the target identity")
  | None => Ok tt
  end.

Definition open_order_route (actor : option string) (identity : string) (b : OrderBody) : EM BindingRow :=
  seq! lift (validate_public_url_segment identity) in
  seq! lift (require_ledger_identity actor identity) in
  if negb (can_server_settle up) then m_raise (HTTPException 409 disabled_detail)
  else
    do! buyer := resolve_bill (Some identity) (default "None"%string (ob_buyer_bill b)) in
    do! seller := resolve_bill None (ob_seller_bill b) in
    let seller_id := cm_identity (cr_commit seller) in
    do! charged := order_profile identity (ob_profile b) (ob_amount b) in
    seq! seller_profile_ok seller_id (ob_seller_profile b) in
    let stake := match ob_stake b with Some s => s | None => required_stake_usdc up (ob_amount b) end in
    if (stake <=? fzero)%float then m_raise (HTTPException 422 "stake_usdc must be positive")
    else
      seq! room_for identity (ob_amount b) buyer in
      seq! room_for seller_id stake seller in
      do! r := open_and_submit_order p keccak (cm_bill (cr_commit buyer)) (cm_bill (cr_commit seller)) (ob_amount b) stake
                 (default (settlement_scope up) (str_or (ob_scope b) None)) (ob_task b) (ob_proof b) (configured_address up) in
      match r with
      | Err d => m_raise (HTTPException 409 d)
      | Ok (o, x) =>
          seq! (match charged with
                | Some pid => seq! on_route (on_quota (spend_profile_credits id (ee_now e) pid (ob_amount b))) in m_ret tt
                | None => m_ret tt
                end) in
          book_order identity seller_id (ob_profile b) (cm_bill (cr_commit buyer)) (cm_bill (cr_commit seller)) (ob_task b)
            (ob_amount b) stake o x
      end.

(** ** [finalize_order] *)

(** [find_binding]: the key, else the newest of the rows whose key ends in it. *)
Definition binding_by_key (key : string) (t : EscrowTables) : option BindingRow :=
  match head (filter (fun b => br_id b = key) (et_bindings t)) with
  | Some b => Some b
  | None => fold_left newer (filter (fun b => sql_like ("%:" +:+ key) (br_id b) = true) (et_bindings t)) None
  end.

Definition is_party (identity : string) (b : BindingRow) : bool :=
  bool_decide (br_buyer b = identity) || bool_decide (br_seller b = Some identity).

Definition finalize_order (actor : option string) (identity key : string) (breach : bool) : EM BindingRow :=
  seq! lift (validate_public_url_segment identity) in
  seq! lift (validate_public_url_segment key) in
  seq! lift (require_ledger_identity actor identity) in
  do! row := m_get (fun w => binding_by_key key (tables_of w)) in
  match row with
  | None => m_raise (HTTPException 404 "unknown binding for this identity")
  | Some b =>
      if negb (is_party identity b) then m_raise (HTTPException 404 "unknown binding for this identity")
      else if mem (br_state b) ["settled"; "slashed"; "cancelled"]%string then m_raise (HTTPException 409 "the binding has ended")
      else
        match path_number key with
        | None => m_raise (ValueError "invalid literal for int()")
        | Some i =>
            do! r := chain_call p ((if breach then rpc_finalize_breach else rpc_finalize_settlement) (binding_contract p b) i) in
            match r with
            | Err d => m_raise (HTTPException 409 d)
            | Ok tx =>
                do! b := save_binding (set_finalize_tx tx (ee_now e) (set_state (if breach then "slashed" else "settled")%string (ee_now e) b)) in
                seq! (match str_or (br_profile b) None with
                      | Some pid => seq! on_route (on_quota (release_profile_credits id (ee_now e) pid (br_amount b) fzero)) in m_ret tt
                      | None => m_ret tt
                      end) in
                seq! sync_commits p e (br_buyer b) in
                seq! (match str_or (br_seller b) None with Some s => sync_commits p e s | None => m_ret tt end) in
                m_ret b
            end
        end
  end.
End Orders.

(** ** The jobs of the bilateral contract *)

Section Worker.
Context {C : Type} `{!EscrowRpc C}.
Abbreviation EM := (M (EWorld C) Exc).

(** [settlement_router.is_onchain()]. *)
Definition is_onchain (mode : string) : bool := mem mode ["testnet"; "hybrid"]%string.

(** The handles a task contract carries. *)
Record Handles := {
  hd_binding : option Z;
  hd_buyer_bill : option Z;
  hd_agent_bill : option Z
}.
(** A transaction of the bilateral contract. *)
Record TxResult := {
  tx_hash_of : string;
  tx_quote : option string;
  tx_binding : option Z
}.
(** What a refund or a dispute answers. *)
Record ChainInfo := {
  ci_tx : option string;
  ci_binding : option Z
}.

Definition first_of {A} (x y : option A) : option A := match x with Some _ => x | None => y end.

(** The columns these jobs write. *)
Definition put_columns (mode : string) (chain : option Z) (contract tx bundle onchain quote : option string)
    (binding buyer_bill agent_bill : option Z) (now : Z) (s : SettlementRow) : SettlementRow :=
  {| sr_settlement_id := sr_settlement_id s; sr_task_id := sr_task_id s; sr_escrow_amount := sr_escrow_amount s;
     sr_currency := sr_currency s; sr_status := sr_status s; sr_client_agent_id := sr_client_agent_id s;
     sr_worker_agent_id := sr_worker_agent_id s; sr_profile_id := sr_profile_id s;
     sr_worker_profile_id := sr_worker_profile_id s; sr_released_amount := sr_released_amount s;
     sr_refunded_amount := sr_refunded_amount s; sr_dispute_reason := sr_dispute_reason s;
     sr_arbitration_notes := sr_arbitration_notes s; sr_created_at := sr_created_at s; sr_updated_at := now;
     sr_released_at := sr_released_at s; sr_settlement_mode := mode; sr_chain_id := chain; sr_contract_address := contract;
     sr_tx_hash := tx; sr_evidence_bundle_hash := bundle; sr_onchain_status := onchain;
     sr_onchain_binding_id := binding; sr_onchain_buyer_bill_id := buyer_bill; sr_onchain_agent_bill_id := agent_bill;
     sr_quote_id := quote; sr_voucher_id := sr_voucher_id s; sr_delivery_deadline_at := sr_delivery_deadline_at s;
     sr_confirm_window_hours := sr_confirm_window_hours s; sr_confirm_deadline_at := sr_confirm_deadline_at s;
     sr_progress_rule_spec := sr_progress_rule_spec s; sr_funding_source := sr_funding_source s |}.

(** [scalar_one_or_none], then a change of the row. *)
Definition on_task_row (task_id : string) (f : SettlementRow -> SettlementRow) : EM unit :=
  do! rows := m_get (fun w => rows_of_task task_id (t_settle (working (r_session (ew_routes w))))) in
  match rows with
  | [] => m_ret tt
  | [r] => write_settlement_row (f r)
  | _ => m_raise (ValueError "multiple rows were found")
  end.

(** [chain] and [address] are the configured chain and contract. *)
Definition persist_chain_result (chain : Z) (address mode task_id bundle : string) (tx : TxResult) (status : string)
    (contract : option Handles) (now : Z) : EM unit :=
  on_task_row task_id (fun r =>
    put_columns mode (Some chain) (Some address) (Some (tx_hash_of tx)) (Some bundle) (Some status) (tx_quote tx)
      (first_of (match contract with Some h => hd_binding h | None => tx_binding tx end) (sr_onchain_binding_id r))
      (first_of (contract ≫= hd_buyer_bill) (sr_onchain_buyer_bill_id r))
      (first_of (contract ≫= hd_agent_bill) (sr_onchain_agent_bill_id r)) now r).

Definition persist_chain_or_offchain_result (chain : Z) (address mode task_id bundle status : string) (info : ChainInfo)
    (contract : option Handles) (now : Z) : EM unit :=
  on_task_row task_id (fun r =>
    let sent := str_or (ci_tx info) None in
    put_columns mode (match sent with Some _ => Some chain | None => sr_chain_id r end)
      (match sent with Some _ => Some address | None => sr_contract_address r end)
      (first_of sent (sr_tx_hash r)) (Some bundle) (Some status)
      (match ci_binding info with Some i => Some ("binding:" +:+ pretty i)%string | None => sr_quote_id r end)
      (first_of (contract ≫= hd_binding) (first_of (ci_binding info) (sr_onchain_binding_id r)))
      (first_of (contract ≫= hd_buyer_bill) (sr_onchain_buyer_bill_id r))
      (first_of (contract ≫= hd_agent_bill) (sr_onchain_agent_bill_id r)) now r).

(** A verdict carried to the bilateral contract; [answer] is what that contract said, with
    whether it confirmed. *)
Inductive BilateralAnswer := Released (tx : TxResult) | Refunded (confirmed : bool) (info : ChainInfo) | Disputed (confirmed : bool) (info : ChainInfo).
Definition run_onchain_settlement (mode : string) (chain : Z) (address task_id bundle : string) (answer : BilateralAnswer)
    (contract : Handles) (now : Z) : EM unit :=
  if negb (is_onchain mode) then m_ret tt
  else
    match answer with
    | Released tx => persist_chain_result chain address mode task_id bundle tx "finalizing" (Some contract) now
    | Refunded ok info =>
        persist_chain_or_offchain_result chain address mode task_id bundle (if ok then "refunded" else "refund")%string info (Some contract) now
    | Disputed ok info =>
        persist_chain_or_offchain_result chain address mode task_id bundle (if ok then "disputed" else "dispute_pending")%string info (Some contract) now
    end.

(** [BindingState] of the bilateral contract. *)
Definition STATE_MAP (code : Z) : string :=
  match code with
  | 0 => "active" | 1 => "pending" | 2 => "finalizing" | 3 => "settled" | 4 => "disputed" | 5 => "refunded"
  | _ => "unknown"
  end%string.

(** A status that is not known is not selected: the comparison with it is not true. *)
Definition to_reconcile (r : SettlementRow) : bool :=
  (if sr_onchain_binding_id r is Some _ then true else false) &&
  match sr_onchain_status r with Some s => negb (mem s ["settled"; "refunded"]%string) | None => false end.
Definition reconciled_row (code : Z) (now : Z) (r : SettlementRow) : SettlementRow :=
  edit_chain (sr_status r) (sr_settlement_mode r) (sr_chain_id r) (sr_contract_address r) (sr_tx_hash r) (Some (STATE_MAP code))
    (sr_onchain_binding_id r) (sr_onchain_buyer_bill_id r) (sr_onchain_agent_bill_id r) now r.
(** [status] is what the bilateral contract says of the binding of that number. *)
Fixpoint reconcile_rows (status : Z -> option Z) (now : Z) (rows : list SettlementRow) : EM unit :=
  match rows with
  | [] => m_ret tt
  | r :: rows =>
      seq! (match sr_onchain_binding_id r ≫= status with
            | None => m_ret tt
            | Some code =>
                if decide (Some (STATE_MAP code) = sr_onchain_status r) then m_ret tt
                else write_settlement_row (reconciled_row code now r)
            end) in
      reconcile_rows status now rows
  end.
Definition reconcile_onchain_status (mode : string) (status : Z -> option Z) (now : Z) : EM unit :=
  if negb (is_onchain mode) then m_ret tt
  else
    do! rows := m_get (fun w => filter (fun r => to_reconcile r = true)
                                  (snd <$> map_to_list (settlements (t_settle (working (r_session (ew_routes w))))))) in
    reconcile_rows status now rows.

(** The acceptance of a task when the old channel is on and the escrow is not: the task waits
    for its binding. *)
Definition mark_pending_bind (p : EscrowPolicy) (mode task_id : string) (now : Z) : EM unit :=
  if is_onchain mode && negb (chan_enabled p) then
    do! row := settlement_row task_id in
    match row with
    | None => m_ret tt
    | Some r => write_settlement_row (edit_chain (sr_status r) (sr_settlement_mode r) (sr_chain_id r) (sr_contract_address r)
                  (sr_tx_hash r) (Some "pending_bind"%string) (sr_onchain_binding_id r) (sr_onchain_buyer_bill_id r)
                  (sr_onchain_agent_bill_id r) now r)
    end
  else m_ret tt.
End Worker.
