(* ===== verification/EscrowTruth.v ===== *)
(** * The escrow books never run ahead of the chain

    Whatever the chain client answers, and whoever else acts on the chain, a row of the
    bindings table or of the settlements table says "settled" only when the money has been
    paid, "slashed" only when the stake has been taken, "cancelled" only when the reservation
    has been given back, and "finalizing" or "breaching" only once a window is open.  The
    chain is known through [EscrowLaws] alone.  Requests run one after another, and the
    settlement mode is one in which the bilateral worker does not write. *)
From stdpp Require Import pretty.
From S2P Require Import Prelude PyText PyFloat FloatFacts PyJson RuntimeSafety AtomicLedger Capacity ProfileCapacity.
From S2P Require Import Amounts Voucher SettlementEngine SettlementTransitions UsageBilling SettlementRoutes EscrowChain EscrowBills EscrowChannel EscrowTick EscrowOrders.
Open Scope Z_scope.

(** ** What a state claims *)

Definition tells (state : string) (f : Fact) : bool :=
  if decide (state = "settled"%string) then bool_decide (f = FSettled)
  else if decide (state = "slashed"%string) then bool_decide (f = FSlashed)
  else if decide (state = "cancelled"%string) then bool_decide (f = FCancelled)
  else if mem state ["finalizing"; "breaching"]%string then committed_to_pay f
  else if mem state ["active"; "bound"; "disputed"]%string then negb (bool_decide (f = FNone))
  else true.

Lemma tells_move s f f' : fact_move f f' -> tells s f = true -> tells s f' = true.
Proof.
  intros Hm. unfold tells. repeat case_decide; try (intros ->%bool_decide_eq_true; by inversion Hm; destruct_or? ; subst).
  all: repeat match goal with |- context [if mem ?x ?l then _ else _] => destruct (mem x l) end; try done.
  all: inversion Hm as [| |? Hf|? Hf|? Hf| |]; subst; try destruct Hf as [->|Hf]; try destruct Hf as [->|Hf]; try subst; done.
Qed.
Lemma tells_moves s f f' : rtc fact_move f f' -> tells s f = true -> tells s f' = true.
Proof. induction 1; eauto using tells_move. Qed.

(** A code of the chain that is final tells what it is mapped to. *)
Lemma final_tells f s : CHAIN_FINAL (fact_code f) = Some s -> tells s f = true.
Proof. destruct f; vm_compute; intros [= <-]; done. Qed.
Lemma window_tells f : fact_code f = 2 -> committed_to_pay f = true.
Proof. by destruct f. Qed.
Lemma frozen_tells f : fact_code f = 6 -> tells "disputed" f = true.
Proof. by destruct f. Qed.

Create HintDb framing.

Definition free_state (s : string) : Prop := forall f, tells s f = true.

Section Truth.
Context {C : Type} `{!EscrowRpc C} (facts : C -> string -> Z -> Fact) `{!EscrowLaws C facts}.
Abbreviation EM := (M (EWorld C) Exc).
Abbreviation Tb := (Tables (R := Rest EscrowTables)).
Context (p : EscrowPolicy) (keccak : string -> string) (py_sum : list float -> float) (fmt6 : float -> string).
(** Settlements that say how the money has ended. *)
Context (pins : gmap string string) (pins_money : map_Forall (fun _ s => mem s TERMINAL_MONEY_STATUS = true) pins).

(** ** Rows that are true *)

Definition fact_of (ch : C) (b : BindingRow) : Fact :=
  match chain_binding_id b with Some i => facts ch (binding_contract p b) i | None => FNone end.
Definition row_true (ch : C) (b : BindingRow) : Prop := is_Some (chain_binding_id b) /\ tells (br_state b) (fact_of ch b) = true.
Definition settlement_fact (ch : C) (r : SettlementRow) : Fact :=
  match sr_onchain_binding_id r with Some i => facts ch (default ""%string (sr_contract_address r)) i | None => FNone end.
Definition settlement_true (ch : C) (r : SettlementRow) : Prop :=
  match sr_onchain_status r with Some s => tells s (settlement_fact ch r) = true | None => True end.
Definition pin_kept (r : SettlementRow) : Prop := forall s, pins !! sr_settlement_id r = Some s -> sr_onchain_status r = Some s.

Definition tables_true (ch : C) (t : Tb) : Prop :=
  Forall (row_true ch) (et_bindings (x_graph (t_rest t))) /\
  map_Forall (fun k r => sr_settlement_id r = k /\ settlement_true ch r /\ pin_kept r) (settlements (t_settle t)) /\
  (forall k, is_Some (pins !! k) -> is_Some (settlements (t_settle t) !! k)).
Definition work (w : EWorld C) : Tb := working (r_session (ew_routes w)).
Definition comm (w : EWorld C) : Tb := committed (r_session (ew_routes w)).
Definition honest (w : EWorld C) : Prop := tables_true (ew_chain w) (work w) /\ tables_true (ew_chain w) (comm w).

Lemma moves_refl ch : moves facts ch ch.
Proof. intros k i. apply rtc_refl. Qed.
Lemma moves_trans ch ch' ch'' : moves facts ch ch' -> moves facts ch' ch'' -> moves facts ch ch''.
Proof. intros H1 H2 k i. etrans; [apply H1|apply H2]. Qed.

Lemma fact_of_moves ch ch' b : moves facts ch ch' -> rtc fact_move (fact_of ch b) (fact_of ch' b).
Proof. intros Hm. unfold fact_of. destruct (chain_binding_id b); [apply Hm|apply rtc_refl]. Qed.
Lemma row_true_moves ch ch' b : moves facts ch ch' -> row_true ch b -> row_true ch' b.
Proof. intros Hm [H1 H2]. split; [done|]. eapply tells_moves; [by apply fact_of_moves|done]. Qed.
Lemma settlement_true_moves ch ch' r : moves facts ch ch' -> settlement_true ch r -> settlement_true ch' r.
Proof.
  intros Hm. unfold settlement_true, settlement_fact. destruct (sr_onchain_status r); [|done].
  intros H. eapply tells_moves; [|exact H]. destruct (sr_onchain_binding_id r); [apply Hm|apply rtc_refl].
Qed.
Lemma tables_true_moves ch ch' t : moves facts ch ch' -> tables_true ch t -> tables_true ch' t.
Proof.
  intros Hm (H1 & H2 & H3). split_and!; [|intros k r Hr|done].
  - eapply Forall_impl; [exact H1|]. intros b. by apply row_true_moves.
  - destruct (H2 k r Hr) as (? & ? & ?). split_and!; eauto using settlement_true_moves.
Qed.

(** ** Steps that leave both tables alone *)

Definition same_tables (t t' : Tb) : Prop :=
  et_bindings (x_graph (t_rest t')) = et_bindings (x_graph (t_rest t)) /\ settlements (t_settle t') = settlements (t_settle t).
Definition framed (w w' : EWorld C) : Prop :=
  moves facts (ew_chain w) (ew_chain w') /\ same_tables (work w) (work w') /\ same_tables (comm w) (comm w').
Definition frame {A} (c : EM A) : Prop := forall w, framed w (exec c w).

Lemma framed_refl w : framed w w.
Proof. split_and!; [apply moves_refl|done|done]. Qed.
Ltac framed_done := split_and!; [apply moves_refl|split; reflexivity|split; reflexivity].
Lemma framed_trans w w' w'' : framed w w' -> framed w' w'' -> framed w w''.
Proof.
  intros (M1 & [] & []) (M2 & [] & []). split_and!; [by eapply moves_trans|split; congruence|split; congruence].
Qed.
Lemma tables_true_same ch t t' : same_tables t t' -> tables_true ch t -> tables_true ch t'.
Proof. intros [E1 E2]. unfold tables_true. by rewrite E1, E2. Qed.
Lemma framed_honest w w' : framed w w' -> honest w -> honest w'.
Proof.
  intros (Hm & H1 & H2) [I1 I2]. split; (eapply tables_true_same; [eassumption|]); by eapply tables_true_moves.
Qed.

Lemma frame_ret {A} (a : A) : frame (m_ret a).
Proof. intros w. apply framed_refl. Qed.
Lemma frame_raise {A} ex : frame (m_raise (A := A) ex).
Proof. intros w. apply framed_refl. Qed.
Lemma frame_get {A} (f : EWorld C -> A) : frame (m_get f).
Proof. intros w. apply framed_refl. Qed.
Lemma frame_lift {A} (r : result Exc A) : frame (lift r).
Proof. intros w. apply framed_refl. Qed.
Lemma frame_bind {A B} (c : EM A) (k : A -> EM B) : frame c -> (forall a, frame (k a)) -> frame (m_bind c k).
Proof.
  intros Hc Hk w. specialize (Hc w). unfold exec, m_bind in *. destruct (c w) as [[a|ex] w']; cbn in *; [|done].
  eapply framed_trans; [exact Hc|apply Hk].
Qed.
Lemma frame_catch {A} (c : EM A) h : frame c -> (forall ex, frame (h ex)) -> frame (m_catch c h).
Proof.
  intros Hc Hh w. specialize (Hc w). unfold exec, m_catch in *. destruct (c w) as [[a|ex] w']; cbn in *; [done|].
  eapply framed_trans; [exact Hc|apply Hh].
Qed.
Lemma frame_attempt {A} (c : EM A) : frame c -> frame (attempt c).
Proof. intros Hc w. specialize (Hc w). unfold exec, attempt in *. by destruct (c w). Qed.
Lemma frame_on_chain {A} (c : M C string A) : (forall ch, moves facts ch (exec c ch)) -> frame (on_chain c).
Proof. intros Hc w. unfold on_chain, exec. specialize (Hc (ew_chain w)). unfold exec in Hc. by destruct (c (ew_chain w)). Qed.
Lemma frame_chain_call {A} (c : M C string A) : (forall ch, moves facts ch (exec c ch)) -> frame (chain_call p c).
Proof. intros Hc. unfold chain_call. destruct (chan_enabled p); [by apply frame_on_chain|apply frame_ret]. Qed.

Lemma frame_capacity {A} (c : M caps_table Exc A) : frame (on_route (on_session (on_capacity c))).
Proof. intros w. unfold on_route, on_session, on_capacity, zoom, exec. destruct (c _). framed_done. Qed.
Lemma frame_quota {A} (c : M (gmap string ProfileRow) Exc A) : frame (on_route (on_quota c)).
Proof. intros w. unfold on_route, on_quota, zoom, exec. destruct (c _). framed_done. Qed.
Lemma frame_audit a : frame (append_audit a).
Proof. intros w. framed_done. Qed.
Lemma frame_commits f : frame (put_commits f).
Proof. intros w. framed_done. Qed.
Lemma frame_cool f : frame (put_cool f).
Proof. intros w. framed_done. Qed.
Lemma frame_failed f : frame (put_failed f).
Proof. intros w. framed_done. Qed.
Lemma frame_permanent f : frame (put_permanent f).
Proof. intros w. framed_done. Qed.

(** Returning a voucher's reservation leaves the tables of the graph. *)
Lemma cancel_voucher_graph now v (m : VWorld (G := EscrowTables)) : graph (exec (cancel_voucher_reservation now v) m) = graph m.
Proof.
  unfold cancel_voucher_reservation, exec, m_bind, m_get. destruct v as [vid|]; [|done]. case_decide; [done|].
  destruct (vouchers m !! vid) as [v|]; [|done]. destruct (negb _); [done|].
  assert (Hg : graph (snd ((if decide (Voucher.status v = Voucher.ACCEPTED) then on_ledger (on_caps (release_reservation now v)) else m_ret fzero) m)) = graph m).
  { case_decide; [|done]. unfold on_ledger, zoom. by destruct (on_caps _ _). }
  match type of Hg with graph (snd ?c) = _ => destruct c as [[x|ex] m'] end; cbn in *; done.
Qed.
Lemma frame_money {A} (c : M (VWorld (G := EscrowTables)) Exc A) : (forall m, graph (exec c m) = graph m) -> frame (on_route (on_money c)).
Proof.
  intros Hc w. specialize (Hc (money_of (ew_routes w))). unfold on_route, on_money, zoom, exec in *.
  destruct (c (money_of (ew_routes w))) as [r m]. cbn in *. split_and!; [apply moves_refl| |done]. split; cbn; [by rewrite Hc|done].
Qed.

#[local] Hint Resolve frame_ret frame_raise frame_get frame_lift frame_capacity frame_quota frame_audit frame_commits frame_cool frame_failed
  frame_permanent : framing.
Ltac frame_step :=
  first [ solve [eauto 2 with framing] | apply frame_bind; [|intros ?] | apply frame_catch; [|intros ?] | apply frame_attempt
        | apply frame_chain_call; intros ? | apply frame_on_chain; intros ? | progress cbv zeta | case_match ].
Ltac framing := repeat frame_step.
#[local] Hint Extern 1 (moves _ _ _) =>
  solve [apply law_get | apply law_bind | apply law_submit | apply law_breach | apply law_mark | apply law_confirm | apply law_cancel
        | apply law_finalize | apply law_finalize_breach | apply law_version | apply law_available | apply law_get_bill
        | apply law_is_backed | apply law_allowance | apply law_event] : framing.

Lemma frame_snapshot b : frame (binding_snapshot p b).
Proof. unfold binding_snapshot. framing. Qed.
Lemma frame_chain_snapshot b : frame (chain_snapshot p b).
Proof. unfold chain_snapshot. framing. apply frame_snapshot. Qed.
Lemma frame_supports k : frame (supports_v5 p k).
Proof. unfold supports_v5. framing. intros w. framed_done. Qed.
Lemma frame_each {A} (f : A -> EM unit) l : (forall x, frame (f x)) -> frame (each f l).
Proof. intros Hf. induction l; cbn; framing. Qed.
#[local] Hint Resolve frame_snapshot frame_chain_snapshot frame_supports frame_each : framing.

Lemma frame_settlement_row t : frame (settlement_row t).
Proof. apply frame_get. Qed.
Lemma frame_find t : frame (find_binding t).
Proof. apply frame_get. Qed.
Lemma frame_list_commits i : frame (list_commits i).
Proof. apply frame_get. Qed.
Lemma frame_resolve x : frame (resolve_party_identity x).
Proof. apply frame_get. Qed.
#[local] Hint Resolve frame_settlement_row frame_find frame_list_commits frame_resolve : framing.

Lemma frame_read_bill r : frame (read_bill p r).
Proof. unfold read_bill. framing. Qed.
#[local] Hint Resolve frame_read_bill : framing.
Lemma frame_read_bills l : frame (read_bills p l).
Proof. induction l; cbn [read_bills]; framing. Qed.
#[local] Hint Resolve frame_read_bills : framing.
Lemma frame_put_synced e x : frame (put_synced e x).
Proof. unfold put_synced. framing. Qed.
#[local] Hint Resolve frame_put_synced : framing.
Lemma frame_sync_commits e i : frame (sync_commits p e i).
Proof. unfold sync_commits. framing. Qed.

Lemma frame_read_allowances l : frame (read_allowances p l).
Proof. induction l as [|[[? ?] ?] l IH]; cbn [read_allowances]; unfold read_allowance; framing. Qed.
#[local] Hint Resolve frame_sync_commits frame_read_allowances : framing.
Lemma frame_backing rows : frame (backing_report p py_sum rows).
Proof. unfold backing_report. framing. Qed.
Lemma frame_available k i : frame (bill_available p k i).
Proof. unfold bill_available. framing. Qed.
#[local] Hint Resolve frame_backing frame_available : framing.
Lemma frame_weigh bk need r k : frame (weigh p bk need r k).
Proof. unfold weigh. framing. Qed.
#[local] Hint Resolve frame_weigh : framing.
Lemma frame_weigh_all bk need rows k : frame (weigh_all p bk need rows k).
Proof. revert k. induction rows; intros k; cbn [weigh_all]; framing. Qed.
#[local] Hint Resolve frame_weigh_all : framing.
Lemma frame_pick_of rows rep role need : frame (pick_bill_of p py_sum rows rep role need).
Proof. unfold pick_bill_of. framing. Qed.
#[local] Hint Resolve frame_pick_of : framing.
Lemma frame_pick i role need : frame (pick_bill p py_sum i role need).
Proof. unfold pick_bill. framing. Qed.
Lemma frame_not_self e b s bb sb : frame (assert_parties_not_self_dealing e b s bb sb).
Proof. unfold assert_parties_not_self_dealing. framing. Qed.
Lemma frame_traceable t stage : frame (assert_funds_traceable p t stage).
Proof. unfold assert_funds_traceable. framing. Qed.
#[local] Hint Resolve frame_pick frame_not_self frame_traceable : framing.
Lemma frame_receipt_path t : frame (assert_receipt_path_exists p t).
Proof. unfold assert_receipt_path_exists. framing. Qed.
Lemma frame_open_binding t : frame (open_binding t).
Proof. unfold open_binding. framing. Qed.
Lemma frame_verified e t m : frame (assert_release_verified p e t m).
Proof. unfold assert_release_verified. framing. Qed.
Lemma frame_local_id i k x : frame (local_binding_id i k x).
Proof. apply frame_get. Qed.
Lemma frame_raises {A} (r : result string A) : frame (chain_raises r).
Proof. apply frame_lift. Qed.
Lemma frame_cooling e b : frame (recover_cooling_down e b).
Proof. unfold recover_cooling_down. framing. Qed.
Lemma frame_event b i ev : frame (find_binding_event_tx p b i ev).
Proof. unfold find_binding_event_tx. framing. Qed.
Lemma frame_voucher e t : frame (release_linked_voucher e t).
Proof. unfold release_linked_voucher. framing. apply frame_money. intros m. apply cancel_voucher_graph. Qed.
Lemma frame_released t : frame (released_amount_on_the_books t).
Proof. unfold released_amount_on_the_books. framing. Qed.
Lemma frame_proof t n : frame (pay_proof p fmt6 t n).
Proof. unfold pay_proof. framing. Qed.
Lemma frame_confirm b : frame (buyer_confirm p b).
Proof. unfold buyer_confirm, with_id. framing. Qed.
Lemma frame_quota_release e b r : frame (release_quota p e b r).
Proof. unfold release_quota. framing. Qed.
#[local] Hint Resolve frame_receipt_path frame_open_binding frame_verified frame_local_id frame_raises frame_cooling frame_event frame_voucher
  frame_released frame_proof frame_confirm frame_quota_release : framing.

Lemma frame_appeal t : frame (assert_no_payee_yet p t).
Proof. unfold assert_no_payee_yet. framing. Qed.
Lemma frame_preflight e t : frame (assert_release_preflight p e t).
Proof. unfold assert_release_preflight. framing. Qed.

(** ** Steps and what holds after them *)

Definition good {A} (w : EWorld C) (c : EM A) (Q : A -> C -> Prop) : Prop :=
  honest w ->
  match c w with
  | (Ok a, w') => honest w' /\ moves facts (ew_chain w) (ew_chain w') /\ Q a (ew_chain w')
  | (Err _, w') => honest w' /\ moves facts (ew_chain w) (ew_chain w')
  end.
Abbreviation any := (fun _ _ => True).

Lemma good_ret {A} w (a : A) (Q : A -> C -> Prop) : Q a (ew_chain w) -> good w (m_ret a) Q.
Proof. intros HQ Hw. split_and!; [done|apply moves_refl|done]. Qed.
Lemma good_raise {A} w ex (Q : A -> C -> Prop) : good w (m_raise ex) Q.
Proof. intros Hw. split; [done|apply moves_refl]. Qed.
Lemma good_weaken {A} w (c : EM A) (Q R : A -> C -> Prop) : good w c Q -> (forall a ch, Q a ch -> R a ch) -> good w c R.
Proof. intros Hc HQ Hw. specialize (Hc Hw). destruct (c w) as [[a|ex] w']; [|done]. destruct Hc as (? & ? & ?). auto. Qed.
Lemma good_bind {A B} w (c : EM A) (k : A -> EM B) (Q : A -> C -> Prop) (R : B -> C -> Prop) :
  good w c Q ->
  (forall a w', honest w' -> moves facts (ew_chain w) (ew_chain w') -> Q a (ew_chain w') -> good w' (k a) R) ->
  good w (m_bind c k) R.
Proof.
  intros Hc Hk Hw. specialize (Hc Hw). unfold m_bind. destruct (c w) as [[a|ex] w1]; [|done].
  destruct Hc as (H1 & Hm & HQ). specialize (Hk a w1 H1 Hm HQ H1). destruct (k a w1) as [[b|ex] w2].
  - destruct Hk as (? & ? & ?). split_and!; [done|by eapply moves_trans|done].
  - destruct Hk. split; [done|by eapply moves_trans].
Qed.
Lemma good_catch {A} w (c : EM A) h (Q : A -> C -> Prop) :
  good w c Q -> (forall ex w', honest w' -> moves facts (ew_chain w) (ew_chain w') -> good w' (h ex) Q) -> good w (m_catch c h) Q.
Proof.
  intros Hc Hh Hw. specialize (Hc Hw). unfold m_catch. destruct (c w) as [[a|ex] w1]; [done|].
  destruct Hc as [H1 Hm]. specialize (Hh ex w1 H1 Hm H1). destruct (h ex w1) as [[b|ex'] w2].
  - destruct Hh as (? & ? & ?). split_and!; [done|by eapply moves_trans|done].
  - destruct Hh. split; [done|by eapply moves_trans].
Qed.
Lemma good_frame {A} w (c : EM A) (Q : A -> C -> Prop) :
  frame c -> (forall a w', c w = (Ok a, w') -> Q a (ew_chain w')) -> good w c Q.
Proof.
  intros Hc HQ Hw. specialize (Hc w). unfold exec in Hc. pose proof (HQ) as HQ'. destruct (c w) as [[a|ex] w'] eqn:E; cbn in Hc.
  - split_and!; [by eapply framed_honest|apply Hc|by apply HQ].
  - split; [by eapply framed_honest|apply Hc].
Qed.
Lemma good_any {A} w (c : EM A) : frame c -> good w c any.
Proof. intros Hc. by apply good_frame. Qed.
Lemma good_then {A B} w (c : EM A) (k : A -> EM B) (R : B -> C -> Prop) :
  frame c -> (forall a w', honest w' -> moves facts (ew_chain w) (ew_chain w') -> good w' (k a) R) -> good w (m_bind c k) R.
Proof. intros Hc Hk. eapply good_bind; [by apply good_any|auto]. Qed.

Lemma good_commit w : good w e_commit any.
Proof. intros [H1 H2]. split_and!; [by split|apply moves_refl|done]. Qed.
Lemma good_rollback w : good w e_rollback any.
Proof. intros [H1 H2]. split_and!; [by split|apply moves_refl|done]. Qed.

(** ** What the calls report *)

Definition reports {A} (c : EM (result string A)) (b : BindingRow) (s : string) : Prop :=
  forall w x w', c w = (Ok (Ok x), w') -> tells s (fact_of (ew_chain w') b) = true.

Lemma call_ok {A} (c : M C string A) w x w' : chain_call p c w = (Ok (Ok x), w') -> c (ew_chain w) = (Ok x, ew_chain w').
Proof. unfold chain_call. destruct (chan_enabled p); [|done]. unfold on_chain. destruct (c (ew_chain w)). by intros [= -> <-]. Qed.

Lemma reports_id {A} b (c : string -> Z -> M C string A) s :
  (forall k i ch x ch', c k i ch = (Ok x, ch') -> tells s (facts ch' k i) = true) ->
  reports (with_id p b (fun k i => chain_call p (c k i))) b s.
Proof.
  intros Hc w x w'. unfold with_id, fact_of. destruct (chain_binding_id b) as [i|]; [|done]. intros H. eapply Hc, call_ok, H.
Qed.
Lemma reports_cancel b : reports (cancel_binding p b) b "cancelled".
Proof. apply reports_id. intros k i ch x ch' H. by rewrite (law_cancelled _ _ _ _ _ H). Qed.
Lemma reports_finalize b : reports (finalize_settlement p b) b "settled".
Proof. apply reports_id. intros k i ch x ch' H. by rewrite (law_paid _ _ _ _ _ H). Qed.
Lemma reports_finalize_breach b : reports (finalize_breach p b) b "slashed".
Proof. apply reports_id. intros k i ch x ch' H. by rewrite (law_slashed _ _ _ _ _ H). Qed.

Lemma submit_with_ok rpc proof k i f0 w x w' :
  (forall h ch y ch', rpc k i h ch = (Ok y, ch') -> rtc fact_move f0 (facts ch' k i)) ->
  submit_with p keccak rpc proof k i w = (Ok (Ok x), w') -> rtc fact_move f0 (facts (ew_chain w') k i).
Proof.
  intros Hr. unfold submit_with. destruct (proof_hash keccak proof) as [h|]; [|done]. intros H.
  apply m_bind_ok in H as ([y|d] & w1 & H1 & [= H2 <-]). eapply Hr, call_ok, H1.
Qed.
Lemma reports_submit b proof : reports (submit_settlement p keccak b proof) b "finalizing".
Proof.
  intros w x w'. unfold submit_settlement, with_id, fact_of. destruct (chain_binding_id b) as [i|]; [|done]. intros H.
  eapply tells_moves; [eapply submit_with_ok; [|exact H]; intros; by eapply law_submitted|done].
Qed.
Lemma reports_breach b proof : reports (submit_breach p keccak b proof) b "breaching".
Proof.
  intros w x w'. unfold submit_breach, with_id, fact_of. destruct (chain_binding_id b) as [i|]; [|done]. intros H.
  apply m_bind_ok in H as (v5 & w1 & _ & H). destruct v5.
  - eapply tells_moves; [eapply submit_with_ok; [|exact H]; intros; by eapply law_breached|done].
  - eapply tells_moves; [eapply submit_with_ok; [|exact H]; intros; by eapply law_submitted|done].
Qed.
Lemma mark_reports b w tx w' : mark_disputed p b w = (Ok (Ok (Some tx)), w') -> tells "disputed" (fact_of (ew_chain w') b) = true.
Proof.
  unfold mark_disputed, with_id, fact_of. destruct (chain_binding_id b) as [i|]; [|done]. intros H.
  apply m_bind_ok in H as (v5 & w1 & _ & H). destruct v5; [|done]. apply m_bind_ok in H as ([y|d] & w2 & H & [= _ <-]).
  eapply tells_moves; [eapply law_marked, call_ok, H|done].
Qed.
Lemma open_reports bb sb n st scope t k w o w' : open_order p keccak bb sb n st scope t k w = (Ok (Ok o), w') ->
  0 <= op_binding o /\ tells "active" (facts (ew_chain w') k (op_binding o)) = true.
Proof.
  unfold open_order. destruct (chain_id_of bb), (chain_id_of sb), (usdc_to_wei p n), (usdc_to_wei p st); try done. intros H.
  apply m_bind_ok in H as ([[i tx]|d] & w1 & H & [= <- <-]). cbn.
  destruct (law_bound _ _ _ _ _ _ _ _ _ _ (call_ok _ _ _ _ H)) as [H1 H2]. split; [done|]. eapply tells_moves; [exact H2|done].
Qed.
Lemma snapshot_reports b w v w' : chain_snapshot p b w = (Ok (Some v), w') -> cv_state v = fact_code (fact_of (ew_chain w') b).
Proof.
  unfold chain_snapshot, binding_snapshot, fact_of. intros H. apply m_bind_ok in H as ([y|d] & w1 & H & [= E <-]). subst y.
  destruct (chain_binding_id b) as [i|]; [|done]. by destruct (law_view _ _ _ _ _ (call_ok _ _ _ _ H)).
Qed.

Lemma frame_with_id {A} b (f : string -> Z -> EM (result string A)) : (forall k i, frame (f k i)) -> frame (with_id p b f).
Proof. intros Hf. unfold with_id. framing. Qed.
Lemma frame_submit_with rpc proof k i : (forall h ch, moves facts ch (exec (rpc k i h) ch)) -> frame (submit_with p keccak rpc proof k i).
Proof. intros Hr. unfold submit_with. framing. Qed.
Lemma frame_cancel b : frame (cancel_binding p b).
Proof. apply frame_with_id. intros. framing. Qed.
Lemma frame_finalize b : frame (finalize_settlement p b).
Proof. apply frame_with_id. intros. framing. Qed.
Lemma frame_finalize_breach b : frame (finalize_breach p b).
Proof. apply frame_with_id. intros. framing. Qed.
Lemma frame_submit b proof : frame (submit_settlement p keccak b proof).
Proof. apply frame_with_id. intros. apply frame_submit_with. intros. apply law_submit. Qed.
Lemma frame_breach b proof : frame (submit_breach p keccak b proof).
Proof.
  apply frame_with_id. intros. framing; apply frame_submit_with; intros; [apply law_breach|apply law_submit].
Qed.
Lemma frame_mark b : frame (mark_disputed p b).
Proof. apply frame_with_id. intros. framing. Qed.
Lemma frame_open bb sb n st scope t k : frame (open_order p keccak bb sb n st scope t k).
Proof. unfold open_order. framing. Qed.

Lemma good_reports {A} w (c : EM (result string A)) b s : frame c -> reports c b s ->
  good w c (fun r ch => forall x, r = Ok x -> tells s (fact_of ch b) = true).
Proof. intros Hf Hr. apply good_frame; [done|]. intros r w' E x ->. by eapply Hr. Qed.
Lemma good_snapshot w b : good w (chain_snapshot p b) (fun v ch => forall x, v = Some x -> cv_state x = fact_code (fact_of ch b)).
Proof. apply good_frame; [framing|]. intros v w' E x ->. by eapply snapshot_reports. Qed.

(** ** Writing rows *)

Lemma good_bindings w (f : list BindingRow -> list BindingRow) :
  (forall l, Forall (row_true (ew_chain w)) l -> Forall (row_true (ew_chain w)) (f l)) -> good w (put_bindings f) any.
Proof.
  intros Hf [(H1 & H2 & H3) Hc]. split_and!; [|apply moves_refl|done]. split; [|done]. split_and!; [by apply Hf|done|done].
Qed.
Lemma replaced_true ch (P : BindingRow -> Prop) `{forall x, Decision (P x)} b l :
  row_true ch b -> Forall (row_true ch) l -> Forall (row_true ch) ((fun x => if decide (P x) then b else x) <$> l).
Proof. intros Hb Hl. apply Forall_fmap. eapply Forall_impl; [exact Hl|]. intros x Hx. cbn. by case_decide. Qed.

Lemma good_save w b : row_true (ew_chain w) b -> good w (save_binding b) (fun b' ch => b' = b /\ row_true ch b).
Proof.
  intros Hb. eapply good_bind; [apply good_bindings; intros l; by apply replaced_true|].
  intros _ w' _ Hm _. apply good_ret. split; [done|by eapply row_true_moves].
Qed.
Lemma good_insert w b : row_true (ew_chain w) b -> good w (insert_binding b) any.
Proof.
  intros Hb. apply good_then; [apply frame_get|]. intros [] w' _ Hm; [apply good_raise|]. apply good_bindings.
  intros l Hl. apply Forall_app. split; [done|]. constructor; [by eapply row_true_moves|done].
Qed.
Lemma good_rekey w old b : row_true (ew_chain w) b -> good w (rekey_binding old b) (fun b' ch => row_true ch b').
Proof.
  intros Hb. apply good_then; [apply frame_get|]. intros [] w' _ Hm; [apply good_raise|].
  eapply good_bind; [apply good_bindings; intros l; apply replaced_true; by eapply row_true_moves|].
  intros _ w2 _ Hm2 _. apply good_ret. eapply row_true_moves; [exact Hm2|by eapply row_true_moves].
Qed.

Definition kept (ch : C) (r : SettlementRow) : Prop := settlement_true ch r /\ pin_kept r.

Lemma good_write w r : kept (ew_chain w) r -> good w (write_settlement_row r) any.
Proof.
  intros [Hr Hp] [(H1 & H2 & H3) Hc]. split_and!; [|apply moves_refl|done]. split; [|done]. split_and!; [done| |].
  - intros k r'. cbn [settlements t_settle]. destruct (decide (sr_settlement_id r = k)) as [<-|Hne].
    + intros E. cbn in E. rewrite lookup_insert_eq in E. injection E as <-. done.
    + intros E. cbn in E. rewrite lookup_insert_ne in E by done. by apply H2.
  - intros k Hk. destruct (decide (sr_settlement_id r = k)) as [<-|Hne]; cbn; [rewrite lookup_insert_eq; eauto|].
    rewrite lookup_insert_ne by done. by apply H3.
Qed.
Lemma good_row w t : good w (settlement_row t) (fun m ch => forall r, m = Some r -> kept ch r).
Proof.
  intros Hw. split_and!; [done|apply moves_refl|]. intros r Hr. destruct Hw as [(_ & H2 & _) _].
  unfold settlement_row in Hr. unfold rows_of_task in Hr. apply head_Some_elem_of in Hr. apply list_elem_of_fmap in Hr as ([k r'] & -> & Hin).
  apply elem_of_map_to_list, map_lookup_filter_Some in Hin as [Hin _]. destruct (H2 _ _ Hin) as (_ & ? & ?). done.
Qed.

Lemma opt_text_default s : default ""%string (opt_text s) = s.
Proof. unfold opt_text, str_or. by case_decide; subst. Qed.

(** What is reflected is true of the binding it is taken from, or claims nothing. *)
Definition may_say (ch : C) (b : BindingRow) (onchain : string) : Prop :=
  (is_Some (chain_binding_id b) /\ tells onchain (fact_of ch b) = true) \/ free_state onchain.
Lemma may_say_row ch b s : row_true ch b -> br_state b = s -> may_say ch b s.
Proof. intros [H1 H2] <-. by left. Qed.

Lemma good_reflect e w t b s tx : may_say (ew_chain w) b s -> good w (reflect p e t b s tx) any.
Proof.
  intros Hs. eapply good_bind; [apply good_row|]. intros [m|] w' _ Hm Hk; [|by apply good_ret]. specialize (Hk m eq_refl) as [Ht Hp].
  destruct (is_money _ && _) eqn:Hg; [by apply good_ret|]. eapply good_bind; [apply good_write|by intros; apply good_ret]. split.
  - unfold settlement_true. cbn [reflected edit_chain sr_onchain_status]. destruct Hs as [[[i Hi] Hs]|Hs]; [|apply Hs].
    unfold settlement_fact. cbn [reflected edit_chain sr_onchain_binding_id sr_contract_address]. rewrite Hi, opt_text_default.
    eapply tells_moves; [|exact Hs]. unfold fact_of. rewrite Hi. apply Hm.
  - intros s' Hs'. cbn in Hs' |- *. pose proof (Hp s' Hs') as E. f_equal. apply pins_money in Hs'.
    rewrite E in Hg. cbn [is_money] in Hg. rewrite Hs' in Hg. cbn in Hg. apply negb_false_iff, bool_decide_eq_true in Hg. congruence.
Qed.

Lemma kept_status ch r s now : kept ch r -> kept ch (row_set_status s now r).
Proof. done. Qed.
Lemma kept_moves ch ch' r : moves facts ch ch' -> kept ch r -> kept ch' r.
Proof. intros Hm [H1 H2]. split; [by eapply settlement_true_moves|done]. Qed.

Lemma good_hops e path : forall w m target cur, kept (ew_chain w) m -> good w (align_hops e m target cur path) any.
Proof.
  induction path as [|step path IH]; intros w m target cur Hk; cbn [align_hops]; [by apply good_ret|].
  destruct (negb _); [by apply good_ret|]. apply good_then; [apply frame_audit|]. intros _ w1 _ Hm1. cbv zeta.
  eapply good_bind; [apply good_write; eapply kept_moves; [exact Hm1|by apply kept_status]|].
  intros _ w2 _ Hm2 _. apply IH. eapply kept_moves; [exact Hm2|]. eapply kept_moves; [exact Hm1|by apply kept_status].
Qed.
Lemma good_bookkeeping e w t s : good w (settle_chain_terminal_bookkeeping e t s) any.
Proof.
  unfold settle_chain_terminal_bookkeeping. destruct (CHAIN_TERMINAL_STATUS s) as [target|]; [|by apply good_ret].
  eapply good_bind; [apply good_row|]. intros [m|] w1 _ Hm1 Hk; [|by apply good_ret]. specialize (Hk m eq_refl).
  destruct (canonical_of_value (sr_status m)) as [cur|]; [|by apply good_ret]. destruct (negb _); [by apply good_ret|].
  apply good_then; [framing|]. intros [x|] w2 _ Hm2; [|by apply good_ret].
  eapply good_bind with (Q := any); [|by intros; apply good_ret]. unfold align_business_status. case_decide; [by apply good_ret|].
  destruct (legal_status_path cur target) as [[path|]|]; [|by apply good_ret|by apply good_ret]. apply good_hops. by eapply kept_moves.
Qed.
Lemma good_reflect_final e w t b s tx : may_say (ew_chain w) b s -> good w (reflect_final p e t b s tx) any.
Proof.
  intros Hs. unfold reflect_final. case_decide; [by apply good_ret|]. eapply good_bind; [by apply good_reflect|]. intros _ w1 _ _ _.
  eapply good_bind; [apply good_bookkeeping|]. intros. by apply good_ret.
Qed.

(** ** The operations of the channel *)

Lemma newest_of l b : fold_left newer l None = Some b -> b ∈ l.
Proof.
  assert (G : forall l' best, (forall x, best = Some x -> x ∈ l) -> (forall x, x ∈ l' -> x ∈ l) -> fold_left newer l' best = Some b -> b ∈ l).
  { induction l' as [|y l' IH]; cbn [fold_left]; intros best Hb Hl; [apply Hb|]. apply IH; [|intros x Hx; apply Hl; by right].
    intros x. unfold newer. destruct best as [z|]; [destruct (_ <? _)|]; [apply Hb|..]; intros [= <-]; apply Hl; left. }
  apply G; [done|auto].
Qed.
Lemma newest_elem t tb b : newest_binding t tb = Some b -> b ∈ et_bindings tb /\ br_task b = Some t.
Proof. intros [? ?]%newest_of%list_elem_of_filter. done. Qed.
Lemma good_find w t : good w (find_binding t) (fun m ch => forall b, m = Some b -> row_true ch b).
Proof.
  intros Hw. split_and!; [done|apply moves_refl|]. intros b Hb. apply newest_elem in Hb as [Hb _].
  destruct Hw as [(H1 & _) _]. rewrite Forall_forall in H1. by apply H1.
Qed.

Lemma good_recover e w b s : row_true (ew_chain w) b ->
  good w (recover_money_tx_hash p e b s) (fun x ch => row_true ch (fst x) /\ br_state (fst x) = br_state b /\
    forall ch', fact_of ch' (fst x) = fact_of ch' b).
Proof.
  intros Hb. unfold recover_money_tx_hash. destruct (str_or (br_finalize_tx b) None); [by apply good_ret|].
  destruct (MONEY_EVENT s) as [ev|]; [|by apply good_ret]. apply good_then; [framing|]. intros cooling w1 _ M1.
  destruct cooling; [apply good_ret; split_and!; [by eapply row_true_moves|done..]|].
  destruct (chain_binding_id b) as [i|] eqn:Hi; [|destruct Hb as [[? Hb] _]; congruence].
  apply good_then; [framing|]. intros found w2 _ M2. destruct (str_or found None) as [tx|].
  - apply good_then; [framing|]. intros _ w3 _ M3.
    eapply good_bind; [apply good_save; do 3 (eapply row_true_moves; [eassumption|]); exact Hb|].
    intros b' w4 _ M4 [-> Hb']. by apply good_ret.
  - apply good_then; [framing|]. intros _ w3 _ M3. apply good_ret. split_and!; [|done..].
    do 3 (eapply row_true_moves; [eassumption|]); exact Hb.
Qed.

(** The window is open. *)
Lemma good_adopt e w b t : row_true (ew_chain w) b ->
  good w (adopt_chain_finalizing p e b t) (fun x ch => row_true ch (fst x) /\ (snd x = false -> fst x = b)).
Proof.
  intros Hb. unfold adopt_chain_finalizing. eapply good_bind; [apply good_snapshot|]. intros v w1 _ M1 Hv.
  assert (Hb1 : row_true (ew_chain w1) b) by (by eapply row_true_moves). destruct v as [v|]; [|by apply good_ret].
  specialize (Hv v eq_refl). destruct (cv_state v =? 2) eqn:E2; cbn [negb]; [|by apply good_ret]. apply Z.eqb_eq in E2.
  case_decide; [by apply good_ret|].
  eapply good_bind; [apply good_save; split; [apply Hb|apply window_tells; rewrite <- E2; symmetry; exact Hv]|].
  intros b' w2 _ M2 [-> Hb']. eapply good_bind; [apply good_reflect; by apply may_say_row|]. intros _ w3 _ M3 _.
  apply good_ret. split; [by eapply row_true_moves|done].
Qed.

Lemma free_pending : free_state "pending_bind".
Proof. by intros f. Qed.
Lemma bound_says f : tells "active" f = tells "bound" f.
Proof. done. Qed.

Lemma local_id_number (w : EWorld C) i k x s : 0 <= i -> outcome (local_binding_id i k x) w = Ok s -> chain_id_of s = Some i.
Proof.
  intros Hi [= <-]. case_decide; [by apply chain_id_plain|]. destruct (existsb _ _); [by apply chain_id_prefixed|by apply chain_id_plain].
Qed.
Lemma good_local_id w i k x : 0 <= i -> good w (local_binding_id i k x) (fun s _ => chain_id_of s = Some i).
Proof. intros Hi. apply good_frame; [framing|]. intros s w' E. apply (local_id_number w i k x); [done|]. unfold outcome. by rewrite E. Qed.
Lemma good_open w bb sb n st scope t k :
  good w (open_order p keccak bb sb n st scope t k) (fun r ch => forall o, r = Ok o -> 0 <= op_binding o /\ tells "active" (facts ch k (op_binding o)) = true).
Proof. apply good_frame; [apply frame_open|]. intros r w' E o ->. by eapply open_reports. Qed.

(** The contract a new binding is opened on is the contract its row names. *)
Lemma configured_contract b : br_contract b = configured_address (ep_usage p) -> binding_contract p b = configured_address (ep_usage p).
Proof.
  intros E. unfold binding_contract. rewrite E. unfold or_str, configured_address. rewrite py_strip_idem. by case_decide.
Qed.

Lemma good_bind_new e w t buyer seller amount : good w (bind_new p keccak py_sum e t buyer seller amount) any.
Proof.
  unfold bind_new. cbv zeta. do 6 (apply good_then; [framing|]; intros ? ? _ _).
  eapply good_bind; [apply good_open|]. intros r w1 _ M1 Ho. destruct r as [o|d]; [|apply good_raise].
  destruct (Ho o eq_refl) as [Hi Ht]. eapply good_bind; [by apply good_local_id|]. intros id w2 _ M2 Hid.
  set (row := new_binding _ _ _ _ _ _ _ _ _ _ _). assert (Hc : chain_binding_id row = Some (op_binding o)) by exact Hid.
  assert (Hf : forall ch, fact_of ch row = facts ch (configured_address (ep_usage p)) (op_binding o))
    by (intros ch; unfold fact_of; rewrite Hc; f_equal; by apply configured_contract).
  assert (Hr : row_true (ew_chain w2) row) by (split; [by rewrite Hc|]; rewrite Hf; eapply tells_moves; [apply M2|exact Ht]).
  eapply good_bind; [by apply good_insert|]. intros _ w3 _ M3 _.
  eapply good_bind; [apply good_reflect; left; split; [by rewrite Hc|rewrite <- bound_says; apply (row_true_moves _ _ _ M3 Hr)]|].
  intros. by apply good_ret.
Qed.
Lemma good_before w t seller amount k : (forall s w', good w' (k s) any) -> good w (before_binding p t seller amount k) any.
Proof.
  intros Hk. unfold before_binding. destruct (negb _); [by apply good_ret|]. apply good_then; [framing|]. intros _ w1 _ _.
  destruct (_ <=? _)%float; [by apply good_ret|]. destruct (str_or seller None) as [s|]; [|apply good_raise].
  apply good_then; [framing|]. intros [b|] w2 _ _; [by apply good_ret|apply Hk].
Qed.
Lemma good_bind_for_task e w t buyer seller amount : good w (bind_for_task p keccak py_sum e t buyer seller amount) any.
Proof. apply good_before. intros. apply good_bind_new. Qed.
Lemma good_deferred e w t buyer seller amount : good w (bind_for_task_deferred p keccak py_sum e t buyer seller amount) any.
Proof.
  apply good_before. intros s w'. cbv zeta. do 11 (apply good_then; [framing|]; intros ? ? _ _).
  eapply good_bind; [apply good_reflect; right; apply free_pending|]. intros [] w1 _ _ _; [by apply good_ret|apply good_bind_for_task].
Qed.
Lemma good_materialize e w t : good w (materialize_pending_bind p keccak py_sum e t) any.
Proof.
  unfold materialize_pending_bind. destruct (negb _); [by apply good_ret|]. apply good_then; [framing|]. intros [m|] w1 _ _; [|by apply good_ret].
  destruct (negb _); [by apply good_ret|]. eapply good_bind; [apply good_bind_for_task|]. intros. by apply good_ret.
Qed.

(** A binding that is opened again keeps its state, so it must claim no more than that there
    is a binding. *)
Definition claims_open (b : BindingRow) : Prop := br_state b = "active"%string \/ br_state b = "disputed"%string.
Lemma open_says b f : claims_open b -> tells "active" f = true -> tells (br_state b) f = true.
Proof. by intros [-> | ->]. Qed.
Lemma good_rebind e w b t amount : claims_open b ->
  good w (rebind_partial p keccak py_sum e b t amount) (fun b' ch => row_true ch b').
Proof.
  intros Hs. unfold rebind_partial. cbv zeta. apply good_then; [apply frame_cancel|]. intros r w1 _ _.
  do 3 (apply good_then; [framing|]; intros ? ? _ _). eapply good_bind; [apply good_open|]. intros r' w2 _ M2 Ho.
  eapply good_bind with (Q := fun o ch => r' = Ok o).
  { apply good_frame; [framing|]. intros o w3 E. unfold chain_raises, lift in E. by destruct r'; simplify_eq/=. }
  intros o w3 _ M3 E. cbn in E. subst r'. destruct (Ho o eq_refl) as [Hi Ht]. eapply good_bind; [by apply good_local_id|]. intros id w4 _ M4 Hid.
  apply good_rekey. set (b' := set_rebound _ _ _ _ _ _ _ b). assert (Hc : chain_binding_id b' = Some (op_binding o)) by exact Hid.
  split; [by rewrite Hc|]. apply (open_says b); [done|]. unfold fact_of. rewrite Hc.
  eapply tells_moves; [apply M4|]. eapply tells_moves; [apply M3|exact Ht].
Qed.

Lemma good_cancel_now e w b : row_true (ew_chain w) b ->
  good w (cancel_now p e b) (fun b' ch => row_true ch b' /\ br_state b' = "cancelled"%string).
Proof.
  intros Hb. eapply good_bind; [apply good_reports; [apply frame_cancel|apply reports_cancel]|]. intros [tx|d] w1 _ M1 Hr; [|apply good_raise].
  eapply good_weaken; [apply good_save; split; [apply Hb|by apply (Hr tx)]|]. intros b' ch [-> H]. done.
Qed.
Lemma good_follow e w t b s f : row_true (ew_chain w) b -> tells s (fact_of (ew_chain w) b) = true -> good w (follow_final p e t b s f) any.
Proof.
  intros Hb Hs. unfold follow_final. eapply good_bind; [apply good_save; split; [apply Hb|exact Hs]|]. intros b' w1 _ M1 [-> Hb'].
  eapply good_bind; [by apply good_recover|]. intros x w2 _ M2 (Hx & Hst & _). cbv zeta.
  eapply good_bind; [apply good_reflect; by apply may_say_row|]. intros. by apply good_ret.
Qed.

Lemma final_view v ch b s : (forall x, v = Some x -> cv_state x = fact_code (fact_of ch b)) ->
  (v ≫= fun v => CHAIN_FINAL (cv_state v)) = Some s -> tells s (fact_of ch b) = true.
Proof. destruct v as [v|]; cbn; [|done]. intros H1 H2. apply final_tells. by rewrite <- (H1 v eq_refl). Qed.

Lemma good_cancel_for_task e w t : good w (cancel_for_task p e t) any.
Proof.
  unfold cancel_for_task. destruct (negb _); [by apply good_ret|]. eapply good_bind; [apply good_find|].
  intros [b|] w1 _ M1 Hb; [|by apply good_ret]. specialize (Hb b eq_refl).
  destruct (mem _ DONE_STATES); [by apply good_ret|]. destruct (mem _ _); [apply good_raise|]. destruct (negb _); [by apply good_ret|].
  eapply good_bind; [by apply good_adopt|]. intros x w2 _ M2 [Hx _]. cbv zeta. destruct (snd x); [apply good_raise|].
  eapply good_bind; [apply good_snapshot|]. intros v w3 _ M3 Hv. assert (Hx3 := row_true_moves _ _ _ M3 Hx).
  destruct (v ≫= _) as [s|] eqn:Hs; [apply good_follow; [done|exact (final_view _ _ _ _ Hv Hs)]|]. destruct (match v with Some _ => _ | None => _ end); [apply good_raise|].
  eapply good_bind; [by apply good_cancel_now|]. intros b' w4 _ M4 [Hb' Hst].
  eapply good_bind; [apply good_reflect; by apply may_say_row|]. intros _ w5 _ _ _. apply good_then; [framing|]. intros. by apply good_ret.
Qed.
Lemma good_cancel_row e w b : row_true (ew_chain w) b -> good w (cancel_binding_row p e b) any.
Proof.
  intros Hb. unfold cancel_binding_row. destruct (negb _); [by apply good_ret|]. destruct (mem _ DONE_STATES); [by apply good_ret|].
  destruct (mem _ _); [apply good_raise|]. destruct (negb _); [by apply good_ret|]. eapply good_bind; [apply good_snapshot|].
  intros v w1 _ M1 Hv. assert (Hb1 := row_true_moves _ _ _ M1 Hb). destruct (bool_decide _); [apply good_raise|].
  destruct (v ≫= _) as [s|] eqn:Hs.
  - eapply good_bind; [apply good_save; split; [apply Hb|exact (final_view _ _ _ _ Hv Hs)]|]. intros. by apply good_ret.
  - destruct (match v with Some _ => _ | None => _ end); [apply good_raise|]. eapply good_bind; [by apply good_cancel_now|].
    intros b' w2 _ _ _. apply good_then; [framing|]. intros. by apply good_ret.
Qed.

Lemma good_confirm e w t req : good w (buyer_confirm_for_task p e t req) any.
Proof.
  unfold buyer_confirm_for_task. destruct (negb _); [by apply good_ret|]. eapply good_bind; [apply good_find|].
  intros [b|] w1 _ M1 Hb; [|by apply good_ret]. specialize (Hb b eq_refl). cbv zeta.
  assert (Hr : forall d w', good w' (if req then m_raise (HTTPException 409 d) else m_ret (done (br_state b) b)) any)
    by (intros; destruct req; [apply good_raise|by apply good_ret]).
  destruct (br_confirmed_at b); [by apply good_ret|]. destruct (negb _); [apply Hr|]. apply good_then; [framing|].
  intros [x|d] w2 _ M2; [|apply Hr]. eapply good_bind; [apply good_save; exact (row_true_moves _ _ _ M2 Hb)|]. intros. by apply good_ret.
Qed.

Lemma good_window e w t s b x : is_Some (chain_binding_id b) -> tells s (fact_of (ew_chain w) b) = true ->
  good w (window_opened p e t s b x) (fun b' ch => row_true ch b').
Proof.
  intros Hi Hs. unfold window_opened. eapply good_bind; [apply good_save; split; [exact Hi|exact Hs]|]. intros b' w1 _ M1 [-> Hb'].
  eapply good_bind; [apply good_reflect; by apply may_say_row|]. intros _ w2 _ M2 _. apply good_ret. by eapply row_true_moves.
Qed.
Lemma good_submit_window e w t b n : row_true (ew_chain w) b -> good w (submit_window p keccak fmt6 e t b n) any.
Proof.
  intros Hb. unfold submit_window. eapply good_bind; [by apply good_adopt|]. intros x w1 _ M1 [Hx _]. cbv zeta.
  destruct (snd x); [by apply good_ret|]. apply good_then; [framing|]. intros proof w2 _ M2.
  eapply good_bind; [apply good_reports; [apply frame_submit|apply reports_submit]|]. intros [s|d] w3 _ M3 Hr; [|apply good_raise].
  eapply good_weaken; [apply good_window; [apply Hx|by apply (Hr s)]|done].
Qed.
Lemma good_submit e w t rel conf : good w (submit_for_task p keccak py_sum fmt6 e t rel conf) any.
Proof.
  unfold submit_for_task. destruct (negb _); [by apply good_ret|]. eapply good_bind; [apply good_find|].
  intros [b|] w1 _ M1 Hb; [|by apply good_ret]. specialize (Hb b eq_refl). destruct (mem (br_state b) _) eqn:Hst; cbn [negb]; [|by apply good_ret].
  assert (Ho : claims_open b) by (apply mem_true in Hst; rewrite !elem_of_cons, elem_of_nil in Hst; unfold claims_open; tauto).
  apply good_then; [framing|]. intros _ w2 _ M2. apply good_then; [framing|]. intros rel' w3 _ M3. apply good_then; [framing|].
  intros full w4 _ M4. apply good_then; [framing|]. intros target w5 _ M5. destruct (target <=? 0).
  { eapply good_bind; [apply good_cancel_for_task|]. intros. by apply good_ret. }
  eapply good_bind with (Q := fun b' ch => row_true ch b').
  { destruct (target =? full); [apply good_ret; do 4 (eapply row_true_moves; [eassumption|]); exact Hb|].
    apply good_then; [framing|]. intros amount w6 _ _. by apply good_rebind. }
  intros b' w6 _ M6 Hb'. eapply good_bind; [by apply good_submit_window|]. intros b2 w7 _ M7 _.
  eapply good_bind with (Q := any); [|by intros; apply good_ret]. destruct conf; [|by apply good_ret].
  eapply good_bind; [apply good_confirm|]. intros. by apply good_ret.
Qed.
Lemma good_slash e w t : good w (slash_for_task p keccak e t) any.
Proof.
  unfold slash_for_task. destruct (negb _); [by apply good_ret|]. eapply good_bind; [apply good_find|].
  intros [b|] w1 _ M1 Hb; [|by apply good_ret]. specialize (Hb b eq_refl). destruct (negb _); [by apply good_ret|].
  apply good_then; [framing|]. intros _ w2 _ M2. eapply good_bind; [apply good_snapshot|]. intros v w3 _ M3 Hv.
  assert (Hb3 : row_true (ew_chain w3) b) by (do 2 (eapply row_true_moves; [eassumption|]); exact Hb).
  destruct (v ≫= _) as [s|] eqn:Hs; [apply good_follow; [done|exact (final_view _ _ _ _ Hv Hs)]|].
  destruct (match v with Some v0 => _ | None => false end) eqn:Ha.
  - cbv zeta. eapply good_bind; [apply good_save; split; [apply Hb3|]|].
    { destruct v as [v|]; [|done]. apply andb_true_iff in Ha as [Ha _]. apply Z.eqb_eq in Ha. rewrite (Hv v eq_refl) in Ha. by apply window_tells. }
    intros b' w4 _ M4 [-> Hb']. eapply good_bind; [apply good_reflect; by apply may_say_row|]. intros. by apply good_ret.
  - eapply good_bind; [apply good_reports; [apply frame_breach|apply reports_breach]|]. intros [x|d] w4 _ M4 Hr; [|apply good_raise].
    eapply good_bind; [apply good_window; [apply Hb3|by apply (Hr x)]|]. intros. by apply good_ret.
Qed.
Lemma good_mark e w t : good w (mark_dispute_for_task p e t) any.
Proof.
  unfold mark_dispute_for_task. destruct (negb _); [by apply good_ret|]. eapply good_bind; [apply good_find|].
  intros [b|] w1 _ M1 Hb; [|by apply good_ret]. specialize (Hb b eq_refl). destruct (_ || _); [by apply good_ret|].
  eapply good_bind; [apply good_snapshot|]. intros v w2 _ M2 Hv. assert (Hb2 := row_true_moves _ _ _ M2 Hb).
  assert (Hmark : good w2 (do! r := mark_disputed p b in
              match r with
              | Err detail =>
                  do! after := chain_snapshot p b in
                  if match after with Some a => negb (cv_state a =? 1) | None => false end then m_ret (done (br_state b) b)
                  else m_raise (HTTPException 409 detail)
              | Ok None => m_ret (done "unsupported" b)
              | Ok (Some tx) =>
                  do! b := save_binding (set_state "disputed" (ee_now e) b) in
                  seq! reflect p e t b "disputed" (Some tx) in
                  m_ret (done "disputed" b)
              end) any).
  { eapply good_bind with (Q := fun r ch => forall tx, r = Ok (Some tx) -> tells "disputed" (fact_of ch b) = true).
    { apply good_frame; [apply frame_mark|]. intros r w' E tx ->. by eapply mark_reports. }
    intros [[tx|]|d] w3 _ M3 Hr; [|by apply good_ret|apply good_then; [framing|]; intros a w4 _ _; destruct (match a with Some _ => _ | None => _ end); [by apply good_ret|apply good_raise]].
    eapply good_bind; [apply good_save; split; [apply Hb2|by apply (Hr tx)]|]. intros b' w4 _ M4 [-> Hb'].
    eapply good_bind; [apply good_reflect; by apply may_say_row|]. intros. by apply good_ret. }
  assert (Hfrozen : cv_state <$> v = Some 6 -> good w2 (do! b := save_binding (set_state "disputed" (ee_now e) b) in
                seq! reflect p e t b "disputed" None in m_ret (done "disputed" b)) any).
  { intros E. destruct v as [v|]; [|done]. injection E as E. eapply good_bind; [apply good_save; split; [apply Hb2|]|].
    { apply frozen_tells. change (fact_code (fact_of (ew_chain w2) b) = 6). by rewrite <- (Hv v eq_refl). }
    intros b' w4 _ M4 [-> Hb']. eapply good_bind; [apply good_reflect; by apply may_say_row|]. intros. by apply good_ret. }
  destruct (cv_state <$> v) as [[|q|q]|]; try (by apply good_ret); [|exact Hmark].
  repeat match goal with |- context [match ?q with xI _ => _ | xO _ => _ | xH => _ end] => destruct q end; try (by apply good_ret); try exact Hmark.
  all: case_decide; [by apply good_ret|by apply Hfrozen].
Qed.
Lemma good_reconcile e w t : good w (reconcile_task p e t) any.
Proof.
  unfold reconcile_task. destruct (negb _); [by apply good_ret|]. eapply good_bind; [apply good_find|].
  intros [b|] w1 _ M1 Hb; [|by apply good_ret]. specialize (Hb b eq_refl). destruct (mem _ DONE_STATES).
  - eapply good_bind; [by apply good_recover|]. intros x w2 _ M2 (Hx & Hst & _). cbv zeta.
    eapply good_bind; [apply good_reflect; by apply may_say_row|]. intros. by apply good_ret.
  - destruct (negb _); [by apply good_ret|]. eapply good_bind; [apply good_snapshot|]. intros v w2 _ M2 Hv.
    assert (Hb2 := row_true_moves _ _ _ M2 Hb). destruct (v ≫= _) as [s|] eqn:Hs; [|by apply good_ret].
    eapply good_bind with (Q := fun x ch => row_true ch (fst x) /\ forall ch', fact_of ch' (fst x) = fact_of ch' b).
    { destruct (mem s _); [|by apply good_ret]. eapply good_weaken; [by apply good_recover|]. intros x ch (? & _ & ?). done. }
    intros x w3 _ M3 [Hx Hf]. cbv zeta. destruct (snd x); [|by apply good_ret].
    eapply good_bind; [apply good_save; split; [apply Hx|]|].
    { change (tells s (fact_of (ew_chain w3) (fst x)) = true). rewrite Hf. eapply tells_moves; [by apply fact_of_moves|exact (final_view _ _ _ _ Hv Hs)]. }
    intros b' w4 _ M4 [-> Hb']. eapply good_bind; [apply good_reflect; by apply may_say_row|]. intros. by apply good_ret.
Qed.

Lemma good_fill e w st : good w (fill_in_deferred_bind_for_cancel p keccak py_sum e st) any.
Proof.
  unfold fill_in_deferred_bind_for_cancel. apply good_then; [framing|]. intros hit w1 _ _. destruct (_ && _); [by apply good_ret|].
  eapply good_bind; [apply good_materialize|]. intros. by apply good_ret.
Qed.
Lemma good_seq {A B} w (c : EM A) (d : EM B) : good w c any -> (forall w', good w' d any) -> good w (seq! c in seq! d in m_ret tt) any.
Proof. intros Hc Hd. eapply good_bind; [exact Hc|]. intros _ w1 _ _ _. eapply good_bind; [apply Hd|]. intros. by apply good_ret. Qed.
Lemma good_sync e w conf st target : good w (sync_escrow_settlement p keccak py_sum fmt6 e conf st target) any.
Proof.
  unfold sync_escrow_settlement. cbv zeta. destruct (negb _); [by apply good_ret|]. destruct (canonical_task_status target); try by apply good_ret.
  all: try (apply good_seq; intros; auto using good_materialize, good_fill, good_mark, good_submit, good_slash, good_cancel_for_task).
  eapply good_bind; [apply good_deferred|]. intros. by apply good_ret.
Qed.

(** ** The tick *)

Lemma good_for_each {A B} (f : A -> EM (list B)) l : forall w, (forall x w', good w' (f x) any) -> good w (for_each f l) any.
Proof.
  induction l as [|x l IH]; intros w Hf; cbn [for_each]; [by apply good_ret|]. eapply good_bind; [apply Hf|]. intros a w1 _ _ _.
  eapply good_bind; [by apply IH|]. intros. by apply good_ret.
Qed.
Lemma good_at_place w n : good w (m_get (fun w => et_bindings (tables_of w) !! n)) (fun m ch => forall b, m = Some b -> row_true ch b).
Proof.
  intros Hw. split_and!; [done|apply moves_refl|]. intros b Hb. destruct Hw as [(H1 & _) _]. by eapply Forall_lookup_1.
Qed.
Lemma good_with_row {B} w n (f : BindingRow -> EM (list B)) :
  (forall b w', row_true (ew_chain w') b -> good w' (f b) any) -> good w (with_row n f) any.
Proof.
  intros Hf. eapply good_bind; [apply good_at_place|]. intros [b|] w1 _ _ Hb; [|by apply good_ret]. apply Hf. by apply Hb.
Qed.

Lemma good_sync_party e w i : good w (sync_party p e i) any.
Proof.
  unfold sync_party. destruct (str_or i None); [|by apply good_ret]. apply good_catch; [|intros; apply good_rollback].
  apply good_then; [framing|]. intros. apply good_commit.
Qed.
Lemma good_record e w b s tx r : is_Some (chain_binding_id b) -> tells s (fact_of (ew_chain w) b) = true ->
  good w (record_final p e b s tx r) any.
Proof.
  intros Hi Hs. unfold record_final. cbv zeta. set (b0 := match str_or tx None with Some _ => _ | None => _ end).
  assert (Hb0 : row_true (ew_chain w) b0 /\ br_state b0 = s) by (subst b0; by destruct (str_or tx None)). destruct Hb0 as [Hb0 Hs0].
  eapply good_bind; [by apply good_save|]. intros b' w1 _ M1 [-> Hb1].
  eapply good_bind with (Q := fun x ch => row_true ch (fst x) /\ br_state (fst x) = s).
  { destruct (_ && _); [|by apply good_ret]. eapply good_weaken; [by apply good_recover|]. intros x ch (? & E & _). by rewrite E. }
  intros x w2 _ M2 [Hx Hxs]. eapply good_bind; [apply good_reflect_final; by apply may_say_row|]. intros _ w3 _ _ _.
  apply good_then; [framing|]. intros _ w4 _ _. eapply good_bind; [apply good_commit|]. intros _ w5 _ _ _.
  eapply good_bind; [apply good_sync_party|]. intros _ w6 _ _ _. eapply good_bind; [apply good_sync_party|]. intros. by apply good_ret.
Qed.
Lemma good_book_final e w b s r : is_Some (chain_binding_id b) -> tells s (fact_of (ew_chain w) b) = true -> good w (book_final p e b s r) any.
Proof.
  intros Hi Hs. apply good_then; [framing|]. intros _ w1 _ M1. apply good_record; [done|]. eapply tells_moves; [by apply fact_of_moves|done].
Qed.
Lemma good_state w b : good w (onchain_state p b) (fun s ch => forall c, s = Some c -> c = fact_code (fact_of ch b)).
Proof.
  eapply good_bind; [apply good_snapshot|]. intros v w1 _ M1 Hv. apply good_ret. intros c E. destruct v as [v|]; [|done].
  injection E as <-. by apply Hv.
Qed.
Lemma state_final s ch b f : (forall c, s = Some c -> c = fact_code (fact_of ch b)) -> (s ≫= CHAIN_FINAL) = Some f -> tells f (fact_of ch b) = true.
Proof. destruct s as [c|]; cbn; [|done]. intros H1 H2. apply final_tells. by rewrite <- (H1 c eq_refl). Qed.
Lemma good_reconcile_row e w refunded b : row_true (ew_chain w) b ->
  good w (reconcile_row p e refunded b) any.
Proof.
  intros Hb. eapply good_bind; [apply good_state|]. intros s w1 _ M1 Hs. destruct (s ≫= CHAIN_FINAL) as [f|] eqn:E; [|by apply good_ret].
  eapply good_bind; [apply good_book_final; [apply Hb|exact (state_final _ _ _ _ Hs E)]|]. intros. by apply good_ret.
Qed.

Lemma good_bind_one e w t : good w (bind_one p keccak py_sum e t) any.
Proof.
  unfold bind_one. apply good_then; [framing|]. intros [] w1 _ _; [by apply good_ret|]. apply good_catch.
  - eapply good_bind; [apply good_materialize|]. intros [d|] w2 _ _ _.
    + apply good_then; [framing|]. intros _ w3 _ _. eapply good_bind; [apply good_commit|]. intros. by apply good_ret.
    + eapply good_bind; [apply good_commit|]. intros. by apply good_ret.
  - intros ex w2 _ _. do 2 (apply good_then; [framing|]; intros ? ? _ _). eapply good_bind; [apply good_commit|]. intros. by apply good_ret.
Qed.

(** The answers collected for several rows stay true: an end is final. *)
Definition asked (ch : C) (x : BindingRow * option Z) : Prop :=
  row_true ch (fst x) /\ forall f, (snd x ≫= CHAIN_FINAL) = Some f -> tells f (fact_of ch (fst x)) = true.
Definition executed (ch : C) (x : BindingRow * result string string) : Prop :=
  row_true ch (fst x) /\ forall tx, snd x = Ok tx -> tells "settled" (fact_of ch (fst x)) = true.
Lemma asked_moves ch ch' x : moves facts ch ch' -> asked ch x -> asked ch' x.
Proof. intros Hm [H1 H2]. split; [by eapply row_true_moves|]. intros f Hf. eapply tells_moves; [by apply fact_of_moves|auto]. Qed.
Lemma executed_moves ch ch' x : moves facts ch ch' -> executed ch x -> executed ch' x.
Proof. intros Hm [H1 H2]. split; [by eapply row_true_moves|]. intros f Hf. eapply tells_moves; [by apply fact_of_moves|eauto]. Qed.

Lemma good_due_bindings e w : good w (due_bindings p e) (fun rows ch => Forall (row_true ch) rows).
Proof.
  intros Hw. split_and!; [done|apply moves_refl|]. apply Forall_forall. intros b [_ Hb]%list_elem_of_filter.
  apply list_elem_of_omap in Hb as (n & _ & Hb). destruct Hw as [(H1 & _) _]. by eapply Forall_lookup_1.
Qed.
Lemma good_ask rows : forall w, Forall (row_true (ew_chain w)) rows -> good w (ask_all p rows) (fun l ch => Forall (asked ch) l).
Proof.
  induction rows as [|b rows IH]; intros w Hr; cbn [ask_all]; [by apply good_ret|]. apply Forall_cons in Hr as [Hb Hr].
  eapply good_bind; [apply good_state|]. intros s w1 _ M1 Hs.
  eapply good_bind; [apply IH; eapply Forall_impl; [exact Hr|]; intros; by eapply row_true_moves|]. intros l w2 _ M2 Hl. apply good_ret.
  constructor; [|done]. apply (asked_moves _ _ _ M2). split; [by eapply row_true_moves|]. intros f Hf. exact (state_final _ _ _ _ Hs Hf).
Qed.
Lemma good_execute rows : forall w, Forall (row_true (ew_chain w)) rows -> good w (execute_all p rows) (fun l ch => Forall (executed ch) l).
Proof.
  induction rows as [|b rows IH]; intros w Hr; cbn [execute_all]; [by apply good_ret|]. apply Forall_cons in Hr as [Hb Hr].
  eapply good_bind; [apply good_reports; [apply frame_finalize|apply reports_finalize]|]. intros r w1 _ M1 Hx.
  eapply good_bind; [apply IH; eapply Forall_impl; [exact Hr|]; intros; by eapply row_true_moves|]. intros l w2 _ M2 Hl. apply good_ret.
  constructor; [|done]. apply (executed_moves _ _ _ M2). split; [by eapply row_true_moves|]. exact Hx.
Qed.
Lemma good_for_all {A B} (P : C -> A -> Prop) (f : A -> EM (list B)) l : (forall ch ch' x, moves facts ch ch' -> P ch x -> P ch' x) ->
  (forall x w, P (ew_chain w) x -> good w (f x) any) -> forall w, Forall (P (ew_chain w)) l -> good w (for_each f l) any.
Proof.
  intros Hm Hf. induction l as [|x l IH]; intros w Hl; cbn [for_each]; [by apply good_ret|]. apply Forall_cons in Hl as [Hx Hl].
  eapply good_bind; [by apply Hf|]. intros a w1 _ M1 _. eapply good_bind; [apply IH; eapply Forall_impl; [exact Hl|eauto]|]. intros. by apply good_ret.
Qed.
Lemma good_settle_due e w : good w (settle_due p e) any.
Proof.
  unfold settle_due. destruct (negb _); [by apply good_ret|]. eapply good_bind; [apply good_due_bindings|]. intros rows w1 _ M1 Hr.
  eapply good_bind; [by apply good_ask|]. intros states w2 _ M2 Hs.
  eapply good_bind; [apply (good_for_all asked); [apply asked_moves| |exact Hs]|].
  { intros x w' [Hx Hf]. unfold book_closed. destruct (snd x ≫= CHAIN_FINAL) as [f|] eqn:E; [|by apply good_ret].
    apply good_book_final; [apply Hx|by apply Hf]. }
  intros closed w3 _ M3 _. cbv zeta. destruct (negb _); [apply good_raise|].
  eapply good_bind; [apply good_execute|].
  { apply Forall_fmap, Forall_forall. intros x [_ Hx]%list_elem_of_filter. rewrite Forall_forall in Hs. cbn.
    eapply row_true_moves; [exact M3|]. by apply Hs. }
  intros results w4 _ M4 Hres. eapply good_bind; [apply (good_for_all executed); [apply executed_moves| |exact Hres]|intros; by apply good_ret].
  intros x w' [Hx Hf]. unfold book_executed. destruct (snd x) as [tx|d].
  - apply good_then; [framing|]. intros _ w5 _ M5. apply good_record; [apply Hx|]. eapply tells_moves; [by apply fact_of_moves|by apply (Hf tx)].
  - eapply good_bind; [by apply good_reconcile_row|]. intros [l|] w5 _ _ _; [by apply good_ret|]. apply good_then; [framing|]. intros. by apply good_ret.
Qed.
Lemma good_breach_due e w : good w (breach_due p e) any.
Proof.
  unfold breach_due. destruct (negb _); [by apply good_ret|]. apply good_then; [framing|]. intros ns w1 _ _. apply good_for_each. intros n w2.
  apply good_with_row. intros b w3 Hb. apply good_then; [framing|]. intros [] w4 _ M4; [by apply good_ret|].
  assert (Hb4 := row_true_moves _ _ _ M4 Hb). eapply good_bind; [by apply good_reconcile_row|]. intros [l|] w5 _ M5 _; [by apply good_ret|].
  assert (Hb5 := row_true_moves _ _ _ M5 Hb4).
  eapply good_bind; [apply good_reports; [apply frame_finalize_breach|apply reports_finalize_breach]|]. intros [tx|d] w6 _ M6 Hx.
  - apply good_then; [framing|]. intros _ w7 _ M7. apply good_record; [apply Hb|]. eapply tells_moves; [by apply fact_of_moves|by apply (Hx tx)].
  - eapply good_bind; [apply good_reconcile_row; by eapply row_true_moves|]. intros [l|] w7 _ _ _; [by apply good_ret|].
    apply good_then; [framing|]. intros. by apply good_ret.
Qed.
Lemma good_probe e w : good w (reconcile_from_chain p e) any.
Proof.
  unfold reconcile_from_chain. destruct (negb _); [by apply good_ret|]. apply good_then; [framing|]. intros ns w1 _ _. apply good_for_each.
  intros n w2. apply good_with_row. intros b w3 Hb. eapply good_bind; [apply good_save; exact Hb|]. intros b' w4 _ M4 [-> Hb'].
  eapply good_bind; [by apply good_reconcile_row|]. intros. by apply good_ret.
Qed.
Lemma good_reap_action e w s t : good w (reap_action p keccak py_sum fmt6 e s t) any.
Proof.
  unfold reap_action. destruct (mem _ _); [eapply good_bind; [apply good_cancel_for_task|]; intros; by apply good_ret|].
  case_decide; [eapply good_bind; [apply good_slash|]; intros; by apply good_ret|].
  case_decide; [eapply good_bind; [apply good_submit|]; intros; by apply good_ret|by apply good_ret].
Qed.
Lemma good_commit_ret {A} w (a : A) : good w (seq! e_commit in m_ret a) any.
Proof. eapply good_bind; [apply good_commit|]. intros. by apply good_ret. Qed.
Lemma good_reap_status e w n s b t : row_true (ew_chain w) b -> good w (reap_by_status p keccak py_sum fmt6 e n s b t) any.
Proof.
  intros Hb. unfold reap_by_status. cbv zeta. apply good_then; [framing|]. intros o w1 _ M1. destruct (_ && _).
  - apply good_catch; [|intros; apply good_commit_ret]. eapply good_bind; [apply good_cancel_row; by eapply row_true_moves|].
    intros _ w2 _ _ _. apply good_commit_ret.
  - apply good_catch; [|intros; apply good_commit_ret]. eapply good_bind; [apply good_reap_action|]. intros out w2 _ _ _.
    apply good_with_row. intros b' w3 _. apply good_commit_ret.
Qed.
Lemma good_reap e w : good w (reap_stranded p keccak py_sum fmt6 e) any.
Proof.
  unfold reap_stranded. destruct (negb _); [by apply good_ret|]. apply good_then; [framing|]. intros ns w1 _ _. apply good_for_each.
  intros n w2. apply good_with_row. intros b w3 Hb. eapply good_bind; [by apply good_reconcile_row|]. intros [l|] w4 _ M4 _; [apply good_commit_ret|].
  eapply good_bind; [apply good_adopt; by eapply row_true_moves|]. intros x w5 _ M5 [Hx _]. destruct (snd x); [apply good_commit_ret|].
  destruct (str_or (br_task b) None) as [t|]; [|by apply good_ret]. apply good_then; [framing|]. intros [s|] w6 _ M6; [|by apply good_ret].
  apply good_reap_status. by eapply row_true_moves.
Qed.
Lemma good_align e w : good w (align_disputed_settlements p e) any.
Proof.
  unfold align_disputed_settlements. destruct (negb _); [by apply good_ret|]. apply good_then; [framing|]. intros rows w1 _ _. apply good_for_each.
  intros s w2. apply good_catch; [|intros; eapply good_bind; [apply good_rollback|]; intros; by apply good_ret].
  eapply good_bind; [apply good_bookkeeping|]. intros did w3 _ _ _. apply good_commit_ret.
Qed.
Lemma good_lap {A} w (c : EM (list A)) : good w c any -> good w (lap c) any.
Proof. intros Hc. eapply good_bind; [exact Hc|]. intros. apply good_commit. Qed.
Lemma good_tick e w : good w (autosettle_tick p keccak py_sum fmt6 e) any.
Proof.
  apply good_catch; [|intros; apply good_rollback].
  eapply good_bind; [apply good_lap; unfold bind_due; apply good_then; [framing|]; intros; apply good_for_each; intros; apply good_bind_one|].
  intros _ w1 _ _ _. eapply good_bind; [apply good_lap, good_settle_due|]. intros _ w2 _ _ _.
  eapply good_bind; [apply good_lap, good_breach_due|]. intros _ w3 _ _ _. eapply good_bind; [apply good_lap, good_probe|]. intros _ w4 _ _ _.
  eapply good_bind; [apply good_lap, good_reap|]. intros _ w5 _ _ _. apply good_lap, good_align.
Qed.
(** ** Orders outside the life of a task *)

Lemma good_submit_order w bb sb n st scope t proof k :
  good w (open_and_submit_order p keccak bb sb n st scope t proof k)
    (fun r ch => forall o x, r = Ok (o, x) -> 0 <= op_binding o /\ tells "finalizing" (facts ch k (op_binding o)) = true).
Proof.
  unfold open_and_submit_order. eapply good_bind; [apply good_open|]. intros [o|d] w1 _ M1 Ho; [|by apply good_ret].
  destruct (Ho o eq_refl) as [Hi _].
  eapply good_bind with (Q := fun r ch => forall x, r = Ok x -> tells "finalizing" (facts ch k (op_binding o)) = true).
  { apply good_frame; [apply frame_submit_with; intros; apply law_submit|]. intros r w' E x ->.
    eapply tells_moves; [eapply submit_with_ok; [|exact E]; intros; by eapply law_submitted|done]. }
  intros [x|d] w2 _ M2 Hx; [apply good_ret; intros o' x' [= <- <-]; split; [done|by eapply Hx]|].
  apply good_then; [framing|]. intros _ w3 _ _. by apply good_ret.
Qed.
Lemma good_book_order e w buyer seller profile bb sb t n st o x :
  0 <= op_binding o -> tells "finalizing" (facts (ew_chain w) (configured_address (ep_usage p)) (op_binding o)) = true ->
  good w (book_order p e buyer seller profile bb sb t n st o x) any.
Proof.
  intros Hi Ht. unfold book_order. eapply good_bind; [by apply good_local_id|]. intros id w1 _ M1 Hid. cbv zeta.
  set (row := order_row _ _ _ _ _ _ _ _ _ _ _ _ _). assert (Hc : chain_binding_id row = Some (op_binding o)) by exact Hid.
  eapply good_bind; [apply good_insert|intros; by apply good_ret]. split; [by rewrite Hc|]. unfold fact_of. rewrite Hc.
  rewrite (configured_contract row eq_refl). eapply tells_moves; [apply M1|exact Ht].
Qed.
Lemma good_usage_order e w payer owner bb sb scope t proof n st :
  good w (usage_order p keccak e payer owner bb sb scope t proof n st) any.
Proof.
  unfold usage_order. eapply good_bind; [apply good_submit_order|]. intros [[o x]|d] w1 _ M1 Ho; [|by apply good_ret].
  destruct (Ho o x eq_refl). eapply good_bind; [by apply good_book_order|]. intros. by apply good_ret.
Qed.

Lemma frame_resolve_bill i b : frame (resolve_bill p i b).
Proof. unfold resolve_bill. framing. Qed.
Lemma frame_room i n r : frame (room_for p py_sum i n r).
Proof. unfold room_for, secured_usdc_for_bill, assert_room. framing. Qed.
Lemma frame_order_profile i pr n : frame (order_profile i pr n).
Proof. unfold order_profile. framing. Qed.
Lemma frame_seller_profile i pr : frame (seller_profile_ok i pr).
Proof. unfold seller_profile_ok. framing. Qed.
#[local] Hint Resolve frame_resolve_bill frame_room frame_order_profile frame_seller_profile : framing.

Lemma good_open_order e w actor i b : good w (open_order_route p keccak py_sum e actor i b) any.
Proof.
  unfold open_order_route. do 2 (apply good_then; [framing|]; intros ? ? _ _). destruct (negb _); [apply good_raise|].
  do 2 (apply good_then; [framing|]; intros ? ? _ _). cbv zeta. do 2 (apply good_then; [framing|]; intros ? ? _ _).
  destruct (_ <=? _)%float; [apply good_raise|]. do 2 (apply good_then; [framing|]; intros ? ? _ _).
  eapply good_bind; [apply good_submit_order|]. intros [[o x]|d] w1 _ M1 Ho; [|apply good_raise]. destruct (Ho o x eq_refl) as [Hi Ht].
  apply good_then; [framing|]. intros _ w2 _ M2. apply good_book_order; [done|]. eapply tells_moves; [apply M2|exact Ht].
Qed.

(** The row that is found is the one the number in the path names. *)
Lemma key_number key t b : safe_segment key = true -> is_plain key -> binding_by_key key t = Some b ->
  b ∈ et_bindings t /\ path_number key = chain_binding_id b.
Proof.
  intros Hs Hp Hb. assert (Hn : path_number key = py_int_text key).
  { unfold path_number, py_int. rewrite (after_no_colon key) by (by apply segment_colon). by rewrite squeeze_plain. }
  rewrite Hn. unfold chain_binding_id, chain_id_of. unfold binding_by_key in Hb. destruct (head _) as [x|] eqn:Hx.
  - injection Hb as ->. apply head_Some_elem_of, list_elem_of_filter in Hx as [<- Hx]. split; [done|].
    by rewrite after_no_colon by (by apply segment_colon).
  - apply newest_of in Hb as [Hl Hb]%list_elem_of_filter. split; [done|].
    apply (like_suffix (":" +:+ key)) in Hl as [a ->]; [|constructor; [done|exact Hp]].
    change (":" +:+ key)%string with (String COLON key). by rewrite after_colon_app by (by apply segment_colon).
Qed.
Lemma good_finalize_order e w actor i key breach : is_plain key -> good w (finalize_order p e actor i key breach) any.
Proof.
  intros Hp. unfold finalize_order. apply good_then; [framing|]. intros _ w1 _ _.
  eapply good_bind with (Q := fun _ _ => safe_segment key = true).
  { apply good_frame; [framing|]. intros a w' E. unfold validate_public_url_segment in E. by destruct (safe_segment key). }
  intros _ w2 _ _ Hs. apply good_then; [framing|]. intros _ w3 _ _.
  eapply good_bind with (Q := fun m ch => forall b, m = Some b -> row_true ch b /\ path_number key = chain_binding_id b).
  { intros Hw. split_and!; [done|apply moves_refl|]. intros b Hb. destruct (key_number _ _ _ Hs Hp Hb) as [Hin E]. split; [|done].
    destruct Hw as [(H1 & _) _]. rewrite Forall_forall in H1. by apply H1. }
  intros [b|] w4 _ _ Hb; [|apply good_raise]. destruct (Hb b eq_refl) as [Hr Hk]. destruct (negb _); [apply good_raise|].
  destruct (mem _ _); [apply good_raise|]. rewrite Hk. destruct (chain_binding_id b) as [n|] eqn:Hn; [|apply good_raise].
  eapply good_bind with (Q := fun r ch => forall tx, r = Ok tx -> tells (if breach then "slashed" else "settled")%string (fact_of ch b) = true).
  { apply good_frame; [destruct breach; framing|]. intros r w' E tx ->. unfold fact_of. rewrite Hn. apply call_ok in E.
    destruct breach; [by rewrite (law_slashed _ _ _ _ _ E)|by rewrite (law_paid _ _ _ _ _ E)]. }
  intros [tx|d] w5 _ M5 Hx; [|apply good_raise].
  eapply good_bind; [apply good_save; split; [apply Hr|exact (Hx tx eq_refl)]|].
  intros b' w6 _ _ [-> _]. do 2 (apply good_then; [framing|]; intros ? ? _ _). apply good_then; [framing|]. intros. by apply good_ret.
Qed.

(** In a deployment off the bilateral contract its jobs do nothing. *)
Lemma good_bilateral w mode chain address t bundle answer h now :
  is_onchain mode = false -> good w (run_onchain_settlement mode chain address t bundle answer h now) any.
Proof. intros Hm. unfold run_onchain_settlement. rewrite Hm. by apply good_ret. Qed.
Lemma good_bilateral_reconcile w mode status now : is_onchain mode = false -> good w (reconcile_onchain_status mode status now) any.
Proof. intros Hm. unfold reconcile_onchain_status. rewrite Hm. by apply good_ret. Qed.
Lemma good_mark_pending w mode t now : is_onchain mode = false -> good w (mark_pending_bind p mode t now) any.
Proof. intros Hm. unfold mark_pending_bind. rewrite Hm. by apply good_ret. Qed.
End Truth.

(** ** Everything that can happen *)

Section Steps.
Context {C : Type} `{!EscrowRpc C} (facts : C -> string -> Z -> Fact) `{!EscrowLaws C facts}.
Abbreviation EM := (M (EWorld C) Exc).
Abbreviation Tb := (Tables (R := Rest EscrowTables)).
Context (p : EscrowPolicy) (keccak : string -> string) (py_sum : list float -> float) (fmt6 : float -> string).
(** [settings.settlement_mode]. *)
Context (mode : string).

(** The session of one request. *)
Definition e_request {A} (c : EM A) : EM A :=
  m_catch (do! a := c in seq! e_commit in m_ret a) (fun ex => seq! e_rollback in m_raise ex).

Definition chain_columns (r : SettlementRow) : option string * option Z * option string :=
  (sr_onchain_status r, sr_onchain_binding_id r, sr_contract_address r).

(** What the services that are not named below may do to the tables: anything but to the
    bindings and to the columns of the chain (a settlement that is saved keeps those it was
    read with); a new settlement has no status on the chain. *)
Definition books_between (t t' : Tb) : Prop :=
  et_bindings (x_graph (t_rest t')) = et_bindings (x_graph (t_rest t)) /\
  (forall k, is_Some (settlements (t_settle t) !! k) -> is_Some (settlements (t_settle t') !! k)) /\
  (forall k r', settlements (t_settle t') !! k = Some r' -> sr_settlement_id r' = k /\
     match settlements (t_settle t) !! k with
     | Some r => chain_columns r' = chain_columns r
     | None => sr_onchain_status r' = None
     end).

Inductive estep (w : EWorld C) : EWorld C -> Prop :=
| es_sync e confirmed st target : estep w (exec (e_request (sync_escrow_settlement p keccak py_sum fmt6 e confirmed st target)) w)
| es_confirm e t required : estep w (exec (e_request (buyer_confirm_for_task p e t required)) w)
| es_reconcile e t : estep w (exec (e_request (reconcile_task p e t)) w)
| es_appeal t : estep w (exec (e_request (assert_no_payee_yet p t)) w)
| es_preflight e t : estep w (exec (e_request (assert_release_preflight p e t)) w)
| es_order e actor i b : estep w (exec (e_request (open_order_route p keccak py_sum e actor i b)) w)
| es_usage e payer owner bb sb scope t proof n st :
    estep w (exec (e_request (usage_order p keccak e payer owner bb sb scope t proof n st)) w)
| es_finalize e actor i key breach : is_plain key -> estep w (exec (e_request (finalize_order p e actor i key breach)) w)
| es_bilateral chain address t bundle answer h now :
    estep w (exec (e_request (run_onchain_settlement mode chain address t bundle answer h now)) w)
| es_bilateral_reconcile status now : estep w (exec (e_request (reconcile_onchain_status mode status now)) w)
| es_pending_bind t now : estep w (exec (e_request (mark_pending_bind p mode t now)) w)
| es_tick e : estep w (exec (autosettle_tick p keccak py_sum fmt6 e) w)
| es_books r : books_between (work w) (working (r_session r)) -> books_between (comm w) (committed (r_session r)) -> estep w (set_routes r w)
| es_chain ch v5 cool failed permanent : moves facts (ew_chain w) ch ->
    estep w {| ew_routes := ew_routes w; ew_chain := ch; ew_v5 := v5; ew_cool := cool; ew_failed := failed; ew_permanent := permanent |}.

Lemma good_exec pins {A} w (c : EM A) Q : good facts p pins w c Q -> honest facts p pins w -> honest facts p pins (exec c w).
Proof. intros Hc Hw. specialize (Hc Hw). unfold exec. by destruct (c w) as [[a|ex] w']; destruct Hc. Qed.
Lemma good_request pins {A} w (c : EM A) : good facts p pins w c (fun _ _ => True) -> good facts p pins w (e_request c) (fun _ _ => True).
Proof.
  intros Hc. apply good_catch; [|intros; eapply good_bind; [apply good_rollback|]; intros; apply good_raise].
  eapply good_bind; [exact Hc|]. intros a w1 _ _ _. eapply good_bind; [apply good_commit|]. intros. by apply good_ret.
Qed.

Lemma books_true pins ch t t' : books_between t t' -> tables_true facts p pins ch t -> tables_true facts p pins ch t'.
Proof.
  intros (E & Hk & Hr) (H1 & H2 & H3). split_and!; [by rewrite E| |auto]. intros k r' Hr'. destruct (Hr k r' Hr') as [Hid Hc].
  destruct (settlements (t_settle t) !! k) as [r|] eqn:Hold.
  - destruct (H2 k r Hold) as (Hid' & Ht & Hp). injection Hc as C1 C2 C3. split_and!; [done| |].
    + unfold settlement_true, settlement_fact in *. by rewrite C1, C2, C3.
    + intros s Hs. rewrite C1. apply Hp. congruence.
  - split_and!; [done|unfold settlement_true; by rewrite Hc|]. intros s Hs. destruct (H3 k) as [r Hr0]; [rewrite <- Hid; eauto|]. congruence.
Qed.

Lemma honest_step pins w w' : is_onchain mode = false -> map_Forall (fun _ s => mem s TERMINAL_MONEY_STATUS = true) pins ->
  estep w w' -> honest facts p pins w -> honest facts p pins w'.
Proof.
  intros Hmode Hpins Hs Hw. destruct Hs.
  - eapply good_exec, Hw. by apply good_request, good_sync.
  - eapply good_exec, Hw. by apply good_request, good_confirm.
  - eapply good_exec, Hw. by apply good_request, good_reconcile.
  - eapply good_exec, Hw. by apply good_request, good_any, frame_appeal.
  - eapply good_exec, Hw. by apply good_request, good_any, frame_preflight.
  - eapply good_exec, Hw. by apply good_request, good_open_order.
  - eapply good_exec, Hw. by apply good_request, good_usage_order.
  - eapply good_exec, Hw. by apply good_request, good_finalize_order.
  - eapply good_exec, Hw. by apply good_request, good_bilateral.
  - eapply good_exec, Hw. by apply good_request, good_bilateral_reconcile.
  - eapply good_exec, Hw. by apply good_request, good_mark_pending.
  - eapply good_exec, Hw. by apply good_tick.
  - destruct Hw as [H1 H2]. split; by eapply books_true.
  - destruct Hw as [H1 H2]. split; by eapply tables_true_moves.
Qed.
Lemma honest_steps pins w w' : is_onchain mode = false -> map_Forall (fun _ s => mem s TERMINAL_MONEY_STATUS = true) pins ->
  rtc estep w w' -> honest facts p pins w -> honest facts p pins w'.
Proof. intros Hmode Hpins. induction 1; [done|]. intros Hw. eauto using honest_step. Qed.

(** Nothing is claimed that the chain does not confirm. *)
Definition truthful (w : EWorld C) : Prop := honest facts p ∅ w.

(** C1. While the deployment is off the bilateral contract (a settlement mode other than
    testnet and hybrid), the books never run ahead of the chain.  Transitions of tasks,
    confirmations, reconciliations, orders opened and finalized by the routes of the escrow,
    orders of metered usage, ticks, failures of the chain client, restarts and acts of others
    may happen one after another in any order, as long as a finalized order is named without an
    underscore and other requests leave the bindings and the chain columns as they read them.
    A binding that is booked as settled, slashed or cancelled is just that on the chain, one
    booked as finalizing or breaching has its window open or its money moved, and the status a
    settlement shows for the chain is true of the binding it names. *)
Theorem escrow_books_truthful w w' : is_onchain mode = false -> rtc estep w w' -> truthful w ->
  (forall b, b ∈ et_bindings (x_graph (t_rest (comm w'))) ->
     (br_state b = "settled"%string -> fact_of facts p (ew_chain w') b = FSettled) /\
     (br_state b = "slashed"%string -> fact_of facts p (ew_chain w') b = FSlashed) /\
     (br_state b = "cancelled"%string -> fact_of facts p (ew_chain w') b = FCancelled) /\
     (br_state b ∈ ["finalizing"; "breaching"]%string -> committed_to_pay (fact_of facts p (ew_chain w') b) = true)) /\
  (forall k r, settlements (t_settle (comm w')) !! k = Some r ->
     (sr_onchain_status r = Some "settled"%string -> settlement_fact facts (ew_chain w') r = FSettled) /\
     (sr_onchain_status r = Some "slashed"%string -> settlement_fact facts (ew_chain w') r = FSlashed)).
Proof.
  intros Hmode Hs Hw. destruct (honest_steps ∅ w w' Hmode (map_Forall_empty _) Hs Hw) as [_ (H1 & H2 & _)]. split.
  - intros b Hb. rewrite Forall_forall in H1. destruct (H1 b Hb) as [_ Ht]. split_and!; try (intros E; rewrite E in Ht; by apply bool_decide_eq_true in Ht).
    intros E. rewrite !elem_of_cons, elem_of_nil in E. destruct E as [E|[E|[]]]; by rewrite E in Ht.
  - intros k r Hr. destruct (H2 k r Hr) as (_ & Ht & _). unfold settlement_true in Ht.
    split; intros E; rewrite E in Ht; by apply bool_decide_eq_true in Ht.
Qed.

(** C10. While the deployment is off the bilateral contract (a settlement mode other than
    testnet and hybrid), how the money of a task has ended is written once: a settlement that
    shows settled or slashed on the chain shows the same after any further transitions, orders,
    reconciliations, ticks and acts on the chain, one after another, whatever becomes of other
    bindings of its task. *)
Theorem money_status_final w w' k r s : is_onchain mode = false -> rtc estep w w' -> truthful w -> work w = comm w ->
  settlements (t_settle (comm w)) !! k = Some r -> sr_onchain_status r = Some s -> mem s TERMINAL_MONEY_STATUS = true ->
  exists r', settlements (t_settle (comm w')) !! k = Some r' /\ sr_onchain_status r' = Some s.
Proof.
  intros Hmode Hs Hw Ew Hr Hst Hm. assert (Hp : map_Forall (fun _ s => mem s TERMINAL_MONEY_STATUS = true) {[k := s]})
    by (by apply map_Forall_singleton).
  assert (Ht : tables_true facts p {[k := s]} (ew_chain w) (comm w)).
  { destruct Hw as [_ (H1 & H2 & _)]. split_and!; [done| |].
    - intros k' r' Hr'. destruct (H2 k' r' Hr') as (E & H & _). split_and!; [done|done|]. intros s' Hs'.
      apply lookup_singleton_Some in Hs' as [Hs' <-]. congruence.
    - intros k' Hk'. destruct Hk' as [s' Hs']. apply lookup_singleton_Some in Hs' as [<- _]. eauto. }
  destruct (honest_steps {[k := s]} w w' Hmode Hp Hs) as [_ (_ & H2 & H3)]; [split; [by rewrite Ew|done]|].
  destruct (H3 k) as [r' Hr']; [rewrite lookup_singleton_eq; eauto|]. exists r'. split; [done|]. destruct (H2 k r' Hr') as (E & _ & Hk).
  apply Hk. rewrite E. by rewrite lookup_singleton_eq.
Qed.
End Steps.
