(* ===== verification/EscrowFlow.v ===== *)
(** * The escrow channel at work

    What the gates of the channel guarantee (paths of the state machine, the choice of a bill,
    the ban on dealing with oneself, no window without a verdict), and runs of the services
    against the contract of [EscrowNet], some of which end where the books and the money
    disagree for good. *)
From stdpp Require Import pretty.
From S2P Require Import Prelude PyText PyFloat FloatFacts PyJson RuntimeSafety AtomicLedger Capacity ProfileCapacity.
From S2P Require Import EscrowContract EscrowChain EscrowNet Amounts Voucher SettlementEngine SettlementTransitions UsageBilling SettlementRoutes SettlementFlow.
From S2P Require Import EscrowBills EscrowChannel EscrowTick EscrowOrders EscrowTruth.
Open Scope Z_scope.

(** ** Paths of the state machine *)

Definition next_of (a : TaskStatus) : list TaskStatus := default [] (VALID_TRANSITIONS a).
(** A walk along the edges, without its start. *)
Fixpoint walk (a : TaskStatus) (path : list TaskStatus) : bool :=
  match path with
  | [] => true
  | b :: path => bool_decide (b ∈ next_of a) && walk b path
  end.
Definition ends (a : TaskStatus) (path : list TaskStatus) : TaskStatus := List.last path a.
(** Where [n] steps lead. *)
Fixpoint reach (n : nat) (a : TaskStatus) : list TaskStatus :=
  match n with
  | O => [a]
  | S n => remove_dups (next_of a ≫= reach n)
  end.
Lemma last_step a b path : ends a (b :: path) = ends b path.
Proof. unfold ends. revert a b. induction path as [|c path IH]; intros a b; [done|]. cbn in *. destruct path; [done|]. apply IH. Qed.
Lemma walk_reach a path : walk a path = true -> ends a path ∈ reach (length path) a.
Proof.
  revert a. induction path as [|b path IH]; intros a H; [by left|]. cbn [walk] in H. apply andb_true_iff in H as [Hb H].
  apply bool_decide_eq_true in Hb. cbn [reach length]. apply elem_of_remove_dups, list_elem_of_bind. exists b. split; [|done].
  rewrite last_step. by apply IH.
Qed.

Definition path_ok (a b : TaskStatus) : bool :=
  match legal_status_path a b with
  | Some (Some path) =>
      walk a path && bool_decide (ends a path = b) && (length path <=? 3)%nat &&
      forallb (fun n => negb (bool_decide (b ∈ reach n a))) (seq 0 (length path))
  | Some None => forallb (fun n => negb (bool_decide (b ∈ reach n a))) (seq 0 4)
  | None => false
  end.
Lemma paths_ok a b : path_ok a b = true.
Proof.
  assert (H : forallb (fun a => forallb (path_ok a) (enum TaskStatus)) (enum TaskStatus) = true) by (vm_compute; reflexivity).
  rewrite forallb_forall in H. specialize (H a (proj1 (list_elem_of_In _ _) (elem_of_enum a))). rewrite forallb_forall in H.
  apply H, list_elem_of_In, elem_of_enum.
Qed.
Lemma unreached l a b path : forallb (fun n => negb (bool_decide (b ∈ reach n a))) l = true -> walk a path = true -> ends a path = b ->
  length path ∉ l.
Proof.
  intros H Hw He Hin. rewrite forallb_forall in H. specialize (H _ (proj1 (list_elem_of_In _ _) Hin)).
  apply negb_true_iff, bool_decide_eq_false in H. apply H. rewrite <-He. by apply walk_reach.
Qed.

(** C36. The search for a way from one status to another always ends, and takes the shortest
    way there is: what it returns is a walk along the table of transitions of at most three
    steps that ends at the target, no walk to the target is shorter, and when it returns
    nothing every walk to the target has more than three steps. *)
Theorem status_path_shortest a b :
  exists found, legal_status_path a b = Some found /\
    match found with
    | Some path => walk a path = true /\ ends a path = b /\ (length path <= 3)%nat /\
        (forall q, walk a q = true -> ends a q = b -> (length path <= length q)%nat)
    | None => forall q, walk a q = true -> ends a q = b -> (3 < length q)%nat
    end.
Proof.
  pose proof (paths_ok a b) as H. unfold path_ok in H. destruct (legal_status_path a b) as [[path|]|]; [| |done]; eexists; (split; [reflexivity|]).
  - rewrite !andb_true_iff in H. destruct H as [[[Hw He] Hl] Hs]. apply bool_decide_eq_true in He. apply Nat.leb_le in Hl.
    split_and!; [done|done|done|]. intros q Hq Hqe. pose proof (unreached _ _ _ q Hs Hq Hqe) as Hn. rewrite elem_of_seq in Hn. lia.
  - intros q Hq Hqe. pose proof (unreached _ _ _ q H Hq Hqe) as Hn. rewrite elem_of_seq in Hn. lia.
Qed.

(** ** The gates *)

Section Gates.
Context {C : Type} `{!EscrowRpc C} (p : EscrowPolicy) (keccak : string -> string) (py_sum : list float -> float) (fmt6 : float -> string).

(** What has to be on the books before money is given a payee: a verdict of the right kind, on
    the way to the seller a delivery and a successful receipt, and a trail from the newest
    binding to a bill of each party, in different wallets, on the contract in use, for no more
    than was put in escrow. *)
Definition accounted (e : EscrowEnv) (m : Mode) (t : string) (w : EWorld C) : Prop :=
  exists r b bb sb held bound,
    head (rows_of_task t (t_settle (work w))) = Some r /\ newest_binding t (tables_of w) = Some b /\
    lower_strip (sr_status r) = DECIDED_STATUS m /\
    (m = PAY -> ee_delivery e r = Ok tt /\
       (settlement_requires_success_receipt (ep_routes p) = true -> (or_zero (Some (sr_escrow_amount r)) <=? f1em6)%float = false ->
        exists x, x ∈ ee_receipts e (sr_task_id r) /\ rc_success x = true)) /\
    find_bill (tables_of w) (party_of (tables_of w) (Some (sr_client_agent_id r))) (br_buyer_bill b) = Some bb /\
    find_bill (tables_of w) (party_of (tables_of w) (sr_worker_agent_id r)) (br_seller_bill b) = Some sb /\
    (forall x, wallet_of bb = Some x -> wallet_of sb <> Some x) /\
    is_current_contract (ep_usage p) (binding_contract p b) = true /\
    is_Some (chain_binding_id b) /\
    trace_minor p (sr_escrow_amount r) = Ok held /\ trace_minor p (br_amount b) = Ok bound /\ bound <= held.

Lemma issue_nil bad text l : issue bad text ++ l = [] -> bad = false /\ l = [].
Proof. unfold issue. by destruct bad. Qed.

Lemma traceable_ok stage t (w : EWorld C) x w' : assert_funds_traceable p t stage w = (Ok x, w') ->
  exists r b tr, head (rows_of_task t (t_settle (work w))) = Some r /\ newest_binding t (tables_of w) = Some b /\
    trace_of p (tables_of w) (existsb (fun a => bool_decide (au_task_id a = t)) (t_audits (work w))) r b = Ok tr /\ ft_issues tr = [].
Proof.
  intros H. unfold assert_funds_traceable in H. apply m_bind_ok in H as (rs & w1 & [= <- <-] & H).
  apply m_bind_ok in H as (tr & w1 & Hl & H). apply lift_ok in Hl as [Hl ->]. destruct (trace_ok tr) eqn:Ho; [|done].
  apply bool_decide_eq_true in Ho. unfold trace_task_funds in Hl.
  destruct (head (rows_of_task t _)) as [r|] eqn:Hr, (newest_binding t (tables_of w)) as [b|] eqn:Hb; try (injection Hl as <-; done).
  by exists r, b, tr.
Qed.

Lemma traced t audited r b tr : trace_of p t audited r b = Ok tr -> ft_issues tr = [] ->
  exists bb sb held bound,
    find_bill t (party_of t (Some (sr_client_agent_id r))) (br_buyer_bill b) = Some bb /\
    find_bill t (party_of t (sr_worker_agent_id r)) (br_seller_bill b) = Some sb /\
    (forall x, wallet_of bb = Some x -> wallet_of sb <> Some x) /\
    is_current_contract (ep_usage p) (binding_contract p b) = true /\ is_Some (chain_binding_id b) /\
    trace_minor p (sr_escrow_amount r) = Ok held /\ trace_minor p (br_amount b) = Ok bound /\ bound <= held.
Proof.
  unfold trace_of. destruct (trace_minor p (sr_escrow_amount r)) as [held|] eqn:Hh; [|done].
  destruct (trace_minor p (br_amount b)) as [bound|] eqn:Hb; [|done]. intros [= <-]. cbn [ft_issues].
  unfold pointer_issues, bill_issues. rewrite <-!app_assoc. intros H.
  apply issue_nil in H as [Hid H]. do 3 apply issue_nil in H as [_ H]. apply issue_nil in H as [Hbb H]. apply issue_nil in H as [Hsb H].
  apply issue_nil in H as [Hw H]. apply issue_nil in H as [Hc H]. apply issue_nil in H as [Hle _].
  destruct (find_bill t _ (br_buyer_bill b)) as [bb|]; [|done]. destruct (find_bill t _ (br_seller_bill b)) as [sb|]; [|done].
  exists bb, sb, held, bound. split_and!; try done.
  - intros x Hx Hy. change (match wallet_of bb, wallet_of sb with Some x, Some y => bool_decide (x = y) | _, _ => false end = false) in Hw. rewrite Hx, Hy in Hw. by apply bool_decide_eq_false in Hw.
  - by apply negb_false_iff.
  - apply bool_decide_eq_false in Hid. by apply not_eq_None_Some.
  - by apply Z.ltb_ge.
Qed.

Lemma verified_reads e t m (w : EWorld C) : exec (assert_release_verified p e t m) w = w.
Proof.
  unfold assert_release_verified, exec, settlement_row, m_bind. cbn. destruct (head _) as [r|]; [|done]. destruct (negb _); [done|].
  assert (H : forall stage, snd (assert_funds_traceable p t stage w) = w).
  { intros stage. unfold assert_funds_traceable, m_bind, m_get, lift. destruct (trace_task_funds p t w) as [tr|]; [|done]. by destruct (trace_ok tr). }
  destruct m; [|apply H]. unfold lift, m_bind. destruct (release_preconditions p e r); [apply H|done].
Qed.
Lemma verified_ok e t m (w : EWorld C) w' : assert_release_verified p e t m w = (Ok tt, w') -> accounted e m t w.
Proof.
  intros H. unfold assert_release_verified in H. apply m_bind_ok in H as (row & w1 & [= <- <-] & H).
  destruct (head _) as [r|] eqn:Hr; [|done]. destruct (bool_decide _) eqn:Hv; [|done]. apply bool_decide_eq_true in Hv. cbn [negb] in H.
  assert (Ht : exists stage w2, assert_funds_traceable p t stage w = (Ok tt, w2) /\ (m = PAY -> release_preconditions p e r = Ok tt)).
  { destruct m; [|exists (stage_name SLASH), w'; split; [exact H|done]]. apply m_bind_ok in H as ([] & w1 & Hp & H). apply lift_ok in Hp as [Hp ->]. exists (stage_name PAY), w'; by split. }
  destruct Ht as (stage & w2 & Ht & Hp). apply traceable_ok in Ht as (r' & b & tr & Hr' & Hb & Htr & Hi).
  assert (r' = r) as -> by (unfold work in Hr'; congruence). destruct (traced _ _ _ _ _ Htr Hi) as (bb & sb & held & bound & Hrest).
  exists r, b, bb, sb, held, bound. split; [done|]. split; [done|]. split; [done|]. split; [|done]. intros Hm. specialize (Hp Hm).
  unfold release_preconditions in Hp. destruct (ee_delivery e r) as [[]|] eqn:Hd; [|done]. split; [done|]. intros Hq Hx. cbn [rbind] in Hp.
  unfold ensure_success_receipt in Hp. rewrite Hq, Hx in Hp. cbn [negb] in Hp. destruct (existsb rc_success _) eqn:Hex; [|done].
  apply existsb_exists in Hex as (x & Hin & Hs). exists x. split; [by apply list_elem_of_In|done].
Qed.

(** C11. Money gets no payee without a verdict: if asking for a settlement window or for a
    slash changes anything at all (a row, the chain, a cache), then the books hold a verdict of
    that kind and a complete trail of the funds on both sides; when the seller is to be paid
    there is also a delivery, and a successful receipt if receipts are required by the settings
    (settlement_requires_success_receipt) and the escrow is above 1e-6. *)
Theorem no_window_without_verdict e t released confirmed (w : EWorld C) :
  (exec (submit_for_task p keccak py_sum fmt6 e t released confirmed) w <> w -> accounted e PAY t w) /\
  (exec (slash_for_task p keccak e t) w <> w -> accounted e SLASH t w).
Proof.
  split; intros H; [unfold submit_for_task in H|unfold slash_for_task in H];
    (destruct (chan_enabled p); cbn [negb] in H; [|done]); unfold exec, find_binding, m_bind at 1 in H; cbn in H;
    (destruct (newest_binding t (tables_of w)) as [b|]; [|done]); (destruct (mem _ _); cbn [negb] in H; [|done]);
    unfold m_bind at 1 in H;
    match type of H with context [assert_release_verified p e t ?m w] =>
      pose proof (verified_reads e t m w) as Hw; unfold exec in Hw; destruct (assert_release_verified p e t m w) as [[[]|ex] w1] eqn:Hv
    end; first [exact (verified_ok _ _ _ _ _ Hv)|cbn in Hw; rewrite Hw in H; done].
Qed.
(** *** One hand on both sides *)

(** Two parties in one hand: the same name, the same person behind both, or a wallet that
    belongs to both. *)
Definition one_hand (e : EscrowEnv) (t : EscrowTables) (a b : string) : Prop :=
  py_strip a <> ""%string /\ py_strip b <> ""%string /\
  (py_lower (py_strip a) = py_lower (py_strip b) \/
   party_main e t (py_strip a) <> ""%string /\ party_main e t (py_strip b) <> ""%string /\
     py_lower (party_main e t (py_strip a)) = py_lower (party_main e t (py_strip b)) \/
   exists x, x ∈ party_wallets e t (py_strip a) None /\ x ∈ party_wallets e t (py_strip b) None).
Lemma one_hand_sym e t a b : one_hand e t a b -> one_hand e t b a.
Proof. unfold one_hand. naive_solver. Qed.

Lemma one_hand_detected e t a b : one_hand e t a b -> is_Some (detect_self_dealing e t (Some a) (Some b) None None).
Proof.
  intros (Ha & Hb & H). unfold detect_self_dealing. cbn [default from_option id].
  rewrite !bool_decide_eq_false_2 by done. cbn [orb]. destruct (decide _); [by eexists|].
  destruct H as [H|[(Hm & Hn & H)|(x & Hx & Hy)]]; [done| |].
  - rewrite !bool_decide_eq_false_2, bool_decide_eq_true_2 by done. by eexists.
  - destruct (_ && _); [by eexists|].
    destruct (elements _) as [|y l] eqn:E; [|by eexists]. apply elements_empty_inv in E.
    exfalso. apply (not_elem_of_empty (C := gset string) x), (proj1 (E x)), elem_of_intersection. by split.
Qed.

Lemma one_hand_refused e a b amount task (w : EWorld C) : one_hand e (tables_of w) a b -> exec (bind_new p keccak py_sum e task a b amount) w = w.
Proof.
  intros H. apply one_hand_detected in H as [d Hd]. unfold bind_new, exec, m_bind at 1. cbn. unfold m_bind at 1. cbn.
  unfold m_bind at 1, assert_parties_not_self_dealing. unfold m_bind at 1. cbn. by rewrite Hd.
Qed.
Lemma before_binding_reads task seller amount k (w : EWorld C) :
  (forall s, seller = Some s -> exec (k s) w = w) -> exec (before_binding p task seller amount k) w = w.
Proof.
  clear keccak py_sum fmt6. intros Hk. unfold before_binding. destruct (chan_enabled p); [|done]. cbn [negb].
  assert (Hr : forall r w', assert_receipt_path_exists p task w = (r, w') -> w' = w).
  { unfold assert_receipt_path_exists. intros r w'. destruct (negb _); [by intros [= _ <-]|]. unfold settlement_row, m_bind. cbn.
    destruct (head _) as [x|]; [|by intros [= _ <-]]. by destruct (decide _); intros [= _ <-]. }
  unfold exec, m_bind at 1. destruct (assert_receipt_path_exists p task w) as [x w1]. rewrite (Hr _ _ eq_refl). destruct x as [[]|ex]; [|done].
  destruct (_ <=? _)%float; [done|]. destruct (str_or seller None) as [s|] eqn:Hs; [|done].
  assert (seller = Some s) by (destruct seller as [[]|]; naive_solver).
  unfold open_binding, m_bind. cbn. case_match; [done|]. by apply Hk.
Qed.

(** C24. Nobody is bound to himself: when buyer and seller are in one hand, whichever of them is
    named as the buyer, binding them does not touch the books or the chain, at once or when a
    pending settlement is caught up. *)
Theorem one_hand_never_binds e a b amount task (w : EWorld C) : one_hand e (tables_of w) a b ->
  exec (bind_for_task p keccak py_sum e task a (Some b) amount) w = w /\
  exec (bind_for_task p keccak py_sum e task b (Some a) amount) w = w /\
  (forall r, head (rows_of_task task (t_settle (work w))) = Some r -> sr_client_agent_id r = a -> sr_worker_agent_id r = Some b ->
     exec (materialize_pending_bind p keccak py_sum e task) w = w).
Proof.
  intros H. assert (Hb : forall x y n, one_hand e (tables_of w) x y -> exec (bind_for_task p keccak py_sum e task x (Some y) n) w = w).
  { intros x y n Hxy. apply before_binding_reads. intros s [= <-]. by apply one_hand_refused. }
  split; [by apply Hb|]. split; [by apply Hb, one_hand_sym|]. intros r Hr Hc Hw. unfold materialize_pending_bind.
  destruct (chan_enabled p); [|done]. cbn [negb]. unfold settlement_row, exec, m_bind at 1. cbn. unfold work in Hr. rewrite Hr.
  destruct (negb _); [done|]. rewrite Hc, Hw. specialize (Hb a b (or_zero (Some (sr_escrow_amount r))) H). unfold exec in Hb.
  unfold m_bind. destruct (bind_for_task _ _ _ _ _ _ _ _ w) as [[d|ex] w1]; cbn in *; congruence.
Qed.

(** *** A bill that bears the amount *)

(** The bill is open, on the contract in use, and by the books, by the allowance that backs it
    and by the chain it has room for [n]. *)
Definition bears (n : Z) (r : CommitRow) : Prop :=
  let c := cr_commit r in
  cm_state c = "open"%string /\ bill_is_spendable (ep_usage p) c = true /\
  exists a s v bk sec i x o (w w' : EWorld C),
    minor p (cm_amount c) = Ok a /\ minor p (cm_spent c) = Ok s /\ minor p (cm_reserved c) = Ok v /\ n <= a - s - v /\
    bk_checked bk = true /\ minor p (default fzero (snd <$> dict_get (cm_bill c) (bk_bills bk))) = Ok sec /\ n <= sec /\
    chain_id_of (cm_bill c) = Some i /\ bill_available p (bill_contract (ep_usage p) c) i w = (Ok (Some x), w') /\
    minor p x = Ok o /\ n <= o.

Lemma weigh_best bk n (rows : list CommitRow) r k (w : EWorld C) k' w' : bk_checked bk = true ->
  r ∈ rows -> is_live r = true -> bill_is_spendable (ep_usage p) (cr_commit r) = true ->
  (forall room bill, pk_best k = Some (room, bill) -> exists x, x ∈ rows /\ cm_bill (cr_commit x) = bill /\ bears n x) ->
  weigh p bk n r k w = (Ok k', w') ->
  forall room bill, pk_best k' = Some (room, bill) -> exists x, x ∈ rows /\ cm_bill (cr_commit x) = bill /\ bears n x.
Proof.
  intros Hbk Hin Hl Hs Hk H. unfold weigh in H.
  apply m_bind_ok in H as (a & w1 & Ha & H). apply lift_ok in Ha as [Ha ->]. apply m_bind_ok in H as (s & w1 & Hsp & H).
  apply lift_ok in Hsp as [Hsp ->]. apply m_bind_ok in H as (v & w1 & Hv & H). apply lift_ok in Hv as [Hv ->].
  apply m_bind_ok in H as (sec & w1 & Hsec & H). apply lift_ok in Hsec as [Hsec ->].
  destruct (_ || _) eqn:Hn; [by injection H as <- <-|]. apply orb_false_iff in Hn as [Hn1 Hn2]. apply Z.ltb_ge in Hn1, Hn2.
  destruct (chain_id_of _) as [i|] eqn:Hi; [|done]. apply m_bind_ok in H as ([x|] & w1 & Hx & H); [|by injection H as <- <-].
  apply m_bind_ok in H as (o & w2 & Ho & H). apply lift_ok in Ho as [Ho ->]. injection H as <- <-. cbn.
  destruct (o <? n) eqn:Hon; [done|]. apply Z.ltb_ge in Hon. cbn. destruct (match pk_best k with None => _ | Some _ => _ end); [|done].
  intros room bill [= _ <-]. exists r. split; [done|]. split; [done|]. split; [by apply bool_decide_eq_true in Hl|]. split; [done|].
  by exists a, s, v, bk, sec, i, x, o, w, w1.
Qed.
Lemma weigh_all_best bk n (all rows : list CommitRow) k (w : EWorld C) k' w' : bk_checked bk = true ->
  (forall r, r ∈ rows -> r ∈ all /\ is_live r = true /\ bill_is_spendable (ep_usage p) (cr_commit r) = true) ->
  (forall room bill, pk_best k = Some (room, bill) -> exists x, x ∈ all /\ cm_bill (cr_commit x) = bill /\ bears n x) ->
  weigh_all p bk n rows k w = (Ok k', w') ->
  forall room bill, pk_best k' = Some (room, bill) -> exists x, x ∈ all /\ cm_bill (cr_commit x) = bill /\ bears n x.
Proof.
  intros Hbk. revert k w. induction rows as [|r rows IH]; intros k w Hr Hk H; [by injection H as <- <-|].
  cbn in H. apply m_bind_ok in H as (k1 & w1 & H1 & H). apply (IH k1 w1); [intros x Hx; apply Hr; by right| |done].
  destruct (Hr r) as (Hin & Hl & Hs); [by left|]. by eapply weigh_best.
Qed.

(** The bill that is chosen for a side of a binding is one of the party's own, still open,
    on the contract in use, and bears the amount three times over: by what the books leave
    free, by the share of the wallet's allowance that backs it, and by the room the chain
    itself reports. *)
Theorem picked_bill_bears identity role need (w : EWorld C) bill w' n :
  pick_bill p py_sum identity role need w = (Ok bill, w') -> minor p (py_max fzero (or_zero (Some need))) = Ok n ->
  exists r, r ∈ commits_of identity (tables_of w) /\ cm_bill (cr_commit r) = bill /\ bears n r.
Proof.
  intros H Hn. unfold pick_bill in H. apply m_bind_ok in H as (rows & w1 & [= <- <-] & H). unfold pick_bill_of in H. rewrite Hn in H.
  apply m_bind_ok in H as (n' & w1 & [= <- <-] & H). destruct (bool_decide _); [done|]. destruct (bool_decide _); [done|].
  apply m_bind_ok in H as (bk & w1 & _ & H). destruct (bk_checked bk) eqn:Hbk; [|done]. cbn [negb] in H.
  apply m_bind_ok in H as (k & w2 & Hw & H). destruct (pk_best k) as [[room x]|] eqn:Hb; [|done]. injection H as <- <-.
  eapply weigh_all_best; [exact Hbk| | |exact Hw|exact Hb]; [|intros; discriminate].
  intros r Hr. apply list_elem_of_filter in Hr as [Hs Hr]. by apply list_elem_of_filter in Hr as [Hl Hr].
Qed.
End Gates.

(** ** A network, two bills, one settlement *)

Definition ADDR : string := "0xescrow".
Definition esc_usage : UsagePolicy :=
  {| settlement_default_penalty_bps := 3000; escrow_enabled := true; allowance_escrow_address := ADDR;
     settlement_operator_private_key := "key"; settlement_scope := "karma" |}.
Definition esc_policy : EscrowPolicy :=
  {| ep_usage := esc_usage; ep_routes := demo_route_policy; ep_readiness_required := false; ep_receipt_signature := false;
     ep_orphan_cancel := true; ep_batch := 5; ep_probe_interval := 0 |}.
Definition esc_env (now : Z) (receipts : list Receipt) : EscrowEnv :=
  {| ee_now := now * 1000000; ee_unix := now; ee_mono := now * 1000; ee_main := fun _ => None; ee_wallet := fun _ => None;
     ee_delivery := fun _ => Ok tt; ee_receipts := fun _ => receipts |}.
Definition esc_keccak (_ : string) : string := "0x0123456789012345678901234567890123456789012345678901234567890123".
Definition esc_fmt (_ : float) : string := "amount".
Definition wallet (x : string) : string := ("0x00000000000000000000000000000000000000" ++ x)%string.
Definition esc_bill (bill who w : string) : CommitRow :=
  {| cr_commit := {| cm_bill := bill; cm_identity := who; cm_contract := ADDR; cm_amount := f100; cm_spent := fzero; cm_reserved := fzero;
                     cm_state := "open" |};
     cr_wallet := wallet w; cr_token := "usdc"; cr_backed := true; cr_synced_at := None |}.
Definition esc_tables : EscrowTables :=
  {| et_bindings := []; et_commits := [esc_bill "1" "buyer" "aa"; esc_bill "2" "seller" "bb"];
     et_agent_owner := {[ "agent"%string := "seller"%string ]}; et_profile_wallet := ∅; et_role_wallets := [] |}.

Definition coin (n : Z) : Z := n * 1000000.
Definition esc_contract : Contract Purse :=
  run_calls [(wallet "aa", 0, EscrowContract.Commit "usdc" (coin 100) "karma"); (wallet "bb", 0, EscrowContract.Commit "usdc" (coin 100) "karma")]%string
    (new_contract {[ wallet "aa" := coin 1000; wallet "bb" := coin 1000 ]}).
Lemma esc_contract_solvent : solvent esc_contract.
Proof.
  unfold esc_contract, run_calls. cbn [fold_left]. do 2 (apply solvent_transact; [|vm_compute; intuition congruence]). apply new_contract_solvent.
Qed.
Definition esc_net : Net Purse :=
  {| net_address := ADDR; net_operator := "karma"; net_script := []; net_time := 0; net_txs := 1; net_events := [];
     net_contract := esc_contract; net_solvent := esc_contract_solvent |}.

Definition esc_rows (worker : string) : Tables (R := Rest EscrowTables) :=
  {| t_settle := stored [order "t1" "buyer" (Some worker) SettlementEngine.ACCEPTED]; t_caps := ∅; t_audits := [];
     t_rest := {| x_vouchers := ∅; x_profile_owner := ∅; x_v_events := []; x_graph := esc_tables; x_quota := ∅; x_intents := [] |} |}.
Abbreviation World := (EWorld (Net Purse)).
Definition esc_world (worker : string) : World :=
  {| ew_routes := {| r_session := {| committed := esc_rows worker; working := esc_rows worker; monitor := [] |};
                     r_safety := fresh_world; r_outbox := [] |};
     ew_chain := esc_net; ew_v5 := ∅; ew_cool := ∅; ew_failed := ∅; ew_permanent := ∅ |}.

(** ** Steps of a run *)

Definition esc_sync (now : Z) (receipts : list Receipt) (worker : string) (target : TaskStatus) : M World Exc unit :=
  e_request (sync_escrow_settlement esc_policy esc_keccak sum_left esc_fmt (esc_env now receipts) false
    (order "t1" "buyer" (Some worker) target) target).
Definition esc_tick (now : Z) : World -> World :=
  exec (autosettle_tick (C := Net Purse) esc_policy esc_keccak sum_left esc_fmt (esc_env now [])).

(** Time passes, and what will befall the next calls. *)
Definition later (dt : Z) (script : list (Fault * Z)) (w : World) : World :=
  let n := ew_chain w in
  {| ew_routes := ew_routes w;
     ew_chain := {| net_address := net_address n; net_operator := net_operator n; net_script := script; net_time := net_time n + dt;
                    net_txs := net_txs n; net_events := net_events n; net_contract := net_contract n; net_solvent := net_solvent n |};
     ew_v5 := ew_v5 w; ew_cool := ew_cool w; ew_failed := ew_failed w; ew_permanent := ew_permanent w |}.

(** A route writes columns of the settlements that are not the chain's. *)
Definition edit_rows (f : SettlementRow -> SettlementRow) (t : Tables (R := Rest EscrowTables)) : Tables (R := Rest EscrowTables) :=
  {| t_settle := {| settlements := f <$> settlements (t_settle t); task_contracts := task_contracts (t_settle t) |};
     t_caps := t_caps t; t_audits := t_audits t; t_rest := t_rest t |}.
Definition on_books (f : SettlementRow -> SettlementRow) (w : World) : World :=
  let s := r_session (ew_routes w) in
  set_routes {| r_session := {| committed := edit_rows f (committed s); working := edit_rows f (working s); monitor := monitor s |};
                r_safety := r_safety (ew_routes w); r_outbox := r_outbox (ew_routes w) |} w.
Definition verdict (status : string) : World -> World := on_books (row_set_status status 0).

(** What the rows and the contract say. *)
Definition books (w : World) : list (string * string) * list (string * option string) :=
  ((fun b => (br_id b, br_state b)) <$> et_bindings (x_graph (t_rest (comm w))),
   (fun r => (sr_status r, sr_onchain_status r)) <$> (snd <$> map_to_list (settlements (t_settle (comm w))))).
Definition onchain (i : Z) (w : World) : Fact := contract_fact (net_contract (ew_chain w)) i.
Definition is_over (i : Z) (w : World) : bool :=
  match k_bindings (net_contract (ew_chain w)) !! i with Some b => bi_settle_after b <=? net_time (ew_chain w) | None => false end.

(** Accepted, then bound by the tick. *)
Definition bound_world (worker : string) : World := esc_tick 20 (exec (esc_sync 10 [] worker SettlementEngine.ACCEPTED) (esc_world worker)).
Definition good_receipts : list Receipt := [{| rc_id := "r"; rc_step_index := 0; rc_success := true |}].
Definition submitted_world : World := exec (esc_sync 30 good_receipts "seller" SettlementEngine.SETTLED) (verdict "settled" (bound_world "seller")).
Definition paid_world : World := esc_tick 200 (later 200 [] submitted_world).

Lemma paid_run :
  books (bound_world "seller") = ([("1", "active")], [("accepted", Some "bound")])%string /\ onchain 1 (bound_world "seller") = FActive /\
  books submitted_world = ([("1", "finalizing")], [("settled", Some "finalizing")])%string /\ onchain 1 submitted_world = FPaying /\
  books paid_world = ([("1", "settled")], [("settled", Some "settled")])%string /\ onchain 1 paid_world = FSettled.
Proof. split_and!; vm_compute; reflexivity. Qed.

(** ** The steps are steps *)

Abbreviation Step := (estep net_facts esc_policy esc_keccak sum_left esc_fmt "offchain").

Lemma books_edited f t : (forall r, sr_settlement_id (f r) = sr_settlement_id r /\ chain_columns (f r) = chain_columns r) ->
  map_Forall (fun k r => sr_settlement_id r = k) (settlements (t_settle t)) -> books_between t (edit_rows f t).
Proof.
  intros Hf Hk. split_and!; [done| |].
  - intros k [r Hr]. cbn. rewrite lookup_fmap, Hr. eauto.
  - intros k r'. cbn. rewrite lookup_fmap. destruct (settlements (t_settle t) !! k) as [r|] eqn:Hr; [|done]. intros [= <-].
    destruct (Hf r) as [-> E]. split; [by apply Hk|exact E].
Qed.
Lemma verdict_step status w : truthful net_facts esc_policy w -> Step w (verdict status w).
Proof.
  intros [(_ & H1 & _) (_ & H2 & _)]. apply es_books; apply books_edited; try done; intros k r Hr; [apply (H1 k r Hr)|apply (H2 k r Hr)].
Qed.
Lemma later_step dt script w : Step w (later dt script w).
Proof. apply es_chain. intros k i. apply rtc_refl. Qed.
Lemma tick_step now w : Step w (esc_tick now w).
Proof. apply es_tick. Qed.
Lemma sync_step now receipts worker target w : Step w (exec (esc_sync now receipts worker target) w).
Proof. apply es_sync. Qed.
Lemma steps_truthful w w' : truthful net_facts esc_policy w -> rtc Step w w' -> truthful net_facts esc_policy w'.
Proof. intros Hw Hs. by apply (honest_steps net_facts esc_policy esc_keccak sum_left esc_fmt "offchain" ∅ w w' eq_refl (map_Forall_empty _) Hs). Qed.
Lemma esc_truthful worker : truthful net_facts esc_policy (esc_world worker).
Proof.
  assert (H : tables_true net_facts esc_policy ∅ esc_net (esc_rows worker)); [|by split].
  assert (E : exists r, settlements (t_settle (esc_rows worker)) = {[ "s-t1"%string := r ]} /\ sr_settlement_id r = "s-t1"%string /\ sr_onchain_status r = None)
    by (eexists; split; [vm_compute; reflexivity|split; vm_compute; reflexivity]).
  destruct E as (r & E & H1 & H2). split_and!; [by constructor| |intros k [x Hx]; done].
  rewrite E. apply map_Forall_singleton. split_and!; [done|unfold settlement_true; by rewrite H2|]. intros s Hs. done.
Qed.
Lemma bound_steps worker : rtc Step (esc_world worker) (bound_world worker).
Proof. eapply rtc_l; [apply (sync_step 10 [] worker SettlementEngine.ACCEPTED)|]. apply rtc_once, (tick_step 20). Qed.
Lemma bound_truthful worker : truthful net_facts esc_policy (bound_world worker).
Proof. eapply steps_truthful; [apply esc_truthful|apply bound_steps]. Qed.
Lemma submitted_steps : rtc Step (esc_world "seller") submitted_world.
Proof.
  etrans; [apply bound_steps|]. eapply rtc_l; [apply (verdict_step "settled"), bound_truthful|].
  apply rtc_once, (sync_step 30 good_receipts "seller" SettlementEngine.SETTLED).
Qed.
Lemma paid_steps : rtc Step (esc_world "seller") paid_world.
Proof. etrans; [apply submitted_steps|]. eapply rtc_l; [apply (later_step 200 [])|]. apply rtc_once, (tick_step 200). Qed.

Lemma escrow_books_truthful_witness :
  exists b, b ∈ et_bindings (x_graph (t_rest (comm paid_world))) /\ br_state b = "settled"%string /\
    fact_of net_facts esc_policy (ew_chain paid_world) b = FSettled.
Proof.
  destruct (et_bindings (x_graph (t_rest (comm paid_world)))) as [|b l] eqn:E; [vm_compute in E; discriminate|].
  assert (Hs : br_state b = "settled"%string).
  { transitivity (br_state (default b (head (et_bindings (x_graph (t_rest (comm paid_world))))))); [by rewrite E|vm_compute; reflexivity]. }
  exists b. split; [left|]. split; [exact Hs|].
  apply (escrow_books_truthful net_facts esc_policy esc_keccak sum_left esc_fmt "offchain" _ _ eq_refl paid_steps (esc_truthful "seller")); [rewrite E; left|exact Hs].
Defined.

Definition after_all : World := esc_tick 300 (later 50 [] (exec (esc_sync 250 [] "seller" SettlementEngine.CANCELLED) paid_world)).
Lemma after_steps : rtc Step paid_world after_all.
Proof.
  eapply rtc_l; [apply (sync_step 250 [] "seller" SettlementEngine.CANCELLED)|]. eapply rtc_l; [apply (later_step 50 [])|].
  apply rtc_once, (tick_step 300).
Qed.
Lemma money_status_final_witness :
  exists r', settlements (t_settle (comm after_all)) !! "s-t1"%string = Some r' /\ sr_onchain_status r' = Some "settled"%string.
Proof.
  destruct (settlements (t_settle (comm paid_world)) !! "s-t1"%string) as [r|] eqn:E; [|vm_compute in E; discriminate].
  assert (Hs : (settlements (t_settle (comm paid_world)) !! "s-t1"%string) ≫= sr_onchain_status = Some "settled"%string) by (vm_compute; reflexivity).
  rewrite E in Hs.
  apply (money_status_final net_facts esc_policy esc_keccak sum_left esc_fmt "offchain" paid_world after_all _ r _ eq_refl after_steps);
    [|vm_compute; reflexivity|exact E|exact Hs|vm_compute; reflexivity].
  eapply steps_truthful; [apply esc_truthful|apply paid_steps].
Defined.

Definition decided_world (status : string) : World := verdict status (bound_world "seller").
Lemma no_window_without_verdict_witness :
  accounted esc_policy (esc_env 30 good_receipts) PAY "t1" (decided_world "settled") /\
  accounted esc_policy (esc_env 30 []) SLASH "t1" (decided_world "refunded").
Proof.
  split.
  - apply (no_window_without_verdict esc_policy esc_keccak sum_left esc_fmt (esc_env 30 good_receipts) "t1" None false (decided_world "settled")).
    intros H. apply (f_equal (onchain 1)) in H. vm_compute in H. discriminate.
  - apply (no_window_without_verdict esc_policy esc_keccak sum_left esc_fmt (esc_env 30 []) "t1" None false (decided_world "refunded")).
    intros H. apply (f_equal (onchain 1)) in H. vm_compute in H. discriminate.
Defined.

Lemma one_hand_never_binds_witness :
  one_hand (esc_env 10 []) esc_tables "agent" "seller" /\
  exec (bind_for_task esc_policy esc_keccak sum_left (esc_env 10 []) "t2" "agent" (Some "seller"%string) f100) (esc_world "seller") = esc_world "seller".
Proof.
  assert (H : one_hand (esc_env 10 []) (tables_of (esc_world "seller")) "agent" "seller").
  { split_and!; [vm_compute; discriminate..|]. right; left. split_and!; vm_compute; [discriminate..|reflexivity]. }
  split; [exact H|]. exact (proj1 (one_hand_never_binds esc_policy esc_keccak sum_left (esc_env 10 []) "agent" "seller" f100 "t2" (esc_world "seller") H)).
Defined.

Lemma picked_bill_bears_witness :
  outcome (pick_bill esc_policy sum_left "buyer" "buyer" f100) (esc_world "seller") = Ok "1"%string /\
  exists r, r ∈ commits_of "buyer" esc_tables /\ cm_bill (cr_commit r) = "1"%string /\ bears (C := Net Purse) esc_policy (coin 100) r.
Proof.
  assert (E : outcome (pick_bill esc_policy sum_left "buyer" "buyer" f100) (esc_world "seller") = Ok "1"%string) by (vm_compute; reflexivity).
  split; [exact E|]. unfold outcome in E.
  destruct (pick_bill esc_policy sum_left "buyer" "buyer" f100 (esc_world "seller")) as [x w'] eqn:H. cbn in E. subst x.
  apply (picked_bill_bears esc_policy sum_left "buyer" "buyer" f100 (esc_world "seller") "1" w'); [exact H|vm_compute; reflexivity].
Defined.

(** ** Where the books and the money part *)

Definition part (x : float) (st : SettlementState) : SettlementState :=
  state_edit (ss_worker_agent_id st) (ss_worker_profile_id st) (Some x) (ss_refunded_amount st) (ss_dispute_reason st)
    (ss_rejection_reason_code st) (ss_arbitration_notes st) (ss_released_at st) (ss_onchain_status st) (ss_confirm_window_hours st)
    (ss_confirm_deadline_at st) (ss_progress_rule_spec st) st.
Definition esc_part (now : Z) (worker : string) : M World Exc unit :=
  e_request (sync_escrow_settlement esc_policy esc_keccak sum_left esc_fmt (esc_env now good_receipts) false
    (part f50 (order "t1" "buyer" (Some worker) SettlementEngine.SETTLED)) SettlementEngine.SETTLED).

(** A partial release to an agent: the lock is cancelled on the chain before the bills are
    looked for, and they are looked for under the name of the agent, which has none.  The
    request fails, and the tick then books the end of the only lock: the seller has won and
    gets nothing. *)
Definition part_refused : World := exec (esc_part 30 "agent") (verdict "settled" (bound_world "agent")).
Lemma partial_release_to_agent_loses_lock :
  outcome (esc_part 30 "agent") (verdict "settled" (bound_world "agent")) = Err (HTTPException 409 "seller has no commitment on the chain") /\
  onchain 1 part_refused = FCancelled /\ books part_refused = ([("1", "active")], [("settled", Some "bound")])%string /\
  books (esc_tick 400 (later 300 [] part_refused)) = ([("1", "cancelled")], [("settled", Some "cancelled")])%string.
Proof. do 3 (split; [vm_compute; reflexivity|]). vm_compute. reflexivity. Qed.

(** A partial release whose window is not opened: the rollback forgets the new binding, which
    stays active on the chain, holds both commitments and is in no row. *)
Definition part_orphan : World :=
  esc_tick 400 (later 300 [] (exec (esc_part 30 "seller") (later 0 (repeat (Fine, 0) 7 ++ [(Lost, 0)]) (decided_world "settled")))).
Lemma partial_release_orphans_binding :
  onchain 1 part_orphan = FCancelled /\ onchain 2 part_orphan = FActive /\
  books part_orphan = ([("1", "cancelled")], [("settled", Some "cancelled")])%string.
Proof. do 2 (split; [vm_compute; reflexivity|]). vm_compute. reflexivity. Qed.

(** A slash whose receipt is not seen: the window is open on the chain, and the next tick takes
    it for a window that pays.  Long after it is over the slash has not been executed. *)
Definition slash_unseen : World := exec (esc_sync 30 [] "seller" SettlementEngine.REFUNDED) (later 100 [(Fine, 0); (Fine, 0); (Unseen, 0)] (decided_world "refunded")).
Definition slash_stuck : World := esc_tick 4000 (later 3600 [] (esc_tick 400 (later 300 [] slash_unseen))).
Lemma slash_adopted_as_payment :
  books slash_unseen = ([("1", "active")], [("refunded", Some "bound")])%string /\ onchain 1 slash_unseen = FBreaching /\
  books slash_stuck = ([("1", "finalizing")], [("refunded", Some "finalizing")])%string /\ onchain 1 slash_stuck = FBreaching /\
  is_over 1 slash_stuck = true.
Proof. do 4 (split; [vm_compute; reflexivity|]). vm_compute. reflexivity. Qed.

(** A slash while the version of the contract cannot be read: a window that pays the seller is
    opened and booked as a slash.  The tick cannot execute it as a slash; anyone may execute it
    as a payment, and the books then say refunded and settled at once. *)
Definition someone (c : Call Purse) (w : World) : World :=
  {| ew_routes := ew_routes w; ew_chain := exec (send ADDR c) (ew_chain w); ew_v5 := ew_v5 w; ew_cool := ew_cool w;
     ew_failed := ew_failed w; ew_permanent := ew_permanent w |}.
Definition slash_unversioned : World := exec (esc_sync 30 [] "seller" SettlementEngine.REFUNDED) (later 100 [(Fine, 0); (Lost, 0)] (decided_world "refunded")).
Definition slash_waiting : World := esc_tick 4000 (later 3600 [] slash_unversioned).
Definition slash_paid : World := esc_tick 9000 (someone (FinalizeSettlement 1) (later 5000 [] slash_waiting)).
Lemma slash_pays_seller :
  books slash_unversioned = ([("1", "breaching")], [("refunded", Some "breaching")])%string /\ onchain 1 slash_unversioned = FPaying /\
  books slash_waiting = ([("1", "breaching")], [("refunded", Some "breaching")])%string /\ is_over 1 slash_waiting = true /\
  onchain 1 slash_paid = FSettled /\ books slash_paid = ([("1", "settled")], [("refunded", Some "settled")])%string.
Proof. do 5 (split; [vm_compute; reflexivity|]). vm_compute. reflexivity. Qed.

(** ** An order of its own *)

Definition esc_order : OrderBody :=
  {| ob_seller_bill := "2"; ob_buyer_bill := Some "1"%string; ob_amount := f50; ob_stake := None; ob_task := "o1"; ob_proof := "p";
     ob_scope := None; ob_profile := None; ob_seller_profile := None |}.
Definition ordered_world : World :=
  exec (e_request (open_order_route esc_policy esc_keccak sum_left (esc_env 10 []) (Some "buyer"%string) "buyer" esc_order)) (esc_world "seller").
Definition order_paid : World :=
  exec (e_request (finalize_order esc_policy (esc_env 300 []) (Some "seller"%string) "seller" "1" false)) (later 300 [] ordered_world).
Lemma order_run :
  fst (books ordered_world) = [("1", "finalizing")]%string /\ onchain 1 ordered_world = FPaying /\
  fst (books order_paid) = [("1", "settled")]%string /\ onchain 1 order_paid = FSettled.
Proof. do 3 (split; [vm_compute; reflexivity|]). vm_compute. reflexivity. Qed.

(** ** What the worker of the other contract does to the books *)

(** In the modes testnet and hybrid, the status a settlement shows is overwritten with the state
    of the binding of the same number on another contract: a task whose window is open shows
    settled, and one whose stake was taken shows settled. *)
Definition slashed_world : World :=
  esc_tick 4000 (later 3600 [] (exec (esc_sync 30 [] "seller" SettlementEngine.REFUNDED) (decided_world "refunded"))).
Definition bilateral (w : World) : World := exec (e_request (reconcile_onchain_status "hybrid" (fun _ => Some 3) 0)) w.
Lemma bilateral_breaks_books :
  snd (books (bilateral submitted_world)) = [("settled", Some "settled")]%string /\ onchain 1 (bilateral submitted_world) = FPaying /\
  snd (books slashed_world) = [("refunded", Some "slashed")]%string /\
  snd (books (bilateral slashed_world)) = [("refunded", Some "settled")]%string /\ onchain 1 (bilateral slashed_world) = FSlashed.
Proof. do 4 (split; [vm_compute; reflexivity|]). vm_compute. reflexivity. Qed.

(** An underscore in the path of [finalize_order] is a wildcard of the look-up and no part of
    the number: the row of one binding is found, and another binding is executed. *)
Definition old_row : BindingRow := order_row esc_policy (esc_env 0 []) "0xold:110" "buyer" "seller" None "1" "2" "t9" f50 f50
  {| op_binding := 110; op_tx := "x"; op_scope := "s" |} {| sb_tx := "y"; sb_proof := "p"; sb_pull_after := 0 |}.
Lemma underscore_finalizes_another :
  let t := {| et_bindings := [old_row]; et_commits := []; et_agent_owner := ∅; et_profile_wallet := ∅; et_role_wallets := [] |} in
  safe_segment "1_0" = true /\ binding_by_key "1_0" t = Some old_row /\ chain_binding_id old_row = Some 110 /\ path_number "1_0" = Some 10.
Proof. cbv zeta. split_and!; vm_compute; reflexivity. Qed.
