(* ===== verification/RespGraph.v ===== *)
(** * The responsibility graph

    [services/responsibility_graph.py]: edges of responsibility between identities, the
    signals that are raised when an edge closes a loop, and the figures computed from them.
    Tables are lists in the order of insertion, which is the order in which a query without
    [ORDER BY] returns rows here.  Times are microseconds.  The digest is the parameter [sha]. *)
From Stdlib Require Import Sorted.
From S2P Require Import Prelude PyText PyFloat PyJson.
Open Scope Z_scope.

(** ** Rows *)

Inductive EdgeType := VOUCHER_ACCEPT | TASK_DELEGATION | MANUAL_LINK.
#[export] Instance EdgeType_eq_dec : EqDecision EdgeType.
Proof. solve_decision. Defined.
Definition EdgeType_value (t : EdgeType) : string :=
  match t with VOUCHER_ACCEPT => "voucher_accept" | TASK_DELEGATION => "task_delegation" | MANUAL_LINK => "manual_link" end.
Inductive SignalType := DIRECT_LOOP | MUTUAL_EXCHANGE | CYCLE_AUTHORIZATION.
#[export] Instance SignalType_eq_dec : EqDecision SignalType.
Proof. solve_decision. Defined.
Inductive Severity := SEV_INFO | SEV_MEDIUM | SEV_HIGH.
#[export] Instance Severity_eq_dec : EqDecision Severity.
Proof. solve_decision. Defined.

Record REdge := {
  re_hash : string;
  re_source : string;
  re_target : string;
  re_type : EdgeType;
  re_task : option string;
  re_voucher : option string;
  re_metadata : list (string * json);
  re_created_at : Z
}.
#[export] Instance REdge_eq_dec : EqDecision REdge.
Proof. solve_decision. Defined.
Record Signal := {
  sg_type : SignalType;
  sg_severity : Severity;
  sg_identity : string;
  sg_edge : string;
  sg_related : list string;
  sg_task : option string;
  sg_created_at : Z
}.
Record RGraph := {
  rg_edges : list REdge;
  rg_signals : list Signal
}.
Abbreviation GM := (M RGraph Exc).

Definition put_edge (e : REdge) : GM unit := m_put (fun g => {| rg_edges := rg_edges g ++ [e]; rg_signals := rg_signals g |}).
Definition put_signals (l : list Signal) : GM unit := m_put (fun g => {| rg_edges := rg_edges g; rg_signals := rg_signals g ++ l |}).

(** [scalar_one_or_none]. *)
Definition one_or_none {A} (l : list A) : result Exc (option A) :=
  match l with [] => Ok None | [x] => Ok (Some x) | _ => Err MultipleResultsFound end.

(** [INSERT]: the digest and the voucher are unique columns. *)
Definition insert_edge (e : REdge) : GM unit :=
  do! es := m_get rg_edges in
  if existsb (fun x => bool_decide (re_hash x = re_hash e) ||
                       match re_voucher e with Some v => bool_decide (re_voucher x = Some v) | None => false end) es
  then m_raise IntegrityError
  else put_edge e.

(** ** The search for a cycle *)

(** The successors of a node: found, or the longer queue. *)
Fixpoint step_edges (target : string) (path : list string) (hops : nat) (out : list REdge)
    (queue : list (string * list string * nat)) : list string + list (string * list string * nat) :=
  match out with
  | [] => inr queue
  | e :: out =>
      let next := path ++ [re_hash e] in
      if decide (re_target e = target) then inl next
      else step_edges target path hops out (queue ++ [(re_target e, next, S hops)])
  end.
Definition out_edges (edges : list REdge) (n : string) : list REdge := filter (fun e => re_source e = n) edges.

(** The outer [None] is fuel used up. *)
Fixpoint cycle_loop (fuel : nat) (edges : list REdge) (target : string) (max_hops : nat)
    (queue : list (string * list string * nat)) (visited : gset (string * nat)) : option (list string) :=
  match queue with
  | [] => Some []
  | (node, path, hops) :: queue =>
      match fuel with
      | O => None
      | S fuel =>
          if (max_hops <=? hops)%nat then cycle_loop fuel edges target max_hops queue visited
          else if decide ((node, hops) ∈ visited) then cycle_loop fuel edges target max_hops queue visited
          else
            match step_edges target path hops (out_edges edges node) queue with
            | inl found => Some found
            | inr queue => cycle_loop fuel edges target max_hops queue ({[(node, hops)]} ∪ visited)
            end
      end
  end.
(** An edge is queued at most once at every distance. *)
Definition find_cycle_path_hashes (edges : list REdge) (start target : string) (max_hops : nat) : option (list string) :=
  if decide (start = target) then Some []
  else cycle_loop (S (max_hops * length edges)) edges target max_hops [(start, [], 0%nat)] ∅.

(** ** Signals *)

Definition newest_edge (l : list REdge) : option REdge :=
  fold_left (fun best e => match best with
                           | Some b => if re_created_at e <? re_created_at b then best else Some e
                           | None => Some e
                           end) l None.
Definition CYCLE_HOPS : nat := 6.
Definition detect_signals (now : Z) (edges : list REdge) (e : REdge) : list Signal :=
  let signal t sev related :=
    {| sg_type := t; sg_severity := sev; sg_identity := re_source e; sg_edge := re_hash e; sg_related := related;
       sg_task := re_task e; sg_created_at := now |} in
  let reverse := newest_edge (filter (fun x => (re_source x = re_target e /\ re_target x = re_source e) /\ re_hash x <> re_hash e) edges) in
  let cycle := default [] (find_cycle_path_hashes edges (re_target e) (re_source e) CYCLE_HOPS) in
  (if decide (re_source e = re_target e) then [signal DIRECT_LOOP SEV_HIGH [re_hash e]] else []) ++
  (match reverse with Some x => [signal MUTUAL_EXCHANGE SEV_MEDIUM [re_hash e; re_hash x]] | None => [] end) ++
  (match cycle with [] => [] | _ => [signal CYCLE_AUTHORIZATION SEV_HIGH (re_hash e :: cycle)] end).

Section Ingest.
Context (sha : json -> string).

Definition opt_json (s : option string) : json := match s with Some s => JStr s | None => JNull end.
Definition build_edge_hash (source target : string) (t : EdgeType) (task voucher : option string) (metadata : option (list (string * json))) : string :=
  sha (JObj [("source_identity_id", JStr source); ("target_identity_id", JStr target); ("edge_type", JStr (EdgeType_value t));
             ("task_id", opt_json task); ("voucher_id", opt_json voucher); ("metadata", JObj (default [] metadata))]%string).

Definition signals_of (hash : string) : GM (list Signal) := m_get (fun g => filter (fun s => sg_edge s = hash) (rg_signals g)).
Definition ingest_edge (now : Z) (source target : string) (t : EdgeType) (task voucher : option string)
    (metadata : option (list (string * json))) : GM (REdge * list Signal) :=
  let hash := build_edge_hash source target t task voucher metadata in
  do! same := m_get (fun g => filter (fun e => re_hash e = hash) (rg_edges g)) in
  do! existing := lift (one_or_none same) in
  match existing with
  | Some e => do! l := signals_of hash in m_ret (e, l)
  | None =>
      do! by_voucher :=
        match voucher with
        | None | Some ""%string => m_ret None
        | Some v => do! l := m_get (fun g => filter (fun e => re_voucher e = Some v) (rg_edges g)) in lift (one_or_none l)
        end in
      match by_voucher with
      | Some e => do! l := signals_of (re_hash e) in m_ret (e, l)
      | None =>
          let e := {| re_hash := hash; re_source := source; re_target := target; re_type := t; re_task := task;
                      re_voucher := voucher; re_metadata := default [] metadata; re_created_at := now |} in
          seq! insert_edge e in
          do! edges := m_get rg_edges in
          let l := detect_signals now edges e in
          seq! put_signals l in
          m_ret (e, l)
      end
  end.

(** ** Views *)

Definition insert_edge_by_time (e : REdge) : list REdge -> list REdge :=
  fix go l := match l with
              | [] => [e]
              | x :: l' => if re_created_at e <=? re_created_at x then e :: l else x :: go l'
              end.
Definition edges_of_task (t : string) (edges : list REdge) : list REdge :=
  foldr insert_edge_by_time [] (filter (fun e => re_task e = Some t) edges).
Definition get_task_path_summary (t : string) (g : RGraph) : list string * option string :=
  let hashes := re_hash <$> edges_of_task t (rg_edges g) in
  match hashes with
  | [] => ([], None)
  | _ => (hashes, Some (sha (JObj [("task_id", JStr t); ("edge_hashes", JList (JStr <$> hashes))]%string)))
  end.
End Ingest.

Definition f0_2 : float := Eval vm_compute in float_of_ratio false 1 5.
Definition f2_5 : float := Eval vm_compute in float_of_ratio false 5 2.
Definition f3_5 : float := Eval vm_compute in float_of_ratio false 7 2.
Definition SEVERITY_WEIGHTS (s : Severity) : float :=
  match s with SEV_INFO => float_of_Z 1 | SEV_MEDIUM => f2_5 | SEV_HIGH => float_of_Z 4 end.
Definition SIGNAL_TYPE_WEIGHTS (t : SignalType) : float :=
  match t with DIRECT_LOOP => float_of_Z 3 | MUTUAL_EXCHANGE => float_of_Z 2 | CYCLE_AUTHORIZATION => f3_5 end.
Definition RECENCY_FLOOR : float := f0_2.
Inductive Band := BAND_LOW | BAND_ELEVATED | BAND_HIGH | BAND_CRITICAL.
#[export] Instance Band_eq_dec : EqDecision Band.
Proof. solve_decision. Defined.
Definition HOUR_US : Z := 3600 * 1000000.

(** [timedelta.total_seconds], exact division for less than 2^53 microseconds. *)
Definition total_seconds (us : Z) : float := (float_of_Z us / float_of_Z 1000000)%float.
Definition recency_weight (now window_hours created : Z) : float :=
  let age := py_max fzero (total_seconds (now - created) / float_of_Z 3600)%float in
  if window_hours <=? 0 then float_of_Z 1
  else py_max RECENCY_FLOOR (float_of_Z 1 - age / float_of_Z window_hours)%float.
Definition signal_points (now window_hours : Z) (s : Signal) : float :=
  (SIGNAL_TYPE_WEIGHTS (sg_type s) * SEVERITY_WEIGHTS (sg_severity s) * recency_weight now window_hours (sg_created_at s))%float.

Definition insert_signal_newest (s : Signal) : list Signal -> list Signal :=
  fix go l := match l with
              | [] => [s]
              | x :: l' => if sg_created_at x <=? sg_created_at s then s :: l else x :: go l'
              end.
Definition signals_since (identity : string) (since : Z) (g : RGraph) : list Signal :=
  foldr insert_signal_newest [] (filter (fun s => sg_identity s = identity /\ since <= sg_created_at s) (rg_signals g)).
Definition risk_band (score : float) : Band :=
  if (score >=? float_of_Z 35)%float then BAND_CRITICAL
  else if (score >=? float_of_Z 20)%float then BAND_HIGH
  else if (score >=? float_of_Z 8)%float then BAND_ELEVATED
  else BAND_LOW.
Record Score := {
  sc_weighted : float;
  sc_normalized : float;
  sc_count : nat;
  sc_band : Band
}.
Definition get_identity_score (now : Z) (identity : string) (window_hours : Z) (g : RGraph) : Score :=
  let signals := signals_since identity (now - window_hours * HOUR_US) g in
  match signals with
  | [] => {| sc_weighted := fzero; sc_normalized := fzero; sc_count := 0; sc_band := BAND_LOW |}
  | _ =>
      let points := fold_left (fun acc s => (acc + signal_points now window_hours s)%float) signals fzero in
      let normalized := py_min f100 (py_round_to 2 points) in
      {| sc_weighted := py_round_to 2 points; sc_normalized := normalized; sc_count := length signals; sc_band := risk_band normalized |}
  end.

(** [get_identity_path_features]: edges walked, identities reached and cycles met. *)
Record Features := {
  pf_traversed : list string;
  pf_reachable : list string;
  pf_cycles : nat;
  pf_depth : gmap string nat;
  pf_queue : list (string * nat * list string)
}.
Definition add_once {A} `{!EqDecision A} (x : A) (l : list A) : list A := if decide (x ∈ l) then l else l ++ [x].
Definition visit_edge (identity : string) (hops : nat) (path : list string) (f : Features) (e : REdge) : Features :=
  let t := re_target e in
  let traversed := add_once (re_hash e) (pf_traversed f) in
  let reachable := if decide (t = identity) then pf_reachable f else add_once t (pf_reachable f) in
  if bool_decide (t = identity) || bool_decide (t ∈ path)
  then {| pf_traversed := traversed; pf_reachable := reachable; pf_cycles := S (pf_cycles f); pf_depth := pf_depth f; pf_queue := pf_queue f |}
  else
    let nearer := match pf_depth f !! t with None => true | Some d => (S hops <? d)%nat end in
    if nearer
    then {| pf_traversed := traversed; pf_reachable := reachable; pf_cycles := pf_cycles f; pf_depth := <[t := S hops]> (pf_depth f);
            pf_queue := pf_queue f ++ [(t, S hops, path ++ [t])] |}
    else {| pf_traversed := traversed; pf_reachable := reachable; pf_cycles := pf_cycles f; pf_depth := pf_depth f; pf_queue := pf_queue f |}.
Definition set_pf_queue (q : list (string * nat * list string)) (f : Features) : Features :=
  {| pf_traversed := pf_traversed f; pf_reachable := pf_reachable f; pf_cycles := pf_cycles f; pf_depth := pf_depth f; pf_queue := q |}.
Fixpoint features_loop (fuel : nat) (edges : list REdge) (identity : string) (max_hops : nat) (f : Features) : option Features :=
  match pf_queue f with
  | [] => Some f
  | (node, hops, path) :: queue =>
      match fuel with
      | O => None
      | S fuel =>
          let f := set_pf_queue queue f in
          if (max_hops <=? hops)%nat then features_loop fuel edges identity max_hops f
          else features_loop fuel edges identity max_hops (fold_left (visit_edge identity hops path) (out_edges edges node) f)
      end
  end.
(** A target is queued each time its distance drops, and distances stay below [max_hops + 1]. *)
Definition get_identity_path_features (now : Z) (identity : string) (window_hours : Z) (max_hops : nat) (g : RGraph) : option Features :=
  let edges := filter (fun e => now - window_hours * HOUR_US <= re_created_at e) (rg_edges g) in
  features_loop (S (S max_hops * length edges)) edges identity max_hops
    {| pf_traversed := []; pf_reachable := []; pf_cycles := 0; pf_depth := {[identity := 0%nat]}; pf_queue := [(identity, 0%nat, [identity])] |}.

(** ** Temporal consistency *)

Definition EDGE_STAGE_ORDER (t : EdgeType) : Z := match t with VOUCHER_ACCEPT => 1 | TASK_DELEGATION => 2 | MANUAL_LINK => 3 end.
Inductive IssueType := EDGE_TYPE_OUT_OF_ORDER | DUPLICATE_DIRECTION_BURST | MISSING_ANCHOR_EDGE.
Fixpoint out_of_order (last : Z) (edges : list REdge) : list string :=
  match edges with
  | [] => []
  | e :: edges =>
      let stage := EDGE_STAGE_ORDER (re_type e) in
      (if stage <? last then [re_hash e] else []) ++ out_of_order (Z.max last stage) edges
  end.
Definition direction (e : REdge) : string * string * EdgeType := (re_source e, re_target e, re_type e).
Fixpoint first_burst (burst_seconds : Z) (group : list REdge) : list string :=
  match group with
  | a :: ((b :: c :: _) as rest) =>
      if re_created_at c - re_created_at a <=? burst_seconds * 1000000 then [re_hash a; re_hash b; re_hash c]
      else first_burst burst_seconds rest
  | _ => []
  end.
Definition burst_hashes (burst_seconds : Z) (edges : list REdge) : list string :=
  foldl (fun acc d => add_once d acc) [] (direction <$> edges) ≫= fun d => first_burst burst_seconds (filter (fun e => direction e = d) edges).
Definition get_task_temporal_consistency_report (burst_seconds : Z) (t : string) (g : RGraph) : list (IssueType * list string) :=
  let edges := edges_of_task t (rg_edges g) in
  match edges with
  | [] => []
  | _ =>
      (if existsb (fun e => bool_decide (re_type e = VOUCHER_ACCEPT)) edges then [] else [(MISSING_ANCHOR_EDGE, re_hash <$> take 5 edges)]) ++
      (match out_of_order 0 edges with [] => [] | l => [(EDGE_TYPE_OUT_OF_ORDER, take 20 l)] end) ++
      (match burst_hashes burst_seconds edges with [] => [] | l => [(DUPLICATE_DIRECTION_BURST, take 20 (foldl (fun acc x => add_once x acc) [] l))] end)
  end.
Definition is_consistent (burst_seconds : Z) (t : string) (g : RGraph) : bool :=
  match get_task_temporal_consistency_report burst_seconds t g with [] => true | _ => false end.

(** ** The search is exact *)

(** A walk from [a] to [b] along edges. *)
Fixpoint chain (edges : list REdge) (a : string) (es : list REdge) (b : string) : Prop :=
  match es with
  | [] => a = b
  | e :: es => e ∈ edges /\ re_source e = a /\ chain edges (re_target e) es b
  end.
Lemma chain_app edges a es b fs c : chain edges a es b -> chain edges b fs c -> chain edges a (es ++ fs) c.
Proof. revert a. induction es as [|e es IH]; cbn; [by intros ? ->|]. intros a (H1 & H2 & H3) H4. split_and!; auto. Qed.
Lemma chain_split edges a es fs c : chain edges a (es ++ fs) c -> exists b, chain edges a es b /\ chain edges b fs c.
Proof.
  revert a. induction es as [|e es IH]; cbn; [by eauto|]. intros a (H1 & H2 & H3). destruct (IH _ H3) as (b & Hb & Hc). by exists b.
Qed.
Lemma chain_mono edges edges' a es b : (forall e, e ∈ es -> e ∈ edges -> e ∈ edges') -> chain edges a es b -> chain edges' a es b.
Proof.
  revert a. induction es as [|e es IH]; [done|]. intros a Hm (H1 & H2 & H3). split_and!; [apply Hm; [left|done]|done|].
  apply IH; [|done]. intros x Hx. apply Hm. by right.
Qed.

Lemma out_edges_elem edges n e : e ∈ out_edges edges n <-> e ∈ edges /\ re_source e = n.
Proof. unfold out_edges. rewrite list_elem_of_filter. tauto. Qed.

Lemma sum_drop {A} (f g : A -> nat) d x l : x ∈ l -> (forall y, (f y <= g y)%nat) -> (f x + d <= g x)%nat ->
  (sum_list (f <$> l) + d <= sum_list (g <$> l))%nat.
Proof.
  intros Hx Hle Hd. assert (Hs : forall l, (sum_list (f <$> l) <= sum_list (g <$> l))%nat).
  { intros m. induction m as [|y m IH]; cbn; [done|]. specialize (Hle y). lia. }
  induction Hx as [y l|y z l Hx IH]; cbn in *; [specialize (Hs l); lia|specialize (Hle z); specialize (IH Hd); lia].
Qed.
(** What is still to be queued: edges whose source has not been expanded at some distance. *)
Definition unexpanded (edges : list REdge) (visited : gset (string * nat)) (h : nat) : nat :=
  length (filter (fun e => (re_source e, h) ∉ visited) edges).
Definition remaining (edges : list REdge) (max_hops : nat) (visited : gset (string * nat)) : nat :=
  sum_list (unexpanded edges visited <$> seq 0 max_hops).
Lemma unexpanded_le edges visited k h : (unexpanded edges ({[k]} ∪ visited) h <= unexpanded edges visited h)%nat.
Proof.
  unfold unexpanded. induction edges as [|e edges IH]; [done|]. rewrite !filter_cons.
  repeat case_decide; cbn; try lia. exfalso. set_solver.
Qed.
Lemma unexpanded_drop edges visited n h : (n, h) ∉ visited ->
  (unexpanded edges ({[(n, h)]} ∪ visited) h + length (out_edges edges n) <= unexpanded edges visited h)%nat.
Proof.
  intros Hn. unfold unexpanded, out_edges. induction edges as [|e edges IH]; [done|]. rewrite !filter_cons.
  destruct (decide (re_source e = n)) as [->|Hne].
  - rewrite (decide_False (P := (n, h) ∉ {[(n, h)]} ∪ visited)) by set_solver. rewrite decide_True by done. cbn. lia.
  - destruct (decide ((re_source e, h) ∉ {[(n, h)]} ∪ visited)); destruct (decide ((re_source e, h) ∉ visited)); cbn; try lia. set_solver.
Qed.
Lemma remaining_drop edges max_hops visited n h : (h < max_hops)%nat -> (n, h) ∉ visited ->
  (remaining edges max_hops ({[(n, h)]} ∪ visited) + length (out_edges edges n) <= remaining edges max_hops visited)%nat.
Proof.
  intros Hh Hn. apply (sum_drop _ _ _ h); [apply elem_of_seq; lia|intros; apply unexpanded_le|by apply unexpanded_drop].
Qed.
Lemma remaining_start edges max_hops : (remaining edges max_hops ∅ <= max_hops * length edges)%nat.
Proof.
  unfold remaining. assert (H : forall l, (sum_list (unexpanded edges ∅ <$> l) <= length l * length edges)%nat).
  { intros l. induction l as [|h l IH]; [done|]. rewrite fmap_cons. cbn [sum_list length].
    assert (Hu : (unexpanded edges ∅ h <= length edges)%nat) by apply length_filter. cbn in *. lia. }
  specialize (H (seq 0 max_hops)). by rewrite length_seq in H.
Qed.

Section Search.
Context (edges : list REdge) (start target : string) (max_hops : nat).
Abbreviation Queue := (list (string * list string * nat)).

(** A queued node has been reached along the edges whose digests it carries. *)
Definition reached (q : Queue) : Prop :=
  forall n p h, (n, p, h) ∈ q -> exists es, chain edges start es n /\ p = re_hash <$> es /\ length es = h.
(** What has been expanded misses the target, and its successors are expanded or queued. *)
Definition expanded (q : Queue) (visited : gset (string * nat)) : Prop :=
  forall n h e, (n, h) ∈ visited -> e ∈ edges -> re_source e = n ->
    re_target e <> target /\ ((S h < max_hops)%nat -> (re_target e, S h) ∈ visited \/ exists p, (re_target e, p, S h) ∈ q).
Definition known (n : string) (h : nat) (q : Queue) (visited : gset (string * nat)) : Prop :=
  (n, h) ∈ visited \/ exists p, (n, p, h) ∈ q.

Definition answer_ok (r : list string) : Prop :=
  (r <> [] -> exists es, chain edges start es target /\ r = re_hash <$> es /\ (length es <= max_hops)%nat) /\
  (forall es, chain edges start es target -> es <> [] -> (length es <= max_hops)%nat -> r <> []).

Lemma step_edges_spec path hops out q :
  match step_edges target path hops out q with
  | inl r => exists e, e ∈ out /\ re_target e = target /\ r = path ++ [re_hash e]
  | inr q' => (forall e, e ∈ out -> re_target e <> target) /\ length q' = (length q + length out)%nat /\
      q' = q ++ ((fun e => (re_target e, path ++ [re_hash e], S hops)) <$> out)
  end.
Proof.
  revert q. induction out as [|e out IH]; intros q; cbn [step_edges].
  - split_and!; [intros e He; by apply not_elem_of_nil in He|cbn; lia|by rewrite app_nil_r].
  - case_decide as Ht; [by exists e; split_and!; [left|..]|]. specialize (IH (q ++ [(re_target e, path ++ [re_hash e], S hops)])).
    destruct (step_edges target path hops out _) as [r|q'].
    + destruct IH as (x & Hx & Hxt & ->). exists x. split_and!; [by right|done..].
    + destruct IH as (H1 & H2 & ->). split_and!.
      * intros x Hx. apply elem_of_cons in Hx as [->|Hx]; [done|by apply H1].
      * rewrite H2. rewrite length_app. cbn. lia.
      * rewrite <-app_assoc. done.
Qed.

Lemma no_way_left visited es n h : expanded [] visited -> (n, h) ∈ visited -> chain edges n es target -> es <> [] ->
  (h + length es <= max_hops)%nat -> False.
Proof.
  intros Hx. revert n h. induction es as [|e es IH]; [done|]. intros n h Hv (He & Hs & Hc) _ Hl.
  destruct (Hx n h e Hv He Hs) as [Ht Hn]. destruct es as [|f es]; [by cbn in Hc|]. cbn in Hl.
  destruct Hn as [Hn|(p & Hp)]; [lia| |by apply not_elem_of_nil in Hp]. apply (IH _ _ Hn Hc); [done|cbn; lia].
Qed.

Lemma cycle_loop_spec fuel q visited : start <> target -> (0 < max_hops)%nat ->
  (length q + remaining edges max_hops visited <= fuel)%nat -> reached q -> expanded q visited -> known start 0 q visited ->
  exists r, cycle_loop fuel edges target max_hops q visited = Some r /\ answer_ok r.
Proof.
  intros Hst Hm. revert q visited. induction fuel as [|fuel IH]; intros q visited Hf Hr Hx Hk.
  all: destruct q as [|[[node path] hops] q]; cbn [cycle_loop length] in *; try lia.
  1,2: exists []; split; [done|]; split; [done|]; intros es Hc Hne Hl _;
    destruct Hk as [Hk|(p & Hp)]; [exact (no_way_left visited es start 0 Hx Hk Hc Hne Hl)|by apply not_elem_of_nil in Hp].
  assert (Hr' : reached q) by (intros n p h Hn; apply Hr; by right).
  assert (Hskip : (max_hops <= hops)%nat \/ (node, hops) ∈ visited -> expanded q visited /\ known start 0 q visited).
  { intros Hs. split.
    - intros n h e Hv He Hse. destruct (Hx n h e Hv He Hse) as [Ht Hn]. split; [done|]. intros Hl. destruct (Hn Hl) as [|(p & Hp)]; [by left|].
      apply elem_of_cons in Hp as [[= E1 E2 E3]|Hp]; [|by right; exists p]. left. subst. destruct Hs as [|Hs]; [lia|done].
    - destruct Hk as [|(p & Hp)]; [by left|]. apply elem_of_cons in Hp as [[= E1 E2 E3]|Hp]; [|by right; exists p].
      left. subst. destruct Hs as [|Hs]; [lia|done]. }
  destruct (Nat.leb_spec max_hops hops) as [Hh|Hh]; [destruct Hskip; [by left|]; apply IH; [lia|done..]|].
  case_decide as Hv; [destruct Hskip; [by right|]; apply IH; [lia|done..]|].
  destruct (Hr node path hops) as (es & Hc & -> & Hl); [left|].
  pose proof (step_edges_spec (re_hash <$> es) hops (out_edges edges node) q) as Hstep.
  destruct (step_edges target (re_hash <$> es) hops (out_edges edges node) q) as [r|q'].
  - destruct Hstep as (e & He & Ht & ->). apply out_edges_elem in He as [He Hs]. eexists. split; [reflexivity|]. split.
    + intros _. exists (es ++ [e]). split_and!; [eapply chain_app; [exact Hc|by cbn]|by rewrite fmap_app|rewrite length_app; cbn; lia].
    + intros. by destruct es.
  - destruct Hstep as (Hmiss & Hlen & ->). apply IH.
    + pose proof (remaining_drop edges max_hops visited node hops Hh Hv). lia.
    + intros n p h Hn. apply elem_of_app in Hn as [Hn|Hn]; [by apply Hr'|]. apply list_elem_of_fmap in Hn as (e & [= -> -> ->] & He).
      apply out_edges_elem in He as [He Hs]. exists (es ++ [e]). split_and!; [eapply chain_app; [exact Hc|by cbn]|by rewrite fmap_app|rewrite length_app; cbn; lia].
    + intros n h e Hn He Hs. apply elem_of_union in Hn as [Hn|Hn].
      * apply elem_of_singleton in Hn as [= -> ->]. split; [apply Hmiss, out_edges_elem; by split|]. intros _. right.
        eexists. apply elem_of_app. right. apply list_elem_of_fmap. exists e. split; [reflexivity|]. apply out_edges_elem. by split.
      * destruct (Hx n h e Hn He Hs) as [Ht Hnext]. split; [done|]. intros Hl'. destruct (Hnext Hl') as [|(p & Hp)]; [left; set_solver|].
        apply elem_of_cons in Hp as [[= E1 E2 E3]|Hp]; [left; subst; set_solver|]. right. exists p. apply elem_of_app. by left.
    + destruct Hk as [Hk|(p & Hp)]; [left; set_solver|]. apply elem_of_cons in Hp as [[= E1 E2 E3]|Hp]; [left; subst; set_solver|].
      right. exists p. apply elem_of_app. by left.
Qed.
End Search.

Lemma find_cycle_spec edges start target max_hops : start <> target -> (0 < max_hops)%nat ->
  exists r, find_cycle_path_hashes edges start target max_hops = Some r /\ answer_ok edges start target max_hops r.
Proof.
  intros Hst Hm. unfold find_cycle_path_hashes. rewrite decide_False by done. apply cycle_loop_spec; [done|done| | | |].
  - pose proof (remaining_start edges max_hops). cbn [length]. lia.
  - intros n p h Hn. apply list_elem_of_singleton in Hn as [= -> -> ->]. by exists [].
  - intros n h e Hn. by apply elem_of_empty in Hn.
  - right. exists []. by left.
Qed.

(** ** The table *)

Definition cycle_flagged (g : RGraph) (e : REdge) : Prop :=
  exists s, s ∈ rg_signals g /\ sg_type s = CYCLE_AUTHORIZATION /\ sg_edge s = re_hash e.
Definition loop_flagged (g : RGraph) (e : REdge) : Prop :=
  exists s, s ∈ rg_signals g /\ sg_type s = DIRECT_LOOP /\ sg_edge s = re_hash e.
Record graph_ok (g : RGraph) : Prop := {
  go_hashes : NoDup (re_hash <$> rg_edges g);
  go_vouchers : NoDup (omap re_voucher (rg_edges g));
  go_signals : forall s, s ∈ rg_signals g -> sg_edge s ∈ re_hash <$> rg_edges g;
  go_flagged : forall pre e post, rg_edges g = pre ++ e :: post -> re_source e <> re_target e ->
    (exists es, chain pre (re_target e) es (re_source e) /\ (length es <= CYCLE_HOPS)%nat) -> cycle_flagged g e;
  go_loops : forall e, e ∈ rg_edges g -> re_source e = re_target e -> loop_flagged g e
}.

Lemma one_by_hash h l : NoDup (re_hash <$> l) -> exists o, one_or_none (filter (fun e => re_hash e = h) l) = Ok o /\
  match o with Some e => e ∈ l /\ re_hash e = h | None => forall e, e ∈ l -> re_hash e <> h end.
Proof.
  induction l as [|e l IH]; cbn [fmap list_fmap]; [by intros _; exists None; split; [|intros e He; apply not_elem_of_nil in He]|].
  rewrite NoDup_cons. intros [Hn Hd]. rewrite filter_cons. case_decide as Hh.
  - assert (filter (fun e => re_hash e = h) l = []) as ->.
    { destruct (filter _ l) as [|x m] eqn:E; [done|]. exfalso. assert (Hx : x ∈ filter (fun e => re_hash e = h) l) by (rewrite E; left).
      apply list_elem_of_filter in Hx as [Hx Hl]. apply Hn. rewrite Hh, <-Hx. by apply list_elem_of_fmap_2. }
    exists (Some e). by split_and!; [|left|].
  - destruct (IH Hd) as (o & -> & Ho). exists o. split; [done|]. destruct o as [x|]; [split; [right|]; apply Ho|].
    intros x Hx. apply elem_of_cons in Hx as [->|Hx]; [done|by apply Ho].
Qed.
Lemma one_by_voucher v l : NoDup (omap re_voucher l) -> exists o, one_or_none (filter (fun e => re_voucher e = Some v) l) = Ok o /\
  match o with Some e => e ∈ l | None => forall e, e ∈ l -> re_voucher e <> Some v end.
Proof.
  induction l as [|e l IH]; [by intros _; exists None; split; [|intros e He; apply not_elem_of_nil in He]|].
  intros Hd. rewrite filter_cons. assert (Hd' : NoDup (omap re_voucher l)) by (cbn in Hd; destruct (re_voucher e); [by apply NoDup_cons in Hd as [_ Hd]|done]).
  case_decide as Hh.
  - cbn in Hd. rewrite Hh in Hd. apply NoDup_cons in Hd as [Hn _].
    assert (filter (fun e => re_voucher e = Some v) l = []) as ->.
    { destruct (filter _ l) as [|x m] eqn:E; [done|]. exfalso. assert (Hx : x ∈ filter (fun e => re_voucher e = Some v) l) by (rewrite E; left).
      apply list_elem_of_filter in Hx as [Hx Hl]. apply Hn. apply list_elem_of_omap. by exists x. }
    exists (Some e). by split; [|left].
  - destruct (IH Hd') as (o & -> & Ho). exists o. split; [done|]. destruct o as [x|]; [by right|].
    intros x Hx. apply elem_of_cons in Hx as [->|Hx]; [done|by apply Ho].
Qed.

Lemma NoDup_snoc {A} (l : list A) x : NoDup l -> x ∉ l -> NoDup (l ++ [x]).
Proof.
  intros Hl Hx. apply NoDup_app. split_and!; [done| |apply NoDup_singleton]. intros y Hy Hz. apply list_elem_of_singleton in Hz as ->. done.
Qed.

Lemma detect_edge now edges e s : s ∈ detect_signals now edges e -> sg_edge s = re_hash e.
Proof.
  unfold detect_signals. intros H. rewrite !elem_of_app in H.
  destruct H as [H|[H|H]]; revert H; repeat case_match; rewrite ?list_elem_of_singleton; try (intros ->; done); intros Hs; by apply not_elem_of_nil in Hs.
Qed.
Lemma detect_cycle now edges e : re_source e <> re_target e ->
  (exists es, chain edges (re_target e) es (re_source e) /\ (length es <= CYCLE_HOPS)%nat) ->
  exists s, s ∈ detect_signals now edges e /\ sg_type s = CYCLE_AUTHORIZATION.
Proof.
  intros Hne (es & Hc & Hl). destruct (find_cycle_spec edges (re_target e) (re_source e) CYCLE_HOPS) as (r & E & _ & Hr); [done|by unfold CYCLE_HOPS; lia|].
  unfold detect_signals. rewrite E. cbn [default from_option id]. destruct r as [|x r].
  - exfalso. apply (Hr es Hc); [|done|done]. intros ->. by cbn in Hc.
  - eexists. rewrite !elem_of_app. split; [right; right; left|]. done.
Qed.

Lemma insert_edge_spec e g : graph_ok g -> (forall x, x ∈ rg_edges g -> re_hash x <> re_hash e) ->
  insert_edge e g = (Ok tt, {| rg_edges := rg_edges g ++ [e]; rg_signals := rg_signals g |}) /\
    (forall v, re_voucher e = Some v -> v ∉ omap re_voucher (rg_edges g)) \/
  insert_edge e g = (Err IntegrityError, g) /\ exists x v, x ∈ rg_edges g /\ re_voucher e = Some v /\ re_voucher x = Some v.
Proof.
  intros Hg Hh. unfold insert_edge, m_bind, m_get. destruct (existsb _ (rg_edges g)) eqn:E.
  - right. split; [done|]. apply existsb_exists in E as (x & Hx & Hp). apply list_elem_of_In in Hx.
    apply orb_true_iff in Hp as [Hp|Hp]; [apply bool_decide_eq_true in Hp; by destruct (Hh x Hx)|].
    destruct (re_voucher e) as [v|]; [|done]. apply bool_decide_eq_true in Hp. by exists x, v.
  - left. split; [done|]. intros v Hv Hin. apply list_elem_of_omap in Hin as (x & Hx & Hxv). apply list_elem_of_In in Hx.
    assert (Ht : existsb (fun x => bool_decide (re_hash x = re_hash e) ||
              match re_voucher e with Some v => bool_decide (re_voucher x = Some v) | None => false end) (rg_edges g) = true).
    { apply existsb_exists. exists x. split; [done|]. rewrite Hv. apply orb_true_iff. right. by apply bool_decide_eq_true. }
    congruence.
Qed.

Lemma detect_loop now edges e : re_source e = re_target e ->
  exists s, s ∈ detect_signals now edges e /\ sg_type s = DIRECT_LOOP /\ sg_edge s = re_hash e.
Proof. intros H. unfold detect_signals. cbv zeta. rewrite decide_True by done. eexists. split; [left|done]. Qed.
Lemma graph_ok_insert now e g : graph_ok g -> (forall x, x ∈ rg_edges g -> re_hash x <> re_hash e) ->
  (forall v, re_voucher e = Some v -> v ∉ omap re_voucher (rg_edges g)) ->
  graph_ok {| rg_edges := rg_edges g ++ [e]; rg_signals := rg_signals g ++ detect_signals now (rg_edges g ++ [e]) e |}.
Proof.
  intros [H1 H2 H3 H4 H5] Hh Hv. constructor; cbn.
  - rewrite fmap_app. apply NoDup_snoc; [done|]. intros Hin. apply list_elem_of_fmap in Hin as (x & Hx & Hin). by destruct (Hh x Hin).
  - rewrite omap_app. cbn. destruct (re_voucher e) as [v|] eqn:E; [|by rewrite app_nil_r]. apply NoDup_snoc; [done|by apply Hv].
  - intros s Hs. rewrite fmap_app. apply elem_of_app in Hs as [Hs|Hs]; apply elem_of_app; [left; by apply H3|right].
    apply detect_edge in Hs as ->. by left.
  - intros pre x post E Hne Hw. destruct post as [|y post _] using rev_ind.
    + apply app_inj_tail in E as [<- <-]. destruct Hw as (es & Hc & Hl).
      destruct (detect_cycle now (rg_edges g ++ [e]) e Hne) as (s & Hs & Ht).
      { exists es. split; [|done]. eapply chain_mono; [|exact Hc]. intros z _ Hz. apply elem_of_app. by left. }
      exists s. split_and!; [cbn; apply elem_of_app; by right|done|by apply detect_edge in Hs].
    + rewrite app_comm_cons, app_assoc in E. apply app_inj_tail in E as [E <-].
      destruct (H4 pre x post E Hne Hw) as (s & Hs & Ht & Hse). exists s. split_and!; [cbn; apply elem_of_app; by left|done..].
  - intros x Hx Hl. apply elem_of_app in Hx as [Hx|Hx%list_elem_of_singleton].
    + destruct (H5 x Hx Hl) as (s & Hs & Ht & Hse). exists s. split_and!; [cbn; apply elem_of_app; by left|done..].
    + subst x. destruct (detect_loop now (rg_edges g ++ [e]) e Hl) as (s & Hs & Ht & Hse). exists s.
      split_and!; [cbn; apply elem_of_app; by right|done..].
Qed.

Lemma add_edge_ok now e g : graph_ok g -> (forall x, x ∈ rg_edges g -> re_hash x <> re_hash e) ->
  match (seq! insert_edge e in do! edges := m_get rg_edges in
         seq! put_signals (detect_signals now edges e) in m_ret (e, detect_signals now edges e)) g with
  | (Ok (x, _), g') => graph_ok g' /\ x ∈ rg_edges g' /\ (forall y, y ∈ rg_edges g -> y ∈ rg_edges g')
  | (Err _, g') => g' = g /\ exists x v, x ∈ rg_edges g /\ re_voucher e = Some v /\ re_voucher x = Some v
  end.
Proof.
  intros Hg Hh. unfold m_bind at 1. destruct (insert_edge_spec e g Hg Hh) as [[-> Hv]|[-> Hx]]; [|done]. cbn.
  split_and!; [by apply graph_ok_insert|apply elem_of_app; right; left|intros y Hy; apply elem_of_app; by left].
Qed.

Lemma ingest_ok sha now source target t task voucher metadata g : graph_ok g ->
  match ingest_edge sha now source target t task voucher metadata g with
  | (Ok (e, l), g') => graph_ok g' /\ e ∈ rg_edges g' /\ (forall x, x ∈ rg_edges g -> x ∈ rg_edges g')
  | (Err _, g') => g' = g /\ voucher = Some ""%string
  end.
Proof.
  intros Hg. unfold ingest_edge. set (hash := build_edge_hash _ _ _ _ _ _ _).
  destruct (one_by_hash hash _ (go_hashes g Hg)) as (o & E & Ho). unfold m_bind at 1. cbn [m_get]. unfold m_bind at 1, lift at 1.
  rewrite E. destruct o as [e|]; [cbn; by destruct Ho|].
  set (new := {| re_hash := hash |}). pose proof (add_edge_ok now new g Hg Ho) as Hadd.
  destruct voucher as [[|c v]|]; unfold m_bind at 1.
  - cbn [m_ret]. revert Hadd. destruct (m_bind _ _ g) as [[[x l]|ex] g']; [done|]. by intros [-> _].
  - destruct (one_by_voucher (String c v) _ (go_vouchers g Hg)) as (o & E' & Ho'). unfold m_bind at 1. cbn [m_get]. unfold lift at 1. rewrite E'.
    destruct o as [e|]; [cbn; done|]. revert Hadd. destruct (m_bind _ _ g) as [[[x l]|ex] g']; [done|].
    intros (_ & x & v' & Hx & [= <-] & Hv). by destruct (Ho' x Hx).
  - cbn [m_ret]. revert Hadd. destruct (m_bind _ _ g) as [[[x l]|ex] g']; [done|]. by intros (_ & x & v' & _ & [=] & _).
Qed.

(** A request: what failed is rolled back. *)
Record IngestCall := {
  ic_now : Z; ic_source : string; ic_target : string; ic_type : EdgeType; ic_task : option string; ic_voucher : option string;
  ic_metadata : option (list (string * json))
}.
Definition ingest_call (sha : json -> string) (c : IngestCall) : GM (REdge * list Signal) :=
  ingest_edge sha (ic_now c) (ic_source c) (ic_target c) (ic_type c) (ic_task c) (ic_voucher c) (ic_metadata c).
Definition ingest_request (sha : json -> string) (g : RGraph) (c : IngestCall) : RGraph :=
  match ingest_call sha c g with (Ok _, g') => g' | (Err _, _) => g end.

Lemma last_in_table (l es : list REdge) : es <> [] -> (forall e, e ∈ es -> e ∈ l) ->
  exists pre e post, l = pre ++ e :: post /\ e ∈ es /\ (forall x, x ∈ es -> x = e \/ x ∈ pre).
Proof.
  induction l as [|y l IH] using rev_ind; intros Hne Hin.
  - destruct es as [|e es]; [done|]. destruct (not_elem_of_nil e). apply Hin. left.
  - destruct (decide (y ∈ es)) as [Hy|Hy].
    + exists l, y, []. split_and!; [done|done|]. intros x Hx. specialize (Hin x Hx). apply elem_of_app in Hin as [Hx'|Hx']; [by right|].
      left. by apply list_elem_of_singleton in Hx'.
    + destruct IH as (pre & e & post & -> & He & Hall); [done| |exists pre, e, (post ++ [y]); split_and!; [by rewrite <-app_assoc|done|done]].
      intros x Hx. specialize (Hin x Hx). apply elem_of_app in Hin as [|Hx']; [done|]. apply list_elem_of_singleton in Hx' as ->. done.
Qed.

(** Edges from an identity to itself go nowhere: a circle without them is a circle. *)
Lemma chain_moving edges a es b : chain edges a es b -> chain edges a (filter (fun e => re_source e <> re_target e) es) b.
Proof.
  revert a. induction es as [|e es IH]; intros a; [done|]. intros (H1 & H2 & H3). rewrite filter_cons. case_decide as Hs.
  - split_and!; [done|done|by apply IH].
  - apply IH. by destruct (decide (re_source e = re_target e)) as [E|]; [rewrite <-H2, E|].
Qed.
Lemma chain_elem edges a es b e : chain edges a es b -> e ∈ es -> e ∈ edges.
Proof.
  revert a. induction es as [|x es IH]; intros a Hc He; [by apply not_elem_of_nil in He|].
  destruct Hc as (Hx & _ & Hc). apply elem_of_cons in He as [->|He]; [done|by eapply IH].
Qed.
(** From the end of an edge of a circle back to its start without that edge: between its last
    occurrence and its first. *)
Lemma chain_around edges a cyc e : chain edges a cyc a -> e ∈ cyc ->
  exists es, chain edges (re_target e) es (re_source e) /\ (e ∉ es) /\ (forall x, x ∈ es -> x ∈ cyc) /\ (length es < length cyc)%nat.
Proof.
  intros Hc (l1 & l2 & -> & Hn)%list_elem_of_split_r. apply chain_split in Hc as (b & H1 & (_ & <- & H2)).
  destruct (decide (e ∈ l1)) as [(k1 & k2 & -> & Hk)%list_elem_of_split_l|He].
  - apply chain_split in H1 as (b & H1 & (_ & <- & _)). exists (l2 ++ k1). rewrite !length_app. cbn. split_and!; [by eapply chain_app| | |lia].
    + rewrite not_elem_of_app. done.
    + intros x. rewrite !elem_of_app, !elem_of_cons. tauto.
  - exists (l2 ++ l1). rewrite !length_app. cbn. split_and!; [by eapply chain_app|rewrite not_elem_of_app; done| |lia].
    intros x. rewrite !elem_of_app, !elem_of_cons. tauto.
Qed.
Lemma cycle_in_table g a cyc e0 : graph_ok g -> chain (rg_edges g) a cyc a -> e0 ∈ cyc -> re_source e0 <> re_target e0 ->
  (length cyc <= S CYCLE_HOPS)%nat -> exists e, e ∈ cyc /\ cycle_flagged g e.
Proof.
  intros Hg Hc H0 Hs0 Hl. set (mov := filter (fun e => re_source e <> re_target e) cyc).
  assert (Hsub : forall x, x ∈ mov <-> re_source x <> re_target x /\ x ∈ cyc) by (intros x; unfold mov; by rewrite list_elem_of_filter).
  assert (Hm : chain (rg_edges g) a mov a) by (by apply chain_moving).
  assert (Hne : mov <> []) by (intros E; assert (H : e0 ∈ mov) by (by apply Hsub); rewrite E in H; by apply not_elem_of_nil in H).
  destruct (last_in_table (rg_edges g) mov Hne) as (pre & e & post & E & He & Hall); [intros x Hx; by eapply chain_elem|].
  pose proof (proj1 (Hsub e) He) as [Hse Hec]. exists e. split; [done|]. apply (go_flagged g Hg pre e post E); [done|].
  destruct (chain_around _ _ _ _ Hm He) as (es & H1 & H2 & H3 & H4). exists es. split.
  - apply (chain_mono (rg_edges g)); [|done]. intros x Hx _. destruct (Hall x (H3 x Hx)) as [->|]; [done|done].
  - pose proof (length_filter (fun e => re_source e <> re_target e) cyc) as Hf. fold mov in Hf. lia.
Qed.

(** C31. No circle of responsibility goes unseen: after any ingestions, with whatever digests, the
    table holds every edge and every voucher once, an ingestion fails only for an empty voucher
    id, nothing is ever removed, every edge from an identity to itself has a direct-loop signal,
    and every circle of at most seven steps that passes through different identities, however
    often it repeats an edge, has an edge for which a cycle was signalled. *)
Theorem cycles_flagged sha calls g : graph_ok g ->
  let g' := fold_left (ingest_request sha) calls g in
  graph_ok g' /\ (forall e, e ∈ rg_edges g -> e ∈ rg_edges g') /\
  (forall c, ic_voucher c <> Some ""%string -> is_ok (outcome (ingest_call sha c) g') = true) /\
  (forall e, e ∈ rg_edges g' -> re_source e = re_target e -> loop_flagged g' e) /\
  (forall a cyc e0, chain (rg_edges g') a cyc a -> e0 ∈ cyc -> re_source e0 <> re_target e0 ->
     (length cyc <= 7)%nat -> exists e, e ∈ cyc /\ cycle_flagged g' e).
Proof.
  intros Hg. assert (Hstep : graph_ok (fold_left (ingest_request sha) calls g) /\
    (forall e, e ∈ rg_edges g -> e ∈ rg_edges (fold_left (ingest_request sha) calls g))).
  { revert g Hg. induction calls as [|c calls IH]; intros g Hg; [done|]. cbn [fold_left].
    pose proof (ingest_ok sha (ic_now c) (ic_source c) (ic_target c) (ic_type c) (ic_task c) (ic_voucher c) (ic_metadata c) g Hg) as Hi.
    assert (Hn : graph_ok (ingest_request sha g c) /\ forall e, e ∈ rg_edges g -> e ∈ rg_edges (ingest_request sha g c)).
    { unfold ingest_request, ingest_call. destruct (ingest_edge _ _ _ _ _ _ _ _ g) as [[[e l]|ex] g1]; [|done]. by destruct Hi as (? & _ & ?). }
    destruct Hn as [Hn Hk]. destruct (IH _ Hn) as [Hf Hkf]. split; [done|]. intros e He. by apply Hkf, Hk. }
  destruct Hstep as [Hok Hkeep]. cbn zeta. split_and!; [done|done| |by apply go_loops|].
  - intros c Hc. unfold outcome, ingest_call.
    pose proof (ingest_ok sha (ic_now c) (ic_source c) (ic_target c) (ic_type c) (ic_task c) (ic_voucher c) (ic_metadata c) _ Hok) as Hi.
    destruct (ingest_edge _ _ _ _ _ _ _ _ _) as [[[e l]|ex] g1]; [done|]. by destruct Hi as [_ Hi].
  - intros a cyc e0. by apply cycle_in_table.
Qed.

(** ** The walk over the neighbourhood ends *)

Section Walk.
Context (edges : list REdge) (identity : string) (max_hops : nat).
Definition distance (d : gmap string nat) (e : REdge) : nat := default (S max_hops) (d !! re_target e).
Definition to_walk (f : Features) : nat := (length (pf_queue f) + sum_list (distance (pf_depth f) <$> edges))%nat.

Lemma nearer_drops d e n : e ∈ edges -> (n < distance d e)%nat ->
  (sum_list (distance (<[re_target e := n]> d) <$> edges) + 1 <= sum_list (distance d <$> edges))%nat.
Proof.
  intros He Hn. apply (sum_drop _ _ _ e); [done| |unfold distance at 1; rewrite lookup_insert_eq; cbn; lia].
  intros y. unfold distance. destruct (decide (re_target e = re_target y)) as [Heq|Hne]; [|by rewrite lookup_insert_ne].
  rewrite <-Heq, lookup_insert_eq. cbn. unfold distance in Hn. lia.
Qed.
Lemma visit_walk hops path f e : e ∈ edges -> (hops < max_hops)%nat -> (to_walk (visit_edge identity hops path f e) <= to_walk f)%nat.
Proof.
  intros He Hh. unfold visit_edge, to_walk. destruct (_ || _); [done|]. destruct (match pf_depth f !! _ with None => _ | Some _ => _ end) eqn:En; [|done].
  cbn. rewrite length_app. cbn. pose proof (nearer_drops (pf_depth f) e (S hops) He) as Hd.
  assert ((S hops < distance (pf_depth f) e)%nat) as Hlt; [|specialize (Hd Hlt); lia]. unfold distance.
  destruct (pf_depth f !! re_target e) as [d|]; cbn; [by apply Nat.ltb_lt|lia].
Qed.
Lemma visits_walk hops path out f : (forall e, e ∈ out -> e ∈ edges) -> (hops < max_hops)%nat ->
  (to_walk (fold_left (visit_edge identity hops path) out f) <= to_walk f)%nat.
Proof.
  intros Hin Hh. revert f. induction out as [|e out IH]; intros f; [done|]. cbn [fold_left].
  etrans; [apply IH; intros x Hx; apply Hin; by right|]. apply visit_walk; [apply Hin; left|done].
Qed.
Lemma features_loop_ends fuel f : (to_walk f <= fuel)%nat -> is_Some (features_loop fuel edges identity max_hops f).
Proof.
  revert f. induction fuel as [|fuel IH]; intros f Hf; cbn [features_loop]; destruct (pf_queue f) as [|[[node hops] path] q] eqn:Eq.
  1,3: by eexists.
  - unfold to_walk in Hf. rewrite Eq in Hf. cbn in Hf. lia.
  - assert (Hq : (to_walk (set_pf_queue q f) <= fuel)%nat) by (unfold to_walk in *; rewrite Eq in Hf; cbn in *; lia).
    destruct (Nat.leb_spec max_hops hops) as [Hh|Hh]; apply IH; [done|]. etrans; [apply visits_walk; [|done]|done].
    intros e He. by apply out_edges_elem in He as [He _].
Qed.
End Walk.

(** The neighbourhood of an identity is always computed: the fuel is enough. *)
Lemma path_features_total now identity window_hours max_hops g : is_Some (get_identity_path_features now identity window_hours max_hops g).
Proof.
  unfold get_identity_path_features. apply features_loop_ends. unfold to_walk. cbn [pf_queue pf_depth length].
  generalize (filter (fun e => now - window_hours * HOUR_US <= re_created_at e) (rg_edges g)) as es. intros es.
  assert (H : forall l, (sum_list (distance max_hops {[identity := 0%nat]} <$> l) <= S max_hops * length l)%nat).
  { induction l as [|e l IH]; [cbn; lia|]. rewrite fmap_cons. cbn [sum_list foldr length].
    assert ((distance max_hops {[identity := 0%nat]} e <= S max_hops)%nat).
    { unfold distance. destruct (decide (identity = re_target e)) as [->|]; [rewrite lookup_singleton_eq|rewrite lookup_singleton_ne by done]; cbn; lia. }
    cbn in *. lia. }
  specialize (H es). lia.
Qed.

(** ** What a consistent task looks like *)

Lemma in_order_iff last edges : out_of_order last edges = [] <-> StronglySorted Z.le (last :: (EDGE_STAGE_ORDER ∘ re_type <$> edges)).
Proof.
  revert last. induction edges as [|e edges IH]; intros last; cbn [out_of_order fmap list_fmap].
  - split; [intros _; repeat constructor|done].
  - cbn. destruct (Z.ltb_spec (EDGE_STAGE_ORDER (re_type e)) last) as [Hlt|Hge]; cbn [app].
    + split; [done|]. intros H. apply StronglySorted_inv in H as [_ H]. apply Forall_cons in H as [H _]. cbn in H. lia.
    + rewrite Z.max_r by lia. rewrite IH. split; intros H.
      * constructor; [done|]. constructor; [done|]. apply StronglySorted_inv in H as [_ H]. eapply Forall_impl; [exact H|]. cbn. lia.
      * by apply StronglySorted_inv in H as [H _].
Qed.
(** A task is consistent exactly when it has no edges, or it has a voucher edge, its stages come
    in order and no direction has three edges within the burst window. *)
Lemma consistent_iff burst t g : is_consistent burst t g = true <->
  edges_of_task t (rg_edges g) = [] \/
  edges_of_task t (rg_edges g) <> [] /\ (exists e, e ∈ edges_of_task t (rg_edges g) /\ re_type e = VOUCHER_ACCEPT) /\
  StronglySorted Z.le (0 :: (EDGE_STAGE_ORDER ∘ re_type <$> edges_of_task t (rg_edges g))) /\
  burst_hashes burst (edges_of_task t (rg_edges g)) = [].
Proof.
  unfold is_consistent, get_task_temporal_consistency_report. rewrite <-in_order_iff.
  destruct (edges_of_task t (rg_edges g)) as [|e l]; [split; auto|]. generalize (e :: l), (nil_cons (x := e) (l := l)). intros es Hne.
  destruct (existsb _ es) eqn:Ha.
  - apply existsb_exists in Ha as (x & Hx & Hv). apply list_elem_of_In in Hx. apply bool_decide_eq_true in Hv.
    assert (Hx' : exists e, e ∈ es /\ re_type e = VOUCHER_ACCEPT) by eauto.
    destruct (out_of_order 0 es) eqn:E1, (burst_hashes burst es) eqn:E2; cbn; split; try done; intros H; try (by right; split_and!);
      destruct H as [->|(_ & _ & H1 & H2)]; done.
  - split; [done|]. intros [->|(_ & (x & Hx & Hv) & _)]; [done|].
    assert (existsb (fun e => bool_decide (re_type e = VOUCHER_ACCEPT)) es = true); [|congruence].
    apply existsb_exists. exists x. split; [by apply list_elem_of_In|by apply bool_decide_eq_true].
Qed.

(** ** Runs *)

Definition json_str (j : json) : string := match j with JStr s => s | _ => "-" end.
Definition demo_sha (j : json) : string :=
  match j with JObj d => foldr (fun kv acc => (json_str (snd kv) +:+ "|" +:+ acc)%string) ""%string d | _ => "-" end.
Definition link (a b : string) (voucher : option string) : IngestCall :=
  {| ic_now := 1; ic_source := a; ic_target := b; ic_type := TASK_DELEGATION; ic_task := None; ic_voucher := voucher; ic_metadata := None |}.
Definition empty_graph : RGraph := {| rg_edges := []; rg_signals := [] |}.
Lemma empty_graph_ok : graph_ok empty_graph.
Proof.
  constructor; cbn; try apply NoDup_nil_2; [intros s Hs; by apply not_elem_of_nil in Hs| |intros e He; by apply not_elem_of_nil in He].
  intros pre e post E. by destruct pre.
Qed.
Definition triangle : RGraph := fold_left (ingest_request demo_sha) [link "a" "b" None; link "b" "c" None; link "c" "a" (Some "v"); link "b" "a" None]%string empty_graph.

Definition first_link : REdge := default {| re_hash := ""; re_source := ""; re_target := ""; re_type := TASK_DELEGATION; re_task := None;
  re_voucher := None; re_metadata := []; re_created_at := 0 |} (head (rg_edges triangle)).
Lemma cycles_flagged_witness : exists e, e ∈ take 3 (rg_edges triangle) /\ cycle_flagged triangle e.
Proof.
  apply (cycles_flagged demo_sha _ _ empty_graph_ok) with (a := "a"%string) (e0 := first_link).
  - split_and!; [apply list_elem_of_lookup; exists 0%nat; vm_compute; reflexivity|vm_compute; reflexivity|].
    split_and!; [apply list_elem_of_lookup; exists 1%nat; vm_compute; reflexivity|vm_compute; reflexivity|].
    split_and!; [apply list_elem_of_lookup; exists 2%nat; vm_compute; reflexivity|vm_compute; reflexivity|vm_compute; reflexivity].
  - apply list_elem_of_lookup. exists 0%nat. vm_compute. reflexivity.
  - vm_compute. discriminate.
  - vm_compute. lia.
Defined.

(** The second edge with an empty voucher id meets the unique column. *)
Lemma empty_voucher_collides :
  outcome (ingest_call demo_sha (link "a" "c" (Some "")))%string (ingest_request demo_sha empty_graph (link "a" "b" (Some ""))%string) = Err IntegrityError.
Proof. vm_compute. reflexivity. Qed.
(** A circle of eight is not seen. *)
Definition ring (l : list string) : RGraph :=
  fold_left (ingest_request demo_sha) (zip_with (fun a b => link a b None) l (tail l ++ take 1 l)) empty_graph.
Lemma long_circle_unseen : rg_signals (ring ["a"; "b"; "c"; "d"; "e"; "f"; "g"; "h"]%string) = [] /\
  length (rg_signals (ring ["a"; "b"; "c"; "d"; "e"; "f"; "g"]%string)) = 1%nat.
Proof. split; vm_compute; reflexivity. Qed.
