(* ===== verification/ScanQueue.v ===== *)
(** * The queue of responsibility scans

    The scan runs of [services/responsibility_graph.py]: created, claimed under a lease, kept
    alive by heartbeats, executed against the graph, retried after failures, recovered when
    the lease is over, moved to the dead letters, requeued, purged and cancelled.

    A request reads the clock once ([now]); the tick once for every job.  Of the metadata of
    an event the model keeps the runner and the status a recovery ends in.  [fault] is an
    exception that the queries of a scan may raise. *)
From S2P Require Import Prelude PyText PyFloat PyJson RespGraph.
Open Scope Z_scope.

(** ** Rows *)

Inductive RunStatus := PENDING | CLAIMED | RUNNING | COMPLETED | FAILED | CANCELLED | DEAD_LETTER.
#[export] Instance RunStatus_eq_dec : EqDecision RunStatus.
Proof. solve_decision. Defined.
Inductive EventType :=
| E_CREATED | E_CLAIMED | E_HEARTBEAT | E_EXECUTION_STARTED | E_EXECUTION_COMPLETED | E_EXECUTION_FAILED
| E_CANCELLED | E_STALE_RECOVERED (status : RunStatus) | E_DEAD_LETTERED | E_REQUEUED.

Record ScanRun := {
  rn_id : string;
  rn_status : RunStatus;
  rn_async : bool;
  rn_incremental : bool;
  rn_base : option string;
  rn_since : option Z;
  rn_requested : option (list string);
  rn_window_hours : Z;
  rn_max_hops : nat;
  rn_threshold : float;
  rn_retry_max : Z;
  rn_backoff : Z;
  rn_attempt : Z;
  rn_claimed_by : option string;
  rn_claimed_at : option Z;
  rn_lease : option Z;
  rn_heartbeat : option Z;
  rn_started_at : option Z;
  rn_next_retry : option Z;
  rn_last_error : option string;
  rn_cancelled_at : option Z;
  rn_cancel_reason : option string;
  rn_dead_at : option Z;
  rn_dead_reason : option string;
  rn_total : Z;
  rn_flagged : Z;
  rn_created_at : Z;
  rn_completed_at : option Z
}.
Record Finding := {
  fn_scan : string;
  fn_identity : string;
  fn_score : float;
  fn_band : Band;
  fn_signals : nat;
  fn_cycles : nat;
  fn_created_at : Z
}.
Record Event := {
  ev_scan : string;
  ev_type : EventType;
  ev_runner : option string;
  ev_at : Z
}.
Record Queue := {
  q_runs : list ScanRun;
  q_findings : list Finding;
  q_events : list Event;
  q_graph : RGraph
}.
Abbreviation QM := (M Queue Exc).

(** The columns of a run that change. *)
Definition edit_run (status : RunStatus) (since : option Z) (attempt : Z) (claimed_by : option string)
    (claimed_at lease heartbeat started next_retry : option Z) (last_error : option string)
    (cancelled : option (Z * string)) (dead : option (Z * string)) (total flagged : Z) (completed : option Z)
    (r : ScanRun) : ScanRun :=
  {| rn_id := rn_id r; rn_status := status; rn_async := rn_async r; rn_incremental := rn_incremental r; rn_base := rn_base r;
     rn_since := since; rn_requested := rn_requested r; rn_window_hours := rn_window_hours r; rn_max_hops := rn_max_hops r;
     rn_threshold := rn_threshold r; rn_retry_max := rn_retry_max r; rn_backoff := rn_backoff r; rn_attempt := attempt;
     rn_claimed_by := claimed_by; rn_claimed_at := claimed_at; rn_lease := lease; rn_heartbeat := heartbeat;
     rn_started_at := started; rn_next_retry := next_retry; rn_last_error := last_error; rn_cancelled_at := fst <$> cancelled;
     rn_cancel_reason := snd <$> cancelled; rn_dead_at := fst <$> dead; rn_dead_reason := snd <$> dead; rn_total := total;
     rn_flagged := flagged; rn_created_at := rn_created_at r; rn_completed_at := completed |}.
(** [_clear_claim_fields] with the other columns given. *)
Definition released_run (status : RunStatus) (since : option Z) (attempt : Z) (next_retry : option Z) (last_error : option string)
    (dead : option (Z * string)) (total flagged : Z) (completed : option Z) (r : ScanRun) : ScanRun :=
  edit_run status since attempt None None None None (rn_started_at r) next_retry last_error None dead total flagged completed r.

Definition set_runs (l : list ScanRun) (q : Queue) : Queue :=
  {| q_runs := l; q_findings := q_findings q; q_events := q_events q; q_graph := q_graph q |}.
Definition get_run (id : string) : QM (option ScanRun) := m_get (fun q => head (filter (fun r => rn_id r = id) (q_runs q))).
Definition put_run (r : ScanRun) : QM unit :=
  m_put (fun q => set_runs ((fun x => if decide (rn_id x = rn_id r) then r else x) <$> q_runs q) q).
Definition append_scan_event (now : Z) (id : string) (t : EventType) (runner : option string) : QM unit :=
  m_put (fun q => {| q_runs := q_runs q; q_findings := q_findings q; q_graph := q_graph q;
                     q_events := q_events q ++ [{| ev_scan := id; ev_type := t; ev_runner := runner; ev_at := now |}] |}).
(** A row is written and the event appended. *)
Definition record_run (now : Z) (r : ScanRun) (t : EventType) (runner : option string) : QM unit :=
  seq! put_run r in append_scan_event now (rn_id r) t runner.

Definition not_found : Exc := ValueError "scan run not found".
Definition run_or_raise (id : string) : QM ScanRun :=
  do! r := get_run id in match r with Some r => m_ret r | None => m_raise not_found end.

(** [ORDER BY ... LIMIT 1]: the first of the least rows. *)
Definition first_by {A} (lt : A -> A -> bool) (l : list A) : option A :=
  fold_left (fun best x => match best with Some b => if lt x b then Some x else best | None => Some x end) l None.
Fixpoint insert_by {A} (lt : A -> A -> bool) (x : A) (l : list A) : list A :=
  match l with [] => [x] | y :: l' => if lt y x then y :: insert_by lt x l' else x :: l end.
Definition order_by {A} (lt : A -> A -> bool) (l : list A) : list A := foldr (insert_by lt) [] l.
(** Ascending, missing values last. *)
Definition opt_lt (a b : option Z) : bool :=
  match a, b with Some x, Some y => x <? y | Some _, None => true | None, _ => false end.
Definition opt_eq (a b : option Z) : bool := bool_decide (a = b).
Definition by_created (a b : ScanRun) : bool := rn_created_at a <? rn_created_at b.
Definition by_lease (a b : ScanRun) : bool := opt_lt (rn_lease a) (rn_lease b).
Definition by_retry (a b : ScanRun) : bool :=
  opt_lt (rn_next_retry a) (rn_next_retry b) || opt_eq (rn_next_retry a) (rn_next_retry b) && by_created a b.
Definition by_death (a b : ScanRun) : bool :=
  opt_lt (rn_dead_at a) (rn_dead_at b) || opt_eq (rn_dead_at a) (rn_dead_at b) && by_created a b.
Definition page (limit : Z) : nat := Z.to_nat (Z.max 1 (Z.min limit 1000)).

Definition SECOND : Z := 1000000.
Definition lease_until (now seconds : Z) : Z := now + Z.max 1 seconds * SECOND.
Definition lease_over (now : Z) (r : ScanRun) : bool := match rn_lease r with Some t => t <=? now | None => false end.

(** ** Claiming *)

Definition is_status (s : RunStatus) (r : ScanRun) : bool := bool_decide (rn_status r = s).
Definition stale_claim (now : Z) (r : ScanRun) : bool := is_status CLAIMED r && lease_over now r.
Definition retryable (r : ScanRun) : bool := is_status FAILED r && (rn_attempt r <? rn_retry_max r).
Definition pick_run (now : Z) (include_failed : bool) (runs : list ScanRun) : option ScanRun :=
  match first_by by_created (filter (fun r => is_status PENDING r = true) runs) with
  | Some r => Some r
  | None =>
      match first_by by_lease (filter (fun r => stale_claim now r = true) runs) with
      | Some r => Some r
      | None =>
          if include_failed then
            match first_by by_retry (filter (fun r => retryable r = true) runs) with
            | Some r => if match rn_next_retry r with Some t => now <? t | None => false end then None else Some r
            | None => None
            end
          else None
      end
  end.
Definition claimed_run (now : Z) (runner : string) (lease_seconds : Z) (r : ScanRun) : ScanRun :=
  edit_run CLAIMED (rn_since r) (rn_attempt r) (Some runner) (Some now) (Some (lease_until now lease_seconds)) (Some now)
    (rn_started_at r) (rn_next_retry r) (rn_last_error r) None None (rn_total r) (rn_flagged r) (rn_completed_at r) r.
Definition claim_next_scan_run (now : Z) (runner : string) (lease_seconds : Z) (include_failed : bool) : QM (option ScanRun) :=
  do! picked := m_get (fun q => pick_run now include_failed (q_runs q)) in
  match picked with
  | None => m_ret None
  | Some r =>
      let r := claimed_run now runner lease_seconds r in
      seq! record_run now r E_CLAIMED (Some runner) in
      m_ret (Some r)
  end.

(** ** Executing *)

Definition sorted_ids (l : list string) : list string := foldr insert_text [] l.
Definition resolve_incremental_since (now : Z) (r : ScanRun) : QM (option Z) :=
  if negb (rn_incremental r) then m_ret None
  else
    match rn_base r with
    | Some b => if decide (b = ""%string) then
                  m_ret (match rn_since r with Some t => Some t | None => Some (now - rn_window_hours r * HOUR_US) end)
                else
                  do! base := get_run b in
                  match base with
                  | None => m_raise (ValueError "base scan run not found")
                  | Some x => m_ret (match rn_completed_at x with Some t => Some t | None => Some (rn_created_at x) end)
                  end
    | None => m_ret (match rn_since r with Some t => Some t | None => Some (now - rn_window_hours r * HOUR_US) end)
    end.
Definition resolve_scan_identities (now : Z) (r : ScanRun) (since : option Z) (g : RGraph) : list string :=
  match rn_requested r with
  | Some ((_ :: _) as l) => sorted_ids (py_strip <$> filter (fun x => py_strip x <> ""%string) l)
  | _ =>
      let t := default (now - rn_window_hours r * HOUR_US) since in
      let recent := filter (fun e => t <= re_created_at e) (rg_edges g) in
      sorted_ids (filter (fun x => x <> ""%string)
        ((re_source <$> recent) ++ (re_target <$> recent) ++ (sg_identity <$> filter (fun s => t <= sg_created_at s) (rg_signals g))))
  end.
Definition scan_identity (now : Z) (r : ScanRun) (g : RGraph) (identity : string) : option Finding :=
  let score := get_identity_score now identity (rn_window_hours r) g in
  let cycles := match get_identity_path_features now identity (rn_window_hours r) (rn_max_hops r) g with Some f => pf_cycles f | None => 0%nat end in
  if (sc_normalized score >=? rn_threshold r)%float || (0 <? cycles)%nat
  then Some {| fn_scan := rn_id r; fn_identity := identity; fn_score := sc_normalized score; fn_band := sc_band score;
               fn_signals := sc_count score; fn_cycles := cycles; fn_created_at := now |}
  else None.
Definition put_findings (f : list Finding -> list Finding) : QM unit :=
  m_put (fun q => {| q_runs := q_runs q; q_findings := f (q_findings q); q_events := q_events q; q_graph := q_graph q |}).
Definition since_run (since : option Z) (r : ScanRun) : ScanRun :=
  {| rn_id := rn_id r; rn_status := rn_status r; rn_async := rn_async r; rn_incremental := rn_incremental r; rn_base := rn_base r;
     rn_since := since; rn_requested := rn_requested r; rn_window_hours := rn_window_hours r; rn_max_hops := rn_max_hops r;
     rn_threshold := rn_threshold r; rn_retry_max := rn_retry_max r; rn_backoff := rn_backoff r; rn_attempt := rn_attempt r;
     rn_claimed_by := rn_claimed_by r; rn_claimed_at := rn_claimed_at r; rn_lease := rn_lease r; rn_heartbeat := rn_heartbeat r;
     rn_started_at := rn_started_at r; rn_next_retry := rn_next_retry r; rn_last_error := rn_last_error r;
     rn_cancelled_at := rn_cancelled_at r; rn_cancel_reason := rn_cancel_reason r; rn_dead_at := rn_dead_at r;
     rn_dead_reason := rn_dead_reason r; rn_total := rn_total r; rn_flagged := rn_flagged r; rn_created_at := rn_created_at r;
     rn_completed_at := rn_completed_at r |}.
(** The scan itself: when it began to look, how many identities, how many findings. *)
Definition scan_graph (now : Z) (fault : option Exc) (r : ScanRun) : QM (option Z * Z * Z) :=
  do! since := resolve_incremental_since now r in
  do! g := m_get q_graph in
  seq! put_run (since_run since r) in
  let identities := resolve_scan_identities now r since g in
  seq! put_findings (filter (fun f => fn_scan f <> rn_id r)) in
  match fault with
  | Some ex => m_raise ex
  | None =>
      let found := omap (scan_identity now r g) identities in
      seq! put_findings (fun l => l ++ found) in
      m_ret (since, Z.of_nat (length identities), Z.of_nat (length found))
  end.

Definition exc_detail (ex : Exc) : string :=
  match ex with
  | HTTPException _ d | ValueError d | TypeError d | AttributeError d | KeyError d | LedgerConflict d => d
  | OverflowError => "overflow" | IndexError => "index" | IntegrityError => "integrity" | MultipleResultsFound => "multiple"
  end.
Definition started_run (now : Z) (runner : option string) (lease_seconds : Z) (r : ScanRun) : ScanRun :=
  edit_run RUNNING (rn_since r) (rn_attempt r + 1) (match runner with Some x => Some x | None => rn_claimed_by r end)
    (match rn_claimed_at r with Some t => Some t | None => Some now end) (Some (lease_until now lease_seconds)) (Some now) (Some now) None None
    None None (rn_total r) (rn_flagged r) (rn_completed_at r) r.
Definition failed_run (now : Z) (ex : Exc) (r : ScanRun) : ScanRun :=
  released_run FAILED (rn_since r) (rn_attempt r)
    (if rn_attempt r <? rn_retry_max r then Some (now + Z.max 1 (rn_backoff r) * rn_attempt r * SECOND) else None)
    (Some (exc_detail ex)) None (rn_total r) (rn_flagged r) None r.
Definition completed_run (now : Z) (since : option Z) (total flagged : Z) (r : ScanRun) : ScanRun :=
  released_run COMPLETED since (rn_attempt r) None None None total flagged (Some now) r.

Definition some_text (s : option string) : option string := match s with Some ""%string => None | x => x end.
(** Whether the run may start, and for which runner. *)
Definition may_start (now : Z) (runner : option string) (force require_failed : bool) (r : ScanRun) : result Exc (option string) :=
  let runner := some_text runner in
  if require_failed && negb (is_status FAILED r) then Err (ValueError "scan run is not in failed state")
  else if is_status CANCELLED r then Err (ValueError "scan run is cancelled")
  else if is_status CLAIMED r && (match runner, some_text (rn_claimed_by r) with Some x, Some y => negb (bool_decide (x = y)) | _, _ => false end)
  then Err (ValueError "scan run is claimed by another runner")
  else if is_status FAILED r && negb force && match rn_next_retry r with Some t => now <? t | None => false end
  then Err (ValueError "scan run is waiting for next retry window")
  else if is_status FAILED r && negb force && (rn_retry_max r <=? rn_attempt r) then Err (ValueError "scan run retry attempts exhausted")
  else Ok (match runner with Some x => Some x | None => if is_status CLAIMED r then some_text (rn_claimed_by r) else None end).
Definition execute_scan_run (now : Z) (fault : option Exc) (id : string) (runner : option string) (lease_seconds : Z)
    (force require_failed : bool) : QM ScanRun :=
  do! r := run_or_raise id in
  do! runner := lift (may_start now runner force require_failed r) in
  if (is_status COMPLETED r || is_status RUNNING r) && negb force then m_ret r
  else
    let r := started_run now runner lease_seconds r in
    seq! record_run now r E_EXECUTION_STARTED (rn_claimed_by r) in
    seq! m_catch
      (do! x := scan_graph now fault r in
       let '(since, total, flagged) := x in
       record_run now (completed_run now since total flagged r) E_EXECUTION_COMPLETED (rn_claimed_by r))
      (fun ex => do! cur := run_or_raise id in
                 seq! record_run now (failed_run now ex cur) E_EXECUTION_FAILED (rn_claimed_by r) in m_raise ex) in
    run_or_raise id.

(** ** Other requests *)

Record NewScan := {
  ns_async : bool; ns_incremental : bool; ns_base : option string; ns_identities : option (list string);
  ns_window_hours : Z; ns_max_hops : nat; ns_threshold : float; ns_retry_max : Z; ns_backoff : Z
}.
Definition new_run (now : Z) (id : string) (n : NewScan) : ScanRun :=
  {| rn_id := id; rn_status := PENDING; rn_async := ns_async n; rn_incremental := ns_incremental n; rn_base := ns_base n;
     rn_since := if ns_incremental n && (if some_text (ns_base n) is Some _ then false else true) then Some (now - ns_window_hours n * HOUR_US) else None;
     rn_requested := (fun l => sorted_ids (py_strip <$> filter (fun x => py_strip x <> ""%string) l)) <$> ns_identities n;
     rn_window_hours := ns_window_hours n; rn_max_hops := ns_max_hops n; rn_threshold := ns_threshold n; rn_retry_max := ns_retry_max n;
     rn_backoff := ns_backoff n; rn_attempt := 0; rn_claimed_by := None; rn_claimed_at := None; rn_lease := None; rn_heartbeat := None;
     rn_started_at := None; rn_next_retry := None; rn_last_error := None; rn_cancelled_at := None; rn_cancel_reason := None; rn_dead_at := None;
     rn_dead_reason := None; rn_total := 0; rn_flagged := 0; rn_created_at := now; rn_completed_at := None |}.
Definition insert_run (r : ScanRun) : QM unit :=
  do! runs := m_get q_runs in
  if existsb (fun x => bool_decide (rn_id x = rn_id r)) runs then m_raise IntegrityError
  else m_put (fun q => set_runs (q_runs q ++ [r]) q).
Definition DEFAULT_SCAN_LEASE_SECONDS : Z := 300.
Definition run_batch_scan (now : Z) (fault : option Exc) (id : string) (n : NewScan) : QM ScanRun :=
  let r := new_run now id n in
  seq! insert_run r in
  seq! append_scan_event now id E_CREATED None in
  if ns_async n then m_ret r
  else execute_scan_run now fault id None DEFAULT_SCAN_LEASE_SECONDS true false.

Definition heartbeat_scan_run (now : Z) (id runner : string) (lease_seconds : Z) : QM ScanRun :=
  do! r := run_or_raise id in
  if negb (is_status CLAIMED r || is_status RUNNING r) then m_raise (ValueError "scan run is not claimable for heartbeat")
  else if match some_text (rn_claimed_by r) with Some x => negb (bool_decide (x = runner)) | None => false end
  then m_raise (ValueError "scan run is claimed by another runner")
  else
    let r := edit_run (rn_status r) (rn_since r) (rn_attempt r) (Some runner) (rn_claimed_at r) (Some (lease_until now lease_seconds)) (Some now)
               (rn_started_at r) (rn_next_retry r) (rn_last_error r)
               (t ← rn_cancelled_at r; Some (t, default ""%string (rn_cancel_reason r)))
               (t ← rn_dead_at r; Some (t, default ""%string (rn_dead_reason r))) (rn_total r) (rn_flagged r) (rn_completed_at r) r in
    seq! record_run now r E_HEARTBEAT (Some runner) in m_ret r.

Definition cancel_scan_run (now : Z) (id : string) (runner reason : option string) : QM ScanRun :=
  do! r := run_or_raise id in
  if is_status COMPLETED r || is_status CANCELLED r then m_raise (ValueError "scan run is already terminal and cannot be cancelled")
  else if match some_text runner, some_text (rn_claimed_by r) with Some x, Some y => negb (bool_decide (x = y)) | _, _ => false end
  then m_raise (ValueError "scan run is claimed by another runner")
  else
    let r := edit_run CANCELLED (rn_since r) (rn_attempt r) (rn_claimed_by r) (rn_claimed_at r) None None (rn_started_at r) None (rn_last_error r)
               (Some (now, default "cancelled by operator"%string (some_text reason))) None (rn_total r) (rn_flagged r) None r in
    seq! record_run now r E_CANCELLED runner in m_ret r.

Definition recovered_run (now : Z) (r : ScanRun) : ScanRun :=
  if is_status CLAIMED r
  then edit_run PENDING (rn_since r) (rn_attempt r) None None None None (rn_started_at r) None (Some "stale claim recovered to pending"%string)
         (t ← rn_cancelled_at r; Some (t, default ""%string (rn_cancel_reason r)))
         (t ← rn_dead_at r; Some (t, default ""%string (rn_dead_reason r))) (rn_total r) (rn_flagged r) (rn_completed_at r) r
  else edit_run FAILED (rn_since r) (rn_attempt r) None None None None (rn_started_at r)
         (if rn_attempt r <? rn_retry_max r then Some now else None) (Some "worker lease expired during run execution"%string)
         (t ← rn_cancelled_at r; Some (t, default ""%string (rn_cancel_reason r)))
         (t ← rn_dead_at r; Some (t, default ""%string (rn_dead_reason r))) (rn_total r) (rn_flagged r) None r.
Fixpoint for_runs (f : ScanRun -> QM unit) (l : list ScanRun) : QM unit :=
  match l with [] => m_ret tt | r :: l => seq! f r in for_runs f l end.
Definition recover_stale_scan_runs (now limit : Z) : QM (list string) :=
  do! rows := m_get (fun q => take (page limit) (order_by by_lease
    (filter (fun r => ((is_status CLAIMED r || is_status RUNNING r) && lease_over now r) = true) (q_runs q)))) in
  seq! for_runs (fun r => let r' := recovered_run now r in record_run now r' (E_STALE_RECOVERED (rn_status r')) None) rows in
  m_ret (rn_id <$> rows).

Definition dead_run (now : Z) (reason : string) (r : ScanRun) : ScanRun :=
  edit_run DEAD_LETTER (rn_since r) (rn_attempt r) None None None None (rn_started_at r) (rn_next_retry r) (rn_last_error r)
    (t ← rn_cancelled_at r; Some (t, default ""%string (rn_cancel_reason r))) (Some (now, reason)) (rn_total r) (rn_flagged r) (rn_completed_at r) r.
Definition sweep_dead_letter_scan_runs (now limit : Z) (reason : option string) : QM (list string) :=
  do! rows := m_get (fun q => take (page limit) (order_by by_created
    (filter (fun r => (is_status FAILED r && (rn_retry_max r <=? rn_attempt r)) = true) (q_runs q)))) in
  seq! for_runs (fun r => record_run now (dead_run now (default "retry attempts exhausted"%string (some_text reason)) r) E_DEAD_LETTERED None) rows in
  m_ret (rn_id <$> rows).

Definition requeued_run (r : ScanRun) : ScanRun :=
  edit_run PENDING (rn_since r) 0 None None None None (rn_started_at r) None (Some "requeued from dead-letter"%string) None None
    (rn_total r) (rn_flagged r) None r.
Definition requeue_dead_letter_scan_run (now : Z) (id : string) : QM ScanRun :=
  do! r := run_or_raise id in
  if negb (is_status DEAD_LETTER r) then m_raise (ValueError "scan run is not in dead-letter state")
  else let r := requeued_run r in seq! record_run now r E_REQUEUED None in m_ret r.
Definition requeue_dead_letter_scan_runs (now limit : Z) : QM (list string) :=
  do! rows := m_get (fun q => take (page limit) (order_by by_death (filter (fun r => is_status DEAD_LETTER r = true) (q_runs q)))) in
  seq! for_runs (fun r => record_run now (requeued_run r) E_REQUEUED None) rows in
  m_ret (rn_id <$> rows).

Definition purge_dead_letter_scan_runs (now limit older_than_hours : Z) : QM (list string) :=
  let cutoff := now - Z.max 1 (Z.min older_than_hours (24 * 365)) * HOUR_US in
  do! rows := m_get (fun q => take (page limit) (order_by by_death
    (filter (fun r => (is_status DEAD_LETTER r && match rn_dead_at r with Some t => t <=? cutoff | None => true end) = true) (q_runs q)))) in
  let ids := rn_id <$> rows in
  seq! m_put (fun q => {| q_runs := filter (fun r => rn_id r ∉ ids) (q_runs q); q_findings := filter (fun f => fn_scan f ∉ ids) (q_findings q);
                          q_events := filter (fun e => ev_scan e ∉ ids) (q_events q); q_graph := q_graph q |}) in
  m_ret ids.

(** ** Workers *)

Inductive PullOutcome := IDLE | PULLED (id : string) | PULL_FAILED (id : string).
Definition pull_and_execute_scan_run (now : Z) (fault : option Exc) (runner : string) (lease_seconds : Z) (include_failed force : bool) : QM PullOutcome :=
  do! claimed := claim_next_scan_run now runner lease_seconds include_failed in
  match claimed with
  | None => m_ret IDLE
  | Some r =>
      m_catch (seq! execute_scan_run now fault (rn_id r) (Some runner) lease_seconds force false in m_ret (PULLED (rn_id r)))
        (fun _ => m_ret (PULL_FAILED (rn_id r)))
  end.
(** The clock and the faults of the jobs. *)
Fixpoint pull_jobs (jobs : list (Z * option Exc)) (runner : string) (lease_seconds : Z) (include_failed : bool) : QM (list PullOutcome) :=
  match jobs with
  | [] => m_ret []
  | (now, fault) :: jobs =>
      do! o := pull_and_execute_scan_run now fault runner lease_seconds include_failed false in
      match o with
      | IDLE => m_ret []
      | _ => do! l := pull_jobs jobs runner lease_seconds include_failed in m_ret (o :: l)
      end
  end.
Definition run_scan_queue_maintenance_tick (now : Z) (jobs : list (Z * option Exc)) (runner : string) (recover_limit max_claim_execute lease_seconds : Z)
    (include_failed : bool) : QM (list string * list PullOutcome) :=
  do! recovered := recover_stale_scan_runs now recover_limit in
  do! done := pull_jobs (take (Z.to_nat (Z.max 0 (Z.min max_claim_execute 100))) jobs) runner lease_seconds include_failed in
  m_ret (recovered, done).

(** ** The life of a run, told by its events *)

Definition lifecycle (s : RunStatus * Z) (t : EventType) : option (RunStatus * Z) :=
  let '(st, n) := s in
  match t, st with
  | E_CLAIMED, (PENDING | CLAIMED | FAILED) => Some (CLAIMED, n)
  | E_HEARTBEAT, (CLAIMED | RUNNING) => Some (st, n)
  | E_EXECUTION_STARTED, (PENDING | CLAIMED | RUNNING | COMPLETED | FAILED | DEAD_LETTER) => Some (RUNNING, n + 1)
  | E_EXECUTION_COMPLETED, RUNNING => Some (COMPLETED, n)
  | E_EXECUTION_FAILED, RUNNING => Some (FAILED, n)
  | E_CANCELLED, (PENDING | CLAIMED | RUNNING | FAILED | DEAD_LETTER) => Some (CANCELLED, n)
  | E_STALE_RECOVERED PENDING, CLAIMED => Some (PENDING, n)
  | E_STALE_RECOVERED FAILED, RUNNING => Some (FAILED, n)
  | E_DEAD_LETTERED, FAILED => Some (DEAD_LETTER, n)
  | E_REQUEUED, DEAD_LETTER => Some (PENDING, 0)
  | _, _ => None
  end.
Definition replay (l : list EventType) : option (RunStatus * Z) :=
  match l with
  | E_CREATED :: l => fold_left (fun s t => s ≫= fun x => lifecycle x t) l (Some (PENDING, 0))
  | _ => None
  end.
Lemma replay_snoc l s t : replay l = Some s -> replay (l ++ [t]) = lifecycle s t.
Proof. destruct l as [|[] l]; try done. cbn. intros H. by rewrite fold_left_app, H. Qed.

(** What a row says about itself. *)
Definition run_ok (r : ScanRun) : Prop :=
  0 <= rn_attempt r /\
  (is_Some (rn_cancelled_at r) <-> rn_status r = CANCELLED) /\ (is_Some (rn_dead_at r) <-> rn_status r = DEAD_LETTER) /\
  (rn_status r = COMPLETED -> is_Some (rn_completed_at r)) /\ (is_Some (rn_completed_at r) -> rn_status r = COMPLETED \/ rn_status r = RUNNING) /\
  match rn_status r with
  | CLAIMED => is_Some (rn_claimed_by r) /\ is_Some (rn_lease r) /\ (rn_attempt r = 0 \/ rn_attempt r < rn_retry_max r)
  | RUNNING => is_Some (rn_lease r)
  | CANCELLED => rn_lease r = None
  | PENDING => rn_claimed_by r = None /\ rn_lease r = None /\ (rn_attempt r = 0 \/ rn_attempt r < rn_retry_max r)
  | FAILED => rn_claimed_by r = None /\ rn_lease r = None /\ (is_Some (rn_next_retry r) <-> rn_attempt r < rn_retry_max r)
  | COMPLETED | DEAD_LETTER => rn_claimed_by r = None /\ rn_lease r = None
  end.
Definition events_of (id : string) (q : Queue) : list EventType := ev_type <$> filter (fun e => ev_scan e = id) (q_events q).
Definition findings_of (id : string) (q : Queue) : list Finding := filter (fun f => fn_scan f = id) (q_findings q).
Record queue_ok (q : Queue) : Prop := {
  qo_ids : NoDup (rn_id <$> q_runs q);
  qo_rows : forall r, r ∈ q_runs q -> run_ok r;
  qo_history : forall r, r ∈ q_runs q -> replay (events_of (rn_id r) q) = Some (rn_status r, rn_attempt r);
  qo_counts : forall r, r ∈ q_runs q -> rn_status r = COMPLETED -> rn_flagged r = Z.of_nat (length (findings_of (rn_id r) q));
  qo_events : forall e, e ∈ q_events q -> ev_scan e ∈ rn_id <$> q_runs q;
  qo_findings : forall f, f ∈ q_findings q -> fn_scan f ∈ rn_id <$> q_runs q
}.

(** *** Rows by their key *)

Definition upd (r' : ScanRun) (l : list ScanRun) : list ScanRun := (fun x => if decide (rn_id x = rn_id r') then r' else x) <$> l.
Lemma upd_ids r' l : rn_id <$> upd r' l = rn_id <$> l.
Proof. unfold upd. rewrite <-list_fmap_compose. apply list_fmap_ext. intros _ x _. cbn. by case_decide. Qed.
Lemma upd_elem r' l x : x ∈ upd r' l <-> (x = r' /\ rn_id r' ∈ rn_id <$> l) \/ (x ∈ l /\ rn_id x <> rn_id r').
Proof.
  unfold upd. rewrite list_elem_of_fmap. split.
  - intros (y & -> & Hy). case_decide as E; [|by right]. left. split; [done|]. rewrite <-E. by apply list_elem_of_fmap_2.
  - intros [[-> Hin]|[Hx Hne]]; [|exists x; split; [by rewrite decide_False|done]].
    apply list_elem_of_fmap in Hin as (y & E & Hy). exists y. split; [by rewrite decide_True|done].
Qed.
Lemma same_id l x y : NoDup (rn_id <$> l) -> x ∈ l -> y ∈ l -> rn_id x = rn_id y -> x = y.
Proof.
  induction l as [|z l IH]; intros Hd Hx Hy E; [by apply not_elem_of_nil in Hx|]. cbn in Hd. apply NoDup_cons in Hd as [Hn Hd].
  apply elem_of_cons in Hx as [->|Hx], Hy as [->|Hy]; [done| | |by apply IH].
  - exfalso. apply Hn. rewrite E. by apply list_elem_of_fmap_2.
  - exfalso. apply Hn. rewrite <-E. by apply list_elem_of_fmap_2.
Qed.
Lemma get_run_spec id q r q' : get_run id q = (Ok (Some r), q') -> q' = q /\ r ∈ q_runs q /\ rn_id r = id.
Proof.
  unfold get_run, m_get. intros [= H <-]. split; [done|]. assert (Hr : r ∈ filter (fun r => rn_id r = id) (q_runs q)).
  { destruct (filter _ _); [done|]. cbn in H. injection H as ->. left. }
  apply list_elem_of_filter in Hr. tauto.
Qed.

Definition recorded (now : Z) (r' : ScanRun) (t : EventType) (runner : option string) (q : Queue) : Queue :=
  {| q_runs := upd r' (q_runs q); q_findings := q_findings q; q_graph := q_graph q;
     q_events := q_events q ++ [{| ev_scan := rn_id r'; ev_type := t; ev_runner := runner; ev_at := now |}] |}.
Lemma record_run_eq now r' t runner q : record_run now r' t runner q = (Ok tt, recorded now r' t runner q).
Proof. done. Qed.
Lemma events_of_recorded now r' t runner q id :
  events_of id (recorded now r' t runner q) = events_of id q ++ (if decide (rn_id r' = id) then [t] else []).
Proof.
  unfold events_of, recorded. cbn. rewrite filter_app, fmap_app. f_equal. rewrite filter_cons, filter_nil. cbn. by repeat case_decide.
Qed.
Lemma recorded_has now r r' t runner q : r ∈ q_runs q -> rn_id r' = rn_id r -> r' ∈ q_runs (recorded now r' t runner q).
Proof. intros Hr E. apply upd_elem. left. split; [done|]. rewrite E. by apply list_elem_of_fmap_2. Qed.

Lemma recorded_ok now r r' t runner q : queue_ok q -> r ∈ q_runs q -> rn_id r' = rn_id r ->
  lifecycle (rn_status r, rn_attempt r) t = Some (rn_status r', rn_attempt r') -> run_ok r' ->
  (rn_status r' = COMPLETED -> rn_flagged r' = Z.of_nat (length (findings_of (rn_id r) q))) ->
  queue_ok (recorded now r' t runner q).
Proof.
  intros [H1 H2 H3 H4 H5 H6] Hr E Hl Hok Hc. constructor.
  - cbn. by rewrite upd_ids.
  - intros x Hx. apply upd_elem in Hx as [[-> _]|[Hx _]]; [done|by apply H2].
  - intros x Hx. rewrite events_of_recorded. apply upd_elem in Hx as [[-> _]|[Hx Hne]].
    + rewrite decide_True by done. rewrite E, (replay_snoc _ _ _ (H3 r Hr)). exact Hl.
    + rewrite decide_False, app_nil_r by congruence. by apply H3.
  - intros x Hx Hs. apply upd_elem in Hx as [[-> _]|[Hx Hne]]; [|by apply H4]. rewrite (Hc Hs). by rewrite E.
  - cbn. rewrite upd_ids. intros ev Hev. apply elem_of_app in Hev as [Hev|Hev]; [by apply H5|]. apply list_elem_of_singleton in Hev as ->. cbn.
    rewrite E. by apply list_elem_of_fmap_2.
  - cbn. rewrite upd_ids. apply H6.
Qed.
(** Columns that say nothing about the life of a run. *)
Lemma put_run_ok r r' q : queue_ok q -> r ∈ q_runs q -> rn_id r' = rn_id r -> rn_status r' = rn_status r -> rn_attempt r' = rn_attempt r ->
  rn_flagged r' = rn_flagged r -> run_ok r' -> queue_ok (exec (put_run r') q).
Proof.
  intros [H1 H2 H3 H4 H5 H6] Hr E Es Ea Ef Hok. change (exec (put_run r') q) with (set_runs (upd r' (q_runs q)) q).
  constructor; cbn [set_runs q_runs q_events q_findings].
  - by rewrite upd_ids.
  - intros x Hx. apply upd_elem in Hx as [[-> _]|[Hx _]]; [done|by apply H2].
  - intros x Hx. apply upd_elem in Hx as [[-> _]|[Hx _]]; [|by apply H3]. rewrite E, Es, Ea. by apply H3.
  - intros x Hx Hs. apply upd_elem in Hx as [[-> _]|[Hx _]]; [|by apply H4]. rewrite Ef, E. apply H4; [done|congruence].
  - rewrite upd_ids. apply H5.
  - rewrite upd_ids. apply H6.
Qed.
Lemma put_findings_ok r f q : queue_ok q -> r ∈ q_runs q -> rn_status r <> COMPLETED ->
  (forall id, id <> rn_id r -> filter (fun x => fn_scan x = id) (f (q_findings q)) = findings_of id q) ->
  (forall x, x ∈ f (q_findings q) -> x ∈ q_findings q \/ fn_scan x = rn_id r) -> queue_ok (exec (put_findings f) q).
Proof.
  intros [H1 H2 H3 H4 H5 H6] Hr Hs Ho Hin. constructor; cbn; [done|done|done| |done|].
  - intros x Hx Hc. assert (Hne : rn_id x <> rn_id r) by (intros E; apply Hs; by rewrite <-(same_id _ _ _ H1 Hx Hr E)).
    unfold findings_of. cbn. rewrite (Ho _ Hne). by apply H4.
  - intros x Hx. destruct (Hin x Hx) as [Hx'| ->]; [by apply H6|by apply list_elem_of_fmap_2].
Qed.

Lemma resolve_since_reads now r q : exec (resolve_incremental_since now r) q = q.
Proof.
  unfold exec, resolve_incremental_since. destruct (negb _); [done|]. destruct (rn_base r) as [b|]; [|done]. case_decide; [done|].
  unfold m_bind, get_run, m_get. by destruct (head _).
Qed.

Lemma drop_own id (l : list Finding) other : other <> id ->
  filter (fun x => fn_scan x = other) (filter (fun f => fn_scan f <> id) l) = filter (fun x => fn_scan x = other) l.
Proof.
  intros Hne. induction l as [|x l IH]; [done|]. rewrite (filter_cons (fun f => fn_scan f <> id)). case_decide as E.
  - rewrite !(filter_cons (fun x => fn_scan x = other)). case_decide; by rewrite IH.
  - rewrite IH, filter_cons, decide_False; [done|]. intros E'. congruence.
Qed.
Lemma own_dropped id (l : list Finding) : filter (fun x => fn_scan x = id) (filter (fun f => fn_scan f <> id) l) = [].
Proof. induction l as [|x l IH]; [done|]. rewrite filter_cons. case_decide; [|done]. by rewrite filter_cons, decide_False. Qed.
Lemma found_own now r g (ids : list string) x : x ∈ omap (scan_identity now r g) ids -> fn_scan x = rn_id r.
Proof. intros H. apply list_elem_of_omap in H as (i & _ & H). unfold scan_identity in H. destruct (_ || _); [|done]. by injection H as <-. Qed.

Lemma since_run_ok since r : run_ok r -> run_ok (since_run since r).
Proof. done. Qed.
(** A scan of a running run leaves it running; when it succeeds it has counted its findings. *)
Lemma scan_graph_ok now fault r q : queue_ok q -> r ∈ q_runs q -> rn_status r = RUNNING ->
  match scan_graph now fault r q with
  | (Ok (since, _, flagged), q') => queue_ok q' /\ since_run since r ∈ q_runs q' /\ flagged = Z.of_nat (length (findings_of (rn_id r) q'))
  | (Err _, q') => queue_ok q' /\ exists since, since_run since r ∈ q_runs q'
  end.
Proof.
  intros Hq Hr Hs. unfold scan_graph. unfold m_bind at 1. pose proof (resolve_since_reads now r q) as Hread. unfold exec in Hread.
  destruct (resolve_incremental_since now r q) as [[since|ex] q0]; cbn in Hread; subst q0.
  2: { split; [done|]. exists (rn_since r). by destruct r. }
  unfold m_bind at 1, m_get at 1. cbv beta iota. unfold m_bind at 1, put_run at 1, m_put at 1. cbv beta iota. set (q1 := set_runs _ q).
  assert (H1 : queue_ok q1) by (apply (put_run_ok r (since_run since r) q); try done; apply since_run_ok, (qo_rows q Hq r Hr)).
  assert (Hr1 : since_run since r ∈ q_runs q1).
  { apply (upd_elem (since_run since r)). left. split; [done|]. change (rn_id r ∈ rn_id <$> q_runs q). by apply list_elem_of_fmap_2. }
  unfold m_bind at 1, put_findings at 1, m_put at 1. cbv beta iota.
  match goal with |- context [match fault with Some _ => _ | None => _ end ?q] => set (q2 := q) end.
  assert (H2 : queue_ok q2).
  { apply (put_findings_ok (since_run since r) (filter (fun f => fn_scan f <> rn_id r)) q1); [done|done|cbn; by rewrite Hs| |].
    - intros id Hid. by apply drop_own.
    - intros x Hx. left. by apply list_elem_of_filter in Hx as [_ Hx]. }
  destruct fault as [ex|]; [split; [done|by exists since]|].
  unfold m_bind at 1, put_findings at 1, m_put at 1. cbv beta iota. cbn [m_ret].
  set (found := omap _ _). split_and!; [|done|].
  - apply (put_findings_ok (since_run since r) (fun l => l ++ found) q2); [done|done|cbn; by rewrite Hs| |].
    + intros id Hid. unfold findings_of. cbn. rewrite filter_app, (filter_none _ found), app_nil_r; [done|].
      intros x Hx E. apply Hid. rewrite <-E. by eapply found_own.
    + intros x Hx. apply elem_of_app in Hx as [Hx|Hx]; [by left|right]. by eapply found_own.
  - unfold findings_of. cbn. rewrite filter_app, own_dropped, (filter_all _ found); [done|]. intros x Hx. by eapply found_own.
Qed.

(** *** Rows the requests write *)

Lemma is_status_true s r : is_status s r = true <-> rn_status r = s.
Proof. unfold is_status. by rewrite bool_decide_eq_true. Qed.
Ltac row_ok :=
  repeat match goal with |- _ /\ _ => split end;
  try first [done | lia | by eexists | by left | by right | by intros [? [=]] | by split; [intros [? [=]]|] | by split; [|eexists]].
Lemma not_completed r : run_ok r -> rn_status r <> COMPLETED -> rn_status r <> RUNNING -> rn_completed_at r = None.
Proof. intros (_ & _ & _ & _ & H & _) H1 H2. destruct (rn_completed_at r); [|done]. destruct H; [by eexists|done|done]. Qed.

Lemma claimed_ok now runner lease r : run_ok r -> rn_status r = PENDING \/ rn_status r = CLAIMED \/ rn_status r = FAILED /\ rn_attempt r < rn_retry_max r ->
  run_ok (claimed_run now runner lease r).
Proof.
  intros H Hs. assert (Hn : rn_completed_at r = None) by (apply not_completed; [done|..]; intros E; rewrite E in Hs; naive_solver).
  destruct H as (Ha & _ & _ & _ & _ & Hm). unfold run_ok. cbn. rewrite Hn. row_ok.
  destruct Hs as [E|[E|[E Hlt]]]; rewrite E in Hm; naive_solver.
Qed.
Lemma started_ok now runner lease r : run_ok r -> rn_status r <> CANCELLED -> run_ok (started_run now runner lease r).
Proof. intros (Ha & _) Hs. unfold run_ok. cbn. row_ok. Qed.
Lemma failed_ok now ex r : run_ok r -> run_ok (failed_run now ex r).
Proof.
  intros (Ha & _). unfold run_ok. cbn. row_ok.
  destruct (Z.ltb_spec (rn_attempt r) (rn_retry_max r)); [split; [done|by eexists]|]. split; [by intros [? [=]]|lia].
Qed.
Lemma completed_ok now since total flagged r : run_ok r -> run_ok (completed_run now since total flagged r).
Proof. intros (Ha & _). unfold run_ok. cbn. row_ok. Qed.
Lemma requeued_ok r : run_ok (requeued_run r).
Proof. unfold run_ok. cbn. row_ok. Qed.
Lemma new_run_ok now id n : run_ok (new_run now id n).
Proof. unfold run_ok. cbn. row_ok. Qed.
Lemma kept_pair (a : option Z) (b : option string) : is_Some (fst <$> (t ← a; Some (t, default ""%string b))) <-> is_Some a.
Proof. destruct a; cbn; split; intros [? H]; by eexists. Qed.
Lemma recovered_ok now r : run_ok r -> rn_status r = CLAIMED \/ rn_status r = RUNNING -> run_ok (recovered_run now r).
Proof.
  intros (Ha & Hc & Hd & _ & Hg & Hm) Hs. assert (H1 : ~ is_Some (rn_cancelled_at r)) by (rewrite Hc; intros E; rewrite E in Hs; naive_solver).
  assert (H2 : ~ is_Some (rn_dead_at r)) by (rewrite Hd; intros E; rewrite E in Hs; naive_solver).
  unfold run_ok, recovered_run. destruct (is_status CLAIMED r) eqn:Es; cbn; rewrite !kept_pair.
  - apply is_status_true in Es. rewrite Es in Hm, Hg. row_ok; try naive_solver.
  - row_ok. destruct (Z.ltb_spec (rn_attempt r) (rn_retry_max r)); [split; [done|by eexists]|]. split; [by intros [? [=]]|lia].
Qed.
Lemma dead_ok now reason r : run_ok r -> rn_status r = FAILED -> run_ok (dead_run now reason r).
Proof.
  intros H Hs. assert (Hn : rn_completed_at r = None) by (apply not_completed; [done|by rewrite Hs..]).
  destruct H as (Ha & Hc & _). unfold run_ok. cbn. rewrite kept_pair, Hc, Hs, Hn. row_ok.
Qed.

(** *** Claiming and executing *)

Lemma pick_run_spec now incl runs r : pick_run now incl runs = Some r ->
  r ∈ runs /\ (rn_status r = PENDING \/ rn_status r = CLAIMED \/ rn_status r = FAILED /\ rn_attempt r < rn_retry_max r).
Proof.
  assert (Hf : forall lt l x, first_by lt l = Some x -> x ∈ (l : list ScanRun)).
  { intros lt l x. unfold first_by. assert (Hg : forall m b, (fold_left (fun best x => match best with Some b => if lt x b then Some x else best | None => Some x end) m b) = Some x -> b = Some x \/ x ∈ m).
    { induction m as [|y m IH]; intros b Hx; [by left|]. cbn in Hx. destruct (IH _ Hx) as [Hb|]; [|by right; right].
      destruct b as [b|]; [destruct (lt y b); [|by left]|]; injection Hb as ->; right; left. }
    intros Hx. by destruct (Hg _ _ Hx). }
  unfold pick_run. intros H. destruct (first_by by_created _) as [a|] eqn:E1.
  { injection H as ->. apply Hf, list_elem_of_filter in E1 as [Hs Hr]. apply is_status_true in Hs. auto. }
  destruct (first_by by_lease _) as [a|] eqn:E2.
  { injection H as ->. apply Hf, list_elem_of_filter in E2 as [Hs Hr]. apply andb_true_iff in Hs as [Hs _]. apply is_status_true in Hs. auto. }
  destruct incl; [|done]. destruct (first_by by_retry _) as [a|] eqn:E3; [|done].
  destruct (match rn_next_retry a with Some _ => _ | None => _ end); [done|]. injection H as ->.
  apply Hf, list_elem_of_filter in E3 as [Hs Hr]. apply andb_true_iff in Hs as [Hs Hl]. apply is_status_true in Hs. apply Z.ltb_lt in Hl. auto.
Qed.

Lemma claim_ok now runner lease incl q : queue_ok q ->
  queue_ok (exec (claim_next_scan_run now runner lease incl) q).
Proof.
  intros Hq. unfold exec, claim_next_scan_run, m_bind at 1, m_get. destruct (pick_run now incl (q_runs q)) as [r|] eqn:E; [|done].
  apply pick_run_spec in E as [Hr Hs]. unfold m_bind. rewrite record_run_eq. cbn.
  apply (recorded_ok now r); [done|done|done| |apply claimed_ok; [by apply (qo_rows q Hq)|done]|done].
  cbn. destruct Hs as [E|[E|[E _]]]; by rewrite E.
Qed.

Lemma run_or_raise_reads id q : exec (run_or_raise id) q = q.
Proof. unfold exec, run_or_raise, m_bind, get_run, m_get. by destruct (head _). Qed.
Lemma run_or_raise_ok id q r q' : run_or_raise id q = (Ok r, q') -> q' = q /\ r ∈ q_runs q /\ rn_id r = id.
Proof.
  intros H. unfold run_or_raise in H. apply m_bind_ok in H as (o & q1 & Hg & H). destruct o as [x|]; [|done]. injection H as <- <-.
  by apply get_run_spec in Hg.
Qed.

Lemma may_start_status now runner force require r x : may_start now runner force require r = Ok x -> rn_status r <> CANCELLED.
Proof.
  unfold may_start. destruct (_ && _); [done|]. destruct (is_status CANCELLED r) eqn:E; [done|]. intros _ Hs. apply is_status_true in Hs. congruence.
Qed.

Lemma execute_ok now fault id runner lease force require q : queue_ok q ->
  queue_ok (exec (execute_scan_run now fault id runner lease force require) q).
Proof.
  intros Hq. unfold exec, execute_scan_run. unfold m_bind at 1. destruct (run_or_raise id q) as [[r|ex] q0] eqn:Hg.
  2: { pose proof (run_or_raise_reads id q) as Hx. unfold exec in Hx. rewrite Hg in Hx. cbn in Hx. by subst. }
  apply run_or_raise_ok in Hg as (-> & Hr & <-). unfold m_bind at 1, lift. destruct (may_start _ _ _ _ r) as [x|ex] eqn:Hm; [|done].
  apply may_start_status in Hm. destruct (_ && _); [done|]. set (r1 := started_run now x lease r).
  assert (H1 : queue_ok (recorded now r1 E_EXECUTION_STARTED (rn_claimed_by r1) q)).
  { apply (recorded_ok now r); [done|done|done| |apply started_ok; [by apply (qo_rows q Hq)|done]|done]. cbn. by destruct (rn_status r). }
  assert (Hr1 : r1 ∈ q_runs (recorded now r1 E_EXECUTION_STARTED (rn_claimed_by r1) q)) by by apply (recorded_has _ r).
  unfold m_bind at 1. rewrite record_run_eq. set (q1 := recorded now r1 _ _ q) in *. clearbody q1.
  unfold m_bind at 1. unfold m_catch. unfold m_bind at 1. pose proof (scan_graph_ok now fault r1 q1 H1 Hr1 eq_refl) as Hscan.
  destruct (scan_graph now fault r1 q1) as [[[[since total] flagged]|ex] q2].
  - destruct Hscan as (H2 & Hr2 & Hfl). rewrite record_run_eq. cbn [fst snd].
    assert (H3 : queue_ok (recorded now (completed_run now since total flagged r1) E_EXECUTION_COMPLETED (rn_claimed_by r1) q2)).
    { apply (recorded_ok now (since_run since r1)); [done|done|done|done|apply completed_ok, (qo_rows q1 H1 r1 Hr1)|done]. }
    pose proof (run_or_raise_reads (rn_id r) (recorded now (completed_run now since total flagged r1) E_EXECUTION_COMPLETED (rn_claimed_by r1) q2)) as Hx.
    unfold exec in Hx. by rewrite Hx.
  - destruct Hscan as (H2 & since & Hr2). unfold m_bind at 1. destruct (run_or_raise (rn_id r) q2) as [[cur|ex'] q3] eqn:Hg; cbn [fst snd].
    + apply run_or_raise_ok in Hg as (-> & Hcur & Hid). unfold m_bind. rewrite record_run_eq. cbn [fst snd m_raise].
      assert (cur = since_run since r1) as -> by (apply (same_id (q_runs q2)); [apply H2|done..]).
      apply (recorded_ok now (since_run since r1)); [done|done|done|done| |done]. apply failed_ok, (qo_rows q2 H2 _ Hr2).
    + pose proof (run_or_raise_reads (rn_id r) q2) as Hx. unfold exec in Hx. rewrite Hg in Hx. cbn in Hx. by subst.
Qed.

(** *** The other requests *)

Lemma insert_by_perm {A} lt (x : A) l : insert_by lt x l ≡ₚ x :: l.
Proof. induction l as [|y l IH]; [done|]. cbn. destruct (lt y x); [|done]. rewrite IH. apply Permutation_swap. Qed.
Lemma order_by_perm {A} lt (l : list A) : order_by lt l ≡ₚ l.
Proof. induction l as [|x l IH]; [done|]. cbn. by rewrite insert_by_perm, IH. Qed.
Lemma ids_filter (P : ScanRun -> Prop) `{!forall r, Decision (P r)} runs : NoDup (rn_id <$> runs) -> NoDup (rn_id <$> filter P runs).
Proof.
  induction runs as [|r runs IH]; intros Hd; [apply NoDup_nil_2|]. cbn in Hd. apply NoDup_cons in Hd as [Hn Hd].
  rewrite filter_cons. case_decide; [|by apply IH]. cbn. apply NoDup_cons. split; [|by apply IH].
  intros Hin. apply Hn. apply list_elem_of_fmap in Hin as (x & -> & Hx). apply list_elem_of_filter in Hx as [_ Hx]. by apply list_elem_of_fmap_2.
Qed.
(** A page of selected rows. *)
Lemma page_rows n lt (P : ScanRun -> bool) runs : NoDup (rn_id <$> runs) ->
  let rows := take n (order_by lt (filter (fun r => P r = true) runs)) in
  NoDup (rn_id <$> rows) /\ forall r, r ∈ rows -> r ∈ runs /\ P r = true.
Proof.
  intros Hd rows. split.
  - unfold rows. apply (NoDup_app (rn_id <$> take n (order_by lt (filter (fun r => P r = true) runs))) (rn_id <$> drop n (order_by lt (filter (fun r => P r = true) runs)))).
    rewrite <-fmap_app, take_drop, order_by_perm. by apply ids_filter.
  - intros r Hr. assert (Hr' : r ∈ order_by lt (filter (fun r => P r = true) runs)).
    { rewrite <-(take_drop n). apply elem_of_app. by left. }
    rewrite order_by_perm in Hr'. apply list_elem_of_filter in Hr'. tauto.
Qed.

Definition moves_to (g : ScanRun -> ScanRun) (t : ScanRun -> EventType) (r : ScanRun) : Prop :=
  rn_id (g r) = rn_id r /\ lifecycle (rn_status r, rn_attempt r) (t r) = Some (rn_status (g r), rn_attempt (g r)) /\
  run_ok (g r) /\ rn_status (g r) <> COMPLETED.
Lemma for_runs_ok now g t rows q : queue_ok q -> NoDup (rn_id <$> rows) -> (forall r, r ∈ rows -> r ∈ q_runs q /\ moves_to g t r) ->
  queue_ok (exec (for_runs (fun r => record_run now (g r) (t r) None) rows) q).
Proof.
  revert q. induction rows as [|r rows IH]; intros q Hq Hd Hr; [done|]. cbn in Hd. apply NoDup_cons in Hd as [Hn Hd].
  unfold exec. cbn [for_runs]. unfold m_bind. rewrite record_run_eq. destruct (Hr r) as (Hin & Hid & Hl & Hok & Hs); [left|].
  apply IH; [by apply (recorded_ok now r)|done|]. intros x Hx. destruct (Hr x) as [Hx' Hm]; [by right|]. split; [|done].
  apply upd_elem. right. split; [done|]. rewrite Hid. intros E. apply Hn. rewrite <-E. by apply list_elem_of_fmap_2.
Qed.
Lemma page_ok now n lt P g t q : queue_ok q ->
  (forall r, r ∈ q_runs q -> P r = true -> moves_to g t r) ->
  queue_ok (exec (do! rows := m_get (fun q => take n (order_by lt (filter (fun r => P r = true) (q_runs q)))) in
                  seq! for_runs (fun r => record_run now (g r) (t r) None) rows in m_ret (rn_id <$> rows)) q).
Proof.
  intros Hq Hm. unfold exec, m_bind at 1, m_get. destruct (page_rows n lt P (q_runs q) (qo_ids q Hq)) as [Hd Hr].
  set (rows := take n _) in *. pose proof (for_runs_ok now g t rows q Hq Hd) as H. unfold exec in H. unfold m_bind.
  destruct (for_runs _ rows q) as [[[]|ex] q']; apply H; intros r Hin; destruct (Hr r Hin); auto.
Qed.

Lemma recover_ok now limit q : queue_ok q -> queue_ok (exec (recover_stale_scan_runs now limit) q).
Proof.
  intros Hq. apply (page_ok now _ _ (fun r => (is_status CLAIMED r || is_status RUNNING r) && lease_over now r)
                      (recovered_run now) (fun r => E_STALE_RECOVERED (rn_status (recovered_run now r)))); [done|].
  intros r Hr Hp. apply andb_true_iff in Hp as [Hp _]. apply orb_true_iff in Hp.
  assert (Hs : rn_status r = CLAIMED \/ rn_status r = RUNNING) by (destruct Hp as [Hp|Hp]; apply is_status_true in Hp; auto).
  unfold moves_to. pose proof (recovered_ok now r (qo_rows q Hq r Hr) Hs) as Hok. revert Hok.
  unfold recovered_run. destruct (is_status CLAIMED r) eqn:Es; intros Hok; cbn.
  - apply is_status_true in Es. by rewrite Es.
  - destruct Hs as [Hs|Hs]; [apply is_status_true in Hs; congruence|]. by rewrite Hs.
Qed.
Lemma sweep_ok now limit reason q : queue_ok q -> queue_ok (exec (sweep_dead_letter_scan_runs now limit reason) q).
Proof.
  intros Hq. apply (page_ok now _ _ (fun r => is_status FAILED r && (rn_retry_max r <=? rn_attempt r))); [done|].
  intros r Hr Hp. apply andb_true_iff in Hp as [Hp _]. apply is_status_true in Hp. unfold moves_to. cbn. rewrite Hp.
  split_and!; try done. apply dead_ok; [by apply (qo_rows q Hq)|done].
Qed.
Lemma requeue_all_ok now limit q : queue_ok q -> queue_ok (exec (requeue_dead_letter_scan_runs now limit) q).
Proof.
  intros Hq. apply (page_ok now _ _ (is_status DEAD_LETTER)); [done|]. intros r Hr Hp. apply is_status_true in Hp.
  unfold moves_to. cbn. rewrite Hp. split_and!; try done. apply requeued_ok.
Qed.

Lemma record_then {A} now r' t runner (x : A) q : exec (seq! record_run now r' t runner in m_ret x) q = recorded now r' t runner q.
Proof. done. Qed.
(** One row is read and rewritten. *)
Lemma one_row_ok {A} id (k : ScanRun -> QM A) q : queue_ok q ->
  (forall r, r ∈ q_runs q -> queue_ok (exec (k r) q)) -> queue_ok (exec (do! r := run_or_raise id in k r) q).
Proof.
  intros Hq Hk. unfold exec, m_bind. destruct (run_or_raise id q) as [[r|ex] q0] eqn:Hg.
  - apply run_or_raise_ok in Hg as (-> & Hr & _). by apply Hk.
  - pose proof (run_or_raise_reads id q) as Hx. unfold exec in Hx. rewrite Hg in Hx. cbn in Hx. by subst.
Qed.
Lemma requeue_ok now id q : queue_ok q -> queue_ok (exec (requeue_dead_letter_scan_run now id) q).
Proof.
  intros Hq. apply one_row_ok; [done|]. intros r Hr. destruct (negb _) eqn:E; [done|]. apply negb_false_iff, is_status_true in E.
  rewrite record_then. apply (recorded_ok now r); [done|done|done|cbn; by rewrite E|apply requeued_ok|done].
Qed.
Lemma heartbeat_ok now id runner lease q : queue_ok q -> queue_ok (exec (heartbeat_scan_run now id runner lease) q).
Proof.
  intros Hq. apply one_row_ok; [done|]. intros r Hr. destruct (negb _) eqn:E; [done|].
  destruct (match some_text (rn_claimed_by r) with Some _ => _ | None => _ end); [done|]. apply negb_false_iff, orb_true_iff in E.
  pose proof (qo_rows q Hq r Hr) as Hok. rewrite record_then. apply (recorded_ok now r); [done|done|done| | |].
  - cbn. destruct E as [E|E]; apply is_status_true in E; by rewrite E.
  - destruct Hok as (Ha & Hc & Hd & Hf & Hg & Hm). unfold run_ok. cbn. rewrite !kept_pair.
    destruct E as [E|E]; apply is_status_true in E; rewrite E in *; row_ok; naive_solver.
  - cbn. intros Hs. destruct E as [E|E]; apply is_status_true in E; congruence.
Qed.
Lemma cancel_ok now id runner reason q : queue_ok q -> queue_ok (exec (cancel_scan_run now id runner reason) q).
Proof.
  intros Hq. apply one_row_ok; [done|]. intros r Hr. destruct (_ || _) eqn:E; [done|].
  destruct (match some_text runner with Some _ => _ | None => _ end); [done|]. apply orb_false_iff in E as [E1 E2].
  rewrite record_then. apply (recorded_ok now r); [done|done|done| | |done].
  - cbn. unfold is_status in *. apply bool_decide_eq_false in E1, E2. by destruct (rn_status r).
  - destruct (qo_rows q Hq r Hr) as (Ha & _). unfold run_ok. cbn. row_ok.
Qed.

Lemma new_scan_ok now fault id n q : queue_ok q -> queue_ok (exec (run_batch_scan now fault id n) q).
Proof.
  intros Hq. unfold exec, run_batch_scan, m_bind at 1, insert_run, m_bind at 1, m_get. destruct (existsb _ (q_runs q)) eqn:Ex; [done|].
  assert (Hnew : id ∉ rn_id <$> q_runs q).
  { intros Hin. apply list_elem_of_fmap in Hin as (x & Hx & Hin). apply list_elem_of_In in Hin.
    assert (existsb (fun x => bool_decide (rn_id x = rn_id (new_run now id n))) (q_runs q) = true); [|congruence].
    apply existsb_exists. exists x. split; [done|]. apply bool_decide_eq_true. by cbn. }
  cbn [m_put]. unfold m_bind at 1, append_scan_event, m_put at 1. cbv beta iota.
  match goal with |- queue_ok (snd (_ ?x)) => set (q1 := x) end.
  assert (H1 : queue_ok q1).
  { destruct Hq as [A1 A2 A3 A4 A5 A6].
    assert (He : forall x, events_of x q1 = events_of x q ++ (if decide (id = x) then [E_CREATED] else [])).
    { intros x. unfold events_of, q1. cbn. rewrite filter_app, fmap_app. f_equal. rewrite filter_cons, filter_nil. cbn. by repeat case_decide. }
    assert (Ho : forall x, x ∈ q_runs q -> id <> rn_id x) by (intros x Hx ->; by apply Hnew, list_elem_of_fmap_2).
    constructor.
    - cbn. rewrite fmap_app. by apply NoDup_snoc.
    - intros x Hx. apply elem_of_app in Hx as [Hx|Hx]; [by apply A2|]. apply list_elem_of_singleton in Hx as ->. apply new_run_ok.
    - intros x Hx. rewrite He. apply elem_of_app in Hx as [Hx|Hx]; [rewrite decide_False, app_nil_r by (by apply Ho); by apply A3|].
      apply list_elem_of_singleton in Hx as ->. cbn [rn_id new_run]. rewrite decide_True by done. unfold events_of. rewrite (filter_none _ (q_events q)); [done|].
      intros ev Hev E. apply Hnew. rewrite <-E. by apply A5.
    - intros x Hx Hs. apply elem_of_app in Hx as [Hx|Hx]; [by apply A4|]. apply list_elem_of_singleton in Hx as ->. done.
    - intros ev Hev. cbn. rewrite fmap_app. apply elem_of_app. apply elem_of_app in Hev as [Hev|Hev]; [left; by apply A5|right].
      apply list_elem_of_singleton in Hev as ->. left.
    - intros f Hf. cbn. rewrite fmap_app. apply elem_of_app. left. by apply A6. }
  destruct (ns_async n); [done|]. by apply execute_ok.
Qed.

Lemma purge_ok now limit hours q : queue_ok q -> queue_ok (exec (purge_dead_letter_scan_runs now limit hours) q).
Proof.
  intros [H1 H2 H3 H4 H5 H6]. unfold exec, purge_dead_letter_scan_runs, m_bind, m_get, m_put. cbn.
  set (ids := rn_id <$> _). constructor; cbn.
  - by apply ids_filter.
  - intros r Hr. apply list_elem_of_filter in Hr as [_ Hr]. by apply H2.
  - intros r Hr. apply list_elem_of_filter in Hr as [Hi Hr]. rewrite <-(H3 r Hr). f_equal. unfold events_of. cbn. f_equal.
    rewrite list_filter_filter. apply list_filter_iff. intros e. split; [tauto|]. intros E. by rewrite E.
  - intros r Hr Hs. apply list_elem_of_filter in Hr as [Hi Hr]. rewrite (H4 r Hr Hs). do 2 f_equal. unfold findings_of. cbn.
    rewrite list_filter_filter. apply list_filter_iff. intros f. split; [intros E; by rewrite E|tauto].
  - intros e He. apply list_elem_of_filter in He as [Hi He]. destruct (proj1 (list_elem_of_fmap _ _ _) (H5 e He)) as (r & Er & Hr).
    rewrite Er. apply list_elem_of_fmap_2, list_elem_of_filter. by rewrite <-Er.
  - intros f Hf. apply list_elem_of_filter in Hf as [Hi Hf]. destruct (proj1 (list_elem_of_fmap _ _ _) (H6 f Hf)) as (r & Er & Hr).
    rewrite Er. apply list_elem_of_fmap_2, list_elem_of_filter. by rewrite <-Er.
Qed.

Lemma pull_run_ok now fault runner lease incl force q : queue_ok q -> queue_ok (exec (pull_and_execute_scan_run now fault runner lease incl force) q).
Proof.
  intros Hq. pose proof (claim_ok now runner lease incl q Hq) as Hc. unfold exec in Hc |- *. unfold pull_and_execute_scan_run, m_bind at 1.
  destruct (claim_next_scan_run now runner lease incl q) as [[[r|]|ex] q1]; cbn in Hc; [|done|done].
  unfold m_catch. pose proof (execute_ok now fault (rn_id r) (Some runner) lease force false q1 Hc) as Hx. unfold exec in Hx. unfold m_bind.
  by destruct (execute_scan_run _ _ _ _ _ _ _ q1) as [[x|ex] q2].
Qed.
Lemma pull_jobs_ok jobs runner lease incl q : queue_ok q -> queue_ok (exec (pull_jobs jobs runner lease incl) q).
Proof.
  revert q. induction jobs as [|[now fault] jobs IH]; intros q Hq; [done|]. pose proof (pull_run_ok now fault runner lease incl false q Hq) as Hp.
  unfold exec in *. cbn [pull_jobs]. unfold m_bind at 1. destruct (pull_and_execute_scan_run _ _ _ _ _ _ q) as [[o|ex] q1]; cbn in Hp; [|done].
  specialize (IH q1 Hp). destruct o; [done|..]; unfold m_bind; by destruct (pull_jobs jobs runner lease incl q1) as [[l|ex] q2].
Qed.
Lemma tick_ok now jobs runner limit max lease incl q : queue_ok q -> queue_ok (exec (run_scan_queue_maintenance_tick now jobs runner limit max lease incl) q).
Proof.
  intros Hq. pose proof (recover_ok now limit q Hq) as Hr. unfold exec in Hr |- *. unfold run_scan_queue_maintenance_tick, m_bind at 1.
  destruct (recover_stale_scan_runs now limit q) as [[l|ex] q1]; cbn in Hr; [|done].
  pose proof (pull_jobs_ok (take (Z.to_nat (Z.max 0 (Z.min max 100))) jobs) runner lease incl q1 Hr) as Hp. unfold exec in Hp. unfold m_bind.
  by destruct (pull_jobs _ _ _ _ q1) as [[x|ex] q2].
Qed.

(** ** Requests *)

Definition on_graph {A} (m : GM A) : QM A :=
  fun q => let '(o, g) := m (q_graph q) in (o, {| q_runs := q_runs q; q_findings := q_findings q; q_events := q_events q; q_graph := g |}).
Inductive Req :=
| R_INGEST (c : IngestCall)
| R_CREATE (now : Z) (fault : option Exc) (id : string) (n : NewScan)
| R_CLAIM (now : Z) (runner : string) (lease_seconds : Z) (include_failed : bool)
| R_RECOVER (now limit : Z)
| R_SWEEP (now limit : Z) (reason : option string)
| R_REQUEUE_BATCH (now limit : Z)
| R_PURGE (now limit older_than_hours : Z)
| R_PULL (now : Z) (fault : option Exc) (runner : string) (lease_seconds : Z) (include_failed force : bool)
| R_TICK (now : Z) (jobs : list (Z * option Exc)) (runner : string) (recover_limit max_claim_execute lease_seconds : Z) (include_failed : bool)
| R_REQUEUE (now : Z) (id : string)
| R_EXECUTE (now : Z) (fault : option Exc) (id : string) (runner : option string) (lease_seconds : Z) (force : bool)
| R_HEARTBEAT (now : Z) (id runner : string) (lease_seconds : Z)
| R_RETRY (now : Z) (fault : option Exc) (id : string)
| R_CANCEL (now : Z) (id : string) (runner reason : option string).

Definition quiet {A} (m : QM A) : QM unit := do! _ := m in m_ret tt.
Definition serve (sha : json -> string) (rq : Req) : QM unit :=
  match rq with
  | R_INGEST c => quiet (on_graph (ingest_call sha c))
  | R_CREATE now fault id n => quiet (run_batch_scan now fault id n)
  | R_CLAIM now runner lease incl => quiet (claim_next_scan_run now runner lease incl)
  | R_RECOVER now limit => quiet (recover_stale_scan_runs now limit)
  | R_SWEEP now limit reason => quiet (sweep_dead_letter_scan_runs now limit reason)
  | R_REQUEUE_BATCH now limit => quiet (requeue_dead_letter_scan_runs now limit)
  | R_PURGE now limit hours => quiet (purge_dead_letter_scan_runs now limit hours)
  | R_PULL now fault runner lease incl force => quiet (pull_and_execute_scan_run now fault runner lease incl force)
  | R_TICK now jobs runner limit max lease incl => quiet (run_scan_queue_maintenance_tick now jobs runner limit max lease incl)
  | R_REQUEUE now id => quiet (requeue_dead_letter_scan_run now id)
  | R_EXECUTE now fault id runner lease force => quiet (execute_scan_run now fault id runner lease force false)
  | R_HEARTBEAT now id runner lease => quiet (heartbeat_scan_run now id runner lease)
  | R_RETRY now fault id => quiet (execute_scan_run now fault id None DEFAULT_SCAN_LEASE_SECONDS false true)
  | R_CANCEL now id runner reason => quiet (cancel_scan_run now id runner reason)
  end.
(** [get_db]: what a request wrote is rolled back when it raises. *)
Definition scan_request (sha : json -> string) (q : Queue) (rq : Req) : Queue :=
  match serve sha rq q with (Ok _, q') => q' | (Err _, _) => q end.

Lemma exec_quiet {A} (m : QM A) q : exec (quiet m) q = exec m q.
Proof. unfold exec, quiet, m_bind. by destruct (m q) as [[]]. Qed.
Lemma on_graph_ok {A} (m : GM A) q : queue_ok q -> queue_ok (exec (on_graph m) q).
Proof. intros [H1 H2 H3 H4 H5 H6]. unfold exec, on_graph. destruct (m (q_graph q)) as [o g]. by constructor. Qed.

Create HintDb scans.
#[local] Hint Resolve on_graph_ok new_scan_ok claim_ok recover_ok sweep_ok requeue_all_ok purge_ok pull_run_ok tick_ok requeue_ok execute_ok
  heartbeat_ok cancel_ok : scans.
Lemma serve_ok sha rq q : queue_ok q -> queue_ok (exec (serve sha rq) q).
Proof. intros Hq. destruct rq; cbn [serve]; rewrite exec_quiet; auto with scans. Qed.
Lemma scan_request_ok sha q rq : queue_ok q -> queue_ok (scan_request sha q rq).
Proof.
  intros Hq. pose proof (serve_ok sha rq q Hq) as H. unfold exec in H. unfold scan_request. by destruct (serve sha rq q) as [[]].
Qed.

(** C29. The events of a scan run tell its life.  After any requests, each with its own clock and
    the exceptions its queries may raise, committed or rolled back: the events of every run, read
    through the life cycle, end in the status and the attempt count of its row; no event and no
    finding is left of a run that is gone; a completed run counts exactly its findings; only a
    cancelled run has a time of cancellation, only a dead letter a time of death; a run that is
    claimed has a runner and a lease; a failed run waits for a retry exactly when it has attempts
    left. *)
Theorem scan_history_replays sha rqs q : queue_ok q ->
  let q' := fold_left (scan_request sha) rqs q in
  NoDup (rn_id <$> q_runs q') /\
  (forall r, r ∈ q_runs q' -> replay (events_of (rn_id r) q') = Some (rn_status r, rn_attempt r) /\ run_ok r) /\
  (forall r, r ∈ q_runs q' -> rn_status r = COMPLETED -> rn_flagged r = Z.of_nat (length (findings_of (rn_id r) q'))) /\
  (forall e, e ∈ q_events q' -> ev_scan e ∈ rn_id <$> q_runs q') /\ (forall f, f ∈ q_findings q' -> fn_scan f ∈ rn_id <$> q_runs q').
Proof.
  intros Hq. assert (Hn : queue_ok (fold_left (scan_request sha) rqs q)).
  { revert q Hq. induction rqs as [|rq rqs IH]; intros q Hq; [done|]. by apply IH, scan_request_ok. }
  destruct Hn as [H1 H2 H3 H4 H5 H6]. cbn zeta. split_and!; auto.
Qed.

(** ** What a claim takes *)

Lemma first_by_spec {A} (lt : A -> A -> bool) (l : list A) : (forall x, lt x x = false) ->
  (forall x y z, lt x y = true -> lt y z = true -> lt x z = true) ->
  match first_by lt l with Some x => x ∈ l /\ forall y, y ∈ l -> lt y x = false | None => l = [] end.
Proof.
  intros Hi Ht. unfold first_by. set (f := fun best x => match best with Some b => if lt x b then Some x else best | None => Some x end).
  assert (Hg : forall m seen b, b ∈ seen -> (forall y, y ∈ seen -> lt y b = false) ->
    exists x, fold_left f m (Some b) = Some x /\ x ∈ seen ++ m /\ forall y, y ∈ seen ++ m -> lt y x = false).
  { induction m as [|z m IH]; intros seen b Hb Hs; [exists b; by rewrite app_nil_r|]. cbn [fold_left f].
    rewrite cons_middle, app_assoc. destruct (lt z b) eqn:E.
    - apply IH; [set_solver|]. intros y Hy. apply elem_of_app in Hy as [Hy|Hy]; [|by apply list_elem_of_singleton in Hy as ->].
      destruct (lt y z) eqn:E'; [|done]. by rewrite <-(Hs y Hy), (Ht y z b).
    - apply IH; [set_solver|]. intros y Hy. apply elem_of_app in Hy as [Hy|Hy]; [by apply Hs|by apply list_elem_of_singleton in Hy as ->]. }
  destruct l as [|z l]; [done|]. cbn [fold_left f]. destruct (Hg l [z] z) as (x & -> & H); [left| |done].
  intros y Hy. apply list_elem_of_singleton in Hy as ->. apply Hi.
Qed.

Lemma opt_lt_irr a : opt_lt a a = false.
Proof. destruct a; [cbn; lia|done]. Qed.
Lemma opt_lt_trans a b c : opt_lt a b = true -> opt_lt b c = true -> opt_lt a c = true.
Proof. destruct a, b, c; cbn; try done. lia. Qed.
Lemma by_retry_irr r : by_retry r r = false.
Proof. unfold by_retry, by_created. rewrite opt_lt_irr, Z.ltb_irrefl. by rewrite andb_false_r. Qed.
Lemma by_retry_trans x y z : by_retry x y = true -> by_retry y z = true -> by_retry x z = true.
Proof.
  unfold by_retry, by_created, opt_eq. rewrite !orb_true_iff, !andb_true_iff, !bool_decide_eq_true, !Z.ltb_lt.
  intros [H1|[E1 H1]] [H2|[E2 H2]].
  - left. by eapply opt_lt_trans.
  - left. by rewrite <-E2.
  - left. by rewrite E1.
  - right. split; [congruence|lia].
Qed.

(** Which runs may be claimed, and which of them first: the pending before the abandoned before the failed, and of a kind
    the oldest, the longest abandoned, the soonest due. *)
Definition claimable (now : Z) (include_failed : bool) (r : ScanRun) : bool :=
  match rn_status r with
  | PENDING => true
  | CLAIMED => match rn_lease r with Some t => t <=? now | None => false end
  | FAILED => include_failed && (rn_attempt r <? rn_retry_max r) && match rn_next_retry r with Some t => t <=? now | None => true end
  | _ => false
  end.
Definition rank (r : ScanRun) : Z := match rn_status r with PENDING => 0 | CLAIMED => 1 | _ => 2 end.
Definition sooner (x r : ScanRun) : bool :=
  (rank x <? rank r) ||
  (rank x =? rank r) && match rn_status r with PENDING => by_created x r | CLAIMED => by_lease x r | _ => by_retry x r end.

Lemma first_of lt P runs : (forall x, lt x x = false) -> (forall x y z, lt x y = true -> lt y z = true -> lt x z = true) ->
  match first_by lt (filter (fun r => P r = true) runs) with
  | Some r => (r ∈ runs /\ P r = true) /\ forall x, x ∈ runs -> P x = true -> lt x r = false
  | None => forall x : ScanRun, x ∈ runs -> P x = false
  end.
Proof.
  intros Hi Ht. pose proof (first_by_spec lt (filter (fun r => P r = true) runs) Hi Ht) as H. destruct (first_by _ _) as [r|].
  - destruct H as [Hr H]. apply list_elem_of_filter in Hr as [Hp Hr]. split; [done|]. intros x Hx Hpx. apply H. by apply list_elem_of_filter.
  - intros x Hx. destruct (P x) eqn:E; [|done]. assert (Hin : x ∈ filter (fun r => P r = true) runs) by by apply list_elem_of_filter.
    rewrite H in Hin. by apply not_elem_of_nil in Hin.
Qed.

(** Statuses decide which of the three queries sees a run. *)
Ltac by_status x :=
  unfold claimable, stale_claim, retryable, is_status, lease_over, sooner, rank in *;
  destruct (rn_status x) eqn:?; cbn in *; try done;
  repeat match goal with H : context [bool_decide (?a = ?a)] |- _ => rewrite (bool_decide_eq_true_2 (a = a) eq_refl) in H end; cbn in *.

Lemma pick_exact now incl runs : (forall r, r ∈ runs -> run_ok r) ->
  match pick_run now incl runs with
  | Some r => (r ∈ runs /\ claimable now incl r = true) /\ forall x, x ∈ runs -> claimable now incl x = true -> sooner x r = false
  | None => forall x, x ∈ runs -> claimable now incl x = false
  end.
Proof.
  intros Hok. unfold pick_run.
  pose proof (first_of by_created (is_status PENDING) runs ltac:(intros; unfold by_created; lia) ltac:(unfold by_created; intros; lia)) as H1.
  destruct (first_by by_created _) as [r|].
  { destruct H1 as [[Hr Hp] H1]. split; [split; [done|]|]; [by by_status r|]. intros x Hx Hc. specialize (H1 x Hx). by_status r. by_status x.
    apply H1. done. }
  pose proof (first_of by_lease (stale_claim now) runs ltac:(intros; apply opt_lt_irr) ltac:(intros ???; apply opt_lt_trans)) as H2.
  destruct (first_by by_lease _) as [r|].
  { destruct H2 as [[Hr Hp] H2]. split; [split; [done|]|]; [by by_status r|]. intros x Hx Hc. specialize (H1 x Hx). specialize (H2 x Hx).
    by_status r. by_status x. by apply H2. }
  destruct incl; [|intros x Hx; specialize (H1 x Hx); specialize (H2 x Hx); by by_status x].
  pose proof (first_of by_retry retryable runs by_retry_irr by_retry_trans) as H3.
  destruct (first_by by_retry _) as [r|].
  2: { intros x Hx. specialize (H1 x Hx). specialize (H2 x Hx). specialize (H3 x Hx). by_status x. by rewrite H3. }
  destruct H3 as [[Hr Hp] H3]. destruct (match rn_next_retry r with Some _ => _ | None => _ end) eqn:Hw.
  - intros x Hx. specialize (H1 x Hx). specialize (H2 x Hx). specialize (H3 x Hx). pose proof (Hok x Hx) as (_ & _ & _ & _ & _ & Hm).
    by_status x. destruct (rn_attempt x <? rn_retry_max x) eqn:Ha; [|done]. specialize (H3 eq_refl). cbn.
    destruct Hm as (_ & _ & Hm). destruct (proj2 Hm ltac:(lia)) as [t Et]. rewrite Et. unfold by_retry in H3. rewrite Et in H3.
    destruct (rn_next_retry r); [|done]. cbn in H3. apply orb_false_iff in H3 as [H3 _]. lia.
  - split; [split; [done|]|].
    + by_status r. rewrite Hp. cbn. destruct (rn_next_retry r); [lia|done].
    + intros x Hx Hc. specialize (H1 x Hx). specialize (H2 x Hx). specialize (H3 x Hx). by_status r; by_status x.
      * by rewrite H2 in Hc.
      * apply H3. by apply andb_true_iff in Hc as [Hc _].
Qed.

Lemma claim_eq now runner lease incl q :
  claim_next_scan_run now runner lease incl q =
  match pick_run now incl (q_runs q) with
  | Some r => let r' := claimed_run now runner lease r in (Ok (Some r'), recorded now r' E_CLAIMED (Some runner) q)
  | None => (Ok None, q)
  end.
Proof. unfold claim_next_scan_run, m_bind, m_get. by destruct (pick_run _ _ _). Qed.

(** A run is not claimable while its lease lasts. *)
Lemma lease_holds now now2 runner lease incl r : now2 < lease_until now lease -> claimable now2 incl (claimed_run now runner lease r) = false.
Proof. intros H. unfold claimable. cbn. lia. Qed.

(** While the lease lasts, a claim returns another run, if any, and leaves the row. *)
Lemma claim_leaves now2 runner2 lease2 incl2 now runner lease r q : queue_ok q -> claimed_run now runner lease r ∈ q_runs q ->
  now2 < lease_until now lease ->
  match claim_next_scan_run now2 runner2 lease2 incl2 q with
  | (Ok o, q') => queue_ok q' /\ claimed_run now runner lease r ∈ q_runs q' /\ forall r2, o = Some r2 -> rn_id r2 <> rn_id r
  | (Err _, _) => False
  end.
Proof.
  intros Hq Hr Hlt. pose proof (claim_ok now2 runner2 lease2 incl2 q Hq) as Hq'. unfold exec in Hq'. rewrite claim_eq in *.
  pose proof (pick_exact now2 incl2 (q_runs q) (qo_rows q Hq)) as Hp. destruct (pick_run now2 incl2 (q_runs q)) as [x|]; [|by split_and!].
  destruct Hp as [[Hx Hc] _]. assert (Hne : rn_id x <> rn_id r).
  { intros E. rewrite (same_id _ _ _ (qo_ids _ Hq) Hx Hr E) in Hc. by rewrite lease_holds in Hc. }
  split_and!; [done| |by intros r2 [= <-]]. apply upd_elem. right. split; [done|]. intros E. by apply Hne.
Qed.

(** Claims one after another: when, by whom, for how long, failed runs included or not; the
    runs they return. *)
Fixpoint claims_in_turn (cs : list (Z * string * Z * bool)) (q : Queue) : list string :=
  match cs with
  | [] => []
  | (now, runner, lease, incl) :: cs =>
      let '(o, q') := claim_next_scan_run now runner lease incl q in
      match o with Ok (Some r) => [rn_id r] | _ => [] end ++ claims_in_turn cs q'
  end.
Lemma claims_leave cs now runner lease r : forall q, queue_ok q -> claimed_run now runner lease r ∈ q_runs q ->
  Forall (fun c => c.1.1.1 < lease_until now lease) cs -> rn_id r ∉ claims_in_turn cs q.
Proof.
  induction cs as [|[[[now2 runner2] lease2] incl2] cs IH]; intros q Hq Hr Hcs; cbn [claims_in_turn]; [by apply not_elem_of_nil|].
  apply Forall_cons in Hcs as [H1 H2]. pose proof (claim_leaves now2 runner2 lease2 incl2 now runner lease r q Hq Hr H1) as H.
  destruct (claim_next_scan_run _ _ _ _ q) as [[o|e] q']; [|done]. destruct H as (Hq' & Hr' & Ho). apply not_elem_of_app. split; [|by apply IH].
  destruct o as [r2|]; [|by apply not_elem_of_nil]. rewrite list_elem_of_singleton. intros E. by apply (Ho r2).
Qed.

(** C30. A worker gets a run exactly when there is one to get, and the right one.  A claim that is
    committed before the next one reads never raises; it returns nothing only when no run is
    pending, abandoned under an expired lease or due for a retry; what it returns is claimable
    and no claimable run comes sooner; the run is the runner's for the seconds asked for (one at
    least), one event says so and no other row changes; and however many claims follow, one after
    another before the lease is over, none of them returns that run.  Claims that overlap are
    not covered ([claims_overlap]). *)
Theorem claim_exact now runner lease incl q : queue_ok q ->
  match claim_next_scan_run now runner lease incl q with
  | (Ok None, q') => q' = q /\ forall x, x ∈ q_runs q -> claimable now incl x = false
  | (Ok (Some r'), q') =>
      (exists r, (r ∈ q_runs q /\ claimable now incl r = true) /\ r' = claimed_run now runner lease r /\
                 forall x, x ∈ q_runs q -> claimable now incl x = true -> sooner x r = false) /\
      rn_status r' = CLAIMED /\ rn_claimed_by r' = Some runner /\ rn_lease r' = Some (now + Z.max 1 lease * 1000000) /\
      (forall x, x ∈ q_runs q' <-> x = r' \/ x ∈ q_runs q /\ rn_id x <> rn_id r') /\
      events_of (rn_id r') q' = events_of (rn_id r') q ++ [E_CLAIMED] /\
      (forall cs, Forall (fun c => c.1.1.1 < now + Z.max 1 lease * 1000000) cs -> rn_id r' ∉ claims_in_turn cs q')
  | (Err _, _) => False
  end.
Proof.
  intros Hq. pose proof (claim_ok now runner lease incl q Hq) as Hq'. unfold exec in Hq'. rewrite claim_eq in *.
  pose proof (pick_exact now incl (q_runs q) (qo_rows q Hq)) as Hp. destruct (pick_run now incl (q_runs q)) as [r|]; [|done].
  destruct Hp as [[Hr Hc] Hp]. cbn zeta in *. cbn [snd] in Hq'. set (r' := claimed_run now runner lease r) in *. split_and!; try done.
  - exists r. done.
  - intros x. etransitivity; [apply upd_elem|]. split; [tauto|]. intros [->|Hx]; [left; split; [done|]|by right].
    change (rn_id r ∈ rn_id <$> q_runs q). by apply list_elem_of_fmap_2.
  - rewrite events_of_recorded. by rewrite decide_True.
  - intros cs Hcs. apply (claims_leave cs now runner lease r); [done| |done]. by apply (recorded_has now r).
Qed.

(** ** Runs *)

Definition empty_queue : Queue := {| q_runs := []; q_findings := []; q_events := []; q_graph := triangle |}.
Lemma empty_queue_ok : queue_ok empty_queue.
Proof. constructor; cbn; try apply NoDup_nil_2; intros ? H; by apply not_elem_of_nil in H. Qed.
Definition a_scan (async : bool) : NewScan :=
  {| ns_async := async; ns_incremental := false; ns_base := None; ns_identities := Some ["a"; "b"]%string; ns_window_hours := 24; ns_max_hops := 4;
     ns_threshold := float_of_Z 8; ns_retry_max := 1; ns_backoff := 30 |}.
Abbreviation scans rqs := (fold_left (scan_request demo_sha) rqs empty_queue).
Definition told (q : Queue) (id : string) : list (RunStatus * Z) * list EventType :=
  ((fun r => (rn_status r, rn_attempt r)) <$> filter (fun r => rn_id r = id) (q_runs q), events_of id q).

(** A scan of the triangle is claimed, beats, is abandoned, recovered and pulled; both identities are found in a circle. *)
Definition demo_scans : list Req :=
  [R_CREATE 10 None "s" (a_scan true); R_CLAIM 20 "w" 1 true; R_HEARTBEAT 30 "s" "w" 1; R_RECOVER 2000000 100; R_PULL 2000010 None "v" 60 true false]%string.
Lemma demo_scans_told : told (scans demo_scans) "s" =
  ([(COMPLETED, 1)], [E_CREATED; E_CLAIMED; E_HEARTBEAT; E_STALE_RECOVERED PENDING; E_CLAIMED; E_EXECUTION_STARTED; E_EXECUTION_COMPLETED]).
Proof. vm_compute. reflexivity. Qed.

Lemma scan_history_replays_witness : exists r, r ∈ q_runs (scans demo_scans) /\ rn_status r = COMPLETED /\
  replay (events_of (rn_id r) (scans demo_scans)) = Some (rn_status r, rn_attempt r) /\
  rn_flagged r = Z.of_nat (length (findings_of (rn_id r) (scans demo_scans))).
Proof.
  assert (Hr : exists r, q_runs (scans demo_scans) !! 0%nat = Some r /\ rn_status r = COMPLETED) by (eexists; split; vm_compute; reflexivity).
  destruct Hr as (r & Hr & Hs). apply list_elem_of_lookup_2 in Hr. exists r.
  pose proof (scan_history_replays demo_sha demo_scans empty_queue empty_queue_ok) as H. cbv zeta in H.
  revert Hr H. generalize (fold_left (scan_request demo_sha) demo_scans empty_queue). intros q Hr (_ & H1 & H2 & _).
  split; [exact Hr|]. split; [exact Hs|]. split; [exact (proj1 (H1 r Hr))|exact (H2 r Hr Hs)].
Defined.
Definition one_pending : Queue := scans [R_CREATE 10 None "s" (a_scan true)]%string.
Lemma one_pending_ok : queue_ok one_pending.
Proof. apply scan_request_ok, empty_queue_ok. Qed.
Lemma claim_exact_witness :
  match claim_next_scan_run 20 "w" 1 true one_pending with
  | (Ok (Some r'), q') => rn_id r' = "s"%string /\ rn_claimed_by r' = Some "w"%string /\
      "s"%string ∉ claims_in_turn [(500000, "v"%string, 60, true); (1000000, "u"%string, 60, true)] q'
  | _ => False
  end.
Proof.
  pose proof (claim_exact 20 "w"%string 1 true one_pending one_pending_ok) as H.
  assert (Hid : match claim_next_scan_run 20 "w" 1 true one_pending with (Ok (Some x), _) => rn_id x = "s"%string | _ => False end)
    by (vm_compute; reflexivity).
  destruct (claim_next_scan_run 20 "w" 1 true one_pending) as [[[r'|]|ex] q']; [|destruct Hid..].
  split; [exact Hid|]. destruct H as (_ & _ & Hb & _ & _ & _ & H). split; [exact Hb|].
  rewrite <-Hid. apply H. repeat constructor; cbn; lia.
Defined.

(** *** What the requests allow *)

(** The claiming query takes no lock: a worker that read before the other committed writes its own claim over the lease that
    lasts, and both hold the run. *)
Lemma claims_overlap : exists r, pick_run 20 true (q_runs one_pending) = Some r /\ pick_run 21 true (q_runs one_pending) = Some r /\
  let q := exec (record_run 21 (claimed_run 21 "v" 60 r) E_CLAIMED (Some "v"%string)) (exec (claim_next_scan_run 20 "w" 60 true) one_pending) in
  events_of "s" q = [E_CREATED; E_CLAIMED; E_CLAIMED] /\ (rn_claimed_by <$> q_runs q) = [Some "v"%string].
Proof. eexists. split; [vm_compute; reflexivity|]. split; [vm_compute; reflexivity|]. split; vm_compute; reflexivity. Qed.

Definition dead_scan : list Req :=
  [R_CREATE 10 None "s" (a_scan true); R_PULL 20 (Some (ValueError "query failed")) "w" 60 true false; R_SWEEP 30 100 None]%string.
(** A dead letter out of attempts is executed again without force and without being requeued. *)
Lemma dead_letter_runs : told (scans dead_scan) "s" = ([(DEAD_LETTER, 1)], [E_CREATED; E_CLAIMED; E_EXECUTION_STARTED; E_EXECUTION_FAILED; E_DEAD_LETTERED]) /\
  fst (told (scans (dead_scan ++ [R_EXECUTE 40 None "s"%string None 60 false])) "s") = [(COMPLETED, 2)].
Proof. split; vm_compute; reflexivity. Qed.

(** A failure under a worker is recorded; the same failure under the execute request leaves the run pending and uncounted. *)
Lemma failure_rolled_back :
  fst (told (scan_request demo_sha one_pending (R_PULL 20 (Some (ValueError "query failed")) "w" 60 true false)%string) "s") = [(FAILED, 1)] /\
  scan_request demo_sha one_pending (R_EXECUTE 20 (Some (ValueError "query failed")) "s" (Some "w") 60 false)%string = one_pending.
Proof. split; vm_compute; reflexivity. Qed.
