(* ===== verification/IdentityStore.v ===== *)
(** * The identity store

    [services/identity_gateway/store.py]: identities found by id, wallet, telegram account and
    invite code, sub-identities, the second factor that binds a telegram account, payment
    policies, points and credentials, on top of [TrustLedger]; with the referral link of
    [services/telegram/bot.py].

    The four dictionaries of the module are [by_id], [by_wallet], [by_tg] and [by_invite]; the
    JSON file is [saved].  A [Draw] is what a call reads from the clock and the random
    generator.  A write that fails is logged only, as in [TrustLedger]; [Restart] is the module
    being loaded from the files.  The fields [business_id] and [agent_ids], which nothing assigns,
    are left out. *)
From stdpp Require Import pretty.
From S2P Require Import Prelude PyText PyFloat PyJson TrustLedger.
From S2P Require Import IdentityCheck.
Open Scope Z_scope.

(** ** Data *)

Definition IDENTITY_CLASSES : list string := ["user"; "business"; "agent"]%string.
Definition CREDENTIAL_TYPES : list string := ["email"; "phone"; "wallet"; "domain"; "business_reg"; "telegram"; "twofa"]%string.
Definition VERIFICATION_UNVERIFIED : string := "unverified".
Definition VERIFICATION_BASIC : string := "basic".
Definition VERIFICATION_ENHANCED : string := "enhanced".

Record Cred := {
  cd_id : string;
  cd_type : string;
  cd_status : string;
  cd_issuer : string;
  cd_issued_at : Z;
  cd_verified_at : option Z;
  cd_expires_at : option Z
}.
Record KarmaIdentity := {
  ki_id : string;
  ki_wallet : string;
  ki_status : string;
  ki_created_at : Z;
  ki_tg : option Z;
  ki_tg_name : option string;
  ki_policy : list (string * json);
  ki_metadata : list (string * json);
  ki_parent : option string;
  ki_subs : list string;
  ki_invite : string;
  ki_referred : option string;
  ki_points : float;
  ki_twofa : string;
  ki_class : string;
  ki_level : string;
  ki_creds : list Cred
}.
(** The fields that calls assign. *)
Definition edit_ident (tg : option Z) (tg_name : option string) (policy : list (string * json)) (subs : list string) (referred : option string)
    (points : float) (twofa class level : string) (creds : list Cred) (x : KarmaIdentity) : KarmaIdentity :=
  {| ki_id := ki_id x; ki_wallet := ki_wallet x; ki_status := ki_status x; ki_created_at := ki_created_at x; ki_tg := tg; ki_tg_name := tg_name;
     ki_policy := policy; ki_metadata := ki_metadata x; ki_parent := ki_parent x; ki_subs := subs; ki_invite := ki_invite x;
     ki_referred := referred; ki_points := points; ki_twofa := twofa; ki_class := class; ki_level := level; ki_creds := creds |}.
Definition set_tg (tg : option Z) (name : option string) (x : KarmaIdentity) : KarmaIdentity :=
  edit_ident tg name (ki_policy x) (ki_subs x) (ki_referred x) (ki_points x) (ki_twofa x) (ki_class x) (ki_level x) (ki_creds x) x.
Definition set_policy (p : list (string * json)) (x : KarmaIdentity) : KarmaIdentity :=
  edit_ident (ki_tg x) (ki_tg_name x) p (ki_subs x) (ki_referred x) (ki_points x) (ki_twofa x) (ki_class x) (ki_level x) (ki_creds x) x.
Definition set_subs (l : list string) (x : KarmaIdentity) : KarmaIdentity :=
  edit_ident (ki_tg x) (ki_tg_name x) (ki_policy x) l (ki_referred x) (ki_points x) (ki_twofa x) (ki_class x) (ki_level x) (ki_creds x) x.
Definition set_referred (r : option string) (x : KarmaIdentity) : KarmaIdentity :=
  edit_ident (ki_tg x) (ki_tg_name x) (ki_policy x) (ki_subs x) r (ki_points x) (ki_twofa x) (ki_class x) (ki_level x) (ki_creds x) x.
Definition set_points (p : float) (x : KarmaIdentity) : KarmaIdentity :=
  edit_ident (ki_tg x) (ki_tg_name x) (ki_policy x) (ki_subs x) (ki_referred x) p (ki_twofa x) (ki_class x) (ki_level x) (ki_creds x) x.
Definition set_twofa (c : string) (x : KarmaIdentity) : KarmaIdentity :=
  edit_ident (ki_tg x) (ki_tg_name x) (ki_policy x) (ki_subs x) (ki_referred x) (ki_points x) c (ki_class x) (ki_level x) (ki_creds x) x.
Definition set_class (c : string) (x : KarmaIdentity) : KarmaIdentity :=
  edit_ident (ki_tg x) (ki_tg_name x) (ki_policy x) (ki_subs x) (ki_referred x) (ki_points x) (ki_twofa x) c (ki_level x) (ki_creds x) x.

Record Draw := {
  dr_now : Z;
  dr_id : string;
  dr_invite : string;
  dr_cred : string;
  dr_entry : nat -> string
}.

Section Store.
Context {Hash : Type} `{EqDecision Hash} (GENESIS : Hash) (entry_digest : Hash -> EntryBody -> Hash).
Abbreviation Trust := (Trust (Hash := Hash)).

Record Store := {
  by_id : list (string * KarmaIdentity);
  by_wallet : gmap string string;
  by_tg : gmap Z string;
  by_invite : gmap string string;
  saved : list KarmaIdentity;
  trust : Trust
}.
Abbreviation SM := (M Store Exc).

Definition set_trust (t : Trust) (s : Store) : Store :=
  {| by_id := by_id s; by_wallet := by_wallet s; by_tg := by_tg s; by_invite := by_invite s; saved := saved s; trust := t |}.
Definition on_trust {A} (m : M Trust Exc A) : SM A := zoom trust set_trust m.
(** An object of the dictionary is assigned to. *)
Definition put_ident (x : KarmaIdentity) : SM unit :=
  m_put (fun s => {| by_id := dict_set (ki_id x) x (by_id s); by_wallet := by_wallet s; by_tg := by_tg s; by_invite := by_invite s;
                     saved := saved s; trust := trust s |}).
Definition get_ident (i : string) : SM (option KarmaIdentity) := m_get (fun s => dict_get i (by_id s)).
Definition reindex_tg (x : KarmaIdentity) : SM unit :=
  m_put (fun s => {| by_id := by_id s; by_wallet := by_wallet s;
                     by_tg := match ki_tg x with Some t => <[t := ki_id x]> (by_tg s) | None => by_tg s end;
                     by_invite := by_invite s; saved := saved s; trust := trust s |}).
Definition reindex_wallet (x : KarmaIdentity) : SM unit :=
  m_put (fun s => {| by_id := by_id s; by_wallet := <[ki_wallet x := ki_id x]> (by_wallet s); by_tg := by_tg s; by_invite := by_invite s;
                     saved := saved s; trust := trust s |}).
Definition reindex_invite (x : KarmaIdentity) : SM unit :=
  m_put (fun s => {| by_id := by_id s; by_wallet := by_wallet s; by_tg := by_tg s;
                     by_invite := if decide (ki_invite x = ""%string) then by_invite s else <[ki_invite x := ki_id x]> (by_invite s);
                     saved := saved s; trust := trust s |}).
Definition persist : SM unit := fun s =>
  (Ok tt, {| by_id := by_id s; by_wallet := by_wallet s; by_tg := by_tg s; by_invite := by_invite s;
             saved := if default true (head (io (trust s))) then dict_values (by_id s) else saved s;
             trust := {| ledger := ledger (trust s); alerts := alerts (trust s); stored_ledger := stored_ledger (trust s);
                         stored_alerts := stored_alerts (trust s); io := tail (io (trust s)) |} |}).

(** [_load], in a process that starts, for both modules. *)
Definition load_ident (s : Store) (x : KarmaIdentity) : Store :=
  {| by_id := dict_set (ki_id x) x (by_id s); by_wallet := <[ki_wallet x := ki_id x]> (by_wallet s);
     by_tg := match ki_tg x with Some t => <[t := ki_id x]> (by_tg s) | None => by_tg s end;
     by_invite := if decide (ki_invite x = ""%string) then by_invite s else <[ki_invite x := ki_id x]> (by_invite s);
     saved := saved s; trust := trust s |}.
Definition restart (s : Store) : Store :=
  fold_left load_ident (saved s)
    {| by_id := []; by_wallet := ∅; by_tg := ∅; by_invite := ∅; saved := saved s; trust := exec load (trust s) |}.

(** ** Look-ups *)

Definition nonempty (i : option string) : option string := match i with Some ""%string => None | x => x end.
Definition identity_at (i : option string) (s : Store) : option KarmaIdentity := nonempty i ≫= fun i => dict_get i (by_id s).
Definition get_by_wallet (wallet : string) (s : Store) : option KarmaIdentity := identity_at (by_wallet s !! py_lower wallet) s.
Definition get_by_telegram (tg : Z) (s : Store) : option KarmaIdentity := identity_at (by_tg s !! tg) s.
Definition get_by_invite_code (code : string) (s : Store) : option KarmaIdentity := identity_at (by_invite s !! py_upper (py_strip code)) s.
Definition main_of (x : KarmaIdentity) (s : Store) : KarmaIdentity :=
  match nonempty (ki_parent x) with Some p => default x (dict_get p (by_id s)) | None => x end.
Definition resolve_main_identity (i : string) (s : Store) : option KarmaIdentity :=
  match dict_get i (by_id s) with Some x => Some (main_of x s) | None => None end.
Definition resolve_effective_identity (tg : Z) (s : Store) : option KarmaIdentity :=
  match get_by_telegram tg s with Some x => Some (main_of x s) | None => None end.
Definition get_sub_identities (i : string) (s : Store) : list KarmaIdentity :=
  match dict_get i (by_id s) with Some x => omap (fun j => dict_get j (by_id s)) (ki_subs x) | None => [] end.
Definition get_referral_chain (i : string) (s : Store) : list KarmaIdentity :=
  match dict_get i (by_id s) with
  | Some x => if decide (ki_invite x = ""%string) then []
              else filter (fun y => ki_referred y = Some (ki_invite x) /\ ki_id y <> i) (dict_values (by_id s))
  | None => []
  end.

(** ** Identities *)

Definition default_policy : list (string * json) :=
  [("mode", JStr "manual_confirm"); ("single_limit_usdc", JStr "500"); ("daily_limit_usdc", JStr "2000"); ("allowed_categories", JList []);
   ("allowed_agents", JList []); ("emergency_revoke", JBool false)]%string.
Definition new_ident (d : Draw) (i wallet : string) (metadata policy : list (string * json)) (parent referred : option string) (points : float)
    (twofa : string) : KarmaIdentity :=
  {| ki_id := i; ki_wallet := wallet; ki_status := "active"; ki_created_at := dr_now d; ki_tg := None; ki_tg_name := None; ki_policy := policy;
     ki_metadata := metadata; ki_parent := parent; ki_subs := []; ki_invite := dr_invite d; ki_referred := referred; ki_points := points;
     ki_twofa := twofa; ki_class := "user"; ki_level := VERIFICATION_UNVERIFIED; ki_creds := [] |}.
Definition new_id (d : Draw) : string := ("kid_" +:+ dr_id d)%string.
Definition add_ident (x : KarmaIdentity) : SM unit := seq! put_ident x in seq! reindex_wallet x in reindex_invite x.

Definition get_or_create_by_wallet (d : Draw) (wallet : string) (meta : list (string * json)) : SM KarmaIdentity :=
  do! existing := m_get (get_by_wallet wallet) in
  match existing with
  | Some x => m_ret x
  | None =>
      let x := new_ident d (new_id d) (py_lower wallet) meta default_policy None None fzero "" in
      seq! add_ident x in
      seq! persist in
      m_ret x
  end.
Definition create_sub_identity (d : Draw) (parent_id wallet : string) : SM KarmaIdentity :=
  let w := py_lower wallet in
  do! found := get_ident parent_id in
  match found with
  | None => m_raise (KeyError "parent identity not found")
  | Some parent =>
      if decide (nonempty (ki_parent parent) <> None) then m_raise (ValueError "sub-identity cannot create sub-identities")
      else if (2 <=? length (ki_subs parent))%nat then m_raise (ValueError "max 2 sub-identities allowed")
      else
        do! taken := m_get (fun s => by_wallet s !! w) in
        match taken with
        | Some _ => m_raise (ValueError "wallet already bound to another identity")
        | None =>
            let x := new_ident d (new_id d) w [("role", JStr "sub"); ("parent", JStr parent_id)]%string (ki_policy parent) (Some parent_id)
                       (nonempty (Some (ki_invite parent))) fzero "" in
            seq! add_ident x in
            seq! put_ident (set_subs (ki_subs parent ++ [new_id d]) parent) in
            seq! persist in
            m_ret x
        end
  end.
Definition bind_telegram (i : string) (tg : Z) (username : option string) : SM KarmaIdentity :=
  do! found := get_ident i in
  match found with
  | None => m_raise (KeyError "identity not found")
  | Some x =>
      do! prev := m_get (fun s => by_tg s !! tg) in
      if match nonempty prev with Some p => negb (bool_decide (p = i)) | None => false end
      then m_raise (ValueError "telegram already bound to another identity")
      else
        let x := set_tg (Some tg) username x in
        seq! put_ident x in seq! reindex_tg x in seq! persist in m_ret x
  end.
Definition seed_identity (d : Draw) (i wallet twofa : string) (policy : option (list (string * json))) (points : float) : SM KarmaIdentity :=
  do! found := get_ident i in
  match found with
  | Some x => let x := set_twofa twofa x in seq! put_ident x in seq! persist in m_ret x
  | None =>
      let x := new_ident d i (py_lower wallet) [] (match policy with Some ((_ :: _) as p) => p | _ => default_policy end) None None points twofa in
      seq! add_ident x in seq! persist in m_ret x
  end.
Definition update_policy (i : string) (policy : list (string * json)) : SM KarmaIdentity :=
  do! found := get_ident i in
  match found with
  | None => m_raise (KeyError "identity not found")
  | Some x =>
      if decide (dict_get "infinite_approve"%string policy = Some (JBool true)) then m_raise (ValueError "infinite USDC approve is forbidden")
      else
        let merged := foldl (fun acc kv => dict_set (fst kv) (snd kv) acc) (ki_policy x) policy in
        let x := set_policy (dict_set "infinite_approve"%string (JBool false) merged) x in
        seq! put_ident x in seq! persist in m_ret x
  end.
Definition add_karma_points (i : string) (points : float) : SM (option KarmaIdentity) :=
  do! found := get_ident i in
  match found with
  | None => m_ret None
  | Some x =>
      do! target := m_get (main_of x) in
      let y := set_points (py_round_to 2 (ki_points target + points)%float) target in
      seq! put_ident y in seq! persist in m_ret (Some y)
  end.
(** [/start ref_<code>] of the bot. *)
Definition start_referral (tg : Z) (code : string) : SM unit :=
  do! referrer := m_get (get_by_invite_code code) in
  match referrer with
  | None => m_ret tt
  | Some _ =>
      if decide (tg = 0) then m_ret tt
      else
        do! existing := m_get (get_by_telegram tg) in
        match existing with
        | Some x => if decide (nonempty (ki_referred x) = None) then seq! put_ident (set_referred (Some code) x) in persist else m_ret tt
        | None => m_ret tt
        end
  end.

(** ** Credentials *)

Definition verified_types (l : list Cred) : list string := remove_dups (cd_type <$> filter (fun c => cd_status c = CREDENTIAL_STATE_VERIFIED) l).
Definition level_of (l : list Cred) : string :=
  let types := verified_types l in
  if (3 <=? length types)%nat && bool_decide ("wallet"%string ∈ types) then VERIFICATION_ENHANCED
  else match types with [] => VERIFICATION_UNVERIFIED | _ => VERIFICATION_BASIC end.
(** The list of credentials is assigned and the level recomputed. *)
Definition set_creds (l : list Cred) (x : KarmaIdentity) : KarmaIdentity :=
  edit_ident (ki_tg x) (ki_tg_name x) (ki_policy x) (ki_subs x) (ki_referred x) (ki_points x) (ki_twofa x) (ki_class x) (level_of l) l x.
Definition moved_cred (status : string) (verified_at : option Z) (c : Cred) : Cred :=
  {| cd_id := cd_id c; cd_type := cd_type c; cd_status := status; cd_issuer := cd_issuer c; cd_issued_at := cd_issued_at c;
     cd_verified_at := verified_at; cd_expires_at := cd_expires_at c |}.
Definition is_active (c : Cred) : bool := bool_decide (cd_status c = CREDENTIAL_STATE_PENDING) || bool_decide (cd_status c = CREDENTIAL_STATE_VERIFIED).
Definition cred_extra (i type : string) : list (string * json) := [("identity_id", JStr i); ("type", JStr type)]%string.

(** [_mutate_credential_locked]: the credential is the one at place [n]; [k] counts the ledger entries of the call. *)
Definition mutate_credential_locked (d : Draw) (k : nat) (x : KarmaIdentity) (n : nat) (c : Cred) (action actor reason : string) : SM Cred :=
  do! entry := on_trust (transition GENESIS entry_digest (dr_entry d k) (dr_now d) "credential" (cd_id c) (cd_status c) action actor reason
                           (cred_extra (ki_id x) (cd_type c))) in
  let c := moved_cred (to_state entry) (if decide (action = "verify"%string) then Some (dr_now d) else cd_verified_at c) c in
  seq! put_ident (set_creds (<[n := c]> (ki_creds x)) x) in
  seq! persist in
  m_ret c.
Definition issue_credential (d : Draw) (k : nat) (i type issuer : string) (ttl : Z) (actor : string) (auto_verify : bool) : SM Cred :=
  if negb (mem type CREDENTIAL_TYPES) then m_raise (ValueError "unsupported credential type")
  else if (ttl <? 0) || (10 * 365 * 86400 <? ttl) then m_raise (ValueError "ttl_seconds out of range")
  else
    do! found := get_ident i in
    match found with
    | None => m_raise (KeyError "identity not found")
    | Some x =>
        if existsb (fun c => bool_decide (cd_type c = type) && is_active c) (ki_creds x)
        then m_raise (ValueError "credential of this type already exists and is active")
        else
          let cid := ("cred_" +:+ dr_cred d)%string in
          do! entry := on_trust (transition GENESIS entry_digest (dr_entry d k) (dr_now d) "credential" cid "" "issue" actor
                                   ("issue " +:+ type +:+ " for " +:+ i) (cred_extra i type)) in
          let c := {| cd_id := cid; cd_type := type; cd_status := to_state entry; cd_issuer := String.substring 0 64 issuer;
                      cd_issued_at := dr_now d; cd_verified_at := None; cd_expires_at := if 0 <? ttl then Some (dr_now d + ttl) else None |} in
          let y := set_creds (ki_creds x ++ [c]) x in
          seq! put_ident y in
          seq! persist in
          if auto_verify then mutate_credential_locked d (S k) y (length (ki_creds x)) c "verify" actor "verification passed"
          else m_ret c
    end.
Definition mutate_credential (d : Draw) (i cid action actor reason : string) : SM Cred :=
  do! found := get_ident i in
  match found with
  | None => m_raise (KeyError "identity not found")
  | Some x =>
      match list_find (fun c => cd_id c = cid) (ki_creds x) with
      | None => m_raise (KeyError "credential not found")
      | Some (n, c) => mutate_credential_locked d 0 x n c action actor reason
      end
  end.
Definition verify_credential (d : Draw) (i cid actor : string) : SM Cred := mutate_credential d i cid "verify" actor "verification passed".
Definition reject_credential (d : Draw) (i cid actor reason : string) : SM Cred :=
  mutate_credential d i cid "reject" actor (if decide (reason = ""%string) then "verification failed" else reason)%string.
Definition revoke_credential (d : Draw) (i cid actor reason : string) : SM Cred :=
  if decide (py_strip reason = ""%string) then m_raise (ValueError "revoke requires an explicit reason (audit trail)")
  else mutate_credential d i cid "revoke" actor reason.

Definition cred_due (now : Z) (c : Cred) : bool :=
  bool_decide (cd_status c = CREDENTIAL_STATE_VERIFIED) &&
  match cd_expires_at c with Some t => negb (t =? 0) && (t <=? now) | None => false end.
(** The loop over the credentials; the ones before it are done. *)
Fixpoint expire_loop (d : Draw) (k : nat) (i : string) (l : list Cred) : SM (list Cred) :=
  match l with
  | [] => m_ret []
  | c :: l =>
      if cred_due (dr_now d) c then
        do! entry := on_trust (transition GENESIS entry_digest (dr_entry d k) (dr_now d) "credential" (cd_id c) (cd_status c) "expire" "system"
                                 "ttl reached" (cred_extra i (cd_type c))) in
        do! rest := expire_loop d (S k) i l in
        m_ret (moved_cred (to_state entry) (cd_verified_at c) c :: rest)
      else do! rest := expire_loop d k i l in m_ret (c :: rest)
  end.
Definition expire_stale_credentials (d : Draw) (i : string) : SM nat :=
  do! found := get_ident i in
  match found with
  | None => m_ret 0%nat
  | Some x =>
      let n := length (filter (fun c => cred_due (dr_now d) c = true) (ki_creds x)) in
      do! l := expire_loop d 0 i (ki_creds x) in
      if decide (n = 0%nat) then m_ret n
      else seq! put_ident (set_creds l x) in seq! persist in m_ret n
  end.

(** ** The second factor *)

Definition text_is_ascii (s : string) : bool := forallb (fun c => (Ascii.nat_of_ascii c <? 128)%nat) (String.list_ascii_of_string s).
(** [secrets.compare_digest] on texts. *)
Definition compare_digest (a b : string) : result Exc bool :=
  if text_is_ascii a && text_is_ascii b then Ok (bool_decide (a = b)) else Err (TypeError "comparing strings with non-ASCII characters is not supported").
Definition release_tg (tg : Z) (i : string) : SM unit :=
  do! prev := m_get (fun s => nonempty (by_tg s !! tg)) in
  match prev with
  | Some p =>
      if decide (p = i) then m_ret tt
      else do! found := get_ident p in match found with Some y => put_ident (set_tg None None y) | None => m_ret tt end
  | None => m_ret tt
  end.
Definition tg_actor (tg : Z) : string := ("tg:" +:+ pretty tg)%string.
Definition bind_by_2fa (d : Draw) (tg : Z) (identity_id code : string) (username : option string) : SM KarmaIdentity :=
  let i := py_strip identity_id in
  do! found := get_ident i in
  match found with
  | None => m_raise (KeyError "identity does not exist")
  | Some x =>
      if decide (ki_twofa x = ""%string) then m_raise (ValueError "the code was burnt")
      else
        do! same := lift (compare_digest (ki_twofa x) (py_strip code)) in
        if negb same then m_raise (ValueError "wrong code")
        else
          seq! release_tg tg i in
          let x := set_twofa "" (set_tg (Some tg) username x) in
          seq! put_ident x in
          seq! reindex_tg x in
          do! _ := on_trust (record_event GENESIS entry_digest (dr_entry d 0) (dr_now d) "identity" i "telegram_bind" "unbound" "telegram_bound"
                               (tg_actor tg) "2fa bind success" []) in
          seq! match list_find (fun c => cd_type c = "telegram"%string /\ is_active c = true) (ki_creds x) with
               | Some (n, c) => do! _ := mutate_credential_locked d 1 x n c "revoke" (tg_actor tg) "re-bind replaces old telegram credential" in m_ret tt
               | None => m_ret tt
               end in
          do! _ := issue_credential d 2 i "telegram" "karma" 0 (tg_actor tg) true in
          seq! persist in
          do! done := get_ident i in
          m_ret (default x done)
  end.

(** ** Class and card *)

Definition set_identity_class (d : Draw) (i class actor : string) : SM KarmaIdentity :=
  if negb (mem class IDENTITY_CLASSES) then m_raise (ValueError "invalid identity_class")
  else
    do! found := get_ident i in
    match found with
    | None => m_raise (KeyError "identity not found")
    | Some x =>
        if decide (ki_class x = class) then m_ret x
        else
          do! _ := on_trust (record_event GENESIS entry_digest (dr_entry d 0) (dr_now d) "identity" i "identity_class_changed" (ki_class x) class actor
                               "set_identity_class" []) in
          let x := set_class class x in
          seq! put_ident x in seq! persist in m_ret x
    end.
Definition mask_wallet (w : string) : string :=
  (if (String.length w <=? 10)%nat then String.substring 0 2 w +:+ "…"
   else String.substring 0 6 w +:+ "…" +:+ String.substring (String.length w - 4) 4 w)%string.
Record Card := {
  kc_id : string;
  kc_class : string;
  kc_status : string;
  kc_level : string;
  kc_tg_bound : bool;
  kc_wallet : string;
  kc_restricted : bool;
  kc_creds : option (list (string * string * string * option Z * option Z));
  kc_sub_count : option nat
}.
Definition identity_card (d : Draw) (i audience scope : string) : SM Card :=
  do! found := m_get (resolve_main_identity i) in
  match found with
  | None => m_raise (KeyError "identity not found")
  | Some x =>
      if negb (mem scope ["basic"; "full"]%string) then m_raise (ValueError "scope must be basic or full")
      else
        do! _ := expire_stale_credentials d (ki_id x) in
        do! now := get_ident (ki_id x) in
        let x := default x now in
        let full := bool_decide (scope = "full"%string) in
        let card :=
          {| kc_id := ki_id x; kc_class := ki_class x; kc_status := ki_status x; kc_level := ki_level x;
             kc_tg_bound := match ki_tg x with Some _ => true | None => false end; kc_wallet := mask_wallet (ki_wallet x);
             kc_restricted := negb (bool_decide (ki_status x = "active"%string));
             kc_creds := if full then Some ((fun c => (cd_id c, cd_type c, cd_status c, cd_verified_at c, cd_expires_at c)) <$> ki_creds x) else None;
             kc_sub_count := if full then Some (length (ki_subs x)) else None |} in
        do! _ := on_trust (record_event GENESIS entry_digest (dr_entry d (length (ki_creds x))) (dr_now d) "identity" (ki_id x) "card_presented" "" ""
                             (String.substring 0 64 audience) ("scope=" +:+ scope) [("scope", JStr scope)]%string) in
        m_ret card
  end.

(** ** Runs *)

Inductive StoreOp :=
| GetOrCreate (d : Draw) (wallet : string) (meta : list (string * json))
| CreateSub (d : Draw) (parent wallet : string)
| BindTelegram (i : string) (tg : Z) (name : option string)
| Bind2fa (d : Draw) (tg : Z) (i code : string) (name : option string)
| Seed (d : Draw) (i wallet twofa : string) (policy : option (list (string * json))) (points : float)
| UpdatePolicy (i : string) (policy : list (string * json))
| AddPoints (i : string) (points : float)
| StartReferral (tg : Z) (code : string)
| IssueCredential (d : Draw) (i type issuer : string) (ttl : Z) (actor : string) (auto_verify : bool)
| VerifyCredential (d : Draw) (i cid actor : string)
| RejectCredential (d : Draw) (i cid actor reason : string)
| RevokeCredential (d : Draw) (i cid actor reason : string)
| ExpireStale (d : Draw) (i : string)
| PresentCard (d : Draw) (i audience scope : string)
| SetClass (d : Draw) (i class actor : string)
| RestartStore.

Definition run_store_op (o : StoreOp) (s : Store) : Store :=
  match o with
  | GetOrCreate d wallet meta => exec (get_or_create_by_wallet d wallet meta) s
  | CreateSub d parent wallet => exec (create_sub_identity d parent wallet) s
  | BindTelegram i tg name => exec (bind_telegram i tg name) s
  | Bind2fa d tg i code name => exec (bind_by_2fa d tg i code name) s
  | Seed d i wallet twofa policy points => exec (seed_identity d i wallet twofa policy points) s
  | UpdatePolicy i policy => exec (update_policy i policy) s
  | AddPoints i points => exec (add_karma_points i points) s
  | StartReferral tg code => exec (start_referral tg code) s
  | IssueCredential d i type issuer ttl actor auto => exec (issue_credential d 0 i type issuer ttl actor auto) s
  | VerifyCredential d i cid actor => exec (verify_credential d i cid actor) s
  | RejectCredential d i cid actor reason => exec (reject_credential d i cid actor reason) s
  | RevokeCredential d i cid actor reason => exec (revoke_credential d i cid actor reason) s
  | ExpireStale d i => exec (expire_stale_credentials d i) s
  | PresentCard d i audience scope => exec (identity_card d i audience scope) s
  | SetClass d i class actor => exec (set_identity_class d i class actor) s
  | RestartStore => restart s
  end.
Definition run_store (os : list StoreOp) (s : Store) : Store := fold_left (fun s o => run_store_op o s) os s.

(** ** The invariant *)

Definition active_types (l : list Cred) : list string := cd_type <$> filter (fun c => is_active c = true) l.
Record ident_ok (x : KarmaIdentity) : Prop := {
  io_name : ki_id x <> ""%string;
  io_active : NoDup (active_types (ki_creds x));
  io_cred_ids : NoDup (cd_id <$> ki_creds x);
  io_level : ki_level x = level_of (ki_creds x);
  io_policy : dict_get "infinite_approve"%string (ki_policy x) <> Some (JBool true);
  io_subs : NoDup (ki_subs x) /\ (length (ki_subs x) <= 2)%nat
}.
Record people_ok (d : list (string * KarmaIdentity)) : Prop := {
  po_keys : NoDup (dict_keys d);
  po_named : forall i x, dict_get i d = Some x -> ki_id x = i /\ ident_ok x;
  po_wallet : forall i x j y, dict_get i d = Some x -> dict_get j d = Some y -> ki_wallet x = ki_wallet y -> i = j;
  po_tg : forall i x j y t, dict_get i d = Some x -> dict_get j d = Some y -> ki_tg x = Some t -> ki_tg y = Some t -> i = j;
  po_parent : forall i x p, dict_get i d = Some x -> ki_parent x = Some p ->
    exists y, dict_get p d = Some y /\ ki_parent y = None /\ i ∈ ki_subs y;
  po_subs : forall i x j, dict_get i d = Some x -> j ∈ ki_subs x -> exists y, dict_get j d = Some y /\ ki_parent y = Some i
}.
Record indexed (s : Store) : Prop := {
  ix_wallet : forall w i, by_wallet s !! w = Some i <-> exists x, dict_get i (by_id s) = Some x /\ ki_wallet x = w;
  ix_tg : forall i x t, dict_get i (by_id s) = Some x -> ki_tg x = Some t -> by_tg s !! t = Some i
}.
Definition keyed (l : list KarmaIdentity) : list (string * KarmaIdentity) := (fun x => (ki_id x, x)) <$> l.
Definition store_inv (s : Store) : Prop := people_ok (by_id s) /\ indexed s /\ people_ok (keyed (saved s)).

(** What the generator draws is unused; a seed gives a new code to an identity that exists (a
    seed that creates one does not look whether its wallet is taken: [seed_takes_wallet]). *)
Definition unused_cred (d : Draw) (s : Store) : Prop :=
  forall i x c, dict_get i (by_id s) = Some x -> c ∈ ki_creds x -> cd_id c <> ("cred_" +:+ dr_cred d)%string.
Definition admissible (o : StoreOp) (s : Store) : Prop :=
  match o with
  | GetOrCreate d _ _ | CreateSub d _ _ => dict_get (new_id d) (by_id s) = None
  | Bind2fa d _ _ _ _ | IssueCredential d _ _ _ _ _ _ => unused_cred d s
  | Seed _ i _ _ _ _ => is_Some (dict_get i (by_id s))
  | _ => True
  end.
Fixpoint admissible_run (os : list StoreOp) (s : Store) : Prop :=
  match os with [] => True | o :: os => admissible o s /\ admissible_run os (run_store_op o s) end.

(** *** Identities change *)

Definition same_shape (x y : KarmaIdentity) : Prop :=
  ki_id y = ki_id x /\ ki_wallet y = ki_wallet x /\ ki_parent y = ki_parent x /\ ki_subs y = ki_subs x.
Lemma get_set {V} i j (v : V) (d : list (string * V)) : dict_get j (dict_set i v d) = if decide (i = j) then Some v else dict_get j d.
Proof. case_decide; [subst; apply dict_get_set_eq|by apply dict_get_set_ne]. Qed.

Lemma people_update d i x y : people_ok d -> dict_get i d = Some x -> same_shape x y -> ident_ok y ->
  (forall j z t, dict_get j d = Some z -> ki_tg z = Some t -> ki_tg y = Some t -> j = i) -> people_ok (dict_set i y d).
Proof.
  intros [H1 H2 H3 H4 H5 H6] Hx (E1 & E2 & E3 & E4) Hy Ht. constructor.
  - by apply dict_set_NoDup.
  - intros j z. rewrite get_set. case_decide; [|apply H2]. intros [= <-]. subst. split; [|done]. rewrite E1. by apply H2.
  - intros a u b v. rewrite !get_set. repeat case_decide; intros Ha Hb; simplify_eq; [done| | |by eapply H3]; intros E.
    + rewrite E2 in E. by eapply H3.
    + rewrite E2 in E. by eapply H3.
  - intros a u b v t. rewrite !get_set. repeat case_decide; intros Ha Hb Ea Eb; simplify_eq; [done| | |by eapply H4].
    + symmetry. by eapply Ht.
    + by eapply Ht.
  - intros a u p. rewrite get_set. case_decide; intros Ha Hp; simplify_eq.
    + rewrite E3 in Hp. destruct (H5 a x p Hx Hp) as (z & Hz & Hn & Hin). exists z. rewrite get_set, decide_False; [done|].
      intros ->. simplify_eq.
    + destruct (H5 a u p Ha Hp) as (z & Hz & Hn & Hin). rewrite get_set. case_decide; [|by exists z]. simplify_eq. eexists. split; [done|]. by rewrite E3, E4.
  - intros a u j. rewrite get_set. case_decide; intros Ha Hj; simplify_eq.
    + rewrite E4 in Hj. destruct (H6 a x j Hx Hj) as (z & Hz & Hp). rewrite get_set. case_decide; [|by exists z]. simplify_eq. eexists. split; [done|]. by rewrite E3.
    + destruct (H6 a u j Ha Hj) as (z & Hz & Hp). rewrite get_set. case_decide; [|by exists z]. simplify_eq. eexists. split; [done|]. by rewrite E3.
Qed.
Lemma people_new d x : people_ok d -> dict_get (ki_id x) d = None -> ident_ok x -> ki_tg x = None -> ki_parent x = None -> ki_subs x = [] ->
  (forall j y, dict_get j d = Some y -> ki_wallet y <> ki_wallet x) -> people_ok (dict_set (ki_id x) x d).
Proof.
  intros [H1 H2 H3 H4 H5 H6] Hn Hx Ht Hp Hs Hw. constructor.
  - by apply dict_set_NoDup.
  - intros j z. rewrite get_set. case_decide; [|apply H2]. by intros [= <-].
  - intros a u b v. rewrite !get_set. repeat case_decide; intros Ha Hb; simplify_eq; [done| | |by eapply H3]; intros E; exfalso.
    + by eapply Hw.
    + by eapply Hw.
  - intros a u b v t. rewrite !get_set. repeat case_decide; intros Ha Hb Ea Eb; simplify_eq. by eapply H4.
  - intros a u p. rewrite get_set. case_decide; intros Ha Hq; simplify_eq.
    destruct (H5 a u p Ha Hq) as (z & Hz & Hr). exists z. rewrite get_set, decide_False; [done|]. intros <-. simplify_eq.
  - intros a u j. rewrite get_set. case_decide; intros Ha Hj; simplify_eq.
    + rewrite Hs in Hj. by apply not_elem_of_nil in Hj.
    + destruct (H6 a u j Ha Hj) as (z & Hz & Hr). exists z. rewrite get_set, decide_False; [done|]. intros <-. simplify_eq.
Qed.
Lemma people_sub d p parent x : people_ok d -> dict_get p d = Some parent -> dict_get (ki_id x) d = None -> ident_ok x -> ki_tg x = None ->
  ki_parent parent = None -> ki_parent x = Some p -> ki_subs x = [] -> (length (ki_subs parent) < 2)%nat ->
  (forall j y, dict_get j d = Some y -> ki_wallet y <> ki_wallet x) ->
  people_ok (dict_set p (set_subs (ki_subs parent ++ [ki_id x]) parent) (dict_set (ki_id x) x d)).
Proof.
  intros [H1 H2 H3 H4 H5 H6] Hp Hn Hx Ht Hpp Hxp Hs Hl Hw. set (y := set_subs _ _).
  assert (Hne : p <> ki_id x) by (intros ->; simplify_eq).
  assert (Hnew : ki_id x ∉ ki_subs parent) by (intros Hin; destruct (H6 _ _ _ Hp Hin) as (z & Hz & _); simplify_eq).
  assert (Hy : ident_ok y).
  { destruct (H2 p parent Hp) as [_ [A1 A2 A3 A4 A5 [A6 A7]]]. constructor; [done..|]. cbn. rewrite length_app. cbn. split; [|lia].
    apply NoDup_app. split_and!; [done| |apply NoDup_singleton]. intros j Hj Hj'. apply list_elem_of_singleton in Hj' as ->. done. }
  constructor.
  - by do 2 apply dict_set_NoDup.
  - intros j z. rewrite !get_set. destruct (decide (p = j)) as [<-|_]; [intros [= <-]; split; [by apply (H2 p parent)|done]|].
    destruct (decide (ki_id x = j)) as [<-|_]; [by intros [= <-]|apply H2].
  - intros a u b v. rewrite !get_set. repeat case_decide; intros Ha Hb E; simplify_eq; try done; try (exfalso; by eapply Hw); by eapply H3.
  - intros a u b v t. rewrite !get_set. repeat case_decide; intros Ha Hb Ea Eb; simplify_eq; try done; by eapply H4.
  - intros a u q. rewrite (get_set p a). destruct (decide (p = a)) as [<-|Hpa]; [intros [= <-]; cbn; by rewrite Hpp|].
    rewrite (get_set (ki_id x) a). destruct (decide (ki_id x = a)) as [<-|Hxa].
    + intros [= <-]. rewrite Hxp. intros [= <-]. exists y. rewrite get_set, decide_True by done. split_and!; [done|done|]. cbn. apply elem_of_app. right. left.
    + intros Ha Hq. destruct (H5 a u q Ha Hq) as (z & Hz & Hzn & Hin). rewrite get_set. destruct (decide (p = q)) as [<-|Hpq].
      * exists y. split_and!; [done|done|]. cbn. apply elem_of_app. left. by simplify_eq.
      * exists z. rewrite get_set, decide_False; [done|]. intros <-. by simplify_eq.
  - assert (Ho : forall a u j, dict_get a d = Some u -> j ∈ ki_subs u -> exists v, dict_get j (dict_set p y (dict_set (ki_id x) x d)) = Some v /\ ki_parent v = Some a).
    { intros a u j Ha Hj. destruct (H6 a u j Ha Hj) as (z & Hz & Hzp). exists z. rewrite !get_set, !decide_False; [done|..]; intros <-; by simplify_eq. }
    intros a u j. rewrite (get_set p a). destruct (decide (p = a)) as [<-|Hpa].
    + intros [= <-] Hj. cbn in Hj. apply elem_of_app in Hj as [Hj|Hj]; [by apply (Ho p parent)|]. apply list_elem_of_singleton in Hj as ->.
      exists x. by rewrite get_set, decide_False, get_set, decide_True.
    + rewrite (get_set (ki_id x) a). destruct (decide (ki_id x = a)) as [<-|Hxa]; [|apply Ho].
      intros [= <-]. rewrite Hs. intros Hj. by apply not_elem_of_nil in Hj.
Qed.

(** *** Statements *)

Lemma keyed_values d : people_ok d -> keyed (dict_values d) = d.
Proof.
  intros [H1 H2 _ _ _ _]. unfold keyed, dict_values. rewrite <-list_fmap_compose. rewrite <-(list_fmap_id d) at 2.
  assert (Hin : forall i x, (i, x) ∈ d -> ki_id x = i).
  { intros i x Hin. apply H2. clear H2. induction d as [|[j y] d IH]; [by apply not_elem_of_nil in Hin|]. cbn in *.
    apply NoDup_cons in H1 as [Hn H1]. apply elem_of_cons in Hin as [[= -> ->]|Hin]; [by rewrite decide_True|].
    rewrite decide_False; [by apply IH|]. intros ->. apply Hn. by apply (list_elem_of_fmap_2 fst) in Hin. }
  apply list_fmap_ext. intros n [i x] Hn. cbn. f_equal. apply Hin. by apply list_elem_of_lookup_2 in Hn.
Qed.
Lemma inv_trust t s : store_inv s -> store_inv (set_trust t s).
Proof. intros (H1 & [H2 H3] & H4). done. Qed.
Lemma inv_persist s : store_inv s -> store_inv (exec persist s).
Proof.
  intros (H1 & [H2 H3] & H4). unfold exec, persist. cbn. split_and!; [done|done|]. cbn. destruct (default _ _); [|done]. by rewrite keyed_values.
Qed.
Lemma exec_persist {A} (k : SM A) s : exec (seq! persist in k) s = exec k (exec persist s).
Proof. done. Qed.
Lemma exec_persist_ret {A} (a : A) s : store_inv s -> store_inv (exec (seq! persist in m_ret a) s).
Proof. rewrite exec_persist. apply inv_persist. Qed.

Lemma index_put i x y s : indexed s -> dict_get i (by_id s) = Some x -> ki_id y = i -> ki_wallet y = ki_wallet x -> ki_tg y = ki_tg x \/ ki_tg y = None ->
  indexed (exec (put_ident y) s).
Proof.
  intros [H2 H3] Hx Hi E2 Ht. unfold exec, put_ident, m_put. cbn. rewrite Hi. constructor; cbn.
  - intros w j. rewrite H2, get_set. case_decide; [|done]. subst. split; intros (z & Hz & Hw); simplify_eq; eauto.
  - intros j z t. rewrite get_set. case_decide; [|apply H3]. intros [= <-] Hz. subst. destruct Ht as [Ht|Ht]; [|congruence]. rewrite Ht in Hz. by eapply H3.
Qed.
Lemma inv_put i x y s : store_inv s -> dict_get i (by_id s) = Some x -> same_shape x y -> ident_ok y -> ki_tg y = ki_tg x \/ ki_tg y = None ->
  store_inv (exec (put_ident y) s).
Proof.
  intros (H1 & H2 & H4) Hx Hs Hy Ht. destruct (po_named _ H1 i x Hx) as [E _]. pose proof Hs as (E1 & E2 & E3 & E4).
  assert (Hi : ki_id y = i) by congruence. split_and!; [|by apply (index_put i x)|done]. unfold exec, put_ident, m_put. cbn. rewrite Hi.
  apply (people_update _ i x y); [done..|]. intros j z t Hj Hz Hyt. destruct Ht as [Ht|Ht]; [|congruence]. rewrite Ht in Hyt. by eapply (po_tg _ H1).
Qed.
Lemma inv_take_tg i x y t s : store_inv s -> dict_get i (by_id s) = Some x -> same_shape x y -> ident_ok y -> ki_tg y = Some t ->
  (forall j z, dict_get j (by_id s) = Some z -> ki_tg z = Some t -> j = i) -> store_inv (exec (seq! put_ident y in reindex_tg y) s).
Proof.
  intros (H1 & [H2 H3] & H4) Hx Hs Hy Ht Hj. destruct (po_named _ H1 i x Hx) as [E _]. pose proof Hs as (E1 & E2 & E3 & E4).
  assert (Hi : ki_id y = i) by congruence. unfold exec, put_ident, reindex_tg, m_bind, m_put. cbn. rewrite Hi, Ht. split_and!; [|constructor|done]; cbn.
  - apply (people_update _ i x y); [done..|]. intros j z t' Hz Hzt Hyt. apply (Hj j z Hz). congruence.
  - intros w j. rewrite H2, get_set. case_decide; [|done]. subst. split; intros (z & Hz & Hw); simplify_eq; eauto.
  - intros j z t'. rewrite get_set. case_decide as Ej; intros Hz Hzt.
    + simplify_eq. apply lookup_insert_eq.
    + rewrite lookup_insert_ne; [by eapply H3|]. intros <-. apply Ej. symmetry. by eapply Hj.
Qed.
Lemma wallet_free w s : indexed s -> by_wallet s !! w = None -> forall j y, dict_get j (by_id s) = Some y -> ki_wallet y <> w.
Proof. intros [H _] Hw j y Hy E. assert (by_wallet s !! w = Some j); [|congruence]. apply H. eauto. Qed.
Lemma index_new w i x s : indexed s -> dict_get i (by_id s) = None -> by_wallet s !! ki_wallet x = None ->
  <[ki_wallet x := i]> (by_wallet s) !! w = Some (i : string) <-> ki_wallet x = w.
Proof.
  intros Hx Hi Hw. split; [|intros <-; apply lookup_insert_eq]. rewrite lookup_insert_Some. intros [[E _]|[_ H]]; [done|].
  apply (ix_wallet _ Hx) in H as (y & Hy & _). congruence.
Qed.
Lemma index_add x s : indexed s -> dict_get (ki_id x) (by_id s) = None -> by_wallet s !! ki_wallet x = None -> ki_tg x = None -> indexed (exec (add_ident x) s).
Proof.
  intros Hx Hn Hw Ht. unfold exec, add_ident, put_ident, reindex_wallet, reindex_invite, m_bind, m_put. constructor; cbn.
  - intros w j. rewrite get_set. case_decide as E; [subst|].
    + rewrite (index_new w _ x s) by done. split; [intros <-; eauto|]. by intros (z & [= <-] & <-).
    + destruct (decide (ki_wallet x = w)) as [<-|Hne].
      * rewrite lookup_insert_eq. split; [congruence|]. intros (z & Hz & Ez). by apply (wallet_free _ s Hx Hw) in Hz.
      * rewrite lookup_insert_ne by done. apply Hx.
  - intros j z t. rewrite get_set. case_decide; [|apply Hx]. intros [= <-]. congruence.
Qed.
Lemma inv_add x s : store_inv s -> dict_get (ki_id x) (by_id s) = None -> by_wallet s !! ki_wallet x = None -> ident_ok x -> ki_tg x = None ->
  ki_parent x = None -> ki_subs x = [] -> store_inv (exec (add_ident x) s).
Proof.
  intros (H1 & Hx & H4) Hn Hw Hok Ht Hp Hs. split_and!; [|by apply index_add|done]. apply people_new; try done. by apply (wallet_free _ s).
Qed.

Lemma fresh_ident_ok d i w meta policy parent referred points twofa : i <> ""%string ->
  dict_get "infinite_approve"%string policy <> Some (JBool true) -> ident_ok (new_ident d i w meta policy parent referred points twofa).
Proof. intros Hi Hp. constructor; try done; try apply NoDup_nil_2. cbn. split; [apply NoDup_nil_2|lia]. Qed.
Lemma new_id_name d : new_id d <> ""%string.
Proof. done. Qed.

Lemma inv_get_or_create d wallet meta s : store_inv s -> dict_get (new_id d) (by_id s) = None -> store_inv (exec (get_or_create_by_wallet d wallet meta) s).
Proof.
  intros Hs Hd. unfold exec, get_or_create_by_wallet, m_bind at 1, m_get. destruct (get_by_wallet wallet s) as [x|] eqn:E; [done|].
  change (store_inv (exec (seq! persist in m_ret (new_ident d (new_id d) (py_lower wallet) meta default_policy None None fzero ""))
    (exec (add_ident (new_ident d (new_id d) (py_lower wallet) meta default_policy None None fzero "")) s))).
  apply exec_persist_ret, inv_add; try done; [|by apply fresh_ident_ok]. cbn. destruct (by_wallet s !! py_lower wallet) as [i|] eqn:Ei; [|done]. exfalso.
  destruct Hs as (H1 & Hx & _). pose proof Ei as Ej. apply (ix_wallet _ Hx) in Ei as (x & Hi & _).
  unfold get_by_wallet, identity_at in E. rewrite Ej in E. destruct (po_named _ H1 i x Hi) as [<- Hok]. pose proof (io_name _ Hok) as Hname.
  destruct (ki_id x) eqn:Ek; [done|]. cbn in E. congruence.
Qed.

Lemma nonempty_none i : nonempty i = None <-> i = None \/ i = Some ""%string.
Proof. destruct i as [[|c i]|]; cbn; naive_solver. Qed.
Lemma nonempty_some i j : nonempty i = Some j <-> i = Some j /\ j <> ""%string.
Proof. destruct i as [[|c i]|]; cbn; naive_solver. Qed.
(** A main identity has no parent: names are not empty. *)
Lemma no_parent s i x : store_inv s -> dict_get i (by_id s) = Some x -> nonempty (ki_parent x) = None -> ki_parent x = None.
Proof.
  intros (H1 & _) Hx Hn. apply nonempty_none in Hn as [|Hn]; [done|]. destruct (po_parent _ H1 i x _ Hx Hn) as (y & Hy & _).
  destruct (po_named _ H1 _ y Hy) as [E Hok]. by destruct (io_name _ Hok).
Qed.

Lemma inv_create_sub d p wallet s : store_inv s -> dict_get (new_id d) (by_id s) = None -> store_inv (exec (create_sub_identity d p wallet) s).
Proof.
  intros Hs Hd. unfold exec, create_sub_identity, m_bind at 1, get_ident, m_get. destruct (dict_get p (by_id s)) as [parent|] eqn:Hp; [|done].
  destruct (decide (nonempty (ki_parent parent) <> None)) as [|Hpp]; [done|]. apply dec_stable in Hpp. pose proof (no_parent s p parent Hs Hp Hpp) as Hmain.
  destruct (2 <=? length (ki_subs parent))%nat eqn:Hl; [done|]. apply Nat.leb_gt in Hl.
  unfold m_bind at 1. destruct (by_wallet s !! py_lower wallet) as [|] eqn:Hw; [done|].
  set (x := new_ident _ _ _ _ _ _ _ _ _). destruct Hs as (H1 & Hx & H4). destruct (po_named _ H1 p parent Hp) as [Ep Hok].
  assert (Hne : ki_id x <> p) by (intros E; cbn in E; congruence).
  change (store_inv (exec (seq! persist in m_ret x) (exec (put_ident (set_subs (ki_subs parent ++ [ki_id x]) parent)) (exec (add_ident x) s)))).
  apply exec_persist_ret. split_and!; [|apply (index_put p parent)|done].
  - change (people_ok (dict_set (ki_id parent) (set_subs (ki_subs parent ++ [ki_id x]) parent) (dict_set (ki_id x) x (by_id s)))). rewrite Ep.
    apply (people_sub _ p parent x); try done; [apply fresh_ident_ok; [done|by apply Hok]|]. by apply (wallet_free _ s).
  - by apply index_add.
  - change (dict_get p (dict_set (ki_id x) x (by_id s)) = Some parent). by rewrite get_set, decide_False.
  - done.
  - done.
  - by left.
Qed.

(** One identity is read, assigned to and saved. *)
Lemma inv_edit {A} i x y (a : A) s : store_inv s -> dict_get i (by_id s) = Some x -> same_shape x y -> ident_ok y -> ki_tg y = ki_tg x ->
  store_inv (exec (seq! put_ident y in seq! persist in m_ret a) s).
Proof.
  intros Hs Hx Hsh Hy Ht. change (store_inv (exec (seq! persist in m_ret a) (exec (put_ident y) s))).
  apply exec_persist_ret, (inv_put i x); auto.
Qed.
Lemma ident_of s i x : store_inv s -> dict_get i (by_id s) = Some x -> ident_ok x /\ ki_id x = i.
Proof. intros (H1 & _) Hx. destruct (po_named _ H1 i x Hx). done. Qed.

Lemma inv_seed d i wallet twofa policy points s : store_inv s -> admissible (Seed d i wallet twofa policy points) s ->
  store_inv (exec (seed_identity d i wallet twofa policy points) s).
Proof.
  intros Hs [x Hx]. unfold exec, seed_identity, m_bind at 1, get_ident, m_get. rewrite Hx.
  refine (inv_edit i x _ _ s Hs Hx _ _ _); try done. destruct (ident_of s i x Hs Hx) as [[A1 A2 A3 A4 A5 A6] _]. by constructor.
Qed.
Lemma inv_policy i policy s : store_inv s -> store_inv (exec (update_policy i policy) s).
Proof.
  intros Hs. unfold exec, update_policy, m_bind at 1, get_ident, m_get. destruct (dict_get i (by_id s)) as [x|] eqn:Hx; [|done].
  case_decide; [done|]. refine (inv_edit i x _ _ s Hs Hx _ _ _); try done. destruct (ident_of s i x Hs Hx) as [[A1 A2 A3 A4 A5 A6] _]. constructor; try done.
  cbn. by rewrite dict_get_set_eq.
Qed.
Lemma main_in s i x : store_inv s -> dict_get i (by_id s) = Some x -> exists j, dict_get j (by_id s) = Some (main_of x s).
Proof.
  intros Hs Hx. unfold main_of. destruct (nonempty (ki_parent x)) as [p|]; [|by exists i]. destruct (dict_get p (by_id s)) as [y|] eqn:E; [by exists p|by exists i].
Qed.
Lemma inv_points i points s : store_inv s -> store_inv (exec (add_karma_points i points) s).
Proof.
  intros Hs. unfold exec, add_karma_points, m_bind at 1, get_ident, m_get. destruct (dict_get i (by_id s)) as [x|] eqn:Hx; [|done].
  unfold m_bind at 1. destruct (main_in s i x Hs Hx) as [j Hj]. refine (inv_edit j (main_of x s) _ _ s Hs Hj _ _ _); try done.
  destruct (ident_of s j _ Hs Hj) as [[A1 A2 A3 A4 A5 A6] _]. by constructor.
Qed.
Lemma inv_referral tg code s : store_inv s -> store_inv (exec (start_referral tg code) s).
Proof.
  intros Hs. unfold exec, start_referral, m_bind at 1, m_get. destruct (get_by_invite_code code s); [|done]. case_decide; [done|].
  unfold m_bind at 1. destruct (get_by_telegram tg s) as [x|] eqn:Hx; [|done]. case_decide; [|done].
  unfold get_by_telegram, identity_at in Hx. destruct (nonempty (by_tg s !! tg)) as [i|]; [|done]. cbn in Hx.
  change (store_inv (exec persist (exec (put_ident (set_referred (Some code) x)) s))). apply inv_persist, (inv_put i x); try done; [|by left].
  destruct (ident_of s i _ Hs Hx) as [[A1 A2 A3 A4 A5 A6] _]. by constructor.
Qed.
Lemma tg_holder tg j z s : store_inv s -> dict_get j (by_id s) = Some z -> ki_tg z = Some tg -> nonempty (by_tg s !! tg) = Some j.
Proof.
  intros Hs Hz Ht. destruct (ident_of s j z Hs Hz) as [Hok E]. destruct Hs as (_ & [_ H3] & _). rewrite (H3 j z tg Hz Ht).
  apply nonempty_some. split; [done|]. rewrite <-E. apply Hok.
Qed.
Lemma inv_bind_telegram i tg name s : store_inv s -> store_inv (exec (bind_telegram i tg name) s).
Proof.
  intros Hs. unfold exec, bind_telegram, m_bind at 1, get_ident, m_get. destruct (dict_get i (by_id s)) as [x|] eqn:Hx; [|done].
  unfold m_bind at 1. destruct (match nonempty _ with Some _ => _ | None => _ end) eqn:Hp; [done|].
  set (y := set_tg (Some tg) name x).
  change (store_inv (exec (seq! persist in m_ret y) (exec (seq! put_ident y in reindex_tg y) s))).
  apply exec_persist_ret, (inv_take_tg i x y tg); try done; [destruct (ident_of s i x Hs Hx) as [[] _]; by constructor|].
  intros j z Hz Hzt. rewrite (tg_holder tg j z s Hs Hz Hzt) in Hp. apply negb_false_iff, bool_decide_eq_true in Hp. done.
Qed.

(** *** Credentials change *)

(** A credential keeps its name and type and is not revived. *)
Definition moves (c c' : Cred) : Prop := cd_id c' = cd_id c /\ cd_type c' = cd_type c /\ (is_active c' = true -> is_active c = true).
Lemma moves_ids l l' : Forall2 moves l l' -> cd_id <$> l' = cd_id <$> l.
Proof. induction 1 as [|c c' l l' (E & _) _ IH]; [done|]. cbn. by rewrite E, IH. Qed.
Lemma moves_active l l' : Forall2 moves l l' -> active_types l' `sublist_of` active_types l.
Proof.
  unfold active_types. induction 1 as [|c c' l l' (_ & E & Ha) _ IH]; [done|]. rewrite !filter_cons. repeat case_decide; cbn.
  - rewrite E. by constructor.
  - naive_solver.
  - by constructor.
  - done.
Qed.
Lemma moves_insert l n c c' : l !! n = Some c -> moves c c' -> Forall2 moves l (<[n := c']> l).
Proof.
  revert n. induction l as [|a l IH]; intros [|n]; intros Hn Hm; simplify_eq/=; constructor; try done; [|by apply IH].
  clear. induction l; constructor; done.
Qed.
Lemma creds_moved_ok x l : ident_ok x -> Forall2 moves (ki_creds x) l -> ident_ok (set_creds l x).
Proof.
  intros [A1 A2 A3 A4 A5 A6] Hl. constructor; cbn; try done.
  - eapply sublist_NoDup; [exact A2|]. by apply moves_active.
  - by rewrite (moves_ids _ _ Hl).
Qed.
(** What an action on a credential does, by the table of [TrustLedger]. *)
Lemma table_moves status action to_ : dict_get (status, action) CREDENTIAL_TRANSITIONS = Some to_ -> action ∈ ["verify"; "reject"; "revoke"; "expire"]%string ->
  status = CREDENTIAL_STATE_PENDING \/ status = CREDENTIAL_STATE_VERIFIED.
Proof.
  intros H Ha. apply dict_get_In in H. unfold CREDENTIAL_TRANSITIONS in H. unfold CREDENTIAL_STATE_PENDING, CREDENTIAL_STATE_VERIFIED in *.
  repeat (apply elem_of_cons in H as [[= -> -> ->]|H]; [first [by left|by right|exfalso; clear -Ha; set_solver]|]). by apply not_elem_of_nil in H.
Qed.
Lemma transition_run rid now etype eid from action who why ex (t : Trust) :
  match dict_get (from, action) CREDENTIAL_TRANSITIONS with
  | Some to_ => exists t', transition GENESIS entry_digest rid now etype eid from action who why ex t =
      (Ok (new_body rid now etype eid ("credential_" +:+ action) from to_ who why ex), t') /\
      ledger t' = appended GENESIS entry_digest (ledger t) (new_body rid now etype eid ("credential_" +:+ action) from to_ who why ex)
  | None => exists e t', transition GENESIS entry_digest rid now etype eid from action who why ex t = (Err e, t') /\ ledger t' = ledger t
  end.
Proof.
  unfold transition. destruct (dict_get _ _) as [to_|].
  - destruct (append_run GENESIS entry_digest rid now etype eid ("credential_" +:+ action) from to_ who why ex t) as (t' & Hr & Hl & _). eauto.
  - match goal with |- context [m_bind (broadcast_alert ?a ?b ?c ?d ?e ?f) ?k t] => destruct (broadcast_bind a b c d e f k t) as (al & t' & Hl & _ & ->) end.
    eauto.
Qed.

Lemma is_active_iff c : is_active c = true <-> cd_status c = CREDENTIAL_STATE_PENDING \/ cd_status c = CREDENTIAL_STATE_VERIFIED.
Proof. unfold is_active. by rewrite orb_true_iff, !bool_decide_eq_true. Qed.

Lemma inv_mutate d k i x n c action actor reason s : store_inv s -> dict_get i (by_id s) = Some x -> ki_creds x !! n = Some c ->
  action ∈ ["verify"; "reject"; "revoke"; "expire"]%string -> store_inv (exec (mutate_credential_locked d k x n c action actor reason) s).
Proof.
  intros Hs Hx Hn Ha. unfold exec, mutate_credential_locked, m_bind at 1, on_trust, zoom.
  pose proof (transition_run (dr_entry d k) (dr_now d) "credential" (cd_id c) (cd_status c) action actor reason (cred_extra (ki_id x) (cd_type c)) (trust s)) as Ht.
  destruct (dict_get (cd_status c, action) CREDENTIAL_TRANSITIONS) as [to_|] eqn:E; [destruct Ht as (t' & -> & _)|destruct Ht as (ex & t' & -> & _); by apply inv_trust].
  apply table_moves in E; [|done]. pose proof (inv_trust t' s Hs) as Hs'.
  refine (inv_edit i x _ _ (set_trust t' s) Hs' Hx _ _ _); try done. destruct (ident_of s i x Hs Hx) as [Hok _]. apply creds_moved_ok; [done|].
  apply (moves_insert _ _ c); [done|]. split_and!; [done|done|]. intros _. by apply is_active_iff.
Qed.
Lemma inv_mutate_credential d i cid action actor reason s : store_inv s -> action ∈ ["verify"; "reject"; "revoke"; "expire"]%string ->
  store_inv (exec (mutate_credential d i cid action actor reason) s).
Proof.
  intros Hs Ha. unfold exec, mutate_credential, m_bind at 1, get_ident, m_get. destruct (dict_get i (by_id s)) as [x|] eqn:Hx; [|done].
  destruct (list_find _ (ki_creds x)) as [[n c]|] eqn:Hf; [|done]. apply list_find_Some in Hf as (Hn & _). by eapply inv_mutate.
Qed.

Lemma add_cred_ok x c : ident_ok x -> is_active c = true -> cd_type c ∉ active_types (ki_creds x) -> cd_id c ∉ cd_id <$> ki_creds x ->
  ident_ok (set_creds (ki_creds x ++ [c]) x).
Proof.
  intros [A1 A2 A3 A4 A5 A6] Ha Ht Hi. constructor; cbn; try done.
  - unfold active_types. rewrite filter_app, fmap_app, (filter_cons _ c), decide_True by done. cbn. apply NoDup_app. split_and!; [done| |apply NoDup_singleton].
    intros t Hin Hin'. apply list_elem_of_singleton in Hin' as ->. done.
  - rewrite fmap_app. cbn. apply NoDup_app. split_and!; [done| |apply NoDup_singleton]. intros t Hin Hin'. apply list_elem_of_singleton in Hin' as ->. done.
Qed.
(** No credential of a type is active. *)
Lemma none_active type l : existsb (fun c => bool_decide (cd_type c = type) && is_active c) l = false <-> type ∉ active_types l.
Proof.
  unfold active_types. split.
  - intros H Hin. apply list_elem_of_fmap in Hin as (c & -> & Hc). apply list_elem_of_filter in Hc as [Ha Hc]. apply list_elem_of_In in Hc.
    assert (existsb (fun x => bool_decide (cd_type x = cd_type c) && is_active x) l = true); [|congruence].
    apply existsb_exists. exists c. split; [done|]. by rewrite Ha, bool_decide_eq_true_2.
  - intros H. apply not_true_iff_false. intros He. apply existsb_exists in He as (c & Hc & Hb). apply andb_true_iff in Hb as [Hb Ha].
    apply bool_decide_eq_true in Hb. subst. apply H, list_elem_of_fmap_2, list_elem_of_filter. split; [done|]. by apply list_elem_of_In.
Qed.

Lemma issued_inv i x c t s : store_inv s -> dict_get i (by_id s) = Some x -> is_active c = true -> cd_type c ∉ active_types (ki_creds x) ->
  cd_id c ∉ cd_id <$> ki_creds x -> store_inv (exec persist (exec (put_ident (set_creds (ki_creds x ++ [c]) x)) (set_trust t s))).
Proof.
  intros Hs Hx Ha Ht Hi. apply inv_persist, (inv_put i x); try done; [by apply inv_trust| |by left]. destruct (ident_of s i x Hs Hx) as [Hok _]. by apply add_cred_ok.
Qed.
Lemma inv_issue d k i type issuer ttl actor auto s : store_inv s -> unused_cred d s -> store_inv (exec (issue_credential d k i type issuer ttl actor auto) s).
Proof.
  intros Hs Hu. unfold exec, issue_credential. destruct (negb _); [done|]. destruct (_ || _); [done|].
  unfold m_bind at 1, get_ident, m_get. destruct (dict_get i (by_id s)) as [x|] eqn:Hx; [|done]. destruct (existsb _ _) eqn:Hex; [done|].
  unfold m_bind at 1, on_trust, zoom.
  pose proof (transition_run (dr_entry d k) (dr_now d) "credential" ("cred_" +:+ dr_cred d) "" "issue" actor ("issue " +:+ type +:+ " for " +:+ i) (cred_extra i type) (trust s)) as Ht.
  change (dict_get (""%string, "issue"%string) CREDENTIAL_TRANSITIONS) with (Some CREDENTIAL_STATE_PENDING) in Ht. destruct Ht as (t' & -> & _).
  set (c := {| cd_id := _ |}). set (y := set_creds (ki_creds x ++ [c]) x). pose proof (inv_trust t' s Hs) as Hs'.
  destruct (ident_of s i x Hs Hx) as [Hok Ei].
  assert (H2 : store_inv (exec persist (exec (put_ident y) (set_trust t' s)))).
  { apply (issued_inv i); try done; [by apply none_active|]. intros Hin. apply list_elem_of_fmap in Hin as (c' & E & Hc'). by apply (Hu i x c' Hx Hc'). }
  destruct auto; [|exact H2]. apply (inv_mutate d (S k) i y); [exact H2| | |set_solver].
  - change (dict_get i (dict_set (ki_id x) y (by_id s)) = Some y). rewrite Ei. apply dict_get_set_eq.
  - cbn. by apply list_lookup_middle.
Qed.

Lemma expire_loop_spec d i l k s : exists l' t', expire_loop d k i l s = (Ok l', set_trust t' s) /\ Forall2 moves l l'.
Proof.
  revert k s. induction l as [|c l IH]; intros k s; [exists [], (trust s); by destruct s|]. cbn [expire_loop].
  destruct (cred_due (dr_now d) c) eqn:Hd.
  - unfold m_bind at 1, on_trust, zoom. apply andb_true_iff in Hd as [Hv _]. apply bool_decide_eq_true in Hv.
    pose proof (transition_run (dr_entry d k) (dr_now d) "credential" (cd_id c) (cd_status c) "expire" "system" "ttl reached" (cred_extra i (cd_type c)) (trust s)) as Ht.
    assert (E : dict_get (cd_status c, "expire"%string) CREDENTIAL_TRANSITIONS = Some CREDENTIAL_STATE_EXPIRED) by (by rewrite Hv). rewrite E in Ht.
    destruct Ht as (t' & -> & _). unfold m_bind. destruct (IH (S k) (set_trust t' s)) as (l' & t2 & -> & Hl'). exists (moved_cred CREDENTIAL_STATE_EXPIRED (cd_verified_at c) c :: l'), t2.
    split; [done|]. constructor; [|done]. split_and!; [done|done|]. intros Ha. discriminate Ha.
  - unfold m_bind. destruct (IH k s) as (l' & t' & -> & Hl'). exists (c :: l'), t'. split; [done|]. by constructor.
Qed.
Lemma inv_expire d i s : store_inv s -> store_inv (exec (expire_stale_credentials d i) s).
Proof.
  intros Hs. unfold exec, expire_stale_credentials, m_bind at 1, get_ident, m_get. destruct (dict_get i (by_id s)) as [x|] eqn:Hx; [|done].
  unfold m_bind at 1. destruct (expire_loop_spec d i (ki_creds x) 0 s) as (l & t & -> & Hl). case_decide; [by apply inv_trust|].
  refine (inv_edit i x _ _ (set_trust t s) (inv_trust t s Hs) Hx _ _ _); try done. destruct (ident_of s i x Hs Hx) as [Hok _]. by apply creds_moved_ok.
Qed.

(** *** Binding by the second factor *)

(** The dictionaries a state agrees in. *)
Definition same_maps (s s' : Store) : Prop := by_wallet s' = by_wallet s /\ by_tg s' = by_tg s /\ by_invite s' = by_invite s.

Lemma mutate_run d k i x n c action to_ actor reason s : dict_get (cd_status c, action) CREDENTIAL_TRANSITIONS = Some to_ ->
  ki_id x = i -> exists c' s', mutate_credential_locked d k x n c action actor reason s = (Ok c', s') /\ cd_id c' = cd_id c /\ cd_type c' = cd_type c /\
    cd_status c' = to_ /\ by_id s' = dict_set i (set_creds (<[n := c']> (ki_creds x)) x) (by_id s) /\ same_maps s s'.
Proof.
  intros E <-. unfold mutate_credential_locked, m_bind at 1, on_trust, zoom.
  pose proof (transition_run (dr_entry d k) (dr_now d) "credential" (cd_id c) (cd_status c) action actor reason (cred_extra (ki_id x) (cd_type c)) (trust s)) as Ht.
  rewrite E in Ht. destruct Ht as (t' & -> & _). unfold put_ident, persist, m_bind, m_put, m_ret. cbn. do 2 eexists. split; [reflexivity|]. done.
Qed.
Lemma issue_run d k i x type issuer actor s : dict_get i (by_id s) = Some x -> ki_id x = i -> mem type CREDENTIAL_TYPES = true ->
  type ∉ active_types (ki_creds x) -> exists c s', issue_credential d k i type issuer 0 actor true s = (Ok c, s') /\ cd_type c = type /\
    cd_status c = CREDENTIAL_STATE_VERIFIED /\ dict_get i (by_id s') = Some (set_creds (ki_creds x ++ [c]) x) /\
    (forall j, j <> i -> dict_get j (by_id s') = dict_get j (by_id s)) /\ same_maps s s'.
Proof.
  intros Hx Hi Ht Ha. unfold issue_credential. rewrite Ht. cbn [negb]. change ((0 <? 0) || (10 * 365 * 86400 <? 0)) with false. cbv iota.
  unfold m_bind at 1, get_ident, m_get. rewrite Hx. apply none_active in Ha. rewrite Ha. unfold m_bind at 1, on_trust, zoom.
  pose proof (transition_run (dr_entry d k) (dr_now d) "credential" ("cred_" +:+ dr_cred d) "" "issue" actor ("issue " +:+ type +:+ " for " +:+ i) (cred_extra i type) (trust s)) as Hr.
  change (dict_get (""%string, "issue"%string) CREDENTIAL_TRANSITIONS) with (Some CREDENTIAL_STATE_PENDING) in Hr. destruct Hr as (t' & -> & _).
  set (c := {| cd_id := _ |}). set (y := set_creds (ki_creds x ++ [c]) x). unfold m_bind at 1, put_ident at 1, m_put at 1. unfold m_bind at 1, persist at 1.
  match goal with |- context [mutate_credential_locked _ _ _ _ _ _ _ _ ?st] => set (s1 := st) end.
  destruct (mutate_run d (S k) i y (length (ki_creds x)) c "verify" CREDENTIAL_STATE_VERIFIED actor "verification passed" s1 eq_refl Hi)
    as (c' & s' & -> & _ & Et & Es & Hid & Hm).
  exists c', s'. split_and!; try done; try apply Hm.
  - rewrite Hid, dict_get_set_eq. cbn [y set_creds edit_ident ki_creds]. rewrite (insert_app_r_alt (ki_creds x) [c]), Nat.sub_diag by lia. done.
  - intros j Hj. rewrite Hid, get_set, decide_False by done. unfold s1. cbn. by rewrite get_set, Hi, decide_False.
Qed.

Lemma release_run tg i x s : store_inv s -> dict_get i (by_id s) = Some x -> exists s1, release_tg tg i s = (Ok tt, s1) /\ store_inv s1 /\
  dict_get i (by_id s1) = Some x /\ (forall j z, dict_get j (by_id s1) = Some z -> ki_tg z = Some tg -> j = i) /\
  (forall j y, dict_get j (by_id s1) = Some y -> exists z, dict_get j (by_id s) = Some z /\ (y = z \/ y = set_tg None None z /\ nonempty (by_tg s !! tg) = Some j)) /\ same_maps s s1.
Proof.
  intros Hs Hx. unfold release_tg, m_bind at 1, m_get. destruct (nonempty (by_tg s !! tg)) as [p|] eqn:Hp.
  2: { exists s. split_and!; try done; [|eauto]. intros j z Hz Hzt. pose proof (tg_holder tg j z s Hs Hz Hzt). congruence. }
  case_decide as Epi.
  { exists s. split_and!; try done; [|eauto]. intros j z Hz Hzt. pose proof (tg_holder tg j z s Hs Hz Hzt). congruence. }
  unfold m_bind, get_ident, m_get. destruct (dict_get p (by_id s)) as [y|] eqn:Hy.
  2: { exists s. split_and!; try done; [|eauto]. intros j z Hz Hzt. pose proof (tg_holder tg j z s Hs Hz Hzt). congruence. }
  destruct (ident_of s p y Hs Hy) as [Hok Ey].
  exists (exec (put_ident (set_tg None None y)) s). split_and!; try done.
  - apply (inv_put p y); try done; [destruct Hok; by constructor|by right].
  - cbn. by rewrite get_set, decide_False by congruence.
  - intros j z. cbn. rewrite get_set. case_decide as Ej; [intros [= <-]; done|]. intros Hz Hzt. pose proof (tg_holder tg j z s Hs Hz Hzt). congruence.
  - intros j z. cbn. rewrite get_set. case_decide as Ej; [intros [= <-]|eauto]. exists y. split; [congruence|]. right. split; [done|congruence].
Qed.

Lemma types_after_revoke l n c c' type : NoDup (active_types l) -> list_find (fun c => cd_type c = type /\ is_active c = true) l = Some (n, c) ->
  cd_type c' = cd_type c -> is_active c' = false -> type ∉ active_types (<[n := c']> l).
Proof.
  intros Hd Hf Et Ha. apply list_find_Some in Hf as (Hn & [Hty Hact] & _). revert n Hn Hd. induction l as [|a l IH]; intros [|n] Hn Hd; simplify_eq/=.
  - unfold active_types in *. rewrite filter_cons, decide_True in Hd by done. cbn in Hd. apply NoDup_cons in Hd as [Hd _].
    rewrite filter_cons, decide_False by congruence. done.
  - unfold active_types in *. rewrite filter_cons in Hd |- *. case_decide; [|by apply IH]. cbn in *. apply NoDup_cons in Hd as [Hd1 Hd].
    intros Hin. apply elem_of_cons in Hin as [E|Hin]; [|by apply (IH n)]. apply Hd1. rewrite <-E. apply list_elem_of_fmap_2, list_elem_of_filter.
    split; [done|]. by eapply list_elem_of_lookup_2.
Qed.
Lemma none_found type l : list_find (fun c => cd_type c = type /\ is_active c = true) l = None -> type ∉ active_types l.
Proof.
  intros Hf Hin. apply list_find_None in Hf. unfold active_types in Hin. apply list_elem_of_fmap in Hin as (c & -> & Hc). apply list_elem_of_filter in Hc as [Ha Hc].
  rewrite Forall_forall in Hf. by apply (Hf c Hc).
Qed.

(** The revocation of an earlier telegram credential. *)
Definition revoke_old (d : Draw) (tg : Z) (x : KarmaIdentity) : SM unit :=
  match list_find (fun c => cd_type c = "telegram"%string /\ is_active c = true) (ki_creds x) with
  | Some (n, c) => do! _ := mutate_credential_locked d 1 x n c "revoke" (tg_actor tg) "re-bind replaces old telegram credential" in m_ret tt
  | None => m_ret tt
  end.
Lemma revoke_old_run d tg i x s : store_inv s -> dict_get i (by_id s) = Some x -> exists l s', revoke_old d tg x s = (Ok tt, s') /\ store_inv s' /\
  dict_get i (by_id s') = Some (set_creds l x) /\ cd_id <$> l = cd_id <$> ki_creds x /\ ("telegram"%string ∉ active_types l) /\
  (forall j, j <> i -> dict_get j (by_id s') = dict_get j (by_id s)) /\ same_maps s s'.
Proof.
  intros Hs Hx. destruct (ident_of s i x Hs Hx) as [Hok Ei]. unfold revoke_old. destruct (list_find _ _) as [[n c]|] eqn:Hf.
  2: { exists (ki_creds x), s. split_and!; try done; [|by apply none_found]. rewrite Hx. f_equal. destruct x, Hok. cbn in *. by subst. }
  pose proof Hf as Hf'. apply list_find_Some in Hf' as (Hn & [Hty Hact] & _).
  assert (E : dict_get (cd_status c, "revoke"%string) CREDENTIAL_TRANSITIONS = Some CREDENTIAL_STATE_REVOKED) by (apply is_active_iff in Hact as [-> | ->]; done).
  destruct (mutate_run d 1 i x n c "revoke" _ (tg_actor tg) "re-bind replaces old telegram credential" s E Ei) as (c' & s' & Hr & E1 & E2 & E3 & Hid & Hm).
  exists (<[n := c']> (ki_creds x)), s'. unfold m_bind. rewrite Hr. split_and!; try done; try apply Hm.
  - pose proof (inv_mutate d 1 i x n c "revoke" (tg_actor tg) "re-bind replaces old telegram credential" s Hs Hx Hn ltac:(set_solver)) as H. unfold exec in H. by rewrite Hr in H.
  - rewrite Hid. apply dict_get_set_eq.
  - apply moves_ids, (moves_insert _ _ c); [done|]. split_and!; [done|done|]. by intros _.
  - eapply types_after_revoke; [apply Hok|exact Hf|done|]. unfold is_active. by rewrite E3.
  - intros j Hj. by rewrite Hid, get_set, decide_False.
Qed.

(** The drawn credential is still unused before it is issued. *)
Lemma unused_kept d tg i x y l s s1 s2 s4 : unused_cred d s -> dict_get i (by_id s) = Some x -> ki_id x = i -> ki_creds y = ki_creds x ->
  (forall j u, dict_get j (by_id s1) = Some u -> exists z, dict_get j (by_id s) = Some z /\ (u = z \/ u = set_tg None None z /\ nonempty (by_tg s !! tg) = Some j)) ->
  by_id s2 = dict_set (ki_id x) y (by_id s1) -> dict_get i (by_id s4) = Some (set_creds l y) -> cd_id <$> l = cd_id <$> ki_creds y ->
  (forall j, j <> i -> dict_get j (by_id s4) = dict_get j (by_id s2)) -> unused_cred d s4.
Proof.
  intros Hu Hx Ei Ec Hold Hid Hy4 Hids Ho4 j z c Hz Hin. destruct (decide (j = i)) as [->|Hj].
  - rewrite Hy4 in Hz. injection Hz as <-. assert (Hin' : cd_id c ∈ cd_id <$> ki_creds x) by (rewrite <-Ec, <-Hids; by apply list_elem_of_fmap_2).
    apply list_elem_of_fmap in Hin' as (c0 & -> & Hc0). by apply (Hu i x).
  - rewrite Ho4, Hid, get_set, Ei, decide_False in Hz by done. destruct (Hold j z Hz) as (z0 & Hz0 & [->|[-> _]]); by apply (Hu j z0).
Qed.
Lemma bind_2fa_run d tg identity_id code name x s : store_inv s -> unused_cred d s -> dict_get (py_strip identity_id) (by_id s) = Some x ->
  ki_twofa x <> ""%string -> compare_digest (ki_twofa x) (py_strip code) = Ok true ->
  exists y s', bind_by_2fa d tg identity_id code name s = (Ok y, s') /\ store_inv s' /\ dict_get (py_strip identity_id) (by_id s') = Some y /\
    same_shape x y /\ ki_tg y = Some tg /\ ki_twofa y = ""%string /\ by_tg s' !! tg = Some (py_strip identity_id) /\
    (exists c, c ∈ ki_creds y /\ cd_type c = "telegram"%string /\ cd_status c = CREDENTIAL_STATE_VERIFIED) /\
    (forall j z, j <> py_strip identity_id -> dict_get j (by_id s') = Some z ->
       exists z0, dict_get j (by_id s) = Some z0 /\ (z = z0 \/ z = set_tg None None z0 /\ nonempty (by_tg s !! tg) = Some j)).
Proof.
  intros Hs Hu Hx Hc Hd. set (i := py_strip identity_id) in *. destruct (ident_of s i x Hs Hx) as [Hok Ei].
  unfold bind_by_2fa. fold i. unfold m_bind at 1, get_ident at 1, m_get at 1. rewrite Hx, decide_False by done. unfold m_bind at 1, lift. rewrite Hd. cbn [negb].
  destruct (release_run tg i x s Hs Hx) as (s1 & Hrel & Hs1 & Hx1 & Htg1 & Hold1 & Hm1). unfold m_bind at 1. rewrite Hrel.
  set (y := set_twofa "" (set_tg (Some tg) name x)).
  assert (Hy : ident_ok y) by (destruct Hok; by constructor).
  pose proof (inv_take_tg i x y tg s1 Hs1 Hx1 ltac:(done) Hy ltac:(done) Htg1) as Hs2.
  unfold m_bind at 1, put_ident at 1, m_put at 1. unfold m_bind at 1, reindex_tg at 1, m_put at 1.
  match goal with |- context [m_bind (on_trust _) _ ?st] => set (s2 := st) end. change (store_inv s2) in Hs2.
  assert (Hy2 : dict_get i (by_id s2) = Some y) by (cbn; rewrite Ei; apply dict_get_set_eq).
  unfold m_bind at 1, on_trust, zoom, record_event. 
  match goal with |- context [append_ledger _ _ ?a ?b ?c ?e ?f ?g ?h ?j ?k ?l ?t] =>
    destruct (append_run GENESIS entry_digest a b c e f g h j k l t) as (t' & -> & _ & _) end.
  set (s3 := set_trust t' s2). assert (Hs3 : store_inv s3) by by apply inv_trust.
  fold (revoke_old d tg y). unfold m_bind at 1. destruct (revoke_old_run d tg i y s3 Hs3 Hy2) as (l & s4 & -> & Hs4 & Hy4 & Hids & Hnone & Ho4 & Hm4).
  assert (Hu4 : unused_cred d s4) by exact (unused_kept d tg i x y l s s1 s3 s4 Hu Hx Ei eq_refl Hold1 eq_refl Hy4 Hids Ho4).
  unfold m_bind at 1.
  destruct (issue_run d 2 i (set_creds l y) "telegram" "karma" (tg_actor tg) s4 Hy4 Ei ltac:(vm_compute; reflexivity) Hnone) as (c & s5 & Hr5 & Et & Es & Hy5 & Ho5 & Hm5).
  pose proof (inv_issue d 2 i "telegram" "karma" 0 (tg_actor tg) true s4 Hs4 Hu4) as Hs5. unfold exec in Hs5. rewrite Hr5 in Hs5 |- *. cbn in Hs5.
  unfold m_bind at 1, persist at 1. unfold m_bind, get_ident, m_get. cbn [by_id]. rewrite Hy5. cbn [default].
  exists (set_creds (l ++ [c]) (set_creds l y)). eexists. split; [reflexivity|]. split_and!.
  - apply (inv_persist s5 Hs5).
  - exact Hy5.
  - done.
  - done.
  - done.
  - cbn. destruct Hm5 as (_ & -> & _). destruct Hm4 as (_ & -> & _). unfold s3, s2. cbn. rewrite Ei. apply lookup_insert_eq.
  - exists c. cbn. split_and!; try done. apply elem_of_app. right. left.
  - intros j z Hj. cbn [by_id]. rewrite Ho5, Ho4 by done. cbn. rewrite get_set, Ei, decide_False by done. apply Hold1.
Qed.
Lemma inv_bind_2fa d tg identity_id code name s : store_inv s -> unused_cred d s -> store_inv (exec (bind_by_2fa d tg identity_id code name) s).
Proof.
  intros Hs Hu. destruct (dict_get (py_strip identity_id) (by_id s)) as [x|] eqn:Hx.
  2: { unfold exec, bind_by_2fa, m_bind at 1, get_ident, m_get. by rewrite Hx. }
  destruct (decide (ki_twofa x = ""%string)) as [Hc|Hc].
  { unfold exec, bind_by_2fa, m_bind at 1, get_ident, m_get. by rewrite Hx, decide_True. }
  destruct (compare_digest (ki_twofa x) (py_strip code)) as [[]|ex] eqn:Hd.
  - destruct (bind_2fa_run d tg identity_id code name x s Hs Hu Hx Hc Hd) as (y & s' & Hr & Hs' & _). unfold exec. by rewrite Hr.
  - unfold exec, bind_by_2fa, m_bind at 1, get_ident, m_get. rewrite Hx, decide_False by done. unfold m_bind at 1, lift. by rewrite Hd.
  - unfold exec, bind_by_2fa, m_bind at 1, get_ident, m_get. rewrite Hx, decide_False by done. unfold m_bind at 1, lift. by rewrite Hd.
Qed.

(** *** The other calls *)

Lemma on_trust_event {A} rid now etype eid ev from to_ who why ex (k : EntryBody -> SM A) s : store_inv s ->
  (forall b t, store_inv (exec (k b) (set_trust t s))) ->
  store_inv (exec (do! b := on_trust (record_event GENESIS entry_digest rid now etype eid ev from to_ who why ex) in k b) s).
Proof.
  intros Hs Hk. unfold exec, m_bind, on_trust, zoom, record_event.
  destruct (append_run GENESIS entry_digest rid now etype eid ev from to_ who why ex (trust s)) as (t' & -> & _). apply Hk.
Qed.
Lemma inv_set_class d i class actor s : store_inv s -> store_inv (exec (set_identity_class d i class actor) s).
Proof.
  intros Hs. unfold set_identity_class. destruct (negb _); [done|]. unfold exec, m_bind at 1, get_ident, m_get.
  destruct (dict_get i (by_id s)) as [x|] eqn:Hx; [|done]. case_decide; [done|]. apply on_trust_event; [done|]. intros b t.
  refine (inv_edit i x _ _ (set_trust t s) (inv_trust t s Hs) Hx _ _ _); try done. destruct (ident_of s i x Hs Hx) as [[] _]. by constructor.
Qed.
Lemma inv_card d i audience scope s : store_inv s -> store_inv (exec (identity_card d i audience scope) s).
Proof.
  intros Hs. unfold exec, identity_card, m_bind at 1, m_get. destruct (resolve_main_identity i s) as [x|]; [|done]. destruct (negb _); [done|].
  pose proof (inv_expire d (ki_id x) s Hs) as He. unfold m_bind at 1. unfold exec in He. destruct (expire_stale_credentials d (ki_id x) s) as [[n|ex] s1]; [|done]. cbn in He.
  unfold m_bind at 1, get_ident, m_get. apply on_trust_event; [done|]. intros b t. by apply inv_trust.
Qed.

Lemma keyed_get l i x : dict_get i (keyed l) = Some x -> x ∈ l /\ ki_id x = i.
Proof. intros H. apply dict_get_In in H. unfold keyed in H. apply list_elem_of_fmap in H as (y & [= -> ->] & Hy). done. Qed.
Lemma keyed_in l x : NoDup (dict_keys (keyed l)) -> x ∈ l -> dict_get (ki_id x) (keyed l) = Some x.
Proof.
  induction l as [|y l IH]; intros Hd Hx; [by apply not_elem_of_nil in Hx|]. cbn in *. apply NoDup_cons in Hd as [Hn Hd].
  apply elem_of_cons in Hx as [->|Hx]; [by rewrite decide_True|]. rewrite decide_False; [by apply IH|]. intros E. apply Hn. rewrite <-E.
  unfold dict_keys, keyed. rewrite <-list_fmap_compose. by apply (list_elem_of_fmap_2 ki_id).
Qed.
Lemma load_all full pre l s : people_ok (keyed full) -> full = pre ++ l -> by_id s = keyed pre ->
  (forall w i, by_wallet s !! w = Some i <-> exists x, x ∈ pre /\ ki_id x = i /\ ki_wallet x = w) ->
  (forall x t, x ∈ pre -> ki_tg x = Some t -> by_tg s !! t = Some (ki_id x)) ->
  let s' := fold_left load_ident l s in by_id s' = keyed full /\ saved s' = saved s /\
  (forall w i, by_wallet s' !! w = Some i <-> exists x, x ∈ full /\ ki_id x = i /\ ki_wallet x = w) /\
  (forall x t, x ∈ full -> ki_tg x = Some t -> by_tg s' !! t = Some (ki_id x)).
Proof.
  intros Hok. revert pre s. induction l as [|a l IH]; intros pre s -> Hid Hw Ht; [rewrite app_nil_r; done|]. cbn [fold_left].
  assert (Hnd : NoDup (dict_keys (keyed (pre ++ a :: l)))) by apply Hok.
  assert (Hin : forall x, x ∈ pre ++ [a] -> dict_get (ki_id x) (keyed (pre ++ a :: l)) = Some x) by (intros x Hx; apply keyed_in; [done|set_solver]).
  assert (Hfree : dict_get (ki_id a) (keyed pre) = None).
  { apply dict_get_None. unfold keyed, dict_keys in *. rewrite !fmap_app in Hnd. apply NoDup_app in Hnd as (_ & Hnd & _). intros H. apply (Hnd _ H). cbn. left. }
  specialize (IH (pre ++ [a]) (load_ident s a)). cbv zeta in IH. rewrite <-app_assoc in IH. apply IH; clear IH; [done| | |].
  - cbn. rewrite Hid, (dict_set_new _ _ _ Hfree). unfold keyed. by rewrite fmap_app.
  - intros w i. cbn. rewrite lookup_insert_Some, Hw. split.
    + intros [[<- <-]|[_ (x & Hx & E)]]; [exists a|exists x]; set_solver.
    + intros (x & Hx & Ei & Ew). apply elem_of_app in Hx as [Hx|Hx]; [|apply list_elem_of_singleton in Hx as ->; auto].
      destruct (decide (ki_wallet a = w)) as [Ea|Ea]; [left|right; eauto]. split; [done|]. rewrite <-Ei.
      eapply (po_wallet _ Hok); [apply Hin; set_solver|apply Hin; set_solver|congruence].
  - intros x t Hx Hxt. cbn. apply elem_of_app in Hx as [Hx|Hx].
    + destruct (ki_tg a) as [t'|] eqn:Ea; [|by apply Ht]. destruct (decide (t' = t)) as [->|Hne].
      * rewrite lookup_insert_eq. f_equal. eapply (po_tg _ Hok); [apply Hin; set_solver|apply Hin; set_solver|done|done].
      * rewrite lookup_insert_ne by done. by apply Ht.
    + apply list_elem_of_singleton in Hx as ->. rewrite Hxt. apply lookup_insert_eq.
Qed.
Lemma inv_restart s : store_inv s -> store_inv (restart s).
Proof.
  intros (_ & _ & H). unfold restart. set (s0 := {| by_id := [] |}).
  destruct (load_all (saved s) [] (saved s) s0 H eq_refl eq_refl) as (Hid & Hsv & Hw & Ht).
  - intros w i. cbn. rewrite lookup_empty. split; [done|]. intros (x & Hx & _). by apply not_elem_of_nil in Hx.
  - intros x t Hx. by apply not_elem_of_nil in Hx.
  - split_and!; [by rewrite Hid|constructor|by rewrite Hsv]; rewrite Hid.
    + intros w i. rewrite Hw. split.
      * intros (x & Hx & <- & <-). exists x. split; [|done]. by apply keyed_in; [apply H|].
      * intros (x & Hx & <-). apply keyed_get in Hx as [Hx <-]. eauto.
    + intros i x t Hx Hxt. apply keyed_get in Hx as [Hx <-]. by apply Ht.
Qed.

Lemma run_store_op_inv o s : store_inv s -> admissible o s -> store_inv (run_store_op o s).
Proof.
  intros Hs Ha. destruct o; cbn [run_store_op].
  - by apply inv_get_or_create.
  - by apply inv_create_sub.
  - by apply inv_bind_telegram.
  - by apply inv_bind_2fa.
  - by apply inv_seed.
  - by apply inv_policy.
  - by apply inv_points.
  - by apply inv_referral.
  - by apply inv_issue.
  - apply inv_mutate_credential; [done|set_solver].
  - apply inv_mutate_credential; [done|set_solver].
  - unfold revoke_credential. case_decide; [done|]. apply inv_mutate_credential; [done|set_solver].
  - by apply inv_expire.
  - by apply inv_card.
  - by apply inv_set_class.
  - by apply inv_restart.
Qed.
Lemma run_store_inv os s : store_inv s -> admissible_run os s -> store_inv (run_store os s).
Proof. revert s. induction os as [|o os IH]; intros s Hs Ha; [done|]. destruct Ha as [Ho Ha]. by apply IH; [apply run_store_op_inv|]. Qed.

(** ** What the invariant gives *)

Lemma wallet_found s i x w : store_inv s -> dict_get i (by_id s) = Some x -> py_lower w = ki_wallet x -> get_by_wallet w s = Some x.
Proof.
  intros Hs Hx Hw. destruct (ident_of s i x Hs Hx) as [Hok Ei]. destruct Hs as (_ & [H2 _] & _). unfold get_by_wallet, identity_at.
  assert (E : by_wallet s !! py_lower w = Some i) by (apply H2; eauto). rewrite E. pose proof (io_name _ Hok) as Hn. rewrite Ei in Hn.
  destruct i; [done|]. exact Hx.
Qed.
Lemma tg_found s i x t : store_inv s -> dict_get i (by_id s) = Some x -> ki_tg x = Some t -> get_by_telegram t s = Some x.
Proof. intros Hs Hx Ht. unfold get_by_telegram, identity_at. by rewrite (tg_holder t i x s Hs Hx Ht). Qed.
Lemma main_spec s i x : store_inv s -> dict_get i (by_id s) = Some x -> exists m, resolve_main_identity i s = Some m /\
  resolve_main_identity (ki_id m) s = Some m /\ ki_parent m = None /\ (length (get_sub_identities (ki_id m) s) <= 2)%nat /\
  (m = x \/ x ∈ get_sub_identities (ki_id m) s).
Proof.
  intros Hs Hx. assert (Hmain : forall j m, dict_get j (by_id s) = Some m -> ki_parent m = None ->
    resolve_main_identity (ki_id m) s = Some m /\ (length (get_sub_identities (ki_id m) s) <= 2)%nat).
  { intros j m Hm Hp. destruct (ident_of s j m Hs Hm) as [Hok Ej]. unfold resolve_main_identity, get_sub_identities, main_of. rewrite Ej, Hm, Hp. split; [done|].
    etransitivity; [|apply (io_subs _ Hok)]. clear. induction (ki_subs m) as [|a l IH]; [done|]. cbn. destruct (dict_get a (by_id s)); cbn; lia. }
  unfold resolve_main_identity at 1. rewrite Hx. unfold main_of. destruct (ki_parent x) as [p|] eqn:Hp.
  - destruct Hs as (H1 & H2 & H3). destruct (po_parent _ H1 i x p Hx Hp) as (m & Hm & Hn & Hin). destruct (po_named _ H1 p m Hm) as [Ep Hok].
    assert (nonempty (Some p) = Some p) as -> by (apply nonempty_some; split; [done|]; rewrite <-Ep; apply Hok). rewrite Hm. cbn.
    exists m. destruct (Hmain p m Hm Hn). split_and!; try done. right. unfold get_sub_identities. rewrite Ep, Hm. apply list_elem_of_omap. eauto.
  - exists x. destruct (Hmain i x Hx Hp). split_and!; try done. by left.
Qed.

(** C25. One wallet, one telegram account, one person behind them.  After any calls, failed
    writes and restarts, where the names the generator draws are unused and [seed_identity]
    only gives a new code to an identity that exists (a seed that creates one, as the test
    scripts do, does not look at its wallet and is left out): no two identities share a wallet
    or a telegram account, the look-ups return the identity that has the wallet or the account,
    every identity has a main identity that is its own main and has at most two sub-identities;
    nobody holds two active credentials of one type, the level is what the verified credentials
    give, and no policy approves without limit. *)
Theorem identity_store_invariant os s : store_inv s -> admissible_run os s ->
  let s' := run_store os s in
  store_inv s' /\
  (forall i x, dict_get i (by_id s') = Some x -> (forall w, py_lower w = ki_wallet x -> get_by_wallet w s' = Some x) /\
     (forall t, ki_tg x = Some t -> get_by_telegram t s' = Some x)) /\
  (forall i x, dict_get i (by_id s') = Some x -> exists m, resolve_main_identity i s' = Some m /\ resolve_main_identity (ki_id m) s' = Some m /\
     ki_parent m = None /\ (length (get_sub_identities (ki_id m) s') <= 2)%nat /\ (m = x \/ x ∈ get_sub_identities (ki_id m) s')) /\
  (forall i x, dict_get i (by_id s') = Some x -> NoDup (active_types (ki_creds x)) /\ ki_level x = level_of (ki_creds x) /\
     dict_get "infinite_approve"%string (ki_policy x) <> Some (JBool true)).
Proof.
  intros Hs Ha s'. pose proof (run_store_inv os s Hs Ha) as Hs'. fold s' in Hs'. split_and!; [done|..]; intros i x Hx.
  - split; [intros w; by eapply wallet_found|intros t; by eapply tg_found].
  - by apply main_spec.
  - destruct (ident_of s' i x Hs' Hx) as [[] _]. done.
Qed.

Lemma verified_level l c : c ∈ l -> cd_status c = CREDENTIAL_STATE_VERIFIED -> level_of l <> VERIFICATION_UNVERIFIED.
Proof.
  intros Hc Hv. unfold level_of. assert (Hin : cd_type c ∈ verified_types l).
  { unfold verified_types. apply elem_of_remove_dups, list_elem_of_fmap_2, list_elem_of_filter. done. }
  destruct (_ && _); [done|]. destruct (verified_types l); [by apply not_elem_of_nil in Hin|done].
Qed.
Lemma burnt_code_refused d tg identity_id code name s x : dict_get (py_strip identity_id) (by_id s) = Some x -> ki_twofa x = ""%string ->
  is_ok (outcome (bind_by_2fa d tg identity_id code name) s) = false.
Proof. intros Hx Hc. unfold outcome, bind_by_2fa, m_bind at 1, get_ident, m_get. by rewrite Hx, decide_True. Qed.

(** C26. The second factor opens the door once, to its holder.  Binding a telegram account
    succeeds only when the identity exists and the code is the one it was given, and fails,
    changing nothing, only when the identity does not exist, has no code, has another code, or
    the code is not ASCII text.  After it succeeds, the account resolves to that identity, which
    has a verified telegram credential and a level; every other identity is as it was, or it is
    the one the telegram index named for this account and has lost its binding, whichever
    account it was bound to by then ([wrong_account_released]); and no code binds the identity
    again until a new one is seeded. *)
Theorem bind_2fa_exact d tg identity_id code name s : store_inv s -> unused_cred d s ->
  let i := py_strip identity_id in
  match bind_by_2fa d tg identity_id code name s with
  | (Ok y, s') =>
      (exists x, dict_get i (by_id s) = Some x /\ ki_twofa x <> ""%string /\ ki_twofa x = py_strip code /\ same_shape x y) /\
      store_inv s' /\ dict_get i (by_id s') = Some y /\ get_by_telegram tg s' = Some y /\ ki_level y <> VERIFICATION_UNVERIFIED /\
      (exists c, c ∈ ki_creds y /\ cd_type c = "telegram"%string /\ cd_status c = CREDENTIAL_STATE_VERIFIED) /\
      (forall j z, j <> i -> dict_get j (by_id s') = Some z ->
         exists z0, dict_get j (by_id s) = Some z0 /\ (z = z0 \/ z = set_tg None None z0 /\ by_tg s !! tg = Some j)) /\
      (forall d2 tg2 code2 name2, is_ok (outcome (bind_by_2fa d2 tg2 identity_id code2 name2) s') = false)
  | (Err _, s') =>
      s' = s /\ (dict_get i (by_id s) = None \/ exists x, dict_get i (by_id s) = Some x /\
                   (ki_twofa x = ""%string \/ ki_twofa x <> py_strip code \/ text_is_ascii (py_strip code) = false))
  end.
Proof.
  intros Hs Hu i. destruct (dict_get i (by_id s)) as [x|] eqn:Hx.
  2: { unfold bind_by_2fa, m_bind at 1, get_ident, m_get. fold i. rewrite Hx. split; [done|by left]. }
  destruct (decide (ki_twofa x = ""%string)) as [Hc|Hc].
  { unfold bind_by_2fa, m_bind at 1, get_ident, m_get. fold i. rewrite Hx, decide_True by done. split; [done|]. right. eauto. }
  destruct (compare_digest (ki_twofa x) (py_strip code)) as [[]|ex] eqn:Hd.
  - destruct (bind_2fa_run d tg identity_id code name x s Hs Hu Hx Hc Hd) as (y & s' & -> & Hs' & Hy & Hsh & Ht & Hb & _ & Hcred & Ho).
    unfold compare_digest in Hd. destruct (_ && _); [|done]. injection Hd as Hd. apply bool_decide_eq_true in Hd. split_and!; try done; eauto.
    + by eapply tg_found.
    + destruct Hcred as (c & Hin & _ & Hv). destruct (ident_of s' i y Hs' Hy) as [Hok _]. rewrite (io_level _ Hok). by eapply verified_level.
    + intros j z Hj Hz. destruct (Ho j z Hj Hz) as (z0 & Hz0 & [->|[-> Hn]]); [eauto|]. apply nonempty_some in Hn as [Hn _]. eauto.
    + intros. by eapply burnt_code_refused.
  - unfold bind_by_2fa, m_bind at 1, get_ident, m_get. fold i. rewrite Hx, decide_False by done. unfold m_bind at 1, lift. rewrite Hd. cbn. split; [done|]. right.
    exists x. split; [done|]. right; left. unfold compare_digest in Hd. destruct (_ && _); [|done]. injection Hd as Hd. by apply bool_decide_eq_false in Hd.
  - unfold bind_by_2fa, m_bind at 1, get_ident, m_get. fold i. rewrite Hx, decide_False by done. unfold m_bind at 1, lift. rewrite Hd. cbn. split; [done|]. right.
    exists x. split; [done|]. right. unfold compare_digest in Hd. destruct (text_is_ascii (ki_twofa x)) eqn:Ea; cbn in Hd.
    + destruct (text_is_ascii (py_strip code)) eqn:Eb; [done|]. by right.
    + destruct (decide (ki_twofa x = py_strip code)) as [E|E]; [right; by rewrite <-E|by left].
Qed.

(** ** Credentials and the ledger *)

Definition entries_of (cid : string) (l : list EntryBody) : list EntryBody :=
  filter (fun b => entity_type b = "credential"%string /\ entity_id b = cid) l.
Definition legal_entry (b : EntryBody) : bool :=
  existsb (fun row => bool_decide (from_state b = fst (fst row)) && bool_decide (event b = ("credential_" +:+ snd (fst row))%string) &&
                      bool_decide (to_state b = snd row)) CREDENTIAL_TRANSITIONS.
(** The status a credential has after its entries, when they follow the table. *)
Definition walk (l : list EntryBody) : option string :=
  foldl (fun acc b => acc ≫= fun cur => if bool_decide (from_state b = cur) && legal_entry b then Some (to_state b) else None) (Some ""%string) l.
Definition creds_at (s : Store) (i : string) : list Cred := match dict_get i (by_id s) with Some x => ki_creds x | None => [] end.
Definition bodies (s : Store) : list EntryBody := body <$> ledger (trust s).
Definition room (s : Store) : Prop := Z.of_nat (length (ledger (trust s))) < LEDGER_MAX.
Record agrees (f : string -> list Cred) (l : list EntryBody) : Prop := {
  ag_status : forall i c, c ∈ f i -> walk (entries_of (cd_id c) l) = Some (cd_status c);
  ag_owner : forall i c j c', c ∈ f i -> c' ∈ f j -> cd_id c = cd_id c' -> i = j;
  ag_known : forall b, b ∈ l -> entity_type b = "credential"%string -> exists i c, c ∈ f i /\ cd_id c = entity_id b
}.

Lemma agrees_ext f g l : (forall i, g i = f i) -> agrees f l -> agrees g l.
Proof.
  intros E [H1 H2 H3]. constructor.
  - intros i c. rewrite E. apply H1.
  - intros i c j c'. rewrite !E. apply H2.
  - intros b Hb Ht. destruct (H3 b Hb Ht) as (i & c & Hc & Hi). exists i, c. by rewrite E.
Qed.
Lemma appended_room (l : list (Entry (Hash := Hash))) b : Z.of_nat (length (appended GENESIS entry_digest l b)) < LEDGER_MAX ->
  Z.of_nat (length l) < LEDGER_MAX /\ body <$> appended GENESIS entry_digest l b = (body <$> l) ++ [b].
Proof.
  unfold appended. destruct (Z.ltb_spec LEDGER_MAX (Z.of_nat (length (l ++ [{| body := b; entry_hash := entry_digest (last_hash GENESIS l) b |}])))) as [Hlt|Hge].
  - rewrite rebase_length, length_drop. rewrite length_app in *. cbn in *. lia.
  - rewrite length_app, fmap_app. cbn. split; [lia|done].
Qed.
Lemma agrees_other f l b : entity_type b <> "credential"%string -> agrees f l -> agrees f (l ++ [b]).
Proof.
  intros Hb [H1 H2 H3]. constructor; [|done|].
  - intros i c Hc. unfold entries_of. rewrite filter_app, (filter_cons _ b), decide_False by naive_solver. rewrite filter_nil, app_nil_r. by apply (H1 i c).
  - intros b' Hb' Ht. apply elem_of_app in Hb' as [Hb'|Hb']; [by apply H3|]. apply list_elem_of_singleton in Hb' as ->. done.
Qed.
Lemma walk_snoc l b cur : walk l = Some cur -> from_state b = cur -> legal_entry b = true -> walk (l ++ [b]) = Some (to_state b).
Proof. intros H <- Hl. unfold walk in *. rewrite foldl_app, H. cbn [foldl]. unfold mbind, option_bind. by rewrite bool_decide_eq_true_2, Hl. Qed.
Lemma entries_snoc cid l b : entries_of cid (l ++ [b]) = entries_of cid l ++ (if decide (entity_type b = "credential"%string /\ entity_id b = cid) then [b] else []).
Proof. unfold entries_of. rewrite filter_app, filter_cons, filter_nil. done. Qed.

(** The credentials of one identity change. *)
Definition with_creds (i : string) (l : list Cred) (f : string -> list Cred) : string -> list Cred := fun j => if decide (j = i) then l else f j.
Lemma agrees_move f i l l' pre post c c' b : agrees (with_creds i l f) (l' : list EntryBody) -> l = pre ++ c :: post -> NoDup (cd_id <$> l) ->
  entity_type b = "credential"%string -> entity_id b = cd_id c -> cd_id c' = cd_id c -> from_state b = cd_status c -> to_state b = cd_status c' ->
  legal_entry b = true -> agrees (with_creds i (pre ++ c' :: post) f) (l' ++ [b]).
Proof.
  intros [H1 H2 H3] -> Hd Ht Hb Hc Hf Hto Hl.
  assert (Hown : forall j x, x ∈ with_creds i (pre ++ c' :: post) f j -> x = c' /\ j = i \/ x ∈ with_creds i (pre ++ c :: post) f j /\ cd_id x <> cd_id c).
  { intros j x. unfold with_creds. case_decide as Ej; intros Hx.
    - subst. rewrite fmap_app in Hd. cbn in Hd. apply NoDup_app in Hd as (_ & Hd1 & Hd2). apply NoDup_cons in Hd2 as [Hd2 _].
      apply elem_of_app in Hx as [Hx|Hx]; [|apply elem_of_cons in Hx as [->|Hx]; [by left|]]; right; (split; [set_solver|]); intros E.
      + apply (Hd1 (cd_id x)); [by apply list_elem_of_fmap_2|]. rewrite E. left.
      + apply Hd2. rewrite <-E. by apply list_elem_of_fmap_2.
    - right. split; [done|]. intros E. apply Ej. eapply (H2 j x i c); [by unfold with_creds; rewrite decide_False|by unfold with_creds; rewrite decide_True; [set_solver|]|done]. }
  assert (Hin : c ∈ with_creds i (pre ++ c :: post) f i) by (unfold with_creds; rewrite decide_True by done; set_solver).
  assert (Hin' : c' ∈ with_creds i (pre ++ c' :: post) f i) by (unfold with_creds; rewrite decide_True by done; set_solver).
  constructor.
  - intros j x Hx. rewrite entries_snoc. destruct (Hown j x Hx) as [[-> ->]|[Hx' Hne]].
    + rewrite decide_True by (split; congruence). rewrite Hc, <-Hto. apply (walk_snoc _ _ (cd_status c)); [|done|done]. by apply (H1 i c).
    + rewrite decide_False by naive_solver congruence. rewrite app_nil_r. by apply (H1 j x).
  - intros j x k y Hx Hy E. destruct (Hown j x Hx) as [[-> ->]|[Hx' Hnx]], (Hown k y Hy) as [[-> ->]|[Hy' Hny]]; try done; try congruence. by eapply H2.
  - intros b' Hb' Ht'. apply elem_of_app in Hb' as [Hb'|Hb'].
    + destruct (H3 b' Hb' Ht') as (j & x & Hx & Ex). destruct (decide (cd_id x = cd_id c)) as [E|E]; [exists i, c'; split; [done|congruence]|].
      exists j, x. split; [|done]. unfold with_creds in *. case_decide; [|done]. apply elem_of_app in Hx as [Hx|Hx]; [set_solver|].
      apply elem_of_cons in Hx as [->|Hx]; [done|set_solver].
    + apply list_elem_of_singleton in Hb' as ->. exists i, c'. split; [done|congruence].
Qed.
Lemma agrees_issue f i l l' c b : agrees (with_creds i l f) (l' : list EntryBody) -> (forall j x, x ∈ with_creds i l f j -> cd_id x <> cd_id c) ->
  entity_type b = "credential"%string -> entity_id b = cd_id c -> from_state b = ""%string -> to_state b = cd_status c -> legal_entry b = true ->
  agrees (with_creds i (l ++ [c]) f) (l' ++ [b]).
Proof.
  intros [H1 H2 H3] Hnew Ht Hb Hf Hto Hl.
  assert (Hown : forall j x, x ∈ with_creds i (l ++ [c]) f j -> x = c /\ j = i \/ x ∈ with_creds i l f j).
  { intros j x. unfold with_creds. case_decide; [subst|by right]. intros Hx. apply elem_of_app in Hx as [Hx|Hx]; [by right|]. apply list_elem_of_singleton in Hx. by left. }
  assert (Hin : c ∈ with_creds i (l ++ [c]) f i) by (unfold with_creds; rewrite decide_True by done; set_solver).
  constructor.
  - intros j x Hx. rewrite entries_snoc. destruct (Hown j x Hx) as [[-> ->]|Hx'].
    + rewrite decide_True by done. assert (entries_of (cd_id c) l' = []) as ->; [|rewrite <-Hto; by apply (walk_snoc [] b ""%string)].
      apply filter_none. intros b' Hb' [Ht' Hi']. destruct (H3 b' Hb' Ht') as (k & y & Hy & Ey). apply (Hnew k y Hy). congruence.
    + rewrite decide_False, app_nil_r; [by apply (H1 j x)|]. intros [_ E]. apply (Hnew j x Hx'). congruence.
  - intros j x k y Hx Hy E. destruct (Hown j x Hx) as [[-> ->]|Hx'], (Hown k y Hy) as [[-> ->]|Hy']; [done| | |by eapply H2].
    + by destruct (Hnew k y Hy').
    + by destruct (Hnew j x Hx').
  - intros b' Hb' Ht'. apply elem_of_app in Hb' as [Hb'|Hb'].
    + destruct (H3 b' Hb' Ht') as (j & x & Hx & Ex). exists j, x. split; [|done]. unfold with_creds in *. case_decide; [set_solver|done].
    + apply list_elem_of_singleton in Hb' as ->. by exists i, c.
Qed.

(** *** Every call keeps the agreement *)

(** While the ledger has room after a call, it had room before, and the agreement is kept. *)
Definition keeps (s s' : Store) : Prop := room s' -> room s /\ (agrees (creds_at s) (bodies s) -> agrees (creds_at s') (bodies s')).
Lemma keeps_refl s : keeps s s.
Proof. done. Qed.
Lemma keeps_trans s1 s2 s3 : keeps s1 s2 -> keeps s2 s3 -> keeps s1 s3.
Proof. intros H1 H2 Hr. destruct (H2 Hr) as [Hr2 H3]. destruct (H1 Hr2). auto. Qed.
Lemma keeps_frame s s' : ledger (trust s') = ledger (trust s) -> (forall i, creds_at s' i = creds_at s i) -> keeps s s'.
Proof. intros Hl Hc Hr. unfold room, bodies in *. rewrite Hl in *. split; [done|]. by apply agrees_ext. Qed.
Lemma keeps_persist s : keeps s (exec persist s).
Proof. by apply keeps_frame. Qed.
Lemma kept_put i x y s : dict_get i (by_id s) = Some x -> ki_id y = i -> ki_creds y = ki_creds x -> keeps s (exec (put_ident y) s).
Proof.
  intros Hx <- E. apply keeps_frame; [done|]. intros j. unfold creds_at. cbn. rewrite get_set. case_decide; [subst|done]. by rewrite Hx, E.
Qed.
Lemma keeps_add x s : dict_get (ki_id x) (by_id s) = None -> ki_creds x = [] -> keeps s (exec (add_ident x) s).
Proof.
  intros Hx E. apply keeps_frame; [done|]. intros j. unfold creds_at. cbn. rewrite get_set. case_decide; [subst|done]. by rewrite Hx, E.
Qed.
Lemma keeps_index y s : keeps s (exec (reindex_tg y) s).
Proof. by apply keeps_frame. Qed.
Lemma kept_event rid now eid ev from to_ who why ex s : exists t, on_trust (record_event GENESIS entry_digest rid now "identity" eid ev from to_ who why ex) s =
  (Ok (new_body rid now "identity" eid ev from to_ who why ex), set_trust t s) /\ keeps s (set_trust t s).
Proof.
  unfold on_trust, zoom, record_event. destruct (append_run GENESIS entry_digest rid now "identity" eid ev from to_ who why ex (trust s)) as (t & -> & Hl & _).
  exists t. split; [done|]. unfold keeps, room, bodies. cbn. rewrite Hl. intros Hr. apply appended_room in Hr as [Hr ->]. split; [done|]. intros Ha.
  apply agrees_other; [done|]. by apply (agrees_ext (creds_at s)).
Qed.
Lemma legal_table rid now etype eid from action to_ who why ex : dict_get (from, action) CREDENTIAL_TRANSITIONS = Some to_ ->
  legal_entry (new_body rid now etype eid ("credential_" +:+ action) from to_ who why ex) = true.
Proof.
  intros H. apply dict_get_In, list_elem_of_In in H. apply existsb_exists. exists ((from, action), to_). split; [done|]. cbn.
  by rewrite !bool_decide_eq_true_2.
Qed.
(** The state after credentials of one identity changed and the ledger grew. *)
Lemma creds_after i x l t s : ki_id x = i -> forall j, creds_at (exec (put_ident (set_creds l x)) (set_trust t s)) j = with_creds i l (creds_at s) j.
Proof.
  intros <- j. unfold creds_at, with_creds. cbn. rewrite get_set. destruct (decide (j = ki_id x)) as [->|]; [by rewrite decide_True|by rewrite decide_False].
Qed.
Lemma creds_before i x s : dict_get i (by_id s) = Some x -> forall j, with_creds i (ki_creds x) (creds_at s) j = creds_at s j.
Proof. intros Hx j. unfold with_creds, creds_at. case_decide; [|done]. subst. by rewrite Hx. Qed.

Lemma keeps_mutate d k i x n c action actor reason s : store_inv s -> dict_get i (by_id s) = Some x -> ki_creds x !! n = Some c ->
  keeps s (exec (mutate_credential_locked d k x n c action actor reason) s).
Proof.
  intros Hs Hx Hn. destruct (ident_of s i x Hs Hx) as [Hok Ei]. unfold exec, mutate_credential_locked, m_bind at 1, on_trust, zoom.
  pose proof (transition_run (dr_entry d k) (dr_now d) "credential" (cd_id c) (cd_status c) action actor reason (cred_extra (ki_id x) (cd_type c)) (trust s)) as Ht.
  destruct (dict_get (cd_status c, action) CREDENTIAL_TRANSITIONS) as [to_|] eqn:E.
  2: { destruct Ht as (ex & t & -> & Hl). by apply keeps_frame. }
  destruct Ht as (t & -> & Hl). cbn [to_state new_body]. set (c' := moved_cred _ _ _). set (b := new_body _ _ _ _ _ _ _ _ _ _) in *.
  apply (keeps_trans _ (exec (put_ident (set_creds (<[n := c']> (ki_creds x)) x)) (set_trust t s))); [|apply keeps_persist].
  unfold keeps, room, bodies. cbn [put_ident m_put exec snd trust set_trust ledger]. rewrite Hl. intros Hr. apply appended_room in Hr as [Hr ->]. split; [done|]. intros Ha.
  eapply agrees_ext; [apply (creds_after i x _ t s Ei)|]. apply list_elem_of_split_length in Hn as (pre & post & Hsp & ->).
  rewrite Hsp, insert_app_r_alt, Nat.sub_diag by lia. cbn [list_insert insert].
  apply (agrees_move (creds_at s) i (ki_creds x) _ pre post c c' b); try done; [|apply Hok|by apply legal_table].
  eapply agrees_ext; [|exact Ha]. intros j. apply (creds_before i x s Hx).
Qed.
Lemma keeps_issue d k i type issuer ttl actor auto s : store_inv s -> unused_cred d s ->
  keeps s (exec (issue_credential d k i type issuer ttl actor auto) s).
Proof.
  intros Hs Hu. unfold exec, issue_credential. destruct (negb _); [done|]. destruct (_ || _); [done|].
  unfold m_bind at 1, get_ident, m_get. destruct (dict_get i (by_id s)) as [x|] eqn:Hx; [|done]. destruct (existsb _ _) eqn:Hex; [done|].
  unfold m_bind at 1, on_trust, zoom.
  pose proof (transition_run (dr_entry d k) (dr_now d) "credential" ("cred_" +:+ dr_cred d) "" "issue" actor ("issue " +:+ type +:+ " for " +:+ i) (cred_extra i type) (trust s)) as Ht.
  change (dict_get (""%string, "issue"%string) CREDENTIAL_TRANSITIONS) with (Some CREDENTIAL_STATE_PENDING) in Ht. destruct Ht as (t & -> & Hl).
  set (c := {| cd_id := _ |}). set (y := set_creds (ki_creds x ++ [c]) x). set (b := new_body _ _ _ _ _ _ _ _ _ _) in *.
  destruct (ident_of s i x Hs Hx) as [Hok Ei].
  assert (H2 : keeps s (exec persist (exec (put_ident y) (set_trust t s)))).
  { apply (keeps_trans _ (exec (put_ident y) (set_trust t s))); [|apply keeps_persist].
    unfold keeps, room, bodies. cbn [put_ident m_put exec snd trust set_trust ledger]. rewrite Hl. intros Hr. apply appended_room in Hr as [Hr ->]. split; [done|]. intros Ha.
    eapply agrees_ext; [apply (creds_after i x _ t s Ei)|]. apply agrees_issue; try done.
    - eapply agrees_ext; [|exact Ha]. intros j. apply (creds_before i x s Hx).
    - intros j z. rewrite (creds_before i x s Hx). unfold creds_at. destruct (dict_get j (by_id s)) as [u|] eqn:Hj; [|intros Hz; by apply not_elem_of_nil in Hz].
      intros Hz. by apply (Hu j u). }
  destruct auto; [|exact H2]. eapply keeps_trans; [exact H2|].
  apply (keeps_mutate d (S k) i y (length (ki_creds x)) c "verify" actor "verification passed").
  - apply (issued_inv i); try done; [by apply none_active|]. intros Hin. apply list_elem_of_fmap in Hin as (c' & E & Hc'). by apply (Hu i x c' Hx Hc').
  - change (dict_get i (dict_set (ki_id x) y (by_id s)) = Some y). rewrite Ei. apply dict_get_set_eq.
  - cbn. by apply list_lookup_middle.
Qed.

Lemma keeps_expire_loop d i x done l k (s : Store) : ki_id x = i -> dict_get i (by_id s) = Some x -> NoDup (cd_id <$> (done ++ l)) ->
  forall l' t, expire_loop d k i l s = (Ok l', set_trust t s) -> Z.of_nat (length (ledger t)) < LEDGER_MAX ->
  room s /\ (agrees (with_creds i (done ++ l) (creds_at s)) (bodies s) -> agrees (with_creds i (done ++ l') (creds_at s)) (body <$> ledger t)).
Proof.
  intros Ei. revert done k s. induction l as [|c l IH]; intros dn k s Hx Hd l' t Hr Hroom.
  - cbn in Hr. injection Hr as <- Hr. assert (ledger t = ledger (trust s)) as El by by rewrite Hr at 1. unfold room, bodies. rewrite <-El. done.
  - cbn [expire_loop] in Hr. destruct (cred_due (dr_now d) c) eqn:Hdue.
    + unfold m_bind at 1, on_trust, zoom in Hr. apply andb_true_iff in Hdue as [Hv _]. apply bool_decide_eq_true in Hv.
      pose proof (transition_run (dr_entry d k) (dr_now d) "credential" (cd_id c) (cd_status c) "expire" "system" "ttl reached" (cred_extra i (cd_type c)) (trust s)) as Ht.
      assert (E : dict_get (cd_status c, "expire"%string) CREDENTIAL_TRANSITIONS = Some CREDENTIAL_STATE_EXPIRED) by (by rewrite Hv). rewrite E in Ht.
      destruct Ht as (t1 & Ht1 & Hl1). rewrite Ht1 in Hr. unfold m_bind in Hr.
      destruct (expire_loop_spec d i l (S k) (set_trust t1 s)) as (l2 & t2 & Hr2 & _). rewrite Hr2 in Hr. cbn in Hr. injection Hr as <- ->. set (c' := moved_cred _ _ _).
      destruct (IH (dn ++ [c']) (S k) (set_trust t1 s)) with (l' := l2) (t := t) as [Hroom1 Hag]; [done| |done|done|].
      { rewrite <-app_assoc. rewrite fmap_app in Hd |- *. exact Hd. }
      unfold room in Hroom1. cbn in Hroom1. rewrite Hl1 in Hroom1. apply appended_room in Hroom1 as [Hroom0 Hb]. split; [done|]. intros Ha.
      rewrite <-!app_assoc in Hag. apply Hag. unfold bodies. cbn [trust set_trust]. rewrite Hl1, Hb.
      eapply (agrees_move (creds_at s) i (dn ++ c :: l) _ dn l c c'); try done. by apply legal_table.
    + unfold m_bind in Hr. destruct (expire_loop_spec d i l k s) as (l2 & t2 & Hr2 & _). rewrite Hr2 in Hr. cbn in Hr. injection Hr as <- ->.
      destruct (IH (dn ++ [c]) k s) with (l' := l2) (t := t) as [Hroom1 Hag]; [done| |done|done|]. { by rewrite <-app_assoc. }
      rewrite <-!app_assoc in Hag. done.
Qed.
Lemma due_none d i l k s : filter (fun c => cred_due (dr_now d) c = true) l = [] -> expire_loop d k i l s = (Ok l, s).
Proof.
  induction l as [|c l IH]; [done|]. rewrite filter_cons. case_decide as E; [done|]. intros Hl. cbn. destruct (cred_due (dr_now d) c); [done|].
  unfold m_bind. by rewrite IH.
Qed.
Lemma keeps_expire d i s : store_inv s -> keeps s (exec (expire_stale_credentials d i) s).
Proof.
  intros Hs. unfold exec, expire_stale_credentials, m_bind at 1, get_ident, m_get. destruct (dict_get i (by_id s)) as [x|] eqn:Hx; [|done].
  destruct (ident_of s i x Hs Hx) as [Hok Ei]. unfold m_bind at 1. case_decide as Hn.
  { apply length_zero_iff_nil in Hn. by rewrite (due_none d i _ 0 s Hn). }
  destruct (expire_loop_spec d i (ki_creds x) 0 s) as (l & t & Hr & Hl). rewrite Hr.
  apply (keeps_trans _ (exec (put_ident (set_creds l x)) (set_trust t s))); [|apply keeps_persist].
  intros Hroom. destruct (keeps_expire_loop d i x [] (ki_creds x) 0 s Ei Hx (io_cred_ids _ Hok) l t Hr Hroom) as [Hroom0 Hag]. split; [done|]. intros Ha.
  eapply agrees_ext; [apply (creds_after i x _ t s Ei)|]. apply Hag. eapply agrees_ext; [|exact Ha]. intros j. apply (creds_before i x s Hx).
Qed.

(** One identity is assigned to and saved. *)
Lemma keeps_edit {A} i x y (a : A) s : dict_get i (by_id s) = Some x -> ki_id y = i -> ki_creds y = ki_creds x ->
  keeps s (exec (seq! put_ident y in seq! persist in m_ret a) s).
Proof. intros Hx Hi Hc. apply (keeps_trans _ (exec (put_ident y) s)); [by apply (kept_put i x)|apply keeps_persist]. Qed.
Lemma keeps_new {A} x (a : A) s : dict_get (ki_id x) (by_id s) = None -> ki_creds x = [] -> keeps s (exec (seq! add_ident x in seq! persist in m_ret a) s).
Proof. intros Hx Hc. apply (keeps_trans _ (exec (add_ident x) s)); [by apply keeps_add|apply keeps_persist]. Qed.
Lemma keeps_mutate_credential d i cid action actor reason s : store_inv s -> keeps s (exec (mutate_credential d i cid action actor reason) s).
Proof.
  intros Hs. unfold exec, mutate_credential, m_bind at 1, get_ident, m_get. destruct (dict_get i (by_id s)) as [x|] eqn:Hx; [|done].
  destruct (list_find _ (ki_creds x)) as [[n c]|] eqn:Hf; [|done]. apply list_find_Some in Hf as (Hn & _). by apply (keeps_mutate d 0 i).
Qed.
Lemma keeps_create_sub d p wallet s : store_inv s -> dict_get (new_id d) (by_id s) = None -> keeps s (exec (create_sub_identity d p wallet) s).
Proof.
  intros Hs Hd. unfold exec, create_sub_identity, m_bind at 1, get_ident, m_get. destruct (dict_get p (by_id s)) as [parent|] eqn:Hp; [|done].
  destruct (decide _); [done|]. destruct (_ <=? _)%nat; [done|]. unfold m_bind at 1. destruct (by_wallet s !! py_lower wallet); [done|].
  destruct (ident_of s p parent Hs Hp) as [_ Ep]. set (x := new_ident _ _ _ _ _ _ _ _ _).
  apply (keeps_trans _ (exec (add_ident x) s)); [by apply keeps_add|]. refine (keeps_edit p parent _ _ (exec (add_ident x) s) _ _ _); try done.
  change (dict_get p (dict_set (ki_id x) x (by_id s)) = Some parent). rewrite get_set, decide_False; [done|]. intros E. cbn in E. congruence.
Qed.
Lemma keeps_points i points s : store_inv s -> keeps s (exec (add_karma_points i points) s).
Proof.
  intros Hs. unfold exec, add_karma_points, m_bind at 1, get_ident, m_get. destruct (dict_get i (by_id s)) as [x|] eqn:Hx; [|done].
  unfold m_bind at 1. destruct (main_in s i x Hs Hx) as [j Hj]. destruct (ident_of s j _ Hs Hj) as [_ Ej]. by refine (keeps_edit j (main_of x s) _ _ s Hj _ _).
Qed.
Lemma keeps_referral tg code s : store_inv s -> keeps s (exec (start_referral tg code) s).
Proof.
  intros Hs. unfold exec, start_referral, m_bind at 1, m_get. destruct (get_by_invite_code code s); [|done]. case_decide; [done|].
  unfold m_bind at 1. destruct (get_by_telegram tg s) as [x|] eqn:Hx; [|done]. case_decide; [|done].
  unfold get_by_telegram, identity_at in Hx. destruct (nonempty (by_tg s !! tg)) as [i|]; [|done]. cbn in Hx. destruct (ident_of s i x Hs Hx) as [_ Ei].
  apply (keeps_trans _ (exec (put_ident (set_referred (Some code) x)) s)); [by apply (kept_put i x)|apply keeps_persist].
Qed.
Lemma kept_release tg i s : store_inv s -> keeps s (exec (release_tg tg i) s).
Proof.
  intros Hs. unfold exec, release_tg, m_bind at 1, m_get. destruct (nonempty _) as [p|]; [|done]. case_decide; [done|].
  unfold m_bind, get_ident, m_get. destruct (dict_get p (by_id s)) as [y|] eqn:Hy; [|done]. destruct (ident_of s p y Hs Hy). by apply (kept_put p y).
Qed.
Lemma keeps_bind_2fa d tg identity_id code name s : store_inv s -> unused_cred d s -> keeps s (exec (bind_by_2fa d tg identity_id code name) s).
Proof.
  intros Hs Hu. unfold exec, bind_by_2fa. set (i := py_strip identity_id). unfold m_bind at 1, get_ident at 1, m_get at 1.
  destruct (dict_get i (by_id s)) as [x|] eqn:Hx; [|done]. case_decide; [done|]. unfold m_bind at 1, lift. destruct (compare_digest _ _) as [[]|]; [|done..]. cbn [negb].
  destruct (ident_of s i x Hs Hx) as [Hok Ei].
  destruct (release_run tg i x s Hs Hx) as (s1 & Hrel & Hs1 & Hx1 & Htg1 & Hold1 & Hm1). pose proof (kept_release tg i s Hs) as K1. unfold exec in K1. rewrite Hrel in K1. cbn in K1.
  unfold m_bind at 1. rewrite Hrel. set (y := set_twofa "" (set_tg (Some tg) name x)).
  assert (Hy : ident_ok y) by (destruct Hok; by constructor).
  pose proof (inv_take_tg i x y tg s1 Hs1 Hx1 ltac:(done) Hy ltac:(done) Htg1) as Hs2.
  assert (K2 : keeps s1 (exec (seq! put_ident y in reindex_tg y) s1)).
  { apply (keeps_trans _ (exec (put_ident y) s1)); [by apply (kept_put i x)|apply keeps_index]. }
  unfold m_bind at 1, put_ident at 1, m_put at 1. unfold m_bind at 1, reindex_tg at 1, m_put at 1.
  match goal with |- context [m_bind (on_trust _) _ ?st] => set (s2 := st) end. change (store_inv s2) in Hs2. change (keeps s1 s2) in K2.
  assert (Hy2 : dict_get i (by_id s2) = Some y) by (cbn; rewrite Ei; apply dict_get_set_eq).
  unfold m_bind at 1. destruct (kept_event (dr_entry d 0) (dr_now d) i "telegram_bind" "unbound" "telegram_bound" (tg_actor tg) "2fa bind success" [] s2) as (t & -> & K3).
  set (s3 := set_trust t s2) in *. assert (Hs3 : store_inv s3) by by apply inv_trust.
  fold (revoke_old d tg y). unfold m_bind at 1. destruct (revoke_old_run d tg i y s3 Hs3 Hy2) as (l & s4 & Hr4 & Hs4 & Hy4 & Hids & Hnone & Ho4 & Hm4).
  assert (K4 : keeps s3 s4).
  { unfold revoke_old in Hr4. destruct (list_find _ _) as [[n c]|] eqn:Hf; [|by injection Hr4 as <-]. apply list_find_Some in Hf as (Hn & _).
    pose proof (keeps_mutate d 1 i y n c "revoke" (tg_actor tg) "re-bind replaces old telegram credential" s3 Hs3 Hy2 Hn) as K. unfold exec in K. unfold m_bind in Hr4.
    destruct (mutate_credential_locked _ _ _ _ _ _ _ _ s3) as [[c'|ex] s4']; [|done]. by injection Hr4 as <-. }
  rewrite Hr4. assert (Hu4 : unused_cred d s4) by exact (unused_kept d tg i x y l s s1 s3 s4 Hu Hx Ei eq_refl Hold1 eq_refl Hy4 Hids Ho4).
  assert (K : keeps s s4) by (eapply keeps_trans; [exact K1|]; eapply keeps_trans; [exact K2|]; eapply keeps_trans; [exact K3|exact K4]).
  eapply keeps_trans; [exact K|]. unfold m_bind at 1. pose proof (keeps_issue d 2 i "telegram" "karma" 0 (tg_actor tg) true s4 Hs4 Hu4) as K5. unfold exec in K5.
  destruct (issue_credential _ _ _ _ _ _ _ _ s4) as [[c|ex] s5]; [|exact K5]. eapply keeps_trans; [exact K5|]. apply keeps_persist.
Qed.

Lemma run_store_op_keeps o s : store_inv s -> admissible o s -> o <> RestartStore -> keeps s (run_store_op o s).
Proof.
  intros Hs Ha Hne. destruct o; cbn [run_store_op]; try done.
  - unfold exec, get_or_create_by_wallet, m_bind at 1, m_get. destruct (get_by_wallet wallet s); [done|]. by refine (keeps_new _ _ s _ _).
  - by apply keeps_create_sub.
  - unfold exec, bind_telegram, m_bind at 1, get_ident, m_get. destruct (dict_get i (by_id s)) as [x|] eqn:Hx; [|done]. destruct (ident_of s i x Hs Hx) as [_ Ei].
    unfold m_bind at 1. destruct (match nonempty _ with Some _ => _ | None => _ end); [done|]. set (y := set_tg (Some tg) name x).
    apply (keeps_trans _ (exec (put_ident y) s)); [by apply (kept_put i x)|]. eapply keeps_trans; [apply (keeps_index y)|apply keeps_persist].
  - by apply keeps_bind_2fa.
  - unfold exec, seed_identity, m_bind at 1, get_ident, m_get. destruct (dict_get i (by_id s)) as [x|] eqn:Hx; [|cbn in Ha; rewrite Hx in Ha; by destruct Ha].
    destruct (ident_of s i x Hs Hx). by refine (keeps_edit i x _ _ s Hx _ _).
  - unfold exec, update_policy, m_bind at 1, get_ident, m_get. destruct (dict_get i (by_id s)) as [x|] eqn:Hx; [|done]. destruct (ident_of s i x Hs Hx).
    case_decide; [done|]. by refine (keeps_edit i x _ _ s Hx _ _).
  - by apply keeps_points.
  - by apply keeps_referral.
  - by apply keeps_issue.
  - by apply keeps_mutate_credential.
  - by apply keeps_mutate_credential.
  - unfold revoke_credential. case_decide; [done|]. by apply keeps_mutate_credential.
  - by apply keeps_expire.
  - unfold exec, identity_card, m_bind at 1, m_get. destruct (resolve_main_identity i s) as [x|]; [|done]. destruct (negb _); [done|].
    pose proof (keeps_expire d (ki_id x) s Hs) as He. unfold m_bind at 1. unfold exec in He. destruct (expire_stale_credentials d (ki_id x) s) as [[n|ex] s1]; [|done]. cbn in He.
    eapply keeps_trans; [exact He|]. unfold m_bind at 1, get_ident, m_get. unfold m_bind.
    match goal with |- context [record_event _ _ ?a ?b _ ?c ?d ?e ?f ?g ?h ?j] => destruct (kept_event a b c d e f g h j s1) as (t & -> & K) end. exact K.
  - unfold exec, set_identity_class. destruct (negb _); [done|]. unfold m_bind at 1, get_ident, m_get. destruct (dict_get i (by_id s)) as [x|] eqn:Hx; [|done].
    destruct (ident_of s i x Hs Hx) as [_ Ei]. case_decide; [done|]. unfold m_bind at 1.
    match goal with |- context [record_event _ _ ?a ?b _ ?c ?d ?e ?f ?g ?h ?j] => destruct (kept_event a b c d e f g h j s) as (t & -> & K) end.
    eapply keeps_trans; [exact K|]. by refine (keeps_edit i x _ _ (set_trust t s) Hx _ _).
Qed.


(** The drawn credential checked by evaluation. *)
Definition unused_b (d : Draw) (s : Store) : bool :=
  forallb (fun kx => forallb (fun c => negb (bool_decide (cd_id c = ("cred_" +:+ dr_cred d)%string))) (ki_creds (snd kx))) (by_id s).
Lemma unused_by_eval d s : unused_b d s = true -> unused_cred d s.
Proof.
  unfold unused_b. rewrite forallb_forall. intros H i x c Hx Hc. apply dict_get_In, list_elem_of_In in Hx. apply H in Hx. rewrite forallb_forall in Hx.
  apply list_elem_of_In, Hx in Hc. by apply negb_true_iff, bool_decide_eq_false in Hc.
Qed.
Definition empty_store (outcomes : list bool) : Store :=
  {| by_id := []; by_wallet := ∅; by_tg := ∅; by_invite := ∅; saved := []; trust := empty_trust outcomes |}.
Lemma empty_people : people_ok [].
Proof. constructor; try done; try apply NoDup_nil_2. Qed.
Lemma empty_store_inv outcomes : store_inv (empty_store outcomes).
Proof. split_and!; [apply empty_people| |apply empty_people]. constructor; [|done]. intros w i. cbn. rewrite lookup_empty. split; [done|]. by intros (x & Hx & _). Qed.
End Store.

(** ** Runs *)

Definition demo_digest (h : nat) (b : EntryBody) : nat := S h.
Definition draw (now : Z) (token invite : string) : Draw :=
  {| dr_now := now; dr_id := token; dr_invite := invite; dr_cred := token; dr_entry := fun _ => token |}.
Abbreviation run_demo os := (run_store 0%nat demo_digest os (empty_store [])).

(** An identity is created, given a code, bound by it, has a sub-identity, an e-mail credential that expires, and the process restarts. *)
Definition demo_calls : list StoreOp :=
  [GetOrCreate (draw 1 "a" "INVITEAA") "0xAB" []; Seed (draw 1 "t1" "INVITEAA") "kid_a" "0xAB" "123456" None fzero; Bind2fa (draw 2 "t2" "") 7 " kid_a " "123456" None;
   CreateSub (draw 3 "t3" "INVITEBB") "kid_a" "0xCD"; IssueCredential (draw 4 "t4" "") "kid_a" "email" "karma" 10 "system" true;
   PresentCard (draw 20 "t5" "") "kid_t3" "agent" "full"]%string.
Ltac admissible_by_eval :=
  repeat match goal with
  | |- admissible_run _ _ (_ :: _) _ => split
  | |- admissible _ _ => first [exact I | apply unused_by_eval; vm_compute; reflexivity | vm_compute; reflexivity
                              | apply (bool_decide_unpack _); vm_compute; exact I]
  | |- admissible_run _ _ [] _ => exact I
  end.
Lemma demo_admissible : admissible_run 0%nat demo_digest demo_calls (empty_store []).
Proof. unfold demo_calls. admissible_by_eval. Qed.

Lemma identity_store_invariant_witness : get_by_telegram 7 (run_demo demo_calls) = dict_get "kid_a"%string (by_id (run_demo demo_calls)).
Proof.
  pose proof (identity_store_invariant 0%nat demo_digest demo_calls (empty_store []) (empty_store_inv []) demo_admissible) as H. cbv zeta in H.
  assert (Hx : exists x, dict_get "kid_a"%string (by_id (run_demo demo_calls)) = Some x /\ ki_tg x = Some 7) by (eexists; split; vm_compute; reflexivity).
  revert H Hx. generalize (run_demo demo_calls). intros s (_ & H & _) (x & Hx & Ht). rewrite Hx. exact (proj2 (H _ x Hx) 7 Ht).
Defined.
Definition seeded : Store (Hash := nat) := 
  run_demo [GetOrCreate (draw 1 "a" "INVITEAA") "0xAB" []; Seed (draw 1 "t1" "INVITEAA") "kid_a" "0xAB" "123456" None fzero]%string.
Lemma seeded_inv : store_inv seeded.
Proof. apply run_store_inv; [apply empty_store_inv|admissible_by_eval]. Qed.
Lemma bind_2fa_exact_witness : match bind_by_2fa 0%nat demo_digest (draw 2 "t2" "") 7 " kid_a " "123456" None seeded with
  | (Ok y, s') => get_by_telegram 7 s' = Some y /\ ki_level y <> VERIFICATION_UNVERIFIED
  | (Err _, _) => False
  end.
Proof.
  pose proof (bind_2fa_exact 0%nat demo_digest (draw 2 "t2" "") 7 " kid_a " "123456" None seeded seeded_inv
    ltac:(apply unused_by_eval; vm_compute; reflexivity)) as H. cbv zeta in H.
  assert (Hok : is_ok (outcome (bind_by_2fa 0%nat demo_digest (draw 2 "t2" "") 7 " kid_a " "123456" None) seeded) = true) by (vm_compute; reflexivity).
  unfold outcome in Hok. destruct (bind_by_2fa 0%nat demo_digest (draw 2 "t2" "") 7 " kid_a " "123456" None seeded) as [[y|ex] s']; [|discriminate Hok].
  destruct H as (_ & _ & _ & H1 & H2 & _). split; [exact H1|exact H2].
Defined.

(** ** Where the store is not what it seems *)

Definition rebound : list StoreOp :=
  [Seed (draw 1 "t1" "INVITEAA") "kid_a" "0xAB" "c1" None fzero; Bind2fa (draw 2 "t2" "") 1 "kid_a" "c1" None;
   Seed (draw 3 "t3" "INVITEAA") "kid_a" "0xAB" "c2" None fzero; Bind2fa (draw 4 "t4" "") 2 "kid_a" "c2" None]%string.
Definition speaks_for (tg : Z) (s : Store (Hash := nat)) : option (string * option Z) := (fun x => (ki_id x, ki_tg x)) <$> get_by_telegram tg s.
(** An identity that was bound to another telegram account still answers to the old one, until the process restarts. *)
Lemma old_account_still_speaks : speaks_for 1 (run_demo rebound) = Some ("kid_a"%string, Some 2) /\
  speaks_for 1 (run_demo (rebound ++ [RestartStore])) = None.
Proof. split; vm_compute; reflexivity. Qed.
(** When the old account is bound to someone else, the identity loses its present one. *)
Lemma wrong_account_released :
  let os := rebound ++ [Seed (draw 5 "t5" "INVITEBB") "kid_b" "0xCD" "c3" None fzero; Bind2fa (draw 6 "t6" "") 1 "kid_b" "c3" None]%string in
  (ki_tg <$> dict_get "kid_a"%string (by_id (run_demo os))) = Some None /\ speaks_for 2 (run_demo (os ++ [RestartStore])) = None.
Proof. split; vm_compute; reflexivity. Qed.
(** A seeded identity takes over the wallet of another one. *)
Lemma seed_takes_wallet :
  let s := run_demo [GetOrCreate (draw 1 "t1" "INVITEAA") "0xAB" []; Seed (draw 2 "t2" "INVITEBB") "kid_b" "0xAB" "c" None fzero]%string in
  (ki_id <$> get_by_wallet "0xAB" s) = Some "kid_b"%string /\ (ki_wallet <$> dict_values (by_id s)) = ["0xab"; "0xab"]%string.
Proof. split; vm_compute; reflexivity. Qed.
(** A referral by a code in lower case is recorded and never counted. *)
Lemma lower_case_referral_lost :
  let s := run_demo [GetOrCreate (draw 1 "t1" "INVITEAA") "0xAB" []; GetOrCreate (draw 2 "t2" "INVITEBB") "0xCD" []; BindTelegram "kid_t2" 5 None;
                     StartReferral 5 "inviteaa"]%string in
  (ki_referred <$> dict_get "kid_t2"%string (by_id s)) = Some (Some "inviteaa"%string) /\ get_referral_chain "kid_t1" s = [].
Proof. split; vm_compute; reflexivity. Qed.
(** A credential is verified after its time is over and counts until the next sweep. *)
Lemma verified_past_expiry :
  let s := run_demo [GetOrCreate (draw 1 "t1" "INVITEAA") "0xAB" []; IssueCredential (draw 2 "t2" "") "kid_t1" "email" "karma" 10 "system" false;
                     VerifyCredential (draw 100 "t3" "") "kid_t1" "cred_t2" "system"]%string in
  (ki_level <$> dict_get "kid_t1"%string (by_id s)) = Some VERIFICATION_BASIC.
Proof. vm_compute. reflexivity. Qed.
